(* ===== verification/_CoqProject ===== *)
-Q . S2P
Prelude.v
KString.v
Riscv.v
Kalloc.v
DList.v
Sleeplock.v
Bio.v
Log.v
LogCrash.v
LogOps.v
Vm.v
VmSpec.v
VmUser.v
VmCopy.v
VmFork.v
KernVm.v
VmFree.v
VmProps.v
Blocks.v
Fs.v
FsBlock.v
FsInode.v
FsMeta.v
FsFile.v
FsTrunc.v
FsCache.v
FsDir.v
FsProps.v
FsPath.v
Spinlock.v
Kernel.v
SleepWake.v
Pipe.v
PipeProps.v
Proc.v
KState.v
ProcMem.v
KernFs.v
ForkProps.v
ExitWait.v
ProcProps.v
Console.v
Syscall.v
Exec.v
ExecLoad.v
ExecProps.v
Sysfile.v
Trap.v
TrapProps.v
FdFrame.v
FdRefs.v
ConsProps.v
Buddy.v
BuddyProps.v
BuddyInit.v
Virtio.v
VirtioProps.v
VirtioLive.v
BootMem.v
UserInit.v
Boot.v
BootProps.v
Ulib.v
UlibProps.v
Sh.v
ShParse.v
ShWords.v
ShRun.v
ShRunProps.v
Grep.v
Umalloc.v
UmallocProps.v
Mkfs.v
MkfsView.v
MkfsTree.v
MkfsProps.v
NameProps.v
ExecRun.v
Utils.v
UThread.v
