(* ===== verification/Prelude.v ===== *)
(** * xv6 for RISC-V: a verification development

    xv6 is a small Unix.  Its kernel ([src/kernel]) runs processes on several
    harts, with page tables, a file system with a crash-recovery log on a virtio
    disk, pipes and a console; [src/mkfs] makes the disk image; [src/user] has the
    shell, the library and the programs that run on it.  This library translates
    the C code into functions and proves what each part promises to the parts
    that use it.

    ** How C code is modelled

    A routine is a function of the monad [M] below: from a state to [Ok] with a
    value and a new state, to [Panic], or to [Sleep] where it has to wait.  Structs
    are records, pointers to entries of a table are indices from 1 on (0 is the
    null pointer), and pointers into memory are addresses of a total byte memory
    ([KString.mem]), so page tables, free pages, trapframes and bit arrays are the
    bytes the code works on.  Integers are in [Z] with the wrap-around of their
    width written out ([u8] ... [u64], [s32]).  A handler runs to its end or to its next wait without
    interference; where the interleaving is the point (spin locks, [sleep] and
    [wakeup], the log's reservations, the disk driver, pipes) the routine is cut into steps and a
    step relation interleaves them.

    ** The parts, bottom up

    - This file: the monad, loops, records, machine integers, little-endian words,
      and the tactics and hints of the development.
    - [KString], [Riscv]: [string.c]; the macros of [riscv.h], [memlayout.h], [param.h].
    - Memory.  [Kalloc] ([kalloc.c]) is the free list.  [Vm] ([vm.c]) has the page-table
      routines; [VmSpec] gives a page table its meaning ([pte_of], the invariant
      [pt_inv]), [VmUser] a user address space ([umem], a list of frames), [VmCopy],
      [VmFork], [VmFree] specify copying, [fork]'s copy and freeing; [KernVm] the kernel's
      own table.  [VmProps] has the theorems.
    - Disk.  [Virtio] ([virtio_disk.c]) and [VirtioProps]: the driver, the device and
      interrupts implement an atomic disk; [VirtioLive]: calls return.  [DList] ([list.c]), [Sleeplock] ([sleeplock.c]), [Bio]
      ([bio.c]): the buffer cache implements a map from blocks to contents with locks.
      [Log] ([log.c]), [LogCrash] (crash safety), [LogOps] (concurrent operations).
    - File system.  [Blocks] is the interface between [fs.c] and what is below it: the
      class [BlockLayer] of its operations and the laws [BlockLaws], which the log
      over the cache satisfies.  [Fs] ([fs.c]) is defined over the class and verified
      against the laws in [FsBlock] (bitmap), [FsInode], [FsFile] (contents), [FsMeta], [FsCache] (inodes),
      [FsTrunc], [FsDir] (directories, paths); [FsProps] has the theorems and
      runs them on the real stack.  [FsPath] gives paths their meaning on the tree on disk
      ([walk_path]) and specifies [namex]; [NameProps] has the theorem and runs it on the image of [mkfs].
    - Processes.  [Spinlock] ([spinlock.c]); [Kernel] has the state of the kernel and [sleep] and
      [wakeup] of [proc.c], which [SleepWake] takes apart; [Pipe] ([pipe.c], [file.c]), [PipeProps]; [Proc]
      ([proc.c]); [KState] (normal forms of states), [ProcMem] (a process's memory), [ForkProps],
      [ExitWait], [ProcProps].
    - System calls.  [Console] ([uart.c], [printf.c], [console.c]) and [ConsProps]; [Syscall] ([syscall.c], [sysproc.c]), [Exec] ([exec.c]),
      [Sysfile] ([sysfile.c]), [Trap] ([trap.c], [plic.c]) and [TrapProps].  [KernFs] carries [FsPath] over to a process
      inside an operation, with the class [TxLaws] for what the log promises around it; [ExecLoad]
      (loading the segments), [ExecProps] (stack and change of address space) and [ExecRun] verify
      [exec].  [FdFrame] has a small logic for what leaves descriptors alone, [FdRefs] the
      reference counts of open files.
    - [Buddy] ([buddy.c]), [BuddyProps], [BuddyInit]: the buddy allocator.
    - Boot.  [Boot] ([start.c], [main.c]) calls the initialisation of every part; [BootMem] and
      [UserInit] specify [procinit] and [userinit], [BootProps] the whole.
    - [Mkfs] ([mkfs.c]), [MkfsView], [MkfsTree], [MkfsProps]: the image, in the terms of the lemmas
      on [fs.c].
    - User programs.  [Ulib] ([ulib.c], [printf.c]), [UlibProps]; [Sh] (the parser of [sh.c]), [ShParse],
      [ShWords]; [ShRun] (running commands), [ShRunProps]; [Grep] ([grep.c]); [Umalloc] ([umalloc.c]), [UmallocProps];
      [Utils] ([wc.c], [cat.c], [echo.c]); [UThread] ([uthread.c]).

    ** What the theorems show

    - Storage.  A crash after any prefix of a commit's writes leaves all or none of
      the transaction ([commit_crash_atomic]), recovery may be interrupted too
      ([recovery_idempotent]); the reservations of [begin_op] suffice ([reservation_safe]).  The driver
      refines an atomic disk ([virtio_trace_refines]), and in fair runs its wakeups bring every
      submitted call back ([virtio_call_returns]); the cache refines a map from blocks to contents ([bread_refines]).  What
      [writei] writes [readi] reads, and other files and inodes stay ([writei_readi]), [dirlink] and [dirlookup] agree ([dirlink_dirlookup]), paths
      lead where the directories on disk say ([namei_resolves]), [itrunc] returns exactly the blocks of a file ([itrunc_frees]), and [mkfs] makes a well-formed image
      with the given files ([mkfs_image]).
    - Memory.  [fork] gets a copy of every page, given three free pages to begin with ([uvmcopy_copies]), [copyout] and [copyin] are inverse
      and fail exactly outside of user memory ([copyout_copyin]), address spaces of a
      size over 0 return every page ([proc_memory_lifecycle]); the buddy allocator and the allocator of the user
      library hand out disjoint blocks and lose none ([bd_malloc_disjoint], [bd_free_merges],
      [bd_init_establishes], [umalloc_safe]).
    - Processes.  [boot_kernel] says what [main] leaves to the scheduler; [fork_copies],
      [exit_wakes_parent], [wait_collects] follow a process through its life; [scheduler_fair];
      mutual exclusion of [acquire] ([spinlock_mutex]), no lost wakeup of [sleep] ([no_lost_wakeup]), pipes
      as queues in every interleaving ([pipe_fifo]); the console's line editor
      ([console_line_discipline]).
    - System calls.  An [ecall] reaches its handler and returns behind it ([usertrap_syscall]); [exec] replaces
      the process by the program in the file ([exec_program]) or leaves it alone ([exec_rejects]); the
      reference counts of open files are exact after every call ([file_refs_exact]).
    - Programs.  The shell's parser accepts its grammar, ends on every line and
      makes well-formed strings ([parsecmd_grammar], [parsecmd_terminates], [parsecmd_strings]); commands
      run with the right descriptors ([runcmd_wired], [shell_session]); [grep] decides its
      expressions ([match_decides]).
    - Where the code does not do what it means to: [recovery_unpin_underflow],
      [mkfs_log_overflow], [uvmcopy_oom_panics], [proc_freepagetable_leaks], [bd_init_power_of_two],
      [mkfs_root_hole], [malloc_negative_sbrk].

    ** Bounds and fuel

    A counted loop recurses on its number of turns.  Other loops of the kernel are
    [while_], which allows 2^64 turns, more than a loop with a 64-bit counter can
    make; running out is the outcome [Panic], so every theorem that a routine ends in
    [Ok] includes that the bound suffices.  Loops of the user programs over strings and
    free lists take fuel and return [None], or the parser its own result, when it is
    used up; [parsecmd_terminates] and [umalloc_safe] prove that it is not.  Where a loop
    can wait for ever ([sleep], the spin of [acquire]) there is no fuel: the wait is an
    outcome or a step.

    Third-party code is a parameter with its documented behaviour as hypotheses: the
    virtio device ([Virtio]), which finishes every request with status 0 (the driver panics on any
    other); linker symbols ([end_], [etext]) are variables.

    ** Not modelled

    - Assembly ([entry.S], [kernelvec.S], [swtch.S], [trampoline.S], [usys.S], [initcode.S], [uthread_switch.S]): the C
      code's side of it is in [Boot], [Trap] and [Proc].  Memory ordering and the cache of
      translations: accesses take effect in order, [sfence_vma] and [__sync_synchronize] do
      nothing.
    - Counters that would take 2^31 steps to overflow are integers without bound: [nextpid], the
      reference counts of files and inodes.  [sched] does not check the interrupt flag or save
      [intena], and [consputc] does not spin after a panic, which ends the model.
    - Interrupts inside a handler and other processes between two waits of one
      handler, outside the step relations named above.  What a handler prints before a panic.
    - [ramdisk.c] (not built, uses fields that [struct buf] no longer has); the test programs;
      [ls], [init] and the programs that only pass their arguments to one system call.
    - All handlers of [Syscall], [Sysfile] and [Trap] are defined in full.  For those that change the
      directory tree ([link], [unlink], [create]) the theorems are on the routines they call and on
      descriptors, not on the tree they leave. *)
From stdpp Require Import base list gmap strings.
From Stdlib Require Import ZArith Lia.

#[local] Open Scope Z_scope.

(** ** Outcomes and the kernel monad

    A kernel routine runs on a state [S].  It returns a value, it calls
    [panic] (the machine stops, no state is left), or it calls [sleep] on a
    channel with no other process there to wake it. *)

Inductive chan : Type :=
| Chan (what : string) (which : Z).

Inductive outcome (S A : Type) : Type :=
| Ok (a : A) (s : S)
| Panic (msg : string)
| Sleep (c : chan) (s : S).
Arguments Ok {S A} a s.
Arguments Panic {S A} msg.
Arguments Sleep {S A} c s.

Definition M (S A : Type) : Type := S -> outcome S A.

Definition ret {S A} (a : A) : M S A := fun s => Ok a s.

Definition bind {S A B} (m : M S A) (k : A -> M S B) : M S B := fun s =>
  match m s with
  | Ok a s' => k a s'
  | Panic msg => Panic msg
  | Sleep c s' => Sleep c s'
  end.

Declare Scope xv6_scope.
Delimit Scope xv6_scope with xv6.
Notation "x ← y ; z" := (bind y (fun x => z))
  (at level 20, y at level 100, z at level 200, only parsing) : xv6_scope.
Notation "' x ← y ; z" := (bind y (fun x => z))
  (at level 20, x pattern, y at level 100, z at level 200, only parsing) : xv6_scope.
Notation "x ;; z" := (bind x (fun _ => z))
  (at level 100, z at level 200, right associativity) : xv6_scope.
#[local] Open Scope xv6_scope.

Definition gets {S A} (f : S -> A) : M S A := fun s => Ok (f s) s.
Definition modify {S} (f : S -> S) : M S unit := fun s => Ok tt (f s).
Definition panic {S A} (msg : string) : M S A := fun _ => Panic msg.
Definition sleep_on {S A} (c : chan) : M S A := fun s => Sleep c s.

(** Run a routine of a component on the part of the state it owns. *)
Definition zoom {S T A} (get : S -> T) (put : T -> S -> S) (m : M T A) : M S A :=
  fun s => match m (get s) with
           | Ok a t => Ok a (put t s)
           | Panic msg => Panic msg
           | Sleep c t => Sleep c (put t s)
           end.

Definition result_of {S A} (o : outcome S A) : option A :=
  match o with Ok a _ => Some a | _ => None end.

Definition state_of {S A} (o : outcome S A) : option S :=
  match o with Ok _ s => Some s | _ => None end.

(** A [while] loop: [f] returns [inl a] to go on with the loop variables [a] and
    [inr b] to leave the loop.  [iter_pos p] runs the body [p] times at most;
    [while_] allows [2^64] turns, more than a loop with a 64-bit counter can
    make, and is total for every loop proved to end. *)
Fixpoint iter_pos {S A B} (p : positive) (f : A -> M S (A + B)) (r : A + B) : M S (A + B) :=
  match r with
  | inr b => ret (inr b)
  | inl a =>
      match p with
      | xH => f a
      | xO p => r ← iter_pos p f (inl a) ; iter_pos p f r
      | xI p => r ← f a ; r ← iter_pos p f r ; iter_pos p f r
      end
  end.

Definition while_ {S A B} (f : A -> M S (A + B)) (a : A) : M S B :=
  r ← iter_pos (2 ^ 64) f (inl a) ;
  match r with
  | inr b => ret b
  | inl _ => panic "out of fuel"
  end.

(** [m] started in [s] returns, and its result and final state satisfy [Q]. *)
Definition wp {S A} (m : M S A) (Q : A -> S -> Prop) (s : S) : Prop :=
  match m s with Ok a s' => Q a s' | _ => False end.

(** ** Record update: [r <| field := v |>] *)

Class Eta (R : Type) := eta : R -> R.
Class FieldUpdate {R T : Type} (f : R -> T) := { field_update : (T -> T) -> R -> R }.

Ltac derive_field_update :=
  match goal with
  | |- @FieldUpdate ?R ?T ?f =>
      let e := constr:(eta (R := R)) in
      let e := eval cbv beta delta [eta] in e in
      let e := eval hnf in e in
      match eval pattern f in e with
      | (fun _ => ?b) _ => fail 1 "not a field:" f
      | ?g _ => let u := constr:(fun (h : T -> T) (r : R) => g (fun r' : R => h (f r')) r) in
                let u := eval cbv beta in u in
                exact (Build_FieldUpdate R T f u)
      end
  end.

#[export] Hint Extern 0 (FieldUpdate _) => derive_field_update : typeclass_instances.

Notation "r <| f := v |>" := (field_update (f := f) (fun _ => v) r)
  (at level 1, f at next level, left associativity).

(** ** Spinlocks of a component

    Inside one handler a component's spinlock is a flag of its state: [acquire]
    of a lock this CPU already holds panics, and so does [release] of a lock it
    does not hold (spinlock.c, [holding]). *)

Definition acquire {S} (lk : S -> bool) `{!FieldUpdate lk} : M S unit := fun s =>
  if lk s then Panic "acquire" else Ok tt (s <| lk := true |>).

Definition release {S} (lk : S -> bool) `{!FieldUpdate lk} : M S unit := fun s =>
  if lk s then Ok tt (s <| lk := false |>) else Panic "release".

(** ** Machine integers *)

Definition u8 (z : Z) : Z := z mod 2 ^ 8.
Definition u16 (z : Z) : Z := z mod 2 ^ 16.
Definition u32 (z : Z) : Z := z mod 2 ^ 32.
Definition u64 (z : Z) : Z := z mod 2 ^ 64.
Definition s8 (z : Z) : Z := (z + 2 ^ 7) mod 2 ^ 8 - 2 ^ 7.
Definition s16 (z : Z) : Z := (z + 2 ^ 15) mod 2 ^ 16 - 2 ^ 15.
Definition s32 (z : Z) : Z := (z + 2 ^ 31) mod 2 ^ 32 - 2 ^ 31.

(** ** Little-endian bytes *)

Fixpoint le_bytes (n : nat) (z : Z) : list Z :=
  match n with
  | O => []
  | S n => z mod 256 :: le_bytes n (z / 256)
  end.

Fixpoint le_val (bs : list Z) : Z :=
  match bs with
  | [] => 0
  | b :: bs => b + 256 * le_val bs
  end.

Definition is_byte (z : Z) : Prop := 0 <= z < 256.

(** ** Byte strings inside a larger byte list *)

Definition slice (off len : nat) (l : list Z) : list Z := take len (drop off l).

Definition splice (off : nat) (bs l : list Z) : list Z :=
  take off l ++ bs ++ drop (off + length bs) l.

(** A little-endian integer of [w] bytes at offset [off]. *)
Definition get_le (w off : nat) (l : list Z) : Z := le_val (slice off w l).
Definition put_le (w off : nat) (v : Z) (l : list Z) : list Z := splice off (le_bytes w v) l.

(** [n] consecutive integers from [a]: the values of [for(i = a; i < a + n; i++)]. *)
Fixpoint zseq (a : Z) (n : nat) : list Z :=
  match n with
  | O => []
  | S n => a :: zseq (a + 1) n
  end.

(** ** Tactics *)

Ltac mauto :=
  unfold bind, ret, gets, modify, panic, sleep_on, zoom, acquire, release,
    field_update in *; cbn in *.

(** Closed powers of two as literals, for [lia]. *)
Ltac is_Zlit z := match z with Z0 => idtac | Zpos _ => idtac | Zneg _ => idtac end.
Ltac zpow :=
  repeat match goal with
         | |- context [Z.pow 2 ?n] => is_Zlit n; let v := eval vm_compute in (2 ^ n) in
             change (2 ^ n) with v in *
         | H : context [Z.pow 2 ?n] |- _ => is_Zlit n; let v := eval vm_compute in (2 ^ n) in
             change (2 ^ n) with v in *
         end.
Ltac zlia := unfold u8, u16, u32, u64, s8, s16, s32, is_byte in *; zpow; Z.div_mod_to_equations; lia.

Create HintDb xv6.
Create Rewrite HintDb xv6.

(** ** The monad's laws and inversion *)

Lemma bind_Ok {S A B} (m : M S A) (k : A -> M S B) s a s' :
  m s = Ok a s' -> bind m k s = k a s'.
Proof. intros H. unfold bind. by rewrite H. Qed.

Lemma bind_Ok_inv {S A B} (m : M S A) (k : A -> M S B) s b s' :
  bind m k s = Ok b s' -> exists a s1, m s = Ok a s1 /\ k a s1 = Ok b s'.
Proof. unfold bind. destruct (m s) eqn:E; naive_solver. Qed.

Lemma bind_assoc {S A B C} (m : M S A) (k : A -> M S B) (h : B -> M S C) s :
  bind (bind m k) h s = bind m (fun a => bind (k a) h) s.
Proof. unfold bind. by destruct (m s). Qed.

Lemma wp_Ok {S A} (m : M S A) (Q : A -> S -> Prop) s :
  wp m Q s <-> exists a s', m s = Ok a s' /\ Q a s'.
Proof. unfold wp. destruct (m s); naive_solver. Qed.

Lemma wp_bind {S A B} (m : M S A) (k : A -> M S B) Q s :
  wp m (fun a => wp (k a) Q) s -> wp (bind m k) Q s.
Proof. unfold wp, bind. by destruct (m s). Qed.

Lemma wp_mono {S A} (m : M S A) (P Q : A -> S -> Prop) s :
  wp m P s -> (forall a s', P a s' -> Q a s') -> wp m Q s.
Proof. unfold wp. destruct (m s); auto. Qed.

(** The continuation of [m] is verified from [m]'s specification. *)
Lemma wp_seq {S A B} (m : M S A) (k : A -> M S B) P Q s :
  wp m P s -> (forall a s', P a s' -> wp (k a) Q s') -> wp (bind m k) Q s.
Proof. intros H Hk. apply wp_bind. eapply wp_mono; eauto. Qed.

Lemma wp_ret {S A} (a : A) (Q : A -> S -> Prop) s : Q a s -> wp (ret a) Q s.
Proof. done. Qed.

Lemma wp_gets {S A B} (f : S -> A) (k : A -> M S B) Q s :
  wp (k (f s)) Q s -> wp (bind (gets f) k) Q s.
Proof. done. Qed.

Lemma wp_modify {S B} (f : S -> S) (k : unit -> M S B) Q s :
  wp (k tt) Q (f s) -> wp (bind (modify f) k) Q s.
Proof. done. Qed.

Lemma wp_zoom {S T A} (get : S -> T) (put : T -> S -> S) (m : M T A) Q s :
  wp m (fun a t => Q a (put t s)) (get s) -> wp (zoom get put m) Q s.
Proof. unfold wp, zoom. by destruct (m (get s)). Qed.

(** Loops end when a measure decreases; [I] is the invariant. *)
Section While.

Context {S A B : Type} (f : A -> M S (A + B)) (I : A -> S -> Prop) (Q : B -> S -> Prop) (meas : A -> S -> Z).

Hypothesis step : forall a s, I a s ->
  wp (f a) (fun r s' => match r with inl a' => I a' s' /\ meas a' s' <= meas a s - 1 | inr b => Q b s' end) s.

Lemma wp_iter_pos p r s :
  match r with inl a => I a s | inr b => Q b s end ->
  wp (iter_pos p f r) (fun r' s' =>
    match r' with
    | inl a' => I a' s' /\ match r with inl a => meas a' s' <= meas a s - Zpos p | inr _ => False end
    | inr b => Q b s'
    end) s.
Proof.
  revert r s. induction p as [p IH|p IH|]; intros [a|b] s Hr; cbn [iter_pos]; try by apply wp_ret.
  - eapply wp_seq; [by apply step|]. intros r s1 H1.
    eapply wp_seq; [apply (IH r); destruct r; tauto|]. intros r2 s2 H2.
    eapply wp_mono; [apply (IH r2); destruct r2; tauto|]. intros r3 s3 H3.
    destruct r3 as [a3|]; [|done]. destruct r2 as [a2|], r as [a1|]; destruct_and?; done || (split; [done|lia]).
  - eapply wp_seq; [by apply (IH (inl a))|]. intros r2 s2 H2.
    eapply wp_mono; [apply (IH r2); destruct r2; tauto|]. intros r3 s3 H3.
    destruct r3 as [a3|]; [|done]. destruct r2 as [a2|]; destruct_and?; done || (split; [done|lia]).
  - by apply step.
Qed.

Lemma wp_while_st a s :
  I a s -> (forall a s, I a s -> 0 <= meas a s) -> meas a s < 2 ^ 64 -> wp (while_ f a) Q s.
Proof.
  intros Ha Hpos Hlt. eapply wp_seq; [by apply (wp_iter_pos _ (inl a))|].
  intros [a'|b] s' H; [|by apply wp_ret]. exfalso.
  destruct H as [H1 H2]. apply Hpos in H1. change (Z.pos (2 ^ 64)) with (2 ^ 64) in H2. lia.
Qed.

End While.

(** The measure is one of the loop variables alone. *)
Lemma wp_while {S A B} (f : A -> M S (A + B)) (I : A -> S -> Prop) (Q : B -> S -> Prop) (meas : A -> Z) :
  (forall a s, I a s ->
     wp (f a) (fun r s' => match r with inl a' => I a' s' /\ meas a' <= meas a - 1 | inr b => Q b s' end) s) ->
  forall a s, I a s -> (forall a s, I a s -> 0 <= meas a) -> meas a < 2 ^ 64 -> wp (while_ f a) Q s.
Proof. intros H a s. by apply (wp_while_st f I Q (fun a _ => meas a)). Qed.

(** A loop whose first turn leaves it, or panics. *)
Lemma iter_pos_first {S A B} p (f : A -> M S (A + B)) a s :
  match f a s with
  | Ok (inl _) _ => True
  | Ok (inr b) s' => iter_pos p f (inl a) s = Ok (inr b) s'
  | Panic msg => iter_pos p f (inl a) s = Panic msg
  | Sleep c s' => iter_pos p f (inl a) s = Sleep c s'
  end.
Proof.
  destruct (f a s) as [[a'|b] s'|msg|c s'] eqn:E; [done|..]; induction p as [p IH|p IH|]; cbn [iter_pos];
    unfold bind; rewrite ?E, ?IH; try done; destruct p; cbn [iter_pos]; unfold ret, bind; done.
Qed.

Lemma while_first {S A B} (f : A -> M S (A + B)) a s :
  match f a s with
  | Ok (inl _) _ => True
  | Ok (inr b) s' => while_ f a s = Ok b s'
  | Panic msg => while_ f a s = Panic msg
  | Sleep c s' => while_ f a s = Sleep c s'
  end.
Proof.
  pose proof (iter_pos_first (2 ^ 64) f a s) as H. unfold while_, bind.
  destruct (f a s) as [[a'|b] s'|msg|c s']; [done|..]; by rewrite H.
Qed.

(** ** Integers *)

Lemma u32_small z : 0 <= z < 2 ^ 32 -> u32 z = z.
Proof. intros. by apply Z.mod_small. Qed.

Lemma u64_small z : 0 <= z < 2 ^ 64 -> u64 z = z.
Proof. intros. by apply Z.mod_small. Qed.

Lemma u32_range z : 0 <= u32 z < 2 ^ 32.
Proof. zlia. Qed.

Lemma u64_range z : 0 <= u64 z < 2 ^ 64.
Proof. zlia. Qed.

Lemma s32_small z : - 2 ^ 31 <= z < 2 ^ 31 -> s32 z = z.
Proof. intros. zlia. Qed.

#[export] Hint Rewrite u32_small u64_small s32_small using lia : xv6.

(** ** Little-endian bytes *)

Lemma length_le_bytes n z : length (le_bytes n z) = n.
Proof. revert z. induction n; intros; cbn; auto. Qed.

Lemma le_bytes_byte n z : Forall is_byte (le_bytes n z).
Proof. revert z. induction n; intros; cbn; constructor; auto; zlia. Qed.

Lemma le_val_bytes n z : le_val (le_bytes n z) = z mod 2 ^ (8 * Z.of_nat n).
Proof.
  revert z. induction n as [|n IH]; intros z; cbn -[Z.mul Z.of_nat Z.pow].
  - by rewrite Z.mod_1_r.
  - rewrite IH. replace (8 * Z.of_nat (S n)) with (8 + 8 * Z.of_nat n) by lia.
    rewrite Z.pow_add_r by lia. change (2 ^ 8) with 256.
    rewrite Z.rem_mul_r by (try lia; apply Z.pow_nonzero; lia). lia.
Qed.

Lemma le_bytes_val bs : Forall is_byte bs -> le_bytes (length bs) (le_val bs) = bs.
Proof.
  unfold is_byte. induction 1 as [|b bs Hb _ IH]; cbn -[Z.mul]; [done|].
  rewrite <- IH at 4.
  f_equal; [|f_equal]; rewrite Z.mul_comm.
  - rewrite Z.mod_add by lia. by apply Z.mod_small.
  - rewrite Z.div_add by lia. rewrite Z.div_small by lia. lia.
Qed.

Lemma le_val_range bs : Forall is_byte bs -> 0 <= le_val bs < 2 ^ (8 * Z.of_nat (length bs)).
Proof.
  intros H. rewrite <- (le_bytes_val bs H), le_val_bytes, length_le_bytes.
  apply Z.mod_pos_bound. apply Z.pow_pos_nonneg; lia.
Qed.

(** ** Slices *)

Lemma length_splice off bs l :
  (off + length bs <= length l)%nat -> length (splice off bs l) = length l.
Proof. intros. unfold splice. rewrite !length_app, length_take, length_drop. lia. Qed.

Lemma length_slice off len l :
  (off + len <= length l)%nat -> length (slice off len l) = len.
Proof. intros. unfold slice. rewrite length_take, length_drop. lia. Qed.

Lemma splice_lookup off bs l i :
  (off + length bs <= length l)%nat ->
  splice off bs l !! i =
    if decide (off <= i < off + length bs)%nat then bs !! (i - off)%nat else l !! i.
Proof.
  intros H. unfold splice. destruct (decide (off <= i < off + length bs)%nat) as [Hi|Hi].
  - rewrite lookup_app_r; rewrite length_take; [|lia].
    rewrite lookup_app_l by lia. f_equal. lia.
  - destruct (decide (i < off)%nat).
    + rewrite lookup_app_l by (rewrite length_take; lia). by rewrite lookup_take_lt.
    + rewrite lookup_app_r; rewrite length_take; [|lia].
      rewrite lookup_app_r by lia. rewrite lookup_drop. f_equal. lia.
Qed.

Lemma slice_lookup off len l i :
  slice off len l !! i = if decide (i < len)%nat then l !! (off + i)%nat else None.
Proof.
  unfold slice. destruct (decide (i < len)%nat).
  - rewrite lookup_take_lt by done. by rewrite lookup_drop.
  - apply lookup_take_ge. lia.
Qed.

Lemma slice_splice_same off bs l :
  (off + length bs <= length l)%nat -> slice off (length bs) (splice off bs l) = bs.
Proof.
  intros H. apply list_eq. intros i. rewrite slice_lookup.
  destruct (decide (i < length bs)%nat) as [Hi|Hi].
  - rewrite splice_lookup by done. rewrite decide_True by lia. f_equal. lia.
  - symmetry. apply lookup_ge_None. lia.
Qed.

Lemma slice_splice_other off bs l off' len :
  (off + length bs <= length l)%nat ->
  (off' + len <= off \/ off + length bs <= off')%nat ->
  slice off' len (splice off bs l) = slice off' len l.
Proof.
  intros H Hd. apply list_eq. intros i. rewrite !slice_lookup.
  destruct (decide (i < len)%nat); [|done].
  rewrite splice_lookup by done. rewrite decide_False by lia. done.
Qed.

Lemma slice_slice (l : list Z) o n o' n' : (o' + n' <= n)%nat -> slice o' n' (slice o n l) = slice (o + o') n' l.
Proof.
  intros H. unfold slice. apply list_eq. intros j. destruct (decide (j < n')%nat).
  - rewrite !lookup_take_lt, !lookup_drop, lookup_take_lt, lookup_drop by lia. f_equal. lia.
  - rewrite !lookup_take_ge by lia. done.
Qed.

Lemma splice_nil off l : splice off [] l = l.
Proof. unfold splice. cbn. rewrite Nat.add_0_r. apply take_drop. Qed.

Lemma splice_splice off bs bs' l :
  (off + length bs + length bs' <= length l)%nat ->
  splice (off + length bs) bs' (splice off bs l) = splice off (bs ++ bs') l.
Proof.
  intros H. apply list_eq. intros i.
  rewrite !splice_lookup by (rewrite ?length_splice, ?length_app; lia). rewrite length_app.
  repeat case_decide; try lia; try done.
  - rewrite lookup_app_r by lia. f_equal. lia.
  - rewrite lookup_app_l by lia. done.
Qed.

Lemma Forall_splice (P : Z -> Prop) off bs l :
  Forall P bs -> Forall P l -> Forall P (splice off bs l).
Proof.
  intros Hb Hl. unfold splice.
  rewrite !Forall_app. auto using Forall_take, Forall_drop.
Qed.

Lemma Forall_slice (P : Z -> Prop) off len l : Forall P l -> Forall P (slice off len l).
Proof. intros. unfold slice. auto using Forall_take, Forall_drop. Qed.

Lemma length_put_le w off v l :
  (off + w <= length l)%nat -> length (put_le w off v l) = length l.
Proof. intros. unfold put_le. apply length_splice. by rewrite length_le_bytes. Qed.

Lemma get_put_le w off v l :
  (off + w <= length l)%nat -> get_le w off (put_le w off v l) = v mod 2 ^ (8 * Z.of_nat w).
Proof.
  intros. unfold get_le, put_le. rewrite <- (length_le_bytes w v) at 1.
  rewrite slice_splice_same by (by rewrite length_le_bytes). apply le_val_bytes.
Qed.

Lemma get_put_le_other w off v l w' off' :
  (off + w <= length l)%nat -> (off' + w' <= off \/ off + w <= off')%nat ->
  get_le w' off' (put_le w off v l) = get_le w' off' l.
Proof.
  intros. unfold get_le, put_le. by rewrite slice_splice_other by (by rewrite length_le_bytes).
Qed.

Lemma s32_u32 v : - 2 ^ 31 <= v < 2 ^ 31 -> s32 (v mod 2 ^ 32) = v.
Proof. intros. zlia. Qed.

(** ** Lists without duplicates *)

Lemma NoDup_mid {A} (xs ys : list A) (e : A) :
  NoDup (xs ++ e :: ys) <-> (e ∉ xs) /\ (e ∉ ys) /\ NoDup (xs ++ ys).
Proof.
  rewrite <- Permutation_middle. rewrite NoDup_cons, not_elem_of_app. tauto.
Qed.

Lemma elem_of_rev {A} (l : list A) (x : A) : x ∈ rev l <-> x ∈ l.
Proof. rewrite !list_elem_of_In. symmetry. apply in_rev. Qed.

(** Membership facts turned into equations and disjunctions. *)
Ltac list_simpl :=
  repeat match goal with
         | H : NoDup (_ :: _) |- _ => apply NoDup_cons in H; destruct H
         | H : NoDup (_ ++ _ :: _) |- _ => apply NoDup_mid in H; destruct H as (? & ? & ?)
         | H : ?x ∉ _ :: _ |- _ => apply not_elem_of_cons in H; destruct H
         | H : ?x ∉ _ ++ _ |- _ => apply not_elem_of_app in H; destruct H
         | H : ?x ∈ _ :: _ |- _ => apply elem_of_cons in H
         | H : ?x ∈ _ ++ _ |- _ => apply elem_of_app in H
         | H : ?x ∈ [] |- _ => by apply elem_of_nil in H
         | H : _ \/ _ |- _ => destruct H
         | |- ?x ∉ _ :: _ => apply not_elem_of_cons; split
         | |- ?x ∉ _ ++ _ => apply not_elem_of_app; split
         | |- ?x ∉ [] => apply not_elem_of_nil
         | |- NoDup (_ :: _) => apply NoDup_cons; split
         | |- NoDup (_ ++ _ :: _) => apply NoDup_mid; split_and!
         end.
Ltac list_auto := list_simpl; subst; auto; congruence.

(** ** Consecutive integers *)

Lemma length_zseq a n : length (zseq a n) = n.
Proof. revert a. induction n; intros; cbn; auto. Qed.

Lemma elem_of_zseq a n x : x ∈ zseq a n <-> a <= x < a + Z.of_nat n.
Proof.
  revert a. induction n as [|n IH]; intros a; cbn -[Z.of_nat].
  - rewrite elem_of_nil. lia.
  - rewrite elem_of_cons, IH. lia.
Qed.

Lemma NoDup_zseq a n : NoDup (zseq a n).
Proof.
  revert a. induction n as [|n IH]; intros a; cbn; constructor; auto.
  rewrite elem_of_zseq. lia.
Qed.

Lemma zseq_lookup a n i : (i < n)%nat -> zseq a n !! i = Some (a + Z.of_nat i).
Proof.
  revert a i. induction n as [|n IH]; intros a [|i] H; cbn -[Z.of_nat]; try lia.
  - f_equal. lia.
  - rewrite IH by lia. f_equal. lia.
Qed.

Lemma zseq_app a n m : zseq a (n + m) = zseq a n ++ zseq (a + Z.of_nat n) m.
Proof.
  revert a. induction n as [|n IH]; intros a; cbn -[Z.of_nat].
  - f_equal. lia.
  - rewrite IH. do 3 f_equal. lia.
Qed.

Lemma elem_of_fmap_zseq {A} (f : Z -> A) a n x :
  x ∈ f <$> zseq a n <-> exists j, x = f j /\ a <= j < a + Z.of_nat n.
Proof.
  rewrite list_elem_of_fmap. split; intros (j & -> & H); exists j; by rewrite elem_of_zseq in *.
Qed.

Lemma fmap_zseq_ext {A} (f g : Z -> A) a n :
  (forall j, a <= j < a + Z.of_nat n -> f j = g j) -> f <$> zseq a n = g <$> zseq a n.
Proof. intros H. apply list_fmap_ext. intros i x Hx. apply H, elem_of_zseq. by eapply list_elem_of_lookup_2. Qed.

Lemma NoDup_fmap_zseq {A} (f : Z -> A) a n :
  (forall i j, a <= i < a + Z.of_nat n -> a <= j < a + Z.of_nat n -> f i = f j -> i = j) ->
  NoDup (f <$> zseq a n).
Proof.
  revert a. induction n as [|n IH]; intros a H; cbn; constructor.
  - rewrite elem_of_fmap_zseq. intros (j & E & Hj). apply H in E; lia.
  - apply IH. intros i j Hi Hj. apply H; lia.
Qed.

#[export] Hint Resolve NoDup_zseq le_bytes_byte Forall_splice Forall_slice : xv6.
