(* ===== verification/KString.v ===== *)
(** * Byte memory and [kernel/string.c]

    Physical memory is a total function from addresses to bytes.  The routines
    of [string.c] are loops over it; a loop that counts an unsigned [n] down to
    zero recurses on [Z.to_nat n].  [strlen] has no bound in the source and
    takes fuel, the number of bytes it may look at. *)
From stdpp Require Import base list gmap strings.
From Stdlib Require Import ZArith Lia.
From S2P Require Import Prelude.

#[local] Open Scope Z_scope.
#[local] Open Scope xv6_scope.

(** ** Memory *)

Definition mem : Type := Z -> Z.

Definition upd {A : Type} (m : Z -> A) (a : Z) (v : A) : Z -> A := fun x => if x =? a then v else m x.

Fixpoint read_bytes (m : mem) (a : Z) (n : nat) : list Z :=
  match n with
  | O => []
  | S n => m a :: read_bytes m (a + 1) n
  end.

Fixpoint write_bytes (m : mem) (a : Z) (bs : list Z) : mem :=
  match bs with
  | [] => m
  | b :: bs => write_bytes (upd m a b) (a + 1) bs
  end.

(** A [uint64] in memory, little-endian. *)
Definition load64 (m : mem) (a : Z) : Z := le_val (read_bytes m a 8).
Definition store64 (m : mem) (a v : Z) : mem := write_bytes m a (le_bytes 8 v).

Definition mem_ok (m : mem) : Prop := forall a, is_byte (m a).

(** The bytes of the C string at [p], at most [n] of them, without the NUL. *)
Fixpoint cstr (m : mem) (p : Z) (n : nat) : list Z :=
  match n with
  | O => []
  | S n => if m p =? 0 then [] else m p :: cstr m (p + 1) n
  end.

(** ** string.c *)

Fixpoint memset_loop (k : nat) (i cdst c : Z) (m : mem) : mem :=
  match k with
  | O => m
  | S k => memset_loop k (i + 1) cdst c (upd m (cdst + i) (u8 c))
  end.

Definition memset (m : mem) (dst c n : Z) : mem := memset_loop (Z.to_nat n) 0 dst c m.

Fixpoint memcmp_loop (k : nat) (m : mem) (s1 s2 : Z) : Z :=
  match k with
  | O => 0
  | S k => if negb (m s1 =? m s2) then m s1 - m s2
           else memcmp_loop k m (s1 + 1) (s2 + 1)
  end.

Definition memcmp (m : mem) (v1 v2 n : Z) : Z := memcmp_loop (Z.to_nat n) m v1 v2.

(** [*--d = *--s], [k] times. *)
Fixpoint move_down (k : nat) (s d : Z) (m : mem) : mem :=
  match k with
  | O => m
  | S k => move_down k (s - 1) (d - 1) (upd m (d - 1) (m (s - 1)))
  end.

(** [*d++ = *s++], [k] times. *)
Fixpoint move_up (k : nat) (s d : Z) (m : mem) : mem :=
  match k with
  | O => m
  | S k => move_up k (s + 1) (d + 1) (upd m d (m s))
  end.

Definition memmove (m : mem) (dst src n : Z) : mem :=
  if (src <? dst) && (src + n >? dst)
  then move_down (Z.to_nat n) (src + n) (dst + n) m
  else move_up (Z.to_nat n) src dst m.

Definition memcpy (m : mem) (dst src n : Z) : mem := memmove m dst src n.

Fixpoint strncmp_loop (k : nat) (m : mem) (p q : Z) : Z :=
  match k with
  | O => 0
  | S k => if negb (m p =? 0) && (m p =? m q) then strncmp_loop k m (p + 1) (q + 1)
           else u8 (m p) - u8 (m q)
  end.

Definition strncmp (m : mem) (p q n : Z) : Z := strncmp_loop (Z.to_nat n) m p q.

(** The second loop of [strncpy]: [while(n-- > 0) *s++ = 0]. *)
Fixpoint zero_fill (k : nat) (s : Z) (m : mem) : mem :=
  match k with
  | O => m
  | S k => zero_fill k (s + 1) (upd m s 0)
  end.

Fixpoint strncpy_loop (k : nat) (s t : Z) (m : mem) : mem :=
  match k with
  | O => m
  | S k => let c := m t in
           let m := upd m s c in
           if c =? 0 then zero_fill k (s + 1) m
           else strncpy_loop k (s + 1) (t + 1) m
  end.

Definition strncpy (m : mem) (s t n : Z) : mem := strncpy_loop (Z.to_nat n) s t m.

(** [k] is the number of times [--n > 0] can still succeed. *)
Fixpoint safestrcpy_loop (k : nat) (s t : Z) (m : mem) : mem :=
  match k with
  | O => upd m s 0
  | S k => let c := m t in
           let m := upd m s c in
           if c =? 0 then upd m (s + 1) 0
           else safestrcpy_loop k (s + 1) (t + 1) m
  end.

Definition safestrcpy (m : mem) (s t n : Z) : mem :=
  if n <=? 0 then m else safestrcpy_loop (Z.to_nat (n - 1)) s t m.

Fixpoint strlen (fuel : nat) (m : mem) (s n : Z) : option Z :=
  match fuel with
  | O => None
  | S fuel => if m (s + n) =? 0 then Some n else strlen fuel m s (n + 1)
  end.

#[global] Arguments load64 : simpl never.
#[global] Arguments store64 : simpl never.
#[global] Arguments upd : simpl never.
#[global] Arguments memset : simpl never.
#[global] Arguments memmove : simpl never.
#[global] Arguments strncmp : simpl never.

(** ** Lemmas on memory *)

Ltac mem_cases :=
  unfold upd in *;
  repeat match goal with
         | |- context [?a =? ?b] => destruct (Z.eqb_spec a b)
         | |- context [?a <? ?b] => destruct (Z.ltb_spec a b)
         | |- context [?a <=? ?b] => destruct (Z.leb_spec a b)
         | |- context [?a >? ?b] => rewrite (Z.gtb_ltb a b)
         end; cbn [andb orb negb] in *.

Lemma upd_same {A} (m : Z -> A) a v : upd m a v a = v.
Proof. unfold upd. by rewrite Z.eqb_refl. Qed.

Lemma upd_other {A} (m : Z -> A) a v x : x <> a -> upd m a v x = m x.
Proof. intros. mem_cases; done || lia. Qed.

Lemma length_read_bytes m a n : length (read_bytes m a n) = n.
Proof. revert a. induction n; intros; cbn; auto. Qed.

Lemma read_bytes_ext m m' a n :
  (forall x, a <= x < a + Z.of_nat n -> m x = m' x) -> read_bytes m a n = read_bytes m' a n.
Proof.
  revert a. induction n as [|n IH]; intros a H; cbn; [done|].
  f_equal; [apply H|apply IH; intros; apply H]; lia.
Qed.

Lemma read_bytes_lookup m a n i :
  (i < n)%nat -> read_bytes m a n !! i = Some (m (a + Z.of_nat i)).
Proof.
  revert a i. induction n as [|n IH]; intros a [|i] H; cbn -[Z.of_nat]; try lia.
  - do 2 f_equal. lia.
  - rewrite IH by lia. do 2 f_equal. lia.
Qed.

Lemma write_bytes_get m a bs x :
  write_bytes m a bs x =
    if decide (a <= x < a + Z.of_nat (length bs)) then default 0 (bs !! Z.to_nat (x - a)) else m x.
Proof.
  revert m a. induction bs as [|b bs IH]; intros m a; cbn -[Z.of_nat].
  - rewrite decide_False by lia. done.
  - rewrite IH. destruct (decide (a + 1 <= x < a + 1 + Z.of_nat (length bs))).
    + rewrite decide_True by lia.
      replace (Z.to_nat (x - a)) with (S (Z.to_nat (x - (a + 1)))) by lia. done.
    + destruct (decide (x = a)) as [->|].
      * rewrite decide_True by lia. rewrite Z.sub_diag. apply upd_same.
      * rewrite decide_False by lia. by apply upd_other.
Qed.

Lemma write_bytes_outside m a bs x :
  x < a \/ a + Z.of_nat (length bs) <= x -> write_bytes m a bs x = m x.
Proof. intros. rewrite write_bytes_get. by rewrite decide_False by lia. Qed.

Lemma read_write_same m a bs : read_bytes (write_bytes m a bs) a (length bs) = bs.
Proof.
  apply list_eq. intros i. destruct (decide (i < length bs)%nat) as [Hi|Hi].
  - rewrite read_bytes_lookup by done. rewrite write_bytes_get, decide_True by lia.
    replace (Z.to_nat (a + Z.of_nat i - a)) with i by lia.
    destruct (lookup_lt_is_Some_2 bs i Hi) as [b ->]. done.
  - rewrite !lookup_ge_None_2; rewrite ?length_read_bytes; done || lia.
Qed.

Lemma read_write_other m a bs b n :
  b + Z.of_nat n <= a \/ a + Z.of_nat (length bs) <= b ->
  read_bytes (write_bytes m a bs) b n = read_bytes m b n.
Proof. intros. apply read_bytes_ext. intros. apply write_bytes_outside. lia. Qed.

Lemma load_store64 m a v : load64 (store64 m a v) a = u64 v.
Proof.
  unfold load64, store64.
  change 8%nat with (length (le_bytes 8 v)) at 1.
  rewrite read_write_same, le_val_bytes. done.
Qed.

Lemma load_store64_other m a v b :
  b + 8 <= a \/ a + 8 <= b -> load64 (store64 m a v) b = load64 m b.
Proof.
  intros. unfold load64, store64. rewrite read_write_other; [done|].
  rewrite length_le_bytes. lia.
Qed.

Lemma store64_outside m a v x : x < a \/ a + 8 <= x -> store64 m a v x = m x.
Proof. intros. unfold store64. apply write_bytes_outside. rewrite length_le_bytes. lia. Qed.

Lemma load64_ext m m' a :
  (forall x, a <= x < a + 8 -> m x = m' x) -> load64 m a = load64 m' a.
Proof. intros. unfold load64. f_equal. by apply read_bytes_ext. Qed.

Lemma read_bytes_byte m a n : mem_ok m -> Forall is_byte (read_bytes m a n).
Proof. intros Hm. revert a. induction n; intros; cbn; constructor; auto. Qed.

Lemma load64_range m a : mem_ok m -> 0 <= load64 m a < 2 ^ 64.
Proof.
  intros Hm. pose proof (le_val_range _ (read_bytes_byte m a 8 Hm)) as H.
  by rewrite length_read_bytes in H.
Qed.

Lemma upd_ok m a v : mem_ok m -> is_byte v -> mem_ok (upd m a v).
Proof. intros Hm Hv x. mem_cases; auto. Qed.

Lemma write_bytes_ok m a bs : mem_ok m -> Forall is_byte bs -> mem_ok (write_bytes m a bs).
Proof.
  intros Hm Hbs. revert m a Hm. induction Hbs; intros; cbn; auto using upd_ok.
Qed.

Lemma store64_ok m a v : mem_ok m -> mem_ok (store64 m a v).
Proof. intros. apply write_bytes_ok; auto using le_bytes_byte. Qed.

(** ** The loops, by what they leave at an address *)

Lemma memset_loop_get k i cdst c m x :
  memset_loop k i cdst c m x =
    if decide (cdst + i <= x < cdst + i + Z.of_nat k) then u8 c else m x.
Proof.
  revert i m. induction k as [|k IH]; intros i m; cbn -[Z.of_nat].
  - by rewrite decide_False by lia.
  - rewrite IH. repeat case_decide; mem_cases; done || lia.
Qed.

Lemma memset_get m dst c n x :
  memset m dst c n x = if decide (dst <= x < dst + n) then u8 c else m x.
Proof. unfold memset. rewrite memset_loop_get. repeat case_decide; done || lia. Qed.

Lemma memset_ok m dst c n : mem_ok m -> mem_ok (memset m dst c n).
Proof. intros Hm x. rewrite memset_get. case_decide; [zlia|apply Hm]. Qed.

Lemma load64_memset m dst c n a :
  a + 8 <= dst \/ dst + n <= a -> load64 (memset m dst c n) a = load64 m a.
Proof. intros. apply load64_ext. intros. rewrite memset_get. by rewrite decide_False by lia. Qed.

Lemma load64_memset0 m dst n a :
  dst <= a -> a + 8 <= dst + n -> load64 (memset m dst 0 n) a = 0.
Proof.
  intros. rewrite (load64_ext _ (fun _ => 0)); [done|].
  intros. rewrite memset_get. by rewrite decide_True by lia.
Qed.

Lemma move_down_get k s d m x :
  s <= d ->
  move_down k s d m x = if decide (d - Z.of_nat k <= x < d) then m (x - d + s) else m x.
Proof.
  revert s d m. induction k as [|k IH]; intros s d m H; cbn -[Z.of_nat].
  - by rewrite decide_False by lia.
  - rewrite IH by lia. destruct (decide (d - 1 - Z.of_nat k <= x < d - 1)).
    + rewrite decide_True by lia. rewrite upd_other by lia. f_equal. lia.
    + destruct (decide (x = d - 1)) as [->|].
      * rewrite upd_same, decide_True by lia. f_equal. lia.
      * rewrite upd_other, decide_False by lia. done.
Qed.

Lemma move_up_get k s d m x :
  d <= s \/ s + Z.of_nat k <= d ->
  move_up k s d m x = if decide (d <= x < d + Z.of_nat k) then m (x - d + s) else m x.
Proof.
  revert s d m. induction k as [|k IH]; intros s d m H; cbn -[Z.of_nat].
  - by rewrite decide_False by lia.
  - rewrite IH by lia. destruct (decide (d + 1 <= x < d + 1 + Z.of_nat k)).
    + rewrite decide_True by lia. rewrite upd_other by lia. f_equal. lia.
    + destruct (decide (x = d)) as [->|].
      * rewrite upd_same, decide_True by lia. f_equal. lia.
      * rewrite upd_other, decide_False by lia. done.
Qed.

Lemma memmove_get m dst src n x :
  memmove m dst src n x = if decide (dst <= x < dst + n) then m (src + (x - dst)) else m x.
Proof.
  unfold memmove. destruct (Z.ltb_spec src dst), (Z.gtb_spec (src + n) dst); cbn [andb].
  - rewrite move_down_get by lia. rewrite !Z2Nat.id by lia.
    destruct (decide (dst <= x < dst + n)); [rewrite decide_True by lia|rewrite decide_False by lia; done].
    f_equal. lia.
  - rewrite move_up_get by lia. repeat case_decide; try lia; f_equal; lia.
  - rewrite move_up_get by lia. repeat case_decide; try lia; f_equal; lia.
  - rewrite move_up_get by lia. repeat case_decide; try lia; f_equal; lia.
Qed.

Lemma memmove_ok m dst src n : mem_ok m -> mem_ok (memmove m dst src n).
Proof. intros Hm x. rewrite memmove_get. case_decide; apply Hm. Qed.

Lemma zero_fill_get k s m x :
  zero_fill k s m x = if decide (s <= x < s + Z.of_nat k) then 0 else m x.
Proof.
  revert s m. induction k as [|k IH]; intros s m; cbn -[Z.of_nat].
  - by rewrite decide_False by lia.
  - rewrite IH. repeat case_decide; mem_cases; done || lia.
Qed.

(** [strncpy] leaves the string, then zeros, provided source and destination
    do not overlap. *)
Lemma strncpy_loop_get k s t m x :
  t + Z.of_nat k <= s \/ s + Z.of_nat k <= t ->
  strncpy_loop k s t m x =
    if decide (s <= x < s + Z.of_nat k)
    then default 0 (cstr m t k !! Z.to_nat (x - s)) else m x.
Proof.
  revert s t m. induction k as [|k IH]; intros s t m H; cbn -[Z.of_nat].
  - by rewrite decide_False by lia.
  - assert (Hc : forall j, (j <= k)%nat -> cstr (upd m s (m t)) (t + 1) j = cstr m (t + 1) j).
    { intros j Hj. assert (Hd : forall y, t + 1 <= y < t + 1 + Z.of_nat j -> upd m s (m t) y = m y)
        by (intros; apply upd_other; lia).
      clear -Hd. revert Hd. generalize (t + 1). induction j as [|j IHj]; intros p Hd; cbn; [done|].
      rewrite Hd by lia. destruct (m p =? 0); [done|]. f_equal. apply IHj. intros. apply Hd. lia. }
    destruct (Z.eqb_spec (m t) 0) as [E|E].
    + rewrite zero_fill_get. cbn. repeat case_decide; mem_cases; try lia; done.
    + rewrite IH by lia. rewrite Hc by lia.
      destruct (decide (s + 1 <= x < s + 1 + Z.of_nat k)).
      * rewrite decide_True by lia.
        replace (Z.to_nat (x - s)) with (S (Z.to_nat (x - (s + 1)))) by lia. done.
      * destruct (decide (x = s)) as [->|].
        -- rewrite decide_True by lia. rewrite Z.sub_diag. apply upd_same.
        -- rewrite decide_False by lia. by apply upd_other.
Qed.

(** ** C strings *)

Lemma cstr_ext m m' p n :
  (forall x, p <= x < p + Z.of_nat n -> m x = m' x) -> cstr m p n = cstr m' p n.
Proof.
  revert p. induction n as [|n IH]; intros p H; cbn; [done|].
  rewrite (H p) by lia. destruct (m' p =? 0); [done|].
  f_equal. apply IH. intros. apply H. lia.
Qed.

Lemma length_cstr m p n : (length (cstr m p n) <= n)%nat.
Proof.
  revert p. induction n as [|n IH]; intros p; cbn; [lia|].
  destruct (m p =? 0); cbn; [lia|]. specialize (IH (p + 1)). lia.
Qed.

Lemma strlen_from fuel m s n l :
  (forall i, 0 <= i < l -> m (s + n + i) <> 0) -> m (s + n + l) = 0 ->
  0 <= l -> (Z.to_nat l < fuel)%nat -> strlen fuel m s n = Some (n + l).
Proof.
  revert n l. induction fuel as [|fuel IH]; intros n l Hnz Hz Hl Hf; [lia|]. cbn.
  destruct (Z.eqb_spec (m (s + n)) 0) as [E|E].
  - assert (l = 0) as ->; [|f_equal; lia].
    destruct (decide (0 < l)); [|lia]. exfalso. apply (Hnz 0); [lia|]. by rewrite Z.add_0_r.
  - assert (l <> 0) by (intros ->; rewrite Z.add_0_r in Hz; done).
    rewrite (IH (n + 1) (l - 1)); [f_equal; lia| | |lia|lia].
    + intros i Hi. replace (s + (n + 1) + i) with (s + n + (i + 1)) by lia. apply Hnz. lia.
    + replace (s + (n + 1) + (l - 1)) with (s + n + l) by lia. done.
Qed.

Lemma safestrcpy_loop_spec k s t m :
  t + Z.of_nat k < s \/ s + Z.of_nat k < t ->
  cstr (safestrcpy_loop k s t m) s (S k) = cstr m t k /\
  (exists i, (i <= k)%nat /\ safestrcpy_loop k s t m (s + Z.of_nat i) = 0) /\
  (forall x, x < s \/ s + Z.of_nat k < x -> safestrcpy_loop k s t m x = m x).
Proof.
  revert s t m. induction k as [|k IH]; intros s t m H.
  - cbn -[Z.of_nat]. rewrite upd_same. cbn -[Z.of_nat]. split; [done|]. split.
    + exists 0%nat. split; [lia|]. rewrite Z.add_0_r. apply upd_same.
    + intros. apply upd_other. lia.
  - cbn [safestrcpy_loop].
    destruct (Z.eqb_spec (m t) 0) as [E|E].
    + split; [|split].
      * cbn [cstr]. rewrite (upd_other _ (s + 1)), upd_same by lia. by rewrite E.
      * exists 0%nat. split; [lia|]. rewrite Z.add_0_r.
        rewrite upd_other by lia. by rewrite upd_same.
      * intros x Hx. rewrite !upd_other by lia. done.
    + destruct (IH (s + 1) (t + 1) (upd m s (m t))) as (IH1 & (i & Hi & IH2) & IH3); [lia|].
      split; [|split].
      * change (cstr ?a s (S (S k))) with (if a s =? 0 then [] else a s :: cstr a (s + 1) (S k)).
        rewrite IH3, upd_same, IH1 by lia. cbn [cstr].
        rewrite (proj2 (Z.eqb_neq _ _) E). f_equal.
        apply cstr_ext. intros. apply upd_other. lia.
      * exists (S i). split; [lia|]. rewrite <- IH2. f_equal. lia.
      * intros x Hx. rewrite IH3 by lia. apply upd_other. lia.
Qed.

Lemma strncmp_loop_zero k m p q :
  mem_ok m -> strncmp_loop k m p q = 0 <-> cstr m p k = cstr m q k.
Proof.
  intros Hm. revert p q. induction k as [|k IH]; intros p q; cbn; [done|].
  pose proof (Hm p). pose proof (Hm q).
  assert (Hu : u8 (m p) = m p /\ u8 (m q) = m q) by (split; zlia). destruct Hu as [-> ->].
  destruct (Z.eqb_spec (m p) 0), (Z.eqb_spec (m p) (m q)), (Z.eqb_spec (m q) 0);
    cbn [negb andb]; try lia; try (split; [lia|congruence]); try (split; [done|lia]).
  rewrite IH. split; intros; congruence.
Qed.

(** ** Properties *)

(** [memmove] copies [n] bytes as they were before the call, also when the
    two ranges overlap, and changes nothing else. *)
Theorem memmove_overlap (m : mem) (dst src n x : Z) :
  memmove m dst src n x = if decide (dst <= x < dst + n) then m (src + (x - dst)) else m x.
Proof. apply memmove_get. Qed.

(** [strncmp] returns 0 exactly when the two C strings, cut to [n] bytes,
    are the same string. *)
Theorem strncmp_equal (m : mem) (p q n : Z) :
  mem_ok m ->
  strncmp m p q n = 0 <-> cstr m p (Z.to_nat n) = cstr m q (Z.to_nat n).
Proof. apply strncmp_loop_zero. Qed.

Lemma strncmp_equal_witness :
  strncmp (fun a => if (a =? 0) || (a =? 5) then 97 else if (a =? 1) || (a =? 6) then 98 else 0)
    0 5 10 = 0.
Proof.
  apply strncmp_equal; [|reflexivity].
  intros a. unfold is_byte. mem_cases; cbn; lia.
Defined.

(** [safestrcpy] into a buffer of [n] bytes that does not overlap the source
    leaves the source string cut to [n - 1] bytes, always NUL-terminated inside
    the buffer, and writes nothing outside it. *)
Theorem safestrcpy_terminates (m : mem) (s t n : Z) :
  0 < n -> t + n <= s \/ s + n <= t ->
  cstr (safestrcpy m s t n) s (Z.to_nat n) = cstr m t (Z.to_nat (n - 1)) /\
  (exists i, 0 <= i < n /\ safestrcpy m s t n (s + i) = 0) /\
  (forall x, x < s \/ s + n <= x -> safestrcpy m s t n x = m x).
Proof.
  intros Hn Hd. unfold safestrcpy. destruct (Z.leb_spec n 0); [lia|].
  destruct (safestrcpy_loop_spec (Z.to_nat (n - 1)) s t m) as (H1 & (i & Hi & H2) & H3); [lia|].
  replace (S (Z.to_nat (n - 1))) with (Z.to_nat n) in H1 by lia.
  split; [done|]. split; [exists (Z.of_nat i); split; [lia|done]|].
  intros x Hx. apply H3. lia.
Qed.

Lemma safestrcpy_terminates_witness :
  cstr (safestrcpy (fun a => if a <? 20 then 97 else 0) 100 10 4) 100 4 = [97; 97; 97].
Proof.
  destruct (safestrcpy_terminates (fun a => if a <? 20 then 97 else 0) 100 10 4)
    as [H _]; [lia|lia|]. exact H.
Defined.
