(* ===== verification/Riscv.v ===== *)
(** * Constants and macros of [kernel/riscv.h], [kernel/memlayout.h] and [kernel/param.h]

    Page rounding, Sv39 page-table entries and indices, and the physical
    memory layout, with the arithmetic the other files need. *)
From stdpp Require Import base list.
From Stdlib Require Import ZArith Lia.
From S2P Require Import Prelude.

#[local] Open Scope Z_scope.
#[local] Open Scope xv6_scope.

Definition PGSIZE : Z := 4096.
Definition PGSHIFT : Z := 12.

Definition PGROUNDUP (sz : Z) : Z := Z.land (u64 (sz + PGSIZE - 1)) (Z.lnot (PGSIZE - 1)).
Definition PGROUNDDOWN (a : Z) : Z := Z.land a (Z.lnot (PGSIZE - 1)).

Definition PTE_V : Z := Z.shiftl 1 0.
Definition PTE_R : Z := Z.shiftl 1 1.
Definition PTE_W : Z := Z.shiftl 1 2.
Definition PTE_X : Z := Z.shiftl 1 3.
Definition PTE_U : Z := Z.shiftl 1 4.

Definition PA2PTE (pa : Z) : Z := Z.shiftl (Z.shiftr pa 12) 10.
Definition PTE2PA (pte : Z) : Z := Z.shiftl (Z.shiftr pte 10) 12.
Definition PTE_FLAGS (pte : Z) : Z := Z.land pte 0x3FF.

Definition PXMASK : Z := 0x1FF.
Definition PXSHIFT (level : Z) : Z := PGSHIFT + 9 * level.
Definition PX (level va : Z) : Z := Z.land (Z.shiftr va (PXSHIFT level)) PXMASK.

Definition MAXVA : Z := Z.shiftl 1 (9 + 9 + 9 + 12 - 1).

Definition UART0 : Z := 0x10000000.
Definition UART0_IRQ : Z := 10.
Definition VIRTION (n : Z) : Z := 0x10000000 + (n + 1) * 0x1000.
Definition VIRTIO0_IRQ : Z := 1.
Definition VIRTIO1_IRQ : Z := 2.
Definition CLINT : Z := 0x2000000.
Definition PLIC : Z := 0x0c000000.
Definition KERNBASE : Z := 0x80000000.
Definition PHYSTOP : Z := KERNBASE + 128 * 1024 * 1024.
Definition TRAMPOLINE : Z := MAXVA - PGSIZE.
Definition TRAPFRAME : Z := TRAMPOLINE - PGSIZE.
Definition KSTACK (p : Z) : Z := TRAMPOLINE - (p + 1) * 2 * PGSIZE.

(** The value of the register [satp] for a page table. *)
Definition SATP_SV39 : Z := Z.shiftl 8 60.
Definition MAKE_SATP (pagetable : Z) : Z := Z.lor SATP_SV39 (Z.shiftr pagetable 12).

(** ** Rounding *)

Lemma land_lnot_page a : Z.land a (Z.lnot (PGSIZE - 1)) = PGSIZE * (a / PGSIZE).
Proof.
  change (PGSIZE - 1) with (Z.ones 12). rewrite <- Z.ldiff_land, Z.ldiff_ones_r by lia.
  rewrite Z.shiftl_mul_pow2, Z.shiftr_div_pow2 by lia. unfold PGSIZE. zpow. lia.
Qed.

Lemma PGROUNDDOWN_div a : PGROUNDDOWN a = PGSIZE * (a / PGSIZE).
Proof. apply land_lnot_page. Qed.

Lemma PGROUNDUP_div sz :
  0 <= sz -> sz + PGSIZE - 1 < 2 ^ 64 -> PGROUNDUP sz = PGSIZE * ((sz + PGSIZE - 1) / PGSIZE).
Proof.
  intros. unfold PGROUNDUP. rewrite land_lnot_page, u64_small; [done|].
  unfold PGSIZE in *. lia.
Qed.

Ltac pglia := unfold PGSIZE in *; zlia.

Lemma PGROUNDDOWN_aligned a : PGROUNDDOWN a mod PGSIZE = 0.
Proof. rewrite PGROUNDDOWN_div. pglia. Qed.

Lemma PGROUNDDOWN_bounds a : PGROUNDDOWN a <= a < PGROUNDDOWN a + PGSIZE.
Proof. rewrite PGROUNDDOWN_div. pglia. Qed.

Lemma PGROUNDDOWN_id a : a mod PGSIZE = 0 -> PGROUNDDOWN a = a.
Proof. rewrite PGROUNDDOWN_div. pglia. Qed.

(** Two distinct page-aligned addresses are a page apart. *)
Lemma pages_apart x y :
  x mod PGSIZE = 0 -> y mod PGSIZE = 0 -> x <> y -> x + PGSIZE <= y \/ y + PGSIZE <= x.
Proof. pglia. Qed.

(** ** Page-table entries *)

Lemma PA2PTE_div pa : PA2PTE pa = pa / 2 ^ 12 * 2 ^ 10.
Proof. unfold PA2PTE. by rewrite Z.shiftl_mul_pow2, Z.shiftr_div_pow2 by lia. Qed.

Lemma PTE2PA_div pte : PTE2PA pte = pte / 2 ^ 10 * 2 ^ 12.
Proof. unfold PTE2PA. by rewrite Z.shiftl_mul_pow2, Z.shiftr_div_pow2 by lia. Qed.

Lemma PTE_FLAGS_mod pte : PTE_FLAGS pte = pte mod 2 ^ 10.
Proof. unfold PTE_FLAGS. change 0x3FF with (Z.ones 10). by rewrite Z.land_ones by lia. Qed.


Lemma lor_low a b n : 0 <= n -> 0 <= b < 2 ^ n -> Z.lor (a * 2 ^ n) b = a * 2 ^ n + b.
Proof.
  intros Hn Hb. symmetry. rewrite Z.add_nocarry_lxor.
  - apply Z.bits_inj'. intros i Hi. rewrite Z.lxor_spec, Z.lor_spec.
    destruct (Z.ltb_spec i n).
    + rewrite Z.mul_pow2_bits_low by lia. by destruct (Z.testbit b i).
    + rewrite <- (Z.mod_small b (2 ^ n)), Z.mod_pow2_bits_high by lia.
      by destruct (Z.testbit _ i).
  - apply Z.bits_inj'. intros i Hi. rewrite Z.land_spec, Z.bits_0.
    destruct (Z.ltb_spec i n).
    + by rewrite Z.mul_pow2_bits_low by lia.
    + rewrite <- (Z.mod_small b (2 ^ n)), Z.mod_pow2_bits_high by lia. apply andb_false_r.
Qed.

Lemma PTE2PA_mk pa fl :
  pa mod PGSIZE = 0 -> 0 <= fl < 2 ^ 10 -> PTE2PA (Z.lor (PA2PTE pa) fl) = pa.
Proof.
  intros Hpa Hfl. rewrite PTE2PA_div, PA2PTE_div, lor_low by lia.
  rewrite Z.add_comm, Z.div_add, Z.div_small by lia. pglia.
Qed.

Lemma PTE_FLAGS_mk pa fl :
  0 <= fl < 2 ^ 10 -> PTE_FLAGS (Z.lor (PA2PTE pa) fl) = fl.
Proof.
  intros Hfl. rewrite PTE_FLAGS_mod, PA2PTE_div, lor_low by lia.
  rewrite Z.add_comm, Z.mod_add, Z.mod_small by lia. done.
Qed.

Lemma PX_div level va : 0 <= level -> PX level va = va / 2 ^ PXSHIFT level mod 512.
Proof.
  intros. unfold PX, PXMASK, PXSHIFT, PGSHIFT. change 0x1FF with (Z.ones 9).
  rewrite Z.land_ones, Z.shiftr_div_pow2 by lia. done.
Qed.

Lemma PX_range level va : 0 <= level -> 0 <= PX level va < 512.
Proof. intros. rewrite PX_div by done. apply Z.mod_pos_bound. lia. Qed.
