(* ===== verification/Kalloc.v ===== *)
(** * [kernel/kalloc.c]: the physical page allocator

    Free pages are chained through their first eight bytes.  The state is the
    head of the chain and physical memory itself; [end_] is the linker's symbol
    for the first address after the kernel. *)
From stdpp Require Import base list gmap strings.
From Stdlib Require Import ZArith Lia.
From S2P Require Import Prelude KString Riscv.

#[local] Open Scope Z_scope.
#[local] Open Scope xv6_scope.

Record kmem : Type := Kmem {
  kmem_lock : bool;
  freelist : Z;          (** address of the first free page, 0 when none is left *)
  ram : mem;
}.

#[export] Instance kmem_eta : Eta kmem := fun k => Kmem (kmem_lock k) (freelist k) (ram k).

Section Kalloc.

Context (end_ : Z).

Definition kfree (pa : Z) : M kmem unit :=
  if negb (pa mod PGSIZE =? 0) || (pa <? end_) || (pa >=? PHYSTOP) then panic "kfree" else
  (modify (fun k => k <| ram := memset (ram k) pa 1 PGSIZE |>) ;;
   acquire kmem_lock ;;
   modify (fun k => k <| ram := store64 (ram k) pa (freelist k) |>) ;;
   modify (fun k => k <| freelist := pa |>) ;;
   release kmem_lock).

Definition kalloc : M kmem Z :=
  acquire kmem_lock ;;
  r ← gets freelist ;
  (if r =? 0 then ret tt
   else modify (fun k => k <| freelist := load64 (ram k) r |>)) ;;
  release kmem_lock ;;
  (if r =? 0 then ret tt
   else modify (fun k => k <| ram := memset (ram k) r 5 PGSIZE |>)) ;;
  ret r.

(** [for(; p + PGSIZE <= pa_end; p += PGSIZE) kfree(p);] *)
Fixpoint freerange_loop (fuel : nat) (p pa_end : Z) : M kmem unit :=
  match fuel with
  | O => ret tt
  | S fuel => if p + PGSIZE <=? pa_end
              then kfree p ;; freerange_loop fuel (p + PGSIZE) pa_end
              else ret tt
  end.

Definition freerange (pa_start pa_end : Z) : M kmem unit :=
  let p := PGROUNDUP pa_start in
  freerange_loop (Z.to_nat ((pa_end - p) / PGSIZE)) p pa_end.

(** [initlock] clears the lock. *)
Definition kinit : M kmem unit :=
  modify (fun k => k <| kmem_lock := false |>) ;;
  freerange end_ PHYSTOP.

(** ** The free list as a list of pages *)

Fixpoint chain (m : mem) (p : Z) (l : list Z) : Prop :=
  match l with
  | [] => p = 0
  | x :: l => p = x /\ chain m (load64 m x) l
  end.

Definition page_ok (pa : Z) : Prop := pa mod PGSIZE = 0 /\ end_ <= pa < PHYSTOP.

Record kmem_inv (k : kmem) (l : list Z) : Prop := {
  ki_lock : kmem_lock k = false;
  ki_chain : chain (ram k) (freelist k) l;
  ki_nodup : NoDup l;
  ki_pages : Forall page_ok l;
  ki_ram : mem_ok (ram k);
}.

(** The pages [freerange] visits, [n] of them from [p] on. *)
Fixpoint pages_from (p : Z) (n : nat) : list Z :=
  match n with
  | O => []
  | S n => p :: pages_from (p + PGSIZE) n
  end.

Hypothesis end_pos : 0 < end_.

Lemma page_ok_range pa : page_ok pa -> 0 < pa < 2 ^ 64.
Proof. intros [_ H]. unfold PHYSTOP, KERNBASE in H. zpow. lia. Qed.

Lemma page_ok_apart x y : page_ok x -> page_ok y -> x <> y -> x + PGSIZE <= y \/ y + PGSIZE <= x.
Proof. intros [Hx _] [Hy _]. by apply pages_apart. Qed.

Lemma chain_ext m m' p l :
  (forall x a, x ∈ l -> x <= a < x + 8 -> m a = m' a) -> chain m p l -> chain m' p l.
Proof.
  revert p. induction l as [|x l IH]; intros p H; cbn; [done|].
  intros [-> Hc]. split; [done|].
  rewrite <- (load64_ext m m' x) by (intros; apply (H x); [left|done]).
  apply IH; [|done]. intros y a Hy. apply H. by right.
Qed.

(** Writing inside a page that is not on the list leaves the list alone. *)
Lemma chain_frame m m' p l pa :
  page_ok pa -> Forall page_ok l -> pa ∉ l ->
  (forall a, a < pa \/ pa + PGSIZE <= a -> m' a = m a) ->
  chain m p l -> chain m' p l.
Proof.
  intros Hpa Hl Hni Hm. apply chain_ext. intros x a Hx Ha. symmetry. apply Hm.
  rewrite Forall_forall in Hl.
  destruct (page_ok_apart pa x Hpa (Hl x Hx)); unfold PGSIZE in *; [by intros ->|lia|lia].
Qed.

Lemma page_in_list p l x : page_ok p -> Forall page_ok l -> p ∉ l -> x ∈ l ->
  x + 8 <= p \/ p + PGSIZE <= x.
Proof.
  intros Hp Hl Hni Hx. rewrite Forall_forall in Hl.
  destruct (page_ok_apart p x Hp (Hl x Hx)); unfold PGSIZE in *; [by intros ->|lia|lia].
Qed.

(** [kfree] of a page that is not free puts it at the head of the list and
    writes only inside it. *)
Lemma kfree_spec k l pa :
  kmem_inv k l -> page_ok pa -> pa ∉ l ->
  exists k', kfree pa k = Ok tt k' /\ kmem_inv k' (pa :: l) /\
    forall a, a < pa \/ pa + PGSIZE <= a -> ram k' a = ram k a.
Proof.
  intros [Hlk Hch Hnd Hpg Hram] Hpa Hni. destruct k as [lk fl m]; cbn in *. subst lk.
  unfold kfree. pose proof Hpa as [Ha Hr].
  rewrite Ha. cbn [Z.eqb negb orb].
  destruct (Z.ltb_spec pa end_); [lia|]. rewrite Z.geb_leb. destruct (Z.leb_spec PHYSTOP pa); [lia|].
  cbn. unfold bind, modify, acquire, release, field_update. cbn.
  set (m' := store64 (memset m pa 1 PGSIZE) pa fl).
  assert (Hm : forall a, a < pa \/ pa + PGSIZE <= a -> m' a = m a).
  { intros a Hout. unfold m'. rewrite store64_outside by (unfold PGSIZE in *; lia).
    rewrite memset_get, decide_False by lia. done. }
  eexists. split; [reflexivity|]. split; [|exact Hm].
  constructor; cbn; auto.
  - split; [done|]. change (chain m' (load64 m' pa) l).
    replace (load64 m' pa) with (u64 fl) by (symmetry; apply load_store64).
    rewrite u64_small; [by eapply chain_frame|].
    destruct l as [|x l]; cbn in Hch; [subst; lia|]. destruct Hch as [-> _].
    rewrite Forall_cons in Hpg. pose proof (page_ok_range x (proj1 Hpg)). lia.
  - by constructor.
  - apply store64_ok. by apply memset_ok.
Qed.

(** [kfree] panics on an address that is not a page of the pool. *)
Lemma kfree_bad k pa : ~ page_ok pa -> kfree pa k = Panic "kfree".
Proof.
  intros Hbad. unfold kfree, page_ok in *. rewrite Z.geb_leb.
  destruct (Z.eqb_spec (pa mod PGSIZE) 0), (Z.ltb_spec pa end_), (Z.leb_spec PHYSTOP pa);
    cbn [negb orb]; done || lia.
Qed.

Lemma kalloc_none k : kmem_inv k [] -> kalloc k = Ok 0 k.
Proof.
  intros [Hlk Hch _ _ _]. destruct k as [lk fl m]; cbn in *. subst. reflexivity.
Qed.

Lemma kalloc_some k p l :
  kmem_inv k (p :: l) ->
  exists k', kalloc k = Ok p k' /\ kmem_inv k' l /\
    forall a, ram k' a = if decide (p <= a < p + PGSIZE) then 5 else ram k a.
Proof.
  intros [Hlk Hch Hnd Hpg Hram]. destruct k as [lk fl m]; cbn in *. subst lk.
  destruct Hch as [-> Hch]. rewrite Forall_cons in Hpg. destruct Hpg as [Hp Hpg].
  apply NoDup_cons in Hnd. destruct Hnd as [Hni Hnd].
  unfold kalloc. mauto. pose proof (page_ok_range p Hp).
  destruct (Z.eqb_spec p 0); [lia|]. cbn.
  eexists. split; [reflexivity|]. split.
  - constructor; cbn; auto using memset_ok.
    apply (chain_frame m _ _ _ p Hp Hpg Hni); [|done]. intros a Ha. rewrite memset_get, decide_False by lia. done.
  - intros a. cbn. rewrite memset_get. done.
Qed.

Lemma elem_of_pages_from p n x :
  x ∈ pages_from p n <-> exists i, 0 <= i < Z.of_nat n /\ x = p + i * PGSIZE.
Proof.
  revert p. induction n as [|n IH]; intros p; cbn -[Z.of_nat].
  - rewrite elem_of_nil. split; [done|]. intros (i & ? & _). lia.
  - rewrite elem_of_cons, IH. unfold PGSIZE. split.
    + intros [->|(i & Hi & ->)]; [exists 0|exists (i + 1)]; lia.
    + intros (i & Hi & ->). destruct (decide (i = 0)); [left; lia|right].
      exists (i - 1). lia.
Qed.

Lemma freerange_loop_spec n k l p pa_end :
  kmem_inv k l -> p mod PGSIZE = 0 -> end_ <= p -> pa_end <= PHYSTOP ->
  p + Z.of_nat n * PGSIZE <= pa_end -> (forall x, x ∈ l -> x < p) ->
  exists k', freerange_loop n p pa_end k = Ok tt k' /\
    kmem_inv k' (rev (pages_from p n) ++ l).
Proof.
  revert k l p. induction n as [|n IH]; intros k l p Hk Hal Hp He Hn Hlt.
  - exists k. by split.
  - cbn [freerange_loop pages_from rev].
    destruct (Z.leb_spec (p + PGSIZE) pa_end); [|unfold PGSIZE in *; lia].
    destruct (kfree_spec k l p) as (k1 & E1 & Hk1 & _); [done| | |].
    { split; [done|]. unfold PGSIZE in *. lia. }
    { intros Hin. specialize (Hlt p Hin). lia. }
    rewrite (bind_Ok _ _ _ _ _ E1).
    destruct (IH k1 (p :: l) (p + PGSIZE)) as (k2 & E2 & Hk2); try done.
    + unfold PGSIZE in *. zlia.
    + unfold PGSIZE in *. lia.
    + unfold PGSIZE in *. lia.
    + intros x. rewrite elem_of_cons. intros [->|Hx]; [|specialize (Hlt x Hx)];
        unfold PGSIZE in *; lia.
    + exists k2. split; [done|]. by rewrite <- app_assoc.
Qed.

(** ** Properties *)

(** [kalloc] takes the first free page, fills it and nothing else with the
    byte 5, and leaves a well-formed free list of the other pages; it returns 0
    and changes nothing when no page is free. *)
Theorem kalloc_correct k l :
  kmem_inv k l ->
  match l with
  | [] => kalloc k = Ok 0 k
  | p :: l' => exists k', kalloc k = Ok p k' /\ kmem_inv k' l' /\ page_ok p /\ (p ∉ l') /\
      forall a, ram k' a = if decide (p <= a < p + PGSIZE) then 5 else ram k a
  end.
Proof.
  intros Hk. destruct l as [|p l]; [by apply kalloc_none|].
  destruct (kalloc_some k p l Hk) as (k' & E & Hk' & Hr). exists k'.
  destruct Hk as [_ _ Hnd Hpg _]. apply NoDup_cons in Hnd. rewrite Forall_cons in Hpg. naive_solver.
Qed.

(** A page handed out by [kalloc] and given back by [kfree] restores the
    free list: allocation and release are inverse on the set of free pages. *)
Theorem kalloc_kfree_roundtrip k p l :
  kmem_inv k (p :: l) ->
  exists k1 k2, kalloc k = Ok p k1 /\ kmem_inv k1 l /\
    kfree p k1 = Ok tt k2 /\ kmem_inv k2 (p :: l).
Proof.
  intros Hk. destruct (kalloc_some k p l Hk) as (k1 & E1 & Hk1 & _).
  destruct Hk as [_ _ Hnd Hpg _]. apply NoDup_cons in Hnd. rewrite Forall_cons in Hpg.
  destruct (kfree_spec k1 l p Hk1) as (k2 & E2 & Hk2 & _); naive_solver.
Qed.

(** [kinit] puts every whole page between the end of the kernel and
    [PHYSTOP] on the free list, each exactly once, highest address first. *)
Theorem kinit_all_pages (m : mem) (lk : bool) :
  mem_ok m -> end_ <= PHYSTOP ->
  exists k, kinit (Kmem lk 0 m) = Ok tt k /\
    kmem_inv k (rev (pages_from (PGROUNDUP end_)
                                (Z.to_nat ((PHYSTOP - PGROUNDUP end_) / PGSIZE)))) /\
    forall pa, pa ∈ pages_from (PGROUNDUP end_)
                               (Z.to_nat ((PHYSTOP - PGROUNDUP end_) / PGSIZE)) <->
               page_ok pa.
Proof.
  intros Hm He. unfold kinit, freerange.
  assert (Hup : PGROUNDUP end_ = PGSIZE * ((end_ + PGSIZE - 1) / PGSIZE)).
  { apply PGROUNDUP_div; unfold PHYSTOP, KERNBASE, PGSIZE in *; zpow; lia. }
  assert (Hb : end_ <= PGROUNDUP end_ < end_ + PGSIZE) by (rewrite Hup; pglia).
  set (p := PGROUNDUP end_) in *.
  assert (Hal : p mod PGSIZE = 0) by (rewrite Hup; pglia).
  assert (HP : PHYSTOP mod PGSIZE = 0) by reflexivity.
  assert (Hn : p <= PHYSTOP) by pglia.
  destruct (freerange_loop_spec (Z.to_nat ((PHYSTOP - p) / PGSIZE)) (Kmem false 0 m) [] p PHYSTOP)
    as (k & E & Hk); try done.
  - constructor; cbn; auto using NoDup_nil_2.
  - lia.
  - pglia.
  - intros x Hx. by apply elem_of_nil in Hx.
  - exists k. rewrite app_nil_r in Hk. split; [exact E|]. split; [done|].
    intros pa. rewrite elem_of_pages_from. split.
    + intros (i & Hi & ->). split; pglia.
    + intros [Hpa Hr]. exists ((pa - p) / PGSIZE). pglia.
Qed.

End Kalloc.

(** Two free pages just below [PHYSTOP]. *)
Definition two_pages : kmem :=
  Kmem false (PHYSTOP - 4096)
       (store64 (store64 (fun _ => 0) (PHYSTOP - 4096) (PHYSTOP - 8192)) (PHYSTOP - 8192) 0).

Lemma two_pages_inv : kmem_inv KERNBASE two_pages [PHYSTOP - 4096; PHYSTOP - 8192].
Proof.
  constructor.
  - reflexivity.
  - vm_compute. auto.
  - repeat constructor; set_unfold; unfold PHYSTOP, KERNBASE; naive_solver lia.
  - repeat constructor; vm_compute; congruence.
  - do 2 apply store64_ok. intros a. zlia.
Qed.

Lemma kalloc_correct_witness : exists k', kalloc two_pages = Ok (PHYSTOP - 4096) k'.
Proof.
  destruct (kalloc_correct KERNBASE eq_refl two_pages _ two_pages_inv) as (k' & E & _). by exists k'.
Defined.

Lemma kalloc_kfree_roundtrip_witness :
  exists k1 k2, kalloc two_pages = Ok (PHYSTOP - 4096) k1 /\
    kfree KERNBASE (PHYSTOP - 4096) k1 = Ok tt k2.
Proof.
  destruct (kalloc_kfree_roundtrip KERNBASE eq_refl two_pages _ _ two_pages_inv)
    as (k1 & k2 & E1 & _ & E2 & _). by exists k1, k2.
Defined.

Lemma kinit_all_pages_witness :
  exists k, kinit (PHYSTOP - 8192) (Kmem false 0 (fun _ => 0)) = Ok tt k /\
    kmem_inv (PHYSTOP - 8192) k [PHYSTOP - 4096; PHYSTOP - 8192].
Proof.
  destruct (kinit_all_pages (PHYSTOP - 8192) eq_refl (fun _ => 0) false) as (k & E & Hk & _).
  - intros a. zlia.
  - vm_compute. congruence.
  - exists k. split; [exact E|exact Hk].
Defined.
