(* ===== verification/DList.v ===== *)
(** * [kernel/list.c]: circular doubly linked lists

    A node is an address; [nxt] and [prv] are the two pointer fields of
    [struct list].  The head of a list is a node too.  The same pointer code,
    inlined, keeps the buffer cache's LRU order in [bio.c]. *)
From stdpp Require Import base list gmap strings.
From Stdlib Require Import ZArith Lia.
From S2P Require Import Prelude KString.

#[local] Open Scope Z_scope.
#[local] Open Scope xv6_scope.

Record dheap : Type := DHeap {
  nxt : Z -> Z;
  prv : Z -> Z;
}.

Definition set_nxt (h : dheap) (a v : Z) : dheap := DHeap (upd (nxt h) a v) (prv h).
Definition set_prv (h : dheap) (a v : Z) : dheap := DHeap (nxt h) (upd (prv h) a v).

Definition lst_init (h : dheap) (lst : Z) : dheap :=
  let h := set_nxt h lst lst in
  set_prv h lst lst.

Definition lst_empty (h : dheap) (lst : Z) : bool := nxt h lst =? lst.

Definition lst_remove (h : dheap) (e : Z) : dheap :=
  let h := set_nxt h (prv h e) (nxt h e) in
  set_prv h (nxt h e) (prv h e).

Definition lst_pop (lst : Z) : M dheap Z := fun h =>
  if nxt h lst =? lst then Panic "lst_pop"
  else let p := nxt h lst in Ok p (lst_remove h p).

Definition lst_push (h : dheap) (lst e : Z) : dheap :=
  let h := set_nxt h e (nxt h lst) in
  let h := set_prv h e lst in
  let h := set_prv h (nxt h lst) e in
  set_nxt h lst e.

(** [for(p = start; p != lst; p = step(p))], the nodes visited. *)
Fixpoint trace (fuel : nat) (step : Z -> Z) (lst p : Z) : list Z :=
  match fuel with
  | O => []
  | S fuel => if p =? lst then [] else p :: trace fuel step lst (step p)
  end.

(** The nodes [lst_print] prints. *)
Definition lst_print (fuel : nat) (h : dheap) (lst : Z) : list Z := trace fuel (nxt h) lst (nxt h lst).

(** ** Representation *)

(** From [a], following [nxt], one meets [xs] and then [b]; [prv] goes back. *)
Fixpoint seg (h : dheap) (a : Z) (xs : list Z) (b : Z) : Prop :=
  match xs with
  | [] => nxt h a = b /\ prv h b = a
  | x :: xs => nxt h a = x /\ prv h x = a /\ seg h x xs b
  end.

(** The list with head [l] holds [xs]. *)
Definition dlist (h : dheap) (l : Z) (xs : list Z) : Prop := seg h l xs l /\ NoDup (l :: xs).

Lemma seg_ext h h' a xs b :
  (forall x, x ∈ a :: xs -> nxt h' x = nxt h x) ->
  (forall x, x ∈ xs ++ [b] -> prv h' x = prv h x) ->
  seg h a xs b -> seg h' a xs b.
Proof.
  revert a. induction xs as [|x xs IH]; intros a Hn Hp; cbn [seg app] in *.
  - by rewrite (Hn a), (Hp b) by left.
  - rewrite (Hn a), (Hp x) by left. intros (? & ? & ?). split_and!; [done..|].
    apply IH; [| |done]; intros; [apply Hn|apply Hp]; by right.
Qed.

Lemma seg_app h a xs y ys b : seg h a (xs ++ y :: ys) b <-> seg h a xs y /\ seg h y ys b.
Proof. revert a. induction xs as [|x xs IH]; intros a; cbn; [naive_solver|]. rewrite IH. tauto. Qed.

Lemma seg_first h a xs b : seg h a xs b -> nxt h a = default b (head xs).
Proof. destruct xs; cbn; naive_solver. Qed.

Lemma seg_last h a xs b : seg h a xs b -> prv h b = default a (last xs).
Proof.
  revert a. induction xs as [|x xs IH]; intros a; cbn [seg]; [by intros [_ ->]|].
  intros (_ & _ & H). rewrite (IH x H), last_cons. by destruct (last xs).
Qed.

Ltac heap_simpl :=
  repeat first
    [ progress cbn [seg nxt prv set_nxt set_prv] in *
    | match goal with
      | |- context [upd ?f ?a ?v ?a] => rewrite (upd_same f a v)
      | |- context [upd ?f ?a ?v ?x] => rewrite (upd_other f a v x) by (list_simpl; subst; congruence)
      end ].

Lemma lst_init_dlist h l : dlist (lst_init h l) l [].
Proof. split; [|apply NoDup_singleton]. unfold lst_init. by heap_simpl. Qed.

Lemma lst_push_dlist h l e xs :
  dlist h l xs -> e ∉ l :: xs -> dlist (lst_push h l e) l (e :: xs).
Proof.
  intros [Hs Hnd] Hni. split; [|list_auto]. unfold lst_push. list_simpl.
  destruct xs as [|x xs].
  - destruct Hs as [Hs1 Hs2]. heap_simpl. rewrite Hs1. heap_simpl. done.
  - destruct Hs as (Hs1 & Hs2 & Hs3). list_simpl. heap_simpl. rewrite Hs1. heap_simpl.
    split_and!; [done..|].
    eapply seg_ext; [| |exact Hs3]; intros y Hy; heap_simpl; done.
Qed.

Lemma seg_remove h a xs e ys b :
  seg h a xs e -> seg h e ys b -> NoDup (a :: xs ++ e :: ys) -> b ∉ xs ++ e :: ys ->
  seg (lst_remove h e) a (xs ++ ys) b.
Proof.
  revert a. induction xs as [|x xs IH]; intros a H1 H2 Hnd Hb; cbn [app] in *.
  - destruct H1 as [Hae Hea]. unfold lst_remove. list_simpl.
    destruct ys as [|y ys].
    + destruct H2 as [Hn Hp]. heap_simpl. rewrite Hea. heap_simpl. rewrite Hn. by heap_simpl.
    + destruct H2 as (Hn & Hp & Hs). list_simpl. heap_simpl.
      rewrite Hea. heap_simpl. rewrite Hn. heap_simpl. split_and!; [done..|].
      eapply seg_ext; [| |exact Hs]; intros z Hz; heap_simpl; done.
  - destruct H1 as (Hax & Hxa & H1).
    assert (Hp : prv h e ∈ x :: xs).
    { rewrite (seg_last _ _ _ _ H1). destruct (last xs) as [z|] eqn:E; cbn; [|by left].
      right. apply last_Some in E. destruct E as [? ->]. apply elem_of_app. right. by left. }
    assert (Hq : nxt h e ∈ ys ++ [b]).
    { rewrite (seg_first _ _ _ _ H2). destruct ys; cbn; by left. }
    apply NoDup_cons in Hnd. destruct Hnd as [Ha Hnd].
    assert (IH' : seg (lst_remove h e) x (xs ++ ys) b) by (apply IH; auto; list_auto).
    cbn [seg]. unfold lst_remove in *. cbn [nxt prv set_nxt set_prv] in *.
    assert (prv h e <> e) by (intros E; rewrite E in Hp; list_auto).
    assert (a <> prv h e) by (intros E; rewrite <- E in Hp; list_auto).
    assert (x <> nxt h e) by (intros E; rewrite <- E in Hq; list_auto).
    split_and!; [by heap_simpl|by heap_simpl|exact IH'].
Qed.

Lemma lst_remove_dlist h l xs e ys :
  dlist h l (xs ++ e :: ys) -> dlist (lst_remove h e) l (xs ++ ys).
Proof.
  intros [Hs Hnd]. apply seg_app in Hs. destruct Hs as [H1 H2]. split.
  - apply seg_remove; auto. list_auto.
  - list_auto.
Qed.

(** The neighbours of a list's nodes are its nodes or its head. *)
Lemma seg_first_in h a xs b : seg h a xs b -> nxt h a ∈ xs ++ [b].
Proof. intros H. rewrite (seg_first _ _ _ _ H). destruct xs; cbn; by left. Qed.

Lemma seg_last_in h a xs b : seg h a xs b -> prv h b ∈ a :: xs.
Proof.
  intros H. rewrite (seg_last _ _ _ _ H). destruct (last xs) as [z|] eqn:E; cbn; [|by left].
  right. apply last_Some in E. destruct E as [? ->]. apply elem_of_app. right. by left.
Qed.

(** Lists that share no node do not disturb each other. *)
Lemma dlist_ext h h' l xs :
  (forall x, x ∈ l :: xs -> nxt h' x = nxt h x /\ prv h' x = prv h x) -> dlist h l xs -> dlist h' l xs.
Proof.
  intros H [Hs Hnd]. split; [|done]. eapply seg_ext; [| |exact Hs]; intros x Hx; apply H; [done|].
  apply elem_of_app in Hx as [?|?%list_elem_of_singleton]; [by right|subst; by left].
Qed.

Lemma lst_push_frame h l e xs l' xs' :
  dlist h l xs -> (forall x, x ∈ l' :: xs' -> x ∉ l :: e :: xs) -> dlist h l' xs' -> dlist (lst_push h l e) l' xs'.
Proof.
  intros [Hs Hnd] Hd. apply dlist_ext. intros x Hx. specialize (Hd x Hx).
  pose proof (seg_first_in _ _ _ _ Hs) as Hf. unfold lst_push. cbn.
  assert (x <> nxt h l /\ x <> e /\ x <> l) as (N1 & N2 & N3) by (split_and!; intros ->; apply Hd; set_solver).
  rewrite !upd_other; [done|..]; try done.
  destruct (Z.eq_dec l e) as [->|]; [by rewrite upd_same|by rewrite upd_other].
Qed.

Lemma lst_remove_frame h l xs e ys l' xs' :
  dlist h l (xs ++ e :: ys) -> (forall x, x ∈ l' :: xs' -> x ∉ l :: xs ++ e :: ys) ->
  dlist h l' xs' -> dlist (lst_remove h e) l' xs'.
Proof.
  intros [Hs Hnd] Hd. apply dlist_ext. intros x Hx. specialize (Hd x Hx).
  apply seg_app in Hs. destruct Hs as [H1%seg_last_in H2%seg_first_in]. unfold lst_remove. cbn.
  assert (x <> prv h e /\ x <> nxt h e) as [N1 N2] by (split; intros ->; apply Hd; set_solver).
  rewrite !upd_other; [done|..]; try done.
  destruct (Z.eq_dec e (prv h e)) as [E|]; [|by rewrite upd_other].
  rewrite <- E, upd_same. done.
Qed.

Lemma trace_next h a xs l fuel :
  seg h a xs l -> l ∉ xs -> (length xs < fuel)%nat ->
  trace fuel (nxt h) l (nxt h a) = xs.
Proof.
  revert a fuel. induction xs as [|x xs IH]; intros a [|fuel] Hs Hl Hf; cbn in *; try lia.
  - destruct Hs as [-> _]. by rewrite Z.eqb_refl.
  - destruct Hs as (-> & _ & Hs). destruct (Z.eqb_spec x l); [list_auto|].
    rewrite (IH x); [|done|list_auto|lia]. done.
Qed.

Lemma trace_prev h a xs l fuel :
  seg h l xs a -> l ∉ xs -> (length xs < fuel)%nat ->
  trace fuel (prv h) l (prv h a) = reverse xs.
Proof.
  revert a fuel. induction xs as [|x xs IH] using rev_ind; intros a [|fuel] Hs Hl Hf; cbn in *; try lia.
  - destruct Hs as [_ ->]. by rewrite Z.eqb_refl.
  - rewrite length_app in Hf. cbn in Hf. apply seg_app in Hs. destruct Hs as [Hs [_ ->]].
    destruct (Z.eqb_spec x l); [list_auto|].
    rewrite (IH x); [|done|list_auto|lia]. by rewrite reverse_snoc.
Qed.

(** ** Properties *)

(** On a well-formed circular list, [lst_push] adds a new node at the front,
    [lst_pop] returns the front node and removes it, and [lst_remove] removes a
    node wherever it stands; each leaves a well-formed circular list. *)
Theorem lst_operations (h : dheap) (l e : Z) (xs ys : list Z) :
  (dlist h l (xs ++ ys) -> e ∉ l :: xs ++ ys -> dlist (lst_push h l e) l (e :: xs ++ ys)) /\
  (dlist h l (xs ++ e :: ys) -> dlist (lst_remove h e) l (xs ++ ys)) /\
  (dlist h l (e :: ys) -> exists h', lst_pop l h = Ok e h' /\ dlist h' l ys) /\
  (dlist h l [] -> lst_pop l h = Panic "lst_pop").
Proof.
  split; [apply lst_push_dlist|]. split; [apply lst_remove_dlist|]. split.
  - intros Hd. pose proof (lst_remove_dlist h l [] e ys Hd) as Hr. exists (lst_remove h e).
    split; [|exact Hr]. destruct Hd as [(Hn & _) Hnd]. unfold lst_pop. rewrite Hn.
    destruct (Z.eqb_spec e l) as [->|]; [|done].
    list_auto.
  - intros [[Hn _] _]. unfold lst_pop. by rewrite Hn, Z.eqb_refl.
Qed.

(** The loop of [lst_print] visits exactly the nodes of the list, in order,
    and then stops. *)
Theorem lst_print_all (h : dheap) (l : Z) (xs : list Z) (fuel : nat) :
  dlist h l xs -> (length xs < fuel)%nat -> lst_print fuel h l = xs.
Proof.
  intros [Hs Hnd] Hf. apply NoDup_cons in Hnd. apply (trace_next _ _ _ _ _ Hs); [tauto|done].
Qed.

Definition list_of_two : dheap :=
  lst_push (lst_push (lst_init (DHeap (fun _ => 0) (fun _ => 0)) 1) 1 2) 1 3.

Lemma list_of_two_dlist : dlist list_of_two 1 [3; 2].
Proof.
  unfold list_of_two. apply lst_push_dlist; [|list_simpl; lia].
  apply lst_push_dlist; [|list_simpl; lia]. apply lst_init_dlist.
Qed.

Lemma lst_operations_witness :
  exists h', lst_pop 1 list_of_two = Ok 3 h' /\ dlist h' 1 [2].
Proof. apply (lst_operations list_of_two 1 3 [] [2]), list_of_two_dlist. Defined.

Lemma lst_print_all_witness : lst_print 3 list_of_two 1 = [3; 2].
Proof. apply lst_print_all; [apply list_of_two_dlist|cbn; lia]. Defined.
