(* ===== verification/Sleeplock.v ===== *)
(** * [kernel/sleeplock.c]: long-term locks

    The state of a handler that uses a sleep-lock is the lock and the wakeups
    it has issued.  A process that finds the lock taken goes to sleep on it:
    [sleep] gives the inner spinlock back, so the outcome is [Sleep] with that
    spinlock free. *)
From stdpp Require Import base list strings.
From Stdlib Require Import ZArith Lia.
From S2P Require Import Prelude.

#[local] Open Scope Z_scope.
#[local] Open Scope xv6_scope.

Record sleeplock : Type := Sleeplock {
  locked : bool;
  lk : bool;              (** the spinlock protecting this sleep lock *)
  lk_pid : Z;             (** process holding the lock *)
}.

#[export] Instance sleeplock_eta : Eta sleeplock :=
  fun l => Sleeplock (locked l) (lk l) (lk_pid l).

Definition initsleeplock : sleeplock := Sleeplock false false 0.

(** [mypid] is [myproc()->pid]; [ch] is the address of the lock. *)
Definition acquiresleep (mypid : Z) (ch : chan) : M sleeplock unit :=
  acquire lk ;;
  l ← gets locked ;
  if l then (fun s : sleeplock => Sleep ch (s <| lk := false |>))
  else modify (fun s => s <| locked := true |>) ;;
       modify (fun s => s <| lk_pid := mypid |>) ;;
       release lk.

(** Returns the channel that [wakeup] is called on. *)
Definition releasesleep (ch : chan) : M sleeplock chan :=
  acquire lk ;;
  modify (fun s => s <| locked := false |>) ;;
  modify (fun s => s <| lk_pid := 0 |>) ;;
  release lk ;;
  ret ch.

Definition holdingsleep (mypid : Z) : M sleeplock bool :=
  acquire lk ;;
  r ← gets (fun s => locked s && (lk_pid s =? mypid)) ;
  release lk ;;
  ret r.

(** ** What each operation does when the inner spinlock is free *)

Lemma acquiresleep_free me ch l :
  lk l = false -> locked l = false -> acquiresleep me ch l = Ok tt (Sleeplock true false me).
Proof. destruct l as [a b c]; cbn. by intros -> ->. Qed.

Lemma acquiresleep_taken me ch l :
  lk l = false -> locked l = true -> acquiresleep me ch l = Sleep ch l.
Proof. destruct l as [a b c]; cbn. by intros -> ->. Qed.

Lemma releasesleep_eq ch l : lk l = false -> releasesleep ch l = Ok ch initsleeplock.
Proof. destruct l as [a b c]; cbn. by intros ->. Qed.

Lemma holdingsleep_eq me l :
  lk l = false -> holdingsleep me l = Ok (locked l && (lk_pid l =? me)) l.
Proof. destruct l as [a b c]; cbn. by intros ->. Qed.

(** ** Properties *)

(** A sleep lock excludes: after [acquiresleep] by one process, a second
    process goes to sleep on the lock and does not change it, only the owner
    passes [holdingsleep], and after [releasesleep], which wakes the lock's
    sleepers, the second process gets it. *)
Theorem sleeplock_excludes (l : sleeplock) (p q : Z) (ch : chan) :
  lk l = false -> locked l = false -> p <> q ->
  exists l1 l2 l3,
    acquiresleep p ch l = Ok tt l1 /\ acquiresleep q ch l1 = Sleep ch l1 /\
    holdingsleep p l1 = Ok true l1 /\ holdingsleep q l1 = Ok false l1 /\
    releasesleep ch l1 = Ok ch l2 /\ acquiresleep q ch l2 = Ok tt l3 /\
    holdingsleep q l3 = Ok true l3.
Proof.
  intros Hlk Hf Hpq. exists (Sleeplock true false p), initsleeplock, (Sleeplock true false q).
  rewrite acquiresleep_free by done. split; [done|].
  rewrite acquiresleep_taken, !holdingsleep_eq, releasesleep_eq, acquiresleep_free by done.
  cbn. rewrite !Z.eqb_refl. destruct (Z.eqb_spec p q); [done|]. done.
Qed.

Lemma sleeplock_excludes_witness :
  exists l1, acquiresleep 1 (Chan "buffer" 0) initsleeplock = Ok tt l1 /\
    acquiresleep 2 (Chan "buffer" 0) l1 = Sleep (Chan "buffer" 0) l1.
Proof.
  destruct (sleeplock_excludes initsleeplock 1 2 (Chan "buffer" 0)) as (l1 & l2 & l3 & H1 & H2 & _);
    [reflexivity|reflexivity|lia|]. by exists l1.
Defined.
