(* ===== verification/Bio.v ===== *)
(** * [kernel/bio.c]: the buffer cache

    Thirty buffers in least-recently-used order.  The state is the array of
    buffers, the pointer fields of the LRU list, the disk behind the cache and
    the sequence of block writes the disk has been given.  Buffer [i] is node [i]
    of the list and the list head is node [NBUF].

    The second half states what the cache promises its clients ([astate]: which
    blocks are referenced, by whom they are locked, what each block reads as)
    and proves that every routine implements that specification ([brep]). *)
From stdpp Require Import base list gmap strings.
From Stdlib Require Import ZArith Lia.
From S2P Require Import Prelude KString DList Sleeplock.

#[local] Open Scope Z_scope.
#[local] Open Scope xv6_scope.

Definition MAXOPBLOCKS : Z := 10.
Definition LOGSIZE : Z := MAXOPBLOCKS * 3.
Definition NBUF : Z := MAXOPBLOCKS * 3.
Definition BSIZE : Z := 1024.

Abbreviation block := (list Z).

Record buf : Type := Buf {
  valid : bool;           (** has data been read from disk? *)
  dev : Z;
  blockno : Z;
  b_lock : sleeplock;
  refcnt : Z;
  data : block;
}.

#[export] Instance buf_eta : Eta buf :=
  fun b => Buf (valid b) (dev b) (blockno b) (b_lock b) (refcnt b) (data b).

Record bst : Type := Bst {
  bc_lock : bool;
  bufs : Z -> buf;
  links : dheap;          (** the [next] and [prev] fields *)
  mypid : Z;              (** [myproc()->pid] *)
  disk : Z * Z -> block;
  writes : list (Z * Z * block);   (** blocks written to disk, oldest first *)
  bc_wakes : list chan;   (** [wakeup] calls, latest first *)
}.

#[export] Instance bst_eta : Eta bst :=
  fun s => Bst (bc_lock s) (bufs s) (links s) (mypid s) (disk s) (writes s) (bc_wakes s).

(** [&bcache.head] *)
Definition HEAD : Z := NBUF.

Definition set_buf (b : Z) (f : buf -> buf) : M bst unit :=
  modify (fun s => s <| bufs := upd (bufs s) b (f (bufs s b)) |>).

(** Run a sleep-lock routine on [b->lock]. *)
Definition with_lock {A} (b : Z) (m : M sleeplock A) : M bst A :=
  zoom (fun s => b_lock (bufs s b))
       (fun l s => s <| bufs := upd (bufs s) b ((bufs s b) <| b_lock := l |>) |>) m.

Definition buf_chan (b : Z) : chan := Chan "buf" b.

(** [virtio_disk_rw]: the block moves between the buffer and the disk. *)
Definition virtio_disk_rw (n b : Z) (write : bool) : M bst unit := fun s =>
  let key := (n, blockno (bufs s b)) in
  if write
  then Ok tt (s <| disk := fun k => if decide (k = key) then data (bufs s b) else disk s k |>
                <| writes := writes s ++ [(key, data (bufs s b))] |>)
  else Ok tt (s <| bufs := upd (bufs s) b ((bufs s b) <| data := disk s key |>) |>).

(** The body of [binit]'s loop links a buffer behind the head, field by field as
    [lst_push] does, and clears its lock. *)
Definition binit_step (s : bst) (b : Z) : bst :=
  s <| links := lst_push (links s) HEAD b |>
    <| bufs := upd (bufs s) b ((bufs s b) <| b_lock := initsleeplock |>) |>.

Definition binit (s : bst) : bst :=
  let s := s <| bc_lock := false |> <| links := lst_init (links s) HEAD |> in
  fold_left binit_step (zseq 0 (Z.to_nat NBUF)) s.

Definition acquire_buf (b : Z) : M bst unit :=
  pid ← gets mypid ;
  with_lock b (acquiresleep pid (buf_chan b)).

(** The block is cached in [b]. *)
Definition bget_hit (b : Z) : M bst Z :=
  set_buf b (fun x => x <| refcnt := u32 (refcnt x + 1) |>) ;;
  release bc_lock ;;
  acquire_buf b ;;
  ret b.

(** Not cached; [b] is recycled. *)
Definition bget_recycle (dev_ blockno_ b : Z) : M bst Z :=
  set_buf b (fun x => x <| dev := dev_ |> <| blockno := blockno_ |>
                        <| valid := false |> <| refcnt := 1 |>) ;;
  release bc_lock ;;
  acquire_buf b ;;
  ret b.

Definition bget (dev_ blockno_ : Z) : M bst Z :=
  acquire bc_lock ;;
  s ← gets id ;
  match List.find (fun b => (dev (bufs s b) =? dev_) && (blockno (bufs s b) =? blockno_))
                  (trace (S (Z.to_nat NBUF)) (nxt (links s)) HEAD (nxt (links s) HEAD)) with
  | Some b => bget_hit b
  | None =>
      match List.find (fun b => refcnt (bufs s b) =? 0)
                      (trace (S (Z.to_nat NBUF)) (prv (links s)) HEAD (prv (links s) HEAD)) with
      | Some b => bget_recycle dev_ blockno_ b
      | None => panic "bget: no buffers"
      end
  end.

Definition bread (dev_ blockno_ : Z) : M bst Z :=
  b ← bget dev_ blockno_ ;
  v ← gets (fun s => valid (bufs s b)) ;
  (if v then ret tt
   else n ← gets (fun s => dev (bufs s b)) ;
        virtio_disk_rw n b false ;;
        set_buf b (fun x => x <| valid := true |>)) ;;
  ret b.

Definition holding_buf (b : Z) : M bst bool :=
  pid ← gets mypid ;
  with_lock b (holdingsleep pid).

Definition bwrite (b : Z) : M bst unit :=
  h ← holding_buf b ;
  if negb h then panic "bwrite"
  else n ← gets (fun s => dev (bufs s b)) ;
       virtio_disk_rw n b true.

(** [b->next->prev = b->prev; b->prev->next = b->next;] *)
Definition unlink (h : dheap) (b : Z) : dheap :=
  let h := set_prv h (nxt h b) (prv h b) in
  set_nxt h (prv h b) (nxt h b).

Definition brelse (b : Z) : M bst unit :=
  h ← holding_buf b ;
  if negb h then panic "brelse" else
  (w ← with_lock b (releasesleep (buf_chan b)) ;
   modify (fun s => s <| bc_wakes := w :: bc_wakes s |>) ;;
   acquire bc_lock ;;
   set_buf b (fun x => x <| refcnt := u32 (refcnt x - 1) |>) ;;
   r ← gets (fun s => refcnt (bufs s b)) ;
   (if r =? 0
    then modify (fun s => s <| links := lst_push (unlink (links s) b) HEAD b |>)
    else ret tt) ;;
   release bc_lock).

Definition bpin (b : Z) : M bst unit :=
  acquire bc_lock ;;
  set_buf b (fun x => x <| refcnt := u32 (refcnt x + 1) |>) ;;
  release bc_lock.

Definition bunpin (b : Z) : M bst unit :=
  acquire bc_lock ;;
  set_buf b (fun x => x <| refcnt := u32 (refcnt x - 1) |>) ;;
  release bc_lock.

(** A client that holds the buffer overwrites its data. *)
Definition set_data (b : Z) (d : block) : M bst unit := set_buf b (fun x => x <| data := d |>).

(** ** What the cache promises *)

Definition key (b : buf) : Z * Z := (dev b, blockno b).

Definition samekey (s : bst) (k : Z * Z) (b : Z) : bool :=
  (dev (bufs s b) =? k.1) && (blockno (bufs s b) =? k.2).

Definition idle (b : buf) : Prop := refcnt b = 0 /\ valid b = false.

Record astate : Type := AState {
  a_ref : gmap (Z * Z) Z;          (** references to each block in use *)
  a_held : gmap (Z * Z) Z;         (** owner of each locked block *)
  a_view : Z * Z -> block;         (** what a reader of the block sees *)
  a_disk : Z * Z -> block;
}.

#[export] Instance astate_eta : Eta astate :=
  fun a => AState (a_ref a) (a_held a) (a_view a) (a_disk a).

Definition fupdate (f : Z * Z -> block) (k : Z * Z) (d : block) : Z * Z -> block :=
  fun k' => if decide (k' = k) then d else f k'.

(** The concrete cache [s], with its LRU order [xs], implements [a]. *)
Record brep (s : bst) (a : astate) (xs : list Z) : Prop := {
  br_lock : bc_lock s = false;
  br_list : dlist (links s) HEAD xs;
  br_all : xs ≡ₚ zseq 0 (Z.to_nat NBUF);
  (** a buffer in use, or holding data, is the first one for its block *)
  br_first : forall b, b ∈ xs -> ~ idle (bufs s b) ->
    List.find (samekey s (key (bufs s b))) xs = Some b;
  br_buf : forall b, b ∈ xs -> lk (b_lock (bufs s b)) = false /\
    0 <= refcnt (bufs s b) < 2 ^ 32 /\
    (locked (b_lock (bufs s b)) = true -> 0 < refcnt (bufs s b));
  br_ref : forall b, b ∈ xs -> 0 < refcnt (bufs s b) ->
    a_ref a !! key (bufs s b) = Some (refcnt (bufs s b));
  br_ref_inv : forall k r, a_ref a !! k = Some r -> 0 < r /\
    exists b, b ∈ xs /\ key (bufs s b) = k /\ refcnt (bufs s b) = r;
  br_held : forall b, b ∈ xs -> 0 < refcnt (bufs s b) ->
    a_held a !! key (bufs s b) =
      if locked (b_lock (bufs s b)) then Some (lk_pid (b_lock (bufs s b))) else None;
  br_held_ref : forall k, is_Some (a_held a !! k) -> is_Some (a_ref a !! k);
  br_view : forall b, b ∈ xs -> valid (bufs s b) = true ->
    a_view a (key (bufs s b)) = data (bufs s b);
  br_miss : forall k, (forall b, b ∈ xs -> key (bufs s b) = k -> valid (bufs s b) = false) ->
    a_view a k = a_disk a k;
  br_clean : forall b, b ∈ xs -> refcnt (bufs s b) = 0 -> valid (bufs s b) = true ->
    data (bufs s b) = a_disk a (key (bufs s b));
  br_disk : forall k, disk s k = a_disk a k;
}.

(** Buffer [b] is the one the cache keeps for block [k]. *)
Definition cached (s : bst) (b : Z) (k : Z * Z) : Prop :=
  0 <= b < NBUF /\ key (bufs s b) = k /\ 0 < refcnt (bufs s b).

(** References of [k], 0 when the block is not in use. *)
Definition refs (a : astate) (k : Z * Z) : Z := default 0 (a_ref a !! k).

(** A reference less; the block leaves the map with the last one. *)
Definition unref (m : gmap (Z * Z) Z) (k : Z * Z) (r : Z) : gmap (Z * Z) Z :=
  if decide (r = 1) then delete k m else <[k := r - 1]> m.

#[global] Arguments acquire_buf : simpl never.
#[global] Arguments holding_buf : simpl never.
#[global] Arguments with_lock : simpl never.
#[global] Arguments bget : simpl never.
#[global] Arguments virtio_disk_rw : simpl never.
#[global] Arguments u32 : simpl never.
#[global] Arguments Z.pow : simpl never.
#[global] Arguments key : simpl never.

(** ** Searching a list *)

Lemma find_ext (P Q : Z -> bool) xs :
  (forall x, x ∈ xs -> P x = Q x) -> List.find P xs = List.find Q xs.
Proof.
  induction xs as [|x xs IH]; intros H; cbn; [done|].
  rewrite (H x) by left. rewrite IH; [done|]. intros. apply H. by right.
Qed.

Lemma find_Some_in (P : Z -> bool) xs b : List.find P xs = Some b -> b ∈ xs /\ P b = true.
Proof. intros H. apply List.find_some in H. by rewrite list_elem_of_In. Qed.

Lemma find_None_in (P : Z -> bool) xs b : List.find P xs = None -> b ∈ xs -> P b = false.
Proof. intros H Hb. apply list_elem_of_In in Hb. by apply (List.find_none _ _ H). Qed.

(** The first match of a test is also the first match of a stronger one. *)
Lemma find_stronger (P Q : Z -> bool) xs b :
  List.find P xs = Some b -> Q b = true -> (forall x, x ∈ xs -> Q x = true -> P x = true) ->
  List.find Q xs = Some b.
Proof.
  induction xs as [|x xs IH]; cbn; [done|]. intros Hf Hb Hq.
  destruct (P x) eqn:E; [by simplify_eq; rewrite Hb|].
  destruct (Q x) eqn:E'; [rewrite Hq in E by (done || left); done|].
  apply IH; auto. intros. apply Hq; [by right|done].
Qed.

Lemma find_skip (P : Z -> bool) l b r :
  P b = false -> List.find P (l ++ b :: r) = List.find P (l ++ r).
Proof. intros H. induction l as [|x l IH]; cbn; [by rewrite H|]. by rewrite IH. Qed.

Lemma find_after (P : Z -> bool) l b r :
  (forall x, x ∈ l -> P x = false) -> P b = true -> List.find P (l ++ b :: r) = Some b.
Proof.
  intros Hl Hb. induction l as [|x l IH]; cbn; [by rewrite Hb|].
  rewrite (Hl x) by left. apply IH. intros. apply Hl. by right.
Qed.

Lemma samekey_spec s k b : samekey s k b = true <-> key (bufs s b) = k.
Proof.
  unfold samekey, key. destruct k as [d n]. cbn.
  rewrite andb_true_iff, !Z.eqb_eq. split; [intros [-> ->]; done|intros [=]; done].
Qed.

Lemma samekey_eq s s' k b : key (bufs s b) = key (bufs s' b) -> samekey s k b = samekey s' k b.
Proof. unfold samekey, key. intros [= -> ->]. done. Qed.

Lemma not_idle_ref b : 0 < refcnt b -> ~ idle b.
Proof. intros ? [? _]. lia. Qed.

Lemma not_idle_valid b : valid b = true -> ~ idle b.
Proof. intros ? [_ ?]. congruence. Qed.

Lemma idle_dec b : idle b \/ ~ idle b.
Proof.
  unfold idle. destruct (Z.eq_dec (refcnt b) 0), (valid b); [right|left|right|right]; naive_solver.
Qed.

#[export] Hint Resolve not_idle_ref not_idle_valid : xv6.

(** ** Consequences of the representation *)

Section Rep.

Context (s : bst) (a : astate) (xs : list Z) (R : brep s a xs).

Lemma rep_range b : b ∈ xs <-> 0 <= b < NBUF.
Proof. rewrite (br_all _ _ _ R), elem_of_zseq. done. Qed.

Lemma rep_length : length xs = Z.to_nat NBUF.
Proof. rewrite (br_all _ _ _ R). apply length_zseq. Qed.

Lemma rep_nodup : NoDup xs.
Proof. rewrite (br_all _ _ _ R). apply NoDup_zseq. Qed.

Lemma rep_trace_next : trace (S (Z.to_nat NBUF)) (nxt (links s)) HEAD (nxt (links s) HEAD) = xs.
Proof.
  destruct (br_list _ _ _ R) as [Hs Hnd]. apply NoDup_cons in Hnd.
  apply (trace_next _ _ _ _ _ Hs); [tauto|]. rewrite rep_length. lia.
Qed.

Lemma rep_trace_prev :
  trace (S (Z.to_nat NBUF)) (prv (links s)) HEAD (prv (links s) HEAD) = reverse xs.
Proof.
  destruct (br_list _ _ _ R) as [Hs Hnd]. apply NoDup_cons in Hnd.
  apply (trace_prev _ _ _ _ _ Hs); [tauto|]. rewrite rep_length. lia.
Qed.

(** Two buffers that are not idle hold different blocks. *)
Lemma rep_unique b b' : b ∈ xs -> b' ∈ xs -> ~ idle (bufs s b) -> ~ idle (bufs s b') ->
  key (bufs s b) = key (bufs s b') -> b = b'.
Proof.
  intros Hb Hb' Hi Hi' Hk. pose proof (br_first _ _ _ R b Hb Hi) as H1.
  pose proof (br_first _ _ _ R b' Hb' Hi') as H2. congruence.
Qed.

Lemma rep_cached_first b k : cached s b k -> List.find (samekey s k) xs = Some b.
Proof.
  intros (Hb & Hk & Hr). subst k. apply (br_first _ _ _ R); [by apply rep_range|].
  auto with xv6.
Qed.

Lemma rep_cached_ref b k : cached s b k -> a_ref a !! k = Some (refcnt (bufs s b)).
Proof.
  intros (Hb & Hk & Hr). subst k. apply (br_ref _ _ _ R); [by apply rep_range|done].
Qed.

Lemma rep_ref_cached k : is_Some (a_ref a !! k) -> exists b, cached s b k.
Proof.
  intros [r Hr]. destruct (br_ref_inv _ _ _ R k r Hr) as (Hp & b & Hb & Hk & <-).
  exists b. split; [by apply rep_range|]. done.
Qed.

(** The keys of the buffers in use are the keys of [a_ref]; so when fewer than
    [NBUF] blocks are in use some buffer is free. *)
Lemma rep_free_buffer :
  (size (a_ref a) < Z.to_nat NBUF)%nat ->
  exists b, List.find (fun b => refcnt (bufs s b) =? 0) (reverse xs) = Some b.
Proof.
  intros Hsz. destruct (List.find _ (reverse xs)) as [b|] eqn:E; [by exists b|]. exfalso.
  assert (Hall : forall b, b ∈ xs -> 0 < refcnt (bufs s b)).
  { intros b Hb. pose proof (find_None_in _ _ b E) as Hf. rewrite elem_of_reverse in Hf.
    specialize (Hf Hb). apply Z.eqb_neq in Hf. pose proof (br_buf _ _ _ R b Hb). lia. }
  assert (Hsub : list_to_set ((fun b => key (bufs s b)) <$> xs) ⊆ dom (a_ref a)).
  { intros k. rewrite elem_of_list_to_set, list_elem_of_fmap. intros (b & -> & Hb).
    apply elem_of_dom. exists (refcnt (bufs s b)). apply (br_ref _ _ _ R); auto. }
  apply subseteq_size in Hsub. rewrite size_list_to_set, length_fmap, rep_length in Hsub.
  - rewrite size_dom in Hsub. lia.
  - apply NoDup_fmap_2_strong; [|apply rep_nodup].
    intros x y Hx Hy. apply rep_unique; auto with xv6.
Qed.

End Rep.

(** The representation looks at the buffers and the disk pointwise. *)
Lemma brep_eq s s' a xs :
  brep s a xs -> bc_lock s' = bc_lock s -> links s' = links s ->
  (forall i, bufs s' i = bufs s i) -> (forall k, disk s' k = disk s k) -> brep s' a xs.
Proof.
  intros R Hlk Hln Hb Hd.
  assert (Hs : forall k x, samekey s' k x = samekey s k x)
    by (intros; apply samekey_eq; by rewrite Hb).
  destruct R. constructor; rewrite ?Hlk, ?Hln; try done.
  - intros b. rewrite Hb. intros. rewrite (find_ext _ _ _ (fun x _ => Hs _ x)). auto.
  - intros b. rewrite Hb. auto.
  - intros b. rewrite Hb. auto.
  - intros k r Hk. destruct (br_ref_inv0 k r Hk) as (? & b & ?). split; [done|].
    exists b. by rewrite Hb.
  - intros b. rewrite Hb. auto.
  - intros b. rewrite Hb. auto.
  - intros k Hm. apply br_miss0. intros b. rewrite <- Hb. auto.
  - intros b. rewrite Hb. auto.
  - intros k. rewrite Hd. auto.
Qed.

(** ** Changing one buffer *)

(** A change of one buffer that keeps its block, with the matching change of the
    specification at that block. *)
Lemma brep_set s a xs s' a' b :
  brep s a xs -> b ∈ xs ->
  List.find (samekey s (key (bufs s b))) xs = Some b ->
  bc_lock s' = false -> links s' = links s -> (forall i, i <> b -> bufs s' i = bufs s i) ->
  key (bufs s' b) = key (bufs s b) ->
  lk (b_lock (bufs s' b)) = false -> 0 <= refcnt (bufs s' b) < 2 ^ 32 ->
  (locked (b_lock (bufs s' b)) = true -> 0 < refcnt (bufs s' b)) ->
  (forall k, k <> key (bufs s b) ->
    a_ref a' !! k = a_ref a !! k /\ a_held a' !! k = a_held a !! k /\
    a_view a' k = a_view a k /\ a_disk a' k = a_disk a k) ->
  a_ref a' !! key (bufs s b) =
    (if decide (0 < refcnt (bufs s' b)) then Some (refcnt (bufs s' b)) else None) ->
  a_held a' !! key (bufs s b) =
    (if locked (b_lock (bufs s' b)) then Some (lk_pid (b_lock (bufs s' b))) else None) ->
  a_view a' (key (bufs s b)) =
    (if valid (bufs s' b) then data (bufs s' b) else a_disk a' (key (bufs s b))) ->
  (refcnt (bufs s' b) = 0 -> valid (bufs s' b) = true ->
    data (bufs s' b) = a_disk a' (key (bufs s b))) ->
  (forall k, disk s' k = a_disk a' k) ->
  brep s' a' xs.
Proof.
  intros R Hb Hf Hlk Hln Hoth Hkey Hl Hr Hlr Hk Hk1 Hk2 Hk3 Hcl Hd.
  set (k := key (bufs s b)) in *.
  assert (Hid : forall q, q ∈ xs -> q <> b -> ~ idle (bufs s q) -> key (bufs s q) <> k).
  { intros q Hq Hne Hi E. pose proof (br_first _ _ _ R q Hq Hi) as H1. congruence. }
  assert (Hkeys : forall q, key (bufs s' q) = key (bufs s q)).
  { intros q. destruct (decide (q = b)) as [->|]; [done|]. by rewrite Hoth. }
  constructor.
  - done.
  - rewrite Hln. apply R.
  - apply R.
  - intros q Hq Hi. rewrite Hkeys.
    rewrite (find_ext _ (samekey s (key (bufs s q)))) by (intros; apply samekey_eq, Hkeys).
    destruct (decide (q = b)) as [->|]; [done|]. rewrite Hoth in Hi by done. by apply (br_first _ _ _ R).
  - intros q Hq. destruct (decide (q = b)) as [->|]; [done|]. rewrite Hoth by done.
    by apply (br_buf _ _ _ R).
  - intros q Hq Hp. rewrite Hkeys. destruct (decide (q = b)) as [->|].
    + fold k. rewrite Hk1. by rewrite decide_True by done.
    + rewrite Hoth in Hp |- * by done. destruct (Hk (key (bufs s q))) as [-> _].
      * apply Hid; auto with xv6.
      * by apply (br_ref _ _ _ R).
  - intros k' r Hk'. destruct (decide (k' = k)) as [->|Hne].
    + rewrite Hk1 in Hk'. case_decide; simplify_eq. split; [done|]. exists b. rewrite Hkeys. done.
    + destruct (Hk k' Hne) as [Hk0 _]. rewrite Hk0 in Hk'.
      destruct (br_ref_inv _ _ _ R k' r Hk') as (Hp & q & Hq & E & Hrq). split; [done|].
      exists q. rewrite Hkeys. rewrite Hoth by (intros ->; done). done.
  - intros q Hq Hp. rewrite Hkeys. destruct (decide (q = b)) as [->|].
    + by fold k.
    + rewrite Hoth in Hp |- * by done. destruct (Hk (key (bufs s q))) as (_ & -> & _).
      * apply Hid; auto with xv6.
      * by apply (br_held _ _ _ R).
  - intros k' Hk'. destruct (decide (k' = k)) as [->|Hne].
    + rewrite Hk1. rewrite Hk2 in Hk'.
      destruct (locked _) eqn:E; [|by apply is_Some_None in Hk']. rewrite decide_True by auto. eauto.
    + destruct (Hk k' Hne) as (H1 & H2 & _). rewrite H1. rewrite H2 in Hk'. by apply (br_held_ref _ _ _ R).
  - intros q Hq Hv. rewrite Hkeys. destruct (decide (q = b)) as [->|].
    + fold k. by rewrite Hk3, Hv.
    + rewrite Hoth in Hv |- * by done. destruct (Hk (key (bufs s q))) as (_ & _ & -> & _).
      * apply Hid; auto with xv6.
      * by apply (br_view _ _ _ R).
  - intros k' Hm. destruct (decide (k' = k)) as [->|Hne].
    + rewrite Hk3, (Hm b); auto.
    + destruct (Hk k' Hne) as (_ & _ & -> & ->). apply (br_miss _ _ _ R).
      intros q Hq E. rewrite <- (Hoth q) by (intros ->; done). apply Hm; [done|]. by rewrite Hkeys.
  - intros q Hq Hz Hv. rewrite Hkeys. destruct (decide (q = b)) as [->|].
    + by apply Hcl.
    + rewrite Hoth in Hz, Hv |- * by done. destruct (Hk (key (bufs s q))) as (_ & _ & _ & ->).
      * apply Hid; auto with xv6.
      * by apply (br_clean _ _ _ R).
  - done.
Qed.

(** A free buffer is given to a block no buffer holds. *)
Lemma brep_rekey s a xs s' b k :
  brep s a xs -> b ∈ xs -> refcnt (bufs s b) = 0 ->
  List.find (samekey s k) xs = None ->
  bc_lock s' = false -> links s' = links s -> (forall i, i <> b -> bufs s' i = bufs s i) ->
  key (bufs s' b) = k -> idle (bufs s' b) -> b_lock (bufs s' b) = b_lock (bufs s b) ->
  (forall k, disk s' k = disk s k) ->
  brep s' a xs /\ List.find (samekey s' k) xs = Some b.
Proof.
  intros R Hb Hz Hnone Hlk Hln Hoth Hkey [Hi1 Hi2] Hbl Hd.
  assert (Hne : forall q, q ∈ xs -> key (bufs s q) <> k).
  { intros q Hq E. pose proof (find_None_in _ _ q Hnone Hq) as H.
    apply samekey_spec in E. congruence. }
  assert (Hfirst : List.find (samekey s' k) xs = Some b).
  { destruct (List.find (samekey s' k) xs) as [q|] eqn:E.
    - apply find_Some_in in E. destruct E as [Hq E]. apply samekey_spec in E.
      destruct (decide (q = b)) as [->|Hqb]; [done|]. rewrite Hoth in E by done. by apply Hne in E.
    - apply (find_None_in _ _ b) in E; [|done]. apply samekey_spec in Hkey. congruence. }
  split; [|done].
  assert (Hold : forall q, q ∈ xs -> ~ idle (bufs s' q) -> q <> b /\ bufs s' q = bufs s q).
  { intros q Hq Hni. destruct (decide (q = b)) as [->|]; [by destruct Hni|]. auto. }
  pose proof (br_buf _ _ _ R b Hb) as (Hb1 & Hb2 & Hb3).
  constructor.
  - done.
  - rewrite Hln. apply R.
  - apply R.
  - intros q Hq Hni. destruct (Hold q Hq Hni) as [Hqb E]. rewrite E in *.
    apply (find_stronger (samekey s (key (bufs s q)))).
    + by apply (br_first _ _ _ R).
    + apply samekey_spec. by rewrite E.
    + intros x Hx. rewrite !samekey_spec. destruct (decide (x = b)) as [->|].
      * rewrite Hkey. intros Ek. symmetry in Ek. by apply Hne in Ek.
      * by rewrite Hoth.
  - intros q Hq. destruct (decide (q = b)) as [->|].
    + rewrite Hbl, Hi1. split; [done|]. split; [lia|]. intros Ht. apply Hb3 in Ht. lia.
    + rewrite Hoth by done. by apply (br_buf _ _ _ R).
  - intros q Hq Hp. destruct (Hold q Hq) as [Hqb E]; [auto with xv6|]. rewrite E in *.
    by apply (br_ref _ _ _ R).
  - intros k' r Hk'. destruct (br_ref_inv _ _ _ R k' r Hk') as (Hp & q & Hq & E & Hrq).
    split; [done|]. exists q. rewrite Hoth by (intros ->; lia). done.
  - intros q Hq Hp. destruct (Hold q Hq) as [Hqb E]; [auto with xv6|]. rewrite E in *.
    by apply (br_held _ _ _ R).
  - apply R.
  - intros q Hq Hv. destruct (Hold q Hq) as [Hqb E]; [auto with xv6|]. rewrite E in *.
    by apply (br_view _ _ _ R).
  - intros k' Hm. destruct (decide (k' = key (bufs s b) /\ valid (bufs s b) = true)) as [[-> Hv]|Hnv].
    + rewrite (br_view _ _ _ R) by done. by apply (br_clean _ _ _ R).
    + apply (br_miss _ _ _ R). intros q Hq E. destruct (decide (q = b)) as [->|].
      * destruct (valid (bufs s b)) eqn:Ev; [|done]. exfalso. by apply Hnv.
      * rewrite <- (Hoth q) by done. apply Hm; [done|]. by rewrite Hoth.
  - intros q Hq Hz' Hv. destruct (Hold q Hq) as [Hqb E]; [auto with xv6|]. rewrite E in *.
    by apply (br_clean _ _ _ R).
  - intros k'. rewrite Hd. apply R.
Qed.

(** Moving a buffer to the front of the LRU order. *)
Lemma brep_front s a l b r s' :
  brep s a (l ++ b :: r) ->
  (forall q, q ∈ l ++ b :: r -> q <> b -> key (bufs s q) = key (bufs s b) -> idle (bufs s q)) ->
  bc_lock s' = false -> bufs s' = bufs s -> (forall k, disk s' k = disk s k) ->
  dlist (links s') HEAD (b :: l ++ r) ->
  brep s' a (b :: l ++ r).
Proof.
  intros R Hu Hlk Hbf Hd Hdl.
  assert (Hin : forall q, q ∈ b :: l ++ r <-> q ∈ l ++ b :: r).
  { intros q. rewrite elem_of_cons, !elem_of_app, elem_of_cons. tauto. }
  destruct R. constructor; auto; rewrite ?Hbf; try (setoid_rewrite Hin; done).
  - rewrite <- br_all0. apply Permutation_middle.
  - intros q Hq Hi. rewrite Hin in Hq.
    assert (Hs : forall x, samekey s' (key (bufs s q)) x = samekey s (key (bufs s q)) x).
    { intros x. apply samekey_eq. by rewrite Hbf. }
    rewrite (find_ext _ _ _ (fun x _ => Hs x)). cbn.
    destruct (samekey s (key (bufs s q)) b) eqn:E.
    + apply samekey_spec in E. destruct (decide (q = b)) as [->|]; [done|]. exfalso.
      apply Hi, Hu; auto.
    + rewrite <- (find_skip _ l b r E). by apply br_first0.
  - intros k. rewrite Hd. apply br_disk0.
Qed.

(** ** The routines implement the specification *)

(** [cached] survives a step that keeps the buffer's block and some reference. *)
Lemma cached_keep s s' b k :
  cached s b k -> key (bufs s' b) = key (bufs s b) -> 0 < refcnt (bufs s' b) -> cached s' b k.
Proof. intros (H1 & H2 & H3) E Hr. unfold cached. rewrite E. done. Qed.

Lemma with_lock_Ok {A} s b (m : M sleeplock A) v l :
  m (b_lock (bufs s b)) = Ok v l ->
  with_lock b m s = Ok v (s <| bufs := upd (bufs s) b ((bufs s b) <| b_lock := l |>) |>).
Proof. intros H. unfold with_lock, zoom. by rewrite H. Qed.

Lemma acquire_buf_Ok s b :
  lk (b_lock (bufs s b)) = false -> locked (b_lock (bufs s b)) = false ->
  acquire_buf b s =
    Ok tt (s <| bufs := upd (bufs s) b ((bufs s b) <| b_lock := Sleeplock true false (mypid s) |>) |>).
Proof.
  intros H1 H2. unfold acquire_buf. rewrite (bind_Ok _ _ _ (mypid s) s) by done.
  apply with_lock_Ok. by rewrite acquiresleep_free.
Qed.

Lemma holding_buf_Ok s b :
  lk (b_lock (bufs s b)) = false ->
  exists s', holding_buf b s = Ok (locked (b_lock (bufs s b)) && (lk_pid (b_lock (bufs s b)) =? mypid s)) s' /\
    bc_lock s' = bc_lock s /\ links s' = links s /\ mypid s' = mypid s /\ disk s' = disk s /\
    writes s' = writes s /\ bc_wakes s' = bc_wakes s /\ forall i, bufs s' i = bufs s i.
Proof.
  intros H1. unfold holding_buf. rewrite (bind_Ok _ _ _ (mypid s) s) by done.
  rewrite (with_lock_Ok _ _ _ _ _ (holdingsleep_eq _ _ H1)).
  eexists. split; [done|]. cbn. do 6 (split; [done|]). intros i.
  destruct (decide (i = b)) as [->|]; [|by rewrite upd_other].
  rewrite upd_same. by destruct (bufs s b) as [? ? ? [] ? ?].
Qed.

(** The specification of [bget] and of [bread]: one more reference, and the
    caller owns the block. *)
Definition a_get (a : astate) (k : Z * Z) (me : Z) : astate :=
  a <| a_ref := <[k := refs a k + 1]> (a_ref a) |> <| a_held := <[k := me]> (a_held a) |>.

Lemma rep_hit_lock s a xs b k :
  brep s a xs -> List.find (samekey s k) xs = Some b -> a_held a !! k = None ->
  locked (b_lock (bufs s b)) = false.
Proof.
  intros R Hf Hh. apply find_Some_in in Hf. destruct Hf as [Hb Hk]. apply samekey_spec in Hk. subst k.
  destruct (locked _) eqn:E; [|done].
  pose proof (br_buf _ _ _ R b Hb) as (_ & _ & H). pose proof (br_held _ _ _ R b Hb (H E)) as Hh'.
  rewrite E in Hh'. congruence.
Qed.

Lemma rep_refs s a xs b :
  brep s a xs -> List.find (samekey s (key (bufs s b))) xs = Some b ->
  refs a (key (bufs s b)) = refcnt (bufs s b).
Proof.
  intros R Hf. pose proof (find_Some_in _ _ _ Hf) as [Hb _]. unfold refs.
  destruct (br_buf _ _ _ R b Hb) as (_ & Hr & _).
  destruct (decide (0 < refcnt (bufs s b))).
  - by rewrite (br_ref _ _ _ R).
  - destruct (a_ref a !! key (bufs s b)) as [r|] eqn:E; cbn; [|lia].
    destruct (br_ref_inv _ _ _ R _ _ E) as (Hp & q & Hq & Ek & Erq).
    pose proof (br_first _ _ _ R q Hq) as H1. rewrite Ek, Hf in H1.
    assert (Some b = Some q) as [= ->] by (apply H1, not_idle_ref; lia). lia.
Qed.

(** Giving a buffer that is first for its block one more reference and the lock. *)
Lemma brep_get s a xs s' b :
  brep s a xs -> List.find (samekey s (key (bufs s b))) xs = Some b ->
  a_held a !! key (bufs s b) = None -> refs a (key (bufs s b)) + 1 < 2 ^ 32 ->
  bc_lock s' = false -> links s' = links s -> (forall i, i <> b -> bufs s' i = bufs s i) ->
  bufs s' b = (bufs s b) <| refcnt := refs a (key (bufs s b)) + 1 |>
                         <| b_lock := Sleeplock true false (mypid s) |> ->
  (forall k, disk s' k = disk s k) ->
  brep s' (a_get a (key (bufs s b)) (mypid s)) xs.
Proof.
  intros R Hf Hh Hr Hlk Hln Hoth Hbb Hd.
  pose proof (find_Some_in _ _ _ Hf) as [Hb _]. pose proof (rep_refs _ _ _ _ R Hf) as Hrf.
  destruct (br_buf _ _ _ R b Hb) as (Hb1 & Hb2 & Hb3).
  apply (brep_set s a xs s' _ b); auto; rewrite ?Hbb; cbn; try done.
  - lia.
  - lia.
  - intros k Hk. rewrite !lookup_insert_ne by done. done.
  - rewrite lookup_insert_eq, decide_True by lia. done.
  - by rewrite lookup_insert_eq.
  - destruct (valid (bufs s b)) eqn:Hv; [by apply (br_view _ _ _ R)|].
    apply (br_miss _ _ _ R). intros q Hq Ek. destruct (valid (bufs s q)) eqn:Hvq; [|done].
    pose proof (br_first _ _ _ R q Hq (not_idle_valid _ Hvq)) as H1. rewrite Ek, Hf in H1.
    simplify_eq. congruence.
  - lia.
  - intros k. rewrite Hd. apply R.
Qed.

Definition bget_post (s s' : bst) (a : astate) (b : Z) (k : Z * Z) : Prop :=
  mypid s' = mypid s /\ disk s' = disk s /\ writes s' = writes s /\ cached s' b k /\
  (forall b' k', cached s b' k' -> cached s' b' k' /\ valid (bufs s' b') = valid (bufs s b')).

Lemma bget_eq s a xs d n :
  brep s a xs ->
  bget d n s =
    match List.find (samekey s (d, n)) xs with
    | Some b => bget_hit b
    | None => match List.find (fun b => refcnt (bufs s b) =? 0) (reverse xs) with
              | Some b => bget_recycle d n b
              | None => panic "bget: no buffers"
              end
    end (s <| bc_lock := true |>).
Proof.
  intros R. unfold bget, bind, acquire, gets, id. rewrite (br_lock _ _ _ R).
  change (links (s <| bc_lock := true |>)) with (links s).
  rewrite (rep_trace_prev _ _ _ R), (rep_trace_next _ _ _ R). reflexivity.
Qed.

Lemma bget_spec s a xs d n :
  brep s a xs -> a_held a !! (d, n) = None -> refs a (d, n) + 1 < 2 ^ 32 ->
  is_Some (a_ref a !! (d, n)) \/ (size (a_ref a) < Z.to_nat NBUF)%nat ->
  exists b s', bget d n s = Ok b s' /\ brep s' (a_get a (d, n) (mypid s)) xs /\
    bget_post s s' a b (d, n) /\
    (valid (bufs s' b) = true -> data (bufs s' b) = a_view a (d, n)).
Proof.
  intros R Hh Hr Hroom. rewrite (bget_eq _ _ _ _ _ R).
  destruct (List.find (samekey s (d, n)) xs) as [b|] eqn:Ef.
  - pose proof (find_Some_in _ _ _ Ef) as [Hb Hk]. apply samekey_spec in Hk.
    destruct (br_buf _ _ _ R b Hb) as (Hb1 & Hb2 & Hb3).
    pose proof (rep_hit_lock _ _ _ _ _ R Ef Hh) as Hul. rewrite <- Hk in Ef, Hh, Hr |- *.
    pose proof (rep_refs _ _ _ _ R Ef) as Hrf.
    unfold bget_hit, set_buf, release, bind, modify. cbn. rewrite acquire_buf_Ok by (cbn; by rewrite upd_same).
    eexists b, _. split; [reflexivity|].
    match goal with |- brep ?s1 _ _ /\ _ => set (s' := s1) end.
    assert (Hbb : bufs s' b = (bufs s b) <| refcnt := refs a (key (bufs s b)) + 1 |>
                                <| b_lock := Sleeplock true false (mypid s) |>).
    { cbn. rewrite !upd_same. cbn. rewrite u32_small by lia. by rewrite Hrf. }
    assert (Hoth : forall i, i <> b -> bufs s' i = bufs s i)
      by (intros; cbn; rewrite !upd_other by done; done).
    split; [by apply (brep_get s a xs s' b)|]. split.
    + do 3 (split; [done|]). split.
      * split; [by apply (rep_range _ _ _ R)|]. rewrite Hbb. cbn. split; [done|lia].
      * intros b' k' Hc. destruct (decide (b' = b)) as [->|].
        -- rewrite Hbb. split; [|done]. apply (cached_keep s); rewrite ?Hbb; cbn; [done..|lia].
        -- rewrite Hoth by done. split; [|done].
           apply (cached_keep s); rewrite ?Hoth by done; try done. by destruct Hc as (_ & _ & ?).
    + rewrite Hbb. cbn. intros Hv. symmetry. by apply (br_view _ _ _ R).
  - destruct (rep_free_buffer _ _ _ R) as [b Eb].
    { destruct Hroom as [Hs|?]; [|done]. exfalso.
      destruct (rep_ref_cached _ _ _ R _ Hs) as [b Hc]. apply (rep_cached_first _ _ _ R) in Hc. congruence. }
    rewrite Eb. pose proof (find_Some_in _ _ _ Eb) as [Hb Hz].
    rewrite elem_of_reverse in Hb. apply Z.eqb_eq in Hz.
    destruct (br_buf _ _ _ R b Hb) as (Hb1 & Hb2 & Hb3).
    assert (Hul : locked (b_lock (bufs s b)) = false).
    { destruct (locked _); [|done]. specialize (Hb3 eq_refl). lia. }
    set (s0 := s <| bufs := upd (bufs s) b (Buf false d n (b_lock (bufs s b)) 0 (data (bufs s b))) |>).
    destruct (brep_rekey s a xs s0 b (d, n)) as [R0 Ef0]; auto; cbn; rewrite ?upd_same; try done.
    { apply (br_lock _ _ _ R). } { intros. by rewrite upd_other. }
    assert (Hk0 : key (bufs s0 b) = (d, n)) by (cbn; by rewrite upd_same).
    rewrite <- Hk0 in Ef0, Hh, Hr. pose proof (rep_refs _ _ _ _ R0 Ef0) as Hrf.
    unfold bget_recycle, set_buf, release, bind, modify. cbn. rewrite acquire_buf_Ok by (cbn; by rewrite upd_same).
    eexists b, _. split; [reflexivity|].
    match goal with |- brep ?s1 _ _ /\ _ => set (s' := s1) end.
    assert (Hbb : bufs s' b = (bufs s0 b) <| refcnt := refs a (key (bufs s0 b)) + 1 |>
                                <| b_lock := Sleeplock true false (mypid s) |>).
    { rewrite Hrf. cbn. by rewrite !upd_same. }
    assert (Hoth : forall i, i <> b -> bufs s' i = bufs s i)
      by (intros; cbn; rewrite !upd_other by done; done).
    split; [rewrite <- Hk0; apply (brep_get s0 a xs s' b); auto; intros; cbn; by rewrite !upd_other by done|].
    split.
    + do 3 (split; [done|]). split.
      * split; [by apply (rep_range _ _ _ R)|]. split; [by rewrite Hbb|]. cbn.
        rewrite !upd_same. cbn. lia.
      * intros b' k' Hc. assert (b' <> b) by (intros ->; destruct Hc as (_ & _ & ?); lia).
        rewrite Hoth by done. split; [|done].
        apply (cached_keep s); rewrite ?Hoth by done; try done. by destruct Hc as (_ & _ & ?).
    + rewrite Hbb. cbn. by rewrite upd_same.
Qed.

(** A buffer a client works on: cached and read from disk. *)
Definition owned (s : bst) (b : Z) (k : Z * Z) : Prop := cached s b k /\ valid (bufs s b) = true.

Lemma owned_view s a xs b k : brep s a xs -> owned s b k -> data (bufs s b) = a_view a k.
Proof.
  intros R [(Hb & Hk & Hr) Hv]. subst k. symmetry. apply (br_view _ _ _ R); [|done].
  by apply (rep_range _ _ _ R).
Qed.

(** [brep_set] for a buffer in use. *)
Lemma brep_owned s a xs s' a' b k :
  brep s a xs -> cached s b k ->
  bc_lock s' = false -> links s' = links s -> (forall i, i <> b -> bufs s' i = bufs s i) ->
  key (bufs s' b) = k -> valid (bufs s' b) = true ->
  lk (b_lock (bufs s' b)) = false -> 0 < refcnt (bufs s' b) < 2 ^ 32 ->
  a_ref a' = <[k := refcnt (bufs s' b)]> (a_ref a) ->
  a_held a' = (if locked (b_lock (bufs s' b)) then <[k := lk_pid (b_lock (bufs s' b))]> (a_held a)
               else delete k (a_held a)) ->
  (forall k', a_view a' k' = fupdate (a_view a) k (data (bufs s' b)) k') ->
  (forall k', k' <> k -> a_disk a' k' = a_disk a k') ->
  (forall k', disk s' k' = a_disk a' k') ->
  brep s' a' xs.
Proof.
  intros R Hc Hlk Hln Hoth Hkey Hv Hl Hr Href Hheld Hview Hdk Hd.
  pose proof (rep_cached_first _ _ _ R _ _ Hc) as Hf. destruct Hc as (Hb & Hk & Hp). subst k.
  apply (brep_set s a xs s' a' b); auto.
  - by apply (rep_range _ _ _ R).
  - lia.
  - intros _. lia.
  - intros k' Hne. rewrite Href, Hheld, Hview, Hdk by done. unfold fupdate.
    rewrite decide_False by done. rewrite lookup_insert_ne by done.
    destruct (locked _); rewrite ?lookup_insert_ne, ?lookup_delete_ne by done; done.
  - rewrite Href, lookup_insert_eq, decide_True by lia. done.
  - rewrite Hheld. destruct (locked _); [apply lookup_insert_eq|apply lookup_delete_eq].
  - rewrite Hview, Hv. unfold fupdate. by rewrite decide_True.
  - lia.
Qed.

Lemma bread_spec s a xs d n :
  brep s a xs -> a_held a !! (d, n) = None -> refs a (d, n) + 1 < 2 ^ 32 ->
  is_Some (a_ref a !! (d, n)) \/ (size (a_ref a) < Z.to_nat NBUF)%nat ->
  exists b s', bread d n s = Ok b s' /\ brep s' (a_get a (d, n) (mypid s)) xs /\
    mypid s' = mypid s /\ writes s' = writes s /\ owned s' b (d, n) /\
    (forall b' k', owned s b' k' -> owned s' b' k').
Proof.
  intros R Hh Hr Hroom.
  destruct (bget_spec s a xs d n R Hh Hr Hroom) as (b & s1 & E & R1 & (Hp & Hd & Hw & Hc & Hfr) & Hv).
  unfold bread. rewrite (bind_Ok _ _ _ _ _ E). rewrite (bind_Ok _ _ _ (valid (bufs s1 b)) s1) by done.
  destruct (valid (bufs s1 b)) eqn:Ev.
  - exists b, s1. split; [done|]. do 3 (split; [done|]). split; [done|].
    intros b' k' [Hc' Hv']. destruct (Hfr b' k' Hc') as [? E']. split; [done|]. congruence.
  - unfold virtio_disk_rw, set_buf, bind, gets, modify, ret. cbn.
    eexists b, _. split; [reflexivity|].
    match goal with |- brep ?x _ _ /\ _ => set (s2 := x) end.
    pose proof Hc as (Hb & Hk & Hrp). assert (Hbx : b ∈ xs) by by apply (rep_range _ _ _ R1).
    assert (Hfirst : List.find (samekey s1 (key (bufs s1 b))) xs = Some b)
      by (rewrite Hk; by apply (rep_cached_first _ _ _ R1)).
    assert (Hbb : bufs s2 b = (bufs s1 b) <| data := disk s1 (d, n) |> <| valid := true |>).
    { cbn. rewrite !upd_same. cbn. unfold key in Hk. by rewrite <- Hk. }
    assert (Hoth : forall i, i <> b -> bufs s2 i = bufs s1 i)
      by (intros; cbn; rewrite !upd_other by done; done).
    assert (Hmiss : a_view a (d, n) = a_disk a (d, n)).
    { apply (br_miss _ _ _ R1). intros q Hq Ek. destruct (valid (bufs s1 q)) eqn:Evq; [|done].
      assert (q = b) as ->; [|congruence].
      apply (rep_unique _ _ _ R1); auto with xv6. by rewrite Ek, Hk. }
    destruct (br_buf _ _ _ R1 b Hbx) as (Hb1 & Hb2 & Hb3).
    split; [|do 2 (split; [done|])].
    + apply (brep_set s1 _ xs s2 _ b R1 Hbx Hfirst); rewrite ?Hbb; cbn; auto.
      * apply (br_lock _ _ _ R1).
      * rewrite (br_ref _ _ _ R1) by done. by rewrite decide_True.
      * by rewrite (br_held _ _ _ R1).
      * rewrite Hk. rewrite (br_disk _ _ _ R1). done.
      * lia.
      * apply (br_disk _ _ _ R1).
    + split.
      * split; [|by rewrite Hbb]. apply (cached_keep s1); rewrite ?Hbb; done.
      * intros b' k' [Hc' Hv']. destruct (Hfr b' k' Hc') as [Hc2 E'].
        assert (b' <> b) by (intros ->; congruence).
        split; [apply (cached_keep s1)|]; rewrite ?Hoth by done; try done; [|congruence].
        by destruct Hc2 as (_ & _ & ?).
Qed.

Lemma cached_lk s a xs b k : brep s a xs -> cached s b k ->
  lk (b_lock (bufs s b)) = false /\ refcnt (bufs s b) < 2 ^ 32.
Proof.
  intros R (Hb & _). apply (rep_range _ _ _ R) in Hb.
  destruct (br_buf _ _ _ R b Hb) as (? & ? & _). split; [done|lia].
Qed.

Lemma cached_held s a xs b k : brep s a xs -> cached s b k ->
  a_held a !! k = if locked (b_lock (bufs s b)) then Some (lk_pid (b_lock (bufs s b))) else None.
Proof.
  intros R (Hb & Hk & Hr). subst k. apply (br_held _ _ _ R); [|done]. by apply (rep_range _ _ _ R).
Qed.

Lemma holding_true s a xs b k : brep s a xs -> cached s b k -> a_held a !! k = Some (mypid s) ->
  locked (b_lock (bufs s b)) && (lk_pid (b_lock (bufs s b)) =? mypid s) = true.
Proof.
  intros R Hc Hh. rewrite (cached_held _ _ _ _ _ R Hc) in Hh.
  destruct (locked _); [|done]. injection Hh as ->. by rewrite Z.eqb_refl.
Qed.

Lemma ref_id s a xs b k : brep s a xs -> cached s b k -> a_ref a = <[k := refcnt (bufs s b)]> (a_ref a).
Proof. intros R Hc. symmetry. apply insert_id. by apply (rep_cached_ref _ _ _ R). Qed.

Lemma held_id s a xs b k : brep s a xs -> cached s b k ->
  a_held a = (if locked (b_lock (bufs s b)) then <[k := lk_pid (b_lock (bufs s b))]> (a_held a)
              else delete k (a_held a)).
Proof.
  intros R Hc. pose proof (cached_held _ _ _ _ _ R Hc) as Hh. symmetry. destruct (locked _).
  - by apply insert_id.
  - by apply delete_id.
Qed.

Lemma view_id s a xs b k k' : brep s a xs -> owned s b k ->
  a_view a k' = fupdate (a_view a) k (data (bufs s b)) k'.
Proof.
  intros R Ho. unfold fupdate. case_decide; [|done]. subst. symmetry. by apply (owned_view _ _ _ _ _ R).
Qed.

(** What a step does to the buffers other clients work on: nothing. *)
Definition frame (s s' : bst) (P : Z * Z -> Prop) : Prop :=
  forall b k, owned s b k -> P k -> owned s' b k.

Lemma frame_upd s s' b (P : Z * Z -> Prop) :
  (forall i, i <> b -> bufs s' i = bufs s i) ->
  (forall k, owned s b k -> P k -> owned s' b k) -> frame s s' P.
Proof.
  intros Hoth Hb b' k Ho Hp. destruct (decide (b' = b)) as [->|]; [auto|].
  unfold owned, cached in *. by rewrite Hoth.
Qed.

Lemma set_data_spec s a xs b k d :
  brep s a xs -> owned s b k ->
  exists s', set_data b d s = Ok tt s' /\ mypid s' = mypid s /\ writes s' = writes s /\
    brep s' (a <| a_view := fupdate (a_view a) k d |>) xs /\ frame s s' (fun _ => True) /\
    data (bufs s' b) = d.
Proof.
  intros R Ho. pose proof Ho as [Hc Hv]. pose proof Hc as (Hb & Hk & Hr).
  destruct (cached_lk _ _ _ _ _ R Hc) as [Hl Hr'].
  eexists. split; [reflexivity|]. do 2 (split; [done|]). split; [|split].
  - apply (brep_owned s a xs _ _ b k); cbn; rewrite ?upd_same; auto.
    + apply R.
    + intros. by rewrite upd_other.
    + by apply (ref_id _ _ xs).
    + by apply (held_id _ _ xs).
    + apply R.
  - apply (frame_upd _ _ b); [intros; cbn; by rewrite upd_other|].
    intros k' [(? & ? & ?) ?] _. unfold owned, cached. cbn. by rewrite upd_same.
  - cbn. by rewrite upd_same.
Qed.

Lemma bwrite_spec s a xs b k :
  brep s a xs -> owned s b k -> a_held a !! k = Some (mypid s) ->
  exists s', bwrite b s = Ok tt s' /\ mypid s' = mypid s /\
    writes s' = writes s ++ [(k, a_view a k)] /\
    brep s' (a <| a_disk := fupdate (a_disk a) k (a_view a k) |>) xs /\
    frame s s' (fun _ => True) /\ (forall i, bufs s' i = bufs s i).
Proof.
  intros R Ho Hh. pose proof Ho as [Hc Hv]. pose proof Hc as (Hb & Hk & Hr).
  destruct (cached_lk _ _ _ _ _ R Hc) as [Hl Hr'].
  destruct (holding_buf_Ok s b Hl) as (s1 & E1 & H1 & H2 & H3 & H4 & H5 & H6 & H7).
  rewrite (holding_true _ _ _ _ _ R Hc Hh) in E1.
  unfold bwrite. rewrite (bind_Ok _ _ _ _ _ E1). cbn [negb].
  unfold virtio_disk_rw, bind, gets. cbn. rewrite H7.
  pose proof (owned_view _ _ _ _ _ R Ho) as Hd. rewrite Hd.
  assert (Hkk : (dev (bufs s b), blockno (bufs s b)) = k) by done. rewrite Hkk.
  eexists. split; [reflexivity|]. cbn. rewrite H3, H5. do 2 (split; [done|]). split; [|split].
  - apply (brep_owned s a xs _ _ b k); cbn; rewrite ?H7; auto.
    + rewrite H1. apply R.
    + by apply (ref_id _ _ xs).
    + by apply (held_id _ _ xs).
    + intros. by apply (view_id _ _ xs).
    + intros k' Hk'. unfold fupdate. by rewrite decide_False.
    + intros k'. unfold fupdate. case_decide; [done|]. rewrite H4. apply R.
  - intros b' k' Ho' _. unfold owned, cached in *. cbn. by rewrite H7.
  - done.
Qed.

Lemma bpin_spec s a xs b k :
  brep s a xs -> owned s b k -> refs a k + 1 < 2 ^ 32 ->
  exists s', bpin b s = Ok tt s' /\ mypid s' = mypid s /\ writes s' = writes s /\
    brep s' (a <| a_ref := <[k := refs a k + 1]> (a_ref a) |>) xs /\ frame s s' (fun _ => True).
Proof.
  intros R Ho Hlt. pose proof Ho as [Hc Hv]. pose proof Hc as (Hb & Hk & Hr).
  destruct (cached_lk _ _ _ _ _ R Hc) as [Hl Hr'].
  assert (Hrf : refs a k = refcnt (bufs s b)) by (unfold refs; by rewrite (rep_cached_ref _ _ _ R _ _ Hc)).
  unfold bpin, acquire, release, set_buf, modify, bind. rewrite (br_lock _ _ _ R). cbn.
  eexists. split; [reflexivity|]. do 2 (split; [done|]). split.
  - apply (brep_owned s a xs _ _ b k); cbn; rewrite ?upd_same; cbn; auto.
    + intros. by rewrite upd_other.
    + rewrite u32_small; lia.
    + rewrite u32_small by lia. by rewrite Hrf.
    + by apply (held_id _ _ xs).
    + intros. by apply (view_id _ _ xs).
    + apply R.
  - apply (frame_upd _ _ b); [intros; cbn; by rewrite upd_other|].
    intros k' [(? & ? & ?) ?] _. unfold owned, cached. cbn. rewrite upd_same. cbn.
    rewrite u32_small by lia. split_and!; try done; lia.
Qed.

(** Dropping a reference that is not the last one. *)
Lemma bunpin_spec s a xs b k :
  brep s a xs -> owned s b k -> 1 < refs a k ->
  exists s', bunpin b s = Ok tt s' /\ mypid s' = mypid s /\ writes s' = writes s /\
    brep s' (a <| a_ref := <[k := refs a k - 1]> (a_ref a) |>) xs /\ frame s s' (fun _ => True).
Proof.
  intros R Ho Hlt. pose proof Ho as [Hc Hv]. pose proof Hc as (Hb & Hk & Hr).
  destruct (cached_lk _ _ _ _ _ R Hc) as [Hl Hr'].
  assert (Hrf : refs a k = refcnt (bufs s b)) by (unfold refs; by rewrite (rep_cached_ref _ _ _ R _ _ Hc)).
  unfold bunpin, acquire, release, set_buf, modify, bind. rewrite (br_lock _ _ _ R). cbn.
  eexists. split; [reflexivity|]. do 2 (split; [done|]). split.
  - apply (brep_owned s a xs _ _ b k); cbn; rewrite ?upd_same; cbn; auto.
    + intros. by rewrite upd_other.
    + rewrite u32_small; lia.
    + rewrite u32_small by lia. by rewrite Hrf.
    + by apply (held_id _ _ xs).
    + intros. by apply (view_id _ _ xs).
    + apply R.
  - apply (frame_upd _ _ b); [intros; cbn; by rewrite upd_other|].
    intros k' [(Hb' & Hk' & ?) ?] _. unfold owned, cached. cbn. rewrite upd_same. cbn.
    rewrite u32_small by lia. split_and!; try done; lia.
Qed.

Lemma unlink_remove h l xs b : dlist h l xs -> b ∈ xs -> unlink h b = lst_remove h b.
Proof.
  intros [Hs Hnd] Hb. apply list_elem_of_split in Hb. destruct Hb as (l1 & l2 & ->).
  apply seg_app in Hs. destruct Hs as [H1 H2]. unfold unlink, lst_remove, set_nxt, set_prv. cbn.
  pose proof (seg_last _ _ _ _ H1) as Hp. pose proof (seg_first _ _ _ _ H2) as Hn.
  assert (prv h b <> b).
  { rewrite Hp. destruct (last l1) as [z|] eqn:E; cbn; [|list_auto].
    apply last_Some in E. destruct E as [? ->]. intros ->. rewrite <- app_assoc in Hnd. cbn in Hnd.
    list_auto. }
  assert (nxt h b <> b) by (rewrite Hn; destruct l2; cbn; list_auto).
  rewrite !upd_other by done. done.
Qed.

(** What [brelse] does to the concrete state. *)
Record released (s s' : bst) (b : Z) : Prop := {
  re_lock : bc_lock s' = false;
  re_me : mypid s' = mypid s;
  re_disk : disk s' = disk s;
  re_writes : writes s' = writes s;
  re_other : forall i, i <> b -> bufs s' i = bufs s i;
  re_buf : bufs s' b = (bufs s b) <| b_lock := initsleeplock |> <| refcnt := u32 (refcnt (bufs s b) - 1) |>;
  re_links : links s' = if u32 (refcnt (bufs s b) - 1) =? 0
                        then lst_push (unlink (links s) b) HEAD b else links s;
}.

Lemma brelse_run s b :
  bc_lock s = false -> lk (b_lock (bufs s b)) = false ->
  locked (b_lock (bufs s b)) && (lk_pid (b_lock (bufs s b)) =? mypid s) = true ->
  exists s', brelse b s = Ok tt s' /\ released s s' b.
Proof.
  intros Hbl Hl Hh. destruct (holding_buf_Ok s b Hl) as (s1 & E1 & H1 & H2 & H3 & H4 & H5 & H6 & H7).
  rewrite Hh in E1. unfold brelse. rewrite (bind_Ok _ _ _ _ _ E1). cbn [negb].
  rewrite (bind_Ok _ _ _ _ _ (with_lock_Ok s1 b _ _ _
    (releasesleep_eq (buf_chan b) _ (eq_trans (f_equal (fun x => lk (b_lock x)) (H7 b)) Hl)))).
  unfold modify, acquire, release, set_buf, bind, gets, ret. cbn.
  rewrite H1, Hbl. cbn. rewrite !upd_same. cbn. rewrite H7.
  destruct (u32 (refcnt (bufs s b) - 1) =? 0) eqn:Ez;
    (eexists; split; [reflexivity|split; cbn; rewrite ?upd_same, ?Ez; try congruence;
       intros; by rewrite !upd_other]).
Qed.

Lemma brelse_spec s a xs b k :
  brep s a xs -> owned s b k -> a_held a !! k = Some (mypid s) ->
  1 < refs a k \/ a_view a k = a_disk a k ->
  exists s' xs', brelse b s = Ok tt s' /\ mypid s' = mypid s /\ writes s' = writes s /\
    brep s' (a <| a_ref := unref (a_ref a) k (refs a k) |> <| a_held := delete k (a_held a) |>) xs' /\
    frame s s' (fun k' => k' <> k \/ 1 < refs a k).
Proof.
  intros R Ho Hh Hok. pose proof Ho as [Hc Hv]. pose proof Hc as (Hb & Hk & Hr).
  destruct (cached_lk _ _ _ _ _ R Hc) as [Hl Hr'].
  assert (Hbx : b ∈ xs) by by apply (rep_range _ _ _ R).
  assert (Hrf : refs a k = refcnt (bufs s b)) by (unfold refs; by rewrite (rep_cached_ref _ _ _ R _ _ Hc)).
  pose proof (owned_view _ _ _ _ _ R Ho) as Hd.
  destruct (brelse_run s b (br_lock _ _ _ R) Hl (holding_true _ _ _ _ _ R Hc Hh)) as (s' & E & RE).
  destruct RE as [E1 E2 E3 E4 E5 E6 E7]. rewrite u32_small in E6, E7 by lia.
  set (sm := s' <| links := links s |>).
  assert (Rm : brep sm (a <| a_ref := unref (a_ref a) k (refs a k) |>
                          <| a_held := delete k (a_held a) |>) xs).
  { apply (brep_set s a xs sm _ b R Hbx); cbn; rewrite ?E6; cbn; auto.
    - rewrite Hk. by apply (rep_cached_first _ _ _ R).
    - lia.
    - done.
    - intros k' Hne. rewrite Hk in Hne. unfold unref.
      rewrite lookup_delete_ne by done. split; [|done].
      case_decide; by rewrite ?lookup_delete_ne, ?lookup_insert_ne.
    - rewrite Hk, Hrf. unfold unref. case_decide.
      + rewrite lookup_delete_eq, decide_False by lia. done.
      + rewrite lookup_insert_eq, decide_True by lia. done.
    - rewrite Hk. apply lookup_delete_eq.
    - by rewrite Hk, Hv, Hd.
    - intros Hz _. rewrite Hk, Hd. destruct Hok; [lia|done].
    - intros. rewrite E3. apply R. }
  assert (Hfr : frame s s' (fun k' => k' <> k \/ 1 < refs a k)).
  { apply (frame_upd _ _ b); [done|]. intros k' [(? & Hk' & ?) ?] Hp. unfold owned, cached.
    rewrite E6. cbn. destruct Hp as [Hp|]; [congruence|]. split_and!; done || lia. }
  destruct (Z.eqb_spec (refcnt (bufs s b) - 1) 0) as [Hz|Hz]; cbn.
  - destruct (list_elem_of_split _ _ Hbx) as (l1 & l2 & ->).
    exists s', (b :: l1 ++ l2). split_and!; auto.
    apply (brep_front sm); auto.
    + intros q Hq Hne Ek. cbn in *. rewrite E5 in Ek |- * by done. rewrite E6 in Ek.
      destruct (idle_dec (bufs s q)) as [|Hni]; [done|].
      exfalso. apply Hne. apply (rep_unique _ _ _ R); auto with xv6.
    + rewrite E7, (unlink_remove _ _ _ _ (br_list _ _ _ R) Hbx).
      pose proof (br_list _ _ _ R) as Hdl. pose proof (lst_remove_dlist _ _ _ _ _ Hdl) as Hdl'.
      apply lst_push_dlist; [done|]. destruct Hdl as [_ Hnd]. list_auto.
  - exists s', xs. split_and!; auto. by apply (brep_eq sm).
Qed.

Lemma bpin_run s b :
  bc_lock s = false ->
  bpin b s = Ok tt (Bst false (upd (bufs s) b ((bufs s b) <| refcnt := u32 (refcnt (bufs s b) + 1) |>))
                       (links s) (mypid s) (disk s) (writes s) (bc_wakes s)).
Proof. intros H. unfold bpin, acquire, release, set_buf, modify, bind. by rewrite H. Qed.

Lemma bunpin_run s b :
  bc_lock s = false ->
  bunpin b s = Ok tt (Bst false (upd (bufs s) b ((bufs s b) <| refcnt := u32 (refcnt (bufs s b) - 1) |>))
                         (links s) (mypid s) (disk s) (writes s) (bc_wakes s)).
Proof. intros H. unfold bunpin, acquire, release, set_buf, modify, bind. by rewrite H. Qed.

(** Dropping a reference that was never taken: the count of [k2] wraps around
    and the buffer stays in use. *)
Lemma unpin_leak s a xs b1 k1 b2 k2 :
  brep s a xs -> owned s b1 k1 -> owned s b2 k2 -> k1 <> k2 ->
  a_held a !! k1 = Some (mypid s) -> a_held a !! k2 = Some (mypid s) ->
  refs a k2 = 1 -> 1 < refs a k1 \/ a_view a k1 = a_disk a k1 ->
  exists s' xs', (bunpin b2 ;; brelse b1 ;; brelse b2) s = Ok tt s' /\
    mypid s' = mypid s /\ writes s' = writes s /\
    brep s' (a <| a_ref := <[k2 := 2 ^ 32 - 1]> (unref (a_ref a) k1 (refs a k1)) |>
               <| a_held := delete k2 (delete k1 (a_held a)) |>) xs'.
Proof.
  intros R O1 O2 Hne H1 H2 Hr2 Hok. pose proof O1 as [C1 V1]. pose proof O2 as [C2 V2].
  assert (Hb : b1 <> b2) by (intros ->; destruct C1 as (_ & ? & _), C2 as (_ & ? & _); congruence).
  destruct (cached_lk _ _ _ _ _ R C1) as [L1 _]. destruct (cached_lk _ _ _ _ _ R C2) as [L2 _].
  assert (Hrf : refcnt (bufs s b2) = 1)
    by (rewrite <- Hr2; unfold refs; by rewrite (rep_cached_ref _ _ _ R _ _ C2)).
  pose proof (holding_true _ _ _ _ _ R C1 H1) as Hh1. pose proof (holding_true _ _ _ _ _ R C2 H2) as Hh2.
  (* the release of [b1], had [b2] not been touched *)
  destruct (brelse_spec _ _ _ _ _ R O1 H1 Hok) as (t & xs' & Et & _ & _ & Rt & Ft).
  destruct (brelse_run s b1 (br_lock _ _ _ R) L1 Hh1) as (t' & Et' & T).
  rewrite Et in Et'. injection Et' as <-. destruct T as [_ _ T3 _ T5 T6 T7].
  rewrite (bind_Ok _ _ _ _ _ (bunpin_run s b2 (br_lock _ _ _ R))).
  set (s1 := Bst _ _ _ _ _ _ _).
  destruct (brelse_run s1 b1) as (s2 & E2 & U); [done|subst s1; cbn; by rewrite upd_other..|].
  rewrite (bind_Ok _ _ _ _ _ E2). destruct U as [U1 U2 U3 U4 U5 U6 U7]. subst s1. cbn in *.
  rewrite upd_other in U6, U7 by done.
  assert (B2 : bufs s2 b2 = (bufs s b2) <| refcnt := 0 |>)
    by (rewrite U5 by done; rewrite upd_same, Hrf; done).
  destruct (brelse_run s2 b2) as (s3 & E3 & [X1 X2 X3 X4 X5 X6 X7]); rewrite ?B2, ?U2; auto.
  exists s3, xs'. split_and!; [done|congruence..|].
  rewrite B2 in X6, X7. cbn in X6, X7.
  assert (O2t : owned t b2 k2) by (apply Ft; auto).
  apply (brep_owned t _ _ s3 _ b2 k2 Rt (proj1 O2t)); rewrite ?X6; cbn; auto.
  - rewrite X7, U7. by rewrite T7.
  - intros i Hi. rewrite X5 by done. destruct (decide (i = b1)) as [->|]; [by rewrite U6, T6|].
    rewrite U5, upd_other, T5 by done. done.
  - apply C2.
  - vm_compute. auto.
  - intros k'. by apply (view_id _ _ _ _ _ _ R).
  - intros k'. rewrite X3, U3. apply R.
Qed.

(** Taking a reference past the largest count: the count is 0 while the caller
    holds the buffer. *)
Lemma bread_wrap s a xs d n :
  brep s a xs -> a_held a !! (d, n) = None -> a_ref a !! (d, n) = Some (2 ^ 32 - 1) ->
  exists b s', bread d n s = Ok b s' /\ key (bufs s' b) = (d, n) /\ refcnt (bufs s' b) = 0 /\
    locked (b_lock (bufs s' b)) = true.
Proof.
  intros R Hh Hr. destruct (br_ref_inv _ _ _ R _ _ Hr) as [Hp (b & Hb & Hk & Hrf)].
  assert (Hc : cached s b (d, n)) by (split; [by apply (rep_range _ _ _ R)|split; [done|lia]]).
  pose proof (rep_cached_first _ _ _ R _ _ Hc) as Ef.
  pose proof (rep_hit_lock _ _ _ _ _ R Ef Hh) as Hul. destruct (cached_lk _ _ _ _ _ R Hc) as [Hl _].
  unfold bread. unfold bind at 1. rewrite (bget_eq _ _ _ _ _ R), Ef.
  unfold bget_hit, set_buf, release, bind, modify. cbn.
  rewrite acquire_buf_Ok by (cbn; by rewrite upd_same). cbn. unfold gets, ret. cbn.
  assert (Eu : u32 (refcnt (bufs s b) + 1) = 0) by (by rewrite Hrf).
  destruct (valid _); eexists b, _; (split; [reflexivity|]); cbn; rewrite !upd_same; cbn; auto.
Qed.

(** ** Booting *)

(** Static storage before [binit]: every buffer free and without data. *)
Definition boot_bst (d : Z * Z -> block) (pid : Z) : bst :=
  Bst false (fun _ => Buf false 0 0 (Sleeplock false false 0) 0 []) (DHeap (fun _ => 0) (fun _ => 0))
      pid d [] [].

Definition a_boot (d : Z * Z -> block) : astate := AState ∅ ∅ d d.

Lemma binit_fold l s xs :
  dlist (links s) HEAD xs -> NoDup l -> (forall b, b ∈ l -> b ∉ HEAD :: xs) ->
  (forall i, bufs s i = Buf false 0 0 initsleeplock 0 []) ->
  let s' := fold_left binit_step l s in
  dlist (links s') HEAD (reverse l ++ xs) /\ (forall i, bufs s' i = Buf false 0 0 initsleeplock 0 []) /\
  bc_lock s' = bc_lock s /\ mypid s' = mypid s /\ disk s' = disk s /\ writes s' = writes s.
Proof.
  revert s xs. induction l as [|b l IH]; intros s xs Hd Hnd Hni Hb; [done|]. cbn [fold_left].
  apply NoDup_cons in Hnd. destruct Hnd as [Hbl Hnd].
  assert (Hd' : dlist (links (binit_step s b)) HEAD (b :: xs)).
  { cbn. apply lst_push_dlist; [done|]. apply Hni. by left. }
  destruct (IH (binit_step s b) (b :: xs) Hd' Hnd) as (H1 & H2 & H3 & H4 & H5 & H6).
  - intros c Hc. pose proof (Hni c (proj2 (elem_of_cons _ _ _) (or_intror Hc))) as Hcx.
    list_simpl; auto. by intros ->.
  - intros i. cbn. unfold upd. destruct (i =? b); by rewrite ?Hb.
  - rewrite reverse_cons, <- app_assoc. cbn in *. done.
Qed.

Lemma binit_rep d pid :
  brep (binit (boot_bst d pid)) (a_boot d) (reverse (zseq 0 (Z.to_nat NBUF))).
Proof.
  destruct (binit_fold (zseq 0 (Z.to_nat NBUF))
    ((boot_bst d pid) <| bc_lock := false |> <| links := lst_init (links (boot_bst d pid)) HEAD |>) [])
    as (H1 & H2 & H3 & H4 & H5 & H6).
  - apply lst_init_dlist.
  - apply NoDup_zseq.
  - intros b. rewrite elem_of_zseq. unfold HEAD, NBUF, MAXOPBLOCKS. intros.
    list_simpl. lia.
  - done.
  - rewrite app_nil_r in H1. fold (binit (boot_bst d pid)) in *. constructor.
    + done.
    + done.
    + by rewrite reverse_Permutation.
    + intros b _. rewrite H2. intros Hi. by destruct Hi.
    + intros b _. rewrite H2. cbn. split; [done|]. split; [lia|done].
    + intros b _. rewrite H2. cbn. lia.
    + intros k r. cbn. by rewrite lookup_empty.
    + intros b _. rewrite H2. cbn. lia.
    + intros k. cbn. rewrite lookup_empty. by intros [? ?].
    + intros b _. by rewrite H2.
    + done.
    + intros b _ _. by rewrite H2.
    + intros k. by rewrite H5.
Qed.

Lemma br_key0 d pid b : key (bufs (binit (boot_bst d pid)) b) = (0, 0).
Proof.
  destruct (binit_fold (zseq 0 (Z.to_nat NBUF))
    ((boot_bst d pid) <| bc_lock := false |> <| links := lst_init (links (boot_bst d pid)) HEAD |>) [])
    as (_ & H2 & _).
  - apply lst_init_dlist.
  - apply NoDup_zseq.
  - intros c. rewrite elem_of_zseq. unfold HEAD, NBUF, MAXOPBLOCKS. intros. list_simpl. lia.
  - done.
  - unfold binit. by rewrite H2.
Qed.

(** ** Properties *)

(** C3: [bread] returns, in every state of the cache with room for the block, a
    buffer for that block whose data is what a reader must see (the cached data
    if any, else the disk's), locked by the caller and with one more reference;
    it issues no disk write and takes no buffer away from another client. *)
Theorem bread_refines s a xs d n :
  brep s a xs -> a_held a !! (d, n) = None -> refs a (d, n) + 1 < 2 ^ 32 ->
  is_Some (a_ref a !! (d, n)) \/ (size (a_ref a) < Z.to_nat NBUF)%nat ->
  exists b s', bread d n s = Ok b s' /\ brep s' (a_get a (d, n) (mypid s)) xs /\
    owned s' b (d, n) /\ data (bufs s' b) = a_view a (d, n) /\
    locked (b_lock (bufs s' b)) = true /\ lk_pid (b_lock (bufs s' b)) = mypid s /\
    writes s' = writes s /\ (forall b' k', owned s b' k' -> owned s' b' k').
Proof.
  intros R Hh Hr Hroom.
  destruct (bread_spec s a xs d n R Hh Hr Hroom) as (b & s' & E & R' & Hp & Hw & Ho & Hfr).
  exists b, s'. split; [done|]. split; [done|]. split; [done|].
  split; [by apply (owned_view _ _ _ _ _ R')|].
  pose proof (cached_held _ _ _ _ _ R' (proj1 Ho)) as Hh'. cbn in Hh'. rewrite lookup_insert_eq in Hh'.
  destruct (locked _); [|done]. by injection Hh' as <-.
Qed.

Lemma bread_refines_witness :
  exists b s', bread 0 7 (binit (boot_bst (fun k => [k.2]) 3)) = Ok b s' /\ data (bufs s' b) = [7].
Proof.
  destruct (bread_refines _ _ _ 0 7 (binit_rep (fun k => [k.2]) 3)) as (b & s' & E & _ & _ & Hd & _).
  - apply lookup_empty.
  - vm_compute. reflexivity.
  - right. vm_compute. lia.
  - exists b, s'. split; [exact E|exact Hd].
Defined.

(** [brelse] by the owner gives the lock and one reference back and keeps
    every block readable as before, provided the block is still referenced or is
    the same on disk; a buffer released for the last time becomes the most
    recently used one, and it stays cached. *)
Theorem brelse_refines s a xs b k :
  brep s a xs -> owned s b k -> a_held a !! k = Some (mypid s) ->
  1 < refs a k \/ a_view a k = a_disk a k ->
  exists s' xs', brelse b s = Ok tt s' /\ writes s' = writes s /\
    brep s' (a <| a_ref := unref (a_ref a) k (refs a k) |> <| a_held := delete k (a_held a) |>) xs' /\
    (forall b' k', owned s b' k' -> k' <> k \/ 1 < refs a k -> owned s' b' k').
Proof.
  intros R Ho Hh Hok. destruct (brelse_spec s a xs b k R Ho Hh Hok) as (s' & xs' & E & _ & Hw & R' & Hf).
  by exists s', xs'.
Qed.

Lemma brelse_refines_witness :
  exists b s s', bread 0 7 (binit (boot_bst (fun k => [k.2]) 3)) = Ok b s /\ brelse b s = Ok tt s'.
Proof.
  destruct (bread_spec _ _ _ 0 7 (binit_rep (fun k => [k.2]) 3)) as (b & s & E & R & Hp & Hw & Ho & _).
  - apply lookup_empty.
  - vm_compute. reflexivity.
  - right. vm_compute. lia.
  - destruct (brelse_refines s _ _ b (0, 7) R Ho) as (s' & xs' & E' & _).
    + rewrite Hp. apply lookup_insert_eq.
    + right. reflexivity.
    + exists b, s, s'. split; [exact E|exact E'].
Defined.

(** The block bget recycles is the least recently used one: when no buffer
    holds the block, [bget] takes the free buffer nearest the tail of the list,
    and when every buffer is referenced it panics. *)
Theorem bget_lru s a xs d n :
  brep s a xs -> (forall b, b ∈ xs -> key (bufs s b) <> (d, n)) ->
  (forall b l r, xs = l ++ b :: r -> refcnt (bufs s b) = 0 ->
     (forall q, q ∈ r -> 0 < refcnt (bufs s q)) ->
     exists s', bget d n s = Ok b s' /\ key (bufs s' b) = (d, n) /\ valid (bufs s' b) = false) /\
  ((forall b, b ∈ xs -> 0 < refcnt (bufs s b)) -> bget d n s = Panic "bget: no buffers").
Proof.
  intros R Hmiss. rewrite (bget_eq _ _ _ _ _ R).
  replace (List.find (samekey s (d, n)) xs) with (@None Z).
  2:{ symmetry. destruct (List.find _ _) eqn:E; [|done]. apply find_Some_in in E.
      destruct E as [Hin E]. apply samekey_spec in E. by apply Hmiss in Hin. }
  split.
  - intros b l r -> Hz Hr. assert (Hb : b ∈ l ++ b :: r) by set_solver.
    rewrite reverse_app, reverse_cons, <- app_assoc. cbn [app].
    rewrite find_after; [|intros q Hq; rewrite elem_of_reverse in Hq; specialize (Hr q Hq)|];
      [| |by apply Z.eqb_eq]; [|apply Z.eqb_neq; lia].
    destruct (br_buf _ _ _ R b Hb) as (Hb1 & Hb2 & Hb3).
    assert (locked (b_lock (bufs s b)) = false)
      by (destruct (locked _); [specialize (Hb3 eq_refl); lia|done]).
    unfold bget_recycle, set_buf, release, bind, modify. cbn.
    rewrite acquire_buf_Ok by (cbn; by rewrite upd_same).
    eexists. split; [reflexivity|]. cbn. by rewrite !upd_same.
  - intros Hall. destruct (List.find _ (reverse xs)) as [b|] eqn:E; [|done].
    apply find_Some_in in E. destruct E as [Hin E]. rewrite elem_of_reverse in Hin.
    apply Z.eqb_eq in E. specialize (Hall b Hin). lia.
Qed.

Lemma bget_lru_witness : exists s', bget 0 7 (binit (boot_bst (fun k => [k.2]) 3)) = Ok 0 s'.
Proof.
  destruct (bget_lru _ _ _ 0 7 (binit_rep (fun k => [k.2]) 3)) as [H _].
  - intros b Hb. apply elem_of_reverse, elem_of_zseq in Hb.
    rewrite (br_key0 _ _ b). congruence.
  - destruct (H 0 (reverse (zseq 1 29)) []) as (s' & E & _); [reflexivity|reflexivity| |].
    + intros q Hq. by apply elem_of_nil in Hq.
    + by exists s'.
Defined.
