(* ===== verification/Log.v ===== *)
(** * [kernel/log.c]: the crash-recovery log

    The log of one device: [log[dev]], the header block and the data blocks of
    the log area, on top of the buffer cache of [Bio].  The routines are those of
    [log.c]; the crash theorem is in [LogCrash], the reservation protocol of
    [begin_op]/[end_op] in [LogOps]. *)
From stdpp Require Import base list gmap strings.
From Stdlib Require Import ZArith Lia.
From S2P Require Import Prelude KString DList Sleeplock Bio.

#[local] Open Scope Z_scope.
#[local] Open Scope xv6_scope.

(** [struct log], with its [struct logheader lh] as the fields [lh_n] and
    [lh_block]. *)
Record log : Type := Log {
  log_lock : bool;
  start : Z;
  log_size : Z;
  outstanding : Z;        (** how many FS sys calls are executing *)
  committing : bool;      (** in commit(), please wait *)
  log_dev : Z;
  lh_n : Z;
  lh_block : list Z;
}.

#[export] Instance log_eta : Eta log := fun l =>
  Log (log_lock l) (start l) (log_size l) (outstanding l) (committing l) (log_dev l) (lh_n l) (lh_block l).

Record lst : Type := Lst {
  lg : log;
  bc : bst;
  log_wakes : nat;        (** number of [wakeup(&log)] calls *)
}.

#[export] Instance lst_eta : Eta lst := fun s => Lst (lg s) (bc s) (log_wakes s).

Definition bio {A} (m : M bst A) : M lst A := zoom bc (fun b s => s <| bc := b |>) m.
Definition set_log (f : log -> log) : M lst unit := modify (fun s => s <| lg := f (lg s) |>).
Definition log_acquire : M lst unit := zoom lg (fun l s => s <| lg := l |>) (acquire log_lock).
Definition log_release : M lst unit := zoom lg (fun l s => s <| lg := l |>) (release log_lock).
Definition log_wakeup : M lst unit := modify (fun s => s <| log_wakes := S (log_wakes s) |>).

(** [log[dev].lh.block[i]] *)
Definition lh_nth (l : log) (i : Z) : Z := default 0 (lh_block l !! Z.to_nat i).

(** Fields of the [struct logheader] at the front of a header block. *)
Definition hdr_n (d : block) : Z := s32 (get_le 4 0 d).
Definition hdr_block (d : block) (i : Z) : Z := s32 (get_le 4 (Z.to_nat (4 + 4 * i)) d).

(** [dev] is the index of the log. *)
Section Device.

Context (ldev : Z).

(** [install_trans]'s loop body for [tail]. *)
Definition install_block (tail : Z) : M lst unit :=
  l ← gets lg ;
  lbuf ← bio (bread ldev (u32 (start l + tail + 1))) ;
  dbuf ← bio (bread ldev (u32 (lh_nth l tail))) ;
  d ← gets (fun s => data (bufs (bc s) lbuf)) ;
  bio (set_data dbuf d) ;;
  bio (bwrite dbuf) ;;
  bio (bunpin dbuf) ;;
  bio (brelse lbuf) ;;
  bio (brelse dbuf).

(** [write_log]'s loop body for [tail]. *)
Definition log_block (tail : Z) : M lst unit :=
  l ← gets lg ;
  to ← bio (bread ldev (u32 (start l + tail + 1))) ;
  from ← bio (bread ldev (u32 (lh_nth l tail))) ;
  d ← gets (fun s => data (bufs (bc s) from)) ;
  bio (set_data to d) ;;
  bio (bwrite to) ;;
  bio (brelse from) ;;
  bio (brelse to).

(** [for (tail = i; tail < lh.n; tail++) body(tail);]; the body leaves [lh.n]
    alone. *)
Fixpoint tail_loop (body : Z -> M lst unit) (n : nat) (tail : Z) : M lst unit :=
  match n with
  | O => ret tt
  | S n => body tail ;; tail_loop body n (tail + 1)
  end.

Definition install_trans : M lst unit :=
  n ← gets (fun s => lh_n (lg s)) ;
  tail_loop install_block (Z.to_nat n) 0.

Definition write_log : M lst unit :=
  n ← gets (fun s => lh_n (lg s)) ;
  tail_loop log_block (Z.to_nat n) 0.

(** [for (i = 0; i < n; i++) lh.block[i] = hb->block[i];] *)
Fixpoint read_blocks (n : nat) (i : Z) (d : block) (l : list Z) : list Z :=
  match n with
  | O => l
  | S n => read_blocks n (i + 1) d (<[Z.to_nat i := hdr_block d i]> l)
  end.

Definition read_head : M lst unit :=
  l ← gets lg ;
  b ← bio (bread ldev (u32 (start l))) ;
  d ← gets (fun s => data (bufs (bc s) b)) ;
  set_log (fun l => l <| lh_n := hdr_n d |>) ;;
  set_log (fun l => l <| lh_block := read_blocks (Z.to_nat (lh_n l)) 0 d (lh_block l) |>) ;;
  bio (brelse b).

(** [for (i = 0; i < n; i++) hb->block[i] = lh.block[i];] *)
Fixpoint write_blocks (n : nat) (i : Z) (l : log) (d : block) : block :=
  match n with
  | O => d
  | S n => write_blocks n (i + 1) l (put_le 4 (Z.to_nat (4 + 4 * i)) (lh_nth l i) d)
  end.

Definition write_header (l : log) (d : block) : block :=
  write_blocks (Z.to_nat (lh_n l)) 0 l (put_le 4 0 (lh_n l) d).

Definition write_head : M lst unit :=
  l ← gets lg ;
  b ← bio (bread ldev (u32 (start l))) ;
  d ← gets (fun s => data (bufs (bc s) b)) ;
  bio (set_data b (write_header l d)) ;;
  bio (bwrite b) ;;
  bio (brelse b).

Definition recover_from_log : M lst unit :=
  read_head ;;
  install_trans ;;
  set_log (fun l => l <| lh_n := 0 |>) ;;
  write_head.

(** [sizeof(struct logheader)] is [4 + 4 * LOGSIZE]. *)
Definition initlog (logstart nlog : Z) : M lst unit :=
  if 4 + 4 * LOGSIZE >=? BSIZE then panic "initlog: too big logheader" else
  (set_log (fun l => l <| log_lock := false |>) ;;
   set_log (fun l => l <| start := logstart |>) ;;
   set_log (fun l => l <| log_size := nlog |>) ;;
   set_log (fun l => l <| log_dev := ldev |>) ;;
   recover_from_log).

Definition commit : M lst unit :=
  n ← gets (fun s => lh_n (lg s)) ;
  if n >? 0
  then write_log ;;
       write_head ;;
       install_trans ;;
       set_log (fun l => l <| lh_n := 0 |>) ;;
       write_head
  else ret tt.

Definition log_chan : chan := Chan "log" 0.

(** One pass of [begin_op]'s loop; [sleep] gives the log's lock back, and the
    loop starts over when the process is woken. *)
Definition begin_op : M lst unit :=
  log_acquire ;;
  l ← gets lg ;
  if committing l then log_release ;; sleep_on log_chan
  else if lh_n l + (outstanding l + 1) * MAXOPBLOCKS >? LOGSIZE
       then log_release ;; sleep_on log_chan
       else set_log (fun l => l <| outstanding := outstanding l + 1 |>) ;;
            log_release.

(** [end_op] up to the release of the log's lock; the result is [do_commit]. *)
Definition end_op_leave : M lst bool :=
  log_acquire ;;
  set_log (fun l => l <| outstanding := outstanding l - 1 |>) ;;
  l ← gets lg ;
  if committing l then panic "log[dev].committing" else
  (let do_commit := outstanding l =? 0 in
   (if do_commit then set_log (fun l => l <| committing := true |>) else log_wakeup) ;;
   log_release ;;
   ret do_commit).

(** The rest of [end_op] when it has to commit. *)
Definition end_op_commit : M lst unit :=
  commit ;;
  log_acquire ;;
  set_log (fun l => l <| committing := false |>) ;;
  log_wakeup ;;
  log_release.

Definition end_op : M lst unit :=
  do_commit ← end_op_leave ;
  if do_commit then end_op_commit else ret tt.

(** [for (i = 0; i < n; i++) if (block[i] == blockno) break;] *)
Fixpoint absorb_index (n : nat) (i blockno : Z) (l : log) : Z :=
  match n with
  | O => i
  | S n => if u32 (lh_nth l i) =? blockno then i else absorb_index n (i + 1) blockno l
  end.

Definition log_write (b : Z) : M lst unit :=
  l ← gets lg ;
  if (lh_n l >=? LOGSIZE) || (lh_n l >=? log_size l - 1) then panic "too big a transaction" else
  if outstanding l <? 1 then panic "log_write outside of trans" else
  (log_acquire ;;
   bno ← gets (fun s => blockno (bufs (bc s) b)) ;
   let i := absorb_index (Z.to_nat (lh_n l)) 0 bno l in
   set_log (fun l => l <| lh_block := <[Z.to_nat i := s32 bno]> (lh_block l) |>) ;;
   (if i =? lh_n l
    then bio (bpin b) ;; set_log (fun l => l <| lh_n := lh_n l + 1 |>)
    else ret tt) ;;
   log_release).

End Device.

#[global] Arguments bio : simpl never.
#[global] Arguments write_header : simpl never.

(** ** The header block *)

Lemma write_blocks_length n i l d :
  0 <= i -> i + Z.of_nat n <= LOGSIZE -> length d = Z.to_nat BSIZE ->
  length (write_blocks n i l d) = Z.to_nat BSIZE.
Proof.
  revert i d. induction n as [|n IH]; intros i d Hi Hn Hd; cbn [write_blocks]; [done|].
  apply IH; [lia..|]. rewrite length_put_le; [done|]. unfold LOGSIZE, MAXOPBLOCKS, BSIZE in *. lia.
Qed.

(** The loop leaves what lies before [hb->block[i]] alone. *)
Lemma write_blocks_before n i l d off :
  0 <= i -> i + Z.of_nat n <= LOGSIZE -> length d = Z.to_nat BSIZE ->
  (off + 4 <= Z.to_nat (4 + 4 * i))%nat ->
  get_le 4 off (write_blocks n i l d) = get_le 4 off d.
Proof.
  revert i d. induction n as [|n IH]; intros i d Hi Hn Hd Hoff; cbn [write_blocks]; [done|].
  assert (Hfit : (Z.to_nat (4 + 4 * i) + 4 <= length d)%nat)
    by (unfold LOGSIZE, MAXOPBLOCKS, BSIZE in *; lia).
  rewrite IH; [|lia..|by rewrite length_put_le|lia].
  apply get_put_le_other; lia.
Qed.

Lemma write_blocks_get n i l d j :
  0 <= i -> i + Z.of_nat n <= LOGSIZE -> length d = Z.to_nat BSIZE -> i <= j < i + Z.of_nat n ->
  get_le 4 (Z.to_nat (4 + 4 * j)) (write_blocks n i l d) = u32 (lh_nth l j).
Proof.
  revert i d. induction n as [|n IH]; intros i d Hi Hn Hd Hj; cbn [write_blocks]; [lia|].
  assert (Hfit : (Z.to_nat (4 + 4 * i) + 4 <= length d)%nat)
    by (unfold LOGSIZE, MAXOPBLOCKS, BSIZE in *; lia).
  destruct (decide (j = i)) as [->|].
  - rewrite write_blocks_before; [|lia..|by rewrite length_put_le|lia].
    by rewrite get_put_le.
  - apply IH; [lia..|by rewrite length_put_le|lia].
Qed.

Lemma write_header_length l d :
  0 <= lh_n l <= LOGSIZE -> length d = Z.to_nat BSIZE -> length (write_header l d) = Z.to_nat BSIZE.
Proof.
  intros Hn Hd. unfold write_header. apply write_blocks_length; [lia..|].
  rewrite length_put_le; [done|]. rewrite Hd. unfold BSIZE. lia.
Qed.

Lemma write_header_n l d :
  0 <= lh_n l <= LOGSIZE -> length d = Z.to_nat BSIZE -> hdr_n (write_header l d) = lh_n l.
Proof.
  intros Hn Hd. assert (Hfit : (0 + 4 <= length d)%nat) by (rewrite Hd; unfold BSIZE; lia).
  unfold hdr_n, write_header. rewrite write_blocks_before;
    [|lia..|by rewrite length_put_le|lia].
  rewrite get_put_le by done. apply s32_u32. unfold LOGSIZE, MAXOPBLOCKS in Hn. zpow. lia.
Qed.

Lemma write_header_block l d j :
  0 <= lh_n l <= LOGSIZE -> length d = Z.to_nat BSIZE -> 0 <= j < lh_n l ->
  - 2 ^ 31 <= lh_nth l j < 2 ^ 31 -> hdr_block (write_header l d) j = lh_nth l j.
Proof.
  intros Hn Hd Hj Hr. assert (Hfit : (0 + 4 <= length d)%nat) by (rewrite Hd; unfold BSIZE; lia).
  unfold hdr_block, write_header. rewrite write_blocks_get;
    [|lia..|by rewrite length_put_le|lia].
  by apply s32_u32.
Qed.

Lemma read_blocks_length n i d l : length (read_blocks n i d l) = length l.
Proof. revert i l. induction n as [|n IH]; intros i l; cbn; [done|]. by rewrite IH, length_insert. Qed.

Lemma read_blocks_lookup n i d l j :
  0 <= i -> 0 <= j -> i + Z.of_nat n <= Z.of_nat (length l) ->
  read_blocks n i d l !! Z.to_nat j =
    if decide (i <= j < i + Z.of_nat n) then Some (hdr_block d j) else l !! Z.to_nat j.
Proof.
  revert i l. induction n as [|n IH]; intros i l Hi Hj Hl; cbn [read_blocks].
  - by rewrite decide_False by lia.
  - rewrite IH by (rewrite ?length_insert; lia).
    destruct (decide (j = i)) as [->|].
    + rewrite decide_False, decide_True by lia. apply list_lookup_insert_eq. lia.
    + rewrite list_lookup_insert_ne by lia.
      destruct (decide (i + 1 <= j < i + 1 + Z.of_nat n)).
      * by rewrite decide_True by lia.
      * by rewrite decide_False by lia.
Qed.

(** ** The buffer cache's routines seen from the log *)

(** The in-memory log is [l], the cache implements [a], the running process is
    [me] and the disk has been given the writes [W]. *)
Record lrep (s : lst) (l : log) (a : astate) (me : Z) (W : list (Z * Z * block)) : Prop := {
  lr_log : lg s = l;
  lr_me : mypid (bc s) = me;
  lr_writes : writes (bc s) = W;
  lr_rep : exists xs, brep (bc s) a xs;
}.

Lemma lrep_bc s l a me W b xs :
  lrep s l a me W -> mypid b = me -> writes b = W -> brep b a xs ->
  lrep (s <| bc := b |>) l a me W.
Proof. intros [] ? ? ?. split; eauto. Qed.

Lemma wp_set_log {A} f (k : unit -> M lst A) Q s l a me W :
  lrep s l a me W -> (forall s', lrep s' (f l) a me W -> wp (k tt) Q s') ->
  wp (bind (set_log f) k) Q s.
Proof. intros [<- ? ? ?] H. apply wp_modify, H. by split. Qed.

Section Bio.

Context (s : lst) (l : log) (a : astate) (me : Z) (W : list (Z * Z * block)).
Hypothesis R : lrep s l a me W.

Lemma bio_intro {A} (m : M bst A) (Q : A -> lst -> Prop) :
  (forall xs, brep (bc s) a xs ->
    exists v b, m (bc s) = Ok v b /\ Q v (s <| bc := b |>)) ->
  wp (bio m) Q s.
Proof.
  destruct R as [_ _ _ [xs Hxs]]. intros H. apply wp_zoom, wp_Ok. eauto.
Qed.

Lemma bio_bread d n :
  a_held a !! (d, n) = None -> refs a (d, n) + 1 < 2 ^ 32 ->
  is_Some (a_ref a !! (d, n)) \/ (size (a_ref a) < Z.to_nat NBUF)%nat ->
  wp (bio (bread d n)) (fun b s' =>
    lrep s' l (a_get a (d, n) me) me W /\ owned (bc s') b (d, n) /\
    frame (bc s) (bc s') (fun _ => True)) s.
Proof.
  intros H1 H2 H3. apply bio_intro. intros xs Hxs. destruct R as [HL HM HW _].
  destruct (bread_spec _ _ _ _ _ Hxs H1 H2 H3) as (b & s' & E & Hr & Hm & Hw & Ho & Hf).
  exists b, s'. split; [done|]. rewrite HM in Hr. split_and!; [|done|].
  - split; cbn; eauto; congruence.
  - intros b' k' ? _. by apply Hf.
Qed.

Lemma bio_set_data b k d :
  owned (bc s) b k ->
  wp (bio (set_data b d)) (fun _ s' =>
    lrep s' l (a <| a_view := fupdate (a_view a) k d |>) me W /\
    frame (bc s) (bc s') (fun _ => True)) s.
Proof.
  intros H1. apply bio_intro. intros xs Hxs. destruct R as [HL HM HW _].
  destruct (set_data_spec _ _ _ _ _ d Hxs H1) as (s' & E & Hm & Hw & Hr & Hf & _).
  exists tt, s'. split_and!; [done| |done]. split; cbn; eauto; congruence.
Qed.

Lemma bio_bwrite b k :
  owned (bc s) b k -> a_held a !! k = Some me ->
  wp (bio (bwrite b)) (fun _ s' =>
    lrep s' l (a <| a_disk := fupdate (a_disk a) k (a_view a k) |>) me (W ++ [(k, a_view a k)]) /\
    frame (bc s) (bc s') (fun _ => True)) s.
Proof.
  intros H1 H2. apply bio_intro. intros xs Hxs. destruct R as [HL HM HW _]. rewrite <- HM in H2.
  destruct (bwrite_spec _ _ _ _ _ Hxs H1 H2) as (s' & E & Hm & Hw & Hr & Hf & _).
  exists tt, s'. split_and!; [done| |done]. split; cbn; eauto; congruence.
Qed.

Lemma bio_bpin b k :
  owned (bc s) b k -> refs a k + 1 < 2 ^ 32 ->
  wp (bio (bpin b)) (fun _ s' =>
    lrep s' l (a <| a_ref := <[k := refs a k + 1]> (a_ref a) |>) me W /\
    frame (bc s) (bc s') (fun _ => True)) s.
Proof.
  intros H1 H2. apply bio_intro. intros xs Hxs. destruct R as [HL HM HW _].
  destruct (bpin_spec _ _ _ _ _ Hxs H1 H2) as (s' & E & Hm & Hw & Hr & Hf).
  exists tt, s'. split_and!; [done| |done]. split; cbn; eauto; congruence.
Qed.

Lemma bio_bunpin b k :
  owned (bc s) b k -> 1 < refs a k ->
  wp (bio (bunpin b)) (fun _ s' =>
    lrep s' l (a <| a_ref := <[k := refs a k - 1]> (a_ref a) |>) me W /\
    frame (bc s) (bc s') (fun _ => True)) s.
Proof.
  intros H1 H2. apply bio_intro. intros xs Hxs. destruct R as [HL HM HW _].
  destruct (bunpin_spec _ _ _ _ _ Hxs H1 H2) as (s' & E & Hm & Hw & Hr & Hf).
  exists tt, s'. split_and!; [done| |done]. split; cbn; eauto; congruence.
Qed.

Lemma bio_brelse b k :
  owned (bc s) b k -> a_held a !! k = Some me -> 1 < refs a k \/ a_view a k = a_disk a k ->
  wp (bio (brelse b)) (fun _ s' =>
    lrep s' l (a <| a_ref := unref (a_ref a) k (refs a k) |> <| a_held := delete k (a_held a) |>) me W /\
    frame (bc s) (bc s') (fun k' => k' <> k \/ 1 < refs a k)) s.
Proof.
  intros H1 H2 H3. apply bio_intro. intros xs Hxs. destruct R as [HL HM HW _]. rewrite <- HM in H2.
  destruct (brelse_spec _ _ _ _ _ Hxs H1 H2 H3) as (s' & xs' & E & Hm & Hw & Hr & Hf).
  exists tt, s'. split_and!; [done| |done]. split; cbn; eauto; congruence.
Qed.

End Bio.

(** ** References come and go *)

Lemma fupdate_same f k d : fupdate f k d k = d.
Proof. unfold fupdate. by rewrite decide_True. Qed.

Lemma fupdate_other f k d k' : k' <> k -> fupdate f k d k' = f k'.
Proof. intros. unfold fupdate. by rewrite decide_False. Qed.

Lemma lrep_ref s l a me W k r : lrep s l a me W -> a_ref a !! k = Some r -> 0 < r.
Proof. intros [_ _ _ [xs Hx]] H. by destruct (br_ref_inv _ _ _ Hx _ _ H). Qed.

Lemma lrep_refs s l a me W k : lrep s l a me W -> 0 <= refs a k.
Proof.
  intros R. unfold refs. destruct (a_ref a !! k) as [r|] eqn:E; cbn; [|lia].
  pose proof (lrep_ref _ _ _ _ _ _ _ R E). lia.
Qed.

Lemma lrep_view s l a me W b k :
  lrep s l a me W -> owned (bc s) b k -> data (bufs (bc s) b) = a_view a k.
Proof. intros [_ _ _ [xs Hx]] H. by apply (owned_view _ _ xs). Qed.

Lemma unref_get (m : gmap (Z * Z) Z) k n :
  default 0 (m !! k) = n -> (forall r, m !! k = Some r -> 0 < r) ->
  unref (<[k := n + 1]> m) k (n + 1) = m.
Proof.
  intros <- H. unfold unref. destruct (m !! k) as [r|] eqn:E; cbn.
  - rewrite decide_False by (specialize (H r eq_refl); lia). rewrite insert_insert_eq.
    apply insert_id. rewrite E. f_equal. lia.
  - by rewrite delete_insert_id.
Qed.

Lemma unref_insert_ne (m : gmap (Z * Z) Z) k r k' v :
  k <> k' -> unref (<[k' := v]> m) k r = <[k' := v]> (unref m k r).
Proof.
  intros. unfold unref. case_decide; [by rewrite delete_insert_ne|by rewrite insert_insert_ne].
Qed.

Lemma unref_lookup_ne (m : gmap (Z * Z) Z) k r k' : k <> k' -> unref m k r !! k' = m !! k'.
Proof. intros. unfold unref. case_decide; by simplify_map_eq. Qed.

Lemma refs_insert a k r : refs (a <| a_ref := <[k := r]> (a_ref a) |>) k = r.
Proof. unfold refs. cbn. by rewrite lookup_insert_eq. Qed.

(** [k] now holds [d], in the cache and on disk. *)
Definition aput (a : astate) (k : Z * Z) (d : block) : astate :=
  a <| a_view := fupdate (a_view a) k d |> <| a_disk := fupdate (a_disk a) k d |>.

(** ** The loop bodies *)

(** Compute the abstract state in [H]. *)
Ltac asimpl H := unfold a_get, aput, field_update in H; cbn in H; rewrite ?fupdate_same in H.

(** A buffer is still held: trace it back through the frames. *)
Ltac own :=
  repeat match goal with
         | F : frame _ (bc ?s) _ |- owned (bc ?s) _ _ => apply F; [|try (by left) || done]
         end; try done.

Section Blocks.

Context (ldev : Z) (s : lst) (l : log) (a : astate) (me : Z) (W : list (Z * Z * block)) (tail : Z).

Context (n1 n2 : Z).
Abbreviation k1 := (ldev, n1).
Abbreviation k2 := (ldev, n2).

Hypothesis E1 : u32 (start l + tail + 1) = n1.
Hypothesis E2 : u32 (lh_nth l tail) = n2.
Hypothesis R : lrep s l a me W.
Hypothesis Hne : k1 <> k2.
Hypothesis H1 : a_held a !! k1 = None.
Hypothesis H2 : a_held a !! k2 = None.
Hypothesis C1 : refs a k1 + 1 < 2 ^ 32.
Hypothesis C2 : refs a k2 + 1 < 2 ^ 32.
Hypothesis S1 : is_Some (a_ref a !! k1) \/ (size (a_ref a) < Z.to_nat NBUF)%nat.

(** Both blocks are read and locked. *)
Let a2 : astate :=
  AState (<[k2 := refs a k2 + 1]> (<[k1 := refs a k1 + 1]> (a_ref a)))
         (<[k2 := me]> (<[k1 := me]> (a_held a))) (a_view a) (a_disk a).

Lemma bread_both {A} (K : Z -> Z -> M lst A) Q :
  is_Some (a_ref a !! k2) \/ (S (size (a_ref a)) < Z.to_nat NBUF)%nat ->
  (forall b1 b2 s2, lrep s2 l a2 me W -> owned (bc s2) b1 k1 -> owned (bc s2) b2 k2 ->
     wp (K b1 b2) Q s2) ->
  wp (b1 ← bio (bread ldev n1) ; b2 ← bio (bread ldev n2) ; K b1 b2) Q s.
Proof.
  intros Hs2 HK.
  eapply wp_seq; [by apply (bio_bread _ _ _ _ _ R)|]. intros b1 s1 (R1 & O1 & _).
  assert (E : refs (a_get a k1 me) k2 = refs a k2) by (unfold refs; cbn; by rewrite lookup_insert_ne).
  eapply wp_seq; [apply (bio_bread _ _ _ _ _ R1); cbn|].
  { by rewrite lookup_insert_ne. }
  { change (refs (a_get a k1 me) k2 + 1 < 2 ^ 32). by rewrite E. }
  { destruct Hs2 as [Hs2|Hs2]; [left; by rewrite lookup_insert_ne|right].
    rewrite map_size_insert. destruct (a_ref a !! k1); cbn; lia. }
  intros b2 s2 (R2 & O2 & F2). apply HK; auto.
  unfold a_get in R2 at 1. by rewrite E in R2.
Qed.

Lemma a2_held1 : a_held a2 !! k1 = Some me.
Proof. cbn. rewrite lookup_insert_ne by done. apply lookup_insert_eq. Qed.

Lemma a2_held2 : a_held a2 !! k2 = Some me.
Proof. cbn. apply lookup_insert_eq. Qed.

Lemma a2_release : delete k1 (delete k2 (a_held a2)) = a_held a.
Proof.
  cbn. rewrite (delete_insert_id (<[k1 := me]> (a_held a))) by (by rewrite lookup_insert_ne).
  by apply delete_insert_id.
Qed.

Lemma a2_release' : delete k2 (delete k1 (a_held a2)) = a_held a.
Proof. rewrite delete_delete. apply a2_release. Qed.

Lemma log_block_spec :
  is_Some (a_ref a !! k2) ->
  wp (log_block ldev tail) (fun _ s' =>
    lrep s' l (aput a k1 (a_view a k2)) me (W ++ [(k1, a_view a k2)])) s.
Proof.
  intros P2. unfold log_block. apply wp_gets. rewrite (lr_log _ _ _ _ _ R), E1, E2.
  apply bread_both; [by left|]. intros to from s2 R2 O1 O2.
  apply wp_gets. rewrite (lrep_view _ _ _ _ _ _ _ R2 O2).
  eapply wp_seq; [apply (bio_set_data _ _ _ _ _ R2 _ _ _ O1)|]. intros _ s3 [R3 F3].
  eapply wp_seq; [apply (bio_bwrite _ _ _ _ _ R3 _ k1); [by apply F3|apply a2_held1]|].
  intros _ s4 [R4 F4].
  asimpl R4.
  assert (Q : 0 < refs a k2) by (destruct P2 as [r Hr]; unfold refs; rewrite Hr; exact (lrep_ref _ _ _ _ _ _ _ R Hr)).
  eapply wp_seq; [apply (bio_brelse _ _ _ _ _ R4 _ k2)|].
  { own. }
  { apply a2_held2. }
  { left. unfold refs at 1. cbn. rewrite lookup_insert_eq. cbn. lia. }
  intros _ s5 [R5 F5].
  asimpl R5. unfold refs at 3 in R5. cbn in R5. rewrite lookup_insert_eq in R5. cbn in R5.
  rewrite unref_get in R5; [|by rewrite lookup_insert_ne|intros r; rewrite lookup_insert_ne by done; by apply (lrep_ref _ _ _ _ _ _ _ R)].
  eapply wp_mono; [apply (bio_brelse _ _ _ _ _ R5 _ k1)|].
  { own. }
  { cbn. rewrite lookup_delete_ne by done. apply a2_held1. }
  { right. cbn. by rewrite !fupdate_same. }
  intros _ s6 [R6 _].
  asimpl R6. unfold refs at 2 in R6. cbn in R6. rewrite lookup_insert_eq in R6. cbn in R6.
  rewrite unref_get in R6; [|done|intros r; by apply (lrep_ref _ _ _ _ _ _ _ R)].
  pose proof a2_release as Ha. cbn in Ha. rewrite Ha in R6. exact R6.
Qed.

(** In [commit] the home block is pinned, and the pin goes away. *)
Lemma install_block_spec :
  is_Some (a_ref a !! k2) -> a_view a k1 = a_disk a k1 ->
  wp (install_block ldev tail) (fun _ s' =>
    lrep s' l ((aput a k2 (a_view a k1)) <| a_ref := unref (a_ref a) k2 (refs a k2) |>) me
      (W ++ [(k2, a_view a k1)])) s.
Proof.
  intros P2 Hcl. unfold install_block. apply wp_gets. rewrite (lr_log _ _ _ _ _ R), E1, E2.
  apply bread_both; [by left|]. intros lb db s2 R2 O1 O2.
  apply wp_gets. rewrite (lrep_view _ _ _ _ _ _ _ R2 O1).
  eapply wp_seq; [apply (bio_set_data _ _ _ _ _ R2 _ _ _ O2)|]. intros _ s3 [R3 F3].
  eapply wp_seq; [apply (bio_bwrite _ _ _ _ _ R3 _ k2); [by apply F3|apply a2_held2]|].
  intros _ s4 [R4 F4]. asimpl R4.
  assert (Q : 0 < refs a k2) by (destruct P2 as [r Hr]; unfold refs; rewrite Hr; exact (lrep_ref _ _ _ _ _ _ _ R Hr)).
  eapply wp_seq; [apply (bio_bunpin _ _ _ _ _ R4 _ k2); [own|]|].
  { unfold refs at 1. cbn. rewrite lookup_insert_eq. cbn. lia. }
  intros _ s5 [R5 F5]. asimpl R5.
  unfold refs at 1 in R5. cbn in R5. rewrite lookup_insert_eq, insert_insert_eq in R5. cbn in R5.
  rewrite Z.add_simpl_r in R5.
  eapply wp_seq; [apply (bio_brelse _ _ _ _ _ R5 _ k1); [own|apply a2_held1|]|].
  { right. cbn. by rewrite !fupdate_other. }
  intros _ s6 [R6 F6]. asimpl R6.
  unfold refs at 3 in R6. cbn in R6. rewrite lookup_insert_ne, lookup_insert_eq in R6 by done. cbn in R6.
  rewrite unref_insert_ne in R6 by done.
  rewrite unref_get in R6; [|done|intros r; by apply (lrep_ref _ _ _ _ _ _ _ R)].
  rewrite insert_id in R6 by (destruct P2 as [r Hr]; unfold refs; by rewrite Hr).
  eapply wp_mono; [apply (bio_brelse _ _ _ _ _ R6 _ k2); [own| |]|].
  { cbn. rewrite lookup_delete_ne by done. apply a2_held2. }
  { right. cbn. by rewrite !fupdate_same. }
  intros _ s7 [R7 _]. asimpl R7.
  pose proof a2_release' as Ha. cbn in Ha. rewrite Ha in R7. exact R7.
Qed.

(** In recovery no one has pinned the home block; its count wraps around. *)
Lemma recover_block_spec :
  a_ref a !! k2 = None -> (S (size (a_ref a)) < Z.to_nat NBUF)%nat -> a_view a k1 = a_disk a k1 ->
  wp (install_block ldev tail) (fun _ s' =>
    lrep s' l ((aput a k2 (a_view a k1)) <| a_ref := <[k2 := 2 ^ 32 - 1]> (a_ref a) |>) me
      (W ++ [(k2, a_view a k1)])) s.
Proof.
  intros P2 Hsz Hcl. unfold install_block. apply wp_gets. rewrite (lr_log _ _ _ _ _ R), E1, E2.
  apply bread_both; [by right|]. intros lb db s2 R2 O1 O2.
  apply wp_gets. rewrite (lrep_view _ _ _ _ _ _ _ R2 O1).
  eapply wp_seq; [apply (bio_set_data _ _ _ _ _ R2 _ _ _ O2)|]. intros _ s3 [R3 F3].
  eapply wp_seq; [apply (bio_bwrite _ _ _ _ _ R3 _ k2); [by apply F3|apply a2_held2]|].
  intros _ s4 [R4 F4]. asimpl R4.
  assert (Q : refs a k2 = 0) by (unfold refs; by rewrite P2). rewrite Q in R4.
  pose proof R4 as [G1 G2 G3 [xs Hx]].
  destruct (unpin_leak _ _ _ lb k1 db k2 Hx) as (s' & xs' & Er & Em & Ew & Hr);
    rewrite ?G2; [own|own|done|apply a2_held1|apply a2_held2| |right; cbn; by rewrite !fupdate_other|].
  { unfold refs. cbn. by rewrite lookup_insert_eq. }
  apply wp_Ok. exists tt, (s4 <| bc := s' |>). split.
  { revert Er. unfold bio, zoom, bind.
    destruct (bunpin db (bc s4)) as [? t1| |]; [|done..]. cbn.
    destruct (brelse lb t1) as [? t2| |]; [|done..]. cbn.
    destruct (brelse db t2) as [? t3| |]; [|done..]. cbn. by intros [= -> ->]. }
  asimpl Hr. unfold refs at 2 in Hr. cbn in Hr.
  rewrite lookup_insert_ne, lookup_insert_eq, unref_insert_ne, insert_insert_eq in Hr by done. cbn in Hr.
  rewrite unref_get in Hr; [|done|intros r; by apply (lrep_ref _ _ _ _ _ _ _ R)].
  pose proof a2_release' as Ha. cbn in Ha. rewrite Ha in Hr.
  split; cbn; [done|congruence|congruence|]. exists xs'. exact Hr.
Qed.

End Blocks.

Lemma write_head_spec ldev s l a me W n0 d :
  lrep s l a me W -> u32 (start l) = n0 -> write_header l (a_view a (ldev, n0)) = d ->
  a_held a !! (ldev, n0) = None -> refs a (ldev, n0) + 1 < 2 ^ 32 ->
  is_Some (a_ref a !! (ldev, n0)) \/ (size (a_ref a) < Z.to_nat NBUF)%nat ->
  wp (write_head ldev) (fun _ s' =>
    lrep s' l (aput a (ldev, n0) d) me (W ++ [((ldev, n0), d)])) s.
Proof.
  intros R E0 <- Hh Hc Hs. unfold write_head. apply wp_gets. rewrite (lr_log _ _ _ _ _ R), E0.
  eapply wp_seq; [by apply (bio_bread _ _ _ _ _ R)|]. intros b s1 (R1 & O1 & _).
  apply wp_gets. rewrite (lrep_view _ _ _ _ _ _ _ R1 O1).
  eapply wp_seq; [apply (bio_set_data _ _ _ _ _ R1 _ _ _ O1)|]. intros _ s2 [R2 F2].
  eapply wp_seq; [apply (bio_bwrite _ _ _ _ _ R2 _ (ldev, n0)); [own|]|].
  { cbn. apply lookup_insert_eq. }
  intros _ s3 [R3 F3]. asimpl R3.
  eapply wp_mono; [apply (bio_brelse _ _ _ _ _ R3 _ (ldev, n0)); [own| |]|].
  { cbn. apply lookup_insert_eq. }
  { right. cbn. by rewrite !fupdate_same. }
  intros _ s4 [R4 _]. asimpl R4.
  unfold refs at 2 in R4. cbn in R4. rewrite lookup_insert_eq in R4. cbn in R4.
  rewrite unref_get in R4; [|done|intros r; by apply (lrep_ref _ _ _ _ _ _ _ R)].
  rewrite delete_insert_id in R4 by done. exact R4.
Qed.

(** [read_head] copies the on-disk header; the cache is as before. *)
Lemma read_head_spec ldev s l a me W n0 :
  lrep s l a me W -> u32 (start l) = n0 ->
  a_held a !! (ldev, n0) = None -> refs a (ldev, n0) + 1 < 2 ^ 32 ->
  is_Some (a_ref a !! (ldev, n0)) \/ (size (a_ref a) < Z.to_nat NBUF)%nat ->
  a_view a (ldev, n0) = a_disk a (ldev, n0) ->
  let d := a_view a (ldev, n0) in
  wp (read_head ldev) (fun _ s' =>
    lrep s' (l <| lh_n := hdr_n d |>
               <| lh_block := read_blocks (Z.to_nat (hdr_n d)) 0 d (lh_block l) |>) a me W) s.
Proof.
  intros R E0 Hh Hc Hs Hcl d. unfold read_head. apply wp_gets. rewrite (lr_log _ _ _ _ _ R), E0.
  eapply wp_seq; [by apply (bio_bread _ _ _ _ _ R)|]. intros b s1 (R1 & O1 & _).
  apply wp_gets. rewrite (lrep_view _ _ _ _ _ _ _ R1 O1). do 2 apply wp_modify.
  set (l' := l <| lh_n := hdr_n d |>
               <| lh_block := read_blocks (Z.to_nat (hdr_n d)) 0 d (lh_block l) |>).
  set (s2 := field_update _ _).
  assert (R2 : lrep s2 l' (a_get a (ldev, n0) me) me W).
  { destruct R1 as [G1 G2 G3 G4]. split; [|done..]. subst s2 l'. unfold field_update. cbn.
    by rewrite G1. }
  eapply wp_mono; [apply (bio_brelse _ _ _ _ _ R2 _ (ldev, n0)); [done| |right; done]|].
  { cbn. apply lookup_insert_eq. }
  intros _ s3 [R3 _]. asimpl R3.
  unfold refs at 2 in R3. cbn in R3. rewrite lookup_insert_eq in R3. cbn in R3.
  rewrite unref_get in R3; [|done|intros r; by apply (lrep_ref _ _ _ _ _ _ _ R)].
  rewrite delete_insert_id in R3 by done. by destruct a.
Qed.
