(* ===== verification/LogCrash.v ===== *)
(** * Crash safety of [kernel/log.c]

    [commit] issues a sequence of block writes and the machine can stop after any
    prefix of it.  The theorems say what the disk then is, and what [initlog]
    makes of it on the next boot.  A block write is atomic and the disk performs
    the writes in order, as [virtio_disk_rw] waits for each. *)
From stdpp Require Import base list gmap strings.
From Stdlib Require Import ZArith Lia.
From S2P Require Import Prelude KString DList Sleeplock Bio Log.

#[local] Open Scope Z_scope.
#[local] Open Scope xv6_scope.

(** The disk (or the cached view) after a sequence of block writes. *)
Definition apply_writes (f : Z * Z -> block) (ws : list (Z * Z * block)) : Z * Z -> block :=
  fold_left (fun f w => fupdate f w.1 w.2) ws f.

Definition aputs (a : astate) (ws : list (Z * Z * block)) : astate :=
  a <| a_view := apply_writes (a_view a) ws |> <| a_disk := apply_writes (a_disk a) ws |>.

(** ** Writes *)

Lemma apply_writes_app f ws ws' : apply_writes f (ws ++ ws') = apply_writes (apply_writes f ws) ws'.
Proof. apply fold_left_app. Qed.

Lemma apply_writes_cons f k d ws : apply_writes f ((k, d) :: ws) = apply_writes (fupdate f k d) ws.
Proof. done. Qed.

Lemma apply_writes_notin f ws k : (forall w, w ∈ ws -> w.1 <> k) -> apply_writes f ws k = f k.
Proof.
  revert f. induction ws as [|w ws IH]; intros f H; cbn; [done|].
  etrans; [apply IH; set_solver|]. apply fupdate_other. set_solver.
Qed.

(** All writes to [k] carry the same data. *)
Lemma apply_writes_in f ws k d :
  (exists w, w ∈ ws /\ w.1 = k) -> (forall w, w ∈ ws -> w.1 = k -> w.2 = d) ->
  apply_writes f ws k = d.
Proof.
  revert f. induction ws as [|w ws IH]; intros f [x [Hx <-]] H; cbn; [set_solver|].
  destruct (decide (Exists (fun w => w.1 = x.1) ws)) as [He|He].
  - apply IH; [by apply Exists_exists in He|set_solver].
  - etrans; [apply apply_writes_notin|].
    + intros w' Hw' E. apply He, Exists_exists. eauto.
    + assert (E : x = w) by (apply elem_of_cons in Hx as [->|Hx]; [done|]; exfalso; apply He, Exists_exists; eauto).
      subst. rewrite fupdate_same. apply H; set_solver.
Qed.

Lemma prefix_app_cases {A} (P B C : list A) :
  P `prefix_of` B ++ C -> P `prefix_of` B \/ exists P', P = B ++ P' /\ P' `prefix_of` C.
Proof.
  revert P. induction B as [|b B IH]; intros P H; cbn in *; [right; by exists P|].
  destruct P as [|p P]; [left; apply prefix_nil|].
  pose proof (prefix_cons_inv_1 _ _ _ _ H) as ->. apply prefix_cons_inv_2 in H.
  destruct (IH _ H) as [?|(P' & -> & ?)]; [left; by apply prefix_cons|right; eauto].
Qed.

Lemma prefix_in {A} (P B : list A) x : P `prefix_of` B -> x ∈ P -> x ∈ B.
Proof. intros [C ->] ?. apply elem_of_app. by left. Qed.

(** ** The log of one device *)

Section Crash.

Context (ldev : Z).

Definition hdr_key (l : log) : Z * Z := (ldev, u32 (start l)).
Definition log_key (l : log) (j : Z) : Z * Z := (ldev, u32 (start l + j + 1)).
Definition home_key (l : log) (j : Z) : Z * Z := (ldev, u32 (lh_nth l j)).

(** The blocks of the device that are not part of the log. *)
Definition outside (logstart nlog : Z) (k : Z * Z) : Prop :=
  k.1 = ldev -> ~ (logstart <= k.2 < logstart + nlog).

(** The in-memory header names distinct blocks outside the log area, which has
    room for them. *)
Record log_wf (l : log) : Prop := {
  wf_n : 0 <= lh_n l;
  wf_fit : lh_n l + 1 <= log_size l;
  wf_max : lh_n l < NBUF;
  wf_start : 0 <= start l;
  wf_end : start l + log_size l < 2 ^ 31;
  wf_range : forall j, 0 <= j < lh_n l -> 0 <= lh_nth l j < 2 ^ 31;
  wf_out : forall j, 0 <= j < lh_n l -> ~ (start l <= lh_nth l j < start l + log_size l);
  wf_inj : forall i j, 0 <= i < lh_n l -> 0 <= j < lh_n l -> lh_nth l i = lh_nth l j -> i = j;
}.

(** No process is inside the transaction's blocks or the log area: the state in
    which [end_op] calls [commit]. *)
Record log_quiet (l : log) (a : astate) : Prop := {
  q_hdr : a_held a !! hdr_key l = None;
  q_log : forall j, 0 <= j < lh_n l -> a_held a !! log_key l j = None;
  q_home : forall j, 0 <= j < lh_n l -> a_held a !! home_key l j = None;
  q_refs : forall k, refs a k + 1 < 2 ^ 32;
  q_room : (size (a_ref a) < Z.to_nat NBUF)%nat;
  q_pin : forall j, 0 <= j < lh_n l -> is_Some (a_ref a !! home_key l j);
}.

(** The blocks a transaction writes home. *)
Definition tx_blocks (l : log) : list Z := lh_nth l <$> zseq 0 (Z.to_nat (lh_n l)).

(** The disk with the transaction's blocks taken from the cache. *)
Definition after_tx (l : log) (D V : Z * Z -> block) (k : Z * Z) : block :=
  if decide (k.1 = ldev /\ k.2 ∈ tx_blocks l) then V k else D k.

(** The writes of [write_log], [install_trans] and of the whole of [commit]. *)
Definition log_ws (l : log) (V : Z * Z -> block) (tail : Z) (n : nat) : list (Z * Z * block) :=
  (fun j => (log_key l j, V (home_key l j))) <$> zseq tail n.
Definition install_ws (l : log) (V : Z * Z -> block) (tail : Z) (n : nat) : list (Z * Z * block) :=
  (fun j => (home_key l j, V (log_key l j))) <$> zseq tail n.
Definition home_ws (l : log) (V : Z * Z -> block) : list (Z * Z * block) :=
  (fun j => (home_key l j, V (home_key l j))) <$> zseq 0 (Z.to_nat (lh_n l)).

(** [l] with [lh.n = 0] *)
Definition cleared (l : log) : log := l <| lh_n := 0 |>.

Definition commit_ws (l : log) (V : Z * Z -> block) : list (Z * Z * block) :=
  let h := write_header l (V (hdr_key l)) in
  log_ws l V 0 (Z.to_nat (lh_n l)) ++ (hdr_key l, h) :: home_ws l V ++
  [(hdr_key l, write_header (cleared l) h)].

(** ** The keys are distinct *)

Section Keys.

Context (l : log).
Hypothesis wf : log_wf l.

Lemma log_home_ne i j : 0 <= i < lh_n l -> 0 <= j < lh_n l -> log_key l i <> home_key l j.
Proof.
  intros Hi Hj [= E]. destruct wf. specialize (wf_out0 j Hj). specialize (wf_range0 j Hj).
  rewrite !u32_small in E by (zpow; lia). lia.
Qed.

Lemma hdr_home_ne j : 0 <= j < lh_n l -> hdr_key l <> home_key l j.
Proof.
  intros Hj [= E]. destruct wf. specialize (wf_out0 j Hj). specialize (wf_range0 j Hj).
  rewrite !u32_small in E by (zpow; lia). lia.
Qed.

Lemma hdr_log_ne j : 0 <= j < lh_n l -> hdr_key l <> log_key l j.
Proof. intros Hj [= E]. destruct wf. rewrite !u32_small in E by (zpow; lia). lia. Qed.

Lemma log_key_inj i j : 0 <= i < lh_n l -> 0 <= j < lh_n l -> log_key l i = log_key l j -> i = j.
Proof. intros Hi Hj [= E]. destruct wf. rewrite !u32_small in E by (zpow; lia). lia. Qed.

Lemma home_key_inj i j : 0 <= i < lh_n l -> 0 <= j < lh_n l -> home_key l i = home_key l j -> i = j.
Proof.
  intros Hi Hj [= E]. destruct wf. pose proof (wf_range0 i Hi). pose proof (wf_range0 j Hj).
  rewrite !u32_small in E by (zpow; lia). auto.
Qed.

Lemma outside_log j : 0 <= j < lh_n l -> ~ outside (start l) (log_size l) (log_key l j).
Proof.
  intros Hj H. destruct wf. apply (H eq_refl). cbn. rewrite u32_small by (zpow; lia). lia.
Qed.

Lemma outside_hdr : ~ outside (start l) (log_size l) (hdr_key l).
Proof. intros H. destruct wf. apply (H eq_refl). cbn. rewrite u32_small by (zpow; lia). lia. Qed.

Lemma home_tx j : 0 <= j < lh_n l -> (home_key l j).1 = ldev /\ (home_key l j).2 ∈ tx_blocks l.
Proof.
  intros Hj. split; [done|]. cbn. destruct wf. rewrite u32_small by (specialize (wf_range0 j Hj); zpow; lia).
  apply elem_of_fmap_zseq. exists j. split; [done|lia].
Qed.

Lemma tx_home k : k.1 = ldev /\ k.2 ∈ tx_blocks l -> exists j, 0 <= j < lh_n l /\ k = home_key l j.
Proof.
  destruct k as [d b]. cbn. intros [-> Hb]. apply elem_of_fmap_zseq in Hb as (j & -> & Hj). exists j. split; [lia|]. unfold home_key. destruct wf.
  rewrite u32_small; [done|]. specialize (wf_range0 j). zpow. lia.
Qed.

End Keys.

(** ** The loops *)

(** One pass of [write_log] or [install_trans] leaves the counts alone, or drops
    a pin. *)
Lemma unref_size (m : gmap (Z * Z) Z) k r : is_Some (m !! k) -> (size (unref m k r) <= size m)%nat.
Proof.
  intros [x Hx]. unfold unref. case_decide.
  - rewrite map_size_delete, Hx. cbn. lia.
  - rewrite map_size_insert, Hx. cbn. lia.
Qed.

Lemma refs_unref s l a me W k k' :
  lrep s l a me W -> refs (a <| a_ref := unref (a_ref a) k (refs a k) |>) k' <= refs a k'.
Proof.
  intros R. unfold refs at 1. cbn. unfold unref. destruct (decide (k' = k)) as [->|].
  - pose proof (lrep_refs _ _ _ _ _ k R). case_decide.
    + by rewrite lookup_delete_eq.
    + rewrite lookup_insert_eq. cbn. lia.
  - case_decide; [rewrite lookup_delete_ne by done|rewrite lookup_insert_ne by done]; done.
Qed.

Definition unpin_all (m : gmap (Z * Z) Z) (ks : list (Z * Z)) : gmap (Z * Z) Z :=
  fold_left (fun m k => unref m k (default 0 (m !! k))) ks m.

Lemma unpin_all_other m ks k : (k ∉ ks) -> unpin_all m ks !! k = m !! k.
Proof.
  revert m. induction ks as [|k' ks IH]; intros m Hk; cbn; [done|]. list_simpl.
  etrans; [by apply IH|]. by apply unref_lookup_ne.
Qed.

Lemma unpin_all_size m ks :
  NoDup ks -> (forall k, k ∈ ks -> is_Some (m !! k)) -> (size (unpin_all m ks) <= size m)%nat.
Proof.
  revert m. induction ks as [|k' ks IH]; intros m Hd Hk; cbn; [done|]. list_simpl.
  etrans; [apply IH; [done|]|].
  - intros k Hin. rewrite unref_lookup_ne by (intros ->; done). apply Hk. by right.
  - apply unref_size, Hk. by left.
Qed.

Definition leak_all (m : gmap (Z * Z) Z) (ks : list (Z * Z)) : gmap (Z * Z) Z :=
  fold_left (fun m k => <[k := 2 ^ 32 - 1]> m) ks m.

Lemma write_log_loop l n : log_wf l -> forall tail s a me W,
  lrep s l a me W -> 0 <= tail -> tail + Z.of_nat n <= lh_n l -> log_quiet l a ->
  wp (tail_loop (log_block ldev) n tail) (fun _ s' =>
    lrep s' l (aputs a (log_ws l (a_view a) tail n)) me (W ++ log_ws l (a_view a) tail n)) s.
Proof.
  intros wf. induction n as [|n IH]; intros tail s a me W R H0 Hn Q.
  { apply wp_ret. cbn. rewrite app_nil_r. by destruct a. }
  cbn [tail_loop]. pose proof Q as [Q1 Q2 Q3 Q4 Q5 Q6].
  eapply wp_seq; [apply (log_block_spec _ _ _ _ _ _ _ _ _ eq_refl eq_refl R); auto with lia|].
  { apply log_home_ne; auto; lia. }
  { apply Q2. lia. }
  { apply Q3. lia. }
  { apply Q6. lia. }
  intros [] s1 R1. cbv beta in R1. eapply wp_mono; [apply (IH (tail + 1) _ _ _ _ R1); [lia..|]|].
  { split; auto. }
  intros [] s2 R2. cbv beta in R2.
  assert (E : log_ws l (a_view (aput a (log_key l tail) (a_view a (home_key l tail)))) (tail + 1) n =
              log_ws l (a_view a) (tail + 1) n).
  { apply fmap_zseq_ext. intros j Hj. f_equal. cbn.
    apply fupdate_other. apply not_eq_sym, log_home_ne; auto; lia. }
  fold (log_key l tail) (home_key l tail) in R2. rewrite E in R2. rewrite <- app_assoc in R2. exact R2.
Qed.

Lemma install_loop l n : log_wf l -> forall tail s a me W,
  lrep s l a me W -> 0 <= tail -> tail + Z.of_nat n <= lh_n l ->
  (forall j, tail <= j < tail + Z.of_nat n ->
     a_held a !! log_key l j = None /\ a_held a !! home_key l j = None /\
     is_Some (a_ref a !! home_key l j) /\ a_view a (log_key l j) = a_disk a (log_key l j)) ->
  (forall k, refs a k + 1 < 2 ^ 32) -> (size (a_ref a) < Z.to_nat NBUF)%nat ->
  wp (tail_loop (install_block ldev) n tail) (fun _ s' =>
    let ws := install_ws l (a_view a) tail n in
    lrep s' l ((aputs a ws) <| a_ref := unpin_all (a_ref a) ws.*1 |>) me (W ++ ws)) s.
Proof.
  intros wf. induction n as [|n IH]; intros tail s a me W R H0 Hn Hj Hc Hs.
  { apply wp_ret. cbn. rewrite app_nil_r. by destruct a. }
  cbn [tail_loop]. destruct (Hj tail) as (J1 & J2 & J3 & J4); [lia|].
  eapply wp_seq; [apply (install_block_spec _ _ _ _ _ _ _ _ _ eq_refl eq_refl R); auto|].
  { apply log_home_ne; auto; lia. }
  fold (log_key l tail) (home_key l tail). set (d := a_view a (log_key l tail)).
  intros [] s1 R1. cbv beta in R1. eapply wp_mono; [apply (IH (tail + 1) _ _ _ _ R1); [lia..| | |]|].
  - intros j Hr. destruct (Hj j) as (K1 & K2 & K3 & K4); [lia|]. cbn.
    rewrite unref_lookup_ne by (intros E; apply home_key_inj in E; auto; lia).
    rewrite !fupdate_other by (apply log_home_ne; auto; lia). auto.
  - intros k. pose proof (refs_unref _ _ _ _ _ (home_key l tail) k R). specialize (Hc k).
    unfold refs in *. cbn in *. lia.
  - cbn. pose proof (unref_size _ _ (refs a (home_key l tail)) J3). lia.
  - intros [] s2 R2. cbv beta in R2. cbn zeta.
    assert (E : install_ws l (a_view (aput a (home_key l tail) d)) (tail + 1) n =
                install_ws l (a_view a) (tail + 1) n).
    { apply fmap_zseq_ext. intros j Hr. f_equal. cbn.
      apply fupdate_other, log_home_ne; auto; lia. }
    cbn zeta in R2. cbn [a_view aput field_update] in R2, E. unfold field_update in R2, E. cbn in R2, E.
    rewrite E, <- app_assoc in R2. exact R2.
Qed.

Lemma recover_loop l n : log_wf l -> forall tail s a me W,
  lrep s l a me W -> 0 <= tail -> tail + Z.of_nat n <= lh_n l ->
  (forall j, tail <= j < tail + Z.of_nat n ->
     a_ref a !! home_key l j = None /\ a_ref a !! log_key l j = None /\
     a_view a (log_key l j) = a_disk a (log_key l j)) ->
  a_held a = ∅ -> (size (a_ref a) + n < Z.to_nat NBUF)%nat ->
  wp (tail_loop (install_block ldev) n tail) (fun _ s' =>
    let ws := install_ws l (a_view a) tail n in
    lrep s' l ((aputs a ws) <| a_ref := leak_all (a_ref a) ws.*1 |>) me (W ++ ws)) s.
Proof.
  intros wf. induction n as [|n IH]; intros tail s a me W R H0 Hn Hj Hh Hs.
  { apply wp_ret. cbn. rewrite app_nil_r. by destruct a. }
  cbn [tail_loop]. destruct (Hj tail) as (J1 & J2 & J4); [lia|].
  eapply wp_seq; [apply (recover_block_spec _ _ _ _ _ _ _ _ _ eq_refl eq_refl R); auto|].
  { apply log_home_ne; auto; lia. }
  { by rewrite Hh. }
  { by rewrite Hh. }
  { fold (log_key l tail). unfold refs. rewrite J2. done. }
  { fold (home_key l tail). unfold refs. rewrite J1. done. }
  { right. lia. }
  { lia. }
  fold (log_key l tail) (home_key l tail). set (d := a_view a (log_key l tail)).
  intros [] s1 R1. cbv beta in R1. eapply wp_mono; [apply (IH (tail + 1) _ _ _ _ R1); [lia..| |done|]|].
  - intros j Hr. destruct (Hj j) as (K1 & K2 & K4); [lia|]. cbn.
    rewrite !lookup_insert_ne, !fupdate_other; auto; try (apply log_home_ne; auto; lia).
    + intros E. symmetry in E. apply log_home_ne in E; auto; lia.
    + intros E. apply home_key_inj in E; auto; lia.
  - cbn. rewrite map_size_insert, J1. cbn. lia.
  - intros [] s2 R2. cbv beta in R2. cbn zeta.
    assert (E : install_ws l (a_view (aput a (home_key l tail) d)) (tail + 1) n =
                install_ws l (a_view a) (tail + 1) n).
    { apply fmap_zseq_ext. intros j Hr. f_equal. cbn.
      apply fupdate_other, log_home_ne; auto; lia. }
    cbn zeta in R2. unfold aput, field_update in R2, E. cbn in R2, E.
    rewrite E, <- app_assoc in R2. exact R2.
Qed.

(** ** [commit] *)

Lemma log_ws_hdr l V n f : log_wf l -> Z.of_nat n <= lh_n l ->
  apply_writes f (log_ws l V 0 n) (hdr_key l) = f (hdr_key l).
Proof.
  intros wf Hn. apply apply_writes_notin. intros w Hw.
  apply elem_of_fmap_zseq in Hw as (j & -> & Hj).
  apply not_eq_sym, hdr_log_ne; auto; lia.
Qed.

Lemma log_ws_log l V j f : log_wf l -> 0 <= j < lh_n l ->
  apply_writes f (log_ws l V 0 (Z.to_nat (lh_n l))) (log_key l j) = V (home_key l j).
Proof.
  intros wf Hj. apply apply_writes_in.
  - exists (log_key l j, V (home_key l j)). split; [|done].
    apply elem_of_fmap_zseq. exists j. split; [done|lia].
  - intros w Hw. apply elem_of_fmap_zseq in Hw as (i & -> & Hi). intros E. cbn in *.
    apply log_key_inj in E; auto; try lia. by subst.
Qed.

Lemma install_home_ws l V V' :
  (forall j, 0 <= j < lh_n l -> V (log_key l j) = V' (home_key l j)) ->
  install_ws l V 0 (Z.to_nat (lh_n l)) = home_ws l V'.
Proof.
  intros H. apply fmap_zseq_ext. intros j Hj. f_equal. apply H. lia.
Qed.

Lemma home_ws_notin l V f k : (forall j, 0 <= j < lh_n l -> home_key l j <> k) ->
  apply_writes f (home_ws l V) k = f k.
Proof.
  intros H. apply apply_writes_notin. intros w Hw.
  apply elem_of_fmap_zseq in Hw as (j & -> & Hj).
  apply H. lia.
Qed.

Lemma home_ws_in l V f j : log_wf l -> 0 <= j < lh_n l ->
  apply_writes f (home_ws l V) (home_key l j) = V (home_key l j).
Proof.
  intros wf Hj. apply apply_writes_in.
  - exists (home_key l j, V (home_key l j)). split; [|done].
    apply elem_of_fmap_zseq. exists j. split; [done|lia].
  - intros w Hw. apply elem_of_fmap_zseq in Hw as (i & -> & Hi). by intros <-.
Qed.

(** Installing the transaction gives [after_tx], whatever part of it was there. *)
Lemma home_ws_after l D D' V k :
  log_wf l -> ((forall j, 0 <= j < lh_n l -> home_key l j <> k) -> D' k = D k) ->
  apply_writes D' (home_ws l V) k = after_tx l D V k.
Proof.
  intros wf HD. unfold after_tx. case_decide as Hk.
  - destruct (tx_home l wf k Hk) as (j & Hj & ->). by apply home_ws_in.
  - assert (Hne : forall j, 0 <= j < lh_n l -> home_key l j <> k)
      by (intros j Hj <-; apply Hk; by apply home_tx).
    rewrite home_ws_notin by done. auto.
Qed.

Lemma home_ws_keys l V : (home_ws l V).*1 = home_key l <$> zseq 0 (Z.to_nat (lh_n l)).
Proof. unfold home_ws. by rewrite <- list_fmap_compose. Qed.

Lemma home_keys_nodup l V : log_wf l -> NoDup (home_ws l V).*1.
Proof.
  intros wf. rewrite home_ws_keys. apply NoDup_fmap_zseq. intros i j Hi Hj. apply home_key_inj; auto; lia.
Qed.

Lemma commit_spec l s a me W :
  log_wf l -> lrep s l a me W -> log_quiet l a -> 0 < lh_n l ->
  wp (commit ldev) (fun _ s' =>
    lrep s' (cleared l)
      ((aputs a (commit_ws l (a_view a)))
         <| a_ref := unpin_all (a_ref a) (home_ws l (a_view a)).*1 |>) me
      (W ++ commit_ws l (a_view a))) s.
Proof.
  intros wf R Q Hn. pose proof Q as [Q1 Q2 Q3 Q4 Q5 Q6]. unfold commit. apply wp_gets.
  rewrite (lr_log _ _ _ _ _ R), (proj2 (Z.gtb_lt _ _) Hn).
  assert (Hnn : 0 + Z.of_nat (Z.to_nat (lh_n l)) <= lh_n l) by lia.
  unfold write_log, install_trans. apply wp_bind, wp_gets. rewrite (lr_log _ _ _ _ _ R).
  eapply wp_mono; [apply (write_log_loop l _ wf 0 _ _ _ _ R); auto; lia|].
  intros [] s1 R1. cbv beta in R1.
  set (h := write_header l (a_view a (hdr_key l))).
  eapply wp_seq; [apply (write_head_spec _ _ _ _ _ _ _ h R1 eq_refl);
    [|exact Q1|apply Q4|right; exact Q5]|].
  { subst h. cbn. fold (hdr_key l). by rewrite log_ws_hdr by (auto; lia). }
  fold (hdr_key l). intros [] s2 R2. cbv beta in R2.
  apply wp_bind, wp_gets. rewrite (lr_log _ _ _ _ _ R2).
  eapply wp_mono; [apply (install_loop l _ wf 0 _ _ _ _ R2); auto; [lia|]|].
  { intros j Hj. cbn. rewrite !fupdate_other by (apply not_eq_sym, hdr_log_ne; auto; lia).
    rewrite !log_ws_log by (auto; lia). split_and!; auto with lia. }
  cbn zeta. rewrite (install_home_ws l _ (a_view a)).
  2:{ intros j Hj. cbn. rewrite fupdate_other by (apply not_eq_sym, hdr_log_ne; auto; lia).
      by apply log_ws_log. }
  intros [] s3 R3. apply (wp_set_log _ _ _ _ _ _ _ _ R3). intros s4 R4. fold (cleared l) in R4.
  unfold aputs, aput, field_update in R4. cbn in R4.
  eapply wp_mono; [apply (write_head_spec _ _ _ _ _ _ _ (write_header (cleared l) h) R4 eq_refl); cbn|].
  { fold (hdr_key l). rewrite home_ws_notin by (intros; apply not_eq_sym, hdr_home_ne; auto).
    by rewrite fupdate_same. }
  { apply Q1. }
  { unfold refs. cbn. rewrite unpin_all_other; [apply (Q4 (hdr_key l))|].
    rewrite home_ws_keys, elem_of_fmap_zseq. intros (j & E & Hj). apply hdr_home_ne in E; auto; lia. }
  { right. eapply Nat.le_lt_trans; [apply unpin_all_size|exact Q5].
    - by apply home_keys_nodup.
    - intros k. rewrite home_ws_keys, elem_of_fmap_zseq. intros (j & -> & Hj). auto with lia. }
  intros [] s5 R5. cbv beta in R5. unfold commit_ws. fold h.
  unfold aputs, aput, field_update in *. cbn in *. rewrite !apply_writes_app, !apply_writes_cons, !apply_writes_app.
  rewrite <- !app_assoc in R5. exact R5.
Qed.

(** ** Recovery *)

(** [log[dev]] in static storage. *)
Definition boot_log : log := Log false 0 0 0 false 0 0 (replicate (Z.to_nat LOGSIZE) 0).

(** The machine after a reboot: the disk survives, [binit] has run. *)
Definition boot_lst (D : Z * Z -> block) (pid : Z) : lst := Lst boot_log (binit (boot_bst D pid)) 0.

(** The header that [read_head] finds. *)
Definition disk_log (logstart nlog : Z) (D : Z * Z -> block) : log :=
  let h := D (ldev, u32 logstart) in
  Log false logstart nlog 0 false ldev (hdr_n h)
      (read_blocks (Z.to_nat (hdr_n h)) 0 h (replicate (Z.to_nat LOGSIZE) 0)).

Record disk_ok (logstart nlog : Z) (D : Z * Z -> block) : Prop := {
  ok_log : log_wf (disk_log logstart nlog D);
  ok_len : length (D (ldev, u32 logstart)) = Z.to_nat BSIZE;
}.

(** The writes of [initlog]. *)
Definition recover_ws (logstart nlog : Z) (D : Z * Z -> block) : list (Z * Z * block) :=
  let l := disk_log logstart nlog D in
  install_ws l D 0 (Z.to_nat (lh_n l)) ++ [(hdr_key l, write_header (cleared l) (D (hdr_key l)))].

Lemma binit_lrep l D pid : lrep (Lst l (binit (boot_bst D pid)) 0) l (a_boot D) pid [].
Proof. split; [done|reflexivity|reflexivity|]. eexists. apply binit_rep. Qed.

Lemma boot_rep D pid : lrep (boot_lst D pid) boot_log (a_boot D) pid [].
Proof. apply binit_lrep. Qed.

Lemma cleared_wf l : log_wf l -> log_wf (cleared l).
Proof.
  intros []. by split; cbn; try done; intros; lia.
Qed.

Lemma leak_all_other m ks k : (k ∉ ks) -> leak_all m ks !! k = m !! k.
Proof.
  revert m. induction ks as [|k' ks IH]; intros m Hk; cbn; [done|]. list_simpl.
  etrans; [by apply IH|]. by apply lookup_insert_ne.
Qed.

Lemma leak_all_size m ks : (size (leak_all m ks) <= size m + length ks)%nat.
Proof.
  revert m. induction ks as [|k' ks IH]; intros m; cbn; [lia|].
  etrans; [apply IH|]. rewrite map_size_insert. destruct (m !! k'); cbn; lia.
Qed.

Lemma install_ws_keys l V : (install_ws l V 0 (Z.to_nat (lh_n l))).*1 = home_key l <$> zseq 0 (Z.to_nat (lh_n l)).
Proof. unfold install_ws. by rewrite <- list_fmap_compose. Qed.

Lemma install_ws_notin l V f k : (forall j, 0 <= j < lh_n l -> home_key l j <> k) ->
  apply_writes f (install_ws l V 0 (Z.to_nat (lh_n l))) k = f k.
Proof.
  intros H. apply apply_writes_notin. intros w Hw.
  apply elem_of_fmap_zseq in Hw as (j & -> & Hj). apply H. lia.
Qed.

Lemma initlog_spec logstart nlog D pid :
  disk_ok logstart nlog D ->
  let l := disk_log logstart nlog D in
  wp (initlog ldev logstart nlog) (fun _ s' =>
    lrep s' (cleared l)
      ((aputs (a_boot D) (recover_ws logstart nlog D))
         <| a_ref := leak_all ∅ (home_key l <$> zseq 0 (Z.to_nat (lh_n l))) |>) pid
      (recover_ws logstart nlog D)) (boot_lst D pid).
Proof.
  intros [wf Hlen] l. pose proof wf as [W1 W2 W3 W4 W5 W6 W7 W8]. fold l in wf, W1, W2, W3, W6, W7, W8.
  unfold initlog. cbn [Z.geb Z.compare]. change (4 + 4 * LOGSIZE >=? BSIZE) with false. cbv iota.
  pose proof (boot_rep D pid) as R0. do 4 (eapply wp_set_log; [exact R0|]; clear R0; intros ? R0).
  unfold recover_from_log.
  eapply wp_seq; [apply (read_head_spec _ _ _ _ _ _ _ R0 eq_refl); cbn; try done; right; cbn; rewrite map_size_empty; unfold NBUF, MAXOPBLOCKS; lia|].
  cbn zeta. cbn [a_view a_boot]. intros [] s1 R1.
  change (lrep s1 l (a_boot D) pid []) in R1.
  unfold install_trans. apply wp_bind, wp_gets. rewrite (lr_log _ _ _ _ _ R1).
  eapply wp_mono; [apply (recover_loop l _ wf 0 _ _ _ _ R1); auto|].
  1,2: lia.
  { cbn [a_boot a_ref]. rewrite map_size_empty. lia. }
  cbn zeta. rewrite install_ws_keys. intros [] s2 R2.
  eapply wp_set_log; [exact R2|]. intros s3 R3. fold (cleared l) in R3.
  unfold aputs, field_update in R3. cbn [a_view a_disk a_boot a_ref a_held app] in R3.
  eapply wp_mono; [apply (write_head_spec _ _ _ _ _ _ _ _ R3 eq_refl eq_refl); cbn [a_held a_ref]|].
  { done. }
  { unfold refs. cbn [a_ref]. rewrite leak_all_other; [done|].
    rewrite elem_of_fmap_zseq. intros (j & E & Hj). apply (hdr_home_ne l wf) in E; auto; lia. }
  { right. eapply Nat.le_lt_trans; [apply leak_all_size|]. rewrite map_size_empty, length_fmap, length_zseq. lia. }
  cbn [a_view]. intros [] s4 R4. cbv beta in R4.
  assert (E : apply_writes D (install_ws l D 0 (Z.to_nat (lh_n l))) (hdr_key l) = D (hdr_key l))
    by (apply install_ws_notin; intros; apply not_eq_sym, hdr_home_ne; auto).
  change (ldev, u32 (start (cleared l))) with (hdr_key l) in R4. rewrite E in R4.
  unfold recover_ws. fold l. unfold aputs, aput, field_update in *.
  cbn [a_view a_disk a_boot a_ref a_held app] in *. rewrite !apply_writes_app. exact R4.
Qed.

Lemma lrep_disk s l a me W k : lrep s l a me W -> disk (bc s) k = a_disk a k.
Proof. intros [_ _ _ [xs Hx]]. apply Hx. Qed.

Lemma initlog_disk logstart nlog D pid :
  disk_ok logstart nlog D ->
  exists s', initlog ldev logstart nlog (boot_lst D pid) = Ok tt s' /\
    writes (bc s') = recover_ws logstart nlog D /\
    forall k, disk (bc s') k = apply_writes D (recover_ws logstart nlog D) k.
Proof.
  intros Hok. pose proof (initlog_spec _ _ _ pid Hok) as H. cbn zeta in H.
  apply wp_Ok in H as ([] & s' & E & R). exists s'. split_and!; [done|apply R|].
  intros k. by rewrite (lrep_disk _ _ _ _ _ k R).
Qed.

(** A header with no blocks. *)
Lemma disk_ok_empty l D :
  log_wf l -> hdr_n (D (hdr_key l)) = 0 -> length (D (hdr_key l)) = Z.to_nat BSIZE ->
  disk_ok (start l) (log_size l) D.
Proof.
  intros [] Hn Hl. split; [|done]. fold (hdr_key l) in *.
  assert (E : lh_n (disk_log (start l) (log_size l) D) = 0) by done.
  split; rewrite ?E; cbn; done || (intros; lia).
Qed.

Lemma recover_empty l D k :
  log_wf l -> hdr_n (D (hdr_key l)) = 0 -> k <> hdr_key l ->
  apply_writes D (recover_ws (start l) (log_size l) D) k = D k.
Proof.
  intros wf Hn Hk. unfold recover_ws.
  assert (E : lh_n (disk_log (start l) (log_size l) D) = 0) by done. rewrite E. cbn.
  by apply fupdate_other.
Qed.

(** The header of the transaction [l]. *)
Lemma disk_log_tx l D :
  log_wf l -> length (D (hdr_key l)) = Z.to_nat BSIZE -> hdr_n (D (hdr_key l)) = lh_n l ->
  (forall j, 0 <= j < lh_n l -> hdr_block (D (hdr_key l)) j = lh_nth l j) ->
  forall j, 0 <= j < lh_n l -> lh_nth (disk_log (start l) (log_size l) D) j = lh_nth l j.
Proof.
  intros [] Hl Hn Hb j Hj. unfold lh_nth at 1. cbn. fold (hdr_key l). rewrite Hn.
  rewrite read_blocks_lookup by (rewrite ?length_replicate; unfold LOGSIZE, NBUF, MAXOPBLOCKS in *; lia).
  rewrite decide_True by lia. cbn. auto.
Qed.

Lemma disk_ok_tx l D :
  log_wf l -> length (D (hdr_key l)) = Z.to_nat BSIZE -> hdr_n (D (hdr_key l)) = lh_n l ->
  (forall j, 0 <= j < lh_n l -> hdr_block (D (hdr_key l)) j = lh_nth l j) ->
  disk_ok (start l) (log_size l) D.
Proof.
  intros wf Hl Hn Hb. split; [|done]. pose proof (disk_log_tx l D wf Hl Hn Hb) as Hj.
  assert (E : lh_n (disk_log (start l) (log_size l) D) = lh_n l) by done.
  destruct wf. split; rewrite ?E; auto.
  - intros j Hr. rewrite Hj by done. auto.
  - intros j Hr. rewrite Hj by done. auto.
  - intros i j Hi Hr. rewrite !Hj by done. auto.
Qed.

Lemma recover_ws_tx l D V :
  log_wf l -> length (D (hdr_key l)) = Z.to_nat BSIZE -> hdr_n (D (hdr_key l)) = lh_n l ->
  (forall j, 0 <= j < lh_n l -> hdr_block (D (hdr_key l)) j = lh_nth l j) ->
  (forall j, 0 <= j < lh_n l -> D (log_key l j) = V (home_key l j)) ->
  exists h, recover_ws (start l) (log_size l) D = home_ws l V ++ [(hdr_key l, h)].
Proof.
  intros wf Hl Hn Hb Hd. pose proof (disk_log_tx l D wf Hl Hn Hb) as Hj. eexists. unfold recover_ws.
  assert (E : lh_n (disk_log (start l) (log_size l) D) = lh_n l) by done. rewrite E.
  f_equal. apply fmap_zseq_ext. intros j Hr. unfold home_key at 1. rewrite Hj by lia.
  f_equal. apply Hd. lia.
Qed.

(** Blocks outside the log area do not see the log writes. *)
Lemma log_ws_outside l D V P k :
  log_wf l -> outside (start l) (log_size l) k -> P `prefix_of` log_ws l V 0 (Z.to_nat (lh_n l)) ->
  apply_writes D P k = D k.
Proof.
  intros wf Ho HP. apply apply_writes_notin. intros w Hw.
  apply (prefix_in _ _ _ HP), elem_of_fmap_zseq in Hw as (j & -> & Hj). intros <-.
  apply (outside_log l wf j); [lia|done].
Qed.

Lemma outside_ne l k : log_wf l -> outside (start l) (log_size l) k -> k <> hdr_key l.
Proof. intros wf Ho ->. by apply (outside_hdr l wf). Qed.

Lemma wf_logsize l : log_wf l -> 0 <= lh_n l <= LOGSIZE.
Proof. intros []. unfold LOGSIZE, NBUF, MAXOPBLOCKS in *. lia. Qed.

(** The disk a crash leaves behind once the header has been written. *)
Section Committed.

Context (l : log) (D V : Z * Z -> block) (h : block) (P : list (Z * Z * block)).
Hypothesis wf : log_wf l.
Hypothesis Hlen : length (V (hdr_key l)) = Z.to_nat BSIZE.
Hypothesis Hh : h = write_header l (V (hdr_key l)).
Hypothesis HP : P `prefix_of` home_ws l V.

Let D' : Z * Z -> block := apply_writes D (log_ws l V 0 (Z.to_nat (lh_n l)) ++ (hdr_key l, h) :: P).

Lemma home_prefix_notin f k :
  (forall j, 0 <= j < lh_n l -> home_key l j <> k) -> apply_writes f P k = f k.
Proof.
  intros H. apply apply_writes_notin. intros w Hw.
  apply (prefix_in _ _ _ HP), elem_of_fmap_zseq in Hw as (j & -> & Hj). apply H. lia.
Qed.

Lemma committed_hdr : D' (hdr_key l) = h.
Proof.
  unfold D'. rewrite apply_writes_app, apply_writes_cons, home_prefix_notin, fupdate_same; [done|].
  intros. apply not_eq_sym, hdr_home_ne; auto.
Qed.

Lemma committed_log j : 0 <= j < lh_n l -> D' (log_key l j) = V (home_key l j).
Proof.
  intros Hj. unfold D'. rewrite apply_writes_app, apply_writes_cons, home_prefix_notin.
  - rewrite fupdate_other by (apply not_eq_sym, hdr_log_ne; auto). by apply log_ws_log.
  - intros i Hi. apply not_eq_sym, log_home_ne; auto.
Qed.

Lemma committed_other k : outside (start l) (log_size l) k ->
  (forall j, 0 <= j < lh_n l -> home_key l j <> k) -> D' k = D k.
Proof.
  intros Ho Hk. unfold D'. rewrite apply_writes_app, apply_writes_cons, home_prefix_notin by done.
  rewrite fupdate_other by (by apply outside_ne). by apply (log_ws_outside l _ V).
Qed.

Lemma committed_recover : disk_ok (start l) (log_size l) D' /\
  forall k, outside (start l) (log_size l) k ->
    apply_writes D' (recover_ws (start l) (log_size l) D') k = after_tx l D V k.
Proof.
  pose proof (wf_logsize l wf) as Hn.
  assert (H1 : length (D' (hdr_key l)) = Z.to_nat BSIZE)
    by (rewrite committed_hdr, Hh; by apply write_header_length).
  assert (H2 : hdr_n (D' (hdr_key l)) = lh_n l) by (rewrite committed_hdr, Hh; by apply write_header_n).
  assert (H3 : forall j, 0 <= j < lh_n l -> hdr_block (D' (hdr_key l)) j = lh_nth l j).
  { intros j Hj. rewrite committed_hdr, Hh. apply write_header_block; auto.
    pose proof (wf_range _ wf j Hj). zpow. lia. }
  split; [by apply disk_ok_tx|]. intros k Ho.
  destruct (recover_ws_tx l D' V wf H1 H2 H3 committed_log) as [h' ->].
  rewrite apply_writes_app. etrans; [apply fupdate_other; by apply outside_ne|].
  apply home_ws_after; [done|]. intros. by apply committed_other.
Qed.

End Committed.

(** Recovery of a disk without a committed transaction. *)
Lemma empty_recover l D pid :
  log_wf l -> hdr_n (D (hdr_key l)) = 0 -> length (D (hdr_key l)) = Z.to_nat BSIZE ->
  exists s', initlog ldev (start l) (log_size l) (boot_lst D pid) = Ok tt s' /\
    forall k, outside (start l) (log_size l) k -> disk (bc s') k = D k.
Proof.
  intros wf H0 Hl. destruct (initlog_disk _ _ _ pid (disk_ok_empty l D wf H0 Hl)) as (s' & E & _ & Hd).
  exists s'. split; [done|]. intros k Ho. rewrite Hd. apply recover_empty; auto. by apply outside_ne.
Qed.

Lemma log_prefix_hdr l D V P :
  log_wf l -> P `prefix_of` log_ws l V 0 (Z.to_nat (lh_n l)) -> apply_writes D P (hdr_key l) = D (hdr_key l).
Proof.
  intros wf HP. apply apply_writes_notin. intros w Hw.
  apply (prefix_in _ _ _ HP), elem_of_fmap_zseq in Hw as (j & -> & Hj).
  apply not_eq_sym, hdr_log_ne; auto; lia.
Qed.

(** Every prefix of [commit]'s writes stops before the header is written, after
    it, or after the header is erased. *)
Lemma commit_prefix l V P :
  P `prefix_of` commit_ws l V ->
  let h := write_header l (V (hdr_key l)) in
  P `prefix_of` log_ws l V 0 (Z.to_nat (lh_n l)) \/
  (exists P', P = log_ws l V 0 (Z.to_nat (lh_n l)) ++ (hdr_key l, h) :: P' /\ P' `prefix_of` home_ws l V) \/
  P = commit_ws l V.
Proof.
  intros HP h. apply prefix_app_cases in HP as [HP|(P1 & -> & HP)]; [by left|].
  destruct P1 as [|w P1]; [left; by rewrite app_nil_r|right].
  pose proof (prefix_cons_inv_1 _ _ _ _ HP) as ->. apply prefix_cons_inv_2 in HP.
  apply prefix_app_cases in HP as [HP|(P2 & -> & HP)]; [left; eauto|].
  destruct P2 as [|w P2]; [left; exists (home_ws l V); by rewrite app_nil_r|right].
  pose proof (prefix_cons_inv_1 _ _ _ _ HP) as ->. apply prefix_cons_inv_2, prefix_nil_inv in HP as ->.
  done.
Qed.

Lemma commit_ws_end l D V :
  log_wf l -> length (V (hdr_key l)) = Z.to_nat BSIZE ->
  let D' := apply_writes D (commit_ws l V) in
  hdr_n (D' (hdr_key l)) = 0 /\ length (D' (hdr_key l)) = Z.to_nat BSIZE /\
  forall k, outside (start l) (log_size l) k -> D' k = after_tx l D V k.
Proof.
  intros wf Hl D'. pose proof (wf_logsize l wf) as Hn.
  assert (Eh : D' (hdr_key l) = write_header (cleared l) (write_header l (V (hdr_key l)))).
  { unfold D', commit_ws. rewrite apply_writes_app, apply_writes_cons, apply_writes_app. apply fupdate_same. }
  assert (Hc : 0 <= lh_n (cleared l) <= LOGSIZE) by done.
  rewrite Eh. split_and!.
  { rewrite write_header_n; auto using write_header_length. }
  { apply write_header_length; auto using write_header_length. }
  intros k Ho. unfold D', commit_ws. rewrite apply_writes_app, apply_writes_cons, apply_writes_app.
  etrans; [apply fupdate_other; by apply outside_ne|].
  apply home_ws_after; [done|]. intros _. rewrite fupdate_other by (by apply outside_ne).
  by apply (log_ws_outside l _ V).
Qed.

(** What is written last does not depend on what was there. *)
Lemma apply_writes_over f g ws k :
  ((forall w, w ∈ ws -> w.1 <> k) -> f k = g k) -> apply_writes f ws k = apply_writes g ws k.
Proof.
  revert f g. induction ws as [|[k' d] ws IH]; intros f g H; cbn.
  { apply H. intros w Hw. by apply elem_of_nil in Hw. }
  apply IH. intros Hn. destruct (decide (k = k')) as [->|Hk]; [by rewrite !fupdate_same|].
  rewrite !fupdate_other by done. apply H. intros w Hw. apply elem_of_cons in Hw as [->|?]; cbn; auto.
Qed.

Lemma leak_all_in m ks k : k ∈ ks -> leak_all m ks !! k = Some (2 ^ 32 - 1).
Proof.
  revert m. induction ks as [|k' ks IH]; intros m Hk; cbn; [by apply elem_of_nil in Hk|].
  destruct (decide (k ∈ ks)) as [Hin|Hin]; [by apply IH|].
  etrans; [by apply leak_all_other|]. apply elem_of_cons in Hk as [->|?]; [|done].
  apply lookup_insert_eq.
Qed.

Lemma unpin_all_in m ks k :
  NoDup ks -> k ∈ ks -> unpin_all m ks !! k = unref m k (default 0 (m !! k)) !! k.
Proof.
  revert m. induction ks as [|k' ks IH]; intros m Hd Hk; cbn; [by apply elem_of_nil in Hk|].
  apply NoDup_cons in Hd as [Hn Hd]. apply elem_of_cons in Hk as [->|Hk].
  - by apply unpin_all_other.
  - etrans; [by apply IH|]. assert (k' <> k) by congruence.
    rewrite (unref_lookup_ne m k' _ k) by done. unfold unref. case_decide.
    + by rewrite !lookup_delete_eq.
    + by rewrite !lookup_insert_eq.
Qed.

(** A second recovery starts from the disk the first one left after a prefix of
    its installs. *)
Lemma recover_again logstart nlog D P k :
  let l := disk_log logstart nlog D in
  disk_ok logstart nlog D -> P `prefix_of` install_ws l D 0 (Z.to_nat (lh_n l)) ->
  disk_ok logstart nlog (apply_writes D P) /\
  (outside logstart nlog k ->
   apply_writes (apply_writes D P) (recover_ws logstart nlog (apply_writes D P)) k =
   apply_writes D (recover_ws logstart nlog D) k).
Proof.
  intros l [wf Hlen] HP. fold l in wf. set (D2 := apply_writes D P).
  assert (Hh : forall k, (forall j, 0 <= j < lh_n l -> home_key l j <> k) -> D2 k = D k).
  { intros k' Hk. apply apply_writes_notin. intros w Hw.
    apply (prefix_in _ _ _ HP), elem_of_fmap_zseq in Hw as (j & -> & Hj). apply Hk. lia. }
  assert (Eh : D2 (ldev, u32 logstart) = D (ldev, u32 logstart))
    by (apply Hh; intros; apply not_eq_sym, (hdr_home_ne l); auto).
  assert (El : disk_log logstart nlog D2 = l) by (unfold disk_log, l; by rewrite Eh).
  split; [split; [by rewrite El|by rewrite Eh]|]. intros Ho. unfold recover_ws. rewrite El. fold l.
  assert (Ew : install_ws l D2 0 (Z.to_nat (lh_n l)) = install_ws l D 0 (Z.to_nat (lh_n l))).
  { apply fmap_zseq_ext. intros j Hj. f_equal. apply Hh.
    intros i Hi. apply not_eq_sym, log_home_ne; auto; lia. }
  rewrite Ew, !apply_writes_app. cbn. rewrite !fupdate_other by (by apply (outside_ne l)).
  apply apply_writes_over. intros Hn. apply apply_writes_notin. intros w Hw.
  by apply Hn, (prefix_in _ _ _ HP).
Qed.

(** ** Theorems *)

(** C1: a crash at any point of [commit] is atomic.  [commit] returns, and if the
    machine stops after any prefix of the block writes it issues, the next
    [initlog] returns and leaves every block outside the log area either as it
    was before [commit] or with all of the transaction's blocks installed. *)
Theorem commit_crash_atomic l s a me W :
  log_wf l -> lrep s l a me W -> log_quiet l a -> 0 < lh_n l ->
  a_view a (hdr_key l) = a_disk a (hdr_key l) ->
  length (a_disk a (hdr_key l)) = Z.to_nat BSIZE -> hdr_n (a_disk a (hdr_key l)) = 0 ->
  exists s' ws, commit ldev s = Ok tt s' /\ writes (bc s') = W ++ ws /\
    forall P pid, P `prefix_of` ws ->
    exists s'', initlog ldev (start l) (log_size l) (boot_lst (apply_writes (a_disk a) P) pid) = Ok tt s'' /\
      ((forall k, outside (start l) (log_size l) k -> disk (bc s'') k = a_disk a k) \/
       (forall k, outside (start l) (log_size l) k ->
          disk (bc s'') k = after_tx l (a_disk a) (a_view a) k)).
Proof.
  intros wf R Q Hn Hv Hlen H0. set (D := a_disk a) in *. set (V := a_view a) in *.
  pose proof (commit_spec l s a me W wf R Q Hn) as Hc. apply wp_Ok in Hc as ([] & s' & E & R').
  exists s', (commit_ws l V). split_and!; [done|apply R'|]. intros P pid HP.
  assert (HlV : length (V (hdr_key l)) = Z.to_nat BSIZE) by by rewrite Hv.
  apply commit_prefix in HP as [HP|[(P' & -> & HP)| ->]].
  - destruct (empty_recover l (apply_writes D P) pid wf) as (s'' & E' & Hd);
      [by rewrite (log_prefix_hdr l D V P)..|].
    exists s''. split; [done|left]. intros k Ho. rewrite Hd by done. by apply (log_ws_outside l D V).
  - destruct (committed_recover l D V _ P' wf HlV eq_refl HP) as [Hok Hd].
    destruct (initlog_disk _ _ _ pid Hok) as (s'' & E' & _ & Hd').
    exists s''. split; [done|right]. intros k Ho. rewrite Hd'. by apply Hd.
  - destruct (commit_ws_end l D V wf HlV) as (K1 & K2 & K3).
    destruct (empty_recover l _ pid wf K1 K2) as (s'' & E' & Hd).
    exists s''. split; [done|right]. intros k Ho. rewrite Hd by done. by apply K3.
Qed.

(** When [commit] returns the transaction is durable and the log is free
    again: the disk outside the log area has all the transaction's blocks, the
    on-disk header is erased, readers see what they saw before, every
    transaction block has lost the pin [log_write] gave it and every other
    block's references are as before. *)
Theorem commit_durable l s a me W :
  log_wf l -> lrep s l a me W -> log_quiet l a -> 0 < lh_n l ->
  length (a_view a (hdr_key l)) = Z.to_nat BSIZE ->
  exists s' a' W', commit ldev s = Ok tt s' /\ lrep s' (cleared l) a' me W' /\
    hdr_n (disk (bc s') (hdr_key l)) = 0 /\ a_held a' = a_held a /\
    (forall k, outside (start l) (log_size l) k ->
       disk (bc s') k = after_tx l (a_disk a) (a_view a) k /\ a_view a' k = a_view a k) /\
    (forall j, 0 <= j < lh_n l -> refs a' (home_key l j) = refs a (home_key l j) - 1) /\
    (forall k, (k.2 ∉ tx_blocks l) -> refs a' k = refs a k).
Proof.
  intros wf R Q Hn Hlen.
  pose proof (commit_spec l s a me W wf R Q Hn) as Hc. apply wp_Ok in Hc as ([] & s' & E & R').
  set (a' := field_update _ _) in R'. exists s', a'. eexists. split; [done|]. split; [exact R'|].
  destruct (commit_ws_end l (a_disk a) (a_view a) wf Hlen) as (K1 & K2 & K3).
  split; [by rewrite (lrep_disk _ _ _ _ _ _ R')|]. split; [done|]. split_and!.
  - intros k Ho. rewrite (lrep_disk _ _ _ _ _ _ R'). split; [by apply K3|].
    destruct (commit_ws_end l (a_view a) (a_view a) wf Hlen) as (_ & _ & K4).
    etrans; [by apply K4|]. unfold after_tx. by case_decide.
  - intros j Hj. unfold refs at 1. cbn. rewrite home_ws_keys.
    rewrite unpin_all_in; [|rewrite <- (home_ws_keys l (a_view a)); by apply home_keys_nodup|].
    2:{ apply elem_of_fmap_zseq. exists j. split; [done|lia]. }
    fold (refs a (home_key l j)). unfold unref. case_decide as Er.
    + rewrite lookup_delete_eq, Er. done.
    + by rewrite lookup_insert_eq.
  - intros k Hk. unfold refs. cbn. rewrite unpin_all_other; [done|].
    rewrite home_ws_keys, elem_of_fmap_zseq. intros (j & -> & Hj). apply Hk. apply home_tx; auto; lia.
Qed.

(** C37: recovery can itself be interrupted.  If the machine stops after any
    prefix of the writes of [initlog], the next [initlog] leaves every block
    outside the log area as the first one would have. *)
Theorem recovery_idempotent logstart nlog D pid :
  disk_ok logstart nlog D ->
  exists s1, initlog ldev logstart nlog (boot_lst D pid) = Ok tt s1 /\
    forall P, P `prefix_of` writes (bc s1) ->
    exists s2, initlog ldev logstart nlog (boot_lst (apply_writes D P) pid) = Ok tt s2 /\
      forall k, outside logstart nlog k -> disk (bc s2) k = disk (bc s1) k.
Proof.
  intros Hok. destruct (initlog_disk _ _ _ pid Hok) as (s1 & E1 & W1 & D1). exists s1. split; [done|].
  rewrite W1. intros P HP. pose proof Hok as [wf Hlen]. set (l := disk_log logstart nlog D) in *.
  assert (HP' : P `prefix_of` install_ws l D 0 (Z.to_nat (lh_n l)) \/ P = recover_ws logstart nlog D).
  { apply prefix_app_cases in HP as [HP|(P2 & -> & HP)]; [by left|].
    destruct P2 as [|w P2]; [left; by rewrite app_nil_r|right].
    pose proof (prefix_cons_inv_1 _ _ _ _ HP) as ->. by apply prefix_cons_inv_2, prefix_nil_inv in HP as ->. }
  destruct HP' as [HP'| ->].
  - destruct (recover_again _ _ _ P (0, 0) Hok HP') as [Hok2 _].
    destruct (initlog_disk _ _ _ pid Hok2) as (s2 & E2 & _ & H2). exists s2. split; [done|].
    intros k Ho. rewrite H2, D1. by apply (recover_again _ _ _ P k Hok HP').
  - assert (Eh : apply_writes D (recover_ws logstart nlog D) (hdr_key l) =
                 write_header (cleared l) (D (hdr_key l)))
      by (unfold recover_ws; rewrite apply_writes_app; apply fupdate_same).
    destruct (empty_recover l (apply_writes D (recover_ws logstart nlog D)) pid wf) as (s2 & E2 & H2).
    + rewrite Eh, write_header_n; done.
    + rewrite Eh, write_header_length; done.
    + exists s2. split; [done|]. intros k Ho. rewrite D1. by apply H2.
Qed.

(** C38: recovery of a committed transaction unpins blocks no one has pinned.
    When [initlog] returns, the buffer of every block it installed has a
    reference count of [2^32 - 1] although no process uses it, and the next
    [bread] of such a block returns a locked buffer whose count is 0, free to be
    recycled for another block. *)
Theorem recovery_unpin_underflow logstart nlog D pid :
  disk_ok logstart nlog D ->
  exists s1, initlog ldev logstart nlog (boot_lst D pid) = Ok tt s1 /\
    forall j, 0 <= j < hdr_n (D (ldev, u32 logstart)) ->
    let k := home_key (disk_log logstart nlog D) j in
    (exists b, key (bufs (bc s1) b) = k /\ refcnt (bufs (bc s1) b) = 2 ^ 32 - 1) /\
    exists b s2, bread k.1 k.2 (bc s1) = Ok b s2 /\ key (bufs s2 b) = k /\
      locked (b_lock (bufs s2 b)) = true /\ refcnt (bufs s2 b) = 0.
Proof.
  intros Hok. pose proof (initlog_spec _ _ _ pid Hok) as H. cbn zeta in H.
  apply wp_Ok in H as ([] & s1 & E & R). exists s1. split; [done|]. intros j Hj k.
  destruct R as [_ _ _ [xs Hx]]. set (l := disk_log logstart nlog D) in *.
  assert (Hl : leak_all ∅ (home_key l <$> zseq 0 (Z.to_nat (lh_n l))) !! k = Some (2 ^ 32 - 1)).
  { apply leak_all_in, elem_of_fmap_zseq. exists j. split; [done|]. cbn in *. lia. }
  split.
  - destruct (br_ref_inv _ _ _ Hx _ _ Hl) as [_ (b & _ & ? & ?)]. eauto.
  - destruct (bread_wrap _ _ _ k.1 k.2 Hx) as (b & s2 & ? & ? & ? & ?); eauto 10.
Qed.

End Crash.

(** ** A transaction with one block *)

Module Example.

Definition zeros : block := replicate (Z.to_nat BSIZE) 0.
Definition ones : block := replicate (Z.to_nat BSIZE) 1.

(** Block 50 of device 0 is in the log, whose area is blocks 2 to 31. *)
Definition tx_log : log := Log false 2 30 0 true 0 1 (50 :: replicate 29 0).

Definition tx_state : astate :=
  AState {[ (0, 50) := 1 ]} ∅ (fupdate (fun _ => zeros) (0, 50) ones) (fun _ => zeros).

(** The disk with the transaction committed and not yet installed. *)
Definition tx_disk : Z * Z -> block := fun k => if decide (k = (0, 2)) then write_header tx_log zeros else zeros.

Lemma tx_wf : log_wf tx_log.
Proof.
  split; cbn; try done; [intros j Hj..|intros; lia]; assert (j = 0) as -> by lia; change (lh_nth tx_log 0) with 50; zpow; lia.
Qed.

Definition tx_op : M lst unit :=
  b ← bio (bread 0 50) ; bio (set_data b ones) ;; bio (bpin b) ;; bio (brelse b).

Lemma tx_run s0 :
  lrep s0 tx_log (a_boot (fun _ => zeros)) 1 [] ->
  exists s, lrep s tx_log tx_state 1 [].
Proof.
  intros R0.
  enough (H : wp tx_op (fun _ s => lrep s tx_log tx_state 1 []) s0)
    by (apply wp_Ok in H as (_ & s & _ & R); exists s; exact R).
  eapply wp_seq; [apply (bio_bread _ _ _ _ _ R0); [done|done|]|].
  { right. cbn. rewrite map_size_empty. vm_compute. lia. }
  intros b s1 (R1 & O1 & _).
  eapply wp_seq; [apply (bio_set_data _ _ _ _ _ R1 _ _ _ O1)|]. intros _ s2 [R2 F2].
  eapply wp_seq; [apply (bio_bpin _ _ _ _ _ R2 _ (0, 50)); [own|done]|]. intros _ s3 [R3 F3].
  eapply wp_mono; [apply (bio_brelse _ _ _ _ _ R3 _ (0, 50)); [own|done|left; by vm_compute]|].
  intros _ s4 [R4 _]. asimpl R4.
  set (m := unref _ _ _) in R4. assert (Em : m = {[ (0, 50) := 1 ]}) by (by vm_compute).
  rewrite Em in R4. rewrite delete_insert_id in R4 by done. exact R4.
Qed.

Lemma tx_rep : exists s, lrep s tx_log tx_state 1 [].
Proof.
  exact (tx_run _ (binit_lrep tx_log (fun _ => zeros) 1)).
Qed.

Lemma tx_quiet : log_quiet 0 tx_log tx_state.
Proof.
  split; cbn; try done; intros; try (assert (j = 0) as -> by lia; cbn).
  - unfold refs. cbn. destruct (decide (k = (0, 50))) as [->|].
    + by rewrite lookup_singleton_eq.
    + by rewrite lookup_singleton_ne.
  - rewrite map_size_singleton. vm_compute. lia.
  - by eexists.
Qed.

Lemma tx_disk_ok : disk_ok 0 2 30 tx_disk.
Proof.
  apply (disk_ok_tx 0 tx_log tx_disk tx_wf); [by vm_compute..|]. intros j Hj. cbn in Hj.
  assert (j = 0) as -> by lia. by vm_compute.
Qed.

End Example.

Import Example.

Lemma commit_crash_atomic_witness :
  exists s s' ws, commit 0 s = Ok tt s' /\ writes (bc s') = ws /\
    forall P, P `prefix_of` ws ->
    exists s'', initlog 0 2 30 (boot_lst (apply_writes (fun _ => zeros) P) 1) = Ok tt s''.
Proof.
  destruct tx_rep as [s R].
  destruct (commit_crash_atomic 0 tx_log s tx_state 1 [] tx_wf R tx_quiet eq_refl eq_refl eq_refl eq_refl)
    as (s' & ws & E & Hw & H).
  exists s, s', ws. split_and!; [done|done|]. intros P HP. destruct (H P 1 HP) as (s'' & E' & _). eauto.
Defined.

Lemma commit_durable_witness :
  exists s s', commit 0 s = Ok tt s' /\ disk (bc s') (0, 50) = ones.
Proof.
  destruct tx_rep as [s R].
  destruct (commit_durable 0 tx_log s tx_state 1 [] tx_wf R tx_quiet eq_refl eq_refl)
    as (s' & a' & W' & E & _ & _ & _ & H & _).
  exists s, s'. split; [done|]. destruct (H (0, 50)) as [-> _]; [intros _; cbn; lia|]. reflexivity.
Defined.

Lemma recovery_idempotent_witness :
  exists s1 s2, initlog 0 2 30 (boot_lst tx_disk 1) = Ok tt s1 /\
    initlog 0 2 30 (boot_lst (apply_writes tx_disk [((0, 50), zeros)]) 1) = Ok tt s2 /\
    disk (bc s2) (0, 50) = disk (bc s1) (0, 50).
Proof.
  destruct (recovery_idempotent 0 2 30 tx_disk 1 tx_disk_ok) as (s1 & E1 & H).
  destruct (initlog_disk 0 2 30 tx_disk 1 tx_disk_ok) as (s1' & E1' & W1 & _).
  rewrite E1 in E1'. injection E1' as <-.
  destruct (H [((0, 50), zeros)]) as (s2 & E2 & Hk); [rewrite W1; exists (drop 1 (recover_ws 0 2 30 tx_disk)); by vm_compute|].
  exists s1, s2. split_and!; [done|done|]. apply Hk. intros _. cbn. lia.
Defined.

Lemma recovery_unpin_underflow_witness :
  exists s1 b s2, initlog 0 2 30 (boot_lst tx_disk 1) = Ok tt s1 /\ bread 0 50 (bc s1) = Ok b s2 /\
    locked (b_lock (bufs s2 b)) = true /\ refcnt (bufs s2 b) = 0.
Proof.
  assert (H0 : 0 <= 0 < hdr_n (tx_disk (0, u32 2))) by (by vm_compute).
  assert (Ek : home_key 0 (disk_log 0 2 30 tx_disk) 0 = (0, 50)) by (by vm_compute).
  destruct (recovery_unpin_underflow 0 2 30 tx_disk 1 tx_disk_ok) as (s1 & E1 & H).
  specialize (H 0 H0). cbn zeta in H. rewrite Ek in H. destruct H as [_ (b & s2 & E2 & _ & Hl & Hr)].
  exists s1, b, s2. exact (conj E1 (conj E2 (conj Hl Hr))).
Defined.
