(* ===== verification/LogOps.v ===== *)
(** * [begin_op], [log_write] and [end_op] of [kernel/log.c]

    File-system operations of several processes run between [begin_op] and
    [end_op].  [begin_op] reserves [MAXOPBLOCKS] log blocks for each.  The step
    relation interleaves the operations at the points where [log.c] holds no
    spinlock; its invariant is the space accounting of the log. *)
From stdpp Require Import base list gmap strings relations.
From Stdlib Require Import ZArith Lia.
From S2P Require Import Prelude KString DList Sleeplock Bio Log LogCrash.

#[local] Open Scope Z_scope.
#[local] Open Scope xv6_scope.

Section Ops.

Context (ldev : Z).

(** ** [log_write] *)

(** The index [log_write] stores the block number at. *)
Lemma absorb_index_spec l bno n i :
  0 <= bno < 2 ^ 32 -> 0 <= i ->
  let r := absorb_index n i bno l in
  i <= r <= i + Z.of_nat n /\
  (forall j, i <= j < r -> u32 (lh_nth l j) <> bno) /\
  (r < i + Z.of_nat n -> u32 (lh_nth l r) = bno).
Proof.
  intros Hb. revert i. induction n as [|n IH]; intros i Hi; cbn [absorb_index]; cbv zeta.
  - split_and!; intros; lia.
  - destruct (Z.eqb_spec (u32 (lh_nth l i)) bno) as [E|E].
    + split_and!; intros; [lia..|done].
    + destruct (IH (i + 1)) as (H1 & H2 & H3); [lia|]. cbv zeta in *. split_and!; [lia..| |].
      * intros j Hj. destruct (decide (j = i)) as [->|]; [done|apply H2; lia].
      * intros. apply H3. lia.
Qed.

Lemma lh_nth_insert l i v j :
  0 <= i < Z.of_nat (length (lh_block l)) -> 0 <= j ->
  lh_nth (l <| lh_block := <[Z.to_nat i := v]> (lh_block l) |>) j = if decide (j = i) then v else lh_nth l j.
Proof.
  intros Hi Hj. unfold lh_nth. cbn. case_decide as E.
  - subst. rewrite list_lookup_insert_eq by lia. done.
  - rewrite list_lookup_insert_ne by lia. done.
Qed.

(** The in-memory header after [log_write] of block [bno]. *)
Definition log_add (l : log) (bno : Z) : log :=
  if decide (bno ∈ tx_blocks l) then l
  else l <| lh_block := <[Z.to_nat (lh_n l) := bno]> (lh_block l) |> <| lh_n := lh_n l + 1 |>.

Definition room (l : log) : bool := (lh_n l <? LOGSIZE) && (lh_n l <? log_size l - 1).

(** Facts of the in-memory header that [log_write] relies on. *)
Record hdr_wf (l : log) : Prop := {
  hw_n : 0 <= lh_n l;
  hw_len : length (lh_block l) = Z.to_nat LOGSIZE;
  hw_range : forall j, 0 <= j < lh_n l -> 0 <= lh_nth l j < 2 ^ 31;
}.

Lemma tx_blocks_in l bno : bno ∈ tx_blocks l <-> exists j, 0 <= j < lh_n l /\ lh_nth l j = bno.
Proof.
  unfold tx_blocks. rewrite elem_of_fmap_zseq. split.
  - intros (j & -> & Hj). exists j. split; [lia|done].
  - intros (j & Hj & <-). exists j. split; [done|lia].
Qed.

(** The index of the loop: the block's own entry, or the end. *)
Lemma absorb_index_tx l bno :
  hdr_wf l -> 0 <= bno < 2 ^ 31 ->
  let r := absorb_index (Z.to_nat (lh_n l)) 0 bno l in
  (bno ∈ tx_blocks l -> 0 <= r < lh_n l /\ lh_nth l r = bno) /\ ((bno ∉ tx_blocks l) -> r = lh_n l).
Proof.
  intros [Hn Hl Hr] Hb r.
  destruct (absorb_index_spec l bno (Z.to_nat (lh_n l)) 0) as (H1 & H2 & H3); [zpow; lia|lia|].
  fold r in H1, H2, H3. split.
  - rewrite tx_blocks_in. intros (j & Hj & E). assert (r <= j).
    { destruct (decide (j < r)); [|lia]. exfalso. apply (H2 j); [lia|]. rewrite E. apply u32_small. zpow. lia. }
    split; [lia|]. specialize (H3 ltac:(lia)). rewrite u32_small in H3; [done|].
    specialize (Hr r ltac:(lia)). zpow. lia.
  - intros Hni. destruct (decide (r < lh_n l)); [|lia]. exfalso. apply Hni. rewrite tx_blocks_in.
    exists r. split; [lia|]. specialize (H3 ltac:(lia)). rewrite u32_small in H3; [done|].
    specialize (Hr r ltac:(lia)). zpow. lia.
Qed.

(** [log_write] outside its guards *)
Lemma log_write_full s b :
  room (lg s) = false -> log_write b s = Panic "too big a transaction".
Proof.
  intros H. unfold log_write, bind, gets. unfold room in H.
  rewrite !Z.geb_leb, !Z.leb_antisym. apply andb_false_iff in H as [-> | ->]; cbn; [done|].
  by rewrite orb_true_r.
Qed.

Lemma log_write_run s b l bno :
  lg s = l -> blockno (bufs (bc s) b) = bno ->
  room l = true -> 1 <= outstanding l -> log_lock l = false -> bc_lock (bc s) = false ->
  hdr_wf l -> 0 <= bno < 2 ^ 31 ->
  exists s', log_write b s = Ok tt s' /\ lg s' = log_add l bno /\
    if decide (bno ∈ tx_blocks l) then bc s' = bc s else bpin b (bc s) = Ok tt (bc s').
Proof.
  intros Hl Hb Hroom Hout Hlk Hbl Hwf Hbno.
  destruct (absorb_index_tx l bno Hwf Hbno) as [Hin Hnin].
  unfold room in Hroom. apply andb_true_iff in Hroom as [Hr1 Hr2].
  unfold log_write, bind at 1, gets at 1. rewrite Hl.
  rewrite !Z.geb_leb, !Z.leb_antisym, Hr1, Hr2. cbn [negb orb].
  assert (Ho : (outstanding l <? 1) = false) by lia. rewrite Ho.
  unfold log_acquire, log_release, bind, zoom, acquire, release, set_log, modify, gets, ret, bio, zoom.
  rewrite Hl, Hlk. cbn. rewrite Hb. unfold log_add.
  set (i := absorb_index _ _ _ _) in *. rewrite s32_small by (zpow; lia). rewrite <- Hlk.
  destruct (decide (bno ∈ tx_blocks l)) as [Ht|Ht].
  - destruct (Hin Ht) as [Hi Ei]. assert (En : (i =? lh_n l) = false) by lia. rewrite En. cbn.
    eexists. split; [reflexivity|]. cbn. split; [|done].
    rewrite list_insert_id; [by destruct l|].
    unfold lh_nth in Ei. destruct (lh_block l !! Z.to_nat i) as [v|] eqn:E; cbn in Ei; [by subst|].
    destruct Hwf as [_ Hlen _]. apply lookup_ge_None in E. lia.
  - rewrite (Hnin Ht), Z.eqb_refl. rewrite bpin_run by done. cbn.
    eexists. split; [reflexivity|]. cbn. split; [by destruct l|]. by rewrite ?bpin_run.
Qed.

Lemma lh_nth_add l bno j :
  hdr_wf l -> lh_n l < LOGSIZE -> (bno ∉ tx_blocks l) -> 0 <= j ->
  lh_nth (log_add l bno) j = if decide (j = lh_n l) then bno else lh_nth l j.
Proof.
  intros [Hn Hlen _] Hr Hni Hj. unfold log_add. rewrite decide_False by done.
  pose proof (lh_nth_insert l (lh_n l) bno j) as H. unfold lh_nth in *. cbn in *.
  apply H; [|done]. lia.
Qed.

Lemma log_add_n l bno : (bno ∉ tx_blocks l) -> lh_n (log_add l bno) = lh_n l + 1.
Proof. intros. unfold log_add. by rewrite decide_False. Qed.

Lemma log_add_tx l bno :
  hdr_wf l -> lh_n l < LOGSIZE ->
  tx_blocks (log_add l bno) = if decide (bno ∈ tx_blocks l) then tx_blocks l else tx_blocks l ++ [bno].
Proof.
  intros Hwf Hr. case_decide as Ht; [unfold log_add; by rewrite decide_True|].
  unfold tx_blocks. rewrite log_add_n by done. pose proof (hw_n _ Hwf).
  replace (Z.to_nat (lh_n l + 1)) with (Z.to_nat (lh_n l) + 1)%nat by lia.
  rewrite zseq_app, fmap_app. f_equal.
  - apply fmap_zseq_ext. intros j Hj. rewrite lh_nth_add by (done || lia). by rewrite decide_False by lia.
  - cbn. rewrite lh_nth_add by (done || lia). by rewrite decide_True by lia.
Qed.

Lemma log_add_hdr l bno : hdr_wf l -> lh_n l < LOGSIZE -> 0 <= bno < 2 ^ 31 -> hdr_wf (log_add l bno).
Proof.
  intros Hwf Hr Hb. destruct (decide (bno ∈ tx_blocks l)) as [Ht|Ht].
  { unfold log_add. by rewrite decide_True. }
  split.
  - rewrite log_add_n by done. destruct Hwf. lia.
  - unfold log_add. rewrite decide_False by done. cbn. rewrite length_insert. apply Hwf.
  - rewrite log_add_n by done. intros j Hj. rewrite lh_nth_add by (done || lia).
    case_decide; [done|]. apply Hwf. lia.
Qed.

Lemma log_add_same l bno :
  start (log_add l bno) = start l /\ log_size (log_add l bno) = log_size l /\
  log_lock (log_add l bno) = log_lock l /\ outstanding (log_add l bno) = outstanding l /\
  committing (log_add l bno) = committing l.
Proof. unfold log_add. by case_decide. Qed.

Lemma log_add_wf l bno :
  log_wf l -> hdr_wf l -> room l = true -> log_size l <= NBUF -> 0 <= bno < 2 ^ 31 ->
  ~ (start l <= bno < start l + log_size l) -> log_wf (log_add l bno).
Proof.
  intros wf Hwf Hroom Hsz Hb Ho. unfold room in Hroom.
  destruct (decide (bno ∈ tx_blocks l)) as [Ht|Ht].
  { unfold log_add. by rewrite decide_True. }
  assert (Hr : lh_n l < LOGSIZE) by lia.
  assert (Hni : forall j, 0 <= j < lh_n l -> lh_nth l j <> bno) by (intros j Hj E; apply Ht, tx_blocks_in; eauto).
  destruct (log_add_same l bno) as (E1 & E2 & _). destruct wf.
  split; rewrite ?log_add_n, ?E1, ?E2 by done; try lia.
  - intros j Hj. rewrite lh_nth_add by (done || lia). case_decide; [done|]. apply wf_range. lia.
  - intros j Hj. rewrite lh_nth_add by (done || lia). case_decide; [done|]. apply wf_out. lia.
  - intros i j Hi Hj. rewrite !lh_nth_add by (done || lia).
    case_decide; case_decide; [lia| | |]; intros E.
    + exfalso. apply (Hni j); [lia|done].
    + exfalso. apply (Hni i); [lia|done].
    + apply wf_inj; done || lia.
Qed.

(** [log_write] of a block that is in the transaction changes nothing; another
    block is added to the transaction and pinned. *)
Lemma log_write_spec s l a me W b bno :
  lrep s l a me W -> owned (bc s) b (ldev, bno) -> hdr_wf l -> room l = true -> 1 <= outstanding l ->
  log_lock l = false -> 0 <= bno < 2 ^ 31 -> refs a (ldev, bno) + 1 < 2 ^ 32 ->
  exists s' a', log_write b s = Ok tt s' /\ lrep s' (log_add l bno) a' me W /\
    frame (bc s) (bc s') (fun _ => True) /\
    a' = (if decide (bno ∈ tx_blocks l) then a
          else a <| a_ref := <[(ldev, bno) := refs a (ldev, bno) + 1]> (a_ref a) |>).
Proof.
  intros [<- Hme HW [xs Hx]] Ho Hwf Hroom Hout Hlk Hb Hrefs.
  assert (Hk : blockno (bufs (bc s) b) = bno) by (destruct Ho as [(_ & Hk & _) _]; by injection Hk).
  destruct (log_write_run s b _ _ eq_refl Hk Hroom Hout Hlk (br_lock _ _ _ Hx) Hwf Hb) as (s' & E & El & Hbc).
  destruct (decide (bno ∈ tx_blocks (lg s))) as [Ht|Ht].
  - exists s', a. split_and!; [done| | |done].
    + split; [done|by rewrite Hbc..|]. exists xs. by rewrite Hbc.
    + rewrite Hbc. by intros ?.
  - destruct (bpin_spec _ _ _ _ _ Hx Ho Hrefs) as (t & Et & Hm & Hw & Hr' & Hf).
    rewrite Hbc in Et. injection Et as <-. eexists s', _. split_and!; [done| |exact Hf|reflexivity].
    split; [done|congruence|congruence|eauto].
Qed.

(** [log_write] records a block exactly once.  Inside a transaction with room
    in the log it returns; a block that is already in the transaction changes
    neither the header nor the cache (absorption), a new one is appended and
    pinned in the cache; the header stays well formed. *)
Theorem log_write_absorbs s l a me W b bno :
  lrep s l a me W -> owned (bc s) b (ldev, bno) -> log_wf l -> hdr_wf l ->
  room l = true -> 1 <= outstanding l -> log_lock l = false -> log_size l <= NBUF ->
  0 <= bno < 2 ^ 31 -> ~ (start l <= bno < start l + log_size l) -> refs a (ldev, bno) + 1 < 2 ^ 32 ->
  exists s' l' a', log_write b s = Ok tt s' /\ lrep s' l' a' me W /\ log_wf l' /\ hdr_wf l' /\
    (bno ∈ tx_blocks l -> l' = l /\ a' = a) /\
    ((bno ∉ tx_blocks l) -> tx_blocks l' = tx_blocks l ++ [bno] /\
       a' = a <| a_ref := <[(ldev, bno) := refs a (ldev, bno) + 1]> (a_ref a) |>).
Proof.
  intros R Ho wf Hwf Hroom Hout Hlk Hsz Hb Hout' Hrefs. assert (Hr : lh_n l < LOGSIZE) by (unfold room in Hroom; lia).
  destruct (log_write_spec s l a me W b bno) as (s' & a' & E & R' & _ & Ea); auto.
  exists s', (log_add l bno), a'. split_and!; [done|done|by apply log_add_wf|by apply log_add_hdr| |]; intros Ht.
  - rewrite decide_True in Ea by done. split; [|done]. unfold log_add. by rewrite decide_True.
  - rewrite decide_False in Ea by done. split; [|done]. rewrite log_add_tx by done. by rewrite decide_False.
Qed.

(** ** Interleaving of operations *)

(** [used] has an entry per file-system operation in progress: the number of
    blocks it has added to the log.  [OtherStep] is any work between the log's
    critical sections, which touches the cache only. *)
Inductive lstep : lst * list Z -> lst * list Z -> Prop :=
| BeginStep s s' used :
    begin_op s = Ok tt s' -> lstep (s, used) (s', 0 :: used)
| WriteStep s s' b us1 n us2 :
    n < MAXOPBLOCKS -> log_write b s = Ok tt s' -> 0 <= blockno (bufs (bc s) b) < 2 ^ 31 ->
    bc_lock (bc s) = false ->
    lstep (s, us1 ++ n :: us2) (s', us1 ++ (n + (lh_n (lg s') - lh_n (lg s))) :: us2)
| LeaveStep s s' d us1 n us2 :
    end_op_leave s = Ok d s' -> lstep (s, us1 ++ n :: us2) (s', us1 ++ us2)
| CommitStep s s' used :
    committing (lg s) = true -> end_op_commit ldev s = Ok tt s' -> lstep (s, used) (s', used)
| OtherStep s b used : lstep (s, used) (s <| bc := b |>, used).

(** Log blocks reserved and not yet used. *)
Fixpoint reserved (used : list Z) : Z :=
  match used with
  | [] => 0
  | n :: used => (MAXOPBLOCKS - n) + reserved used
  end.

Record linv (c : lst * list Z) : Prop := {
  li_lock : log_lock (lg c.1) = false;
  li_out : outstanding (lg c.1) = Z.of_nat (length c.2);
  li_commit : committing (lg c.1) = true -> c.2 = [];
  li_idle : committing (lg c.1) = false -> c.2 = [] -> lh_n (lg c.1) = 0;
  li_hdr : hdr_wf (lg c.1);
  li_used : Forall (fun n => 0 <= n <= MAXOPBLOCKS) c.2;
  li_space : lh_n (lg c.1) + reserved c.2 <= LOGSIZE;
}.

(** ** Routines that leave [log[dev]] alone *)

Definition keeps {A} (m : M lst A) : Prop := forall s v s', m s = Ok v s' -> lg s' = lg s.

Lemma keeps_bind {A B} (m : M lst A) (k : A -> M lst B) :
  keeps m -> (forall a, keeps (k a)) -> keeps (bind m k).
Proof.
  intros Hm Hk s v s' E. apply bind_Ok_inv in E as (a & s1 & E1 & E2).
  rewrite (Hk _ _ _ _ E2). by apply Hm in E1.
Qed.

Lemma keeps_bio {A} (m : M bst A) : keeps (bio m).
Proof. intros s v s' E. unfold bio, zoom in E. destruct (m (bc s)); naive_solver. Qed.

Lemma keeps_gets {A} (f : lst -> A) : keeps (gets f).
Proof. by intros s v s' [= _ <-]. Qed.

Lemma keeps_ret {A} (a : A) : keeps (ret a).
Proof. by intros s v s' [= _ <-]. Qed.

Lemma keeps_tail_loop body n tail : (forall i, keeps (body i)) -> keeps (tail_loop body n tail).
Proof.
  intros H. revert tail. induction n as [|n IH]; intros tail; cbn [tail_loop]; [apply keeps_ret|].
  apply keeps_bind; auto.
Qed.

Hint Resolve keeps_bio keeps_gets keeps_ret : core.

Ltac keeps := repeat (apply keeps_bind; [|intros]); auto.

Lemma keeps_write_log : keeps (write_log ldev).
Proof. apply keeps_bind; [auto|]. intros. apply keeps_tail_loop. intros. unfold log_block. keeps. Qed.

Lemma keeps_install_trans : keeps (install_trans ldev).
Proof. apply keeps_bind; [auto|]. intros. apply keeps_tail_loop. intros. unfold install_block. keeps. Qed.

Lemma keeps_write_head : keeps (write_head ldev).
Proof. unfold write_head. keeps. Qed.

Lemma commit_lg s s' :
  commit ldev s = Ok tt s' -> lg s' = if lh_n (lg s) >? 0 then cleared (lg s) else lg s.
Proof.
  unfold commit. intros E. apply bind_Ok_inv in E as (n & s0 & [= <- <-] & E).
  destruct (lh_n (lg s) >? 0); [|by injection E as <-].
  apply bind_Ok_inv in E as (? & s1 & E1 & E). apply keeps_write_log in E1.
  apply bind_Ok_inv in E as (? & s2 & E2 & E). apply keeps_write_head in E2.
  apply bind_Ok_inv in E as (? & s3 & E3 & E). apply keeps_install_trans in E3.
  apply bind_Ok_inv in E as (? & s4 & [= _ <-] & E). apply keeps_write_head in E.
  rewrite E. cbn. by rewrite E3, E2, E1.
Qed.

(** ** What the critical sections do to [log[dev]] *)

Lemma begin_op_inv s s' :
  begin_op s = Ok tt s' ->
  committing (lg s) = false /\ lh_n (lg s) + (outstanding (lg s) + 1) * MAXOPBLOCKS <= LOGSIZE /\
  lg s' = (lg s) <| outstanding := outstanding (lg s) + 1 |> <| log_lock := false |>.
Proof.
  unfold begin_op, log_acquire, log_release, bind, zoom, acquire, release, set_log, modify, gets, sleep_on.
  destruct (log_lock (lg s)) eqn:El; [done|]. cbn.
  destruct (committing (lg s)); [done|].
  destruct (Z.gtb_spec (lh_n (lg s) + (outstanding (lg s) + 1) * MAXOPBLOCKS) LOGSIZE); [done|].
  cbn. intros [= <-]. cbn. auto.
Qed.

Lemma end_op_leave_inv s d s' :
  end_op_leave s = Ok d s' ->
  committing (lg s) = false /\ d = (outstanding (lg s) - 1 =? 0) /\
  lg s' = (lg s) <| outstanding := outstanding (lg s) - 1 |> <| committing := d |> <| log_lock := false |>.
Proof.
  unfold end_op_leave, log_acquire, log_release, log_wakeup, bind, zoom, acquire, release, set_log, modify, gets, ret.
  destruct (log_lock (lg s)) eqn:El; [done|]. cbn.
  destruct (committing (lg s)) eqn:Ec; [done|].
  destruct (outstanding (lg s) - 1 =? 0); cbn; intros [= <- <-]; split_and!; auto.
Qed.

Lemma end_op_commit_inv s s' :
  end_op_commit ldev s = Ok tt s' -> 0 <= lh_n (lg s) ->
  lg s' = (lg s) <| lh_n := 0 |> <| committing := false |> <| log_lock := false |>.
Proof.
  unfold end_op_commit. intros E Hn. apply bind_Ok_inv in E as ([] & s1 & E1 & E).
  apply commit_lg in E1. revert E.
  unfold log_acquire, log_release, log_wakeup, bind, zoom, acquire, release, set_log, modify.
  destruct (log_lock (lg s1)); [done|]. cbn. intros [= <-]. cbn. rewrite E1.
  destruct (Z.gtb_spec (lh_n (lg s)) 0); [done|]. assert (E0 : lh_n (lg s) = 0) by lia.
  unfold field_update. cbn. by rewrite E0.
Qed.

Lemma reserved_mid us1 n us2 : reserved (us1 ++ n :: us2) = (MAXOPBLOCKS - n) + reserved (us1 ++ us2).
Proof. induction us1; cbn; lia. Qed.

Lemma reserved_max used :
  Forall (fun n => 0 <= n <= MAXOPBLOCKS) used ->
  0 <= reserved used <= MAXOPBLOCKS * Z.of_nat (length used).
Proof. unfold MAXOPBLOCKS. induction 1; cbn -[Z.mul Z.of_nat]; unfold MAXOPBLOCKS in *; lia. Qed.

Lemma log_write_Ok_room s b s' : log_write b s = Ok tt s' -> room (lg s) = true /\ 1 <= outstanding (lg s).
Proof.
  intros E. destruct (room (lg s)) eqn:Er; [|by rewrite log_write_full in E]. split; [done|].
  unfold log_write, bind, gets in E. unfold room in Er. apply andb_true_iff in Er as [E1 E2].
  rewrite !Z.geb_leb, !Z.leb_antisym, E1, E2 in E. cbn in E.
  destruct (Z.ltb_spec (outstanding (lg s)) 1); [done|lia].
Qed.

Lemma linv_step c c' : linv c -> lstep c c' -> linv c'.
Proof.
  intros [H1 H2 H3 H4 H5 H6 H7] Hs. pose proof (reserved_max _ H6) as Hmax.
  destruct Hs as [s s' used E|s s' b us1 n us2 Hn E Hb Hbl|s s' d us1 n us2 E|s s' used Hc E|s b used];
    cbn [fst snd] in *.
  - apply begin_op_inv in E as (Ec & Hsp & El). split; cbn [fst snd]; rewrite ?El; cbn; auto; try done.
    + lia.
    + congruence.
    + by destruct H5.
    + constructor; [unfold MAXOPBLOCKS; lia|done].
    + unfold MAXOPBLOCKS in *. lia.
  - destruct (log_write_Ok_room _ _ _ E) as [Hroom Hout].
    destruct (log_write_run s b _ _ eq_refl eq_refl Hroom Hout H1 Hbl H5 Hb) as (t & Et & El & _).
    rewrite E in Et. injection Et as <-. rewrite El.
    assert (Hr : lh_n (lg s) < LOGSIZE) by (unfold room in Hroom; lia).
    destruct (log_add_same (lg s) (blockno (bufs (bc s) b))) as (_ & _ & L1 & L2 & L3).
    assert (Hd : 0 <= lh_n (log_add (lg s) (blockno (bufs (bc s) b))) - lh_n (lg s) <= 1)
      by (unfold log_add; case_decide; cbn; lia).
    rewrite reserved_mid in H7. apply Forall_app in H6 as [F1 F2]. apply Forall_cons in F2 as [F2 F3].
    split; cbn [fst snd]; rewrite ?El, ?L1, ?L2, ?L3; auto.
    + rewrite H2, !length_app. done.
    + intros Hc. apply H3 in Hc. by destruct us1.
    + intros _ Hc. by destruct us1.
    + by apply log_add_hdr.
    + apply Forall_app. split; [done|]. constructor; [lia|done].
    + rewrite reserved_mid. lia.
  - apply end_op_leave_inv in E as (Ec & -> & El). rewrite reserved_mid in H7.
    rewrite length_app in H2. cbn in H2.
    apply Forall_app in H6 as [F1 F2]. apply Forall_cons in F2 as [F2 F3].
    split; cbn [fst snd]; rewrite ?El; cbn; auto.
    + rewrite length_app. lia.
    + intros Hc. apply Z.eqb_eq in Hc. destruct us1, us2; cbn in *; done || lia.
    + intros Hc He. apply app_nil in He as [-> ->]. cbn in *. lia.
    + by destruct H5.
    + by apply Forall_app.
    + lia.
  - apply end_op_commit_inv in E as El; [|apply H5]. rewrite (H3 Hc) in *.
    split; cbn [fst snd]; rewrite ?El; cbn; auto; try done.
    destruct H5. split; cbn; done || (intros; lia).
  - by split.
Qed.

Lemma linv_reach c c' : rtc lstep c c' -> linv c -> linv c'.
Proof. induction 1; eauto using linv_step. Qed.

Lemma lstep_size c c' : linv c -> lstep c c' -> log_size (lg c'.1) = log_size (lg c.1).
Proof.
  intros Hi Hs. destruct Hs as [s s' used E|s s' b us1 n us2 Hn E Hb Hbl|s s' d us1 n us2 E|s s' used Hc E|s b used];
    cbn [fst snd] in *.
  - by apply begin_op_inv in E as (_ & _ & ->).
  - destruct (log_write_Ok_room _ _ _ E) as [Hroom Hout]. destruct Hi as [H1 _ _ _ H5 _ _].
    destruct (log_write_run s b _ _ eq_refl eq_refl Hroom Hout H1 Hbl H5 Hb) as (t & Et & El & _).
    rewrite E in Et. injection Et as <-. rewrite El. apply log_add_same.
  - by apply end_op_leave_inv in E as (_ & _ & ->).
  - apply end_op_commit_inv in E as ->; [done|]. apply (li_hdr _ Hi).
  - done.
Qed.

Lemma lreach_size c c' : rtc lstep c c' -> linv c -> log_size (lg c'.1) = log_size (lg c.1).
Proof.
  induction 1 as [|c1 c2 c3 H12 H23 IH]; intros Hi; [done|].
  rewrite IH by (by eapply linv_step). by apply lstep_size.
Qed.

(** C4: the reservation of [begin_op] is enough.  In every interleaving of
    operations, if the log area has a header and [LOGSIZE] data blocks, a
    [log_write] by an operation that has logged fewer than [MAXOPBLOCKS] blocks
    returns, and when no operation is in progress [begin_op] lets one in. *)
Theorem reservation_safe s0 s used :
  linv (s0, []) -> LOGSIZE < log_size (lg s0) -> rtc lstep (s0, []) (s, used) ->
  lh_n (lg s) + reserved used <= LOGSIZE /\
  (forall n b, n ∈ used -> n < MAXOPBLOCKS -> bc_lock (bc s) = false ->
     0 <= blockno (bufs (bc s) b) < 2 ^ 31 -> exists s', log_write b s = Ok tt s') /\
  (used = [] -> committing (lg s) = false -> exists s', begin_op s = Ok tt s').
Proof.
  intros Hi Hsz Hr. pose proof (lreach_size _ _ Hr Hi) as Es. pose proof (linv_reach _ _ Hr Hi) as Hi'.
  destruct Hi' as [H1 H2 H3 H4 H5 H6 H7]. cbn [fst snd] in *. split_and!; [done|..].
  - intros n b Hn Hlt Hbl Hb. apply list_elem_of_split in Hn as (us1 & us2 & ->).
    rewrite reserved_mid in H7. apply Forall_app in H6 as [F1 F2]. apply Forall_cons in F2 as [F2 F3].
    pose proof (reserved_max (us1 ++ us2) (Forall_app_2 _ _ _ F1 F3)) as Hm.
    destruct (log_write_run s b _ _ eq_refl eq_refl) as (s' & E & _); eauto.
    + unfold room. rewrite Es. lia.
    + rewrite H2, length_app. cbn. lia.
  - intros -> Hc. specialize (H4 Hc eq_refl). cbn in H2.
    unfold begin_op, log_acquire, log_release, bind, zoom, acquire, release, set_log, modify, gets.
    rewrite H1. cbn. rewrite Hc, H4, H2. cbn. eauto.
Qed.

(** ** A log area of [LOGSIZE] blocks, as [mkfs] makes it *)

(** Buffer [b] holds block [100 + b]. *)
Definition full_bst : bst :=
  Bst false (fun b => Buf true 0 (100 + b) initsleeplock 1 []) (DHeap (fun _ => 0) (fun _ => 0)) 1 (fun _ => []) [] [].

Definition full_start : lst :=
  Lst (Log false 2 LOGSIZE 0 false ldev 0 (replicate (Z.to_nat LOGSIZE) 0)) full_bst 0.

Lemma full_linv : linv (full_start, []).
Proof. split; cbn; try done. split; cbn; done || (intros; lia). Qed.

(** [m] blocks have been logged by three operations. *)
Record full_at (s : lst) (m : Z) : Prop := {
  fa_n : lh_n (lg s) = m;
  fa_out : outstanding (lg s) = 3;
  fa_lock : log_lock (lg s) = false;
  fa_size : log_size (lg s) = LOGSIZE;
  fa_hdr : hdr_wf (lg s);
  fa_bl : bc_lock (bc s) = false;
  fa_buf : forall b, blockno (bufs (bc s) b) = 100 + b;
  fa_tx : forall j, j ∈ tx_blocks (lg s) -> j < 100 + m;
}.

Lemma full_write s m :
  full_at s m -> 0 <= m < LOGSIZE - 1 -> exists s', log_write m s = Ok tt s' /\ full_at s' (m + 1).
Proof.
  intros [F1 F2 F3 F4 F5 F6 F7 F8] Hm. unfold LOGSIZE, MAXOPBLOCKS in Hm.
  assert (Hni : 100 + m ∉ tx_blocks (lg s)) by (intros Hin; apply F8 in Hin; lia).
  destruct (log_write_run s m _ _ eq_refl (F7 m)) as (s' & E & El & Hbc); auto.
  { unfold room. rewrite F1, F4. unfold LOGSIZE, MAXOPBLOCKS. lia. }
  { lia. }
  { zpow. lia. }
  rewrite decide_False, bpin_run in Hbc by done. injection Hbc as Hbc.
  exists s'. split; [done|]. destruct (log_add_same (lg s) (100 + m)) as (_ & L1 & L2 & L3 & _).
  assert (Hr : lh_n (lg s) < LOGSIZE) by (rewrite F1; unfold LOGSIZE, MAXOPBLOCKS; lia).
  split; rewrite ?El, ?L1, ?L2, ?L3; auto.
  - rewrite log_add_n by done. lia.
  - apply log_add_hdr; auto. zpow. lia.
  - by rewrite <- Hbc.
  - intros b. rewrite <- Hbc. cbn. destruct (decide (b = m)) as [->|].
    + rewrite upd_same. apply F7.
    + rewrite upd_other by done. apply F7.
  - rewrite log_add_tx, decide_False by done. intros j Hj. apply elem_of_app in Hj as [Hj|Hj].
    + apply F8 in Hj. lia.
    + apply list_elem_of_singleton in Hj. lia.
Qed.

(** The operation that logs one more block. *)
Lemma full_writes k s us1 n us2 m :
  full_at s m -> 0 <= m -> m + Z.of_nat k <= LOGSIZE - 1 -> 0 <= n -> n + Z.of_nat k <= MAXOPBLOCKS ->
  exists s', rtc lstep (s, us1 ++ n :: us2) (s', us1 ++ (n + Z.of_nat k) :: us2) /\ full_at s' (m + Z.of_nat k).
Proof.
  revert s n m. induction k as [|k IH]; intros s n m F Hm Hk Hn Hnk.
  { exists s. rewrite !Z.add_0_r. split; [apply rtc_refl|done]. }
  destruct (full_write s m F) as (s1 & E & F1); [lia|].
  destruct (IH s1 (n + 1) (m + 1) F1) as (s2 & Hr & F2); [lia..|].
  exists s2. rewrite Nat2Z.inj_succ in *.
  replace (n + Z.succ (Z.of_nat k)) with (n + 1 + Z.of_nat k) by lia.
  replace (m + Z.succ (Z.of_nat k)) with (m + 1 + Z.of_nat k) by lia. split; [|done].
  eapply rtc_l; [|exact Hr].
  replace (n + 1) with (n + (lh_n (lg s1) - lh_n (lg s))) by (rewrite (fa_n _ _ F), (fa_n _ _ F1); lia).
  apply (WriteStep s s1 m); [lia|done| |apply F]. rewrite (fa_buf _ _ F).
  unfold LOGSIZE, MAXOPBLOCKS in *. zpow. lia.
Qed.

Lemma full_begin : exists s, rtc lstep (full_start, []) (s, [0; 0; 0]) /\ full_at s 0.
Proof.
  eexists. split.
  - do 3 (eapply rtc_l; [apply BeginStep; reflexivity|]). apply rtc_refl.
  - split; cbn; try done. split; cbn; done || (intros; lia). intros j Hj. by apply elem_of_nil in Hj.
Qed.

(** C39: [mkfs] gives the log [LOGSIZE] blocks in all, one of which is the header.
    Three operations that keep to [MAXOPBLOCKS] blocks each can then reach a
    state in which a [log_write] within its reservation panics. *)
Theorem mkfs_log_overflow :
  log_size (lg full_start) = LOGSIZE /\ linv (full_start, []) /\
  exists s n used b, rtc lstep (full_start, []) (s, n :: used) /\ 0 <= n < MAXOPBLOCKS /\
    log_write b s = Panic "too big a transaction".
Proof.
  split; [done|]. split; [apply full_linv|].
  destruct full_begin as (s0 & R0 & F0).
  destruct (full_writes 10 s0 [0; 0] 0 [] 0 F0) as (s1 & R1 & F1); [by vm_compute..|].
  destruct (full_writes 10 s1 [0] 0 [10] _ F1) as (s2 & R2 & F2); [by vm_compute..|].
  destruct (full_writes 9 s2 [] 0 [10; 10] _ F2) as (s3 & R3 & F3); [by vm_compute..|].
  exists s3, 9, [10; 10], 0. split_and!; [|done|done|].
  - etrans; [exact R0|]. etrans; [exact R1|]. etrans; [exact R2|]. exact R3.
  - apply log_write_full. unfold room. by rewrite (fa_n _ _ F3), (fa_size _ _ F3).
Qed.

End Ops.

(** One operation holds block 50 and is about to log it. *)
Definition op_log : log := Log false 2 30 1 false 0 0 (replicate 30 0).

Lemma op_rep : exists s b, lrep s op_log (a_get (a_boot (fun _ => [])) (0, 50) 1) 1 [] /\ owned (bc s) b (0, 50).
Proof.
  pose proof (binit_lrep op_log (fun _ => []) 1) as R0. revert R0. generalize (Lst op_log (binit (boot_bst (fun _ => []) 1)) 0).
  intros s0 R0.
  assert (Hs : (size (a_ref (a_boot (fun _ => []))) < Z.to_nat NBUF)%nat)
    by (cbn; rewrite map_size_empty; vm_compute; lia).
  pose proof (bio_bread _ _ _ _ _ R0 0 50 eq_refl eq_refl (or_intror Hs)) as H.
  apply wp_Ok in H as (b & s1 & _ & R1 & O & _). eauto.
Qed.

Lemma log_write_absorbs_witness :
  exists s b s' l', log_write b s = Ok tt s' /\ lg s' = l' /\ tx_blocks l' = [50].
Proof.
  destruct op_rep as (s & b & R & O).
  assert (wf : log_wf op_log) by (split; cbn; done || (intros; lia)).
  assert (Hwf : hdr_wf op_log) by (split; cbn; done || (intros; lia)).
  assert (Hni : 50 ∉ tx_blocks op_log) by (apply not_elem_of_nil).
  destruct (log_write_absorbs 0 s op_log _ 1 [] b 50 R O wf Hwf eq_refl)
    as (s' & l' & a' & E & R' & _ & _ & _ & H); [by vm_compute..|cbn; lia|by vm_compute|].
  exists s, b, s', l'. split_and!; [exact E|apply R'|]. destruct (H Hni) as [-> _]. done.
Defined.

(** An operation begins and logs a block. *)
Lemma reservation_safe_witness :
  exists s1 s2, begin_op (Lst (Log false 2 31 0 false 0 0 (replicate 30 0)) full_bst 0) = Ok tt s1 /\ log_write 5 s1 = Ok tt s2.
Proof.
  set (s0 := Lst (Log false 2 31 0 false 0 0 (replicate 30 0)) full_bst 0).
  set (s1 := Lst (Log false 2 31 1 false 0 0 (replicate 30 0)) full_bst 0).
  assert (Hi : linv (s0, [])) by (split; cbn; try done; split; cbn; done || (intros; lia)).
  assert (E : begin_op s0 = Ok tt s1) by reflexivity.
  destruct (reservation_safe 0 s0 s1 [0] Hi eq_refl (rtc_once _ _ (BeginStep 0 s0 s1 [] E))) as (_ & H & _).
  destruct (H 0 5) as (s2 & E2); [by left|reflexivity|reflexivity|split; [discriminate|reflexivity]|].
  exists s1, s2. split; [exact E|exact E2].
Defined.
