(* ===== verification/Vm.v ===== *)
(** * [kernel/vm.c]: page tables

    Page tables live in physical memory: entry [i] of the page-table page at [p]
    is the 64-bit word at [p + 8 * i].  The routines are those of [vm.c]; user
    memory that is copied to or from a kernel buffer is a list of bytes on the
    kernel's side.  The abstract view of a page table and the theorems are in
    [VmSpec] and [VmUser]. *)
From stdpp Require Import base list gmap strings.
From Stdlib Require Import ZArith Lia.
From S2P Require Import Prelude KString Riscv Kalloc.

#[local] Open Scope Z_scope.
#[local] Open Scope xv6_scope.

Definition load_pte (pte : Z) : M kmem Z := gets (fun k => load64 (ram k) pte).
Definition store_pte (pte v : Z) : M kmem unit := modify (fun k => k <| ram := store64 (ram k) pte v |>).
Definition clear_page (pa : Z) : M kmem unit := modify (fun k => k <| ram := memset (ram k) pa 0 PGSIZE |>).

Definition has (pte flag : Z) : bool := negb (Z.land pte flag =? 0).

(** [end_] is the end of the kernel, for [kfree]. *)
Section Vm.

Context (end_ : Z).

(** The body of [walk]'s loop: the page table of the next level, or an early
    [return 0]. *)
Definition walk_level (level pagetable va : Z) (alloc : bool) : M kmem (option Z) :=
  let pte := pagetable + 8 * PX level va in
  e ← load_pte pte ;
  if has e PTE_V then ret (Some (PTE2PA e))
  else if negb alloc then ret None
  else pagetable ← kalloc ;
       if pagetable =? 0 then ret None
       else clear_page pagetable ;;
            store_pte pte (Z.lor (PA2PTE pagetable) PTE_V) ;;
            ret (Some pagetable).

(** [for(level = 2; level > 0; level--)] *)
Fixpoint walk_loop (level : nat) (pagetable va : Z) (alloc : bool) : M kmem (option Z) :=
  match level with
  | O => ret (Some pagetable)
  | S l => p ← walk_level (Z.of_nat level) pagetable va alloc ;
           match p with
           | None => ret None
           | Some pagetable => walk_loop l pagetable va alloc
           end
  end.

Definition walk (pagetable va : Z) (alloc : bool) : M kmem Z :=
  if va >=? MAXVA then panic "walk" else
  p ← walk_loop 2 pagetable va alloc ;
  match p with
  | None => ret 0
  | Some pagetable => ret (pagetable + 8 * PX 0 va)
  end.

Definition walkaddr (pagetable va : Z) : M kmem Z :=
  if va >=? MAXVA then ret 0 else
  pte ← walk pagetable va false ;
  if pte =? 0 then ret 0 else
  e ← load_pte pte ;
  if negb (has e PTE_V) then ret 0 else
  if negb (has e PTE_U) then ret 0 else
  ret (PTE2PA e).

(** One turn of the loop of [mappages]; the loop variables are [a] and [pa]. *)
Definition map_page (pagetable last perm : Z) (x : Z * Z) : M kmem (Z * Z + Z) :=
  let '(a, pa) := x in
  pte ← walk pagetable a true ;
  if pte =? 0 then ret (inr (-1)) else
  e ← load_pte pte ;
  if has e PTE_V then panic "remap" else
  store_pte pte (Z.lor (Z.lor (PA2PTE pa) perm) PTE_V) ;;
  ret (if a =? last then inr 0 else inl (u64 (a + PGSIZE), u64 (pa + PGSIZE))).

Definition mappages (pagetable va size pa perm : Z) : M kmem Z :=
  while_ (map_page pagetable (PGROUNDDOWN (u64 (va + size - 1))) perm) (PGROUNDDOWN va, pa).

(** One turn of the loop of [uvmunmap]. *)
Definition unmap_page (pagetable last : Z) (do_free : bool) (a : Z) : M kmem (Z + unit) :=
  pte ← walk pagetable a false ;
  if pte =? 0 then panic "uvmunmap: walk" else
  e ← load_pte pte ;
  if negb (has e PTE_V) then panic "uvmunmap: not mapped" else
  if PTE_FLAGS e =? PTE_V then panic "uvmunmap: not a leaf" else
  ((if do_free then kfree end_ (PTE2PA e) else ret tt) ;;
   store_pte pte 0 ;;
   ret (if a =? last then inr tt else inl (u64 (a + PGSIZE)))).

Definition uvmunmap (pagetable va size : Z) (do_free : bool) : M kmem unit :=
  while_ (unmap_page pagetable (PGROUNDDOWN (u64 (va + size - 1))) do_free) (PGROUNDDOWN va).

Definition uvmcreate : M kmem Z :=
  pagetable ← kalloc ;
  if pagetable =? 0 then panic "uvmcreate: out of memory" else
  clear_page pagetable ;;
  ret pagetable.

(** [src] is the user initcode, [sz] bytes of it. *)
Definition uvminit (pagetable : Z) (src : list Z) (sz : Z) : M kmem unit :=
  if sz >=? PGSIZE then panic "inituvm: more than a page" else
  mem ← kalloc ;
  clear_page mem ;;
  mappages pagetable 0 PGSIZE mem (Z.lor (Z.lor (Z.lor PTE_W PTE_R) PTE_X) PTE_U) ;;
  modify (fun k => k <| ram := write_bytes (ram k) mem (take (Z.to_nat sz) src) |>).

Definition uvmdealloc (pagetable oldsz newsz : Z) : M kmem Z :=
  if newsz >=? oldsz then ret oldsz else
  let newup := PGROUNDUP newsz in
  (if newup <? PGROUNDUP oldsz then uvmunmap pagetable newup (oldsz - newup) true else ret tt) ;;
  ret newsz.

(** One turn of the loop of [uvmalloc]. *)
Definition alloc_page (pagetable oldsz newsz a : Z) : M kmem (Z + Z) :=
  if negb (a <? newsz) then ret (inr newsz) else
  mem ← kalloc ;
  if mem =? 0 then uvmdealloc pagetable a oldsz ;; ret (inr 0) else
  clear_page mem ;;
  r ← mappages pagetable a PGSIZE mem (Z.lor (Z.lor (Z.lor PTE_W PTE_X) PTE_R) PTE_U) ;
  if negb (r =? 0)
  then kfree end_ mem ;; uvmdealloc pagetable a oldsz ;; ret (inr 0)
  else ret (inl (u64 (a + PGSIZE))).

Definition uvmalloc (pagetable oldsz newsz : Z) : M kmem Z :=
  if newsz <? oldsz then ret oldsz else
  let oldsz := PGROUNDUP oldsz in
  while_ (alloc_page pagetable oldsz newsz) oldsz.

(** The loop of [freewalk] over the entries of a page-table page, [n] of them
    from entry [i] on; [freewalk] is the recursive call. *)
Fixpoint free_entries (freewalk : Z -> M kmem unit) (pagetable : Z) (n : nat) (i : Z) : M kmem unit :=
  match n with
  | O => ret tt
  | S n =>
      pte ← load_pte (pagetable + 8 * i) ;
      (if has pte PTE_V && (Z.land pte (Z.lor (Z.lor PTE_R PTE_W) PTE_X) =? 0)
       then freewalk (PTE2PA pte) ;; store_pte (pagetable + 8 * i) 0
       else if has pte PTE_V then panic "freewalk: leaf" else ret tt) ;;
      free_entries freewalk pagetable n (i + 1)
  end.

(** [depth] bounds the recursion; a page table has three levels. *)
Fixpoint freewalk (depth : nat) (pagetable : Z) : M kmem unit :=
  match depth with
  | O => panic "out of fuel"
  | S depth => free_entries (freewalk depth) pagetable 512 0 ;; kfree end_ pagetable
  end.

Definition uvmfree (pagetable sz : Z) : M kmem unit :=
  uvmunmap pagetable 0 sz true ;;
  freewalk 3 pagetable.

(** One turn of the loop of [uvmcopy]; [inr false] is [goto err], with [i]. *)
Definition copy_page (old new sz i : Z) : M kmem (Z + (bool * Z)) :=
  if negb (i <? sz) then ret (inr (true, i)) else
  pte ← walk old i false ;
  if pte =? 0 then panic "uvmcopy: pte should exist" else
  e ← load_pte pte ;
  if negb (has e PTE_V) then panic "uvmcopy: page not present" else
  let pa := PTE2PA e in
  let flags := PTE_FLAGS e in
  mem ← kalloc ;
  if mem =? 0 then ret (inr (false, i)) else
  modify (fun k => k <| ram := memmove (ram k) mem pa PGSIZE |>) ;;
  r ← mappages new i PGSIZE mem flags ;
  if negb (r =? 0) then kfree end_ mem ;; ret (inr (false, i))
  else ret (inl (u64 (i + PGSIZE))).

Definition uvmcopy (old new sz : Z) : M kmem Z :=
  r ← while_ (copy_page old new sz) 0 ;
  let '(ok, i) := r : bool * Z in
  if ok then ret 0 else uvmunmap new 0 i true ;; ret (-1).

Definition uvmclear (pagetable va : Z) : M kmem unit :=
  pte ← walk pagetable va false ;
  if pte =? 0 then panic "uvmclear" else
  e ← load_pte pte ;
  store_pte pte (Z.ldiff e PTE_U).

(** One turn of the loop of [copyout]; [src] is what is left to copy. *)
Definition copyout_page (pagetable : Z) (x : Z * list Z * Z) : M kmem (Z * list Z * Z + Z) :=
  let '(dstva, src, len) := x in
  if negb (len >? 0) then ret (inr 0) else
  let va0 := PGROUNDDOWN dstva in
  pa0 ← walkaddr pagetable va0 ;
  if pa0 =? 0 then ret (inr (-1)) else
  let n := PGSIZE - (dstva - va0) in
  let n := if n >? len then len else n in
  modify (fun k => k <| ram := write_bytes (ram k) (pa0 + (dstva - va0)) (take (Z.to_nat n) src) |>) ;;
  ret (inl (u64 (va0 + PGSIZE), drop (Z.to_nat n) src, len - n)).

Definition copyout (pagetable dstva : Z) (src : list Z) (len : Z) : M kmem Z :=
  while_ (copyout_page pagetable) (dstva, src, len).

(** One turn of the loop of [copyin]; [dst] is what has been copied. *)
Definition copyin_page (pagetable : Z) (x : list Z * Z * Z) : M kmem (list Z * Z * Z + (Z * list Z)) :=
  let '(dst, srcva, len) := x in
  if negb (len >? 0) then ret (inr (0, dst)) else
  let va0 := PGROUNDDOWN srcva in
  pa0 ← walkaddr pagetable va0 ;
  if pa0 =? 0 then ret (inr (-1, dst)) else
  let n := PGSIZE - (srcva - va0) in
  let n := if n >? len then len else n in
  bytes ← gets (fun k => read_bytes (ram k) (pa0 + (srcva - va0)) (Z.to_nat n)) ;
  ret (inl (dst ++ bytes, u64 (va0 + PGSIZE), len - n)).

(** The result of the call and the bytes stored at [dst]. *)
Definition copyin (pagetable srcva len : Z) : M kmem (Z * list Z) :=
  while_ (copyin_page pagetable) ([], srcva, len).

(** The inner loop of [copyinstr]: at most [n] bytes from [p] on; the bytes
    copied, and whether the NUL (copied too) was found. *)
Fixpoint copystr_bytes (n : nat) (m : mem) (p : Z) : list Z * bool :=
  match n with
  | O => ([], false)
  | S n => if m p =? 0 then ([0], true)
           else let '(bs, got_null) := copystr_bytes n m (p + 1) in (m p :: bs, got_null)
  end.

Definition copyinstr_page (pagetable : Z) (x : list Z * Z * Z) : M kmem (list Z * Z * Z + (Z * list Z)) :=
  let '(dst, srcva, max) := x in
  if negb (max >? 0) then ret (inr (-1, dst)) else
  let va0 := PGROUNDDOWN srcva in
  pa0 ← walkaddr pagetable va0 ;
  if pa0 =? 0 then ret (inr (-1, dst)) else
  let n := PGSIZE - (srcva - va0) in
  let n := if n >? max then max else n in
  r ← gets (fun k => copystr_bytes (Z.to_nat n) (ram k) (pa0 + (srcva - va0))) ;
  let '(bs, got_null) := r : list Z * bool in
  ret (if got_null then inr (0, dst ++ bs)
       else inl (dst ++ bs, u64 (va0 + PGSIZE), max - n)).

Definition copyinstr (pagetable srcva max : Z) : M kmem (Z * list Z) :=
  while_ (copyinstr_page pagetable) ([], srcva, max).

(** ** The kernel's page table *)

Record kvm : Type := Kvm {
  kvm_mem : kmem;
  kernel_pagetable : Z;
}.

#[local] Instance kvm_eta : Eta kvm := fun v => Kvm (kvm_mem v) (kernel_pagetable v).

Definition in_mem {A} (m : M kmem A) : M kvm A := zoom kvm_mem (fun k v => v <| kvm_mem := k |>) m.

Definition kvmmap (va pa sz perm : Z) : M kvm unit :=
  pt ← gets kernel_pagetable ;
  r ← in_mem (mappages pt va sz pa perm) ;
  if negb (r =? 0) then panic "kvmmap" else ret tt.

(** [etext] and [trampoline] are the linker's symbols. *)
Definition kvminit (etext trampoline : Z) : M kvm unit :=
  let RW := Z.lor PTE_R PTE_W in
  let RX := Z.lor PTE_R PTE_X in
  pt ← in_mem kalloc ;
  modify (fun v => v <| kernel_pagetable := pt |>) ;;
  in_mem (clear_page pt) ;;
  kvmmap UART0 UART0 PGSIZE RW ;;
  kvmmap (VIRTION 0) (VIRTION 0) PGSIZE RW ;;
  kvmmap (VIRTION 1) (VIRTION 1) PGSIZE RW ;;
  kvmmap CLINT CLINT 0x10000 RW ;;
  kvmmap PLIC PLIC 0x400000 RW ;;
  kvmmap KERNBASE KERNBASE (u64 (etext - KERNBASE)) RX ;;
  kvmmap etext etext (u64 (PHYSTOP - etext)) RW ;;
  kvmmap TRAMPOLINE trampoline PGSIZE RX.

Definition kvmpa (va : Z) : M kvm Z :=
  let off := va mod PGSIZE in
  pt ← gets kernel_pagetable ;
  pte ← in_mem (walk pt va false) ;
  if pte =? 0 then panic "kvmpa" else
  e ← in_mem (load_pte pte) ;
  if negb (has e PTE_V) then panic "kvmpa" else
  ret (PTE2PA e + off).

End Vm.
