(* ===== verification/VmSpec.v ===== *)
(** * What a page table means

    [pte_of m root va] is the page-table entry of [va], 0 when there is none.
    The invariant [pt_inv] assigns to every page-table page its coordinates: the
    level and the part of the virtual address above it.  Two page-table pages
    with different coordinates are different, so that a change to the entry of
    one virtual page cannot reach another. *)
From stdpp Require Import base list gmap strings.
From Stdlib Require Import ZArith Lia.
From S2P Require Import Prelude KString Riscv Kalloc Vm.

#[local] Open Scope Z_scope.
#[local] Open Scope xv6_scope.

(** The entry of [va] below the page-table page [p] of level [level]. *)
Fixpoint lookup_pte (level : nat) (m : mem) (p va : Z) : Z :=
  match level with
  | O => load64 m (p + 8 * PX 0 va)
  | S l => let e := load64 m (p + 8 * PX (Z.of_nat level) va) in
           if has e PTE_V then lookup_pte l m (PTE2PA e) va else 0
  end.

(** The level-0 page-table page of [va]. *)
Fixpoint find_table (level : nat) (m : mem) (p va : Z) : option Z :=
  match level with
  | O => Some p
  | S l => let e := load64 m (p + 8 * PX (Z.of_nat level) va) in
           if has e PTE_V then find_table l m (PTE2PA e) va else None
  end.

Definition pte_of (m : mem) (root va : Z) : Z := lookup_pte 2 m root va.

#[global] Arguments pte_of : simpl never.

(** The virtual address bits above a page-table page of level [l]. *)
Definition above (l : nat) (va : Z) : Z := va / 2 ^ (21 + 9 * Z.of_nat l).

Definition in_page (p a : Z) : Prop := p <= a < p + PGSIZE.

Section Spec.

Context (end_ : Z).
Hypothesis end_pos : 0 < end_.

Record pt_inv (m : mem) (root : Z) (T : gmap Z (nat * Z)) : Prop := {
  pi_root : T !! root = Some (2%nat, 0);
  pi_page : forall p x, T !! p = Some x -> page_ok end_ p;
  pi_entry : forall p l pre i, T !! p = Some (S l, pre) -> 0 <= i < 512 ->
    has (load64 m (p + 8 * i)) PTE_V = false \/
    exists c, load64 m (p + 8 * i) = Z.lor (PA2PTE c) PTE_V /\ T !! c = Some (l, pre * 512 + i);
  pi_reach : forall c l pre, T !! c = Some (l, pre) -> c = root \/
    exists p pre' i, T !! p = Some (S l, pre') /\ 0 <= i < 512 /\ pre = pre' * 512 + i /\
      load64 m (p + 8 * i) = Z.lor (PA2PTE c) PTE_V;
  pi_level : forall p l pre, T !! p = Some (l, pre) -> (l <= 2)%nat /\ (l = 2%nat -> p = root);
  pi_max : forall p l pre, T !! p = Some (l, pre) -> 0 <= pre * 2 ^ (21 + 9 * Z.of_nat l) < MAXVA;
}.

(** The free list is [l] and the page table at [root] has the pages [T]. *)
Record vmrep (k : kmem) (l : list Z) (root : Z) (T : gmap Z (nat * Z)) : Prop := {
  vr_kmem : kmem_inv end_ k l;
  vr_pt : pt_inv (ram k) root T;
  vr_free : forall p, is_Some (T !! p) -> p ∉ l;
}.

(** ** Entries and coordinates *)

Lemma has_0 f : has 0 f = false.
Proof. done. Qed.

Lemma has_V_mod e : has e PTE_V = negb (e mod 2 =? 0).
Proof. unfold has, PTE_V. change (Z.shiftl 1 0) with (Z.ones 1). by rewrite Z.land_ones by lia. Qed.

Lemma mk_pte pa fl :
  0 <= fl < 2 ^ 10 -> Z.lor (PA2PTE pa) fl = pa / 2 ^ 12 * 2 ^ 10 + fl.
Proof. intros. rewrite PA2PTE_div. apply lor_low; lia. Qed.

Lemma has_V_mk pa : has (Z.lor (PA2PTE pa) PTE_V) PTE_V = true.
Proof. rewrite has_V_mod, mk_pte by done. change PTE_V with 1. zlia. Qed.

Lemma mk_pte_u64 pa fl :
  page_ok end_ pa -> 0 <= fl < 2 ^ 10 -> u64 (Z.lor (PA2PTE pa) fl) = Z.lor (PA2PTE pa) fl.
Proof.
  intros [_ H] Hf. rewrite mk_pte by done. apply u64_small. unfold PHYSTOP, KERNBASE in H. zlia.
Qed.

Lemma above_step l va : above l va = above (S l) va * 512 + PX (Z.of_nat (S l)) va.
Proof.
  unfold above. rewrite PX_div by lia. unfold PXSHIFT, PGSHIFT.
  replace (21 + 9 * Z.of_nat (S l)) with (12 + 9 * Z.of_nat (S l) + 9) by lia.
  replace (21 + 9 * Z.of_nat l) with (12 + 9 * Z.of_nat (S l)) by lia.
  rewrite (Z.pow_add_r 2 _ 9) by lia. rewrite <- Z.div_div by (try apply Z.pow_nonzero; lia).
  set (x := va / 2 ^ (12 + 9 * Z.of_nat (S l))). change (2 ^ 9) with 512. zlia.
Qed.

Lemma above_2 va : 0 <= va < MAXVA -> above 2 va = 0.
Proof. intros H. unfold above. change MAXVA with (2 ^ 38) in H. apply Z.div_small. change (21 + 9 * Z.of_nat 2) with 39. zpow. lia. Qed.

Lemma above_max l va : 0 <= va < MAXVA -> 0 <= above l va * 2 ^ (21 + 9 * Z.of_nat l) < MAXVA.
Proof.
  intros H. unfold above. pose proof (Z.pow_pos_nonneg 2 (21 + 9 * Z.of_nat l) ltac:(lia) ltac:(lia)).
  pose proof (Z.mul_div_le va (2 ^ (21 + 9 * Z.of_nat l)) ltac:(lia)).
  pose proof (Z.div_pos va (2 ^ (21 + 9 * Z.of_nat l)) ltac:(lia) ltac:(lia)). nia.
Qed.

(** Same entry, same page. *)
Lemma same_page va va' : above 0 va = above 0 va' -> PX 0 va = PX 0 va' -> va / PGSIZE = va' / PGSIZE.
Proof.
  unfold above, PX, PXSHIFT, PGSHIFT, PXMASK, PGSIZE. change 0x1FF with (Z.ones 9).
  rewrite !Z.land_ones, !Z.shiftr_div_pow2 by lia. change (21 + 9 * Z.of_nat 0) with 21.
  change (12 + 9 * 0) with 12. zlia.
Qed.

Lemma same_page_PX l va va' : va / PGSIZE = va' / PGSIZE -> PX (Z.of_nat l) va = PX (Z.of_nat l) va'.
Proof.
  intros E. rewrite !PX_div by lia. unfold PXSHIFT, PGSHIFT. f_equal.
  replace (12 + 9 * Z.of_nat l) with (12 + (9 * Z.of_nat l)) by lia.
  rewrite !Z.pow_add_r by lia. rewrite <- !Z.div_div by (try apply Z.pow_nonzero; lia).
  unfold PGSIZE in E. change (2 ^ 12) with 4096. by rewrite E.
Qed.

Lemma lookup_same_page l m p va va' :
  va / PGSIZE = va' / PGSIZE -> lookup_pte l m p va = lookup_pte l m p va'.
Proof.
  intros E. revert p. induction l as [|l IH]; intros p; cbn [lookup_pte].
  - pose proof (same_page_PX 0 va va' E) as H. change (Z.of_nat 0) with 0 in H. by rewrite H.
  - rewrite (same_page_PX (S l) va va' E). destruct (has _ _); auto.
Qed.

Lemma find_same_page l m p va va' :
  va / PGSIZE = va' / PGSIZE -> find_table l m p va = find_table l m p va'.
Proof.
  intros E. revert p. induction l as [|l IH]; intros p; cbn [find_table]; [done|].
  rewrite (same_page_PX (S l) va va' E). destruct (has _ _); auto.
Qed.

Lemma lookup_find l m p va :
  lookup_pte l m p va = match find_table l m p va with
                        | Some q => load64 m (q + 8 * PX 0 va)
                        | None => 0
                        end.
Proof. revert p. induction l as [|l IH]; intros p; cbn; [done|]. destruct (has _ _); auto. Qed.

Section Table.

Context (m : mem) (root : Z) (T : gmap Z (nat * Z)).
Hypothesis I : pt_inv m root T.

Lemma child_table l p va :
  T !! p = Some (S l, above (S l) va) ->
  let e := load64 m (p + 8 * PX (Z.of_nat (S l)) va) in
  has e PTE_V = true -> T !! PTE2PA e = Some (l, above l va).
Proof.
  intros Hp e He. destruct (pi_entry _ _ _ I p l _ (PX (Z.of_nat (S l)) va) Hp) as [H|(c & Ec & Hc)].
  { apply PX_range. lia. }
  - unfold e in He. congruence.
  - unfold e. rewrite Ec, PTE2PA_mk; [by rewrite above_step|apply (pi_page _ _ _ I _ _ Hc)|done].
Qed.

Lemma find_table_in l p va q :
  T !! p = Some (l, above l va) -> find_table l m p va = Some q -> T !! q = Some (0%nat, above 0 va).
Proof.
  revert p. induction l as [|l IH]; intros p Hp; cbn [find_table]; [by intros [= <-]|].
  destruct (has _ _) eqn:E; [|done]. apply IH. by apply child_table.
Qed.

Lemma table_apart p q : is_Some (T !! p) -> is_Some (T !! q) -> p <> q -> p + PGSIZE <= q \/ q + PGSIZE <= p.
Proof.
  intros [x Hp] [y Hq] Hne. apply pages_apart; [apply (pi_page _ _ _ I _ _ Hp)|apply (pi_page _ _ _ I _ _ Hq)|done].
Qed.

End Table.

(** ** Reading *)

Lemma walk_loop_false l p va k : walk_loop l p va false k = Ok (find_table l (ram k) p va) k.
Proof.
  revert p. induction l as [|l IH]; intros p; [done|]. cbn [walk_loop find_table].
  unfold bind, walk_level, load_pte, gets, ret, bind. destruct (has _ _); [by rewrite IH|done].
Qed.

(** [walk] without [alloc] finds the entry and changes nothing. *)
Lemma walk_false root va k :
  va < MAXVA ->
  walk root va false k =
    Ok (match find_table 2 (ram k) root va with Some p => p + 8 * PX 0 va | None => 0 end) k.
Proof.
  intros H. unfold walk. rewrite Z.geb_leb, (proj2 (Z.leb_gt _ _)) by done.
  rewrite (bind_Ok _ _ _ _ _ (walk_loop_false 2 root va k)). by destruct (find_table _ _ _ _).
Qed.

Lemma slot_pos p i : page_ok end_ p -> 0 <= i < 512 -> 0 < p + 8 * i.
Proof. intros [_ H] Hi. lia. Qed.

Lemma walkaddr_lookup root va k T :
  pt_inv (ram k) root T -> 0 <= va ->
  walkaddr root va k =
    Ok (let e := pte_of (ram k) root va in
        if (va <? MAXVA) && has e PTE_V && has e PTE_U then PTE2PA e else 0) k.
Proof.
  intros I H0. unfold walkaddr. rewrite Z.geb_leb, Z.leb_antisym.
  destruct (Z.ltb_spec va MAXVA) as [H|H]; cbn [negb andb]; [|done].
  rewrite (bind_Ok _ _ _ _ _ (walk_false root va k H)). unfold pte_of. rewrite lookup_find.
  destruct (find_table 2 (ram k) root va) as [p|] eqn:E; cbn [Z.eqb]; [|by rewrite has_0].
  assert (Hp : T !! p = Some (0%nat, above 0 va)).
  { apply (find_table_in _ _ _ I 2 root); [by rewrite above_2, (pi_root _ _ _ I)|done]. }
  assert (Hz : (p + 8 * PX 0 va =? 0) = false).
  { apply Z.eqb_neq. pose proof (slot_pos p (PX 0 va) (pi_page _ _ _ I _ _ Hp) (PX_range 0 va ltac:(lia))). lia. }
  rewrite Hz. unfold bind, load_pte, gets. by destruct (has _ PTE_V), (has _ PTE_U).
Qed.

(** ** Writing an entry *)

Lemma load_slot m p i v q j :
  p mod PGSIZE = 0 -> q mod PGSIZE = 0 -> 0 <= i < 512 -> 0 <= j < 512 ->
  load64 (store64 m (p + 8 * i) v) (q + 8 * j) =
    if decide (q = p /\ j = i) then u64 v else load64 m (q + 8 * j).
Proof.
  intros Hp Hq Hi Hj. case_decide as E; [destruct E as [-> ->]; apply load_store64|].
  apply load_store64_other. destruct (decide (q = p)) as [->|Hne]; [lia|].
  destruct (pages_apart p q Hp Hq ltac:(done)); unfold PGSIZE in *; lia.
Qed.

Lemma store_leaf m root T p pre i v :
  pt_inv m root T -> T !! p = Some (0%nat, pre) -> 0 <= i < 512 ->
  pt_inv (store64 m (p + 8 * i) v) root T /\
  forall l q va, T !! q = Some (l, above l va) ->
    find_table l (store64 m (p + 8 * i) v) q va = find_table l m q va /\
    lookup_pte l (store64 m (p + 8 * i) v) q va =
      if decide (find_table l m q va = Some p /\ PX 0 va = i) then u64 v else lookup_pte l m q va.
Proof.
  intros I Hp Hi. pose proof (pi_page _ _ _ I _ _ Hp) as [Ap _].
  assert (Hint : forall q l' pre' j, T !! q = Some (S l', pre') -> 0 <= j < 512 ->
            load64 (store64 m (p + 8 * i) v) (q + 8 * j) = load64 m (q + 8 * j)).
  { intros q l' pre' j Hq Hj. rewrite load_slot; [|done|apply (pi_page _ _ _ I _ _ Hq)|done|done].
    rewrite decide_False; [done|]. intros [-> _]. congruence. }
  split.
  - destruct I as [I1 I2 I3 I4 I5 I6]. split; [done|done| | |done|done].
    + intros q l' pre' j Hq Hj. rewrite (Hint q l' pre' j Hq Hj). eauto.
    + intros c lv pre' Hc. destruct (I4 c lv pre' Hc) as [->|(q & pre2 & j & Hq & Hj & -> & E)]; [by left|right].
      exists q, pre2, j. by rewrite (Hint q lv pre2 j Hq Hj).
  - induction l as [|l IH]; intros q va Hq; cbn [find_table lookup_pte].
    + split; [done|]. rewrite load_slot; [|done|apply (pi_page _ _ _ I _ _ Hq)|done|apply PX_range; lia].
      destruct (decide (q = p /\ PX 0 va = i)) as [[-> ->]|Hn]; [by rewrite decide_True|].
      rewrite decide_False; [done|]. intros [[= ->] ?]. tauto.
    + rewrite (Hint q _ _ _ Hq) by (apply PX_range; lia).
      destruct (has (load64 m (q + 8 * PX (Z.of_nat (S l)) va)) PTE_V) eqn:E.
      * apply IH. by apply (child_table _ _ _ I).
      * split; [done|]. rewrite decide_False; [done|]. by intros [? _].
Qed.

Lemma pte_store m root T va0 p v :
  pt_inv m root T -> 0 <= va0 < MAXVA -> find_table 2 m root va0 = Some p ->
  pt_inv (store64 m (p + 8 * PX 0 va0) v) root T /\
  forall va, 0 <= va < MAXVA ->
    pte_of (store64 m (p + 8 * PX 0 va0) v) root va =
      if decide (va / PGSIZE = va0 / PGSIZE) then u64 v else pte_of m root va.
Proof.
  intros I H0 Hf. assert (Hr : forall va, 0 <= va < MAXVA -> T !! root = Some (2%nat, above 2 va))
    by (intros; rewrite above_2 by done; apply I).
  pose proof (find_table_in _ _ _ I 2 root va0 p (Hr _ H0) Hf) as Hp.
  destruct (store_leaf m root T p _ (PX 0 va0) v I Hp (PX_range 0 va0 ltac:(lia))) as [I' Hl].
  split; [done|]. intros va Hva. unfold pte_of. destruct (Hl 2%nat root va (Hr va Hva)) as [_ ->].
  destruct (decide (va / PGSIZE = va0 / PGSIZE)) as [E|E].
  - rewrite decide_True; [done|]. split.
    + rewrite <- Hf. by apply find_same_page.
    + apply (same_page_PX 0 va va0 E).
  - rewrite decide_False; [done|]. intros [Hf' Hpx]. apply E, same_page; [|done].
    pose proof (find_table_in _ _ _ I 2 root va p (Hr _ Hva) Hf'). congruence.
Qed.

(** Memory outside the page table's pages does not matter. *)
Lemma pt_frame m m' root T :
  pt_inv m root T -> (forall p a, is_Some (T !! p) -> in_page p a -> m' a = m a) ->
  pt_inv m' root T /\ forall l q va, T !! q = Some (l, above l va) ->
    find_table l m' q va = find_table l m q va /\ lookup_pte l m' q va = lookup_pte l m q va.
Proof.
  intros I Hm.
  assert (Hl : forall q j, is_Some (T !! q) -> 0 <= j < 512 -> load64 m' (q + 8 * j) = load64 m (q + 8 * j)).
  { intros q j Hq Hj. apply load64_ext. intros x Hx. apply (Hm q); [done|]. unfold in_page, PGSIZE. lia. }
  split.
  - destruct I as [I1 I2 I3 I4 I5 I6]. split; [done|done| | |done|done].
    + intros p l pre i Hp Hi. rewrite Hl by (eauto || done). eauto.
    + intros c lv pre Hc. destruct (I4 c lv pre Hc) as [->|(q & pre2 & j & Hq & Hj & -> & E)]; [by left|right].
      exists q, pre2, j. by rewrite Hl by eauto.
  - induction l as [|l IH]; intros q va Hq; cbn [find_table lookup_pte];
      (rewrite Hl; [|eauto|apply PX_range; lia]); [done|].
    destruct (has _ _) eqn:E; [|done]. apply IH. by apply (child_table _ _ _ I).
Qed.

(** ** Adding a page-table page *)

(** [m1] is [m] with the page [q] cleared. *)
Definition cleared_page (m m1 : mem) (q : Z) : Prop :=
  (forall a, in_page q a -> m1 a = 0) /\ (forall a, ~ in_page q a -> m1 a = m a).

Lemma load64_zero m a : (forall x, a <= x < a + 8 -> m x = 0) -> load64 m a = 0.
Proof. intros H. rewrite (load64_ext m (fun _ => 0)) by done. done. Qed.

Section Add.

Context (m m1 : mem) (root : Z) (T : gmap Z (nat * Z)) (p : Z) (l : nat) (pre i q : Z).
Hypothesis I : pt_inv m root T.
Hypothesis Hp : T !! p = Some (S l, pre).
Hypothesis Hi : 0 <= i < 512.
Hypothesis He : has (load64 m (p + 8 * i)) PTE_V = false.
Hypothesis Hq : T !! q = None.
Hypothesis Hqok : page_ok end_ q.
Hypothesis Hcl : cleared_page m m1 q.
Hypothesis Hmax : 0 <= (pre * 512 + i) * 2 ^ (21 + 9 * Z.of_nat l) < MAXVA.

Abbreviation pte := (Z.lor (PA2PTE q) PTE_V).
Abbreviation m' := (store64 m1 (p + 8 * i) pte).
Abbreviation T' := (<[q := (l, pre * 512 + i)]> T).

Lemma add_load_old r j :
  is_Some (T !! r) -> 0 <= j < 512 ->
  load64 m' (r + 8 * j) = if decide (r = p /\ j = i) then pte else load64 m (r + 8 * j).
Proof.
  intros [x Hr] Hj. pose proof (pi_page _ _ _ I _ _ Hr) as [Ar _]. pose proof (pi_page _ _ _ I _ _ Hp) as [Ap _].
  rewrite load_slot by done. case_decide; [by apply mk_pte_u64|].
  apply load64_ext. intros a Ha. apply Hcl. unfold in_page. intros Hin.
  destruct (pages_apart r q Ar (proj1 Hqok) ltac:(congruence)); unfold PGSIZE in *; lia.
Qed.

Lemma add_load_new j : 0 <= j < 512 -> load64 m' (q + 8 * j) = 0.
Proof.
  intros Hj. pose proof (pi_page _ _ _ I _ _ Hp) as [Ap _].
  rewrite load_slot by (done || apply Hqok). rewrite decide_False by (intros [-> _]; congruence).
  apply load64_zero. intros a Ha. apply Hcl. unfold in_page, PGSIZE. lia.
Qed.

Lemma add_lookup_new lv va : lookup_pte lv m' q va = 0.
Proof. destruct lv; cbn [lookup_pte]; rewrite add_load_new by (apply PX_range; lia); done. Qed.

Lemma add_inv : pt_inv m' root T'.
Proof.
  split.
  - rewrite lookup_insert_ne; [apply I|]. intros ->. pose proof (pi_root _ _ _ I). congruence.
  - intros r x. rewrite lookup_insert_Some. intros [[<- _]|[_ Hr]]; [done|by apply (pi_page _ _ _ I r x)].
  - intros r lv pr j Hr Hj. apply lookup_insert_Some in Hr as [[<- _]|[Hne Hr]].
    { left. by rewrite add_load_new. }
    rewrite add_load_old by eauto. case_decide as E.
    + destruct E as [-> ->]. right. exists q. assert (l = lv /\ pre = pr) as [<- <-] by (split; congruence).
      split; [done|]. apply lookup_insert_eq.
    + destruct (pi_entry _ _ _ I r lv pr j Hr Hj) as [?|(c & Ec & Hc)]; [by left|right].
      exists c. split; [done|]. rewrite lookup_insert_ne; [done|congruence].
  - intros c lv pr Hc. apply lookup_insert_Some in Hc as [[<- [= <- <-]]|[Hne Hc]].
    + right. exists p, pre, i. split_and!; try done; try lia; [rewrite lookup_insert_ne by congruence; done|].
      rewrite add_load_old by eauto. by rewrite decide_True.
    + destruct (pi_reach _ _ _ I c lv pr Hc) as [->|(r & pre2 & j & Hr & Hj & -> & E)]; [by left|right].
      exists r, pre2, j. split_and!; try done; try lia; [rewrite lookup_insert_ne by congruence; done|].
      rewrite add_load_old by eauto. rewrite decide_False; [done|]. intros [-> ->].
      rewrite E, has_V_mk in He. done.
  - intros r lv pr Hr. apply lookup_insert_Some in Hr as [[<- [= <- <-]]|[_ Hr]]; [|by apply (pi_level _ _ _ I r lv pr)].
    destruct (pi_level _ _ _ I p (S l) pre Hp). split; lia.
  - intros r lv pr Hr. apply lookup_insert_Some in Hr as [[<- [= <- <-]]|[_ Hr]]; [done|by apply (pi_max _ _ _ I r lv pr)].
Qed.

Lemma add_lookup lv r va :
  T !! r = Some (lv, above lv va) -> lookup_pte lv m' r va = lookup_pte lv m r va.
Proof.
  revert r. induction lv as [|lv IH]; intros r Hr; cbn [lookup_pte];
    (rewrite add_load_old; [|eauto|apply PX_range; lia]).
  - rewrite decide_False; [done|]. intros [-> _]. congruence.
  - case_decide as E.
    + destruct E as [-> ->]. rewrite He, has_V_mk, PTE2PA_mk by (done || apply Hqok). apply add_lookup_new.
    + destruct (has (load64 m (r + 8 * PX (Z.of_nat (S lv)) va)) PTE_V) eqn:Ev; [|done]. apply IH. by apply (child_table _ _ _ I).
Qed.

End Add.

(** The page table has grown by pages of the free list. *)
Record grown (k : kmem) (l : list Z) (T : gmap Z (nat * Z))
             (k' : kmem) (l' : list Z) (T' : gmap Z (nat * Z)) : Prop := {
  g_new : exists new, l = new ++ l' /\ forall p, is_Some (T' !! p) <-> is_Some (T !! p) \/ p ∈ new;
  g_sub : T ⊆ T';
  g_mem : forall a, (forall p, is_Some (T !! p) \/ p ∈ l -> ~ in_page p a) -> ram k' a = ram k a;
  g_keep : forall r lv pre j, T !! r = Some (S lv, pre) -> 0 <= j < 512 ->
    has (load64 (ram k) (r + 8 * j)) PTE_V = true ->
    load64 (ram k') (r + 8 * j) = load64 (ram k) (r + 8 * j);
}.

Lemma grown_refl k l T : grown k l T k l T.
Proof. split; try done. exists []. split; [done|]. intros p. rewrite elem_of_nil. tauto. Qed.

Lemma grown_trans k l T k1 l1 T1 k2 l2 T2 :
  grown k l T k1 l1 T1 -> grown k1 l1 T1 k2 l2 T2 -> grown k l T k2 l2 T2.
Proof.
  intros [(n1 & E1 & D1) S1 M1 K1] [(n2 & E2 & D2) S2 M2 K2]. subst. split.
  - exists (n1 ++ n2). rewrite <- app_assoc. split; [done|]. intros p. rewrite D2, D1, elem_of_app. tauto.
  - by etrans.
  - intros a Ha. rewrite M2, M1; [done|..].
    + intros p Hp. apply Ha. done.
    + intros p Hp. apply Ha. rewrite D1 in Hp. rewrite !elem_of_app in *. tauto.
  - intros r lv pre j Hr Hj Hv. rewrite K2 with (lv := lv) (pre := pre); auto.
    + eapply K1; eauto.
    + eapply lookup_weaken; eauto.
    + rewrite K1 with (lv := lv) (pre := pre); auto.
Qed.

(** The new page-table pages are above addresses in [P]. *)
Definition places (T T' : gmap Z (nat * Z)) (P : Z -> Prop) : Prop := forall p l pre,
  T' !! p = Some (l, pre) -> T !! p = Some (l, pre) \/ exists va, P va /\ pre = above l va.

Lemma places_refl T P : places T T P.
Proof. intros p l pre H. by left. Qed.

Lemma places_trans T T1 T2 P : places T T1 P -> places T1 T2 P -> places T T2 P.
Proof. intros H1 H2 p l pre [H|H]%H2; [by apply H1|by right]. Qed.

Lemma places_mono T T' (P Q : Z -> Prop) : (forall va, P va -> Q va) -> places T T' P -> places T T' Q.
Proof. intros HPQ H p l pre [?|(va & Hva & ?)]%H; [by left|right; eauto]. Qed.

(** ** [walk] with [alloc] *)

(** Memory outside the free pages may change. *)
Lemma kmem_ram k l m' :
  kmem_inv end_ k l -> mem_ok m' -> (forall p a, p ∈ l -> in_page p a -> m' a = ram k a) ->
  kmem_inv end_ (k <| ram := m' |>) l.
Proof.
  intros [H1 H2 H3 H4 H5] Hok Hm. split; cbn; auto.
  apply (chain_ext (ram k)); [|done]. intros x a Hx Ha. symmetry. apply (Hm x); [done|].
  unfold in_page, PGSIZE. lia.
Qed.

Lemma clear_page_cleared m m1 q :
  (forall a, m1 a = if decide (in_page q a) then 5 else m a) -> cleared_page m (memset m1 q 0 PGSIZE) q.
Proof.
  intros H. split; intros a Ha; rewrite memset_get; unfold in_page in *.
  - by rewrite decide_True.
  - rewrite decide_False by done. rewrite H. by rewrite decide_False.
Qed.

Lemma walk_level_alloc k l root T lv p va :
  vmrep k l root T -> 0 <= va < MAXVA -> T !! p = Some (S lv, above (S lv) va) ->
  wp (walk_level (Z.of_nat (S lv)) p va true) (fun r k' => exists l' T',
    vmrep k' l' root T' /\ grown k l T k' l' T' /\
    (forall va', 0 <= va' < MAXVA -> pte_of (ram k') root va' = pte_of (ram k) root va') /\
    (length l <= S (length l'))%nat /\ places T T' (eq va) /\
    match r with
    | None => l = [] /\ l' = []
    | Some q => T' !! q = Some (lv, above lv va) /\
                exists e, load64 (ram k') (p + 8 * PX (Z.of_nat (S lv)) va) = e /\
                          has e PTE_V = true /\ PTE2PA e = q
    end) k.
Proof.
  intros R Hva Hp. pose proof R as [Hk I Hfree]. unfold walk_level, load_pte. apply wp_gets.
  set (i := PX (Z.of_nat (S lv)) va). assert (Hi : 0 <= i < 512) by (apply PX_range; lia).
  destruct (has (load64 (ram k) (p + 8 * i)) PTE_V) eqn:He.
  { apply wp_ret. exists l, T. split_and!; auto using grown_refl, places_refl.
    - exact (child_table _ _ _ I lv p va Hp He).
    - eexists. split_and!; done. }
  cbn [negb]. destruct l as [|q l].
  { unfold wp, bind. rewrite (kalloc_none _ _ Hk). cbn. exists [], T. split_and!; auto using grown_refl, places_refl. }
  pose proof Hk as [_ _ Hnd Hpg Hok]. apply Forall_cons in Hpg as [Hqok Hpg]. apply NoDup_cons in Hnd as [Hql Hnd].
  destruct (kalloc_some _ end_pos _ _ _ Hk) as (k1 & E1 & Hk1 & Hm1).
  unfold wp, bind at 1. rewrite E1. pose proof (page_ok_range _ end_pos _ Hqok).
  rewrite (proj2 (Z.eqb_neq q 0)) by lia.
  unfold clear_page, store_pte, modify, bind, ret. cbn.
  set (m1 := memset (ram k1) q 0 PGSIZE). set (m' := store64 _ _ _).
  assert (Hcl : cleared_page (ram k) m1 q) by (by apply clear_page_cleared).
  assert (Hq : T !! q = None).
  { destruct (T !! q) eqn:E; [|done]. exfalso. apply (Hfree q); [eauto|by left]. }
  assert (Hout : forall a, (forall r, is_Some (T !! r) \/ r ∈ q :: l -> ~ in_page r a) -> m' a = ram k a).
  { intros a Ha. unfold m'. rewrite store64_outside; [apply Hcl, Ha; right; by left|].
    specialize (Ha p (or_introl (mk_is_Some _ _ Hp))). unfold in_page, PGSIZE in Ha. lia. }
  assert (Hap : forall r, r ∈ l -> r <> p) by (intros r Hr ->; apply (Hfree p); [eauto|by right]).
  assert (Hin : forall r a, r ∈ l -> in_page r a -> m' a = ram k1 a).
  { intros r a Hr Ha. pose proof (proj1 (Forall_forall _ _) Hpg r Hr) as [Ar _].
    assert (r <> q) by congruence. pose proof (pi_page _ _ _ I _ _ Hp) as [Ap _].
    destruct (pages_apart r p Ar Ap (Hap r Hr)); unfold m', in_page, PGSIZE in *;
      (rewrite store64_outside by lia); unfold m1; rewrite memset_get, decide_False; auto;
      destruct (pages_apart r q Ar (proj1 Hqok) ltac:(done)); unfold PGSIZE in *; lia. }
  exists l, (<[q := (lv, above (S lv) va * 512 + i)]> T). split_and!.
  - split; cbn.
    + apply (kmem_ram k1 l m'); [done| |exact Hin]. apply store64_ok, memset_ok, Hk1.
    + apply (add_inv (ram k)); auto. unfold i. rewrite <- above_step. by apply above_max.
    + intros r [x Hr]. apply lookup_insert_Some in Hr as [[<- _]|[_ Hr]]; [done|].
      intros Hrl. apply (Hfree r); [eauto|by right].
  - split; cbn.
    + exists [q]. split; [done|]. intros r. rewrite lookup_insert_is_Some, list_elem_of_singleton.
      destruct (decide (q = r)); naive_solver.
    + by apply insert_subseteq.
    + exact Hout.
    + intros r lv' pre j Hr Hj Hv. unfold m'. rewrite (add_load_old (ram k) m1 root T p lv (above (S lv) va) i q); eauto.
      rewrite decide_False; [done|]. intros [-> ->]. congruence.
  - intros va' Hva'. unfold pte_of. apply (add_lookup (ram k) m1 root T p lv (above (S lv) va) i q); auto.
    rewrite above_2 by done. apply I.
  - done.
  - intros r l' pre Hr. apply lookup_insert_Some in Hr as [[<- [= <- <-]]|[_ Hr]]; [right|by left]. exists va. by rewrite (above_step lv va).
  - rewrite lookup_insert_eq. by rewrite (above_step lv va).
  - unfold m'. rewrite load_store64, mk_pte_u64 by done. eexists. split; [reflexivity|].
    rewrite has_V_mk, PTE2PA_mk by (done || apply Hqok). done.
Qed.

(** [walk] with [alloc] leaves every entry as it was and finds the place of the
    entry of [va], unless memory runs out. *)
Lemma walk_loop_alloc lv : forall k l root T p va,
  vmrep k l root T -> 0 <= va < MAXVA -> T !! p = Some (lv, above lv va) ->
  wp (walk_loop lv p va true) (fun r k' => exists l' T',
    vmrep k' l' root T' /\ grown k l T k' l' T' /\
    (forall va', 0 <= va' < MAXVA -> pte_of (ram k') root va' = pte_of (ram k) root va') /\
    (length l <= lv + length l')%nat /\ places T T' (eq va) /\
    match r with
    | None => l' = [] /\ (length l < lv)%nat
    | Some q => find_table lv (ram k') p va = Some q
    end) k.
Proof.
  induction lv as [|lv IH]; intros k l root T p va R Hva Hp; cbn [walk_loop].
  { apply wp_ret. exists l, T. split_and!; auto using grown_refl, places_refl. }
  eapply wp_seq; [by apply walk_level_alloc|]. intros [q|] k1 (l1 & T1 & R1 & G1 & V1 & L1 & P1 & H1).
  2:{ apply wp_ret. destruct H1 as [-> ->]. exists [], T1. split_and!; auto; cbn; lia. }
  destruct H1 as [Hq (e & Ee & Hv & Eq)].
  eapply wp_mono; [by apply (IH k1 l1 root T1 q va)|]. intros r k2 (l2 & T2 & R2 & G2 & V2 & L2 & P2 & H2).
  exists l2, T2. split_and!; [done|by eapply grown_trans|intros; by rewrite V2, V1|lia|by eapply places_trans|].
  destruct r as [q'|]; [|destruct H2; split; [done|lia]]. cbn [find_table].
  rewrite (g_keep _ _ _ _ _ _ G2 p lv (above (S lv) va)); [|by eapply lookup_weaken; [|apply G1]|apply PX_range; lia|congruence].
  by rewrite Ee, Hv, Eq.
Qed.

Lemma walk_alloc k l root T va :
  vmrep k l root T -> 0 <= va < MAXVA ->
  wp (walk root va true) (fun r k' => exists l' T',
    vmrep k' l' root T' /\ grown k l T k' l' T' /\
    (forall va', 0 <= va' < MAXVA -> pte_of (ram k') root va' = pte_of (ram k) root va') /\
    (length l <= 2 + length l')%nat /\ places T T' (eq va) /\
    ((r = 0 /\ l' = [] /\ (length l < 2)%nat) \/ exists q, r = q + 8 * PX 0 va /\ r <> 0 /\ find_table 2 (ram k') root va = Some q)) k.
Proof.
  intros R Hva. unfold walk. rewrite Z.geb_leb, (proj2 (Z.leb_gt _ _)) by lia.
  eapply wp_seq; [apply (walk_loop_alloc 2 k l root T root va R Hva)|].
  { rewrite above_2 by done. apply R. }
  intros [q|] k' (l' & T' & R' & G & V & L & P & H); apply wp_ret; exists l', T'; split_and!; auto.
  right. exists q. split_and!; auto. destruct R' as [_ I' _].
  assert (Hq : T' !! q = Some (0%nat, above 0 va))
    by (eapply (find_table_in _ _ _ I' 2 root); [rewrite above_2 by done; apply I'|done]).
  pose proof (slot_pos q (PX 0 va) (pi_page _ _ _ I' _ _ Hq) (PX_range 0 va ltac:(lia))). lia.
Qed.

(** ** Leaf entries *)

(** The entry [mappages] writes. *)
Definition leaf (pa perm : Z) : Z := Z.lor (Z.lor (PA2PTE pa) perm) PTE_V.

Lemma flags_V perm : 0 <= perm < 2 ^ 10 -> 0 <= Z.lor perm PTE_V < 2 ^ 10.
Proof.
  intros H. split; [apply Z.lor_nonneg; split; [lia|done]|].
  apply Z.log2_lt_cancel. change (Z.log2 (2 ^ 10)) with 10. rewrite Z.log2_lor by (done || lia).
  apply Z.max_lub_lt; [|done]. destruct (decide (perm = 0)) as [->|]; [done|]. apply Z.log2_lt_pow2; lia.
Qed.

Lemma leaf_eq pa perm : leaf pa perm = Z.lor (PA2PTE pa) (Z.lor perm PTE_V).
Proof. unfold leaf. by rewrite Z.lor_assoc. Qed.

Lemma leaf_V pa perm : 0 <= perm < 2 ^ 10 -> has (leaf pa perm) PTE_V = true.
Proof.
  intros H. unfold has. rewrite leaf_eq, Z.land_lor_distr_l.
  apply negb_true_iff, Z.eqb_neq. intros E. apply Z.lor_eq_0_iff in E as [_ E].
  rewrite Z.land_lor_distr_l in E. apply Z.lor_eq_0_iff in E as [_ E]. done.
Qed.

Lemma leaf_PA pa perm : pa mod PGSIZE = 0 -> 0 <= perm < 2 ^ 10 -> PTE2PA (leaf pa perm) = pa.
Proof. intros. rewrite leaf_eq. by apply PTE2PA_mk, flags_V. Qed.

Lemma leaf_flags pa perm : 0 <= perm < 2 ^ 10 -> PTE_FLAGS (leaf pa perm) = Z.lor perm PTE_V.
Proof. intros. rewrite leaf_eq. by apply PTE_FLAGS_mk, flags_V. Qed.

Lemma leaf_u64 pa perm : 0 <= pa < 2 ^ 56 -> 0 <= perm < 2 ^ 10 -> u64 (leaf pa perm) = leaf pa perm.
Proof.
  intros Hpa Hp. rewrite leaf_eq, mk_pte by (by apply flags_V). pose proof (flags_V _ Hp).
  apply u64_small. zlia.
Qed.

(** Writing a leaf entry in place. *)
Lemma store_leaf_rep k l root T va p v :
  vmrep k l root T -> 0 <= va < MAXVA -> find_table 2 (ram k) root va = Some p ->
  let k' := k <| ram := store64 (ram k) (p + 8 * PX 0 va) v |> in
  vmrep k' l root T /\ grown k l T k' l T /\
  forall va', 0 <= va' < MAXVA -> pte_of (ram k') root va' =
    if decide (va' / PGSIZE = va / PGSIZE) then u64 v else pte_of (ram k) root va'.
Proof.
  intros [Hk I Hfree] Hva Hf k'. destruct (pte_store _ _ _ va p v I Hva Hf) as [I' Hl].
  assert (Hp : T !! p = Some (0%nat, above 0 va))
    by (eapply (find_table_in _ _ _ I 2 root); [rewrite above_2 by done; apply I|done]).
  pose proof (pi_page _ _ _ I _ _ Hp) as [Ap _]. pose proof (PX_range 0 va ltac:(lia)) as Hi.
  split_and!; [split; [|done|done]|split|done].
  - apply kmem_ram; [done|apply store64_ok, Hk|]. intros r a Hr Ha.
    assert (Hne : r <> p) by (intros ->; apply (Hfree p); eauto).
    destruct Hk as [_ _ _ Hpg _]. pose proof (proj1 (Forall_forall _ _) Hpg r Hr) as [Ar _].
    apply store64_outside. destruct (pages_apart r p Ar Ap Hne); unfold in_page, PGSIZE in *; lia.
  - exists []. split; [done|]. intros r. rewrite elem_of_nil. tauto.
  - done.
  - intros a Ha. cbn. apply store64_outside. specialize (Ha p (or_introl (mk_is_Some _ _ Hp))).
    unfold in_page, PGSIZE in Ha. lia.
  - intros r lv pre j Hr Hj _. cbn. rewrite load_slot; [|done|apply (pi_page _ _ _ I _ _ Hr)|done|done].
    rewrite decide_False; [done|]. intros [-> _]. congruence.
Qed.

(** ** [mappages] *)

Definition mapped (V : Z -> Z) (a0 pa perm j va : Z) : Z :=
  if decide (a0 / PGSIZE <= va / PGSIZE < a0 / PGSIZE + j)
  then leaf (pa + (va / PGSIZE - a0 / PGSIZE) * PGSIZE) perm else V va.

Lemma map_page_spec k l root T a pa last perm :
  vmrep k l root T -> 0 <= a < MAXVA -> has (pte_of (ram k) root a) PTE_V = false ->
  0 <= pa < 2 ^ 56 -> 0 <= perm < 2 ^ 10 ->
  wp (map_page root last perm (a, pa)) (fun r k' => exists l' T',
    vmrep k' l' root T' /\ grown k l T k' l' T' /\
    (length l <= 2 + length l')%nat /\ places T T' (eq a) /\
    ((r = inr (-1) /\ l' = [] /\ (length l < 2)%nat /\
      forall va, 0 <= va < MAXVA -> pte_of (ram k') root va = pte_of (ram k) root va) \/
     (r = (if a =? last then inr 0 else inl (u64 (a + PGSIZE), u64 (pa + PGSIZE))) /\
      forall va, 0 <= va < MAXVA -> pte_of (ram k') root va =
        if decide (va / PGSIZE = a / PGSIZE) then leaf pa perm else pte_of (ram k) root va))) k.
Proof.
  intros R Ha Hv Hpa Hperm. unfold map_page.
  eapply wp_seq; [by apply (walk_alloc k l root T a)|].
  intros pte k1 (l1 & T1 & R1 & G1 & V1 & L1 & P1 & [(-> & -> & L2)|(q & -> & Hnz & Hf)]).
  - apply wp_ret. exists [], T1. split_and!; auto.
  - rewrite (proj2 (Z.eqb_neq _ 0)) by done. unfold load_pte. apply wp_gets.
    assert (E : load64 (ram k1) (q + 8 * PX 0 a) = pte_of (ram k) root a).
    { rewrite <- V1 by done. unfold pte_of. by rewrite lookup_find, Hf. }
    rewrite E, Hv. unfold store_pte. apply wp_modify, wp_ret.
    destruct (store_leaf_rep k1 l1 root T1 a q (leaf pa perm) R1 Ha Hf) as (R2 & G2 & V2).
    exists l1, T1. split_and!; [done|by eapply grown_trans|done|done|]. right. split; [done|].
    intros va Hva. rewrite V2 by done. rewrite leaf_u64 by done. case_decide; [done|]. by apply V1.
Qed.

(** [n] pages from the page of [va] on: they are all mapped, or memory ran out
    and a first part of them is. *)
Lemma mappages_places k l root T va size pa perm n :
  vmrep k l root T -> 0 <= va -> 0 < size -> va + size <= MAXVA ->
  n = (va + size - 1) / PGSIZE - va / PGSIZE + 1 ->
  pa mod PGSIZE = 0 -> 0 <= pa -> pa + n * PGSIZE < 2 ^ 56 -> 0 <= perm < 2 ^ 10 ->
  (forall j, 0 <= j < n -> has (pte_of (ram k) root (PGROUNDDOWN va + j * PGSIZE)) PTE_V = false) ->
  wp (mappages root va size pa perm) (fun r k' => exists l' T' j,
    vmrep k' l' root T' /\ grown k l T k' l' T' /\ 0 <= j <= n /\
    Z.of_nat (length l) <= 2 * n + Z.of_nat (length l') /\ places T T' (fun x => va / PGSIZE <= x / PGSIZE < va / PGSIZE + n) /\
    (r = 0 /\ j = n \/ r = -1 /\ l' = [] /\ j < n /\ Z.of_nat (length l) < 2 * n) /\
    forall va', 0 <= va' < MAXVA ->
      pte_of (ram k') root va' = mapped (pte_of (ram k) root) va pa perm j va') k.
Proof.
  intros R Hva Hsz Hmax Hn Hal Hpa Hpn Hperm Hfree. unfold mappages.
  set (a0 := PGROUNDDOWN va) in *. set (last := PGROUNDDOWN (u64 (va + size - 1))).
  assert (Ha0 : a0 = PGSIZE * (va / PGSIZE)) by apply PGROUNDDOWN_div.
  change MAXVA with (2 ^ 38) in *.
  assert (Hlast : last = a0 + (n - 1) * PGSIZE).
  { unfold last. rewrite PGROUNDDOWN_div, u64_small by (zpow; lia). lia. }
  assert (Hn1 : 1 <= n) by (subst n; pglia).
  assert (Hlm : last < 2 ^ 38) by (unfold last; rewrite PGROUNDDOWN_div, u64_small by (zpow; lia); pglia).
  apply (wp_while _ (fun x k' => exists j l' T', x = (a0 + j * PGSIZE, pa + j * PGSIZE) /\ 0 <= j < n /\
      vmrep k' l' root T' /\ grown k l T k' l' T' /\ Z.of_nat (length l) <= 2 * j + Z.of_nat (length l') /\ places T T' (fun x => va / PGSIZE <= x / PGSIZE < va / PGSIZE + n) /\
      forall va', 0 <= va' < 2 ^ 38 -> pte_of (ram k') root va' = mapped (pte_of (ram k) root) va pa perm j va')
    _ (fun x => last - x.1)).
  - intros x k1 (j & l1 & T1 & -> & Hj & R1 & G1 & L1 & P1 & V1).
    assert (Haj : 0 <= a0 + j * PGSIZE < 2 ^ 38) by (unfold PGSIZE in *; zlia).
    assert (Hdj : (a0 + j * PGSIZE) / PGSIZE = va / PGSIZE + j) by (rewrite Ha0; pglia).
    eapply wp_mono; [apply (map_page_spec k1 l1 root T1); auto|].
    + rewrite V1 by done. unfold mapped. rewrite decide_False by lia. by apply Hfree.
    + unfold PGSIZE in *. lia.
    + intros r k2 (l2 & T2 & R2 & G2 & L2 & P2 & HR).
      apply (places_mono _ _ _ (fun x => va / PGSIZE <= x / PGSIZE < va / PGSIZE + n)) in P2; [|intros x <-; lia].
      pose proof (places_trans _ _ _ _ P1 P2) as P3. destruct HR as [(-> & -> & L3 & V2)|(-> & V2)].
      * exists [], T2, j. split_and!; [done|by eapply grown_trans|lia|lia|cbn; lia|done|right; split_and!; done || lia|].
        intros va' Hva'. by rewrite V2, V1.
      * assert (V3 : forall va', 0 <= va' < 2 ^ 38 ->
          pte_of (ram k2) root va' = mapped (pte_of (ram k) root) va pa perm (j + 1) va').
        { intros va' Hva'. rewrite V2, V1 by done. unfold mapped. rewrite Hdj.
          case_decide as E1; [rewrite decide_True by lia; f_equal; rewrite E1; lia|].
          case_decide; [by rewrite decide_True by lia|by rewrite decide_False by lia]. }
        destruct (Z.eqb_spec (a0 + j * PGSIZE) last) as [E|E].
        -- exists l2, T2, (j + 1). split_and!; [done|by eapply grown_trans|lia|unfold PGSIZE in *; lia|lia|done|left|done].
           split; [done|unfold PGSIZE in *; lia].
        -- assert (j < n - 1) by (unfold PGSIZE in *; lia).
           rewrite !u64_small by (unfold PGSIZE in *; zpow; lia). cbn. split; [|unfold PGSIZE; lia].
           exists (j + 1), l2, T2. split_and!; [f_equal; lia|lia|lia|done|by eapply grown_trans|lia|done|done].
  - exists 0, l, T. split_and!; [f_equal; lia|done|lia|done|apply grown_refl|lia|apply places_refl|].
    intros va' _. unfold mapped. by rewrite decide_False by lia.
  - intros x k' (j & l' & T' & -> & Hj & _). cbn. unfold PGSIZE in *. lia.
  - cbn [fst]. pglia.
Qed.

Lemma mappages_spec k l root T va size pa perm n :
  vmrep k l root T -> 0 <= va -> 0 < size -> va + size <= MAXVA ->
  n = (va + size - 1) / PGSIZE - va / PGSIZE + 1 ->
  pa mod PGSIZE = 0 -> 0 <= pa -> pa + n * PGSIZE < 2 ^ 56 -> 0 <= perm < 2 ^ 10 ->
  (forall j, 0 <= j < n -> has (pte_of (ram k) root (PGROUNDDOWN va + j * PGSIZE)) PTE_V = false) ->
  wp (mappages root va size pa perm) (fun r k' => exists l' T' j,
    vmrep k' l' root T' /\ grown k l T k' l' T' /\ 0 <= j <= n /\
    Z.of_nat (length l) <= 2 * n + Z.of_nat (length l') /\
    (r = 0 /\ j = n \/ r = -1 /\ l' = [] /\ j < n /\ Z.of_nat (length l) < 2 * n) /\
    forall va', 0 <= va' < MAXVA ->
      pte_of (ram k') root va' = mapped (pte_of (ram k) root) va pa perm j va') k.
Proof.
  intros. eapply wp_mono; [by apply (mappages_places k l root T va size pa perm n)|]. intros r k' (l' & T' & j & H'). exists l', T', j. tauto.
Qed.

(** A page-table page is determined by its coordinates. *)
Lemma coord_inj m root T l pre p q : pt_inv m root T -> T !! p = Some (l, pre) -> T !! q = Some (l, pre) -> p = q.
Proof.
  intros I. assert (H : forall n l pre p q, (l + n = 2)%nat -> T !! p = Some (l, pre) -> T !! q = Some (l, pre) -> p = q).
  { clear l pre p q. induction n as [|n IH]; intros l pre p q Hn Hp Hq.
    - destruct (pi_level _ _ _ I p l pre Hp) as [_ H1]. destruct (pi_level _ _ _ I q l pre Hq) as [_ H2]. rewrite H1, H2 by lia. done.
    - assert (Hr : forall c, T !! c = Some (l, pre) -> c <> root) by (intros c Hc ->; rewrite (pi_root _ _ _ I) in Hc; injection Hc as <- _; lia).
      destruct (pi_reach _ _ _ I p l pre Hp) as [|(p1 & pre1 & i1 & A1 & B1 & E1 & L1)]; [by apply Hr in Hp|].
      destruct (pi_reach _ _ _ I q l pre Hq) as [|(p2 & pre2 & i2 & A2 & B2 & E2 & L2)]; [by apply Hr in Hq|].
      assert (pre1 = pre2) as <- by lia. assert (i1 = i2) as <- by lia. assert (p1 = p2) as <- by (apply (IH (S l) pre1); [lia|done|done]).
      rewrite L1 in L2. apply (f_equal PTE2PA) in L2. destruct (pi_page _ _ _ I _ _ Hp) as [Hap _]. destruct (pi_page _ _ _ I _ _ Hq) as [Haq _].
      by rewrite !PTE2PA_mk in L2. }
  intros Hp. destruct (pi_level _ _ _ I p l pre Hp) as [Hl _]. apply (H (2 - l)%nat l pre p q); [lia|done].
Qed.

End Spec.
