(* ===== verification/VmUser.v ===== *)
(** * User address spaces

    [umem k l root T fr]: the page table at [root] maps the first pages of the
    user address space to the frames [fr], each with its permissions, and
    nothing else below the trapframe.  The routines of [vm.c] that grow, shrink,
    copy and access user memory are specified in terms of the list of frames. *)
From stdpp Require Import base list gmap strings.
From Stdlib Require Import ZArith Lia.
From S2P Require Import Prelude KString Riscv Kalloc Vm VmSpec.

#[local] Open Scope Z_scope.
#[local] Open Scope xv6_scope.

Section User.

Context (end_ : Z).
Hypothesis end_pos : 0 < end_.

(** ** [uvmunmap] *)

(** A mapping that [uvmunmap] accepts. *)
Definition unmappable (e pa : Z) : Prop :=
  exists perm, e = leaf pa perm /\ 0 <= perm < 2 ^ 10 /\ Z.lor perm PTE_V <> PTE_V /\ pa mod PGSIZE = 0.

(** Frames that [kfree] accepts: allocated pages that are no page-table pages. *)
Definition freeable (l : list Z) (T : gmap Z (nat * Z)) (pa : Z) : Prop :=
  page_ok end_ pa /\ (pa ∉ l) /\ T !! pa = None.

Definition freed (do_free : bool) (ds l : list Z) : list Z := if do_free then rev ds ++ l else l.

Lemma kfree_rep k l root T pa :
  vmrep end_ k l root T -> freeable l T pa ->
  exists k', kfree end_ pa k = Ok tt k' /\ vmrep end_ k' (pa :: l) root T /\
    (forall va, 0 <= va < MAXVA -> find_table 2 (ram k') root va = find_table 2 (ram k) root va /\
                                   pte_of (ram k') root va = pte_of (ram k) root va) /\
    forall a, ~ in_page pa a -> ram k' a = ram k a.
Proof.
  intros [Hk I Hfree] (Hok & Hni & HT).
  destruct (kfree_spec _ end_pos _ _ _ Hk Hok Hni) as (k' & E & Hk' & Hm).
  assert (Hm' : forall a, ~ in_page pa a -> ram k' a = ram k a)
    by (intros a Ha; apply Hm; unfold in_page in Ha; lia).
  destruct (pt_frame end_ (ram k) (ram k') root T I) as [I' Hl].
  { intros p a Hp Ha. apply Hm'. intros Ha'. destruct Hp as [x Hp].
    destruct (pages_apart p pa); [apply (pi_page _ _ _ _ I _ _ Hp)|apply Hok|congruence| |];
      unfold in_page, PGSIZE in *; lia. }
  exists k'. split_and!; [done| | |done].
  - split; [done|done|]. intros p Hp Hin. apply elem_of_cons in Hin as [->|Hin]; [|by apply (Hfree p)].
    destruct Hp. congruence.
  - intros va Hva. apply Hl. rewrite above_2 by done. apply I.
Qed.

Lemma unmap_page_spec k l root T a last do_free pa :
  vmrep end_ k l root T -> 0 <= a < MAXVA -> unmappable (pte_of (ram k) root a) pa ->
  (do_free = true -> freeable l T pa) ->
  wp (unmap_page end_ root last do_free a) (fun r k' =>
    r = (if a =? last then inr tt else inl (u64 (a + PGSIZE))) /\
    vmrep end_ k' (if do_free then pa :: l else l) root T /\
    (forall va, 0 <= va < MAXVA -> pte_of (ram k') root va =
       if decide (va / PGSIZE = a / PGSIZE) then 0 else pte_of (ram k) root va) /\
    forall x, (forall p, is_Some (T !! p) \/ do_free = true /\ p = pa -> ~ in_page p x) -> ram k' x = ram k x) k.
Proof.
  intros R Ha (perm & Ee & Hperm & Hleaf & Hal) Hfr. unfold unmap_page, wp, bind at 1.
  rewrite walk_false by lia. pose proof R as [Hk I Hfree].
  assert (Hv : has (pte_of (ram k) root a) PTE_V = true) by (rewrite Ee; by apply leaf_V).
  pose proof Ee as Ef. unfold pte_of in Ef. rewrite lookup_find in Ef.
  destruct (find_table 2 (ram k) root a) as [q|] eqn:Hf; [|unfold pte_of in Hv; rewrite lookup_find, Hf in Hv; done].
  assert (Hq : T !! q = Some (0%nat, above 0 a))
    by (eapply (find_table_in _ _ _ _ I 2 root); [rewrite above_2 by done; apply I|done]).
  pose proof (slot_pos end_ end_pos q (PX 0 a) (pi_page _ _ _ _ I _ _ Hq) (PX_range 0 a ltac:(lia))) as Hpos.
  rewrite (proj2 (Z.eqb_neq _ 0)) by lia. unfold bind at 1, load_pte, gets. rewrite Ef.
  rewrite leaf_V, leaf_flags, (proj2 (Z.eqb_neq _ _) Hleaf), leaf_PA by done. cbn [negb].
  assert (Hout : forall x, (forall p, is_Some (T !! p) \/ do_free = true /\ p = pa -> ~ in_page p x) ->
            x < q + 8 * PX 0 a \/ q + 8 * PX 0 a + 8 <= x).
  { intros x Hx. specialize (Hx q (or_introl (mk_is_Some _ _ Hq))). pose proof (PX_range 0 a ltac:(lia)).
    unfold in_page, PGSIZE in Hx. lia. }
  destruct do_free.
  - destruct (kfree_rep k l root T pa R (Hfr eq_refl)) as (k1 & E1 & R1 & V1 & M1).
    unfold bind at 1. rewrite E1. unfold bind, store_pte, modify, ret. cbn.
    destruct (V1 a Ha) as [F1 _]. rewrite Hf in F1.
    destruct (store_leaf_rep end_ k1 _ root T a q 0 R1 Ha F1) as (R2 & _ & V2).
    split_and!; [done|done| |].
    + intros va Hva. rewrite V2 by done. case_decide; [done|]. by apply V1.
    + intros x Hx. rewrite store64_outside by (by apply Hout). apply M1, Hx. auto.
  - unfold bind, store_pte, modify, ret. cbn.
    destruct (store_leaf_rep end_ k _ root T a q 0 R Ha Hf) as (R2 & _ & V2).
    split_and!; [done|done|done|]. intros x Hx. by apply store64_outside, Hout.
Qed.

Lemma uvmunmap_spec k l root T va size do_free ds i0 n :
  vmrep end_ k l root T -> 0 <= va -> 0 < size -> i0 = va / PGSIZE -> n = Z.of_nat (length ds) ->
  (va + size - 1) / PGSIZE = i0 + n - 1 -> (i0 + n) * PGSIZE <= MAXVA ->
  (forall j pa, 0 <= j -> ds !! Z.to_nat j = Some pa ->
     unmappable (pte_of (ram k) root ((i0 + j) * PGSIZE)) pa) ->
  (do_free = true -> NoDup ds /\ forall pa, pa ∈ ds -> freeable l T pa) ->
  wp (uvmunmap end_ root va size do_free) (fun _ k' =>
    vmrep end_ k' (freed do_free ds l) root T /\
    (forall va, 0 <= va < MAXVA -> pte_of (ram k') root va =
       if decide (i0 <= va / PGSIZE < i0 + n) then 0 else pte_of (ram k) root va) /\
    forall x, (forall p, is_Some (T !! p) \/ do_free = true /\ p ∈ ds -> ~ in_page p x) -> ram k' x = ram k x) k.
Proof.
  intros R Hva Hsz Hi0 Hn Hend Hmax Hds Hfr. unfold uvmunmap. change MAXVA with (2 ^ 38) in *.
  assert (Hn1 : 1 <= n) by pglia.
  assert (Hlast : PGROUNDDOWN (u64 (va + size - 1)) = (i0 + n - 1) * PGSIZE).
  { rewrite PGROUNDDOWN_div, u64_small; [rewrite Hend; lia|]. unfold PGSIZE in *. zlia. }
  rewrite Hlast. assert (Ha0 : PGROUNDDOWN va = i0 * PGSIZE) by (rewrite PGROUNDDOWN_div; lia). rewrite Ha0.
  apply (wp_while _ (fun a k' => exists j, a = (i0 + j) * PGSIZE /\ 0 <= j < n /\
      vmrep end_ k' (freed do_free (take (Z.to_nat j) ds) l) root T /\
      (forall va, 0 <= va < 2 ^ 38 -> pte_of (ram k') root va =
         if decide (i0 <= va / PGSIZE < i0 + j) then 0 else pte_of (ram k) root va) /\
      forall x, (forall p, is_Some (T !! p) \/ do_free = true /\ p ∈ ds -> ~ in_page p x) -> ram k' x = ram k x)
    _ (fun a => (i0 + n) * PGSIZE - a)).
  - intros a k1 (j & -> & Hj & R1 & V1 & M1).
    assert (Haj : 0 <= (i0 + j) * PGSIZE < 2 ^ 38) by (unfold PGSIZE in *; zlia).
    assert (Hdj : (i0 + j) * PGSIZE / PGSIZE = i0 + j) by (apply Z.div_mul; done).
    destruct (lookup_lt_is_Some_2 ds (Z.to_nat j)) as [pa Hpa]; [lia|].
    assert (Hin : pa ∈ ds) by (by eapply list_elem_of_lookup_2).
    assert (Htk : take (Z.to_nat (j + 1)) ds = take (Z.to_nat j) ds ++ [pa]).
    { replace (Z.to_nat (j + 1)) with (S (Z.to_nat j)) by lia. by apply take_S_r. }
    eapply wp_mono; [apply (unmap_page_spec k1 _ root T _ _ do_free pa R1); auto|].
    + rewrite V1, Hdj, decide_False by (done || lia). apply Hds; [lia|done].
    + intros ->. destruct (Hfr eq_refl) as [Hnd Hf]. destruct (Hf pa Hin) as (F1 & F2 & F3).
      split_and!; [done| |done]. cbn. rewrite elem_of_app, elem_of_rev.
      intros [Hp|Hp]; [|done]. apply list_elem_of_lookup in Hp as [i Hi].
      assert ((i < Z.to_nat j)%nat) by (apply lookup_lt_Some in Hi; rewrite length_take in Hi; lia).
      rewrite lookup_take_lt in Hi by done.
      assert (i = Z.to_nat j) by (by eapply NoDup_lookup). lia.
    + intros r k2 (-> & R2 & V2 & M2).
      assert (R3 : vmrep end_ k2 (freed do_free (take (Z.to_nat (j + 1)) ds) l) root T).
      { rewrite Htk. destruct do_free; cbn in *; [|done]. by rewrite rev_app_distr. }
      assert (V3 : forall va, 0 <= va < 2 ^ 38 -> pte_of (ram k2) root va =
                 if decide (i0 <= va / PGSIZE < i0 + (j + 1)) then 0 else pte_of (ram k) root va).
      { intros va' Hva'. rewrite V2, V1, Hdj by done.
        case_decide; [by rewrite decide_True by lia|].
        case_decide; [by rewrite decide_True by lia|by rewrite decide_False by lia]. }
      assert (M3 : forall x, (forall p, is_Some (T !! p) \/ do_free = true /\ p ∈ ds -> ~ in_page p x) ->
                 ram k2 x = ram k x).
      { intros x Hx. rewrite M2, M1; [done|done|]. intros p [Hp|[? ->]]; apply Hx; auto. }
      destruct (Z.eqb_spec ((i0 + j) * PGSIZE) ((i0 + n - 1) * PGSIZE)) as [E|E].
      * assert (j + 1 = n) as Ej by (unfold PGSIZE in *; lia). rewrite Ej in R3, V3.
        rewrite Hn, Nat2Z.id, firstn_all in R3. done.
      * assert (j < n - 1) by (unfold PGSIZE in *; lia).
        rewrite u64_small by (unfold PGSIZE in *; zpow; lia). split; [|unfold PGSIZE; lia].
        exists (j + 1). split_and!; [unfold PGSIZE; lia|lia|lia|done|done|done].
  - exists 0. split_and!; [lia|lia|lia| | |done].
    + by destruct do_free.
    + intros va' _. by rewrite decide_False by lia.
  - intros a k' (j & -> & Hj & _). unfold PGSIZE. lia.
  - unfold PGSIZE in *. zlia.
Qed.

(** ** Pages outside the page table and the free list *)

(** Writing inside such a page. *)
Lemma write_page_rep k l root T pa m' :
  vmrep end_ k l root T -> freeable l T pa -> mem_ok m' ->
  (forall a, ~ in_page pa a -> m' a = ram k a) ->
  vmrep end_ (k <| ram := m' |>) l root T /\
  forall va, 0 <= va < MAXVA -> pte_of m' root va = pte_of (ram k) root va.
Proof.
  intros [Hk I Hfree] (Hok & Hni & HT) Hm' Hm.
  assert (Hap : forall p a, page_ok end_ p -> p <> pa -> in_page p a -> m' a = ram k a).
  { intros p a [Ap _] Hne Ha. apply Hm. intros Ha'.
    destruct (pages_apart p pa Ap (proj1 Hok) Hne); unfold in_page, PGSIZE in *; lia. }
  destruct (pt_frame end_ (ram k) m' root T I) as [I' Hl].
  { intros p a [x Hp]. apply Hap; [by apply (pi_page _ _ _ _ I p x)|congruence]. }
  split.
  - split; [|done|done]. apply kmem_ram; [done..|]. intros p a Hp. destruct Hk as [_ _ _ Hpg _].
    apply Hap; [|congruence]. by apply (proj1 (Forall_forall _ _) Hpg).
  - intros va Hva. apply Hl. rewrite above_2 by done. apply I.
Qed.

Lemma kalloc_rep {A} k l root T (F : Z -> M kmem A) Q :
  vmrep end_ k l root T ->
  (l = [] -> wp (F 0) Q k) ->
  (forall pa l' k1, l = pa :: l' -> pa <> 0 -> vmrep end_ k1 l' root T -> freeable l' T pa ->
     (forall a, ~ in_page pa a -> ram k1 a = ram k a) ->
     (forall va, 0 <= va < MAXVA -> pte_of (ram k1) root va = pte_of (ram k) root va) -> wp (F pa) Q k1) ->
  wp (bind kalloc F) Q k.
Proof.
  intros [Hk I Hfree] H0 HS. unfold wp, bind. destruct l as [|pa l].
  { rewrite (kalloc_none _ _ Hk). by apply H0. }
  destruct (kalloc_some _ end_pos _ _ _ Hk) as (k1 & E1 & Hk1 & Hm1). rewrite E1.
  destruct Hk as [_ _ Hnd Hpg Hok]. apply Forall_cons in Hpg as [Hpok Hpg]. apply NoDup_cons in Hnd as [Hni Hnd].
  assert (HT : T !! pa = None)
    by (destruct (T !! pa) eqn:E; [exfalso; apply (Hfree pa); [eauto|by left]|done]).
  assert (Hm : forall a, ~ in_page pa a -> ram k1 a = ram k a)
    by (intros a Ha; rewrite Hm1, decide_False; done).
  destruct (pt_frame end_ (ram k) (ram k1) root T I) as [I' Hl].
  { intros p a [x Hp] Ha. apply Hm. intros Ha'. pose proof (pi_page _ _ _ _ I _ _ Hp) as [Ap _].
    destruct (pages_apart p pa Ap (proj1 Hpok) ltac:(congruence)); unfold in_page, PGSIZE in *; lia. }
  apply (HS pa l k1); auto.
  - pose proof (page_ok_range _ end_pos _ Hpok). lia.
  - split; [done|done|]. intros p Hp Hin. apply (Hfree p); [done|by right].
  - by split.
  - intros va Hva. apply Hl. rewrite above_2 by done. apply I.
Qed.

(** ** The user address space as a list of frames *)

Definition base (fr : list (Z * Z)) : Z := Z.of_nat (length fr) * PGSIZE.

Record umem (k : kmem) (l : list Z) (root : Z) (T : gmap Z (nat * Z)) (fr : list (Z * Z)) : Prop := {
  um_rep : vmrep end_ k l root T;
  um_max : base fr <= TRAPFRAME;
  um_pte : forall i pa perm, fr !! i = Some (pa, perm) ->
    pte_of (ram k) root (Z.of_nat i * PGSIZE) = leaf pa perm;
  um_none : forall va, base fr <= va < TRAPFRAME -> has (pte_of (ram k) root va) PTE_V = false;
  um_high : forall va, TRAPFRAME <= va < MAXVA -> has (pte_of (ram k) root va) PTE_U = false;
  um_perm : forall pa perm, (pa, perm) ∈ fr -> 0 <= perm < 2 ^ 10 /\ Z.lor perm PTE_V <> PTE_V;
  um_free : forall pa, pa ∈ fr.*1 -> freeable l T pa;
  um_nodup : NoDup fr.*1;
}.

(** The contents of the frames are the same. *)
Definition same_data (k k' : kmem) (fr : list (Z * Z)) : Prop :=
  forall pa a, pa ∈ fr.*1 -> in_page pa a -> ram k' a = ram k a.

Lemma same_data_trans k k1 k2 fr : same_data k k1 fr -> same_data k1 k2 fr -> same_data k k2 fr.
Proof. intros H1 H2 pa a Hp Ha. rewrite H2 with (pa := pa) by done. by apply (H1 pa). Qed.

(** The entries of the trapframe and the trampoline are the same. *)
Definition same_high (k k' : kmem) (root : Z) : Prop :=
  forall va, TRAPFRAME <= va < MAXVA -> pte_of (ram k') root va = pte_of (ram k) root va.

Lemma same_high_trans k k1 k2 root : same_high k k1 root -> same_high k1 k2 root -> same_high k k2 root.
Proof. intros H1 H2 va Hva. rewrite H2 by done. by apply H1. Qed.

(** The pages of an address space and of the free list together. *)
Definition owns (T : gmap Z (nat * Z)) (fr : list (Z * Z)) (l : list Z) (p : Z) : Prop :=
  is_Some (T !! p) \/ p ∈ fr.*1 \/ p ∈ l.

Definition same_pages (T : gmap Z (nat * Z)) (fr : list (Z * Z)) (l : list Z)
                      (T' : gmap Z (nat * Z)) (fr' : list (Z * Z)) (l' : list Z) : Prop :=
  forall p, owns T' fr' l' p <-> owns T fr l p.

Lemma same_pages_trans T fr l T1 fr1 l1 T2 fr2 l2 :
  same_pages T fr l T1 fr1 l1 -> same_pages T1 fr1 l1 T2 fr2 l2 -> same_pages T fr l T2 fr2 l2.
Proof. intros H1 H2 p. etrans; [apply H2|apply H1]. Qed.

Lemma same_pages_grown k l T k' l' T' fr : grown k l T k' l' T' -> same_pages T fr l T' fr l'.
Proof. intros [(new & -> & D) _ _ _] p. unfold owns. rewrite D, elem_of_app. tauto. Qed.

Lemma same_pages_take T fr l n : same_pages T fr l T (take n fr) (rev (drop n fr).*1 ++ l).
Proof.
  intros p. unfold owns. rewrite elem_of_app, elem_of_rev. rewrite <- (take_drop n fr) at 3.
  rewrite fmap_app, elem_of_app. tauto.
Qed.

Lemma same_pages_append T fr l pa perm : same_pages T fr (pa :: l) T (fr ++ [(pa, perm)]) l.
Proof. intros p. unfold owns. rewrite fmap_app, elem_of_app. cbn. rewrite !elem_of_cons, elem_of_nil. tauto. Qed.

(** Memory outside of these pages is the same. *)
Definition kept (T : gmap Z (nat * Z)) (fr : list (Z * Z)) (l : list Z) (k k' : kmem) : Prop :=
  forall a, (forall q, owns T fr l q -> ~ in_page q a) -> ram k' a = ram k a.

Lemma kept_refl T fr l k : kept T fr l k k.
Proof. done. Qed.

Lemma kept_trans T fr l T1 fr1 l1 k k1 k2 :
  same_pages T fr l T1 fr1 l1 -> kept T fr l k k1 -> kept T1 fr1 l1 k1 k2 -> kept T fr l k k2.
Proof. intros S H1 H2 a Ha. rewrite H2; [by apply H1|]. intros q Hq. apply Ha. by apply S. Qed.

(** The number of pages of a process of [sz] bytes. *)
Definition pages (sz : Z) : nat := Z.to_nat ((sz + PGSIZE - 1) / PGSIZE).

Lemma PGROUNDUP_pages sz : 0 <= sz <= MAXVA -> PGROUNDUP sz = Z.of_nat (pages sz) * PGSIZE.
Proof.
  intros H. change MAXVA with (2 ^ 38) in H. rewrite PGROUNDUP_div by (unfold PGSIZE; zpow; lia).
  unfold pages. rewrite Z2Nat.id by (unfold PGSIZE; zlia). lia.
Qed.

Lemma freeable_apart l T pa pa' a :
  freeable l T pa -> freeable l T pa' -> pa <> pa' -> in_page pa a -> ~ in_page pa' a.
Proof.
  intros [[A _] _] [[A' _] _] Hne Ha Ha'. destruct (pages_apart pa pa' A A' Hne); unfold in_page, PGSIZE in *; lia.
Qed.

Lemma TRAPFRAME_MAXVA : 0 <= TRAPFRAME < MAXVA.
Proof. done. Qed.

Lemma umem_unmap_high k l root T fr n va size :
  umem k l root T fr -> (n < length fr)%nat -> va = Z.of_nat n * PGSIZE -> 0 < size ->
  (va + size - 1) / PGSIZE = Z.of_nat (length fr) - 1 ->
  wp (uvmunmap end_ root va size true) (fun _ k' =>
    umem k' (rev (drop n fr).*1 ++ l) root T (take n fr) /\ same_data k k' (take n fr) /\
    same_high k k' root /\
    forall x, (forall p, is_Some (T !! p) \/ p ∈ fr.*1 -> ~ in_page p x) -> ram k' x = ram k x) k.
Proof.
  intros [R Hmax Hpte Hnone Hhigh Hperm Hfr Hnd] Hn Hva Hsz Hend.
  assert (Hva0 : va / PGSIZE = Z.of_nat n) by (subst va; apply Z.div_mul; done).
  pose proof TRAPFRAME_MAXVA as HM. unfold base in *.
  assert (Hin : forall pa, pa ∈ (take n fr).*1 -> pa ∈ (drop n fr).*1 -> False).
  { intros pa H1 H2. rewrite <- (take_drop n fr), fmap_app in Hnd. apply NoDup_app in Hnd as (_ & Hnd & _). by apply (Hnd pa). }
  eapply wp_mono; [apply (uvmunmap_spec k l root T va size true (drop n fr).*1 (Z.of_nat n) (Z.of_nat (length fr - n))); auto|].
  - unfold PGSIZE in *. lia.
  - rewrite length_fmap, length_drop. done.
  - lia.
  - unfold PGSIZE in *. lia.
  - intros j pa Hj Hp. rewrite list_lookup_fmap, lookup_drop in Hp.
    destruct (fr !! (n + Z.to_nat j)%nat) as [[pa' perm]|] eqn:E; [|done]. injection Hp as ->.
    exists perm. destruct (Hperm pa perm) as [P1 P2]; [by eapply list_elem_of_lookup_2|].
    split_and!; auto; [|lia|lia|].
    + replace (Z.of_nat n + j) with (Z.of_nat (n + Z.to_nat j)) by lia. by apply Hpte.
    + apply (Hfr pa). apply list_elem_of_fmap. exists (pa, perm). split; [done|by eapply list_elem_of_lookup_2].
  - intros _. split.
    + rewrite <- (take_drop n fr), fmap_app in Hnd. by apply NoDup_app in Hnd as (_ & _ & ?).
    + intros pa Hp. apply Hfr. rewrite <- (take_drop n fr), fmap_app. apply elem_of_app. by right.
  - intros _ k' (R' & V' & M'). cbn in R'. split; [split|split_and!].
    + done.
    + unfold base. rewrite length_take. unfold PGSIZE in *. lia.
    + intros i pa perm Hi. assert ((i < n)%nat) by (apply lookup_lt_Some in Hi; rewrite length_take in Hi; lia).
      rewrite lookup_take_lt in Hi by done. rewrite V', Z.div_mul, decide_False by (done || (unfold PGSIZE in *; lia)).
      by apply Hpte.
    + unfold base. rewrite length_take, Nat.min_l by lia. intros va' Hva'. rewrite V' by (unfold PGSIZE in *; lia).
      case_decide; [done|]. apply Hnone. pglia.
    + intros va' Hva'. rewrite V' by lia. case_decide; [done|]. by apply Hhigh.
    + intros pa perm Hp. apply (Hperm pa perm). rewrite <- (take_drop n fr). apply elem_of_app. by left.
    + intros pa Hp. destruct (Hfr pa) as (F1 & F2 & F3).
      { rewrite <- (take_drop n fr), fmap_app. apply elem_of_app. by left. }
      split_and!; [done| |done]. rewrite elem_of_app, elem_of_rev. intros [?|?]; [by apply (Hin pa)|done].
    + rewrite <- (take_drop n fr), fmap_app in Hnd. by apply NoDup_app in Hnd as (? & _).
    + intros pa a Hp Ha. apply M'. intros p [[x Hx]|[_ Hx]] Hpa.
      * destruct (Hfr pa) as ((A1 & _) & _ & F3).
        { rewrite <- (take_drop n fr), fmap_app. apply elem_of_app. by left. }
        destruct R as [_ I _]. pose proof (pi_page _ _ _ _ I _ _ Hx) as [A2 _].
        destruct (pages_apart pa p A1 A2 ltac:(congruence)); unfold in_page, PGSIZE in *; lia.
      * apply (freeable_apart l T pa p a); auto; try (apply Hfr; rewrite <- (take_drop n fr), fmap_app; apply elem_of_app; auto).
        intros ->. by apply (Hin p).
    + intros va' Hva'. rewrite V' by lia. rewrite decide_False; [done|]. pglia.
    + intros x Hx. apply M'. intros p [Hp|[_ Hp]]; apply Hx; [by left|right].
      rewrite <- (take_drop n fr), fmap_app. apply elem_of_app. by right.
Qed.

(** [uvmdealloc] drops the frames past the new size and gives them back. *)
Lemma uvmdealloc_rep k l root T fr oldsz newsz :
  umem k l root T fr -> 0 <= newsz <= oldsz -> oldsz <= TRAPFRAME -> length fr = pages oldsz ->
  wp (uvmdealloc end_ root oldsz newsz) (fun r k' =>
    r = newsz /\ umem k' (rev (drop (pages newsz) fr).*1 ++ l) root T (take (pages newsz) fr) /\
    same_data k k' (take (pages newsz) fr) /\ same_high k k' root) k.
Proof.
  intros U Hsz Hold Hlen. pose proof TRAPFRAME_MAXVA as HM. unfold uvmdealloc. rewrite Z.geb_leb.
  destruct (Z.leb_spec oldsz newsz) as [Hle|Hlt].
  { apply wp_ret. assert (newsz = oldsz) as -> by lia. rewrite <- Hlen, firstn_all, drop_all. split_and!; done || by intros ?. }
  rewrite !PGROUNDUP_pages by lia.
  assert (Hpg : (pages newsz <= pages oldsz)%nat) by (unfold pages; unfold PGSIZE; zlia).
  destruct (Z.ltb_spec (Z.of_nat (pages newsz) * PGSIZE) (Z.of_nat (pages oldsz) * PGSIZE)) as [Hc|Hc].
  - eapply wp_seq; [apply (umem_unmap_high k l root T fr (pages newsz)); auto|].
    + unfold PGSIZE in *. lia.
    + unfold pages in *. unfold PGSIZE in *. zlia.
    + rewrite Hlen. unfold pages in *. unfold PGSIZE in *. zlia.
    + intros _ k' (U' & M' & H' & _). by apply wp_ret.
  - apply wp_ret. assert (pages newsz = pages oldsz) as -> by (unfold PGSIZE in *; lia).
    rewrite <- Hlen, firstn_all, drop_all. split_and!; done || by intros ?.
Qed.

(** ** Growing *)

Lemma grown_free k l T k' l' T' pa : grown k l T k' l' T' -> freeable l T pa -> freeable l' T' pa.
Proof.
  intros [(new & -> & D) _ _ _] (F1 & F2 & F3). split_and!; [done|set_solver|].
  destruct (T' !! pa) eqn:E; [|done]. exfalso.
  assert (Hs : is_Some (T' !! pa)) by eauto. apply D in Hs as [[x Hx]|Hn]; [congruence|set_solver].
Qed.

Lemma grown_mem k l root T k' l' T' pa a :
  vmrep end_ k l root T -> grown k l T k' l' T' -> freeable l T pa -> in_page pa a -> ram k' a = ram k a.
Proof.
  intros [Hk I _] G (F1 & F2 & F3) Ha. apply (g_mem _ _ _ _ _ _ G). intros p Hp Ha'.
  assert (page_ok end_ p /\ p <> pa) as [[A _] Hne].
  { destruct Hp as [[x Hp]|Hp]; [split; [by apply (pi_page _ _ _ _ I p x)|congruence]|].
    destruct Hk as [_ _ _ Hpg _]. split; [by apply (proj1 (Forall_forall _ _) Hpg)|congruence]. }
  destruct (pages_apart p pa A (proj1 F1) Hne); unfold in_page, PGSIZE in *; lia.
Qed.

(** The page table grows and the mappings stay. *)
Lemma umem_grown k l root T k' l' T' fr :
  umem k l root T fr -> vmrep end_ k' l' root T' -> grown k l T k' l' T' ->
  (forall va, 0 <= va < MAXVA -> pte_of (ram k') root va = pte_of (ram k) root va) ->
  umem k' l' root T' fr /\ same_data k k' fr.
Proof.
  intros [R Hmax Hpte Hnone Hhigh Hperm Hfr Hnd] R' G V. pose proof TRAPFRAME_MAXVA. unfold base in *. split; [split|]; auto.
  - intros i pa perm Hi. pose proof (lookup_lt_Some _ _ _ Hi). rewrite V by (unfold PGSIZE in *; lia). by apply Hpte.
  - intros va Hva. rewrite V by (unfold base, PGSIZE in *; lia). by apply Hnone.
  - intros va Hva. rewrite V by lia. by apply Hhigh.
  - intros pa Hp. eapply grown_free; eauto.
  - intros pa a Hp Ha. eapply grown_mem; eauto.
Qed.

(** A page leaves the free list, or data changes; the mappings stay. *)
Lemma umem_same k l root T k' l' fr :
  umem k l root T fr -> vmrep end_ k' l' root T -> (forall p, p ∈ l' -> p ∈ l \/ (p ∉ fr.*1)) ->
  (forall va, 0 <= va < MAXVA -> pte_of (ram k') root va = pte_of (ram k) root va) ->
  umem k' l' root T fr.
Proof.
  intros [R Hmax Hpte Hnone Hhigh Hperm Hfr Hnd] R' Hl V. pose proof TRAPFRAME_MAXVA. unfold base in *. split; auto.
  - intros i pa perm Hi. pose proof (lookup_lt_Some _ _ _ Hi). rewrite V by (unfold PGSIZE in *; lia). by apply Hpte.
  - intros va Hva. rewrite V by (unfold base, PGSIZE in *; lia). by apply Hnone.
  - intros va Hva. rewrite V by lia. by apply Hhigh.
  - intros pa Hp. destruct (Hfr pa Hp) as (F1 & F2 & F3). split_and!; auto.
    intros Hin. by destruct (Hl pa Hin).
Qed.

(** A frame is mapped at the end. *)
Lemma umem_append k l root T k' l' T' fr pa perm :
  umem k l root T fr -> vmrep end_ k' l' root T' -> grown k l T k' l' T' ->
  freeable l T pa -> (pa ∉ fr.*1) -> base fr + PGSIZE <= TRAPFRAME ->
  0 <= perm < 2 ^ 10 -> Z.lor perm PTE_V <> PTE_V ->
  (forall va, 0 <= va < MAXVA -> pte_of (ram k') root va = mapped (pte_of (ram k) root) (base fr) pa perm 1 va) ->
  umem k' l' root T' (fr ++ [(pa, perm)]) /\ same_data k k' fr.
Proof.
  intros [R Hmax Hpte Hnone Hhigh Hperm Hfr Hnd] R' G Hpa Hni Hb Hp Hp' V. pose proof TRAPFRAME_MAXVA.
  assert (Hbase : base (fr ++ [(pa, perm)]) = base fr + PGSIZE)
    by (unfold base; rewrite length_app; cbn; unfold PGSIZE; lia).
  assert (Hdiv : base fr / PGSIZE = Z.of_nat (length fr)) by (apply Z.div_mul; done).
  split; [split|]; rewrite ?Hbase; auto.
  - intros i pa' perm' Hi. pose proof (lookup_lt_Some _ _ _ Hi) as Hlt. rewrite length_app in Hlt. cbn in Hlt.
    rewrite V by (unfold base, PGSIZE in *; lia). unfold mapped. rewrite Hdiv, Z.div_mul by done.
    destruct (decide (i = length fr)) as [->|].
    + rewrite list_lookup_middle in Hi by done. injection Hi as <- <-. rewrite decide_True by lia. f_equal. lia.
    + rewrite decide_False by lia. apply Hpte. by rewrite lookup_app_l in Hi by lia.
  - intros va Hva. rewrite V by (unfold base, PGSIZE in *; lia). unfold mapped. rewrite decide_False.
    + apply Hnone. unfold PGSIZE in *. lia.
    + rewrite Hdiv. unfold base in Hva. pglia.
  - intros va Hva. rewrite V by lia.
    unfold mapped. rewrite decide_False; [by apply Hhigh|]. rewrite Hdiv. unfold base in *. pglia.
  - intros pa' perm' Hin. apply elem_of_app in Hin as [Hin|Hin]; [by apply (Hperm pa')|].
    apply list_elem_of_singleton in Hin. injection Hin as -> ->. done.
  - intros pa' Hin. rewrite fmap_app in Hin. apply elem_of_app in Hin as [Hin|Hin].
    + eapply grown_free; eauto.
    + apply list_elem_of_singleton in Hin as ->. eapply grown_free; eauto.
  - rewrite fmap_app. apply NoDup_app. split_and!; [done| |apply NoDup_singleton].
    intros x Hx Hx'. apply list_elem_of_singleton in Hx' as ->. done.
  - intros pa' a Hin Ha. apply (grown_mem k l root T k' l' T' pa' a); auto.
Qed.

Definition WXRU : Z := Z.lor (Z.lor (Z.lor PTE_W PTE_X) PTE_R) PTE_U.

Lemma pages_base n : pages (Z.of_nat n * PGSIZE) = n.
Proof. unfold pages. pglia. Qed.

(** [uvmalloc] undone after a failure at the end of [fr]. *)
Lemma umem_undo k l root T fr n :
  umem k l root T fr -> (n <= length fr)%nat ->
  wp (uvmdealloc end_ root (base fr) (Z.of_nat n * PGSIZE)) (fun _ k' => exists l',
    umem k' l' root T (take n fr) /\ same_data k k' (take n fr) /\ same_pages T fr l T (take n fr) l' /\
    same_high k k' root) k.
Proof.
  intros U Hn. pose proof (um_max _ _ _ _ _ U). eapply wp_mono; [apply (uvmdealloc_rep k l root T fr); auto|].
  - unfold base, PGSIZE. lia.
  - unfold base. by rewrite pages_base.
  - rewrite pages_base. intros r k' (_ & U' & M' & H'). eauto using same_pages_take.
Qed.

Lemma same_data_take k k' fr n : same_data k k' fr -> same_data k k' (take n fr).
Proof.
  intros H pa a Hp. apply (H pa). apply list_elem_of_fmap in Hp as (x & -> & Hx). apply list_elem_of_fmap.
  exists x. split; [done|]. rewrite <- (take_drop n fr). apply elem_of_app. by left.
Qed.

Lemma alloc_page_rep k l root T fr n newsz :
  umem k l root T fr -> (n <= length fr)%nat -> base fr < newsz <= TRAPFRAME ->
  wp (alloc_page end_ root (Z.of_nat n * PGSIZE) newsz (base fr)) (fun r k' => exists l' T', same_high k k' root /\
    ((r = inl (base fr + PGSIZE) /\ exists pa, umem k' l' root T' (fr ++ [(pa, WXRU)]) /\
       same_data k k' fr /\ same_pages T fr l T' (fr ++ [(pa, WXRU)]) l' /\ (length l <= 3 + length l')%nat /\
       (forall a, in_page pa a -> ram k' a = 0) /\ kept T fr l k k') \/
    (r = inr 0 /\ umem k' l' root T' (take n fr) /\ same_data k k' (take n fr) /\
       same_pages T fr l T' (take n fr) l' /\ (length l < 3)%nat))) k.
Proof.
  intros U Hn Hsz. assert (Hbig : newsz + PGSIZE <= 2 ^ 38) by (unfold TRAPFRAME, TRAMPOLINE, PGSIZE in *; change MAXVA with (2 ^ 38) in *; lia).
  unfold alloc_page. rewrite (proj2 (Z.ltb_lt _ _)) by lia. cbn [negb].
  apply (kalloc_rep k l root T _ _ (um_rep _ _ _ _ _ U)).
  { intros ->. cbn [Z.eqb]. eapply wp_seq; [by apply (umem_undo k [] root T fr n U)|].
    intros _ k' (l' & U' & M' & S' & H'). apply wp_ret. exists l', T. split; [done|right]. split_and!; auto. }
  intros pa l1 k1 -> Hnz R1 Hpa M1 V1. rewrite (proj2 (Z.eqb_neq pa 0)) by done.
  unfold clear_page. apply wp_modify. set (m2 := memset (ram k1) pa 0 PGSIZE).
  assert (Hz : forall a, in_page pa a -> m2 a = 0) by (intros a Ha; unfold m2; by rewrite memset_get, decide_True).
  assert (Hz' : forall a, ~ in_page pa a -> m2 a = ram k1 a) by (intros a Ha; unfold m2; by rewrite memset_get, decide_False).
  destruct (write_page_rep k1 l1 root T pa m2 R1 Hpa) as [R2 V2]; [apply memset_ok, R1|done|].
  set (k2 := k1 <| ram := m2 |>) in *.
  assert (Hpf : pa ∉ fr.*1) by (intros Hin; destruct (um_free _ _ _ _ _ U pa Hin) as (_ & F & _); apply F; by left).
  assert (U2 : umem k2 l1 root T fr).
  { apply (umem_same k (pa :: l1) root T k2 l1 fr U R2); [left; by right|]. intros va Hva. cbn. by rewrite V2, V1. }
  assert (H2 : same_high k k2 root) by (intros va Hva; pose proof TRAPFRAME_MAXVA; cbn; by rewrite V2, V1 by lia).
  assert (M2 : same_data k k2 fr).
  { intros pa' a Hin Ha. cbn. destruct (um_free _ _ _ _ _ U2 pa' Hin) as (F1 & F2 & F3).
    assert (Hout : ~ in_page pa a) by (apply (freeable_apart l1 T pa' pa a); [by split|done|congruence|done]).
    by rewrite Hz', M1. }
  pose proof TRAPFRAME_MAXVA. assert (Hb0 : 0 <= base fr) by (unfold base, PGSIZE; lia).
  assert (Hbd : (base fr + PGSIZE - 1) / PGSIZE = base fr / PGSIZE) by (unfold base; pglia).
  eapply wp_seq; [apply (mappages_spec end_ end_pos k2 l1 root T (base fr) PGSIZE pa WXRU 1 R2); try done|].
  - change MAXVA with (2 ^ 38). lia.
  - rewrite Hbd. lia.
  - apply Hpa.
  - destruct Hpa as [[_ Hr] _]. lia.
  - destruct Hpa as [[_ Hr] _]. unfold PHYSTOP, KERNBASE, PGSIZE in *. zpow. lia.
  - intros j Hj. assert (j = 0) as -> by lia. rewrite Z.mul_0_l, Z.add_0_r, PGROUNDDOWN_id by (unfold base; apply Z.mod_mul; done).
    apply (um_none _ _ _ _ _ U2). lia.
  - intros r k3 (l3 & T3 & j & R3 & G3 & Hj & Hl3 & Hr & V3). destruct Hr as [[-> ->]|(-> & -> & Hj1 & Hfew)]; cbn [Z.eqb negb].
    + apply wp_ret. exists l3, T3. split.
      { apply (same_high_trans k k2); [done|]. intros va Hva. rewrite V3 by lia. unfold mapped.
        rewrite decide_False; [done|]. unfold base, TRAPFRAME, TRAMPOLINE in *. change MAXVA with (2 ^ 38) in *. pglia. }
      left. split; [by rewrite u64_small by (unfold PGSIZE in *; zpow; lia)|].
      exists pa. destruct (umem_append k2 l1 root T k3 l3 T3 fr pa WXRU U2 R3 G3) as [U3 M3]; try done.
      * unfold TRAPFRAME, TRAMPOLINE, base, PGSIZE in *. change MAXVA with (2 ^ 38) in *. zpow. lia.
      * split_and!; [done|by eapply same_data_trans| |cbn; lia| |].
        { eapply same_pages_trans; [apply (same_pages_append T fr l1 pa WXRU)|by eapply same_pages_grown]. }
        { intros a Ha. rewrite (grown_mem k2 l1 root T k3 l3 T3 pa a R2 G3 Hpa Ha). by apply Hz. }
        intros a Ha. assert (Hna : ~ in_page pa a) by (apply Ha; right; right; by left).
        rewrite (g_mem _ _ _ _ _ _ G3); [cbn; by rewrite Hz', M1|]. intros p [Hp|Hp]; apply Ha; [by left|right; right; by right].
    + assert (j = 0) as -> by lia.
      destruct (umem_grown k2 l1 root T k3 [] T3 fr U2 R3 G3) as [U3 M3].
      { intros va Hva. rewrite V3 by done. unfold mapped. by rewrite decide_False by lia. }
      destruct (kfree_rep k3 [] root T3 pa R3) as (k4 & E4 & R4 & V4 & M4); [by eapply grown_free|].
      unfold wp, bind at 1. rewrite E4.
      assert (U4 : umem k4 [pa] root T3 fr).
      { apply (umem_same k3 [] root T3 k4 [pa] fr U3 R4); [|intros va Hva; by apply V4].
        intros p Hp. apply list_elem_of_singleton in Hp as ->. by right. }
      assert (M4' : same_data k3 k4 fr).
      { intros pa' a Hin Ha. apply M4. intros Ha'. destruct (um_free _ _ _ _ _ U4 pa' Hin) as ([A1 _] & F2 & _).
        assert (pa' <> pa) by (intros ->; apply F2; by left).
        destruct Hpa as [[A2 _] _]. destruct (pages_apart pa' pa A1 A2 ltac:(done)); unfold in_page, PGSIZE in *; lia. }
      fold (wp (bind (uvmdealloc end_ root (base fr) (Z.of_nat n * PGSIZE)) (fun _ => ret (inr 0 : Z + Z)))).
      eapply wp_seq; [by apply (umem_undo k4 [pa] root T3 fr n U4)|].
      intros _ k5 (l5 & U5 & M5 & S5 & H5). apply wp_ret. exists l5, T3. split.
      { apply (same_high_trans k k2); [done|]. apply (same_high_trans k2 k4); [|done].
        intros va Hva. destruct (V4 va) as [_ ->]; [lia|]. rewrite V3 by lia. unfold mapped. by rewrite decide_False by lia. }
      right. split_and!; auto.
      * apply (same_data_trans k k4); [|done]. apply same_data_take.
        do 2 (eapply same_data_trans; [eassumption|]). done.
      * intros p. etrans; [apply S5|]. pose proof (same_pages_grown _ _ _ _ _ _ fr G3 p) as Hp.
        unfold owns in *. rewrite !elem_of_cons. rewrite elem_of_nil in *. tauto.
      * cbn. lia.
Qed.

Definition zeroed (k : kmem) (new : list Z) : Prop := forall pa a, pa ∈ new -> in_page pa a -> ram k a = 0.

Definition frames (new : list Z) : list (Z * Z) := (fun pa => (pa, WXRU)) <$> new.

Lemma frames_pa new : (frames new).*1 = new.
Proof. unfold frames. rewrite <- list_fmap_compose. apply list_fmap_id. Qed.

Lemma length_frames new : length (frames new) = length new.
Proof. apply length_fmap. Qed.

Lemma uvmalloc_kept k l root T fr oldsz newsz :
  umem k l root T fr -> 0 <= oldsz <= newsz -> newsz <= TRAPFRAME -> length fr = pages oldsz ->
  wp (uvmalloc end_ root oldsz newsz) (fun r k' => exists l' T', same_high k k' root /\
    ((r = newsz /\ exists new, umem k' l' root T' (fr ++ frames new) /\
       (length fr + length new)%nat = pages newsz /\ same_data k k' fr /\ zeroed k' new /\
       same_pages T fr l T' (fr ++ frames new) l' /\ (length l <= 3 * length new + length l')%nat /\ kept T fr l k k') \/
    (r = 0 /\ umem k' l' root T' fr /\ same_data k k' fr /\ same_pages T fr l T' fr l' /\
       (length l < 3 * (pages newsz - length fr))%nat))) k.
Proof.
  intros U Hsz Hmax Hlen. unfold uvmalloc. rewrite (proj2 (Z.ltb_ge _ _)) by lia.
  pose proof TRAPFRAME_MAXVA. rewrite PGROUNDUP_pages by lia. rewrite <- Hlen.
  assert (Hb : base fr - PGSIZE < newsz) by (unfold base; rewrite Hlen; unfold pages, PGSIZE; zlia).
  apply (wp_while _ (fun a k' => exists new l' T', a = base (fr ++ frames new) /\ a - PGSIZE < newsz /\
      umem k' l' root T' (fr ++ frames new) /\ same_data k k' fr /\ zeroed k' new /\
      same_pages T fr l T' (fr ++ frames new) l' /\ (length l <= 3 * length new + length l')%nat /\ same_high k k' root /\ kept T fr l k k')
    _ (fun a => 2 ^ 38 - a)).
  - intros a k1 (new & l1 & T1 & -> & Ha & U1 & M1 & Z1 & S1 & L1 & H1 & W1).
    destruct (Z.ltb_spec (base (fr ++ frames new)) newsz) as [Hlt|Hge].
    + eapply wp_mono; [apply (alloc_page_rep k1 l1 root T1 (fr ++ frames new) (length fr) newsz U1)|].
      * rewrite length_app. lia.
      * lia.
      * intros r k2 (l2 & T2 & H2 & [(-> & pa & U2 & M2 & S2 & L2 & Z2 & W2)|(-> & U2 & M2 & S2 & L2)]).
        -- split; [|unfold PGSIZE; lia]. exists (new ++ [pa]), l2, T2.
           assert (Ef : fr ++ frames (new ++ [pa]) = (fr ++ frames new) ++ [(pa, WXRU)])
             by (unfold frames; by rewrite fmap_app, app_assoc).
           rewrite Ef. split_and!; [|lia|done| | |by eapply same_pages_trans|rewrite length_app; cbn; lia|by eapply same_high_trans|by eapply kept_trans].
           ++ unfold base. rewrite (length_app (fr ++ _)). cbn. unfold PGSIZE. lia.
           ++ eapply same_data_trans; [done|]. intros p a Hp. apply (M2 p). rewrite fmap_app. apply elem_of_app. by left.
           ++ intros p a Hp Ha'. apply elem_of_app in Hp as [Hp|Hp].
              ** rewrite (M2 p); [by apply (Z1 p)| |done]. rewrite fmap_app, frames_pa. apply elem_of_app. by right.
              ** apply list_elem_of_singleton in Hp as ->. by apply Z2.
        -- exists l2, T2. split; [by eapply same_high_trans|right]. rewrite take_app_length in U2, M2, S2.
           split_and!; [done|done|by eapply same_data_trans|by eapply same_pages_trans|].
           unfold base in Hlt. rewrite length_app, length_frames in Hlt. unfold pages. pglia.
    + unfold alloc_page. rewrite (proj2 (Z.ltb_ge _ _)) by done. apply wp_ret. exists l1, T1. split; [done|left].
      split; [done|]. exists new. split_and!; auto.
      unfold base in *. rewrite length_app, length_frames in *. unfold pages. pglia.
  - exists [], l, T. rewrite app_nil_r. split_and!; [done|done|done|by intros ?| |done|cbn; lia|done|done].
    intros pa a Hp. by apply elem_of_nil in Hp.
  - intros a k' (new & l' & T' & -> & _ & U' & _). pose proof (um_max _ _ _ _ _ U').
    change MAXVA with (2 ^ 38) in *. lia.
  - unfold PGSIZE. zpow. lia.
Qed.

Lemma uvmalloc_rep k l root T fr oldsz newsz :
  umem k l root T fr -> 0 <= oldsz <= newsz -> newsz <= TRAPFRAME -> length fr = pages oldsz ->
  wp (uvmalloc end_ root oldsz newsz) (fun r k' => exists l' T', same_high k k' root /\
    ((r = newsz /\ exists new, umem k' l' root T' (fr ++ frames new) /\
       (length fr + length new)%nat = pages newsz /\ same_data k k' fr /\ zeroed k' new /\
       same_pages T fr l T' (fr ++ frames new) l' /\ (length l <= 3 * length new + length l')%nat) \/
    (r = 0 /\ umem k' l' root T' fr /\ same_data k k' fr /\ same_pages T fr l T' fr l' /\
       (length l < 3 * (pages newsz - length fr))%nat))) k.
Proof.
  intros U Hsz Hmax Hlen. eapply wp_mono; [by apply (uvmalloc_kept k l root T fr oldsz newsz)|]. intros r k' (l' & T' & H & H'). exists l', T'.
  split; [done|]. destruct H' as [(-> & new & H')|H']; [left|by right]. split; [done|]. exists new. tauto.
Qed.

(** ** [uvmclear] *)

Lemma leaf_clear_U pa perm : 0 <= perm < 2 ^ 10 -> Z.ldiff (leaf pa perm) PTE_U = leaf pa (Z.ldiff perm PTE_U).
Proof.
  intros H. rewrite !leaf_eq. unfold PTE_U, PTE_V. change (Z.shiftl 1 4) with (2 ^ 4). change (Z.shiftl 1 0) with 1.
  apply Z.bits_inj'. intros n Hn. rewrite !Z.ldiff_spec, !Z.lor_spec, !Z.ldiff_spec, Z.pow2_bits_eqb by lia.
  destruct (Z.eqb_spec 4 n) as [<-|]; cbn [negb]; [|by rewrite !andb_true_r].
  rewrite PA2PTE_div, Z.mul_pow2_bits_low by lia. by rewrite !andb_false_r.
Qed.

Lemma clear_U_range perm : 0 <= perm < 2 ^ 10 -> 0 <= Z.ldiff perm PTE_U < 2 ^ 10.
Proof.
  intros H. assert (0 <= Z.ldiff perm PTE_U) by (apply Z.ldiff_nonneg; lia).
  assert (E : perm - Z.land perm PTE_U = Z.ldiff perm PTE_U).
  { rewrite Z.sub_nocarry_ldiff; apply Z.bits_inj'; intros n Hn; rewrite !Z.ldiff_spec, Z.land_spec, ?Z.bits_0;
      by destruct (Z.testbit perm n), (Z.testbit PTE_U n). }
  pose proof (proj2 (Z.land_nonneg perm PTE_U) (or_introl (proj1 H))). lia.
Qed.

(** The page stays mapped and is not the user's any more. *)
Lemma uvmclear_rep k l root T fr n pa perm :
  umem k l root T fr -> fr !! n = Some (pa, perm) -> Z.lor (Z.ldiff perm PTE_U) PTE_V <> PTE_V ->
  wp (uvmclear root (Z.of_nat n * PGSIZE)) (fun _ k' => umem k' l root T (<[n := (pa, Z.ldiff perm PTE_U)]> fr) /\
    same_data k k' fr /\ same_high k k' root /\ kept T fr l k k') k.
Proof.
  intros U Hn Hne. pose proof U as [R Hmax Hpte Hnone Hhigh Hperm Hfr Hnd]. pose proof TRAPFRAME_MAXVA as HM.
  pose proof (lookup_lt_Some _ _ _ Hn) as Hlt. set (a := Z.of_nat n * PGSIZE). unfold base in Hmax.
  assert (Ha : 0 <= a < MAXVA) by (unfold a, PGSIZE in *; lia). pose proof (Hpte _ _ _ Hn) as Ee. fold a in Ee.
  assert (Hin : (pa, perm) ∈ fr) by (by eapply list_elem_of_lookup_2). destruct (Hperm pa perm Hin) as [P1 P2].
  assert (Hpa : pa ∈ fr.*1) by (apply list_elem_of_fmap; by exists (pa, perm)).
  unfold uvmclear, wp, bind at 1. rewrite walk_false by lia. pose proof R as [Hk I Hfree].
  assert (Hv : has (pte_of (ram k) root a) PTE_V = true) by (rewrite Ee; by apply leaf_V).
  pose proof Ee as Ef. unfold pte_of in Ef. rewrite lookup_find in Ef.
  destruct (find_table 2 (ram k) root a) as [q|] eqn:Hf; [|unfold pte_of in Hv; rewrite lookup_find, Hf in Hv; done].
  assert (Hq : T !! q = Some (0%nat, above 0 a))
    by (eapply (find_table_in _ _ _ _ I 2 root); [rewrite above_2 by done; apply I|done]).
  pose proof (PX_range 0 a ltac:(lia)) as Hpx. pose proof (slot_pos end_ end_pos q (PX 0 a) (pi_page _ _ _ _ I _ _ Hq) Hpx) as Hpos.
  rewrite (proj2 (Z.eqb_neq _ 0)) by lia. unfold bind, load_pte, gets, store_pte, modify. rewrite Ef, leaf_clear_U by done.
  set (perm' := Z.ldiff perm PTE_U). pose proof (clear_U_range perm P1) as P1'. fold perm' in P1'.
  destruct (store_leaf_rep end_ k l root T a q (leaf pa perm') R Ha Hf) as (R2 & G2 & V2). set (k2 := k <| ram := _ |>) in *.
  rewrite leaf_u64 in V2; [|destruct (proj1 (Hfr pa Hpa)) as [_ ?]; unfold PHYSTOP, KERNBASE in *; zpow; lia|done].
  assert (Hout : forall p x, in_page p x -> page_ok end_ p -> p <> q -> ram k2 x = ram k x).
  { intros p x Hx Hp Hpq. cbn. apply store64_outside. destruct (pi_page _ _ _ _ I _ _ Hq) as [Aq _].
    destruct (pages_apart p q (proj1 Hp) Aq Hpq); unfold in_page, PGSIZE in *; lia. }
  assert (El : length (<[n := (pa, perm')]> fr) = length fr) by apply length_insert.
  assert (Ef1 : (<[n := (pa, perm')]> fr).*1 = fr.*1).
  { rewrite list_fmap_insert. apply list_insert_id. by rewrite list_lookup_fmap, Hn. }
  split_and!; [split; unfold base; rewrite ?El, ?Ef1; auto| | |].
  - intros i pa' p' Hi. destruct (decide (i = n)) as [->|Hne'].
    + rewrite list_lookup_insert_eq in Hi by done. injection Hi as <- <-. fold a. rewrite V2, decide_True by done. done.
    + rewrite list_lookup_insert_ne in Hi by done. pose proof (lookup_lt_Some _ _ _ Hi).
      rewrite V2 by (unfold PGSIZE in *; lia). unfold a. rewrite !Z.div_mul, decide_False by (done || lia). by apply Hpte.
  - intros va Hva. rewrite V2 by (unfold PGSIZE in *; lia). rewrite decide_False; [apply Hnone; unfold base; lia|]. unfold a. rewrite Z.div_mul by done. pglia.
  - intros va Hva. rewrite V2 by lia. rewrite decide_False; [by apply Hhigh|]. unfold a. rewrite Z.div_mul by done. pglia.
  - intros pa' p' Hin'. apply list_elem_of_lookup in Hin' as [i Hi]. destruct (decide (i = n)) as [->|Hne'].
    + rewrite list_lookup_insert_eq in Hi by done. injection Hi as <- <-. done.
    + rewrite list_lookup_insert_ne in Hi by done. apply (Hperm pa'). by eapply list_elem_of_lookup_2.
  - intros p x Hp Hx. destruct (Hfr p Hp) as (F1 & _ & F3). apply (Hout p x Hx F1). congruence.
  - intros va Hva. rewrite V2 by lia. rewrite decide_False; [done|]. unfold a. rewrite Z.div_mul by done. pglia.
  - intros x Hx. cbn. apply store64_outside. specialize (Hx q (or_introl (mk_is_Some _ _ Hq))). unfold in_page, PGSIZE in Hx. lia.
Qed.

End User.
