(* ===== verification/VmCopy.v ===== *)
(** * Copying between the kernel and user memory

    [copyout], [copyin] and [copyinstr] of [vm.c] against the list of frames of a
    user address space: what they transfer, and that they fail exactly when an
    address is not mapped for the user. *)
From stdpp Require Import base list gmap strings.
From Stdlib Require Import ZArith Lia.
From S2P Require Import Prelude KString Riscv Kalloc Vm VmSpec VmUser.

#[local] Open Scope Z_scope.
#[local] Open Scope xv6_scope.

(** The frame of the page of [va], when the user may access it. *)
Definition user_frame (fr : list (Z * Z)) (va : Z) : option Z :=
  match fr !! Z.to_nat (va / PGSIZE) with
  | Some (pa, perm) => if has perm PTE_U then Some pa else None
  | None => None
  end.

(** The physical address of a user address. *)
Definition uaddr (fr : list (Z * Z)) (va : Z) : option Z :=
  match user_frame fr va with Some pa => Some (pa + va mod PGSIZE) | None => None end.

(** [n] bytes of user memory from [va] on. *)
Definition ubytes (k : kmem) (fr : list (Z * Z)) (va : Z) (n : Z) : list Z :=
  (fun i => ram k (default 0 (uaddr fr (va + i)))) <$> zseq 0 (Z.to_nat n).

(** Every one of the [n] bytes is the user's. *)
Definition accessible (fr : list (Z * Z)) (va n : Z) : Prop := forall i, 0 <= i < n -> is_Some (uaddr fr (va + i)).

(** A user address lies in a frame. *)
Lemma uaddr_frame fr va a : uaddr fr va = Some a -> exists pa, pa ∈ fr.*1 /\ in_page pa a.
Proof.
  unfold uaddr, user_frame. destruct (fr !! _) as [[pa perm]|] eqn:E; [|done]. destruct (has perm PTE_U); [|done]. intros [= <-].
  exists pa. split; [apply list_elem_of_fmap; exists (pa, perm); split; [done|by eapply list_elem_of_lookup_2]|].
  unfold in_page. pose proof (Z.mod_pos_bound va PGSIZE ltac:(done)). lia.
Qed.

Section Copy.

Context (end_ : Z).
Hypothesis end_pos : 0 < end_.

Lemma leaf_U pa perm : 0 <= perm < 2 ^ 10 -> has (leaf pa perm) PTE_U = has perm PTE_U.
Proof.
  intros H. unfold has. do 2 f_equal. rewrite leaf_eq. unfold PTE_U, PTE_V. change (Z.shiftl 1 4) with 16. change (Z.shiftl 1 0) with 1.
  apply Z.bits_inj'. intros n Hn. rewrite !Z.land_spec, !Z.lor_spec.
  change 16 with (2 ^ 4). rewrite Z.pow2_bits_eqb by lia.
  destruct (Z.eqb_spec 4 n) as [<-|]; [|by rewrite !andb_false_r].
  rewrite PA2PTE_div, Z.mul_pow2_bits_low by lia. change (Z.testbit 1 4) with false. by rewrite orb_false_r.
Qed.

Section Frames.

Context (k : kmem) (l : list Z) (root : Z) (T : gmap Z (nat * Z)) (fr : list (Z * Z)).
Hypothesis U : umem end_ k l root T fr.

(** [walkaddr] finds the user's frame. *)
Lemma walkaddr_frame va :
  0 <= va -> walkaddr root va k = Ok (default 0 (user_frame fr va)) k.
Proof.
  intros Hva. pose proof U as [[_ I _] Hmax Hpte Hnone Hhigh Hperm Hfr _]. pose proof TRAPFRAME_MAXVA as HM.
  rewrite (walkaddr_lookup end_ end_pos root va k T I Hva). f_equal. cbv zeta. unfold user_frame.
  destruct (fr !! Z.to_nat (va / PGSIZE)) as [[pa perm]|] eqn:E.
  - pose proof (lookup_lt_Some _ _ _ E) as Hlt. unfold base in Hmax.
    assert (Hlt' : va < MAXVA) by pglia. rewrite (proj2 (Z.ltb_lt _ _)) by done.
    assert (Ep : pte_of (ram k) root va = leaf pa perm).
    { rewrite <- (Hpte _ _ _ E). apply lookup_same_page. rewrite Z2Nat.id by pglia. rewrite Z.div_mul; done. }
    assert (Hin : (pa, perm) ∈ fr) by (by eapply list_elem_of_lookup_2). destruct (Hperm pa perm Hin) as [P1 _].
    rewrite Ep, leaf_V, leaf_U by done. cbn [andb]. destruct (has perm PTE_U); [|done]. cbn.
    apply leaf_PA; [|done]. apply (Hfr pa). apply list_elem_of_fmap. by exists (pa, perm).
  - apply lookup_ge_None in E. cbn. destruct (Z.ltb_spec va MAXVA) as [Hlt|]; [|done]. cbn [andb].
    destruct (decide (va < TRAPFRAME)) as [Ht|Ht].
    + rewrite Hnone; [done|]. unfold base. pglia.
    + rewrite Hhigh by lia. by rewrite andb_false_r.
Qed.

Lemma user_frame_ok va pa : user_frame fr va = Some pa -> freeable end_ l T pa /\ pa <> 0.
Proof.
  unfold user_frame. destruct (fr !! _) as [[pa' perm]|] eqn:E; [|done]. destruct (has _ _); [|done].
  intros [= <-]. assert (H : freeable end_ l T pa').
  { apply (um_free _ _ _ _ _ _ U). apply list_elem_of_fmap. exists (pa', perm). split; [done|by eapply list_elem_of_lookup_2]. }
  split; [done|]. destruct H as [Hok _]. pose proof (page_ok_range _ end_pos _ Hok). lia.
Qed.

(** A run of bytes inside the page of [va]. *)
Lemma uaddr_page va pa i :
  user_frame fr va = Some pa -> 0 <= i -> va mod PGSIZE + i < PGSIZE -> 0 <= va ->
  uaddr fr (va + i) = Some (pa + (va - PGROUNDDOWN va) + i).
Proof.
  intros Hf Hi Hlt Hva. unfold uaddr, user_frame in *. rewrite PGROUNDDOWN_div.
  replace ((va + i) / PGSIZE) with (va / PGSIZE) by pglia. destruct (fr !! _) as [[pa' perm]|]; [|done].
  destruct (has _ _); [|done]. injection Hf as ->. f_equal. pglia.
Qed.

Lemma uaddr_none va : user_frame fr va = None -> uaddr fr va = None.
Proof. unfold uaddr. by intros ->. Qed.

Lemma ubytes_page va pa n :
  user_frame fr va = Some pa -> 0 <= n -> va mod PGSIZE + n <= PGSIZE -> 0 <= va ->
  read_bytes (ram k) (pa + (va - PGROUNDDOWN va)) (Z.to_nat n) = ubytes k fr va n.
Proof.
  intros Hf Hn Hle Hva. apply list_eq. intros i. unfold ubytes. rewrite list_lookup_fmap.
  destruct (decide (i < Z.to_nat n)%nat) as [Hi|Hi].
  - rewrite read_bytes_lookup by done.
    rewrite (zseq_lookup 0) by done. cbn. rewrite (uaddr_page va pa) by (done || lia). do 2 f_equal; lia.
  - rewrite !lookup_ge_None_2; [done|rewrite length_zseq; lia|rewrite length_read_bytes; lia].
Qed.

End Frames.

Lemma ubytes_slice k fr va n t m :
  0 <= t -> 0 <= m -> t + m <= n -> slice (Z.to_nat t) (Z.to_nat m) (ubytes k fr va n) = ubytes k fr (va + t) m.
Proof.
  intros Ht Hm Hle. unfold slice, ubytes. apply list_eq. intros j. destruct (decide (j < Z.to_nat m)%nat) as [Hj|Hj].
  - rewrite lookup_take_lt, lookup_drop, !list_lookup_fmap, !zseq_lookup by lia. cbn. do 3 f_equal. f_equal. lia.
  - rewrite lookup_take_ge, list_lookup_fmap by lia. rewrite lookup_ge_None_2; [done|]. rewrite length_zseq. lia.
Qed.

Lemma ubytes_app k fr va n n' :
  0 <= n -> 0 <= n' -> ubytes k fr va (n + n') = ubytes k fr va n ++ ubytes k fr (va + n) n'.
Proof.
  intros Hn Hn'. unfold ubytes. rewrite Z2Nat.inj_add, zseq_app, fmap_app by done. f_equal.
  apply list_eq. intros i. rewrite !list_lookup_fmap. destruct (decide (i < Z.to_nat n')%nat).
  - rewrite !zseq_lookup by done. cbn. do 4 f_equal; lia.
  - rewrite !lookup_ge_None_2; [done|rewrite length_zseq; lia..].
Qed.

Lemma length_ubytes k fr va n : length (ubytes k fr va n) = Z.to_nat n.
Proof. unfold ubytes. by rewrite length_fmap, length_zseq. Qed.

Lemma accessible_app fr va n n' : accessible fr va n -> accessible fr (va + n) n' -> accessible fr va (n + n').
Proof.
  intros H1 H2 i Hi. destruct (decide (i < n)); [apply H1; lia|].
  replace (va + i) with (va + n + (i - n)) by lia. apply H2. lia.
Qed.

(** The part of a transfer that lies in the first page. *)
Definition chunk (va len : Z) : Z :=
  let n := PGSIZE - (va - PGROUNDDOWN va) in if n >? len then len else n.

Lemma chunk_spec va len : 0 < len -> 0 <= va ->
  0 < chunk va len <= len /\ va mod PGSIZE + chunk va len <= PGSIZE /\
  (chunk va len < len -> PGROUNDDOWN va + PGSIZE = va + chunk va len).
Proof.
  intros Hl Hva. unfold chunk. rewrite PGROUNDDOWN_div, Z.gtb_ltb.
  destruct (Z.ltb_spec len (PGSIZE - (va - PGSIZE * (va / PGSIZE)))); pglia.
Qed.

Section Access.

Context (k : kmem) (l : list Z) (root : Z) (T : gmap Z (nat * Z)) (fr : list (Z * Z)).
Hypothesis U : umem end_ k l root T fr.

(** Pages of the user lie below the trapframe. *)
Lemma user_frame_max va pa : 0 <= va -> user_frame fr va = Some pa -> va < TRAPFRAME.
Proof.
  intros Hva. unfold user_frame. destruct (fr !! _) as [[? ?]|] eqn:E; [|done]. intros _.
  apply lookup_lt_Some in E. pose proof (um_max _ _ _ _ _ _ U) as H. unfold base in H. pglia.
Qed.

Lemma user_frame_round va : user_frame fr (PGROUNDDOWN va) = user_frame fr va.
Proof. unfold user_frame. replace (PGROUNDDOWN va / PGSIZE) with (va / PGSIZE); [done|]. rewrite PGROUNDDOWN_div. pglia. Qed.

Lemma accessible_page va pa n :
  user_frame fr va = Some pa -> 0 <= va -> va mod PGSIZE + n <= PGSIZE -> accessible fr va n.
Proof. intros Hf Hva Hn i Hi. rewrite (uaddr_page fr va pa) by (done || lia). eauto. Qed.

Lemma next_page va pa : 0 <= va -> user_frame fr va = Some pa -> u64 (PGROUNDDOWN va + PGSIZE) = PGROUNDDOWN va + PGSIZE.
Proof.
  intros Hva Hf. apply u64_small. pose proof (user_frame_max va pa Hva Hf). pose proof TRAPFRAME_MAXVA as HM.
  change MAXVA with (2 ^ 38) in HM. rewrite PGROUNDDOWN_div. pglia.
Qed.

Lemma copyin_spec srcva len :
  0 <= srcva -> 0 <= len < 2 ^ 64 ->
  wp (copyin root srcva len) (fun r k' => k' = k /\
    ((r = (0, ubytes k fr srcva len) /\ accessible fr srcva len) \/
     (r.1 = -1 /\ ~ accessible fr srcva len))) k.
Proof.
  intros Hva Hlen. unfold copyin.
  apply (wp_while _ (fun x k' => k' = k /\ exists d va, x = (ubytes k fr srcva d, va, len - d) /\
      0 <= d <= len /\ 0 <= va /\ (d < len -> va = srcva + d) /\ accessible fr srcva d) _ (fun x => x.2)).
  - intros x k' (-> & d & va & -> & Hd & Hva' & Ev & Hacc). unfold copyin_page. rewrite Z.gtb_ltb.
    destruct (Z.ltb_spec 0 (len - d)) as [Hr|Hr]; cbn [negb].
    2:{ apply wp_ret. assert (d = len) as -> by lia. auto. }
    specialize (Ev ltac:(lia)). unfold wp, bind at 1. rewrite (walkaddr_frame _ _ _ _ _ U), user_frame_round by (rewrite PGROUNDDOWN_div; pglia).
    fold (chunk va (len - d)). destruct (chunk_spec va (len - d)) as (C1 & C2 & C3); [lia|lia|].
    destruct (user_frame fr va) as [pa|] eqn:Ef; cbn [from_option id].
    + destruct (user_frame_ok _ _ _ _ _ U va pa Ef) as [_ Hnz]. rewrite (proj2 (Z.eqb_neq pa 0)) by done.
      unfold bind, gets, ret. rewrite (ubytes_page k fr va pa) by (done || lia).
      rewrite (next_page va pa) by done. cbn. split; [|lia]. split; [done|].
      exists (d + chunk va (len - d)), (PGROUNDDOWN va + PGSIZE). split_and!; [|lia|lia|rewrite PGROUNDDOWN_div; pglia|intros; rewrite C3; lia|].
      * rewrite ubytes_app by lia. rewrite <- Ev. f_equal. lia.
      * apply accessible_app; [done|]. rewrite <- Ev. by apply (accessible_page va pa).
    + cbn. split; [done|right]. split; [done|]. intros Hall. destruct (Hall d) as [x Hx]; [lia|].
      rewrite <- Ev, uaddr_none in Hx; done.
  - split; [done|]. exists 0, srcva. split_and!; [f_equal; lia|lia|lia|lia|lia|]. intros i Hi. lia.
  - intros x k' (_ & d & va & -> & Hd & _). cbn. lia.
  - cbn. lia.
Qed.

(** Different user addresses are different physical addresses. *)
Lemma uaddr_inj va va' a : 0 <= va -> 0 <= va' -> uaddr fr va = Some a -> uaddr fr va' = Some a -> va = va'.
Proof.
  intros H H'. unfold uaddr, user_frame.
  destruct (fr !! Z.to_nat (va / PGSIZE)) as [[pa perm]|] eqn:E; [|done]. destruct (has perm PTE_U); [|done].
  destruct (fr !! Z.to_nat (va' / PGSIZE)) as [[pa' perm']|] eqn:E'; [|done]. destruct (has perm' PTE_U); [|done].
  intros [= Ea] [= Ea'].
  assert (F : fr.*1 !! Z.to_nat (va / PGSIZE) = Some pa) by (rewrite list_lookup_fmap, E; done).
  assert (F' : fr.*1 !! Z.to_nat (va' / PGSIZE) = Some pa') by (rewrite list_lookup_fmap, E'; done).
  destruct (um_free _ _ _ _ _ _ U pa) as [[A _] _]; [by eapply list_elem_of_lookup_2|].
  destruct (um_free _ _ _ _ _ _ U pa') as [[A' _] _]; [by eapply list_elem_of_lookup_2|].
  assert (pa = pa') as <- by pglia.
  pose proof (NoDup_lookup _ _ _ _ (um_nodup _ _ _ _ _ _ U) F F'). pglia.
Qed.

End Access.

(** After [copyout] of the first [d] bytes of [src] to [dstva]. *)
Record wrote (fr : list (Z * Z)) (k k' : kmem) (dstva : Z) (src : list Z) (d : Z) : Prop := {
  wr_in : forall i, 0 <= i < d -> ram k' (default 0 (uaddr fr (dstva + i))) = default 0 (src !! Z.to_nat i);
  wr_out : forall a, (forall i, 0 <= i < d -> uaddr fr (dstva + i) <> Some a) -> ram k' a = ram k a;
}.

Section Out.

Context (k : kmem) (l : list Z) (root : Z) (T : gmap Z (nat * Z)) (fr : list (Z * Z)).
Hypothesis U : umem end_ k l root T fr.

(** One chunk. *)
Lemma wrote_chunk k1 dstva src d va pa n :
  umem end_ k1 l root T fr -> wrote fr k k1 dstva src d -> Forall is_byte src ->
  0 <= dstva -> 0 <= d -> va = dstva + d -> user_frame fr va = Some pa ->
  0 <= n -> va mod PGSIZE + n <= PGSIZE -> d + n <= Z.of_nat (length src) ->
  accessible fr dstva d ->
  let m' := write_bytes (ram k1) (pa + (va - PGROUNDDOWN va)) (take (Z.to_nat n) (drop (Z.to_nat d) src)) in
  let k2 := k1 <| ram := m' |> in
  umem end_ k2 l root T fr /\ wrote fr k k2 dstva src (d + n).
Proof.
  intros U1 [W1 W2] Hby Hd0 Hd Hva Hf Hn Hle Hlen Hacc m' k2.
  destruct (user_frame_ok _ _ _ _ _ U1 va pa Hf) as [Hfr Hnz].
  set (bs := take (Z.to_nat n) (drop (Z.to_nat d) src)).
  assert (Lbs : Z.of_nat (length bs) = n) by (unfold bs; rewrite length_take, length_drop; lia).
  assert (Hin : forall a, pa + (va - PGROUNDDOWN va) <= a < pa + (va - PGROUNDDOWN va) + n -> in_page pa a).
  { intros a Ha. rewrite PGROUNDDOWN_div in Ha. unfold in_page. pglia. }
  destruct (write_page_rep end_ k1 l root T pa m' (um_rep _ _ _ _ _ _ U1) Hfr) as [R2 V2].
  { apply write_bytes_ok; [apply (um_rep _ _ _ _ _ _ U1)|]. apply Forall_take, Forall_drop, Hby. }
  { intros a Ha. unfold m'. apply write_bytes_outside. fold bs. rewrite Lbs.
    destruct (decide (pa + (va - PGROUNDDOWN va) <= a < pa + (va - PGROUNDDOWN va) + n)); [exfalso; auto|lia]. }
  split; [by apply (umem_same end_ k1 l root T k2 l fr U1 R2); [left|]|]. split.
  - intros i Hi. cbn. unfold m'. fold bs. rewrite write_bytes_get, Lbs. destruct (decide (i < d)) as [Hlt|Hge].
    + destruct (Hacc i) as [a Ea]; [lia|]. rewrite decide_False.
      * apply W1. lia.
      * rewrite Ea. cbn. intros Ha.
        assert (Eu : uaddr fr (va + (a - (pa + (va - PGROUNDDOWN va)))) = Some a)
          by (rewrite (uaddr_page fr va pa) by (done || lia); f_equal; lia).
        apply (uaddr_inj k1 l root T fr U1 (dstva + i)) in Eu; [|lia|lia|done]. lia.
    + replace (dstva + i) with (va + (i - d)) by lia. rewrite (uaddr_page fr va pa) by (done || lia). cbn.
      rewrite decide_True by lia. unfold bs. rewrite lookup_take_lt, lookup_drop by lia. do 2 f_equal. lia.
  - intros a Ha. cbn. unfold m'. fold bs. rewrite write_bytes_get, Lbs, decide_False.
    + apply W2. intros i Hi. apply Ha. lia.
    + intros Hr. apply (Ha (d + (a - (pa + (va - PGROUNDDOWN va))))); [lia|].
      replace (dstva + (d + (a - (pa + (va - PGROUNDDOWN va))))) with (va + (a - (pa + (va - PGROUNDDOWN va)))) by lia.
      rewrite (uaddr_page fr va pa) by (done || lia). f_equal. lia.
Qed.

Lemma copyout_spec dstva src len :
  0 <= dstva -> 0 <= len <= Z.of_nat (length src) -> len < 2 ^ 64 -> Forall is_byte src ->
  wp (copyout root dstva src len) (fun r k' =>
    umem end_ k' l root T fr /\
    ((r = 0 /\ accessible fr dstva len /\ wrote fr k k' dstva src len) \/
     (r = -1 /\ ~ accessible fr dstva len /\ exists d, 0 <= d < len /\ wrote fr k k' dstva src d))) k.
Proof.
  intros Hva Hlen Hmax Hby. unfold copyout.
  apply (wp_while _ (fun x k' => exists d va, x = (va, drop (Z.to_nat d) src, len - d) /\
      0 <= d <= len /\ 0 <= va /\ (d < len -> va = dstva + d) /\ accessible fr dstva d /\
      umem end_ k' l root T fr /\ wrote fr k k' dstva src d) _ (fun x => x.2)).
  - intros x k1 (d & va & -> & Hd & Hva' & Ev & Hacc & U1 & W1). unfold copyout_page. rewrite Z.gtb_ltb.
    destruct (Z.ltb_spec 0 (len - d)) as [Hr|Hr]; cbn [negb].
    2:{ apply wp_ret. assert (d = len) as -> by lia. auto. }
    specialize (Ev ltac:(lia)). unfold wp, bind at 1. rewrite (walkaddr_frame _ _ _ _ _ U1), user_frame_round by (rewrite PGROUNDDOWN_div; pglia).
    fold (chunk va (len - d)). destruct (chunk_spec va (len - d)) as (C1 & C2 & C3); [lia|lia|].
    destruct (user_frame fr va) as [pa|] eqn:Ef; cbn [from_option id].
    + destruct (user_frame_ok _ _ _ _ _ U1 va pa Ef) as [_ Hnz]. rewrite (proj2 (Z.eqb_neq pa 0)) by done.
      unfold bind, modify, ret. rewrite (next_page k1 l root T fr U1 va pa) by done.
      destruct (wrote_chunk k1 dstva src d va pa (chunk va (len - d))) as [U2 W2]; try done; try lia.
      cbn. split; [|lia]. exists (d + chunk va (len - d)), (PGROUNDDOWN va + PGSIZE).
      split_and!; [|lia|lia|rewrite PGROUNDDOWN_div; pglia|intros; rewrite C3; lia| |done|done].
      * f_equal; [|lia]. f_equal. rewrite drop_drop. f_equal. lia.
      * apply accessible_app; [done|]. rewrite <- Ev. by apply (accessible_page fr va pa).
    + cbn. split; [done|right]. split_and!; [done| |exists d; split; [lia|done]].
      intros Hall. destruct (Hall d) as [x Hx]; [lia|]. rewrite <- Ev, uaddr_none in Hx; done.
  - exists 0, dstva. split_and!; [f_equal; lia|lia|lia|lia|lia| |done|].
    + intros i Hi. lia.
    + split; [intros; lia|done].
  - intros x k' (d & va & -> & Hd & _). cbn. lia.
  - cbn. lia.
Qed.

End Out.

(** Two transfers to adjacent addresses. *)
Lemma wrote_trans k k1 k2 l root T fr dst d1 d2 bs1 src :
  umem end_ k1 l root T fr -> 0 <= dst -> length bs1 = Z.to_nat d1 -> 0 <= d1 -> accessible fr dst d1 ->
  0 <= d2 <= Z.of_nat (length src) -> wrote fr k k1 dst bs1 d1 -> wrote fr k1 k2 (dst + d1) src d2 ->
  wrote fr k k2 dst (bs1 ++ take (Z.to_nat d2) src) (d1 + d2).
Proof.
  intros U1 Hdst Hl Hd1 Hacc Hd2 [A1 A2] [B1 B2]. split.
  - intros i Hi. destruct (decide (i < d1)) as [Hlt|Hge].
    + rewrite lookup_app_l by lia. rewrite <- A1 by lia. apply B2. intros j Hj E.
      destruct (Hacc i) as [a Ea]; [lia|]. rewrite Ea in E. cbn in E.
      assert (dst + d1 + j = dst + i) by (apply (uaddr_inj k1 l root T fr U1 _ _ a); [lia|lia|done|done]). lia.
    + rewrite lookup_app_r by lia. rewrite lookup_take_lt by lia.
      replace (dst + i) with (dst + d1 + (i - d1)) by lia. rewrite B1 by lia. do 2 f_equal. lia.
  - intros a Ha. rewrite B2; [apply A2|].
    + intros i Hi. apply Ha. lia.
    + intros i Hi. replace (dst + d1 + i) with (dst + (d1 + i)) by lia. apply Ha. lia.
Qed.

(** ** Strings *)

Lemma copystr_bytes_spec n m p :
  (exists j, (j < n)%nat /\ copystr_bytes n m p = (read_bytes m p j ++ [0], true) /\ m (p + Z.of_nat j) = 0 /\
     forall i, (i < j)%nat -> m (p + Z.of_nat i) <> 0) \/
  (copystr_bytes n m p = (read_bytes m p n, false) /\ forall i, (i < n)%nat -> m (p + Z.of_nat i) <> 0).
Proof.
  revert p. induction n as [|n IH]; intros p; cbn [copystr_bytes].
  { right. split; [done|]. intros. lia. }
  destruct (Z.eqb_spec (m p) 0) as [E|E].
  { left. exists 0%nat. split_and!; [lia|done|by rewrite Z.add_0_r|]. intros. lia. }
  assert (Hs : forall i, m (p + Z.of_nat (S i)) = m (p + 1 + Z.of_nat i)) by (intros; f_equal; lia).
  destruct (IH (p + 1)) as [(j & Hj & Ec & Ez & Hnz)|(Ec & Hnz)]; rewrite Ec.
  - left. exists (S j). split_and!; [lia|done|by rewrite Hs|]. intros [|i] Hi; [by rewrite Z.add_0_r|].
    rewrite Hs. apply Hnz. lia.
  - right. split; [done|]. intros [|i] Hi; [by rewrite Z.add_0_r|]. rewrite Hs. apply Hnz. lia.
Qed.

(** A string of [n] bytes followed by a NUL. *)
Record str_at (k : kmem) (fr : list (Z * Z)) (va n : Z) : Prop := {
  sa_acc : accessible fr va (n + 1);
  sa_nonzero : forall i, 0 <= i < n -> ram k (default 0 (uaddr fr (va + i))) <> 0;
  sa_nul : ram k (default 0 (uaddr fr (va + n))) = 0;
}.

Section Str.

Context (k : kmem) (l : list Z) (root : Z) (T : gmap Z (nat * Z)) (fr : list (Z * Z)).
Hypothesis U : umem end_ k l root T fr.

Lemma copyinstr_spec srcva max :
  0 <= srcva -> 0 <= max < 2 ^ 64 ->
  wp (copyinstr root srcva max) (fun r k' => k' = k /\
    ((exists n, 0 <= n < max /\ r = (0, ubytes k fr srcva n ++ [0]) /\ str_at k fr srcva n) \/
     (r.1 = -1 /\ forall n, 0 <= n < max -> ~ str_at k fr srcva n))) k.
Proof.
  intros Hva Hmax. unfold copyinstr.
  apply (wp_while _ (fun x k' => k' = k /\ exists d va, x = (ubytes k fr srcva d, va, max - d) /\
      0 <= d <= max /\ 0 <= va /\ (d < max -> va = srcva + d) /\ accessible fr srcva d /\
      forall i, 0 <= i < d -> ram k (default 0 (uaddr fr (srcva + i))) <> 0) _ (fun x => x.2)).
  - intros x k' (-> & d & va & -> & Hd & Hva' & Ev & Hacc & Hnz). unfold copyinstr_page. rewrite Z.gtb_ltb.
    destruct (Z.ltb_spec 0 (max - d)) as [Hr|Hr]; cbn [negb].
    2:{ apply wp_ret. split; [done|right]. split; [done|]. intros n Hn [_ _ Hz]. apply (Hnz n); [lia|done]. }
    specialize (Ev ltac:(lia)). unfold wp, bind at 1. rewrite (walkaddr_frame _ _ _ _ _ U), user_frame_round by (rewrite PGROUNDDOWN_div; pglia).
    fold (chunk va (max - d)). destruct (chunk_spec va (max - d)) as (C1 & C2 & C3); [lia|lia|].
    destruct (user_frame fr va) as [pa|] eqn:Ef; cbn [from_option id].
    2:{ cbn. split; [done|right]. split; [done|]. intros n Hn [Ha _ Hz]. destruct (decide (n < d)).
        - apply (Hnz n); [lia|done].
        - destruct (Ha d) as [x Hx]; [lia|]. rewrite <- Ev, uaddr_none in Hx; done. }
    destruct (user_frame_ok _ _ _ _ _ U va pa Ef) as [_ Hpz]. rewrite (proj2 (Z.eqb_neq pa 0)) by done.
    assert (Hb : forall i, 0 <= i -> va mod PGSIZE + i < PGSIZE ->
              ram k (default 0 (uaddr fr (srcva + (d + i)))) = ram k (pa + (va - PGROUNDDOWN va) + i)).
    { intros i Hi Hi'. replace (srcva + (d + i)) with (va + i) by lia. by rewrite (uaddr_page fr va pa) by (done || lia). }
    unfold bind, gets, ret.
    destruct (copystr_bytes_spec (Z.to_nat (chunk va (max - d))) (ram k) (pa + (va - PGROUNDDOWN va)))
      as [(j & Hj & Ec & Ez & Hj')|(Ec & Hn')]; rewrite Ec.
    + cbn. split; [done|left]. exists (d + Z.of_nat j). split_and!; [lia|lia| |split].
      * rewrite ubytes_app by lia. rewrite <- Ev, <- app_assoc. do 2 f_equal.
        rewrite <- (ubytes_page k fr va pa (Z.of_nat j)) by (done || lia). by rewrite Nat2Z.id.
      * rewrite <- Z.add_assoc. apply accessible_app; [done|]. rewrite <- Ev. apply (accessible_page fr va pa); [done|done|lia].
      * intros i Hi. destruct (decide (i < d)); [apply Hnz; lia|].
        replace i with (d + (i - d)) by lia. rewrite Hb by lia.
        replace (i - d) with (Z.of_nat (Z.to_nat (i - d))) by lia. apply Hj'. lia.
      * by rewrite Hb by lia.
    + rewrite (ubytes_page k fr va pa) by (done || lia). rewrite (next_page k l root T fr U va pa) by done.
      cbn. split; [|lia]. split; [done|].
      exists (d + chunk va (max - d)), (PGROUNDDOWN va + PGSIZE).
      split_and!; [|lia|lia|rewrite PGROUNDDOWN_div; pglia|intros; rewrite C3; lia| |].
      * rewrite ubytes_app by lia. rewrite <- Ev. f_equal. lia.
      * apply accessible_app; [done|]. rewrite <- Ev. by apply (accessible_page fr va pa).
      * intros i Hi. destruct (decide (i < d)); [apply Hnz; lia|].
        replace i with (d + (i - d)) by lia. rewrite Hb by lia.
        replace (i - d) with (Z.of_nat (Z.to_nat (i - d))) by lia. apply Hn'. lia.
  - split; [done|]. exists 0, srcva. split_and!; [f_equal; lia|lia|lia|lia|lia| |]; intros i Hi; lia.
  - intros x k' (_ & d & va & -> & Hd & _). cbn. lia.
  - cbn. lia.
Qed.

End Str.

End Copy.
