(* ===== verification/VmFork.v ===== *)
(** * Creating and copying an address space

    [uvmcreate] makes an empty address space; [uvmcopy], the core of [fork],
    gives a child its own copy of every page of the parent and leaves the parent
    as it was. *)
From stdpp Require Import base list gmap strings.
From Stdlib Require Import ZArith Lia.
From S2P Require Import Prelude KString Riscv Kalloc Vm VmSpec VmUser.

#[local] Open Scope Z_scope.
#[local] Open Scope xv6_scope.

(** The physical pages of an address space. *)
Definition held (T : gmap Z (nat * Z)) (fr : list (Z * Z)) (p : Z) : Prop := is_Some (T !! p) \/ p ∈ fr.*1.

(** Two address spaces share no physical page. *)
Definition separate (T1 : gmap Z (nat * Z)) (fr1 : list (Z * Z)) (T2 : gmap Z (nat * Z)) (fr2 : list (Z * Z)) : Prop :=
  forall p, held T1 fr1 p -> held T2 fr2 p -> False.

(** [fr2] has copies of the first frames of [fr1]. *)
Definition copied (k : kmem) (fr1 fr2 : list (Z * Z)) : Prop :=
  forall j x y, fr1 !! j = Some x -> fr2 !! j = Some y ->
    y.2 = Z.lor x.2 PTE_V /\ forall o, 0 <= o < PGSIZE -> ram k (y.1 + o) = ram k (x.1 + o).

Section Fork.

Context (end_ : Z).
Hypothesis end_pos : 0 < end_.

(** ** [uvmcreate] *)

Lemma empty_pt m root :
  page_ok end_ root -> (forall a, in_page root a -> m a = 0) ->
  pt_inv end_ m root {[root := (2%nat, 0)]} /\ forall va, pte_of m root va = 0.
Proof.
  intros Hok Hz.
  assert (Hl : forall i, 0 <= i < 512 -> load64 m (root + 8 * i) = 0).
  { intros i Hi. apply load64_zero. intros x Hx. apply Hz. unfold in_page, PGSIZE. lia. }
  assert (Hin : forall p l pre, ({[root := (2%nat, 0)]} : gmap Z (nat * Z)) !! p = Some (l, pre) -> p = root /\ l = 2%nat /\ pre = 0).
  { intros p l pre H. apply lookup_singleton_Some in H as [-> [= <- <-]]. done. }
  split; [split|].
  - apply lookup_singleton_eq.
  - intros p [l pre] H. by apply Hin in H as [-> _].
  - intros p l pre i H Hi. apply Hin in H as [-> _]. left. by rewrite Hl.
  - intros p l pre H. apply Hin in H as [-> _]. by left.
  - intros p l pre H. apply Hin in H as (-> & -> & _). done.
  - intros p l pre H. apply Hin in H as (-> & -> & ->). done.
  - intros va. unfold pte_of. cbn [lookup_pte]. rewrite Hl; [done|]. apply PX_range. lia.
Qed.

Lemma uvmcreate_rep k l :
  kmem_inv end_ k l ->
  match l with
  | [] => uvmcreate k = Panic "uvmcreate: out of memory"
  | root :: l' => wp uvmcreate (fun r k' => r = root /\
      umem end_ k' l' root {[root := (2%nat, 0)]} [] /\
      (forall va, pte_of (ram k') root va = 0) /\
      forall a, ~ in_page root a -> ram k' a = ram k a) k
  end.
Proof.
  intros Hk. destruct l as [|root l].
  { unfold uvmcreate, bind at 1. by rewrite (kalloc_none _ _ Hk). }
  destruct (kalloc_some _ end_pos _ _ _ Hk) as (k1 & E1 & Hk1 & Hm1).
  destruct Hk as [_ _ Hnd Hpg _]. apply Forall_cons in Hpg as [Hok Hpg]. apply NoDup_cons in Hnd as [Hni _].
  unfold uvmcreate, wp, bind at 1. rewrite E1. pose proof (page_ok_range _ end_pos _ Hok).
  rewrite (proj2 (Z.eqb_neq root 0)) by lia. unfold clear_page, bind, modify, ret. cbn.
  set (m := memset (ram k1) root 0 PGSIZE).
  destruct (clear_page_cleared (ram k) (ram k1) root) as [Hz Ho]; [exact Hm1|]. fold m in Hz, Ho.
  destruct (empty_pt m root Hok Hz) as [I V]. split_and!; [done| |done|done]. split.
  - split; cbn; [|done|].
    + apply (kmem_ram end_ k1 l m Hk1); [apply memset_ok, Hk1|]. intros p a Hp Ha. unfold m.
      rewrite memset_get, decide_False; [done|].
      assert (p <> root) by congruence. pose proof (proj1 (Forall_forall _ _) Hpg p Hp) as [Ap _].
      destruct (pages_apart p root Ap (proj1 Hok) ltac:(done)); unfold in_page, PGSIZE in *; lia.
    + intros p [x Hp]. apply lookup_singleton_Some in Hp as [<- _]. done.
  - done.
  - done.
  - intros va _. cbn. by rewrite V.
  - intros va _. cbn. by rewrite V.
  - intros pa perm Hp. by apply elem_of_nil in Hp.
  - intros pa Hp. by apply elem_of_nil in Hp.
  - constructor.
Qed.

(** ** The other address spaces are left alone *)

Lemma held_ok k l root T fr p :
  umem end_ k l root T fr -> held T fr p -> page_ok end_ p /\ (p ∉ l).
Proof.
  intros [[_ I Hf] _ _ _ _ _ Hfr _] [[x Hp]|Hp].
  - split; [by apply (pi_page _ _ _ _ I p x)|apply Hf; eauto].
  - destruct (Hfr p Hp) as (? & ? & _). done.
Qed.

Lemma held_apart p q a : page_ok end_ p -> page_ok end_ q -> p <> q -> in_page p a -> ~ in_page q a.
Proof. intros [A _] [A' _] Hne Ha Ha'. destruct (pages_apart p q A A' Hne); unfold in_page, PGSIZE in *; lia. Qed.

Lemma umem_other k l root T fr k' l' :
  umem end_ k l root T fr -> kmem_inv end_ k' l' ->
  (forall p, p ∈ l' -> p ∈ l \/ ~ held T fr p) ->
  (forall p a, held T fr p -> in_page p a -> ram k' a = ram k a) ->
  umem end_ k' l' root T fr /\ same_data k k' fr.
Proof.
  intros U Hk' Hl Hm. pose proof U as [[Hk I Hf] _ _ _ _ _ _ _].
  destruct (pt_frame end_ (ram k) (ram k') root T I) as [I' V'].
  { intros p a Hp. apply Hm. by left. }
  assert (Hl' : forall p, p ∈ l' -> ~ held T fr p).
  { intros p Hp Hh. destruct (Hl p Hp) as [?|?]; [|done]. by destruct (held_ok _ _ _ _ _ _ U Hh). }
  split.
  - apply (umem_same end_ k l root T k' l' fr U).
    + split; [done|done|]. intros p Hp Hin. apply (Hl' p Hin). by left.
    + intros p Hp. right. intros Hin. apply (Hl' p Hp). by right.
    + intros va Hva. apply V'. rewrite above_2 by done. apply I.
  - intros pa a Hp. apply Hm. by right.
Qed.

Lemma walk_found k l root T va :
  vmrep end_ k l root T -> 0 <= va < MAXVA -> has (pte_of (ram k) root va) PTE_V = true ->
  exists q, walk root va false k = Ok q k /\ q <> 0 /\ load64 (ram k) q = pte_of (ram k) root va.
Proof.
  intros [_ I _] Hva Hv. rewrite walk_false by lia. unfold pte_of in *. rewrite lookup_find in *.
  destruct (find_table 2 (ram k) root va) as [q|] eqn:Hf; [|done]. eexists. split_and!; [done| |done].
  assert (Hq : T !! q = Some (0%nat, above 0 va))
    by (eapply (find_table_in _ _ _ _ I 2 root); [rewrite above_2 by done; apply I|done]).
  pose proof (slot_pos end_ end_pos q (PX 0 va) (pi_page _ _ _ _ I _ _ Hq) (PX_range 0 va ltac:(lia))). lia.
Qed.

(** A new, empty address space beside another one. *)
Lemma create_child k l r1 T1 fr1 r2 :
  umem end_ k (r2 :: l) r1 T1 fr1 ->
  exists k', uvmcreate k = Ok r2 k' /\ umem end_ k' l r1 T1 fr1 /\ same_data k k' fr1 /\
    umem end_ k' l r2 {[r2 := (2%nat, 0)]} [] /\ separate T1 fr1 {[r2 := (2%nat, 0)]} [].
Proof.
  intros U. pose proof (uvmcreate_rep k (r2 :: l) (vr_kmem _ _ _ _ _ (um_rep _ _ _ _ _ _ U))) as H. cbn in H.
  apply wp_Ok in H as (r & k' & E & -> & U2 & _ & M).
  assert (Hr : ~ held T1 fr1 r2) by (intros Hh; destruct (held_ok _ _ _ _ _ _ U Hh) as [_ Hn]; apply Hn; by left).
  assert (Hok : page_ok end_ r2) by (apply (held_ok _ _ _ _ _ _ U2); left; rewrite lookup_singleton_eq; eauto).
  destruct (umem_other k (r2 :: l) r1 T1 fr1 k' l U) as [U1 D].
  - apply U2.
  - intros p Hp. left. by right.
  - intros p a Hp Ha. apply M. apply (held_apart p r2 a); [by apply (held_ok _ _ _ _ _ _ U)|done|congruence|done].
  - exists k'. split_and!; auto. intros p Hp [[x Hx]|Hx]; [|by apply elem_of_nil in Hx].
    apply lookup_singleton_Some in Hx as [<- _]. done.
Qed.

(** ** [uvmcopy] *)

Record forked (k : kmem) (l : list Z) (r1 : Z) (T1 : gmap Z (nat * Z)) (fr1 : list (Z * Z))
              (r2 : Z) (T2 : gmap Z (nat * Z)) (fr2 : list (Z * Z)) : Prop := {
  fk_parent : umem end_ k l r1 T1 fr1;
  fk_child : umem end_ k l r2 T2 fr2;
  fk_sep : separate T1 fr1 T2 fr2;
  fk_copied : copied k fr1 fr2;
}.

(** Only pages of an address space and of the free list have changed. *)
Definition touches (T : gmap Z (nat * Z)) (fr : list (Z * Z)) (l : list Z) (k k' : kmem) : Prop :=
  forall a, (forall p, owns T fr l p -> ~ in_page p a) -> ram k' a = ram k a.

Lemma touches_refl T fr l k : touches T fr l k k.
Proof. by intros ?. Qed.

Lemma touches_trans T fr l T1 fr1 l1 k k1 k2 :
  same_pages T fr l T1 fr1 l1 -> touches T fr l k k1 -> touches T1 fr1 l1 k1 k2 -> touches T fr l k k2.
Proof. intros Hs H1 H2 a Ha. rewrite H2; [by apply H1|]. intros p Hp. apply Ha. by apply Hs. Qed.

Section Copy.

Context (r1 : Z) (T1 : gmap Z (nat * Z)) (fr1 : list (Z * Z)) (r2 : Z).

(** [copied] only depends on the contents of the frames. *)
Lemma copied_same k k' fr2 :
  same_data k k' fr1 -> same_data k k' fr2 -> copied k fr1 fr2 -> copied k' fr1 fr2.
Proof.
  intros M1 M2 Hc j x y Hx Hy. destruct (Hc j x y Hx Hy) as [E Hd]. split; [done|]. intros o Ho.
  assert (x.1 ∈ fr1.*1) by (apply list_elem_of_fmap; exists x; split; [done|by eapply list_elem_of_lookup_2]).
  assert (y.1 ∈ fr2.*1) by (apply list_elem_of_fmap; exists y; split; [done|by eapply list_elem_of_lookup_2]).
  rewrite (M1 x.1 (x.1 + o)), (M2 y.1 (y.1 + o)) by (done || (unfold in_page; lia)). by apply Hd.
Qed.

(** The parent after a change of the child's page table that took pages from the
    free list. *)
Lemma parent_grown k l T2 fr2 k' l' T2' :
  umem end_ k l r1 T1 fr1 -> separate T1 fr1 T2 fr2 -> vmrep end_ k l r2 T2 -> vmrep end_ k' l' r2 T2' ->
  grown k l T2 k' l' T2' ->
  umem end_ k' l' r1 T1 fr1 /\ same_data k k' fr1 /\ separate T1 fr1 T2' fr2.
Proof.
  intros U1 Hs [Hk I _] R' G. destruct (g_new _ _ _ _ _ _ G) as (new & El & D).
  destruct (umem_other k l r1 T1 fr1 k' l' U1) as [U1' M1].
  - apply R'.
  - intros p Hp. left. rewrite El. apply elem_of_app. by right.
  - intros p a Hp Ha. apply (g_mem _ _ _ _ _ _ G). intros q Hq Hq'.
    destruct (held_ok _ _ _ _ _ _ U1 Hp) as [Hok Hni].
    assert (page_ok end_ q /\ p <> q) as [Hq2 Hne].
    { destruct Hq as [[x Hq]|Hq].
      - split; [by apply (pi_page _ _ _ _ I q x)|]. intros ->. apply (Hs q Hp). left. eauto.
      - destruct Hk as [_ _ _ Hpg _]. split; [by apply (proj1 (Forall_forall _ _) Hpg)|congruence]. }
    by apply (held_apart p q a).
  - split_and!; [done|done|]. intros p Hp [Hp2|Hp2]; [|by apply (Hs p Hp); right].
    apply D in Hp2 as [?|Hn]; [by apply (Hs p Hp); left|].
    destruct (held_ok _ _ _ _ _ _ U1 Hp) as [_ Hni]. apply Hni. rewrite El. apply elem_of_app. by left.
Qed.

(** The page that [uvmcopy] allocates and fills for the child. *)
Lemma copy_fresh k T2 fr2 mem l1 k1 pa perm :
  forked k (mem :: l1) r1 T1 fr1 r2 T2 fr2 -> vmrep end_ k1 l1 r2 T2 -> freeable end_ l1 T2 mem ->
  (forall a, ~ in_page mem a -> ram k1 a = ram k a) ->
  (forall va, 0 <= va < MAXVA -> pte_of (ram k1) r2 va = pte_of (ram k) r2 va) ->
  (pa, perm) ∈ fr1 ->
  let k2 := k1 <| ram := memmove (ram k1) mem pa PGSIZE |> in
  forked k2 l1 r1 T1 fr1 r2 T2 fr2 /\ same_data k k2 fr1 /\ (~ held T1 fr1 mem) /\ (mem ∉ fr2.*1) /\
  same_high k k2 r2 /\ (forall a, ~ in_page mem a -> ram k2 a = ram k a) /\
  forall o, 0 <= o < PGSIZE -> ram k2 (mem + o) = ram k2 (pa + o).
Proof.
  intros [U1 U2 Hs Hc] R1 Hmem M1 V1 Hpa k2.
  assert (Hm2 : forall a, ~ in_page mem a -> ram k2 a = ram k a).
  { intros a Ha. unfold k2. cbn. rewrite memmove_get, decide_False by done. by apply M1. }
  assert (Hnh1 : ~ held T1 fr1 mem) by (intros Hh; destruct (held_ok _ _ _ _ _ _ U1 Hh) as [_ Hn]; apply Hn; by left).
  assert (Hnf2 : mem ∉ fr2.*1).
  { intros Hh. destruct (held_ok _ _ _ _ _ mem U2) as [_ Hn]; [by right|]. apply Hn. by left. }
  destruct (write_page_rep end_ k1 l1 r2 T2 mem (ram k2) R1 Hmem) as [R2 V2].
  { apply memmove_ok, R1. }
  { intros a Ha. rewrite Hm2, M1 by done. done. }
  destruct (umem_other k (mem :: l1) r1 T1 fr1 k2 l1 U1) as [U1' D1].
  { apply R2. } { intros p Hp. left. by right. }
  { intros p a Hp Ha. apply Hm2. destruct (held_ok _ _ _ _ _ _ U1 Hp) as [Hok _].
    apply (held_apart p mem a); [done|apply Hmem|congruence|done]. }
  assert (U2' : umem end_ k2 l1 r2 T2 fr2).
  { apply (umem_same end_ k (mem :: l1) r2 T2 k2 l1 fr2 U2 R2); [left; by right|].
    intros va Hva. rewrite <- V1 by done. by apply V2. }
  assert (D2 : same_data k k2 fr2).
  { intros p a Hp Ha. apply Hm2. destruct (held_ok _ _ _ _ _ p U2) as [Hok _]; [by right|].
    apply (held_apart p mem a); [done|apply Hmem|congruence|done]. }
  split_and!; [split; [done|done|done|by eapply copied_same]|done|done|done| |done|].
  { intros va Hva. rewrite <- V1 by (pose proof TRAPFRAME_MAXVA; lia). apply V2. pose proof TRAPFRAME_MAXVA. lia. }
  assert (Hpin : held T1 fr1 pa) by (right; apply list_elem_of_fmap; by exists (pa, perm)).
  destruct (held_ok _ _ _ _ _ _ U1 Hpin) as [Hpok _].
  intros o Ho. unfold k2. cbn. rewrite !memmove_get. rewrite decide_True by lia. rewrite decide_False.
  - f_equal. lia.
  - apply (held_apart pa mem (pa + o)); [done|apply Hmem|congruence|unfold in_page; lia].
Qed.

Lemma forked_append k l T2 fr2 mem pa perm :
  umem end_ k l r1 T1 fr1 -> umem end_ k l r2 T2 (fr2 ++ [(mem, Z.lor perm PTE_V)]) ->
  separate T1 fr1 T2 fr2 -> copied k fr1 fr2 -> (~ held T1 fr1 mem) -> fr1 !! length fr2 = Some (pa, perm) ->
  (forall o, 0 <= o < PGSIZE -> ram k (mem + o) = ram k (pa + o)) ->
  forked k l r1 T1 fr1 r2 T2 (fr2 ++ [(mem, Z.lor perm PTE_V)]).
Proof.
  intros U1 U2 Hs Hc Hn Hpa Hcp. split; [done|done| |].
  - intros p Hp [Hp2|Hp2]; [by apply (Hs p Hp); left|]. rewrite fmap_app in Hp2.
    apply elem_of_app in Hp2 as [Hp2|Hp2]; [by apply (Hs p Hp); right|].
    by apply list_elem_of_singleton in Hp2 as ->.
  - intros j x y Hx Hy. destruct (decide (j = length fr2)) as [->|].
    + rewrite list_lookup_middle in Hy by done. injection Hy as <-. rewrite Hpa in Hx. injection Hx as <-. done.
    + pose proof (lookup_lt_Some _ _ _ Hy) as Hlt. rewrite length_app in Hlt. cbn in Hlt.
      rewrite lookup_app_l in Hy by lia. by apply (Hc j).
Qed.

Lemma forked_kfree k l T2 fr2 mem :
  forked k l r1 T1 fr1 r2 T2 fr2 -> freeable end_ l T2 mem -> (~ held T1 fr1 mem) -> (mem ∉ fr2.*1) ->
  exists k', kfree end_ mem k = Ok tt k' /\ forked k' (mem :: l) r1 T1 fr1 r2 T2 fr2 /\ same_data k k' fr1 /\
    same_high k k' r2 /\ forall a, ~ in_page mem a -> ram k' a = ram k a.
Proof.
  intros [U1 U2 Hs Hc] Hmem Hn1 Hn2.
  destruct (kfree_rep end_ end_pos k l r2 T2 mem (um_rep _ _ _ _ _ _ U2) Hmem) as (k' & E & R' & V & M).
  assert (Hout : forall p a, page_ok end_ p -> p <> mem -> in_page p a -> ram k' a = ram k a).
  { intros p a Hok Hne Ha. apply M. by apply (held_apart p mem a); [|apply Hmem| |]. }
  assert (Hl : forall p, p ∈ mem :: l -> p ∈ l \/ p = mem) by (intros p; rewrite elem_of_cons; tauto).
  destruct (umem_other k l r1 T1 fr1 k' (mem :: l) U1) as [U1' D1]; [apply R'| | |].
  { intros p Hp. destruct (Hl p Hp) as [?| ->]; auto. }
  { intros p a Hp. apply Hout; [by apply (held_ok _ _ _ _ _ _ U1)|congruence]. }
  destruct (umem_other k l r2 T2 fr2 k' (mem :: l) U2) as [U2' D2]; [apply R'| | |].
  { intros p Hp. destruct (Hl p Hp) as [?| ->]; [auto|right]. intros [[x Hx]|?]; [|done].
    destruct Hmem as (_ & _ & HT). congruence. }
  { intros p a Hp. apply Hout; [by apply (held_ok _ _ _ _ _ _ U2)|]. intros ->. destruct Hp as [[x Hx]|?]; [|done].
    destruct Hmem as (_ & _ & HT). congruence. }
  exists k'. split_and!; [done| |done| |done]; [split; [done|done|done|by apply (copied_same k)]|].
  intros va Hva. apply V. pose proof TRAPFRAME_MAXVA. lia.
Qed.

Lemma copy_page_rep k l T2 fr2 sz pa perm :
  forked k l r1 T1 fr1 r2 T2 fr2 -> fr1 !! length fr2 = Some (pa, perm) -> base fr2 < sz <= TRAPFRAME ->
  wp (copy_page end_ r1 r2 sz (base fr2)) (fun r k' => exists l' T2' fr2', same_data k k' fr1 /\
    forked k' l' r1 T1 fr1 r2 T2' fr2' /\ same_pages T2 fr2 l T2' fr2' l' /\ same_high k k' r2 /\ touches T2 fr2 l k k' /\
    ((r = inl (base fr2 + PGSIZE) /\ length fr2' = S (length fr2) /\ (length l <= 3 + length l')%nat) \/
     (r = inr (false, base fr2) /\ fr2' = fr2 /\ (length l < 3)%nat))) k.
Proof.
  intros F Hpa Hsz. pose proof F as [U1 U2 Hs Hc]. pose proof TRAPFRAME_MAXVA as HM.
  assert (Hin : (pa, perm) ∈ fr1) by (by eapply list_elem_of_lookup_2).
  destruct (um_perm _ _ _ _ _ _ U1 pa perm Hin) as [P1 P2].
  assert (Pa : pa mod PGSIZE = 0) by (apply (um_free _ _ _ _ _ _ U1 pa), list_elem_of_fmap; by exists (pa, perm)).
  assert (Hb0 : 0 <= base fr2) by (unfold base, PGSIZE; lia).
  pose proof (um_pte _ _ _ _ _ _ U1 _ _ _ Hpa) as Ep. fold (base fr2) in Ep.
  unfold copy_page. rewrite (proj2 (Z.ltb_lt _ _)) by lia. cbn [negb].
  destruct (walk_found k l r1 T1 (base fr2)) as (q & Eq & Hq & El); [apply U1|lia|rewrite Ep; by apply leaf_V|].
  unfold wp, bind at 1. rewrite Eq, (proj2 (Z.eqb_neq q 0)) by done. unfold bind at 1, load_pte, gets.
  rewrite El, Ep, leaf_V, leaf_PA, leaf_flags by done. cbn [negb].
  match goal with |- match bind kalloc ?F k with _ => _ end => fold (wp (bind kalloc F)) end.
  apply (kalloc_rep end_ end_pos k l r2 T2 _ _ (um_rep _ _ _ _ _ _ U2)).
  { intros ->. cbn [Z.eqb]. apply wp_ret. exists [], T2, fr2. split_and!; [by intros ?|done|done|by intros ?|by intros ?|right]. split_and!; [done|done|cbn; lia]. }
  intros mem l1 k1 -> Hnz R1 Hmem M1 V1. rewrite (proj2 (Z.eqb_neq mem 0)) by done. apply wp_modify.
  destruct (copy_fresh k T2 fr2 mem l1 k1 pa perm F R1 Hmem M1 V1 Hin) as (F2 & D2 & Hnh & Hnf & H2 & M2 & Hcp).
  set (k2 := k1 <| ram := _ |>) in *. pose proof F2 as [U1' U2' _ Hc2].
  assert (Hbd : (base fr2 + PGSIZE - 1) / PGSIZE = base fr2 / PGSIZE) by (unfold base; pglia).
  assert (Hbig : base fr2 + PGSIZE <= TRAPFRAME) by (unfold TRAPFRAME, TRAMPOLINE, base, PGSIZE in *; change MAXVA with (2 ^ 38) in *; zpow; lia).
  destruct (flags_V perm P1) as [P3 P4].
  eapply wp_seq; [apply (mappages_spec end_ end_pos k2 l1 r2 T2 (base fr2) PGSIZE mem (Z.lor perm PTE_V) 1); try done|].
  - apply U2'.
  - lia.
  - lia.
  - apply Hmem.
  - destruct Hmem as [[_ Hr] _]. lia.
  - destruct Hmem as [[_ Hr] _]. unfold PHYSTOP, KERNBASE, PGSIZE in *. zpow. lia.
  - intros j Hj. assert (j = 0) as -> by lia. rewrite Z.mul_0_l, Z.add_0_r, PGROUNDDOWN_id by (unfold base; apply Z.mod_mul; done).
    apply (um_none _ _ _ _ _ _ U2'). lia.
  - intros r k3 (l3 & T3 & j & R3 & G3 & Hj & HL & Hr & V3).
    destruct (parent_grown k2 l1 T2 fr2 k3 l3 T3 U1' Hs (um_rep _ _ _ _ _ _ U2') R3 G3) as (U1'' & D3 & Hs3).
    assert (D : same_data k k3 fr1) by (by eapply same_data_trans).
    assert (Hin3 : forall x, is_Some (T2 !! x) \/ x ∈ l1 -> owns T2 fr2 (mem :: l1) x) by (unfold owns; intros x; rewrite elem_of_cons; tauto).
    assert (Hmem3 : owns T2 fr2 (mem :: l1) mem) by (unfold owns; rewrite elem_of_cons; tauto).
    assert (Ht : touches T2 fr2 (mem :: l1) k k3).
    { intros a Ha. rewrite (g_mem _ _ _ _ _ _ G3); [by apply M2, Ha|]. intros x Hx. by apply Ha, Hin3. }
    assert (H3 : same_high k k3 r2).
    { intros va Hva. rewrite V3 by lia. unfold mapped. rewrite decide_False; [by apply H2|].
      assert (va / PGSIZE >= TRAPFRAME / PGSIZE) by (apply Z.le_ge, Z.div_le_mono; [done|lia]).
      assert (base fr2 / PGSIZE + j <= TRAPFRAME / PGSIZE) by (unfold base in *; pglia). lia. }
    assert (Hcp3 : forall o, 0 <= o < PGSIZE -> ram k3 (mem + o) = ram k3 (pa + o)).
    { intros o Ho. rewrite (D3 pa (pa + o)); [|apply list_elem_of_fmap; by exists (pa, perm)|unfold in_page; lia].
      rewrite <- Hcp by done. apply (grown_mem end_ k2 l1 r2 T2 k3 l3 T3 mem); [apply U2'|done|done|unfold in_page; lia]. }
    destruct Hr as [[-> ->]|(-> & -> & Hj1 & Hlt)]; cbn [Z.eqb negb].
    + apply wp_ret. exists l3, T3, (fr2 ++ [(mem, Z.lor perm PTE_V)]).
      destruct (umem_append end_ end_pos k2 l1 r2 T2 k3 l3 T3 fr2 mem (Z.lor perm PTE_V)) as [U3 M3]; try done.
      * by rewrite <- Z.lor_assoc, Z.lor_diag.
      * split_and!; [done| | |done|done|left].
        { by apply (forked_append k3 l3 T3 fr2 mem pa perm); [..|apply (copied_same k2)| | |]. }
        { eapply same_pages_trans; [apply (same_pages_append T2 fr2 l1 mem (Z.lor perm PTE_V))|by eapply same_pages_grown]. }
        rewrite length_app. cbn. split; [|split; lia].
        by rewrite u64_small by (change MAXVA with (2 ^ 38) in *; unfold PGSIZE in *; zpow; lia).
    + assert (j = 0) as -> by lia.
      destruct (umem_grown end_ end_pos k2 l1 r2 T2 k3 [] T3 fr2 U2' R3 G3) as [U3 M3].
      { intros va Hva. rewrite V3 by done. unfold mapped. by rewrite decide_False by lia. }
      destruct (forked_kfree k3 [] T3 fr2 mem) as (k4 & E4 & F4 & D4 & H4 & M4).
      * split; [done|done|done|by apply (copied_same k2)].
      * by eapply grown_free.
      * intros [Hh|Hh]; [by apply Hnh; left|by apply Hnh; right].
      * done.
      * unfold wp, bind at 1. rewrite E4. exists [mem], T3, fr2.
        split_and!; [by eapply same_data_trans|done| |by eapply same_high_trans| |right; split_and!; [done|done|cbn; lia]].
        2:{ intros a Ha. rewrite M4; [by apply Ht|]. by apply Ha. }
        intros p. pose proof (same_pages_grown _ _ _ _ _ _ fr2 G3 p) as Hp.
        clear -Hp. unfold owns in *. rewrite !elem_of_cons. rewrite elem_of_nil in *. tauto.
Qed.

(** The child's copied pages are given back. *)
Lemma forked_undo k l T2 fr2 :
  forked k l r1 T1 fr1 r2 T2 fr2 -> (0 < length fr2)%nat ->
  wp (uvmunmap end_ r2 0 (base fr2) true) (fun _ k' =>
    forked k' (rev fr2.*1 ++ l) r1 T1 fr1 r2 T2 [] /\ same_data k k' fr1 /\ same_high k k' r2 /\ touches T2 fr2 l k k') k.
Proof.
  intros [U1 U2 Hs Hc] Hn.
  eapply wp_mono; [apply (umem_unmap_high end_ end_pos k l r2 T2 fr2 0 0 (base fr2)); auto|].
  - unfold base, PGSIZE. lia.
  - unfold base. pglia.
  - intros [] k' (U2' & _ & H & M). rewrite drop_0 in U2'. cbn [take] in U2'.
    destruct (umem_other k l r1 T1 fr1 k' (rev fr2.*1 ++ l) U1) as [U1' D1].
    + apply U2'.
    + intros p. rewrite elem_of_app, elem_of_rev. intros [Hp|Hp]; [right|by left].
      intros Hh. apply (Hs p Hh). by right.
    + intros p a Hp Ha. apply M. intros q Hq Hqa.
      destruct (held_ok _ _ _ _ _ _ U1 Hp) as [Hok _]. destruct (held_ok _ _ _ _ _ q U2 Hq) as [Hok' _].
      apply (held_apart p q a); auto. intros ->. by apply (Hs q).
    + split_and!; [|done|done|].
      * split; [done|done| |by intros].
        intros p Hp [Hp2|Hp2]; [apply (Hs p Hp); by left|by apply elem_of_nil in Hp2].
      * intros a Ha. apply M. intros p Hp. apply Ha. unfold owns. tauto.
Qed.

Lemma uvmcopy_rep k l T2 sz :
  forked k l r1 T1 fr1 r2 T2 [] -> 0 <= sz <= TRAPFRAME -> length fr1 = pages sz -> (3 <= length l)%nat ->
  wp (uvmcopy end_ r1 r2 sz) (fun r k' => exists l' T2' fr2,
    forked k' l' r1 T1 fr1 r2 T2' fr2 /\ same_data k k' fr1 /\ same_pages T2 [] l T2' fr2 l' /\
    same_high k k' r2 /\ touches T2 [] l k k' /\
    (r = 0 /\ length fr2 = length fr1 \/ r = -1 /\ fr2 = [] /\ (length l < 3 * length fr1)%nat)) k.
Proof.
  intros F Hsz Hlen Hl. pose proof TRAPFRAME_MAXVA as HM. change MAXVA with (2 ^ 38) in HM. unfold uvmcopy.
  eapply wp_seq with (P := fun (r : bool * Z) k' => exists l' T2' fr2,
    forked k' l' r1 T1 fr1 r2 T2' fr2 /\ same_data k k' fr1 /\ same_pages T2 [] l T2' fr2 l' /\
    same_high k k' r2 /\ touches T2 [] l k k' /\
    (r.1 = true /\ length fr2 = length fr1 \/ r = (false, base fr2) /\ (0 < length fr2)%nat /\ (length l < 3 * length fr1)%nat)).
  - apply (wp_while _ (fun i k' => exists l' T2' fr2, i = base fr2 /\ (length fr2 <= length fr1)%nat /\
        forked k' l' r1 T1 fr1 r2 T2' fr2 /\ same_data k k' fr1 /\ same_pages T2 [] l T2' fr2 l' /\
        same_high k k' r2 /\ touches T2 [] l k k' /\
        (length l <= 3 * length fr2 + length l')%nat)
      _ (fun i => 2 ^ 38 - i)).
    + intros i k1 (l1 & T2' & fr2 & -> & Hle & F1 & D1 & S1 & G1 & W1 & E1).
      destruct (Z.ltb_spec (base fr2) sz) as [Hlt|Hge].
      * destruct (lookup_lt_is_Some_2 fr1 (length fr2)) as [[pa perm] Hpa].
        { rewrite Hlen. unfold base in Hlt. unfold pages. pglia. }
        eapply wp_mono; [apply (copy_page_rep k1 l1 T2' fr2 sz pa perm F1 Hpa); lia|].
        intros r k2 (l2 & T3 & fr3 & D2 & F2 & S2 & G2 & W2 & [(-> & Hn & HL)|(-> & -> & Hfew)]).
        -- split; [|unfold PGSIZE; lia]. exists l2, T3, fr3. apply lookup_lt_Some in Hpa.
           split_and!; [unfold base; rewrite Hn; unfold PGSIZE; lia|lia|done|by eapply same_data_trans|by eapply same_pages_trans|by eapply same_high_trans|by eapply touches_trans|lia].
        -- exists l2, T3, fr2. split_and!; [done|by eapply same_data_trans|by eapply same_pages_trans|by eapply same_high_trans|by eapply touches_trans|right]. split; [done|].
           apply lookup_lt_Some in Hpa. lia.
      * unfold copy_page. rewrite (proj2 (Z.ltb_ge _ _)) by done. apply wp_ret.
        exists l1, T2', fr2. split_and!; [done|done|done|done|done|left]. split; [done|].
        rewrite Hlen in *. unfold base, pages in *. pglia.
    + exists l, T2, []. split_and!; [done|cbn; lia|done|by intros ?|done|by intros ?|by intros ?|cbn; lia].
    + intros i k' (l' & T2' & fr2 & -> & _ & [_ U2 _ _] & _). pose proof (um_max _ _ _ _ _ _ U2). lia.
    + zpow. lia.
  - intros [ok i] k1 (l1 & T2' & fr2 & F1 & D1 & S1 & G1 & W1 & [[Hok Hn]|(E & Hn & Hfew)]).
    + cbn in Hok. subst ok. apply wp_ret. exists l1, T2', fr2. split_and!; auto.
    + injection E as -> ->. eapply wp_seq; [by apply (forked_undo k1 l1 T2' fr2)|].
      intros [] k2 (F2 & D2 & G2 & W2). apply wp_ret. exists (rev fr2.*1 ++ l1), T2', [].
      split_and!; [done|by eapply same_data_trans| |by eapply same_high_trans|by eapply touches_trans|by right].
      eapply same_pages_trans; [done|]. pose proof (same_pages_take T2' fr2 l1 0) as S2. by rewrite drop_0 in S2.
Qed.

End Copy.

End Fork.
