(* ===== verification/KernVm.v ===== *)
(** * The kernel's address space

    [kvminit] and [procinit] build the page table of the kernel from regions.  The
    number of page-table pages they need is bounded by counting coordinates: a
    page-table page is determined by its level and the address bits above it. *)
From stdpp Require Import base list gmap strings.
From Stdlib Require Import ZArith Lia.
From S2P Require Import Prelude KString Riscv Kalloc Vm VmSpec VmUser VmCopy VmFork.

#[local] Open Scope Z_scope.
#[local] Open Scope xv6_scope.

Section Count.

Context (end_ : Z) (end_pos : 0 < end_).

(** No more page-table pages than coordinates. *)
Lemma table_count m root T (C : list (nat * Z)) : pt_inv end_ m root T -> (forall p x, T !! p = Some x -> x ∈ C) -> (size T <= length C)%nat.
Proof.
  intros I HC. rewrite <- length_map_to_list, <- (length_fmap snd). apply NoDup_incl_length.
  - apply NoDup_ListNoDup, NoDup_fmap_2_strong; [|apply NoDup_map_to_list].
    intros [p [l pre]] [q [l' pre']] Hp Hq E. apply elem_of_map_to_list in Hp, Hq. cbn in E. injection E as -> ->. f_equal.
    by apply (coord_inj end_ m root T l' pre').
  - intros x Hx. apply list_elem_of_In, list_elem_of_fmap in Hx as ([p y] & -> & Hp). apply elem_of_map_to_list in Hp. apply list_elem_of_In. by apply (HC p).
Qed.

Lemma grown_size k l root T k' l' T' : vmrep end_ k l root T -> grown k l T k' l' T' -> (size T' + length l' = size T + length l)%nat.
Proof.
  intros [[_ _ Hnd _ _] _ Hf] [(new & -> & Hn) _ _ _]. apply NoDup_app in Hnd as (Hnd & _ & _).
  assert (E : dom T' = dom T ∪ list_to_set new) by (apply set_eq; intros p; rewrite elem_of_union, !elem_of_dom, elem_of_list_to_set; apply Hn).
  rewrite <- !size_dom, E, size_union, size_list_to_set, length_app; [lia|done|].
  intros p Hp Hp2. apply elem_of_dom in Hp. apply elem_of_list_to_set in Hp2. apply (Hf p Hp). apply elem_of_app. by left.
Qed.

End Count.

(** ** Regions *)

Record region : Type := Region {
  rg_va : Z;
  rg_pa : Z;
  rg_size : Z;
  rg_perm : Z
}.

Definition rg_first (r : region) : Z := rg_va r / PGSIZE.
Definition rg_pages (r : region) : Z := rg_size r / PGSIZE.

Definition inside (r : region) (va : Z) : Prop := rg_first r <= va / PGSIZE < rg_first r + rg_pages r.

#[export] Instance inside_dec r va : Decision (inside r va).
Proof. unfold inside. apply _. Defined.

(** The entry of [va] in an address space of the given regions. *)
Fixpoint kmap (rs : list region) (va : Z) : Z :=
  match rs with
  | [] => 0
  | r :: rs => if decide (inside r va) then leaf (rg_pa r + (va / PGSIZE - rg_first r) * PGSIZE) (rg_perm r) else kmap rs va
  end.

Record rg_ok (r : region) : Prop := {
  ro_va : 0 <= rg_va r /\ rg_va r mod PGSIZE = 0;
  ro_size : 0 < rg_size r /\ rg_size r mod PGSIZE = 0 /\ rg_va r + rg_size r <= MAXVA;
  ro_pa : 0 <= rg_pa r /\ rg_pa r mod PGSIZE = 0 /\ rg_pa r + rg_size r < 2 ^ 56;
  ro_perm : 0 <= rg_perm r < 2 ^ 10
}.

Definition apart (r r' : region) : Prop := rg_first r + rg_pages r <= rg_first r' \/ rg_first r' + rg_pages r' <= rg_first r.

Lemma kmap_none r rs va : Forall (apart r) rs -> inside r va -> kmap rs va = 0.
Proof.
  induction 1 as [|r' rs H Hs IH]; intros Hi; [done|]. cbn [kmap]. rewrite decide_False; [by apply IH|]. unfold inside, apart in *. lia.
Qed.

(** ** Mapping a region *)

Section Map.

Context (end_ : Z) (end_pos : 0 < end_) (C : list (nat * Z)).

(** The pages [l0] are divided between the table at [root] and the free list [l], and the
    table maps the regions [rs]. *)
Record maps (k0 : kmem) (l0 : list Z) (k : kmem) (l : list Z) (root : Z) (T : gmap Z (nat * Z)) (rs : list region) : Prop := {
  mp_rep : vmrep end_ k l root T;
  mp_coords : forall p x, T !! p = Some x -> x ∈ C;
  mp_pages : forall p, p ∈ l0 <-> is_Some (T !! p) \/ p ∈ l;
  mp_count : (size T + length l = length l0)%nat;
  mp_map : forall va, 0 <= va < MAXVA -> pte_of (ram k) root va = kmap rs va;
  mp_frame : forall a, (forall p, p ∈ l0 -> ~ in_page p a) -> ram k a = ram k0 a
}.

Lemma map_region k0 l0 k l root T rs r :
  maps k0 l0 k l root T rs -> (length C < length l0)%nat -> rg_ok r -> Forall (apart r) rs ->
  (forall lv va, (lv < 2)%nat -> inside r va -> (lv, above lv va) ∈ C) -> (2%nat, 0) ∈ C ->
  exists k' l' T', mappages root (rg_va r) (rg_size r) (rg_pa r) (rg_perm r) k = Ok 0 k' /\ maps k0 l0 k' l' root T' (r :: rs).
Proof.
  intros [M1 M2 M3 M4 M5 M6] HC [[A1 A2] (B1 & B2 & B3) (D1 & D2 & D3) E1] Hap Hr H2.
  set (n := rg_pages r).
  assert (Hn : n = (rg_va r + rg_size r - 1) / PGSIZE - rg_va r / PGSIZE + 1) by (unfold n, rg_pages, PGSIZE in *; zlia).
  assert (Hn2 : n * PGSIZE = rg_size r) by (unfold n, rg_pages, PGSIZE in *; zlia).
  assert (Hin : forall va, inside r va <-> rg_va r / PGSIZE <= va / PGSIZE < rg_va r / PGSIZE + n) by done.
  pose proof (mappages_places end_ end_pos k l root T (rg_va r) (rg_size r) (rg_pa r) (rg_perm r) n M1 A1 B1 B3 Hn D2 D1) as W.
  assert (D3' : rg_pa r + n * PGSIZE < 2 ^ 56) by (by rewrite Hn2). specialize (W D3' E1).
  assert (Hfree : forall j, 0 <= j < n -> has (pte_of (ram k) root (PGROUNDDOWN (rg_va r) + j * PGSIZE)) PTE_V = false).
  { intros j Hj. rewrite PGROUNDDOWN_id by done. assert (Hj2 : 0 <= rg_va r + j * PGSIZE < MAXVA) by (unfold PGSIZE in *; lia).
    rewrite M5 by done. rewrite (kmap_none r rs); [done|done|]. apply Hin. unfold PGSIZE in *. zlia. }
  specialize (W Hfree). apply wp_Ok in W as (x & k' & Ex & W).
  destruct W as (l' & T' & j & R' & G & Hj & _ & P & Hx & V).
  assert (HC' : forall p x, T' !! p = Some x -> x ∈ C).
  { intros p [lv pre] Hp. destruct (P p lv pre Hp) as [Hp'|(va & Hva & ->)]; [by apply (M2 p)|].
    destruct (pi_level _ _ _ _ (vr_pt _ _ _ _ _ R') p lv (above lv va) Hp) as [Hl2 Hroot]. destruct (decide (lv = 2%nat)) as [->|]; [|apply Hr; [lia|by apply Hin]].
    rewrite Hroot in Hp by done. rewrite (pi_root _ _ _ _ (vr_pt _ _ _ _ _ R')) in Hp. by injection Hp as <-. }
  pose proof (grown_size end_ _ _ _ _ _ _ _ M1 G) as Hsz. pose proof (table_count end_ _ _ _ C (vr_pt _ _ _ _ _ R') HC') as Hct.
  destruct Hx as [[-> ->]|(_ & -> & _)]; [|cbn in Hsz; lia]. exists k', l', T'. split; [exact Ex|]. destruct (g_new _ _ _ _ _ _ G) as (new & En & Hnew).
  split; [done|done| |lia| |].
  - intros p. rewrite M3, Hnew, En, elem_of_app. tauto.
  - intros va Hva. rewrite V by done. cbn [kmap]. unfold mapped. destruct (decide (inside r va)) as [Hi|Hi].
    + rewrite decide_True by (by apply Hin). done.
    + rewrite decide_False by (by rewrite <- Hin). by apply M5.
  - intros a Ha. rewrite (g_mem _ _ _ _ _ _ G); [by apply M6|]. intros p Hp. apply Ha. rewrite M3. done.
Qed.

End Map.

(** ** [kvminit] *)

(** Page-table pages of the kernel: the root, one per gigabyte and one per two megabytes in use. *)
Definition kcoords : list (nat * Z) :=
  (2%nat, 0) :: (pair 1%nat <$> [0; 2; 255]) ++ (pair 0%nat <$> [16; 96; 97; 128; 131071] ++ zseq 1024 64).

(** Devices, physical memory, and the top two megabytes. *)
Definition kpage (x : Z) : Prop :=
  0x2000 <= x < 0x2010 \/ 0xc000 <= x < 0xc400 \/ 0x10000 <= x < 0x10003 \/ 0x80000 <= x < 0x88000 \/ 0x3fffe00 <= x < 0x4000000.

Lemma kpage_coords lv va : (lv < 2)%nat -> kpage (va / PGSIZE) -> (lv, above lv va) ∈ kcoords.
Proof.
  intros Hl Hk. unfold kcoords. apply elem_of_cons. right. apply elem_of_app. unfold above, kpage, PGSIZE in *.
  destruct lv as [|[|lv]]; [right|left|lia]; apply list_elem_of_fmap; (eexists; split; [reflexivity|]).
  - change (2 ^ (21 + 9 * Z.of_nat 0)) with 2097152. apply elem_of_app. rewrite !elem_of_cons, elem_of_nil, elem_of_zseq. zlia.
  - change (2 ^ (21 + 9 * Z.of_nat 1)) with 1073741824. rewrite !elem_of_cons, elem_of_nil. zlia.
Qed.

Section Kvminit.

Context (end_ etext trampoline : Z).
Hypothesis etext_page : etext mod PGSIZE = 0.
Hypothesis etext_range : KERNBASE < etext < PHYSTOP.
Hypothesis tramp_page : trampoline mod PGSIZE = 0.
Hypothesis tramp_text : KERNBASE <= trampoline < etext.
Hypothesis end_data : etext <= end_.

Definition RW : Z := Z.lor PTE_R PTE_W.
Definition RX : Z := Z.lor PTE_R PTE_X.

(** The regions of [kvminit], the last one first. *)
Definition kregions : list region :=
  [Region TRAMPOLINE trampoline PGSIZE RX; Region etext etext (PHYSTOP - etext) RW; Region KERNBASE KERNBASE (etext - KERNBASE) RX;
   Region PLIC PLIC 0x400000 RW; Region CLINT CLINT 0x10000 RW; Region (VIRTION 1) (VIRTION 1) PGSIZE RW;
   Region (VIRTION 0) (VIRTION 0) PGSIZE RW; Region UART0 UART0 PGSIZE RW].

Lemma end_pos : 0 < end_.
Proof. unfold KERNBASE in *. lia. Qed.

Abbreviation maps := (maps end_ kcoords).

(** A region of the kernel's pages. *)
Definition krange (r : region) : Prop := forall va, inside r va -> kpage (va / PGSIZE).

Lemma map_kernel k0 l0 k l root T rs r : maps k0 l0 k l root T rs -> (73 < length l0)%nat -> rg_ok r -> Forall (apart r) rs -> krange r ->
  exists k' l' T', mappages root (rg_va r) (rg_size r) (rg_pa r) (rg_perm r) k = Ok 0 k' /\ maps k0 l0 k' l' root T' (r :: rs).
Proof.
  intros M Hl Hok Hap Hr. apply (map_region end_ end_pos kcoords k0 l0 k l root T rs r M); auto; [|unfold kcoords; apply elem_of_cons; by left].
  intros lv va Hlv Hi. apply kpage_coords; [done|by apply Hr].
Qed.

Lemma kvmmap_region k0 l0 k l root T rs r : maps k0 l0 k l root T rs -> (73 < length l0)%nat -> rg_ok r -> Forall (apart r) rs -> krange r ->
  exists k' l' T', kvmmap (rg_va r) (rg_pa r) (rg_size r) (rg_perm r) (Kvm k root) = Ok tt (Kvm k' root) /\ maps k0 l0 k' l' root T' (r :: rs).
Proof.
  intros M Hl Hok Hap Hr. destruct (map_kernel k0 l0 k l root T rs r M Hl Hok Hap Hr) as (k' & l' & T' & E & M'). exists k', l', T'. split; [|done].
  unfold kvmmap, bind, gets, in_mem, zoom. cbn [kernel_pagetable kvm_mem]. by rewrite E.
Qed.

(** An empty table. *)
Lemma root_table k l root : kmem_inv end_ k (root :: l) -> exists k1 k2, kalloc k = Ok root k1 /\ clear_page root k1 = Ok tt k2 /\
  maps k (root :: l) k2 l root {[root := (2%nat, 0)]} [].
Proof.
  intros Hk. destruct (kalloc_some _ end_pos _ _ _ Hk) as (k1 & E1 & _ & _). pose proof (uvmcreate_rep end_ end_pos k _ Hk) as W. cbn beta iota in W.
  apply wp_Ok in W as (r & k2 & E2 & -> & U & V & Hm). unfold uvmcreate in E2. rewrite (bind_Ok _ _ _ _ _ E1) in E2.
  destruct Hk as [_ _ Hnd Hpg _]. apply Forall_cons in Hpg as [Hok Hpg]. pose proof (page_ok_range _ end_pos _ Hok). rewrite (proj2 (Z.eqb_neq root 0)) in E2 by lia.
  exists k1, k2. split; [done|]. split; [unfold clear_page, bind, modify, ret in *; congruence|]. split; [apply U| | | | |].
  - intros p x Hx. apply lookup_singleton_Some in Hx as [_ <-]. apply elem_of_cons. by left.
  - intros p. rewrite elem_of_cons. split; intros [H1|H1]; [left; subst; rewrite lookup_singleton_eq; eauto|by right| |by right].
    destruct H1 as [x Hx]. apply lookup_singleton_Some in Hx as [<- _]. by left.
  - rewrite map_size_singleton. done.
  - intros va _. by rewrite V.
  - intros a Ha. apply Hm. apply Ha. by left.
Qed.

Ltac klia := unfold inside, apart, rg_first, rg_pages, kpage, RW, RX, VIRTION, UART0, CLINT, PLIC, TRAMPOLINE, PHYSTOP, KERNBASE, PGSIZE in *;
  change MAXVA with 274877906944 in *; cbn [rg_va rg_pa rg_size rg_perm] in *; zlia.

(** One call of [kvmmap], for a region beside the earlier ones. *)
Ltac kvm_step M r M' :=
  let k := fresh "k" in let l := fresh "l" in let T := fresh "T" in let E := fresh "E" in
  destruct (kvmmap_region _ _ _ _ _ _ _ r M) as (k & l & T & E & M');
  [done|split; cbn [rg_va rg_pa rg_size rg_perm]; zpow; first [done | klia]|repeat (apply Forall_cons; split; [klia|]); apply Forall_nil; done|intros ? ?; klia|];
  cbn [rg_va rg_pa rg_size rg_perm] in E; rewrite (bind_Ok _ _ _ _ _ E); clear E M.

Lemma kvminit_spec v root l : kmem_inv end_ (kvm_mem v) (root :: l) -> (73 <= length l)%nat ->
  exists k' l' T, kvminit etext trampoline v = Ok tt (Kvm k' root) /\ maps (kvm_mem v) (root :: l) k' l' root T kregions.
Proof.
  intros Hk Hl. assert (Hl0 : (73 < length (root :: l))%nat) by (cbn [length]; lia).
  destruct (root_table _ _ _ Hk) as (k1 & k2 & E1 & E2 & M). destruct v as [k p]. cbn [kvm_mem] in *. unfold kvminit.
  rewrite (bind_Ok (in_mem kalloc) _ _ root (Kvm k1 p)) by (unfold in_mem, zoom; cbn [kvm_mem]; by rewrite E1).
  rewrite (bind_Ok (modify _) _ _ tt (Kvm k1 root)) by done.
  rewrite (bind_Ok (in_mem _) _ _ tt (Kvm k2 root)) by (unfold in_mem, zoom; cbn [kvm_mem]; by rewrite E2).
  fold RW RX. rewrite (u64_small (etext - KERNBASE)), (u64_small (PHYSTOP - etext)) by (unfold PHYSTOP, KERNBASE in *; zpow; lia).
  kvm_step M (Region UART0 UART0 PGSIZE RW) M1.
  kvm_step M1 (Region (VIRTION 0) (VIRTION 0) PGSIZE RW) M2.
  kvm_step M2 (Region (VIRTION 1) (VIRTION 1) PGSIZE RW) M3.
  kvm_step M3 (Region CLINT CLINT 0x10000 RW) M4.
  kvm_step M4 (Region PLIC PLIC 0x400000 RW) M5.
  kvm_step M5 (Region KERNBASE KERNBASE (etext - KERNBASE) RX) M6.
  kvm_step M6 (Region etext etext (PHYSTOP - etext) RW) M7.
  destruct (kvmmap_region _ _ _ _ _ _ _ (Region TRAMPOLINE trampoline PGSIZE RX) M7) as (k' & l' & T' & E & M8);
    [done|split; cbn [rg_va rg_pa rg_size rg_perm]; zpow; first [done | klia]|repeat (apply Forall_cons; split; [klia|]); apply Forall_nil; done|intros ? ?; klia|].
  exists k', l', T'. split; [exact E|exact M8].
Qed.

End Kvminit.
