(* ===== verification/VmFree.v ===== *)
(** * Freeing an address space

    [freewalk] and [uvmfree] of [vm.c] give every page of a process back: the
    frames of user memory and all page-table pages, each once. *)
From stdpp Require Import base list gmap strings.
From Stdlib Require Import ZArith Lia.
From S2P Require Import Prelude KString Riscv Kalloc Vm VmSpec VmUser VmFork.

#[local] Open Scope Z_scope.
#[local] Open Scope xv6_scope.

(** The page-table pages below [p], in the order [freewalk] frees them. *)
Fixpoint subtree (lv : nat) (m : mem) (p : Z) (S : list Z) : Prop :=
  match lv with
  | O => S = [p] /\ forall i, 0 <= i < 512 -> has (load64 m (p + 8 * i)) PTE_V = false
  | S lv => exists Ss : Z -> list Z,
      S = concat (Ss <$> zseq 0 512) ++ [p] /\
      forall i, 0 <= i < 512 ->
        (has (load64 m (p + 8 * i)) PTE_V = false /\ Ss i = []) \/
        (exists c, load64 m (p + 8 * i) = Z.lor (PA2PTE c) PTE_V /\ subtree lv m c (Ss i))
  end.

Lemma elem_of_concat_zseq (Ss : Z -> list Z) a n i q :
  a <= i < a + Z.of_nat n -> q ∈ Ss i -> q ∈ concat (Ss <$> zseq a n).
Proof.
  revert a. induction n as [|n IH]; intros a Hi Hq; [lia|]. cbn. apply elem_of_app.
  destruct (decide (i = a)) as [->|]; [by left|right]. apply IH; [lia|done].
Qed.

Lemma elem_of_concat_zseq_inv (Ss : Z -> list Z) a n q :
  q ∈ concat (Ss <$> zseq a n) -> exists i, a <= i < a + Z.of_nat n /\ q ∈ Ss i.
Proof.
  revert a. induction n as [|n IH]; intros a Hq; [by apply elem_of_nil in Hq|]. cbn in Hq.
  apply elem_of_app in Hq as [Hq|Hq]; [exists a; split; [lia|done]|].
  destruct (IH _ Hq) as (i & Hi & Hq'). exists i. split; [lia|done].
Qed.

Section Free.

Context (end_ : Z).
Hypothesis end_pos : 0 < end_.

(** The pages [S] are allocated and distinct. *)
Record owned_pages (k : kmem) (l S : list Z) : Prop := {
  op_inv : kmem_inv end_ k l;
  op_nodup : NoDup S;
  op_ok : Forall (page_ok end_) S;
  op_free : forall q, q ∈ S -> q ∉ l;
}.

Definition unchanged (k k' : kmem) (S : list Z) : Prop :=
  forall a, (forall q, q ∈ S -> ~ in_page q a) -> ram k' a = ram k a.

Lemma subtree_root lv m p S : subtree lv m p S -> p ∈ S.
Proof.
  destruct lv; intros Hs; [destruct Hs as [-> _]; by left|destruct Hs as (Ss & -> & _)].
  apply elem_of_app. right. by left.
Qed.

Lemma load_slot_ext m m' p i :
  0 <= i < 512 -> (forall a, in_page p a -> m' a = m a) -> load64 m' (p + 8 * i) = load64 m (p + 8 * i).
Proof. intros Hi H. apply load64_ext. intros x Hx. apply H. unfold in_page, PGSIZE. lia. Qed.

Lemma subtree_frame lv m m' p S :
  (forall q a, q ∈ S -> in_page q a -> m' a = m a) -> subtree lv m p S -> subtree lv m' p S.
Proof.
  revert p S. induction lv as [|lv IH]; intros p S Hm Hs.
  - destruct Hs as [-> Hs]. split; [done|]. intros i Hi. rewrite (load_slot_ext m m' p i Hi); [by apply Hs|].
    intros a. apply Hm. by left.
  - destruct Hs as (Ss & -> & Hs). exists Ss. split; [done|]. intros i Hi.
    rewrite (load_slot_ext m m' p i Hi) by (intros a; apply Hm, elem_of_app; right; by left).
    destruct (Hs i Hi) as [?|(c & E & Hc)]; [by left|right]. exists c. split; [done|].
    apply IH; [|done]. intros q a Hq. apply Hm. apply elem_of_app. left.
    by apply (elem_of_concat_zseq Ss 0 512 i).
Qed.

Lemma interior_flags c : Z.land (Z.lor (PA2PTE c) PTE_V) (Z.lor (Z.lor PTE_R PTE_W) PTE_X) = 0.
Proof.
  rewrite mk_pte by done. change (Z.lor (Z.lor PTE_R PTE_W) PTE_X) with 14.
  apply Z.bits_inj'. intros n Hn. rewrite Z.land_spec, Z.bits_0.
  destruct (Z.ltb_spec n 10).
  - assert (E : Z.testbit (c / 2 ^ 12 * 2 ^ 10 + PTE_V) n = Z.testbit 1 n).
    { rewrite <- (Z.mod_pow2_bits_low _ 10 n) by lia. f_equal. change PTE_V with 1. zlia. }
    rewrite E. destruct (Z.eqb_spec n 0) as [->|]; [done|].
    change 1 with (2 ^ 0). rewrite Z.pow2_bits_eqb by lia. destruct (Z.eqb_spec 0 n); [lia|done].
  - rewrite (Z.bits_above_log2 14) by (cbn; lia). apply andb_false_r.
Qed.

(** Writing inside an allocated page keeps the free list. *)
Lemma op_store k l p i v :
  kmem_inv end_ k l -> page_ok end_ p -> (p ∉ l) -> 0 <= i < 512 ->
  kmem_inv end_ (k <| ram := store64 (ram k) (p + 8 * i) v |>) l.
Proof.
  intros Hk Hp Hni Hi. apply kmem_ram; [done|apply store64_ok, Hk|]. intros r a Hr Ha.
  destruct Hk as [_ _ _ Hpg _]. pose proof (proj1 (Forall_forall _ _) Hpg r Hr) as [Ar _].
  apply store64_outside. destruct (pages_apart r p Ar (proj1 Hp) ltac:(congruence)); unfold in_page, PGSIZE in *; lia.
Qed.

(** What the recursive call does. *)
Definition frees (lv : nat) (fw : Z -> M kmem unit) : Prop := forall k l c S,
  subtree lv (ram k) c S -> owned_pages k l S ->
  wp (fw c) (fun _ k' => kmem_inv end_ k' (rev S ++ l) /\ unchanged k k' S) k.

Definition entry_ok (lv : nat) (m : mem) (p : Z) (Ss : Z -> list Z) (i : Z) : Prop :=
  (has (load64 m (p + 8 * i)) PTE_V = false /\ Ss i = []) \/
  (exists c, load64 m (p + 8 * i) = Z.lor (PA2PTE c) PTE_V /\ subtree lv m c (Ss i)).

Lemma entry_ok_frame lv m m' p Ss i :
  0 <= i < 512 -> load64 m' (p + 8 * i) = load64 m (p + 8 * i) ->
  (forall q a, q ∈ Ss i -> in_page q a -> m' a = m a) -> entry_ok lv m p Ss i -> entry_ok lv m' p Ss i.
Proof.
  intros Hi E Hm [[H1 H2]|(c & Ec & Hs)]; [left; by rewrite E|right].
  exists c. split; [by rewrite E|]. by apply (subtree_frame lv m).
Qed.

Lemma page_apart_in p q a : page_ok end_ p -> page_ok end_ q -> p <> q -> in_page p a -> ~ in_page q a.
Proof. intros [A _] [B _] Hne Ha Hb. destruct (pages_apart p q A B Hne); unfold in_page, PGSIZE in *; lia. Qed.

Lemma free_entries_spec lv fw p Ss n : frees lv fw -> forall i k l,
  0 <= i -> i + Z.of_nat n = 512 -> page_ok end_ p ->
  (forall j, i <= j < 512 -> entry_ok lv (ram k) p Ss j) ->
  owned_pages k l (concat (Ss <$> zseq i n) ++ [p]) ->
  wp (free_entries fw p n i) (fun _ k' =>
    kmem_inv end_ k' (rev (concat (Ss <$> zseq i n)) ++ l) /\
    unchanged k k' (concat (Ss <$> zseq i n) ++ [p])) k.
Proof.
  intros Hfw. induction n as [|n IH]; intros i k l Hi Hn Hp He O.
  { apply wp_ret. split; [apply O|done]. }
  cbn [free_entries zseq fmap list_fmap concat] in *. fold (Ss <$> zseq (i + 1) n) in *.
  set (F := concat (Ss <$> zseq (i + 1) n)) in *. unfold load_pte. apply wp_gets.
  destruct O as [Ok Ond Ook Ofr]. rewrite <- app_assoc in Ond, Ook, Ofr.
  apply NoDup_app in Ond as (N1 & N2 & N3). apply Forall_app in Ook as [K1 K2].
  assert (HpF : p ∉ F) by (apply NoDup_app in N3 as (_ & N3 & _); intros Hin; apply (N3 p Hin); by left).
  destruct (He i ltac:(lia)) as [[Hv Hs]|(c & Ec & Hs)].
  - rewrite Hv. cbn [andb]. apply wp_bind, wp_ret. rewrite Hs. cbn [app].
    apply IH; auto with lia. split; auto. intros q Hq. apply Ofr. rewrite Hs. done.
  - pose proof (subtree_root _ _ _ _ Hs) as Hc. pose proof (proj1 (Forall_forall _ _) K1 c Hc) as Hcok.
    rewrite Ec, has_V_mk, interior_flags, Z.eqb_refl. cbn [andb]. rewrite PTE2PA_mk by (done || apply Hcok).
    apply wp_bind, wp_bind. eapply wp_mono; [apply (Hfw k l c (Ss i) Hs)|].
    { split; auto. intros q Hq. apply Ofr, elem_of_app. by left. }
    intros [] k1 [Hk1 M1]. unfold store_pte. unfold modify, wp at 1. set (k2 := k1 <| ram := _ |>).
    assert (Hpl : p ∉ rev (Ss i) ++ l).
    { rewrite elem_of_app, elem_of_rev. intros [Hin|Hin].
      - apply (N2 p Hin), elem_of_app. right. by left.
      - revert Hin. apply Ofr, elem_of_app. right. apply elem_of_app. right. by left. }
    assert (HpS : p ∉ Ss i) by (intros Hin; apply Hpl, elem_of_app; left; by apply elem_of_rev).
    assert (Hk2 : kmem_inv end_ k2 (rev (Ss i) ++ l)) by (apply op_store; auto; lia).
    assert (Hmem : forall a, (forall q, q ∈ Ss i -> ~ in_page q a) -> ~ in_page p a -> ram k2 a = ram k a).
    { intros a Ha Hpa. cbn. rewrite store64_outside; [by apply M1|]. unfold in_page, PGSIZE in Hpa. lia. }
    assert (Hpage : forall q a, q ∈ F -> in_page q a -> ram k2 a = ram k a).
    { intros q a Hq Ha. assert (Hqok : page_ok end_ q)
        by (apply (proj1 (Forall_forall _ _) K2), elem_of_app; by left).
      apply Hmem; [|by apply (page_apart_in q p a Hqok Hp); [congruence|]].
      intros r Hr. apply (page_apart_in q r a Hqok (proj1 (Forall_forall _ _) K1 r Hr)); [|done].
      intros ->. apply (N2 r Hr), elem_of_app. by left. }
    eapply wp_mono; [apply (IH (i + 1) k2 (rev (Ss i) ++ l)); auto with lia|].
    + intros j Hj. apply (entry_ok_frame lv (ram k)); [lia| | |apply He; lia].
      * unfold k2. cbn. rewrite load_slot by (apply Hp || lia). rewrite decide_False by lia.
        apply load64_ext. intros x Hx. apply M1. intros q Hq.
        apply (page_apart_in p q x Hp (proj1 (Forall_forall _ _) K1 q Hq)); [congruence|].
        unfold in_page, PGSIZE. lia.
      * intros q a Hq. apply Hpage. apply (elem_of_concat_zseq Ss (i + 1) n j); [lia|done].
    + split; auto. intros q Hq. rewrite elem_of_app, elem_of_rev. intros [Hin|Hin]; [by apply (N2 q Hin)|].
      revert Hin. apply Ofr, elem_of_app. by right.
    + intros [] k' [Hk' M']. rewrite rev_app_distr, <- app_assoc. split; [done|].
      intros a Ha. rewrite M', Hmem; [done|..].
      * intros q Hq. apply Ha. rewrite <- app_assoc. apply elem_of_app. by left.
      * apply Ha. rewrite <- app_assoc. apply elem_of_app. right. apply elem_of_app. right. by left.
      * intros q Hq. apply Ha. rewrite <- app_assoc. apply elem_of_app. by right.
Qed.

Lemma free_entries_none fw p n i k :
  (forall j, i <= j < i + Z.of_nat n -> has (load64 (ram k) (p + 8 * j)) PTE_V = false) ->
  free_entries fw p n i k = Ok tt k.
Proof.
  revert i. induction n as [|n IH]; intros i H; [done|]. cbn [free_entries].
  unfold load_pte, gets, bind. rewrite (H i) by lia. cbn. apply IH. intros j Hj. apply H. lia.
Qed.

(** The page itself goes last. *)
Lemma kfree_last k l F p :
  kmem_inv end_ k (rev F ++ l) -> page_ok end_ p -> (p ∉ F) -> (p ∉ l) ->
  wp (kfree end_ p) (fun _ k' => kmem_inv end_ k' (rev (F ++ [p]) ++ l) /\ unchanged k k' [p]) k.
Proof.
  intros Hk Hp HF Hl. destruct (kfree_spec _ end_pos _ _ _ Hk Hp) as (k' & E & Hk' & M).
  { rewrite elem_of_app, elem_of_rev. tauto. }
  apply wp_Ok. exists tt, k'. split; [done|]. rewrite rev_app_distr. split; [done|].
  intros a Ha. apply M. specialize (Ha p ltac:(by left)). unfold in_page in Ha. lia.
Qed.

Lemma freewalk_frees lv : frees lv (freewalk end_ (S lv)).
Proof.
  induction lv as [|lv IH]; intros k l c S Hs [Hk Hnd Hok Hfr].
  - destruct Hs as [-> Hs]. apply Forall_cons in Hok as [Hc _].
    change (wp (free_entries (freewalk end_ 0) c 512 0 ;; kfree end_ c)
               (fun _ k' => kmem_inv end_ k' (rev [c] ++ l) /\ unchanged k k' [c]) k).
    unfold wp, bind. rewrite free_entries_none by (intros; apply Hs; lia).
    apply (kfree_last k l []); [done|done|apply not_elem_of_nil|]. apply Hfr. by left.
  - destruct Hs as (Ss & -> & Hs). set (F := concat (Ss <$> zseq 0 512)) in *.
    assert (Hc : page_ok end_ c) by (apply Forall_app in Hok as [_ Hok]; by apply Forall_cons in Hok as [? _]).
    assert (HcF : c ∉ F) by (apply NoDup_app in Hnd as (_ & Hnd & _); intros Hin; apply (Hnd c Hin); by left).
    change (wp (free_entries (freewalk end_ (Datatypes.S lv)) c 512 0 ;; kfree end_ c)
               (fun _ k' => kmem_inv end_ k' (rev (F ++ [c]) ++ l) /\ unchanged k k' (F ++ [c])) k).
    eapply wp_seq; [apply (free_entries_spec lv _ c Ss 512 IH 0 k l); auto; [lia|split; done]|].
    intros [] k1 [Hk1 M1]. eapply wp_mono; [apply (kfree_last k1 l F c); auto|].
    { apply Hfr, elem_of_app. right. by left. }
    intros [] k2 [Hk2 M2]. split; [done|]. intros a Ha. rewrite M2, M1; [done|done|].
    intros q Hq. apply list_elem_of_singleton in Hq as ->. apply Ha, elem_of_app. right. by left.
Qed.

(** ** The pages of a page table are those of its tree *)

Lemma finite_choice {A} (P : Z -> A -> Prop) (d : A) a n :
  (forall i, a <= i < a + Z.of_nat n -> exists x, P i x) ->
  exists f : Z -> A, forall i, a <= i < a + Z.of_nat n -> P i (f i).
Proof.
  revert a. induction n as [|n IH]; intros a H; [exists (fun _ => d); intros; lia|].
  destruct (IH (a + 1)) as [f Hf]; [intros; apply H; lia|]. destruct (H a) as [x Hx]; [lia|].
  exists (upd f a x). intros i Hi. destruct (decide (i = a)) as [->|]; [by rewrite upd_same|].
  rewrite upd_other by done. apply Hf. lia.
Qed.

Lemma NoDup_concat_zseq (Ss : Z -> list Z) a n :
  (forall i, a <= i < a + Z.of_nat n -> NoDup (Ss i)) ->
  (forall i j q, a <= i < a + Z.of_nat n -> a <= j < a + Z.of_nat n -> q ∈ Ss i -> q ∈ Ss j -> i = j) ->
  NoDup (concat (Ss <$> zseq a n)).
Proof.
  revert a. induction n as [|n IH]; intros a Hn Hd; [constructor|]. cbn. apply NoDup_app. split_and!.
  - apply Hn. lia.
  - intros q Hq Hin. apply elem_of_concat_zseq_inv in Hin as (j & Hj & Hq').
    assert (a = j) by (apply (Hd a j q); auto; lia). lia.
  - apply IH; [intros; apply Hn; lia|]. intros i j q Hi Hj. apply Hd; lia.
Qed.

Section Tree.

Context (m : mem) (root : Z) (T : gmap Z (nat * Z)).
Hypothesis I : pt_inv end_ m root T.

(** [q] has coordinates below those of a page of level [lv]. *)
Definition below (lv : nat) (pre q : Z) : Prop :=
  exists l pre', T !! q = Some (l, pre') /\ (l <= lv)%nat /\ pre' / 512 ^ Z.of_nat (lv - l) = pre.

Lemma below_self lv pre p : T !! p = Some (lv, pre) -> below lv pre p.
Proof. intros H. exists lv, pre. split_and!; [done|lia|]. rewrite Nat.sub_diag. apply Z.div_1_r. Qed.

(** The page of level [lv] above [q]. *)
Lemma ancestor d : forall l q pre, T !! q = Some (l, pre) -> (l + d <= 2)%nat ->
  exists c, T !! c = Some ((l + d)%nat, pre / 512 ^ Z.of_nat d).
Proof.
  induction d as [|d IH]; intros l q pre Hq Hl.
  { exists q. rewrite Nat.add_0_r, Z.div_1_r. done. }
  destruct (IH l q pre Hq ltac:(lia)) as [c Hc].
  destruct (pi_reach _ _ _ _ I _ _ _ Hc) as [->|(p & pre' & i & Hp & Hi & E & _)].
  - assert ((l + d)%nat = 2%nat) by (rewrite (pi_root _ _ _ _ I) in Hc; congruence). lia.
  - exists p. rewrite Nat.add_succ_r, Hp. do 2 f_equal.
    rewrite Nat2Z.inj_succ, Z.pow_succ_r by lia. rewrite Z.mul_comm, <- Z.div_div, E by (try apply Z.pow_nonzero; lia).
    symmetry. rewrite Z.add_comm, Z.div_add by lia. rewrite Z.div_small; lia.
Qed.

(** Below a page: the page itself, or below one of its entries. *)
Lemma below_step lv pre p q :
  T !! p = Some (S lv, pre) ->
  below (S lv) pre q <-> q = p \/ exists i c, 0 <= i < 512 /\ T !! c = Some (lv, pre * 512 + i) /\
    load64 m (p + 8 * i) = Z.lor (PA2PTE c) PTE_V /\ below lv (pre * 512 + i) q.
Proof.
  intros Hp. destruct (pi_level _ _ _ _ I _ _ _ Hp) as [Hlv _]. split.
  - intros (l & pre' & Hq & Hl & Hd). destruct (decide (l = S lv)) as [->|Hne].
    { left. rewrite Nat.sub_diag, Z.div_1_r in Hd. subst. by apply (coord_inj end_ m root T (S lv) pre q p). }
    right. destruct (ancestor (lv - l) l q pre' Hq ltac:(lia)) as [c Hc].
    replace (l + (lv - l))%nat with lv in Hc by lia. set (x := pre' / 512 ^ Z.of_nat (lv - l)) in *.
    destruct (pi_reach _ _ _ _ I _ _ _ Hc) as [->|(r & pre2 & i & Hr & Hi & E & L)].
    { rewrite (pi_root _ _ _ _ I) in Hc. assert (lv = 2%nat) by congruence. lia. }
    assert (Hx : x / 512 = pre).
    { unfold x. rewrite Z.div_div by (try apply Z.pow_pos_nonneg; try apply Z.pow_nonzero; lia).
      rewrite Z.mul_comm, <- Z.pow_succ_r, <- Nat2Z.inj_succ by lia. by replace (S (lv - l)) with (S lv - l)%nat by lia. }
    assert (pre2 = pre) as -> by (rewrite <- Hx, E, Z.add_comm, Z.div_add by lia; rewrite Z.div_small; lia).
    assert (r = p) as -> by (by apply (coord_inj end_ m root T (S lv) pre)).
    exists i, c. split_and!; [lia|lia|by rewrite <- E|done|]. exists l, pre'. split_and!; [done|lia|]. by rewrite <- E.
  - intros [->|(i & c & Hi & _ & _ & (l & pre' & Hq & Hl & Hd))]; [by apply below_self|].
    exists l, pre'. split_and!; [done|lia|]. rewrite Nat.sub_succ_l by lia.
    rewrite Nat2Z.inj_succ, Z.pow_succ_r by lia. rewrite Z.mul_comm, <- Z.div_div by (try apply Z.pow_nonzero; lia).
    rewrite Hd, Z.add_comm, Z.div_add by lia. rewrite Z.div_small; lia.
Qed.

(** Every level-0 page is where [find_table] looks for its addresses. *)
Lemma find_down va p lv : forall r,
  T !! r = Some (lv, above lv va) -> T !! p = Some (0%nat, above 0 va) -> find_table lv m r va = Some p.
Proof.
  induction lv as [|lv IH]; intros r Hr Hp; cbn [find_table].
  { f_equal. by apply (coord_inj end_ m root T 0 (above 0 va)). }
  destruct (pi_level _ _ _ _ I _ _ _ Hr) as [Hlv _].
  destruct (ancestor lv 0 p _ Hp ltac:(lia)) as [c Hc]. cbn [Nat.add] in Hc.
  assert (Ea : above 0 va / 512 ^ Z.of_nat lv = above lv va).
  { unfold above. rewrite Z.div_div by (try apply Z.pow_nonzero; try apply Z.pow_pos_nonneg; lia). f_equal.
    change 512 with (2 ^ 9). rewrite <- Z.pow_mul_r, <- Z.pow_add_r by lia. f_equal; lia. }
  rewrite Ea in Hc.
  destruct (pi_reach _ _ _ _ I _ _ _ Hc) as [->|(r' & pre & i & Hr' & Hi & E & L)].
  { rewrite (pi_root _ _ _ _ I) in Hc. assert (lv = 2%nat) by congruence. lia. }
  pose proof (PX_range (Z.of_nat (S lv)) va ltac:(lia)) as Hpx. rewrite above_step in E.
  assert (pre = above (S lv) va /\ i = PX (Z.of_nat (S lv)) va) as [-> ->] by lia.
  assert (r' = r) as -> by (by apply (coord_inj end_ m root T (S lv) (above (S lv) va))).
  rewrite L, has_V_mk, PTE2PA_mk; [by apply IH|apply (pi_page _ _ _ _ I _ _ Hc)|done].
Qed.

Lemma leaf_entry p pre i :
  T !! p = Some (0%nat, pre) -> 0 <= i < 512 ->
  exists va, 0 <= va < MAXVA /\ pte_of m root va = load64 m (p + 8 * i).
Proof.
  intros Hp Hi. pose proof (pi_max _ _ _ _ I _ _ _ Hp) as Hm. change (21 + 9 * Z.of_nat 0) with 21 in Hm.
  exists (pre * 2 ^ 21 + i * PGSIZE). assert (Hva : 0 <= pre * 2 ^ 21 + i * PGSIZE < MAXVA)
    by (change MAXVA with (2 ^ 38) in *; unfold PGSIZE; zpow; lia).
  split; [done|].
  assert (Ea : above 0 (pre * 2 ^ 21 + i * PGSIZE) = pre)
    by (unfold above; change (21 + 9 * Z.of_nat 0) with 21; unfold PGSIZE; zlia).
  assert (Ei : PX 0 (pre * 2 ^ 21 + i * PGSIZE) = i)
    by (rewrite PX_div by lia; change (PXSHIFT 0) with 12; unfold PGSIZE; zlia).
  unfold pte_of. rewrite lookup_find, (find_down _ p 2 root), Ei; [done| |by rewrite Ea].
  rewrite above_2 by done. apply I.
Qed.

Hypothesis no_leaf : forall p pre i, T !! p = Some (0%nat, pre) -> 0 <= i < 512 ->
  has (load64 m (p + 8 * i)) PTE_V = false.

Lemma table_subtree lv : forall p pre, T !! p = Some (lv, pre) ->
  exists S, subtree lv m p S /\ NoDup S /\ forall q, q ∈ S <-> below lv pre q.
Proof.
  induction lv as [|lv IH]; intros p pre Hp.
  - exists [p]. split_and!; [split; [done|by intros; eapply no_leaf]|apply NoDup_singleton|].
    intros q. rewrite list_elem_of_singleton. split; [intros ->; by apply below_self|].
    intros (l & pre' & Hq & Hl & Hd). assert (l = 0%nat) as -> by lia. rewrite Z.div_1_r in Hd. subst.
    by apply (coord_inj end_ m root T 0 pre).
  - destruct (finite_choice (fun i Si => entry_ok lv m p (fun _ => Si) i /\ NoDup Si /\
        forall q, q ∈ Si <-> has (load64 m (p + 8 * i)) PTE_V = true /\ below lv (pre * 512 + i) q) [] 0 512) as [Ss HSs].
    { intros i Hi. destruct (pi_entry _ _ _ _ I p lv pre i Hp ltac:(lia)) as [Hv|(c & Ec & Hc)].
      - exists []. split_and!; [by left|constructor|]. intros q. rewrite elem_of_nil, Hv. naive_solver.
      - destruct (IH c _ Hc) as (Si & H1 & H2 & H3). exists Si. split_and!; [right; eauto|done|].
        intros q. rewrite H3, Ec, has_V_mk. tauto. }
    assert (Hlow : forall i q, 0 <= i < 512 -> q ∈ Ss i -> exists l x, T !! q = Some (l, x) /\ (l <= lv)%nat /\
              x / 512 ^ Z.of_nat (lv - l) = pre * 512 + i).
    { intros i q Hi Hq. destruct (HSs i ltac:(lia)) as (_ & _ & H). apply H in Hq as [_ (l & x & ? & ? & ?)]. eauto. }
    exists (concat (Ss <$> zseq 0 512) ++ [p]). split_and!.
    + exists Ss. split; [done|]. intros i Hi. apply (HSs i). lia.
    + apply NoDup_app. split_and!; [|intros q Hq Hq'|apply NoDup_singleton].
      * apply NoDup_concat_zseq; [intros i Hi; by apply HSs|]. intros i j q Hi Hj Hq Hq'.
        destruct (Hlow i q ltac:(lia) Hq) as (l & x & Hx & _ & E).
        destruct (Hlow j q ltac:(lia) Hq') as (l' & x' & Hx' & _ & E').
        assert (l = l' /\ x = x') as [-> ->] by (split; congruence). lia.
      * apply list_elem_of_singleton in Hq' as ->. apply elem_of_concat_zseq_inv in Hq as (i & Hi & Hq).
        destruct (Hlow i p ltac:(lia) Hq) as (l & x & Hx & Hl & _). assert (l = S lv) by congruence. lia.
    + intros q. rewrite elem_of_app, list_elem_of_singleton, (below_step lv pre p q Hp). split.
      * intros [Hq| ->]; [right|by left]. apply elem_of_concat_zseq_inv in Hq as (i & Hi & Hq).
        destruct (HSs i Hi) as (_ & _ & H). apply H in Hq as [Hv Hb].
        destruct (pi_entry _ _ _ _ I p lv pre i Hp ltac:(lia)) as [Hv'|(c & Ec & Hc)]; [congruence|].
        exists i, c. split_and!; auto; lia.
      * intros [->|(i & c & Hi & Hc & Ec & Hb)]; [by right|left].
        apply (elem_of_concat_zseq Ss 0 512 i); [lia|]. destruct (HSs i ltac:(lia)) as (_ & _ & H). apply H.
        by rewrite Ec, has_V_mk.
Qed.

End Tree.

(** [uvmfree] returns all frames and all page-table pages to the free list. *)
Lemma uvmfree_rep k l root T fr sz :
  umem end_ k l root T fr -> 0 < sz <= TRAPFRAME -> length fr = pages sz ->
  (forall va, TRAPFRAME <= va < MAXVA -> has (pte_of (ram k) root va) PTE_V = false) ->
  wp (uvmfree end_ root sz) (fun _ k' => exists l', kmem_inv end_ k' l' /\
    l' ≡ₚ elements (dom T) ++ fr.*1 ++ l /\
    forall a, (forall p, held T fr p -> ~ in_page p a) -> ram k' a = ram k a) k.
Proof.
  intros U Hsz Hlen Hhigh. unfold uvmfree.
  assert (Hn : (0 < length fr)%nat) by (rewrite Hlen; unfold pages; pglia).
  eapply wp_seq; [apply (umem_unmap_high end_ end_pos k l root T fr 0 0 sz); auto|].
  - lia.
  - rewrite Hlen. unfold pages. pglia.
  - intros [] k1 (U1 & _ & H1 & M1). rewrite drop_0 in U1. cbn [take] in U1.
    pose proof (um_rep _ _ _ _ _ _ U1) as [Hk1 I1 Hf1].
    destruct (table_subtree (ram k1) root T I1) with (lv := 2%nat) (p := root) (pre := 0) as (S & HS & Hnd & Hin).
    + intros p pre i Hp Hi. destruct (leaf_entry (ram k1) root T I1 p pre i Hp Hi) as (va & Hva & <-).
      destruct (decide (va < TRAPFRAME)).
      * apply (um_none _ _ _ _ _ _ U1). split; [apply Hva|done].
      * rewrite H1 by lia. apply Hhigh. lia.
    + apply I1.
    + assert (HT : forall q, q ∈ S <-> is_Some (T !! q)).
      { intros q. rewrite Hin. split; [intros (l' & pre & Hq & _); eauto|]. intros [[l' pre] Hq].
        destruct (pi_level _ _ _ _ I1 _ _ _ Hq) as [Hl' _]. exists l', pre. split_and!; [done|lia|].
        pose proof (pi_max _ _ _ _ I1 _ _ _ Hq) as Hm. change MAXVA with (2 ^ 38) in Hm.
        assert (l' = 0 \/ l' = 1 \/ l' = 2)%nat as [-> |[-> | ->]] by lia; apply Z.div_small.
        - change (21 + 9 * Z.of_nat 0) with 21 in Hm. change (512 ^ Z.of_nat (2 - 0)) with (2 ^ 18). zpow. lia.
        - change (21 + 9 * Z.of_nat 1) with 30 in Hm. change (512 ^ Z.of_nat (2 - 1)) with (2 ^ 9). zpow. lia.
        - change (21 + 9 * Z.of_nat 2) with 39 in Hm. change (512 ^ Z.of_nat (2 - 2)) with 1. zpow. lia. }
      eapply wp_mono; [apply (freewalk_frees 2 k1 (rev fr.*1 ++ l) root S HS)|].
      { split; [done|done| |].
        - apply Forall_forall. intros q Hq. apply HT in Hq as [x Hq]. apply (pi_page _ _ _ _ I1 q x Hq).
        - intros q Hq. apply Hf1. by apply HT. }
      intros [] k2 [Hk2 M2]. exists (rev S ++ rev fr.*1 ++ l). split_and!; [done| |].
      2:{ intros a Ha. rewrite M2, M1; [done| |]; intros q Hq; apply Ha; [done|left; by apply HT]. }
      rewrite <- !Permutation_rev. apply Permutation_app_tail. apply NoDup_Permutation; [done|apply NoDup_elements|].
      intros q. by rewrite elem_of_elements, elem_of_dom, HT.
Qed.

End Free.
