(* ===== verification/VmProps.v ===== *)
(** * Properties of virtual memory

    The theorems about [kernel/vm.c], from the specifications of [VmUser],
    [VmCopy], [VmFork] and [VmFree], with a sample machine of sixteen free
    pages on which they are applied. *)
From stdpp Require Import base list gmap strings.
From Stdlib Require Import ZArith Lia.
From S2P Require Import Prelude KString Riscv Kalloc Vm VmSpec VmUser VmCopy VmFork VmFree.

#[local] Open Scope Z_scope.
#[local] Open Scope xv6_scope.

Section Props.

Context (end_ : Z).
Hypothesis end_pos : 0 < end_.

(** A process's memory, made from the free pages. *)
Lemma create_grow k root l sz :
  kmem_inv end_ k (root :: l) -> 0 <= sz <= TRAPFRAME -> (3 * pages sz <= length l)%nat ->
  exists k1 k2 l2 T2 new, uvmcreate k = Ok root k1 /\ uvmalloc end_ root 0 sz k1 = Ok sz k2 /\
    umem end_ k2 l2 root T2 (frames new) /\ length new = pages sz /\ zeroed k2 new /\
    (forall va, TRAPFRAME <= va < MAXVA -> pte_of (ram k2) root va = 0) /\
    (length l <= 3 * length new + length l2)%nat /\
    forall p, owns T2 (frames new) l2 p <-> p ∈ root :: l.
Proof.
  intros Hk Hsz Hl. pose proof (uvmcreate_rep end_ end_pos k _ Hk) as H1. cbn in H1.
  apply wp_Ok in H1 as (r & k1 & E1 & -> & U1 & V1 & _).
  pose proof (uvmalloc_rep end_ end_pos k1 l root _ [] 0 sz U1) as H2.
  apply wp_Ok in H2 as (r & k2 & E2 & l2 & T2 & H2 & [(-> & new & U2 & Hn & _ & Z2 & S2 & L2)|(-> & _ & _ & _ & Hfew)]); [| |lia|lia|done].
  - exists k1, k2, l2, T2, new. split_and!; auto.
    + intros va Hva. by rewrite H2, V1.
    + intros p. rewrite (S2 p). unfold owns. rewrite lookup_singleton_is_Some, elem_of_nil, elem_of_cons. naive_solver.
  - cbn in Hfew. lia.
Qed.

(** [kalloc] leaves every address space alone. *)
Lemma umem_kalloc k p l :
  kmem_inv end_ k (p :: l) ->
  exists k', kalloc k = Ok p k' /\ forall r T fr, umem end_ k (p :: l) r T fr -> umem end_ k' l r T fr.
Proof.
  intros Hk. destruct (kalloc_some end_ end_pos k p l Hk) as (k' & E & Hk' & Hm). exists k'. split; [done|].
  assert (Hp : page_ok end_ p) by (pose proof Hk as [_ _ _ Hpg _]; by apply Forall_cons in Hpg as [? _]).
  intros r T fr U. apply (umem_other end_ k (p :: l) r T fr k' l U Hk'); [intros q Hq; left; by right|].
  intros q a Hq Ha. destruct (held_ok end_ _ _ _ _ _ _ U Hq) as [Hqok Hni]. rewrite Hm, decide_False; [done|].
  apply (held_apart end_ q p a); auto. intros ->. apply Hni. by left.
Qed.

(** No page of a process is lost or freed twice.  A fresh address space
    ([uvmcreate]) grown to [sz] bytes ([uvmalloc]) and freed ([uvmfree]) leaves
    exactly the free pages there were before, as long as the memory suffices;
    three free pages per page of the process do. *)
Theorem uvm_lifecycle k root l sz :
  kmem_inv end_ k (root :: l) -> 0 < sz <= TRAPFRAME -> (3 * pages sz <= length l)%nat ->
  exists k1 k2 k3 l', uvmcreate k = Ok root k1 /\ uvmalloc end_ root 0 sz k1 = Ok sz k2 /\
    uvmfree end_ root sz k2 = Ok tt k3 /\ kmem_inv end_ k3 l' /\ l' ≡ₚ root :: l.
Proof.
  intros Hk Hsz Hl. destruct (create_grow k root l sz Hk) as (k1 & k2 & l2 & T2 & new & E1 & E2 & U2 & Hn & _ & V2 & _ & Hown); [lia|done|].
  pose proof (uvmfree_rep end_ end_pos k2 l2 root T2 (frames new) sz U2 Hsz) as H3.
  apply wp_Ok in H3 as ([] & k3 & E3 & l3 & Hk3 & P3 & _).
  - exists k1, k2, k3, l3. split_and!; auto. apply NoDup_Permutation; [apply Hk3|apply Hk|].
    intros p. rewrite P3, <- Hown. unfold owns. by rewrite !elem_of_app, elem_of_elements, elem_of_dom.
  - by rewrite length_frames.
  - intros va Hva. by rewrite V2.
Qed.

(** C6: [uvmcopy] gives the child a copy of every page of the parent in frames
    of its own, with the same permissions; the parent's page table and data stay
    as they were, and no page is lost.  It returns -1, with the child empty again, only
    when memory runs out.  This needs three free pages at the start, enough for the first
    page of the child and the page-table pages above it: when memory runs out before
    the first page is mapped, [uvmcopy] need not return ([uvmcopy_oom_panics]). *)
Theorem uvmcopy_copies k l r1 T1 fr1 r2 T2 sz :
  umem end_ k l r1 T1 fr1 -> umem end_ k l r2 T2 [] -> separate T1 fr1 T2 [] ->
  0 <= sz <= TRAPFRAME -> length fr1 = pages sz -> (3 <= length l)%nat ->
  exists r k' l' T2' fr2, uvmcopy end_ r1 r2 sz k = Ok r k' /\
    umem end_ k' l' r1 T1 fr1 /\ same_data k k' fr1 /\
    umem end_ k' l' r2 T2' fr2 /\ separate T1 fr1 T2' fr2 /\ same_pages T2 [] l T2' fr2 l' /\
    (r = 0 /\ length fr2 = length fr1 /\ copied k' fr1 fr2 \/ r = -1 /\ fr2 = [] /\ (length l < 3 * length fr1)%nat).
Proof.
  intros U1 U2 Hs Hsz Hlen Hl.
  pose proof (uvmcopy_rep end_ end_pos r1 T1 fr1 r2 k l T2 sz) as H.
  apply wp_Ok in H as (r & k' & E & l' & T2' & fr2 & [A1 A2 A3 A4] & D & S & _ & _ & Hr); auto.
  - exists r, k', l', T2', fr2. split_and!; auto. naive_solver.
  - split; [done|done|done|by intros].
Qed.

(** C40: when no page is free, [uvmcopy] of a process that has a page does not
    return an error: it panics in [uvmunmap]. *)
Theorem uvmcopy_oom_panics k r1 T1 fr1 r2 sz :
  umem end_ k [] r1 T1 fr1 -> umem end_ k [] r2 {[r2 := (2%nat, 0)]} [] ->
  0 < sz <= TRAPFRAME -> length fr1 = pages sz ->
  uvmcopy end_ r1 r2 sz k = Panic "uvmunmap: walk".
Proof.
  intros U1 U2 Hsz Hlen. unfold uvmcopy, bind at 1.
  assert (E : copy_page end_ r1 r2 sz 0 k = Ok (inr (false, 0)) k).
  { destruct (lookup_lt_is_Some_2 fr1 0) as [[pa perm] Hpa]; [rewrite Hlen; unfold pages; pglia|].
    destruct (um_perm _ _ _ _ _ _ U1 pa perm) as [P1 _]; [by eapply list_elem_of_lookup_2|].
    pose proof (um_pte _ _ _ _ _ _ U1 _ _ _ Hpa) as Ep. change (Z.of_nat 0 * PGSIZE) with 0 in Ep.
    destruct (walk_found end_ end_pos k [] r1 T1 0) as (q & Eq & Hq & El); [apply U1|done|by rewrite Ep, leaf_V|].
    unfold copy_page. rewrite (proj2 (Z.ltb_lt _ _)) by lia. cbn [negb]. unfold bind at 1. rewrite Eq.
    rewrite (proj2 (Z.eqb_neq q 0)) by done. unfold bind at 1, load_pte, gets. rewrite El, Ep, leaf_V by done. cbn [negb].
    unfold bind. rewrite (kalloc_none end_ k) by apply U1. done. }
  pose proof (while_first (copy_page end_ r1 r2 sz) 0 k) as H. rewrite E in H. rewrite H.
  unfold uvmunmap, bind. set (last := PGROUNDDOWN _).
  assert (E2 : unmap_page end_ r2 last true (PGROUNDDOWN 0) k = Panic "uvmunmap: walk").
  { unfold unmap_page, bind at 1. rewrite walk_false by done.
    destruct (find_table 2 (ram k) r2 (PGROUNDDOWN 0)) as [q|] eqn:Hf; [exfalso|done].
    pose proof (um_rep _ _ _ _ _ _ U2) as [_ I _].
    pose proof (find_table_in _ _ _ _ I 2 r2 (PGROUNDDOWN 0) q (pi_root _ _ _ _ I) Hf) as Hq.
    apply lookup_singleton_Some in Hq as [_ Hq]. done. }
  pose proof (while_first (unmap_page end_ r2 last true) (PGROUNDDOWN 0) k) as H2. rewrite E2 in H2. by rewrite H2.
Qed.

(** The user's bytes after a write to them, and after changes elsewhere. *)
Lemma wrote_ubytes fr k k' va src :
  wrote fr k k' va src (Z.of_nat (length src)) -> ubytes k' fr va (Z.of_nat (length src)) = src.
Proof.
  intros [W1 _]. apply list_eq. intros i. unfold ubytes. rewrite list_lookup_fmap.
  destruct (decide (i < length src)%nat) as [Hi|Hi].
  - rewrite zseq_lookup by lia. cbn. rewrite W1 by lia.
    destruct (lookup_lt_is_Some_2 src i Hi) as [b Eb]. rewrite Z.add_0_l, Nat2Z.id, Eb. done.
  - rewrite !lookup_ge_None_2; [done|lia|rewrite length_zseq; lia].
Qed.

Lemma uaddr_in fr va a : uaddr fr va = Some a -> exists pa, pa ∈ fr.*1 /\ in_page pa a.
Proof.
  unfold uaddr, user_frame. destruct (fr !! _) as [[pa perm]|] eqn:E; [|done]. destruct (has _ _); [|done]. intros [= <-].
  exists pa. split; [apply list_elem_of_fmap; exists (pa, perm); split; [done|by eapply list_elem_of_lookup_2]|].
  pose proof (Z.mod_pos_bound va PGSIZE ltac:(done)). unfold in_page. lia.
Qed.

Lemma ubytes_same k k' fr va n : same_data k k' fr -> accessible fr va n -> ubytes k' fr va n = ubytes k fr va n.
Proof.
  intros D Ha. unfold ubytes. apply list_fmap_ext. intros i x Hx.
  apply list_elem_of_lookup_2, elem_of_zseq in Hx. destruct (Ha x) as [a Ea]; [lia|]. rewrite Ea. cbn.
  destruct (uaddr_in _ _ _ Ea) as (pa & Hp & Hin). by apply (D pa).
Qed.

(** C7: what [copyout] writes to user memory [copyin] reads back; both succeed
    exactly when every byte of the range is mapped for the user, and [copyout]
    changes no other byte of memory. *)
Theorem copyout_copyin k l root T fr va src :
  umem end_ k l root T fr -> 0 <= va -> Forall is_byte src -> Z.of_nat (length src) < 2 ^ 64 ->
  let len := Z.of_nat (length src) in
  exists r k', copyout root va src len k = Ok r k' /\ umem end_ k' l root T fr /\
    (forall a, (forall i, 0 <= i < len -> uaddr fr (va + i) <> Some a) -> ram k' a = ram k a) /\
    (accessible fr va len -> r = 0 /\ copyin root va len k' = Ok (0, src) k') /\
    (~ accessible fr va len -> r = -1 /\ exists bs, copyin root va len k' = Ok (-1, bs) k').
Proof.
  intros U Hva Hby Hlt len. pose proof (copyout_spec end_ end_pos k l root T fr U va src len) as H.
  apply wp_Ok in H as (r & k' & E & U' & H); auto; [|lia]. exists r, k'.
  pose proof (copyin_spec end_ end_pos k' l root T fr U' va len) as H2.
  apply wp_Ok in H2 as ([r2 bs] & k2 & E2 & -> & H2); [|done|lia].
  destruct H as [(-> & Ha & [W1 W2])|(-> & Ha & d & Hd & [W1 W2])].
  - split_and!; auto; [intros _|done]. destruct H2 as [[Er _]|[_ ?]]; [|done]. split; [done|].
    rewrite E2, Er. do 2 f_equal. by apply (wrote_ubytes fr k).
  - split_and!; auto; [|done|].
    + intros a Hout. apply W2. intros i Hi. apply Hout. lia.
    + intros _. destruct H2 as [[_ ?]|[Er _]]; [done|]. cbn in Er. subst r2. eauto.
Qed.

(** [copyinstr] returns the user's NUL-terminated string, NUL included, when
    it ends within [max] bytes of accessible memory, and -1 otherwise; it reads
    only and always returns. *)
Theorem copyinstr_string k l root T fr va max :
  umem end_ k l root T fr -> 0 <= va -> 0 <= max < 2 ^ 64 ->
  exists r bs, copyinstr root va max k = Ok (r, bs) k /\
    ((exists n, 0 <= n < max /\ str_at k fr va n /\ r = 0 /\ bs = ubytes k fr va n ++ [0]) \/
     (r = -1 /\ forall n, 0 <= n < max -> ~ str_at k fr va n)).
Proof.
  intros U Hva Hmax. pose proof (copyinstr_spec end_ end_pos k l root T fr U va max Hva Hmax) as H.
  apply wp_Ok in H as ([r bs] & k' & E & -> & H). exists r, bs. split; [done|].
  destruct H as [(n & Hn & [= -> ->] & Hs)|[Hr H]]; [left; eauto|right; auto].
Qed.

End Props.

(** ** A machine with 64 free pages *)

Definition E64 : Z := PHYSTOP - 64 * PGSIZE.

Definition pool (n : nat) : list Z := rev (pages_from E64 n).

Lemma E64_pos : 0 < E64.
Proof. done. Qed.

Lemma pool_machine n : (n <= 64)%nat -> exists k, kmem_inv E64 k (pool n).
Proof.
  intros Hn. destruct (freerange_loop_spec E64 E64_pos n (Kmem false 0 (fun _ => 0)) [] E64 PHYSTOP) as (k & _ & Hk).
  - constructor; cbn; auto using NoDup_nil_2. intros a. zlia.
  - done.
  - done.
  - done.
  - unfold E64, PGSIZE. lia.
  - intros x Hx. by apply elem_of_nil in Hx.
  - exists k. unfold pool. by rewrite app_nil_r in Hk.
Qed.

Lemma pool_root n : exists l, pool (S n) = (E64 + Z.of_nat n * PGSIZE) :: l /\ length l = n.
Proof.
  assert (H : forall n p, exists l, rev (pages_from p (S n)) = (p + Z.of_nat n * PGSIZE) :: l /\ length l = n).
  { clear n. induction n as [|n IH]; intros p.
    - exists []. cbn. split; [f_equal; lia|done].
    - destruct (IH (p + PGSIZE)) as (l & E & Hl). exists (l ++ [p]). cbn [pages_from rev] in *. rewrite E. cbn.
      split; [f_equal; unfold PGSIZE; lia|rewrite length_app; cbn; lia]. }
  apply H.
Qed.

Definition R64 : Z := PHYSTOP - PGSIZE.

(** A process of one page. *)
Lemma sample_process :
  exists k l T new, umem E64 k l R64 T (frames new) /\ length new = 1%nat /\ zeroed k new /\ (60 <= length l)%nat.
Proof.
  destruct (pool_machine 64) as [k Hk]; [done|]. destruct (pool_root 63) as (l & El & Hl). rewrite El in Hk.
  destruct (create_grow E64 E64_pos k R64 l 4096 Hk) as (k1 & k2 & l2 & T2 & new & _ & _ & U & Hn & Hz & _ & L & _).
  - done.
  - rewrite Hl. vm_compute. lia.
  - assert (length new = 1%nat) by exact Hn. exists k2, l2, T2, new. split_and!; [done|done|done|lia].
Qed.

(** The process and an empty one beside it. *)
Lemma sample_fork :
  exists k l T1 fr1 r2, umem E64 k l R64 T1 fr1 /\ length fr1 = 1%nat /\
    umem E64 k l r2 {[r2 := (2%nat, 0)]} [] /\ separate T1 fr1 {[r2 := (2%nat, 0)]} [] /\ (3 <= length l)%nat.
Proof.
  destruct sample_process as (k & l & T & new & U & Hn & _ & Hl). destruct l as [|r2 l]; [cbn in Hl; lia|].
  destruct (create_child E64 E64_pos k l R64 T _ r2 U) as (k' & _ & U1 & _ & U2 & Hs).
  exists k', l, T, (frames new), r2. rewrite length_frames. cbn in Hl. split_and!; auto. lia.
Qed.

(** The same with every other page in use elsewhere. *)
Lemma sample_drained :
  exists k T1 fr1 r2, umem E64 k [] R64 T1 fr1 /\ length fr1 = 1%nat /\ umem E64 k [] r2 {[r2 := (2%nat, 0)]} [].
Proof.
  destruct sample_fork as (k & l & T1 & fr1 & r2 & U1 & Hn & U2 & _ & _).
  revert k U1 U2. induction l as [|p l IH]; intros k U1 U2; [by exists k, T1, fr1, r2|].
  destruct (umem_kalloc E64 E64_pos k p l) as (k' & _ & Hk'); [apply U1|]. apply (IH k'); auto.
Qed.

Lemma uvm_lifecycle_witness :
  exists k k1 k2 k3 l', uvmcreate k = Ok R64 k1 /\ uvmalloc E64 R64 0 10000 k1 = Ok 10000 k2 /\
    uvmfree E64 R64 10000 k2 = Ok tt k3 /\ l' ≡ₚ pool 64 /\ kmem_inv E64 k3 l'.
Proof.
  destruct (pool_machine 64) as [k Hk]; [done|]. destruct (pool_root 63) as (l & El & Hl). rewrite El in Hk |- *.
  destruct (uvm_lifecycle E64 E64_pos k R64 l 10000 Hk) as (k1 & k2 & k3 & l' & E1 & E2 & E3 & Hk3 & P).
  - done.
  - rewrite Hl. vm_compute. lia.
  - by exists k, k1, k2, k3, l'.
Defined.

Lemma uvmcopy_copies_witness :
  exists k r2 k', uvmcopy E64 R64 r2 4096 k = Ok 0 k'.
Proof.
  destruct sample_fork as (k & l & T1 & fr1 & r2 & U1 & Hn & U2 & Hs & Hl).
  destruct (uvmcopy_copies E64 E64_pos k l R64 T1 fr1 r2 _ 4096 U1 U2 Hs) as (r & k' & l' & T2' & fr2 & E & _ & _ & _ & _ & _ & Hr).
  - done.
  - exact Hn.
  - done.
  - exists k, r2, k'. destruct Hr as [(-> & _)|(_ & _ & Hfew)]; [exact E|lia].
Defined.

Lemma uvmcopy_oom_panics_witness : exists k r2, uvmcopy E64 R64 r2 4096 k = Panic "uvmunmap: walk".
Proof.
  destruct sample_drained as (k & T1 & fr1 & r2 & U1 & Hn & U2). exists k, r2.
  apply (uvmcopy_oom_panics E64 E64_pos k R64 T1 fr1 r2 4096 U1 U2); [done|exact Hn].
Defined.

Lemma sample_accessible new : length new = 1%nat -> accessible (frames new) 4000 5.
Proof.
  intros Hn. destruct new as [|pa [|]]; try done. intros i Hi. unfold uaddr, user_frame.
  replace ((4000 + i) / PGSIZE) with 0 by pglia. cbn. eauto.
Qed.

Lemma copyout_copyin_witness :
  exists k k', copyout R64 4000 [104; 101; 108; 108; 111] 5 k = Ok 0 k' /\
    copyin R64 4000 5 k' = Ok (0, [104; 101; 108; 108; 111]) k'.
Proof.
  destruct sample_process as (k & l & T & new & U & Hn & _ & _). exists k.
  destruct (copyout_copyin E64 E64_pos k l R64 T (frames new) 4000 [104; 101; 108; 108; 111] U) as (r & k' & E & _ & _ & H & _).
  - done.
  - repeat constructor; done.
  - done.
  - destruct (H (sample_accessible new Hn)) as [-> E2]. by exists k'.
Defined.

Lemma copyinstr_string_witness : exists k r bs, copyinstr R64 4000 128 k = Ok (r, bs) k.
Proof.
  destruct sample_process as (k & l & T & new & U & Hn & _ & _). exists k.
  destruct (copyinstr_string E64 E64_pos k l R64 T (frames new) 4000 128 U) as (r & bs & E & _); [done|done|].
  by exists r, bs.
Defined.
