(* ===== verification/Blocks.v ===== *)
(** * The block layer as the file system sees it

    [fs.c] reaches the disk through [bread], [brelse] and [log_write] only.  The
    class [BlockLayer] has these operations; [BlockLaws] states what they promise
    to one file-system operation, on a view of the device: what every block
    holds, which blocks are locked, which ones the transaction has recorded and
    which ones have changes that are not recorded yet.  The file system is
    defined over the class and verified against the laws; the last section shows
    that the log on top of the buffer cache satisfies them. *)
From stdpp Require Import base list gmap strings.
From Stdlib Require Import ZArith Lia.
From S2P Require Import Prelude KString DList Sleeplock Bio Log LogCrash LogOps.

#[local] Open Scope Z_scope.
#[local] Open Scope xv6_scope.

(** A locked buffer is named by its number in the cache. *)
Class BlockLayer (S : Type) : Type := {
  bl_bread : Z -> Z -> M S Z;
  bl_data : Z -> S -> block;           (** [bp->data] *)
  bl_set : Z -> block -> M S unit;     (** stores to [bp->data] *)
  bl_log_write : Z -> M S unit;
  bl_brelse : Z -> M S unit;
  bl_initlog : Z -> Z -> Z -> M S unit;
}.

Record bview : Type := BView {
  v_data : Z -> block;
  v_held : gmap Z Z;                   (** locked blocks and their buffers *)
  v_pins : gset Z;                     (** blocks of the transaction *)
  v_dirty : gset Z;                    (** changed and not in the transaction *)
}.

#[export] Instance bview_eta : Eta bview := fun v => BView (v_data v) (v_held v) (v_pins v) (v_dirty v).

(** Buffers in use. *)
Definition v_used (v : bview) : gset Z := dom (v_held v) ∪ v_pins v.

Definition v_get (v : bview) (n b : Z) : bview := v <| v_held := <[n := b]> (v_held v) |>.
Definition v_put (v : bview) (n : Z) (d : block) : bview :=
  v <| v_data := upd (v_data v) n d |>
    <| v_dirty := if decide (n ∈ v_pins v) then v_dirty v else {[n]} ∪ v_dirty v |>.
Definition v_log (v : bview) (n : Z) : bview :=
  v <| v_pins := {[n]} ∪ v_pins v |> <| v_dirty := v_dirty v ∖ {[n]} |>.
Definition v_rel (v : bview) (n : Z) : bview := v <| v_held := delete n (v_held v) |>.

(** The device, how many blocks a transaction may have, and the blocks that may
    be part of one. *)
Record device : Type := Device {
  d_dev : Z;
  d_lim : Z;
  d_ok : Z -> Prop;
}.

Class BlockLaws (S : Type) {L : BlockLayer S} (D : device) (rep : S -> bview -> Prop) : Prop := {
  bl_bread_law s v n :
    rep s v -> v_held v !! n = None -> (size (v_used v) < Z.to_nat NBUF)%nat ->
    wp (bl_bread (d_dev D) n) (fun b s' => rep s' (v_get v n b)) s;
  bl_data_law s v n b :
    rep s v -> v_held v !! n = Some b -> bl_data b s = v_data v n;
  bl_set_law s v n b d :
    rep s v -> v_held v !! n = Some b -> wp (bl_set b d) (fun _ s' => rep s' (v_put v n d)) s;
  bl_log_write_law s v n b :
    rep s v -> v_held v !! n = Some b -> Z.of_nat (size (v_pins v)) < d_lim D -> d_ok D n ->
    wp (bl_log_write b) (fun _ s' => rep s' (v_log v n)) s;
  bl_brelse_law s v n b :
    rep s v -> v_held v !! n = Some b -> n ∉ v_dirty v ->
    wp (bl_brelse b) (fun _ s' => rep s' (v_rel v n)) s;
}.

(** ** The log and the buffer cache as a block layer *)

#[export] Instance log_layer : BlockLayer lst := {
  bl_bread d n := bio (bread d n);
  bl_data b s := data (bufs (bc s) b);
  bl_set b d := bio (set_data b d);
  bl_log_write b := log_write b;
  bl_brelse b := bio (brelse b);
  bl_initlog d logstart nlog := initlog d logstart nlog;
}.

(** References of a block: the lock's and the transaction's. *)
Definition v_refs (v : bview) (n : Z) : Z :=
  (match v_held v !! n with Some _ => 1 | None => 0 end) + (if decide (n ∈ v_pins v) then 1 else 0).

Lemma refs_insert_other a k r k' : k' <> k -> refs (a <| a_ref := <[k := r]> (a_ref a) |>) k' = refs a k'.
Proof. intros. unfold refs. cbn. by rewrite lookup_insert_ne. Qed.

Section Log.

(** The device and where its log lies. *)
Context (ldev st sz : Z).

Definition log_device : device :=
  Device ldev (Z.min LOGSIZE (sz - 1)) (fun n => 0 <= n < 2 ^ 31 /\ ~ (st <= n < st + sz)).

(** One operation is inside the transaction and no other process uses the
    device: references are the operation's locks and the transaction's pins. *)
Record log_view (s : lst) (v : bview) (l : log) (a : astate) (me : Z) (W : list (Z * Z * block)) : Prop := {
  lv_rep : lrep s l a me W;
  lv_wf : log_wf l;
  lv_hdr : hdr_wf l;
  lv_op : outstanding l = 1 /\ committing l = false;
  lv_lock : log_lock l = false;
  lv_start : start l = st;
  lv_size : log_size l = sz;
  lv_data : forall n, a_view a (ldev, n) = v_data v n;
  lv_held : forall n b, v_held v !! n = Some b -> owned (bc s) b (ldev, n) /\ a_held a !! (ldev, n) = Some me;
  lv_free : forall n, v_held v !! n = None -> a_held a !! (ldev, n) = None;
  lv_pins : forall n, n ∈ v_pins v <-> n ∈ tx_blocks l;
  lv_dev : forall k, is_Some (a_ref a !! k) -> k.1 = ldev;
  lv_refs : forall n, refs a (ldev, n) = v_refs v n;
  lv_clean : forall n, n ∉ v_dirty v -> n ∉ v_pins v -> a_view a (ldev, n) = a_disk a (ldev, n);
}.

Definition log_rep (s : lst) (v : bview) : Prop := sz <= NBUF /\ exists l a me W, log_view s v l a me W.

Section View.

Context (s : lst) (v : bview) (l : log) (a : astate) (me : Z) (W : list (Z * Z * block)).
Hypothesis V : log_view s v l a me W.

Lemma lv_refs_small n : refs a (ldev, n) + 1 < 2 ^ 32.
Proof. rewrite (lv_refs _ _ _ _ _ _ V). unfold v_refs. destruct (v_held v !! n), (decide (n ∈ v_pins v)); zpow; lia. Qed.

Lemma lv_room n :
  (size (v_used v) < Z.to_nat NBUF)%nat ->
  is_Some (a_ref a !! (ldev, n)) \/ (size (a_ref a) < Z.to_nat NBUF)%nat.
Proof.
  intros Hs. right. eapply Nat.le_lt_trans; [|exact Hs].
  rewrite <- size_dom. unfold size at 1, set_size at 1. unfold size at 1, set_size at 1. cbn.
  rewrite <- (length_fmap (pair ldev) (elements (v_used v))).
  apply submseteq_length, NoDup_submseteq; [apply NoDup_elements|].
  intros [d m] Hm. apply elem_of_elements, elem_of_dom in Hm.
  pose proof (lv_dev _ _ _ _ _ _ V _ Hm) as Hd. cbn in Hd. subst d.
  apply list_elem_of_fmap. exists m. split; [done|]. apply elem_of_elements. unfold v_used.
  destruct Hm as [r Hr]. pose proof (lv_refs _ _ _ _ _ _ V m) as Hx. unfold refs in Hx. rewrite Hr in Hx. cbn in Hx.
  pose proof (lrep_ref _ _ _ _ _ _ _ (lv_rep _ _ _ _ _ _ V) Hr) as Hpos.
  apply elem_of_union. unfold v_refs in Hx. destruct (v_held v !! m) eqn:E; [left; apply elem_of_dom; eauto|right].
  destruct (decide (m ∈ v_pins v)); [done|lia].
Qed.

Lemma lv_pin_count : Z.of_nat (size (v_pins v)) = lh_n l.
Proof.
  pose proof V as [_ Hwf _ _ _ _ _ _ _ _ Hp _ _ _]. destruct Hwf.
  assert (E : elements (v_pins v) ≡ₚ tx_blocks l).
  { apply NoDup_Permutation; [apply NoDup_elements| |intros n; by rewrite elem_of_elements].
    unfold tx_blocks. apply NoDup_fmap_zseq. intros i j Hi Hj. apply wf_inj; lia. }
  unfold size, set_size. cbn. rewrite E. unfold tx_blocks. rewrite length_fmap, length_zseq. lia.
Qed.

Lemma log_bread_law n :
  sz <= NBUF -> v_held v !! n = None -> (size (v_used v) < Z.to_nat NBUF)%nat ->
  wp (bl_bread ldev n) (fun b s' => log_rep s' (v_get v n b)) s.
Proof.
  intros Hsz Hh Hs. cbn. eapply wp_mono; [apply (bio_bread s l a me W (lv_rep _ _ _ _ _ _ V) ldev n)|].
  - by apply V.
  - apply lv_refs_small.
  - by apply lv_room.
  - intros b s' (R' & O & F). split; [done|]. exists l, (a_get a (ldev, n) me), me, W.
    destruct V as [V1 V2 V3 V4 V5 V6 V7 V8 V9 V10 V11 V12 V13 V14]. split; auto.
    + intros m b'. cbn. destruct (decide (m = n)) as [->|].
      * rewrite !lookup_insert_eq. intros [= <-]. done.
      * rewrite !lookup_insert_ne by congruence. intros Hm. destruct (V9 m b' Hm). split; [by apply F|done].
    + intros m. cbn. destruct (decide (m = n)) as [->|]; [by rewrite lookup_insert_eq|].
      rewrite !lookup_insert_ne by congruence. apply V10.
    + intros k. cbn. rewrite lookup_insert_is_Some. intros [<-|[_ H]]; [done|by apply V12].
    + intros m. unfold refs, v_refs. cbn. destruct (decide (m = n)) as [->|].
      * rewrite !lookup_insert_eq. cbn. rewrite V13. unfold v_refs. rewrite Hh. lia.
      * rewrite !lookup_insert_ne by congruence. apply V13.
Qed.

Lemma log_set_law n b d :
  sz <= NBUF -> v_held v !! n = Some b -> wp (bl_set b d) (fun _ s' => log_rep s' (v_put v n d)) s.
Proof.
  intros Hsz Hh. cbn. destruct (lv_held _ _ _ _ _ _ V n b Hh) as [O _].
  eapply wp_mono; [apply (bio_set_data s l a me W (lv_rep _ _ _ _ _ _ V) b _ d O)|].
  intros _ s' (R' & F). split; [done|]. eexists l, _, me, W.
  destruct V as [V1 V2 V3 V4 V5 V6 V7 V8 V9 V10 V11 V12 V13 V14]. split; [exact R'|auto..]; cbn; auto.
  - intros m. unfold upd. destruct (Z.eqb_spec m n) as [->|]; [by rewrite fupdate_same|].
    rewrite fupdate_other by congruence. apply V8.
  - intros m b' Hm. destruct (V9 m b' Hm). split; [by apply F|done].
  - intros m Hm Hp. assert (m <> n) by (intros ->; case_decide; [done|set_solver]).
    rewrite fupdate_other by congruence. apply V14; [|done]. case_decide; set_solver.
Qed.

Lemma log_write_law n b :
  sz <= NBUF -> v_held v !! n = Some b -> Z.of_nat (size (v_pins v)) < d_lim log_device -> d_ok log_device n ->
  wp (bl_log_write b) (fun _ s' => log_rep s' (v_log v n)) s.
Proof.
  intros Hsz Hh Hp [Hok1 Hok2]. cbn in *. destruct (lv_held _ _ _ _ _ _ V n b Hh) as [O Ha].
  rewrite lv_pin_count in Hp. pose proof lv_refs_small n as Hrf.
  destruct V as [V1 V2 V3 V4 V5 V6 V7 V8 V9 V10 V11 V12 V13 V14].
  assert (Hroom : room l = true) by (unfold room; lia). assert (Hlt : lh_n l < LOGSIZE) by lia.
  destruct (log_write_spec ldev s l a me W b n V1 O V3) as (s' & a' & E & R' & F & Ea); auto; [lia|].
  apply wp_Ok. exists tt, s'. split; [done|]. split; [done|]. exists (log_add l n), a', me, W.
  destruct (log_add_same l n) as (E1 & E2 & E3 & E4 & E5). pose proof (log_add_tx l n V3 Hlt) as Htx.
  assert (Hother : a_view a' = a_view a /\ a_held a' = a_held a /\ a_disk a' = a_disk a) by (rewrite Ea; by case_decide).
  destruct Hother as (Ev & Eh & Ed). assert (Hin : n ∈ tx_blocks l <-> n ∈ v_pins v) by (symmetry; apply V11).
  split; rewrite ?E1, ?E2, ?E3, ?E4, ?E5, ?Ev, ?Eh, ?Ed; auto; cbn.
  - apply log_add_wf; auto; [lia|]. by rewrite V6, V7.
  - by apply log_add_hdr.
  - intros m b' Hm. destruct (V9 m b' Hm). split; [by apply F|done].
  - intros m. rewrite Htx. case_decide; [|rewrite elem_of_app, list_elem_of_singleton]; specialize (V11 m); set_solver.
  - intros k. rewrite Ea. case_decide; [apply V12|]. cbn. rewrite lookup_insert_is_Some. intros [<-|[_ Hk]]; [done|by apply V12].
  - intros m. rewrite Ea. unfold v_refs. cbn. destruct (decide (m = n)) as [->|Hne].
    + rewrite (decide_True (P := n ∈ {[n]} ∪ _)) by set_solver. specialize (V13 n). unfold v_refs in V13.
      rewrite Hh in *. case_decide.
      * rewrite V13. rewrite decide_True by tauto. done.
      * etransitivity; [apply refs_insert|]. rewrite V13, decide_False by tauto. done.
    + specialize (V13 m). unfold v_refs in V13.
      assert (Hiff : m ∈ {[n]} ∪ v_pins v <-> m ∈ v_pins v) by set_solver. rewrite (decide_ext _ _ _ _ Hiff).
      case_decide; [|etransitivity; [apply refs_insert_other; congruence|]]; apply V13.
  - intros m Hm Hp'. apply V14; set_solver.
Qed.

Lemma log_brelse_law n b :
  sz <= NBUF -> v_held v !! n = Some b -> (n ∉ v_dirty v) -> wp (bl_brelse b) (fun _ s' => log_rep s' (v_rel v n)) s.
Proof.
  intros Hsz Hh Hd. cbn. destruct V as [V1 V2 V3 V4 V5 V6 V7 V8 V9 V10 V11 V12 V13 V14].
  destruct (V9 n b Hh) as [O Ha]. pose proof (V13 n) as Hn. unfold v_refs in Hn. rewrite Hh in Hn.
  eapply wp_mono; [apply (bio_brelse s l a me W V1 b (ldev, n) O Ha)|].
  - destruct (decide (n ∈ v_pins v)) as [Hp|Hp]; [left; lia|right; by apply V14].
  - intros _ s' (R' & F). split; [done|]. eexists l, _, me, W. split; [exact R'|auto..]; cbn; auto.
    + intros m b' Hm. destruct (decide (m = n)) as [->|]; [by rewrite lookup_delete_eq in Hm|].
      rewrite lookup_delete_ne in Hm by done. rewrite lookup_delete_ne by congruence.
      destruct (V9 m b' Hm). split; [|done]. apply F; [done|left; congruence].
    + intros m Hm. destruct (decide (m = n)) as [->|]; [by rewrite lookup_delete_eq|].
      rewrite lookup_delete_ne in Hm by done. rewrite lookup_delete_ne by congruence. by apply V10.
    + intros k [r Hk]. destruct (decide (k = (ldev, n))) as [->|]; [done|].
      rewrite unref_lookup_ne in Hk by congruence. apply V12. eauto.
    + intros m. unfold refs, v_refs. cbn. destruct (decide (m = n)) as [->|].
      * rewrite lookup_delete_eq. unfold unref. unfold refs in Hn.
        destruct (decide (n ∈ v_pins v)).
        -- rewrite decide_False by lia. rewrite lookup_insert_eq. cbn. lia.
        -- rewrite decide_True by lia. by rewrite lookup_delete_eq.
      * rewrite lookup_delete_ne, unref_lookup_ne by congruence. apply V13.
Qed.

End View.

#[export] Instance log_laws : BlockLaws lst log_device log_rep.
Proof.
  split.
  - intros s v n [Hsz (l & a & me & W & V)]. by apply (log_bread_law s v l a me W V).
  - intros s v n b [_ (l & a & me & W & V)] Hh. destruct (lv_held _ _ _ _ _ _ V n b Hh) as [O _]. cbn.
    rewrite (lrep_view _ _ _ _ _ _ _ (lv_rep _ _ _ _ _ _ V) O). apply V.
  - intros s v n b d [Hsz (l & a & me & W & V)]. by apply (log_set_law s v l a me W V).
  - intros s v n b [Hsz (l & a & me & W & V)]. by apply (log_write_law s v l a me W V).
  - intros s v n b [Hsz (l & a & me & W & V)]. by apply (log_brelse_law s v l a me W V).
Qed.

End Log.
