(* ===== verification/Fs.v ===== *)
(** * [kernel/fs.c]: blocks, inodes, directories, path names

    The routines of [fs.c] over a block layer ([Blocks]).  A pointer to a cached
    inode is its number in [icache.inode], from 1 on; 0 is the null pointer.  The
    bytes that [readi] and [writei] move come from or go to the memory of the
    running process (through its page table) or a variable of the kernel, whose
    bytes are [kvar].  The theorems are in the [Fs...] files that follow. *)
From stdpp Require Import base list gmap strings.
From Stdlib Require Import ZArith Lia.
From S2P Require Import Prelude KString Riscv Kalloc Vm Sleeplock Bio Blocks.

#[local] Open Scope Z_scope.
#[local] Open Scope xv6_scope.

Definition ROOTINO : Z := 1.
Definition ROOTDEV : Z := 0.
Definition NINODE : Z := 50.
Definition FSMAGIC : Z := 0x10203040.
Definition NDIRECT : Z := 12.
Definition NINDIRECT : Z := BSIZE / 4.
Definition MAXFILE : Z := NDIRECT + NINDIRECT.
Definition IPB : Z := BSIZE / 64.
Definition BPB : Z := BSIZE * 8.
Definition DIRSIZ : Z := 14.

Definition T_DIR : Z := 1.
Definition T_FILE : Z := 2.
Definition T_DEVICE : Z := 3.

Record superblock : Type := Superblock {
  sb_magic : Z;
  sb_size : Z;             (** size of file system image (blocks) *)
  sb_nblocks : Z;
  sb_ninodes : Z;
  sb_nlog : Z;
  sb_logstart : Z;
  sb_inodestart : Z;
  sb_bmapstart : Z;
}.

Definition IBLOCK (i : Z) (sb : superblock) : Z := u32 (i / IPB + sb_inodestart sb).
Definition BBLOCK (b : Z) (sb : superblock) : Z := u32 (b / BPB + sb_bmapstart sb).

(** In-memory copy of an inode. *)
Record inode : Type := Inode {
  i_dev : Z;
  i_inum : Z;
  i_ref : Z;
  i_lock : sleeplock;
  i_valid : bool;
  i_type : Z;
  i_major : Z;
  i_minor : Z;
  i_nlink : Z;
  i_size : Z;
  i_addrs : list Z;
}.

#[export] Instance inode_eta : Eta inode := fun i =>
  Inode (i_dev i) (i_inum i) (i_ref i) (i_lock i) (i_valid i) (i_type i) (i_major i) (i_minor i)
        (i_nlink i) (i_size i) (i_addrs i).

(** Field [addrs[n]]. *)
Definition i_addr (i : inode) (n : Z) : Z := default 0 (i_addrs i !! Z.to_nat n).

(** ** Layout of blocks *)

Definition read_sb (d : block) : superblock :=
  let f i := get_le 4 (4 * i) d in
  Superblock (f 0%nat) (f 1%nat) (f 2%nat) (f 3%nat) (f 4%nat) (f 5%nat) (f 6%nat) (f 7%nat).

(** Offset of the [struct dinode] of inode [inum] in its block. *)
Definition dip (inum : Z) : nat := Z.to_nat (64 * (inum mod IPB)).

Definition dip_type (d : block) (inum : Z) : Z := s16 (get_le 2 (dip inum) d).

(** Load the fields of the [struct dinode] at offset [o]. *)
Definition get_dinode (d : block) (o : nat) (i : inode) : inode :=
  i <| i_type := s16 (get_le 2 o d) |>
    <| i_major := s16 (get_le 2 (o + 2) d) |>
    <| i_minor := s16 (get_le 2 (o + 4) d) |>
    <| i_nlink := s16 (get_le 2 (o + 6) d) |>
    <| i_size := get_le 4 (o + 8) d |>
    <| i_addrs := (fun j => get_le 4 (o + 12 + 4 * j) d) <$> seq 0 13 |>.

(** Store [addrs], from entry [j] on. *)
Fixpoint put_addrs (o : nat) (l : list Z) (d : block) : block :=
  match l with
  | [] => d
  | a :: l => put_addrs (o + 4) l (put_le 4 o a d)
  end.

Definition put_dinode (i : inode) (o : nat) (d : block) : block :=
  put_addrs (o + 12) (i_addrs i)
    (put_le 4 (o + 8) (i_size i)
      (put_le 2 (o + 6) (i_nlink i)
        (put_le 2 (o + 4) (i_minor i)
          (put_le 2 (o + 2) (i_major i)
            (put_le 2 o (i_type i) d))))).

(** Bit [bi] of a bitmap block. *)
Definition bit_byte (bi : Z) : nat := Z.to_nat (bi / 8).
Definition bit_mask (bi : Z) : Z := Z.shiftl 1 (bi mod 8).
Definition get_bit (d : list Z) (bi : Z) : bool := negb (Z.land (default 0 (d !! bit_byte bi)) (bit_mask bi) =? 0).
Definition set_bit (d : list Z) (bi : Z) : list Z :=
  <[bit_byte bi := Z.lor (default 0 (d !! bit_byte bi)) (bit_mask bi)]> d.
Definition clear_bit (d : list Z) (bi : Z) : list Z :=
  <[bit_byte bi := Z.ldiff (default 0 (d !! bit_byte bi)) (bit_mask bi)]> d.

(** Word [j] of an indirect block. *)
Definition get_word (d : list Z) (j : Z) : Z := get_le 4 (Z.to_nat (4 * j)) d.
Definition set_word (d : list Z) (j a : Z) : list Z := put_le 4 (Z.to_nat (4 * j)) a d.

Definition zero_block : block := replicate (Z.to_nat BSIZE) 0.

(** [struct dirent]: two bytes of inode number, 14 of name. *)
Definition de_inum (de : list Z) : Z := get_le 2 0 de.
Definition de_name (de : list Z) : list Z := slice 2 (Z.to_nat DIRSIZ) de.

(** A memory with two C buffers, at 0 and at [2^32]. *)
Definition two_bufs (s t : list Z) : mem := fun a =>
  if a <? 2 ^ 32 then default 0 (s !! Z.to_nat a) else default 0 (t !! Z.to_nat (a - 2 ^ 32)).

Definition namecmp (s t : list Z) : Z := strncmp (two_bufs s t) 0 (2 ^ 32) DIRSIZ.

(** The [DIRSIZ] bytes [strncpy(de.name, name, DIRSIZ)] leaves. *)
Definition dirent_name (name : list Z) : list Z :=
  read_bytes (strncpy (two_bufs [] name) 0 (2 ^ 32) DIRSIZ) 0 (Z.to_nat DIRSIZ).

(** ** Path elements *)

Definition SLASH : Z := 47.

(** [while( *path == '/') path++;]; a path ends at its NUL. *)
Fixpoint skip_slashes (path : list Z) : list Z :=
  match path with
  | c :: p => if c =? SLASH then skip_slashes p else path
  | [] => []
  end.

(** [while( *path != '/' && *path != 0) path++;]: the element and the rest. *)
Fixpoint take_elem (path : list Z) : list Z * list Z :=
  match path with
  | c :: p => if (c =? SLASH) || (c =? 0) then ([], path)
              else let '(e, r) := take_elem p in (c :: e, r)
  | [] => ([], [])
  end.

(** [*path]: a byte past the end of the list is the terminating NUL. *)
Definition peek (path : list Z) : Z := hd 0 path.

(** [name] is the caller's buffer; the result is [None] for a null pointer. *)
Definition skipelem (path name : list Z) : option (list Z * list Z) :=
  let path := skip_slashes path in
  if peek path =? 0 then None else
  let '(s, path) := take_elem path in
  let len := Z.of_nat (length s) in
  let name := if len >=? DIRSIZ then splice 0 (take (Z.to_nat DIRSIZ) s) name
              else splice 0 (s ++ [0]) name in
  Some (skip_slashes path, name).

(** ** The state *)

Record fst (S : Type) : Type := Fst {
  blk : S;
  sb : superblock;
  ic_lock : bool;          (** [icache.lock] *)
  inodes : Z -> inode;     (** [icache.inode], entries 1 to [NINODE] *)
  fs_pid : Z;              (** [myproc()->pid] *)
  cwd : Z;                 (** [myproc()->cwd] *)
  fs_mem : kmem;           (** physical memory *)
  fs_pt : Z;               (** [myproc()->pagetable] *)
  kvar : list Z;           (** the kernel variable behind a kernel address *)
  fs_wakes : list chan;    (** [wakeup] calls, latest first *)
}.
Arguments Fst {S} blk sb ic_lock inodes fs_pid cwd fs_mem fs_pt kvar fs_wakes.
Arguments blk {S} f.
Arguments sb {S} f.
Arguments ic_lock {S} f.
Arguments inodes {S} f _.
Arguments fs_pid {S} f.
Arguments cwd {S} f.
Arguments fs_mem {S} f.
Arguments fs_pt {S} f.
Arguments kvar {S} f.
Arguments fs_wakes {S} f.

#[export] Instance fst_eta S : Eta (fst S) := fun s =>
  Fst (blk s) (sb s) (ic_lock s) (inodes s) (fs_pid s) (cwd s) (fs_mem s) (fs_pt s) (kvar s) (fs_wakes s).

Section Fs.

Context {S : Type} {L : BlockLayer S}.

Definition in_blk {A} (m : M S A) : M (fst S) A := zoom blk (fun b s => s <| blk := b |>) m.

Definition fread (dev blockno : Z) : M (fst S) Z := in_blk (bl_bread dev blockno).
Definition fdata (bp : Z) : M (fst S) block := gets (fun s => bl_data bp (blk s)).
Definition fset (bp : Z) (d : block) : M (fst S) unit := in_blk (bl_set bp d).
Definition flog_write (bp : Z) : M (fst S) unit := in_blk (bl_log_write bp).
Definition frelse (bp : Z) : M (fst S) unit := in_blk (bl_brelse bp).

Definition set_inode (ip : Z) (f : inode -> inode) : M (fst S) unit :=
  modify (fun s => s <| inodes := upd (inodes s) ip (f (inodes s ip)) |>).
Definition get_inode (ip : Z) : M (fst S) inode := gets (fun s => inodes s ip).

Definition inode_chan (ip : Z) : chan := Chan "inode" ip.

Definition with_ilock {A} (ip : Z) (m : M sleeplock A) : M (fst S) A :=
  zoom (fun s => i_lock (inodes s ip))
       (fun l s => s <| inodes := upd (inodes s) ip ((inodes s ip) <| i_lock := l |>) |>) m.

(** [acquiresleep(&ip->lock)] and the like. *)
Definition iacquiresleep (ip : Z) : M (fst S) unit :=
  pid ← gets fs_pid ;
  with_ilock ip (acquiresleep pid (inode_chan ip)).

Definition ireleasesleep (ip : Z) : M (fst S) unit :=
  w ← with_ilock ip (releasesleep (inode_chan ip)) ;
  modify (fun s => s <| fs_wakes := w :: fs_wakes s |>).

Definition iholdingsleep (ip : Z) : M (fst S) bool :=
  pid ← gets fs_pid ;
  with_ilock ip (holdingsleep pid).

(** ** Blocks *)

Definition readsb (dev : Z) : M (fst S) unit :=
  bp ← fread dev 1 ;
  d ← fdata bp ;
  modify (fun s => s <| sb := read_sb d |>) ;;
  frelse bp.

Definition fsinit (dev : Z) : M (fst S) unit :=
  readsb dev ;;
  sb ← gets sb ;
  if negb (sb_magic sb =? FSMAGIC) then panic "invalid file system"
  else in_blk (bl_initlog dev (sb_logstart sb) (sb_nlog sb)).

Definition bzero (dev bno : Z) : M (fst S) unit :=
  bp ← fread dev bno ;
  fset bp zero_block ;;
  flog_write bp ;;
  frelse bp.

(** The inner loop of [balloc]: the first clear bit from [bi] on. *)
Fixpoint free_bit (n : nat) (d : block) (b bi size : Z) : option Z :=
  match n with
  | O => None
  | Datatypes.S n => if negb (b + bi <? size) then None
           else if negb (get_bit d bi) then Some bi
           else free_bit n d b (bi + 1) size
  end.

(** One turn of the outer loop. *)
Definition balloc_block (dev b : Z) : M (fst S) (Z + Z) :=
  sb ← gets sb ;
  if negb (b <? sb_size sb) then panic "balloc: out of blocks" else
  bp ← fread dev (BBLOCK b sb) ;
  d ← fdata bp ;
  match free_bit (Z.to_nat BPB) d b 0 (sb_size sb) with
  | Some bi =>
      fset bp (set_bit d bi) ;;
      flog_write bp ;;
      frelse bp ;;
      bzero dev (b + bi) ;;
      ret (inr (b + bi))
  | None => frelse bp ;; ret (inl (b + BPB))
  end.

Definition balloc (dev : Z) : M (fst S) Z := while_ (balloc_block dev) 0.

Definition bfree (dev b : Z) : M (fst S) unit :=
  sb ← gets sb ;
  bp ← fread dev (BBLOCK b sb) ;
  let bi := b mod BPB in
  d ← fdata bp ;
  if negb (get_bit d bi) then panic "freeing free block" else
  (fset bp (clear_bit d bi) ;;
   flog_write bp ;;
   frelse bp).

(** ** Inodes *)

(** [for(i = 0; i < NINODE; i++) initsleeplock(&icache.inode[i].lock);] *)
Definition iinit : M (fst S) unit :=
  modify (fun s => s <| ic_lock := false |>
                     <| inodes := fold_left (fun f ip => upd f ip ((f ip) <| i_lock := initsleeplock |>))
                                            (zseq 1 (Z.to_nat NINODE)) (inodes s) |>).

(** The loop of [iget] from entry [ip] on, [n] entries; [empty] is the first
    free entry so far. *)
Fixpoint iget_loop (n : nat) (f : Z -> inode) (dev inum ip empty : Z) : bool * Z :=
  match n with
  | O => (false, empty)
  | Datatypes.S n =>
      let i := f ip in
      if (i_ref i >? 0) && (i_dev i =? dev) && (i_inum i =? inum) then (true, ip)
      else iget_loop n f dev inum (ip + 1) (if (empty =? 0) && (i_ref i =? 0) then ip else empty)
  end.

Definition iget (dev inum : Z) : M (fst S) Z :=
  acquire ic_lock ;;
  f ← gets inodes ;
  let '(hit, ip) := iget_loop (Z.to_nat NINODE) f dev inum 1 0 in
  if hit then
    set_inode ip (fun i => i <| i_ref := i_ref i + 1 |>) ;;
    release ic_lock ;;
    ret ip
  else if ip =? 0 then panic "iget: no inodes"
  else
    set_inode ip (fun i => i <| i_dev := dev |> <| i_inum := inum |> <| i_ref := 1 |> <| i_valid := false |>) ;;
    release ic_lock ;;
    ret ip.

(** One turn of [ialloc]'s loop. *)
Definition ialloc_inode (dev type inum : Z) : M (fst S) (Z + Z) :=
  sb ← gets sb ;
  if negb (inum <? sb_ninodes sb) then panic "ialloc: no inodes" else
  bp ← fread dev (IBLOCK inum sb) ;
  d ← fdata bp ;
  if dip_type d inum =? 0 then
    fset bp (put_le 2 (dip inum) type (splice (dip inum) (replicate 64 0) d)) ;;
    flog_write bp ;;
    frelse bp ;;
    ip ← iget dev inum ;
    ret (inr ip)
  else frelse bp ;; ret (inl (inum + 1)).

Definition ialloc (dev type : Z) : M (fst S) Z := while_ (ialloc_inode dev type) 1.

Definition iupdate (ip : Z) : M (fst S) unit :=
  i ← get_inode ip ;
  sb ← gets sb ;
  bp ← fread (i_dev i) (IBLOCK (i_inum i) sb) ;
  d ← fdata bp ;
  fset bp (put_dinode i (dip (i_inum i)) d) ;;
  flog_write bp ;;
  frelse bp.

Definition idup (ip : Z) : M (fst S) Z :=
  acquire ic_lock ;;
  set_inode ip (fun i => i <| i_ref := i_ref i + 1 |>) ;;
  release ic_lock ;;
  ret ip.

Definition ilock (ip : Z) : M (fst S) unit :=
  i ← get_inode ip ;
  if (ip =? 0) || (i_ref i <? 1) then panic "ilock" else
  iacquiresleep ip ;;
  i ← get_inode ip ;
  if i_valid i then ret tt else
  sb ← gets sb ;
  bp ← fread (i_dev i) (IBLOCK (i_inum i) sb) ;
  d ← fdata bp ;
  set_inode ip (get_dinode d (dip (i_inum i))) ;;
  frelse bp ;;
  set_inode ip (fun i => i <| i_valid := true |>) ;;
  i ← get_inode ip ;
  if i_type i =? 0 then panic "ilock: no type" else ret tt.

Definition iunlock (ip : Z) : M (fst S) unit :=
  if ip =? 0 then panic "iunlock" else
  h ← iholdingsleep ip ;
  i ← get_inode ip ;
  if negb h || (i_ref i <? 1) then panic "iunlock" else ireleasesleep ip.

(** ** Inode content *)

Definition set_addr (ip n a : Z) : M (fst S) unit :=
  set_inode ip (fun i => i <| i_addrs := <[Z.to_nat n := a]> (i_addrs i) |>).

(** [ip->addrs[n]], allocated when it is 0. *)
Definition get_addr (ip n : Z) : M (fst S) Z :=
  i ← get_inode ip ;
  let addr := i_addr i n in
  if addr =? 0 then addr ← balloc (i_dev i) ; set_addr ip n addr ;; ret addr
  else ret addr.

Definition bmap (ip bn : Z) : M (fst S) Z :=
  if bn <? NDIRECT then get_addr ip bn
  else
    let bn := bn - NDIRECT in
    if bn <? NINDIRECT then
      addr ← get_addr ip NDIRECT ;
      i ← get_inode ip ;
      bp ← fread (i_dev i) addr ;
      a ← fdata bp ;
      let addr := get_word a bn in
      addr ← (if addr =? 0
              then addr ← balloc (i_dev i) ;
                   a ← fdata bp ;
                   fset bp (set_word a bn addr) ;;
                   flog_write bp ;;
                   ret addr
              else ret addr) ;
      frelse bp ;;
      ret addr
    else panic "bmap: out of range".

(** [for(i = 0; i < NDIRECT; i++) if(ip->addrs[i]) ...] *)
Fixpoint trunc_direct (n : nat) (ip k : Z) : M (fst S) unit :=
  match n with
  | O => ret tt
  | Datatypes.S n =>
      i ← get_inode ip ;
      (if i_addr i k =? 0 then ret tt
       else bfree (i_dev i) (i_addr i k) ;; set_addr ip k 0) ;;
      trunc_direct n ip (k + 1)
  end.

(** [for(j = 0; j < NINDIRECT; j++) if(a[j]) bfree(ip->dev, a[j]);] *)
Fixpoint trunc_indirect (n : nat) (ip bp j : Z) : M (fst S) unit :=
  match n with
  | O => ret tt
  | Datatypes.S n =>
      i ← get_inode ip ;
      a ← fdata bp ;
      (if get_word a j =? 0 then ret tt else bfree (i_dev i) (get_word a j)) ;;
      trunc_indirect n ip bp (j + 1)
  end.

Definition itrunc (ip : Z) : M (fst S) unit :=
  trunc_direct (Z.to_nat NDIRECT) ip 0 ;;
  i ← get_inode ip ;
  (if i_addr i NDIRECT =? 0 then ret tt
   else bp ← fread (i_dev i) (i_addr i NDIRECT) ;
        trunc_indirect (Z.to_nat NINDIRECT) ip bp 0 ;;
        frelse bp ;;
        i ← get_inode ip ;
        bfree (i_dev i) (i_addr i NDIRECT) ;;
        set_addr ip NDIRECT 0) ;;
  set_inode ip (fun i => i <| i_size := 0 |>) ;;
  iupdate ip.

Definition iput (ip : Z) : M (fst S) unit :=
  acquire ic_lock ;;
  i ← get_inode ip ;
  (if (i_ref i =? 1) && i_valid i && (i_nlink i =? 0) then
     iacquiresleep ip ;;
     release ic_lock ;;
     itrunc ip ;;
     set_inode ip (fun i => i <| i_type := 0 |>) ;;
     iupdate ip ;;
     set_inode ip (fun i => i <| i_valid := false |>) ;;
     ireleasesleep ip ;;
     acquire ic_lock
   else ret tt) ;;
  set_inode ip (fun i => i <| i_ref := i_ref i - 1 |>) ;;
  release ic_lock.

Definition iunlockput (ip : Z) : M (fst S) unit :=
  iunlock ip ;;
  iput ip.

(** [struct stat] as [dev], [ino], [type], [nlink], [size]. *)
Record stat : Type := Stat { st_dev : Z; st_ino : Z; st_type : Z; st_nlink : Z; st_size : Z }.

Definition stati (ip : Z) : M (fst S) stat :=
  gets (fun s => let i := inodes s ip in Stat (s32 (i_dev i)) (i_inum i) (i_type i) (i_nlink i) (i_size i)).

Definition in_vm {A} (m : M kmem A) : M (fst S) A := zoom fs_mem (fun k s => s <| fs_mem := k |>) m.

(** A kernel address is an offset into [kvar]. *)
Definition either_copyout (user_dst : bool) (dst : Z) (src : list Z) (len : Z) : M (fst S) Z :=
  if user_dst then pt ← gets fs_pt ; in_vm (copyout pt dst src len)
  else modify (fun s => s <| kvar := splice (Z.to_nat dst) (take (Z.to_nat len) src) (kvar s) |>) ;; ret 0.

(** The result and the bytes that were copied. *)
Definition either_copyin (user_src : bool) (src len : Z) : M (fst S) (Z * list Z) :=
  if user_src then pt ← gets fs_pt ; in_vm (copyin pt src len)
  else gets (fun s => (0, slice (Z.to_nat src) (Z.to_nat len) (kvar s))).

(** One turn of [readi]'s loop; the loop variables are [tot], [off] and [dst]. *)
Definition readi_block (ip : Z) (user_dst : bool) (n : Z) (x : Z * Z * Z) : M (fst S) (Z * Z * Z + unit) :=
  let '(tot, off, dst) := x in
  if negb (tot <? n) then ret (inr tt) else
  addr ← bmap ip (off / BSIZE) ;
  i ← get_inode ip ;
  bp ← fread (i_dev i) addr ;
  let m := Z.min (n - tot) (BSIZE - off mod BSIZE) in
  d ← fdata bp ;
  r ← either_copyout user_dst dst (drop (Z.to_nat (off mod BSIZE)) d) m ;
  frelse bp ;;
  ret (if r =? -1 then inr tt else inl (tot + m, off + m, u64 (dst + m))).

Definition readi (ip : Z) (user_dst : bool) (dst off n : Z) : M (fst S) Z :=
  i ← get_inode ip ;
  if (off >? i_size i) || (u32 (off + n) <? off) then ret (-1) else
  let n := if u32 (off + n) >? i_size i then i_size i - off else n in
  while_ (readi_block ip user_dst n) (0, off, dst) ;;
  ret (s32 n).

(** One turn of [writei]'s loop.  Bytes that [either_copyin] has copied before
    it fails are in the buffer. *)
Definition writei_block (ip : Z) (user_src : bool) (n : Z) (x : Z * Z * Z) : M (fst S) (Z * Z * Z + Z) :=
  let '(tot, off, src) := x in
  if negb (tot <? n) then ret (inr off) else
  addr ← bmap ip (off / BSIZE) ;
  i ← get_inode ip ;
  bp ← fread (i_dev i) addr ;
  let m := Z.min (n - tot) (BSIZE - off mod BSIZE) in
  r ← either_copyin user_src src m ;
  let '(r, bs) := r : Z * list Z in
  d ← fdata bp ;
  fset bp (splice (Z.to_nat (off mod BSIZE)) bs d) ;;
  (if r =? -1 then frelse bp ;; ret (inr off)
   else flog_write bp ;;
        frelse bp ;;
        ret (inl (tot + m, off + m, u64 (src + m)))).

Definition writei (ip : Z) (user_src : bool) (src off n : Z) : M (fst S) Z :=
  i ← get_inode ip ;
  if (off >? i_size i) || (u32 (off + n) <? off) then ret (-1) else
  if u32 (off + n) >? MAXFILE * BSIZE then ret (-1) else
  off ← while_ (writei_block ip user_src n) (0, off, src) ;
  (if n >? 0 then
     set_inode ip (fun i => if off >? i_size i then i <| i_size := off |> else i) ;;
     iupdate ip
   else ret tt) ;;
  ret (s32 n).

(** ** Directories *)

Definition sizeof_de : Z := 16.

(** [readi] of the entry at [off] into the variable [de]. *)
Definition read_de (dp off : Z) (who : string) : M (fst S) (list Z) :=
  modify (fun s => s <| kvar := replicate (Z.to_nat sizeof_de) 0 |>) ;;
  r ← readi dp false 0 off sizeof_de ;
  if negb (r =? sizeof_de) then panic who else gets kvar.

Definition dirlookup_step (dp : Z) (name : list Z) (off : Z) : M (fst S) (Z + (Z * Z)) :=
  i ← get_inode dp ;
  if negb (off <? i_size i) then ret (inr (0, 0)) else
  de ← read_de dp off "dirlookup read" ;
  if de_inum de =? 0 then ret (inl (off + sizeof_de)) else
  if namecmp name (de_name de) =? 0
  then ip ← iget (i_dev i) (de_inum de) ; ret (inr (ip, off))
  else ret (inl (off + sizeof_de)).

(** The inode, or 0, and what is stored in [*poff]. *)
Definition dirlookup (dp : Z) (name : list Z) : M (fst S) (Z * Z) :=
  i ← get_inode dp ;
  if negb (i_type i =? T_DIR) then panic "dirlookup not DIR"
  else while_ (dirlookup_step dp name) 0.

Definition dirlink_step (dp off : Z) : M (fst S) (Z + Z) :=
  i ← get_inode dp ;
  if negb (off <? i_size i) then ret (inr off) else
  de ← read_de dp off "dirlink read" ;
  if de_inum de =? 0 then ret (inr off) else ret (inl (off + sizeof_de)).

Definition dirlink (dp : Z) (name : list Z) (inum : Z) : M (fst S) Z :=
  r ← dirlookup dp name ;
  let '(ip, _) := r : Z * Z in
  if negb (ip =? 0) then iput ip ;; ret (-1) else
  off ← while_ (dirlink_step dp) 0 ;
  modify (fun s => s <| kvar := le_bytes 2 inum ++ dirent_name name |>) ;;
  r ← writei dp false 0 off sizeof_de ;
  if negb (r =? sizeof_de) then panic "dirlink" else ret 0.

(** ** Path names *)

(** One turn of [namex]'s loop; the result is the inode and the buffer [name]. *)
Definition namex_step (nameiparent : bool) (x : Z * list Z * list Z) : M (fst S) (Z * list Z * list Z + (Z * list Z)) :=
  let '(ip, path, name) := x in
  match skipelem path name with
  | None => if nameiparent then iput ip ;; ret (inr (0, name)) else ret (inr (ip, name))
  | Some (path, name) =>
      ilock ip ;;
      i ← get_inode ip ;
      if negb (i_type i =? T_DIR) then iunlockput ip ;; ret (inr (0, name)) else
      if nameiparent && (peek path =? 0) then iunlock ip ;; ret (inr (ip, name)) else
      r ← dirlookup ip name ;
      let '(next, _) := r : Z * Z in
      if next =? 0 then iunlockput ip ;; ret (inr (0, name)) else
      (iunlockput ip ;; ret (inl (next, path, name)))
  end.

Definition namex (path : list Z) (nameiparent : bool) (name : list Z) : M (fst S) (Z * list Z) :=
  ip ← (if peek path =? SLASH then iget ROOTDEV ROOTINO
        else c ← gets cwd ; idup c) ;
  while_ (namex_step nameiparent) (ip, path, name).

Definition namei (path : list Z) : M (fst S) Z :=
  r ← namex path false (replicate (Z.to_nat DIRSIZ) 0) ;
  ret r.1.

Definition nameiparent (path name : list Z) : M (fst S) (Z * list Z) := namex path true name.

End Fs.
