(* ===== verification/FsBlock.v ===== *)
(** * The block allocator of [fs.c]

    A calculus for the file system's block accesses: [at_ s s0 v] says that [s]
    is [s0] except for the block layer, whose view is [v].  [budget] counts the
    blocks an operation may still add to the transaction.  On top of it, [balloc]
    and [bfree] are specified by their effect on the free bitmap. *)
From stdpp Require Import base list gmap strings.
From Stdlib Require Import ZArith Lia.
From S2P Require Import Prelude KString Riscv Kalloc Vm Sleeplock Bio Blocks Fs.

#[local] Open Scope Z_scope.
#[local] Open Scope xv6_scope.

(** Block [n] gets the contents [d] and is part of the transaction. *)
Definition v_write (v : bview) (n : Z) (d : block) : bview :=
  v <| v_data := upd (v_data v) n d |> <| v_pins := {[n]} ∪ v_pins v |>.

Lemma v_rel_get v n b : v_held v !! n = None -> v_rel (v_get v n b) n = v.
Proof. intros H. destruct v as [d h p q]. cbn in *. unfold v_rel, v_get, field_update. cbn. by rewrite delete_insert_id. Qed.

Lemma v_write_get v n b d :
  v_held v !! n = None -> v_dirty v = ∅ ->
  v_rel (v_log (v_put (v_get v n b) n d) n) n = v_write v n d.
Proof.
  intros Hh Hd. destruct v as [dt h p q]. cbn in *. subst q.
  unfold v_rel, v_log, v_put, v_get, v_write, field_update. cbn.
  f_equal; [by rewrite delete_insert_id|]. case_decide; set_solver.
Qed.

Section Budget.

Context (D : device).

(** [k] blocks besides those of [C] may still be logged. *)
Definition budget (C : gset Z) (v : bview) (k : Z) : Prop :=
  Z.of_nat (size (v_pins v ∪ C)) + k <= d_lim D /\ Z.of_nat (size (v_used v ∪ C)) + k <= NBUF.

Lemma size_union_le (X Y : gset Z) n : Z.of_nat (size ({[n]} ∪ X ∪ Y)) <= 1 + Z.of_nat (size (X ∪ Y)).
Proof.
  assert (H : {[n]} ∪ X ∪ Y ⊆ {[n]} ∪ (X ∪ Y)) by set_solver. apply subseteq_size in H.
  pose proof (size_union_alt {[n]} (X ∪ Y)) as E. rewrite size_singleton in E.
  assert (size ((X ∪ Y) ∖ {[n]}) <= size (X ∪ Y))%nat by (apply subseteq_size; set_solver). lia.
Qed.

Lemma budget_write C v n d k : budget C v (k + 1) -> budget C (v_write v n d) k.
Proof.
  unfold budget, v_used. cbn. intros [H1 H2].
  pose proof (size_union_le (v_pins v) C n).
  assert (E : dom (v_held v) ∪ ({[n]} ∪ v_pins v) ∪ C = {[n]} ∪ (dom (v_held v) ∪ v_pins v) ∪ C) by set_solver.
  rewrite E. pose proof (size_union_le (dom (v_held v) ∪ v_pins v) C n). lia.
Qed.

Lemma budget_absorb C v n d k : n ∈ C \/ n ∈ v_pins v -> budget C v k -> budget C (v_write v n d) k.
Proof.
  unfold budget, v_used. cbn. intros Hn [H1 H2].
  assert (E : {[n]} ∪ v_pins v ∪ C = v_pins v ∪ C) by set_solver. rewrite E.
  assert (E2 : dom (v_held v) ∪ ({[n]} ∪ v_pins v) ∪ C = dom (v_held v) ∪ v_pins v ∪ C) by set_solver.
  by rewrite E2.
Qed.

Lemma budget_mono C v k k' : k' <= k -> budget C v k -> budget C v k'.
Proof. unfold budget. lia. Qed.

(** Holding a buffer takes one from the budget, at most. *)
Lemma budget_get C v n b k : budget C v (k + 1) -> budget C (v_get v n b) k.
Proof.
  unfold budget, v_used. cbn. intros [H1 H2]. rewrite dom_insert_L.
  assert (E : {[n]} ∪ dom (v_held v) ∪ v_pins v ∪ C = {[n]} ∪ (dom (v_held v) ∪ v_pins v) ∪ C) by set_solver.
  rewrite E. pose proof (size_union_le (dom (v_held v) ∪ v_pins v) C n). lia.
Qed.

Lemma budget_used C v k : budget C v k -> 1 <= k -> (size (v_used v) < Z.to_nat NBUF)%nat.
Proof.
  intros [_ H] Hk. assert (size (v_used v) <= size (v_used v ∪ C))%nat by (apply subseteq_size; set_solver). lia.
Qed.

Lemma budget_pins C v k : budget C v k -> 1 <= k -> Z.of_nat (size (v_pins v)) < d_lim D.
Proof.
  intros [H _] Hk. assert (size (v_pins v) <= size (v_pins v ∪ C))%nat by (apply subseteq_size; set_solver). lia.
Qed.

End Budget.

Section Calculus.

Context {S : Type} {L : BlockLayer S} (D : device) (rep : S -> bview -> Prop) {HL : BlockLaws S D rep}.

Definition at_ (s s0 : fst S) (v : bview) : Prop := s = s0 <| blk := blk s |> /\ rep (blk s) v.

Lemma at_refl s v : rep (blk s) v -> at_ s s v.
Proof. intros H. split; [by destruct s|done]. Qed.

Lemma at_blk s s0 v b v' : at_ s s0 v -> rep b v' -> at_ (s <| blk := b |>) s0 v'.
Proof. intros [-> _] H. split; done. Qed.

Lemma at_sb s s0 v : at_ s s0 v -> sb s = sb s0.
Proof. by intros [-> _]. Qed.

Lemma at_trans s s1 s0 v v1 : at_ s s1 v -> at_ s1 s0 v1 -> at_ s s0 v.
Proof. intros [E H] [E1 _]. split; [|done]. rewrite E, E1. done. Qed.

Section Steps.

Context {A : Type} (Q : A -> fst S -> Prop) (s s0 : fst S) (v : bview).
Hypothesis R : at_ s s0 v.

Lemma at_fread n (k : Z -> M (fst S) A) :
  v_held v !! n = None -> (size (v_used v) < Z.to_nat NBUF)%nat ->
  (forall b s', at_ s' s0 (v_get v n b) -> wp (k b) Q s') -> wp (bind (fread (d_dev D) n) k) Q s.
Proof.
  intros Hh Hs Hk. destruct R as [E Hr]. apply wp_bind, wp_zoom.
  eapply wp_mono; [apply (bl_bread_law _ _ _ Hr Hh Hs)|]. intros b s' H. apply Hk. by eapply at_blk.
Qed.

Lemma at_fdata n b (k : block -> M (fst S) A) :
  v_held v !! n = Some b -> wp (k (v_data v n)) Q s -> wp (bind (fdata b) k) Q s.
Proof. intros Hh Hk. destruct R as [E Hr]. apply wp_gets. by rewrite (bl_data_law _ _ _ _ Hr Hh). Qed.

Lemma at_fset n b d (k : unit -> M (fst S) A) :
  v_held v !! n = Some b -> (forall s', at_ s' s0 (v_put v n d) -> wp (k tt) Q s') -> wp (bind (fset b d) k) Q s.
Proof.
  intros Hh Hk. destruct R as [E Hr]. apply wp_bind, wp_zoom.
  eapply wp_mono; [apply (bl_set_law _ _ _ _ d Hr Hh)|]. intros [] s' H. apply Hk. by eapply at_blk.
Qed.

Lemma at_flog_write n b (k : unit -> M (fst S) A) :
  v_held v !! n = Some b -> Z.of_nat (size (v_pins v)) < d_lim D -> d_ok D n ->
  (forall s', at_ s' s0 (v_log v n) -> wp (k tt) Q s') -> wp (bind (flog_write b) k) Q s.
Proof.
  intros Hh Hp Ho Hk. destruct R as [E Hr]. apply wp_bind, wp_zoom.
  eapply wp_mono; [apply (bl_log_write_law _ _ _ _ Hr Hh Hp Ho)|]. intros [] s' H. apply Hk. by eapply at_blk.
Qed.

Lemma at_frelse n b (k : unit -> M (fst S) A) :
  v_held v !! n = Some b -> n ∉ v_dirty v ->
  (forall s', at_ s' s0 (v_rel v n) -> wp (k tt) Q s') -> wp (bind (frelse b) k) Q s.
Proof.
  intros Hh Hd Hk. destruct R as [E Hr]. apply wp_bind, wp_zoom.
  eapply wp_mono; [apply (bl_brelse_law _ _ _ _ Hr Hh Hd)|]. intros [] s' H. apply Hk. by eapply at_blk.
Qed.

End Steps.

(** The end of every update of a block: store, log, release. *)
Lemma at_update {A} (Q : A -> fst S -> Prop) s s0 v n b d (k : unit -> M (fst S) A) :
  at_ s s0 (v_get v n b) -> v_held v !! n = None -> v_dirty v = ∅ ->
  Z.of_nat (size (v_pins v)) < d_lim D -> d_ok D n ->
  (forall s', at_ s' s0 (v_write v n d) -> wp (k tt) Q s') ->
  wp (bind (fset b d) (fun _ => bind (flog_write b) (fun _ => bind (frelse b) k))) Q s.
Proof.
  intros R Hh Hd Hp Ho Hk.
  eapply (at_fset _ _ _ _ R n); [cbn; apply lookup_insert_eq|]. intros s1 R1.
  eapply (at_flog_write _ _ _ _ R1 n); [cbn; apply lookup_insert_eq|done|done|]. intros s2 R2.
  eapply (at_frelse _ _ _ _ R2 n); [cbn; apply lookup_insert_eq|cbn; set_solver|]. intros s3 R3.
  apply Hk. by rewrite v_write_get in R3.
Qed.

Lemma at_update_end (Q : unit -> fst S -> Prop) s s0 v n b d :
  at_ s s0 (v_get v n b) -> v_held v !! n = None -> v_dirty v = ∅ ->
  Z.of_nat (size (v_pins v)) < d_lim D -> d_ok D n ->
  (forall s', at_ s' s0 (v_write v n d) -> Q tt s') ->
  wp (bind (fset b d) (fun _ => bind (flog_write b) (fun _ => frelse b))) Q s.
Proof.
  intros R Hh Hd Hp Ho Hk. pose proof (at_update Q s s0 v n b d ret R Hh Hd Hp Ho Hk) as H.
  unfold wp, bind, ret in *. destruct (fset b d s) as [? s1| |]; [|done..].
  destruct (flog_write b s1) as [? s2| |]; [|done..]. destruct (frelse b s2) as [[] s3| |]; done.
Qed.

(** Release of a block that was only read. *)
Lemma at_release {A} (Q : A -> fst S -> Prop) s s0 v n b (k : unit -> M (fst S) A) :
  at_ s s0 (v_get v n b) -> v_held v !! n = None -> v_dirty v = ∅ ->
  (forall s', at_ s' s0 v -> wp (k tt) Q s') -> wp (bind (frelse b) k) Q s.
Proof.
  intros R Hh Hd Hk. eapply (at_frelse _ _ _ _ R n); [cbn; apply lookup_insert_eq|cbn; rewrite Hd; set_solver|].
  intros s1 R1. apply Hk. by rewrite v_rel_get in R1.
Qed.

Lemma bzero_spec s s0 v bno :
  at_ s s0 v -> v_held v !! bno = None -> v_dirty v = ∅ -> (size (v_used v) < Z.to_nat NBUF)%nat ->
  Z.of_nat (size (v_pins v)) < d_lim D -> d_ok D bno ->
  wp (bzero (d_dev D) bno) (fun _ s' => at_ s' s0 (v_write v bno zero_block)) s.
Proof.
  intros R Hh Hd Hs Hp Ho. unfold bzero. eapply (at_fread _ _ _ _ R bno); auto. intros b s1 R1.
  by apply (at_update_end _ s1 s0 v bno b).
Qed.

End Calculus.

(** ** Bits of a bitmap block *)

Definition block_ok (d : list Z) : Prop := length d = Z.to_nat BSIZE /\ Forall is_byte d.

Lemma get_bit_testbit d bi : 0 <= bi -> get_bit d bi = Z.testbit (default 0 (d !! bit_byte bi)) (bi mod 8).
Proof.
  intros Hbi. unfold get_bit, bit_mask. set (x := default 0 _). set (k := bi mod 8).
  assert (Hk : 0 <= k < 8) by (unfold k; apply Z.mod_pos_bound; lia). rewrite Z.shiftl_1_l.
  destruct (Z.testbit x k) eqn:E.
  - apply negb_true_iff, Z.eqb_neq. intros H. assert (Hb : Z.testbit (Z.land x (2 ^ k)) k = false) by (rewrite H; apply Z.bits_0).
    rewrite Z.land_spec, E, Z.pow2_bits_true in Hb by lia. done.
  - apply negb_false_iff, Z.eqb_eq. apply Z.bits_inj'. intros n Hn. rewrite Z.land_spec, Z.bits_0.
    rewrite Z.pow2_bits_eqb by lia. destruct (Z.eqb_spec k n) as [->|]; [by rewrite E|by rewrite andb_false_r].
Qed.

Lemma bit_byte_lt (d : list Z) bi : length d = Z.to_nat BSIZE -> 0 <= bi < BPB -> (bit_byte bi < length d)%nat.
Proof. intros -> H. unfold bit_byte, BPB, BSIZE in *. zlia. Qed.

Lemma bit_place bi bi' : 0 <= bi -> 0 <= bi' -> bit_byte bi = bit_byte bi' -> bi mod 8 = bi' mod 8 -> bi = bi'.
Proof. unfold bit_byte. intros. zlia. Qed.

Lemma get_set_bit d bi bi' :
  length d = Z.to_nat BSIZE -> 0 <= bi < BPB -> 0 <= bi' ->
  get_bit (set_bit d bi) bi' = if decide (bi' = bi) then true else get_bit d bi'.
Proof.
  intros Hl Hbi Hbi'. rewrite !get_bit_testbit by lia. unfold set_bit. pose proof (bit_byte_lt d bi Hl Hbi).
  assert (0 <= bi mod 8 < 8) by (apply Z.mod_pos_bound; lia). assert (0 <= bi' mod 8 < 8) by (apply Z.mod_pos_bound; lia).
  destruct (decide (bit_byte bi' = bit_byte bi)) as [E|E].
  - rewrite E, list_lookup_insert_eq by done. cbn. unfold bit_mask.
    rewrite Z.lor_spec, Z.shiftl_1_l, Z.pow2_bits_eqb by lia. destruct (Z.eqb_spec (bi mod 8) (bi' mod 8)) as [E'|E'].
    + rewrite decide_True; [apply orb_true_r|]. apply bit_place; auto; lia.
    + rewrite decide_False by (intros ->; done). by rewrite orb_false_r.
  - rewrite list_lookup_insert_ne by congruence. by rewrite decide_False by congruence.
Qed.

Lemma get_clear_bit d bi bi' :
  length d = Z.to_nat BSIZE -> 0 <= bi < BPB -> 0 <= bi' ->
  get_bit (clear_bit d bi) bi' = if decide (bi' = bi) then false else get_bit d bi'.
Proof.
  intros Hl Hbi Hbi'. rewrite !get_bit_testbit by lia. unfold clear_bit. pose proof (bit_byte_lt d bi Hl Hbi).
  assert (0 <= bi mod 8 < 8) by (apply Z.mod_pos_bound; lia). assert (0 <= bi' mod 8 < 8) by (apply Z.mod_pos_bound; lia).
  destruct (decide (bit_byte bi' = bit_byte bi)) as [E|E].
  - rewrite E, list_lookup_insert_eq by done. cbn. unfold bit_mask.
    rewrite Z.ldiff_spec, Z.shiftl_1_l, Z.pow2_bits_eqb by lia. destruct (Z.eqb_spec (bi mod 8) (bi' mod 8)) as [E'|E'].
    + rewrite decide_True; [apply andb_false_r|]. apply bit_place; auto; lia.
    + rewrite decide_False by (intros ->; done). by rewrite andb_true_r.
  - rewrite list_lookup_insert_ne by congruence. by rewrite decide_False by congruence.
Qed.

Lemma byte_log2 x : 0 <= x -> is_byte x <-> Z.log2 x < 8.
Proof.
  intros H. unfold is_byte. destruct (decide (x = 0)) as [->|]; [done|].
  change 256 with (2 ^ 8). rewrite <- Z.log2_lt_pow2 by lia. lia.
Qed.

Lemma set_bit_ok d bi : block_ok d -> 0 <= bi -> block_ok (set_bit d bi).
Proof.
  intros [Hl Hb] Hbi. split; [unfold set_bit; by rewrite length_insert|]. apply Forall_insert; [done|].
  assert (Hx : is_byte (default 0 (d !! bit_byte bi))).
  { destruct (d !! bit_byte bi) eqn:E; cbn; [|done]. by eapply Forall_lookup_1 in E. }
  assert (0 <= bi mod 8 < 8) by (apply Z.mod_pos_bound; lia). unfold bit_mask. rewrite Z.shiftl_1_l.
  assert (Hp : 0 < 2 ^ (bi mod 8)) by (apply Z.pow_pos_nonneg; lia). destruct Hx as [Hx1 Hx2].
  apply byte_log2; [apply Z.lor_nonneg; lia|]. rewrite Z.log2_lor by lia. rewrite Z.log2_pow2 by lia.
  apply Z.max_lub_lt; [|lia]. apply byte_log2; done.
Qed.

Lemma clear_bit_ok d bi : block_ok d -> block_ok (clear_bit d bi).
Proof.
  intros [Hl Hb]. split; [unfold clear_bit; by rewrite length_insert|]. apply Forall_insert; [done|].
  assert (Hx : is_byte (default 0 (d !! bit_byte bi))).
  { destruct (d !! bit_byte bi) eqn:E; cbn; [|done]. by eapply Forall_lookup_1 in E. }
  destruct Hx as [Hx1 Hx2]. set (x := default 0 _) in *.
  assert (Hn : 0 <= Z.ldiff x (bit_mask bi) <= x).
  { apply Z.ldiff_le; [done|]. apply Z.bits_inj'. intros n Hn. rewrite !Z.ldiff_spec, Z.bits_0.
    destruct (Z.testbit x n), (Z.testbit (bit_mask bi) n); done. }
  unfold is_byte. lia.
Qed.

Lemma zero_block_ok : block_ok zero_block.
Proof. split; [apply length_replicate|]. apply Forall_replicate. done. Qed.

(** [free_bit] finds the first clear bit. *)
Lemma free_bit_spec n d b bi size :
  match free_bit n d b bi size with
  | Some k => bi <= k < bi + Z.of_nat n /\ b + k < size /\ get_bit d k = false /\
              forall j, bi <= j < k -> get_bit d j = true
  | None => forall j, bi <= j < bi + Z.of_nat n -> b + j < size -> get_bit d j = true
  end.
Proof.
  revert bi. induction n as [|n IH]; intros bi; cbn [free_bit]; [intros; lia|].
  destruct (Z.ltb_spec (b + bi) size) as [Hlt|Hge]; cbn [negb]; [|intros; lia].
  destruct (get_bit d bi) eqn:E; cbn [negb].
  - specialize (IH (bi + 1)). destruct (free_bit n d b (bi + 1) size) as [k|].
    + destruct IH as (H1 & H2 & H3 & H4). split_and!; [lia|lia|done|done|].
      intros j Hj. destruct (decide (j = bi)) as [->|]; [done|apply H4; lia].
    + intros j Hj Hs. destruct (decide (j = bi)) as [->|]; [done|apply IH; lia].
  - split_and!; [lia|lia|done|done|]. intros; lia.
Qed.

(** ** The layout of a file system and its bitmap *)

Record layout (D : device) (sb : superblock) (dstart : Z) : Prop := {
  ly_start : 0 <= sb_inodestart sb;
  ly_inodes : 0 <= sb_ninodes sb /\ sb_inodestart sb + (sb_ninodes sb + IPB - 1) / IPB <= sb_bmapstart sb;
  ly_bmap : sb_bmapstart sb + (sb_size sb + BPB - 1) / BPB <= dstart;
  ly_data : 0 < dstart <= sb_size sb;
  ly_size : sb_size sb < 2 ^ 31;
  ly_ok : forall n, sb_inodestart sb <= n < sb_size sb -> d_ok D n;
}.

(** Is block [b] in use? *)
Definition used (v : bview) (sb : superblock) (b : Z) : bool := get_bit (v_data v (BBLOCK b sb)) (b mod BPB).

(** A block of the bitmap. *)
Definition bmap_block (sb : superblock) (n : Z) : Prop :=
  sb_bmapstart sb <= n < sb_bmapstart sb + (sb_size sb + BPB - 1) / BPB.

Ltac fslia := change IPB with 16 in *; change BPB with 8192 in *; change BSIZE with 1024 in *; zlia.

Section Layout.

Context (D : device) (sb : superblock) (dstart : Z).
Hypothesis LY : layout D sb dstart.

Lemma BBLOCK_eq b : 0 <= b < sb_size sb -> BBLOCK b sb = b / BPB + sb_bmapstart sb /\ bmap_block sb (BBLOCK b sb).
Proof.
  intros Hb. destruct LY. unfold BBLOCK, bmap_block in *. rewrite u32_small by fslia. fslia.
Qed.

Lemma bmap_block_meta n : bmap_block sb n -> sb_inodestart sb <= n < dstart.
Proof. destruct LY. unfold bmap_block in *. fslia. Qed.

Lemma IBLOCK_eq i : 0 <= i < sb_ninodes sb ->
  IBLOCK i sb = i / IPB + sb_inodestart sb /\ sb_inodestart sb <= IBLOCK i sb < sb_bmapstart sb.
Proof. intros Hi. destruct LY. unfold IBLOCK in *. rewrite u32_small by fslia. fslia. Qed.

Lemma meta_ok n : sb_inodestart sb <= n < dstart -> d_ok D n.
Proof. intros H. destruct LY. apply ly_ok0. lia. Qed.

Lemma data_ok n : dstart <= n < sb_size sb -> d_ok D n.
Proof. intros H. destruct LY. apply ly_ok0. fslia. Qed.

Lemma BBLOCK_inj b b' : 0 <= b < sb_size sb -> 0 <= b' < sb_size sb ->
  BBLOCK b sb = BBLOCK b' sb -> b mod BPB = b' mod BPB -> b = b'.
Proof. intros Hb Hb'. destruct (BBLOCK_eq b Hb) as [-> _], (BBLOCK_eq b' Hb') as [-> _]. fslia. Qed.

End Layout.

(** The view after [balloc] has taken block [b] and after [bfree] has given it
    back. *)
Definition v_alloc (v : bview) (sb : superblock) (b : Z) : bview :=
  v_write (v_write v (BBLOCK b sb) (set_bit (v_data v (BBLOCK b sb)) (b mod BPB))) b zero_block.
Definition v_free (v : bview) (sb : superblock) (b : Z) : bview :=
  v_write v (BBLOCK b sb) (clear_bit (v_data v (BBLOCK b sb)) (b mod BPB)).

(** What holds between the steps of an operation: no change is left unlogged, the
    bitmap is not locked, every block below the data area is marked as in use. *)
Record quiet (sb : superblock) (dstart : Z) (C : gset Z) (v : bview) : Prop := {
  qt_dirty : v_dirty v = ∅;
  qt_bmap : forall n, bmap_block sb n -> v_held v !! n = None;
  qt_free : forall b, 0 <= b < sb_size sb -> used v sb b = false -> v_held v !! b = None;
  qt_meta : forall b, 0 <= b < dstart -> used v sb b = true;
  qt_block : forall n, block_ok (v_data v n);
  qt_C : forall n, bmap_block sb n -> n ∈ C;
}.

Section Alloc.

Context {S : Type} {L : BlockLayer S} (D : device) (rep : S -> bview -> Prop) {HL : BlockLaws S D rep}.
Context (sb0 : superblock) (dstart : Z) (LY : layout D sb0 dstart) (C : gset Z).

Abbreviation quiet := (quiet sb0 dstart C).
Abbreviation budget := (budget D C).
Abbreviation at_ := (at_ rep).

Lemma used_alloc v b b' :
  quiet v -> dstart <= b < sb_size sb0 -> 0 <= b' < sb_size sb0 ->
  used (v_alloc v sb0 b) sb0 b' = if decide (b' = b) then true else used v sb0 b'.
Proof.
  intros Q Hb Hb'. unfold used, v_alloc. cbn. pose proof (ly_data _ _ _ LY).
  destruct (BBLOCK_eq D sb0 dstart LY b ltac:(lia)) as [_ M]. destruct (BBLOCK_eq D sb0 dstart LY b' Hb') as [_ M'].
  pose proof (bmap_block_meta D sb0 dstart LY _ M). pose proof (bmap_block_meta D sb0 dstart LY _ M').
  rewrite upd_other by lia. destruct (decide (BBLOCK b' sb0 = BBLOCK b sb0)) as [E|E].
  - rewrite E, upd_same, get_set_bit; [|apply Q|fslia..].
    destruct (decide (b' = b)) as [->|Hne]; [by rewrite decide_True|]. rewrite decide_False; [done|].
    intros Hm. apply Hne. by apply (BBLOCK_inj D sb0 dstart LY b' b); [|lia| |].
  - rewrite upd_other by done. by rewrite decide_False by congruence.
Qed.

Lemma used_free v b b' :
  quiet v -> 0 <= b < sb_size sb0 -> 0 <= b' < sb_size sb0 ->
  used (v_free v sb0 b) sb0 b' = if decide (b' = b) then false else used v sb0 b'.
Proof.
  intros Q Hb Hb'. unfold used, v_free. cbn. destruct (decide (BBLOCK b' sb0 = BBLOCK b sb0)) as [E|E].
  - rewrite E, upd_same, get_clear_bit; [|apply Q|fslia..].
    destruct (decide (b' = b)) as [->|Hne]; [by rewrite decide_True|]. rewrite decide_False; [done|].
    intros Hm. apply Hne. by apply (BBLOCK_inj D sb0 dstart LY b' b).
  - rewrite upd_other by done. by rewrite decide_False by congruence.
Qed.

Lemma quiet_alloc v b : quiet v -> dstart <= b < sb_size sb0 -> quiet (v_alloc v sb0 b).
Proof.
  intros Q Hb. pose proof (ly_data _ _ _ LY). split; try apply Q.
  - intros b' Hb' Hx. rewrite (used_alloc v b b') in Hx by (done || lia). cbn. case_decide; [done|]. by apply (qt_free _ _ _ _ Q).
  - intros b' Hb'. rewrite (used_alloc v b b') by (done || lia). case_decide; [done|]. by apply (qt_meta _ _ _ _ Q).
  - intros n. unfold v_alloc. cbn. unfold upd. destruct (Z.eqb_spec n b); [apply zero_block_ok|].
    destruct (Z.eqb_spec n (BBLOCK b sb0)); [|apply Q]. apply set_bit_ok; [apply Q|fslia].
Qed.

Lemma quiet_free v b : quiet v -> dstart <= b < sb_size sb0 -> v_held v !! b = None -> quiet (v_free v sb0 b).
Proof.
  intros Q Hb Hh. pose proof (ly_data _ _ _ LY). split; try apply Q.
  - intros b' Hb' Hx. rewrite (used_free v b b') in Hx by (done || lia). cbn. case_decide; [by subst|]. by apply (qt_free _ _ _ _ Q).
  - intros b' Hb'. rewrite (used_free v b b') by (done || lia). rewrite decide_False by lia. by apply (qt_meta _ _ _ _ Q).
  - intros n. unfold v_free. cbn. unfold upd. destruct (Z.eqb_spec n (BBLOCK b sb0)); [|apply Q]. apply clear_bit_ok, Q.
Qed.

Lemma balloc_block_spec s s0 v b j :
  at_ s s0 v -> sb s0 = sb0 -> quiet v -> budget v 1 -> b = j * BPB -> 0 <= j -> b < sb_size sb0 ->
  wp (balloc_block (d_dev D) b) (fun r s' => match r with
    | inl b' => b' = b + BPB /\ at_ s' s0 v /\ forall n, b <= n < b + BPB -> n < sb_size sb0 -> used v sb0 n = true
    | inr n => b <= n < sb_size sb0 /\ dstart <= n /\ used v sb0 n = false /\ at_ s' s0 (v_alloc v sb0 n) /\
               forall n', b <= n' < n -> used v sb0 n' = true
    end) s.
Proof.
  intros R Es Q HB Hb Hj Hlt. pose proof (ly_data _ _ _ LY) as Hds. unfold balloc_block. apply wp_gets.
  rewrite (at_sb rep _ _ _ R), Es.
  rewrite (proj2 (Z.ltb_lt _ _)) by done. cbn [negb].
  assert (Hb0 : 0 <= b) by (change BPB with 8192 in Hb; lia).
  destruct (BBLOCK_eq D sb0 dstart LY b ltac:(lia)) as [EB M].
  pose proof (bmap_block_meta D sb0 dstart LY _ M) as HM.
  assert (Hu : forall k, 0 <= k < BPB -> b + k < sb_size sb0 -> used v sb0 (b + k) = get_bit (v_data v (BBLOCK b sb0)) k).
  { intros k Hk Hs. unfold used. destruct (BBLOCK_eq D sb0 dstart LY (b + k) ltac:(lia)) as [-> _]. rewrite EB.
    replace ((b + k) / BPB) with (b / BPB) by fslia. replace ((b + k) mod BPB) with k by fslia. done. }
  eapply (at_fread D rep _ _ _ _ R); [by apply Q|by apply (budget_used D C v 1)|]. intros bp s1 R1.
  eapply (at_fdata D rep _ _ _ _ R1); [cbn; apply lookup_insert_eq|]. cbn [v_data v_get field_update].
  pose proof (free_bit_spec (Z.to_nat BPB) (v_data v (BBLOCK b sb0)) b 0 (sb_size sb0)) as Hf.
  destruct (free_bit _ _ _ _ _) as [bi|].
  - destruct Hf as (Hbi & Hbs & Hg & Hl). assert (Hbi' : 0 <= bi < BPB) by (change BPB with 8192 in *; lia).
    assert (Hused : used v sb0 (b + bi) = false) by (by rewrite Hu).
    assert (Hn : dstart <= b + bi) by (destruct (decide (b + bi < dstart)); [rewrite (qt_meta _ _ _ _ Q) in Hused by lia; done|lia]).
    eapply (at_update D rep _ _ _ v (BBLOCK b sb0) bp); [exact R1|by apply Q|by apply Q|by apply (budget_pins D C v 1)|by apply (meta_ok D sb0 dstart LY)|].
    intros s2 R2. set (v2 := v_write _ _ _) in *.
    assert (HB2 : budget v2 1) by (apply budget_absorb; [left; by apply Q|done]).
    eapply wp_seq; [eapply (bzero_spec D rep s2 s0 v2 (b + bi) R2)|].
    + cbn. apply (qt_free _ _ _ _ Q); [lia|done].
    + apply Q.
    + by apply (budget_used D C v2 1).
    + by apply (budget_pins D C v2 1).
    + apply (ly_ok _ _ _ LY). lia.
    + intros [] s3 R3. apply wp_ret. split_and!; [lia|lia|done|done| |].
      * unfold v_alloc. destruct (BBLOCK_eq D sb0 dstart LY (b + bi) ltac:(lia)) as [E2 _].
        assert (Eb : BBLOCK (b + bi) sb0 = BBLOCK b sb0) by (rewrite E2, EB; fslia). rewrite Eb.
        replace ((b + bi) mod BPB) with bi by fslia. exact R3.
      * intros n' Hn'. replace n' with (b + (n' - b)) by lia. rewrite Hu by lia. apply Hl. lia.
  - eapply (at_release D rep _ _ _ v (BBLOCK b sb0) bp); [exact R1|by apply Q|by apply Q|]. intros s2 R2.
    apply wp_ret. split_and!; [done|done|]. intros n Hn Hs. replace n with (b + (n - b)) by lia.
    rewrite Hu by lia. apply Hf; [|lia]. change BPB with 8192 in *. lia.
Qed.

(** [balloc] takes the first free block. *)
Lemma balloc_spec s s0 v :
  at_ s s0 v -> sb s0 = sb0 -> quiet v -> budget v 1 ->
  (exists b, 0 <= b < sb_size sb0 /\ used v sb0 b = false) ->
  wp (balloc (d_dev D)) (fun b s' =>
    dstart <= b < sb_size sb0 /\ used v sb0 b = false /\ at_ s' s0 (v_alloc v sb0 b) /\
    forall b', 0 <= b' < b -> used v sb0 b' = true) s.
Proof.
  intros R Es Q HB (bf & Hbf & Hfree). pose proof (ly_size _ _ _ LY) as Hsz. unfold balloc.
  apply (wp_while _ (fun b s' => at_ s' s0 v /\ (exists j, b = j * BPB /\ 0 <= j) /\
      (forall n, 0 <= n < b -> n < sb_size sb0 -> used v sb0 n = true)) _ (fun b => 2 ^ 32 - b)).
  - intros b s1 (R1 & (j & Ej & Hj) & Hall).
    assert (Hlt : b < sb_size sb0) by (destruct (decide (b <= bf)); [lia|rewrite Hall in Hfree by lia; done]).
    eapply wp_mono; [by apply (balloc_block_spec s1 s0 v b j)|]. intros [b'|n] s2.
    + intros (-> & R2 & Hu). split; [|change BPB with 8192; lia]. split_and!; [done|exists (j + 1); change BPB with 8192 in *; lia|].
      intros n Hn Hs. destruct (decide (n < b)); [apply Hall; lia|apply Hu; lia].
    + intros (H1 & H2 & H3 & H4 & H5). split_and!; [lia|lia|done|done|].
      intros b' Hb'. destruct (decide (b' < b)); [apply Hall; lia|apply H5; lia].
  - split_and!; [done|exists 0; lia|]. intros; lia.
  - intros b s1 (_ & (j & Ej & Hj) & Hall).
    assert (Hlt : b < sb_size sb0) by (destruct (decide (b <= bf)); [lia|rewrite Hall in Hfree by lia; done]). zpow. lia.
  - zpow. lia.
Qed.

(** [bfree] of a block in use. *)
Lemma bfree_spec s s0 v b :
  at_ s s0 v -> sb s0 = sb0 -> quiet v -> budget v 1 -> 0 <= b < sb_size sb0 -> used v sb0 b = true ->
  wp (bfree (d_dev D) b) (fun _ s' => at_ s' s0 (v_free v sb0 b)) s.
Proof.
  intros R Es Q HB Hb Hu. unfold bfree. apply wp_gets. rewrite (at_sb rep _ _ _ R), Es.
  destruct (BBLOCK_eq D sb0 dstart LY b Hb) as [EB M]. pose proof (bmap_block_meta D sb0 dstart LY _ M) as HM.
  eapply (at_fread D rep _ _ _ _ R); [by apply Q|by apply (budget_used D C v 1)|]. intros bp s1 R1.
  eapply (at_fdata D rep _ _ _ _ R1); [cbn; apply lookup_insert_eq|]. cbn [v_data v_get field_update].
  unfold used in Hu. change (v_data (v_get v (BBLOCK b sb0) bp)) with (v_data v). rewrite Hu. cbn [negb].
  eapply (at_update_end D rep _ _ _ v (BBLOCK b sb0) bp); [exact R1|by apply Q|by apply Q|by apply (budget_pins D C v 1)|by apply (meta_ok D sb0 dstart LY)|].
  done.
Qed.

(** Freeing a free block is a panic. *)
Lemma bfree_twice s s0 v b :
  at_ s s0 v -> sb s0 = sb0 -> quiet v -> budget v 1 -> 0 <= b < sb_size sb0 -> used v sb0 b = false ->
  bfree (d_dev D) b s = Panic "freeing free block".
Proof.
  intros [E Hr] Es Q HB Hb Hu. unfold bfree, bind at 1, gets at 1.
  assert (Esb : sb s = sb0) by (by rewrite E, <- Es). rewrite Esb.
  destruct (BBLOCK_eq D sb0 dstart LY b Hb) as [EB M].
  pose proof (bl_bread_law (blk s) v (BBLOCK b sb0) Hr (qt_bmap _ _ _ _ Q _ M) (budget_used D C v 1 HB ltac:(lia))) as H.
  apply wp_Ok in H as (bp & s1 & E1 & H1). unfold bind at 1, fread, in_blk, zoom. rewrite E1.
  unfold bind, fdata, gets. cbn. rewrite (bl_data_law s1 _ (BBLOCK b sb0) bp H1) by (cbn; apply lookup_insert_eq).
  unfold used in Hu. cbn. by rewrite Hu.
Qed.

End Alloc.
