(* ===== verification/FsInode.v ===== *)
(** * Inode content: [bmap], [readi], [writei]

    The blocks of a file are those [bmap] finds: twelve direct ones and those of
    the indirect block.  [fmap_] is that mapping, [fbyte] the contents of the
    file it gives, [iwf] the invariant of an inode's blocks, and [grow] what an
    operation that allocates blocks for a file leaves alone. *)
From stdpp Require Import base list gmap strings.
From Stdlib Require Import ZArith Lia.
From S2P Require Import Prelude KString Riscv Kalloc Vm Sleeplock Bio Blocks Fs FsBlock.

#[local] Open Scope Z_scope.
#[local] Open Scope xv6_scope.

(** The block number [bmap] returns, 0 when there is none. *)
Definition fmap_ (v : bview) (i : inode) (bn : Z) : Z :=
  if bn <? NDIRECT then i_addr i bn
  else if i_addr i NDIRECT =? 0 then 0 else get_word (v_data v (i_addr i NDIRECT)) (bn - NDIRECT).

(** Byte [off] of the file. *)
Definition fbyte (v : bview) (i : inode) (off : Z) : Z :=
  let a := fmap_ v i (off / BSIZE) in
  if a =? 0 then 0 else default 0 (v_data v a !! Z.to_nat (off mod BSIZE)).

Ltac finlia := change NDIRECT with 12 in *; change NINDIRECT with 256 in *; change MAXFILE with 268 in *; fslia.

Lemma get_word_set d j a j' :
  length d = Z.to_nat BSIZE -> 0 <= j < NINDIRECT -> 0 <= j' < NINDIRECT ->
  get_word (set_word d j a) j' = if decide (j' = j) then u32 a else get_word d j'.
Proof.
  intros Hl Hj Hj'. unfold get_word, set_word. change BSIZE with 1024 in *. change NINDIRECT with 256 in *.
  destruct (decide (j' = j)) as [->|].
  - rewrite get_put_le by lia. done.
  - apply get_put_le_other; lia.
Qed.

Lemma set_word_ok d j a : block_ok d -> 0 <= j < NINDIRECT -> block_ok (set_word d j a).
Proof.
  intros [Hl Hb] Hj. change BSIZE with 1024 in *. change NINDIRECT with 256 in *. unfold set_word. split.
  - rewrite length_put_le; change BSIZE with 1024; lia.
  - unfold put_le. apply Forall_splice; [apply le_bytes_byte|done].
Qed.

Lemma le_val_zeros n : le_val (replicate n 0) = 0.
Proof. induction n as [|n IH]; cbn; [done|]. by rewrite IH. Qed.

Lemma get_word_zero j : get_word zero_block j = 0.
Proof.
  unfold get_word, get_le, slice, zero_block. rewrite drop_replicate, take_replicate. apply le_val_zeros.
Qed.

Lemma i_addr_set i n a n' :
  length (i_addrs i) = 13%nat -> 0 <= n <= NDIRECT -> 0 <= n' ->
  i_addr (i <| i_addrs := <[Z.to_nat n := a]> (i_addrs i) |>) n' = if decide (n' = n) then a else i_addr i n'.
Proof.
  intros Hl Hn Hn'. change NDIRECT with 12 in Hn. unfold i_addr. cbn. destruct (decide (n' = n)) as [->|].
  - rewrite list_lookup_insert_eq by lia. done.
  - rewrite list_lookup_insert_ne by lia. done.
Qed.

Section Inode.

Context {S : Type} {L : BlockLayer S} (D : device) (rep : S -> bview -> Prop) {HL : BlockLaws S D rep}.
Context (sb0 : superblock) (dstart : Z) (LY : layout D sb0 dstart) (C : gset Z).

Abbreviation quiet := (quiet sb0 dstart C).
Abbreviation budget := (budget D C).
Abbreviation at_ := (at_ rep).

(** A block of the data area that is in use and not locked. *)
Definition owned_block (v : bview) (a : Z) : Prop :=
  dstart <= a < sb_size sb0 /\ used v sb0 a = true /\ v_held v !! a = None.

Record iwf (v : bview) (i : inode) : Prop := {
  iw_len : length (i_addrs i) = 13%nat;
  iw_dev : i_dev i = d_dev D;
  iw_data : forall bn, 0 <= bn < MAXFILE -> fmap_ v i bn <> 0 -> owned_block v (fmap_ v i bn);
  iw_ind : i_addr i NDIRECT <> 0 -> owned_block v (i_addr i NDIRECT);
  iw_inj : forall bn bn', 0 <= bn < MAXFILE -> 0 <= bn' < MAXFILE ->
    fmap_ v i bn <> 0 -> fmap_ v i bn = fmap_ v i bn' -> bn = bn';
  iw_sep : forall bn, 0 <= bn < MAXFILE -> fmap_ v i bn <> 0 -> fmap_ v i bn <> i_addr i NDIRECT;
}.

(** A block of the file or its indirect block. *)
Definition file_block (v : bview) (i : inode) (n : Z) : Prop :=
  n <> 0 /\ (n = i_addr i NDIRECT \/ exists bn, 0 <= bn < MAXFILE /\ n = fmap_ v i bn).

(** From [v] and [i] to [v'] and [i'] blocks may have been allocated for the
    file, whose bytes are now those of [g]; everything outside is the same: the
    only blocks that become used are blocks of the file. *)
Record fupd (g : Z -> Z) (v : bview) (i : inode) (v' : bview) (i' : inode) : Prop := {
  fu_rest : i' = i <| i_addrs := i_addrs i' |>;
  fu_addr : forall bn, 0 <= bn < MAXFILE -> fmap_ v i bn <> 0 -> fmap_ v' i' bn = fmap_ v i bn;
  fu_new : forall bn, 0 <= bn < MAXFILE -> fmap_ v' i' bn = fmap_ v i bn \/
    (used v sb0 (fmap_ v' i' bn) = false /\ dstart <= fmap_ v' i' bn < sb_size sb0);
  fu_byte : forall off, 0 <= off < MAXFILE * BSIZE -> fbyte v' i' off = g off;
  fu_ind : i_addr i' NDIRECT = i_addr i NDIRECT \/ i_addr i NDIRECT = 0 /\ used v sb0 (i_addr i' NDIRECT) = false /\ dstart <= i_addr i' NDIRECT < sb_size sb0;
  fu_used : forall b, 0 <= b < sb_size sb0 -> used v sb0 b = true -> used v' sb0 b = true;
  fu_bits : forall b, 0 <= b < sb_size sb0 -> used v sb0 b = false -> used v' sb0 b = true -> file_block v' i' b;
  fu_frame : forall n, v_data v' n = v_data v n \/ bmap_block sb0 n \/
    (dstart <= n < sb_size sb0 /\ used v sb0 n = false /\ file_block v' i' n) \/ file_block v i n;
  fu_held : v_held v' = v_held v;
}.

(** The contents of the file are the same. *)
Definition grow (v : bview) (i : inode) : bview -> inode -> Prop := fupd (fbyte v i) v i.

Lemma grow_refl v i : grow v i v i.
Proof. split; auto; [by destruct i|congruence]. Qed.

(** A file keeps its blocks. *)
Lemma fupd_block g v i v' i' n : fupd g v i v' i' -> file_block v i n -> file_block v' i' n.
Proof.
  intros U [Hn [->|(bn & Hbn & ->)]]; split; auto.
  - left. destruct (fu_ind _ _ _ _ _ U) as [E|[E _]]; [done|]. by rewrite E in Hn.
  - right. exists bn. split; [done|]. symmetry. by apply (fu_addr _ _ _ _ _ U).
Qed.

Lemma fupd_trans g g' v i v1 i1 v2 i2 : fupd g' v i v1 i1 -> fupd g v1 i1 v2 i2 -> fupd g v i v2 i2.
Proof.
  intros A0 B0. pose proof A0 as [A1 A2 AN A3 A4 A5 AB A6 A7]. pose proof B0 as [B1 B2 BN B3 B4 B5 BB B6 B7].
  assert (Hu : forall b, 0 <= b < sb_size sb0 -> used v1 sb0 b = false -> used v sb0 b = false).
  { intros b Hb Hf. destruct (used v sb0 b) eqn:E; [|done]. rewrite A5 in Hf; done. }
  pose proof (ly_data _ _ _ LY). split; auto.
  - rewrite B1, A1. done.
  - intros bn Hbn Hne. rewrite B2; [by apply A2|done|by rewrite A2].
  - intros bn Hbn. destruct (BN bn Hbn) as [->|[? ?]]; [by apply AN|]. right. split; [apply Hu; [lia|done]|done].
  - destruct B4 as [->|(B & B' & B'')]; [done|]. destruct A4 as [A|(A & A' & A'')].
    + right. rewrite <- A. split_and!; [done|apply Hu; [lia|done]|lia|lia].
    + rewrite B in A''. lia.
  - intros b Hb H1 H2. destruct (used v1 sb0 b) eqn:E; [|by apply BB]. apply (fupd_block _ _ _ _ _ _ B0). by apply AB.
  - intros n. destruct (B6 n) as [->|[?|[(? & ? & ?)|Hf]]]; [|auto| |].
    + destruct (A6 n) as [?|[?|[(? & ? & ?)|?]]]; auto. right. right. left. split_and!; auto; [lia..|]. by apply (fupd_block _ _ _ _ _ _ B0).
    + right. right. left. split_and!; auto; [lia..|]. apply Hu; [lia|done].
    + right. right. pose proof (fupd_block _ _ _ _ _ _ B0 Hf) as Hf2. destruct Hf as [Hn [->|(bn & Hbn & ->)]].
      * destruct A4 as [A|(A & A' & A'')]; [|by left]. rewrite A in *. right. split; auto.
      * destruct (AN bn Hbn) as [A|[? ?]]; [|by left]. rewrite A in *. right. split; eauto.
  - congruence.
Qed.

Lemma grow_trans v i v1 i1 v2 i2 : grow v i v1 i1 -> grow v1 i1 v2 i2 -> grow v i v2 i2.
Proof.
  intros A B. pose proof (fupd_trans _ _ _ _ _ _ _ _ A B) as T. destruct T. split; auto.
  intros off Ho. rewrite fu_byte0 by done. by apply A.
Qed.

(** *** Facts about a fresh block *)

Section Fresh.

Context (v : bview) (i : inode) (b : Z).
Hypothesis Q : quiet v.
Hypothesis W : iwf v i.
Hypothesis Hb : dstart <= b < sb_size sb0.
Hypothesis Hfree : used v sb0 b = false.

Lemma owned_ne a : owned_block v a -> a <> b.
Proof. intros (_ & Hu & _) ->. congruence. Qed.

Lemma owned_meta n a : owned_block v a -> bmap_block sb0 n -> n <> a.
Proof. intros (Ha & _) Hn ->. pose proof (bmap_block_meta D sb0 dstart LY _ Hn). lia. Qed.

Lemma alloc_data a : owned_block v a -> v_data (v_alloc v sb0 b) a = v_data v a.
Proof.
  intros Ha. unfold v_alloc. cbn. pose proof (ly_data _ _ _ LY). rewrite upd_other by (by apply owned_ne). apply upd_other.
  intros ->. destruct (BBLOCK_eq D sb0 dstart LY b ltac:(lia)) as [_ M]. by apply (owned_meta _ _ Ha M).
Qed.

Lemma alloc_new : v_data (v_alloc v sb0 b) b = zero_block.
Proof. unfold v_alloc. cbn. apply upd_same. Qed.

Lemma alloc_frame n : v_data (v_alloc v sb0 b) n = v_data v n \/ bmap_block sb0 n \/ n = b.
Proof.
  unfold v_alloc. cbn. unfold upd. pose proof (ly_data _ _ _ LY).
  destruct (Z.eqb_spec n b) as [->|]; [auto|]. destruct (Z.eqb_spec n (BBLOCK b sb0)) as [->|]; [|auto].
  right. left. apply (BBLOCK_eq D sb0 dstart LY b). lia.
Qed.

Lemma alloc_used b' : 0 <= b' < sb_size sb0 -> used v sb0 b' = true -> used (v_alloc v sb0 b) sb0 b' = true.
Proof. intros H1 H2. rewrite (used_alloc D sb0 dstart LY C v b b') by done. by case_decide. Qed.

Lemma alloc_owned a : owned_block v a -> owned_block (v_alloc v sb0 b) a.
Proof. intros (H1 & H2 & H3). pose proof (ly_data _ _ _ LY). split_and!; auto; try lia. apply alloc_used; [lia|done]. Qed.

Lemma alloc_owned_new : owned_block (v_alloc v sb0 b) b.
Proof.
  pose proof (ly_data _ _ _ LY). split_and!; auto; [lia|lia| |].
  - rewrite (used_alloc D sb0 dstart LY C v b b) by (done || lia). by rewrite decide_True.
  - apply (qt_free _ _ _ _ Q); [lia|done].
Qed.

Lemma alloc_bits b' : 0 <= b' < sb_size sb0 -> used v sb0 b' = false -> used (v_alloc v sb0 b) sb0 b' = true -> b' = b.
Proof. intros H1 H2. rewrite (used_alloc D sb0 dstart LY C v b b') by done. case_decide; [done|congruence]. Qed.

(** A block of zeros at a place of the file that had none. *)
Lemma place_block v' i' n0 :
  0 <= n0 < MAXFILE -> fmap_ v i n0 = 0 ->
  (forall bn, 0 <= bn < MAXFILE -> fmap_ v' i' bn = if decide (bn = n0) then b else fmap_ v i bn) ->
  length (i_addrs i') = 13%nat -> i_dev i' = i_dev i -> i_addr i' NDIRECT = i_addr i NDIRECT ->
  (forall a, owned_block v a -> a <> i_addr i NDIRECT -> v_data v' a = v_data v a) -> v_data v' b = zero_block ->
  (forall a, owned_block v a -> owned_block v' a) -> owned_block v' b ->
  iwf v' i' /\ forall off, 0 <= off < MAXFILE * BSIZE -> fbyte v' i' off = fbyte v i off.
Proof.
  intros Hn0 Hz Hm Hlen Hdev Hind Hdata Hnew Hown Hownb. pose proof (ly_data _ _ _ LY) as Hd. split; [split|].
  - done.
  - rewrite Hdev. apply W.
  - intros bn Hbn. rewrite Hm by done. case_decide; [done|]. intros Hne. by apply Hown, W.
  - rewrite Hind. intros Hne. by apply Hown, W.
  - intros bn bn' Hbn Hbn'. rewrite !Hm by done.
    repeat case_decide; subst; auto; intros Hne E.
    + exfalso. apply (owned_ne (fmap_ v i bn')); [apply W; [done|congruence]|done].
    + exfalso. apply (owned_ne (fmap_ v i bn)); [by apply W|done].
    + by apply (iw_inj _ _ W).
  - intros bn Hbn. rewrite Hm, Hind by done. case_decide; [|by apply W]. intros _ E.
    apply (owned_ne (i_addr i NDIRECT)); [apply W; lia|done].
  - intros off Ho. assert (Hbn : 0 <= off / BSIZE < MAXFILE) by finlia. unfold fbyte. rewrite Hm by done. case_decide as E.
    + rewrite E, Hz. cbn [Z.eqb]. destruct (Z.eqb_spec b 0); [done|]. rewrite Hnew. unfold zero_block.
      rewrite lookup_replicate_2; [done|]. change BSIZE with 1024 in *. zlia.
    + destruct (Z.eqb_spec (fmap_ v i (off / BSIZE)) 0); [done|]. rewrite Hdata; [done|by apply W|by apply W].
Qed.

(** The addresses of the file with a new direct block. *)
Lemma alloc_direct_fmap n bn : 0 <= n < NDIRECT -> 0 <= bn < MAXFILE ->
  fmap_ (v_alloc v sb0 b) (i <| i_addrs := <[Z.to_nat n := b]> (i_addrs i) |>) bn = if decide (bn = n) then b else fmap_ v i bn.
Proof.
  intros Hn Hbn. pose proof (iw_len _ _ W) as Hlen. unfold fmap_. rewrite !i_addr_set by (done || finlia).
  rewrite (decide_False (P := NDIRECT = n)) by lia. destruct (Z.ltb_spec bn NDIRECT); [done|].
  rewrite decide_False by lia. destruct (Z.eqb_spec (i_addr i NDIRECT) 0); [done|]. rewrite alloc_data; [done|by apply W].
Qed.

Lemma alloc_direct n :
  0 <= n < NDIRECT -> i_addr i n = 0 ->
  let i' := i <| i_addrs := <[Z.to_nat n := b]> (i_addrs i) |> in
  let v' := v_alloc v sb0 b in
  iwf v' i' /\ grow v i v' i' /\ fmap_ v' i' n = b.
Proof.
  intros Hn Hz i' v'. pose proof (iw_len _ _ W) as Hlen. pose proof (ly_data _ _ _ LY) as Hd.
  assert (Ha : forall n', 0 <= n' -> i_addr i' n' = if decide (n' = n) then b else i_addr i n').
  { intros n' Hn'. apply i_addr_set; auto. finlia. }
  assert (Hind : i_addr i' NDIRECT = i_addr i NDIRECT) by (rewrite Ha by done; by rewrite decide_False by lia).
  assert (Hm : forall bn, 0 <= bn < MAXFILE -> fmap_ v' i' bn = if decide (bn = n) then b else fmap_ v i bn) by (by intros; apply alloc_direct_fmap).
  destruct (place_block v' i' n) as [W' HB]; auto.
  - finlia.
  - unfold fmap_. by rewrite (proj2 (Z.ltb_lt _ _)) by lia.
  - cbn. by rewrite length_insert.
  - intros a Hoa _. by apply alloc_data.
  - apply alloc_new.
  - intros a. apply alloc_owned.
  - apply alloc_owned_new.
  - assert (Hfb : file_block v' i' b).
    { split; [lia|]. right. exists n. split; [finlia|]. rewrite Hm by finlia. by rewrite decide_True. }
    split_and!; [done| |rewrite Hm by finlia; by rewrite decide_True]. split; auto.
    + intros bn Hbn Hne. rewrite Hm by done. case_decide; [|done]. subst. unfold fmap_ in Hne.
      rewrite (proj2 (Z.ltb_lt _ _)) in Hne by lia. done.
    + intros bn Hbn. rewrite Hm by done. case_decide; auto.
    + intros b' Hb'. apply alloc_used. done.
    + intros b' Hb' H1 H2. by rewrite (alloc_bits b').
    + intros m. destruct (alloc_frame m) as [?|[?| -> ]]; auto 6.
Qed.

(** An empty indirect block adds no address. *)
Lemma alloc_ind_fmap bn : i_addr i NDIRECT = 0 -> 0 <= bn < MAXFILE ->
  fmap_ (v_alloc v sb0 b) (i <| i_addrs := <[Z.to_nat NDIRECT := b]> (i_addrs i) |>) bn = fmap_ v i bn.
Proof.
  intros Hz Hbn. pose proof (iw_len _ _ W) as Hlen. unfold fmap_. rewrite !i_addr_set by (done || finlia).
  rewrite (decide_True (P := NDIRECT = NDIRECT)) by done. rewrite Hz. cbn [Z.eqb]. destruct (Z.ltb_spec bn NDIRECT).
  - by rewrite decide_False by lia.
  - destruct (Z.eqb_spec b 0); [done|]. rewrite alloc_new. apply get_word_zero.
Qed.

Lemma alloc_ind :
  i_addr i NDIRECT = 0 ->
  let i' := i <| i_addrs := <[Z.to_nat NDIRECT := b]> (i_addrs i) |> in
  let v' := v_alloc v sb0 b in
  iwf v' i' /\ grow v i v' i' /\ i_addr i' NDIRECT = b.
Proof.
  intros Hz i' v'. pose proof (iw_len _ _ W) as Hlen. pose proof (ly_data _ _ _ LY) as Hd.
  assert (Ha : forall n', 0 <= n' -> i_addr i' n' = if decide (n' = NDIRECT) then b else i_addr i n').
  { intros n' Hn'. apply i_addr_set; auto. finlia. }
  assert (Hind : i_addr i' NDIRECT = b) by (rewrite Ha by done; by rewrite decide_True).
  assert (Hm : forall bn, 0 <= bn < MAXFILE -> fmap_ v' i' bn = fmap_ v i bn) by (by intros; apply alloc_ind_fmap).
  assert (Hfb : file_block v' i' b) by (split; [lia|]; by left).
  split_and!; [split|split|done].
  - cbn. by rewrite length_insert.
  - apply W.
  - intros bn Hbn. rewrite Hm by done. intros Hne. by apply alloc_owned, W.
  - intros _. rewrite Hind. apply alloc_owned_new.
  - intros bn bn' Hbn Hbn'. rewrite !Hm by done. by apply W.
  - intros bn Hbn. rewrite Hm, Hind by done. intros Hne. by apply (owned_ne), W.
  - done.
  - intros bn Hbn _. by apply Hm.
  - intros bn Hbn. left. by apply Hm.
  - intros off Ho. assert (Hbn : 0 <= off / BSIZE < MAXFILE) by finlia. unfold fbyte. rewrite Hm by done.
    destruct (Z.eqb_spec (fmap_ v i (off / BSIZE)) 0); [done|]. unfold v'. rewrite alloc_data; [done|by apply W].
  - right. by rewrite Hind.
  - intros b' Hb'. by apply alloc_used.
  - intros b' Hb' H1 H2. by rewrite (alloc_bits b').
  - intros m. destruct (alloc_frame m) as [?|[?| -> ]]; auto 6.
  - done.
Qed.

(** The addresses with a new entry of the indirect block. *)
Lemma alloc_entry_fmap j bn : 0 <= j < NINDIRECT -> i_addr i NDIRECT <> 0 -> 0 <= bn < MAXFILE ->
  fmap_ (v_write (v_alloc v sb0 b) (i_addr i NDIRECT) (set_word (v_data v (i_addr i NDIRECT)) j b)) i bn =
  if decide (bn = NDIRECT + j) then b else fmap_ v i bn.
Proof.
  intros Hj Hne Hbn. pose proof (ly_data _ _ _ LY) as Hd. pose proof (ly_size _ _ _ LY) as Hs.
  unfold fmap_. rewrite (proj2 (Z.eqb_neq _ _) Hne). destruct (Z.ltb_spec bn NDIRECT); [by rewrite decide_False by lia|].
  cbn. rewrite upd_same, get_word_set; [|apply Q|finlia..].
  destruct (decide (bn - NDIRECT = j)); [rewrite !decide_True by lia|by rewrite !decide_False by lia].
  apply u32_small. zpow. lia.
Qed.

Lemma alloc_entry j :
  0 <= j < NINDIRECT -> i_addr i NDIRECT <> 0 -> get_word (v_data v (i_addr i NDIRECT)) j = 0 ->
  let ind := i_addr i NDIRECT in
  let v' := v_write (v_alloc v sb0 b) ind (set_word (v_data v ind) j b) in
  iwf v' i /\ grow v i v' i /\ quiet v' /\ fmap_ v' i (NDIRECT + j) = b.
Proof.
  intros Hj Hne Hz ind v'. fold ind in Hne, Hz. pose proof (ly_data _ _ _ LY) as Hd. pose proof (ly_size _ _ _ LY) as Hs.
  assert (Ho : owned_block v ind) by (by apply W).
  assert (Hbm : forall n, bmap_block sb0 n -> v_data v' n = v_data (v_alloc v sb0 b) n)
    by (intros n Hn; apply upd_other; by apply (owned_meta n ind)).
  assert (Hu : forall b', 0 <= b' < sb_size sb0 -> used v' sb0 b' = used (v_alloc v sb0 b) sb0 b').
  { intros b' Hb'. unfold used. rewrite Hbm; [done|]. by apply (BBLOCK_eq D sb0 dstart LY b'). }
  assert (Hdat : forall a, owned_block v a -> a <> ind -> v_data v' a = v_data v a).
  { intros a Ha Hai. unfold v'. cbn. rewrite upd_other by done. by apply alloc_data. }
  assert (Hown : forall a, owned_block (v_alloc v sb0 b) a -> owned_block v' a).
  { intros a (H1 & H2 & H3). split_and!; auto; try lia. rewrite Hu by lia. done. }
  assert (Hm : forall bn, 0 <= bn < MAXFILE -> fmap_ v' i bn = if decide (bn = NDIRECT + j) then b else fmap_ v i bn) by (by intros; apply alloc_entry_fmap).
  destruct (place_block v' i (NDIRECT + j)) as [W' HB]; auto.
  - finlia.
  - unfold fmap_. fold ind. rewrite (proj2 (Z.ltb_ge _ _)), (proj2 (Z.eqb_neq _ _) Hne) by lia. rewrite <- Hz. f_equal. lia.
  - apply W.
  - unfold v'. cbn. rewrite upd_other; [apply alloc_new|]. intros E. by apply (owned_ne ind).
  - intros a Ha. by apply Hown, alloc_owned.
  - apply Hown, alloc_owned_new.
  - assert (Hfb : file_block v' i b).
    { split; [lia|]. right. exists (NDIRECT + j). split; [finlia|]. rewrite Hm by finlia. by rewrite decide_True. }
    split_and!; [done| | |rewrite Hm by finlia; by rewrite decide_True]; split; auto.
    + by destruct i.
    + intros bn Hbn Hnz. rewrite Hm by done. case_decide; [|done]. subst bn. unfold fmap_ in Hnz. fold ind in Hnz.
      rewrite (proj2 (Z.ltb_ge _ _)), (proj2 (Z.eqb_neq _ _) Hne) in Hnz by lia.
      replace (NDIRECT + j - NDIRECT) with j in Hnz by lia. done.
    + intros bn Hbn. rewrite Hm by done. case_decide; auto.
    + intros b' Hb' Ht. rewrite Hu by done. by apply alloc_used.
    + intros b' Hb' H1. rewrite Hu by done. intros H2. by rewrite (alloc_bits b').
    + intros m. unfold v'. cbn. unfold upd at 1. destruct (Z.eqb_spec m ind) as [->|].
      * right. right. right. split; auto.
      * destruct (alloc_frame m) as [?|[?| -> ]]; auto 6.
    + apply Q.
    + apply Q.
    + intros b' Hb'. rewrite Hu by done. apply (quiet_alloc D sb0 dstart LY C v b Q Hb). done.
    + intros b' Hb'. rewrite Hu by lia. by apply (quiet_alloc D sb0 dstart LY C v b Q Hb).
    + intros m. unfold v'. cbn. unfold upd at 1. destruct (Z.eqb_spec m ind) as [->|].
      * apply set_word_ok; [apply Q|done].
      * apply (quiet_alloc D sb0 dstart LY C v b Q Hb).
    + apply Q.
Qed.

End Fresh.

(** ** A write to a block that is neither in the bitmap nor an indirect block *)

Section Write.

Context (v : bview) (i : inode) (n : Z) (d : block).
Hypothesis Hn : ~ bmap_block sb0 n.

Lemma write_used b : 0 <= b < sb_size sb0 -> used (v_write v n d) sb0 b = used v sb0 b.
Proof.
  intros Hb. unfold used. cbn. rewrite upd_other; [done|]. intros <-. apply Hn, (BBLOCK_eq D sb0 dstart LY b Hb).
Qed.

Lemma write_quiet : block_ok d -> quiet v -> quiet (v_write v n d).
Proof.
  intros Hd [Q1 Q2 Q3 Q4 Q5 Q6]. pose proof (ly_data _ _ _ LY). split; auto.
  - intros b Hb. rewrite write_used by done. by apply Q3.
  - intros b Hb. rewrite write_used by lia. by apply Q4.
  - intros m. cbn. unfold upd. by destruct (Z.eqb_spec m n).
Qed.

Hypothesis Hind : i_addr i NDIRECT <> 0 -> n <> i_addr i NDIRECT.

Lemma write_fmap bn : fmap_ (v_write v n d) i bn = fmap_ v i bn.
Proof.
  unfold fmap_. destruct (bn <? NDIRECT); [done|]. destruct (Z.eqb_spec (i_addr i NDIRECT) 0) as [|Hz]; [done|].
  change (v_data (v_write v n d)) with (upd (v_data v) n d). rewrite upd_other; [done|]. intros E. by apply (Hind Hz).
Qed.

Lemma write_iwf : iwf v i -> iwf (v_write v n d) i.
Proof.
  intros W. pose proof (ly_data _ _ _ LY).
  assert (Ho : forall a, owned_block v a -> owned_block (v_write v n d) a).
  { intros a (H1 & H2 & H3). split_and!; auto; try lia. rewrite write_used by lia. done. }
  destruct W as [W1 W2 W3 W4 W5 W6]. split; auto.
  - intros bn Hbn. rewrite write_fmap. auto.
  - intros bn bn' Hbn Hbn'. rewrite !write_fmap. auto.
  - intros bn Hbn. rewrite write_fmap. auto.
Qed.

Lemma write_fbyte off : fmap_ v i (off / BSIZE) <> n -> fbyte (v_write v n d) i off = fbyte v i off.
Proof. intros Hne. unfold fbyte. rewrite write_fmap. change (v_data (v_write v n d)) with (upd (v_data v) n d). by rewrite upd_other. Qed.

End Write.

(** ** Free blocks *)

Definition nfree (v : bview) : nat := length (filter (fun b => used v sb0 b = false) (zseq 0 (Z.to_nat (sb_size sb0)))).

Lemma nfree_some v : (0 < nfree v)%nat -> exists b, 0 <= b < sb_size sb0 /\ used v sb0 b = false.
Proof.
  intros H. unfold nfree in H. destruct (filter _ _) as [|b l] eqn:E; [cbn in H; lia|].
  assert (Hb : b ∈ filter (fun b => used v sb0 b = false) (zseq 0 (Z.to_nat (sb_size sb0)))) by (rewrite E; left).
  apply list_elem_of_filter in Hb as [Hu Hb]. apply elem_of_zseq in Hb. exists b. split; [lia|done].
Qed.

Lemma nfree_bound v v' X :
  (forall b, 0 <= b < sb_size sb0 -> used v sb0 b = false -> used v' sb0 b = false \/ b ∈ X) ->
  (nfree v <= nfree v' + length X)%nat.
Proof.
  intros H. unfold nfree. rewrite <- length_app. apply submseteq_length, NoDup_submseteq.
  - apply NoDup_filter, NoDup_zseq.
  - intros b Hb. apply list_elem_of_filter in Hb as [Hu Hb]. pose proof Hb as Hr. apply elem_of_zseq in Hr.
    apply elem_of_app. destruct (H b) as [?|?]; [lia|done|left|by right]. by apply list_elem_of_filter.
Qed.

Lemma nfree_alloc v b : quiet v -> dstart <= b < sb_size sb0 -> (nfree v <= nfree (v_alloc v sb0 b) + 1)%nat.
Proof.
  intros Q Hb. pose proof (ly_data _ _ _ LY). apply (nfree_bound v _ [b]). intros b' Hb' Hu.
  rewrite (used_alloc D sb0 dstart LY C v b b') by done. case_decide; [right; subst; left|by left].
Qed.

Lemma nfree_write v n d : ~ bmap_block sb0 n -> (nfree v <= nfree (v_write v n d))%nat.
Proof.
  intros Hn. etrans; [apply (nfree_bound v (v_write v n d) [])|cbn; lia]. intros b Hb Hu. left. by rewrite write_used.
Qed.

(** ** The state around one inode *)

(** [s] is [s0] except for the blocks, whose view is [v], and inode [ip], which
    is [i]. *)
Record ist (s s0 : fst S) (v : bview) (ip : Z) (i : inode) : Prop := {
  is_rep : rep (blk s) v;
  is_ip : inodes s ip = i;
  is_other : forall x, x <> ip -> inodes s x = inodes s0 x;
  is_sb : sb s = sb s0;
  is_lock : ic_lock s = ic_lock s0;
  is_pid : fs_pid s = fs_pid s0;
  is_cwd : cwd s = cwd s0;
  is_mem : fs_mem s = fs_mem s0;
  is_pt : fs_pt s = fs_pt s0;
  is_kvar : kvar s = kvar s0;
  is_wakes : fs_wakes s = fs_wakes s0;
}.

Lemma ist_at s s0 v ip i s' v' : ist s s0 v ip i -> at_ s' s v' -> ist s' s0 v' ip i.
Proof. intros [] [-> H]. split; done. Qed.

Lemma ist_self s s0 v ip i : ist s s0 v ip i -> at_ s s v.
Proof. intros I. apply at_refl, I. Qed.

Lemma ist_refl s v ip : rep (blk s) v -> ist s s v ip (inodes s ip).
Proof. intros H. by split. Qed.

Lemma ist_trans s s1 s0 v v1 ip i i1 : ist s s1 v ip i -> ist s1 s0 v1 ip i1 -> ist s s0 v ip i.
Proof. intros [] []. split; try congruence. intros x Hx. rewrite is_other0 by done. by apply is_other1. Qed.

Lemma ist_set {A} s s0 v ip i f (Q : A -> fst S -> Prop) (k : unit -> M (fst S) A) :
  ist s s0 v ip i -> (forall s', ist s' s0 v ip (f i) -> wp (k tt) Q s') -> wp (bind (set_inode ip f) k) Q s.
Proof.
  intros [] H. apply wp_modify, H. split; cbn; auto.
  - rewrite upd_same. by f_equal.
  - intros x Hx. rewrite upd_other by done. auto.
Qed.

Lemma ist_set_end s s0 v ip i f (Q : unit -> fst S -> Prop) :
  ist s s0 v ip i -> (forall s', ist s' s0 v ip (f i) -> Q tt s') -> wp (set_inode ip f) Q s.
Proof. intros I H. exact (ist_set s s0 v ip i f Q ret I H). Qed.

Lemma ist_get {A} s s0 v ip i (Q : A -> fst S -> Prop) (k : inode -> M (fst S) A) :
  ist s s0 v ip i -> wp (k i) Q s -> wp (bind (get_inode ip) k) Q s.
Proof. intros [] H. apply wp_gets. by rewrite is_ip0. Qed.

Section Bmap.

Context (s0 : fst S) (ip : Z).
Hypothesis Esb : sb s0 = sb0.

(** [balloc] for the inode. *)
Lemma ist_balloc {A} s v i (Q : A -> fst S -> Prop) (k : Z -> M (fst S) A) :
  ist s s0 v ip i -> quiet v -> budget v 1 -> (0 < nfree v)%nat ->
  (forall b s', dstart <= b < sb_size sb0 -> used v sb0 b = false -> ist s' s0 (v_alloc v sb0 b) ip i -> wp (k b) Q s') ->
  wp (bind (balloc (d_dev D)) k) Q s.
Proof.
  intros I Hq HB Hf Hk. eapply wp_seq.
  - apply (balloc_spec D rep sb0 dstart LY C s s v (ist_self _ _ _ _ _ I)); auto.
    + by rewrite (is_sb _ _ _ _ _ I).
    + by apply nfree_some.
  - intros b s' (Hb & Hu & R & _). apply Hk; auto. by eapply ist_at.
Qed.

(** A step that may have allocated [n] blocks; [k] more may be logged. *)
Record step_ok (n : nat) (k : Z) (v : bview) (i : inode) (v' : bview) (i' : inode) : Prop := {
  so_quiet : quiet v';
  so_iwf : iwf v' i';
  so_grow : grow v i v' i';
  so_budget : budget v' k;
  so_free : (nfree v <= nfree v' + n)%nat;
}.

Lemma alloc_budget v b k : quiet v -> dstart <= b < sb_size sb0 -> budget v (k + 1) -> budget (v_alloc v sb0 b) k.
Proof.
  intros Q Hb HB. pose proof (ly_data _ _ _ LY). unfold v_alloc. apply budget_write, budget_absorb; [left|done].
  apply Q. apply (BBLOCK_eq D sb0 dstart LY b). lia.
Qed.

Lemma get_addr_spec s v i n k :
  ist s s0 v ip i -> quiet v -> iwf v i -> 0 <= n <= NDIRECT -> 0 <= k -> budget v (k + 1) -> (0 < nfree v)%nat ->
  wp (get_addr ip n) (fun a s' => exists v' i', ist s' s0 v' ip i' /\ step_ok 1 k v i v' i' /\
    a = i_addr i' n /\ a <> 0 /\ (v' = v /\ i' = i \/ a ∈ v_pins v')) s.
Proof.
  intros I Q W Hn Hk HB Hf. unfold get_addr. eapply ist_get; [exact I|].
  destruct (Z.eqb_spec (i_addr i n) 0) as [Hz|Hz].
  - rewrite (iw_dev _ _ W). eapply (ist_balloc s v i); auto; [eapply budget_mono; [|exact HB]; lia|].
    intros b s1 Hb Hu I1. pose proof (ly_data _ _ _ LY) as Hd. unfold set_addr.
    eapply ist_set; [exact I1|]. intros s2 I2. apply wp_ret. eexists _, _. split; [exact I2|].
    set (i' := i <| i_addrs := _ |>) in *.
    assert (Ea : i_addr i' n = b) by (unfold i'; rewrite i_addr_set; [by rewrite decide_True|apply W|done|lia]).
    assert (H : iwf (v_alloc v sb0 b) i' /\ grow v i (v_alloc v sb0 b) i').
    { destruct (decide (n = NDIRECT)) as [->|Hne].
      - destruct (alloc_ind v i b Q W Hb Hu Hz) as (? & ? & _). done.
      - destruct (alloc_direct v i b Q W Hb Hu n) as (? & ? & _); [lia|done|done]. }
    destruct H as [W' G']. split_and!; [|done|lia|right; cbn; set_solver]. split; auto.
    + by apply (quiet_alloc D sb0 dstart LY C).
    + by apply alloc_budget.
    + by apply nfree_alloc.
  - apply wp_ret. exists v, i. split_and!; auto. split; auto using grow_refl; [|lia].
    eapply budget_mono; [|exact HB]. lia.
Qed.

Lemma v_alloc_get v n b b' : v_alloc (v_get v n b') sb0 b = v_get (v_alloc v sb0 b) n b'.
Proof. done. Qed.

Lemma quiet_get v n b : quiet v -> owned_block v n -> quiet (v_get v n b).
Proof.
  intros [Q1 Q2 Q3 Q4 Q5 Q6] (Ho1 & Ho2 & Ho3). split; auto; cbn.
  - intros m Hm. rewrite lookup_insert_ne; [auto|]. intros <-.
    pose proof (bmap_block_meta D sb0 dstart LY _ Hm). lia.
  - intros m Hm Hu. change (used v sb0 m = false) in Hu.
    rewrite lookup_insert_ne; [auto|]. intros <-. congruence.
Qed.

(** The entry [j] of the indirect block, when there is one. *)
Definition indirect (j : Z) (addr : Z) : M (fst S) Z :=
  i ← get_inode ip ;
  bp ← fread (i_dev i) addr ;
  a ← fdata bp ;
  let addr := get_word a j in
  addr ← (if addr =? 0
          then addr ← balloc (i_dev i) ;
               a ← fdata bp ;
               fset bp (set_word a j addr) ;;
               flog_write bp ;;
               ret addr
          else ret addr) ;
  frelse bp ;;
  ret addr.

Lemma indirect_spec s v i j k :
  ist s s0 v ip i -> quiet v -> iwf v i -> 0 <= j < NINDIRECT -> i_addr i NDIRECT <> 0 -> 1 <= k ->
  budget v (if decide (i_addr i NDIRECT ∈ v_pins v) then k + 1 else k + 2) -> (0 < nfree v)%nat ->
  wp (indirect j (i_addr i NDIRECT)) (fun a s' => exists v', ist s' s0 v' ip i /\ step_ok 1 k v i v' i /\
    a = fmap_ v' i (NDIRECT + j) /\ a <> 0 /\ (v' = v \/ a ∈ v_pins v')) s.
Proof.
  intros I Q W Hj Hne Hk HB Hf. unfold indirect. eapply ist_get; [exact I|]. rewrite (iw_dev _ _ W).
  set (ind := i_addr i NDIRECT) in *. pose proof (iw_ind _ _ W Hne) as Ho. fold ind in Ho.
  assert (HB1 : budget v (k + 1)) by (case_decide; [done|]; eapply budget_mono; [|exact HB]; lia).
  assert (Efm : forall v', fmap_ v' i (NDIRECT + j) = get_word (v_data v' ind) j).
  { intros v'. unfold fmap_. fold ind. rewrite (proj2 (Z.ltb_ge _ _)), (proj2 (Z.eqb_neq _ _) Hne) by lia. f_equal. lia. }
  eapply (at_fread D rep _ _ _ _ (ist_self _ _ _ _ _ I) ind); [apply Ho|eapply (budget_used D C v (k + 1)); [done|lia]|].
  intros bp s1 R1. eapply (at_fdata D rep _ _ _ _ R1); [cbn; apply lookup_insert_eq|].
  change (v_data (v_get v ind bp) ind) with (v_data v ind).
  pose proof (ist_at _ _ _ _ _ _ _ I R1) as I1.
  destruct (Z.eqb_spec (get_word (v_data v ind) j) 0) as [Hz|Hz].
  - apply wp_bind.
    eapply (ist_balloc s1 (v_get v ind bp) i); [exact I1|by apply quiet_get| | |].
    + case_decide; [|apply budget_get; eapply budget_mono; [|exact HB]; lia].
      unfold FsBlock.budget, v_used in *. cbn. rewrite dom_insert_L.
      assert (E : {[ind]} ∪ dom (v_held v) ∪ v_pins v = dom (v_held v) ∪ v_pins v) by set_solver. rewrite E. lia.
    + exact Hf.
    + intros b s2 Hb Hu I2. change (used (v_get v ind bp) sb0 b) with (used v sb0 b) in Hu.
      rewrite v_alloc_get in I2. set (v2 := v_alloc v sb0 b) in *.
      assert (Hd2 : v_data v2 ind = v_data v ind) by (by apply alloc_data).
      destruct (alloc_entry v i b Q W Hb Hu j Hj Hne Hz) as (W' & G' & Q' & F').
      fold ind in W', G', Q', F'. fold v2 in W', G', Q', F'.
      assert (HB2 : budget v2 (if decide (ind ∈ v_pins v) then k else k + 1)).
      { case_decide; apply alloc_budget; auto. by replace (k + 1 + 1) with (k + 2) by lia. }
      eapply (at_fdata D rep _ _ _ _ (ist_self _ _ _ _ _ I2) ind); [cbn; apply lookup_insert_eq|].
      change (v_data (v_get v2 ind bp) ind) with (v_data v2 ind). rewrite Hd2.
      assert (Hp2 : Z.of_nat (size (v_pins v2)) < d_lim D) by (case_decide; eapply (budget_pins D C v2); [exact HB2|lia|exact HB2|lia]).
      eapply (at_fset D rep _ _ _ _ (ist_self _ _ _ _ _ I2) ind); [cbn; apply lookup_insert_eq|]. intros s3 R3.
      eapply (at_flog_write D rep _ _ _ _ R3 ind); [cbn; apply lookup_insert_eq|exact Hp2| |].
      { apply (data_ok D sb0 dstart LY), Ho. }
      intros s4 R4. apply wp_ret.
      eapply (at_frelse D rep _ _ _ _ R4 ind); [cbn; apply lookup_insert_eq|cbn; set_solver|]. intros s5 R5. apply wp_ret.
      rewrite v_write_get in R5; [|apply Ho|apply Q]. pose proof (ist_at _ _ _ _ _ _ _ I2 R5) as I5.
      eexists. split_and!; [exact I5| |done| |right; cbn; set_solver].
      * split; auto.
        { case_decide; [|by apply budget_write]. apply budget_absorb; [right; cbn; set_solver|done]. }
        pose proof (nfree_alloc v b Q Hb) as Hn. pose proof (nfree_bound v2 (v_write v2 ind (set_word (v_data v ind) j b)) []) as Hn2.
        cbn [length] in Hn2. fold v2 in Hn. etrans; [exact Hn|]. apply Nat.add_le_mono_r. etrans; [apply Hn2|lia].
        intros b' Hb' Hu'. left. unfold used in *. cbn. rewrite upd_other; [done|]. intros E.
        destruct (BBLOCK_eq D sb0 dstart LY b' Hb') as [_ M]. by apply (owned_meta v (BBLOCK b' sb0) ind Ho M).
      * pose proof (ly_data _ _ _ LY). lia.
  - apply wp_bind, wp_ret. eapply (at_release D rep _ _ _ v ind bp); [exact R1|apply Ho|apply Q|]. intros s2 R2. apply wp_ret.
    exists v. split_and!; [exact (ist_at _ _ _ _ _ _ _ I R2)| |by rewrite Efm|done|by left].
    split; auto using grow_refl; [eapply budget_mono; [|exact HB1]; lia|lia].
Qed.

Lemma bmap_eq bn : bmap ip bn =
  if bn <? NDIRECT then get_addr ip bn
  else if bn - NDIRECT <? NINDIRECT then addr ← get_addr ip NDIRECT ; indirect (bn - NDIRECT) addr
       else panic "bmap: out of range".
Proof. done. Qed.

(** [bmap] gives every block of the file a place. *)
Lemma bmap_spec s v i bn k :
  ist s s0 v ip i -> quiet v -> iwf v i -> 0 <= bn < MAXFILE -> 1 <= k -> budget v (k + 2) -> (2 <= nfree v)%nat ->
  wp (bmap ip bn) (fun a s' => exists v' i', ist s' s0 v' ip i' /\ step_ok 2 k v i v' i' /\
    a = fmap_ v' i' bn /\ a <> 0 /\ (budget v' (k + 1) \/ a ∈ v_pins v')) s.
Proof.
  intros I Q W Hbn Hk HB Hf. rewrite bmap_eq. destruct (Z.ltb_spec bn NDIRECT) as [Hlt|Hge].
  - eapply wp_mono; [apply (get_addr_spec s v i bn k); auto; [lia|lia|eapply budget_mono; [|exact HB]; lia|lia]|].
    intros a s' (v' & i' & I' & [S1 S2 S3 S4 S5] & -> & Ha & Hc). exists v', i'. split_and!; auto; [split; auto; lia| |].
    + unfold fmap_. by rewrite (proj2 (Z.ltb_lt _ _)).
    + destruct Hc as [[-> ->]|?]; [left|by right]. eapply budget_mono; [|exact HB]. lia.
  - rewrite (proj2 (Z.ltb_lt _ _)) by finlia.
    eapply wp_seq; [apply (get_addr_spec s v i NDIRECT (k + 1)); auto; [done|lia| |lia]|].
    { by replace (k + 1 + 1) with (k + 2) by lia. }
    intros a s1 (v1 & i1 & I1 & [S1 S2 S3 S4 S5] & -> & Ha & Hcase).
    eapply wp_mono; [apply (indirect_spec s1 v1 i1 (bn - NDIRECT) k); auto; [finlia| |lia]|].
    { destruct Hcase as [[-> ->]|Hp]; [|by rewrite decide_True]. case_decide; [|done]. eapply budget_mono; [|exact HB]. lia. }
    intros a s2 (v2 & I2 & [T1 T2 T3 T4 T5] & -> & Ha2 & Hc2).
    replace (NDIRECT + (bn - NDIRECT)) with bn in * by lia. exists v2, i1. split_and!; auto.
    + split; auto; [by eapply grow_trans|lia].
    + destruct Hc2 as [->|?]; auto.
Qed.

(** [bmap] of a block that the file has only reads. *)
Lemma bmap_found s v i bn :
  ist s s0 v ip i -> v_dirty v = ∅ -> iwf v i -> 0 <= bn < MAXFILE -> fmap_ v i bn <> 0 ->
  (size (v_used v) < Z.to_nat NBUF)%nat ->
  wp (bmap ip bn) (fun a s' => ist s' s0 v ip i /\ a = fmap_ v i bn) s.
Proof.
  intros I Hd W Hbn Hne Hs. rewrite bmap_eq. unfold fmap_ in Hne. unfold fmap_. destruct (Z.ltb_spec bn NDIRECT) as [Hlt|Hge].
  - unfold get_addr. eapply ist_get; [exact I|]. rewrite (proj2 (Z.eqb_neq _ _) Hne). by apply wp_ret.
  - rewrite (proj2 (Z.ltb_lt _ _)) by finlia. destruct (Z.eqb_spec (i_addr i NDIRECT) 0) as [|Hi]; [done|].
    unfold get_addr. apply wp_bind. eapply ist_get; [exact I|]. rewrite (proj2 (Z.eqb_neq _ _) Hi). apply wp_ret.
    unfold indirect. eapply ist_get; [exact I|]. rewrite (iw_dev _ _ W). pose proof (iw_ind _ _ W Hi) as Ho.
    eapply (at_fread D rep _ _ _ _ (ist_self _ _ _ _ _ I)); [apply Ho|done|]. intros bp s1 R1.
    eapply (at_fdata D rep _ _ _ _ R1); [cbn; apply lookup_insert_eq|].
    change (v_data (v_get v ?n bp) ?m) with (v_data v m). rewrite (proj2 (Z.eqb_neq _ _) Hne). apply wp_bind, wp_ret.
    eapply (at_release D rep _ _ _ v _ bp); [exact R1|apply Ho|done|]. intros s2 R2. apply wp_ret.
    split; [exact (ist_at _ _ _ _ _ _ _ I R2)|done].
Qed.

End Bmap.

End Inode.
