(* ===== verification/FsFile.v ===== *)
(** * Files as sequences of bytes: [readi] and [writei]

    [readi] delivers the bytes of the file, [writei] replaces them and extends the
    file; both go block by block through [bmap]. *)
From stdpp Require Import base list gmap strings.
From Stdlib Require Import ZArith Lia.
From S2P Require Import Prelude KString Riscv Kalloc Vm VmSpec VmUser VmCopy Sleeplock Bio Blocks Fs FsBlock FsInode FsMeta.

#[local] Open Scope Z_scope.
#[local] Open Scope xv6_scope.

(** [n] bytes of the file from [off] on. *)
Definition fbytes (v : bview) (i : inode) (off n : Z) : list Z := fbyte v i <$> zseq off (Z.to_nat n).

Lemma length_fbytes v i off n : length (fbytes v i off n) = Z.to_nat n.
Proof. unfold fbytes. by rewrite length_fmap, length_zseq. Qed.

Lemma fbytes_lookup v i off n j : 0 <= j < n -> fbytes v i off n !! Z.to_nat j = Some (fbyte v i (off + j)).
Proof. intros Hj. unfold fbytes. rewrite list_lookup_fmap, zseq_lookup by lia. cbn. do 2 f_equal. lia. Qed.

Lemma fbytes_app v i off n m : 0 <= n -> 0 <= m -> fbytes v i off (n + m) = fbytes v i off n ++ fbytes v i (off + n) m.
Proof.
  intros Hn Hm. unfold fbytes. rewrite Z2Nat.inj_add, zseq_app, fmap_app by done. do 2 f_equal. f_equal. lia.
Qed.

(** The file has a block for each of its bytes. *)
Definition no_holes (v : bview) (i : inode) : Prop :=
  0 <= i_size i <= MAXFILE * BSIZE /\ forall bn, 0 <= bn -> bn * BSIZE < i_size i -> fmap_ v i bn <> 0.

(** A run of bytes inside one block. *)
Lemma fbytes_chunk v i off m :
  0 <= off -> 0 <= m -> off mod BSIZE + m <= BSIZE -> fmap_ v i (off / BSIZE) <> 0 ->
  length (v_data v (fmap_ v i (off / BSIZE))) = Z.to_nat BSIZE ->
  take (Z.to_nat m) (drop (Z.to_nat (off mod BSIZE)) (v_data v (fmap_ v i (off / BSIZE)))) = fbytes v i off m.
Proof.
  intros Ho Hm Hle Hne Hl. apply list_eq. intros j. destruct (decide (j < Z.to_nat m)%nat) as [Hj|Hj].
  - rewrite lookup_take_lt, lookup_drop by done. replace j with (Z.to_nat (Z.of_nat j)) at 2 by lia.
    rewrite fbytes_lookup by lia. unfold fbyte.
    assert (E1 : (off + Z.of_nat j) / BSIZE = off / BSIZE) by fslia.
    assert (E2 : (off + Z.of_nat j) mod BSIZE = off mod BSIZE + Z.of_nat j) by fslia.
    rewrite E1, E2, (proj2 (Z.eqb_neq _ _) Hne).
    replace (Z.to_nat (off mod BSIZE + Z.of_nat j)) with (Z.to_nat (off mod BSIZE) + j)%nat by fslia.
    destruct (lookup_lt_is_Some_2 (v_data v (fmap_ v i (off / BSIZE))) (Z.to_nat (off mod BSIZE) + j)) as [x Ex].
    { rewrite Hl. change BSIZE with 1024 in *. zlia. }
    rewrite Ex. done.
  - rewrite !lookup_ge_None_2; [done|rewrite length_fbytes; lia|rewrite length_take; lia].
Qed.

Section File.

Context {S : Type} {L : BlockLayer S} (D : device) (rep : S -> bview -> Prop) {HL : BlockLaws S D rep}.
Context (sb0 : superblock) (dstart : Z) (LY : layout D sb0 dstart).

Abbreviation iwf := (iwf D sb0 dstart).
Abbreviation ist := (ist rep).
Abbreviation at_ := (at_ rep).

(** ** [readi] *)

Section Read.

Context (ip : Z) (v : bview) (i : inode) (user_dst : bool) (dst off n : Z).
Context (R : Z -> fst S -> Prop).   (** [R t s]: the first [t] bytes have been delivered *)

Hypothesis W : iwf v i.
Hypothesis NH : no_holes v i.
Hypothesis Hv : v_dirty v = ∅ /\ forall a, block_ok (v_data v a).
Hypothesis Hroom : (size (v_used v) + 1 < Z.to_nat NBUF)%nat.
Hypothesis Hn : 0 <= n.
Hypothesis Hoff : 0 <= off /\ off + n <= i_size i.
Hypothesis Hdst : 0 <= dst /\ dst + n < 2 ^ 64.
Hypothesis copy : forall t m src s s0 v', 0 <= t -> 0 < m -> t + m <= n -> R t s0 ->
  take (Z.to_nat m) src = fbytes v i (off + t) m -> Forall is_byte src -> ist s s0 v' ip i ->
  wp (either_copyout user_dst (dst + t) src m) (fun r s' =>
    r <> -1 /\ exists s0', ist s' s0' v' ip i /\ R (t + m) s0') s.

Lemma readi_block_spec t s s0 :
  0 <= t <= n -> R t s0 -> ist s s0 v ip i ->
  wp (readi_block ip user_dst n (t, off + t, dst + t)) (fun r s' =>
    match r with
    | inr _ => t = n /\ exists s0', ist s' s0' v ip i /\ R n s0'
    | inl x => exists m s0', 0 < m /\ t + m <= n /\ x = (t + m, off + (t + m), dst + (t + m)) /\ ist s' s0' v ip i /\ R (t + m) s0'
    end) s.
Proof.
  intros Ht HR I. unfold readi_block. destruct (Z.ltb_spec t n) as [Hlt|Hge]; cbn [negb].
  2:{ apply wp_ret. assert (t = n) as -> by lia. eauto. }
  destruct Hv as [Hd Hb]. destruct NH as [Hsz Hh]. destruct Hoff as [Ho1 Ho2].
  assert (Hbn : 0 <= (off + t) / BSIZE < MAXFILE) by finlia.
  assert (Hne : fmap_ v i ((off + t) / BSIZE) <> 0) by (apply Hh; fslia).
  set (m := Z.min (n - t) (BSIZE - (off + t) mod BSIZE)).
  assert (Hm : 0 < m <= n - t /\ (off + t) mod BSIZE + m <= BSIZE) by (unfold m; fslia).
  eapply wp_seq; [apply (bmap_found D rep sb0 dstart s0 ip s v i); auto; lia|]. intros a s1 [I1 ->].
  eapply ist_get; [exact I1|]. rewrite (iw_dev _ _ _ _ _ W). set (a := fmap_ v i ((off + t) / BSIZE)) in *.
  pose proof (iw_data _ _ _ _ _ W _ Hbn Hne) as Ha. fold a in Ha.
  eapply (at_fread D rep _ _ _ _ (ist_self rep _ _ _ _ _ I1) a); [apply Ha|lia|]. intros bp s2 R2.
  pose proof (ist_at rep _ _ _ _ _ _ _ I1 R2) as I2.
  eapply (at_fdata D rep _ _ _ _ R2); [cbn; apply lookup_insert_eq|].
  change (v_data (v_get v a bp) a) with (v_data v a).
  eapply wp_seq; [apply (copy t m _ s2 s0 (v_get v a bp)); auto; [lia|lia|lia| |]|].
  - apply fbytes_chunk; auto; [lia|lia|lia|apply Hb].
  - apply Forall_drop, Hb.
  - intros r s3 (Hr & s0' & I3 & HR').
    eapply (at_release D rep _ _ s3 v a bp); [apply (ist_self rep _ _ _ _ _ I3)|apply Ha|done|]. intros s4 R4. apply wp_ret.
    rewrite (proj2 (Z.eqb_neq r (-1))) by done. exists m, s0'.
    rewrite u64_small by (zpow; lia).
    split_and!; [lia|lia|f_equal; [f_equal|]; lia|exact (ist_at rep _ _ _ _ _ _ _ I3 R4)|done].
Qed.

Lemma readi_loop_spec s s0 :
  R 0 s0 -> ist s s0 v ip i ->
  wp (while_ (readi_block ip user_dst n) (0, off, dst)) (fun _ s' => exists s0', ist s' s0' v ip i /\ R n s0') s.
Proof.
  intros HR I. apply (wp_while _ (fun x s' => exists t s0', x = (t, off + t, dst + t) /\ 0 <= t <= n /\ ist s' s0' v ip i /\ R t s0')
    _ (fun x => n - x.1.1)).
  - intros x s1 (t & s0' & -> & Ht & I1 & HR1). eapply wp_mono; [by apply (readi_block_spec t s1 s0')|].
    intros [x|] s2.
    + intros (m & s0'' & Hm & Hle & -> & I2 & HR2). cbn. split; [|lia]. exists (t + m), s0''. split_and!; auto; lia.
    + intros (_ & s0'' & I2 & HR2). eauto.
  - exists 0, s0. split_and!; auto; [f_equal; [f_equal|]; lia|lia].
  - intros x s1 (t & s0' & -> & Ht & _). cbn. lia.
  - cbn. destruct NH as [Hsz _]. change (MAXFILE * BSIZE) with 274432 in Hsz. zpow. lia.
Qed.

End Read.

(** The bytes [readi] delivers: [n], or what is left of the file. *)
Definition read_len (i : inode) (off n : Z) : Z := Z.min n (i_size i - off).

Section ReadSpec.

Context (ip : Z) (v : bview) (i : inode) (off n : Z).

Hypothesis W : iwf v i.
Hypothesis NH : no_holes v i.
Hypothesis Hv : v_dirty v = ∅ /\ forall a, block_ok (v_data v a).
Hypothesis Hroom : (size (v_used v) + 1 < Z.to_nat NBUF)%nat.
Hypothesis Hn : 0 <= n.
Hypothesis Hoff : 0 <= off <= i_size i.
Hypothesis Hwrap : off + n < 2 ^ 32.

Lemma readi_clamp s s0 user_dst dst (Q : Z -> fst S -> Prop) :
  ist s s0 v ip i ->
  wp (while_ (readi_block ip user_dst (read_len i off n)) (0, off, dst)) (fun _ s' => Q (read_len i off n) s') s ->
  wp (readi ip user_dst dst off n) Q s.
Proof.
  intros I H. destruct NH as [Hsz _]. change (MAXFILE * BSIZE) with 274432 in Hsz.
  unfold readi. eapply ist_get; [exact I|]. rewrite Z.gtb_ltb, (proj2 (Z.ltb_ge _ _)) by lia.
  rewrite u32_small by lia. rewrite (proj2 (Z.ltb_ge (off + n) off)) by lia. cbn [orb].
  assert (E : (if off + n >? i_size i then i_size i - off else n) = read_len i off n).
  { unfold read_len. rewrite Z.gtb_ltb. destruct (Z.ltb_spec (i_size i) (off + n)); lia. }
  rewrite E. eapply wp_seq; [exact H|]. intros [] s' HQ. apply wp_ret.
  rewrite s32_small; [done|]. unfold read_len. zpow. lia.
Qed.

(** [readi] into a variable of the kernel. *)
Lemma readi_kernel s s0 dst :
  let m := read_len i off n in
  0 <= dst -> dst + m <= Z.of_nat (length (kvar s0)) -> Z.of_nat (length (kvar s0)) < 2 ^ 32 -> ist s s0 v ip i ->
  wp (readi ip false dst off n) (fun r s' => r = m /\
    ist s' (s0 <| kvar := splice (Z.to_nat dst) (fbytes v i off m) (kvar s0) |>) v ip i) s.
Proof.
  intros m Hdst Hlen Hlt I. assert (Hm : 0 <= m) by (unfold m, read_len; lia).
  eapply readi_clamp; [exact I|]. fold m.
  eapply wp_mono; [apply (readi_loop_spec ip v i false dst off m
    (fun t s1 => s1 = s0 <| kvar := splice (Z.to_nat dst) (fbytes v i off t) (kvar s0) |>)) with (s0 := s0); auto|].
  - unfold m, read_len. lia.
  - zpow. lia.
  - intros t k src s1 s0' v' Ht Hk Hle -> Hsrc _ I1. unfold either_copyout. apply wp_modify, wp_ret. split; [done|].
    rewrite (is_kvar _ _ _ _ _ _ I1).
    exists (s0 <| kvar := splice (Z.to_nat (dst + t)) (take (Z.to_nat k) src) (splice (Z.to_nat dst) (fbytes v i off t) (kvar s0)) |>). split.
    + destruct I1. split; cbn; auto.
    + rewrite Hsrc. replace (Z.to_nat (dst + t)) with (Z.to_nat dst + length (fbytes v i off t))%nat by (rewrite length_fbytes; lia).
      rewrite splice_splice by (rewrite !length_fbytes; lia). rewrite fbytes_app by lia. done.
  - cbn. rewrite splice_nil. by destruct s0.
  - intros _ s' (s0' & I' & ->). done.
Qed.

(** [readi] into the memory of the process. *)
Lemma readi_user s s0 dst end_ l T fr :
  0 < end_ -> umem end_ (fs_mem s0) l (fs_pt s0) T fr ->
  let m := read_len i off n in
  0 <= dst -> dst + m < 2 ^ 64 -> accessible fr dst m -> ist s s0 v ip i ->
  wp (readi ip true dst off n) (fun r s' => r = m /\ exists k',
    ist s' (s0 <| fs_mem := k' |>) v ip i /\ umem end_ k' l (fs_pt s0) T fr /\
    wrote fr (fs_mem s0) k' dst (fbytes v i off m) m) s.
Proof.
  intros He U m Hdst Hlt Hacc I. assert (Hm : 0 <= m) by (unfold m, read_len; lia).
  eapply readi_clamp; [exact I|]. fold m.
  eapply wp_mono; [apply (readi_loop_spec ip v i true dst off m
    (fun t s1 => exists k', s1 = s0 <| fs_mem := k' |> /\ umem end_ k' l (fs_pt s0) T fr /\
       wrote fr (fs_mem s0) k' dst (fbytes v i off t) t)) with (s0 := s0); auto|].
  - unfold m, read_len. lia.
  - intros t k src s1 s0' v' Ht Hk Hle (k1 & -> & U1 & W1) Hsrc Hby I1.
    unfold either_copyout. apply wp_gets, wp_zoom.
    rewrite (is_pt _ _ _ _ _ _ I1), (is_mem _ _ _ _ _ _ I1). cbn [fs_pt fs_mem field_update].
    change (fs_pt (s0 <| fs_mem := k1 |>)) with (fs_pt s0). change (fs_mem (s0 <| fs_mem := k1 |>)) with k1.
    assert (Hls : k <= Z.of_nat (length src)).
    { pose proof (f_equal length Hsrc) as E. rewrite length_take, length_fbytes in E. lia. }
    assert (Hacc2 : accessible fr (dst + t) k).
    { intros j Hj. replace (dst + t + j) with (dst + (t + j)) by lia. apply Hacc. lia. }
    eapply wp_mono; [apply (copyout_spec end_ He k1 l (fs_pt s0) T fr U1 (dst + t) src k); auto; [lia|lia|zpow; lia]|].
    intros r k2 (U2 & [(-> & _ & W2)|(_ & Hna & _)]); [|done]. split; [done|].
    exists (s0 <| fs_mem := k2 |>). split; [destruct I1; split; done|]. exists k2. split_and!; auto.
    rewrite fbytes_app by lia. rewrite <- Hsrc.
    apply (wrote_trans end_ (fs_mem s0) k1 k2 l (fs_pt s0) T fr dst); auto; [by rewrite length_fbytes| |lia].
    intros j Hj. apply Hacc. lia.
  - exists (fs_mem s0). split_and!; [by destruct s0|done|]. split; [intros; lia|done].
  - intros _ s' (s0' & I' & k' & -> & U' & W'). split; [done|]. eauto.
Qed.

End ReadSpec.

(** ** [writei] *)

(** The bytes of the file with [bs] at [off]. *)
Definition patch (g : Z -> Z) (off : Z) (bs : list Z) (o : Z) : Z :=
  if decide (off <= o < off + Z.of_nat (length bs)) then default 0 (bs !! Z.to_nat (o - off)) else g o.

Section Write.

Context (C : gset Z).

Abbreviation quiet := (quiet sb0 dstart C).
Abbreviation budget := (budget D C).
Abbreviation fupd := (fupd sb0 dstart).
Abbreviation nfree := (nfree sb0).

(** [bs] was written at [off], and its blocks are there. *)
Record wrote_file (v : bview) (i : inode) (off : Z) (bs : list Z) (v' : bview) (i' : inode) : Prop := {
  wf_upd : fupd (patch (fbyte v i) off bs) v i v' i';
  wf_place : forall bn, off / BSIZE <= bn -> bn * BSIZE < off + Z.of_nat (length bs) -> bs <> [] -> fmap_ v' i' bn <> 0;
}.

Lemma wrote_none v i off : wrote_file v i off [] v i.
Proof.
  split; [|done]. destruct (grow_refl sb0 dstart v i). split; auto.
  intros o Ho. unfold patch. cbn. by rewrite decide_False by lia.
Qed.

(** One more chunk, inside one block of the file. *)
Lemma file_chunk v i off bs v1 i1 v2 i2 ch :
  let o := off + Z.of_nat (length bs) in
  let a := fmap_ v2 i2 (o / BSIZE) in
  let d := splice (Z.to_nat (o mod BSIZE)) ch (v_data v2 a) in
  0 <= off -> o / BSIZE < MAXFILE -> o mod BSIZE + Z.of_nat (length ch) <= BSIZE -> Forall is_byte ch ->
  wrote_file v i off bs v1 i1 -> grow sb0 dstart v1 i1 v2 i2 -> iwf v2 i2 -> quiet v2 -> a <> 0 ->
  wrote_file v i off (bs ++ ch) (v_write v2 a d) i2 /\ iwf (v_write v2 a d) i2 /\ quiet (v_write v2 a d).
Proof.
  intros o a d Hoff Hmax Hfit Hby [U P] G W Q Ha.
  assert (Ho : 0 <= o / BSIZE < MAXFILE) by fslia.
  pose proof (fupd_trans D sb0 dstart LY _ _ _ _ _ _ _ _ U G) as U2.
  destruct (iw_data _ _ _ _ _ W _ Ho Ha) as (Hr & Hu & Hh). fold a in Hr, Hu, Hh.
  assert (Hnb : ~ bmap_block sb0 a) by (intros Hb; pose proof (bmap_block_meta D sb0 dstart LY _ Hb); lia).
  assert (Hni : i_addr i2 NDIRECT <> 0 -> a <> i_addr i2 NDIRECT) by (intros _; by apply (iw_sep _ _ _ _ _ W)).
  destruct (qt_block _ _ _ _ Q a) as [Hl Hb].
  assert (Hsp : (Z.to_nat (o mod BSIZE) + length ch <= length (v_data v2 a))%nat) by (rewrite Hl; fslia).
  assert (Hd : block_ok d) by (split; [unfold d; by rewrite length_splice|by apply Forall_splice]).
  assert (Hfb : forall b, file_block v2 i2 b -> file_block (v_write v2 a d) i2 b).
  { intros b [Hb0 [Hb1|(bn & Hbn & Hb1)]]; split; auto. right. exists bn. split; [done|]. by rewrite write_fmap. }
  split_and!; [|by apply (write_iwf D sb0 dstart LY)|by apply (write_quiet D sb0 dstart LY)]. split; [split|].
  - apply U2.
  - intros bn Hbn Hne. rewrite write_fmap by done. by apply U2.
  - intros bn Hbn. rewrite write_fmap by done. by apply U2.
  - intros p Hp. destruct (decide (p / BSIZE = o / BSIZE)) as [E|E].
    + unfold fbyte. rewrite write_fmap by done. rewrite E. fold a. rewrite (proj2 (Z.eqb_neq _ _) Ha). cbn. rewrite upd_same.
      unfold d. rewrite splice_lookup by done. unfold patch. rewrite length_app.
      assert (Hold : fbyte v2 i2 p = patch (fbyte v i) off bs p) by (rewrite (fu_byte _ _ _ _ _ _ _ G) by done; by apply U).
      case_decide as E2.
      * rewrite decide_True by fslia. rewrite lookup_app_r by (unfold o in *; fslia). do 2 f_equal. unfold o in *. fslia.
      * unfold fbyte in Hold. rewrite E in Hold. fold a in Hold. rewrite (proj2 (Z.eqb_neq _ _) Ha) in Hold. rewrite Hold. unfold patch.
        destruct (decide (off <= p < off + Z.of_nat (length bs))) as [E3|E3].
        -- rewrite decide_True by lia. by rewrite lookup_app_l by lia.
        -- rewrite decide_False; [done|]. fold o in E3. unfold o in *. fslia.
    + rewrite write_fbyte; [|done|intros E1; apply E; apply (iw_inj _ _ _ _ _ W); [finlia|done|congruence|done]].
      rewrite (fu_byte _ _ _ _ _ _ _ G), (fu_byte _ _ _ _ _ _ _ U) by done. unfold patch. rewrite length_app.
      assert (Hch : ~ (o <= p < o + Z.of_nat (length ch))) by fslia. unfold o in *.
      destruct (decide (off <= p < off + Z.of_nat (length bs))); [rewrite decide_True by lia; by rewrite lookup_app_l by lia|].
      by rewrite decide_False by lia.
  - apply U2.
  - intros b Hbb Hub. rewrite (write_used D sb0 dstart LY) by done. by apply U2.
  - intros b Hbb. rewrite (write_used D sb0 dstart LY) by done. intros H1 H2. apply Hfb. by apply U2.
  - intros n. cbn. unfold upd. destruct (Z.eqb_spec n a) as [->|].
    + right. right. destruct (fu_new _ _ _ _ _ _ _ U2 _ Ho) as [E|[E1 E2]]; [right|left].
      * split; [done|]. right. exists (o / BSIZE). split; [done|exact E].
      * split_and!; auto; [lia..|]. apply Hfb. split; [done|]. right. exists (o / BSIZE). split; [done|]. done.
    + destruct (fu_frame _ _ _ _ _ _ _ U2 n) as [?|[?|[(? & ? & ?)|?]]]; auto. right. right. left. split_and!; auto; lia.
  - apply U2.
  - intros bn Hlo Hhi Hne. rewrite write_fmap by done. rewrite length_app in Hhi. destruct (decide (bn = o / BSIZE)) as [->|E]; [done|].
    assert (Hlt : bn < o / BSIZE) by fslia.
    assert (Hp : fmap_ v1 i1 bn <> 0) by (apply P; [done|fold o; fslia|intros ->; unfold o in Hlt; cbn in Hlt; fslia]).
    rewrite (fu_addr _ _ _ _ _ _ _ G) by (done || fslia). done.
Qed.

(** The blocks that bytes [t] to [n] of a write at [off] touch. *)
Definition nblk (off n t : Z) : Z := if t <? n then (off + n - 1) / BSIZE - (off + t) / BSIZE + 1 else 0.

Section Loop.

Context (ip : Z) (s0 : fst S) (v : bview) (i : inode) (user_src : bool) (src off n : Z) (bs : list Z).

Hypothesis Esb : sb s0 = sb0.
Hypothesis Hbs : Z.of_nat (length bs) = n /\ Forall is_byte bs.
Hypothesis Hoff : 0 <= off /\ off + n <= MAXFILE * BSIZE.
Hypothesis Hsrc : 0 <= src /\ src + n < 2 ^ 64.
Hypothesis copy : forall t m (s : fst S), 0 <= t -> 0 < m -> t + m <= n ->
  fs_mem s = fs_mem s0 -> fs_pt s = fs_pt s0 -> kvar s = kvar s0 ->
  wp (either_copyin user_src (src + t) m) (fun r s' => s' = s /\ r = (0, slice (Z.to_nat t) (Z.to_nat m) bs)) s.

(** The state when [t] bytes have been written. *)
Record wstate (t : Z) (s : fst S) (v' : bview) (i' : inode) : Prop := {
  ws_ist : ist s s0 v' ip i';
  ws_wrote : wrote_file v i off (take (Z.to_nat t) bs) v' i';
  ws_iwf : iwf v' i';
  ws_quiet : quiet v';
  ws_budget : budget v' (2 * nblk off n t + 2);
  ws_free : 2 * nblk off n t <= Z.of_nat (nfree v');
}.

Lemma writei_block_spec t s v1 i1 :
  0 <= t <= n -> wstate t s v1 i1 ->
  wp (writei_block ip user_src n (t, off + t, src + t)) (fun r s' =>
    match r with
    | inr o => o = off + n /\ exists v' i', wstate n s' v' i'
    | inl x => exists m v' i', 0 < m /\ t + m <= n /\ x = (t + m, off + (t + m), src + (t + m)) /\ wstate (t + m) s' v' i'
    end) s.
Proof.
  intros Ht [I WR W Q HB Hf]. unfold writei_block. destruct (Z.ltb_spec t n) as [Hlt|Hge]; cbn [negb].
  2:{ apply wp_ret. assert (t = n) as -> by lia. split; [done|]. by exists v1, i1. }
  destruct Hbs as [Hlen Hby]. destruct Hoff as [Ho1 Ho2].
  set (m := Z.min (n - t) (BSIZE - (off + t) mod BSIZE)).
  assert (Hm : 0 < m <= n - t /\ (off + t) mod BSIZE + m <= BSIZE) by (unfold m; fslia).
  assert (Hk : nblk off n t = nblk off n (t + m) + 1 /\ 0 <= nblk off n (t + m)).
  { unfold nblk. rewrite (proj2 (Z.ltb_lt _ _)) by lia. unfold m in *. destruct (Z.ltb_spec (t + Z.min (n - t) (BSIZE - (off + t) mod BSIZE)) n); fslia. }
  set (k := nblk off n (t + m)) in *. destruct Hk as [Hk Hk0]. rewrite Hk in HB, Hf.
  assert (Hbn : 0 <= (off + t) / BSIZE < MAXFILE) by finlia.
  eapply wp_seq; [apply (bmap_spec D rep sb0 dstart LY C s0 ip Esb s v1 i1 ((off + t) / BSIZE) (2 * k + 2)); auto; [lia| |lia]|].
  { by replace (2 * k + 2 + 2) with (2 * (k + 1) + 2) by lia. }
  intros a s1 (v2 & i2 & I2 & [S1 S2 S3 S4 S5] & -> & Ha & Hpin).
  eapply ist_get; [exact I2|]. rewrite (iw_dev _ _ _ _ _ S2). set (a := fmap_ v2 i2 ((off + t) / BSIZE)) in *.
  destruct (iw_data _ _ _ _ _ S2 _ Hbn Ha) as (Hr & Hu & Hh). fold a in Hr, Hu, Hh.
  assert (Hnb : ~ bmap_block sb0 a) by (intros Hb; pose proof (bmap_block_meta D sb0 dstart LY _ Hb); lia).
  eapply (at_fread D rep _ _ _ _ (ist_self rep _ _ _ _ _ I2) a); [done|eapply (budget_used D C); [exact S4|lia]|]. intros bp s2 R2.
  pose proof (ist_at rep _ _ _ _ _ _ _ I2 R2) as I3. fold m.
  eapply wp_seq; [apply (copy t m s2); [lia..|apply I3|apply I3|apply I3]|]. intros r s3 [-> ->].
  eapply (at_fdata D rep _ _ _ _ R2); [cbn; apply lookup_insert_eq|]. cbn [Z.eqb].
  change (v_data (v_get v2 a bp) a) with (v_data v2 a). set (ch := slice (Z.to_nat t) (Z.to_nat m) bs).
  assert (Hch : length ch = Z.to_nat m) by (apply length_slice; lia).
  assert (Ht' : Z.of_nat (length (take (Z.to_nat t) bs)) = t) by (rewrite length_take; lia).
  destruct (file_chunk v i off (take (Z.to_nat t) bs) v1 i1 v2 i2 ch) as (WR' & W' & Q'); rewrite ?Ht'; auto; [lia|lia|by apply Forall_slice|].
  rewrite Ht' in WR', W', Q'. fold a in WR', W', Q'.
  eapply (at_update D rep _ s2 s1 v2 a bp); [exact R2|done|apply S1|eapply (budget_pins D C); [exact S4|lia]|by apply (data_ok D sb0 dstart LY)|].
  intros s4 R4. apply wp_ret. exists m. eexists _, i2. split_and!; [lia|lia| |split; [exact (ist_at rep _ _ _ _ _ _ _ I2 R4)| |exact W'|exact Q'| |]].
  - rewrite u64_small by (zpow; lia). f_equal; [f_equal|]; lia.
  - assert (E : take (Z.to_nat (t + m)) bs = take (Z.to_nat t) bs ++ ch); [|by rewrite E].
    unfold ch, slice. rewrite take_take_drop. f_equal. lia.
  - fold k. destruct Hpin as [Hb|Hp]; [by apply budget_write|apply budget_absorb; [by right|done]].
  - fold k. pose proof (nfree_write D sb0 dstart LY v2 a (splice (Z.to_nat ((off + t) mod BSIZE)) ch (v_data v2 a)) Hnb). lia.
Qed.

Lemma writei_loop_spec s :
  wstate 0 s v i ->
  wp (while_ (writei_block ip user_src n) (0, off, src)) (fun o s' => o = off + n /\ exists v' i', wstate n s' v' i') s.
Proof.
  intros Hw. apply (wp_while _ (fun x s' => exists t v' i', x = (t, off + t, src + t) /\ 0 <= t <= n /\ wstate t s' v' i')
    _ (fun x => n - x.1.1)).
  - intros x s1 (t & v1 & i1 & -> & Ht & W1). eapply wp_mono; [by apply (writei_block_spec t s1 v1 i1)|].
    intros [x|o] s2; [|done]. intros (m & v2 & i2 & Hm & Hle & -> & W2). cbn. split; [|lia]. exists (t + m), v2, i2. split_and!; auto; lia.
  - exists 0, v, i. split_and!; [f_equal; [f_equal|]; lia|lia|lia|done].
  - intros x s1 (t & v1 & i1 & -> & Ht & _). cbn. lia.
  - cbn. destruct Hsrc. zpow. lia.
Qed.

End Loop.

(** The blocks that a write to file [i] may change. *)
Definition may_change (v : bview) (i : inode) (v' : bview) (i' : inode) : Prop := forall n,
  v_data v' n = v_data v n \/ bmap_block sb0 n \/ n = IBLOCK (i_inum i) sb0 \/
  (dstart <= n < sb_size sb0 /\ used v sb0 n = false /\ file_block v' i' n) \/ file_block v i n.

(** A block of the file is in use. *)
Lemma iwf_block v i n : iwf v i -> file_block v i n -> owned_block sb0 dstart v n.
Proof. intros W [Hn [->|(bn & Hbn & ->)]]; by apply W. Qed.

(** The blocks of other files are not among them. *)
Lemma may_change_other v i v' i' i2 : may_change v i v' i' -> 0 <= i_inum i < sb_ninodes sb0 -> iwf v i2 ->
  (forall n, file_block v i2 n -> ~ file_block v i n) ->
  forall o, 0 <= o < MAXFILE * BSIZE -> fbyte v' i2 o = fbyte v i2 o.
Proof.
  intros H Hin W2 Hdis o Ho. destruct (iblock_meta D sb0 dstart LY _ Hin) as (Hib & _).
  assert (E : forall n, file_block v i2 n -> v_data v' n = v_data v n).
  { intros n Hn. destruct (iwf_block _ _ _ W2 Hn) as (Hr & Hu & _).
    destruct (H n) as [?|[Hb|[->|[(_ & ? & _)|?]]]]; [done| |lia|congruence|by destruct (Hdis n)].
    pose proof (bmap_block_meta D sb0 dstart LY _ Hb). lia. }
  assert (Em : forall bn, fmap_ v' i2 bn = fmap_ v i2 bn).
  { intros bn. unfold fmap_. destruct (bn <? NDIRECT); [done|]. destruct (Z.eqb_spec (i_addr i2 NDIRECT) 0); [done|].
    rewrite E; [done|]. split; auto. }
  assert (Hbn : 0 <= o / BSIZE < MAXFILE) by finlia. unfold fbyte. rewrite Em.
  destruct (Z.eqb_spec (fmap_ v i2 (o / BSIZE)) 0); [done|]. rewrite E; [done|]. split; eauto.
Qed.

(** Nor are the blocks of the inodes, before [iupdate]. *)
Lemma fupd_inodes g v i v' i' inum j : fupd g v i v' i' -> iwf v i -> 0 <= inum < sb_ninodes sb0 -> disk_inode sb0 v' inum j = disk_inode sb0 v inum j.
Proof.
  intros U W Hin. unfold disk_inode. destruct (iblock_meta D sb0 dstart LY _ Hin) as (Hib & Hnb & _).
  destruct (fu_frame _ _ _ _ _ _ _ U (IBLOCK inum sb0)) as [->|[?|[?|Hf]]]; [done|done|lia|].
  destruct (iwf_block _ _ _ W Hf) as [? _]. lia.
Qed.

(** What [writei] of [bs] at [off] leaves: the file has the new bytes and the new
    size, and its inode is on disk.  The blocks in use are those there were and
    those of the file; every other inode on disk is the same, as are the bytes of
    every file that shares no block with this one, and outside the bitmap and the
    inode's block only blocks of the file have changed, which were its own or free. *)
Record written (v : bview) (i : inode) (off : Z) (bs : list Z) (v' : bview) (i' : inode) : Prop := {
  wr_quiet : quiet v';
  wr_iwf : iwf v' i';
  wr_rest : i' = i <| i_addrs := i_addrs i' |> <| i_size := Z.max (i_size i) (off + Z.of_nat (length bs)) |>;
  wr_holes : no_holes v' i';
  wr_byte : forall o, 0 <= o < MAXFILE * BSIZE -> fbyte v' i' o = patch (fbyte v i) off bs o;
  wr_disk : forall j, disk_inode sb0 v' (i_inum i) j = with_disk i' j;
  wr_inodes : forall inum j, 0 <= inum < sb_ninodes sb0 -> inum <> i_inum i -> disk_inode sb0 v' inum j = disk_inode sb0 v inum j;
  wr_used : forall b, 0 <= b < sb_size sb0 -> used v' sb0 b = true <-> used v sb0 b = true \/ file_block v' i' b;
  wr_frame : may_change v i v' i';
  wr_other : forall i2, iwf v i2 -> (forall n, file_block v i2 n -> ~ file_block v i n) ->
    forall o, 0 <= o < MAXFILE * BSIZE -> fbyte v' i2 o = fbyte v i2 o;
  wr_held : v_held v' = v_held v;
  wr_budget : budget v' 2;
}.

Lemma wrote_written v i off bs v' i' :
  let i2 := i' <| i_size := Z.max (i_size i) (off + Z.of_nat (length bs)) |> in
  iwf v i -> no_holes v i -> inode_fits i -> 0 <= i_inum i < sb_ninodes sb0 ->
  bs <> [] -> 0 <= off <= i_size i -> off + Z.of_nat (length bs) <= MAXFILE * BSIZE ->
  IBLOCK (i_inum i) sb0 ∈ C -> budget v' 2 ->
  wrote_file v i off bs v' i' -> iwf v' i' -> quiet v' -> written v i off bs (v_iupdate sb0 v' i2) i2.
Proof.
  intros i2 W [Hs NH] Hfit Hin Hne Hoff Hmax HC HB [U P] W' Q'. pose proof (fu_rest _ _ _ _ _ _ _ U) as Er.
  assert (En : i_inum i2 = i_inum i) by (cbn; rewrite Er; done).
  assert (W2 : iwf v' i2) by (by apply iwf_size). change (MAXFILE * BSIZE) with 274432 in *.
  assert (F2 : inode_fits i2).
  { eapply (iwf_fits D sb0 dstart LY v' i i2); [done|done|cbn; rewrite Er; done..|]. cbn. zpow. lia. }
  destruct (iupdate_file D sb0 dstart LY C v' i2 i2) as (Q3 & W3 & M3 & B3); auto; [by rewrite En|].
  assert (FB : forall b, file_block v' i' b <-> file_block (v_iupdate sb0 v' i2) i2 b).
  { intros b. unfold file_block. setoid_rewrite M3. done. }
  assert (CH : may_change v i (v_iupdate sb0 v' i2) i2).
  { intros n. unfold v_iupdate. cbn [v_data v_write]. rewrite En. unfold v_write. cbn. unfold upd.
    destruct (Z.eqb_spec n (IBLOCK (i_inum i) sb0)); [auto|].
    destruct (fu_frame _ _ _ _ _ _ _ U n) as [?|[?|[(? & ? & Hf)|?]]]; auto 6. right. right. right. left. split_and!; [lia|lia|done|].
    apply FB in Hf. unfold v_iupdate in Hf. by rewrite En in Hf. }
  split; auto.
  - unfold i2. rewrite Er. by destruct i.
  - split; [unfold i2; cbn [i_size field_update]; change (MAXFILE * BSIZE) with 274432; cbn; lia|]. intros bn Hbn Hlt. rewrite M3. change (fmap_ v' i2 bn) with (fmap_ v' i' bn).
    change (i_size i2) with (Z.max (i_size i) (off + Z.of_nat (length bs))) in Hlt.
    destruct (decide (bn * BSIZE < i_size i)) as [Hold|Hold].
    + rewrite (fu_addr _ _ _ _ _ _ _ U); [by apply NH|finlia|by apply NH].
    + apply P; auto; fslia.
  - intros o Ho. rewrite B3 by done. change (fbyte v' i2 o) with (fbyte v' i' o). by apply U.
  - intros j. rewrite <- En. rewrite (iupdate_disk D sb0 dstart LY C v' i2 (i_inum i2) j); auto; [|by rewrite En..]. by rewrite decide_True.
  - intros inum j Hi2 Hne2. rewrite (iupdate_disk D sb0 dstart LY C) by (done || by rewrite En). rewrite decide_False by (by rewrite En).
    by apply (fupd_inodes _ _ _ _ _ _ _ U).
  - intros b Hb. split.
    + unfold v_iupdate. rewrite (write_used D sb0 dstart LY), <- FB by (done || rewrite En; apply (iblock_meta D sb0 dstart LY); done). intros Hu.
      destruct (used v sb0 b) eqn:E; [by left|right]. by apply (fu_bits _ _ _ _ _ _ _ U).
    + intros [Hu|Hf]; [|by apply (iwf_block _ _ _ W3 Hf)].
      unfold v_iupdate. rewrite (write_used D sb0 dstart LY) by (done || rewrite En; apply (iblock_meta D sb0 dstart LY); done). by apply U.
  - intros i3. by apply (may_change_other v i _ _ i3 CH).
  - apply U.
  - apply budget_absorb; [left; by rewrite En|done].
Qed.

Section WriteSpec.

Context (ip : Z) (s s0 : fst S) (v : bview) (i : inode) (off : Z) (bs : list Z).

Hypothesis I : ist s s0 v ip i.
Hypothesis Esb : sb s0 = sb0.
Hypothesis Q : quiet v.
Hypothesis W : iwf v i.
Hypothesis NH : no_holes v i.
Hypothesis Hfit : inode_fits i.
Hypothesis Hin : 0 <= i_inum i < sb_ninodes sb0.
Hypothesis Hheld : v_held v !! IBLOCK (i_inum i) sb0 = None.
Hypothesis Hbs : bs <> [] /\ Forall is_byte bs.
Hypothesis Hoff : 0 <= off <= i_size i.
Hypothesis Hmax : off + Z.of_nat (length bs) <= MAXFILE * BSIZE.
Hypothesis HC : IBLOCK (i_inum i) sb0 ∈ C.
Hypothesis Hlog : budget v (2 * nblk off (Z.of_nat (length bs)) 0 + 2).
Hypothesis Hfree : 2 * nblk off (Z.of_nat (length bs)) 0 <= Z.of_nat (nfree v).

Abbreviation n := (Z.of_nat (length bs)).

Lemma writei_spec user_src src :
  0 <= src -> src + n < 2 ^ 64 ->
  (forall t m (s : fst S), 0 <= t -> 0 < m -> t + m <= n -> fs_mem s = fs_mem s0 -> fs_pt s = fs_pt s0 -> kvar s = kvar s0 ->
    wp (either_copyin user_src (src + t) m) (fun r s' => s' = s /\ r = (0, slice (Z.to_nat t) (Z.to_nat m) bs)) s) ->
  wp (writei ip user_src src off n) (fun r s' => r = n /\ exists v' i', ist s' s0 v' ip i' /\ written v i off bs v' i') s.
Proof.
  intros Hs1 Hs2 Hcopy. destruct Hbs as [Hne Hby]. change (MAXFILE * BSIZE) with 274432 in *.
  assert (Hn : 0 < n) by (destruct bs; [done|cbn; lia]).
  unfold writei. eapply ist_get; [exact I|].
  rewrite Z.gtb_ltb, (proj2 (Z.ltb_ge _ _)) by lia. rewrite u32_small by (zpow; lia).
  rewrite (proj2 (Z.ltb_ge (off + n) off)) by lia. cbn [orb].
  rewrite Z.gtb_ltb, (proj2 (Z.ltb_ge _ _)) by (change (MAXFILE * BSIZE) with 274432; lia).
  eapply wp_seq.
  - apply (writei_loop_spec ip s0 v i user_src src off n bs); auto; [change (MAXFILE * BSIZE) with 274432; lia|].
    split; auto. apply wrote_none.
  - intros o s1 (-> & v1 & i1 & [I1 WR W1 Q1 B1 _]). rewrite firstn_all2 in WR by lia.
    rewrite Z.gtb_ltb, (proj2 (Z.ltb_lt _ _)) by lia. apply wp_bind.
    eapply ist_set; [exact I1|]. intros s2 I2.
    pose proof (fu_rest _ _ _ _ _ _ _ (wf_upd _ _ _ _ _ _ WR)) as Er.
    set (i2 := i1 <| i_size := Z.max (i_size i) (off + n) |>).
    assert (E2 : (if off + n >? i_size i1 then i1 <| i_size := off + n |> else i1) = i2).
    { unfold i2. assert (Es : i_size i1 = i_size i) by (rewrite Er; done). rewrite Z.gtb_ltb, Es.
      destruct (Z.ltb_spec (i_size i) (off + n)); [by rewrite Z.max_r by lia|]. rewrite Z.max_l, <- Es by lia. by destruct i1. }
    rewrite E2 in I2.
    assert (En : i_inum i2 = i_inum i) by (unfold i2; cbn; rewrite Er; done).
    eapply wp_mono; [apply (iupdate_spec D rep sb0 dstart LY C s2 s0 v1 ip i2); auto|].
    + unfold i2. cbn. apply W1.
    + by rewrite En.
    + rewrite En, (fu_held _ _ _ _ _ _ _ (wf_upd _ _ _ _ _ _ WR)). done.
    + eapply budget_mono; [|exact B1]. unfold nblk. rewrite Z.ltb_irrefl. lia.
    + intros [] s3 I3. apply wp_ret. rewrite s32_small by (zpow; lia). split; [done|].
      eexists _, _. split; [exact I3|]. apply wrote_written; auto; try lia.
      unfold nblk in B1. by rewrite Z.ltb_irrefl in B1.
Qed.

(** From a variable of the kernel. *)
Lemma writei_kernel src :
  0 <= src -> src + n < 2 ^ 64 -> slice (Z.to_nat src) (length bs) (kvar s0) = bs ->
  wp (writei ip false src off n) (fun r s' => r = n /\ exists v' i', ist s' s0 v' ip i' /\ written v i off bs v' i') s.
Proof.
  intros H1 H2 Hk. apply writei_spec; auto. intros t m s1 Ht Hm Hle _ _ E. unfold either_copyin, gets, wp. split; [done|].
  rewrite E. set (l := kvar s0) in *. rewrite <- Hk, slice_slice by lia. f_equal. f_equal. lia.
Qed.

(** From the memory of the process. *)
Lemma writei_user src end_ l T fr :
  0 < end_ -> umem end_ (fs_mem s0) l (fs_pt s0) T fr ->
  0 <= src -> src + n < 2 ^ 64 -> accessible fr src n -> ubytes (fs_mem s0) fr src n = bs ->
  wp (writei ip true src off n) (fun r s' => r = n /\ exists v' i', ist s' s0 v' ip i' /\ written v i off bs v' i') s.
Proof.
  intros He U H1 H2 Hacc Hk. apply writei_spec; auto. intros t m s1 Ht Hm Hle Em Ep _. unfold either_copyin.
  apply wp_gets, wp_zoom. rewrite Em, Ep. assert (Ha : accessible fr (src + t) m).
  { intros j Hj. replace (src + t + j) with (src + (t + j)) by lia. apply Hacc. lia. }
  eapply wp_mono; [apply (copyin_spec end_ He _ _ _ _ _ U (src + t) m); [lia|zpow; lia]|].
  intros r k' (-> & [(-> & _)|(_ & Hno)]); [|done]. split; [rewrite <- Em; by destruct s1|].
  by rewrite <- Hk, ubytes_slice by lia.
Qed.

End WriteSpec.

End Write.

End File.
