(* ===== verification/FsTrunc.v ===== *)
(** * [itrunc]: the blocks of a file go back to the bitmap

    [itrunc] frees the direct blocks, the blocks of the indirect block and the
    indirect block itself, each once, and leaves an inode without blocks. *)
From stdpp Require Import base list gmap strings.
From Stdlib Require Import ZArith Lia.
From S2P Require Import Prelude KString Riscv Kalloc Vm Sleeplock Bio Blocks Fs FsBlock FsInode FsMeta.

#[local] Open Scope Z_scope.
#[local] Open Scope xv6_scope.

Section Trunc.

Context {S : Type} {L : BlockLayer S} (D : device) (rep : S -> bview -> Prop) {HL : BlockLaws S D rep}.
Context (sb0 : superblock) (dstart : Z) (LY : layout D sb0 dstart) (C : gset Z).

Abbreviation quiet := (quiet sb0 dstart C).
Abbreviation budget := (budget D C).
Abbreviation iwf := (iwf D sb0 dstart).
Abbreviation ist := (ist rep).
Abbreviation owned_block := (owned_block sb0 dstart).

(** [v'] is [v] with the blocks of [F] free. *)
Record freed (v : bview) (F : gset Z) (v' : bview) : Prop := {
  fd_quiet : quiet v';
  fd_pins : v_pins v' ∪ C = v_pins v ∪ C;
  fd_held : v_held v' = v_held v;
  fd_data : forall n, ~ bmap_block sb0 n -> v_data v' n = v_data v n;
  fd_used : forall b, 0 <= b < sb_size sb0 -> used v' sb0 b = used v sb0 b && bool_decide (b ∉ F);
}.

Lemma freed_budget v F v' k : freed v F v' -> budget v k -> budget v' k.
Proof.
  intros Fd. unfold FsBlock.budget, v_used. rewrite (fd_held _ _ _ Fd), (fd_pins _ _ _ Fd), <- !(assoc_L (∪)), (fd_pins _ _ _ Fd). done.
Qed.

Lemma freed_none v : quiet v -> freed v ∅ v.
Proof. intros Q. split; auto. intros b Hb. rewrite bool_decide_true by set_solver. by rewrite andb_true_r. Qed.

Lemma freed_step v F v1 b : freed v F v1 -> owned_block v b -> freed v ({[b]} ∪ F) (v_free v1 sb0 b).
Proof.
  intros [Q H0 H1 H2 H3] (Hb & Hu & Hh). pose proof (ly_data _ _ _ LY).
  destruct (BBLOCK_eq D sb0 dstart LY b ltac:(lia)) as [_ M]. split.
  - apply (quiet_free D sb0 dstart LY C); auto. by rewrite H1.
  - cbn. rewrite <- H0. pose proof (qt_C _ _ _ _ Q _ M). set_solver.
  - done.
  - intros n Hn. unfold v_free. cbn. rewrite upd_other by (intros ->; done). by apply H2.
  - intros b' Hb'. rewrite (used_free D sb0 dstart LY C v1 b b') by (done || lia). case_decide as E.
    + subst. rewrite bool_decide_false by set_solver. by rewrite andb_false_r.
    + rewrite H3 by done. f_equal. apply bool_decide_ext. set_solver.
Qed.

(** [bfree] inside the loops. *)
Lemma ist_bfree {A} s s0 v F v1 ip i b (Q : A -> fst S -> Prop) (k : unit -> M (fst S) A) :
  ist s s0 v1 ip i -> sb s0 = sb0 -> budget v 1 -> freed v F v1 -> owned_block v b -> b ∉ F ->
  (forall s', ist s' s0 (v_free v1 sb0 b) ip i -> freed v ({[b]} ∪ F) (v_free v1 sb0 b) -> wp (k tt) Q s') ->
  wp (bind (bfree (d_dev D) b) k) Q s.
Proof.
  intros I Es HB Fd Ho Hn Hk. pose proof (ly_data _ _ _ LY). pose proof Ho as (Hb & Hu & _).
  eapply wp_seq; [apply (bfree_spec D rep sb0 dstart LY C s s v1 b (ist_self rep _ _ _ _ _ I))|].
  - by rewrite (is_sb _ _ _ _ _ _ I).
  - apply Fd.
  - by eapply freed_budget.
  - lia.
  - rewrite (fd_used _ _ _ Fd) by lia. rewrite Hu, bool_decide_true by done. done.
  - intros [] s' R. apply Hk; [exact (ist_at rep _ _ _ _ _ _ _ I R)|by apply freed_step].
Qed.

(** ** The direct blocks *)

(** [i'] is [i] with entries [k] to [k+n] of [addrs] cleared. *)
Record cleared (i : inode) (k n : Z) (i' : inode) : Prop := {
  cl_rest : i' = i <| i_addrs := i_addrs i' |>;
  cl_len : length (i_addrs i') = 13%nat;
  cl_addr : forall j, 0 <= j -> i_addr i' j = if decide (k <= j < k + n) then 0 else i_addr i j;
}.

Lemma cleared_none i k : length (i_addrs i) = 13%nat -> cleared i k 0 i.
Proof. intros H. split; [by destruct i|done|]. intros j Hj. by rewrite decide_False by lia. Qed.

Lemma cleared_set i k n :
  length (i_addrs i) = 13%nat -> 0 <= k <= NDIRECT -> 0 <= n ->
  forall i', cleared (i <| i_addrs := <[Z.to_nat k := 0]> (i_addrs i) |>) (k + 1) n i' -> cleared i k (n + 1) i'.
Proof.
  intros Hl Hk Hn i' [C1 C2 C3]. split; [rewrite C1; done|done|].
  intros j Hj. rewrite C3, i_addr_set by done. repeat case_decide; lia || done.
Qed.

Lemma cleared_skip i k n i' : 0 <= k -> i_addr i k = 0 -> 0 <= n -> cleared i (k + 1) n i' -> cleared i k (n + 1) i'.
Proof.
  intros Hk Hz Hn [C1 C2 C3]. split; [done|done|].
  intros j Hj. rewrite C3 by done. destruct (decide (j = k)) as [->|]; [rewrite decide_False, decide_True by lia; done|].
  repeat case_decide; lia || done.
Qed.

Lemma trunc_direct_spec n s0 ip v k : forall s v1 i1 F,
  ist s s0 v1 ip i1 -> sb s0 = sb0 -> i_dev i1 = d_dev D -> length (i_addrs i1) = 13%nat ->
  0 <= k -> k + Z.of_nat n <= NDIRECT -> budget v 1 -> freed v F v1 ->
  (forall j, k <= j < k + Z.of_nat n -> i_addr i1 j <> 0 -> owned_block v (i_addr i1 j) /\ i_addr i1 j ∉ F) ->
  (forall j j', k <= j < k + Z.of_nat n -> k <= j' < k + Z.of_nat n -> i_addr i1 j <> 0 -> i_addr i1 j = i_addr i1 j' -> j = j') ->
  wp (trunc_direct n ip k) (fun _ s' => exists v2 i2 F2, ist s' s0 v2 ip i2 /\ freed v F2 v2 /\
    cleared i1 k (Z.of_nat n) i2 /\
    forall b, b ∈ F2 <-> b ∈ F \/ b <> 0 /\ exists j, k <= j < k + Z.of_nat n /\ b = i_addr i1 j) s.
Proof.
  revert k. induction n as [|n IH]; intros k s v1 i1 F I Es Hd Hl Hk Hkn HB Fd Ho Hinj; cbn [trunc_direct].
  { apply wp_ret. exists v1, i1, F. split_and!; auto; [by apply cleared_none|].
    intros b. split; [auto|]. intros [?|(_ & j & Hj & _)]; [done|lia]. }
  rewrite Nat2Z.inj_succ in *. eapply ist_get; [exact I|].
  destruct (Z.eqb_spec (i_addr i1 k) 0) as [Hz|Hz]; apply wp_bind.
  - apply wp_ret. eapply wp_mono; [apply (IH (k + 1) s v1 i1 F); auto; try lia|].
    + intros j Hj. apply Ho. lia.
    + intros j j' Hj Hj'. apply Hinj; lia.
    + intros _ s' (v2 & i2 & F2 & I2 & Fd2 & Cl & HF). exists v2, i2, F2. split_and!; auto.
      * apply cleared_skip; auto; lia.
      * intros b. rewrite HF. split; (intros [?|(Hb & j & Hj & ->)]; [by left|right; split; [done|]]).
        { exists j. split; [lia|done]. }
        { destruct (decide (j = k)) as [->|]; [done|]. exists j. split; [lia|done]. }
  - rewrite Hd. destruct (Ho k) as [Hok Hnk]; [lia|done|].
    eapply (ist_bfree s s0 v F v1 ip i1); eauto. intros s1 I1 Fd1.
    eapply ist_set_end; [exact I1|]. intros s2 I2. set (i2 := i1 <| i_addrs := _ |>) in *.
    assert (Ea : forall j, 0 <= j -> j <> k -> i_addr i2 j = i_addr i1 j).
    { intros j Hj Hne. unfold i2. rewrite i_addr_set by (done || lia). by rewrite decide_False. }
    eapply wp_mono; [apply (IH (k + 1) s2 (v_free v1 sb0 (i_addr i1 k)) i2 ({[i_addr i1 k]} ∪ F)); auto; try lia|].
    + unfold i2. cbn. by rewrite length_insert.
    + intros j Hj. rewrite Ea by lia. intros Hne. destruct (Ho j) as [? ?]; [lia|done|]. split; [done|].
      apply not_elem_of_union. split; [|done]. rewrite elem_of_singleton. intros E.
      assert (j = k) by (apply Hinj; auto; lia). lia.
    + intros j j' Hj Hj'. rewrite !Ea by lia. apply Hinj; lia.
    + intros _ s' (v3 & i3 & F3 & I3 & Fd3 & Cl & HF). exists v3, i3, F3. split_and!; auto.
      * apply cleared_set; auto; lia.
      * intros b. rewrite HF, elem_of_union, elem_of_singleton. split.
        { intros [[->|?]|(Hb & j & Hj & ->)]; [right|by left|right].
          - split; [done|]. exists k. split; [lia|done].
          - split; [done|]. exists j. split; [lia|]. apply Ea; lia. }
        { intros [?|(Hb & j & Hj & ->)]; [auto|]. destruct (decide (j = k)) as [->|Hne]; [auto|].
          right. split; [done|]. exists j. split; [lia|]. symmetry. apply Ea; lia. }
Qed.

(** ** The blocks of the indirect block, which is locked by buffer [bp] *)

Lemma trunc_indirect_spec n s0 ip v ind bp i1 : forall k s v1 F,
  ist s s0 v1 ip i1 -> sb s0 = sb0 -> i_dev i1 = d_dev D -> ~ bmap_block sb0 ind -> v_held v !! ind = Some bp ->
  0 <= k -> budget v 1 -> freed v F v1 ->
  let a j := get_word (v_data v ind) j in
  (forall j, k <= j < k + Z.of_nat n -> a j <> 0 -> owned_block v (a j) /\ a j ∉ F) ->
  (forall j j', k <= j < k + Z.of_nat n -> k <= j' < k + Z.of_nat n -> a j <> 0 -> a j = a j' -> j = j') ->
  wp (trunc_indirect n ip bp k) (fun _ s' => exists v2 F2, ist s' s0 v2 ip i1 /\ freed v F2 v2 /\
    forall b, b ∈ F2 <-> b ∈ F \/ b <> 0 /\ exists j, k <= j < k + Z.of_nat n /\ b = a j) s.
Proof.
  induction n as [|n IH]; intros k s v1 F I Es Hd Hnb Hh Hk HB Fd a Ho Hinj; cbn [trunc_indirect].
  { apply wp_ret. exists v1, F. split_and!; auto. intros b. split; [auto|]. intros [?|(_ & j & Hj & _)]; [done|lia]. }
  rewrite Nat2Z.inj_succ in *. eapply ist_get; [exact I|].
  eapply (at_fdata D rep _ _ _ _ (ist_self rep _ _ _ _ _ I) ind); [by rewrite (fd_held _ _ _ Fd)|].
  rewrite (fd_data _ _ _ Fd) by done. fold (a k).
  destruct (Z.eqb_spec (a k) 0) as [Hz|Hz].
  - apply wp_bind, wp_ret. eapply wp_mono; [apply (IH (k + 1) s v1 F); auto; try lia|].
    + intros j Hj. apply Ho. lia.
    + intros j j' Hj Hj'. apply Hinj; lia.
    + intros _ s' (v2 & F2 & I2 & Fd2 & HF). exists v2, F2. split_and!; auto.
      intros b. rewrite HF. split; (intros [?|(Hb & j & Hj & ->)]; [by left|right; split; [done|]]).
      { exists j. split; [lia|done]. }
      { destruct (decide (j = k)) as [->|]; [done|]. exists j. split; [lia|done]. }
  - rewrite Hd. destruct (Ho k) as [Hok Hnk]; [lia|done|].
    eapply (ist_bfree s s0 v F v1 ip i1); eauto. intros s1 I1 Fd1.
    eapply wp_mono; [apply (IH (k + 1) s1 (v_free v1 sb0 (a k)) ({[a k]} ∪ F)); auto; try lia|].
    + intros j Hj Hne. destruct (Ho j) as [? ?]; [lia|done|]. split; [done|].
      apply not_elem_of_union. split; [|done]. rewrite elem_of_singleton. intros E.
      assert (j = k) by (apply Hinj; auto; lia). lia.
    + intros j j' Hj Hj'. apply Hinj; lia.
    + intros _ s' (v3 & F3 & I3 & Fd3 & HF). exists v3, F3. split_and!; auto.
      intros b. rewrite HF, elem_of_union, elem_of_singleton. split.
      { intros [[->|?]|(Hb & j & Hj & ->)]; [right|by left|right]; (split; [done|]); [exists k|exists j]; (split; [lia|done]). }
      { intros [?|(Hb & j & Hj & ->)]; [auto|]. destruct (decide (j = k)) as [->|Hne]; [auto|].
        right. split; [done|]. exists j. split; [lia|done]. }
Qed.

Lemma freed_trans v F1 v1 F2 v2 : freed v F1 v1 -> freed v1 F2 v2 -> freed v (F1 ∪ F2) v2.
Proof.
  intros [A1 A2 A3 A4 A5] [B1 B2 B3 B4 B5]. split; auto; [congruence|congruence| |].
  - intros n Hn. by rewrite B4, A4.
  - intros b Hb. rewrite B5, A5, <- andb_assoc by done. f_equal. rewrite <- bool_decide_and. apply bool_decide_ext. set_solver.
Qed.

Lemma freed_owned v F v1 b : freed v F v1 -> owned_block v b -> b ∉ F -> owned_block v1 b.
Proof.
  intros Fd (Hb & Hu & Hh) Hn. pose proof (ly_data _ _ _ LY). split_and!; [lia|lia| |by rewrite (fd_held _ _ _ Fd)].
  rewrite (fd_used _ _ _ Fd) by lia. by rewrite Hu, bool_decide_true.
Qed.

(** The indirect block is unlocked again. *)
Lemma freed_release v F v1 ind bp :
  owned_block v ind -> freed (v_get v ind bp) F v1 -> freed v F (v_rel v1 ind).
Proof.
  intros (Hb & Hu & Hh) [[Q1 Q2 Q3 Q4 Q5 Q6] Hbu H1 H2 H3]. cbn in H1.
  assert (Hd : forall n, v_held v1 !! n = None -> delete ind (v_held v1) !! n = None).
  { intros n Hn. rewrite lookup_delete. by case_decide. }
  split; [split; auto|..]; cbn; auto.
  - rewrite H1. by rewrite delete_insert_id.
Qed.

(** ** The whole file *)

(** What [itrunc] leaves: an empty file, on disk too, and its blocks are free;
    nothing else has changed. *)
Record truncated (v : bview) (i : inode) (v' : bview) (i' : inode) : Prop := {
  tr_inode : i' = i <| i_addrs := replicate 13 0 |> <| i_size := 0 |>;
  tr_quiet : quiet v';
  tr_used : forall b, 0 <= b < sb_size sb0 -> used v' sb0 b = true <-> used v sb0 b = true /\ ~ file_block v i b;
  tr_data : forall n, ~ bmap_block sb0 n -> n <> IBLOCK (i_inum i) sb0 -> v_data v' n = v_data v n;
  tr_disk : forall j, disk_inode sb0 v' (i_inum i) j = with_disk i' j;
  tr_held : v_held v' = v_held v;
}.

Lemma all_cleared i' : length (i_addrs i') = 13%nat -> (forall j, 0 <= j <= NDIRECT -> i_addr i' j = 0) -> i_addrs i' = replicate 13 0.
Proof.
  intros Hl H. apply list_eq. intros j. destruct (decide (j < 13)%nat) as [Hj|Hj].
  - rewrite lookup_replicate_2 by done. specialize (H (Z.of_nat j) ltac:(finlia)). unfold i_addr in H. rewrite Nat2Z.id in H.
    destruct (lookup_lt_is_Some_2 (i_addrs i') j) as [x Hx]; [lia|]. rewrite Hx in *. by f_equal.
  - rewrite !lookup_ge_None_2; [done|rewrite length_replicate; lia|lia].
Qed.

(** The end of [itrunc]. *)
Lemma itrunc_end s s0 v ip i v1 i1 F :
  ist s s0 v1 ip i1 -> sb s0 = sb0 -> freed v F v1 -> budget v 1 -> iwf v i -> i1 = i <| i_addrs := i_addrs i1 |> ->
  length (i_addrs i1) = 13%nat -> (forall j, 0 <= j <= NDIRECT -> i_addr i1 j = 0) ->
  (forall b, b ∈ F <-> file_block v i b) -> inode_fits i -> 0 <= i_inum i < sb_ninodes sb0 ->
  v_held v !! IBLOCK (i_inum i) sb0 = None ->
  wp (set_inode ip (fun i => i <| i_size := 0 |>) ;; iupdate ip)
    (fun _ s' => exists v' i', ist s' s0 v' ip i' /\ truncated v i v' i') s.
Proof.
  intros I Es Fd HB W Er Hl Hz HF Hfit Hin Hh. pose proof Fd as [Q _ H1 H2 H3]. eapply ist_set; [exact I|]. intros s1 I1.
  set (i2 := i1 <| i_size := 0 |>) in *.
  assert (E2 : i2 = i <| i_addrs := replicate 13 0 |> <| i_size := 0 |>).
  { unfold i2. rewrite Er. cbn. by rewrite (all_cleared i1 Hl Hz). }
  assert (En : i_inum i2 = i_inum i) by (by rewrite E2).
  assert (F2 : inode_fits i2).
  { destruct Hfit. rewrite E2. split; cbn; auto; [zpow; lia|]. repeat constructor; lia. }
  destruct (iblock_meta D sb0 dstart LY _ Hin) as (M1 & M2 & _).
  destruct (qt_block _ _ _ _ Q (IBLOCK (i_inum i) sb0)) as [Hlb Hb]. pose proof (dip_bound (i_inum i)).
  eapply wp_mono; [apply (iupdate_spec D rep sb0 dstart LY C s1 s0 v1 ip i2 I1 Es Q)|].
  - rewrite E2. apply W.
  - by rewrite En.
  - by rewrite En, H1.
  - by eapply freed_budget.
  - intros [] s2 I2. eexists _, _. split; [exact I2|]. unfold v_iupdate. rewrite En. split; auto.
    + apply (write_quiet D sb0 dstart LY); auto. split; [rewrite put_dinode_length; auto; lia|by apply put_dinode_ok].
    + intros b Hbb. rewrite (write_used D sb0 dstart LY), H3 by done. rewrite andb_true_iff, bool_decide_eq_true. by rewrite HF.
    + intros n Hn Hne. cbn. rewrite upd_other by done. by apply H2.
    + intros j. pose proof (iupdate_disk D sb0 dstart LY C v1 i2 (i_inum i2) j Q F2) as HD. unfold v_iupdate in HD. rewrite En, decide_True in HD by done. by apply HD.
Qed.

Lemma itrunc_spec s s0 v ip i :
  ist s s0 v ip i -> sb s0 = sb0 -> quiet v -> iwf v i -> inode_fits i -> 0 <= i_inum i < sb_ninodes sb0 ->
  v_held v !! IBLOCK (i_inum i) sb0 = None -> budget v 2 ->
  wp (itrunc ip) (fun _ s' => exists v' i', ist s' s0 v' ip i' /\ truncated v i v' i') s.
Proof.
  intros I Es Q W Hfit Hin Hh HB. pose proof (iw_len _ _ _ _ _ W) as Hl.
  assert (HB1 : budget v 1) by (eapply budget_mono; [|exact HB]; lia).
  assert (Ed : forall j, 0 <= j < NDIRECT -> fmap_ v i j = i_addr i j)
    by (intros j Hj; unfold fmap_; by rewrite (proj2 (Z.ltb_lt _ _)) by lia).
  unfold itrunc. eapply wp_seq.
  { apply (trunc_direct_spec (Z.to_nat NDIRECT) s0 ip v 0 s v i ∅); auto; try done; [apply W|by apply freed_none|..].
    - intros j Hj. change (0 + Z.of_nat (Z.to_nat NDIRECT)) with NDIRECT in Hj. rewrite <- Ed by done. intros Hne.
      split; [|set_solver]. apply W; [finlia|done].
    - intros j j' Hj Hj'. change (0 + Z.of_nat (Z.to_nat NDIRECT)) with NDIRECT in Hj, Hj'. rewrite <- !Ed by done.
      apply W; finlia. }
  intros [] s1 (v1 & i1 & F1 & I1 & Fd1 & [C1 C2 C3] & HF1). change (0 + Z.of_nat (Z.to_nat NDIRECT)) with NDIRECT in *.
  change (Z.of_nat (Z.to_nat NDIRECT)) with NDIRECT in *.
  assert (Hi1 : i_addr i1 NDIRECT = i_addr i NDIRECT) by (rewrite C3 by done; by rewrite decide_False by lia).
  eapply ist_get; [exact I1|]. rewrite Hi1. destruct (Z.eqb_spec (i_addr i NDIRECT) 0) as [Hz|Hz]; apply wp_bind.
  - apply wp_ret. eapply (itrunc_end s1 s0 v ip i v1 i1 F1); eauto.
    + intros j Hj. destruct (decide (j = NDIRECT)) as [->|]; [by rewrite Hi1|]. rewrite C3 by lia. by rewrite decide_True by lia.
    + intros b. rewrite HF1. split.
      * intros [?|(Hb & j & Hj & ->)]; [set_solver|]. split; [done|]. right. exists j. split; [finlia|]. by rewrite Ed.
      * intros [Hb [->|(bn & Hbn & ->)]]; [done|]. right. split; [done|].
        destruct (decide (bn < NDIRECT)) as [Hlt|Hge]; [exists bn; rewrite <- Ed by lia; split; [lia|done]|].
        unfold fmap_ in Hb. rewrite (proj2 (Z.ltb_ge _ _)), Hz in Hb by lia. done.
  - assert (Ed1 : i_dev i1 = d_dev D) by (rewrite C1; apply W).
    pose proof (iw_ind _ _ _ _ _ W Hz) as Hoi. set (ind := i_addr i NDIRECT) in *. pose proof Hoi as (Hr & Hu & Hhi).
    assert (Hnb : ~ bmap_block sb0 ind) by (intros Hb; pose proof (bmap_block_meta D sb0 dstart LY _ Hb); lia).
    assert (Ha : forall j, 0 <= j < NINDIRECT -> fmap_ v i (NDIRECT + j) = get_word (v_data v ind) j).
    { intros j Hj. unfold fmap_. fold ind. rewrite (proj2 (Z.ltb_ge _ _)), (proj2 (Z.eqb_neq _ _) Hz) by lia. f_equal. lia. }
    assert (HnF : forall bn, NDIRECT <= bn < MAXFILE -> fmap_ v i bn <> 0 -> fmap_ v i bn ∉ F1).
    { intros bn Hbn Hne Hin'. apply HF1 in Hin' as [?|(_ & j & Hj & E)]; [set_solver|]. rewrite <- Ed in E by lia.
      assert (bn = j) by (apply (iw_inj _ _ _ _ _ W); auto; finlia). lia. }
    assert (HiF : ind ∉ F1).
    { intros Hin'. apply HF1 in Hin' as [?|(_ & j & Hj & E)]; [set_solver|]. rewrite <- Ed in E by lia.
      apply (iw_sep _ _ _ _ _ W j); [finlia|congruence|done]. }
    pose proof (freed_owned _ _ _ _ Fd1 Hoi HiF) as Hoi1.
    pose proof (freed_budget _ _ _ 2 Fd1 HB) as HB2. rewrite Ed1.
    eapply (at_fread D rep _ _ _ _ (ist_self rep _ _ _ _ _ I1) ind); [apply Hoi1|eapply (budget_used D C); [exact HB2|lia]|]. intros bp s2 R2.
    pose proof (ist_at rep _ _ _ _ _ _ _ I1 R2) as I2.
    assert (Eda : v_data (v_get v1 ind bp) ind = v_data v ind) by (cbn; by apply (fd_data _ _ _ Fd1)).
    eapply wp_seq.
    { apply (trunc_indirect_spec (Z.to_nat NINDIRECT) s0 ip (v_get v1 ind bp) ind bp i1 0 s2 _ ∅ I2); auto; try done.
      - cbn. apply lookup_insert_eq.
      - by apply budget_get.
      - apply freed_none, (quiet_get D sb0 dstart LY); [apply Fd1|done].
      - intros j Hj. change (0 + Z.of_nat (Z.to_nat NINDIRECT)) with NINDIRECT in Hj. rewrite Eda, <- Ha by done.
        intros Hne. split; [|set_solver].
        assert (Hx : owned_block v1 (fmap_ v i (NDIRECT + j))) by (apply (freed_owned _ _ _ _ Fd1); [apply W; [finlia|done]|apply HnF; [finlia|done]]).
        destruct Hx as (X1 & X2 & X3). split_and!; auto; [lia|lia|]. cbn. rewrite lookup_insert_ne; [done|].
        intros E. apply (iw_sep _ _ _ _ _ W (NDIRECT + j)); [finlia|done|done].
      - intros j j' Hj Hj'. change (0 + Z.of_nat (Z.to_nat NINDIRECT)) with NINDIRECT in Hj, Hj'. rewrite Eda, <- !Ha by done.
        intros Hne E. apply (iw_inj _ _ _ _ _ W) in E; [lia|finlia|finlia|done]. }
    intros [] s3 (v3 & F3 & I3 & Fd3 & HF3). change (0 + Z.of_nat (Z.to_nat NINDIRECT)) with NINDIRECT in *. rewrite Eda in HF3.
    eapply (at_frelse D rep _ _ _ _ (ist_self rep _ _ _ _ _ I3) ind); [rewrite (fd_held _ _ _ Fd3); cbn; apply lookup_insert_eq| |].
    { rewrite (qt_dirty _ _ _ _ (fd_quiet _ _ _ Fd3)). set_solver. }
    intros s4 R4. pose proof (ist_at rep _ _ _ _ _ _ _ I3 R4) as I4.
    pose proof (freed_trans _ _ _ _ _ Fd1 (freed_release _ _ _ _ _ Hoi1 Fd3)) as Fd4.
    assert (HF4 : forall b, b ∈ F1 ∪ F3 <-> b <> 0 /\ exists bn, 0 <= bn < MAXFILE /\ b = fmap_ v i bn).
    { intros b. rewrite elem_of_union, HF1, HF3. split.
      - intros [[?|(Hb & j & Hj & ->)]|[?|(Hb & j & Hj & ->)]]; [set_solver| |set_solver|]; (split; [done|]).
        + exists j. rewrite Ed by done. split; [finlia|done].
        + exists (NDIRECT + j). rewrite Ha by done. split; [finlia|done].
      - intros (Hb & bn & Hbn & ->). destruct (decide (bn < NDIRECT)) as [Hlt|Hge].
        + left. right. split; [done|]. exists bn. rewrite <- Ed by lia. split; [lia|done].
        + right. right. split; [done|]. exists (bn - NDIRECT). rewrite <- Ha by finlia. split; [finlia|]. f_equal. lia. }
    eapply ist_get; [exact I4|]. rewrite Ed1, Hi1. fold ind.
    eapply (ist_bfree s4 s0 v (F1 ∪ F3) _ ip i1); eauto.
    { rewrite HF4. intros (_ & bn & Hbn & E). apply (iw_sep _ _ _ _ _ W bn Hbn); [congruence|done]. }
    intros s5 I5 Fd5. eapply ist_set_end; [exact I5|]. intros s6 I6. set (i6 := i1 <| i_addrs := _ |>) in *.
    assert (Ea6 : forall j, 0 <= j -> i_addr i6 j = if decide (j = NDIRECT) then 0 else i_addr i1 j).
    { intros j Hj. unfold i6. by apply i_addr_set. }
    eapply (itrunc_end s6 s0 v ip i _ i6 _ I6 Es Fd5); eauto.
    + unfold i6. rewrite C1. done.
    + unfold i6. cbn. by rewrite length_insert.
    + intros j Hj. rewrite Ea6 by lia. case_decide; [done|]. rewrite C3 by lia. by rewrite decide_True by lia.
    + intros b. rewrite elem_of_union, elem_of_singleton, HF4. unfold file_block. fold ind. split.
      * intros [->|[? ?]]; auto.
      * intros (Hb & [->|?]); auto.
Qed.

End Trunc.
