(* ===== verification/FsCache.v ===== *)
(** * The inode cache: [iget], [idup], [ilock], [iunlock]

    The cache has at most one entry per inode of a device, counts its
    references, and [ilock] loads an entry from disk when it is not valid. *)
From stdpp Require Import base list gmap strings.
From Stdlib Require Import ZArith Lia.
From S2P Require Import Prelude KString Riscv Kalloc Vm Sleeplock Bio Blocks Fs FsBlock FsInode FsMeta.

#[local] Open Scope Z_scope.
#[local] Open Scope xv6_scope.

(** An entry of the cache. *)
Definition entry (ip : Z) : Prop := 1 <= ip <= NINODE.

(** [ip] is in use for inode [inum] of [dev]. *)
Definition caches (f : Z -> inode) (ip dev inum : Z) : Prop :=
  entry ip /\ 0 < i_ref (f ip) /\ i_dev (f ip) = dev /\ i_inum (f ip) = inum.

(** One entry per inode, no negative counts. *)
Record icache_wf (f : Z -> inode) : Prop := {
  ic_ref : forall ip, entry ip -> 0 <= i_ref (f ip);
  ic_once : forall ip ip' dev inum, caches f ip dev inum -> caches f ip' dev inum -> ip = ip';
}.

Lemma iget_loop_spec n f dev inum ip empty :
  1 <= ip -> ip + Z.of_nat n <= NINODE + 1 -> (empty = 0 \/ 1 <= empty < ip /\ i_ref (f empty) = 0) ->
  match iget_loop n f dev inum ip empty with
  | (true, r) => ip <= r < ip + Z.of_nat n /\ caches f r dev inum
  | (false, r) => (forall x, ip <= x < ip + Z.of_nat n -> ~ caches f x dev inum) /\
      (r = 0 /\ empty = 0 /\ (forall x, ip <= x < ip + Z.of_nat n -> i_ref (f x) <> 0) \/
       1 <= r < ip + Z.of_nat n /\ i_ref (f r) = 0)
  end.
Proof.
  revert ip empty. induction n as [|n IH]; intros ip empty Hip Hle He.
  - cbn. split; [lia|]. destruct He as [->|He]; [left; split_and!; auto; lia|right; lia].
  - rewrite Nat2Z.inj_succ in *. cbn [iget_loop]. rewrite Z.gtb_ltb.
    set (nx := if (empty =? 0) && (i_ref (f ip) =? 0) then ip else empty).
    assert (Hnx : (nx = 0 <-> empty = 0 /\ i_ref (f ip) <> 0) /\ (nx = 0 \/ 1 <= nx < ip + 1 /\ i_ref (f nx) = 0)).
    { unfold nx. destruct (Z.eqb_spec empty 0), (Z.eqb_spec (i_ref (f ip)) 0); cbn; destruct He as [|[? ?]]; split; try lia; right; split; lia || done. }
    destruct Hnx as [Hz Hnx]. specialize (IH (ip + 1) nx ltac:(lia) ltac:(lia) Hnx).
    destruct ((0 <? i_ref (f ip)) && (i_dev (f ip) =? dev) && (i_inum (f ip) =? inum)) eqn:Eb.
    { apply andb_prop in Eb as [[H1 H2]%andb_prop H3]. unfold caches, entry. split; lia. }
    assert (Hno : ~ caches f ip dev inum).
    { intros (_ & H1 & H2 & H3). apply Z.ltb_lt in H1. apply Z.eqb_eq in H2, H3. by rewrite H1, H2, H3 in Eb. }
    destruct (iget_loop n f dev inum (ip + 1) nx) as [[|] r]; [destruct IH; split; [lia|done]|].
    destruct IH as [H1 H2]. split.
    + intros x Hx. destruct (decide (x = ip)) as [->|]; [done|apply H1; lia].
    + destruct H2 as [(-> & Ee & H2)|[? ?]]; [left|right; split; [lia|done]]. apply Hz in Ee as [-> Hne].
      split_and!; auto. intros x Hx. destruct (decide (x = ip)) as [->|]; [done|apply H2; lia].
Qed.

Section Cache.

Context {S : Type} {L : BlockLayer S}.

(** [iget] gives a reference to the entry of the inode: the one there is, or a
    free one; it fails only when the inode is not cached and no entry is free. *)
Lemma iget_spec (s : fst S) dev inum :
  ic_lock s = false -> icache_wf (inodes s) ->
  (exists ip s', iget dev inum s = Ok ip s' /\ s' = s <| inodes := inodes s' |> /\
     icache_wf (inodes s') /\ caches (inodes s') ip dev inum /\
     (forall x, x <> ip -> inodes s' x = inodes s x) /\
     (caches (inodes s) ip dev inum /\ inodes s' ip = (inodes s ip) <| i_ref := i_ref (inodes s ip) + 1 |> \/
      (forall x, ~ caches (inodes s) x dev inum) /\ i_ref (inodes s ip) = 0 /\
      inodes s' ip = (inodes s ip) <| i_dev := dev |> <| i_inum := inum |> <| i_ref := 1 |> <| i_valid := false |>)) \/
  (iget dev inum s = Panic "iget: no inodes" /\ (forall x, entry x -> 0 < i_ref (inodes s x)) /\
   forall x, ~ caches (inodes s) x dev inum).
Proof.
  intros Hl [Hr Ho]. unfold iget, bind, acquire, release, gets, modify, set_inode. rewrite Hl. cbn.
  pose proof (iget_loop_spec (Z.to_nat NINODE) (inodes s) dev inum 1 0 ltac:(lia) ltac:(done) (or_introl eq_refl)) as H.
  change (1 + Z.of_nat (Z.to_nat NINODE)) with (NINODE + 1) in H.
  assert (Heq : s <| ic_lock := false |> = s) by (destruct s; cbn in *; by subst).
  destruct (iget_loop _ _ _ _ _ _) as [[|] r].
  - destruct H as [H1 H2]. left. eexists r, _. split; [done|]. cbn.
    assert (Hc : forall x d m, caches (upd (inodes s) r ((inodes s r) <| i_ref := i_ref (inodes s r) + 1 |>)) x d m <-> caches (inodes s) x d m).
    { intros x d m. unfold caches, upd. destruct (Z.eqb_spec x r) as [->|]; [|done]. cbn. destruct H2 as (? & ? & _).
      split; intros (? & ? & ? & ?); split_and!; auto; lia. }
    split_and!.
    + destruct s; cbn in *; by subst.
    + split; [|intros x x' d m; rewrite !Hc; apply Ho]. intros x Hx. unfold upd. destruct (Z.eqb_spec x r) as [->|]; [|auto].
      cbn. specialize (Hr r Hx). lia.
    + by apply Hc.
    + intros x Hx. by apply upd_other.
    + left. split; [done|]. by rewrite upd_same.
  - destruct H as [H1 H2]. assert (Hno : forall x, ~ caches (inodes s) x dev inum).
    { intros x Hx. apply (H1 x); [destruct Hx as [Hx _]; unfold entry in Hx; lia|done]. }
    destruct H2 as [(-> & _ & H2)|[H2 H3]]; cbn [Z.eqb].
    + right. split_and!; auto. intros x Hx. specialize (Hr x Hx). specialize (H2 x). unfold entry in Hx.
      specialize (H2 ltac:(lia)). lia.
    + left. rewrite (proj2 (Z.eqb_neq r 0)) by lia. eexists r, _. split; [done|]. cbn.
      set (f' := upd _ _ _).
      assert (Hc : forall x d m, caches f' x d m <-> (x = r /\ d = dev /\ m = inum) \/ (x <> r /\ caches (inodes s) x d m)).
      { intros x d m. unfold caches, f', upd. destruct (Z.eqb_spec x r) as [->|]; cbn; [|tauto].
        split; [intros (? & ? & ? & ?); by left|]. intros [(_ & -> & ->)|[? ?]]; [|done]. unfold entry. split_and!; auto; lia. }
      split_and!.
      * destruct s; cbn in *; by subst.
      * split.
        { intros x Hx. unfold f', upd. destruct (Z.eqb_spec x r) as [->|]; [cbn; lia|auto]. }
        intros x x' d m Hx Hx'. apply Hc in Hx, Hx'.
        destruct Hx as [(-> & -> & ->)|[? Hx]], Hx' as [(-> & ? & ?)|[? Hx']]; subst; auto; [by apply Hno in Hx'|by apply Hno in Hx|by eapply Ho].
      * apply Hc. by left.
      * intros x Hx. by apply upd_other.
      * right. split_and!; auto. unfold f'. by rewrite upd_same.
Qed.

Lemma idup_spec (s : fst S) ip :
  ic_lock s = false -> entry ip -> 0 < i_ref (inodes s ip) -> icache_wf (inodes s) ->
  exists s', idup ip s = Ok ip s' /\ s' = s <| inodes := inodes s' |> /\ icache_wf (inodes s') /\
    inodes s' = upd (inodes s) ip ((inodes s ip) <| i_ref := i_ref (inodes s ip) + 1 |>).
Proof.
  intros Hl He Hp [Hr Ho]. eexists. unfold idup, bind, acquire, release, set_inode, modify, gets. rewrite Hl. split; [done|]. cbn. split_and!; [destruct s; cbn in *; by subst| |done].
  assert (Hc : forall x d m, caches (upd (inodes s) ip ((inodes s ip) <| i_ref := i_ref (inodes s ip) + 1 |>)) x d m <-> caches (inodes s) x d m).
  { intros x d m. unfold caches, upd. destruct (Z.eqb_spec x ip) as [->|]; [|done]. cbn.
    split; intros (? & ? & ? & ?); split_and!; auto; lia. }
  split; [|intros x x' d m; rewrite !Hc; apply Ho]. intros x Hx. unfold upd. destruct (Z.eqb_spec x ip) as [->|]; [cbn; lia|auto].
Qed.

End Cache.

Section Lock.

Context {S : Type} {L : BlockLayer S} (D : device) (rep : S -> bview -> Prop) {HL : BlockLaws S D rep}.
Context (sb0 : superblock) (dstart : Z) (LY : layout D sb0 dstart).

Abbreviation ist := (ist rep).

Definition unlocked (i : inode) : Prop := locked (i_lock i) = false /\ lk (i_lock i) = false.

Lemma iacquiresleep_spec s s0 v ip i :
  ist s s0 v ip i -> unlocked i ->
  wp (iacquiresleep ip) (fun _ s' => ist s' s0 v ip (i <| i_lock := Sleeplock true false (fs_pid s0) |>)) s.
Proof.
  intros I [H1 H2]. unfold iacquiresleep. apply wp_gets, wp_zoom. rewrite (is_ip _ _ _ _ _ _ I).
  unfold wp. rewrite acquiresleep_free by done. rewrite (is_pid _ _ _ _ _ _ I). destruct I. split; cbn; auto.
  - by rewrite upd_same.
  - intros x Hx. rewrite upd_other by done. auto.
Qed.

(** The inode that [ilock] leaves in the cache. *)
Definition loaded (v : bview) (i : inode) : inode :=
  if i_valid i then i else disk_inode sb0 v (i_inum i) i <| i_valid := true |>.

Lemma ilock_spec s s0 v ip i :
  ist s s0 v ip i -> sb s0 = sb0 -> ip <> 0 -> 0 < i_ref i -> unlocked i -> i_dev i = d_dev D ->
  v_dirty v = ∅ -> v_held v !! IBLOCK (i_inum i) sb0 = None -> (size (v_used v) < Z.to_nat NBUF)%nat ->
  i_type (loaded v i) <> 0 \/ i_valid i = true ->
  wp (ilock ip) (fun _ s' => ist s' s0 v ip ((loaded v i) <| i_lock := Sleeplock true false (fs_pid s0) |>)) s.
Proof.
  intros I Es Hip Href Hu Hdev Hd Hh Hs Ht. unfold ilock. eapply ist_get; [exact I|].
  rewrite (proj2 (Z.eqb_neq _ _) Hip), (proj2 (Z.ltb_ge _ _)) by lia. cbn [orb].
  eapply wp_seq; [by apply iacquiresleep_spec|]. intros [] s1 I1. set (i1 := i <| i_lock := _ |>) in *.
  eapply ist_get; [exact I1|]. unfold loaded in *. change (i_valid i1) with (i_valid i). destruct (i_valid i) eqn:Ev; [by apply wp_ret|].
  apply wp_gets. rewrite (is_sb _ _ _ _ _ _ I1), Es. change (i_dev i1) with (i_dev i). change (i_inum i1) with (i_inum i). rewrite Hdev.
  eapply (at_fread D rep _ _ _ _ (ist_self rep _ _ _ _ _ I1)); [done|done|]. intros bp s2 R2.
  eapply (at_fdata D rep _ _ _ _ R2); [cbn; apply lookup_insert_eq|].
  pose proof (ist_at rep _ _ _ _ _ _ _ I1 R2) as I2. eapply ist_set; [exact I2|]. intros s3 I3.
  eapply (at_release D rep _ _ s3 v _ bp); [exact (ist_self rep _ _ _ _ _ I3)|done|done|]. intros s4 R4.
  pose proof (ist_at rep _ _ _ _ _ _ _ I3 R4) as I4. eapply ist_set; [exact I4|]. intros s5 I5.
  eapply ist_get; [exact I5|]. destruct Ht as [Ht|Ht]; [|congruence].
  match goal with |- context [i_type ?x =? 0] => change (i_type x) with (i_type (disk_inode sb0 v (i_inum i) i <| i_valid := true |>)) end.
  rewrite (proj2 (Z.eqb_neq _ _) Ht). apply wp_ret. exact I5.
Qed.

Lemma iunlock_spec s s0 v ip i :
  ist s s0 v ip i -> ip <> 0 -> 0 < i_ref i -> i_lock i = Sleeplock true false (fs_pid s0) ->
  wp (iunlock ip) (fun _ s' => ist s' (s0 <| fs_wakes := inode_chan ip :: fs_wakes s0 |>) v ip (i <| i_lock := initsleeplock |>)) s.
Proof.
  intros I Hip Href Hl. unfold iunlock. rewrite (proj2 (Z.eqb_neq _ _) Hip).
  unfold iholdingsleep. unfold wp, bind, gets, with_ilock, zoom, get_inode. rewrite (is_ip _ _ _ _ _ _ I), Hl, holdingsleep_eq by done. cbn.
  rewrite upd_same. cbn. rewrite (is_pid _ _ _ _ _ _ I), Z.eqb_refl. cbn. rewrite (proj2 (Z.ltb_ge _ _)) by lia.
  unfold ireleasesleep, bind, with_ilock, zoom, modify. cbn. rewrite upd_same. cbn.
  rewrite (is_wakes _ _ _ _ _ _ I). destruct I. split; cbn; auto.
  - by rewrite upd_same.
  - intros x Hx. rewrite !upd_other by done. auto.
Qed.

End Lock.
