(* ===== verification/FsDir.v ===== *)
(** * Directories and path names

    A directory is a file of 16-byte entries.  [dirlookup] finds the first entry
    in use that has the name, [dirlink] fills the first free entry or adds one,
    and [skipelem] takes the path apart. *)
From stdpp Require Import base list gmap strings.
From Stdlib Require Import ZArith Lia.
From S2P Require Import Prelude KString Riscv Kalloc Vm Sleeplock Bio Blocks Fs FsBlock FsInode FsMeta FsFile FsCache.

#[local] Open Scope Z_scope.
#[local] Open Scope xv6_scope.

(** ** Names *)

(** The file name in a buffer: up to a NUL, at most [DIRSIZ] bytes. *)
Fixpoint name_of (n : nat) (l : list Z) : list Z :=
  match n, l with
  | Datatypes.S n, c :: l => if c =? 0 then [] else c :: name_of n l
  | _, _ => []
  end.
Definition fname (l : list Z) : list Z := name_of (Z.to_nat DIRSIZ) l.

Lemma cstr_name n l (m : mem) a :
  (forall j, (j < n)%nat -> m (a + Z.of_nat j) = default 0 (l !! j)) -> cstr m a n = name_of n l.
Proof.
  revert a l. induction n as [|n IH]; intros a l H; cbn; [by destruct l|].
  pose proof (H 0%nat ltac:(lia)) as H0. rewrite Z.add_0_r in H0. rewrite H0.
  destruct l as [|c l]; cbn; [done|]. destruct (c =? 0); [done|]. f_equal. apply IH.
  intros j Hj. replace (a + 1 + Z.of_nat j) with (a + Z.of_nat (Datatypes.S j)) by lia. rewrite H by lia. done.
Qed.

Lemma two_bufs_fst s t j : Z.of_nat j < 2 ^ 32 -> two_bufs s t (0 + Z.of_nat j) = default 0 (s !! j).
Proof. intros H. unfold two_bufs. rewrite (proj2 (Z.ltb_lt _ _)) by lia. by rewrite Z.add_0_l, Nat2Z.id. Qed.

Lemma two_bufs_snd s t j : two_bufs s t (2 ^ 32 + Z.of_nat j) = default 0 (t !! j).
Proof. unfold two_bufs. rewrite (proj2 (Z.ltb_ge _ _)) by lia. f_equal. f_equal. lia. Qed.

(** [namecmp] compares names. *)
Lemma namecmp_fname s t : Forall is_byte s -> Forall is_byte t -> namecmp s t = 0 <-> fname s = fname t.
Proof.
  intros Hs Ht. unfold namecmp, strncmp. rewrite strncmp_loop_zero.
  - rewrite (cstr_name _ s), (cstr_name _ t); [done|intros; apply two_bufs_snd|].
    intros j Hj. apply two_bufs_fst. unfold DIRSIZ in Hj. zpow. lia.
  - intros a. unfold two_bufs. destruct (a <? 2 ^ 32).
    + destruct (s !! Z.to_nat a) eqn:E; [by eapply Forall_lookup_1 in E|done].
    + destruct (t !! Z.to_nat (a - 2 ^ 32)) eqn:E; [by eapply Forall_lookup_1 in E|done].
Qed.

Lemma name_of_idem n k l : name_of n (name_of n l ++ replicate k 0) = name_of n l.
Proof.
  revert l. induction n as [|n IH]; intros l; cbn; [done|].
  destruct l as [|c l]; cbn; [by destruct k|]. destruct (Z.eqb_spec c 0) as [|Hc]; cbn; [by destruct k|].
  rewrite (proj2 (Z.eqb_neq _ _) Hc). by rewrite IH.
Qed.

Lemma name_of_le n l : (length (name_of n l) <= n)%nat.
Proof. revert l. induction n as [|n IH]; intros [|c l]; cbn; try lia. destruct (c =? 0); cbn; [lia|]. specialize (IH l). lia. Qed.

(** [strncpy] stores the name padded with NULs. *)
Lemma dirent_name_eq name : dirent_name name = fname name ++ replicate (Z.to_nat DIRSIZ - length (fname name)) 0.
Proof.
  pose proof (name_of_le (Z.to_nat DIRSIZ) name) as Hle. fold (fname name) in Hle.
  apply list_eq. intros j. unfold dirent_name. destruct (decide (j < Z.to_nat DIRSIZ)%nat) as [Hj|Hj].
  - rewrite read_bytes_lookup by done. unfold strncpy. rewrite strncpy_loop_get by (unfold DIRSIZ; cbn; lia).
    rewrite decide_True by (unfold DIRSIZ in *; lia). replace (Z.to_nat (0 + Z.of_nat j - 0)) with j by lia.
    rewrite (cstr_name _ name) by (intros; apply two_bufs_snd). fold (fname name).
    destruct (decide (j < length (fname name))%nat).
    + rewrite lookup_app_l by done. destruct (lookup_lt_is_Some_2 (fname name) j) as [x ->]; done.
    + rewrite lookup_app_r by lia. rewrite lookup_replicate_2 by lia. by rewrite lookup_ge_None_2 by lia.
  - rewrite !lookup_ge_None_2; [done|rewrite length_app, length_replicate; lia|rewrite length_read_bytes; lia].
Qed.

Lemma fname_dirent name : fname (dirent_name name) = fname name.
Proof. rewrite dirent_name_eq. apply name_of_idem. Qed.

Lemma length_dirent_name name : length (dirent_name name) = Z.to_nat DIRSIZ.
Proof. apply length_read_bytes. Qed.

Lemma name_of_byte n l : Forall is_byte l -> Forall is_byte (name_of n l).
Proof.
  intros H. revert n. induction H as [|c l Hc Hl IH]; intros [|n]; cbn; auto. destruct (c =? 0); auto.
Qed.

Lemma dirent_name_byte name : Forall is_byte name -> Forall is_byte (dirent_name name).
Proof.
  intros H. rewrite dirent_name_eq. apply Forall_app. split; [by apply name_of_byte|]. apply Forall_replicate. done.
Qed.

(** ** Directory entries *)

(** Entry [k] of directory [i]. *)
Definition dent (v : bview) (i : inode) (k : Z) : list Z := fbytes v i (sizeof_de * k) sizeof_de.

(** Entry [k] is in use for [name]. *)
Definition dmatch (v : bview) (i : inode) (name : list Z) (k : Z) : Prop :=
  de_inum (dent v i k) <> 0 /\ fname (de_name (dent v i k)) = fname name.

Section Dir.

Context {S : Type} {L : BlockLayer S} (D : device) (rep : S -> bview -> Prop) {HL : BlockLaws S D rep}.
Context (sb0 : superblock) (dstart : Z) (LY : layout D sb0 dstart).

Abbreviation iwf := (iwf D sb0 dstart).
Abbreviation ist := (ist rep).

Context (dp : Z) (s0 : fst S) (v : bview) (i : inode) (nent : Z).

Hypothesis W : iwf v i.
Hypothesis NH : no_holes v i.
Hypothesis Hd : v_dirty v = ∅.
Hypothesis Hb : forall a, block_ok (v_data v a).
Hypothesis Hroom : (size (v_used v) + 1 < Z.to_nat NBUF)%nat.
Hypothesis Hn : i_size i = sizeof_de * nent.
Hypothesis Hn0 : 0 <= nent.

(** The state up to the variable [de]. *)
Definition dst (s : fst S) : Prop := exists kv, ist s (s0 <| kvar := kv |>) v dp i.

Lemma fbytes_byte off n : Forall is_byte (fbytes v i off n).
Proof.
  unfold fbytes. apply Forall_fmap, Forall_forall. intros o _. cbn. unfold fbyte. destruct (_ =? 0); [done|].
  destruct (v_data v _ !! _) eqn:E; [|done]. cbn. eapply Forall_lookup_1 in E; [exact E|apply Hb].
Qed.

Lemma size_small : i_size i <= 274432.
Proof. destruct NH as [H _]. change (MAXFILE * BSIZE) with 274432 in H. lia. Qed.

Lemma read_de_spec {A} s k who (Q : A -> fst S -> Prop) (c : list Z -> M (fst S) A) :
  dst s -> 0 <= k < nent ->
  (forall s', ist s' (s0 <| kvar := dent v i k |>) v dp i -> wp (c (dent v i k)) Q s') ->
  wp (bind (read_de dp (sizeof_de * k) who) c) Q s.
Proof.
  intros (kv & I) Hk Hc. pose proof size_small. unfold read_de. apply wp_bind, wp_modify.
  set (s1 := s <| kvar := _ |>).
  assert (I1 : ist s1 (s0 <| kvar := replicate (Z.to_nat sizeof_de) 0 |>) v dp i) by (destruct I; split; done).
  change sizeof_de with 16 in *.
  eapply wp_seq; [apply (readi_kernel D rep sb0 dstart dp v i (16 * k) 16) with (s0 := s0 <| kvar := replicate (Z.to_nat 16) 0 |>); auto; try lia; try (zpow; lia)|].
  - change (length (kvar _)) with 16%nat. unfold read_len. lia.
  - done.
  - intros r s2 [-> I2]. unfold read_len in *. rewrite Z.min_l in * by lia. cbn [Z.eqb negb]. apply wp_gets.
    rewrite (is_kvar _ _ _ _ _ _ I2). change (kvar (?s <| kvar := ?x |>)) with x in *.
    assert (E : splice (Z.to_nat 0) (fbytes v i (16 * k) 16) (replicate (Z.to_nat 16) 0) = dent v i k).
    { unfold splice, dent. cbn [take Z.to_nat app]. rewrite length_fbytes. rewrite drop_ge by (rewrite length_replicate; lia). apply app_nil_r. }
    rewrite E in *. by apply Hc.
Qed.

(** [dirlookup] of a name that is there: it asks the cache for the inode of the
    first entry with the name. *)
Lemma dirlookup_found name k (Q : Z * Z -> fst S -> Prop) s :
  dst s -> i_type i = T_DIR -> Forall is_byte name -> 0 <= k < nent -> dmatch v i name k ->
  (forall j, 0 <= j < k -> ~ dmatch v i name j) ->
  (forall s', ist s' (s0 <| kvar := dent v i k |>) v dp i ->
     wp (iget (i_dev i) (de_inum (dent v i k))) (fun ip s'' => Q (ip, sizeof_de * k) s'') s') ->
  wp (dirlookup dp name) Q s.
Proof.
  intros Hs Ht Hby Hk Hm Hnm HQ. pose proof size_small as Hsz. pose proof Hs as (kv & I). unfold dirlookup. eapply ist_get; [exact I|].
  rewrite Ht. cbn [Z.eqb negb T_DIR]. change (negb (1 =? 1)) with false. cbv iota.
  apply (wp_while _ (fun off s' => dst s' /\ exists j, off = sizeof_de * j /\ 0 <= j <= k) _ (fun off => i_size i - off)).
  - intros off s1 (D1 & j & -> & Hj). unfold dirlookup_step. pose proof D1 as (kv1 & I1). eapply ist_get; [exact I1|].
    rewrite (proj2 (Z.ltb_lt _ _)) by (rewrite Hn; unfold sizeof_de; lia). cbn [negb].
    eapply (read_de_spec s1 j); [done|lia|]. intros s2 I2.
    assert (Hne : namecmp name (de_name (dent v i j)) = 0 <-> fname (de_name (dent v i j)) = fname name).
    { rewrite namecmp_fname; [split; congruence|done|]. apply Forall_slice, fbytes_byte. }
    destruct (Z.eqb_spec (de_inum (dent v i j)) 0) as [Hz|Hz]; [|destruct (Z.eqb_spec (namecmp name (de_name (dent v i j))) 0) as [E|E]].
    + assert (j <> k) by (intros ->; by destruct Hm). apply wp_ret. split; [|unfold sizeof_de; lia]. split; [by eexists|].
      exists (j + 1). unfold sizeof_de. split; lia.
    + assert (j = k) as ->. { destruct (decide (j < k)); [|lia]. exfalso. apply (Hnm j); [lia|]. split; [done|by apply Hne]. }
      apply wp_bind. eapply wp_mono; [by apply HQ|]. intros ip s3 HQ3. by apply wp_ret.
    + assert (j <> k) by (intros ->; apply E, Hne, Hm). apply wp_ret. split; [|unfold sizeof_de; lia]. split; [by eexists|].
      exists (j + 1). unfold sizeof_de. split; lia.
  - split; [done|]. exists 0. split; lia.
  - intros off s1 (_ & j & -> & Hj). rewrite Hn. unfold sizeof_de. lia.
  - zpow. lia.
Qed.

(** [dirlookup] of a name that is not there. *)
Lemma dirlookup_none name s :
  dst s -> i_type i = T_DIR -> Forall is_byte name -> (forall j, 0 <= j < nent -> ~ dmatch v i name j) ->
  wp (dirlookup dp name) (fun r s' => r = (0, 0) /\ dst s') s.
Proof.
  intros Hs Ht Hby Hnm. pose proof size_small as Hsz. pose proof Hs as (kv & I). unfold dirlookup. eapply ist_get; [exact I|].
  rewrite Ht. change (negb (T_DIR =? T_DIR)) with false. cbv iota.
  apply (wp_while _ (fun off s' => dst s' /\ exists j, off = sizeof_de * j /\ 0 <= j <= nent) _ (fun off => i_size i - off)).
  - intros off s1 (D1 & j & -> & Hj). unfold dirlookup_step. pose proof D1 as (kv1 & I1). eapply ist_get; [exact I1|].
    destruct (Z.ltb_spec (sizeof_de * j) (i_size i)) as [Hlt|Hge]; cbn [negb]; [|by apply wp_ret].
    rewrite Hn in Hlt. unfold sizeof_de in Hlt. eapply (read_de_spec s1 j); [done|lia|]. intros s2 I2.
    assert (Hgo : dst s2 /\ (exists j', sizeof_de * j + sizeof_de = sizeof_de * j' /\ 0 <= j' <= nent))
      by (split; [by eexists|exists (j + 1); unfold sizeof_de; split; lia]).
    destruct (Z.eqb_spec (de_inum (dent v i j)) 0) as [Hz|Hz]; [|destruct (Z.eqb_spec (namecmp name (de_name (dent v i j))) 0) as [E|E]].
    + apply wp_ret. split; [done|unfold sizeof_de; lia].
    + exfalso. apply (Hnm j); [lia|]. split; [done|]. symmetry. apply namecmp_fname in E; [done|done|]. apply Forall_slice, fbytes_byte.
    + apply wp_ret. split; [done|unfold sizeof_de; lia].
  - split; [done|]. exists 0. split; lia.
  - intros off s1 (_ & j & -> & Hj). rewrite Hn. unfold sizeof_de. lia.
  - zpow. lia.
Qed.

(** The search of [dirlink]: the first free entry, or the end. *)
Lemma dirlink_slot k s :
  dst s -> 0 <= k <= nent -> (forall j, 0 <= j < k -> de_inum (dent v i j) <> 0) ->
  (k < nent -> de_inum (dent v i k) = 0) ->
  wp (while_ (dirlink_step dp) 0) (fun off s' => off = sizeof_de * k /\ dst s') s.
Proof.
  intros Hs Hk Hu Hf. pose proof size_small as Hsz.
  apply (wp_while _ (fun off s' => dst s' /\ exists j, off = sizeof_de * j /\ 0 <= j <= k) _ (fun off => i_size i - off)).
  - intros off s1 (D1 & j & -> & Hj). unfold dirlink_step. pose proof D1 as (kv1 & I1). eapply ist_get; [exact I1|].
    destruct (Z.ltb_spec (sizeof_de * j) (i_size i)) as [Hlt|Hge]; cbn [negb]; rewrite Hn in *; unfold sizeof_de in * |-.
    2:{ apply wp_ret. split; [f_equal; lia|done]. }
    eapply (read_de_spec s1 j); [done|lia|]. intros s2 I2.
    destruct (Z.eqb_spec (de_inum (dent v i j)) 0) as [Hz|Hz]; apply wp_ret.
    + assert (j = k) as ->; [|split; [done|by eexists]]. destruct (decide (j < k)); [|lia]. exfalso. by apply (Hu j); [lia|].
    + assert (j <> k) by (intros ->; apply Hz, Hf; lia). split; [|unfold sizeof_de; lia]. split; [by eexists|].
      exists (j + 1). unfold sizeof_de. split; lia.
  - split; [done|]. exists 0. split; lia.
  - intros off s1 (_ & j & -> & Hj). rewrite Hn. unfold sizeof_de. lia.
  - zpow. lia.
Qed.

End Dir.

(** ** [dirlink] *)

Section Link.

Context {S : Type} {L : BlockLayer S} (D : device) (rep : S -> bview -> Prop) {HL : BlockLaws S D rep}.
Context (sb0 : superblock) (dstart : Z) (LY : layout D sb0 dstart) (C : gset Z).
Context (dp : Z) (s0 : fst S) (v : bview) (i : inode) (nent : Z).

Hypothesis W : iwf D sb0 dstart v i.
Hypothesis NH : no_holes v i.
Hypothesis Q : quiet sb0 dstart C v.
Hypothesis Hroom : (size (v_used v) + 1 < Z.to_nat NBUF)%nat.
Hypothesis Hn : i_size i = sizeof_de * nent.
Hypothesis Hn0 : 0 <= nent.
Hypothesis Ht : i_type i = T_DIR.

Abbreviation dst := (dst rep dp s0 v i).

(** The bytes of a directory entry. *)
Definition dirent (name : list Z) (inum : Z) : list Z := le_bytes 2 inum ++ dirent_name name.

Lemma length_dirent name inum : length (dirent name inum) = Z.to_nat sizeof_de.
Proof. unfold dirent. by rewrite length_app, length_le_bytes, length_dirent_name. Qed.

Lemma de_inum_dirent name inum : 0 <= inum < 2 ^ 16 -> de_inum (dirent name inum) = inum.
Proof.
  intros H. unfold de_inum, get_le, slice, dirent. rewrite drop_0, take_app_length' by (by rewrite length_le_bytes).
  rewrite le_val_bytes. by apply Z.mod_small.
Qed.

Lemma de_name_dirent name inum : de_name (dirent name inum) = dirent_name name.
Proof.
  unfold de_name, slice, dirent. rewrite drop_app_length' by (by rewrite length_le_bytes).
  apply firstn_all2. rewrite length_dirent_name. done.
Qed.

(** The directory after the write of entry [k]. *)
Lemma linked_dents k name inum v' i' :
  0 <= k <= nent -> sizeof_de * k + sizeof_de <= MAXFILE * BSIZE ->
  written D sb0 dstart C v i (sizeof_de * k) (dirent name inum) v' i' ->
  i_size i' = sizeof_de * Z.max nent (k + 1) /\ dent v' i' k = dirent name inum /\
  forall j, 0 <= j < Z.max nent (k + 1) -> j <> k -> dent v' i' j = dent v i j.
Proof.
  intros Hk Hmax [_ _ Er NH' HB _ _ _ _ _ _ _]. pose proof (length_dirent name inum) as Hl.
  assert (Es : i_size i' = sizeof_de * Z.max nent (k + 1)).
  { transitivity (Z.max (i_size i) (sizeof_de * k + Z.of_nat (length (dirent name inum)))); [by rewrite Er|].
    rewrite Hl, Hn. unfold sizeof_de. lia. }
  destruct NH' as [NH1 _]. rewrite Es in NH1. unfold sizeof_de in *.
  assert (Hd : forall j, 0 <= j < Z.max nent (k + 1) -> forall x, 0 <= x < 16 ->
     fbyte v' i' (16 * j + x) = if decide (j = k) then default 0 (dirent name inum !! Z.to_nat x) else fbyte v i (16 * j + x)).
  { intros j Hj x Hx. rewrite HB by lia. unfold patch. rewrite Hl. case_decide; case_decide; try lia.
    do 2 f_equal. lia. }
  split_and!; [done| |].
  - apply list_eq. intros x. unfold dent, sizeof_de. destruct (decide (x < 16)%nat).
    + replace x with (Z.to_nat (Z.of_nat x)) at 1 by lia. rewrite fbytes_lookup by lia. rewrite Hd by lia. rewrite decide_True by done.
      rewrite Nat2Z.id. destruct (lookup_lt_is_Some_2 (dirent name inum) x) as [y ->]; [rewrite Hl; lia|done].
    + rewrite !lookup_ge_None_2; [done|lia|rewrite length_fbytes; lia].
  - intros j Hj Hne. apply list_eq. intros x. unfold dent, sizeof_de. destruct (decide (x < 16)%nat).
    + replace x with (Z.to_nat (Z.of_nat x)) by lia. rewrite !fbytes_lookup by lia. rewrite Hd by lia. by rewrite decide_False.
    + rewrite !lookup_ge_None_2; [done|rewrite length_fbytes; lia|rewrite length_fbytes; lia].
Qed.

Lemma dirlink_new s name inum k :
  dst s -> sb s0 = sb0 -> inode_fits i -> 0 <= i_inum i < sb_ninodes sb0 -> v_held v !! IBLOCK (i_inum i) sb0 = None ->
  Forall is_byte name -> (forall j, 0 <= j < nent -> ~ dmatch v i name j) ->
  0 <= k <= nent -> (forall j, 0 <= j < k -> de_inum (dent v i j) <> 0) -> (k < nent -> de_inum (dent v i k) = 0) ->
  sizeof_de * k + sizeof_de <= MAXFILE * BSIZE -> IBLOCK (i_inum i) sb0 ∈ C -> budget D C v 6 -> 4 <= Z.of_nat (nfree sb0 v) ->
  wp (dirlink dp name inum) (fun r s' => r = 0 /\ exists v' i',
    ist rep s' (s0 <| kvar := dirent name inum |>) v' dp i' /\ written D sb0 dstart C v i (sizeof_de * k) (dirent name inum) v' i') s.
Proof.
  intros Hs Es Hfit Hin Hh Hby Hnm Hk Hu Hf Hmax HC HB Hfr.
  assert (Hdr : v_dirty v = ∅) by apply Q. assert (Hbl : forall a, block_ok (v_data v a)) by apply Q.
  unfold dirlink.
  eapply wp_seq; [apply (dirlookup_none D rep sb0 dstart dp s0 v i nent); eauto|]. intros r s1 [-> D1]. cbn [Z.eqb negb].
  eapply wp_seq; [apply (dirlink_slot D rep sb0 dstart dp s0 v i nent) with (k := k); eauto|]. intros off s2 [-> (kv & I2)].
  apply wp_modify. fold (dirent name inum). set (s3 := s2 <| kvar := _ |>).
  assert (I3 : ist rep s3 (s0 <| kvar := dirent name inum |>) v dp i) by (destruct I2; split; done).
  pose proof (length_dirent name inum) as Hl. unfold sizeof_de in *.
  assert (Hk1 : nblk (16 * k) 16 0 <= 2 /\ 0 <= nblk (16 * k) 16 0) by (unfold nblk; cbn; fslia).
  pose proof (writei_kernel D rep sb0 dstart LY C dp s3 (s0 <| kvar := dirent name inum |>) v i (16 * k) (dirent name inum) I3) as Hw.
  replace (Z.of_nat (length (dirent name inum))) with 16 in Hw by (rewrite Hl; done).
  eapply wp_seq; [apply Hw with (src := 0); auto; try lia; try done|].
  - split.
    + intros E. rewrite E in Hl. done.
    + unfold dirent. apply Forall_app. split; [apply le_bytes_byte|by apply dirent_name_byte].
  - eapply budget_mono; [|exact HB]. lia.
  - intros r s4 [-> (v' & i' & I4 & Wr)]. cbn [Z.eqb negb]. apply wp_ret. split; [done|]. eauto.
Qed.

End Link.
