(* ===== verification/FsProps.v ===== *)
(** * Properties of the file system

    The theorems of this file are about the operations of [fs.c] over any block
    layer that keeps the laws of [Blocks]; the witnesses run them over the log
    and the buffer cache, on an empty file system as [mkfs] lays it out. *)
From stdpp Require Import base list gmap strings.
From Stdlib Require Import ZArith Lia.
From S2P Require Import Prelude KString Riscv Kalloc Vm VmSpec VmUser VmCopy VmProps Sleeplock Bio Log LogCrash LogOps Blocks.
From S2P Require Import Fs FsBlock FsInode FsMeta FsFile FsTrunc FsCache FsDir.

#[local] Open Scope Z_scope.
#[local] Open Scope xv6_scope.

(** ** Path elements *)

(** The elements of a path, a reference definition: cut at every slash, without
    the empty pieces. *)
Fixpoint pieces (path : list Z) : list (list Z) :=
  match path with
  | [] => [[]]
  | c :: p => if c =? SLASH then [] :: pieces p
              else match pieces p with e :: r => (c :: e) :: r | [] => [[c]] end
  end.
Definition elements (path : list Z) : list (list Z) := filter (fun e => e <> []) (pieces path).

(** The names that the loop of [namex] sees. *)
Fixpoint names (fuel : nat) (path name : list Z) : list (list Z) :=
  match fuel with
  | O => []
  | Datatypes.S fuel => match skipelem path name with
                        | None => []
                        | Some (path, name) => fname name :: names fuel path name
                        end
  end.

Lemma elements_skip path : elements (skip_slashes path) = elements path.
Proof.
  induction path as [|c p IH]; [done|]. cbn [skip_slashes]. destruct (c =? SLASH) eqn:E; [|done].
  rewrite IH. unfold elements. cbn [pieces]. by rewrite E.
Qed.

Lemma take_elem_spec path :
  0 ∉ path -> let '(e, r) := take_elem path in
  path = e ++ r /\ (SLASH ∉ e) /\ (0 ∉ e) /\ (r = [] \/ exists p, r = SLASH :: p).
Proof.
  induction path as [|c p IH]; intros H0; cbn [take_elem]; [split_and!; auto; set_solver|].
  destruct (Z.eqb_spec c SLASH) as [->|Hc]; cbn [orb]; [split_and!; [done|set_solver|set_solver|eauto]|].
  destruct (Z.eqb_spec c 0) as [->|]; [set_solver|]. assert (Hp : 0 ∉ p) by set_solver. specialize (IH Hp).
  destruct (take_elem p) as [e r]. destruct IH as (-> & H1 & H2 & H3). split_and!; [done|set_solver|set_solver|done].
Qed.

Lemma pieces_app e r : SLASH ∉ e -> (r = [] \/ exists p, r = SLASH :: p) ->
  pieces (e ++ r) = e :: match r with [] => [] | _ :: p => pieces p end.
Proof.
  intros He Hr. induction e as [|c e IH]; cbn.
  - destruct Hr as [->|(p & ->)]; [done|]. cbn. done.
  - destruct (Z.eqb_spec c SLASH) as [->|]; [set_solver|]. rewrite IH by set_solver. done.
Qed.

Lemma skip_slashes_sub path : skip_slashes path `suffix_of` path.
Proof.
  induction path as [|c p IH]; cbn; [done|]. destruct (c =? SLASH); [|done]. by apply suffix_cons_r.
Qed.

Lemma skip_slashes_head c p path : skip_slashes path = c :: p -> c <> SLASH.
Proof.
  induction path as [|d q IH]; cbn; [done|]. destruct (Z.eqb_spec d SLASH); [done|]. intros [= -> ->]. done.
Qed.

Lemma name_of_app n e l : 0 ∉ e -> (length e <= n)%nat -> name_of n (e ++ 0 :: l) = e.
Proof.
  revert e. induction n as [|n IH]; intros [|c e] H0 Hl; cbn in *; try done; try lia.
  destruct (Z.eqb_spec c 0) as [->|]; [set_solver|]. f_equal. apply IH; [set_solver|lia].
Qed.

Lemma name_of_full n e l : 0 ∉ e -> length e = n -> name_of n (e ++ l) = e.
Proof.
  revert e. induction n as [|n IH]; intros [|c e] H0 Hl; cbn in *; try done.
  destruct (Z.eqb_spec c 0) as [->|]; [set_solver|]. f_equal. apply IH; [set_solver|lia].
Qed.

Lemma splice_0 bs l : splice 0 bs l = bs ++ drop (length bs) l.
Proof. done. Qed.

(** One call: the next element, cut to [DIRSIZ], and the rest of the path. *)
Lemma skipelem_step path name :
  0 ∉ path -> length name = Z.to_nat DIRSIZ ->
  match elements path with
  | [] => skipelem path name = None
  | e :: es => exists path' name', skipelem path name = Some (path', name') /\ elements path' = es /\
      (0 ∉ path') /\ length name' = Z.to_nat DIRSIZ /\ fname name' = take (Z.to_nat DIRSIZ) e /\
      (length path' < length path)%nat
  end.
Proof.
  intros H0 Hl. rewrite <- elements_skip. pose proof (skip_slashes_sub path) as Hs.
  assert (H0' : 0 ∉ skip_slashes path) by (intros H; apply H0; destruct Hs as [k ->]; apply elem_of_app; by right).
  unfold skipelem. destruct (skip_slashes path) as [|c p] eqn:Ep; [done|].
  pose proof (skip_slashes_head _ _ _ Ep) as Hc. cbn [peek hd].
  destruct (Z.eqb_spec c 0) as [->|Hc0]; [set_solver|].
  pose proof (take_elem_spec (c :: p) H0') as Ht. cbn [take_elem] in *.
  rewrite (proj2 (Z.eqb_neq _ _) Hc), (proj2 (Z.eqb_neq _ _) Hc0) in *. cbn [orb] in *.
  destruct (take_elem p) as [e r]. destruct Ht as (E & H1 & H2 & H3).
  assert (Ee : elements (c :: p) = (c :: e) :: match r with [] => [] | _ :: p => elements p end).
  { unfold elements at 1. rewrite E. rewrite pieces_app by done. rewrite filter_cons_True by done. f_equal. by destruct r. }
  rewrite Ee. eexists _, _. split; [done|].
  assert (Hr : elements (skip_slashes r) = match r with [] => [] | _ :: p => elements p end).
  { rewrite elements_skip. destruct H3 as [->|(q & ->)]; [done|]. done. }
  assert (Hrl : (length r < length path)%nat).
  { destruct Hs as [k ->]. rewrite E, !length_app. cbn. lia. }
  pose proof (skip_slashes_sub r) as [k Ek].
  split_and!; [done| | | |].
  - intros Hin. apply H0'. rewrite E. apply elem_of_app. right. rewrite Ek. apply elem_of_app. by right.
  - rewrite Z.geb_leb. unfold DIRSIZ in *. destruct (Z.leb_spec 14 (Z.of_nat (length (c :: e))));
      [rewrite length_splice; [done|]; rewrite length_take; lia|rewrite length_splice; [done|]; rewrite length_app; cbn in *; lia].
  - rewrite Z.geb_leb. unfold DIRSIZ, fname in *. destruct (Z.leb_spec 14 (Z.of_nat (length (c :: e)))) as [Hle|Hgt].
    + rewrite splice_0. apply name_of_full; [intros Hin; apply H2; eapply elem_of_sublist; [exact Hin|apply sublist_take]|].
      rewrite length_take. unfold DIRSIZ. lia.
    + rewrite splice_0, (firstn_all2 (c :: e)) by (unfold DIRSIZ; lia).
      rewrite <- app_assoc. apply name_of_app; [done|]. unfold DIRSIZ. lia.
  - apply (f_equal length) in Ek. rewrite length_app in Ek. lia.
Qed.

(** The loop of [namex] sees exactly the elements of the path: repeated
    [skipelem] gives the pieces between slashes that are not empty, each cut to
    [DIRSIZ] bytes, and ends. *)
Theorem skipelem_elements path name :
  0 ∉ path -> length name = Z.to_nat DIRSIZ ->
  forall fuel, (length path < fuel)%nat -> names fuel path name = take (Z.to_nat DIRSIZ) <$> elements path.
Proof.
  intros H0 Hl fuel. revert path name H0 Hl. induction fuel as [|fuel IH]; intros path name H0 Hl Hf; [lia|].
  cbn [names]. pose proof (skipelem_step path name H0 Hl) as H. destruct (elements path) as [|e es]; [by rewrite H|].
  destruct H as (path' & name' & -> & <- & H0' & Hl' & -> & Hlt). cbn. f_equal. apply IH; auto. lia.
Qed.

(** "//a/bb//" *)
Lemma skipelem_elements_witness :
  names 9 [47; 47; 97; 47; 98; 98; 47; 47] (replicate 14 0) = [[97]; [98; 98]].
Proof. rewrite skipelem_elements; [reflexivity|set_solver by lia|reflexivity|cbn; lia]. Defined.

(** ** The cache *)

(** The inode cache has one entry per inode.  [iget] returns a reference to
    the entry that caches the inode when there is one and otherwise to a free
    entry, changes no other entry, and keeps the invariant; it panics only when
    the inode is not cached and every entry is in use. *)
Theorem iget_unique {S : Type} {L : BlockLayer S} (s : fst S) (dev inum : Z) :
  ic_lock s = false -> icache_wf (inodes s) ->
  (exists ip s', iget dev inum s = Ok ip s' /\ s' = s <| inodes := inodes s' |> /\
     icache_wf (inodes s') /\ caches (inodes s') ip dev inum /\
     (forall x, x <> ip -> inodes s' x = inodes s x) /\
     i_ref (inodes s' ip) = i_ref (inodes s ip) + 1 /\
     ((exists x, caches (inodes s) x dev inum) -> caches (inodes s) ip dev inum /\ i_valid (inodes s' ip) = i_valid (inodes s ip))) \/
  (iget dev inum s = Panic "iget: no inodes" /\ (forall x, entry x -> 0 < i_ref (inodes s x)) /\
   forall x, ~ caches (inodes s) x dev inum).
Proof.
  intros Hl Hw. destruct (iget_spec s dev inum Hl Hw) as [(ip & s' & E & Es & Hw' & Hc & Ho & H)|?]; [left|by right].
  exists ip, s'. split_and!; auto.
  - destruct H as [[_ ->]|(_ & Hz & ->)]; cbn; [done|by rewrite Hz].
  - intros [x Hx]. destruct H as [[? ->]|[Hn _]]; [done|by apply Hn in Hx].
Qed.

Section FsProps.

Context {S : Type} {L : BlockLayer S} (D : device) (rep : S -> bview -> Prop) {HL : BlockLaws S D rep}.
Context (sb0 : superblock) (dstart : Z) (LY : layout D sb0 dstart) (C : gset Z).

(** An operation is in its transaction, and [i] is a file of the file system
    whose inode is not locked by another buffer access. *)
Record file_ok (s s0 : fst S) (v : bview) (ip : Z) (i : inode) : Prop := {
  fo_ist : ist rep s s0 v ip i;
  fo_sb : sb s0 = sb0;
  fo_quiet : quiet sb0 dstart C v;
  fo_iwf : iwf D sb0 dstart v i;
  fo_holes : no_holes v i;
  fo_fits : inode_fits i;
  fo_inum : 0 <= i_inum i < sb_ninodes sb0;
  fo_held : v_held v !! IBLOCK (i_inum i) sb0 = None;
  fo_log : IBLOCK (i_inum i) sb0 ∈ C;
}.

Lemma budget_room v : budget D C v 2 -> (size (v_used v) + 1 < Z.to_nat NBUF)%nat.
Proof.
  intros [_ H]. assert (size (v_used v) <= size (v_used v ∪ C))%nat by (apply subseteq_size; set_solver). lia.
Qed.

(** A file that has been written can be used again. *)
Lemma written_ok s s' s0 v v' ip i i' off bs :
  file_ok s s0 v ip i -> ist rep s' s0 v' ip i' -> written D sb0 dstart C v i off bs v' i' -> file_ok s' s0 v' ip i'.
Proof.
  intros [I Es Q W NH Hfit Hin Hh HC] I' Wr. pose proof (wr_rest _ _ _ _ _ _ _ _ _ _ Wr) as Er.
  assert (En : i_inum i' = i_inum i) by (by rewrite Er). pose proof (wr_holes _ _ _ _ _ _ _ _ _ _ Wr) as [Hs _].
  split; rewrite ?En; auto; [apply (wr_quiet _ _ _ _ _ _ _ _ _ _ Wr)|apply (wr_iwf _ _ _ _ _ _ _ _ _ _ Wr)|apply (wr_holes _ _ _ _ _ _ _ _ _ _ Wr)|..].
  - apply (iwf_fits D sb0 dstart LY v' i); [apply Wr|done|by rewrite Er..|]. change (MAXFILE * BSIZE) with 274432 in Hs. zpow. lia.
  - by rewrite (wr_held _ _ _ _ _ _ _ _ _ _ Wr).
Qed.

(** C8: what [writei] puts into a file, [readi] gets out of it.  Both return the
    number of bytes, the buffer of the reader holds the bytes of the writer's
    buffer, and nothing else in user memory has changed.  On disk the file has
    the new bytes and size; every other inode is as it was, the bitmap has changed
    only for free blocks that are blocks of the file now, and a file that shares no
    block with this one has the same bytes ([written]). *)
Theorem writei_readi s s0 v ip i off n src dst end_ l T fr :
  let bs := ubytes (fs_mem s0) fr src n in
  file_ok s s0 v ip i -> 0 < n -> 0 <= off <= i_size i -> off + n <= MAXFILE * BSIZE ->
  budget D C v (2 * nblk off n 0 + 2) -> 2 * nblk off n 0 <= Z.of_nat (nfree sb0 v) ->
  0 < end_ -> umem end_ (fs_mem s0) l (fs_pt s0) T fr ->
  0 <= src -> src + n < 2 ^ 64 -> accessible fr src n ->
  0 <= dst -> dst + n < 2 ^ 64 -> accessible fr dst n ->
  wp (r ← writei ip true src off n ; r' ← readi ip true dst off n ; ret (r, r')) (fun r s' => r = (n, n) /\
    exists k' v' i', ist rep s' (s0 <| fs_mem := k' |>) v' ip i' /\ umem end_ k' l (fs_pt s0) T fr /\
      written D sb0 dstart C v i off bs v' i' /\ wrote fr (fs_mem s0) k' dst bs n) s.
Proof.
  intros bs [I Es Q W NH Hfit Hin Hh HC] Hn Hoff Hmax HB Hf He U Hs1 Hs2 Ha1 Hd1 Hd2 Ha2.
  assert (Hl : Z.of_nat (length bs) = n) by (unfold bs, ubytes; rewrite length_fmap, length_zseq; lia).
  assert (Hbs : bs <> [] /\ Forall is_byte bs).
  { split; [intros E; rewrite E in Hl; cbn in Hl; lia|]. apply Forall_fmap, Forall_forall. intros x _.
    apply (ki_ram _ _ _ (vr_kmem _ _ _ _ _ (um_rep _ _ _ _ _ _ U))). }
  pose proof (writei_user D rep sb0 dstart LY C ip s s0 v i off bs I Es Q W NH Hfit Hin Hh Hbs Hoff) as Hw.
  rewrite Hl in Hw. eapply wp_seq; [apply (Hw Hmax HC HB Hf src end_ l T fr); auto|].
  intros r s1 (-> & v' & i' & I1 & Wr). pose proof Wr as [Q' W' Er NH' HBy _ _ _ _ _ _ HB'].
  assert (Esz : i_size i' = Z.max (i_size i) (off + n)) by (by rewrite Er, Hl).
  change (MAXFILE * BSIZE) with 274432 in *.
  assert (El : read_len i' off n = n) by (unfold read_len; rewrite Esz; lia).
  assert (Eb : fbytes v' i' off n = bs).
  { apply list_eq. intros j. destruct (decide (j < Z.to_nat n)%nat) as [Hj|Hj].
    - replace j with (Z.to_nat (Z.of_nat j)) at 1 by lia. rewrite fbytes_lookup, HBy by lia. unfold patch. rewrite decide_True by lia.
      replace (Z.to_nat (off + Z.of_nat j - off)) with j by lia. destruct (lookup_lt_is_Some_2 bs j) as [x ->]; [lia|done].
    - rewrite !lookup_ge_None_2; [done|lia|rewrite length_fbytes; lia]. }
  pose proof (readi_user D rep sb0 dstart ip v' i' off n W' NH') as Hr. cbv zeta in Hr. rewrite El, Eb in Hr.
  eapply wp_seq; [apply (Hr (conj (qt_dirty _ _ _ _ Q') (qt_block _ _ _ _ Q')) (budget_room _ HB') ltac:(lia) ltac:(lia) ltac:(zpow; lia) s1 s0 dst end_ l T fr); auto|].
  intros r s2 (-> & k' & I2 & U2 & W2). apply wp_ret. split; [done|]. by exists k', v', i'.
Qed.

(** [balloc] takes the first free block: a block of the data area that no
    file uses, which is now marked and zeroed while the bits and the contents of
    all other blocks are the same.  [bfree] of it gives it back, and a second
    [bfree] panics. *)
Theorem balloc_bfree s s0 v :
  at_ rep s s0 v -> sb s0 = sb0 -> quiet sb0 dstart C v -> budget D C v 2 ->
  (exists b, 0 <= b < sb_size sb0 /\ used v sb0 b = false) ->
  exists b s1 s2, balloc (d_dev D) s = Ok b s1 /\ bfree (d_dev D) b s1 = Ok tt s2 /\
    bfree (d_dev D) b s2 = Panic "freeing free block" /\
    dstart <= b < sb_size sb0 /\ used v sb0 b = false /\ (forall b', 0 <= b' < b -> used v sb0 b' = true) /\
    exists v1 v2, at_ rep s1 s0 v1 /\ at_ rep s2 s0 v2 /\ v_data v1 b = zero_block /\
      (forall n, n <> b -> ~ bmap_block sb0 n -> v_data v1 n = v_data v n) /\
      (forall b', 0 <= b' < sb_size sb0 -> used v1 sb0 b' = if decide (b' = b) then true else used v sb0 b') /\
      (forall b', 0 <= b' < sb_size sb0 -> used v2 sb0 b' = used v sb0 b').
Proof.
  intros R Es Q HB Hf. pose proof (ly_data _ _ _ LY) as Hds.
  assert (HB1 : budget D C v 1) by (eapply budget_mono; [|exact HB]; lia).
  pose proof (balloc_spec D rep sb0 dstart LY C s s0 v R Es Q HB1 Hf) as H. apply wp_Ok in H as (b & s1 & E1 & Hb & Hu & R1 & Hlow).
  pose proof (quiet_alloc D sb0 dstart LY C v b Q Hb) as Q1.
  assert (HB2 : budget D C (v_alloc v sb0 b) 1) by (by apply (alloc_budget D sb0 dstart LY C v b 1)).
  assert (Hu1 : forall b', 0 <= b' < sb_size sb0 -> used (v_alloc v sb0 b) sb0 b' = if decide (b' = b) then true else used v sb0 b')
    by (intros; by apply (used_alloc D sb0 dstart LY C)).
  pose proof (bfree_spec D rep sb0 dstart LY C s1 s0 _ b R1 Es Q1 HB2 ltac:(lia)) as H.
  rewrite Hu1, decide_True in H by (done || lia). specialize (H eq_refl). apply wp_Ok in H as ([] & s2 & E2 & R2).
  assert (Hu2 : forall b', 0 <= b' < sb_size sb0 -> used (v_free (v_alloc v sb0 b) sb0 b) sb0 b' = used v sb0 b').
  { intros b' Hb'. rewrite (used_free D sb0 dstart LY C _ b b' Q1) by lia. rewrite Hu1 by done. by case_decide; subst. }
  assert (Hh : v_held (v_alloc v sb0 b) !! b = None) by (apply (qt_free _ _ _ _ Q); [lia|done]).
  exists b, s1, s2. split_and!; auto; try lia.
  - apply (bfree_twice D rep sb0 dstart LY C s2 s0 _ b R2 Es); [by apply (quiet_free D sb0 dstart LY C)| |lia|rewrite Hu2; [done|lia]].
    apply budget_absorb; [left|done]. apply Q, (BBLOCK_eq D sb0 dstart LY b). lia.
  - eexists _, _. split_and!; [exact R1|exact R2|apply (alloc_new sb0)| |exact Hu1|exact Hu2].
    intros n Hn Hm. unfold v_alloc. cbn. rewrite !upd_other; [done| |done]. intros ->. apply Hm, (BBLOCK_eq D sb0 dstart LY b). lia.
Qed.

(** C36: [itrunc] gives every block of the file back, and only those: afterwards
    a block is in use exactly when it was before and is neither a block of the
    file nor its indirect block.  The inode is empty, in the cache and on disk,
    and no other block has changed but the bitmap and the block of the inode. *)
Theorem itrunc_frees s s0 v ip i :
  file_ok s s0 v ip i -> budget D C v 2 ->
  exists s' v' i', itrunc ip s = Ok tt s' /\ ist rep s' s0 v' ip i' /\
    i' = i <| i_addrs := replicate 13 0 |> <| i_size := 0 |> /\
    (forall b, 0 <= b < sb_size sb0 -> used v' sb0 b = true <-> used v sb0 b = true /\ ~ file_block v i b) /\
    (forall n, ~ bmap_block sb0 n -> n <> IBLOCK (i_inum i) sb0 -> v_data v' n = v_data v n) /\
    (forall j, disk_inode sb0 v' (i_inum i) j = with_disk i' j).
Proof.
  intros [I Es Q W NH Hfit Hin Hh HC] HB.
  pose proof (itrunc_spec D rep sb0 dstart LY C s s0 v ip i I Es Q W Hfit Hin Hh HB) as H.
  apply wp_Ok in H as ([] & s' & E & v' & i' & I' & [T1 T2 T3 T4 T5 T6]). exists s', v', i'. split_and!; auto.
Qed.

(** An inode that [iupdate] has written is the inode that [ilock] loads into
    an entry of the cache that is not valid: the two agree in every field that
    is on disk, and the inodes beside it in the block are as before. *)
Theorem iupdate_ilock s s0 v ip i jp :
  file_ok s s0 v ip i -> budget D C v 1 -> i_type i <> 0 ->
  jp <> 0 -> jp <> ip -> 0 < i_ref (inodes s0 jp) -> unlocked (inodes s0 jp) ->
  i_valid (inodes s0 jp) = false -> i_dev (inodes s0 jp) = d_dev D -> i_inum (inodes s0 jp) = i_inum i ->
  exists s1 s2 v', iupdate ip s = Ok tt s1 /\ ilock jp s1 = Ok tt s2 /\ rep (blk s2) v' /\
    inodes s2 jp = with_disk i (inodes s0 jp) <| i_lock := Sleeplock true false (fs_pid s0) |> <| i_valid := true |> /\
    (forall inum j, 0 <= inum < sb_ninodes sb0 -> inum <> i_inum i -> disk_inode sb0 v' inum j = disk_inode sb0 v inum j).
Proof.
  intros [I Es Q W NH Hfit Hin Hh HC] HB Ht Hj Hne Hr Hu Hv Hd En.
  pose proof (iupdate_spec D rep sb0 dstart LY C s s0 v ip i I Es Q (iw_dev _ _ _ _ _ W) Hin Hh HB) as H.
  apply wp_Ok in H as ([] & s1 & E1 & I1). set (v' := v_iupdate sb0 v i) in *.
  assert (Ej : inodes s1 jp = inodes s0 jp) by (by apply (is_other _ _ _ _ _ _ I1)).
  assert (Ed : forall inum j, 0 <= inum < sb_ninodes sb0 ->
     disk_inode sb0 v' inum j = if decide (inum = i_inum i) then with_disk i j else disk_inode sb0 v inum j)
    by (intros; by apply (iupdate_disk D sb0 dstart LY C)).
  assert (El : loaded sb0 v' (inodes s0 jp) = with_disk i (inodes s0 jp) <| i_valid := true |>).
  { unfold loaded. rewrite Hv, En, Ed, decide_True by done. done. }
  assert (HB' : budget D C v' 1) by (apply budget_absorb; [by left|done]).
  pose proof (ilock_spec D rep sb0 s1 s1 v' jp (inodes s0 jp)) as H.
  destruct (iupdate_file D sb0 dstart LY C v i i Q W Hfit Hin) as (Q' & _).
  assert (Hl : wp (ilock jp) (fun _ s' => ist rep s' s1 v' jp ((loaded sb0 v' (inodes s0 jp)) <| i_lock := Sleeplock true false (fs_pid s1) |>)) s1).
  { apply H; auto.
    - rewrite <- Ej. apply ist_refl, (is_rep _ _ _ _ _ _ I1).
    - by rewrite (is_sb _ _ _ _ _ _ I1).
    - apply Q'.
    - rewrite En. done.
    - by apply (budget_used D C v' 1).
    - left. rewrite El. done. }
  apply wp_Ok in Hl as ([] & s2 & E2 & I2). exists s1, s2, v'. split_and!; auto.
  - apply (is_rep _ _ _ _ _ _ I2).
  - rewrite (is_ip _ _ _ _ _ _ I2), El, (is_pid _ _ _ _ _ _ I1). reflexivity.
  - intros inum j Hi Hn. rewrite Ed by done. by rewrite decide_False.
Qed.

(** C9: a name that [dirlink] enters is a name that [dirlookup] finds.  When the
    directory has no entry with the name, [dirlink] puts it into the first free
    entry or after the last, leaves all other entries as they are, and
    [dirlookup] then asks the cache for the inode number that was linked. *)
Theorem dirlink_dirlookup s s0 v dp i nent k name inum (Q : Z * Z -> fst S -> Prop) :
  file_ok s s0 v dp i -> i_type i = T_DIR -> i_size i = sizeof_de * nent -> 0 <= nent ->
  Forall is_byte name -> 0 < inum < 2 ^ 16 -> (forall j, 0 <= j < nent -> ~ dmatch v i name j) ->
  0 <= k <= nent -> (forall j, 0 <= j < k -> de_inum (dent v i j) <> 0) -> (k < nent -> de_inum (dent v i k) = 0) ->
  sizeof_de * k + sizeof_de <= MAXFILE * BSIZE -> budget D C v 6 -> 4 <= Z.of_nat (nfree sb0 v) ->
  (forall s' v' i', ist rep s' (s0 <| kvar := dirent name inum |>) v' dp i' ->
     i' = i <| i_addrs := i_addrs i' |> <| i_size := sizeof_de * Z.max nent (k + 1) |> -> dent v' i' k = dirent name inum ->
     (forall j, 0 <= j < Z.max nent (k + 1) -> j <> k -> dent v' i' j = dent v i j) ->
     wp (iget (i_dev i) inum) (fun ip => Q (ip, sizeof_de * k)) s') ->
  wp (r ← dirlink dp name inum ; if r =? 0 then dirlookup dp name else panic "dirlink failed") Q s.
Proof.
  intros [I Es Qv W NH Hfit Hin Hh HC] Ht Hn Hn0 Hby Hi Hnm Hk Hu Hf Hmax HB Hfr HQ.
  assert (Hroom : (size (v_used v) + 1 < Z.to_nat NBUF)%nat) by (apply budget_room; eapply budget_mono; [|exact HB]; lia).
  eapply wp_seq.
  { apply (dirlink_new D rep sb0 dstart LY C dp s0 v i nent) with (k := k); auto.
    exists (kvar s0). destruct I. split; done. }
  intros r s1 (-> & v' & i' & I1 & Wr). cbn [Z.eqb].
  destruct (linked_dents D sb0 dstart C v i nent Hroom Hn k name inum v' i' Hk Hmax Wr) as (Es' & Ek & Eo).
  pose proof Wr as [Q' W' Er NH' _ _ _ _ HB'].
  apply (dirlookup_found D rep sb0 dstart dp (s0 <| kvar := dirent name inum |>) v' i' (Z.max nent (k + 1)) W' NH') with (k := k); auto; try lia.
  - apply Q'.
  - apply Q'.
  - by apply budget_room.
  - exists (dirent name inum). exact I1.
  - by rewrite Er.
  - split; [rewrite Ek, de_inum_dirent by lia; lia|]. rewrite Ek, de_name_dirent. apply fname_dirent.
  - intros j Hj. unfold dmatch. rewrite Eo by lia. apply Hnm. lia.
  - intros s2 I2. rewrite Ek, de_inum_dirent in * by lia. replace (i_dev i') with (i_dev i) by (by rewrite Er).
    apply (HQ s2 v' i'); auto. rewrite <- Es'. rewrite Er at 1. by rewrite Er.
Qed.

End FsProps.

(** ** A file system as [mkfs] lays it out *)

Definition demo_sb : superblock := Superblock FSMAGIC 1000 954 200 30 2 32 45.

(** Only the 46 blocks in front of the data area are in use. *)
Definition demo_disk (k : Z * Z) : block :=
  if k.2 =? 45 then replicate 5 255 ++ [63] ++ replicate 1018 0 else zero_block.

Definition demo_view : bview := BView (fun n => demo_disk (0, n)) ∅ ∅ ∅.
Abbreviation demo_dev := (log_device 0 2 30).
Abbreviation demo_rep := (log_rep 0 2 30).
Definition demo_C : gset Z := {[45; 32]}.

(** Inode 5, without blocks, in every entry of the cache that is looked at. *)
Definition demo_inode (type : Z) : inode := Inode 0 5 1 initsleeplock true type 0 1 1 0 (replicate 13 0).

Definition demo (b : lst) (type : Z) (k : kmem) (pt : Z) : fst lst :=
  Fst b demo_sb false (fun ip => if ip =? 1 then demo_inode type else (demo_inode type) <| i_valid := false |>)
      1 1 k pt [] [].

Lemma demo_layout : layout demo_dev demo_sb 46.
Proof. split; cbn; try done. intros n Hn. split; [zpow|]; lia. Qed.

(** A machine that has just booted, inside an operation, on any disk. *)
Lemma boot_blocks d : exists b, demo_rep b (BView (fun n => d (0, n)) ∅ ∅ ∅).
Proof.
  exists (Lst op_log (binit (boot_bst d 1)) 0). split; [done|]. exists op_log, (a_boot d), 1, []. split; try done.
  - apply binit_lrep.
  - split; cbn; done || (intros; lia).
  - split; cbn; done || (intros; lia).
  - intros n. change (tx_blocks op_log) with (@nil Z). cbn. set_solver.
  - intros k [r Hr]. cbn in Hr. done.
Qed.

Lemma demo_blocks : exists b, demo_rep b demo_view.
Proof. apply (boot_blocks demo_disk). Qed.

Lemma demo_used b : 0 <= b < 1000 -> used demo_view demo_sb b = (b <? 46).
Proof.
  intros Hb. assert (H : forallb (fun b => eqb (used demo_view demo_sb b) (b <? 46)) (zseq 0 1000) = true) by (vm_compute; reflexivity).
  rewrite forallb_forall in H. apply eqb_prop, H, list_elem_of_In, elem_of_zseq. lia.
Qed.

Lemma demo_bmap n : bmap_block demo_sb n -> n = 45.
Proof. unfold bmap_block, demo_sb. cbn. change ((1000 + BPB - 1) / BPB) with 1. lia. Qed.

Lemma demo_quiet : quiet demo_sb 46 demo_C demo_view.
Proof.
  split; try done.
  - intros b Hb. rewrite demo_used by lia. apply Z.ltb_lt. lia.
  - intros n. cbn. unfold demo_disk. cbn [snd]. destruct (n =? 45); [|apply zero_block_ok].
    split; [reflexivity|]. repeat (apply Forall_app; split); try apply Forall_replicate; repeat constructor; lia.
  - intros n Hn. apply demo_bmap in Hn as ->. set_solver.
Qed.

Lemma demo_addr type n : i_addr (demo_inode type) n = 0.
Proof.
  unfold i_addr, demo_inode. cbn [i_addrs]. destruct (replicate 13 0 !! Z.to_nat n) as [x|] eqn:E; [|done].
  apply lookup_replicate in E as [-> _]. done.
Qed.

Lemma demo_fmap type bn : fmap_ demo_view (demo_inode type) bn = 0.
Proof. unfold fmap_. rewrite !demo_addr. by destruct (bn <? NDIRECT). Qed.

Lemma demo_file_ok b type k pt :
  demo_rep b demo_view -> -2 ^ 15 <= type < 2 ^ 15 ->
  file_ok demo_dev demo_rep demo_sb 46 demo_C (demo b type k pt) (demo b type k pt) demo_view 1 (demo_inode type).
Proof.
  intros Hb Ht. split.
  - exact (ist_refl demo_rep (demo b type k pt) demo_view 1 Hb).
  - reflexivity.
  - apply demo_quiet.
  - split; try done.
    + intros bn _. by rewrite demo_fmap.
    + intros bn bn' _ _. by rewrite demo_fmap.
  - split; [done|]. intros bn H1 H2. cbn in H2. fslia.
  - split; cbn; try done. repeat constructor; lia.
  - done.
  - reflexivity.
  - unfold demo_C. change (IBLOCK _ demo_sb) with 32. set_solver.
Qed.

Lemma demo_budget k : k <= 27 -> budget demo_dev demo_C demo_view k.
Proof.
  intros Hk. unfold budget, v_used. cbn [v_pins v_held demo_view].
  assert (E1 : size ((∅ : gset Z) ∪ demo_C) = 2%nat) by (vm_compute; reflexivity).
  assert (E2 : size (dom (∅ : gmap Z Z) ∪ ∅ ∪ demo_C) = 2%nat) by (vm_compute; reflexivity).
  rewrite E1, E2. change (d_lim demo_dev) with 29. change NBUF with 30. lia.
Qed.

Lemma demo_free : nfree demo_sb demo_view = 954%nat.
Proof. vm_compute. reflexivity. Qed.

Definition no_mem : kmem := Kmem false 0 (fun _ => 0).

Lemma writei_readi_witness :
  exists s s', (r ← writei 1 true 4000 0 5 ; r' ← readi 1 true 4010 0 5 ; ret (r, r')) s = Ok (5, 5) s'.
Proof.
  destruct sample_process as (k & l & T & new & U & Hn & _ & _). destruct demo_blocks as [b Hb].
  set (s := demo b T_FILE k R64).
  assert (Ha : accessible (frames new) 4010 5).
  { destruct new as [|pa [|]]; try done. intros i Hi. unfold uaddr, user_frame. replace ((4010 + i) / PGSIZE) with 0 by pglia. cbn. eauto. }
  assert (H : file_ok demo_dev demo_rep demo_sb 46 demo_C s s demo_view 1 (demo_inode T_FILE)) by (by apply demo_file_ok).
  apply (writei_readi demo_dev demo_rep demo_sb 46 demo_layout demo_C s s demo_view 1
    (demo_inode T_FILE) 0 5 4000 4010 E64 l T (frames new)) in H.
  - apply wp_Ok in H as (r & s' & E & -> & _). by exists s, s'.
  - lia.
  - cbn. lia.
  - change (MAXFILE * BSIZE) with 274432. lia.
  - apply demo_budget. vm_compute. done.
  - rewrite demo_free. vm_compute. done.
  - exact E64_pos.
  - exact U.
  - lia.
  - zpow. lia.
  - by apply sample_accessible.
  - lia.
  - zpow. lia.
  - exact Ha.
Defined.

Lemma iget_unique_witness :
  exists (s : fst lst) ip s', iget 0 7 s = Ok ip s' /\ i_ref (inodes s ip) = 0 /\ i_ref (inodes s' ip) = 1.
Proof.
  destruct demo_blocks as [b _].
  set (s := (demo b T_FILE no_mem 0) <| inodes := fun _ => (demo_inode T_FILE) <| i_ref := 0 |> |>).
  assert (Hw : icache_wf (inodes s)) by (split; [done|intros ip ip' dev inum (_ & H & _); cbn in H; lia]).
  destruct (iget_unique s 0 7 eq_refl Hw) as [(ip & s' & E & _ & _ & _ & _ & Hr & _)|(_ & Hall & _)].
  - exists s, ip, s'. split_and!; [exact E|reflexivity|exact Hr].
  - specialize (Hall 1 ltac:(by unfold entry)). cbn in Hall. lia.
Defined.

Lemma balloc_bfree_witness : exists s b s1, balloc 0 s = Ok b s1 /\ 46 <= b < 1000.
Proof.
  destruct demo_blocks as [b0 Hb0]. set (s := demo b0 T_FILE no_mem 0).
  destruct (balloc_bfree demo_dev demo_rep demo_sb 46 demo_layout demo_C s s demo_view) as (b & s1 & s2 & E & _ & _ & Hb & _).
  - exact (at_refl demo_rep s demo_view Hb0).
  - reflexivity.
  - apply demo_quiet.
  - by apply demo_budget.
  - exists 46. split; [done|]. by rewrite demo_used.
  - by exists s, b, s1.
Defined.

(** A file of three bytes, truncated. *)
Lemma itrunc_frees_witness : exists s s1 s2, writei 1 false 0 0 3 s = Ok 3 s1 /\ itrunc 1 s1 = Ok tt s2.
Proof.
  destruct demo_blocks as [b Hb]. set (s := (demo b T_FILE no_mem 0) <| kvar := [1; 2; 3] |>).
  assert (H : file_ok demo_dev demo_rep demo_sb 46 demo_C s s demo_view 1 (demo_inode T_FILE)).
  { destruct (demo_file_ok b T_FILE no_mem 0 Hb ltac:(done)). split; auto. exact (ist_refl demo_rep s demo_view 1 Hb). }
  pose proof H as [I Es Q W NH Hfit Hin Hh HC].
  assert (Hw : wp (writei 1 false 0 0 (Z.of_nat (length [1; 2; 3]))) (fun r s' => r = Z.of_nat (length [1; 2; 3]) /\ exists v' i',
      ist demo_rep s' s v' 1 i' /\ written demo_dev demo_sb 46 demo_C demo_view (demo_inode T_FILE) 0 [1; 2; 3] v' i') s).
  { apply (writei_kernel demo_dev demo_rep demo_sb 46 demo_layout demo_C 1 s s demo_view (demo_inode T_FILE) 0 [1; 2; 3]); auto.
    - cbn. lia.
    - by vm_compute.
    - apply demo_budget. vm_compute. discriminate.
    - rewrite demo_free. vm_compute. discriminate.
    - lia.
    - by vm_compute. }
  apply wp_Ok in Hw as (r & s1 & E & -> & v' & i' & I' & Wr).
  destruct (itrunc_frees demo_dev demo_rep demo_sb 46 demo_layout demo_C s1 s v' 1 i') as (s2 & v2 & i2 & E2 & _).
  - by apply (written_ok demo_dev demo_rep demo_sb 46 demo_layout demo_C s s1 s demo_view v' 1 (demo_inode T_FILE) i' 0 [1; 2; 3]).
  - apply Wr.
  - exists s, s1, s2. split; [exact E|exact E2].
Defined.

Lemma iupdate_ilock_witness : exists s s1 s2, iupdate 1 s = Ok tt s1 /\ ilock 2 s1 = Ok tt s2.
Proof.
  destruct demo_blocks as [b Hb]. set (s := demo b T_FILE no_mem 0).
  destruct (iupdate_ilock demo_dev demo_rep demo_sb 46 demo_layout demo_C s s demo_view 1 (demo_inode T_FILE) 2)
    as (s1 & s2 & v' & E1 & E2 & _).
  - by apply demo_file_ok.
  - by apply demo_budget.
  - done.
  - done.
  - done.
  - reflexivity.
  - split; reflexivity.
  - reflexivity.
  - reflexivity.
  - reflexivity.
  - by exists s, s1, s2.
Defined.

Lemma dirlink_dirlookup_witness :
  exists s ip s', (r ← dirlink 1 [97] 9 ; if r =? 0 then dirlookup 1 [97] else panic "dirlink failed") s = Ok (ip, 0) s'.
Proof.
  destruct demo_blocks as [b Hb]. set (s := (demo b T_DIR no_mem 0) <| inodes := fun ip => (demo_inode T_DIR) <| i_ref := if ip =? 1 then 1 else 0 |> |>).
  pose proof (dirlink_dirlookup demo_dev demo_rep demo_sb 46 demo_layout demo_C s s demo_view 1 (demo_inode T_DIR) 0 0 [97] 9
    (fun r s' => r.2 = 0)) as H.
  apply wp_Ok in H as ([ip o] & s' & E & Eo).
  - cbn in Eo. subst o. by exists s, ip, s'.
  - destruct (demo_file_ok b T_DIR no_mem 0 Hb ltac:(done)). split; auto.
    change (demo_inode T_DIR) with (inodes s 1). exact (ist_refl demo_rep s demo_view 1 Hb).
  - done.
  - done.
  - done.
  - repeat constructor; lia.
  - done.
  - lia.
  - done.
  - lia.
  - lia.
  - done.
  - by apply demo_budget.
  - by rewrite demo_free.
  - intros s1 v' i' I1 Ei _ _.
    assert (Hr : forall x, i_ref (inodes s1 x) = if x =? 1 then 1 else 0).
    { intros x. destruct (Z.eqb_spec x 1) as [->|Hx]; [rewrite (is_ip _ _ _ _ _ _ I1), Ei; done|].
      rewrite (is_other _ _ _ _ _ _ I1) by done. cbn. by rewrite (proj2 (Z.eqb_neq x 1)) by done. }
    assert (Hc : forall x d m, caches (inodes s1) x d m -> x = 1).
    { intros x d m (_ & Hx & _). rewrite Hr in Hx. destruct (Z.eqb_spec x 1); [done|lia]. }
    assert (Hw : icache_wf (inodes s1)).
    { split; [intros x _; rewrite Hr; by destruct (x =? 1)|]. intros x x' d m Hx Hx'. apply Hc in Hx, Hx'. congruence. }
    destruct (iget_spec s1 0 9) as [(ip & s2 & E & _)|(_ & Hall & _)]; [by rewrite (is_lock _ _ _ _ _ _ I1)|done| |].
    + change (i_dev (demo_inode T_DIR)) with 0. unfold wp. by rewrite E.
    + specialize (Hall 2 ltac:(by unfold entry)). rewrite Hr in Hall. done.
Defined.
