(* ===== verification/FsPath.v ===== *)
(** * Path names: [namex], [namei], [nameiparent]

    [walk_path] follows the elements of a path through the directories on disk.  [namex]
    finds the inode [walk_path] gives, or fails where it does; it locks one directory at a
    time and leaves every reference count as it was, but for the reference it returns. *)
From stdpp Require Import base list gmap strings.
From Stdlib Require Import ZArith Lia.
From S2P Require Import Prelude KString Riscv Kalloc Vm Sleeplock Bio Log Blocks Fs FsBlock FsInode FsMeta FsFile FsCache FsDir FsProps.

#[local] Open Scope Z_scope.
#[local] Open Scope xv6_scope.

(** ** Paths as C strings *)

(** The string of the path is [p]: the array ends there, or a NUL follows. *)
Definition is_path (path p : list Z) : Prop := (0 ∉ p) /\ (path = p \/ exists junk, path = p ++ 0 :: junk).

Lemma skip_slashes_nul p junk : skip_slashes (p ++ 0 :: junk) = skip_slashes p ++ 0 :: junk.
Proof. induction p as [|c p IH]; [done|]. cbn. by destruct (c =? SLASH). Qed.

Lemma take_elem_nul p junk : 0 ∉ p -> take_elem (p ++ 0 :: junk) = ((take_elem p).1, (take_elem p).2 ++ 0 :: junk).
Proof.
  induction p as [|c p IH]; intros H0; [done|]. cbn. destruct ((c =? SLASH) || (c =? 0)) eqn:E; [done|].
  rewrite IH by set_solver. by destruct (take_elem p).
Qed.

Lemma peek_path path p : is_path path p -> peek path = peek p.
Proof. intros [_ [->|(junk & ->)]]; [done|]. by destruct p. Qed.

Lemma skipelem_nul p junk name : 0 ∉ p ->
  skipelem (p ++ 0 :: junk) name = match skipelem p name with None => None | Some (p', name') => Some (p' ++ 0 :: junk, name') end.
Proof.
  intros H0. unfold skipelem. rewrite skip_slashes_nul.
  assert (H0' : 0 ∉ skip_slashes p) by (destruct (skip_slashes_sub p) as [k E]; rewrite E in H0; set_solver).
  replace (peek (skip_slashes p ++ 0 :: junk)) with (peek (skip_slashes p)) by (by destruct (skip_slashes p)).
  destruct (peek (skip_slashes p) =? 0); [done|]. rewrite take_elem_nul by done.
  destruct (take_elem (skip_slashes p)) as [e r]. cbn [Datatypes.fst Datatypes.snd]. by rewrite skip_slashes_nul.
Qed.

Lemma skip_slashes_bytes p : Forall is_byte p -> Forall is_byte (skip_slashes p).
Proof. intros H. destruct (skip_slashes_sub p) as [k E]. rewrite E in H. by apply Forall_app in H as [_ H]. Qed.

Lemma skipelem_bytes p name p' name' : (0 ∉ p) -> skipelem p name = Some (p', name') -> Forall is_byte p -> Forall is_byte name ->
  Forall is_byte p' /\ Forall is_byte name'.
Proof.
  unfold skipelem. intros H0 E Hp Hn. destruct (peek (skip_slashes p) =? 0); [done|].
  assert (H0' : 0 ∉ skip_slashes p) by (destruct (skip_slashes_sub p) as [k Ek]; rewrite Ek in H0; set_solver).
  pose proof (take_elem_spec (skip_slashes p) H0') as Ht. pose proof (skip_slashes_bytes p Hp) as Hs.
  destruct (take_elem (skip_slashes p)) as [e r]. destruct Ht as (Ee & _). rewrite Ee in Hs. apply Forall_app in Hs as [He Hr].
  injection E as <- <-. split; [by apply skip_slashes_bytes|].
  destruct (_ >=? _); rewrite splice_0; apply Forall_app; (split; [|by apply Forall_drop]); [by apply Forall_take|apply Forall_app; by split; [|repeat constructor]].
Qed.

(** One call of [skipelem] on the string of a path. *)
Lemma skipelem_path path p name : is_path path p -> length name = Z.to_nat DIRSIZ -> Forall is_byte p -> Forall is_byte name ->
  match elements p with
  | [] => skipelem path name = None
  | e :: es => exists path' p' name', skipelem path name = Some (path', name') /\ is_path path' p' /\ elements p' = es /\
      peek path' = peek p' /\ (peek p' = 0 <-> es = []) /\ length name' = Z.to_nat DIRSIZ /\ fname name' = take (Z.to_nat DIRSIZ) e /\ (length path' < length path)%nat /\
      Forall is_byte p' /\ Forall is_byte name'
  end.
Proof.
  intros [H0 Hp] Hl Hbp Hbn. pose proof (skipelem_step p name H0 Hl) as H. destruct (elements p) as [|e es].
  - destruct Hp as [->|(junk & ->)]; [done|]. by rewrite skipelem_nul, H.
  - destruct H as (p' & name' & E & Ee & H0' & Hl' & Hf & Hlt).
    assert (Hpk : peek p' = 0 <-> es = []).
    { unfold skipelem in E. destruct (peek (skip_slashes p) =? 0); [done|]. destruct (take_elem (skip_slashes p)) as [x r].
      injection E as <- _. destruct (skip_slashes r) as [|c q] eqn:Er; [by subst es|]. cbn. pose proof (skip_slashes_head _ _ _ Er) as Hc.
      split; [intros ->; set_solver|]. intros ->. unfold FsProps.elements in Ee. cbn in Ee.
      rewrite (proj2 (Z.eqb_neq c SLASH) Hc) in Ee. destruct (pieces q) as [|y l]; [done|]. by rewrite filter_cons_True in Ee. }
    destruct (skipelem_bytes p name p' name' H0 E Hbp Hbn) as [Hb1 Hb2]. destruct Hp as [->|(junk & ->)].
    + exists p', p', name'. split_and!; auto; [split; [done|by left]|apply Hpk..].
    + exists (p' ++ 0 :: junk), p', name'. rewrite skipelem_nul, E by done. split_and!; auto; [split; [done|right; eauto]|by destruct p'|apply Hpk..|].
      rewrite !length_app. lia.
Qed.

(** ** Directories on disk *)

(** Entry [k] is in use and has the name. *)
Definition dmatchb (v : bview) (i : inode) (name : list Z) (k : Z) : bool :=
  negb (de_inum (dent v i k) =? 0) && bool_decide (fname (de_name (dent v i k)) = name).

(** The first such entry of [n] entries from [k] on. *)
Fixpoint dscan (v : bview) (i : inode) (name : list Z) (n : nat) (k : Z) : option Z :=
  match n with
  | O => None
  | Datatypes.S n => if dmatchb v i name k then Some k else dscan v i name n (k + 1)
  end.

Definition nents (i : inode) : Z := i_size i / sizeof_de.

Definition dfind (v : bview) (i : inode) (name : list Z) : option Z := dscan v i name (Z.to_nat (nents i)) 0.

Lemma dmatchb_spec v i name name' k : fname name' = name -> dmatchb v i name k = true <-> dmatch v i name' k.
Proof.
  intros <-. unfold dmatchb, dmatch. rewrite andb_true_iff, negb_true_iff, Z.eqb_neq, bool_decide_eq_true. done.
Qed.

Lemma dscan_spec v i name n k :
  match dscan v i name n k with
  | Some j => k <= j < k + Z.of_nat n /\ dmatchb v i name j = true /\ forall x, k <= x < j -> dmatchb v i name x = false
  | None => forall x, k <= x < k + Z.of_nat n -> dmatchb v i name x = false
  end.
Proof.
  revert k. induction n as [|n IH]; intros k; cbn [dscan]; [lia|]. destruct (dmatchb v i name k) eqn:E.
  - split_and!; [lia|lia|done|lia].
  - specialize (IH (k + 1)). destruct (dscan v i name n (k + 1)) as [j|].
    + destruct IH as (H1 & H2 & H3). split_and!; [lia|lia|done|]. intros x Hx. destruct (decide (x = k)) as [->|]; [done|apply H3; lia].
    + intros x Hx. destruct (decide (x = k)) as [->|]; [done|apply IH; lia].
Qed.

(** Two inodes with the same contents. *)
Definition agrees (i j : inode) : Prop :=
  i_type i = i_type j /\ i_nlink i = i_nlink j /\ i_size i = i_size j /\ i_addrs i = i_addrs j.

Lemma agrees_fbyte v i j off : agrees i j -> fbyte v i off = fbyte v j off.
Proof. intros (_ & _ & _ & H). unfold fbyte, fmap_, i_addr. by rewrite H. Qed.

Lemma agrees_dent v i j k : agrees i j -> dent v i k = dent v j k.
Proof. intros H. unfold dent, fbytes. apply list_fmap_ext. intros x o _. by apply agrees_fbyte. Qed.

Lemma agrees_holes v i j : agrees i j -> no_holes v j -> no_holes v i.
Proof. intros (_ & _ & H2 & H) [N1 N2]. unfold no_holes, fmap_, i_addr in *. rewrite H, H2. done. Qed.

Section Path.

Context {S : Type} {L : BlockLayer S} (D : device) (rep : S -> bview -> Prop) {HL : BlockLaws S D rep}.
Context (sb0 : superblock) (dstart : Z) (LY : layout D sb0 dstart).

Abbreviation iwf := (iwf D sb0 dstart).
Abbreviation ist := (ist rep).

Lemma agrees_iwf v i j : agrees i j -> i_dev i = i_dev j -> iwf v j -> iwf v i.
Proof. intros (_ & _ & _ & H) Hd [W1 W2 W3 W4 W5 W6]. split; unfold fmap_, i_addr in *; rewrite ?H, ?Hd; done. Qed.

(** Inode [inum] on disk. *)
Definition dnode (v : bview) (inum : Z) : inode :=
  disk_inode sb0 v inum (Inode (d_dev D) inum 0 initsleeplock false 0 0 0 0 0 []).

(** Follow the elements of a path from inode [inum]; with [parent], up to the last one. *)
Fixpoint walk_path (parent : bool) (v : bview) (inum : Z) (es : list (list Z)) : option Z :=
  match es with
  | [] => if parent then None else Some inum
  | e :: es' =>
      if negb (i_type (dnode v inum) =? T_DIR) then None else
      if parent && bool_decide (es' = []) then Some inum else
      match dfind v (dnode v inum) (take (Z.to_nat DIRSIZ) e) with
      | None => None
      | Some k => walk_path parent v (de_inum (dent v (dnode v inum) k)) es'
      end
  end.

(** An inode that is allocated, and one that a directory can name. *)
Definition allocated (v : bview) (inum : Z) : Prop := 0 < inum < sb_ninodes sb0 /\ i_type (dnode v inum) <> 0.
Definition linked (v : bview) (inum : Z) : Prop := allocated v inum /\ i_nlink (dnode v inum) <> 0.

(** The file system on disk is well formed. *)
Record fs_tree (v : bview) : Prop := {
  ft_file : forall inum, allocated v inum -> iwf v (dnode v inum) /\ no_holes v (dnode v inum);
  ft_dir : forall inum, allocated v inum -> i_type (dnode v inum) = T_DIR ->
    i_size (dnode v inum) = sizeof_de * nents (dnode v inum) /\
    forall k, 0 <= k < nents (dnode v inum) -> de_inum (dent v (dnode v inum) k) <> 0 -> linked v (de_inum (dent v (dnode v inum) k));
  ft_root : linked v ROOTINO;
  ft_held : v_held v = ∅;
  ft_dirty : v_dirty v = ∅;
  ft_block : forall a, block_ok (v_data v a);
  ft_room : (size (v_used v) + 1 < Z.to_nat NBUF)%nat;
}.

(** ** The cache *)

(** The cache is in step with the disk; no entry but [lk] is locked. *)
Record cache_ok (v : bview) (f : Z -> inode) (lk : Z) : Prop := {
  ca_wf : icache_wf f;
  ca_free : forall x, entry x -> x <> lk -> unlocked (f x);
  ca_live : forall x inum, caches f x (d_dev D) inum ->
    allocated v inum /\ (i_valid (f x) = true -> agrees (f x) (dnode v inum));
}.

(** References are those of [f0] and the ones in [l]. *)
Record refs_of (f0 f : Z -> inode) (l : list Z) : Prop := {
  rf_ref : forall x, entry x -> i_ref (f x) = i_ref (f0 x) + Z.of_nat (count_occ Z.eq_dec l x);
  rf_id : forall x, entry x -> 0 < i_ref (f0 x) -> i_dev (f x) = i_dev (f0 x) /\ i_inum (f x) = i_inum (f0 x);
}.

(** [s] is [s0] up to the blocks, with the view [v], and what path lookup changes. *)
Record fs_upto (s s0 : fst S) (v : bview) : Prop := {
  up_rep : rep (blk s) v;
  up_sb : sb s = sb s0;
  up_lock : ic_lock s = false;
  up_pid : fs_pid s = fs_pid s0;
  up_cwd : cwd s = cwd s0;
  up_mem : fs_mem s = fs_mem s0;
  up_pt : fs_pt s = fs_pt s0;
}.

Lemma upto_ist s1 s s0 v ip i : fs_upto s s0 v -> ist s1 s v ip i -> fs_upto s1 s0 v.
Proof. intros [] []. split; congruence. Qed.

(** What identifies the use of an entry. *)
Definition ikey (i : inode) : Z * Z * Z := (i_ref i, i_dev i, i_inum i).

Lemma caches_key f f' x d n : ikey (f' x) = ikey (f x) -> caches f' x d n <-> caches f x d n.
Proof. unfold ikey, caches. intros [= -> -> ->]. done. Qed.

Lemma icache_key f f' : (forall x, ikey (f' x) = ikey (f x)) -> icache_wf f -> icache_wf f'.
Proof.
  intros H [H1 H2]. split.
  - intros x Hx. specialize (H1 x Hx). specialize (H x). unfold ikey in H. injection H as -> _ _. done.
  - intros x y d n Hx Hy. apply (caches_key _ _ _ _ _ (H x)) in Hx. apply (caches_key _ _ _ _ _ (H y)) in Hy. by eapply H2.
Qed.

Lemma refs_key f0 f f' l : (forall x, ikey (f' x) = ikey (f x)) -> refs_of f0 f l -> refs_of f0 f' l.
Proof.
  intros H [H1 H2]. split; intros x Hx; specialize (H x); unfold ikey in H; injection H as E1 E2 E3; rewrite ?E1, ?E2, ?E3; auto.
Qed.

(** Entry [ip] is locked by the process, for inode [inum]. *)
Record ilocked (s s0 : fst S) (v : bview) (ip inum : Z) : Prop := {
  lo_up : fs_upto s s0 v;
  lo_cache : cache_ok v (inodes s) ip;
  lo_id : caches (inodes s) ip (d_dev D) inum;
  lo_valid : i_valid (inodes s ip) = true;
  lo_lock : i_lock (inodes s ip) = Sleeplock true false (fs_pid s0);
}.

Lemma lo_agrees s s0 v ip inum : ilocked s s0 v ip inum -> agrees (inodes s ip) (dnode v inum).
Proof. intros [_ H1 H2 H3 _]. by apply (ca_live _ _ _ H1). Qed.

Lemma entry_nz ip : entry ip -> ip <> 0.
Proof. unfold entry. lia. Qed.

Section Steps.

Context (v : bview).
Hypothesis FT : fs_tree v.

Lemma ilock_step s s0 ip inum :
  fs_upto s s0 v -> sb s0 = sb0 -> cache_ok v (inodes s) 0 -> caches (inodes s) ip (d_dev D) inum ->
  wp (ilock ip) (fun _ s' => ilocked s' s0 v ip inum /\ forall x, ikey (inodes s' x) = ikey (inodes s x)) s.
Proof.
  intros U Es [C1 C2 C3] Hc. pose proof Hc as (He & Hr & Hd & Hn). pose proof (entry_nz ip He) as Hz. destruct (C3 ip inum Hc) as [Hl Ha].
  assert (Ht : i_valid (inodes s ip) = false -> agrees (loaded sb0 v (inodes s ip)) (dnode v inum)).
  { intros Hv. unfold loaded. rewrite Hv, Hn. done. }
  eapply wp_mono; [apply (ilock_spec D rep sb0 s s v ip (inodes s ip)); auto; try apply FT|].
  - apply ist_refl, U.
  - rewrite (up_sb _ _ _ U). exact Es.
  - by rewrite (ft_held _ FT).
  - pose proof (ft_room _ FT). lia.
  - destruct (i_valid (inodes s ip)) eqn:Ev; [by right|left]. destruct (Ht eq_refl) as [-> _]. apply Hl.
  - intros [] s' I. pose proof (is_ip _ _ _ _ _ _ I) as Ei.
    assert (Hk : forall x, ikey (inodes s' x) = ikey (inodes s x)).
    { intros x. destruct (decide (x = ip)) as [->|]; [|by rewrite (is_other _ _ _ _ _ _ I)]. rewrite Ei. unfold loaded. by destruct (i_valid (inodes s ip)). }
    split; [|done]. split.
    + by eapply upto_ist.
    + split; [by apply (icache_key (inodes s))| |].
      * intros x Hx Hne. rewrite (is_other _ _ _ _ _ _ I) by done. apply C2; [done|]. by apply entry_nz.
      * intros x m Hm. apply (caches_key _ _ _ _ _ (Hk x)) in Hm. destruct (C3 x m Hm) as [Hl' Ha']. split; [done|].
        destruct (decide (x = ip)) as [->|]; [|by rewrite (is_other _ _ _ _ _ _ I)]. intros _. rewrite Ei.
        assert (m = inum) as -> by (destruct Hm as (_ & _ & _ & <-); done).
        destruct (i_valid (inodes s ip)) eqn:Ev; [|by destruct (Ht eq_refl) as (? & ? & ? & ?)]. unfold loaded. rewrite Ev. by destruct (Ha eq_refl) as (? & ? & ? & ?).
    + by apply (caches_key _ _ _ _ _ (Hk ip)).
    + rewrite Ei. unfold loaded. by destruct (i_valid (inodes s ip)) eqn:Ev.
    + rewrite Ei, <- (up_pid _ _ _ U). done.
Qed.

Lemma iunlock_step s s0 ip inum :
  ilocked s s0 v ip inum ->
  wp (iunlock ip) (fun _ s' => fs_upto s' s0 v /\ cache_ok v (inodes s') 0 /\ forall x, ikey (inodes s' x) = ikey (inodes s x)) s.
Proof.
  intros [U [C1 C2 C3] Hc Hv Hl]. pose proof Hc as (He & Hr & _ & _).
  eapply wp_mono; [apply (iunlock_spec rep s s v ip (inodes s ip)); auto using entry_nz|].
  - apply ist_refl, U.
  - by rewrite Hl, (up_pid _ _ _ U).
  - intros [] s' I. pose proof (is_ip _ _ _ _ _ _ I) as Ei. assert (Eo : forall x, x <> ip -> inodes s' x = inodes s x) by (intros x Hx; by rewrite (is_other _ _ _ _ _ _ I)).
    assert (Hk : forall x, ikey (inodes s' x) = ikey (inodes s x)).
    { intros x. destruct (decide (x = ip)) as [->|]; [by rewrite Ei|by rewrite Eo]. }
    split_and!; [|split|done].
    + destruct U, I. split; cbn in *; congruence.
    + by apply (icache_key (inodes s)).
    + intros x Hx _. destruct (decide (x = ip)) as [->|]; [by rewrite Ei|rewrite Eo by done; by apply C2].
    + intros x m Hm. apply (caches_key _ _ _ _ _ (Hk x)) in Hm. destruct (C3 x m Hm) as [Hl' Ha']. split; [done|].
      destruct (decide (x = ip)) as [->|]; [rewrite Ei|by rewrite Eo]. exact Ha'.
Qed.

Definition same_id (f f' : Z -> inode) : Prop := forall x, i_dev (f' x) = i_dev (f x) /\ i_inum (f' x) = i_inum (f x).

(** Giving a reference back. *)
Lemma iput_step s s0 ip inum f0 l :
  fs_upto s s0 v -> cache_ok v (inodes s) 0 -> caches (inodes s) ip (d_dev D) inum ->
  1 < i_ref (inodes s ip) \/ i_nlink (dnode v inum) <> 0 -> refs_of f0 (inodes s) (ip :: l) ->
  wp (iput ip) (fun _ s' => fs_upto s' s0 v /\ cache_ok v (inodes s') 0 /\ refs_of f0 (inodes s') l /\ same_id (inodes s) (inodes s')) s.
Proof.
  intros U [C1 C2 C3] Hc Hn [R1 R2]. pose proof Hc as (He & Hr & _ & _). destruct (C3 ip inum Hc) as [_ Ha].
  assert (Hf : (i_ref (inodes s ip) =? 1) && i_valid (inodes s ip) && (i_nlink (inodes s ip) =? 0) = false).
  { destruct (Z.eqb_spec (i_ref (inodes s ip)) 1) as [E1|]; [|done]. destruct Hn as [?|Hn]; [lia|].
    destruct (i_valid (inodes s ip)); [|done]. destruct (Ha eq_refl) as (_ & -> & _). cbn. by apply Z.eqb_neq. }
  set (i' := (inodes s ip) <| i_ref := i_ref (inodes s ip) - 1 |>).
  assert (E : iput ip s = Ok tt (s <| inodes := upd (inodes s) ip i' |>)).
  { unfold iput, bind, acquire, release, get_inode, set_inode, gets, modify, ret. rewrite (up_lock _ _ _ U). cbn -[upd].
    change (inodes (s <| ic_lock := true |>)) with (inodes s). rewrite Hf. cbn -[upd]. pose proof (up_lock _ _ _ U) as Hk. destruct s; cbn in *. by subst. }
  apply wp_Ok. eexists _, _. split; [exact E|]. cbn [inodes field_update].
  change (inodes (s <| inodes := upd (inodes s) ip i' |>)) with (upd (inodes s) ip i').
  assert (Hc' : forall x d m, caches (upd (inodes s) ip i') x d m -> caches (inodes s) x d m).
  { intros x d m. unfold caches, upd. destruct (Z.eqb_spec x ip) as [->|]; [|done]. cbn. intros (? & ? & ? & ?). split_and!; auto; lia. }
  split_and!.
  - destruct U. by split.
  - split; [split| |].
    + intros x Hx. unfold upd. destruct (Z.eqb_spec x ip); [cbn; lia|by apply C1].
    + intros x y d m Hx Hy. apply Hc' in Hx, Hy. by apply (ic_once _ C1 x y d m).
    + intros x Hx Hne. unfold upd. destruct (Z.eqb_spec x ip) as [->|]; [|by apply C2]. by destruct (C2 ip He Hne).
    + intros x m Hx. apply Hc' in Hx. unfold upd. destruct (Z.eqb_spec x ip) as [->|]; [|by apply C3]. by destruct (C3 ip m Hx).
  - split; intros x Hx; unfold upd; [specialize (R1 x Hx)|specialize (R2 x Hx)]; cbn [count_occ] in R1; destruct (Z.eqb_spec x ip) as [->|Hne].
    + destruct (Z.eq_dec ip ip); [|done]. cbn. lia.
    + destruct (Z.eq_dec ip x); [congruence|done].
    + done.
    + done.
  - intros x. unfold upd. by destruct (Z.eqb_spec x ip) as [->|].
Qed.

(** Taking a reference: in-use entries stay, the new one is in step with the disk. *)
Lemma iget_step s s0 inum lk f0 l :
  fs_upto s s0 v -> cache_ok v (inodes s) lk -> (lk = 0 \/ 0 < i_ref (inodes s lk)) -> allocated v inum ->
  (exists x, entry x /\ i_ref (inodes s x) = 0) -> refs_of f0 (inodes s) l ->
  wp (iget (d_dev D) inum) (fun ip s' => fs_upto s' s0 v /\ cache_ok v (inodes s') lk /\
    caches (inodes s') ip (d_dev D) inum /\ refs_of f0 (inodes s') (ip :: l) /\
    forall x, 0 < i_ref (inodes s x) -> inodes s' x = (inodes s x) <| i_ref := i_ref (inodes s' x) |>) s.
Proof.
  intros U [C1 C2 C3] Hlk Hlive (y & Hy & Hfree) [R1 R2].
  destruct (iget_spec s (d_dev D) inum (up_lock _ _ _ U) C1) as [(ip & s' & E & Es & W' & Hc & Ho & H)|(_ & Hall & _)].
  2:{ specialize (Hall y Hy). lia. }
  apply wp_Ok. exists ip, s'. split; [exact E|]. pose proof Hc as (He & _ & Hd & Hi).
  assert (Hr : i_ref (inodes s' ip) = i_ref (inodes s ip) + 1) by (destruct H as [[_ ->]|(_ & Hz & ->)]; cbn; [done|by rewrite Hz]).
  assert (Hold : forall x, 0 < i_ref (inodes s x) -> inodes s' x = (inodes s x) <| i_ref := i_ref (inodes s' x) |>).
  { intros x Hx. destruct (decide (x = ip)) as [->|Hne]; [|rewrite Ho by done; by destruct (inodes s x)].
    destruct H as [[_ ->]|(_ & Hz & _)]; [done|lia]. }
  split_and!; auto.
  - destruct U. rewrite Es. by split.
  - split; [done| |].
    + intros x Hx Hne. destruct (decide (x = ip)) as [->|]; [|rewrite Ho by done; by apply C2].
      destruct (C2 ip Hx Hne) as [H1 H2]. destruct H as [[_ ->]|(_ & _ & ->)]; by split.
    + intros x m Hx. destruct (decide (x = ip)) as [->|Hne].
      * assert (m = inum) as -> by (destruct Hx as (_ & _ & _ & <-); done). split; [done|].
        destruct H as [[Hc0 ->]|(_ & _ & ->)]; [|done]. destruct (C3 ip inum Hc0) as [_ Ha]. cbn. exact Ha.
      * unfold caches in Hx. rewrite (Ho x Hne) in Hx |- *. by apply C3.
  - split; intros x Hx.
    + cbn [count_occ]. destruct (Z.eq_dec ip x) as [<-|Hne]; [rewrite Hr, (R1 ip Hx); lia|rewrite Ho by done; by apply R1].
    + intros H0. assert (0 < i_ref (inodes s x)) as Hp by (rewrite (R1 x Hx); lia). rewrite (Hold x Hp). cbn. by apply R2.
Qed.

Lemma cache_ext f f' lk : (forall x, f' x = f x) -> cache_ok v f lk -> cache_ok v f' lk.
Proof.
  intros E [C1 C2 C3]. split.
  - apply (icache_key f); [|done]. intros x. by rewrite E.
  - intros x. rewrite E. apply C2.
  - intros x m. unfold caches. rewrite E. apply C3.
Qed.

Lemma refs_ext f0 f f' l : (forall x, f' x = f x) -> refs_of f0 f l -> refs_of f0 f' l.
Proof. intros E. apply refs_key. intros x. by rewrite E. Qed.

Lemma ilocked_ext s s' s0 ip inum : ilocked s s0 v ip inum -> fs_upto s' s0 v -> (forall x, inodes s' x = inodes s x) -> ilocked s' s0 v ip inum.
Proof.
  intros [U C Hc Hv Hl] U' E. split; unfold caches in *; rewrite ?E; auto. by apply (cache_ext (inodes s)).
Qed.

(** Searching a locked directory. *)
Lemma dirlookup_step s s0 ip inum name f0 l :
  ilocked s s0 v ip inum -> i_type (dnode v inum) = T_DIR -> Forall is_byte name -> refs_of f0 (inodes s) l ->
  (exists x, entry x /\ i_ref (inodes s x) = 0) ->
  wp (dirlookup ip name) (fun r s' => ilocked s' s0 v ip inum /\
    match dfind v (dnode v inum) (fname name) with
    | None => r.1 = 0 /\ refs_of f0 (inodes s') l
    | Some k => caches (inodes s') r.1 (d_dev D) (de_inum (dent v (dnode v inum) k)) /\
        linked v (de_inum (dent v (dnode v inum) k)) /\ refs_of f0 (inodes s') (r.1 :: l)
    end) s.
Proof.
  intros K Ht Hby R Hfree. pose proof (lo_agrees _ _ _ _ _ K) as Ha. pose proof K as [U C Hc Hv Hl]. destruct (ca_live _ _ _ C ip inum Hc) as [Hlive _].
  destruct (ft_file _ FT inum Hlive) as [W NH]. destruct (ft_dir _ FT inum Hlive Ht) as [Hsz Hent]. pose proof Hc as (_ & Href & Hdev & _).
  set (i := inodes s ip) in *. set (d := dnode v inum) in *. pose proof Ha as (Eat & _ & Eas & _).
  assert (Wi : iwf v i) by (apply (agrees_iwf v i d); auto; by rewrite Hdev, (iw_dev _ _ _ _ _ W)).
  assert (NHi : no_holes v i) by (by apply (agrees_holes v i d)).
  assert (Hn0 : 0 <= nents d) by (unfold nents; destruct NH as [[? _] _]; apply Z.div_pos; done || lia).
  assert (Hdst : dst rep ip s v i s) by (exists (kvar s); pose proof (ist_refl rep s v ip (up_rep _ _ _ U)) as []; by split).
  assert (Hm : forall k, dmatchb v d (fname name) k = true <-> dmatch v i name k).
  { intros k. rewrite (dmatchb_spec _ _ _ name) by done. unfold dmatch. by rewrite (agrees_dent v i d). }
  assert (Hst : forall s' kv, ist s' (s <| kvar := kv |>) v ip i -> fs_upto s' s0 v /\ forall x, inodes s' x = inodes s x).
  { intros s' kv I. split; [destruct U, I; split; cbn in *; congruence|]. intros x.
    destruct (decide (x = ip)) as [->|Hne]; [apply (is_ip _ _ _ _ _ _ I)|apply (is_other _ _ _ _ _ _ I x Hne)]. }
  pose proof (dscan_spec v d (fname name) (Z.to_nat (nents d)) 0) as Hs. fold (dfind v d (fname name)) in Hs.
  destruct (dfind v d (fname name)) as [k|].
  - destruct Hs as (Hk & Hmk & Hlt). rewrite Z2Nat.id in Hk by done. pose proof (proj1 (Hm k) Hmk) as Hmk'.
    apply (dirlookup_found D rep sb0 dstart ip s v i (nents d) Wi NHi) with (k := k); auto; try apply FT; try congruence.
    { intros j Hj Hj'. apply Hm in Hj'. rewrite Hlt in Hj'; [done|lia]. }
    intros s' I. destruct (Hst s' _ I) as [U' E']. rewrite Hdev, (agrees_dent v i d k Ha).
    assert (Hlk : linked v (de_inum (dent v d k))) by (apply Hent; [lia|]; destruct Hmk' as [Hz _]; by rewrite (agrees_dent v i d k Ha) in Hz).
    eapply wp_mono; [apply (iget_step s' s0 _ ip f0 l U')|].
    + by apply (cache_ext (inodes s)).
    + right. by rewrite E'.
    + apply Hlk.
    + destruct Hfree as (x & ? & ?). exists x. by rewrite E'.
    + by apply (refs_ext f0 (inodes s)).
    + intros r s2 (U2 & C2 & Hc2 & R2 & Ho2). cbn [Datatypes.fst]. split; [|done].
      specialize (Ho2 ip). rewrite E' in Ho2. specialize (Ho2 Href).
      assert (Href2 : 0 < i_ref (inodes s2 ip)).
      { destruct Hc as (He & _). rewrite (rf_ref _ _ _ R2 ip He). pose proof (rf_ref _ _ _ R ip He). cbn [count_occ]. destruct (Z.eq_dec r ip); unfold i in *; lia. }
      split; auto.
      * destruct Hc as (He & _ & _ & Hi). unfold caches. rewrite Ho2. cbn. done.
      * rewrite Ho2. done.
      * rewrite Ho2. done.
  - eapply wp_mono; [apply (dirlookup_none D rep sb0 dstart ip s v i (nents d) Wi NHi); auto; try apply FT; try congruence|].
    { intros j Hj Hj'. apply Hm in Hj'. rewrite Hs in Hj'; [done|lia]. }
    intros r s' [-> (kv & I)]. destruct (Hst s' kv I) as [U' E'].
    split; [by apply (ilocked_ext s)|]. split; [done|by apply (refs_ext f0 (inodes s))].
Qed.

Lemma refs_nil f : refs_of f f [].
Proof. split; [cbn; lia|done]. Qed.

Lemma refs_pos f0 f ip l : icache_wf f0 -> entry ip -> refs_of f0 f (ip :: l) -> 0 < i_ref (f0 ip) -> 1 < i_ref (f ip).
Proof. intros W He [H _] Hp. rewrite (H ip He). cbn. destruct (Z.eq_dec ip ip); [lia|done]. Qed.

(** Unlock and give the reference back. *)
Lemma iunlockput_step s s0 ip inum f0 l :
  icache_wf f0 -> ilocked s s0 v ip inum -> 0 < i_ref (f0 ip) \/ i_nlink (dnode v inum) <> 0 ->
  refs_of f0 (inodes s) (ip :: l) ->
  wp (iunlockput ip) (fun _ s' => fs_upto s' s0 v /\ cache_ok v (inodes s') 0 /\ refs_of f0 (inodes s') l /\ same_id (inodes s) (inodes s')) s.
Proof.
  intros Hwf K Hkeep R. pose proof (lo_id _ _ _ _ _ K) as Hc. pose proof Hc as (He & _).
  unfold iunlockput. eapply wp_seq; [by apply (iunlock_step s s0 ip inum)|]. intros [] s1 (U1 & C1 & K1).
  pose proof (refs_key _ _ _ _ K1 R) as R1. eapply wp_mono; [apply (iput_step s1 s0 ip inum f0 l); auto; [by apply (caches_key _ _ _ _ _ (K1 ip))|]|].
  - destruct Hkeep as [H|H]; [left|by right]. by apply (refs_pos f0 _ ip l).
  - intros [] s2 (U2 & C2 & R2 & I2). split_and!; auto. intros x. specialize (I2 x). specialize (K1 x). unfold ikey in K1. injection K1 as _ <- <-. done.
Qed.

Section Namex.

Context (parent : bool) (s0 : fst S) (p0 : list Z) (res : option Z).

Hypothesis Esb : sb s0 = sb0.
Hypothesis Hwf : icache_wf (inodes s0).
(** One entry for the directory at hand, one for the next inode. *)
Hypothesis Hfree : exists a b, a <> b /\ entry a /\ entry b /\ i_ref (inodes s0 a) = 0 /\ i_ref (inodes s0 b) = 0.

(** At the head of the loop: a reference to inode [inum], from which the rest of the path leads to the result. *)
Record at_node (x : Z * list Z * list Z) (s : fst S) (p : list Z) (inum : Z) : Prop := {
  an_path : is_path x.1.2 p;
  an_bytes : Forall is_byte p /\ Forall is_byte x.2;
  an_name : length x.2 = Z.to_nat DIRSIZ;
  an_up : fs_upto s s0 v;
  an_cache : cache_ok v (inodes s) 0;
  an_id : caches (inodes s) x.1.1 (d_dev D) inum;
  an_refs : refs_of (inodes s0) (inodes s) [x.1.1];
  an_keep : 0 < i_ref (inodes s0 x.1.1) \/ i_nlink (dnode v inum) <> 0;
  an_walk : walk_path parent v inum (elements p) = res;
  an_last : parent = true -> last (elements p) = last (elements p0);
}.

Definition namex_done (r : Z * list Z) (s : fst S) : Prop :=
  fs_upto s s0 v /\ cache_ok v (inodes s) 0 /\
  match res with
  | Some n => caches (inodes s) r.1 (d_dev D) n /\ refs_of (inodes s0) (inodes s) [r.1] /\
      (0 < i_ref (inodes s0 r.1) \/ i_nlink (dnode v n) <> 0) /\
      (parent = true -> exists e, last (elements p0) = Some e /\ fname r.2 = take (Z.to_nat DIRSIZ) e)
  | None => r.1 = 0 /\ refs_of (inodes s0) (inodes s) []
  end.

Lemma free_entry f ip : refs_of (inodes s0) f [ip] -> exists x, entry x /\ i_ref (f x) = 0.
Proof.
  intros R. destruct Hfree as (a & b & Hab & Ha & Hb & Ra & Rb).
  assert (H : forall x, entry x -> x <> ip -> i_ref (inodes s0 x) = 0 -> i_ref (f x) = 0).
  { intros x Hx Hne E. rewrite (rf_ref _ _ _ R x Hx), E. cbn. destruct (Z.eq_dec ip x); [congruence|done]. }
  destruct (decide (a = ip)) as [->|]; [exists b|exists a]; auto.
Qed.

Lemma namex_step_spec x s p inum : at_node x s p inum ->
  wp (namex_step parent x) (fun r s' => match r with
    | inl x' => (exists p' inum', at_node x' s' p' inum') /\ (length x'.1.2 < length x.1.2)%nat
    | inr r => namex_done r s'
    end) s.
Proof.
  destruct x as [[ip path] name]. intros [A1 [A2 A2'] A3 U C Hc R Hkeep Hw Hlast]. cbn [Datatypes.fst Datatypes.snd] in *.
  unfold namex_step. pose proof (skipelem_path path p name A1 A3 A2 A2') as Hsk. destruct (elements p) as [|e es] eqn:Ees.
  { rewrite Hsk. cbn [walk_path] in Hw. destruct parent eqn:Epar.
    - eapply wp_seq; [apply (iput_step s s0 ip inum (inodes s0) []); auto|].
      { destruct Hkeep as [H|H]; [left|by right]. destruct Hc as (He & _). by apply (refs_pos (inodes s0) _ ip []). }
      intros [] s1 (U1 & C1 & R1 & _). apply wp_ret. unfold namex_done. rewrite <- Hw. done.
    - apply wp_ret. unfold namex_done. rewrite <- Hw. split_and!; auto. by rewrite Epar. }
  destruct Hsk as (path' & p' & name' & -> & B1 & B2 & B3 & B4 & B5 & B6 & B7 & B8 & B9). cbn [walk_path] in Hw.
  eapply wp_seq; [by apply (ilock_step s s0 ip inum)|]. intros [] s1 [K1 K1'].
  pose proof (refs_key _ _ _ _ K1' R) as R1. destruct (lo_agrees _ _ _ _ _ K1) as (Et & _).
  apply wp_gets. rewrite Et. destruct (Z.eqb_spec (i_type (dnode v inum)) T_DIR) as [Hdir|Hdir]; cbn [negb] in *.
  2:{ eapply wp_seq; [by apply (iunlockput_step s1 s0 ip inum (inodes s0) [])|]. intros [] s2 H2. apply wp_ret. unfold namex_done. rewrite <- Hw. tauto. }
  assert (Epk : parent && (peek path' =? 0) = parent && bool_decide (es = [])).
  { f_equal. rewrite B3. apply eq_true_iff_eq. rewrite bool_decide_eq_true, Z.eqb_eq. exact B4. }
  rewrite Epk. destruct (parent && bool_decide (es = [])) eqn:Eb.
  { apply andb_prop in Eb as [Hp Hes]. apply bool_decide_eq_true in Hes. subst es.
    eapply wp_seq; [by apply (iunlock_step s1 s0 ip inum)|]. intros [] s2 (U2 & C2 & K2). apply wp_ret. unfold namex_done. rewrite <- Hw.
    split_and!; auto; [apply (caches_key _ _ _ _ _ (K2 ip)); apply K1|by apply (refs_key _ _ _ _ K2)|].
    intros _. exists e. by rewrite <- Hlast. }
  eapply wp_seq; [apply (dirlookup_step s1 s0 ip inum name' (inodes s0) [ip]); auto; by apply (free_entry _ ip)|].
  intros [next off] s2 [K2 H2]. cbn [Datatypes.fst] in H2. rewrite B6 in H2. destruct (dfind v (dnode v inum) _) as [k|] eqn:Ed.
  - destruct H2 as (Hc2 & Hl2 & R2). set (n := de_inum _) in *. pose proof Hc2 as (He2 & _). rewrite (proj2 (Z.eqb_neq next 0)) by (by apply entry_nz).
    assert (R2' : refs_of (inodes s0) (inodes s2) [ip; next]).
    { destruct R2 as [Ra Rb]. split; [|done]. intros y Hy. rewrite (Ra y Hy). cbn. destruct (Z.eq_dec next y), (Z.eq_dec ip y); lia. }
    eapply wp_seq; [by apply (iunlockput_step s2 s0 ip inum (inodes s0) [next])|]. intros [] s4 (U4 & C4 & R4 & I4). apply wp_ret. split; [|done]. exists p', n. split; auto.
    + destruct Hc2 as (_ & _ & Hd & Hn). destruct (I4 next) as [E1 E2]. cbn [Datatypes.fst]. unfold caches. rewrite E1, E2. split_and!; auto.
      rewrite (rf_ref _ _ _ R4 next He2). cbn. destruct (Z.eq_dec next next); [|done]. pose proof (ic_ref _ Hwf next He2). lia.
    + right. apply Hl2.
    + by rewrite B2.
    + intros Hp. rewrite B2, <- Hlast by done. rewrite Hp in Eb. apply bool_decide_eq_false in Eb. by destruct es.
  - destruct H2 as [-> R2]. cbn [Z.eqb]. eapply wp_seq; [by apply (iunlockput_step s2 s0 ip inum (inodes s0) [])|]. intros [] s3 H3. apply wp_ret. unfold namex_done. rewrite <- Hw. tauto.
Qed.

Lemma namex_loop x s : (exists p inum, at_node x s p inum) -> Z.of_nat (length x.1.2) < 2 ^ 64 -> wp (while_ (namex_step parent) x) namex_done s.
Proof.
  intros H0 Hlt.
  apply (wp_while _ (fun x s => exists p inum, at_node x s p inum) _ (fun x => Z.of_nat (length x.1.2))); auto; [|lia].
  intros y s1 (p & inum & H1). eapply wp_mono; [by apply (namex_step_spec y s1 p inum)|].
  intros [x'|r] s2 H2; [destruct H2; split; [done|lia]|done].
Qed.

End Namex.

(** Where the walk starts: the root, or the current directory. *)
Definition path_start (s : fst S) (p : list Z) : Z :=
  if peek p =? SLASH then ROOTINO else i_inum (inodes s (cwd s)).

(** A process can look up paths: it has a current directory, and the cache two free entries. *)
Record can_walk (s : fst S) : Prop := {
  cw_rep : rep (blk s) v;
  cw_sb : sb s = sb0;
  cw_lock : ic_lock s = false;
  cw_dev : d_dev D = ROOTDEV;
  cw_cache : cache_ok v (inodes s) 0;
  cw_free : exists a b, a <> b /\ entry a /\ entry b /\ i_ref (inodes s a) = 0 /\ i_ref (inodes s b) = 0;
  cw_cwd : caches (inodes s) (cwd s) (d_dev D) (i_inum (inodes s (cwd s)));
}.

Lemma namex_spec parent s path p name :
  can_walk s -> is_path path p -> Forall is_byte p -> Z.of_nat (length path) < 2 ^ 64 ->
  Forall is_byte name -> length name = Z.to_nat DIRSIZ ->
  wp (namex path parent name) (namex_done parent s p (walk_path parent v (path_start s p) (elements p))) s.
Proof.
  intros [Hr Es Hl Hd C Hfree Hcwd] Hp Hbp Hlen Hbn Hn. pose proof (ca_wf _ _ _ C) as Hwf.
  assert (U : fs_upto s s v) by (by split). unfold namex, path_start. rewrite (peek_path path p Hp).
  apply (wp_seq _ _ (fun ip s' => fs_upto s' s v /\ cache_ok v (inodes s') 0 /\ refs_of (inodes s) (inodes s') [ip] /\
    caches (inodes s') ip (d_dev D) (path_start s p) /\ (0 < i_ref (inodes s ip) \/ i_nlink (dnode v (path_start s p)) <> 0))).
  - unfold path_start. destruct (Z.eqb_spec (peek p) SLASH) as [E|E].
    + rewrite <- Hd. destruct Hfree as (a & _ & _ & Ha & _ & Ra & _). destruct (ft_root _ FT) as [Hlive Hnl].
      eapply wp_mono; [apply (iget_step s s ROOTINO 0 (inodes s) []); auto using refs_nil; by exists a|].
      intros ip s' (U' & C' & Hc & R & _). split_and!; auto.
    + apply wp_gets. pose proof Hcwd as (He & Hpos & Hdev & Hin).
      destruct (idup_spec s (cwd s) Hl He Hpos Hwf) as (s' & Ei & Es' & W' & Ef). apply wp_Ok. exists (cwd s), s'. split; [done|].
      set (c := cwd s) in *. set (i' := (inodes s c) <| i_ref := i_ref (inodes s c) + 1 |>) in *.
      assert (Hc' : forall x d n, caches (inodes s') x d n <-> caches (inodes s) x d n).
      { intros x d n. rewrite Ef. unfold caches, upd. destruct (Z.eqb_spec x c) as [->|]; [|done]. cbn. split; intros (? & ? & ? & ?); split_and!; auto; lia. }
      split_and!.
      * rewrite Es'. by split.
      * split; [done| |].
        -- intros x Hx Hne. rewrite Ef. unfold upd. destruct (Z.eqb_spec x c) as [->|]; by apply (ca_free _ _ _ C).
        -- intros x n Hx. apply Hc' in Hx. rewrite Ef. unfold upd. destruct (Z.eqb_spec x c) as [->|]; by apply (ca_live _ _ _ C).
      * split; intros x Hx; rewrite Ef; unfold upd; cbn; destruct (Z.eqb_spec x c) as [->|]; try done;
          [destruct (Z.eq_dec c c)|destruct (Z.eq_dec c x)]; done || congruence || (cbn; lia).
      * by apply Hc'.
      * by left.
  - intros ip s' (U' & C' & R' & Hc' & Hk'). apply namex_loop; auto. exists p, (path_start s p). split; auto.
Qed.

End Steps.
End Path.
