(* ===== verification/Spinlock.v ===== *)
(** * [kernel/spinlock.c]: locks of a machine with several CPUs

    Each CPU has its interrupt-enable bit and its nesting depth of [push_off]; a
    lock is the word that the atomic swap works on and the debugging fields.  The
    routines are cut where another CPU can get between their memory accesses, and
    [sstep] interleaves the pieces: the swap of [acquire] may fail any number of
    times, and a CPU may be anywhere in [acquire] or [release] when another one
    moves.  Elsewhere in the development a handler runs without such
    interference and a lock is the flag that [Prelude.acquire] sets; the
    theorems below are what justifies that. *)
From stdpp Require Import base list strings relations.
From Stdlib Require Import ZArith Lia.
From S2P Require Import Prelude KString.

#[local] Open Scope Z_scope.
#[local] Open Scope xv6_scope.

Definition NCPU : Z := 8.
Definition NLOCK : Z := 1000.
Definition SSTATUS_SIE : Z := Z.shiftl 1 1.

Record cpu : Type := Cpu {
  c_sstatus : Z;          (** the CPU's [sstatus] register *)
  c_noff : Z;             (** depth of [push_off] nesting *)
  c_intena : bool;        (** were interrupts enabled before [push_off]? *)
}.

#[export] Instance cpu_eta : Eta cpu := fun c => Cpu (c_sstatus c) (c_noff c) (c_intena c).

Record spinlock : Type := Spinlock {
  lk_locked : bool;
  lk_name : string;
  lk_cpu : option Z;      (** the CPU holding the lock *)
  lk_n : Z;
  lk_nts : Z;
}.

#[export] Instance spinlock_eta : Eta spinlock := fun l =>
  Spinlock (lk_locked l) (lk_name l) (lk_cpu l) (lk_n l) (lk_nts l).

Record mach : Type := Mach {
  cpus : Z -> cpu;
  lks : Z -> spinlock;    (** by address *)
  locks : list Z;         (** the locks [initlock] has seen; [nlock] is the length *)
}.

#[export] Instance mach_eta : Eta mach := fun m => Mach (cpus m) (lks m) (locks m).

Definition set_cpu (c : Z) (f : cpu -> cpu) : M mach unit :=
  modify (fun m => m <| cpus := upd (cpus m) c (f (cpus m c)) |>).
Definition set_lk (l : Z) (f : spinlock -> spinlock) : M mach unit :=
  modify (fun m => m <| lks := upd (lks m) l (f (lks m l)) |>).

(** ** Interrupts of CPU [c] *)

Definition intr_on (c : Z) : M mach unit := set_cpu c (fun x => x <| c_sstatus := Z.lor (c_sstatus x) SSTATUS_SIE |>).
Definition intr_off (c : Z) : M mach unit := set_cpu c (fun x => x <| c_sstatus := Z.ldiff (c_sstatus x) SSTATUS_SIE |>).
Definition intr (x : cpu) : bool := negb (Z.land (c_sstatus x) SSTATUS_SIE =? 0).
Definition intr_get (c : Z) : M mach bool := gets (fun m => intr (cpus m c)).

Definition push_off (c : Z) : M mach unit :=
  old ← intr_get c ;
  (if old then intr_off c else ret tt) ;;
  noff ← gets (fun m => c_noff (cpus m c)) ;
  (if noff =? 0 then set_cpu c (fun x => x <| c_intena := old |>) else ret tt) ;;
  set_cpu c (fun x => x <| c_noff := c_noff x + 1 |>).

Definition pop_off (c : Z) : M mach unit :=
  on ← intr_get c ;
  if on then panic "pop_off - interruptible" else
  noff ← gets (fun m => c_noff (cpus m c)) ;
  if noff <? 1 then panic "pop_off" else
  (set_cpu c (fun x => x <| c_noff := c_noff x - 1 |>) ;;
   x ← gets (fun m => cpus m c) ;
   if (c_noff x =? 0) && c_intena x then intr_on c else ret tt).

(** ** Locks *)

Definition initlock (l : Z) (name : string) : M mach unit :=
  set_lk l (fun _ => Spinlock false name None 0 0) ;;
  n ← gets (fun m => Z.of_nat (length (locks m))) ;
  if n >=? NLOCK then panic "initlock"
  else modify (fun m => m <| locks := locks m ++ [l] |>).

Definition is_holding (c : Z) (l : spinlock) : bool := lk_locked l && bool_decide (lk_cpu l = Some c).
Definition holding (c l : Z) : M mach bool := gets (fun m => is_holding c (lks m l)).

(** [acquire] up to its loop. *)
Definition acquire_begin (c l : Z) : M mach unit :=
  push_off c ;;
  h ← holding c l ;
  if h then panic "acquire" else set_lk l (fun x => x <| lk_n := u32 (lk_n x + 1) |>).

(** One turn of the loop, an atomic swap; true when the lock was free. *)
Definition acquire_swap (l : Z) : M mach bool :=
  old ← gets (fun m => lk_locked (lks m l)) ;
  set_lk l (fun x => x <| lk_locked := true |>) ;;
  if old then set_lk l (fun x => x <| lk_nts := u32 (lk_nts x + 1) |>) ;; ret false
  else ret true.

(** The rest of [acquire]. *)
Definition acquire_end (c l : Z) : M mach unit := set_lk l (fun x => x <| lk_cpu := Some c |>).

Definition release_begin (c l : Z) : M mach unit :=
  h ← holding c l ;
  if h then set_lk l (fun x => x <| lk_cpu := None |>) else panic "release".

Definition release_end (c l : Z) : M mach unit :=
  set_lk l (fun x => x <| lk_locked := false |>) ;;
  pop_off c.

(** ** The statistics of [sys_ntas] *)

(** [ntas(0)]: reset the counters. *)
Definition ntas_reset : M mach unit :=
  modify (fun m => m <| lks := fold_left (fun f l => upd f l ((f l) <| lk_nts := 0 |> <| lk_n := 0 |>)) (locks m) (lks m) |>).

Definition stat_lock (x : spinlock) : bool :=
  String.prefix "bcache" (lk_name x) || String.prefix "kmem" (lk_name x).

(** The total over the locks of the buffer cache and the page allocator. *)
Definition ntas_total (m : mach) : Z :=
  s32 (fold_left (fun t l => if stat_lock (lks m l) then t + lk_nts (lks m l) else t) (locks m) 0).

(** One pass of the search for contended locks: the index of the most contended
    one below [last]. *)
Definition ntas_pass (m : mach) (last : Z) : nat :=
  (fold_left (fun '(top, i) l =>
     (if (lk_nts (lks m l) >? lk_nts (lks m (default 0 (locks m !! top)))) && (lk_nts (lks m l) <? u32 last) then i else top, Datatypes.S i))
     (locks m) (0%nat, 0%nat)).1.

Fixpoint ntas_top (n : nat) (m : mach) (last : Z) : list nat :=
  match n with
  | O => []
  | S n => let top := ntas_pass m last in
           top :: ntas_top n m (s32 (lk_nts (lks m (default 0 (locks m !! top)))))
  end.

Definition sys_ntas (zero : Z) : M mach (Z * list nat) :=
  if zero =? 0 then ntas_reset ;; ret (0, [])
  else gets (fun m => (ntas_total m, ntas_top 5 m 100000000)).

(** ** Interrupt nesting *)

Lemma land_SIE x : Z.land x SSTATUS_SIE = if Z.testbit x 1 then 2 else 0.
Proof.
  apply Z.bits_inj'. intros n Hn. rewrite Z.land_spec. change SSTATUS_SIE with (2 ^ 1). rewrite Z.pow2_bits_eqb by lia.
  destruct (Z.eqb_spec 1 n) as [<-|Hne].
  - destruct (Z.testbit x 1); done.
  - rewrite andb_false_r. destruct (Z.testbit x 1); [|by rewrite Z.bits_0].
    change 2 with (2 ^ 1). rewrite Z.pow2_bits_false by lia. done.
Qed.

Lemma intr_testbit x : intr x = Z.testbit (c_sstatus x) 1.
Proof. unfold intr. rewrite land_SIE. by destruct (Z.testbit _ 1). Qed.

Lemma intr_on_bit s : Z.testbit (Z.lor s SSTATUS_SIE) 1 = true.
Proof. rewrite Z.lor_spec. apply orb_true_r. Qed.

Lemma intr_off_bit s : Z.testbit (Z.ldiff s SSTATUS_SIE) 1 = false.
Proof. rewrite Z.ldiff_spec. apply andb_false_r. Qed.

Lemma intr_restore s : Z.testbit s 1 = true -> Z.lor (Z.ldiff s SSTATUS_SIE) SSTATUS_SIE = s.
Proof.
  intros H. apply Z.bits_inj'. intros n Hn. rewrite Z.lor_spec, Z.ldiff_spec. change SSTATUS_SIE with (2 ^ 1).
  rewrite Z.pow2_bits_eqb by lia. destruct (Z.eqb_spec 1 n) as [<-|]; [by rewrite H|]. cbn. by rewrite andb_true_r, orb_false_r.
Qed.

Lemma ldiff_idem s : Z.testbit s 1 = false -> Z.ldiff s SSTATUS_SIE = s.
Proof.
  intros H. apply Z.bits_inj'. intros n Hn. rewrite Z.ldiff_spec. change SSTATUS_SIE with (2 ^ 1).
  rewrite Z.pow2_bits_eqb by lia. destruct (Z.eqb_spec 1 n) as [<-|]; [by rewrite H|]. apply andb_true_r.
Qed.

(** What [push_off] does to the CPU. *)
Definition pushed (x : cpu) : cpu :=
  Cpu (Z.ldiff (c_sstatus x) SSTATUS_SIE) (c_noff x + 1) (if c_noff x =? 0 then intr x else c_intena x).

(** What [pop_off] does to it. *)
Definition popped (x : cpu) : cpu :=
  Cpu (if (c_noff x =? 1) && c_intena x then Z.lor (c_sstatus x) SSTATUS_SIE else c_sstatus x) (c_noff x - 1) (c_intena x).

(** From [m] to [m'] only CPU [c] has changed, to [x]. *)
Definition cpu_step (m m' : mach) (c : Z) (x : cpu) : Prop :=
  cpus m' c = x /\ (forall c', c' <> c -> cpus m' c' = cpus m c') /\ lks m' = lks m /\ locks m' = locks m.

Ltac cpu_upd := cbn; repeat first [rewrite upd_same | rewrite upd_other by done]; cbn.

Lemma push_off_spec c m : exists m', push_off c m = Ok tt m' /\ cpu_step m m' c (pushed (cpus m c)).
Proof.
  unfold push_off, bind, intr_get, gets, pushed. pose proof (intr_testbit (cpus m c)) as Hb.
  destruct (intr (cpus m c)) eqn:E; cpu_upd; [|rewrite (ldiff_idem _ (eq_sym Hb))]; destruct (Z.eqb_spec (c_noff (cpus m c)) 0) as [Ez|Ez]; cpu_upd;
    (eexists; split; [done|]); (split_and!; [cpu_upd; try done; by destruct (cpus m c); cbn in *; subst|intros c' Hc'; by cpu_upd|done|done]).
Qed.

Lemma pop_off_spec c m :
  intr (cpus m c) = false -> 1 <= c_noff (cpus m c) ->
  exists m', pop_off c m = Ok tt m' /\ cpu_step m m' c (popped (cpus m c)).
Proof.
  intros Hi Hn. unfold pop_off, bind, intr_get, gets, popped. rewrite Hi. cbn.
  rewrite (proj2 (Z.ltb_ge _ _)) by lia. cpu_upd.
  replace (c_noff (cpus m c) - 1 =? 0) with (c_noff (cpus m c) =? 1) by (destruct (Z.eqb_spec (c_noff (cpus m c)) 1), (Z.eqb_spec (c_noff (cpus m c) - 1) 0); lia || done).
  destruct (c_noff (cpus m c) =? 1), (c_intena (cpus m c)) eqn:E; cpu_upd; (eexists; split; [done|]); (split_and!; [cpu_upd; try done; unfold field_update; cbn; congruence|intros c' Hc'; by cpu_upd|done|done]).
Qed.

Lemma popped_pushed x : 0 <= c_noff x -> c_noff x = 0 \/ intr x = false ->
  popped (pushed x) = x <| c_intena := if c_noff x =? 0 then intr x else c_intena x |>.
Proof.
  destruct x as [st n e]. intros Hn H. unfold popped, pushed, field_update. rewrite intr_testbit in *.
  cbn [c_sstatus c_noff c_intena] in *. destruct (Z.eqb_spec n 0) as [->|E].
  - change (0 + 1 =? 1) with true. cbn [andb]. destruct (Z.testbit st 1) eqn:Eb.
    + by rewrite intr_restore.
    + by rewrite ldiff_idem.
  - destruct H as [|H]; [done|]. rewrite (proj2 (Z.eqb_neq (n + 1) 1)) by lia. cbn [andb].
    rewrite ldiff_idem by done. f_equal. lia.
Qed.

(** [n] nested [push_off]s. *)
Fixpoint push_n (n : nat) (c : Z) : M mach unit := match n with O => ret tt | S n => push_off c ;; push_n n c end.
Fixpoint pop_n (n : nat) (c : Z) : M mach unit := match n with O => ret tt | S n => pop_off c ;; pop_n n c end.

(** ** The interleaving of the CPUs *)

(** Where a CPU is: outside, in the loop of [acquire], behind its swap, or in
    [release] before the lock is free. *)
Inductive where_ : Type := Run | Spin (l : Z) | Got (l : Z) | Rel (l : Z).

(** [hd c] are the locks that CPU [c] has acquired and not begun to release. *)
Record conf : Type := Conf { mc : mach; pc : Z -> where_; hd : Z -> list Z }.

Inductive sstep : conf -> conf -> Prop :=
| SBegin c l m pc hd m' : pc c = Run -> acquire_begin c l m = Ok tt m' ->
    sstep (Conf m pc hd) (Conf m' (upd pc c (Spin l)) hd)
| SFail c l m pc hd m' : pc c = Spin l -> acquire_swap l m = Ok false m' ->
    sstep (Conf m pc hd) (Conf m' pc hd)
| SSwap c l m pc hd m' : pc c = Spin l -> acquire_swap l m = Ok true m' ->
    sstep (Conf m pc hd) (Conf m' (upd pc c (Got l)) hd)
| SOwn c l m pc hd m' : pc c = Got l -> acquire_end c l m = Ok tt m' ->
    sstep (Conf m pc hd) (Conf m' (upd pc c Run) (upd hd c (l :: hd c)))
| SRel c l m pc hd m' : pc c = Run -> release_begin c l m = Ok tt m' ->
    sstep (Conf m pc hd) (Conf m' (upd pc c (Rel l)) (upd hd c (remove Z.eq_dec l (hd c))))
| SFree c l m pc hd m' : pc c = Rel l -> release_end c l m = Ok tt m' ->
    sstep (Conf m pc hd) (Conf m' (upd pc c Run) hd)
| SOn c m pc hd m' : pc c = Run -> c_noff (cpus m c) = 0 -> intr_on c m = Ok tt m' ->
    sstep (Conf m pc hd) (Conf m' pc hd)
| SOff c m pc hd m' : pc c = Run -> intr_off c m = Ok tt m' ->
    sstep (Conf m pc hd) (Conf m' pc hd).

(** CPU [c] has the lock, also while it is on its way in or out. *)
Definition owner (s : conf) (c l : Z) : Prop := l ∈ hd s c \/ pc s c = Got l \/ pc s c = Rel l.

Definition busy (w : where_) : Z := match w with Run => 0 | _ => 1 end.

Record sinv (s : conf) : Prop := {
  si_locked : forall l, lk_locked (lks (mc s) l) = true <-> exists c, owner s c l;
  si_excl : forall l c c', owner s c l -> owner s c' l -> c = c';
  si_cpu : forall l c, lk_cpu (lks (mc s) l) = Some c <-> l ∈ hd s c;
  si_once : forall c, NoDup (hd s c) /\ forall l, l ∈ hd s c -> pc s c <> Got l /\ pc s c <> Rel l /\ pc s c <> Spin l;
  si_noff : forall c, c_noff (cpus (mc s) c) = Z.of_nat (length (hd s c)) + busy (pc s c);
  si_intr : forall c, 0 < c_noff (cpus (mc s) c) -> intr (cpus (mc s) c) = false;
}.

(** ** The pieces of [acquire] and [release], by what they change *)

(** Only lock [l] has changed, to [x]. *)
Definition lk_step (m m' : mach) (l : Z) (x : spinlock) : Prop :=
  lks m' l = x /\ (forall l', l' <> l -> lks m' l' = lks m l') /\ cpus m' = cpus m.

Lemma acquire_begin_inv c l m m' :
  acquire_begin c l m = Ok tt m' ->
  is_holding c (lks m l) = false /\
  cpus m' c = pushed (cpus m c) /\ (forall c', c' <> c -> cpus m' c' = cpus m c') /\
  (forall l', lk_locked (lks m' l') = lk_locked (lks m l') /\ lk_cpu (lks m' l') = lk_cpu (lks m l')).
Proof.
  unfold acquire_begin, bind. destruct (push_off_spec c m) as (m1 & -> & H1 & H2 & H3 & H4).
  unfold holding, gets. rewrite H3. destruct (is_holding c (lks m l)); [done|]. intros [= <-]. cbn. split_and!; auto.
  intros l'. rewrite H3. unfold upd. destruct (Z.eqb_spec l' l) as [->|]; done.
Qed.

Lemma acquire_begin_run c l m :
  is_holding c (lks m l) = false -> exists m', acquire_begin c l m = Ok tt m'.
Proof.
  intros Hh. unfold acquire_begin, bind. destruct (push_off_spec c m) as (m1 & -> & _ & _ & H3 & _).
  unfold holding, gets. rewrite H3, Hh. by eexists.
Qed.

Lemma acquire_swap_inv l m b m' :
  acquire_swap l m = Ok b m' -> b = negb (lk_locked (lks m l)) /\ cpus m' = cpus m /\
  lk_locked (lks m' l) = true /\ (forall l', l' <> l -> lks m' l' = lks m l') /\ (forall l', lk_cpu (lks m' l') = lk_cpu (lks m l')).
Proof.
  unfold acquire_swap, bind, gets, set_lk, modify, ret. destruct (lk_locked (lks m l)); intros [= <- <-]; cbn; split_and!; auto.
  - cpu_upd. done.
  - intros l' Hl. by cpu_upd.
  - intros l'. unfold upd. rewrite Z.eqb_refl. destruct (Z.eqb_spec l' l) as [->|]; done.
  - cpu_upd. done.
  - intros l' Hl. by cpu_upd.
  - intros l'. unfold upd. destruct (Z.eqb_spec l' l) as [->|]; done.
Qed.

Lemma release_end_inv c l m m' :
  release_end c l m = Ok tt m' -> intr (cpus m c) = false -> 1 <= c_noff (cpus m c) ->
  cpus m' c = popped (cpus m c) /\ (forall c', c' <> c -> cpus m' c' = cpus m c') /\
  lks m' l = (lks m l) <| lk_locked := false |> /\ (forall l', l' <> l -> lks m' l' = lks m l').
Proof.
  unfold release_end, bind, set_lk, modify. set (m1 := m <| lks := _ |>). intros E Hi Hn.
  destruct (pop_off_spec c m1) as (m2 & E2 & H1 & H2 & H3 & H4); [done|done|]. rewrite E2 in E. injection E as <-.
  rewrite H3. split_and!; auto; cbn; [by rewrite upd_same|]. intros l' Hl. by rewrite upd_other.
Qed.

Lemma release_end_run c l m :
  intr (cpus m c) = false -> 1 <= c_noff (cpus m c) -> exists m', release_end c l m = Ok tt m'.
Proof.
  intros Hi Hn. unfold release_end, bind, set_lk, modify. set (m1 := m <| lks := _ |>).
  destruct (pop_off_spec c m1) as (m2 & E2 & _); [done|done|]. rewrite E2. by eexists.
Qed.

Lemma pushed_off x : intr (pushed x) = false.
Proof. rewrite intr_testbit. apply intr_off_bit. Qed.

(** ** The invariant *)

Section Preserve.

Context (m : mach) (pc0 : Z -> where_) (hd0 : Z -> list Z).
Hypothesis I : sinv (Conf m pc0 hd0).

Ltac sinv_cases := destruct I as [I1 I2 I3 I4 I5 I6]; cbn [mc pc hd] in *.

(** Steps that move [c] between places that do not own a lock. *)
Lemma sinv_begin c l m' :
  pc0 c = Run -> acquire_begin c l m = Ok tt m' -> sinv (Conf m' (upd pc0 c (Spin l)) hd0).
Proof.
  intros Hpc H. apply acquire_begin_inv in H as (Hh & Hc & Hc' & Hl). sinv_cases.
  assert (Ho : forall c' l', owner (Conf m' (upd pc0 c (Spin l)) hd0) c' l' <-> owner (Conf m pc0 hd0) c' l').
  { intros c' l'. unfold owner. cbn [pc hd]. destruct (decide (c' = c)) as [->|]; [rewrite upd_same, Hpc; naive_solver|by rewrite upd_other]. }
  split; cbn [mc pc hd].
  - intros l'. destruct (Hl l') as [-> _]. rewrite I1. by setoid_rewrite Ho.
  - intros l' c1 c2. rewrite !Ho. apply I2.
  - intros l' c'. destruct (Hl l') as [_ ->]. apply I3.
  - intros c'. destruct (I4 c') as [N N']. split; [done|]. intros l' Hin. destruct (decide (c' = c)) as [->|]; [|rewrite upd_other; auto].
    rewrite upd_same. split_and!; [done|done|]. intros [= <-].
    assert (E : is_holding c (lks m l) = true); [|congruence]. unfold is_holding. rewrite bool_decide_true by (by apply I3).
    rewrite andb_true_r. apply I1. exists c. by left.
  - intros c'. destruct (decide (c' = c)) as [->|]; [rewrite upd_same, Hc; cbn; rewrite I5, Hpc; cbn; lia|rewrite upd_other, Hc' by done; apply I5].
  - intros c'. destruct (decide (c' = c)) as [->|]; [rewrite Hc; intros _; apply pushed_off|rewrite Hc' by done; apply I6].
Qed.

Lemma sinv_fail c l m' : pc0 c = Spin l -> acquire_swap l m = Ok false m' -> sinv (Conf m' pc0 hd0).
Proof.
  intros Hpc H. apply acquire_swap_inv in H as (Hb & Hc & Hlk & Hl & Hcpu). sinv_cases.
  assert (El : lk_locked (lks m l) = true) by (by destruct (lk_locked (lks m l))).
  split; cbn [mc pc hd]; rewrite ?Hc; auto.
  - intros l'. destruct (decide (l' = l)) as [->|]; [rewrite Hlk; split; [intros _; by apply I1|done]|rewrite Hl by done; apply I1].
  - intros l' c'. rewrite Hcpu. apply I3.
Qed.

Lemma sinv_swap c l m' : pc0 c = Spin l -> acquire_swap l m = Ok true m' -> sinv (Conf m' (upd pc0 c (Got l)) hd0).
Proof.
  intros Hpc H. apply acquire_swap_inv in H as (Hb & Hc & Hlk & Hl & Hcpu). sinv_cases.
  assert (El : lk_locked (lks m l) = false) by (by destruct (lk_locked (lks m l))).
  assert (Hno : forall c', ~ owner (Conf m pc0 hd0) c' l).
  { intros c' Hc1. assert (lk_locked (lks m l) = true) by (apply I1; eauto). congruence. }
  assert (Ho : forall c' l', owner (Conf m' (upd pc0 c (Got l)) hd0) c' l' <-> owner (Conf m pc0 hd0) c' l' \/ (c' = c /\ l' = l)).
  { intros c' l'. unfold owner. cbn [pc hd]. destruct (decide (c' = c)) as [->|]; [rewrite upd_same, Hpc; naive_solver|rewrite upd_other by done; naive_solver]. }
  split; cbn [mc pc hd]; rewrite ?Hc; auto.
  - intros l'. destruct (decide (l' = l)) as [->|].
    + rewrite Hlk. split; [|done]. intros _. exists c. apply Ho. by right.
    + rewrite Hl, I1 by done. split; intros [c' Hc']; exists c'; [apply Ho; by left|]. apply Ho in Hc' as [|[_ ?]]; done.
  - intros l' c1 c2 H1 H2. apply Ho in H1, H2. destruct H1 as [H1|[-> ->]], H2 as [H2|[-> E]]; subst; auto;
      [by eapply I2|by apply Hno in H1|by apply Hno in H2].
  - intros l' c'. rewrite Hcpu. apply I3.
  - intros c'. destruct (I4 c') as [N N']. split; [done|]. intros l' Hin. destruct (decide (c' = c)) as [->|]; [|rewrite upd_other; auto].
    rewrite upd_same. split_and!; [|done|done]. intros [= <-]. apply (Hno c). by left.
  - intros c'. rewrite I5. destruct (decide (c' = c)) as [->|]; [by rewrite upd_same, Hpc|by rewrite upd_other].
Qed.

Lemma sinv_own c l m' : pc0 c = Got l -> acquire_end c l m = Ok tt m' -> sinv (Conf m' (upd pc0 c Run) (upd hd0 c (l :: hd0 c))).
Proof.
  intros Hpc H. injection H as <-. sinv_cases.
  assert (Ho : forall c' l', owner (Conf m (upd pc0 c Run) (upd hd0 c (l :: hd0 c))) c' l' <-> owner (Conf m pc0 hd0) c' l').
  { intros c' l'. unfold owner. cbn [pc hd]. destruct (decide (c' = c)) as [->|]; [rewrite !upd_same, Hpc, elem_of_cons; naive_solver|by rewrite !upd_other]. }
  split; cbn [mc pc hd cpus lks field_update].
  - intros l'. transitivity (lk_locked (lks m l') = true); [cbn; unfold upd; destruct (Z.eqb_spec l' l) as [->|]; done|].
    rewrite I1. symmetry. by setoid_rewrite Ho.
  - intros l' c1 c2 H1 H2. eapply I2; by apply Ho.
  - intros l' c'. cbn. destruct (decide (l' = l)) as [->|].
    + rewrite upd_same. cbn. destruct (decide (c' = c)) as [->|].
      * rewrite upd_same. split; [left|done].
      * rewrite upd_other by done. split; [intros [= ->]; done|]. intros Hin. exfalso. apply n, (I2 l c' c); [by left|right; by left].
    + rewrite upd_other, I3 by done. destruct (decide (c' = c)) as [->|]; [rewrite upd_same, elem_of_cons; naive_solver|by rewrite upd_other].
  - intros c'. destruct (I4 c') as [N N']. destruct (decide (c' = c)) as [->|]; [rewrite !upd_same|rewrite !upd_other; auto].
    split; [|done]. constructor; [|done]. intros Hin. by destruct (N' l Hin) as (? & _).
  - intros c'. cbn. rewrite I5. destruct (decide (c' = c)) as [->|]; [rewrite !upd_same, Hpc; cbn; lia|by rewrite !upd_other].
  - done.
Qed.

Lemma sinv_rel c l m' : pc0 c = Run -> release_begin c l m = Ok tt m' ->
  l ∈ hd0 c /\ sinv (Conf m' (upd pc0 c (Rel l)) (upd hd0 c (remove Z.eq_dec l (hd0 c)))).
Proof.
  intros Hpc H. unfold release_begin, bind, holding, gets in H. destruct (is_holding c (lks m l)) eqn:Eh; [|done]. injection H as <-.
  apply andb_prop in Eh as [El Ec]. apply bool_decide_eq_true in Ec. sinv_cases.
  assert (Hin : l ∈ hd0 c) by (by apply I3). split; [done|]. destruct (I4 c) as [Nc _].
  assert (Hrm : forall l', l' ∈ remove Z.eq_dec l (hd0 c) <-> l' ∈ hd0 c /\ l' <> l).
  { intros l'. rewrite !list_elem_of_In. split; [apply in_remove|]. intros [? ?]. by apply in_in_remove. }
  assert (Hlen : length (hd0 c) = Datatypes.S (length (remove Z.eq_dec l (hd0 c)))).
  { clear -Nc Hin. induction (hd0 c) as [|x t IH]; [by apply elem_of_nil in Hin|]. apply NoDup_cons in Nc as [Hx Nt]. cbn.
    destruct (Z.eq_dec l x) as [->|Hne]; [rewrite notin_remove; [done|by rewrite <- list_elem_of_In]|].
    cbn. f_equal. apply IH; [|done]. by apply elem_of_cons in Hin as [|]. }
  assert (Ho : forall c' l', owner (Conf m (upd pc0 c (Rel l)) (upd hd0 c (remove Z.eq_dec l (hd0 c)))) c' l' <-> owner (Conf m pc0 hd0) c' l').
  { intros c' l'. unfold owner. cbn [pc hd]. destruct (decide (c' = c)) as [->|]; [|by rewrite !upd_other]. rewrite !upd_same, Hpc, Hrm.
    destruct (decide (l' = l)) as [->|]; naive_solver. }
  split; cbn [mc pc hd].
  - intros l'. transitivity (lk_locked (lks m l') = true); [cbn; unfold upd; destruct (Z.eqb_spec l' l) as [->|]; done|].
    rewrite I1. symmetry. by setoid_rewrite Ho.
  - intros l' c1 c2 H1 H2. eapply I2; by apply Ho.
  - intros l' c'. cbn. destruct (decide (l' = l)) as [->|].
    + rewrite upd_same. cbn. split; [done|]. destruct (decide (c' = c)) as [->|]; [rewrite upd_same, Hrm; naive_solver|].
      rewrite upd_other by done. intros Hc'. exfalso. apply n. eapply I2; left; eauto.
    + rewrite upd_other, I3 by done. destruct (decide (c' = c)) as [->|]; [rewrite upd_same, Hrm; naive_solver|by rewrite upd_other].
  - intros c'. destruct (I4 c') as [N N']. destruct (decide (c' = c)) as [->|]; [rewrite !upd_same|rewrite !upd_other; auto].
    split; [|intros l' Hl'; apply Hrm in Hl' as [_ ?]; split_and!; [done|congruence|done]].
    clear -N. induction (hd0 c) as [|x t IH]; cbn; [constructor|]. apply NoDup_cons in N as [Hx Nt].
    destruct (Z.eq_dec l x); [auto|]. constructor; [|auto]. rewrite list_elem_of_In in *. intros Hi. by apply in_remove in Hi as [? _].
  - intros c'. cbn. rewrite I5. destruct (decide (c' = c)) as [->|]; [rewrite !upd_same, Hpc, Hlen; cbn; lia|by rewrite !upd_other].
  - done.
Qed.

Lemma sinv_free c l m' : pc0 c = Rel l -> release_end c l m = Ok tt m' -> sinv (Conf m' (upd pc0 c Run) hd0).
Proof.
  intros Hpc H. sinv_cases. assert (Hn : 1 <= c_noff (cpus m c)) by (rewrite I5, Hpc; cbn; lia).
  apply release_end_inv in H as (Hc & Hc' & Hl & Hl'); [|apply I6; lia|done].
  assert (Hno : forall c' , owner (Conf m' (upd pc0 c Run) hd0) c' l -> False).
  { intros c'. unfold owner. cbn [pc hd]. assert (Hoc : owner (Conf m pc0 hd0) c l) by (right; by right).
    destruct (decide (c' = c)) as [->|Hne]; [rewrite upd_same|rewrite upd_other by done].
    - intros [Hi|[?|?]]; [|done|done]. by destruct (I4 c) as [_ N]; destruct (N l Hi) as (_ & ? & _).
    - intros Hi. apply Hne. by apply (I2 l c' c). }
  assert (Ho : forall c' l', l' <> l -> owner (Conf m' (upd pc0 c Run) hd0) c' l' <-> owner (Conf m pc0 hd0) c' l').
  { intros c' l' Hne. unfold owner. cbn [pc hd]. destruct (decide (c' = c)) as [->|]; [rewrite upd_same, Hpc; naive_solver|by rewrite upd_other]. }
  split; cbn [mc pc hd].
  - intros l'. destruct (decide (l' = l)) as [->|].
    + rewrite Hl. cbn. split; [done|]. intros [c1 H1]. by apply Hno in H1.
    + rewrite Hl', I1 by done. split; intros [c1 H1]; exists c1; by apply Ho.
  - intros l' c1 c2 H1 H2. destruct (decide (l' = l)) as [->|]; [by apply Hno in H1|]. apply Ho in H1, H2; [|done..]. by eapply I2.
  - intros l' c'. destruct (decide (l' = l)) as [->|]; [rewrite Hl|rewrite Hl' by done]; apply I3.
  - intros c'. destruct (I4 c') as [N N']. split; [done|]. intros l' Hi. destruct (decide (c' = c)) as [->|]; [by rewrite upd_same|rewrite upd_other; auto].
  - intros c'. destruct (decide (c' = c)) as [->|]; [rewrite upd_same, Hc; cbn; rewrite I5, Hpc; cbn; lia|rewrite upd_other, Hc' by done; apply I5].
  - intros c'. destruct (decide (c' = c)) as [->|]; [|rewrite Hc' by done; apply I6].
    rewrite Hc. cbn. intros Hp. rewrite intr_testbit. cbn [c_sstatus popped]. rewrite (proj2 (Z.eqb_neq _ _)) by lia. cbn [andb].
    rewrite <- intr_testbit. apply I6. lia.
Qed.

End Preserve.

Lemma sinv_step s s' : sstep s s' -> sinv s -> sinv s'.
Proof.
  intros H I. destruct H; eauto using sinv_begin, sinv_fail, sinv_swap, sinv_own, sinv_free.
  - by eapply sinv_rel.
  - injection H1 as <-. destruct I as [I1 I2 I3 I4 I5 I6]. cbn [mc pc hd] in *. split; cbn; auto.
    + intros c'. rewrite <- I5. unfold upd. by destruct (Z.eqb_spec c' c) as [->|].
    + intros c'. unfold upd. destruct (Z.eqb_spec c' c) as [->|]; [cbn; lia|apply I6].
  - injection H0 as <-. destruct I as [I1 I2 I3 I4 I5 I6]. cbn [mc pc hd] in *. split; cbn; auto.
    + intros c'. rewrite <- I5. unfold upd. by destruct (Z.eqb_spec c' c) as [->|].
    + intros c'. unfold upd. destruct (Z.eqb_spec c' c) as [->|]; [|apply I6]. intros _. rewrite intr_testbit. apply intr_off_bit.
Qed.

Lemma sinv_reach s s' : rtc sstep s s' -> sinv s -> sinv s'.
Proof. induction 1; eauto using sinv_step. Qed.

(** ** Properties *)

(** At boot no lock is taken. *)
Definition started (s : conf) : Prop :=
  (forall c, pc s c = Run /\ hd s c = [] /\ c_noff (cpus (mc s) c) = 0) /\
  (forall l, lk_locked (lks (mc s) l) = false /\ lk_cpu (lks (mc s) l) = None).

Lemma started_inv s : started s -> sinv s.
Proof.
  intros [Hc Hl]. assert (Hno : forall c l, ~ owner s c l).
  { intros c l. unfold owner. destruct (Hc c) as (-> & -> & _). intros [H|[?|?]]; [by apply elem_of_nil in H|done|done]. }
  split.
  - intros l. destruct (Hl l) as [-> _]. split; [done|]. intros [c H]. by apply Hno in H.
  - intros l c c' H. by apply Hno in H.
  - intros l c. destruct (Hl l) as [_ ->]. destruct (Hc c) as (_ & -> & _). rewrite elem_of_nil. done.
  - intros c. destruct (Hc c) as (_ & -> & _). split; [constructor|]. intros l H. by apply elem_of_nil in H.
  - intros c. destruct (Hc c) as (-> & -> & ->). done.
  - intros c. destruct (Hc c) as (_ & _ & ->). lia.
Qed.

(** C20: mutual exclusion.  In every interleaving of the CPUs at most one CPU has a
    lock, [holding] answers true on exactly that CPU, interrupts are off on a CPU
    that has a lock or is about to get one, and [release] of a lock that the CPU
    has never panics. *)
Theorem spinlock_mutex (s0 s : conf) :
  started s0 -> rtc sstep s0 s ->
  (forall l c c', l ∈ hd s c -> l ∈ hd s c' -> c = c') /\
  (forall c l, holding c l (mc s) = Ok (bool_decide (l ∈ hd s c)) (mc s)) /\
  (forall c, hd s c <> [] \/ pc s c <> Run -> intr (cpus (mc s) c) = false) /\
  (forall c l, pc s c = Run -> l ∈ hd s c -> exists m', release_begin c l (mc s) = Ok tt m') /\
  (forall c l, pc s c = Rel l -> exists m', release_end c l (mc s) = Ok tt m').
Proof.
  intros H0 Hr. pose proof (sinv_reach _ _ Hr (started_inv _ H0)) as [I1 I2 I3 I4 I5 I6].
  assert (Hh : forall c l, is_holding c (lks (mc s) l) = bool_decide (l ∈ hd s c)).
  { intros c l. unfold is_holding. destruct (decide (l ∈ hd s c)) as [Hi|Hi].
    - rewrite bool_decide_true by (by apply I3). rewrite bool_decide_true by done. rewrite andb_true_r. apply I1. exists c. by left.
    - rewrite (bool_decide_false (lk_cpu _ = _)) by (by rewrite I3). rewrite bool_decide_false by done. apply andb_false_r. }
  split_and!.
  - intros l c c' H1 H2. by apply (I2 l); left.
  - intros c l. unfold holding, gets. by rewrite Hh.
  - intros c Hc. apply I6. rewrite I5. destruct Hc as [Hc|Hc]; [destruct (hd s c); [done|cbn; destruct (pc s c); cbn; lia]|].
    destruct (pc s c); cbn; lia || done.
  - intros c l _ Hi. unfold release_begin, bind, holding, gets. rewrite Hh, bool_decide_true by done. by eexists.
  - intros c l Hp. apply release_end_run; [apply I6|]; rewrite I5, Hp; cbn; lia.
Qed.

(** The owner of [l] gives it up, in at most three steps of its own. *)
Lemma handover_free s l c :
  sinv s -> owner s c l -> (forall l', pc s c <> Spin l') ->
  exists s', rtc sstep s s' /\ sinv s' /\ lk_locked (lks (mc s') l) = false /\ forall c', c' <> c -> pc s' c' = pc s c'.
Proof.
  (** from a CPU in [release], and from one that is outside *)
  assert (Hrel : forall s, sinv s -> pc s c = Rel l ->
    exists s', sstep s s' /\ sinv s' /\ lk_locked (lks (mc s') l) = false /\ forall c', c' <> c -> pc s' c' = pc s c').
  { intros [m p h] I Hp. cbn in Hp. pose proof I as [I1 I2 I3 I4 I5 I6]. cbn [mc pc hd] in *.
    assert (Hn : 1 <= c_noff (cpus m c)) by (rewrite I5, Hp; cbn; lia). assert (Hi : intr (cpus m c) = false) by (apply I6; lia).
    destruct (release_end_run c l m) as [m' E]; [done|done|]. eexists. split; [by apply (SFree c l)|].
    split; [by eapply sinv_free|]. cbn. apply release_end_inv in E as (_ & _ & -> & _); [|done|done].
    split; [done|]. intros c' Hc. by apply upd_other. }
  assert (Hrun : forall s, sinv s -> pc s c = Run -> l ∈ hd s c ->
    exists s', rtc sstep s s' /\ sinv s' /\ lk_locked (lks (mc s') l) = false /\ forall c', c' <> c -> pc s' c' = pc s c').
  { intros [m p h] I Hp Hi. cbn [pc hd] in *. pose proof I as [I1 I2 I3 I4 I5 I6]. cbn [mc pc hd] in *.
    assert (Eh : is_holding c (lks m l) = true).
    { unfold is_holding. rewrite bool_decide_true by (by apply I3). rewrite andb_true_r. apply I1. exists c. by left. }
    assert (Er : exists m', release_begin c l m = Ok tt m') by (unfold release_begin, bind, holding, gets; rewrite Eh; by eexists).
    destruct Er as [m' Er]. destruct (sinv_rel _ _ _ I _ _ _ Hp Er) as [_ I'].
    destruct (Hrel _ I') as (s' & St & Is & Hl & Hc); [cbn; by rewrite upd_same|].
    exists s'. split_and!; auto.
    - eapply rtc_l; [by eapply (SRel c l)|]. by apply rtc_once.
    - intros c' Hne. rewrite Hc by done. cbn. by apply upd_other. }
  intros I Ho Hns. destruct s as [m p h]. cbn [pc hd] in *. destruct (p c) as [|l'|l'|l'] eqn:Hp.
  - destruct Ho as [Hi|[?|?]]; [|cbn in *; congruence..]. by apply Hrun.
  - by destruct (Hns l').
  - assert (Ea : exists m', acquire_end c l' m = Ok tt m') by (by eexists). destruct Ea as [m' Ea].
    pose proof (sinv_own _ _ _ I _ _ _ Hp Ea) as I'.
    destruct (Hrun _ I') as (s' & R & Is & Hl & Hc).
    + cbn. by rewrite upd_same.
    + cbn. rewrite upd_same. destruct Ho as [Hi|[Hi|Hi]]; cbn in *; [by right|rewrite Hp in Hi; injection Hi as ->; by left|congruence].
    + exists s'. split_and!; auto; [eapply rtc_l; [by eapply (SOwn c l')|done]|]. intros c' Hne. rewrite Hc by done. cbn. by apply upd_other.
  - destruct (decide (l' = l)) as [->|Hne].
    + destruct (Hrel _ I) as (s' & St & Is & Hl & Hc); [done|]. exists s'. split_and!; auto. by apply rtc_once.
    + destruct Ho as [Hi|[Hi|Hi]]; cbn in *; [|congruence|congruence].
      pose proof I as [I1 I2 I3 I4 I5 I6]. cbn [mc pc hd] in *.
      destruct (release_end_run c l' m) as [m' E]; [apply I6; rewrite I5, Hp; cbn; lia|rewrite I5, Hp; cbn; lia|].
      pose proof (sinv_free _ _ _ I _ _ _ Hp E) as I'.
      destruct (Hrun _ I') as (s' & R & Is & Hl & Hc); [cbn; by rewrite upd_same|done|].
      exists s'. split_and!; auto; [eapply rtc_l; [by eapply (SFree c l')|done]|]. intros c' Hn. rewrite Hc by done. cbn. by apply upd_other.
Qed.

(** A lock is handed over.  From every reachable state in which CPU [c] spins
    on a lock and no other CPU spins, the other CPUs and the swap of [c] lead to
    a state in which [c] has the lock: the owner can always finish its
    [release], and the first swap after that succeeds. *)
Theorem spinlock_handover (s0 s : conf) (c l : Z) :
  started s0 -> rtc sstep s0 s -> pc s c = Spin l -> (forall c' l', c' <> c -> pc s c' <> Spin l') ->
  exists s', rtc sstep s s' /\ l ∈ hd s' c.
Proof.
  intros H0 Hr Hp Hns. pose proof (sinv_reach _ _ Hr (started_inv _ H0)) as I.
  assert (Hf : exists s1, rtc sstep s s1 /\ lk_locked (lks (mc s1) l) = false /\ pc s1 c = Spin l).
  { destruct (lk_locked (lks (mc s) l)) eqn:El; [|by exists s]. apply (si_locked _ I) in El as [c' Ho].
    assert (Hne : c' <> c).
    { intros ->. destruct Ho as [Hi|[?|?]]; [|congruence|congruence]. destruct (si_once _ I c) as [_ N]. by apply N in Hi as (_ & _ & ?). }
    destruct (handover_free s l c' I Ho) as (s1 & R & _ & Hl & Hc); [intros l'; by apply Hns|]. exists s1. split_and!; auto. by rewrite Hc. }
  destruct Hf as ([m p h] & R & El & Hp1). cbn in El, Hp1.
  assert (Es : exists m', acquire_swap l m = Ok true m') by (unfold acquire_swap, bind, gets, set_lk, modify; rewrite El; by eexists).
  destruct Es as [m' Es]. eexists. split.
  - etrans; [exact R|]. eapply rtc_l; [by eapply (SSwap c l)|]. eapply rtc_l; [|apply rtc_refl].
    eapply (SOwn c l); [by rewrite upd_same|reflexivity].
  - cbn. rewrite upd_same. left.
Qed.

Lemma pushed_noff n x : c_noff (Nat.iter n pushed x) = c_noff x + Z.of_nat n.
Proof. induction n as [|n IH]; [cbn; lia|]. rewrite Nat.iter_succ. unfold pushed at 1. cbn [c_noff]. rewrite IH. lia. Qed.

Lemma push_n_spec n c m : exists m1, push_n n c m = Ok tt m1 /\ cpus m1 c = Nat.iter n pushed (cpus m c) /\
  (forall c', c' <> c -> cpus m1 c' = cpus m c') /\ lks m1 = lks m.
Proof.
  revert m. induction n as [|n IH]; intros m; [by exists m|]. cbn [push_n]. unfold bind.
  destruct (push_off_spec c m) as (m1 & -> & H1 & H2 & H3 & _). destruct (IH m1) as (m2 & -> & G1 & G2 & G3).
  exists m2. split_and!; auto; [rewrite G1, H1; apply (Nat.iter_swap n _ pushed)| |congruence]. intros c' Hc. by rewrite G2, H2.
Qed.

Lemma pop_n_spec n c m x :
  0 <= c_noff x -> c_noff x = 0 \/ intr x = false -> cpus m c = Nat.iter n pushed x ->
  exists m2, pop_n n c m = Ok tt m2 /\ lks m2 = lks m /\ c_sstatus (cpus m2 c) = c_sstatus x /\ c_noff (cpus m2 c) = c_noff x /\
    (forall c', c' <> c -> cpus m2 c' = cpus m c').
Proof.
  intros Hn Hi. revert m. induction n as [|n IH]; intros m Hm; [exists m; split_and!; auto; by rewrite Hm|].
  cbn [pop_n]. rewrite Nat.iter_succ in Hm. unfold bind. set (y := Nat.iter n pushed x) in *.
  assert (Hy : c_noff y = c_noff x + Z.of_nat n) by apply pushed_noff.
  assert (Hyi : c_noff y = 0 \/ intr y = false) by (unfold y; destruct n; [done|right; apply pushed_off]).
  destruct (pop_off_spec c m) as (m1 & -> & H1 & H2 & H3 & _); [rewrite Hm; apply pushed_off|rewrite Hm; change (c_noff (pushed y)) with (c_noff y + 1); lia|].
  rewrite Hm, popped_pushed in H1 by (done || lia). destruct n as [|n].
  - cbn [pop_n ret]. exists m1. rewrite H1. split_and!; auto.
  - rewrite (proj2 (Z.eqb_neq (c_noff y) 0)) in H1 by lia.
    destruct (IH m1) as (m2 & -> & G1 & G2 & G3 & G4); [rewrite H1; unfold field_update; by destruct y|].
    exists m2. split_and!; auto; [congruence|]. intros c' Hc. by rewrite G4, H2.
Qed.

(** [push_off] and [pop_off] nest: after [n] of the first and [n] of the second
    the CPU has the interrupt state and depth it had, and in between, when [n] is
    not 0, interrupts are off. *)
Theorem push_pop_nest (m : mach) (c : Z) (n : nat) :
  0 <= c_noff (cpus m c) -> c_noff (cpus m c) = 0 \/ intr (cpus m c) = false ->
  exists m1 m2, push_n n c m = Ok tt m1 /\ pop_n n c m1 = Ok tt m2 /\ lks m2 = lks m /\
    (n <> 0%nat -> intr (cpus m1 c) = false) /\ c_noff (cpus m1 c) = c_noff (cpus m c) + Z.of_nat n /\
    c_sstatus (cpus m2 c) = c_sstatus (cpus m c) /\ c_noff (cpus m2 c) = c_noff (cpus m c) /\
    (forall c', c' <> c -> cpus m2 c' = cpus m c').
Proof.
  intros Hn Hi. destruct (push_n_spec n c m) as (m1 & E1 & H1 & H2 & H3).
  destruct (pop_n_spec n c m1 (cpus m c) Hn Hi H1) as (m2 & E2 & G1 & G2 & G3 & G4).
  exists m1, m2. split_and!; auto; [congruence| | |].
  - intros Hne. rewrite H1. destruct n; [done|]. apply pushed_off.
  - rewrite H1. apply pushed_noff.
  - intros c' Hc. by rewrite G4, H2.
Qed.

Definition demo_conf : conf :=
  Conf (Mach (fun _ => Cpu 2 0 false) (fun _ => Spinlock false "" None 0 0) []) (fun _ => Run) (fun _ => []).

(** CPU 0 takes lock 7, CPU 1 waits for it. *)
Lemma demo_started : started demo_conf.
Proof. done. Qed.

Lemma acquire_path s c l :
  sinv s -> pc s c = Run -> lk_locked (lks (mc s) l) = false ->
  exists s', rtc sstep s s' /\ sinv s' /\ l ∈ hd s' c /\ pc s' c = Run /\ forall c', c' <> c -> pc s' c' = pc s c'.
Proof.
  destruct s as [m p h]. cbn [pc mc]. intros I Hp Hl.
  destruct (acquire_begin_run c l m) as [m1 E1]; [unfold is_holding; by rewrite Hl|].
  pose proof (sinv_begin _ _ _ I _ _ _ Hp E1) as I1. apply acquire_begin_inv in E1 as H1. destruct H1 as (_ & _ & _ & H1). destruct (H1 l) as [H2 _].
  assert (Es : exists m2, acquire_swap l m1 = Ok true m2) by (unfold acquire_swap, bind, gets, set_lk, modify; rewrite H2, Hl; by eexists).
  destruct Es as [m2 E2]. assert (Hp1 : upd p c (Spin l) c = Spin l) by apply upd_same.
  pose proof (sinv_swap _ _ _ I1 _ _ _ Hp1 E2) as I2. set (p2 := upd (upd p c (Spin l)) c (Got l)) in *.
  assert (Hp2 : p2 c = Got l) by apply upd_same.
  assert (E3 : exists m3, acquire_end c l m2 = Ok tt m3) by (by eexists). destruct E3 as [m3 E3].
  pose proof (sinv_own _ _ _ I2 _ _ _ Hp2 E3) as I3. eexists. split_and!; [|exact I3|..]; cbn.
  - eapply rtc_l; [by eapply (SBegin c l)|]. eapply rtc_l; [by eapply (SSwap c l)|]. eapply rtc_l; [by eapply (SOwn c l)|]. apply rtc_refl.
  - rewrite upd_same. left.
  - apply upd_same.
  - intros c' Hc. unfold p2. by rewrite !upd_other.
Qed.

Lemma demo_wait : exists s, rtc sstep demo_conf s /\ pc s 1 = Spin 7 /\ 7 ∈ hd s 0 /\ forall c l, c <> 1 -> pc s c <> Spin l.
Proof.
  destruct (acquire_path demo_conf 0 7 (started_inv _ demo_started) eq_refl eq_refl) as ([m p h] & R & I & Hh & Hp & Ho). cbn [pc hd] in *.
  destruct (acquire_begin_run 1 7 m) as [m' E].
  { unfold is_holding. rewrite bool_decide_false; [apply andb_false_r|]. intros Hc. pose proof (proj2 (si_cpu _ I 7 0) Hh) as Hc'. cbn in Hc'. congruence. }
  exists (Conf m' (upd p 1 (Spin 7)) h). cbn. split_and!.
  - eapply rtc_r; [exact R|]. apply (SBegin 1 7); [by rewrite Ho|done].
  - apply upd_same.
  - done.
  - intros c l Hc. rewrite upd_other by done. destruct (decide (c = 0)) as [->|]; [by rewrite Hp|by rewrite Ho].
Qed.

Lemma spinlock_mutex_witness : exists s, rtc sstep demo_conf s /\ holding 0 7 (mc s) = Ok true (mc s) /\ holding 1 7 (mc s) = Ok false (mc s).
Proof.
  destruct demo_wait as (s & R & _ & Hi & _). exists s. destruct (spinlock_mutex demo_conf s demo_started R) as (H1 & H2 & _).
  rewrite !H2. rewrite bool_decide_true by done. rewrite bool_decide_false; [done|]. intros Hj. by specialize (H1 7 0 1 Hi Hj).
Defined.

Lemma spinlock_handover_witness : exists s s', rtc sstep demo_conf s /\ pc s 1 = Spin 7 /\ rtc sstep s s' /\ 7 ∈ hd s' 1.
Proof.
  destruct demo_wait as (s & R & Hp & _ & Hn). destruct (spinlock_handover demo_conf s 1 7 demo_started R Hp Hn) as (s' & R' & Hi).
  by exists s, s'.
Defined.

Lemma push_pop_nest_witness : exists m1 m2, push_n 3 0 (mc demo_conf) = Ok tt m1 /\ pop_n 3 0 m1 = Ok tt m2 /\ intr (cpus m2 0) = true.
Proof.
  destruct (push_pop_nest (mc demo_conf) 0 3) as (m1 & m2 & E1 & E2 & _ & _ & _ & Es & _); [done|by left|].
  exists m1, m2. split_and!; auto. rewrite intr_testbit, Es. done.
Defined.
