(* ===== verification/Kernel.v ===== *)
(** * The state of the kernel and the process table primitives

    One record holds what the system calls work on: the file system with
    physical memory, the process table, the table of open files, the pipes, the
    console and the clock.  A pointer to an entry of a table is the number of the
    entry, from 1 on, and 0 is the null pointer.

    A handler runs on behalf of the process [cur].  It may stop inside [sleep]:
    the outcome is then [Sleep], with the process asleep on the channel, at the
    switch to the scheduler.  Routines of the file system run on their own state;
    when one of them has to wait, the process goes to sleep the same way, and the
    wakeups it has issued reach the process table. *)
From stdpp Require Import base list gmap strings.
From Stdlib Require Import ZArith Lia.
From S2P Require Import Prelude KString Riscv Kalloc Vm Sleeplock Bio Log Blocks Fs.

#[local] Open Scope Z_scope.
#[local] Open Scope xv6_scope.

Definition NPROC : Z := 10.
Definition NOFILE : Z := 16.
Definition NFILE : Z := 100.
Definition NDEV : Z := 10.
Definition PIPESIZE : Z := 512.
Definition INPUT_BUF : Z := 128.

(** ** The log as the system calls see it *)

Class OpLayer (S : Type) : Type := {
  ol_begin_op : Z -> M S unit;
  ol_end_op : Z -> M S unit;
  ol_as : Z -> S -> S;            (** run for the process with this pid *)
  ol_wakes : S -> list chan;      (** [wakeup] calls, oldest first *)
  ol_ack : S -> S;                (** forget them *)
}.

#[export] Instance log_ops : OpLayer lst := {
  ol_begin_op _ := Log.begin_op;
  ol_end_op dev := Log.end_op dev;
  ol_as pid s := s <| bc := (bc s) <| mypid := pid |> |>;
  ol_wakes s := rev (bc_wakes (bc s)) ++ replicate (log_wakes s) log_chan;
  ol_ack s := s <| log_wakes := 0%nat |> <| bc := (bc s) <| bc_wakes := [] |> |>;
}.

(** ** Processes *)

Inductive procstate : Type := UNUSED | SLEEPING | RUNNABLE | RUNNING | ZOMBIE.

#[export] Instance procstate_eq_dec : EqDecision procstate.
Proof. solve_decision. Defined.

Definition chan_eqb (a b : chan) : bool :=
  let '(Chan w i) := a in let '(Chan w' i') := b in String.eqb w w' && (i =? i').

(** Saved registers for kernel context switches. *)
Record context : Type := Context { ctx_ra : Z; ctx_sp : Z; ctx_saved : list Z }.

Record proc : Type := Proc {
  p_lock : bool;
  p_state : procstate;
  p_parent : Z;
  p_chan : option chan;
  p_killed : bool;
  p_xstate : Z;
  p_pid : Z;
  p_kstack : Z;
  p_sz : Z;
  p_pagetable : Z;
  p_tf : Z;                (** address of the trapframe page *)
  p_context : context;
  p_ofile : list Z;
  p_cwd : Z;
  p_name : list Z;
}.

#[export] Instance proc_eta : Eta proc := fun p =>
  Proc (p_lock p) (p_state p) (p_parent p) (p_chan p) (p_killed p) (p_xstate p) (p_pid p) (p_kstack p) (p_sz p)
       (p_pagetable p) (p_tf p) (p_context p) (p_ofile p) (p_cwd p) (p_name p).

(** ** Open files, pipes, the console *)

Inductive fdtype : Type := FD_NONE | FD_PIPE | FD_INODE | FD_DEVICE.

Record file : Type := File {
  f_type : fdtype;
  f_ref : Z;
  f_readable : bool;
  f_writable : bool;
  f_pipe : Z;
  f_ip : Z;
  f_off : Z;
  f_major : Z;
  f_minor : Z;
}.

#[export] Instance file_eta : Eta file := fun f =>
  File (f_type f) (f_ref f) (f_readable f) (f_writable f) (f_pipe f) (f_ip f) (f_off f) (f_major f) (f_minor f).

Record pipe : Type := Pipe {
  pi_lock : bool;
  pi_data : list Z;
  pi_nread : Z;            (** number of bytes read *)
  pi_nwrite : Z;           (** number of bytes written *)
  pi_readopen : bool;
  pi_writeopen : bool;
}.

#[export] Instance pipe_eta : Eta pipe := fun p =>
  Pipe (pi_lock p) (pi_data p) (pi_nread p) (pi_nwrite p) (pi_readopen p) (pi_writeopen p).

Record consst : Type := Cons {
  cn_lock : bool;
  cn_buf : list Z;
  cn_r : Z;                (** read index *)
  cn_w : Z;                (** write index *)
  cn_e : Z;                (** edit index *)
  cn_out : list Z;         (** what the uart has sent, oldest first *)
  cn_in : list Z;          (** what the uart has received, oldest first *)
  cn_prlock : bool;        (** [pr.lock] *)
  cn_locking : bool;       (** [pr.locking] *)
}.

#[export] Instance consst_eta : Eta consst := fun c =>
  Cons (cn_lock c) (cn_buf c) (cn_r c) (cn_w c) (cn_e c) (cn_out c) (cn_in c) (cn_prlock c) (cn_locking c).

(** Control registers of the CPU, and the interrupt controller. *)
Record csr : Type := Csr {
  sstatus : Z;
  sepc : Z;
  scause : Z;
  stval : Z;
  stvec : Z;
  sip : Z;
  satp : Z;
  tp : Z;                  (** the hart number *)
  plic_irqs : list Z;      (** interrupts to be claimed *)
  plic_done : list Z;      (** interrupts completed, latest first *)
}.

#[export] Instance csr_eta : Eta csr := fun c =>
  Csr (sstatus c) (sepc c) (scause c) (stval c) (stvec c) (sip c) (satp c) (tp c) (plic_irqs c) (plic_done c).

(** ** The kernel *)

Record kst (S : Type) : Type := Kst {
  kfs : fst S;
  procs : Z -> proc;
  cur : Z;                 (** [mycpu()->proc] *)
  k_noff : Z;              (** [mycpu()->noff] *)
  initproc : Z;
  nextpid : Z;
  pid_lock : bool;
  ft_lock : bool;
  files : Z -> file;
  pipes : Z -> pipe;       (** by the address of the page *)
  ticks : Z;
  tickslock : bool;
  con : consst;
  kpt : Z;                 (** [kernel_pagetable] *)
  first_ : bool;           (** [first] of [forkret] *)
  csrs : csr;
}.
Arguments Kst {S} kfs procs cur k_noff initproc nextpid pid_lock ft_lock files pipes ticks tickslock con kpt first_ csrs.
Arguments kfs {S} k.
Arguments procs {S} k _.
Arguments cur {S} k.
Arguments k_noff {S} k.
Arguments initproc {S} k.
Arguments nextpid {S} k.
Arguments pid_lock {S} k.
Arguments ft_lock {S} k.
Arguments files {S} k _.
Arguments pipes {S} k _.
Arguments ticks {S} k.
Arguments tickslock {S} k.
Arguments con {S} k.
Arguments kpt {S} k.
Arguments first_ {S} k.
Arguments csrs {S} k.

#[export] Instance kst_eta S : Eta (kst S) := fun k =>
  Kst (kfs k) (procs k) (cur k) (k_noff k) (initproc k) (nextpid k) (pid_lock k) (ft_lock k) (files k) (pipes k)
      (ticks k) (tickslock k) (con k) (kpt k) (first_ k) (csrs k).

(** The variables as they are initialised: zero, except [nextpid] and [first]. *)
Definition zero_proc : proc :=
  Proc false UNUSED 0 None false 0 0 0 0 0 0 (Context 0 0 []) (replicate 16 0) 0 (replicate 16 0).
Definition zero_file : file := File FD_NONE 0 false false 0 0 0 0 0.
Definition zero_pipe : pipe := Pipe false (replicate 512 0) 0 0 false false.
Definition zero_con : consst := Cons false (replicate 128 0) 0 0 0 [] [] false false.
Definition boot_kst {S} (f : fst S) : kst S :=
  Kst f (fun _ => zero_proc) 0 0 0 1 false false (fun _ => zero_file) (fun _ => zero_pipe) 0 false zero_con 0 true (Csr 0 0 0 0 0 0 0 0 [] []).

Section Kernel.

Context {S : Type} {L : BlockLayer S} {O : OpLayer S}.

Abbreviation K := (M (kst S)).

(** [for(x in l) f(x)] *)
Fixpoint each {A} (l : list A) (f : A -> K unit) : K unit :=
  match l with
  | [] => ret tt
  | x :: l => f x ;; each l f
  end.

(** The first [x] in [l] for which [f] returns a value. *)
Fixpoint search {A B} (l : list A) (f : A -> K (option B)) : K (option B) :=
  match l with
  | [] => ret None
  | x :: l => r ← f x ; match r with Some b => ret (Some b) | None => search l f end
  end.

Definition set_proc (p : Z) (f : proc -> proc) : K unit :=
  modify (fun s => s <| procs := upd (procs s) p (f (procs s p)) |>).
Definition get_proc (p : Z) : K proc := gets (fun s => procs s p).
Definition myproc : K Z := gets cur.
Definition set_file (f : Z) (g : file -> file) : K unit :=
  modify (fun s => s <| files := upd (files s) f (g (files s f)) |>).
Definition get_file (f : Z) : K file := gets (fun s => files s f).
Definition set_pipe (pi : Z) (g : pipe -> pipe) : K unit :=
  modify (fun s => s <| pipes := upd (pipes s) pi (g (pipes s pi)) |>).
Definition get_pipe (pi : Z) : K pipe := gets (fun s => pipes s pi).
Definition set_con (g : consst -> consst) : K unit := modify (fun s => s <| con := g (con s) |>).

(** [kvminithart]: the hardware translates with the kernel's page table. *)
Definition kvminithart : K unit := modify (fun s => s <| csrs := (csrs s) <| satp := MAKE_SATP (kpt s) |> |>).

(** ** Locks of the tables *)

Definition lock_on (get : kst S -> bool) (put : bool -> kst S -> kst S) : K unit := fun s =>
  if get s then Panic "acquire" else Ok tt ((put true s) <| k_noff := k_noff s + 1 |>).
Definition lock_off (get : kst S -> bool) (put : bool -> kst S -> kst S) : K unit := fun s =>
  if get s then Ok tt ((put false s) <| k_noff := k_noff s - 1 |>) else Panic "release".

Definition plock (p : Z) : K unit :=
  lock_on (fun s => p_lock (procs s p)) (fun b s => s <| procs := upd (procs s) p ((procs s p) <| p_lock := b |>) |>).
Definition punlock (p : Z) : K unit :=
  lock_off (fun s => p_lock (procs s p)) (fun b s => s <| procs := upd (procs s) p ((procs s p) <| p_lock := b |>) |>).
Definition pilock (pi : Z) : K unit :=
  lock_on (fun s => pi_lock (pipes s pi)) (fun b s => s <| pipes := upd (pipes s) pi ((pipes s pi) <| pi_lock := b |>) |>).
Definition piunlock (pi : Z) : K unit :=
  lock_off (fun s => pi_lock (pipes s pi)) (fun b s => s <| pipes := upd (pipes s) pi ((pipes s pi) <| pi_lock := b |>) |>).
Definition ftlock : K unit := lock_on ft_lock (fun b s => s <| ft_lock := b |>).
Definition ftunlock : K unit := lock_off ft_lock (fun b s => s <| ft_lock := b |>).
Definition pidlock : K unit := lock_on pid_lock (fun b s => s <| pid_lock := b |>).
Definition pidunlock : K unit := lock_off pid_lock (fun b s => s <| pid_lock := b |>).
Definition tlock : K unit := lock_on tickslock (fun b s => s <| tickslock := b |>).
Definition tunlock : K unit := lock_off tickslock (fun b s => s <| tickslock := b |>).
Definition clock : K unit := lock_on (fun s => cn_lock (con s)) (fun b s => s <| con := (con s) <| cn_lock := b |> |>).
Definition prlock : K unit := lock_on (fun s => cn_prlock (con s)) (fun b s => s <| con := (con s) <| cn_prlock := b |> |>).
Definition prunlock : K unit := lock_off (fun s => cn_prlock (con s)) (fun b s => s <| con := (con s) <| cn_prlock := b |> |>).
Definition cunlock : K unit := lock_off (fun s => cn_lock (con s)) (fun b s => s <| con := (con s) <| cn_lock := b |> |>).

(** ** [sleep] and [wakeup] *)

(** [sched] up to the switch to the scheduler; the process goes on when it is
    scheduled again. *)
Definition sched {A} (c : chan) : K A :=
  p ← myproc ;
  pr ← get_proc p ;
  if negb (p_lock pr) then panic "sched p->lock" else
  noff ← gets k_noff ;
  if negb (noff =? 1) then panic "sched locks" else
  if decide (p_state pr = RUNNING) then panic "sched running" else sleep_on c.

(** [sleep(chan, lk)]; [unlock] releases [lk] unless it is the process's own
    lock, which is then already held. *)
Definition sleep {A} (c : chan) (unlock : option (K unit)) : K A :=
  p ← myproc ;
  match unlock with Some u => plock p ;; u | None => ret tt end ;;
  set_proc p (fun x => x <| p_chan := Some c |>) ;;
  set_proc p (fun x => x <| p_state := SLEEPING |>) ;;
  sched c.

Definition on_chan (c : chan) (p : proc) : bool :=
  match p_chan p with Some c' => chan_eqb c' c | None => false end.

Definition wake_one (c : chan) (p : Z) : K unit :=
  plock p ;;
  x ← get_proc p ;
  (if decide (p_state x = SLEEPING) then if on_chan c x then set_proc p (fun x => x <| p_state := RUNNABLE |>) else ret tt
   else ret tt) ;;
  punlock p.

Definition wakeup (c : chan) : K unit := each (zseq 1 (Z.to_nat NPROC)) (wake_one c).

(** ** Routines of the file system and of memory *)

(** The file system as process [cur] sees it. *)
Definition fs_view (s : kst S) : fst S :=
  let p := procs s (cur s) in
  (kfs s) <| fs_pid := p_pid p |> <| fs_pt := p_pagetable p |> <| cwd := p_cwd p |> <| fs_wakes := [] |>
          <| blk := ol_ack (ol_as (p_pid p) (blk (kfs s))) |>.

Definition in_fs {A} (m : M (fst S) A) : K A := fun s =>
  match m (fs_view s) with
  | Panic msg => Panic msg
  | Ok a f => (each (ol_wakes (blk f) ++ rev (fs_wakes f)) wakeup ;; ret a) (s <| kfs := f |>)
  | Sleep c f => (each (ol_wakes (blk f) ++ rev (fs_wakes f)) wakeup ;; sleep c (Some (ret tt))) (s <| kfs := f |>)
  end.

Definition begin_op (dev : Z) : K unit := in_fs (in_blk (ol_begin_op dev)).
Definition end_op (dev : Z) : K unit := in_fs (in_blk (ol_end_op dev)).

(** Physical memory. *)
Definition in_kmem {A} (m : M kmem A) : K A :=
  zoom (fun s => fs_mem (kfs s)) (fun k s => s <| kfs := (kfs s) <| fs_mem := k |> |>) m.

Lemma in_kmem_Ok {A} (m : M kmem A) a k s :
  m (fs_mem (kfs s)) = Ok a k -> in_kmem m s = Ok a (s <| kfs := (kfs s) <| fs_mem := k |> |>).
Proof. intros H. unfold in_kmem, zoom. by rewrite H. Qed.

Lemma in_kmem_inv {A} (m : M kmem A) s s' a :
  in_kmem m s = Ok a s' -> exists k, m (fs_mem (kfs s)) = Ok a k /\ s' = s <| kfs := (kfs s) <| fs_mem := k |> |>.
Proof. unfold in_kmem, zoom. destruct (m _); [|done..]. intros [= <- <-]. eauto. Qed.

(** A routine that only reads memory. *)
Lemma in_kmem_read {A} (m : M kmem A) a s :
  m (fs_mem (kfs s)) = Ok a (fs_mem (kfs s)) -> in_kmem m s = Ok a s.
Proof. intros H. rewrite (in_kmem_Ok _ _ _ _ H). by destruct s as [[]]. Qed.

(** A process that calls [sleep] stops there. *)
Lemma sched_stops {A} c s (a : A) s' : sched c s <> Ok a s'.
Proof.
  unfold sched, bind, myproc, get_proc, gets, panic, sleep_on. destruct (negb (p_lock _)); [done|].
  destruct (negb (_ =? 1)); [done|]. by case_decide.
Qed.

Lemma sleep_stops {A} c u s (a : A) s' : sleep c u s <> Ok a s'.
Proof.
  unfold sleep. intros H. do 4 apply bind_Ok_inv in H as (? & ? & _ & H). by apply sched_stops in H.
Qed.

(** ** What [wakeup] does *)

(** The process after [wakeup(c)]. *)
Definition woken (c : chan) (x : proc) : proc :=
  if decide (p_state x = SLEEPING) then if on_chan c x then x <| p_state := RUNNABLE |> else x else x.

Definition unlocked_procs (s : kst S) : Prop := forall p, 1 <= p <= NPROC -> p_lock (procs s p) = false.

(** The state with another process table and another count of locks held. *)
Definition with_procs (s : kst S) (pr : Z -> proc) (n : Z) : kst S := s <| procs := pr |> <| k_noff := n |>.

Lemma with_procs_with s pr n pr' n' : with_procs (with_procs s pr n) pr' n' = with_procs s pr' n'.
Proof. reflexivity. Qed.

Lemma with_procs_id s pr : with_procs s pr (k_noff s) = (s <| procs := pr |>).
Proof. reflexivity. Qed.

Lemma plock_Ok p s : p_lock (procs s p) = false ->
  plock p s = Ok tt (with_procs s (upd (procs s) p ((procs s p) <| p_lock := true |>)) (k_noff s + 1)).
Proof. intros H. unfold plock, lock_on. by rewrite H. Qed.

Lemma punlock_Ok p s : p_lock (procs s p) = true ->
  punlock p s = Ok tt (with_procs s (upd (procs s) p ((procs s p) <| p_lock := false |>)) (k_noff s - 1)).
Proof. intros H. unfold punlock, lock_off. by rewrite H. Qed.

Lemma set_proc_Ok p f s : set_proc p f s = Ok tt (with_procs s (upd (procs s) p (f (procs s p))) (k_noff s)).
Proof. reflexivity. Qed.

Lemma procs_with s pr n : procs (with_procs s pr n) = pr.
Proof. reflexivity. Qed.

Lemma k_noff_with s pr n : k_noff (with_procs s pr n) = n.
Proof. reflexivity. Qed.

#[local] Opaque with_procs.

Lemma wake_one_spec c p s :
  p_lock (procs s p) = false ->
  exists pr, wake_one c p s = Ok tt (s <| procs := pr |>) /\
    pr p = woken c (procs s p) /\ forall q, q <> p -> pr q = procs s q.
Proof.
  intros Hl. unfold wake_one, woken. unfold bind at 1. rewrite plock_Ok by done. unfold bind at 1, get_proc, gets.
  rewrite procs_with, upd_same. cbn [p_state field_update]. unfold bind.
  assert (Hn : k_noff s + 1 - 1 = k_noff s) by lia.
  destruct (decide (p_state (procs s p) = SLEEPING)) as [E|E]; [destruct (on_chan c (procs s p)) eqn:Ec|].
  1: replace (on_chan c _) with true by done; rewrite set_proc_Ok, procs_with, upd_same.
  2: replace (on_chan c _) with false by done; unfold ret at 1.
  3: unfold ret at 1.
  all: rewrite punlock_Ok by (by rewrite !procs_with, upd_same);
    rewrite ?k_noff_with, ?with_procs_with, !procs_with, upd_same, Hn, with_procs_id;
    (eexists; split; [reflexivity|]); (split; [rewrite upd_same; destruct (procs s p); cbn in *; by subst|]);
    intros q Hq; by rewrite !upd_other.
Qed.

Lemma woken_lock c x : p_lock (woken c x) = p_lock x.
Proof. unfold woken. by repeat (case_decide || case_match). Qed.

Lemma woken_twice c x : woken c (woken c x) = woken c x.
Proof. unfold woken at 2 3. case_decide; [destruct (on_chan c x) eqn:E|]; unfold woken; [|by rewrite decide_True, E|by rewrite decide_False]. done. Qed.

Lemma wakeup_spec c s :
  unlocked_procs s ->
  exists pr, wakeup c s = Ok tt (s <| procs := pr |>) /\
    forall p, pr p = if decide (1 <= p <= NPROC) then woken c (procs s p) else procs s p.
Proof.
  intros Hl. assert (H : forall n a s, 1 <= a -> a + Z.of_nat n <= NPROC + 1 -> unlocked_procs s ->
    exists pr, each (zseq a n) (wake_one c) s = Ok tt (s <| procs := pr |>) /\
      forall p, pr p = if decide (a <= p < a + Z.of_nat n) then woken c (procs s p) else procs s p).
  { clear s Hl. induction n as [|n IH]; intros a s Ha Hn Hl.
    - exists (procs s). split_and!; [by destruct s|]. intros p. by rewrite decide_False by lia.
    - cbn [zseq each]. unfold bind. destruct (wake_one_spec c a s) as (p1 & -> & H1 & H2); [apply Hl; lia|].
      destruct (IH (a + 1) (s <| procs := p1 |>)) as (p2 & -> & H3); [lia|lia| |].
      { intros p Hp. change (p_lock (p1 p) = false).
        destruct (decide (p = a)) as [->|]; [rewrite H1, woken_lock|rewrite H2 by done]; by apply Hl. }
      exists p2. split; [done|]. intros p. rewrite H3. change (procs (s <| procs := p1 |>)) with p1.
      destruct (decide (p = a)) as [->|Hne]; [rewrite decide_False, decide_True by lia; done|]. rewrite H2 by done.
      repeat case_decide; lia || done. }
  destruct (H (Z.to_nat NPROC) 1 s) as (pr & E & H'); [lia|done|done|].
  exists pr. split; auto. intros p. rewrite H'. unfold NPROC. repeat case_decide; lia || done.
Qed.

End Kernel.
