(* ===== verification/SleepWake.v ===== *)
(** * Sleep and wakeup

    The protocol between a process that waits for a condition and the ones that
    make it true: [acquire(lk); while(!cond) sleep(chan, lk); release(lk)] against
    [acquire(lk); cond = 1; wakeup(chan); release(lk)], with [sleep], [wakeup] and
    the scheduler of [kernel/proc.c] cut where another CPU can get in between.
    Everywhere else in the development [Kernel.sleep] runs up to the switch to the
    scheduler in one go. *)
From stdpp Require Import base list strings relations.
From Stdlib Require Import ZArith Lia.
From S2P Require Import Prelude KString Kernel.

#[local] Open Scope Z_scope.

Inductive actor : Type := Waiter | Waker (i : Z).

(** Where the waiting process is. *)
Inductive wpc : Type :=
| W_acquire | W_test                      (** the loop around [sleep] *)
| S_plock | S_release | S_chan | S_state  (** [sleep], up to [sched] *)
| S_sched | S_off                         (** switching away; off the CPU *)
| S_tidy | S_punlock                      (** [sleep] after [sched] *)
| W_done.

#[export] Instance wpc_eq_dec : EqDecision wpc.
Proof. solve_decision. Defined.

(** Where a process that calls [wakeup] is. *)
Inductive kpc : Type := K_acquire | K_set | K_plock | K_wake | K_punlock | K_release | K_done.

Record wst : Type := Wst {
  w_proc : proc;
  w_plock : option actor;   (** the holder of [p->lock] *)
  w_lk : option actor;      (** the holder of [lk] *)
  w_cond : bool;
  w_pc : wpc;
  k_pc : Z -> kpc;
}.

#[export] Instance wst_eta : Eta wst := fun s => Wst (w_proc s) (w_plock s) (w_lk s) (w_cond s) (w_pc s) (k_pc s).

Section Protocol.

Context (c : chan).

(** One step of the waiting process; [None] when it has to wait for a lock, for
    the scheduler, or is done. *)
Definition sleep_step (s : wst) : option wst :=
  match w_pc s with
  | W_acquire => match w_lk s with None => Some (s <| w_lk := Some Waiter |> <| w_pc := W_test |>) | _ => None end
  | W_test => Some (if w_cond s then s <| w_lk := None |> <| w_pc := W_done |> else s <| w_pc := S_plock |>)
  | S_plock => match w_plock s with None => Some (s <| w_plock := Some Waiter |> <| w_pc := S_release |>) | _ => None end
  | S_release => Some (s <| w_lk := None |> <| w_pc := S_chan |>)
  | S_chan => Some (s <| w_proc := (w_proc s) <| p_chan := Some c |> |> <| w_pc := S_state |>)
  | S_state => Some (s <| w_proc := (w_proc s) <| p_state := SLEEPING |> |> <| w_pc := S_sched |>)
  | S_sched => Some (s <| w_plock := None |> <| w_pc := S_off |>)
  | S_off =>
      match w_plock s, p_state (w_proc s) with
      | None, RUNNABLE =>
          Some (s <| w_plock := Some Waiter |> <| w_proc := (w_proc s) <| p_state := RUNNING |> |> <| w_pc := S_tidy |>)
      | _, _ => None
      end
  | S_tidy => Some (s <| w_proc := (w_proc s) <| p_chan := None |> |> <| w_pc := S_punlock |>)
  | S_punlock => Some (s <| w_plock := None |> <| w_pc := W_acquire |>)
  | W_done => None
  end.

Definition at_k (s : wst) (i : Z) (pc : kpc) : wst := s <| k_pc := upd (k_pc s) i pc |>.

(** One step of waker [i]. *)
Definition wakeup_step (i : Z) (s : wst) : option wst :=
  match k_pc s i with
  | K_acquire => match w_lk s with None => Some (at_k (s <| w_lk := Some (Waker i) |>) i K_set) | _ => None end
  | K_set => Some (at_k (s <| w_cond := true |>) i K_plock)
  | K_plock => match w_plock s with None => Some (at_k (s <| w_plock := Some (Waker i) |>) i K_wake) | _ => None end
  | K_wake => Some (at_k (s <| w_proc := woken c (w_proc s) |>) i K_punlock)
  | K_punlock => Some (at_k (s <| w_plock := None |>) i K_release)
  | K_release => Some (at_k (s <| w_lk := None |>) i K_done)
  | K_done => None
  end.

Inductive wstep : wst -> wst -> Prop :=
| ws_waiter s s' : sleep_step s = Some s' -> wstep s s'
| ws_waker i s s' : wakeup_step i s = Some s' -> wstep s s'.

(** The waiting process runs and is about to take [lk]; some wakers have not
    started, the others are done. *)
Record wstart (s : wst) : Prop := {
  st_plock : w_plock s = None;
  st_lk : w_lk s = None;
  st_pc : w_pc s = W_acquire;
  st_run : p_state (w_proc s) = RUNNING;
  st_wakers : forall i, k_pc s i = K_acquire \/ k_pc s i = K_done;
}.

(** ** The invariant *)

Definition w_holds_lk (pc : wpc) : bool := match pc with W_test | S_plock | S_release => true | _ => false end.
Definition w_holds_p (pc : wpc) : bool :=
  match pc with S_release | S_chan | S_state | S_sched | S_tidy | S_punlock => true | _ => false end.
Definition k_holds_lk (pc : kpc) : bool := match pc with K_acquire | K_done => false | _ => true end.
Definition k_holds_p (pc : kpc) : bool := match pc with K_wake | K_punlock => true | _ => false end.

(** A waker that has set the condition and has not yet looked at the process. *)
Definition waking (s : wst) : Prop := exists i, k_pc s i = K_plock \/ k_pc s i = K_wake.

(** The state of the process at each point. *)
Definition proc_at (s : wst) : Prop :=
  let p := w_proc s in
  match w_pc s with
  | S_state => p_state p = RUNNING /\ p_chan p = Some c
  | S_sched => p_state p = SLEEPING /\ p_chan p = Some c
  | S_off => (p_state p = SLEEPING \/ p_state p = RUNNABLE) /\ p_chan p = Some c
  | _ => p_state p = RUNNING
  end.

(** A process that is going to sleep or asleep, with the condition true, is
    about to be woken. *)
Definition to_be_woken (s : wst) : Prop :=
  match w_pc s with
  | S_plock | S_release => w_cond s = false
  | S_chan | S_state | S_sched => w_cond s = true -> waking s
  | S_off => p_state (w_proc s) = SLEEPING -> w_cond s = true -> waking s
  | _ => True
  end.

Record winv (s : wst) : Prop := {
  wi_lk_w : w_lk s = Some Waiter <-> w_holds_lk (w_pc s) = true;
  wi_lk_k : forall i, w_lk s = Some (Waker i) <-> k_holds_lk (k_pc s i) = true;
  wi_p_w : w_plock s = Some Waiter <-> w_holds_p (w_pc s) = true;
  wi_p_k : forall i, w_plock s = Some (Waker i) <-> k_holds_p (k_pc s i) = true;
  wi_proc : proc_at s;
  wi_woken : to_be_woken s;
}.

Lemma winv_start s : wstart s -> winv s.
Proof.
  intros [H1 H2 H3 H4 H5]. split; unfold proc_at, to_be_woken; rewrite ?H1, ?H2, ?H3; try done.
  - intros i. destruct (H5 i) as [->| ->]; done.
  - intros i. destruct (H5 i) as [->| ->]; done.
Qed.

Lemma winv_waiter s s' : winv s -> sleep_step s = Some s' -> winv s'.
Proof.
  intros [H1 H2 H3 H4 H5 H6] H. unfold sleep_step in H. unfold proc_at, to_be_woken in *.
  destruct (w_pc s) eqn:Epc; repeat case_match; simplify_eq; split; unfold proc_at, to_be_woken, waking; cbn in *;
    rewrite ?Epc; cbn.
  all: try (clear H5 H6; intros i; specialize (H2 i); specialize (H4 i); intuition congruence).
  all: try (clear H2 H4; intuition congruence).
Qed.

(** What a step of waker [i] to [pc] keeps. *)
Lemma upd_eq_cases {A} (f : Z -> A) i v j : upd f i v j = v /\ j = i \/ upd f i v j = f j /\ j <> i.
Proof. destruct (decide (j = i)) as [->|]; [left; by rewrite upd_same|right; by rewrite upd_other]. Qed.

(** [waking] as a property of the wakers alone. *)
Definition kwaking (f : Z -> kpc) : Prop := exists i, f i = K_plock \/ f i = K_wake.

Lemma kwaking_upd f i pc : (f i <> K_plock /\ f i <> K_wake) -> kwaking f -> kwaking (upd f i pc).
Proof.
  intros Hi [j Hj]. exists j. destruct (decide (j = i)) as [->|Hne]; [tauto|]. by rewrite upd_other.
Qed.

Lemma kwaking_here f i pc : pc = K_plock \/ pc = K_wake -> kwaking (upd f i pc).
Proof. intros H. exists i. by rewrite upd_same. Qed.

Lemma woken_state p : p_chan p = Some c -> p_state p = SLEEPING \/ p_state p = RUNNABLE ->
  p_state (woken c p) = RUNNABLE /\ p_chan (woken c p) = Some c.
Proof.
  intros Hc Hs. unfold woken, on_chan. rewrite Hc. destruct c as [w n]. cbn. rewrite String.eqb_refl, Z.eqb_refl. cbn.
  destruct Hs as [Hs|Hs]; rewrite Hs; cbn; auto.
Qed.

Lemma woken_running p : p_state p = RUNNING -> woken c p = p.
Proof. intros H. unfold woken. by rewrite H. Qed.

(** The four conditions on the locks. *)
Definition locks_ok (s : wst) : Prop :=
  (w_lk s = Some Waiter <-> w_holds_lk (w_pc s) = true) /\
  (forall i, w_lk s = Some (Waker i) <-> k_holds_lk (k_pc s i) = true) /\
  (w_plock s = Some Waiter <-> w_holds_p (w_pc s) = true) /\
  (forall i, w_plock s = Some (Waker i) <-> k_holds_p (k_pc s i) = true).

Lemma winv_locks s : winv s <-> locks_ok s /\ proc_at s /\ to_be_woken s.
Proof. split; [by intros []|intros ((?&?&?&?)&?&?); by split]. Qed.

Lemma locks_waker i s s' : locks_ok s -> wakeup_step i s = Some s' -> locks_ok s'.
Proof.
  intros (H1 & H2 & H3 & H4) H. pose proof (H2 i) as A. pose proof (H4 i) as B. unfold wakeup_step in H.
  assert (Hall : forall pc j, (j = i /\ upd (k_pc s) i pc j = pc) \/ (j <> i /\ upd (k_pc s) i pc j = k_pc s j)).
  { intros pc j. destruct (decide (j = i)) as [->|]; [left; by rewrite upd_same|right; by rewrite upd_other]. }
  destruct (k_pc s i); cbn in A, B; repeat case_match; simplify_eq; (split_and!; cbn -[upd];
    [intuition congruence| |intuition congruence|]); intros j; specialize (H2 j); specialize (H4 j);
    match goal with |- context [upd _ _ ?pc _] => destruct (Hall pc j) as [[-> ->]|[? ->]] end; cbn; intuition congruence.
Qed.

(** Only [K_wake] changes the process, and then the process does not hold its
    lock. *)
Lemma proc_waker i s s' : winv s -> wakeup_step i s = Some s' -> proc_at s'.
Proof.
  intros [_ _ H3 H4 H5 _] H. specialize (H4 i). unfold wakeup_step in H. unfold proc_at in *.
  destruct (k_pc s i) eqn:E; [destruct (w_lk s)| |destruct (w_plock s)| | | |]; simplify_eq; try exact H5.
  cbn. assert (Hp : w_plock s = Some (Waker i)) by (by apply H4).
  destruct (w_pc s); cbn in H3; try (exfalso; rewrite Hp in H3; intuition congruence);
    try (by rewrite (woken_running _ H5)).
  destruct H5 as [Hs Hc]. destruct (woken_state _ Hc Hs). auto.
Qed.

Lemma woken_waker i s s' : winv s -> wakeup_step i s = Some s' -> to_be_woken s'.
Proof.
  intros [H1 H2 H3 H4 H5 H6] H. specialize (H2 i). specialize (H4 i). unfold wakeup_step in H.
  unfold proc_at, to_be_woken, waking in *. fold (kwaking (k_pc s)) in H6.
  destruct (k_pc s i) eqn:E; [destruct (w_lk s) eqn:El| |destruct (w_plock s) eqn:Ep| | | |]; simplify_eq; cbn -[upd];
    match goal with |- context [upd _ _ ?pc] => fold (kwaking (upd (k_pc s) i pc)) end;
    destruct (w_pc s); try done; cbn in H1, H2, H3, H4.
  all: try (intros; apply kwaking_here; tauto).
  all: try (intros; apply kwaking_upd; [by rewrite E|auto]).
  all: try (exfalso; intuition congruence).
  intros Hs. destruct H5 as [Hst Hc]. destruct (woken_state _ Hc Hst). congruence.
Qed.

Lemma winv_step s s' : winv s -> wstep s s' -> winv s'.
Proof.
  intros I Hs. inversion Hs as [s1 s2 H|i s1 s2 H]; subst; [by eapply winv_waiter|]. apply winv_locks. split; [|split].
  - eapply locks_waker; [|done]. by apply winv_locks in I as [? _].
  - by eapply proc_waker.
  - by eapply woken_waker.
Qed.

Lemma winv_reach s s' : wstart s -> rtc wstep s s' -> winv s'.
Proof. intros H. apply (rtc_ind_r winv); [by apply winv_start|]. intros ? ? _ Hs I. by eapply winv_step. Qed.

(** ** The waiting process gets on by itself *)

Definition waiter_run : wst -> wst -> Prop := rtc (fun s s' => sleep_step s = Some s').

(** Steps left until [W_done] when the condition holds and nobody interferes. *)
Definition steps_left (pc : wpc) : nat :=
  match pc with
  | S_chan => 9 | S_state => 8 | S_sched => 7 | S_off => 6 | S_tidy => 4 | S_punlock => 3 | W_acquire => 2 | W_test => 1
  | _ => 0
  end.

(** No waker is in its critical section. *)
Definition idle (s : wst) : Prop := forall i, k_holds_lk (k_pc s i) = false.

Lemma idle_free s : winv s -> idle s ->
  (w_lk s = None \/ w_lk s = Some Waiter) /\ (w_plock s = None \/ w_plock s = Some Waiter) /\ ~ waking s.
Proof.
  intros [_ H2 _ H4 _ _] Hi. assert (Hp : forall i, k_holds_p (k_pc s i) = false).
  { intros i. specialize (Hi i). by destruct (k_pc s i). }
  split_and!.
  - destruct (w_lk s) as [[|i]|]; auto. exfalso. specialize (H2 i). rewrite Hi in H2. intuition congruence.
  - destruct (w_plock s) as [[|i]|]; auto. exfalso. specialize (H4 i). rewrite Hp in H4. intuition congruence.
  - intros [i Hk]. specialize (Hi i). destruct Hk as [Hk|Hk]; by rewrite Hk in Hi.
Qed.

Lemma waiter_progress s : winv s -> idle s -> w_cond s = true -> w_pc s <> W_done ->
  exists s', sleep_step s = Some s' /\ idle s' /\ w_cond s' = true /\ (steps_left (w_pc s') < steps_left (w_pc s))%nat.
Proof.
  intros I Hi Hc Hd. destruct (idle_free s I Hi) as (Hl & Hp & Hw). destruct I as [H1 _ H3 _ H5 H6].
  unfold sleep_step, proc_at, to_be_woken in *.
  destruct (w_pc s) eqn:E; cbn in H1, H3; try done; try congruence.
  - destruct Hl as [->|Hl]; [|intuition congruence]. eexists. split; [done|]. cbn. auto with lia.
  - rewrite Hc. eexists. split; [done|]. cbn. auto with lia.
  - tauto.
  - tauto.
  - tauto.
  - destruct H5 as [[Hs|Hs] _]; [tauto|]. destruct Hp as [->|Hp]; [|intuition congruence]. rewrite Hs.
    eexists. split; [done|]. cbn. auto with lia.
  - eexists. split; [done|]. cbn. auto with lia.
  - eexists. split; [done|]. cbn. auto with lia.
Qed.

(** C19: no wakeup is lost.  In every interleaving of a process that sleeps until
    a condition holds with any number of processes that set it and call [wakeup]:
    (1) when the process is asleep although the condition holds, some waker is
    still on its way to it; (2) once the condition holds and no waker is in its
    critical section, the process returns from its loop without anybody's help. *)
Theorem no_lost_wakeup s s' :
  wstart s -> rtc wstep s s' -> w_cond s' = true ->
  (w_pc s' = S_off -> p_state (w_proc s') = SLEEPING -> waking s') /\
  (idle s' -> exists s2, waiter_run s' s2 /\ w_pc s2 = W_done).
Proof.
  intros H0 Hr Hc. pose proof (winv_reach s s' H0 Hr) as I. split.
  - intros Hpc Hs. pose proof (wi_woken _ I) as H. unfold to_be_woken in H. rewrite Hpc in H. auto.
  - clear H0 Hr. intros Hi. remember (steps_left (w_pc s')) as n eqn:En. revert s' En I Hi Hc.
    induction (lt_wf n) as [n _ IH]. intros s1 En I Hi Hc. destruct (decide (w_pc s1 = W_done)) as [E|E].
    + exists s1. split; [apply rtc_refl|done].
    + destruct (waiter_progress s1 I Hi Hc E) as (s2 & Hs & Hi2 & Hc2 & Hlt).
      destruct (IH (steps_left (w_pc s2)) ltac:(lia) s2 eq_refl) as (s3 & Hr & Hd); [eapply winv_waiter; eauto|done|done|].
      exists s3. split; [by eapply rtc_l|done].
Qed.

End Protocol.

(** A waiter that falls asleep before the only waker comes. *)
Definition demo_wst : wst := Wst (zero_proc <| p_state := RUNNING |>) None None false W_acquire (fun i => if i =? 1 then K_acquire else K_done).

Lemma demo_wst_start : wstart demo_wst.
Proof. split; try done. intros i. unfold demo_wst. cbn. destruct (i =? 1); auto. Qed.

Fixpoint wrun (c : chan) (l : list actor) (s : wst) : option wst :=
  match l with
  | [] => Some s
  | a :: l => match match a with Waiter => sleep_step c s | Waker i => wakeup_step c i s end with
              | Some s' => wrun c l s'
              | None => None
              end
  end.

Lemma wrun_steps c l s s' : wrun c l s = Some s' -> rtc (wstep c) s s'.
Proof.
  revert s. induction l as [|a l IH]; intros s; cbn; [intros [= ->]; apply rtc_refl|].
  destruct a; case_match eqn:E; try done; intros H; (eapply rtc_l; [|by apply IH]); [by apply ws_waiter|by eapply ws_waker].
Qed.

Lemma no_lost_wakeup_witness :
  exists s, rtc (wstep (Chan "demo" 1)) demo_wst s /\ w_pc s = S_off /\ p_state (w_proc s) = RUNNABLE /\
    exists s2, waiter_run (Chan "demo" 1) s s2 /\ w_pc s2 = W_done.
Proof.
  assert (H : exists s, wrun (Chan "demo" 1) (replicate 7 Waiter ++ replicate 6 (Waker 1)) demo_wst = Some s /\
    w_cond s = true /\ w_pc s = S_off /\ p_state (w_proc s) = RUNNABLE /\ forall i, k_pc s i = K_done).
  { eexists. split; [vm_compute; reflexivity|]. cbn. split_and!; try done. intros i. by destruct i as [|[]|]. }
  destruct H as (s & E & Hc & Hpc & Hp & Hk). apply wrun_steps in E. exists s. split_and!; auto.
  apply (no_lost_wakeup (Chan "demo" 1) demo_wst s demo_wst_start E Hc). intros i. by rewrite Hk.
Defined.
