(* ===== verification/Pipe.v ===== *)
(** * [kernel/pipe.c] and [kernel/file.c]: pipes and open files

    A pipe is a ring of [PIPESIZE] bytes between two counters that only grow; an
    open file is an entry of [ftable] with a reference count. *)
From stdpp Require Import base list gmap strings relations.
From Stdlib Require Import ZArith Lia.
From S2P Require Import Prelude KString Riscv Kalloc Vm Sleeplock Bio Log Blocks Fs Kernel.

#[local] Open Scope Z_scope.
#[local] Open Scope xv6_scope.

Section Files.

(** [end_]: the first address after the kernel. *)
Context (end_ : Z) {S : Type} {L : BlockLayer S} {O : OpLayer S}.

Abbreviation K := (M (kst S)).

(** ** Pipes *)

Definition read_chan (pi : Z) : chan := Chan "pipe nread" pi.
Definition write_chan (pi : Z) : chan := Chan "pipe nwrite" pi.

Definition pipeclose (pi : Z) (writable : bool) : K unit :=
  pilock pi ;;
  (if writable
   then set_pipe pi (fun x => x <| pi_writeopen := false |>) ;; wakeup (read_chan pi)
   else set_pipe pi (fun x => x <| pi_readopen := false |>) ;; wakeup (write_chan pi)) ;;
  x ← get_pipe pi ;
  if negb (pi_readopen x) && negb (pi_writeopen x)
  then piunlock pi ;; in_kmem (kfree end_ pi)
  else piunlock pi.

(** The stores of one byte into the ring and of one byte out of it. *)
Definition pipe_put (ch : Z) (x : pipe) : pipe :=
  x <| pi_data := <[Z.to_nat (pi_nwrite x mod PIPESIZE) := ch]> (pi_data x) |> <| pi_nwrite := u32 (pi_nwrite x + 1) |>.
Definition pipe_get (x : pipe) : Z * pipe :=
  (default 0 (pi_data x !! Z.to_nat (pi_nread x mod PIPESIZE)), x <| pi_nread := u32 (pi_nread x + 1) |>).

Definition pipe_full (x : pipe) : bool := pi_nwrite x =? u32 (pi_nread x + PIPESIZE).
Definition pipe_empty (x : pipe) : bool := pi_nread x =? pi_nwrite x.

(** One turn of the loop of [pipewrite], with the inner loop: [inl] goes on with
    the next byte, [inr (Some r)] returns [r] at once, [inr None] leaves the loop. *)
Definition pipewrite_byte (pi addr n i : Z) : K (Z + option Z) :=
  if negb (i <? n) then ret (inr None) else
  x ← get_pipe pi ;
  p ← myproc ;
  pr ← get_proc p ;
  if pipe_full x then
    if negb (pi_readopen x) || p_killed pr then piunlock pi ;; ret (inr (Some (-1)))
    else wakeup (read_chan pi) ;; sleep (write_chan pi) (Some (piunlock pi))
  else
  r ← in_kmem (copyin (p_pagetable pr) (u64 (addr + i)) 1) ;
  let '(r, ch) := r : Z * list Z in
  if r =? -1 then ret (inr None) else
  (set_pipe pi (pipe_put (hd 0 ch)) ;; ret (inl (i + 1))).

Definition pipewrite (pi addr n : Z) : K Z :=
  pilock pi ;;
  r ← while_ (pipewrite_byte pi addr n) 0 ;
  match r with
  | Some r => ret r
  | None => wakeup (read_chan pi) ;; piunlock pi ;; ret n
  end.

Definition piperead_byte (pi addr n i : Z) : K (Z + Z) :=
  if negb (i <? n) then ret (inr i) else
  x ← get_pipe pi ;
  if pipe_empty x then ret (inr i) else
  let '(ch, x) := pipe_get x in
  set_pipe pi (fun _ => x) ;;
  p ← myproc ;
  pr ← get_proc p ;
  r ← in_kmem (copyout (p_pagetable pr) (u64 (addr + i)) [ch] 1) ;
  if r =? -1 then ret (inr i) else ret (inl (i + 1)).

Definition piperead (pi addr n : Z) : K Z :=
  pilock pi ;;
  x ← get_pipe pi ;
  p ← myproc ;
  pr ← get_proc p ;
  if pipe_empty x && pi_writeopen x then
    if p_killed pr then piunlock pi ;; ret (-1)
    else sleep (read_chan pi) (Some (piunlock pi))
  else
  i ← while_ (piperead_byte pi addr n) 0 ;
  wakeup (write_chan pi) ;;
  piunlock pi ;;
  ret i.

(** ** Open files *)

Definition fileinit : K unit := modify (fun s => s <| ft_lock := false |>).

Definition filealloc : K Z :=
  ftlock ;;
  r ← search (zseq 1 (Z.to_nat NFILE)) (fun f =>
        x ← get_file f ;
        if f_ref x =? 0 then set_file f (fun x => x <| f_ref := 1 |>) ;; ftunlock ;; ret (Some f) else ret None) ;
  match r with
  | Some f => ret f
  | None => ftunlock ;; ret 0
  end.

Definition filedup (f : Z) : K Z :=
  ftlock ;;
  x ← get_file f ;
  if f_ref x <? 1 then panic "filedup" else
  (set_file f (fun x => x <| f_ref := f_ref x + 1 |>) ;;
   ftunlock ;;
   ret f).

Definition fileclose (f : Z) : K unit :=
  ftlock ;;
  x ← get_file f ;
  if f_ref x <? 1 then panic "fileclose" else
  set_file f (fun x => x <| f_ref := f_ref x - 1 |>) ;;
  ff ← get_file f ;
  if f_ref ff >? 0 then ftunlock else
  (set_file f (fun x => x <| f_ref := 0 |> <| f_type := FD_NONE |>) ;;
   ftunlock ;;
   match f_type ff with
   | FD_PIPE => pipeclose (f_pipe ff) (f_writable ff)
   | FD_INODE | FD_DEVICE =>
       i ← gets (fun s => inodes (kfs s) (f_ip ff)) ;
       begin_op (i_dev i) ;;
       in_fs (iput (f_ip ff)) ;;
       i ← gets (fun s => inodes (kfs s) (f_ip ff)) ;
       end_op (i_dev i)
   | FD_NONE => ret tt
   end).

(** [struct stat] as bytes: [dev], [ino], [type], [nlink], padding and [size]. *)
Definition stat_bytes (st : stat) : list Z :=
  le_bytes 4 (st_dev st) ++ le_bytes 4 (st_ino st) ++ le_bytes 2 (st_type st) ++ le_bytes 2 (st_nlink st) ++
  replicate 4 0 ++ le_bytes 8 (st_size st).

Definition filestat (f addr : Z) : K Z :=
  x ← get_file f ;
  match f_type x with
  | FD_INODE | FD_DEVICE =>
      in_fs (ilock (f_ip x)) ;;
      st ← in_fs (stati (f_ip x)) ;
      in_fs (iunlock (f_ip x)) ;;
      p ← myproc ;
      pr ← get_proc p ;
      r ← in_kmem (copyout (p_pagetable pr) addr (stat_bytes st) 24) ;
      ret (if r <? 0 then -1 else 0)
  | _ => ret (-1)
  end.

(** The device switch: [devsw[major]]. *)
Record devsw : Type := Devsw {
  dev_read : Z -> option (bool -> Z -> Z -> K Z);
  dev_write : Z -> option (bool -> Z -> Z -> K Z);
}.

Definition fileread (dv : devsw) (f addr n : Z) : K Z :=
  x ← get_file f ;
  if negb (f_readable x) then ret (-1) else
  match f_type x with
  | FD_PIPE => piperead (f_pipe x) addr n
  | FD_DEVICE =>
      if (f_major x <? 0) || (f_major x >=? NDEV) then ret (-1) else
      match dev_read dv (f_major x) with
      | None => ret (-1)
      | Some rd => rd true addr n
      end
  | FD_INODE =>
      in_fs (ilock (f_ip x)) ;;
      r ← in_fs (readi (f_ip x) true addr (f_off x) (u32 n)) ;
      (if r >? 0 then set_file f (fun x => x <| f_off := u32 (f_off x + r) |>) else ret tt) ;;
      in_fs (iunlock (f_ip x)) ;;
      ret r
  | FD_NONE => panic "fileread"
  end.

(** The largest part of a write that goes into one transaction. *)
Definition write_max : Z := (MAXOPBLOCKS - 1 - 1 - 2) / 2 * BSIZE.

(** One turn of the loop of [filewrite]. *)
Definition filewrite_part (f addr n i : Z) : K (Z + Z) :=
  if negb (i <? n) then ret (inr i) else
  let n1 := if n - i >? write_max then write_max else n - i in
  x ← get_file f ;
  d ← gets (fun s => i_dev (inodes (kfs s) (f_ip x))) ;
  begin_op d ;;
  in_fs (ilock (f_ip x)) ;;
  r ← in_fs (writei (f_ip x) true (u64 (addr + i)) (f_off x) n1) ;
  (if r >? 0 then set_file f (fun x => x <| f_off := u32 (f_off x + r) |>) else ret tt) ;;
  in_fs (iunlock (f_ip x)) ;;
  end_op d ;;
  if r <? 0 then ret (inr i) else
  if negb (r =? n1) then panic "short filewrite" else ret (inl (i + r)).

Definition filewrite (dv : devsw) (f addr n : Z) : K Z :=
  x ← get_file f ;
  if negb (f_writable x) then ret (-1) else
  match f_type x with
  | FD_PIPE => pipewrite (f_pipe x) addr n
  | FD_DEVICE =>
      if (f_major x <? 0) || (f_major x >=? NDEV) then ret (-1) else
      match dev_write dv (f_major x) with
      | None => ret (-1)
      | Some wr => wr true addr n
      end
  | FD_INODE =>
      i ← while_ (filewrite_part f addr n) 0 ;
      ret (if i =? n then n else -1)
  | FD_NONE => panic "filewrite"
  end.

(** The stores into the page of a new pipe; the bytes of the page are 5s. *)
Definition new_pipe : pipe :=
  {| pi_readopen := true; pi_writeopen := true; pi_nwrite := 0; pi_nread := 0; pi_lock := false;
     pi_data := replicate (Z.to_nat PIPESIZE) 5 |}.

(** [pipealloc]: the two files, or the error return. *)
Definition pipealloc : K (option (Z * Z)) :=
  let bad pi f0 f1 :=
    (if pi =? 0 then ret tt else in_kmem (kfree end_ pi)) ;;
    (if f0 =? 0 then ret tt else fileclose f0) ;;
    (if f1 =? 0 then ret tt else fileclose f1) ;;
    ret None in
  f0 ← filealloc ;
  if f0 =? 0 then bad 0 0 0 else
  f1 ← filealloc ;
  if f1 =? 0 then bad 0 f0 0 else
  pi ← in_kmem kalloc ;
  if pi =? 0 then bad 0 f0 f1 else
  (set_pipe pi (fun _ => new_pipe) ;;
   set_file f0 (fun x => x <| f_type := FD_PIPE |> <| f_readable := true |> <| f_writable := false |> <| f_pipe := pi |>) ;;
   set_file f1 (fun x => x <| f_type := FD_PIPE |> <| f_readable := false |> <| f_writable := true |> <| f_pipe := pi |>) ;;
   ret (Some (f0, f1))).

End Files.

(** ** The ring as a queue *)

(** The number of bytes in the pipe; the counters wrap around. *)
Definition pipe_len (x : pipe) : Z := u32 (pi_nwrite x - pi_nread x).

(** The bytes in the pipe, oldest first. *)
Definition pipe_queue (x : pipe) : list Z :=
  (fun j => default 0 (pi_data x !! Z.to_nat ((pi_nread x + j) mod PIPESIZE))) <$> zseq 0 (Z.to_nat (pipe_len x)).

Record pipe_wf (x : pipe) : Prop := {
  pw_data : length (pi_data x) = Z.to_nat PIPESIZE;
  pw_read : 0 <= pi_nread x < 2 ^ 32;
  pw_write : 0 <= pi_nwrite x < 2 ^ 32;
  pw_len : pipe_len x <= PIPESIZE;
  pw_byte : Forall is_byte (pi_data x);
}.

Ltac pilia := unfold pipe_len, PIPESIZE in *; zlia.

Lemma length_pipe_queue x : length (pipe_queue x) = Z.to_nat (pipe_len x).
Proof. unfold pipe_queue. by rewrite length_fmap, length_zseq. Qed.

Lemma pipe_full_len x : pipe_wf x -> pipe_full x = true <-> pipe_len x = PIPESIZE.
Proof. intros [_ H1 H2 H3 _]. unfold pipe_full. rewrite Z.eqb_eq. pilia. Qed.

Lemma pipe_empty_len x : pipe_wf x -> pipe_empty x = true <-> pipe_queue x = [].
Proof.
  intros [_ H1 H2 H3 _]. unfold pipe_empty. rewrite Z.eqb_eq. split.
  - intros E. apply nil_length_inv. rewrite length_pipe_queue. pilia.
  - intros E. apply (f_equal length) in E. rewrite length_pipe_queue in E. cbn in E. pilia.
Qed.

Lemma pipe_put_queue x ch :
  pipe_wf x -> is_byte ch -> pipe_full x = false -> pipe_wf (pipe_put ch x) /\ pipe_queue (pipe_put ch x) = pipe_queue x ++ [ch].
Proof.
  intros W Hch Hf. assert (Hlt : pipe_len x < PIPESIZE).
  { pose proof (pw_len _ W). destruct (decide (pipe_len x = PIPESIZE)) as [E|]; [|lia]. apply (pipe_full_len x W) in E. congruence. }
  destruct W as [H0 H1 H2 H3 H4].
  assert (El : pipe_len (pipe_put ch x) = pipe_len x + 1) by (unfold pipe_put, pipe_len in *; cbn; pilia).
  split; [split; [cbn; by rewrite length_insert|done|cbn; zlia|lia|by apply Forall_insert]|].
  unfold pipe_queue. rewrite El. replace (Z.to_nat (pipe_len x + 1)) with (Z.to_nat (pipe_len x) + 1)%nat by pilia.
  rewrite zseq_app, fmap_app. f_equal.
  - apply fmap_zseq_ext. intros j Hj. cbn. rewrite list_lookup_insert_ne; [done|]. pilia.
  - cbn [zseq fmap list_fmap]. f_equal. change (pi_nread (pipe_put ch x)) with (pi_nread x).
    assert (E : (pi_nread x + (0 + Z.of_nat (Z.to_nat (pipe_len x)))) mod PIPESIZE = pi_nwrite x mod PIPESIZE) by pilia.
    rewrite E. unfold pipe_put. cbn [pi_data field_update]. rewrite list_lookup_insert_eq; [done|]. rewrite H0. pilia.
Qed.

Lemma pipe_get_queue x :
  pipe_wf x -> pipe_empty x = false ->
  pipe_wf (pipe_get x).2 /\ pipe_queue x = (pipe_get x).1 :: pipe_queue (pipe_get x).2.
Proof.
  intros W He. pose proof W as [H0 H1 H2 H3 H4]. assert (Hp : 0 < pipe_len x).
  { unfold pipe_empty in He. apply Z.eqb_neq in He. pilia. }
  assert (El : pipe_len (pipe_get x).2 = pipe_len x - 1) by (unfold pipe_get, pipe_len in *; cbn; pilia).
  split; [split; cbn -[pipe_len]; [done|zlia|done|cbn in El; lia|done]|].
  unfold pipe_queue. rewrite El. replace (Z.to_nat (pipe_len x)) with (Datatypes.S (Z.to_nat (pipe_len x - 1))) by lia.
  cbn [zseq fmap list_fmap]. f_equal; [by rewrite Z.add_0_r|].
  apply list_eq. intros j. rewrite !list_lookup_fmap. destruct (decide (j < Z.to_nat (pipe_len x - 1))%nat) as [Hj|Hj].
  - rewrite !zseq_lookup by done. cbn. do 3 f_equal. pilia.
  - rewrite !lookup_ge_None_2; [done|rewrite length_zseq; lia..].
Qed.

(** A full pipe has [PIPESIZE] bytes. *)
Lemma pipe_room x : pipe_wf x -> Z.of_nat (length (pipe_queue x)) < PIPESIZE -> pipe_full x = false.
Proof.
  intros W H. destruct (pipe_full x) eqn:E; [|done]. apply (pipe_full_len x W) in E.
  rewrite length_pipe_queue in H. unfold PIPESIZE in *. lia.
Qed.

Lemma pipe_queue_byte x : pipe_wf x -> Forall is_byte (pipe_queue x).
Proof.
  intros [H0 _ _ _ Hb]. apply Forall_fmap, Forall_forall. intros j _. cbn.
  destruct (pi_data x !! _) as [b|] eqn:E; [|by vm_compute]. rewrite Forall_lookup in Hb. exact (Hb _ _ E).
Qed.

Lemma new_pipe_wf : pipe_wf new_pipe /\ pipe_queue new_pipe = [].
Proof. split; [|done]. split; [done..|]. by apply Forall_replicate. Qed.
