(* ===== verification/PipeProps.v ===== *)
(** * Properties of pipes

    What a pipe delivers: the bytes written and not yet read, in order, for every
    interleaving of writers and readers, and the transfer from one process to
    another. *)
From stdpp Require Import base list gmap strings relations.
From Stdlib Require Import ZArith Lia.
From S2P Require Import Prelude KString Riscv Kalloc Vm VmSpec VmUser VmCopy VmProps Sleeplock Bio Log Blocks Fs FsProps Kernel Pipe.

#[local] Open Scope Z_scope.
#[local] Open Scope xv6_scope.

Section Interleaving.

Context (end_ : Z) {S : Type} {L : BlockLayer S} {O : OpLayer S}.

(** A run of the pipe [pi] with the bytes put into it and taken out of it so far.
    A step is one turn of the loop of [pipewrite] or of [piperead] in any process,
    or something else that leaves the ring alone: scheduling, another handler,
    [pipeclose]. *)
Definition prun : Type := kst S * list Z * list Z.

Inductive pstep (pi : Z) : prun -> prun -> Prop :=
| ps_write s s' addr n i ch k ins outs :
    copyin (p_pagetable (procs s (cur s))) (u64 (addr + i)) 1 (fs_mem (kfs s)) = Ok (0, [ch]) k -> is_byte ch ->
    pipewrite_byte pi addr n i s = Ok (inl (i + 1)) s' -> pstep pi (s, ins, outs) (s', ins ++ [ch], outs)
| ps_read s s' addr n i r ins outs :
    i < n -> pipe_empty (pipes s pi) = false ->
    piperead_byte pi addr n i s = Ok r s' -> pstep pi (s, ins, outs) (s', ins, outs ++ [(pipe_get (pipes s pi)).1])
| ps_other s s' ins outs :
    pi_data (pipes s' pi) = pi_data (pipes s pi) -> pi_nread (pipes s' pi) = pi_nread (pipes s pi) ->
    pi_nwrite (pipes s' pi) = pi_nwrite (pipes s pi) -> pstep pi (s, ins, outs) (s', ins, outs).

(** Nothing is lost, nothing is reordered, and the ring never overflows. *)
Definition fifo (pi : Z) (r : prun) : Prop :=
  let '(s, ins, outs) := r in pipe_wf (pipes s pi) /\ outs ++ pipe_queue (pipes s pi) = ins.

Lemma pipe_queue_same x y :
  pi_data y = pi_data x -> pi_nread y = pi_nread x -> pi_nwrite y = pi_nwrite x ->
  (pipe_wf x -> pipe_wf y) /\ pipe_queue y = pipe_queue x.
Proof.
  intros H1 H2 H3. unfold pipe_queue, pipe_len. rewrite H1, H2, H3. split; [|done].
  intros [A B C D E]. split; unfold pipe_len; by rewrite ?H1, ?H2, ?H3.
Qed.

Lemma pipewrite_byte_inv pi addr n i (s s' : kst S) :
  pipewrite_byte pi addr n i s = Ok (inl (i + 1)) s' ->
  pipe_full (pipes s pi) = false /\
  exists r ch k, copyin (p_pagetable (procs s (cur s))) (u64 (addr + i)) 1 (fs_mem (kfs s)) = Ok (r, ch) k /\
    pipes s' pi = pipe_put (hd 0 ch) (pipes s pi).
Proof.
  unfold pipewrite_byte. destruct (i <? n); cbn [negb]; [|done]. unfold bind at 1 2 3, get_pipe, myproc, get_proc, gets.
  destruct (pipe_full (pipes s pi)).
  - destruct (_ || _); intros H; apply bind_Ok_inv in H as ([] & s1 & _ & H); [done|]. by apply sleep_stops in H.
  - intros H. apply bind_Ok_inv in H as ([r ch] & s1 & H1 & H). apply in_kmem_inv in H1 as (k & Ek & ->).
    split; [done|]. exists r, ch, k. split; [done|]. destruct (r =? -1); [done|]. injection H as <-. cbn. by rewrite upd_same.
Qed.

Lemma piperead_byte_inv pi addr n i (s s' : kst S) r :
  i < n -> pipe_empty (pipes s pi) = false -> piperead_byte pi addr n i s = Ok r s' -> pipes s' pi = (pipe_get (pipes s pi)).2.
Proof.
  intros Hi He. unfold piperead_byte. rewrite (proj2 (Z.ltb_lt _ _) Hi). cbn [negb]. unfold bind at 1, get_pipe, gets.
  rewrite He. destruct (pipe_get (pipes s pi)) as [ch x] eqn:Eg. unfold bind at 1 2 3, set_pipe, modify, myproc, get_proc, gets.
  intros H. apply bind_Ok_inv in H as (r1 & s1 & H1 & H). apply in_kmem_inv in H1 as (k & _ & ->).
  destruct (r1 =? -1); injection H as _ <-; cbn [pipes field_update]; by rewrite upd_same.
Qed.

Lemma fifo_step pi r r' : fifo pi r -> pstep pi r r' -> fifo pi r'.
Proof.
  intros F H. destruct H as [s s' addr n i ch k ins outs Hc Hb H|s s' addr n i r ins outs Hi He H|s s' ins outs H1 H2 H3];
    destruct F as [W Q]; unfold fifo.
  - apply pipewrite_byte_inv in H as (Hf & r & ch' & k' & E & ->). rewrite Hc in E. injection E as <- <- <-.
    cbn [hd]. destruct (pipe_put_queue _ ch W Hb Hf) as [W' Q']. by rewrite Q', app_assoc, Q.
  - apply piperead_byte_inv in H as ->; [|done..]. destruct (pipe_get_queue _ W He) as [W' Q'].
    split; [done|]. rewrite <- app_assoc. cbn [app]. by rewrite <- Q'.
  - destruct (pipe_queue_same (pipes s pi) (pipes s' pi)) as [A B]; [done..|]. rewrite B. auto.
Qed.

(** Both files of a pipe lead to it. *)
Lemma pipe_files (fs : Z -> file) g0 g1 a b pi :
  f_pipe a = pi -> f_pipe b = pi -> f_pipe (upd (upd fs g0 a) g1 b g0) = pi.
Proof. intros Ha Hb. unfold upd. rewrite Z.eqb_refl. by destruct (g0 =? g1). Qed.

(** A pipe just made is empty. *)
Lemma pipealloc_empty (s s' : kst S) f0 f1 :
  pipealloc end_ s = Ok (Some (f0, f1)) s' ->
  let pi := f_pipe (files s' f0) in f_pipe (files s' f1) = pi /\ pipe_wf (pipes s' pi) /\ pipe_queue (pipes s' pi) = [].
Proof.
  unfold pipealloc. intros H. apply bind_Ok_inv in H as (g0 & s1 & _ & H). destruct (g0 =? 0); [do 3 apply bind_Ok_inv in H as (? & ? & _ & H); done|].
  apply bind_Ok_inv in H as (g1 & s2 & _ & H). destruct (g1 =? 0); [do 3 apply bind_Ok_inv in H as (? & ? & _ & H); done|].
  apply bind_Ok_inv in H as (pi & s3 & _ & H). destruct (pi =? 0); [do 3 apply bind_Ok_inv in H as (? & ? & _ & H); done|].
  unfold bind, set_pipe, set_file, modify, ret in H. injection H as <- <- <-. cbn [files pipes field_update].
  cbv zeta. rewrite (pipe_files _ g0 g1 _ _ pi) by done. rewrite !upd_same. split; [done|apply new_pipe_wf].
Qed.

(** C21: a pipe is a first-in first-out queue of at most [PIPESIZE] bytes.  From
    [pipealloc] on, for every interleaving of the turns of [pipewrite] and
    [piperead] in any processes, and of everything else that does not touch the
    ring, the bytes taken out followed by the bytes in the ring are the bytes put
    in: none is lost, repeated, reordered or overwritten, also when the 32-bit
    counters wrap around. *)
Theorem pipe_fifo (s0 s1 s2 : kst S) f0 f1 ins outs :
  pipealloc end_ s0 = Ok (Some (f0, f1)) s1 ->
  let pi := f_pipe (files s1 f0) in
  rtc (pstep pi) (s1, [], []) (s2, ins, outs) ->
  outs ++ pipe_queue (pipes s2 pi) = ins /\ Z.of_nat (length (pipe_queue (pipes s2 pi))) <= PIPESIZE.
Proof.
  intros H pi Hr. apply pipealloc_empty in H as (_ & W & Q).
  assert (F : fifo pi (s2, ins, outs)).
  { revert Hr. apply (rtc_ind_r (fifo pi)); [by split|]. intros r r' _ Hs F. by eapply fifo_step. }
  destruct F as [W' <-]. split; [done|]. rewrite length_pipe_queue. pose proof (pw_len _ W'). unfold PIPESIZE in *. lia.
Qed.

End Interleaving.

(** ** From one process to another *)

Section Transfer.

Context (end_ : Z) (end_pos : 0 < end_) {S : Type} {L : BlockLayer S} {O : OpLayer S}.

(** The pipe [x'] is [x] with another ring. *)
Record same_ends (x x' : pipe) : Prop := {
  se_lock : pi_lock x' = pi_lock x;
  se_read : pi_readopen x' = pi_readopen x;
  se_write : pi_writeopen x' = pi_writeopen x;
}.

(** The process runs in the address space of [fr]. *)
Definition runs_in (s : kst S) (l : list Z) (root : Z) (T : gmap Z (nat * Z)) (fr : list (Z * Z)) : Prop :=
  umem end_ (fs_mem (kfs s)) l root T fr /\ p_pagetable (procs s (cur s)) = root.

Section Writer.

Context (s : kst S) (l : list Z) (root : Z) (T : gmap Z (nat * Z)) (fr : list (Z * Z)) (pi addr n : Z).
Hypothesis R : runs_in s l root T fr.
Hypothesis Ha : 0 <= addr.
Hypothesis Hacc : accessible fr addr n.

Abbreviation k := (fs_mem (kfs s)).

Lemma user_addr i : 0 <= i < n -> u64 (addr + i) = addr + i.
Proof.
  intros Hi. destruct (Hacc i Hi) as [a E]. unfold uaddr in E. destruct (user_frame fr (addr + i)) eqn:F; [|done].
  pose proof (user_frame_max end_ _ _ _ _ _ (proj1 R) (addr + i) _ ltac:(lia) F). pose proof TRAPFRAME_MAXVA as HM.
  change MAXVA with (2 ^ 38) in HM. apply u64_small. lia.
Qed.

Lemma accessible_at i : 0 <= i < n -> accessible fr (addr + i) 1.
Proof. intros Hi j Hj. replace (addr + i + j) with (addr + (i + j)) by lia. apply Hacc. lia. Qed.

(** One turn of the loop of [pipewrite]. *)
Lemma pipewrite_turn pis i :
  0 <= i < n -> pipe_full (pis pi) = false ->
  pipewrite_byte pi addr n i (s <| pipes := pis |>) =
  Ok (inl (i + 1)) (s <| pipes := upd pis pi (pipe_put (hd 0 (ubytes k fr (addr + i) 1)) (pis pi)) |>).
Proof.
  intros Hi Hf. destruct R as [U Er]. unfold pipewrite_byte. rewrite (proj2 (Z.ltb_lt i n)) by lia. cbn [negb].
  unfold bind at 1 2 3, get_pipe, myproc, get_proc, gets. cbn [pipes procs cur field_update]. rewrite Hf, Er, user_addr by done.
  pose proof (copyin_spec end_ end_pos _ _ _ _ _ U (addr + i) 1) as H.
  apply wp_Ok in H as ([r ch] & k' & E & -> & [[Eq _]|[_ Hn]]); [|by destruct Hn; apply accessible_at|lia|done].
  injection Eq as -> ->. unfold bind at 1. 
  match goal with |- context [in_kmem ?m ?x] => rewrite (in_kmem_read m _ x E) end.
  reflexivity.
Qed.

Lemma pipewrite_loop pis :
  0 <= n -> pipe_wf (pis pi) -> Z.of_nat (length (pipe_queue (pis pi))) + n <= PIPESIZE ->
  wp (while_ (pipewrite_byte pi addr n) 0) (fun r s' => r = None /\ exists pis', s' = s <| pipes := pis' |> /\
    (forall q, q <> pi -> pis' q = pis q) /\ same_ends (pis pi) (pis' pi) /\ pipe_wf (pis' pi) /\
    pipe_queue (pis' pi) = pipe_queue (pis pi) ++ ubytes k fr addr n) (s <| pipes := pis |>).
Proof.
  intros Hn W Hlen.
  apply (wp_while _ (fun i s' => 0 <= i <= n /\ exists pis', s' = s <| pipes := pis' |> /\
    (forall q, q <> pi -> pis' q = pis q) /\ same_ends (pis pi) (pis' pi) /\ pipe_wf (pis' pi) /\
    pipe_queue (pis' pi) = pipe_queue (pis pi) ++ ubytes k fr addr i) _ (fun i => n - i)).
  - intros i s' (Hi & pis' & -> & H1 & [H2 H3 H4] & H5 & H6). destruct (decide (i < n)) as [Hlt|Hge].
    + assert (Hf : pipe_full (pis' pi) = false).
      { apply pipe_room; [done|]. rewrite H6, length_app, length_ubytes. lia. }
      unfold wp. rewrite pipewrite_turn by (done || lia). split; [|lia]. split; [lia|]. eexists. split; [reflexivity|].
      rewrite upd_same. split; [intros q Hq; rewrite upd_other by done; auto|]. split; [done|].
      destruct (pipe_put_queue (pis' pi) (hd 0 (ubytes k fr (addr + i) 1)) H5) as [A B]; [|done|].
      { cbn. apply (ki_ram _ _ _ (vr_kmem _ _ _ _ _ (um_rep _ _ _ _ _ _ (proj1 R)))). }
      split; [done|]. rewrite B, H6, (ubytes_app k fr addr i 1), <- app_assoc by lia. done.
    + assert (i = n) as -> by lia. unfold pipewrite_byte. rewrite Z.ltb_irrefl. cbn [negb]. apply wp_ret. split; [done|].
      by exists pis'.
  - split; [lia|]. exists pis. split_and!; auto; [done|]. cbn. by rewrite app_nil_r.
  - intros i s' [Hi _]. lia.
  - unfold PIPESIZE in *. lia.
Qed.

End Writer.

Section Reader.

Context (s : kst S) (l : list Z) (root : Z) (T : gmap Z (nat * Z)) (fr : list (Z * Z)) (pi addr n : Z) (q0 : list Z).
Hypothesis R : runs_in s l root T fr.
Hypothesis Ha : 0 <= addr.
Hypothesis Hq0 : Forall is_byte q0.
Hypothesis Hacc : accessible fr addr (Z.min n (Z.of_nat (length q0))).

Abbreviation k := (fs_mem (kfs s)).
Abbreviation with_mem pis k' := (s <| pipes := pis |> <| kfs := (kfs s) <| fs_mem := k' |> |>).

(** The first [i] bytes of the queue have been delivered. *)
Record delivered (i : Z) (pis : Z -> pipe) (k' : kmem) : Prop := {
  dl_wf : pipe_wf (pis pi);
  dl_queue : pipe_queue (pis pi) = drop (Z.to_nat i) q0;
  dl_mem : umem end_ k' l root T fr;
  dl_wrote : wrote fr k k' addr (take (Z.to_nat i) q0) i;
}.

(** One turn of the loop of [piperead]. *)
Lemma piperead_turn pis k' i :
  0 <= i < Z.min n (Z.of_nat (length q0)) -> delivered i pis k' ->
  exists k2 ch, piperead_byte pi addr n i (with_mem pis k') =
    Ok (inl (i + 1)) (with_mem (upd pis pi (pipe_get (pis pi)).2) k2) /\
    delivered (i + 1) (upd pis pi (pipe_get (pis pi)).2) k2 /\ q0 !! Z.to_nat i = Some ch.
Proof.
  intros Hi [W Q U Wr]. destruct R as [_ Er]. destruct (lookup_lt_is_Some_2 q0 (Z.to_nat i)) as [ch Ech]; [lia|].
  rewrite (drop_S _ _ _ Ech) in Q.
  assert (He : pipe_empty (pis pi) = false).
  { destruct (pipe_empty (pis pi)) eqn:E; [|done]. apply (pipe_empty_len _ W) in E. by rewrite E in Q. }
  pose proof (pipe_get_queue _ W He) as [W' Q']. revert W' Q'. destruct (pipe_get (pis pi)) as [ch' x] eqn:Eg. cbn [Datatypes.fst Datatypes.snd].
  intros W' Q'. rewrite Q' in Q. injection Q as -> Q2.
  assert (Hb : is_byte ch) by (by eapply Forall_lookup_1 in Ech).
  pose proof (copyout_spec end_ end_pos _ _ _ _ _ U (addr + i) [ch] 1) as H.
  apply wp_Ok in H as (r & k2 & E & U2 & [(-> & _ & Wr2)|(_ & Hn & _)]);
    [|destruct Hn; intros j Hj; replace (addr + i + j) with (addr + i) by lia; by apply Hacc|lia|cbn; lia|done|by constructor].
  exists k2, ch. split; [|split; [|done]].
  - unfold piperead_byte. rewrite (proj2 (Z.ltb_lt i n)) by lia. cbn [negb]. unfold bind at 1, get_pipe, gets.
    cbn [pipes field_update]. rewrite He, Eg.
    unfold bind at 1 2 3, set_pipe, modify, myproc, get_proc, gets. cbn [procs cur pipes field_update snd]. rewrite Er.
    rewrite (user_addr s l root T fr addr (Z.min n (Z.of_nat (length q0)))) by (done || split; done).
    unfold bind at 1. match goal with |- context [in_kmem ?m ?x] => rewrite (in_kmem_Ok m _ k2 x E) end. reflexivity.
  - split; [by rewrite upd_same| |done|].
    + rewrite upd_same, Q2. f_equal. lia.
    + replace (Z.to_nat (i + 1)) with (Datatypes.S (Z.to_nat i)) by lia. rewrite (take_S_r _ _ _ Ech). apply (wrote_trans end_ k k' k2 l root T fr addr i 1 _ [ch] U); auto; try lia.
      * rewrite length_take. lia.
      * intros j Hj. apply Hacc. lia.
      * cbn. lia.
Qed.

Lemma piperead_loop pis :
  0 <= n < 2 ^ 31 -> pipe_wf (pis pi) -> pipe_queue (pis pi) = q0 ->
  let d := Z.min n (Z.of_nat (length q0)) in
  wp (while_ (piperead_byte pi addr n) 0) (fun r s' => r = d /\ exists pis' k', s' = with_mem pis' k' /\
    delivered d pis' k' /\ same_ends (pis pi) (pis' pi) /\ forall q, q <> pi -> pis' q = pis q) (with_mem pis k).
Proof.
  intros Hn W Q d.
  apply (wp_while _ (fun i s' => 0 <= i <= d /\ exists pis' k', s' = with_mem pis' k' /\
    delivered i pis' k' /\ same_ends (pis pi) (pis' pi) /\ forall q, q <> pi -> pis' q = pis q) _ (fun i => d - i)).
  - intros i s' (Hi & pis' & k' & -> & D & [E1 E2 E3] & H). destruct (decide (i < d)) as [Hlt|Hge].
    + destruct (piperead_turn pis' k' i) as (k2 & ch & E & D2 & _); [lia|done|]. unfold wp. rewrite E. split; [|lia].
      split; [lia|]. exists (upd pis' pi (pipe_get (pis' pi)).2), k2. split; [done|]. split; [done|]. rewrite upd_same.
      split; [split; done|]. intros q Hq. rewrite upd_other by done. auto.
    + assert (i = d) as -> by lia. assert (Hs : piperead_byte pi addr n d (with_mem pis' k') = Ok (inr d) (with_mem pis' k')).
      { unfold piperead_byte. destruct (Z.ltb_spec d n) as [Hdn|]; cbn [negb]; [|done]. unfold bind at 1, get_pipe, gets.
        cbn [pipes field_update]. rewrite (proj2 (pipe_empty_len _ (dl_wf _ _ _ D))); [done|].
        rewrite (dl_queue _ _ _ D). apply drop_ge. lia. }
      unfold wp. rewrite Hs. split; [done|]. by exists pis', k'.
  - split; [lia|]. exists pis, k. split; [done|]. split; [|done]. split; [done|done|apply R|]. split; [intros; lia|done].
  - intros i s' [Hi _]. lia.
  - lia.
Qed.

End Reader.

(** What the other processes see of a call: a [wakeup]. *)
Definition woken_procs (c : chan) (s s' : kst S) : Prop :=
  forall p, procs s' p = if decide (1 <= p <= NPROC) then woken c (procs s p) else procs s p.

Lemma piunlock_spec pi (s : kst S) :
  pi_lock (pipes s pi) = true ->
  exists s', piunlock pi s = Ok tt s' /\ kfs s' = kfs s /\ procs s' = procs s /\ pi_lock (pipes s' pi) = false /\
    (pipe_wf (pipes s pi) -> pipe_wf (pipes s' pi)) /\ pipe_queue (pipes s' pi) = pipe_queue (pipes s pi).
Proof.
  intros Hl. unfold piunlock, lock_off. rewrite Hl. eexists. split; [reflexivity|]. split; [done|]. split; [done|].
  unfold field_update. cbn [pipes]. rewrite upd_same. split; [done|]. by apply pipe_queue_same.
Qed.

Lemma pipewrite_spec s l root T fr pi addr n :
  runs_in s l root T fr -> 0 <= addr -> 0 <= n -> accessible fr addr n -> unlocked_procs s ->
  pi_lock (pipes s pi) = false -> pipe_wf (pipes s pi) -> Z.of_nat (length (pipe_queue (pipes s pi))) + n <= PIPESIZE ->
  exists s', pipewrite pi addr n s = Ok n s' /\ kfs s' = kfs s /\ woken_procs (read_chan pi) s s' /\
    pi_lock (pipes s' pi) = false /\ pipe_wf (pipes s' pi) /\
    pipe_queue (pipes s' pi) = pipe_queue (pipes s pi) ++ ubytes (fs_mem (kfs s)) fr addr n.
Proof.
  intros R Ha Hn Hacc Hu Hl W Hlen. unfold pipewrite, bind at 1, pilock, lock_on. rewrite Hl.
  set (s1 := _ <| k_noff := _ |>).
  assert (R1 : runs_in s1 l root T fr) by done.
  pose proof (pipewrite_loop s1 l root T fr pi addr n R1 Ha Hacc (pipes s1) Hn) as H.
  replace (s1 <| pipes := pipes s1 |>) with s1 in H by (by destruct s).
  assert (Ep : pipes s1 pi = (pipes s pi) <| pi_lock := true |>) by apply upd_same. rewrite Ep in H.
  destruct (pipe_queue_same (pipes s pi) ((pipes s pi) <| pi_lock := true |>)) as [W1 Q1]; [done..|]. rewrite Q1 in H.
  apply wp_Ok in H as (r & s2 & E & -> & pis & -> & _ & [El Er Ew] & W2 & Q2); [|auto|done].
  unfold bind at 1. rewrite E. unfold bind at 1.
  destruct (wakeup_spec (read_chan pi) (s1 <| pipes := pis |>)) as (pr & -> & Hpr); [exact Hu|].
  unfold bind at 1.
  match goal with |- context [piunlock _ ?x] => destruct (piunlock_spec pi x) as (s3 & -> & A1 & A2 & A3 & A4 & A5); [exact El|] end.
  exists s3. split; [done|]. rewrite A1, A5. unfold woken_procs. rewrite A2.
  split_and!; [done|exact Hpr|done|auto|exact Q2].
Qed.

Lemma piperead_spec s l root T fr pi addr n :
  let q := pipe_queue (pipes s pi) in let d := Z.min n (Z.of_nat (length q)) in
  runs_in s l root T fr -> 0 <= addr -> 0 <= n < 2 ^ 31 -> accessible fr addr d -> unlocked_procs s ->
  pi_lock (pipes s pi) = false -> pipe_wf (pipes s pi) -> q <> [] ->
  exists s', piperead pi addr n s = Ok d s' /\ woken_procs (write_chan pi) s s' /\
    pi_lock (pipes s' pi) = false /\ pipe_wf (pipes s' pi) /\ pipe_queue (pipes s' pi) = drop (Z.to_nat d) q /\
    umem end_ (fs_mem (kfs s')) l root T fr /\ wrote fr (fs_mem (kfs s)) (fs_mem (kfs s')) addr (take (Z.to_nat d) q) d.
Proof.
  intros q d R Ha Hn Hacc Hu Hl W Hq. unfold piperead, bind at 1, pilock, lock_on. rewrite Hl.
  set (s1 := _ <| k_noff := _ |>).
  assert (R1 : runs_in s1 l root T fr) by done.
  destruct (pipe_queue_same (pipes s pi) ((pipes s pi) <| pi_lock := true |>)) as [W1 Q1]; [done..|]. fold q in Q1.
  pose proof (piperead_loop s1 l root T fr pi addr n q R1 Ha (pipe_queue_byte _ W) Hacc (pipes s1) Hn) as H.
  replace (s1 <| pipes := pipes s1 |> <| kfs := _ |>) with s1 in H by (by destruct s as [[]]).
  assert (Ep : pipes s1 pi = (pipes s pi) <| pi_lock := true |>) by apply upd_same. rewrite Ep in H. cbv zeta in H. fold d in H.
  apply wp_Ok in H as (r & s2 & E & -> & pis & k' & -> & [W2 Q2 U2 Wr] & [El Er Ew] & _); [|auto|done].
  unfold bind at 1 2 3, get_pipe, myproc, get_proc, gets. rewrite Ep.
  destruct (pipe_empty _) eqn:Ee; [apply pipe_empty_len in Ee; [congruence|auto]|]. cbn [andb]. fold s1.
  unfold bind at 1. rewrite E. unfold bind at 1.
  match goal with |- context [wakeup _ ?x] => destruct (wakeup_spec (write_chan pi) x) as (pr & -> & Hpr); [exact Hu|] end.
  unfold bind at 1.
  match goal with |- context [piunlock _ ?x] => destruct (piunlock_spec pi x) as (s3 & -> & A1 & A2 & A3 & A4 & A5); [exact El|] end.
  exists s3. split; [done|]. rewrite A1, A5. unfold woken_procs. rewrite A2.
  split_and!; [exact Hpr|done|auto|exact Q2|exact U2|exact Wr].
Qed.

(** A pipe carries bytes from one process to another.  When the ring has
    room for the [n] bytes, [pipewrite] returns [n] and makes every process that
    sleeps on the reading end runnable; [piperead] in another process then returns
    as many bytes as it asked for or as there are, delivers the oldest ones to its
    memory in order and writes nothing else, leaves the rest in the pipe, and wakes
    the writers. *)
Theorem pipe_transfer s l rp Tp frp rq Tq frq q pi addr n addr' m :
  runs_in s l rp Tp frp -> runs_in (s <| cur := q |>) l rq Tq frq -> unlocked_procs s ->
  0 <= addr -> 0 <= addr' -> 0 < n -> 0 <= m < 2 ^ 31 -> accessible frp addr n ->
  pi_lock (pipes s pi) = false -> pipe_wf (pipes s pi) -> Z.of_nat (length (pipe_queue (pipes s pi))) + n <= PIPESIZE ->
  let bs := pipe_queue (pipes s pi) ++ ubytes (fs_mem (kfs s)) frp addr n in
  let d := Z.min m (Z.of_nat (length bs)) in
  accessible frq addr' d ->
  exists s1 s2, pipewrite pi addr n s = Ok n s1 /\ woken_procs (read_chan pi) s s1 /\
    piperead pi addr' m (s1 <| cur := q |>) = Ok d s2 /\ woken_procs (write_chan pi) s1 s2 /\
    ubytes (fs_mem (kfs s2)) frq addr' d = take (Z.to_nat d) bs /\ pipe_queue (pipes s2 pi) = drop (Z.to_nat d) bs /\
    forall a, (forall i, 0 <= i < d -> uaddr frq (addr' + i) <> Some a) -> ram (fs_mem (kfs s2)) a = ram (fs_mem (kfs s)) a.
Proof.
  intros R Rq Hu Ha Ha' Hn Hm Hacc Hl W Hlen bs d Hacc'.
  destruct (pipewrite_spec s l rp Tp frp pi addr n) as (s1 & E1 & K1 & P1 & L1 & W1 & Q1); auto; [lia|]. fold bs in Q1.
  assert (Hlock : forall p, p_lock (procs s1 p) = p_lock (procs s p)).
  { intros p. rewrite P1. case_decide; [apply woken_lock|done]. }
  assert (Hpt : forall p, p_pagetable (procs s1 p) = p_pagetable (procs s p)).
  { intros p. rewrite P1. unfold woken. by repeat (case_decide || case_match). }
  destruct (piperead_spec (s1 <| cur := q |>) l rq Tq frq pi addr' m) as (s2 & E2 & P2 & _ & _ & Q2 & U2 & Wr).
  - destruct Rq as [U Er]. split; [change (umem end_ (fs_mem (kfs s1)) l rq Tq frq); by rewrite K1|].
    cbn [procs cur field_update] in *. by rewrite Hpt.
  - done.
  - done.
  - change (pipe_queue (pipes (s1 <| cur := q |>) pi)) with (pipe_queue (pipes s1 pi)). rewrite Q1. exact Hacc'.
  - intros p Hp. change (p_lock (procs s1 p) = false). rewrite Hlock. by apply Hu.
  - exact L1.
  - exact W1.
  - change (pipe_queue (pipes s1 pi) <> []). rewrite Q1. unfold bs. intros E. apply (f_equal length) in E.
    rewrite length_app, length_ubytes in E. cbn in E. lia.
  - change (pipe_queue (pipes (s1 <| cur := q |>) pi)) with (pipe_queue (pipes s1 pi)) in *. rewrite Q1 in *. fold d in E2, Q2, Wr.
    change (fs_mem (kfs (s1 <| cur := q |>))) with (fs_mem (kfs s1)) in Wr. rewrite K1 in Wr. destruct Wr as [Wi Wo].
    exists s1, s2. split_and!; auto. apply list_eq. intros i. unfold ubytes. rewrite list_lookup_fmap.
    assert (Hd : 0 <= d) by lia. assert (Hd' : d <= Z.of_nat (length bs)) by lia. destruct (decide (i < Z.to_nat d)%nat) as [Hi|Hi].
    + rewrite zseq_lookup by done. cbn. rewrite Z.add_0_l, Wi, Nat2Z.id by lia.
      destruct (lookup_lt_is_Some_2 (take (Z.to_nat d) bs) i) as [x Ex]; [rewrite length_take; lia|]. by rewrite Ex.
    + rewrite !lookup_ge_None_2; [done|rewrite length_take; lia|rewrite length_zseq; lia].
Qed.

End Transfer.

(** ** Allocation of the files of a pipe *)

Section Alloc.

Context (end_ : Z) {S : Type} {L : BlockLayer S} {O : OpLayer S}.

(** Only files, pipes and memory differ. *)
Record files_step (s s' : kst S) : Prop := {
  fl_procs : procs s' = procs s;
  fl_cur : cur s' = cur s;
  fl_lock : ft_lock s' = ft_lock s;
}.

Lemma files_step_trans s s1 s2 : files_step s s1 -> files_step s1 s2 -> files_step s s2.
Proof. intros [A B C] [A' B' C']. split; congruence. Qed.

(** The first free entry of [ftable]. *)
Definition first_free (s : kst S) (f : Z) : Prop :=
  1 <= f <= NFILE /\ f_ref (files s f) = 0 /\ forall g, 1 <= g < f -> f_ref (files s g) <> 0.

Lemma filealloc_spec s f :
  ft_lock s = false -> first_free s f ->
  exists s', filealloc s = Ok f s' /\ files_step s s' /\ kfs s' = kfs s /\ pipes s' = pipes s /\
    files s' f = (files s f) <| f_ref := 1 |> /\ forall g, g <> f -> files s' g = files s g.
Proof.
  intros Hl (Hf & Hz & Hnz). unfold filealloc. unfold bind at 1, ftlock, lock_on. rewrite Hl. set (s1 := _ <| k_noff := _ |>).
  match goal with |- context [search _ ?h] => set (body := h) end.
  assert (Hskip : forall g, 1 <= g < f -> body g s1 = Ok None s1).
  { intros g Hg. unfold body, bind, get_file, gets. change (files s1 g) with (files s g).
    rewrite (proj2 (Z.eqb_neq _ _)); [done|]. by apply Hnz. }
  assert (Hhit : exists s', body f s1 = Ok (Some f) s' /\ files_step s s' /\ kfs s' = kfs s /\ pipes s' = pipes s /\
    files s' f = (files s f) <| f_ref := 1 |> /\ forall g, g <> f -> files s' g = files s g).
  { unfold body, bind, get_file, gets, set_file, modify, ftunlock, lock_off, ret. cbv beta.
    change (f_ref (files s1 f)) with (f_ref (files s f)). rewrite Hz. eexists. split; [reflexivity|].
    split; [split; done|]. split; [done|]. split; [done|]. cbn [files field_update].
    split; [by rewrite upd_same|]. intros g Hg. by rewrite upd_other. }
  destruct Hhit as (s' & E & Hs').
  assert (Hs : forall n a, 1 <= a <= f -> f < a + Z.of_nat n -> search (zseq a n) body s1 = Ok (Some f) s').
  { induction n as [|n IH]; intros a Ha Hn; [lia|]. cbn [zseq search]. destruct (decide (a = f)) as [->|Hne].
    - by rewrite (bind_Ok _ _ _ _ _ E).
    - rewrite (bind_Ok _ _ _ _ _ (Hskip a ltac:(lia))). apply IH; lia. }
  rewrite (bind_Ok _ _ _ _ _ (Hs (Z.to_nat NFILE) 1 ltac:(lia) ltac:(unfold NFILE in *; lia))). by exists s'.
Qed.

(** [pipealloc] when there are two entries and a page. *)
Lemma pipealloc_spec s f0 f1 pi k' :
  ft_lock s = false -> first_free s f0 -> first_free (s <| files := upd (files s) f0 ((files s f0) <| f_ref := 1 |>) |>) f1 ->
  kalloc (fs_mem (kfs s)) = Ok pi k' -> pi <> 0 ->
  exists s', pipealloc end_ s = Ok (Some (f0, f1)) s' /\ files_step s s' /\ fs_mem (kfs s') = k' /\
    pipes s' pi = new_pipe /\ f_pipe (files s' f0) = pi.
Proof.
  intros Hl F0 F1 Hk Hpi. destruct (filealloc_spec s f0 Hl F0) as (s1 & E1 & G1 & K1 & _ & A1 & B1).
  assert (F1' : first_free s1 f1).
  { destruct F1 as (H1 & H2 & H3). cbn [files field_update] in H2, H3.
    assert (E : forall g, f_ref (files s1 g) = f_ref (upd (files s) f0 ((files s f0) <| f_ref := 1 |>) g)).
    { intros g. destruct (decide (g = f0)) as [->|]; [by rewrite A1, upd_same|by rewrite B1, upd_other]. }
    split; [done|]. split; [by rewrite E|]. intros g Hg. rewrite E. by apply H3. }
  destruct (filealloc_spec s1 f1) as (s2 & E2 & G2 & K2 & _ & A2 & B2); [by rewrite (fl_lock _ _ G1)|done|].
  unfold pipealloc. rewrite (bind_Ok _ _ _ _ _ E1), (proj2 (Z.eqb_neq f0 0)) by (destruct F0; lia).
  rewrite (bind_Ok _ _ _ _ _ E2), (proj2 (Z.eqb_neq f1 0)) by (destruct F1; lia).
  assert (Hk2 : kalloc (fs_mem (kfs s2)) = Ok pi k') by (by rewrite K2, K1).
  rewrite (bind_Ok _ _ _ _ _ (in_kmem_Ok _ _ _ s2 Hk2)), (proj2 (Z.eqb_neq pi 0)) by done.
  unfold bind, set_pipe, set_file, modify, ret.
  eexists. split; [reflexivity|]. pose proof (files_step_trans _ _ _ G1 G2) as [P1 P2 P3].
  split; [split; [exact P1|exact P2|exact P3]|]. split; [done|].
  split; [exact (upd_same _ _ _)|]. by refine (pipe_files _ _ _ _ _ _ _ _).
Qed.

End Alloc.

(** ** A sample machine: one process of one page *)

Definition sample_proc : proc := zero_proc <| p_state := RUNNING |> <| p_pid := 1 |> <| p_pagetable := R64 |>.
Definition sample (b : lst) (k : kmem) : kst lst :=
  (boot_kst (demo b T_FILE k R64)) <| procs := upd (fun _ => zero_proc) 1 sample_proc |> <| cur := 1 |>.

Lemma sample_unlocked b k : unlocked_procs (sample b k).
Proof. intros p _. unfold sample. cbn [procs field_update]. unfold upd. by destruct (p =? 1). Qed.

Lemma pipe_transfer_witness :
  exists (s s1 s2 : kst lst), pipewrite 5 4000 5 s = Ok 5 s1 /\ piperead 5 4000 3 (s1 <| cur := 1 |>) = Ok 3 s2.
Proof.
  destruct sample_process as (k & l & T & new & U & Hn & _ & _). destruct demo_blocks as [b _].
  set (s := (sample b k) <| pipes := fun _ => new_pipe |>). pose proof (sample_accessible new Hn) as Hacc.
  assert (R : runs_in E64 s l R64 T (frames new)) by (split; [exact U|done]).
  destruct (pipe_transfer E64 E64_pos s l R64 T (frames new) R64 T (frames new) 1 5 4000 5 4000 3) as (s1 & s2 & E1 & _ & E2 & _).
  - exact R.
  - exact R.
  - exact (sample_unlocked b k).
  - done.
  - done.
  - done.
  - done.
  - exact Hacc.
  - done.
  - apply new_pipe_wf.
  - change (pipe_queue (pipes s 5)) with (pipe_queue new_pipe). rewrite (proj2 new_pipe_wf). done.
  - change (pipe_queue (pipes s 5)) with (pipe_queue new_pipe). rewrite (proj2 new_pipe_wf). cbn [app].
    rewrite length_ubytes. intros i Hi. apply Hacc. lia.
  - exists s, s1, s2. split; [exact E1|]. rewrite E2. reflexivity.
Defined.

Lemma pipe_fifo_witness :
  exists (s0 s1 s2 : kst lst) ch, pipealloc E64 s0 = Ok (Some (1, 2)) s1 /\
    rtc (pstep (f_pipe (files s1 1))) (s1, [], []) (s2, [ch], []) /\ pipe_queue (pipes s2 (f_pipe (files s1 1))) = [ch].
Proof.
  destruct sample_process as (k & l & T & new & U & Hn & _ & Hl). destruct demo_blocks as [b _].
  destruct l as [|pi l]; [cbn in Hl; lia|]. pose proof (um_rep _ _ _ _ _ _ U) as [Hk _ _].
  destruct (umem_kalloc E64 E64_pos k pi l Hk) as (k' & Ek & Hk'). apply Hk' in U. set (s := sample b k).
  assert (Hpi : (pi =? 0) = false).
  { apply Z.eqb_neq. destruct Hk as [_ _ _ Hpg _]. apply Forall_cons in Hpg as [Hp _]. pose proof (page_ok_range E64 E64_pos _ Hp). lia. }
  assert (Ep : exists s1, pipealloc E64 s = Ok (Some (1, 2)) s1 /\ f_pipe (files s1 1) = pi /\ pipes s1 pi = new_pipe /\
    runs_in E64 s1 l R64 T (frames new)).
  { destruct (pipealloc_spec E64 s 1 2 pi k') as (s1 & E & [P1 P2 _] & M1 & N1 & Ef); [done| | |exact Ek|by apply Z.eqb_neq|].
    - split; [done|]. split; [done|]. lia.
    - split; [done|]. split; [done|]. intros g Hg. by assert (g = 1) as -> by lia.
    - exists s1. split_and!; auto. split; [by rewrite M1|]. by rewrite P1, P2. }
  destruct Ep as (s1 & Ep & Ef & Enew & R). pose proof (sample_accessible new Hn) as Hacc.
  pose proof (pipewrite_turn E64 E64_pos s1 l R64 T (frames new) pi 4000 5 R ltac:(done) Hacc (pipes s1) 0 ltac:(done)) as Hw.
  rewrite Enew in Hw. specialize (Hw eq_refl). set (ch := hd 0 _) in Hw.
  replace (s1 <| pipes := pipes s1 |>) with s1 in Hw by (by destruct s1). set (s2 := s1 <| pipes := upd _ _ _ |>) in Hw.
  assert (Hr : rtc (pstep pi) (s1, [], []) (s2, [ch], [])).
  { eapply rtc_l; [|apply rtc_refl]. apply (ps_write pi s1 s2 4000 5 0 ch (fs_mem (kfs s1)) [] []); [| |exact Hw].
    - destruct R as [U1 ->]. change (u64 (4000 + 0)) with 4000.
      pose proof (copyin_spec E64 E64_pos _ _ _ _ _ U1 4000 1 ltac:(done) ltac:(done)) as H.
      apply wp_Ok in H as (r & k2 & E & -> & [[Er _]|[_ Hna]]); [rewrite E, Er; reflexivity|].
      destruct Hna. intros i Hi. apply Hacc. lia.
    - apply (ki_ram _ _ _ (vr_kmem _ _ _ _ _ (um_rep _ _ _ _ _ _ (proj1 R)))). }
  exists s, s1, s2, ch. subst pi. split; [exact Ep|]. split; [exact Hr|].
  exact (proj1 (pipe_fifo E64 s s1 s2 1 2 [ch] [] Ep Hr)).
Defined.
