(* ===== verification/Proc.v ===== *)
(** * [kernel/proc.c]: processes

    Creation, exit and scheduling of processes on the state of [Kernel].  A call
    of [sched] is the end of a handler ([Sleep]); [run] stands for what a process
    does between the switch to it and the switch back to the scheduler.  The
    trapframe of a process is in the page of physical memory [p_tf]. *)
From stdpp Require Import base list gmap strings.
From Stdlib Require Import ZArith Lia.
From S2P Require Import Prelude KString Riscv Kalloc Vm Sleeplock Bio Log Blocks Fs Kernel Pipe.

#[local] Open Scope Z_scope.
#[local] Open Scope xv6_scope.

(** Offsets into the trapframe. *)
Definition TF_kernel_satp : Z := 0.
Definition TF_kernel_sp : Z := 8.
Definition TF_kernel_trap : Z := 16.
Definition TF_epc : Z := 24.
Definition TF_kernel_hartid : Z := 32.
Definition TF_sp : Z := 48.
Definition TF_a0 : Z := 112.
Definition TF_a1 : Z := 120.
Definition TF_a7 : Z := 168.
Definition TF_size : Z := 288.

Definition proc_chan (p : Z) : chan := Chan "proc" p.

(** [safestrcpy(s, t, n)] on arrays. *)
Definition copy_name (s t : list Z) (n : Z) : list Z :=
  read_bytes (safestrcpy (two_bufs s t) 0 (2 ^ 32) n) 0 (length s).

(** A user program that calls [exec("/init")]. *)
Definition initcode : list Z :=
  [0x17; 0x05; 0x00; 0x00; 0x13; 0x05; 0x05; 0x02;
   0x97; 0x05; 0x00; 0x00; 0x93; 0x85; 0x05; 0x02;
   0x9d; 0x48; 0x73; 0x00; 0x00; 0x00; 0x89; 0x48;
   0x73; 0x00; 0x00; 0x00; 0xef; 0xf0; 0xbf; 0xff;
   0x2f; 0x69; 0x6e; 0x69; 0x74; 0x00; 0x00; 0x01;
   0x20; 0x00; 0x00; 0x00; 0x00; 0x00; 0x00; 0x00;
   0x00; 0x00; 0x00].

Section Proc.

(** [end_]: the first address after the kernel; [trampoline] and [forkret_]: the
    addresses of these symbols. *)
Context (end_ trampoline forkret_ : Z) {S : Type} {L : BlockLayer S} {O : OpLayer S}.

Abbreviation K := (M (kst S)).

Definition proc_list : list Z := zseq 1 (Z.to_nat NPROC).

(** ** The trapframe *)

Definition tf_load (p off : Z) : K Z :=
  pr ← get_proc p ;
  in_kmem (gets (fun k => load64 (ram k) (p_tf pr + off))).
Definition tf_store (p off v : Z) : K unit :=
  pr ← get_proc p ;
  in_kmem (modify (fun k => k <| ram := store64 (ram k) (p_tf pr + off) v |>)).

(** ** Allocation *)

Definition procinit_one (p : Z) : K unit :=
  set_proc p (fun x => x <| p_lock := false |>) ;;
  pa ← in_kmem kalloc ;
  if pa =? 0 then panic "kalloc" else
  let va := KSTACK (p - 1) in
  kp ← gets kpt ;
  r ← in_kmem (mappages kp va PGSIZE pa (Z.lor PTE_R PTE_W)) ;
  if negb (r =? 0) then panic "kvmmap" else set_proc p (fun x => x <| p_kstack := va |>).

Definition procinit : K unit :=
  modify (fun s => s <| pid_lock := false |>) ;;
  each proc_list procinit_one ;;
  kvminithart.

Definition allocpid : K Z :=
  pidlock ;;
  pid ← gets nextpid ;
  modify (fun s => s <| nextpid := pid + 1 |>) ;;
  pidunlock ;;
  ret pid.

Definition proc_pagetable (p : Z) : K Z :=
  pagetable ← in_kmem uvmcreate ;
  in_kmem (mappages pagetable TRAMPOLINE PGSIZE trampoline (Z.lor PTE_R PTE_X)) ;;
  pr ← get_proc p ;
  in_kmem (mappages pagetable TRAPFRAME PGSIZE (p_tf pr) (Z.lor PTE_R PTE_W)) ;;
  ret pagetable.

Definition proc_freepagetable (pagetable sz : Z) : M kmem unit :=
  uvmunmap end_ pagetable TRAMPOLINE PGSIZE false ;;
  uvmunmap end_ pagetable TRAPFRAME PGSIZE false ;;
  if sz >? 0 then uvmfree end_ pagetable sz else ret tt.

(** The search of [allocproc]: a free entry, with its lock held. *)
Definition find_unused (p : Z) : K (option Z) :=
  plock p ;;
  x ← get_proc p ;
  if decide (p_state x = UNUSED) then ret (Some p) else (punlock p ;; ret None).

Definition allocproc : K Z :=
  r ← search proc_list find_unused ;
  match r with
  | None => ret 0
  | Some p =>
      pid ← allocpid ;
      set_proc p (fun x => x <| p_pid := pid |>) ;;
      tf ← in_kmem kalloc ;
      set_proc p (fun x => x <| p_tf := tf |>) ;;
      if tf =? 0 then punlock p ;; ret 0 else
      pt ← proc_pagetable p ;
      set_proc p (fun x => x <| p_pagetable := pt |>) ;;
      set_proc p (fun x => x <| p_context := Context forkret_ (u64 (p_kstack x + PGSIZE)) (replicate 12 0) |>) ;;
      ret p
  end.

Definition freeproc (p : Z) : K unit :=
  pr ← get_proc p ;
  (if p_tf pr =? 0 then ret tt else in_kmem (kfree end_ (p_tf pr))) ;;
  set_proc p (fun x => x <| p_tf := 0 |>) ;;
  (if p_pagetable pr =? 0 then ret tt else in_kmem (proc_freepagetable (p_pagetable pr) (p_sz pr))) ;;
  set_proc p (fun x => x <| p_pagetable := 0 |> <| p_sz := 0 |> <| p_pid := 0 |> <| p_parent := 0 |>
                         <| p_name := <[0%nat := 0]> (p_name x) |> <| p_chan := None |> <| p_killed := false |>
                         <| p_xstate := 0 |> <| p_state := UNUSED |>).

Definition userinit : K unit :=
  p ← allocproc ;
  modify (fun s => s <| initproc := p |>) ;;
  pr ← get_proc p ;
  in_kmem (uvminit (p_pagetable pr) initcode (Z.of_nat (length initcode))) ;;
  set_proc p (fun x => x <| p_sz := PGSIZE |>) ;;
  tf_store p TF_epc 0 ;;
  tf_store p TF_sp PGSIZE ;;
  set_proc p (fun x => x <| p_name := copy_name (p_name x) [105; 110; 105; 116; 99; 111; 100; 101; 0] 16 |>) ;;
  cwd ← in_fs (namei [SLASH; 0]) ;
  set_proc p (fun x => x <| p_cwd := cwd |>) ;;
  set_proc p (fun x => x <| p_state := RUNNABLE |>) ;;
  punlock p.

(** ** Growing and copying a process *)

(** [sz] is a 32-bit variable. *)
Definition growproc (n : Z) : K Z :=
  p ← myproc ;
  pr ← get_proc p ;
  let sz := u32 (p_sz pr) in
  if n >? 0 then
    sz' ← in_kmem (uvmalloc end_ (p_pagetable pr) sz (u32 (sz + n))) ;
    if u32 sz' =? 0 then ret (-1) else set_proc p (fun x => x <| p_sz := u32 sz' |>) ;; ret 0
  else if n <? 0 then
    sz' ← in_kmem (uvmdealloc end_ (p_pagetable pr) sz (u32 (sz + n))) ;
    set_proc p (fun x => x <| p_sz := u32 sz' |>) ;; ret 0
  else set_proc p (fun x => x <| p_sz := sz |>) ;; ret 0.

Definition set_ofile (p : Z) (fd : Z) (f : Z) : K unit :=
  set_proc p (fun x => x <| p_ofile := <[Z.to_nat fd := f]> (p_ofile x) |>).
Definition get_ofile (p : Z) (fd : Z) : K Z := gets (fun s => default 0 (p_ofile (procs s p) !! Z.to_nat fd)).

(** [*(np->tf) = *(p->tf)] *)
Definition copy_tf (np p : Z) : K unit :=
  x ← get_proc np ;
  pr ← get_proc p ;
  in_kmem (modify (fun k => k <| ram := write_bytes (ram k) (p_tf x) (read_bytes (ram k) (p_tf pr) (Z.to_nat TF_size)) |>)).

Definition dup_ofile (p np i : Z) : K unit :=
  f ← get_ofile p i ;
  if f =? 0 then ret tt else f' ← filedup f ; set_ofile np i f'.

Definition fork : K Z :=
  p ← myproc ;
  np ← allocproc ;
  if np =? 0 then ret (-1) else
  pr ← get_proc p ;
  npr ← get_proc np ;
  r ← in_kmem (uvmcopy end_ (p_pagetable pr) (p_pagetable npr) (p_sz pr)) ;
  if r <? 0 then freeproc np ;; punlock np ;; ret (-1) else
  (set_proc np (fun x => x <| p_sz := p_sz pr |>) ;;
   set_proc np (fun x => x <| p_parent := p |>) ;;
   copy_tf np p ;;
   tf_store np TF_a0 0 ;;
   each (zseq 0 (Z.to_nat NOFILE)) (dup_ofile p np) ;;
   cwd ← in_fs (idup (p_cwd pr)) ;
   set_proc np (fun x => x <| p_cwd := cwd |>) ;;
   set_proc np (fun x => x <| p_name := copy_name (p_name x) (p_name pr) 16 |>) ;;
   x ← get_proc np ;
   set_proc np (fun x => x <| p_state := RUNNABLE |>) ;;
   punlock np ;;
   ret (p_pid x)).

(** ** Exit and wait *)

Definition wakeup1 (p : Z) : K unit :=
  x ← get_proc p ;
  if negb (p_lock x) then panic "wakeup1" else
  if on_chan (proc_chan p) x then
    if decide (p_state x = SLEEPING) then set_proc p (fun x => x <| p_state := RUNNABLE |>) else ret tt
  else ret tt.

Definition reparent_one (p pp : Z) : K unit :=
  x ← get_proc pp ;
  if p_parent x =? p then
    plock pp ;;
    ip ← gets initproc ;
    set_proc pp (fun x => x <| p_parent := ip |>) ;;
    punlock pp
  else ret tt.

Definition reparent (p : Z) : K unit := each proc_list (reparent_one p).

Definition close_ofile (p fd : Z) : K unit :=
  f ← get_ofile p fd ;
  if f =? 0 then ret tt else fileclose end_ f ;; set_ofile p fd 0.

(** The part of [exit] after the files have been closed. *)
Definition exit_finish (p status : Z) : K unit :=
  ip ← gets initproc ;
  plock ip ;;
  wakeup1 ip ;;
  punlock ip ;;
  plock p ;;
  pr ← get_proc p ;
  let original_parent := p_parent pr in
  punlock p ;;
  plock original_parent ;;
  plock p ;;
  reparent p ;;
  wakeup1 original_parent ;;
  set_proc p (fun x => x <| p_xstate := status |>) ;;
  set_proc p (fun x => x <| p_state := ZOMBIE |>) ;;
  punlock original_parent.

Definition exit (status : Z) : K unit :=
  p ← myproc ;
  ip ← gets initproc ;
  if p =? ip then panic "init exiting" else
  each (zseq 0 (Z.to_nat NOFILE)) (close_ofile p) ;;
  begin_op ROOTDEV ;;
  pr ← get_proc p ;
  in_fs (iput (p_cwd pr)) ;;
  end_op ROOTDEV ;;
  set_proc p (fun x => x <| p_cwd := 0 |>) ;;
  exit_finish p status ;;
  sched (A := unit) (Chan "zombie" p) ;;
  panic "zombie exit".

(** The scan of [wait]: the result of a child that has exited, or whether there
    are children at all. *)
Fixpoint wait_scan (p addr : Z) (havekids : bool) (l : list Z) : K (Z + bool) :=
  match l with
  | [] => ret (inr havekids)
  | np :: l =>
      x ← get_proc np ;
      if negb (p_parent x =? p) then wait_scan p addr havekids l else
      plock np ;;
      x ← get_proc np ;
      if decide (p_state x = ZOMBIE) then
        pr ← get_proc p ;
        r ← (if addr =? 0 then ret 0 else in_kmem (copyout (p_pagetable pr) addr (le_bytes 4 (p_xstate x)) 4)) ;
        if r <? 0 then punlock np ;; punlock p ;; ret (inl (-1)) else
        (freeproc np ;;
         punlock np ;;
         punlock p ;;
         ret (inl (p_pid x)))
      else punlock np ;; wait_scan p addr true l
  end.

Definition wait (addr : Z) : K Z :=
  p ← myproc ;
  plock p ;;
  r ← wait_scan p addr false proc_list ;
  match r with
  | inl pid => ret pid
  | inr havekids =>
      pr ← get_proc p ;
      if negb havekids || p_killed pr then punlock p ;; ret (-1)
      else sleep (proc_chan p) None
  end.

(** ** Scheduling *)

(** One turn of the loop over the table. *)
Definition scheduler_one (run : Z -> K unit) (p : Z) : K bool :=
  plock p ;;
  x ← get_proc p ;
  found ← (if decide (p_state x = RUNNABLE) then
             set_proc p (fun x => x <| p_state := RUNNING |>) ;;
             modify (fun s => s <| cur := p |>) ;;
             run p ;;
             modify (fun s => s <| cur := 0 |>) ;;
             ret true
           else ret false) ;
  punlock p ;;
  ret found.

(** A pass over the processes [l]: the processes that were run. *)
Fixpoint scheduler_pass (run : Z -> K unit) (l : list Z) : K (list Z) :=
  match l with
  | [] => ret []
  | p :: l =>
      found ← scheduler_one run p ;
      ps ← scheduler_pass run l ;
      ret (if found : bool then p :: ps else ps)
  end.

(** [n] turns of [for(;;)]; with no process to run the CPU waits for an
    interrupt. *)
Fixpoint scheduler (n : nat) (run : Z -> K unit) (wfi : K unit) : K unit :=
  match n with
  | 0%nat => ret tt
  | Datatypes.S n =>
      ps ← scheduler_pass run proc_list ;
      (if ps is [] then wfi else ret tt) ;;
      scheduler n run wfi
  end.

Definition yield : K unit :=
  p ← myproc ;
  plock p ;;
  set_proc p (fun x => x <| p_state := RUNNABLE |>) ;;
  sched (Chan "yield" p).

Definition kill_one (pid p : Z) : K (option Z) :=
  plock p ;;
  x ← get_proc p ;
  if p_pid x =? pid then
    set_proc p (fun x => x <| p_killed := true |>) ;;
    (if decide (p_state x = SLEEPING) then set_proc p (fun x => x <| p_state := RUNNABLE |>) else ret tt) ;;
    punlock p ;;
    ret (Some 0)
  else punlock p ;; ret None.

Definition kill (pid : Z) : K Z :=
  r ← search proc_list (kill_one pid) ;
  ret (default (-1) r).

End Proc.
