(* ===== verification/KState.v ===== *)
(** * Running kernel routines on states in normal form

    A routine of the process table changes a few fields of the kernel many
    times.  [st s f pr fl pi np no] is the state [s] with those fields replaced
    and the locks of the tables free; the lemmas run the primitives of [Kernel]
    from normal form to normal form. *)
From stdpp Require Import base list gmap strings.
From Stdlib Require Import ZArith Lia.
From S2P Require Import Prelude KString Riscv Kalloc Vm Sleeplock Bio Log Blocks Fs Kernel Pipe Proc.

#[local] Open Scope Z_scope.
#[local] Open Scope xv6_scope.

(** The routines of the block layer that wake nobody up. *)
Class OpLaws (S : Type) {O : OpLayer S} : Prop := {
  ol_acked : forall b, ol_wakes (ol_ack b) = [];
}.

#[export] Instance log_ops_laws : OpLaws lst.
Proof. by split. Qed.

Section KState.

Context {S : Type} {L : BlockLayer S} {O : OpLayer S}.

Definition st (s : kst S) (f : fst S) (pr : Z -> proc) (fl : Z -> file) (pi : Z -> pipe) (np no : Z) : kst S :=
  Kst f pr (cur s) no (initproc s) np false false fl pi (ticks s) (tickslock s) (con s) (kpt s) (first_ s) (csrs s).

Lemma st_id s : pid_lock s = false -> ft_lock s = false ->
  s = st s (kfs s) (procs s) (files s) (pipes s) (nextpid s) (k_noff s).
Proof. destruct s. cbn. by intros -> ->. Qed.

Context (s : kst S) (f : fst S) (pr : Z -> proc) (fl : Z -> file) (pi : Z -> pipe) (np no : Z).

Lemma st_get_proc p : get_proc p (st s f pr fl pi np no) = Ok (pr p) (st s f pr fl pi np no).
Proof. reflexivity. Qed.

Lemma st_myproc : myproc (st s f pr fl pi np no) = Ok (cur s) (st s f pr fl pi np no).
Proof. reflexivity. Qed.

Lemma st_set_proc p g : set_proc p g (st s f pr fl pi np no) = Ok tt (st s f (upd pr p (g (pr p))) fl pi np no).
Proof. reflexivity. Qed.

Lemma st_in_kmem {A} (m : M kmem A) a k :
  m (fs_mem f) = Ok a k -> in_kmem m (st s f pr fl pi np no) = Ok a (st s (f <| fs_mem := k |>) pr fl pi np no).
Proof. intros H. unfold in_kmem, zoom. change (fs_mem (kfs (st s f pr fl pi np no))) with (fs_mem f). by rewrite H. Qed.

Lemma st_plock p : p_lock (pr p) = false ->
  plock p (st s f pr fl pi np no) = Ok tt (st s f (upd pr p ((pr p) <| p_lock := true |>)) fl pi np (no + 1)).
Proof. intros H. unfold plock, lock_on. change (procs (st s f pr fl pi np no)) with pr. by rewrite H. Qed.

Lemma st_punlock p : p_lock (pr p) = true ->
  punlock p (st s f pr fl pi np no) = Ok tt (st s f (upd pr p ((pr p) <| p_lock := false |>)) fl pi np (no - 1)).
Proof. intros H. unfold punlock, lock_off. change (procs (st s f pr fl pi np no)) with pr. by rewrite H. Qed.

Lemma st_allocpid : allocpid (st s f pr fl pi np no) = Ok np (st s f pr fl pi (np + 1) no).
Proof. unfold allocpid, bind, pidlock, pidunlock, lock_on, lock_off, gets, modify, ret. cbn. unfold st. do 2 f_equal. lia. Qed.

Lemma st_filedup x : 1 <= f_ref (fl x) ->
  filedup x (st s f pr fl pi np no) =
    Ok x (st s f pr (upd fl x ((fl x) <| f_ref := f_ref (fl x) + 1 |>)) pi np no).
Proof.
  intros H. unfold filedup, bind, ftlock, ftunlock, lock_on, lock_off, get_file, set_file, gets, modify, ret. cbn.
  rewrite (proj2 (Z.ltb_ge _ _)) by lia. unfold st. cbn. do 2 f_equal. lia.
Qed.

(** A file-system routine that wakes nobody. *)
Lemma st_in_fs {A} (m : M (fst S) A) a g :
  m (fs_view (st s f pr fl pi np no)) = Ok a g -> ol_wakes (blk g) = [] -> fs_wakes g = [] ->
  in_fs m (st s f pr fl pi np no) = Ok a (st s g pr fl pi np no).
Proof. intros H H1 H2. unfold in_fs. rewrite H, H1, H2. reflexivity. Qed.

End KState.
