(* ===== verification/ProcMem.v ===== *)
(** * The memory of a process

    [proc_pagetable] and [proc_freepagetable] of [kernel/proc.c]: the address
    space of a process is the user memory from 0 on ([umem]) with the trampoline
    and the trapframe mapped above it, out of reach of the user. *)
From stdpp Require Import base list gmap strings.
From Stdlib Require Import ZArith Lia.
From S2P Require Import Prelude KString Riscv Kalloc Vm VmSpec VmUser VmCopy VmFork VmFree VmProps Log Fs FsProps Kernel Proc.

#[local] Open Scope Z_scope.
#[local] Open Scope xv6_scope.

(** The two pages above the user memory. *)
Definition high (va : Z) : Prop := va = TRAMPOLINE \/ va = TRAPFRAME.

Lemma high_page va : high va ->
  0 <= va /\ TRAPFRAME <= va < MAXVA /\ va + PGSIZE <= MAXVA /\ (va + PGSIZE - 1) / PGSIZE = va / PGSIZE /\
  PGROUNDDOWN va = va /\ va / PGSIZE * PGSIZE = va.
Proof. by intros [-> | ->]. Qed.

Lemma below_TRAPFRAME va va' : va < TRAPFRAME -> high va' -> va / PGSIZE <> va' / PGSIZE.
Proof.
  intros H Hh. assert (va / PGSIZE < TRAPFRAME / PGSIZE).
  { change TRAPFRAME with (67108862 * PGSIZE) in *. rewrite Z.div_mul by done. apply Z.div_lt_upper_bound; [done|lia]. }
  destruct Hh as [-> | ->]; change (TRAMPOLINE / PGSIZE) with 67108863; change (TRAPFRAME / PGSIZE) with 67108862 in *; lia.
Qed.

Section ProcMem.

Context (end_ : Z).
Hypothesis end_pos : 0 < end_.

(** Entries of the two pages do not concern the user memory. *)
Lemma umem_high k l root T fr k' l' T' va e :
  umem end_ k l root T fr -> vmrep end_ k' l' root T' -> high va -> has e PTE_U = false ->
  (forall va', 0 <= va' < MAXVA -> pte_of (ram k') root va' =
     if decide (va' / PGSIZE = va / PGSIZE) then e else pte_of (ram k) root va') ->
  (forall pa, freeable end_ l T pa -> freeable end_ l' T' pa) ->
  umem end_ k' l' root T' fr.
Proof.
  intros [R Hmax Hpte Hnone Hhigh Hperm Hfr Hnd] R' Hva He V HF. pose proof TRAPFRAME_MAXVA as HM. unfold base in *.
  assert (Hlow : forall x, 0 <= x < TRAPFRAME -> pte_of (ram k') root x = pte_of (ram k) root x).
  { intros x Hx. rewrite V by lia. rewrite decide_False; [done|]. apply below_TRAPFRAME; [lia|done]. }
  split; auto.
  - intros i pa perm Hi. pose proof (lookup_lt_Some _ _ _ Hi). rewrite Hlow by (unfold PGSIZE in *; lia). by apply Hpte.
  - intros x Hx. rewrite Hlow by (unfold base, PGSIZE in *; lia). by apply Hnone.
  - intros x Hx. rewrite V by lia. case_decide; [done|]. by apply Hhigh.
Qed.

Lemma map_high k l root T fr va pa perm :
  umem end_ k l root T fr -> high va -> has (pte_of (ram k) root va) PTE_V = false ->
  pa mod PGSIZE = 0 -> 0 <= pa -> pa + PGSIZE < 2 ^ 56 -> 0 <= perm < 2 ^ 10 -> has perm PTE_U = false ->
  (2 <= length l)%nat ->
  wp (mappages root va PGSIZE pa perm) (fun r k' => exists l' T', r = 0 /\ umem end_ k' l' root T' fr /\
    same_pages T fr l T' fr l' /\ touches T fr l k k' /\ (length l <= 2 + length l')%nat /\
    forall va', 0 <= va' < MAXVA -> pte_of (ram k') root va' =
      if decide (va' / PGSIZE = va / PGSIZE) then leaf pa perm else pte_of (ram k) root va') k.
Proof.
  intros U Hva Hv Hal Hpa Hpn Hperm Hu Hl. destruct (high_page va Hva) as (H0 & H1 & H2 & H3 & H4 & H5).
  eapply wp_mono; [apply (mappages_spec end_ end_pos k l root T va PGSIZE pa perm 1); try done; try lia|].
  - apply U.
  - intros j Hj. assert (j = 0) as -> by lia. by rewrite Z.mul_0_l, Z.add_0_r, H4.
  - intros r k' (l' & T' & j & R' & G & Hj & HL & Hr & V). exists l', T'.
    destruct Hr as [[-> ->]|(_ & _ & _ & Hlt)]; [|lia].
    assert (V' : forall va', 0 <= va' < MAXVA -> pte_of (ram k') root va' =
              if decide (va' / PGSIZE = va / PGSIZE) then leaf pa perm else pte_of (ram k) root va').
    { intros x Hx. rewrite V by done. unfold mapped. destruct (decide (x / PGSIZE = va / PGSIZE)) as [E|E].
      - rewrite decide_True by lia. f_equal. lia.
      - by rewrite decide_False by lia. }
    split_and!; [done| |by eapply same_pages_grown| |lia|done].
    + apply (umem_high k l root T fr k' l' T' va (leaf pa perm)); auto; [by rewrite leaf_U|]. intros q Hq. by eapply grown_free.
    + intros a Ha. apply (g_mem _ _ _ _ _ _ G). intros q Hq. apply Ha. unfold owns. tauto.
Qed.

Lemma unmap_high k l root T fr va pa perm :
  umem end_ k l root T fr -> high va -> pte_of (ram k) root va = leaf pa perm ->
  pa mod PGSIZE = 0 -> 0 <= perm < 2 ^ 10 -> Z.lor perm PTE_V <> PTE_V ->
  wp (uvmunmap end_ root va PGSIZE false) (fun _ k' => umem end_ k' l root T fr /\
    (forall a, (forall p, held T fr p -> ~ in_page p a) -> ram k' a = ram k a) /\
    forall va', 0 <= va' < MAXVA -> pte_of (ram k') root va' =
      if decide (va' / PGSIZE = va / PGSIZE) then 0 else pte_of (ram k) root va') k.
Proof.
  intros U Hva Hv Hal Hperm Hp. destruct (high_page va Hva) as (H0 & H1 & H2 & H3 & H4 & H5).
  eapply wp_mono; [apply (uvmunmap_spec end_ end_pos k l root T va PGSIZE false [pa] (va / PGSIZE) 1); try done; try lia|].
  - apply U.
  - intros j q Hj Hq. destruct (decide (j = 0)) as [->|]; [|by replace (Z.to_nat j) with (S (Z.to_nat (j - 1))) in Hq by lia].
    injection Hq as <-. rewrite Z.add_0_r, H5. exists perm. done.
  - intros _ k' (R' & V & M).
    assert (V' : forall va', 0 <= va' < MAXVA -> pte_of (ram k') root va' =
              if decide (va' / PGSIZE = va / PGSIZE) then 0 else pte_of (ram k) root va').
    { intros x Hx. rewrite V by done. destruct (decide (x / PGSIZE = va / PGSIZE)).
      - by rewrite decide_True by lia.
      - by rewrite decide_False by lia. }
    split_and!; [|intros a Ha; apply M; intros q [Hq|[? _]]; [apply Ha; by left|done]|done].
    by apply (umem_high k l root T fr k' l T va 0).
Qed.

(** ** [proc_freepagetable] *)

(** The trampoline and the trapframe are mapped, and nothing else is above the
    user memory. *)
Definition high_mapped (k : kmem) (root trampoline tf : Z) : Prop :=
  pte_of (ram k) root TRAMPOLINE = leaf trampoline (Z.lor PTE_R PTE_X) /\
  pte_of (ram k) root TRAPFRAME = leaf tf (Z.lor PTE_R PTE_W).

Lemma high_mapped_same k k' root t tf : high_mapped k root t tf -> same_high k k' root -> high_mapped k' root t tf.
Proof. intros [H1 H2] H. split; rewrite H by done; done. Qed.

Lemma high_cases va : TRAPFRAME <= va < MAXVA -> va / PGSIZE = TRAMPOLINE / PGSIZE \/ va / PGSIZE = TRAPFRAME / PGSIZE.
Proof.
  change TRAPFRAME with (67108862 * PGSIZE). change MAXVA with (67108864 * PGSIZE).
  change (TRAMPOLINE / PGSIZE) with 67108863. rewrite Z.div_mul by done. intros H. unfold PGSIZE in *. zlia.
Qed.

(** The two unmappings leave no entry above the user memory. *)
Lemma unmap_both k l root T fr trampoline tf :
  umem end_ k l root T fr -> high_mapped k root trampoline tf -> trampoline mod PGSIZE = 0 -> tf mod PGSIZE = 0 ->
  wp (uvmunmap end_ root TRAMPOLINE PGSIZE false ;; uvmunmap end_ root TRAPFRAME PGSIZE false)
    (fun _ k' => umem end_ k' l root T fr /\ (forall a, (forall p, held T fr p -> ~ in_page p a) -> ram k' a = ram k a) /\
      forall va, TRAPFRAME <= va < MAXVA -> pte_of (ram k') root va = 0) k.
Proof.
  intros U [H1 H2] A1 A2.
  eapply wp_seq; [apply (unmap_high k l root T fr TRAMPOLINE trampoline _ U (or_introl eq_refl) H1 A1); done|].
  intros _ k1 (U1 & M1 & V1).
  eapply wp_mono; [apply (unmap_high k1 l root T fr TRAPFRAME tf (Z.lor PTE_R PTE_W) U1 (or_intror eq_refl)); [|done..]|].
  { by rewrite V1. }
  intros _ k2 (U2 & M2 & V2). split_and!; [done|intros a Ha; rewrite M2 by done; by apply M1|].
  intros va Hva. assert (0 <= va < MAXVA) by (pose proof TRAPFRAME_MAXVA; lia).
  destruct (high_cases va Hva) as [E|E]; rewrite V2, E by done; [|done]. by rewrite V1, E by done.
Qed.

Lemma proc_freepagetable_rep k l root T fr sz trampoline tf :
  umem end_ k l root T fr -> 0 < sz <= TRAPFRAME -> length fr = pages sz ->
  high_mapped k root trampoline tf -> trampoline mod PGSIZE = 0 -> tf mod PGSIZE = 0 ->
  wp (proc_freepagetable end_ root sz) (fun _ k' => exists l', kmem_inv end_ k' l' /\
    l' ≡ₚ base.elements (dom T) ++ fr.*1 ++ l /\
    forall a, (forall p, held T fr p -> ~ in_page p a) -> ram k' a = ram k a) k.
Proof.
  intros U Hsz Hlen Hh A1 A2. unfold proc_freepagetable.
  pose proof (unmap_both k l root T fr trampoline tf U Hh A1 A2) as H.
  apply wp_Ok in H as ([] & k2 & E & U2 & M2 & V2). apply bind_Ok_inv in E as ([] & k1 & E1 & E2).
  unfold wp. rewrite (bind_Ok _ _ _ _ _ E1), (bind_Ok _ _ _ _ _ E2), (proj2 (Z.gtb_lt _ _)) by lia.
  pose proof (uvmfree_rep end_ end_pos k2 l root T fr sz U2 Hsz Hlen) as H.
  apply wp_Ok in H as ([] & k3 & E3 & l' & H3 & P3 & M3); [|intros va Hva; by rewrite V2]. rewrite E3.
  exists l'. split_and!; [done|done|]. intros a Ha. rewrite M3 by done. by apply M2.
Qed.

(** With size 0 the pages of the page table stay allocated. *)
Lemma proc_freepagetable_zero k l root T fr trampoline tf :
  umem end_ k l root T fr ->
  high_mapped k root trampoline tf -> trampoline mod PGSIZE = 0 -> tf mod PGSIZE = 0 ->
  wp (proc_freepagetable end_ root 0) (fun _ k' => umem end_ k' l root T fr) k.
Proof.
  intros U Hh A1 A2. unfold proc_freepagetable.
  pose proof (unmap_both k l root T fr trampoline tf U Hh A1 A2) as H.
  apply wp_Ok in H as ([] & k2 & E & U2 & _). apply bind_Ok_inv in E as ([] & k1 & E1 & E2).
  unfold wp. by rewrite (bind_Ok _ _ _ _ _ E1), (bind_Ok _ _ _ _ _ E2).
Qed.

(** Changes outside the page table do not concern the two pages. *)
Lemma high_other k l root T fr k' :
  umem end_ k l root T fr -> (forall p a, is_Some (T !! p) -> in_page p a -> ram k' a = ram k a) -> same_high k k' root.
Proof.
  intros [[_ I _]] Hm va Hva. destruct (pt_frame end_ (ram k) (ram k') root T I Hm) as [_ V].
  apply (V 2%nat root va). rewrite above_2 by (pose proof TRAPFRAME_MAXVA; lia). apply I.
Qed.

(** Writes to user memory neither. *)
Lemma high_user k l root T fr k' :
  umem end_ k l root T fr -> (forall a, (forall va, uaddr fr va <> Some a) -> ram k' a = ram k a) -> same_high k k' root.
Proof.
  intros U H. apply (high_other k l root T fr); [done|]. intros p a [x Hx] Ha. apply H. intros va E.
  destruct (uaddr_frame fr va a E) as (pa & Hin & Hpg). destruct (um_free _ _ _ _ _ _ U pa Hin) as (F1 & _ & F3).
  pose proof (pi_page _ _ _ _ (vr_pt _ _ _ _ _ (um_rep _ _ _ _ _ _ U)) _ _ Hx) as A2.
  apply (held_apart end_ p pa a); auto. congruence.
Qed.

(** A write to a page outside an address space. *)
Lemma umem_ram k l root T fr p m' :
  umem end_ k l root T fr -> page_ok end_ p -> (p ∉ l) -> ~ held T fr p -> mem_ok m' ->
  (forall a, ~ in_page p a -> m' a = ram k a) ->
  umem end_ (k <| ram := m' |>) l root T fr /\ same_data k (k <| ram := m' |>) fr /\ same_high k (k <| ram := m' |>) root.
Proof.
  intros U Hp Hni Hh Hok Hm. pose proof U as [[Hk I Hf] _ _ _ _ _ _ _].
  assert (Hal : forall q a, page_ok end_ q -> q <> p -> in_page q a -> m' a = ram k a).
  { intros q a Hq Hne Ha. apply Hm. by apply (held_apart end_ q p a). }
  destruct (umem_other end_ k l root T fr (k <| ram := m' |>) l U) as [U' D].
  - apply kmem_ram; [done|done|]. intros q a Hq Ha. apply (Hal q); [|congruence|done].
    destruct Hk as [_ _ _ Hpg _]. by apply (proj1 (Forall_forall _ _) Hpg).
  - auto.
  - intros q a Hq Ha. apply (Hal q); [by apply (held_ok end_ _ _ _ _ _ _ U)|congruence|done].
  - split_and!; [done|done|]. apply (high_other k l root T fr); [done|].
    intros q a [x Hq] Ha. apply (Hal q); [by apply (pi_page _ _ _ _ I q x)|intros ->; apply Hh; left; eauto|done].
Qed.

(** The user cannot reach the two pages. *)
Lemma walkaddr_high k l T fr root va :
  umem end_ k l root T fr -> high va -> walkaddr root va k = Ok 0 k.
Proof.
  intros U Hva. destruct (high_page va Hva) as (? & ? & _). rewrite (walkaddr_lookup end_ end_pos root va k T); [|apply U|lia].
  cbv zeta. by rewrite (um_high _ _ _ _ _ _ U), andb_false_r by done.
Qed.

(** ** [proc_pagetable] *)

Section Kst.

Context {S : Type} (trampoline : Z).
Hypothesis tramp_page : trampoline mod PGSIZE = 0 /\ 0 <= trampoline /\ trampoline + PGSIZE < 2 ^ 56.

Definition set_mem (k : kmem) (s : kst S) : kst S := s <| kfs := (kfs s) <| fs_mem := k |> |>.

Lemma in_kmem_set {A} (m : M kmem A) a k k' s : m k = Ok a k' -> in_kmem m (set_mem k s) = Ok a (set_mem k' s).
Proof. intros H. unfold in_kmem, zoom. change (fs_mem (kfs (set_mem k s))) with k. by rewrite H. Qed.

Lemma set_mem_id s : set_mem (fs_mem (kfs s)) s = s.
Proof. by destruct s as [[]]. Qed.

(** A new address space: no user memory, the trampoline and the trapframe of the
    process above it. *)
Lemma proc_pagetable_spec s p k root l :
  kmem_inv end_ k (root :: l) -> (4 <= length l)%nat ->
  page_ok end_ (p_tf (procs s p)) ->
  exists k' l' T, proc_pagetable trampoline p (set_mem k s) = Ok root (set_mem k' s) /\
    umem end_ k' l' root T [] /\ high_mapped k' root trampoline (p_tf (procs s p)) /\
    (length l <= 4 + length l')%nat /\ (forall q, owns T [] l' q <-> q ∈ root :: l) /\
    forall a, (forall q, q ∈ root :: l -> ~ in_page q a) -> ram k' a = ram k a.
Proof.
  intros Hk Hl Htf. destruct tramp_page as (P1 & P2 & P3). pose proof (page_ok_range _ end_pos _ Htf) as Hr.
  pose proof Htf as [Htf1 Htf2].
  pose proof (uvmcreate_rep end_ end_pos k _ Hk) as H1. cbn in H1. apply wp_Ok in H1 as (r & k1 & E1 & -> & U1 & V1 & M1).
  pose proof (map_high k1 l root _ [] TRAMPOLINE trampoline (Z.lor PTE_R PTE_X) U1 (or_introl eq_refl)) as H2.
  apply wp_Ok in H2 as (r & k2 & E2 & l2 & T2 & -> & U2 & S2 & W2 & L2 & V2); [|by rewrite V1|done..|lia].
  pose proof (map_high k2 l2 root T2 [] TRAPFRAME (p_tf (procs s p)) (Z.lor PTE_R PTE_W) U2 (or_intror eq_refl)) as H3.
  apply wp_Ok in H3 as (r & k3 & E3 & l3 & T3 & -> & U3 & S3 & W3 & L3 & V3);
    [|by rewrite V2, V1|done|lia|unfold PHYSTOP, KERNBASE, PGSIZE in *; zpow; lia|done|done|lia].
  assert (Hown : forall q, owns {[root := (2%nat, 0)]} [] l q <-> q ∈ root :: l).
  { intros q. unfold owns. rewrite lookup_singleton_is_Some, elem_of_nil, elem_of_cons. naive_solver. }
  exists k3, l3, T3. split_and!; [|done|split|lia| |].
  - unfold proc_pagetable. rewrite (bind_Ok _ _ _ _ _ (in_kmem_set _ _ _ _ s E1)), (bind_Ok _ _ _ _ _ (in_kmem_set _ _ _ _ s E2)).
    unfold bind at 1, get_proc, gets. change (procs (set_mem k2 s) p) with (procs s p).
    by rewrite (bind_Ok _ _ _ _ _ (in_kmem_set _ _ _ _ s E3)).
  - rewrite V3 by done. by rewrite V2.
  - by rewrite V3.
  - intros q. rewrite (S3 q), (S2 q). apply Hown.
  - intros a Ha. rewrite (W3 a), (W2 a), (M1 a); [done|apply Ha; by left|intros q Hq; apply Ha; by apply Hown|].
    intros q Hq. apply Ha, Hown. by apply S2.
Qed.

(** C23: the memory of a process comes from the free list and goes back to it, for
    a size [sz] over 0 and with enough free pages (4 and 3 per page of the process).
    [proc_pagetable] maps the trampoline and the trapframe where no user access
    reaches them, [uvmalloc] gives the process [sz] bytes, and
    [proc_freepagetable] returns the user memory and every page of the page
    table: the free pages are those there were before.  For size 0 the pages of
    the page table are lost ([proc_freepagetable_leaks]). *)
Theorem proc_memory_lifecycle s p k root l sz :
  kmem_inv end_ k (root :: l) -> page_ok end_ (p_tf (procs s p)) ->
  0 < sz <= TRAPFRAME -> (4 + 3 * pages sz <= length l)%nat ->
  exists k1 k2 k3 l', proc_pagetable trampoline p (set_mem k s) = Ok root (set_mem k1 s) /\
    uvmalloc end_ root 0 sz k1 = Ok sz k2 /\
    high_mapped k2 root trampoline (p_tf (procs s p)) /\
    walkaddr root TRAMPOLINE k2 = Ok 0 k2 /\ walkaddr root TRAPFRAME k2 = Ok 0 k2 /\
    proc_freepagetable end_ root sz k2 = Ok tt k3 /\ kmem_inv end_ k3 l' /\ l' ≡ₚ root :: l.
Proof.
  intros Hk Htf Hsz Hl. destruct (proc_pagetable_spec s p k root l Hk) as (k1 & l1 & T1 & E1 & U1 & H1 & L1 & O1 & _); [lia|done|].
  pose proof (uvmalloc_rep end_ end_pos k1 l1 root T1 [] 0 sz U1) as H2.
  apply wp_Ok in H2 as (r & k2 & E2 & l2 & T2 & H2 & [(-> & new & U2 & Hn & _ & Z2 & S2 & L2)|(-> & _ & _ & _ & Hfew)]);
    [|cbn in Hfew; lia|lia|lia|done].
  pose proof (high_mapped_same _ _ _ _ _ H1 H2) as H2'.
  pose proof (proc_freepagetable_rep k2 l2 root T2 (frames new) sz trampoline (p_tf (procs s p)) U2 Hsz) as H3.
  apply wp_Ok in H3 as ([] & k3 & E3 & l3 & Hk3 & P3 & _);
    [|by rewrite length_frames|exact H2'|apply tramp_page|apply Htf].
  exists k1, k2, k3, l3. split_and!; auto.
  - apply (walkaddr_high k2 l2 T2 (frames new)); [done|by left].
  - apply (walkaddr_high k2 l2 T2 (frames new)); [done|by right].
  - apply NoDup_Permutation; [apply Hk3|apply Hk|]. intros q. rewrite P3, <- O1, <- (S2 q).
    unfold owns. by rewrite !elem_of_app, elem_of_elements, elem_of_dom.
Qed.

(** [proc_freepagetable] skips [uvmfree] for a process of size 0, so the
    pages of its page table are lost: neither is any of them free afterwards,
    nor does a process hold it.  [fork] (when the copy fails) and [exec] (when
    loading fails before the first segment) free address spaces of size 0. *)
Theorem proc_freepagetable_leaks s p k root l :
  kmem_inv end_ k (root :: l) -> page_ok end_ (p_tf (procs s p)) -> (4 <= length l)%nat ->
  exists k1 k2 l', proc_pagetable trampoline p (set_mem k s) = Ok root (set_mem k1 s) /\
    proc_freepagetable end_ root 0 k1 = Ok tt k2 /\ kmem_inv end_ k2 l' /\
    (root ∉ l') /\ (length l' < length (root :: l))%nat.
Proof.
  intros Hk Htf Hl. destruct (proc_pagetable_spec s p k root l Hk Hl Htf) as (k1 & l1 & T1 & E1 & U1 & H1 & L1 & O1 & _).
  pose proof (proc_freepagetable_zero k1 l1 root T1 [] trampoline _ U1 H1) as H2.
  apply wp_Ok in H2 as ([] & k2 & E2 & U2); [|apply tramp_page|apply Htf].
  assert (Hr : root ∉ l1) by (pose proof U2 as [[_ I Hf] _ _ _ _ _ _ _]; apply Hf; rewrite (pi_root _ _ _ _ I); eauto).
  exists k1, k2, l1. split_and!; auto; [apply U2|].
  assert (Hle : (length (root :: l1) <= length (root :: l))%nat).
  { apply submseteq_length, NoDup_submseteq; [apply NoDup_cons; split; [done|apply U2]|].
    intros q Hq. apply O1. apply elem_of_cons in Hq as [->|Hq]; [left|by right; right].
    pose proof U2 as [[_ I _] _ _ _ _ _ _ _]. rewrite (pi_root _ _ _ _ I). eauto. }
  cbn in *. lia.
Qed.

End Kst.

End ProcMem.

(** ** A process with its trapframe in the last page of memory *)

Definition Q64 : Z := E64 + 62 * PGSIZE.

Definition with_tf (f : fst lst) : kst lst :=
  (boot_kst f) <| procs := fun _ => zero_proc <| p_tf := R64 |> |>.

Lemma sample_tf f : page_ok E64 (p_tf (procs (with_tf f) 1)).
Proof. done. Qed.

Lemma proc_memory_lifecycle_witness :
  exists (s : kst lst) k k1 k2 k3 l', proc_pagetable KERNBASE 1 (set_mem k s) = Ok Q64 (set_mem k1 s) /\
    uvmalloc E64 Q64 0 10000 k1 = Ok 10000 k2 /\
    proc_freepagetable E64 Q64 10000 k2 = Ok tt k3 /\ kmem_inv E64 k3 l' /\ l' ≡ₚ pool 63.
Proof.
  destruct (pool_machine 63) as [k Hk]; [lia|]. destruct (pool_root 62) as (l & El & Hl). rewrite El in Hk |- *.
  destruct demo_blocks as [b _]. set (s := with_tf (demo b T_FILE k R64)).
  destruct (proc_memory_lifecycle E64 E64_pos KERNBASE ltac:(done) s 1 k Q64 l 10000 Hk) as (k1 & k2 & k3 & l' & E1 & E2 & _ & _ & _ & E3 & Hk3 & P).
  - apply sample_tf.
  - done.
  - rewrite Hl. vm_compute. lia.
  - by exists s, k, k1, k2, k3, l'.
Defined.

Lemma proc_freepagetable_leaks_witness :
  exists (s : kst lst) k k1 k2 l', proc_pagetable KERNBASE 1 (set_mem k s) = Ok Q64 (set_mem k1 s) /\
    proc_freepagetable E64 Q64 0 k1 = Ok tt k2 /\ kmem_inv E64 k2 l' /\ (Q64 ∉ l') /\ (length l' < 63)%nat.
Proof.
  destruct (pool_machine 63) as [k Hk]; [lia|]. destruct (pool_root 62) as (l & El & Hl). rewrite El in Hk.
  destruct demo_blocks as [b _]. set (s := with_tf (demo b T_FILE k R64)).
  destruct (proc_freepagetable_leaks E64 E64_pos KERNBASE ltac:(done) s 1 k Q64 l Hk) as (k1 & k2 & l' & E1 & E2 & Hk2 & Hr & Hlt).
  - apply sample_tf.
  - rewrite Hl. lia.
  - exists s, k, k1, k2, l'. cbn in Hlt. rewrite Hl in Hlt. auto.
Defined.
