(* ===== verification/KernFs.v ===== *)
(** * File-system routines inside system calls

    A system call runs the routines of [fs.c] through [in_fs], between [begin_op] and
    [end_op].  [TxLaws] states what the log promises around an operation that only
    reads, and the log satisfies it.  The lemmas carry the states of path lookup
    ([FsPath]) over to the kernel. *)
From stdpp Require Import base list gmap strings.
From Stdlib Require Import ZArith Lia.
From S2P Require Import Prelude KString Riscv Kalloc Vm Sleeplock Bio Log LogCrash LogOps Blocks.
From S2P Require Import Fs FsBlock FsInode FsMeta FsFile FsCache FsDir FsProps FsPath Kernel KState ProcMem.

#[local] Open Scope Z_scope.
#[local] Open Scope xv6_scope.

(** ** Around an operation *)

Definition v_idle (d : Z -> block) : bview := BView d ∅ ∅ ∅.

(** [idle b d]: no operation runs and the blocks hold [d]. *)
Class TxLaws (S : Type) {O : OpLayer S} (dev : Z) (rep : S -> bview -> Prop) (idle : S -> (Z -> block) -> Prop) : Prop := {
  tl_as : forall b v pid, rep b v -> v_held v = ∅ -> rep (ol_ack (ol_as pid b)) v;
  tl_idle_as : forall b d pid, idle b d -> idle (ol_ack (ol_as pid b)) d;
  tl_begin : forall b d, idle b d -> wp (ol_begin_op dev) (fun _ b' => rep b' (v_idle d)) b;
  tl_end : forall b d, rep b (v_idle d) -> wp (ol_end_op dev) (fun _ b' => idle b' d) b;
}.

Section LogTx.

Context (ldev st sz : Z).

(** Between operations: as inside the first one, but for its count. *)
Definition log_idle (s : lst) (d : Z -> block) : Prop :=
  outstanding (lg s) = 0 /\ log_rep ldev st sz (s <| lg := (lg s) <| outstanding := 1 |> |>) (v_idle d).

(** The view depends on the log and the cache, not on who runs when nothing is locked. *)
Lemma log_rep_as s s' v : log_rep ldev st sz s v -> v_held v = ∅ -> lg s' = lg s ->
  bc s' = (bc s) <| mypid := mypid (bc s') |> <| bc_wakes := bc_wakes (bc s') |> -> log_rep ldev st sz s' v.
Proof.
  intros [Hsz (l & a & me & W & V)] Hh El Eb. split; [done|]. exists l, a, (mypid (bc s')), W.
  destruct V as [V1 V2 V3 V4 V5 V6 V7 V8 V9 V10 V11 V12 V13 V14]. split; auto.
  - destruct V1 as [R1 R2 R3 (xs & R4)]. split; [congruence|done|by rewrite Eb|]. exists xs.
    rewrite Eb. destruct R4. split; auto.
  - intros n b Hb. rewrite Hh in Hb. done.
Qed.

Lemma log_rep_empty s d : log_rep ldev st sz s (v_idle d) -> lh_n (lg s) = 0 /\ outstanding (lg s) = 1 /\ committing (lg s) = false /\ log_lock (lg s) = false.
Proof.
  intros [_ (l & a & me & W & V)]. pose proof (lv_pin_count _ _ _ _ _ _ _ _ _ V) as Hn. destruct V as [[R1 _ _ _] _ _ [V4 V4'] V5 _ _ _ _ _ _ _ _ _].
  rewrite R1. split_and!; auto.
Qed.

#[export] Instance log_tx : TxLaws lst ldev (log_rep ldev st sz) log_idle.
Proof.
  split.
  - intros b v pid R Hh. by apply (log_rep_as b).
  - intros b d pid [H0 R]. split; [done|]. by apply (log_rep_as _ _ _ R).
  - intros b d [H0 R]. destruct (log_rep_empty _ _ R) as (H1 & _ & H3 & H4). cbn in H1, H3, H4.
    apply wp_Ok. exists tt, (b <| lg := (lg b) <| outstanding := 1 |> |>). split; [|exact R].
    change (Log.begin_op b = Ok tt (b <| lg := (lg b) <| outstanding := 1 |> |>)).
    unfold Log.begin_op, bind, log_acquire, log_release, zoom, acquire, release, set_log, modify, gets.
    rewrite H4. cbn. rewrite H3, H1, H0. cbn. destruct b as [[]]. cbn in *. by subst.
  - intros b d R. destruct (log_rep_empty _ _ R) as (H1 & H2 & H3 & H4).
    apply wp_Ok. exists tt, (b <| lg := (lg b) <| outstanding := 0 |> |> <| log_wakes := Datatypes.S (log_wakes b) |>). split.
    + change (Log.end_op ldev b = Ok tt (b <| lg := (lg b) <| outstanding := 0 |> |> <| log_wakes := Datatypes.S (log_wakes b) |>)).
      unfold Log.end_op, end_op_leave, end_op_commit, commit, bind, log_acquire, log_release, zoom, acquire, release, set_log, modify, gets, log_wakeup, ret.
      destruct b as [[] ? ?]. cbn in *. by subst.
    + split; [done|]. apply (log_rep_as b); auto; [|by destruct b as [? []]]. cbn. rewrite <- H2. by destruct (lg b).
Qed.

End LogTx.

(** ** Kernel states *)

(** Some sleeping processes have been woken. *)
Definition awoken (pr pr' : Z -> proc) : Prop :=
  forall p, pr' p = pr p \/ p_state (pr p) = SLEEPING /\ pr' p = (pr p) <| p_state := RUNNABLE |>.

Lemma awoken_refl pr : awoken pr pr.
Proof. intros p. by left. Qed.

Lemma awoken_trans pr pr1 pr2 : awoken pr pr1 -> awoken pr1 pr2 -> awoken pr pr2.
Proof.
  intros H1 H2 p. destruct (H2 p) as [->|[E2 ->]]; [apply H1|]. destruct (H1 p) as [E|[E1 E]]; rewrite E in *; [by right|done].
Qed.

Section KernFs.

Context {S : Type} {L : BlockLayer S} {O : OpLayer S}.

(** The file system has run: only its state has changed, and processes were woken. *)
Record kstep (s s' : kst S) : Prop := {
  ks_eq : s' = s <| kfs := kfs s' |> <| procs := procs s' |>;
  ks_woke : awoken (procs s) (procs s');
}.

Lemma kstep_trans s s1 s2 : kstep s s1 -> kstep s1 s2 -> kstep s s2.
Proof. intros [E1 W1] [E2 W2]. split; [rewrite E2, E1; done|by eapply awoken_trans]. Qed.

Lemma kstep_fs s f : kstep s (s <| kfs := f |>).
Proof. split; [done|apply awoken_refl]. Qed.

Lemma kstep_refl s : kstep s s.
Proof. split; [by destruct s|apply awoken_refl]. Qed.

(** The process [cur] runs, and no process is locked. *)
Definition running (s : kst S) : Prop := p_state (procs s (cur s)) = RUNNING /\ unlocked_procs s.

Lemma kstep_cur s s' : kstep s s' -> cur s' = cur s.
Proof. intros [-> _]. done. Qed.

Lemma kstep_me s s' : running s -> kstep s s' -> procs s' (cur s') = procs s (cur s).
Proof. intros [Hr _] K. rewrite (kstep_cur _ _ K). destruct (ks_woke _ _ K (cur s)) as [?|[? _]]; [done|congruence]. Qed.

Lemma kstep_running s s' : running s -> kstep s s' -> running s'.
Proof.
  intros R K. split; [rewrite (kstep_me _ _ R K); apply R|]. intros p Hp. destruct (ks_woke _ _ K p) as [->|[_ ->]]; by apply R.
Qed.

Lemma each_wakeup ws : forall s : kst S, unlocked_procs s ->
  exists pr, each ws wakeup s = Ok tt (s <| procs := pr |>) /\ awoken (procs s) pr.
Proof.
  induction ws as [|c ws IH]; intros s Hu; [exists (procs s); split; [by destruct s|apply awoken_refl]|].
  destruct (wakeup_spec c s Hu) as (pr & E & Hp). cbn [each]. rewrite (bind_Ok _ _ _ _ _ E).
  assert (Hw : awoken (procs s) pr).
  { intros p. rewrite Hp. case_decide; [|by left]. unfold woken. case_decide; [|by left]. destruct (on_chan c (procs s p)); [by right|by left]. }
  destruct (IH (s <| procs := pr |>)) as (pr2 & E2 & W2).
  { intros p Hr. destruct (Hw p) as [H|[_ H]]; cbn; rewrite H; by apply Hu. }
  exists pr2. split; [by rewrite E2|by eapply awoken_trans].
Qed.

(** Running a routine of the file system. *)
Lemma in_fs_wp {A} (m : M (fst S) A) P (Q : A -> kst S -> Prop) s :
  running s -> wp m P (fs_view s) -> (forall a s', P a (kfs s') -> kstep s s' -> Q a s') -> wp (in_fs m) Q s.
Proof.
  intros [Hr Hu] H HQ. apply wp_Ok in H as (a & g & E & HP). unfold wp, in_fs. rewrite E.
  assert (Hu' : unlocked_procs (s <| kfs := g |>)) by (intros p Hp; exact (Hu p Hp)).
  destruct (each_wakeup (ol_wakes (blk g) ++ rev (fs_wakes g)) (s <| kfs := g |>) Hu') as (pr & Ew & W).
  rewrite (bind_Ok _ _ _ _ _ Ew). apply HQ; [exact HP|]. split; [done|exact W].
Qed.

Section Laws.

Context (D : device) (rep : S -> bview -> Prop) {HL : BlockLaws S D rep}.
Context (idle : S -> (Z -> block) -> Prop) {TX : TxLaws S (d_dev D) rep idle}.
Context (sb0 : superblock) (dstart : Z) (LY : layout D sb0 dstart).

(** Inside an operation. *)
Record kop (s : kst S) (v : bview) : Prop := {
  kp_rep : rep (blk (kfs s)) v;
  kp_sb : sb (kfs s) = sb0;
  kp_lock : ic_lock (kfs s) = false;
}.

(** Inside an operation that has locked inode [inum] in entry [ip]. *)
Record klocked (s : kst S) (v : bview) (ip inum : Z) : Prop := {
  kl_op : kop s v;
  kl_cache : cache_ok D sb0 v (inodes (kfs s)) ip;
  kl_id : caches (inodes (kfs s)) ip (d_dev D) inum;
  kl_valid : i_valid (inodes (kfs s) ip) = true;
  kl_held : i_lock (inodes (kfs s) ip) = Sleeplock true false (p_pid (procs s (cur s)));
}.

Lemma view_upto s v : kop s v -> v_held v = ∅ -> fs_upto rep (fs_view s) (fs_view s) v.
Proof. intros [H1 H2 H3] Hh. split; try done. by apply tl_as. Qed.

Lemma view_locked s v ip inum : klocked s v ip inum -> v_held v = ∅ -> ilocked D rep sb0 (fs_view s) (fs_view s) v ip inum.
Proof. intros [K C I V H] Hh. split; auto. by apply view_upto. Qed.

Lemma upto_op s s' v : sb (kfs s) = sb0 -> fs_upto rep (kfs s') (fs_view s) v -> kop s' v.
Proof. intros Es [U1 U2 U3 _ _ _ _]. split; auto. by rewrite U2. Qed.

Lemma locked_op s s' v ip inum : running s -> kstep s s' -> sb (kfs s) = sb0 ->
  ilocked D rep sb0 (kfs s') (fs_view s) v ip inum -> klocked s' v ip inum.
Proof.
  intros R K Es [U C I V H]. split; auto; [by apply (upto_op s)|]. rewrite (kstep_me _ _ R K). exact H.
Qed.

(** A change of memory only. *)
Lemma klocked_mem s v ip inum k : klocked s v ip inum -> klocked (set_mem k s) v ip inum.
Proof. intros [[] ? ? ? ?]. by split. Qed.

(** A transaction for reading. *)
Lemma begin_op_wp s d (Q : unit -> kst S -> Prop) :
  running s -> idle (blk (kfs s)) d -> sb (kfs s) = sb0 -> ic_lock (kfs s) = false ->
  (forall s', kstep s s' -> kop s' (v_idle d) -> inodes (kfs s') = inodes (kfs s) -> fs_mem (kfs s') = fs_mem (kfs s) -> Q tt s') ->
  wp (begin_op (d_dev D)) Q s.
Proof.
  intros R Hi Es Hl HQ. unfold begin_op.
  apply (in_fs_wp _ (fun _ g => rep (blk g) (v_idle d) /\ g = (fs_view s) <| blk := blk g |>)); [done| |].
  - unfold in_blk. apply wp_zoom. eapply wp_mono; [apply tl_begin, (tl_idle_as _ _ (p_pid (procs s (cur s)))), Hi|]. intros [] b Hb. done.
  - intros [] s' [Hb E] K. apply HQ; auto; [split; auto|..]; by rewrite E.
Qed.

Lemma end_op_wp s d (Q : unit -> kst S -> Prop) :
  running s -> kop s (v_idle d) ->
  (forall s', kstep s s' -> idle (blk (kfs s')) d -> sb (kfs s') = sb0 -> ic_lock (kfs s') = false ->
    inodes (kfs s') = inodes (kfs s) -> fs_mem (kfs s') = fs_mem (kfs s) -> Q tt s') ->
  wp (end_op (d_dev D)) Q s.
Proof.
  intros R [Hr Es Hl] HQ. unfold end_op.
  apply (in_fs_wp _ (fun _ g => idle (blk g) d /\ g = (fs_view s) <| blk := blk g |>)); [done| |].
  - unfold in_blk. apply wp_zoom. eapply wp_mono; [apply tl_end, (tl_as _ _ (p_pid (procs s (cur s)))); [exact Hr|done]|]. intros [] b Hb. done.
  - intros [] s' [Hb E] K. apply HQ; auto; by rewrite E.
Qed.

(** Where a path starts for the running process. *)
Definition kstart (s : kst S) (p : list Z) : Z :=
  if peek p =? SLASH then ROOTINO else i_inum (inodes (kfs s) (p_cwd (procs s (cur s)))).

(** The process can look up paths. *)
Record kwalk (s : kst S) (v : bview) : Prop := {
  kw_dev : d_dev D = ROOTDEV;
  kw_cache : cache_ok D sb0 v (inodes (kfs s)) 0;
  kw_free : exists a b, a <> b /\ entry a /\ entry b /\ i_ref (inodes (kfs s) a) = 0 /\ i_ref (inodes (kfs s) b) = 0;
  kw_cwd : let c := p_cwd (procs s (cur s)) in caches (inodes (kfs s)) c (d_dev D) (i_inum (inodes (kfs s) c));
}.

Section Steps.

Context (v : bview).
Hypothesis FT : fs_tree D sb0 dstart v.

Lemma namei_wp s path p (Q : Z -> kst S -> Prop) :
  running s -> kop s v -> kwalk s v -> is_path path p -> Forall is_byte p -> Z.of_nat (length path) < 2 ^ 64 ->
  (forall ip s', kstep s s' -> kop s' v -> cache_ok D sb0 v (inodes (kfs s')) 0 -> fs_mem (kfs s') = fs_mem (kfs s) ->
    match walk_path D sb0 false v (kstart s p) (FsProps.elements p) with
    | Some n => caches (inodes (kfs s')) ip (d_dev D) n /\ refs_of (inodes (kfs s)) (inodes (kfs s')) [ip] /\
        (0 < i_ref (inodes (kfs s) ip) \/ i_nlink (dnode D sb0 v n) <> 0)
    | None => ip = 0 /\ refs_of (inodes (kfs s)) (inodes (kfs s')) []
    end -> Q ip s') ->
  wp (in_fs (namei path)) Q s.
Proof.
  intros R K [Hd C Hf Hc] Hp Hb Hl HQ. pose proof K as [K1 K2 K3].
  assert (CW : can_walk D rep sb0 v (fs_view s)) by (split; auto; apply view_upto; [done|apply FT]).
  apply (in_fs_wp _ (fun ip g => exists nm, namex_done D rep sb0 v false (fs_view s) p (walk_path D sb0 false v (kstart s p) (FsProps.elements p)) (ip, nm) g)); [done| |].
  - unfold namei. eapply wp_seq; [apply (namex_spec D rep sb0 dstart v FT false _ path p); auto; by apply Forall_replicate|].
    intros [ip nm] g H. apply wp_ret. exists nm. exact H.
  - intros ip s' (nm & U & C' & H) Ks. cbn [Datatypes.fst] in H. apply HQ; auto; [by apply (upto_op s)|apply (up_mem _ _ _ _ U)|].
    destruct (walk_path _ _ _ _ _ _); [|done]. destruct H as (H1 & H2 & H3 & _). done.
Qed.

Lemma ilock_wp s ip inum (Q : unit -> kst S -> Prop) :
  running s -> kop s v -> cache_ok D sb0 v (inodes (kfs s)) 0 -> caches (inodes (kfs s)) ip (d_dev D) inum ->
  (forall s', kstep s s' -> klocked s' v ip inum -> fs_mem (kfs s') = fs_mem (kfs s) ->
    (forall x, ikey (inodes (kfs s') x) = ikey (inodes (kfs s) x)) -> Q tt s') ->
  wp (in_fs (ilock ip)) Q s.
Proof.
  intros R K C Hc HQ. pose proof K as [K1 K2 K3].
  eapply in_fs_wp; [done|apply (ilock_step D rep sb0 dstart v FT (fs_view s) (fs_view s) ip inum); auto; apply view_upto; [done|apply FT]|].
  intros [] s' [H1 H2] Ks. apply HQ; auto; [by apply (locked_op s)|apply H1].
Qed.

Lemma iunlockput_wp s ip inum f0 l (Q : unit -> kst S -> Prop) :
  running s -> klocked s v ip inum -> icache_wf f0 -> 0 < i_ref (f0 ip) \/ i_nlink (dnode D sb0 v inum) <> 0 ->
  refs_of f0 (inodes (kfs s)) (ip :: l) ->
  (forall s', kstep s s' -> kop s' v -> cache_ok D sb0 v (inodes (kfs s')) 0 -> fs_mem (kfs s') = fs_mem (kfs s) ->
    refs_of f0 (inodes (kfs s')) l -> Q tt s') ->
  wp (in_fs (iunlockput ip)) Q s.
Proof.
  intros R K W Hk Hr HQ.
  eapply in_fs_wp; [done|apply (iunlockput_step D rep sb0 v (fs_view s) (fs_view s) ip inum f0 l); auto; by apply view_locked; [|apply FT]|].
  intros [] s' (U & C & R' & _) Ks. apply HQ; auto; [by apply (upto_op s); [apply K|]|apply U].
Qed.

End Steps.

End Laws.

End KernFs.
