(* ===== verification/ForkProps.v ===== *)
(** * [fork]: the child is a copy of the parent

    [allocproc] and [fork] of [kernel/proc.c] run on states in normal form
    ([KState]), with the memory of the two processes as in [ProcMem]. *)
From stdpp Require Import base list gmap strings.
From Stdlib Require Import ZArith Lia.
From S2P Require Import Prelude KString Riscv Kalloc Vm VmSpec VmUser VmFork VmFree VmProps Log Blocks Fs FsProps Kernel Pipe Proc KState ProcMem.

#[local] Open Scope Z_scope.
#[local] Open Scope xv6_scope.

Section Fork.

Context (end_ trampoline forkret_ : Z) {S : Type} {L : BlockLayer S} {O : OpLayer S} {LO : OpLaws S}.
Hypothesis end_pos : 0 < end_.
Hypothesis tramp_page : trampoline mod PGSIZE = 0 /\ 0 <= trampoline /\ trampoline + PGSIZE < 2 ^ 56.

Implicit Types (s : kst S) (f : fst S) (pr : Z -> proc) (fl : Z -> file) (pi : Z -> pipe).

(** ** [allocproc] *)

(** [np] is the first free entry. *)
Definition first_unused (pr : Z -> proc) (np : Z) : Prop :=
  1 <= np <= NPROC /\ p_state (pr np) = UNUSED /\ forall q, 1 <= q < np -> p_state (pr q) <> UNUSED.

Lemma relock x : p_lock x = false -> (x <| p_lock := true |> <| p_lock := false |>) = x.
Proof. destruct x. cbn. by intros ->. Qed.

Lemma search_unused s f pr fl pi nx no np :
  (forall q, 1 <= q <= NPROC -> p_lock (pr q) = false) -> first_unused pr np ->
  exists pr', search proc_list find_unused (st s f pr fl pi nx no) = Ok (Some np) (st s f pr' fl pi nx (no + 1)) /\
    (forall q, q <> np -> pr' q = pr q) /\ pr' np = ((pr np) <| p_lock := true |>).
Proof.
  intros Hl (Hnp & Hu & Hb).
  assert (H : forall n a pr, 1 <= a <= np -> np < a + Z.of_nat n -> p_state (pr np) = UNUSED ->
     (forall q, 1 <= q <= np -> p_lock (pr q) = false) -> (forall q, a <= q < np -> p_state (pr q) <> UNUSED) ->
     exists pr', search (zseq a n) find_unused (st s f pr fl pi nx no) = Ok (Some np) (st s f pr' fl pi nx (no + 1)) /\
       (forall q, q <> np -> pr' q = pr q) /\ pr' np = ((pr np) <| p_lock := true |>)).
  { clear pr Hl Hu Hb. induction n as [|n IH]; intros a pr Ha Hn Hu Hl Hb; [lia|]. cbn [zseq search].
    unfold bind at 1, find_unused at 1. rewrite (bind_Ok _ _ _ _ _ (st_plock s f pr fl pi nx no a (Hl a ltac:(lia)))).
    rewrite (bind_Ok _ _ _ _ _ (st_get_proc _ _ _ _ _ _ _ _)), upd_same. change (p_state (_ <| p_lock := true |>)) with (p_state (pr a)).
    destruct (decide (a = np)) as [->|Hne].
    - rewrite decide_True by done. eexists. split; [reflexivity|]. split; [intros q Hq; by apply upd_other|apply upd_same].
    - rewrite decide_False by (apply Hb; lia).
      assert (Hl1 : p_lock (upd pr a ((pr a) <| p_lock := true |>) a) = true) by (by rewrite upd_same).
      rewrite (bind_Ok _ _ _ _ _ (st_punlock s f _ fl pi nx (no + 1) a Hl1)).
      unfold ret. replace (no + 1 - 1) with no by lia.
      set (pr1 := upd (upd _ _ _) _ _).
      assert (E1 : forall q, pr1 q = pr q).
      { intros q. unfold pr1. destruct (decide (q = a)) as [->|]; [|by rewrite !upd_other].
        rewrite !upd_same. apply relock, Hl. lia. }
      destruct (IH (a + 1) pr1) as (pr2 & E & H2 & H3); [lia|lia|by rewrite E1|intros; rewrite E1; auto|intros; rewrite E1; apply Hb; lia|].
      exists pr2. split; [exact E|]. split; [intros; by rewrite H2, E1|by rewrite H3, E1]. }
  apply (H (Z.to_nat NPROC) 1); auto; intros; try apply Hl; try apply Hb; unfold NPROC in *; lia.
Qed.

Definition new_proc (x : proc) (pid tf pt : Z) : proc :=
  x <| p_lock := true |> <| p_pid := pid |> <| p_tf := tf |> <| p_pagetable := pt |>
    <| p_context := Context forkret_ (u64 (p_kstack x + PGSIZE)) (replicate 12 0) |>.

Lemma allocproc_spec s f pr fl pi nx no np tf root l :
  (forall q, 1 <= q <= NPROC -> p_lock (pr q) = false) -> first_unused pr np ->
  kmem_inv end_ (fs_mem f) (tf :: root :: l) -> (4 <= length l)%nat ->
  exists pr' k' l' T,
    allocproc trampoline forkret_ (st s f pr fl pi nx no) = Ok np (st s (f <| fs_mem := k' |>) pr' fl pi (nx + 1) (no + 1)) /\
    (forall q, q <> np -> pr' q = pr q) /\ pr' np = new_proc (pr np) nx tf root /\
    umem end_ k' l' root T [] /\ high_mapped k' root trampoline tf /\
    (length l <= 4 + length l')%nat /\ (forall q, owns T [] l' q <-> q ∈ root :: l) /\
    forall a, (forall q, q ∈ tf :: root :: l -> ~ in_page q a) -> ram k' a = ram (fs_mem f) a.
Proof.
  intros Hl Hu Hk Hlen. destruct (search_unused s f pr fl pi nx no np Hl Hu) as (pr1 & E1 & H1 & H1').
  destruct (kalloc_some end_ end_pos _ _ _ Hk) as (k1 & Ek & Hk1 & M1).
  assert (Htf : page_ok end_ tf) by (pose proof Hk as [_ _ _ Hpg _]; by apply Forall_cons in Hpg as [? _]).
  set (pr2 := upd pr1 np ((pr1 np) <| p_pid := nx |>)). set (pr3 := upd pr2 np ((pr2 np) <| p_tf := tf |>)).
  set (s3 := st s f pr3 fl pi (nx + 1) (no + 1)).
  assert (Et : p_tf (procs s3 np) = tf) by (change (procs s3) with pr3; unfold pr3; by rewrite upd_same).
  destruct (proc_pagetable_spec end_ end_pos trampoline tramp_page s3 np k1 root l Hk1 Hlen) as (k2 & l2 & T & E2 & U2 & H2 & L2 & O2 & M2);
    [by rewrite Et|]. rewrite Et in H2.
  eexists _, k2, l2, T. split; [|split_and!; [..|exact U2|exact H2|exact L2|exact O2|]].
  - unfold allocproc. rewrite (bind_Ok _ _ _ _ _ E1), (bind_Ok _ _ _ _ _ (st_allocpid _ _ _ _ _ _ _)).
    rewrite (bind_Ok _ _ _ _ _ (st_set_proc _ _ _ _ _ _ _ _ _)). fold pr2.
    rewrite (bind_Ok _ _ _ _ _ (st_in_kmem _ _ _ _ _ _ _ _ _ _ Ek)).
    rewrite (bind_Ok _ _ _ _ _ (st_set_proc _ _ _ _ _ _ _ _ _)). fold pr3.
    rewrite (proj2 (Z.eqb_neq tf 0)) by (pose proof (page_ok_range _ end_pos _ Htf); lia).
    change (st s (f <| fs_mem := k1 |>) pr3 fl pi (nx + 1) (no + 1)) with (set_mem k1 s3).
    rewrite (bind_Ok _ _ _ _ _ E2). change (set_mem k2 s3) with (st s (f <| fs_mem := k2 |>) pr3 fl pi (nx + 1) (no + 1)).
    rewrite (bind_Ok _ _ _ _ _ (st_set_proc _ _ _ _ _ _ _ _ _)), (bind_Ok _ _ _ _ _ (st_set_proc _ _ _ _ _ _ _ _ _)).
    reflexivity.
  - intros q Hq. unfold pr3, pr2. rewrite !upd_other by done. by apply H1.
  - rewrite !upd_same. unfold pr3. rewrite upd_same. unfold pr2. rewrite upd_same, H1'. reflexivity.
  - intros a Ha. rewrite M2 by (intros q Hq; apply Ha; by right). rewrite M1, decide_False; [done|]. apply Ha. by left.
Qed.

(** ** The open files *)

Lemma st_get_ofile s f pr fl pi nx no p i :
  get_ofile p i (st s f pr fl pi nx no) = Ok (default 0 (p_ofile (pr p) !! Z.to_nat i)) (st s f pr fl pi nx no).
Proof. reflexivity. Qed.

Lemma fill_ofile (ofs : list Z) a x m :
  ofs !! a = Some x -> <[a := x]> (take a ofs ++ replicate (Datatypes.S m) 0) = take (Datatypes.S a) ofs ++ replicate m 0.
Proof.
  intros H. pose proof (lookup_lt_Some _ _ _ H). rewrite (take_S_r _ _ _ H), <- app_assoc. cbn.
  rewrite insert_app_r_alt by (rewrite length_take; lia). rewrite length_take, Nat.min_l by lia. by rewrite Nat.sub_diag.
Qed.

Definition more_refs (fl : Z -> file) (l : list Z) (fl' : Z -> file) : Prop :=
  forall x, x <> 0 -> fl' x = ((fl x) <| f_ref := f_ref (fl x) + Z.of_nat (count_occ Z.eq_dec l x) |>).

Lemma more_refs_nil fl : more_refs fl [] fl.
Proof. intros x _. rewrite count_occ_nil, Z.add_0_r. by destruct (fl x). Qed.

Lemma more_refs_cons fl x l fl' :
  x <> 0 -> more_refs (upd fl x ((fl x) <| f_ref := f_ref (fl x) + 1 |>)) l fl' -> more_refs fl (x :: l) fl'.
Proof.
  intros Hx H y Hy. rewrite (H y Hy). destruct (decide (y = x)) as [->|Hne].
  - rewrite upd_same, count_occ_cons_eq by done. destruct (fl x). cbn. f_equal. lia.
  - by rewrite upd_other, count_occ_cons_neq by auto.
Qed.

Lemma dup_ofiles s f p np ofs pi nx no : p <> np -> forall n a pr fl,
  length ofs = (a + n)%nat -> p_ofile (pr p) = ofs -> p_ofile (pr np) = take a ofs ++ replicate n 0 ->
  (forall x, x ∈ drop a ofs -> x <> 0 -> 1 <= f_ref (fl x)) ->
  exists pr' fl', each (zseq (Z.of_nat a) n) (dup_ofile p np) (st s f pr fl pi nx no) = Ok tt (st s f pr' fl' pi nx no) /\
    (forall q, q <> np -> pr' q = pr q) /\ pr' np = ((pr np) <| p_ofile := ofs |>) /\ more_refs fl (drop a ofs) fl'.
Proof.
  intros Hne. induction n as [|n IH]; intros a pr fl Hlen Hp Hnp Hr; cbn [zseq each].
  - exists pr, fl. split; [done|]. rewrite drop_ge by lia. split_and!; [done| |apply more_refs_nil].
    rewrite app_nil_r, firstn_all2 in Hnp by lia. destruct (pr np). cbn in *. by subst.
  - destruct (lookup_lt_is_Some_2 ofs a) as [x Hx]; [lia|]. rewrite (drop_S _ _ _ Hx) in Hr |- *.
    replace (Z.of_nat a + 1) with (Z.of_nat (Datatypes.S a)) by lia.
    unfold bind at 1, dup_ofile at 1. rewrite (bind_Ok _ _ _ _ _ (st_get_ofile _ _ _ _ _ _ _ _ _)).
    rewrite Nat2Z.id, Hp, Hx. change (default 0 (Some x)) with x. pose proof (fill_ofile ofs a x n Hx) as Hf.
    destruct (Z.eqb_spec x 0) as [->|Hx0].
    + unfold ret. destruct (IH (Datatypes.S a) pr fl) as (pr' & fl' & E & H1 & H2 & H3); [lia|done| |intros y Hy; apply Hr; by right|].
      { rewrite Hnp, <- Hf. rewrite list_insert_id; [done|]. rewrite lookup_app_r by (rewrite length_take; lia).
        by rewrite length_take, Nat.min_l, Nat.sub_diag by lia. }
      exists pr', fl'. split_and!; auto. intros y Hy. rewrite (H3 y Hy), count_occ_cons_neq by auto. done.
    + rewrite (bind_Ok _ _ _ _ _ (st_filedup s f pr fl pi nx no x (Hr x ltac:(by left) Hx0))).
      unfold set_ofile. rewrite st_set_proc, Nat2Z.id. set (pr1 := upd pr np _). set (fl1 := upd fl x _).
      destruct (IH (Datatypes.S a) pr1 fl1) as (pr' & fl' & E & H1 & H2 & H3).
      * lia.
      * unfold pr1. by rewrite upd_other.
      * unfold pr1. rewrite upd_same. cbn [p_ofile field_update]. by rewrite Hnp, Hf.
      * intros y Hy Hy0. unfold fl1. destruct (decide (y = x)) as [->|]; [rewrite upd_same; cbn; specialize (Hr x ltac:(by left) Hy0); lia|].
        rewrite upd_other by done. apply Hr; [by right|done].
      * exists pr', fl'. split; [exact E|]. split_and!; [|rewrite H2; unfold pr1; by rewrite upd_same|by apply more_refs_cons].
        intros q Hq. rewrite H1 by done. unfold pr1. by rewrite upd_other.
Qed.

(** ** The memory *)

Definition tf_copied (k : kmem) (tf ptf : Z) : kmem :=
  let m := write_bytes (ram k) tf (read_bytes (ram k) ptf (Z.to_nat TF_size)) in
  k <| ram := store64 m (tf + TF_a0) 0 |>.

Lemma tf_copied_outside k tf ptf a : ~ in_page tf a -> ram (tf_copied k tf ptf) a = ram k a.
Proof.
  intros Ha. unfold tf_copied, in_page, PGSIZE in *. cbn [ram field_update].
  rewrite store64_outside by (unfold TF_a0; lia). apply write_bytes_outside. rewrite length_read_bytes. unfold TF_size. lia.
Qed.

Lemma tf_copied_a0 k tf ptf : load64 (ram (tf_copied k tf ptf)) (tf + TF_a0) = 0.
Proof. unfold tf_copied. cbn [ram field_update]. by rewrite load_store64. Qed.

Lemma tf_copied_reg k tf ptf o : 0 <= o < TF_size -> ~ TF_a0 <= o < TF_a0 + 8 ->
  ram (tf_copied k tf ptf) (tf + o) = ram k (ptf + o).
Proof.
  intros Ho Hn. unfold tf_copied. cbn [ram field_update]. rewrite store64_outside by lia.
  rewrite write_bytes_get, length_read_bytes, decide_True by lia.
  rewrite read_bytes_lookup by lia. cbn. f_equal. lia.
Qed.

Lemma tf_copied_ok k tf ptf : mem_ok (ram k) -> mem_ok (ram (tf_copied k tf ptf)).
Proof. intros H. apply store64_ok, write_bytes_ok; [done|]. by apply read_bytes_byte. Qed.

(** The parent beside the address space that [allocproc] has made. *)
Lemma child_made k0 tf root l pt T1 fr1 k1 l1 T :
  umem end_ k0 (tf :: root :: l) pt T1 fr1 -> umem end_ k1 l1 root T [] ->
  (forall q, owns T [] l1 q <-> q ∈ root :: l) ->
  (forall a, (forall q, q ∈ tf :: root :: l -> ~ in_page q a) -> ram k1 a = ram k0 a) ->
  forked end_ k1 l1 pt T1 fr1 root T [] /\ same_data k0 k1 fr1.
Proof.
  intros U0 U1 Ho Hm. assert (Hk0 := vr_kmem _ _ _ _ _ (um_rep _ _ _ _ _ _ U0)).
  destruct (umem_other end_ k0 (tf :: root :: l) pt T1 fr1 k1 l1 U0) as [U D].
  - apply U1.
  - intros q Hq. left. right. apply Ho. by right; right.
  - intros q a Hq Ha. apply Hm. intros x Hx. destruct (held_ok end_ _ _ _ _ _ _ U0 Hq) as [Hqok Hni].
    apply (held_apart end_ q x a); auto; [|congruence].
    destruct Hk0 as [_ _ _ Hpg _]. by apply (proj1 (Forall_forall _ _) Hpg).
  - split; [|done]. split; [done|done| |by intros].
    intros q Hq Hq'. destruct (held_ok end_ _ _ _ _ _ _ U0 Hq) as [_ Hni]. apply Hni. right. apply Ho.
    destruct Hq' as [?|Hn]; [by left|by apply elem_of_nil in Hn].
Qed.

Record child_memory (k0 k : kmem) (l : list Z) (pt : Z) (T1 : gmap Z (nat * Z)) (fr1 : list (Z * Z))
                    (root : Z) (T2 : gmap Z (nat * Z)) (fr2 : list (Z * Z)) (tf ptf : Z) : Prop := {
  cm_forked : forked end_ k l pt T1 fr1 root T2 fr2;
  cm_len : length fr2 = length fr1;
  cm_parent : same_data k0 k fr1;
  cm_high : high_mapped k root trampoline tf;
  cm_a0 : load64 (ram k) (tf + TF_a0) = 0;
  cm_tf : freeable end_ l T2 tf /\ ~ held T1 fr1 tf /\ ~ held T2 fr2 tf;
  cm_regs : forall o, 0 <= o < TF_size -> ~ TF_a0 <= o < TF_a0 + 8 -> ram k (tf + o) = ram k0 (ptf + o);
}.

Lemma fork_memory k0 tf root l pt T1 fr1 sz k1 l1 T ptf :
  umem end_ k0 (tf :: root :: l) pt T1 fr1 -> umem end_ k1 l1 root T [] -> high_mapped k1 root trampoline tf ->
  (forall q, owns T [] l1 q <-> q ∈ root :: l) ->
  (forall a, (forall q, q ∈ tf :: root :: l -> ~ in_page q a) -> ram k1 a = ram k0 a) ->
  0 <= sz <= TRAPFRAME -> length fr1 = pages sz -> (3 + 3 * pages sz <= length l1)%nat ->
  page_ok end_ ptf -> (ptf ∉ tf :: root :: l) ->
  exists k2 l2 T2 fr2, uvmcopy end_ pt root sz k1 = Ok 0 k2 /\
    child_memory k0 (tf_copied k2 tf ptf) l2 pt T1 fr1 root T2 fr2 tf ptf.
Proof.
  intros U0 U1 H1 Ho Hm Hsz Hlen Hl Hptf Hpni. destruct (child_made _ _ _ _ _ _ _ _ _ _ U0 U1 Ho Hm) as [F1 D1].
  assert (Hk0 := vr_kmem _ _ _ _ _ (um_rep _ _ _ _ _ _ U0)).
  assert (Hok : forall q, q ∈ tf :: root :: l -> page_ok end_ q)
    by (destruct Hk0 as [_ _ _ Hpg _]; by apply Forall_forall).
  pose proof (uvmcopy_rep end_ end_pos pt T1 fr1 root k1 l1 T sz F1 Hsz Hlen) as H.
  apply wp_Ok in H as (r & k2 & E & l2 & T2 & fr2 & F2 & D2 & S2 & G2 & W2 & [[-> Hn]|(_ & _ & Hfew)]); [|lia|lia].
  exists k2, l2, T2, fr2. split; [done|]. destruct F2 as [A1 A2 A3 A4].
  assert (Ho2 : forall q, owns T2 fr2 l2 q <-> q ∈ root :: l) by (intros q; rewrite (S2 q); apply Ho).
  assert (Htf : tf ∉ root :: l) by (destruct Hk0 as [_ _ Hnd _ _]; by apply NoDup_cons in Hnd as [? _]).
  assert (Htf2 : ~ owns T2 fr2 l2 tf) by (by rewrite Ho2).
  assert (Htf1 : ~ held T1 fr1 tf) by (intros Hh; destruct (held_ok end_ _ _ _ _ _ _ U0 Hh) as [_ Hni]; apply Hni; by left).
  assert (Hmok : mem_ok (ram (tf_copied k2 tf ptf))) by (apply tf_copied_ok, A1).
  assert (Hni : tf ∉ l2) by (intros Hq; apply Htf2; by right; right).
  destruct (umem_ram end_ k2 l2 pt T1 fr1 tf (ram (tf_copied k2 tf ptf)) A1) as (B1 & D3 & _); auto using tf_copied_outside.
  { apply Hok. by left. }
  destruct (umem_ram end_ k2 l2 root T2 fr2 tf (ram (tf_copied k2 tf ptf)) A2) as (B2 & D4 & G4); auto using tf_copied_outside.
  { apply Hok. by left. }
  { intros [?|?]; apply Htf2; [by left|by right; left]. }
  change (k2 <| ram := ram (tf_copied k2 tf ptf) |>) with (tf_copied k2 tf ptf) in *.
  split; [split; [done|done|done|]|done| | |apply tf_copied_a0| |].
  - intros j x y Hx Hy. destruct (A4 j x y Hx Hy) as [Hp Hc]. split; [done|]. intros o Hoo.
    rewrite (D4 y.1), (D3 x.1); auto; try (apply list_elem_of_fmap; eexists; split; [done|by eapply list_elem_of_lookup_2]);
      unfold in_page; lia.
  - do 2 (eapply same_data_trans; [eassumption|]). done.
  - apply (high_mapped_same k2); [|done]. by apply (high_mapped_same k1).
  - split; [split; [apply Hok; by left|split; [done|apply eq_None_not_Some; intros ?; apply Htf2; by left]]|split; [done|]].
    intros [?|?]; apply Htf2; [by left|by right; left].
  - intros o Hoo Hn2. rewrite tf_copied_reg by done.
    assert (Hin : forall q, q ∈ tf :: root :: l -> ~ in_page q (ptf + o)).
    { intros q Hq. apply (held_apart end_ ptf q); auto; [congruence|]. unfold in_page, TF_size, PGSIZE in *. lia. }
    rewrite (W2 (ptf + o)); [by apply Hm|]. intros q Hq. apply Hin. right. by apply Ho.
Qed.

(** ** [fork] *)

Lemma copy_tf_st s f pr fl pi nx no np p :
  copy_tf np p (st s f pr fl pi nx no) =
    Ok tt (st s (f <| fs_mem := (fs_mem f) <| ram := write_bytes (ram (fs_mem f)) (p_tf (pr np))
      (read_bytes (ram (fs_mem f)) (p_tf (pr p)) (Z.to_nat TF_size)) |> |>) pr fl pi nx no).
Proof. reflexivity. Qed.

Lemma tf_store_st s f pr fl pi nx no p off v :
  tf_store p off v (st s f pr fl pi nx no) =
    Ok tt (st s (f <| fs_mem := (fs_mem f) <| ram := store64 (ram (fs_mem f)) (p_tf (pr p) + off) v |> |>) pr fl pi nx no).
Proof. reflexivity. Qed.

Lemma idup_st s f pr fl pi nx no ip :
  ic_lock f = false ->
  exists g, in_fs (idup ip) (st s f pr fl pi nx no) = Ok ip (st s g pr fl pi nx no) /\
    fs_mem g = fs_mem f /\ ic_lock g = false /\ inodes g = upd (inodes f) ip ((inodes f ip) <| i_ref := i_ref (inodes f ip) + 1 |>).
Proof.
  intros Hl. set (v := fs_view (st s f pr fl pi nx no)).
  exists (v <| inodes := upd (inodes f) ip ((inodes f ip) <| i_ref := i_ref (inodes f ip) + 1 |>) |> <| ic_lock := false |>).
  split; [|done]. apply st_in_fs; [|apply ol_acked|done].
  unfold idup, bind, acquire, release, set_inode, modify, ret. fold v.
  assert (Hv : ic_lock v = false) by exact Hl. rewrite Hv. reflexivity.
Qed.

(** The process table and the files after [fork]. *)
Record child_of (s s' : kst S) (p np : Z) : Prop := {
  co_state : p_state (procs s' np) = RUNNABLE;
  co_lock : p_lock (procs s' np) = false;
  co_parent : p_parent (procs s' np) = p;
  co_pid : p_pid (procs s' np) = nextpid s;
  co_sz : p_sz (procs s' np) = p_sz (procs s p);
  co_ofile : p_ofile (procs s' np) = p_ofile (procs s p);
  co_cwd : p_cwd (procs s' np) = p_cwd (procs s p);
  co_name : p_name (procs s' np) = copy_name (p_name (procs s np)) (p_name (procs s p)) 16;
  co_pc : ctx_ra (p_context (procs s' np)) = forkret_;
  co_others : forall q, q <> np -> procs s' q = procs s q;
  co_files : more_refs (files s) (p_ofile (procs s p)) (files s');
  co_inodes : inodes (kfs s') = upd (inodes (kfs s)) (p_cwd (procs s p))
     ((inodes (kfs s) (p_cwd (procs s p))) <| i_ref := i_ref (inodes (kfs s) (p_cwd (procs s p))) + 1 |>);
}.

(** The locks of the tables are free. *)
Definition unlocked (s : kst S) : Prop :=
  pid_lock s = false /\ ft_lock s = false /\ ic_lock (kfs s) = false /\
  forall q, 1 <= q <= NPROC -> p_lock (procs s q) = false.

(** [fork] from the call of [uvmcopy] on. *)
Lemma fork_rest s f pr fl pi nx no p np k2 :
  p <> np -> cur s = p -> ic_lock f = false ->
  p_lock (pr np) = true -> length (p_ofile (pr p)) = 16%nat -> p_ofile (pr np) = replicate 16 0 ->
  (forall x, x ∈ p_ofile (pr p) -> x <> 0 -> 1 <= f_ref (fl x)) ->
  uvmcopy end_ (p_pagetable (pr p)) (p_pagetable (pr np)) (p_sz (pr p)) (fs_mem f) = Ok 0 k2 ->
  allocproc trampoline forkret_ s = Ok np (st s f pr fl pi nx no) -> np <> 0 ->
  exists g pr' fl', fork end_ trampoline forkret_ s = Ok (p_pid (pr np)) (st s g pr' fl' pi nx (no - 1)) /\
    fs_mem g = tf_copied k2 (p_tf (pr np)) (p_tf (pr p)) /\ ic_lock g = false /\
    inodes g = upd (inodes f) (p_cwd (pr p)) ((inodes f (p_cwd (pr p))) <| i_ref := i_ref (inodes f (p_cwd (pr p))) + 1 |>) /\
    more_refs fl (p_ofile (pr p)) fl' /\ (forall q, q <> np -> pr' q = pr q) /\
    pr' np = (pr np) <| p_sz := p_sz (pr p) |> <| p_parent := p |> <| p_ofile := p_ofile (pr p) |> <| p_cwd := p_cwd (pr p) |>
               <| p_name := copy_name (p_name (pr np)) (p_name (pr p)) 16 |> <| p_state := RUNNABLE |> <| p_lock := false |>.
Proof.
  intros Hne Hcur Hic Hlk Hlen Hof Hrefs Ecp Ea Hnp. unfold fork. unfold bind at 1, myproc at 1, gets at 1. rewrite Hcur.
  rewrite (bind_Ok _ _ _ _ _ Ea), (proj2 (Z.eqb_neq np 0)) by done.
  rewrite (bind_Ok _ _ _ _ _ (st_get_proc _ _ _ _ _ _ _ _)), (bind_Ok _ _ _ _ _ (st_get_proc _ _ _ _ _ _ _ _)).
  rewrite (bind_Ok _ _ _ _ _ (st_in_kmem _ _ _ _ _ _ _ _ _ _ Ecp)). change (0 <? 0) with false. cbv iota.
  rewrite (bind_Ok _ _ _ _ _ (st_set_proc _ _ _ _ _ _ _ _ _)), (bind_Ok _ _ _ _ _ (st_set_proc _ _ _ _ _ _ _ _ _)).
  rewrite upd_same. set (pr2 := upd (upd pr np _) np _).
  assert (E2 : pr2 np = (pr np) <| p_sz := p_sz (pr p) |> <| p_parent := p |>) by (unfold pr2; by rewrite upd_same).
  assert (E2' : forall q, q <> np -> pr2 q = pr q) by (intros q Hq; unfold pr2; by rewrite !upd_other).
  clearbody pr2.
  rewrite (bind_Ok _ _ _ _ _ (copy_tf_st _ _ _ _ _ _ _ _ _)), (bind_Ok _ _ _ _ _ (tf_store_st _ _ _ _ _ _ _ _ _ _)).
  rewrite E2, (E2' p Hne). set (f3 := (_ : fst S) <| fs_mem := _ |>).
  assert (Ef : fs_mem f3 = tf_copied k2 (p_tf (pr np)) (p_tf (pr p)) /\ inodes f3 = inodes f /\ ic_lock f3 = ic_lock f) by done.
  clearbody f3. destruct Ef as (Ef1 & Ef2 & Ef3).
  destruct (dup_ofiles s f3 p np (p_ofile (pr p)) pi nx no Hne 16 0 pr2 fl) as (pr3 & fl3 & E3 & H3 & H3' & H3r);
    [done|by rewrite E2'|by rewrite E2|done|].
  rewrite (bind_Ok _ _ _ _ _ E3). rewrite drop_0 in H3r.
  destruct (idup_st s f3 pr3 fl3 pi nx no (p_cwd (pr p))) as (g & Eg & Hg1 & Hg3 & Hg2); [by rewrite Ef3|].
  rewrite (bind_Ok _ _ _ _ _ Eg), (bind_Ok _ _ _ _ _ (st_set_proc _ _ _ _ _ _ _ _ _)), (bind_Ok _ _ _ _ _ (st_set_proc _ _ _ _ _ _ _ _ _)).
  rewrite (bind_Ok _ _ _ _ _ (st_get_proc _ _ _ _ _ _ _ _)), (bind_Ok _ _ _ _ _ (st_set_proc _ _ _ _ _ _ _ _ _)).
  rewrite !upd_same, H3', E2. set (pr4 := upd _ np _).
  assert (E4 : pr4 np = (pr np) <| p_sz := p_sz (pr p) |> <| p_parent := p |> <| p_ofile := p_ofile (pr p) |> <| p_cwd := p_cwd (pr p) |>
               <| p_name := copy_name (p_name (pr np)) (p_name (pr p)) 16 |> <| p_state := RUNNABLE |>) by (unfold pr4; by rewrite upd_same).
  assert (E4' : forall q, q <> np -> pr4 q = pr q) by (intros q Hq; unfold pr4; rewrite !upd_other by done; rewrite H3 by done; by apply E2').
  clearbody pr4. rewrite (bind_Ok _ _ _ _ _ (st_punlock s g pr4 fl3 pi nx no np ltac:(rewrite E4; exact Hlk))).
  eexists g, _, fl3. split; [reflexivity|]. split_and!; [by rewrite Hg1|done|by rewrite Hg2, Ef2|done| |by rewrite upd_same, E4].
  intros q Hq. rewrite upd_other by done. by apply E4'.
Qed.

Lemma fork_spec s np tf root l T1 fr1 :
  let x := procs s (cur s) in
  unlocked s -> first_unused (procs s) np -> 1 <= cur s <= NPROC -> p_state x <> UNUSED ->
  umem end_ (fs_mem (kfs s)) (tf :: root :: l) (p_pagetable x) T1 fr1 ->
  0 <= p_sz x <= TRAPFRAME -> length fr1 = pages (p_sz x) -> (7 + 3 * pages (p_sz x) <= length l)%nat ->
  page_ok end_ (p_tf x) -> (p_tf x ∉ tf :: root :: l) ->
  length (p_ofile x) = 16%nat -> p_ofile (procs s np) = replicate 16 0 ->
  (forall y, y ∈ p_ofile x -> y <> 0 -> 1 <= f_ref (files s y)) ->
  exists s' l' T2 fr2, fork end_ trampoline forkret_ s = Ok (nextpid s) s' /\ child_of s s' (cur s) np /\
    child_memory (fs_mem (kfs s)) (fs_mem (kfs s')) l' (p_pagetable x) T1 fr1 root T2 fr2 tf (p_tf x) /\
    p_pagetable (procs s' np) = root /\ p_tf (procs s' np) = tf /\
    nextpid s' = nextpid s + 1 /\ k_noff s' = k_noff s /\ cur s' = cur s /\ unlocked s'.
Proof.
  intros x (H1 & H2 & H3 & H4) Hu Hcur Hst U Hsz Hlen Hl Htf Hni Hof Hof' Hrefs. pose proof (st_id s H1 H2) as Es.
  assert (Hne : cur s <> np) by (intros E; destruct Hu as (_ & Hu & _); unfold x in Hst; rewrite E in Hst; done).
  destruct (allocproc_spec s (kfs s) (procs s) (files s) (pipes s) (nextpid s) (k_noff s) np tf root l H4 Hu)
    as (pr1 & k1 & l1 & T & Ea & P1 & P1' & U1 & G1 & L1 & O1 & M1); [apply U|lia|].
  destruct (fork_memory (fs_mem (kfs s)) tf root l (p_pagetable x) T1 fr1 (p_sz x) k1 l1 T (p_tf x)) as (k2 & l2 & T2 & fr2 & E2 & C2); auto; [lia|].
  rewrite <- Es in Ea.
  destruct (fork_rest s ((kfs s) <| fs_mem := k1 |>) pr1 (files s) (pipes s) (nextpid s + 1) (k_noff s + 1) (cur s) np k2)
    as (g & pr' & fl' & Ef & G3 & G8 & G4 & G5 & G6 & G7); auto; rewrite ?P1', ?(P1 _ Hne) in *; try done; [destruct Hu; lia|].
  change (p_pid (new_proc (procs s np) (nextpid s) tf root)) with (nextpid s) in Ef.
  exists (st s g pr' fl' (pipes s) (nextpid s + 1) (k_noff s + 1 - 1)), l2, T2, fr2. split_and!; [done| | | | |done|cbn; lia|done|].
  - split; change (procs (st s g pr' fl' (pipes s) (nextpid s + 1) (k_noff s + 1 - 1))) with pr'; rewrite ?G7; try reflexivity.
    + intros q Hq. rewrite G6 by done. by apply P1.
    + exact G5.
    + exact G4.
  - change (child_memory (fs_mem (kfs s)) (fs_mem g) l2 (p_pagetable x) T1 fr1 root T2 fr2 tf (p_tf x)). rewrite G3. exact C2.
  - change (p_pagetable (pr' np) = root). by rewrite G7.
  - change (p_tf (pr' np) = tf). by rewrite G7.
  - split; [done|split; [done|split; [exact G8|]]]. intros q Hq. change (p_lock (pr' q) = false). destruct (decide (q = np)) as [->|]; [by rewrite G7|].
    rewrite G6, P1 by done. by apply H4.
Qed.

(** C12: [fork] makes a copy of the process.  With a free entry in the table and
    enough free pages it returns a new pid; the child has a copy of every page of
    the parent in frames of its own, the parent's registers except that [a0] is
    0, the same open files and current directory, each with one more reference,
    and is runnable; the parent, its memory and all other processes are as they
    were. *)
Theorem fork_copies s np tf root l T1 fr1 :
  let x := procs s (cur s) in
  unlocked s -> first_unused (procs s) np -> 1 <= cur s <= NPROC -> p_state x <> UNUSED ->
  umem end_ (fs_mem (kfs s)) (tf :: root :: l) (p_pagetable x) T1 fr1 ->
  0 <= p_sz x <= TRAPFRAME -> length fr1 = pages (p_sz x) -> (7 + 3 * pages (p_sz x) <= length l)%nat ->
  page_ok end_ (p_tf x) -> (p_tf x ∉ tf :: root :: l) ->
  length (p_ofile x) = 16%nat -> p_ofile (procs s np) = replicate 16 0 ->
  (forall y, y ∈ p_ofile x -> y <> 0 -> 1 <= f_ref (files s y)) ->
  exists s' l' T2 fr2, fork end_ trampoline forkret_ s = Ok (nextpid s) s' /\ child_of s s' (cur s) np /\
    child_memory (fs_mem (kfs s)) (fs_mem (kfs s')) l' (p_pagetable x) T1 fr1 root T2 fr2 tf (p_tf x) /\
    p_pagetable (procs s' np) = root /\ p_tf (procs s' np) = tf /\
    nextpid s' = nextpid s + 1 /\ k_noff s' = k_noff s /\ cur s' = cur s /\ unlocked s'.
Proof. apply fork_spec. Qed.

End Fork.

(** ** A process of one page forks *)

(** Memory with a process of one page and its trapframe. *)
Lemma sample_memory :
  exists k l T new tf, umem E64 k l R64 T (frames new) /\ length new = 1%nat /\ (59 <= length l)%nat /\
    page_ok E64 tf /\ (tf ∉ l).
Proof.
  destruct sample_process as (k & l & T & new & U & Hn & _ & Hl). destruct l as [|tf l]; [cbn in Hl; lia|].
  assert (Hk := vr_kmem _ _ _ _ _ (um_rep _ _ _ _ _ _ U)).
  destruct (umem_kalloc E64 E64_pos k tf l Hk) as (k' & _ & Hk'). exists k', l, T, new, tf.
  pose proof Hk as [_ _ Hnd Hpg _]. apply NoDup_cons in Hnd as [Hni _]. apply Forall_cons in Hpg as [Hp _].
  cbn in Hl. split_and!; auto. lia.
Qed.

Definition fork_procs (tf : Z) : Z -> proc :=
  upd (fun _ => zero_proc) 1
    (zero_proc <| p_state := RUNNING |> <| p_pid := 1 |> <| p_pagetable := R64 |> <| p_sz := 4096 |> <| p_tf := tf |>
               <| p_ofile := 3 :: 3 :: 7 :: replicate 13 0 |> <| p_cwd := 1 |>).

Definition fork_sample (b : lst) (k : kmem) (tf : Z) : kst lst :=
  (boot_kst (demo b T_FILE k R64)) <| cur := 1 |> <| procs := fork_procs tf |>
    <| files := fun _ => zero_file <| f_ref := 2 |> |> <| nextpid := 2 |>.

Lemma fork_sample_ok : exists b k ptf tf root l T new,
  let s := fork_sample b k ptf in let x := procs s (cur s) in
  unlocked s /\ first_unused (procs s) 2 /\ 1 <= cur s <= NPROC /\ p_state x <> UNUSED /\
  umem E64 (fs_mem (kfs s)) (tf :: root :: l) (p_pagetable x) T (frames new) /\
  0 <= p_sz x <= TRAPFRAME /\ length (frames new) = pages (p_sz x) /\ (7 + 3 * pages (p_sz x) <= length l)%nat /\
  page_ok E64 (p_tf x) /\ (p_tf x ∉ tf :: root :: l) /\
  length (p_ofile x) = 16%nat /\ p_ofile (procs s 2) = replicate 16 0 /\
  (forall y, y ∈ p_ofile x -> y <> 0 -> 1 <= f_ref (files s y)).
Proof.
  destruct sample_memory as (k & l & T & new & ptf & U & Hn & Hl & Hp & Hni). destruct l as [|tf [|root l]]; [cbn in Hl; lia..|].
  destruct demo_blocks as [b _]. exists b, k, ptf, tf, root, l, T, new. set (s := fork_sample b k ptf). cbv zeta.
  change (cur s) with 1. change (p_sz (procs s 1)) with 4096. change (pages 4096) with 1%nat. cbn [length] in Hl.
  unfold unlocked, first_unused. repeat match goal with |- _ /\ _ => split end;
    try reflexivity; try discriminate; try exact U; try exact Hni; try exact Hp;
    try (rewrite length_frames, Hn; reflexivity); try (unfold NPROC; lia); try lia.
  - intros q _. change (p_lock (fork_procs ptf q) = false). unfold fork_procs, upd. by destruct (q =? 1).
  - intros q Hq. assert (q = 1) as -> by lia. discriminate.
Qed.

Lemma fork_copies_witness :
  exists (s s' : kst lst), fork E64 KERNBASE KERNBASE s = Ok 2 s' /\ p_parent (procs s' 2) = 1 /\
    f_ref (files s' 3) = 4 /\ f_ref (files s' 7) = 3.
Proof.
  destruct fork_sample_ok as (b & k & ptf & tf & root & l & T & new & H1 & H2 & H3 & H4 & H5 & H6 & H7 & H8 & H9 & H10 & H11 & H12 & H13).
  destruct (fork_copies E64 KERNBASE KERNBASE E64_pos ltac:(done) (fork_sample b k ptf) 2 tf root l T (frames new) H1 H2 H3 H4 H5 H6 H7 H8 H9 H10 H11 H12 H13)
    as (s' & l' & T2 & fr2 & E & C & _).
  exists (fork_sample b k ptf), s'. split; [exact E|]. destruct C as [_ _ Cp _ _ _ _ _ _ _ Cf _]. split; [exact Cp|].
  split; rewrite Cf by lia; reflexivity.
Defined.
