(* ===== verification/ExitWait.v ===== *)
(** * [exit] and [wait]

    How a process that exits reaches its parent: [exit] leaves a zombie, gives
    the children to [init] and wakes the parent; [wait] collects a zombie child,
    returns -1 without children, and sleeps otherwise. *)
From stdpp Require Import base list gmap strings.
From Stdlib Require Import ZArith Lia.
From S2P Require Import Prelude KString Riscv Kalloc Vm VmSpec VmUser VmCopy VmFork VmFree VmProps Log Blocks Fs FsProps Kernel Pipe Proc KState ProcMem ForkProps.

#[local] Open Scope Z_scope.
#[local] Open Scope xv6_scope.

Section ExitWait.

Context (end_ : Z) {S : Type} {L : BlockLayer S} {O : OpLayer S}.
Hypothesis end_pos : 0 < end_.

Implicit Types (s : kst S) (f : fst S) (pr : Z -> proc) (fl : Z -> file) (pi : Z -> pipe).

(** ** [exit] *)

Lemma wakeup1_st s f pr fl pi nx no p :
  p_lock (pr p) = true ->
  exists pr', wakeup1 p (st s f pr fl pi nx no) = Ok tt (st s f pr' fl pi nx no) /\
    pr' p = woken (proc_chan p) (pr p) /\ forall q, q <> p -> pr' q = pr q.
Proof.
  intros Hl. unfold wakeup1, woken. rewrite (bind_Ok _ _ _ _ _ (st_get_proc _ _ _ _ _ _ _ _)), Hl. cbn [negb].
  destruct (on_chan (proc_chan p) (pr p)); [|exists pr; split; [reflexivity|]; split; [by case_decide|done]].
  destruct (decide (p_state (pr p) = SLEEPING)) as [E|E]; [|by exists pr].
  rewrite st_set_proc. eexists. split; [reflexivity|]. split; [by rewrite upd_same|]. intros q Hq. by rewrite upd_other.
Qed.

Lemma lock_wake_unlock s f pr fl pi nx no p :
  p_lock (pr p) = false ->
  exists pr', (plock p ;; wakeup1 p ;; punlock p) (st s f pr fl pi nx no) = Ok tt (st s f pr' fl pi nx no) /\
    pr' p = woken (proc_chan p) (pr p) /\ forall q, q <> p -> pr' q = pr q.
Proof.
  intros Hl. rewrite (bind_Ok _ _ _ _ _ (st_plock _ _ _ _ _ _ _ _ Hl)).
  destruct (wakeup1_st s f (upd pr p ((pr p) <| p_lock := true |>)) fl pi nx (no + 1) p) as (pr1 & E1 & H1 & H1'); [by rewrite upd_same|].
  rewrite upd_same in H1. rewrite (bind_Ok _ _ _ _ _ E1), st_punlock; [|by rewrite H1, woken_lock].
  replace (no + 1 - 1) with no by lia. eexists. split; [reflexivity|]. split.
  - rewrite upd_same, H1. unfold woken. change (p_state ((pr p) <| p_lock := true |>)) with (p_state (pr p)).
    change (on_chan (proc_chan p) ((pr p) <| p_lock := true |>)) with (on_chan (proc_chan p) (pr p)).
    destruct (decide _); [destruct (on_chan _ _)|]; destruct (pr p); cbn in *; by subst.
  - intros q Hq. rewrite upd_other, H1', upd_other by done. done.
Qed.

(** [init] adopts the children of [p]. *)
Definition adopted (ip p : Z) (x : proc) : proc := if p_parent x =? p then x <| p_parent := ip |> else x.

Lemma reparent_one_st s f pr fl pi nx no p q :
  (p_parent (pr q) = p -> p_lock (pr q) = false) ->
  exists pr', reparent_one p q (st s f pr fl pi nx no) = Ok tt (st s f pr' fl pi nx no) /\
    pr' q = adopted (initproc s) p (pr q) /\ forall x, x <> q -> pr' x = pr x.
Proof.
  intros Hl. unfold reparent_one, adopted. rewrite (bind_Ok _ _ _ _ _ (st_get_proc _ _ _ _ _ _ _ _)).
  destruct (Z.eqb_spec (p_parent (pr q)) p) as [E|E]; [|by exists pr]. specialize (Hl E).
  rewrite (bind_Ok _ _ _ _ _ (st_plock _ _ _ _ _ _ _ _ Hl)). unfold bind at 1, gets.
  change (initproc (st s f (upd pr q ((pr q) <| p_lock := true |>)) fl pi nx (no + 1))) with (initproc s).
  rewrite (bind_Ok _ _ _ _ _ (st_set_proc _ _ _ _ _ _ _ _ _)), st_punlock by (by rewrite upd_same, upd_same).
  replace (no + 1 - 1) with no by lia. eexists. split; [reflexivity|]. rewrite !upd_same. split.
  - destruct (pr q). cbn in *. by subst.
  - intros x Hx. by rewrite !upd_other.
Qed.

Lemma reparent_st s f pr fl pi nx no p :
  (forall q, 1 <= q <= NPROC -> p_parent (pr q) = p -> p_lock (pr q) = false) ->
  exists pr', reparent p (st s f pr fl pi nx no) = Ok tt (st s f pr' fl pi nx no) /\
    forall q, pr' q = if decide (1 <= q <= NPROC) then adopted (initproc s) p (pr q) else pr q.
Proof.
  intros Hl. assert (H : forall n a pr, (forall q, a <= q < a + Z.of_nat n -> p_parent (pr q) = p -> p_lock (pr q) = false) ->
    exists pr', each (zseq a n) (reparent_one p) (st s f pr fl pi nx no) = Ok tt (st s f pr' fl pi nx no) /\
      forall q, pr' q = if decide (a <= q < a + Z.of_nat n) then adopted (initproc s) p (pr q) else pr q).
  { clear pr Hl. induction n as [|n IH]; intros a pr Hl; cbn [zseq each].
    - exists pr. split; [done|]. intros q. by rewrite decide_False by lia.
    - destruct (reparent_one_st s f pr fl pi nx no p a) as (pr1 & E1 & H1 & H1'); [apply Hl; lia|].
      rewrite (bind_Ok _ _ _ _ _ E1). destruct (IH (a + 1) pr1) as (pr2 & E2 & H2).
      + intros q Hq. rewrite H1' by lia. apply Hl. lia.
      + exists pr2. split; [done|]. intros q. rewrite H2. destruct (decide (q = a)) as [->|].
        * by rewrite decide_False, decide_True by lia.
        * rewrite H1' by done. repeat case_decide; lia || done. }
  destruct (H (Z.to_nat NPROC) 1 pr) as (pr' & E & H').
  - intros q Hq. apply Hl. unfold NPROC in *. lia.
  - exists pr'. split; [done|]. intros q. rewrite H'. unfold NPROC. repeat case_decide; lia || done.
Qed.

(** The process table when [p], a child of [q], has called [exit(status)] and
    gives up the CPU (its lock is held until the scheduler releases it). *)
Definition after_exit (pr : Z -> proc) (ip p q status x : Z) : proc :=
  if x =? p then (pr p) <| p_xstate := status |> <| p_state := ZOMBIE |> <| p_lock := true |>
  else let y := if (x =? ip) || (x =? q) then woken (proc_chan x) (pr x) else pr x in
       if decide (1 <= x <= NPROC) then adopted ip p y else y.

Lemma woken_parent c x : p_parent (woken c x) = p_parent x.
Proof. unfold woken. case_decide; [by destruct (on_chan c x)|done]. Qed.

Lemma adopted_lock ip p x : p_lock (adopted ip p x) = p_lock x.
Proof. unfold adopted. by destruct (_ =? _). Qed.

Lemma woken_lock_set c x b : woken c (x <| p_lock := b |>) = (woken c x) <| p_lock := b |>.
Proof.
  unfold woken. change (p_state (x <| p_lock := b |>)) with (p_state x). change (on_chan c (x <| p_lock := b |>)) with (on_chan c x).
  case_decide; [by destruct (on_chan c x)|done].
Qed.

Lemma adopted_lock_set ip p x b : adopted ip p (x <| p_lock := b |>) = (adopted ip p x) <| p_lock := b |>.
Proof. unfold adopted. change (p_parent (x <| p_lock := b |>)) with (p_parent x). by destruct (_ =? _). Qed.

Lemma woken_adopted c ip p x : woken c (adopted ip p x) = adopted ip p (woken c x).
Proof.
  unfold adopted. rewrite woken_parent. destruct (_ =? _); [|done]. unfold woken.
  change (p_state (x <| p_parent := ip |>)) with (p_state x). change (on_chan c (x <| p_parent := ip |>)) with (on_chan c x).
  case_decide; [by destruct (on_chan c x)|done].
Qed.

Lemma lock_set_id x : p_lock x = false -> (x <| p_lock := false |>) = x.
Proof. destruct x. cbn. by intros ->. Qed.

(** From the point where [exit] takes the locks of the parent [q] and of [p]. *)
Lemma exit_tail s f pr fl pi nx no p q status :
  (forall x, 1 <= x <= NPROC -> p_lock (pr x) = false) ->
  1 <= p <= NPROC -> 1 <= q <= NPROC -> p <> q -> p_parent (pr p) <> p -> p_parent (pr q) <> p ->
  exists pr', (plock q ;; plock p ;; reparent p ;; wakeup1 q ;;
     set_proc p (fun x => x <| p_xstate := status |>) ;; set_proc p (fun x => x <| p_state := ZOMBIE |>) ;; punlock q)
       (st s f pr fl pi nx no) = Ok tt (st s f pr' fl pi nx (no + 1)) /\
    pr' p = (pr p) <| p_xstate := status |> <| p_state := ZOMBIE |> <| p_lock := true |> /\
    pr' q = woken (proc_chan q) (pr q) /\
    forall x, x <> p -> x <> q -> pr' x = if decide (1 <= x <= NPROC) then adopted (initproc s) p (pr x) else pr x.
Proof.
  intros Hl Hp Hq Hpq Hpp Hqp.
  rewrite (bind_Ok _ _ _ _ _ (st_plock s f pr fl pi nx no q (Hl q Hq))). set (pr4 := upd pr q _).
  rewrite (bind_Ok _ _ _ _ _ (st_plock s f pr4 fl pi nx (no + 1) p ltac:(unfold pr4; rewrite upd_other by done; by apply Hl))).
  set (pr5 := upd pr4 p _).
  assert (H5q : pr5 q = (pr q) <| p_lock := true |>) by (unfold pr5, pr4; by rewrite upd_other, upd_same by auto).
  assert (H5p : pr5 p = (pr p) <| p_lock := true |>) by (unfold pr5, pr4; by rewrite upd_same, upd_other by auto).
  assert (H5 : forall x, x <> p -> x <> q -> pr5 x = pr x) by (intros x ? ?; unfold pr5, pr4; by rewrite !upd_other).
  clearbody pr5. clear pr4.
  destruct (reparent_st s f pr5 fl pi nx (no + 1 + 1) p) as (pr6 & E6 & H6).
  { intros x Hx Hpx. destruct (decide (x = p)) as [->|]; [by rewrite H5p in Hpx|].
    destruct (decide (x = q)) as [->|]; [by rewrite H5q in Hpx|rewrite H5 by done; by apply Hl]. }
  rewrite (bind_Ok _ _ _ _ _ E6).
  assert (H6q : pr6 q = (pr q) <| p_lock := true |>).
  { rewrite H6, decide_True, H5q, adopted_lock_set by done. unfold adopted. by rewrite (proj2 (Z.eqb_neq _ _) Hqp). }
  destruct (wakeup1_st s f pr6 fl pi nx (no + 1 + 1) q) as (pr7 & E7 & H7 & H7'); [by rewrite H6q|].
  rewrite (bind_Ok _ _ _ _ _ E7), (bind_Ok _ _ _ _ _ (st_set_proc _ _ _ _ _ _ _ _ _)), (bind_Ok _ _ _ _ _ (st_set_proc _ _ _ _ _ _ _ _ _)).
  rewrite st_punlock; [|rewrite !upd_other by auto; by rewrite H7, woken_lock, H6q].
  replace (no + 1 + 1 - 1) with (no + 1) by lia. eexists. split; [reflexivity|].
  rewrite !upd_same, !upd_other, !upd_same by auto. split_and!.
  - rewrite H7', H6, decide_True, H5p, adopted_lock_set by auto. unfold adopted. by rewrite (proj2 (Z.eqb_neq _ _) Hpp).
  - rewrite !upd_other by auto. rewrite H7, H6q, woken_lock_set. apply (lock_set_id (woken _ _)). rewrite woken_lock. by apply Hl.
  - intros x Hx Hx'. rewrite !upd_other by done. rewrite H7', H6, H5 by done. done.
Qed.

Lemma exit_finish_st s f pr fl pi nx no p status :
  let q := p_parent (pr p) in let ip := initproc s in
  (forall x, 1 <= x <= NPROC -> p_lock (pr x) = false) ->
  1 <= p <= NPROC -> 1 <= q <= NPROC -> 1 <= ip <= NPROC -> p <> ip -> p <> q -> p_parent (pr q) <> p ->
  exists pr', exit_finish p status (st s f pr fl pi nx no) = Ok tt (st s f pr' fl pi nx (no + 1)) /\
    forall x, pr' x = after_exit pr ip p q status x.
Proof.
  intros q ip Hl Hp Hq Hip Hpi Hpq Hqp. unfold exit_finish. unfold bind at 1, gets. change (initproc (st s f pr fl pi nx no)) with ip.
  destruct (lock_wake_unlock s f pr fl pi nx no ip (Hl ip Hip)) as (pr1 & E1 & H1 & H1').
  apply bind_Ok_inv in E1 as ([] & t1 & Ea & E1). apply bind_Ok_inv in E1 as ([] & t2 & Eb & E1).
  rewrite (bind_Ok _ _ _ _ _ Ea), (bind_Ok _ _ _ _ _ Eb), (bind_Ok _ _ _ _ _ E1). clear t1 t2 Ea Eb E1.
  assert (Hl1 : forall x, 1 <= x <= NPROC -> p_lock (pr1 x) = false).
  { intros x Hx. destruct (decide (x = ip)) as [->|]; [rewrite H1, woken_lock; by apply Hl|rewrite H1' by done; by apply Hl]. }
  rewrite (bind_Ok _ _ _ _ _ (st_plock _ _ _ _ _ _ _ _ (Hl1 p Hp))), (bind_Ok _ _ _ _ _ (st_get_proc _ _ _ _ _ _ _ _)).
  set (pr2 := upd pr1 p _). rewrite (bind_Ok _ _ _ _ _ (st_punlock s f pr2 fl pi nx (no + 1) p ltac:(unfold pr2; by rewrite upd_same))).
  assert (Eq : p_parent (pr2 p) = q) by (unfold pr2; rewrite upd_same; change (p_parent (pr1 p) = q); by rewrite H1').
  rewrite Eq. set (pr3 := upd pr2 p _). replace (no + 1 - 1) with no by lia.
  assert (H3 : forall x, pr3 x = pr1 x).
  { intros x. unfold pr3, pr2. destruct (decide (x = p)) as [->|]; [rewrite !upd_same; by apply relock, Hl1|by rewrite !upd_other]. }
  clearbody pr3. clear pr2 Eq.
  assert (Hpar : forall x, p_parent (pr3 x) = p_parent (pr x))
    by (intros x; rewrite H3; destruct (decide (x = ip)) as [->|]; [by rewrite H1, woken_parent|by rewrite H1']).
  destruct (exit_tail s f pr3 fl pi nx no p q status) as (pr' & E & T1 & T2 & T3); rewrite ?Hpar; auto.
  { intros x Hx. rewrite H3. auto. }
  exists pr'. split; [exact E|]. intros x. unfold after_exit.
  destruct (Z.eqb_spec x p) as [->|Hxp]; [by rewrite T1, H3, H1'|].
  destruct (Z.eqb_spec x q) as [->|Hxq].
  - rewrite T2, H3, orb_true_r, decide_True by done. unfold adopted. rewrite woken_parent, (proj2 (Z.eqb_neq _ _) Hqp).
    destruct (decide (q = ip)) as [->|]; [by rewrite H1, woken_twice|by rewrite H1'].
  - rewrite T3, H3, orb_false_r by done. destruct (Z.eqb_spec x ip) as [->|]; [by rewrite H1|by rewrite H1'].
Qed.

(** ** [freeproc] *)

(** What [freeproc] leaves in the entry. *)
Definition freed_proc (x : proc) : proc :=
  x <| p_tf := 0 |> <| p_pagetable := 0 |> <| p_sz := 0 |> <| p_pid := 0 |> <| p_parent := 0 |>
    <| p_name := <[0%nat := 0]> (p_name x) |> <| p_chan := None |> <| p_killed := false |> <| p_xstate := 0 |> <| p_state := UNUSED |>.

(** The memory of the process in entry [x]: its address space and its trapframe. *)
Record proc_mem (k : kmem) (l : list Z) (x : proc) (T : gmap Z (nat * Z)) (fr : list (Z * Z)) (trampoline : Z) : Prop := {
  pm_umem : umem end_ k l (p_pagetable x) T fr;
  pm_sz : 0 < p_sz x <= TRAPFRAME;
  pm_len : length fr = pages (p_sz x);
  pm_high : high_mapped k (p_pagetable x) trampoline (p_tf x);
  pm_tramp : trampoline mod PGSIZE = 0;
  pm_tf : freeable end_ l T (p_tf x);
  pm_tf' : p_tf x ∉ fr.*1;
}.

Lemma freeproc_st s f pr fl pi nx no np l T fr tr :
  proc_mem (fs_mem f) l (pr np) T fr tr ->
  exists pr' k' l', freeproc end_ np (st s f pr fl pi nx no) = Ok tt (st s (f <| fs_mem := k' |>) pr' fl pi nx no) /\
    pr' np = freed_proc (pr np) /\ (forall q, q <> np -> pr' q = pr q) /\
    kmem_inv end_ k' l' /\ l' ≡ₚ base.elements (dom T) ++ fr.*1 ++ p_tf (pr np) :: l /\
    forall a, (forall q, held T fr q \/ q = p_tf (pr np) -> ~ in_page q a) -> ram k' a = ram (fs_mem f) a.
Proof.
  intros [U Hsz Hlen Hh Htr Htf Htf']. unfold freeproc. rewrite (bind_Ok _ _ _ _ _ (st_get_proc _ _ _ _ _ _ _ _)).
  destruct (kfree_rep end_ end_pos (fs_mem f) l _ T (p_tf (pr np)) (um_rep _ _ _ _ _ _ U) Htf) as (k1 & E1 & R1 & V1 & M1).
  pose proof (page_ok_range _ end_pos _ (proj1 Htf)) as Hr.
  assert (Hroot : page_ok end_ (p_pagetable (pr np))) by (apply (held_ok end_ _ _ _ _ _ _ U); left; destruct U as [[_ I _]]; rewrite (pi_root _ _ _ _ I); eauto).
  pose proof (page_ok_range _ end_pos _ Hroot) as Hr'.
  destruct (umem_other end_ (fs_mem f) l (p_pagetable (pr np)) T fr k1 (p_tf (pr np) :: l) U) as [U1 _].
  { apply R1. }
  { intros q Hq. apply elem_of_cons in Hq as [->|Hq]; [right|by left]. intros [[x Hx]|Hx]; [destruct Htf as (_ & _ & Ht); congruence|done]. }
  { intros q a Hq Ha. apply M1. apply (held_apart end_ q _ a); [by apply (held_ok end_ _ _ _ _ _ _ U)|apply Htf| |done].
    intros ->. destruct Hq as [[x Hx]|Hx]; [destruct Htf as (_ & _ & Ht); congruence|done]. }
  assert (Hh1 : high_mapped k1 (p_pagetable (pr np)) tr (p_tf (pr np))).
  { apply (high_mapped_same (fs_mem f)); [done|]. intros va Hva. apply V1. pose proof TRAPFRAME_MAXVA. lia. }
  pose proof (proc_freepagetable_rep end_ end_pos k1 _ _ T fr (p_sz (pr np)) tr (p_tf (pr np)) U1 Hsz Hlen Hh1 Htr) as H2.
  apply wp_Ok in H2 as ([] & k2 & E2 & l2 & Hk2 & P2 & M2); [|apply Htf].
  rewrite (proj2 (Z.eqb_neq (p_tf (pr np)) 0)) by lia. rewrite (bind_Ok _ _ _ _ _ (st_in_kmem _ _ _ _ _ _ _ _ _ _ E1)).
  rewrite (bind_Ok _ _ _ _ _ (st_set_proc _ _ _ _ _ _ _ _ _)), (proj2 (Z.eqb_neq (p_pagetable (pr np)) 0)) by lia.
  assert (E3 : in_kmem (proc_freepagetable end_ (p_pagetable (pr np)) (p_sz (pr np)))
      (st s (f <| fs_mem := k1 |>) (upd pr np ((pr np) <| p_tf := 0 |>)) fl pi nx no) =
      Ok tt (st s (f <| fs_mem := k2 |>) (upd pr np ((pr np) <| p_tf := 0 |>)) fl pi nx no)).
  { rewrite (st_in_kmem _ _ _ _ _ _ _ _ tt k2); [reflexivity|exact E2]. }
  rewrite (bind_Ok _ _ _ _ _ E3), st_set_proc.
  eexists _, k2, l2. split; [reflexivity|]. split_and!; [by rewrite !upd_same|intros q Hq; by rewrite !upd_other|done|done|].
  intros a Ha. rewrite M2, M1; [done|apply Ha; by right|]. intros q Hq. apply Ha. by left.
Qed.

(** ** [wait] *)

Definition is_child (pr : Z -> proc) (p x : Z) : bool := p_parent (pr x) =? p.

(** Children that have not exited are passed over. *)
Lemma wait_scan_skip s f fl pi nx no p addr rest n : forall a pr hk,
  (forall x, a <= x < a + Z.of_nat n -> p_parent (pr x) = p -> p_lock (pr x) = false /\ p_state (pr x) <> ZOMBIE) ->
  exists pr', wait_scan end_ p addr hk (zseq a n ++ rest) (st s f pr fl pi nx no) =
      wait_scan end_ p addr (hk || existsb (is_child pr p) (zseq a n)) rest (st s f pr' fl pi nx no) /\
    forall x, pr' x = pr x.
Proof.
  induction n as [|n IH]; intros a pr hk H; [exists pr; cbn [zseq app existsb]; by rewrite orb_false_r|].
  cbn [zseq app wait_scan existsb]. rewrite (bind_Ok _ _ _ _ _ (st_get_proc _ _ _ _ _ _ _ _)).
  change (is_child pr p a) with (p_parent (pr a) =? p). destruct (Z.eqb_spec (p_parent (pr a)) p) as [E|E]; cbn [negb].
  - destruct (H a) as [Hl Hz]; [lia|done|]. rewrite (bind_Ok _ _ _ _ _ (st_plock _ _ _ _ _ _ _ _ Hl)).
    rewrite (bind_Ok _ _ _ _ _ (st_get_proc _ _ _ _ _ _ _ _)), upd_same, decide_False by exact Hz.
    rewrite (bind_Ok _ _ _ _ _ (st_punlock s f (upd pr a ((pr a) <| p_lock := true |>)) fl pi nx (no + 1) a ltac:(by rewrite upd_same))).
    replace (no + 1 - 1) with no by lia. set (pr1 := upd (upd _ _ _) _ _).
    assert (E1 : forall x, pr1 x = pr x).
    { intros x. unfold pr1. destruct (decide (x = a)) as [->|]; [rewrite !upd_same; by apply relock|by rewrite !upd_other]. }
    clearbody pr1. destruct (IH (a + 1) pr1 true) as (pr2 & E2 & H2); [intros x Hx; rewrite !E1; apply H; lia|].
    exists pr2. split; [|intros x; by rewrite H2]. rewrite E2, orb_true_r. reflexivity.
  - destruct (IH (a + 1) pr hk) as (pr2 & E2 & H2); [intros x Hx; apply H; lia|]. exists pr2. split; [|done]. exact E2.
Qed.

(** The status that [wait] passes on. *)
Definition status_bytes (x : proc) : list Z := le_bytes 4 (p_xstate x).

(** [a] is not one of the bytes where it goes. *)
Definition not_status (fr : list (Z * Z)) (addr a : Z) : Prop := addr <> 0 -> forall i, 0 <= i < 4 -> uaddr fr (addr + i) <> Some a.

Lemma status_copied s f pr fl pi nx no pt addr bs l T fr :
  umem end_ (fs_mem f) l pt T fr -> 0 <= addr -> (addr <> 0 -> accessible fr addr 4) ->
  length bs = 4%nat -> Forall is_byte bs ->
  exists k', (if addr =? 0 then ret 0 else in_kmem (copyout pt addr bs 4)) (st s f pr fl pi nx no) =
      Ok 0 (st s (f <| fs_mem := k' |>) pr fl pi nx no) /\
    umem end_ k' l pt T fr /\ (forall a, (forall q, q ∈ fr.*1 -> ~ in_page q a) -> ram k' a = ram (fs_mem f) a) /\
    (addr <> 0 -> ubytes k' fr addr 4 = bs) /\ (forall a, not_status fr addr a -> ram k' a = ram (fs_mem f) a).
Proof.
  intros U Ha Hacc Hlen Hby. destruct (Z.eqb_spec addr 0) as [->|Hne].
  { exists (fs_mem f). split_and!; [by destruct f|done|done|done|done]. }
  pose proof (copyout_spec end_ end_pos (fs_mem f) l pt T fr U addr bs 4) as H.
  apply wp_Ok in H as (r & k' & E & U' & [(-> & _ & W)|(_ & Hn & _)]); [|by destruct Hn; auto|done|lia|done|done].
  exists k'. split_and!; [by apply st_in_kmem|done| | |].
  - intros a Hout. apply (wr_out _ _ _ _ _ _ W). intros i Hi E'. apply uaddr_in in E' as (q & Hq & Hq'). by apply (Hout q).
  - intros _. change 4 with (Z.of_nat 4) in W |- *. rewrite <- Hlen in W |- *. by apply (wrote_ubytes fr (fs_mem f)).
  - intros a Hns. apply (wr_out _ _ _ _ _ _ W). by apply Hns.
Qed.

(** The memory of a process is not touched by changes to other pages. *)
Lemma proc_mem_other k l x T fr tr k' :
  proc_mem k l x T fr tr -> kmem_inv end_ k' l -> (forall p a, held T fr p -> in_page p a -> ram k' a = ram k a) ->
  proc_mem k' l x T fr tr.
Proof.
  intros [U Hsz Hlen Hh Htr Htf Htf'] Hk Hm. destruct (umem_other end_ k l (p_pagetable x) T fr k' l U Hk) as [U' _]; [auto|done|].
  split; auto. apply (high_mapped_same k); [done|]. apply (high_other end_ k l _ T fr); [done|]. intros p a Hp. apply Hm. by left.
Qed.

(** A child that has exited is collected. *)
Lemma wait_scan_reap s f pr fl pi nx no p addr hk np rest l T1 fr1 T2 fr2 tr :
  p <> np -> p_parent (pr np) = p -> p_state (pr np) = ZOMBIE -> p_lock (pr np) = false -> p_lock (pr p) = true ->
  umem end_ (fs_mem f) l (p_pagetable (pr p)) T1 fr1 -> proc_mem (fs_mem f) l (pr np) T2 fr2 tr ->
  separate T1 fr1 T2 fr2 -> ~ held T1 fr1 (p_tf (pr np)) -> 0 <= addr -> (addr <> 0 -> accessible fr1 addr 4) ->
  exists pr' k' l', wait_scan end_ p addr hk (np :: rest) (st s f pr fl pi nx no) =
      Ok (inl (p_pid (pr np))) (st s (f <| fs_mem := k' |>) pr' fl pi nx (no - 1)) /\
    pr' np = freed_proc (pr np) /\ pr' p = ((pr p) <| p_lock := false |>) /\ (forall q, q <> np -> q <> p -> pr' q = pr q) /\
    umem end_ k' l' (p_pagetable (pr p)) T1 fr1 /\
    l' ≡ₚ base.elements (dom T2) ++ fr2.*1 ++ p_tf (pr np) :: l /\
    (addr <> 0 -> ubytes k' fr1 addr 4 = status_bytes (pr np)) /\
    (forall q a, held T1 fr1 q -> in_page q a -> not_status fr1 addr a -> ram k' a = ram (fs_mem f) a).
Proof.
  intros Hne Hpar Hz Hl Hpl U1 PM Hsep Hth Haddr Hacc. cbn [wait_scan].
  rewrite (bind_Ok _ _ _ _ _ (st_get_proc _ _ _ _ _ _ _ _)), Hpar, Z.eqb_refl. cbn [negb].
  rewrite (bind_Ok _ _ _ _ _ (st_plock _ _ _ _ _ _ _ _ Hl)), (bind_Ok _ _ _ _ _ (st_get_proc _ _ _ _ _ _ _ _)), upd_same.
  rewrite decide_True by exact Hz. rewrite (bind_Ok _ _ _ _ _ (st_get_proc _ _ _ _ _ _ _ _)), upd_other by done.
  set (pr1 := upd pr np _).
  destruct (status_copied s f pr1 fl pi nx (no + 1) (p_pagetable (pr p)) addr (status_bytes (pr np)) l T1 fr1 U1 Haddr Hacc)
    as (k1 & E1 & U1' & M1 & B1 & N1); [apply length_le_bytes|apply le_bytes_byte|].
  unfold status_bytes in E1. change (p_xstate ((pr np) <| p_lock := true |>)) with (p_xstate (pr np)). rewrite (bind_Ok _ _ _ _ _ E1).
  change (0 <? 0) with false. cbv iota.
  assert (En : pr1 np = (pr np) <| p_lock := true |>) by (unfold pr1; by rewrite upd_same).
  assert (PM1 : proc_mem (fs_mem (f <| fs_mem := k1 |>)) l (pr1 np) T2 fr2 tr).
  { rewrite En. destruct (proc_mem_other (fs_mem f) l (pr np) T2 fr2 tr k1 PM) as [A1 A2 A3 A4 A5 A6 A7]; [apply U1'| |split; done].
    intros q a Hq Ha. apply M1. intros x Hx. destruct (held_ok end_ _ _ _ _ _ _ (pm_umem _ _ _ _ _ _ PM) Hq) as [Hq1 _].
    apply (held_apart end_ q x a); [done|apply (held_ok end_ _ _ _ _ _ _ U1); by right| |done]. intros ->. apply (Hsep x); [by right|done]. }
  destruct (freeproc_st s (f <| fs_mem := k1 |>) pr1 fl pi nx (no + 1) np l T2 fr2 tr PM1) as (pr2 & k2 & l2 & E2 & F2 & F2' & Hk2 & P2 & M2).
  rewrite En in F2, P2, M2. rewrite (bind_Ok _ _ _ _ _ E2).
  rewrite (bind_Ok _ _ _ _ _ (st_punlock s _ pr2 fl pi nx (no + 1) np ltac:(by rewrite F2))). set (pr3 := upd pr2 np _).
  assert (E3 : pr3 p = pr p) by (unfold pr3; rewrite upd_other, F2' by auto; unfold pr1; by rewrite upd_other).
  rewrite (bind_Ok _ _ _ _ _ (st_punlock s _ pr3 fl pi nx (no + 1 - 1) p ltac:(by rewrite E3))).
  replace (no + 1 - 1 - 1) with (no - 1) by lia. eexists _, k2, l2. split; [reflexivity|].
  assert (Hout : forall q a, held T1 fr1 q -> in_page q a -> ram k2 a = ram k1 a).
  { intros q a Hq Ha. apply M2. intros x Hx. destruct (held_ok end_ _ _ _ _ _ _ U1 Hq) as [Hq1 _].
    apply (held_apart end_ q x a); [done| | |done].
    - destruct Hx as [Hx| ->]; [by apply (held_ok end_ _ _ _ _ _ _ (pm_umem _ _ _ _ _ _ PM))|apply (pm_tf _ _ _ _ _ _ PM)].
    - intros ->. destruct Hx as [Hx| ->]; [by apply (Hsep x)|done]. }
  destruct (umem_other end_ k1 l (p_pagetable (pr p)) T1 fr1 k2 l2 U1' Hk2) as [U2 D2]; [|done|].
  { intros q Hq. rewrite P2, !elem_of_app, elem_of_cons, elem_of_elements, elem_of_dom in Hq.
    destruct Hq as [Hq|[Hq|[->|Hq]]]; [right|right|by right|by left]; intros Hh; apply (Hsep q Hh); [by left|by right]. }
  split_and!; [| | |exact U2|done| |].
  - rewrite upd_other by auto. unfold pr3. rewrite upd_same, F2. destruct (pr np). cbn in *. by subst.
  - by rewrite upd_same, E3.
  - intros q Hq Hq'. rewrite upd_other by done. unfold pr3. rewrite upd_other, F2' by done. unfold pr1. by rewrite upd_other.
  - intros Hn. rewrite <- B1 by done. apply ubytes_same; auto.
  - intros q a Hq Hqa Hns. rewrite (Hout q a Hq Hqa). by apply N1.
Qed.

Lemma existsb_same {A} (g h : A -> bool) l : (forall x, g x = h x) -> existsb g l = existsb h l.
Proof. intros H. induction l as [|x l IH]; [done|]. cbn. by rewrite H, IH. Qed.

Definition no_zombies (pr : Z -> proc) (p n : Z) : Prop :=
  forall x, 1 <= x < n -> p_parent (pr x) = p -> p_state (pr x) <> ZOMBIE.

(** [wait] up to the entry [a], with the lock of [p] held. *)
Lemma wait_start s addr a :
  unlocked s -> 1 <= cur s <= NPROC -> p_parent (procs s (cur s)) <> cur s -> 1 <= a <= NPROC + 1 -> no_zombies (procs s) (cur s) a ->
  exists pr', wait end_ addr s =
      (r ← wait_scan end_ (cur s) addr (existsb (is_child (procs s) (cur s)) (zseq 1 (Z.to_nat (a - 1)))) (zseq a (Z.to_nat (NPROC + 1 - a))) ;
       match r with
       | inl pid => ret pid
       | inr havekids =>
           pr ← get_proc (cur s) ;
           if negb havekids || p_killed pr then punlock (cur s) ;; ret (-1) else sleep (proc_chan (cur s)) None
       end) (st s (kfs s) pr' (files s) (pipes s) (nextpid s) (k_noff s + 1)) /\
    forall x, pr' x = if decide (x = cur s) then (procs s x) <| p_lock := true |> else procs s x.
Proof.
  intros (H1 & H2 & _ & H4) Hp Hpp Ha Hz. pose proof (st_id s H1 H2) as Es. set (p := cur s) in *.
  assert (Ew : wait end_ addr s = wait end_ addr (st s (kfs s) (procs s) (files s) (pipes s) (nextpid s) (k_noff s))) by (by rewrite <- Es).
  rewrite Ew. clear Ew. unfold wait. rewrite (bind_Ok _ _ _ _ _ (st_myproc _ _ _ _ _ _ _)). fold p.
  rewrite (bind_Ok _ _ _ _ _ (st_plock _ _ _ _ _ _ _ _ (H4 p Hp))). set (pr1 := upd _ p _).
  assert (E1 : forall x, pr1 x = if decide (x = p) then (procs s x) <| p_lock := true |> else procs s x).
  { intros x. unfold pr1. case_decide; [subst; by rewrite upd_same|by rewrite upd_other]. }
  clearbody pr1.
  assert (Hch : forall x, is_child pr1 p x = is_child (procs s) p x)
    by (intros x; unfold is_child; rewrite E1; by case_decide).
  destruct (wait_scan_skip s (kfs s) (files s) (pipes s) (nextpid s) (k_noff s + 1) p addr (zseq a (Z.to_nat (NPROC + 1 - a)))
              (Z.to_nat (a - 1)) 1 pr1 false) as (pr2 & E2 & H2').
  { intros x Hx Hc. rewrite E1 in *. case_decide; [subst; by destruct Hpp|]. split; [apply H4; lia|apply Hz; [lia|done]]. }
  exists pr2. split; [|intros x; by rewrite H2'].
  assert (El : proc_list = zseq 1 (Z.to_nat (a - 1)) ++ zseq a (Z.to_nat (NPROC + 1 - a))).
  { unfold proc_list. replace (Z.to_nat NPROC) with (Z.to_nat (a - 1) + Z.to_nat (NPROC + 1 - a))%nat by lia.
    rewrite zseq_app. do 2 f_equal. lia. }
  rewrite El. unfold bind at 1 2. rewrite E2. cbn [orb].
  by rewrite (existsb_same _ _ _ Hch).
Qed.

(** C17: [exit] ends with a handover to the parent.  When the files are closed
    it leaves the process as a zombie with its status, gives its children to
    [init], wakes [init] and the parent if they sleep in [wait], and enters the
    scheduler holding its own lock only, so that the parent cannot free the
    process while it still runs. *)
Theorem exit_wakes_parent s p status :
  let q := p_parent (procs s p) in let ip := initproc s in
  unlocked s -> cur s = p -> k_noff s = 0 -> 1 <= p <= NPROC -> 1 <= q <= NPROC -> 1 <= ip <= NPROC ->
  p <> ip -> p <> q -> p_parent (procs s q) <> p ->
  exists s', (exit_finish p status ;; sched (A := unit) (Chan "zombie" p)) s = Sleep (Chan "zombie" p) s' /\
    p_state (procs s' p) = ZOMBIE /\ p_xstate (procs s' p) = status /\ p_parent (procs s' p) = q /\
    p_lock (procs s' p) = true /\ k_noff s' = 1 /\
    (forall x, 1 <= x <= NPROC -> x <> p -> p_lock (procs s' x) = false) /\
    (p_state (procs s q) = SLEEPING -> p_chan (procs s q) = Some (proc_chan q) -> p_state (procs s' q) = RUNNABLE) /\
    (p_state (procs s ip) = SLEEPING -> p_chan (procs s ip) = Some (proc_chan ip) -> p_state (procs s' ip) = RUNNABLE) /\
    (forall x, 1 <= x <= NPROC -> p_parent (procs s' x) = if p_parent (procs s x) =? p then ip else p_parent (procs s x)) /\
    kfs s' = kfs s /\ files s' = files s /\ pipes s' = pipes s.
Proof.
  intros q ip (H1 & H2 & _ & H4) Hc Hno Hp Hq Hip Hpi Hpq Hqp. pose proof (st_id s H1 H2) as Es.
  destruct (exit_finish_st s (kfs s) (procs s) (files s) (pipes s) (nextpid s) (k_noff s) p status) as (pr' & E & H); auto.
  rewrite <- Es in E. fold q in H. fold ip in H.
  assert (Hpp : p_parent (procs s p) <> p) by (fold q; auto).
  assert (Hw : forall x, p_state (procs s x) = SLEEPING -> p_chan (procs s x) = Some (proc_chan x) -> x <> p -> x = ip \/ x = q -> p_state (pr' x) = RUNNABLE).
  { intros x Hs Hch Hx Ho. rewrite H. unfold after_exit. rewrite (proj2 (Z.eqb_neq _ _) Hx).
    assert (Eo : (x =? ip) || (x =? q) = true) by (destruct Ho as [->| ->]; rewrite Z.eqb_refl; auto using orb_true_r).
    rewrite Eo. assert (Ew : p_state (woken (proc_chan x) (procs s x)) = RUNNABLE).
    { unfold woken, on_chan. rewrite decide_True, Hch by done. unfold proc_chan, chan_eqb. by rewrite String.eqb_refl, Z.eqb_refl. }
    unfold adopted. repeat case_match; exact Ew. }
  exists (st s (kfs s) pr' (files s) (pipes s) (nextpid s) (k_noff s + 1)).
  assert (Ep : pr' p = (procs s p) <| p_xstate := status |> <| p_state := ZOMBIE |> <| p_lock := true |>)
    by (rewrite H; unfold after_exit; by rewrite Z.eqb_refl).
  change (procs (st s (kfs s) pr' (files s) (pipes s) (nextpid s) (k_noff s + 1))) with pr'. rewrite Ep. split_and!; try reflexivity.
  - rewrite (bind_Ok _ _ _ _ _ E). unfold sched. rewrite (bind_Ok _ _ _ _ _ (st_myproc _ _ _ _ _ _ _)), Hc.
    rewrite (bind_Ok _ _ _ _ _ (st_get_proc _ _ _ _ _ _ _ _)), Ep. unfold bind, gets. cbn [negb p_lock field_update]. rewrite Hno. reflexivity.
  - change (k_noff s + 1 = 1). lia.
  - intros x Hx Hxp. rewrite H. unfold after_exit. rewrite (proj2 (Z.eqb_neq _ _) Hxp), decide_True, adopted_lock by done.
    destruct (_ || _); rewrite ?woken_lock; auto.
  - intros. apply Hw; auto.
  - intros. apply Hw; auto.
  - intros x Hx. rewrite H. unfold after_exit. destruct (Z.eqb_spec x p) as [->|Hxp].
    + by rewrite (proj2 (Z.eqb_neq _ _) Hpp).
    + rewrite decide_True by done. unfold adopted. destruct (_ || _); rewrite ?woken_parent; (destruct (_ =? _); [done|by rewrite ?woken_parent]).
Qed.

(** C18: [wait] collects a child that has exited: it returns the pid of the first
    such child, stores the exit status at [addr] in the memory of the caller
    (unless [addr] is 0), frees the entry, and returns the child's pages and
    trapframe to the free list; nothing else in the caller's memory and no other
    process changes. *)
Theorem wait_collects s addr np l T1 fr1 T2 fr2 trampoline :
  let p := cur s in
  unlocked s -> 1 <= p <= NPROC -> p_parent (procs s p) <> p ->
  1 <= np <= NPROC -> p_parent (procs s np) = p -> p_state (procs s np) = ZOMBIE -> no_zombies (procs s) p np ->
  umem end_ (fs_mem (kfs s)) l (p_pagetable (procs s p)) T1 fr1 ->
  proc_mem (fs_mem (kfs s)) l (procs s np) T2 fr2 trampoline ->
  separate T1 fr1 T2 fr2 -> ~ held T1 fr1 (p_tf (procs s np)) -> 0 <= addr -> (addr <> 0 -> accessible fr1 addr 4) ->
  exists s' l', wait end_ addr s = Ok (p_pid (procs s np)) s' /\
    procs s' np = freed_proc (procs s np) /\ (forall q, q <> np -> procs s' q = procs s q) /\
    umem end_ (fs_mem (kfs s')) l' (p_pagetable (procs s p)) T1 fr1 /\
    l' ≡ₚ base.elements (dom T2) ++ fr2.*1 ++ p_tf (procs s np) :: l /\
    (addr <> 0 -> ubytes (fs_mem (kfs s')) fr1 addr 4 = status_bytes (procs s np)) /\
    (forall q a, held T1 fr1 q -> in_page q a -> not_status fr1 addr a -> ram (fs_mem (kfs s')) a = ram (fs_mem (kfs s)) a) /\
    k_noff s' = k_noff s.
Proof.
  intros p Hu Hp Hpp Hnp Hpar Hz Hnz U PM Hsep Hth Ha Hacc. pose proof Hu as (_ & _ & _ & Hl).
  assert (Hne : p <> np) by congruence.
  destruct (wait_start s addr np Hu Hp Hpp ltac:(lia) Hnz) as (pr1 & E1 & H1). fold p in E1, H1.
  assert (En : pr1 np = procs s np) by (by rewrite H1, decide_False).
  assert (Ep : pr1 p = (procs s p) <| p_lock := true |>) by (by rewrite H1, decide_True).
  destruct (wait_scan_reap s (kfs s) pr1 (files s) (pipes s) (nextpid s) (k_noff s + 1) p addr
    (existsb (is_child (procs s) p) (zseq 1 (Z.to_nat (np - 1)))) np (zseq (np + 1) (Z.to_nat (NPROC - np))) l T1 fr1 T2 fr2 trampoline)
    as (pr2 & k2 & l2 & E2 & F1 & F2 & F3 & U2 & P2 & B2 & N2); rewrite ?En, ?Ep; auto.
  rewrite En in *. replace (Z.to_nat (NPROC + 1 - np)) with (Datatypes.S (Z.to_nat (NPROC - np))) in E1 by lia. cbn [zseq] in E1.
  rewrite (bind_Ok _ _ _ _ _ E2) in E1. eexists _, l2. split; [exact E1|].
  change (procs (st s ((kfs s) <| fs_mem := k2 |>) pr2 (files s) (pipes s) (nextpid s) (k_noff s + 1 - 1))) with pr2.
  split_and!; [done| |by rewrite Ep in U2|done|done|done|cbn; lia].
  intros q Hq. destruct (decide (q = p)) as [->|]; [rewrite F2, Ep; by apply relock, Hl|by rewrite F3, H1, decide_False].
Qed.

(** Without a child that has exited, [wait] returns -1 when there are no
    children or the caller has been killed, and otherwise puts the caller to
    sleep on its own entry, where [exit] of a child wakes it. *)
Theorem wait_blocks s addr :
  let p := cur s in let kids := existsb (is_child (procs s) p) proc_list in
  unlocked s -> 1 <= p <= NPROC -> p_parent (procs s p) <> p -> no_zombies (procs s) p (NPROC + 1) ->
  (kids = false \/ p_killed (procs s p) = true ->
     exists s', wait end_ addr s = Ok (-1) s' /\ (forall q, procs s' q = procs s q) /\ kfs s' = kfs s /\ k_noff s' = k_noff s) /\
  (kids = true -> p_killed (procs s p) = false -> k_noff s = 0 ->
     exists s', wait end_ addr s = Sleep (proc_chan p) s' /\ p_state (procs s' p) = SLEEPING /\
       p_chan (procs s' p) = Some (proc_chan p) /\ p_lock (procs s' p) = true /\ k_noff s' = 1 /\
       (forall q, q <> p -> procs s' q = procs s q) /\ kfs s' = kfs s).
Proof.
  intros p kids Hu Hp Hpp Hnz. pose proof Hu as (_ & _ & _ & Hl).
  destruct (wait_start s addr (NPROC + 1) Hu Hp Hpp ltac:(unfold NPROC; lia) Hnz) as (pr1 & E1 & H1). fold p in E1, H1.
  change (zseq 1 (Z.to_nat (NPROC + 1 - 1))) with proc_list in E1. fold kids in E1.
  change (zseq (NPROC + 1) (Z.to_nat (NPROC + 1 - (NPROC + 1)))) with (@nil Z) in E1. cbn [wait_scan] in E1.
  unfold bind at 1, ret at 1 in E1. rewrite (bind_Ok _ _ _ _ _ (st_get_proc _ _ _ _ _ _ _ _)) in E1.
  assert (Ep : pr1 p = (procs s p) <| p_lock := true |>) by (by rewrite H1, decide_True).
  rewrite Ep in E1. change (p_killed ((procs s p) <| p_lock := true |>)) with (p_killed (procs s p)) in E1. split.
  - intros Hk. assert (Eb : negb kids || p_killed (procs s p) = true) by (destruct Hk as [->| ->]; auto using orb_true_r).
    rewrite Eb in E1. rewrite (bind_Ok _ _ _ _ _ (st_punlock s _ pr1 _ _ _ _ p ltac:(by rewrite Ep))) in E1.
    eexists. split; [exact E1|]. split_and!; [|done|cbn; lia]. intros q. change (upd pr1 p ((pr1 p) <| p_lock := false |>) q = procs s q).
    destruct (decide (q = p)) as [->|]; [rewrite upd_same, Ep; by apply relock, Hl|by rewrite upd_other, H1, decide_False].
  - intros -> Hk Hno. rewrite Hk in E1. cbn [negb orb] in E1. unfold sleep in E1.
    rewrite (bind_Ok _ _ _ _ _ (st_myproc _ _ _ _ _ _ _)) in E1. fold p in E1. unfold bind at 1, ret at 1 in E1.
    rewrite (bind_Ok _ _ _ _ _ (st_set_proc _ _ _ _ _ _ _ _ _)), (bind_Ok _ _ _ _ _ (st_set_proc _ _ _ _ _ _ _ _ _)) in E1.
    set (pr2 := upd (upd pr1 p _) p _) in E1.
    assert (E2 : pr2 p = (procs s p) <| p_lock := true |> <| p_chan := Some (proc_chan p) |> <| p_state := SLEEPING |>)
      by (unfold pr2; by rewrite !upd_same, Ep).
    assert (E2' : forall q, q <> p -> pr2 q = procs s q) by (intros q Hq; unfold pr2; by rewrite !upd_other, H1, decide_False).
    clearbody pr2. unfold sched in E1. rewrite (bind_Ok _ _ _ _ _ (st_myproc _ _ _ _ _ _ _)) in E1. fold p in E1.
    rewrite (bind_Ok _ _ _ _ _ (st_get_proc _ _ _ _ _ _ _ _)), E2, Hno in E1.
    exists (st s (kfs s) pr2 (files s) (pipes s) (nextpid s) 1). split; [rewrite E1; reflexivity|].
    change (procs (st s (kfs s) pr2 (files s) (pipes s) (nextpid s) 1)) with pr2. rewrite E2. by split_and!.
Qed.

End ExitWait.

(** ** A family of processes *)

(** [init] and its child 2 wait for their children; 3 is running, with child 4. *)
Definition family_procs : Z -> proc := fun x =>
  if x =? 1 then zero_proc <| p_state := SLEEPING |> <| p_chan := Some (proc_chan 1) |> <| p_pid := 1 |>
  else if x =? 2 then zero_proc <| p_state := SLEEPING |> <| p_chan := Some (proc_chan 2) |> <| p_parent := 1 |> <| p_pid := 2 |>
  else if x =? 3 then zero_proc <| p_state := RUNNING |> <| p_parent := 2 |> <| p_pid := 3 |>
  else if x =? 4 then zero_proc <| p_state := RUNNABLE |> <| p_parent := 3 |> <| p_pid := 4 |>
  else zero_proc.

Definition family (b : lst) (p : Z) : kst lst :=
  (boot_kst (demo b T_FILE no_mem 0)) <| procs := family_procs |> <| cur := p |> <| initproc := 1 |>.

Lemma family_unlocked b p : unlocked (family b p).
Proof.
  split; [reflexivity|split; [reflexivity|split; [reflexivity|]]]. intros q _. change (p_lock (family_procs q) = false).
  unfold family_procs. by repeat (destruct (_ =? _)).
Qed.

Lemma exit_wakes_parent_witness :
  exists s s' : kst lst, (exit_finish 3 7 ;; sched (A := unit) (Chan "zombie" 3)) s = Sleep (Chan "zombie" 3) s' /\
    p_state (procs s' 3) = ZOMBIE /\ p_state (procs s' 2) = RUNNABLE /\ p_parent (procs s' 4) = 1.
Proof.
  destruct demo_blocks as [b _].
  destruct (exit_wakes_parent (family b 3) 3 7 (family_unlocked b 3)) as (s' & E & H1 & _ & _ & _ & _ & _ & H2 & _ & H3 & _).
  1,2: reflexivity.
  1-3: unfold NPROC; vm_compute; split; discriminate.
  1-3: discriminate.
  exists (family b 3), s'. split; [exact E|]. split; [exact H1|]. split; [apply H2; reflexivity|].
  rewrite H3 by (unfold NPROC; lia). reflexivity.
Defined.

Lemma wait_blocks_witness :
  exists s s' : kst lst, wait E64 0 s = Sleep (proc_chan 3) s' /\ p_state (procs s' 3) = SLEEPING.
Proof.
  destruct demo_blocks as [b _]. destruct (wait_blocks E64 (family b 3) 0 (family_unlocked b 3)) as [_ H].
  - change (cur (family b 3)) with 3. unfold NPROC. lia.
  - discriminate.
  - intros x _ _. change (p_state (family_procs x) <> ZOMBIE). unfold family_procs. by repeat (destruct (_ =? _)).
  - destruct H as (s' & E & Hs & _); [reflexivity..|]. by exists (family b 3), s'.
Defined.

(** A process forks; the child has exited with status 7. *)
Definition zombied (s : kst lst) : kst lst :=
  s <| procs := upd (procs s) 2 ((procs s 2) <| p_state := ZOMBIE |> <| p_xstate := 7 |>) |>.

Lemma wait_collects_witness :
  exists s s' : kst lst, wait E64 4000 s = Ok 2 s' /\ p_state (procs s' 2) = UNUSED.
Proof.
  destruct fork_sample_ok as (b & k & ptf & tf & root & l & T & new & H1 & H2 & H3 & H4 & H5 & H6 & H7 & H8 & H9 & H10 & H11 & H12 & H13).
  destruct (fork_spec E64 KERNBASE KERNBASE E64_pos ltac:(done) (fork_sample b k ptf) 2 tf root l T (frames new) H1 H2 H3 H4 H5 H6 H7 H8 H9 H10 H11 H12 H13)
    as (s & l' & T2 & fr2 & _ & C & [[F1 F2 F3 _] Hlen Hd Hh _ (Ht1 & Ht2 & Ht3) _] & Ep & Et & _ & _ & Hcur & Hu).
  change (p_pagetable (procs (fork_sample b k ptf) (cur (fork_sample b k ptf)))) with R64 in *.
  change (cur (fork_sample b k ptf)) with 1 in *. destruct C as [_ _ C3 C4 C5 _ _ _ _ C10 _ _].
  assert (E2 : procs (zombied s) 2 = (procs s 2) <| p_state := ZOMBIE |> <| p_xstate := 7 |>) by exact (upd_same _ _ _).
  assert (E1 : procs (zombied s) 1 = fork_procs ptf 1) by (etransitivity; [exact (upd_other _ 2 _ 1 ltac:(lia))|apply (C10 1); lia]).
  assert (Ec : cur (zombied s) = 1) by exact Hcur.
  destruct (wait_collects E64 E64_pos (zombied s) 4000 2 l' T (frames new) T2 fr2 KERNBASE) as (s' & l2 & E & Hf & _); rewrite ?Ec, ?E1, ?E2.
  - destruct Hu as (U1 & U2 & U3 & U4). split; [exact U1|split; [exact U2|split; [exact U3|]]]. intros q Hq.
    destruct (decide (q = 2)) as [->|Hq2]; [rewrite E2; exact (U4 2 Hq)|].
    change (p_lock (upd (procs s) 2 ((procs s 2) <| p_state := ZOMBIE |> <| p_xstate := 7 |>) q) = false). rewrite upd_other by done. by apply U4.
  - unfold NPROC. lia.
  - discriminate.
  - unfold NPROC. lia.
  - exact C3.
  - reflexivity.
  - intros x Hx. assert (x = 1) as -> by lia. rewrite E1. discriminate.
  - exact F1.
  - split; change (fs_mem (kfs (zombied s))) with (fs_mem (kfs s)).
    + change (umem E64 (fs_mem (kfs s)) l' (p_pagetable (procs s 2)) T2 fr2). rewrite Ep. exact F2.
    + change (0 < p_sz (procs s 2) <= TRAPFRAME). rewrite C5. done.
    + change (length fr2 = pages (p_sz (procs s 2))). rewrite C5, Hlen. exact H7.
    + change (high_mapped (fs_mem (kfs s)) (p_pagetable (procs s 2)) KERNBASE (p_tf (procs s 2))). by rewrite Ep, Et.
    + reflexivity.
    + change (freeable E64 l' T2 (p_tf (procs s 2))). by rewrite Et.
    + change (p_tf (procs s 2) ∉ fr2.*1). rewrite Et. intros Hin. apply Ht3. by right.
  - exact F3.
  - change (~ held T (frames new) (p_tf (procs s 2))). by rewrite Et.
  - lia.
  - intros _ i Hi. apply (sample_accessible new); [|lia]. rewrite length_frames in H7. exact H7.
  - exists (zombied s), s'. rewrite E2 in E, Hf. split; [rewrite E; f_equal; exact C4|]. rewrite Hf. reflexivity.
Defined.
