(* ===== verification/ProcProps.v ===== *)
(** * Properties of the process table

    The scheduler runs every process that is ready, and what [kill], [exit] and
    [wait] do to the table. *)
From stdpp Require Import base list gmap strings.
From Stdlib Require Import ZArith Lia.
From S2P Require Import Prelude KString Riscv Kalloc Vm VmSpec VmUser VmProps Sleeplock Bio Log Blocks Fs FsProps Kernel Pipe PipeProps Proc.

#[local] Open Scope Z_scope.
#[local] Open Scope xv6_scope.

Section Scheduler.

Context {S : Type} {L : BlockLayer S} {O : OpLayer S}.

(** [holds s p]: the only lock of a process that is held is that of [p]; the CPU
    holds nothing else. *)
Definition holds (s : kst S) (p : Z) : Prop :=
  k_noff s = 1 /\ forall q, 1 <= q <= NPROC -> p_lock (procs s q) = bool_decide (q = p).

(** What a process must do with the CPU: come back holding its lock and no other,
    and leave processes that are ready ready. *)
Definition comes_back (run : Z -> M (kst S) unit) : Prop :=
  forall p s, 1 <= p <= NPROC -> holds s p -> p_state (procs s p) = RUNNING -> cur s = p ->
    exists s', run p s = Ok tt s' /\ holds s' p /\
      forall q, q <> p -> p_state (procs s q) = RUNNABLE -> p_state (procs s' q) = RUNNABLE.

Definition free_cpu (s : kst S) : Prop := k_noff s = 0 /\ unlocked_procs s.

Lemma plock_holds p s : 1 <= p <= NPROC -> free_cpu s ->
  exists s', plock p s = Ok tt s' /\ holds s' p /\ (forall q, p_state (procs s' q) = p_state (procs s q)) /\ cur s' = cur s.
Proof.
  intros Hp [Hn Hu]. rewrite plock_Ok by auto. eexists. split; [reflexivity|]. split.
  - split; [rewrite k_noff_with; lia|]. intros q Hq. rewrite procs_with. destruct (decide (q = p)) as [->|Hne].
    + rewrite upd_same, bool_decide_true; done.
    + rewrite upd_other, bool_decide_false by done. auto.
  - split; [|done]. intros q. rewrite procs_with. destruct (decide (q = p)) as [->|Hne]; [by rewrite upd_same|by rewrite upd_other].
Qed.

Lemma punlock_free p s : 1 <= p <= NPROC -> holds s p ->
  exists s', punlock p s = Ok tt s' /\ free_cpu s' /\ (forall q, p_state (procs s' q) = p_state (procs s q)) /\ cur s' = cur s.
Proof.
  intros Hp [Hn Hu]. rewrite punlock_Ok by (rewrite Hu by done; by apply bool_decide_true). eexists. split; [reflexivity|]. split.
  - split; [rewrite k_noff_with; lia|]. intros q Hq. rewrite procs_with. destruct (decide (q = p)) as [->|Hne].
    + by rewrite upd_same.
    + rewrite upd_other, Hu by done. by apply bool_decide_false.
  - split; [|done]. intros q. rewrite procs_with. destruct (decide (q = p)) as [->|Hne]; [by rewrite upd_same|by rewrite upd_other].
Qed.

Section Pass.

Context (run : Z -> M (kst S) unit).
Hypothesis Hrun : comes_back run.

Lemma scheduler_one_spec p s : 1 <= p <= NPROC -> free_cpu s ->
  exists s', scheduler_one run p s = Ok (bool_decide (p_state (procs s p) = RUNNABLE)) s' /\ free_cpu s' /\
    forall q, q <> p -> p_state (procs s q) = RUNNABLE -> p_state (procs s' q) = RUNNABLE.
Proof.
  intros Hp Hs. destruct (plock_holds p s Hp Hs) as (s1 & E1 & H1 & P1 & C1). unfold scheduler_one.
  rewrite (bind_Ok _ _ _ _ _ E1). unfold bind at 1, get_proc, gets. rewrite P1. unfold bind at 1.
  destruct (decide (p_state (procs s p) = RUNNABLE)) as [E|E].
  - unfold bind at 1. rewrite set_proc_Ok. unfold bind at 1, modify. set (s2 := _ <| cur := p |>).
    assert (H2 : holds s2 p).
    { destruct H1 as [A B]. split; [exact A|]. intros q Hq. rewrite <- (B q Hq). cbn [procs s2 field_update]. rewrite procs_with.
      destruct (decide (q = p)) as [->|]; [by rewrite upd_same|by rewrite upd_other]. }
    assert (P2 : forall q, p_state (procs s2 q) = if decide (q = p) then RUNNING else p_state (procs s q)).
    { intros q. cbn [procs s2 field_update]. rewrite procs_with, <- P1.
      case_decide as Eq; [subst q; by rewrite upd_same|by rewrite upd_other]. }
    destruct (Hrun p s2 Hp H2) as (s3 & E3 & H3 & P3); [by rewrite P2, decide_True|done|].
    unfold bind at 1. rewrite E3. unfold bind at 1, ret.
    assert (H3' : holds (s3 <| cur := 0 |>) p) by exact H3.
    destruct (punlock_free p (s3 <| cur := 0 |>) Hp H3') as (s4 & E4 & H4 & P4 & _). erewrite bind_Ok; [|exact E4].
    exists s4. rewrite bool_decide_true by done. split; [done|]. split; [done|]. intros q Hq Hr. rewrite P4.
    apply P3; [done|]. rewrite P2, decide_False by done. exact Hr.
  - unfold ret at 1. destruct (punlock_free p s1 Hp H1) as (s4 & E4 & H4 & P4 & _). rewrite (bind_Ok _ _ _ _ _ E4).
    exists s4. rewrite bool_decide_false by done. split; [done|]. split; [done|]. intros q Hq Hr. by rewrite P4, P1.
Qed.

Lemma scheduler_pass_spec n a s : 1 <= a -> a + Z.of_nat n <= NPROC + 1 -> free_cpu s ->
  exists ps s', scheduler_pass run (zseq a n) s = Ok ps s' /\ free_cpu s' /\ NoDup ps /\
    (forall p, p ∈ ps -> a <= p < a + Z.of_nat n) /\
    (forall p, a <= p < a + Z.of_nat n -> p_state (procs s p) = RUNNABLE -> p ∈ ps).
Proof.
  revert a s. induction n as [|n IH]; intros a s Ha Hn Hs; cbn [zseq scheduler_pass].
  - exists [], s. split_and!; [done|done|constructor|intros p Hp; by apply elem_of_nil in Hp|lia].
  - destruct (scheduler_one_spec a s) as (s1 & E1 & H1 & P1); [lia|done|]. rewrite (bind_Ok _ _ _ _ _ E1).
    destruct (IH (a + 1) s1) as (ps & s2 & E2 & H2 & Hnd & Hin & Hall); [lia|lia|done|]. rewrite (bind_Ok _ _ _ _ _ E2).
    eexists _, s2. split; [reflexivity|]. split; [done|]. case_bool_decide as E.
    + split_and!.
      * constructor; [|done]. intros Hx. apply Hin in Hx. lia.
      * intros p Hp. apply elem_of_cons in Hp as [->|Hp]; [lia|]. apply Hin in Hp. lia.
      * intros p Hp Hr. destruct (decide (p = a)) as [->|]; [by left|right]. apply Hall; [lia|]. by apply P1.
    + split_and!; [done|intros p Hp; apply Hin in Hp; lia|].
      intros p Hp Hr. destruct (decide (p = a)) as [->|]; [done|]. apply Hall; [lia|]. by apply P1.
Qed.

End Pass.

(** C22: the scheduler is fair.  When every process gives the CPU back as it must
    (holding its own lock and no other, with the processes that are ready left
    ready), a pass over the table comes to an end, runs every process that was
    ready at its start, runs none twice, and leaves every lock free. *)
Theorem scheduler_fair run (s : kst S) :
  comes_back run -> free_cpu s ->
  exists ps s', scheduler_pass run proc_list s = Ok ps s' /\ NoDup ps /\ free_cpu s' /\
    forall p, 1 <= p <= NPROC -> p_state (procs s p) = RUNNABLE -> p ∈ ps.
Proof.
  intros Hrun Hs. destruct (scheduler_pass_spec run Hrun (Z.to_nat NPROC) 1 s) as (ps & s' & E & H1 & H2 & _ & H3); [lia|done|done|].
  exists ps, s'. split_and!; auto. intros p Hp. apply H3. unfold NPROC in *. lia.
Qed.

End Scheduler.

(** A process that sleeps at once. *)
Lemma sleeper_comes_back {S} : comes_back (S := S) (fun p => set_proc p (fun x => x <| p_state := SLEEPING |>)).
Proof.
  intros p s Hp [Hn Hl] _ _. rewrite set_proc_Ok. eexists. split; [reflexivity|]. split.
  - split; [exact Hn|]. intros q Hq. rewrite procs_with, <- (Hl q Hq).
    destruct (decide (q = p)) as [->|]; [by rewrite upd_same|by rewrite upd_other].
  - intros q Hq Hr. by rewrite procs_with, upd_other.
Qed.

Lemma scheduler_fair_witness :
  exists (s : kst lst) ps s', scheduler_pass (fun p => set_proc p (fun x => x <| p_state := SLEEPING |>)) proc_list s = Ok ps s' /\
    1 ∈ ps /\ 7 ∈ ps.
Proof.
  destruct sample_process as (k & l & T & new & U & _). destruct demo_blocks as [b _].
  set (s := (boot_kst (demo b T_FILE k R64)) <| procs := fun _ => zero_proc <| p_state := RUNNABLE |> |>).
  destruct (scheduler_fair (fun p => set_proc p (fun x => x <| p_state := SLEEPING |>)) s) as (ps & s' & E & _ & _ & H).
  - exact sleeper_comes_back.
  - split; [done|]. intros p Hp. done.
  - exists s, ps, s'. split; [exact E|]. split; (apply H; [unfold NPROC; lia|reflexivity]).
Defined.
