(* ===== verification/Console.v ===== *)
(** * [kernel/uart.c], [kernel/printf.c] and [kernel/console.c]

    Characters go out through the transmit register of the uart, which always
    takes them after a while; [cn_out] is what it has been given.  Characters that
    have come in wait in its receive fifo [cn_in].  The console's input buffer is
    a ring with three counters: the reader's, the end of the last whole line, and
    the end of the line being edited. *)
From stdpp Require Import base list gmap strings.
From Stdlib Require Import ZArith Lia.
From S2P Require Import Prelude KString Riscv Kalloc Vm Sleeplock Bio Log Blocks Fs Kernel Pipe Proc.

#[local] Open Scope Z_scope.
#[local] Open Scope xv6_scope.

(** ** The uart *)

Definition RHR : Z := 0.
Definition THR : Z := 0.
Definition IER : Z := 1.
Definition FCR : Z := 2.
Definition LCR : Z := 3.
Definition LSR : Z := 5.

(** The register writes of [uartinit], in order. *)
Definition uartinit : list (Z * Z) :=
  [(IER, 0x00); (LCR, 0x80); (0, 0x03); (1, 0x00); (LCR, 0x03); (FCR, 0x07); (IER, 0x01)].

(** The line status register: bit 0 with input waiting, bit 5 with room to send. *)
Definition uart_lsr (c : consst) : Z := Z.lor (Z.shiftl 1 5) (if cn_in c is [] then 0 else 1).

(** ** Formatting *)

Definition BACKSPACE : Z := 0x100.
Definition ctrl (x : Z) : Z := x - 64.
Definition NL : Z := 10.

(** The bytes of a string literal. *)
Fixpoint bytes_of (s : string) : list Z :=
  match s with
  | EmptyString => []
  | String a s => Z.of_nat (Ascii.nat_of_ascii a) :: bytes_of s
  end.

Definition digit (d : Z) : Z := default 0 (bytes_of "0123456789abcdef" !! Z.to_nat d).

(** The digits of [x], least significant first: the loop fills [buf]. *)
Fixpoint digits_rev (fuel : nat) (x base : Z) : list Z :=
  match fuel with
  | O => []
  | S n => digit (x mod base) :: (if x / base =? 0 then [] else digits_rev n (x / base) base)
  end.

(** [printint(xx, base, sign)]: the characters, in the order they are sent. *)
Definition printint (xx base : Z) (sign : bool) : list Z :=
  let sign := sign && (xx <? 0) in
  let x := if sign then u32 (- xx) else u32 xx in
  let buf := digits_rev 32 x base in
  rev (if sign then buf ++ [45] else buf).

Fixpoint ptr_digits (n : nat) (x : Z) : list Z :=
  match n with
  | O => []
  | S n => digit (Z.shiftr x 60) :: ptr_digits n (u64 (Z.shiftl x 4))
  end.

Definition printptr (x : Z) : list Z := 48 :: 120 :: ptr_digits 16 x.

(** Arguments of [printf]. *)
Inductive parg : Type := AInt (z : Z) | APtr (z : Z) | AStr (s : option (list Z)).

Definition null_str : list Z := [40; 110; 117; 108; 108; 41].

(** The next argument, read as the type that the conversion asks for. *)
Definition arg_int (a : list parg) : Z := match a with AInt z :: _ | APtr z :: _ => s32 z | _ => 0 end.
Definition arg_ptr (a : list parg) : Z := match a with AInt z :: _ | APtr z :: _ => u64 z | _ => 0 end.
Definition arg_str (a : list parg) : list Z :=
  match a with AStr (Some s) :: _ => cstr (fun i => default 0 (s !! Z.to_nat i)) 0 (length s) | _ => null_str end.

(** What [printf(fmt, ...)] sends to the console. *)
Fixpoint format (fmt : list Z) (args : list parg) : list Z :=
  match fmt with
  | [] => []
  | c :: fmt =>
      if c =? 0 then [] else
      if negb (c =? 37) then c :: format fmt args else
      match fmt with
      | [] => []
      | c :: fmt =>
          if c =? 0 then [] else
          if c =? 100 then printint (arg_int args) 10 true ++ format fmt (tail args) else
          if c =? 120 then printint (arg_int args) 16 true ++ format fmt (tail args) else
          if c =? 112 then printptr (arg_ptr args) ++ format fmt (tail args) else
          if c =? 115 then arg_str args ++ format fmt (tail args) else
          if c =? 37 then 37 :: format fmt args else
          37 :: c :: format fmt args
      end
  end.

Section Console.

Context {S : Type} {L : BlockLayer S} {O : OpLayer S}.

Abbreviation K := (M (kst S)).

(** [uartputc]: the loop ends when the transmit register is empty. *)
Definition uartputc (c : Z) : K unit := set_con (fun x => x <| cn_out := cn_out x ++ [u8 c] |>).

Definition uartgetc : K Z :=
  x ← gets con ;
  if Z.land (uart_lsr x) 1 =? 0 then ret (-1) else
  match cn_in x with
  | [] => ret (-1)
  | c :: l => set_con (fun x => x <| cn_in := l |>) ;; ret (u8 c)
  end.

Definition consputc (c : Z) : K unit :=
  if c =? BACKSPACE then uartputc 8 ;; uartputc 32 ;; uartputc 8
  else uartputc c.

Definition printf (fmt : list Z) (args : list parg) : K unit :=
  locking ← gets (fun s => cn_locking (con s)) ;
  (if locking : bool then prlock else ret tt) ;;
  each (format fmt args) consputc ;;
  (if locking then prunlock else ret tt).

Definition printfinit : K unit := set_con (fun x => x <| cn_prlock := false |> <| cn_locking := true |>).

(** ** [procdump] *)

Definition state_name (st : procstate) : string :=
  match st with
  | UNUSED => "unused"
  | SLEEPING => "sleep "
  | RUNNABLE => "runble"
  | RUNNING => "run   "
  | ZOMBIE => "zombie"
  end.

Definition procdump_one (p : Z) : K unit :=
  x ← get_proc p ;
  if decide (p_state x = UNUSED) then ret tt else
  printf (bytes_of "%d %s %s") [AInt (p_pid x); AStr (Some (bytes_of (state_name (p_state x)))); AStr (Some (p_name x))] ;;
  printf [NL] [].

Definition procdump : K unit :=
  printf [NL] [] ;;
  each proc_list procdump_one.

(** ** The console *)

Definition cons_chan : chan := Chan "cons.r" 0.

(** One turn of the loop of [consolewrite]. *)
Definition consolewrite_byte (user_src : bool) (src n i : Z) : K (Z + unit) :=
  if negb (i <? n) then ret (inr tt) else
  r ← in_fs (either_copyin user_src (u64 (src + i)) 1) ;
  let '(r, c) := r : Z * list Z in
  if r =? -1 then ret (inr tt) else
  (consputc (hd 0 c) ;; ret (inl (i + 1))).

Definition consolewrite (user_src : bool) (src n : Z) : K Z :=
  clock ;;
  while_ (consolewrite_byte user_src src n) 0 ;;
  cunlock ;;
  ret n.

(** The character [buf[i % INPUT_BUF]]. *)
Definition cons_at (c : consst) (i : Z) : Z := default 0 (cn_buf c !! Z.to_nat (i mod INPUT_BUF)).

(** One turn of the loop of [consoleread]: [inr (inl r)] returns [r], [inr (inr n)]
    leaves the loop. *)
Definition consoleread_byte (user_dst : bool) (target : Z) (x : Z * Z) : K (Z * Z + (Z + Z)) :=
  let '(dst, n) := x in
  if negb (n >? 0) then ret (inr (inr n)) else
  k ← gets con ;
  if cn_r k =? cn_w k then
    p ← myproc ;
    pr ← get_proc p ;
    if p_killed pr then cunlock ;; ret (inr (inl (-1))) else sleep cons_chan (Some cunlock)
  else
  let c := cons_at k (cn_r k) in
  set_con (fun k => k <| cn_r := u32 (cn_r k + 1) |>) ;;
  if c =? ctrl 68 then
    (if n <? target then set_con (fun k => k <| cn_r := u32 (cn_r k - 1) |>) else ret tt) ;;
    ret (inr (inr n))
  else
  r ← in_fs (either_copyout user_dst dst [c] 1) ;
  if r =? -1 then ret (inr (inr n)) else
  ret (if c =? NL then inr (inr (n - 1)) else inl (u64 (dst + 1), n - 1)).

Definition consoleread (user_dst : bool) (dst n : Z) : K Z :=
  let target := u32 n in
  clock ;;
  r ← while_ (consoleread_byte user_dst target) (dst, n) ;
  match r with
  | inl r => ret r
  | inr n => cunlock ;; ret (s32 (target - n))
  end.

(** One turn of the loop that erases the line. *)
Definition kill_char (_ : unit) : K (unit + unit) :=
  k ← gets con ;
  if negb (cn_e k =? cn_w k) && negb (cons_at k (u32 (cn_e k - 1)) =? NL) then
    set_con (fun k => k <| cn_e := u32 (cn_e k - 1) |>) ;;
    consputc BACKSPACE ;;
    ret (inl tt)
  else ret (inr tt).

(** Store a character at the end of the line. *)
Definition cons_store (c : Z) (k : consst) : consst :=
  k <| cn_buf := <[Z.to_nat (cn_e k mod INPUT_BUF) := c]> (cn_buf k) |> <| cn_e := u32 (cn_e k + 1) |>.

Definition consoleintr (c : Z) : K unit :=
  clock ;;
  (if c =? ctrl 80 then procdump
   else if c =? ctrl 85 then while_ kill_char tt
   else if (c =? ctrl 72) || (c =? 0x7f) then
     k ← gets con ;
     if negb (cn_e k =? cn_w k)
     then set_con (fun k => k <| cn_e := u32 (cn_e k - 1) |>) ;; consputc BACKSPACE
     else ret tt
   else
     k ← gets con ;
     if negb (c =? 0) && (u32 (cn_e k - cn_r k) <? INPUT_BUF) then
       let c := if c =? 13 then NL else c in
       consputc c ;;
       set_con (cons_store c) ;;
       k ← gets con ;
       if (c =? NL) || (c =? ctrl 68) || (cn_e k =? u32 (cn_r k + INPUT_BUF))
       then set_con (fun k => k <| cn_w := cn_e k |>) ;; wakeup cons_chan
       else ret tt
     else ret tt) ;;
  cunlock.

(** One turn of [uartintr]. *)
Definition uartintr_char (_ : unit) : K (unit + unit) :=
  c ← uartgetc ;
  if c =? -1 then ret (inr tt) else (consoleintr c ;; ret (inl tt)).

Definition uartintr : K unit := while_ uartintr_char tt.

Definition CONSOLE : Z := 1.

(** The device switch after [consoleinit]. *)
Definition console_devsw : devsw :=
  Devsw (fun major => if major =? CONSOLE then Some consoleread else None)
        (fun major => if major =? CONSOLE then Some consolewrite else None).

Definition consoleinit : K unit := set_con (fun k => k <| cn_lock := false |>).

End Console.
