(* ===== verification/Syscall.v ===== *)
(** * System call arguments and the calls on processes

    The argument fetching routines of [kernel/syscall.c] and the handlers of
    [kernel/sysproc.c].  A handler returns the value that goes into [a0]. *)
From stdpp Require Import base list gmap strings.
From Stdlib Require Import ZArith Lia.
From S2P Require Import Prelude KString Riscv Kalloc Vm Sleeplock Bio Log Blocks Fs Kernel Pipe Proc.

#[local] Open Scope Z_scope.
#[local] Open Scope xv6_scope.

(** [strlen] of an array. *)
Definition c_strlen (s : list Z) : Z := Z.of_nat (length (cstr (fun i => default 0 (s !! Z.to_nat i)) 0 (length s))).

Section Syscall.

Context (end_ trampoline forkret_ : Z) {S : Type} {L : BlockLayer S} {O : OpLayer S}.

Abbreviation K := (M (kst S)).

(** ** Arguments *)

(** The result and the word at [addr]. *)
Definition fetchaddr (addr : Z) : K (Z * Z) :=
  p ← myproc ;
  pr ← get_proc p ;
  if (addr >=? p_sz pr) || (u64 (addr + 8) >? p_sz pr) then ret (-1, 0) else
  r ← in_kmem (copyin (p_pagetable pr) addr 8) ;
  let '(r, bs) := r : Z * list Z in
  ret (if r =? 0 then (0, le_val bs) else (-1, le_val bs)).

(** The result and what is in [buf]. *)
Definition fetchstr (addr max : Z) : K (Z * list Z) :=
  p ← myproc ;
  pr ← get_proc p ;
  r ← in_kmem (copyinstr (p_pagetable pr) addr max) ;
  let '(err, buf) := r : Z * list Z in
  ret (if err <? 0 then (err, buf) else (c_strlen buf, buf)).

Definition argraw (n : Z) : K Z :=
  p ← myproc ;
  if (0 <=? n) && (n <? 6) then tf_load p (TF_a0 + 8 * n) else panic "argraw".

Definition argint (n : Z) : K Z := x ← argraw n ; ret (s32 x).
Definition argaddr (n : Z) : K Z := argraw n.

Definition argstr (n max : Z) : K (Z * list Z) :=
  addr ← argaddr n ;
  fetchstr addr max.

(** ** [kernel/sysproc.c] *)

Definition sys_exit : K Z :=
  n ← argint 0 ;
  exit end_ n ;;
  ret 0.

Definition sys_getpid : K Z :=
  p ← myproc ;
  pr ← get_proc p ;
  ret (p_pid pr).

Definition sys_fork : K Z := fork end_ trampoline forkret_.

Definition sys_wait : K Z :=
  a ← argaddr 0 ;
  wait end_ a.

Definition sys_sbrk : K Z :=
  n ← argint 0 ;
  p ← myproc ;
  pr ← get_proc p ;
  let addr := s32 (p_sz pr) in
  r ← growproc end_ n ;
  ret (if r <? 0 then -1 else addr).

Definition ticks_chan : chan := Chan "ticks" 0.

(** [sys_sleep] from the loop on; [ticks0] is the time it was called.  The
    comparison is unsigned. *)
Definition sys_sleep_wait (ticks0 n : Z) : K Z :=
  t ← gets ticks ;
  if u32 (t - ticks0) <? u32 n then
    p ← myproc ;
    pr ← get_proc p ;
    if p_killed pr then tunlock ;; ret (-1) else sleep ticks_chan (Some tunlock)
  else tunlock ;; ret 0.

Definition sys_sleep : K Z :=
  n ← argint 0 ;
  tlock ;;
  ticks0 ← gets ticks ;
  sys_sleep_wait ticks0 n.

Definition sys_kill : K Z :=
  pid ← argint 0 ;
  kill pid.

Definition sys_uptime : K Z :=
  tlock ;;
  xticks ← gets ticks ;
  tunlock ;;
  ret xticks.

End Syscall.
