(* ===== verification/Exec.v ===== *)
(** * [kernel/exec.c]: running a program

    The ELF image is read from the inode into a new address space; the argument
    strings and the vector of pointers to them go on its stack. *)
From stdpp Require Import base list gmap strings.
From Stdlib Require Import ZArith Lia.
From S2P Require Import Prelude KString Riscv Kalloc Vm Sleeplock Bio Log Blocks Fs Kernel Pipe Proc Syscall.

#[local] Open Scope Z_scope.
#[local] Open Scope xv6_scope.

Definition MAXARG : Z := 32.
Definition ELF_MAGIC : Z := 0x464C457F.
Definition ELF_PROG_LOAD : Z := 1.
Definition sizeof_elf : Z := 64.
Definition sizeof_ph : Z := 56.

(** Fields of [struct elfhdr]. *)
Definition elf_magic (e : list Z) : Z := get_le 4 0 e.
Definition elf_entry (e : list Z) : Z := get_le 8 24 e.
Definition elf_phoff (e : list Z) : Z := get_le 8 32 e.
Definition elf_phnum (e : list Z) : Z := get_le 2 56 e.

(** Fields of [struct proghdr]. *)
Record proghdr : Type := Proghdr {
  ph_type : Z;
  ph_off : Z;
  ph_vaddr : Z;
  ph_filesz : Z;
  ph_memsz : Z;
}.

Definition read_ph (d : list Z) : proghdr :=
  Proghdr (get_le 4 0 d) (get_le 8 8 d) (get_le 8 16 d) (get_le 8 32 d) (get_le 8 40 d).

(** The part of the path after the last slash. *)
Fixpoint last_elem (last s : list Z) : list Z :=
  match s with
  | [] => last
  | c :: s' => if c =? 0 then last else last_elem (if c =? SLASH then s' else last) s'
  end.

(** The stack pointer below [n] more bytes, 16-byte aligned. *)
Definition push_sp (sp n : Z) : Z := let sp := u64 (sp - n) in sp - sp mod 16.

Section Exec.

Context (end_ trampoline : Z) {S : Type} {L : BlockLayer S} {O : OpLayer S}.

Abbreviation K := (M (kst S)).

(** [readi] into a variable of [n] bytes. *)
Definition read_var (ip off n : Z) : K (Z * list Z) :=
  in_fs (modify (fun s => s <| kvar := replicate (Z.to_nat n) 0 |>)) ;;
  r ← in_fs (readi ip false 0 off n) ;
  d ← gets (fun s => kvar (kfs s)) ;
  ret (r, d).

(** One turn of the loop of [loadseg].  [readi] writes to the page at [pa]
    through the kernel's direct mapping. *)
Definition loadseg_page (pagetable va ip offset sz i : Z) : K (Z + Z) :=
  if negb (i <? sz) then ret (inr 0) else
  pa ← in_kmem (walkaddr pagetable (u64 (va + i))) ;
  if pa =? 0 then panic "loadseg: address should exist" else
  let n := if sz - i <? PGSIZE then sz - i else PGSIZE in
  in_fs (modify (fun s => s <| kvar := read_bytes (ram (fs_mem s)) pa (Z.to_nat n) |>)) ;;
  r ← in_fs (readi ip false 0 (u32 (offset + i)) n) ;
  d ← gets (fun s => kvar (kfs s)) ;
  in_kmem (modify (fun k => k <| ram := write_bytes (ram k) pa d |>)) ;;
  ret (if r =? n then inl (u32 (i + PGSIZE)) else inr (-1)).

Definition loadseg (pagetable va ip offset sz : Z) : K Z :=
  if negb (va mod PGSIZE =? 0) then panic "loadseg: va must be page aligned"
  else while_ (loadseg_page pagetable va ip offset sz) 0.

(** One segment: the new size, or the size to free when it fails. *)
Definition load_ph (pagetable ip : Z) (ph : proghdr) (sz : Z) : K (bool * Z) :=
  if negb (ph_type ph =? ELF_PROG_LOAD) then ret (true, sz) else
  if ph_memsz ph <? ph_filesz ph then ret (false, sz) else
  if u64 (ph_vaddr ph + ph_memsz ph) <? ph_vaddr ph then ret (false, sz) else
  sz ← in_kmem (uvmalloc end_ pagetable sz (u64 (ph_vaddr ph + ph_memsz ph))) ;
  if sz =? 0 then ret (false, sz) else
  if negb (ph_vaddr ph mod PGSIZE =? 0) then ret (false, sz) else
  r ← loadseg pagetable (ph_vaddr ph) ip (u32 (ph_off ph)) (u32 (ph_filesz ph)) ;
  ret (negb (r <? 0), sz).

(** The loop over the [n] program headers from [off] on. *)
Fixpoint load_phs (n : nat) (pagetable ip off sz : Z) : K (bool * Z) :=
  match n with
  | 0%nat => ret (true, sz)
  | Datatypes.S n =>
      r ← read_var ip (u32 off) sizeof_ph ;
      let '(r, d) := r : Z * list Z in
      if negb (r =? sizeof_ph) then ret (false, sz) else
      x ← load_ph pagetable ip (read_ph d) sz ;
      let '(ok, sz) := x : bool * Z in
      if ok then load_phs n pagetable ip (s32 (off + sizeof_ph)) sz else ret (false, sz)
  end.

(** Push the argument strings from number [argc] on; the result is the stack
    pointer and the addresses of the strings, [None] for [goto bad]. *)
Fixpoint push_args (pagetable stackbase sp argc : Z) (argv : list (list Z)) (ustack : list Z) : K (option (Z * list Z)) :=
  match argv with
  | [] => ret (Some (sp, ustack))
  | a :: argv =>
      if argc >=? MAXARG then ret None else
      let n := c_strlen a + 1 in
      let sp := push_sp sp n in
      if sp <? stackbase then ret None else
      r ← in_kmem (copyout pagetable sp (take (Z.to_nat n) a) n) ;
      if r <? 0 then ret None else
      push_args pagetable stackbase sp (argc + 1) argv (ustack ++ [sp])
  end.

(** The stack of the new program: the stack pointer, which is also the address
    of the vector. *)
Definition exec_stack (pagetable sz : Z) (argv : list (list Z)) : K (option Z) :=
  let stackbase := sz - PGSIZE in
  r ← push_args pagetable stackbase sz 0 argv [] ;
  match r with
  | None => ret None
  | Some (sp, ustack) =>
      let ustack := ustack ++ [0] in
      let n := 8 * Z.of_nat (length ustack) in
      let sp := push_sp sp n in
      if sp <? stackbase then ret None else
      r ← in_kmem (copyout pagetable sp (concat (le_bytes 8 <$> ustack)) n) ;
      ret (if r <? 0 then None else Some sp)
  end.

(** [bad:], with the inode when it is still locked. *)
Definition exec_bad (pagetable sz ip : Z) : K Z :=
  (if pagetable =? 0 then ret tt else in_kmem (proc_freepagetable end_ pagetable sz)) ;;
  (if ip =? 0 then ret tt else (in_fs (iunlockput ip) ;; end_op ROOTDEV)) ;;
  ret (-1).

(** From the stack on: the image is loaded, [sz] bytes. *)
Definition exec_commit (path : list Z) (argv : list (list Z)) (pagetable sz entry : Z) : K Z :=
  p ← myproc ;
  pr ← get_proc p ;
  let oldsz := p_sz pr in
  let sz := PGROUNDUP sz in
  sz ← in_kmem (uvmalloc end_ pagetable sz (u64 (sz + 2 * PGSIZE))) ;
  if sz =? 0 then exec_bad pagetable sz 0 else
  in_kmem (uvmclear pagetable (sz - 2 * PGSIZE)) ;;
  r ← exec_stack pagetable sz argv ;
  match r with
  | None => exec_bad pagetable sz 0
  | Some sp =>
      tf_store p TF_a1 sp ;;
      set_proc p (fun x => x <| p_name := copy_name (p_name x) (last_elem path path) 16 |>) ;;
      pr ← get_proc p ;
      set_proc p (fun x => x <| p_pagetable := pagetable |> <| p_sz := sz |>) ;;
      tf_store p TF_epc entry ;;
      tf_store p TF_sp sp ;;
      in_kmem (proc_freepagetable end_ (p_pagetable pr) oldsz) ;;
      ret (Z.of_nat (length argv))
  end.

Definition exec (path : list Z) (argv : list (list Z)) : K Z :=
  p ← myproc ;
  begin_op ROOTDEV ;;
  ip ← in_fs (namei path) ;
  if ip =? 0 then end_op ROOTDEV ;; ret (-1) else
  in_fs (ilock ip) ;;
  e ← read_var ip 0 sizeof_elf ;
  let '(r, elf) := e : Z * list Z in
  if negb (r =? sizeof_elf) then exec_bad 0 0 ip else
  if negb (elf_magic elf =? ELF_MAGIC) then exec_bad 0 0 ip else
  pagetable ← proc_pagetable trampoline p ;
  if pagetable =? 0 then exec_bad 0 0 ip else
  x ← load_phs (Z.to_nat (elf_phnum elf)) pagetable ip (s32 (elf_phoff elf)) 0 ;
  let '(ok, sz) := x : bool * Z in
  if negb ok then exec_bad pagetable sz ip else
  (in_fs (iunlockput ip) ;;
   end_op ROOTDEV ;;
   exec_commit path argv pagetable sz (elf_entry elf)).

End Exec.
