(* ===== verification/ExecLoad.v ===== *)
(** * Loading a program

    [loadseg] and the loop over the program headers of [kernel/exec.c]: the user memory
    is the image that the headers describe ([image_of]), with the bytes of the file in
    the segments and zeros elsewhere. *)
From stdpp Require Import base list gmap strings.
From Stdlib Require Import ZArith Lia.
From S2P Require Import Prelude KString Riscv Kalloc Vm VmSpec VmUser VmCopy Sleeplock Bio Log Blocks.
From S2P Require Import Fs FsBlock FsInode FsMeta FsFile FsCache FsDir FsProps FsPath Kernel KState KernFs Proc ProcMem Syscall Exec.

#[local] Open Scope Z_scope.
#[local] Open Scope xv6_scope.

Section Load.

Context (end_ : Z) (end_pos : 0 < end_).
Context {S : Type} {L : BlockLayer S} {O : OpLayer S}.
Context (D : device) (rep : S -> bview -> Prop) {HL : BlockLaws S D rep}.
Context (idle : S -> (Z -> block) -> Prop) {TX : TxLaws S (d_dev D) rep idle}.
Context (sb0 : superblock) (dstart : Z) (LY : layout D sb0 dstart).
Context (v : bview) (FT : fs_tree D sb0 dstart v).
Context (ip inum : Z).

Abbreviation klocked := (klocked D rep sb0).

(** The file that is open. *)
Abbreviation d := (dnode D sb0 v inum).

(** ** Reading the file *)

(** Only blocks and the variable of the kernel have changed. *)
Record kread (s s' : kst S) : Prop := {
  kr_step : kstep s s';
  kr_inodes : forall x, inodes (kfs s') x = inodes (kfs s) x;
}.

Lemma kread_trans s s1 s2 : kread s s1 -> kread s1 s2 -> kread s s2.
Proof. intros [A1 A2] [B1 B2]. split; [by eapply kstep_trans|]. intros x. by rewrite B2. Qed.

Lemma kread_refl s : kread s s.
Proof. split; [apply kstep_refl|done]. Qed.

Lemma kread_mem s k : kread s (set_mem k s).
Proof. split; [apply kstep_fs|done]. Qed.

Lemma set_kvar_wp {A} s (h : fst S -> list Z) (Q : A -> kst S -> Prop) (c : unit -> M (kst S) A) :
  running s -> klocked s v ip inum ->
  (forall s', kread s s' -> klocked s' v ip inum -> fs_mem (kfs s') = fs_mem (kfs s) -> kvar (kfs s') = h (fs_view s) -> wp (c tt) Q s') ->
  wp (bind (in_fs (modify (fun s => s <| kvar := h s |>))) c) Q s.
Proof.
  intros R K HQ. apply wp_bind. apply (in_fs_wp _ (fun _ g => g = (fs_view s) <| kvar := h (fs_view s) |>)); [done| |].
  - done.
  - intros [] s' Eg Ks. pose proof (view_locked D rep idle sb0 s v ip inum K (ft_held _ _ _ _ FT)) as [U C I V Hl].
    apply HQ; rewrite ?Eg; auto.
    + split; [done|]. by rewrite Eg.
    + apply (locked_op D rep sb0 s); auto; [apply K|]. rewrite Eg. split; try done. destruct U. by split.
Qed.

Lemma readi_wp s off n (Q : Z -> kst S -> Prop) :
  running s -> klocked s v ip inum -> 0 <= n -> 0 <= off <= i_size d -> off + n < 2 ^ 32 -> Z.of_nat (length (kvar (kfs s))) = n ->
  (forall s', kread s s' -> klocked s' v ip inum -> fs_mem (kfs s') = fs_mem (kfs s) ->
    kvar (kfs s') = splice 0 (fbytes v d off (read_len d off n)) (kvar (kfs s)) -> Q (read_len d off n) s') ->
  wp (in_fs (readi ip false 0 off n)) Q s.
Proof.
  intros R K Hn Hoff Hw Hlen HQ. pose proof (view_locked D rep idle sb0 s v ip inum K (ft_held _ _ _ _ FT)) as K'.
  pose proof (lo_agrees _ _ _ _ _ _ _ _ K') as Ha. pose proof K' as [U C I V Hl]. destruct (ca_live _ _ _ _ _ C ip inum I) as [Hal _].
  destruct (ft_file _ _ _ _ FT inum Hal) as [W NH]. set (i := inodes (fs_view s) ip) in *. pose proof Ha as (_ & _ & Esz & _).
  assert (Wi : iwf D sb0 dstart v i) by (apply (agrees_iwf D sb0 dstart v i d); auto; destruct I as (_ & _ & Ed & _); unfold i; by rewrite Ed, (iw_dev _ _ _ _ _ W)).
  assert (El : read_len i off n = read_len d off n) by (unfold read_len; by rewrite Esz).
  assert (Eb : forall m, fbytes v i off m = fbytes v d off m) by (intros m; unfold fbytes; apply list_fmap_ext; intros; by apply agrees_fbyte).
  assert (Hm : 0 <= read_len d off n <= n) by (unfold read_len; lia).
  apply (in_fs_wp _ (fun r g => r = read_len d off n /\
    ist rep g ((fs_view s) <| kvar := splice 0 (fbytes v d off (read_len d off n)) (kvar (kfs s)) |>) v ip i)); [done| |].
  - rewrite <- El, <- Eb. apply (readi_kernel D rep sb0 dstart ip v i off n Wi) with (s0 := fs_view s); auto; try apply FT; try (rewrite Esz); try lia.
    + by apply (agrees_holes v i d).
    + split; apply FT.
    + rewrite El. change (kvar (fs_view s)) with (kvar (kfs s)). lia.
    + change (kvar (fs_view s)) with (kvar (kfs s)). lia.
    + apply ist_refl, U.
  - intros r s' [-> I'] Ks. apply HQ; [| |apply (is_mem _ _ _ _ _ _ I')|apply (is_kvar _ _ _ _ _ _ I')].
    + split; [done|]. intros x. destruct (decide (x = ip)) as [->|Hne]; [apply (is_ip _ _ _ _ _ _ I')|apply (is_other _ _ _ _ _ _ I' x Hne)].
    + apply (locked_op D rep sb0 s); auto; [apply K|]. apply (ilocked_ext D rep sb0 v (fs_view s)); auto.
      * destruct U, I'. split; cbn in *; congruence.
      * intros x. destruct (decide (x = ip)) as [->|Hne]; [apply (is_ip _ _ _ _ _ _ I')|apply (is_other _ _ _ _ _ _ I' x Hne)].
Qed.

Lemma kread_running s s' : running s -> kread s s' -> running s'.
Proof. intros R [K _]. by apply (kstep_running s). Qed.

Lemma read_var_wp s off n (Q : Z * list Z -> kst S -> Prop) :
  let m := read_len d off n in
  running s -> klocked s v ip inum -> 0 <= n -> 0 <= off <= i_size d -> off + n < 2 ^ 32 ->
  (forall s', kread s s' -> klocked s' v ip inum -> fs_mem (kfs s') = fs_mem (kfs s) ->
    Q (m, fbytes v d off m ++ replicate (Z.to_nat (n - m)) 0) s') ->
  wp (read_var ip off n) Q s.
Proof.
  intros m R K Hn Hoff Hw HQ. assert (Hm : 0 <= m <= n) by (unfold m, read_len; lia). unfold read_var.
  apply (set_kvar_wp s (fun _ => replicate (Z.to_nat n) 0)); auto. intros s1 R1 K1 M1 E1.
  pose proof (kread_running _ _ R R1). apply wp_bind, readi_wp; auto; [by rewrite E1, length_replicate, Z2Nat.id|].
  intros s2 R2 K2 M2 E2. apply wp_gets, wp_ret. rewrite E2, E1. fold m. unfold splice. cbn [take app Nat.add]. rewrite length_fbytes, drop_replicate.
  replace (Z.to_nat n - Z.to_nat m)%nat with (Z.to_nat (n - m)) by lia. apply HQ; auto; [by eapply kread_trans|congruence].
Qed.

(** ** [loadseg] *)

Section Seg.

Context (root : Z) (l : list Z) (T : gmap Z (nat * Z)) (fr : list (Z * Z)).
Context (s0 : kst S) (va off sz : Z).

Hypothesis R0 : running s0.
Hypothesis U0 : umem end_ (fs_mem (kfs s0)) l root T fr.
Hypothesis Hva : 0 <= va /\ va mod PGSIZE = 0.
Hypothesis Hacc : accessible fr va sz.
Hypothesis Hoff : 0 <= off /\ 0 <= sz /\ off + sz <= i_size d.

Abbreviation src := (fbytes v d off sz).

(** The first [i] bytes are loaded. *)
Record seg_at (i : Z) (s : kst S) : Prop := {
  sg_read : kread s0 s;
  sg_locked : klocked s v ip inum;
  sg_umem : umem end_ (fs_mem (kfs s)) l root T fr;
  sg_wrote : wrote fr (fs_mem (kfs s0)) (fs_mem (kfs s)) va src i;
}.

Lemma src_bytes : Forall is_byte src.
Proof. apply fbytes_byte, FT. Qed.

Lemma loadseg_page_spec i s :
  seg_at (Z.min i sz) s -> 0 <= i -> i mod PGSIZE = 0 -> i < sz + PGSIZE -> i_size d <= MAXFILE * BSIZE ->
  wp (loadseg_page root va ip off sz i) (fun r s' => match r with
    | inl i' => i' = i + PGSIZE /\ i < sz /\ seg_at (Z.min i' sz) s'
    | inr r => r = 0 /\ seg_at sz s'
    end) s.
Proof.
  intros [Rs Ks Us Ws] Hi Hmod Hlt Hmax. change (MAXFILE * BSIZE) with 274432 in Hmax. unfold loadseg_page.
  destruct (Z.ltb_spec i sz) as [His|His]; cbn [negb].
  2:{ apply wp_ret. rewrite Z.min_r in * by lia. split; [done|]. by split. }
  rewrite Z.min_l in * by lia. pose proof (kread_running _ _ R0 Rs) as R1.
  assert (Hr : exists pa, user_frame fr (va + i) = Some pa).
  { destruct (Hacc i) as [a Ea]; [lia|]. unfold uaddr in Ea. destruct (user_frame fr (va + i)); [eauto|done]. }
  destruct Hr as (pa & Hpa). destruct (user_frame_ok end_ end_pos _ _ _ _ _ Us (va + i) pa Hpa) as [_ Hnz].
  pose proof (user_frame_max end_ _ _ _ _ _ Us (va + i) pa ltac:(lia) Hpa) as Hmx.
  rewrite u64_small by (unfold TRAPFRAME, TRAMPOLINE, PGSIZE in Hmx; change MAXVA with (2 ^ 38) in Hmx; zpow; lia).
  apply wp_bind. unfold wp at 1. rewrite (in_kmem_read _ (default 0 (user_frame fr (va + i))) s) by (apply (walkaddr_frame end_ end_pos _ _ _ _ _ Us); lia).
  rewrite Hpa. cbn [default from_option id]. rewrite (proj2 (Z.eqb_neq pa 0)) by done.
  set (n := if sz - i <? PGSIZE then sz - i else PGSIZE).
  assert (Hn : 0 < n <= PGSIZE /\ n <= sz - i /\ (n < PGSIZE -> i + n = sz)) by (unfold n; destruct (Z.ltb_spec (sz - i) PGSIZE); unfold PGSIZE in *; lia).
  apply (set_kvar_wp s (fun s => read_bytes (ram (fs_mem s)) pa (Z.to_nat n))); auto. intros s1 Rd1 K1 M1 E1.
  pose proof (kread_running _ _ R1 Rd1) as R2. rewrite u32_small by (zpow; lia).
  apply wp_bind, readi_wp; auto; try (zpow; lia); [by rewrite E1, length_read_bytes, Z2Nat.id by lia|]. intros s2 Rd2 K2 M2 E2.
  assert (Em : read_len d (off + i) n = n) by (unfold read_len; lia). rewrite Em in *.
  apply wp_gets. rewrite E2, E1. unfold splice. cbn [firstn app Nat.add]. rewrite length_fbytes, drop_ge, app_nil_r by (rewrite length_read_bytes; lia).
  assert (Hsr : take (Z.to_nat n) (drop (Z.to_nat i) src) = fbytes v d (off + i) n).
  { replace sz with (i + (n + (sz - i - n))) by lia. rewrite fbytes_app, fbytes_app by lia. rewrite drop_app_length' by (by rewrite length_fbytes).
    by rewrite take_app_length' by (by rewrite length_fbytes). }
  assert (Hpm : (va + i) mod PGSIZE = 0) by (rewrite Z.add_mod, (proj2 Hva), Hmod by done; done).
  destruct (wrote_chunk end_ end_pos (fs_mem (kfs s0)) l root T fr (fs_mem (kfs s)) va src i (va + i) pa n Us Ws src_bytes) as [U' W']; auto; try lia.
  { rewrite length_fbytes. lia. }
  { intros j Hj. apply Hacc. lia. }
  assert (Em' : fs_mem (kfs s2) = fs_mem (kfs s)) by congruence.
  rewrite Hsr, PGROUNDDOWN_id, Z.sub_diag, Z.add_0_r in U', W' by done.
  set (k' := (fs_mem (kfs s)) <| ram := write_bytes (ram (fs_mem (kfs s))) pa (fbytes v d (off + i) n) |>) in *.
  apply wp_bind, wp_Ok. exists tt, (set_mem k' s2). split; [unfold set_mem, k'; rewrite <- Em'; apply in_kmem_Ok; reflexivity|].
  rewrite Z.eqb_refl. apply wp_ret. rewrite u32_small by (unfold PGSIZE; zpow; lia). split_and!; auto.
  assert (Z.min (i + PGSIZE) sz = i + n) as -> by (destruct (decide (n < PGSIZE)); unfold PGSIZE in *; lia).
  split; [|by apply klocked_mem|exact U'|exact W'].
  do 3 (eapply kread_trans; [eassumption|]). apply kread_mem.
Qed.

Lemma loadseg_spec : klocked s0 v ip inum -> i_size d <= MAXFILE * BSIZE ->
  wp (loadseg root va ip off sz) (fun r s' => r = 0 /\ seg_at sz s') s0.
Proof.
  intros K Hmax. change (MAXFILE * BSIZE) with 274432 in Hmax. unfold loadseg. rewrite (proj2 Hva). cbn [Z.eqb negb].
  apply (wp_while _ (fun i s => seg_at (Z.min i sz) s /\ 0 <= i < sz + PGSIZE /\ i mod PGSIZE = 0) _ (fun i => sz + PGSIZE - i)).
  - intros i s (H1 & H2 & H3). eapply wp_mono; [apply (loadseg_page_spec i s); auto; lia|].
    intros [i'|r] s'; [|done]. intros (-> & Hlt & H'). split; [|unfold PGSIZE in *; lia]. split_and!; auto; try (unfold PGSIZE in *; lia).
    rewrite Z.add_mod, H3 by done. done.
  - split; [|split; [unfold PGSIZE; lia|done]]. rewrite Z.min_l by lia. split; auto using kread_refl. split; [lia|done].
  - intros i s H. lia.
  - unfold PGSIZE. zpow. lia.
Qed.

End Seg.

(** ** The image *)

(** The bytes of a segment on top of [g]. *)
Definition seg_bytes (g : Z -> Z) (ph : proghdr) (va : Z) : Z :=
  if decide (ph_vaddr ph <= va < ph_vaddr ph + ph_filesz ph) then fbyte v d (ph_off ph + (va - ph_vaddr ph)) else g va.

(** The memory and its size after one more header. *)
Definition load_one (x : (Z -> Z) * Z) (ph : proghdr) : (Z -> Z) * Z :=
  if ph_type ph =? ELF_PROG_LOAD then (seg_bytes x.1 ph, Z.max x.2 (ph_vaddr ph + ph_memsz ph)) else x.

Definition image_of (phs : list proghdr) : (Z -> Z) * Z := foldl load_one (fun _ => 0, 0) phs.

(** A header that can be loaded below [lim]. *)
Definition ph_ok (lim : Z) (ph : proghdr) : Prop :=
  ph_type ph = ELF_PROG_LOAD -> ph_filesz ph <= ph_memsz ph /\ 0 < ph_memsz ph /\ ph_vaddr ph mod PGSIZE = 0 /\
    ph_vaddr ph + ph_memsz ph <= lim /\ ph_off ph + ph_filesz ph <= i_size d.

(** The fields are not negative. *)
Definition ph_pos (ph : proghdr) : Prop := 0 <= ph_off ph /\ 0 <= ph_vaddr ph /\ 0 <= ph_filesz ph /\ 0 <= ph_memsz ph.

(** The [n] headers from [off] on. *)
Definition phdrs (n : nat) (off : Z) : list proghdr := (fun j => read_ph (fbytes v d (off + sizeof_ph * j) sizeof_ph)) <$> zseq 0 n.

Section Image.

Context (k0 : kmem) (l0 : list Z) (T0 : gmap Z (nat * Z)) (root : Z).

(** The address space holds the first [sz] bytes of [g]. *)
Record img_at (g : Z -> Z) (sz : Z) (k : kmem) (l : list Z) (T : gmap Z (nat * Z)) (fr : list (Z * Z)) : Prop := {
  im_umem : umem end_ k l root T fr;
  im_len : length fr = pages sz;
  im_user : fr = frames fr.*1;
  im_bytes : forall va, 0 <= va < base fr -> ram k (default 0 (uaddr fr va)) = g va;
  im_zero : forall va, sz <= va -> g va = 0;
  im_pages : same_pages T0 [] l0 T fr l;
  im_kept : kept T0 [] l0 k0 k;
  im_high : same_high k0 k root;
  im_few : (length l0 <= 3 * length fr + length l)%nat;
}.

Lemma user_frames new va : 0 <= va < base (frames new) -> exists pa, user_frame (frames new) va = Some pa /\ pa ∈ new /\ uaddr (frames new) va = Some (pa + va mod PGSIZE).
Proof.
  intros Hva. unfold base in Hva. rewrite length_frames in Hva.
  destruct (lookup_lt_is_Some_2 new (Z.to_nat (va / PGSIZE))) as [pa Hpa]; [unfold PGSIZE in *; zlia|].
  exists pa. assert (E : user_frame (frames new) va = Some pa) by (unfold user_frame, frames; by rewrite list_lookup_fmap, Hpa).
  unfold uaddr. rewrite E. split_and!; [done|by eapply list_elem_of_lookup_2|done].
Qed.

(** More pages, all zero. *)
Lemma img_alloc g sz newsz k l T fr :
  img_at g sz k l T fr -> 0 <= sz -> newsz <= TRAPFRAME -> 0 < newsz -> (3 * pages newsz <= length l0)%nat ->
  wp (uvmalloc end_ root sz newsz) (fun r k' => r = Z.max sz newsz /\ exists l' T' fr', img_at g (Z.max sz newsz) k' l' T' fr') k.
Proof.
  intros [U Hl Hu Hb Hz Hp Hk Hh Hf] Hsz Hmax Hnew Hfew. destruct (decide (newsz < sz)) as [Hlt|Hge].
  { unfold uvmalloc. rewrite (proj2 (Z.ltb_lt _ _)) by lia. apply wp_ret. rewrite Z.max_l by lia. split; [done|]. exists l, T, fr. by split. }
  rewrite Z.max_r by lia. eapply wp_mono; [apply (uvmalloc_kept end_ end_pos k l root T fr sz newsz U); auto; lia|].
  intros r k' (l' & T' & Hh' & [(-> & new & U' & Hn & Hs & Hzero & Hp' & Hl' & Hk')|(_ & _ & _ & _ & Hlow)]); [|lia].
  split; [done|]. exists l', T', (fr ++ frames new).
  assert (Eu : fr ++ frames new = frames (fr.*1 ++ new)) by (unfold frames; rewrite fmap_app; f_equal; exact Hu).
  split; auto.
  - rewrite length_app, length_frames. done.
  - by rewrite Eu, frames_pa.
  - intros va Hva. rewrite Eu in Hva |- *. destruct (user_frames _ va Hva) as (pa & E1 & Hin & E2). rewrite E2. cbn [default from_option id].
    destruct (decide (va < base fr)) as [Hold|Hnew'].
    + assert (Hva' : 0 <= va < base (frames fr.*1)) by (rewrite <- Hu; lia). destruct (user_frames _ va Hva') as (pa' & E1' & Hin' & E2').
      rewrite <- (Hb va) by lia. rewrite Hu at 1. rewrite E2'. cbn [default from_option id].
      assert (pa = pa') as ->.
      { unfold user_frame, frames in E1, E1'. rewrite fmap_app, lookup_app_l in E1; [congruence|]. rewrite !length_fmap. unfold base in Hold. unfold PGSIZE in *. zlia. }
      apply (Hs pa'); [done|]. unfold in_page. pose proof (Z.mod_pos_bound va PGSIZE ltac:(done)). lia.
    + rewrite (Hz va).
      * apply (Hzero pa); [|unfold in_page; pose proof (Z.mod_pos_bound va PGSIZE ltac:(done)); lia].
        unfold user_frame, frames in E1. rewrite fmap_app, lookup_app_r in E1 by (rewrite !length_fmap; unfold base in Hnew'; unfold PGSIZE in *; zlia).
        rewrite list_lookup_fmap in E1. destruct (new !! _) eqn:E; [|done]. cbn in E1. injection E1 as <-. by eapply list_elem_of_lookup_2.
      * unfold base in Hnew'. rewrite Hl in Hnew'. unfold pages, PGSIZE in *. zlia.
  - intros va Hva. apply Hz. lia.
  - by eapply same_pages_trans.
  - by eapply kept_trans.
  - by eapply same_high_trans.
  - rewrite length_app, length_frames. lia.
Qed.

(** A segment read from the file. *)
Lemma img_wrote g sz k k' l T fr ph :
  img_at g sz k l T fr -> ph_pos ph -> ph_vaddr ph + ph_filesz ph <= sz -> umem end_ k' l root T fr ->
  wrote fr k k' (ph_vaddr ph) (fbytes v d (ph_off ph) (ph_filesz ph)) (ph_filesz ph) -> img_at (seg_bytes g ph) sz k' l T fr.
Proof.
  intros [U Hl Hu Hb Hz Hp Hk Hh Hf] (P1 & P2 & P3 & P4) Hsz U' [W1 W2].
  assert (Hbase : sz <= base fr) by (unfold base; rewrite Hl; unfold pages, PGSIZE; zlia).
  split; auto.
  - intros va Hva. unfold seg_bytes. case_decide as Hd.
    + replace va with (ph_vaddr ph + (va - ph_vaddr ph)) at 1 by lia. rewrite W1, fbytes_lookup by lia. done.
    + rewrite <- Hb by done. apply W2. intros i Hi E. rewrite Hu in E, Hva.
      destruct (user_frames _ va Hva) as (pa & _ & _ & E2). rewrite E2 in E. cbn [default from_option id] in E. rewrite <- Hu in E, E2.
      assert (ph_vaddr ph + i = va) by (apply (uaddr_inj end_ k l root T fr U _ _ (pa + va mod PGSIZE)); [lia|lia|exact E|exact E2]). lia.
  - intros va Hva. unfold seg_bytes. rewrite decide_False by lia. by apply Hz.
  - intros a Ha. rewrite W2; [by apply Hk|]. intros i Hi E. destruct (uaddr_frame fr _ a E) as (pa & Hin & Hpg).
    apply (Ha pa); [|done]. apply Hp. by right; left.
  - apply (same_high_trans k0 k); [done|]. apply (high_user end_ k l root T fr); [done|]. intros a Ha. apply W2. intros i Hi. apply Ha.
Qed.

(** One header. *)
Lemma load_ph_spec g sz s l T fr ph lim :
  running s -> klocked s v ip inum -> img_at g sz (fs_mem (kfs s)) l T fr -> 0 <= sz -> ph_pos ph -> ph_ok lim ph ->
  lim <= TRAPFRAME -> (3 * pages lim <= length l0)%nat -> i_size d <= MAXFILE * BSIZE ->
  wp (load_ph end_ root ip ph sz) (fun r s' => r = (true, (load_one (g, sz) ph).2) /\ kread s s' /\ klocked s' v ip inum /\
    exists l' T' fr', img_at (load_one (g, sz) ph).1 (load_one (g, sz) ph).2 (fs_mem (kfs s')) l' T' fr') s.
Proof.
  intros R K I Hsz (P1 & P2 & P3 & P4) Hok Hlim Hfew Hmax. unfold load_ph, load_one.
  destruct (Z.eqb_spec (ph_type ph) ELF_PROG_LOAD) as [Ht|Ht]; cbn [negb].
  2:{ apply wp_ret. split_and!; auto using kread_refl. by exists l, T, fr. }
  destruct (Hok Ht) as (H1 & H2 & H3 & H4 & H5). change (MAXFILE * BSIZE) with 274432 in Hmax.
  assert (HM : TRAPFRAME < 2 ^ 38) by done.
  assert (Hle : (pages (ph_vaddr ph + ph_memsz ph) <= pages lim)%nat) by (unfold pages, PGSIZE; zlia).
  rewrite (proj2 (Z.ltb_ge _ _)) by lia. rewrite u64_small by (zpow; lia). rewrite (proj2 (Z.ltb_ge _ _)) by lia.
  pose proof (img_alloc g sz (ph_vaddr ph + ph_memsz ph) (fs_mem (kfs s)) l T fr I Hsz) as Hw.
  apply wp_Ok in Hw as (r & k1 & E & -> & l1 & T1 & fr1 & I1); [|lia|lia|lia].
  apply wp_bind. unfold wp at 1. rewrite (in_kmem_Ok _ _ _ _ E). set (sz1 := Z.max sz _) in *.
  change (s <| kfs := (kfs s) <| fs_mem := k1 |> |>) with (set_mem k1 s).
  rewrite (proj2 (Z.eqb_neq sz1 0)) by (unfold sz1; lia). rewrite H3. cbn [Z.eqb negb].
  rewrite !u32_small by (zpow; lia).
  assert (Hacc : accessible fr1 (ph_vaddr ph) (ph_filesz ph)).
  { intros i Hi. destruct (user_frames fr1.*1 (ph_vaddr ph + i)) as (pa & _ & _ & E2).
    - rewrite <- (im_user _ _ _ _ _ _ I1). unfold base. rewrite (im_len _ _ _ _ _ _ I1). unfold sz1, pages, PGSIZE. zlia.
    - rewrite (im_user _ _ _ _ _ _ I1), E2. eauto. }
  assert (R1 : running (set_mem k1 s)) by (apply (kread_running s); [done|apply kread_mem]).
  eapply wp_seq; [apply (loadseg_spec root l1 T1 fr1 (set_mem k1 s) (ph_vaddr ph) (ph_off ph) (ph_filesz ph)); auto; [apply I1|by apply klocked_mem]|].
  intros r s' [-> [Rs Ks Us Ws]]. apply wp_ret. cbn [Datatypes.fst Datatypes.snd]. split_and!; auto.
  - eapply kread_trans; [apply kread_mem|exact Rs].
  - exists l1, T1, fr1. apply (img_wrote g sz1 k1); auto; [by split|unfold sz1; lia].
Qed.

End Image.

Lemma read_ph_pos bs : Forall is_byte bs -> ph_pos (read_ph bs).
Proof. intros H. unfold ph_pos, read_ph, get_le. cbn. split_and!; apply le_val_range, Forall_slice, H. Qed.

Lemma phdrs_cons n off : phdrs (Datatypes.S n) off = read_ph (fbytes v d off sizeof_ph) :: phdrs n (off + sizeof_ph).
Proof.
  unfold phdrs. cbn [zseq fmap list_fmap]. f_equal; [by rewrite Z.mul_0_r, Z.add_0_r|]. change (0 + 1) with 1.
  apply list_eq. intros j. rewrite !list_lookup_fmap. destruct (decide (j < n)%nat).
  - rewrite !zseq_lookup by done. cbn. do 3 f_equal. unfold sizeof_ph. lia.
  - rewrite !lookup_ge_None_2; [done|rewrite length_zseq; lia..].
Qed.

(** All headers. *)
Lemma load_phs_spec k0 l0 T0 root lim n : lim <= TRAPFRAME -> (3 * pages lim <= length l0)%nat -> i_size d <= MAXFILE * BSIZE ->
  forall off g sz s l T fr, running s -> klocked s v ip inum -> img_at k0 l0 T0 root g sz (fs_mem (kfs s)) l T fr -> 0 <= sz -> 0 <= off ->
  off + sizeof_ph * Z.of_nat n <= i_size d -> Forall (ph_ok lim) (phdrs n off) ->
  let x := foldl load_one (g, sz) (phdrs n off) in
  wp (load_phs end_ n root ip off sz) (fun r s' => r = (true, x.2) /\ kread s s' /\ klocked s' v ip inum /\
    exists l' T' fr', img_at k0 l0 T0 root x.1 x.2 (fs_mem (kfs s')) l' T' fr') s.
Proof.
  intros Hlim Hfew Hmax. pose proof Hmax as Hmax'. change (MAXFILE * BSIZE) with 274432 in Hmax'. change sizeof_ph with 56.
  induction n as [|n IH]; intros off g sz s l T fr R K I Hsz Ho Hoff Hok x.
  { apply wp_ret. split_and!; auto using kread_refl. by exists l, T, fr. }
  unfold x. rewrite phdrs_cons in *. change sizeof_ph with 56 in *. apply Forall_cons in Hok as [Hok1 Hok2]. cbn [load_phs foldl].
  change sizeof_ph with 56. rewrite u32_small by (zpow; lia). set (ph := read_ph (fbytes v d off 56)) in *.
  assert (Hpos : ph_pos ph) by apply read_ph_pos, fbytes_byte, FT.
  apply wp_bind, read_var_wp; auto; [lia|lia|zpow; lia|]. assert (Em : read_len d off 56 = 56) by (unfold read_len; lia). rewrite Em.
  intros s1 R1 K1 M1. change (replicate (Z.to_nat (56 - 56)) 0) with (@nil Z). rewrite app_nil_r. cbn [Z.eqb negb Pos.eqb]. fold ph.
  pose proof (kread_running _ _ R R1). rewrite <- M1 in I.
  eapply wp_seq; [by apply (load_ph_spec k0 l0 T0 root g sz s1 l T fr ph lim)|].
  intros r s2 (-> & R2 & K2 & l2 & T2 & fr2 & I2). pose proof (kread_running _ _ H R2). rewrite s32_small by (zpow; lia).
  destruct (load_one (g, sz) ph) as [g2 sz2] eqn:E2. cbn [Datatypes.fst Datatypes.snd] in *.
  assert (Hsz2 : 0 <= sz2) by (unfold load_one in E2; destruct (ph_type ph =? ELF_PROG_LOAD); injection E2 as _ <-; cbn; lia).
  eapply wp_mono; [apply (IH (off + 56) g2 sz2 s2 l2 T2 fr2); auto; lia|].
  intros r s3 (-> & R3 & K3 & H3). split_and!; auto. do 2 (eapply kread_trans; [eassumption|]). done.
Qed.

End Load.
