(* ===== verification/ExecProps.v ===== *)
(** * [exec] runs a program

    The stack that [exec] of [kernel/exec.c] builds holds the argument strings and the
    vector of their addresses; with the image of [ExecLoad] it replaces the address
    space of the process ([exec_spec]). *)
From stdpp Require Import base list gmap strings.
From Stdlib Require Import ZArith Lia.
From S2P Require Import Prelude KString Riscv Kalloc Vm VmSpec VmUser VmCopy VmFork VmFree Sleeplock Bio Log Blocks.
From S2P Require Import Fs FsBlock FsInode FsMeta FsFile FsCache FsDir FsProps FsPath Kernel KState KernFs Proc ProcMem Syscall Exec ExecLoad.

#[local] Open Scope Z_scope.
#[local] Open Scope xv6_scope.

(** ** The stack *)

(** [n] more bytes below [sp], 16-byte aligned. *)
Definition down16 (sp n : Z) : Z := (sp - n) - (sp - n) mod 16.

Lemma down16_spec sp n : 0 <= n -> (down16 sp n) mod 16 = 0 /\ down16 sp n + n <= sp.
Proof. intros H. unfold down16. zlia. Qed.

Lemma push_sp_down sp n : 0 <= n -> 0 <= down16 sp n -> sp < 2 ^ 64 -> push_sp sp n = down16 sp n.
Proof. intros Hn H0 Hsp. unfold push_sp. rewrite u64_small; [done|]. unfold down16 in H0. zlia. Qed.

(** The addresses of the argument strings. *)
Fixpoint arg_addrs (sp : Z) (argv : list (list Z)) : list Z :=
  match argv with
  | [] => []
  | a :: argv => down16 sp (c_strlen a + 1) :: arg_addrs (down16 sp (c_strlen a + 1)) argv
  end.

(** The stack pointer below the strings. *)
Fixpoint args_sp (sp : Z) (argv : list (list Z)) : Z :=
  match argv with
  | [] => sp
  | a :: argv => args_sp (down16 sp (c_strlen a + 1)) argv
  end.

(** The address of the vector, the stack pointer of the program. *)
Definition argv_sp (sp : Z) (argv : list (list Z)) : Z := down16 (args_sp sp argv) (8 * (Z.of_nat (length argv) + 1)).

(** An argument: an array with a C string in it. *)
Definition good_arg (a : list Z) : Prop := Forall is_byte a /\ c_strlen a < Z.of_nat (length a).

Lemma c_strlen_pos a : 0 <= c_strlen a.
Proof. unfold c_strlen. lia. Qed.

Lemma args_sp_le argv : forall sp, args_sp sp argv <= sp.
Proof.
  induction argv as [|a argv IH]; intros sp; cbn; [lia|]. pose proof (c_strlen_pos a).
  destruct (down16_spec sp (c_strlen a + 1)) as [_ H1]; [lia|]. specialize (IH (down16 sp (c_strlen a + 1))). lia.
Qed.

Lemma argv_sp_le sp argv : argv_sp sp argv <= sp.
Proof.
  pose proof (args_sp_le argv sp). unfold argv_sp. destruct (down16_spec (args_sp sp argv) (8 * (Z.of_nat (length argv) + 1))); lia.
Qed.

Section Stack.

Context (end_ : Z) (end_pos : 0 < end_).
Context {S : Type} {L : BlockLayer S} {O : OpLayer S}.
Context (root : Z) (l : list Z) (T : gmap Z (nat * Z)) (fr : list (Z * Z)) (lo top : Z).

Hypothesis Hlo : 0 <= lo <= top.
Hypothesis Htop : top < 2 ^ 64.
Hypothesis Hacc : accessible fr lo (top - lo).

(** Only the bytes of [from, to) have changed. *)
Definition changed (from to : Z) (k k' : kmem) : Prop :=
  forall a, (forall va, from <= va < to -> uaddr fr va <> Some a) -> ram k' a = ram k a.

Lemma changed_trans f t f' t' k k1 k2 : f' <= f -> t <= t' -> changed f t k k1 -> changed f' t' k1 k2 -> changed f' t' k k2.
Proof. intros Hf Ht H1 H2 a Ha. rewrite H2 by done. apply H1. intros va Hva. apply Ha. lia. Qed.

Lemma changed_mono f t f' t' k k' : f' <= f -> t <= t' -> changed f t k k' -> changed f' t' k k'.
Proof. intros Hf Ht H a Ha. apply H. intros va Hva. apply Ha. lia. Qed.

(** Bytes above stay. *)
Lemma changed_ubytes k k' f t va n : umem end_ k l root T fr -> changed f t k k' -> 0 <= f -> t <= va -> 0 <= va ->
  accessible fr va n -> ubytes k' fr va n = ubytes k fr va n.
Proof.
  intros U H Hf Ht Hva Ha. unfold ubytes. apply list_fmap_ext. intros j i Hi. assert (Hin : 0 <= i < n).
  { apply list_elem_of_lookup_2, elem_of_zseq in Hi. lia. }
  destruct (Ha i Hin) as [x Ex]. rewrite Ex. cbn. apply H. intros va' Hva' E.
  assert (va' = va + i) by (apply (uaddr_inj end_ k l root T fr U _ _ x); auto; lia). lia.
Qed.

Lemma wrote_changed k k' va src n : 0 <= n -> Z.of_nat (length src) = n -> wrote fr k k' va src n -> ubytes k' fr va n = src /\ changed va (va + n) k k'.
Proof.
  intros Hn Hl [W1 W2]. split.
  - apply list_eq. intros j. unfold ubytes. rewrite list_lookup_fmap. destruct (decide (j < Z.to_nat n)%nat).
    + rewrite zseq_lookup by done. cbn. rewrite W1 by lia. replace (Z.to_nat (0 + Z.of_nat j)) with j by lia.
      destruct (lookup_lt_is_Some_2 src j) as [x E]; [lia|]. by rewrite E.
    + rewrite !lookup_ge_None_2; [done|lia|rewrite length_zseq; lia].
  - intros a Ha. apply W2. intros i Hi. apply Ha. lia.
Qed.

(** Copy [bs] to the stack at [sp]. *)
Lemma copyout_stack k sp bs :
  umem end_ k l root T fr -> lo <= sp -> sp + Z.of_nat (length bs) <= top -> Forall is_byte bs ->
  exists k', copyout root sp bs (Z.of_nat (length bs)) k = Ok 0 k' /\ umem end_ k' l root T fr /\
    ubytes k' fr sp (Z.of_nat (length bs)) = bs /\ changed sp (sp + Z.of_nat (length bs)) k k'.
Proof.
  intros U Hsp Hend Hb. assert (Hac : accessible fr sp (Z.of_nat (length bs))).
  { intros i Hi. replace (sp + i) with (lo + (sp + i - lo)) by lia. apply Hacc. lia. }
  pose proof (copyout_spec end_ end_pos k l root T fr U sp bs (Z.of_nat (length bs))) as H.
  apply wp_Ok in H as (r & k' & E & U' & [(-> & _ & W)|(_ & Hn & _)]); [|done|lia|lia|lia|done].
  exists k'. split_and!; auto; by apply wrote_changed in W as []; [|lia|done].
Qed.

(** The strings. *)
Lemma push_args_spec argv : forall sp argc us (s : kst S) k,
  umem end_ k l root T fr -> sp <= top -> lo <= args_sp sp argv -> 0 <= argc -> argc + Z.of_nat (length argv) <= MAXARG -> Forall good_arg argv ->
  exists k', push_args root lo sp argc argv us (set_mem k s) = Ok (Some (args_sp sp argv, us ++ arg_addrs sp argv)) (set_mem k' s) /\
    umem end_ k' l root T fr /\ changed (args_sp sp argv) sp k k' /\
    Forall2 (fun adr a => args_sp sp argv <= adr /\ adr + c_strlen a + 1 <= sp /\
      ubytes k' fr adr (c_strlen a + 1) = take (Z.to_nat (c_strlen a + 1)) a) (arg_addrs sp argv) argv.
Proof.
  induction argv as [|a argv IH]; intros sp argc us s k U Hsp Hls Hac Hmax Hg.
  { exists k. cbn. rewrite app_nil_r. split_and!; auto. by intros ?. }
  apply Forall_cons in Hg as [[Hb Hnul] Hg]. cbn [args_sp arg_addrs length] in *. pose proof (c_strlen_pos a) as Hc0.
  set (n := c_strlen a + 1) in *. set (sp1 := down16 sp n) in *. destruct (down16_spec sp n) as [_ Hd]; [lia|]. fold sp1 in Hd.
  pose proof (args_sp_le argv sp1) as Hle. cbn [push_args]. rewrite Z.geb_leb, (proj2 (Z.leb_gt _ _)) by lia.
  fold n. rewrite push_sp_down by (fold sp1; lia). fold sp1. rewrite (proj2 (Z.ltb_ge _ _)) by lia.
  set (bs := take (Z.to_nat n) a). assert (Hlen : Z.of_nat (length bs) = n) by (unfold bs; rewrite length_take; lia).
  destruct (copyout_stack k sp1 bs U) as (k1 & E1 & U1 & B1 & C1); [lia|lia|by apply Forall_take|]. rewrite Hlen in *.
  rewrite (bind_Ok _ _ _ 0 (set_mem k1 s)) by (apply (in_kmem_Ok _ _ _ (set_mem k s)); exact E1). cbn [Z.ltb Z.compare].
  destruct (IH sp1 (argc + 1) (us ++ [sp1]) s k1) as (k2 & E2 & U2 & C2 & F2); auto; [lia|lia|lia|].
  exists k2. rewrite E2, <- app_assoc. split_and!; auto.
  - apply (changed_trans sp1 (sp1 + n) _ sp k k1); [lia|lia|done|]. by apply (changed_mono (args_sp sp1 argv) sp1); [lia|lia|].
  - constructor.
    + split_and!; [lia|lia|]. rewrite (changed_ubytes k1 k2 (args_sp sp1 argv) sp1); auto; try lia. intros i Hi. replace (sp1 + i) with (lo + (sp1 + i - lo)) by lia. apply Hacc. lia.
    + eapply Forall2_impl; [exact F2|]. intros adr b (H1 & H2 & H3). split_and!; auto. lia.
Qed.

(** The vector at [sp] has the addresses of the strings and a null pointer at its end. *)
Record stack_ok (k : kmem) (sp : Z) (argv : list (list Z)) : Prop := {
  so_align : sp mod 16 = 0;
  so_range : lo <= sp /\ sp + 8 * (Z.of_nat (length argv) + 1) <= top;
  so_args : exists addrs, ubytes k fr sp (8 * (Z.of_nat (length argv) + 1)) = concat (le_bytes 8 <$> addrs ++ [0]) /\
    Forall2 (fun adr a => sp + 8 * (Z.of_nat (length argv) + 1) <= adr /\ adr + c_strlen a + 1 <= top /\
      ubytes k fr adr (c_strlen a + 1) = take (Z.to_nat (c_strlen a + 1)) a) addrs argv;
}.

Lemma length_vector us : length (concat (le_bytes 8 <$> us)) = (8 * length us)%nat.
Proof. induction us as [|u us IH]; [done|]. rewrite fmap_cons. cbn [concat length]. rewrite length_app, length_le_bytes, IH. lia. Qed.

Lemma vector_bytes us : Forall is_byte (concat (le_bytes 8 <$> us)).
Proof. induction us as [|u us IH]; [constructor|]. rewrite fmap_cons. cbn [concat]. apply Forall_app. split; [apply le_bytes_byte|exact IH]. Qed.

Lemma exec_stack_spec argv (s : kst S) k :
  umem end_ k l root T fr -> lo = top - PGSIZE -> lo <= argv_sp top argv -> Z.of_nat (length argv) <= MAXARG -> Forall good_arg argv ->
  exists k', exec_stack root top argv (set_mem k s) = Ok (Some (argv_sp top argv)) (set_mem k' s) /\
    umem end_ k' l root T fr /\ changed (argv_sp top argv) top k k' /\ stack_ok k' (argv_sp top argv) argv.
Proof.
  intros U Elo Hsp Hmax Hg. unfold argv_sp in *. set (n := 8 * (Z.of_nat (length argv) + 1)) in *. set (sp1 := args_sp top argv) in *.
  destruct (down16_spec sp1 n) as [Ha Hd]; [lia|]. set (sp2 := down16 sp1 n) in *. pose proof (args_sp_le argv top) as Hle. fold sp1 in Hle.
  destruct (push_args_spec argv top 0 [] s k U) as (k1 & E1 & U1 & C1 & F1); auto; try (fold sp1; lia); try lia. fold sp1 in E1, C1, F1. cbn [app] in E1.
  unfold exec_stack. rewrite <- Elo, (bind_Ok _ _ _ _ _ E1). set (us := arg_addrs top argv ++ [0]).
  assert (Hus : 8 * Z.of_nat (length us) = n) by (unfold us; rewrite length_app, (Forall2_length _ _ _ F1); cbn; lia). rewrite Hus.
  rewrite push_sp_down by (fold sp2; lia). fold sp2. rewrite (proj2 (Z.ltb_ge _ _)) by lia.
  set (bs := concat (le_bytes 8 <$> us)). assert (Hbs : Z.of_nat (length bs) = n) by (unfold bs; rewrite length_vector; lia).
  destruct (copyout_stack k1 sp2 bs U1) as (k2 & E2 & U2 & B2 & C2); [lia|lia|apply vector_bytes|]. rewrite Hbs in *.
  rewrite (bind_Ok _ _ _ 0 (set_mem k2 s)) by (apply (in_kmem_Ok _ _ _ (set_mem k1 s)); exact E2). cbn [Z.ltb Z.compare].
  exists k2. split_and!; auto.
  - apply (changed_trans sp1 top sp2 top k k1); [lia|lia|done|]. apply (changed_mono sp2 (sp2 + n)); [lia|lia|done].
  - split; [done|fold n; lia|]. exists (arg_addrs top argv). split; [exact B2|]. eapply Forall2_impl; [exact F1|]. intros adr a (H1 & H2 & H3). fold n.
    split_and!; [lia|lia|]. pose proof (c_strlen_pos a). rewrite (changed_ubytes k1 k2 sp2 (sp2 + n)); auto; try lia.
    intros i Hi. replace (adr + i) with (lo + (adr + i - lo)) by lia. apply Hacc. lia.
Qed.

End Stack.

(** ** The guard page and the stack page *)

Section Guard.

Context (end_ : Z) (end_pos : 0 < end_).
Context (k0 : kmem) (l0 : list Z) (T0 : gmap Z (nat * Z)) (root : Z).

(** [sz] bytes: the image, a page out of the user's reach, a page for the stack. *)
Record guarded (g : Z -> Z) (sz : Z) (k : kmem) (l : list Z) (T : gmap Z (nat * Z)) (fr : list (Z * Z)) : Prop := {
  gd_umem : umem end_ k l root T fr;
  gd_len : length fr = pages sz;
  gd_bytes : forall va, 0 <= va < sz - 2 * PGSIZE -> exists a, uaddr fr va = Some a /\ ram k a = g va;
  gd_guard : forall va, sz - 2 * PGSIZE <= va < sz - PGSIZE -> uaddr fr va = None;
  gd_stack : accessible fr (sz - PGSIZE) PGSIZE;
  gd_pages : same_pages T0 [] l0 T fr l;
  gd_kept : kept T0 [] l0 k0 k;
  gd_high : same_high k0 k root;
}.

Abbreviation img_at := (img_at end_ k0 l0 T0 root).

Lemma img_round g sz k l T fr : img_at g sz k l T fr -> 0 <= sz <= MAXVA -> img_at g (PGROUNDUP sz) k l T fr.
Proof.
  intros [U Hl Hu Hb Hz Hp Hk Hh Hf] Hsz. rewrite PGROUNDUP_pages by done. split; auto; [by rewrite pages_base|].
  intros va Hva. apply Hz. unfold pages, PGSIZE in *. zlia.
Qed.

Lemma make_guard g n k l T fr :
  img_at g (Z.of_nat n * PGSIZE) k l T fr -> Z.of_nat n * PGSIZE + 2 * PGSIZE <= TRAPFRAME -> (3 * (n + 2) <= length l0)%nat ->
  let sz := Z.of_nat n * PGSIZE + 2 * PGSIZE in
  exists k1 k2 l2 T2 fr2, uvmalloc end_ root (Z.of_nat n * PGSIZE) sz k = Ok sz k1 /\ uvmclear root (sz - 2 * PGSIZE) k1 = Ok tt k2 /\
    guarded g sz k2 l2 T2 fr2.
Proof.
  intros I Hmax Hfew sz. assert (Hsz : sz = Z.of_nat (n + 2) * PGSIZE) by (unfold sz, PGSIZE; lia).
  assert (Hpg : pages sz = (n + 2)%nat) by (rewrite Hsz; apply pages_base).
  pose proof (img_alloc end_ end_pos k0 l0 T0 root g (Z.of_nat n * PGSIZE) sz k l T fr I) as H.
  apply wp_Ok in H as (r & k1 & E1 & -> & l1 & T1 & fr1 & I1); [|unfold PGSIZE; lia|done|unfold sz, PGSIZE; lia|rewrite Hpg; lia].
  rewrite Z.max_r in * by (unfold sz, PGSIZE; lia). exists k1. pose proof I1 as [U Hl Hu Hb Hz Hp Hk Hh Hf]. rewrite Hpg in Hl.
  destruct (lookup_lt_is_Some_2 fr1.*1 n) as [pa Hpa]; [rewrite length_fmap; lia|].
  assert (Hn : fr1 !! n = Some (pa, WXRU)) by (rewrite Hu; unfold frames; by rewrite list_lookup_fmap, Hpa).
  pose proof (uvmclear_rep end_ end_pos k1 l1 root T1 fr1 n pa WXRU U Hn) as H. apply wp_Ok in H as ([] & k2 & E2 & U2 & D2 & G2 & W2); [|done].
  set (fr2 := <[n := _]> fr1) in *. replace (sz - 2 * PGSIZE) with (Z.of_nat n * PGSIZE) by (unfold sz; lia).
  exists k2, l1, T1, fr2. split; [done|]. split; [done|].
  assert (Ef : fr2.*1 = fr1.*1) by (unfold fr2; rewrite list_fmap_insert; apply list_insert_id; cbn; exact Hpa).
  assert (Hlen : length fr2 = (n + 2)%nat) by (unfold fr2; by rewrite length_insert).
  assert (Hsame : forall va, va / PGSIZE <> Z.of_nat n -> 0 <= va -> uaddr fr2 va = uaddr fr1 va).
  { intros va Hne Hva. unfold uaddr, user_frame, fr2. rewrite list_lookup_insert_ne; [done|]. unfold PGSIZE in *. zlia. }
  assert (Hother : forall va, 0 <= va < sz -> va / PGSIZE <> Z.of_nat n -> exists a, uaddr fr2 va = Some a /\ ram k2 a = g va).
  { intros va Hva Hne. rewrite Hsame by (done || lia). assert (Hb' : 0 <= va < base fr1) by (unfold base; rewrite Hl; unfold sz in Hva; unfold PGSIZE in *; lia).
    pose proof (Hb va Hb') as Eb. rewrite Hu in Hb'. destruct (user_frames fr1.*1 va Hb') as (p & _ & Hin & E). rewrite <- Hu in E. rewrite E in Eb |- *.
    eexists. split; [done|]. cbn in Eb. rewrite (D2 p); [exact Eb|done|]. unfold in_page. pose proof (Z.mod_pos_bound va PGSIZE ltac:(done)). lia. }
  split; auto; rewrite ?Hpg; auto.
  - intros va Hva. apply Hother; unfold sz in *; unfold PGSIZE in *; zlia.
  - intros va Hva. assert (E : va / PGSIZE = Z.of_nat n) by (unfold sz, PGSIZE in *; zlia). unfold uaddr, user_frame. rewrite E, Nat2Z.id. unfold fr2.
    by rewrite list_lookup_insert_eq by lia.
  - intros i Hi. destruct (Hother (sz - PGSIZE + i)) as (a & Ea & _); [unfold sz, PGSIZE in *; lia|unfold sz, PGSIZE in *; zlia|]. rewrite Ea. eauto.
  - intros p. rewrite <- (Hp p). unfold owns. by rewrite Ef.
  - by eapply kept_trans.
  - by eapply same_high_trans.
Qed.

(** The stack is written: the image and the guard page stay. *)
Lemma guarded_changed g sz k k' l T fr sp :
  guarded g sz k l T fr -> umem end_ k' l root T fr -> changed fr sp sz k k' -> sz - PGSIZE <= sp -> 2 * PGSIZE <= sz ->
  guarded g sz k' l T fr.
Proof.
  intros [U Hl Hb Hg Hs Hp Hk Hh] U' C Hsp Hsz.
  split; auto.
  - intros va Hva. destruct (Hb va Hva) as (a & Ea & Eg). exists a. split; [done|]. rewrite <- Eg. apply C. intros va' Hva' E.
    assert (va' = va) by (apply (uaddr_inj end_ k l root T fr U _ _ a); auto; unfold PGSIZE in *; lia). unfold PGSIZE in *. lia.
  - intros a Ha. rewrite C; [by apply Hk|]. intros va Hva E. destruct (uaddr_frame fr va a E) as (pa & Hin & Hpg). apply (Ha pa); [|done]. apply Hp. by right; left.
  - apply (same_high_trans k0 k); [done|]. apply (high_user end_ k l root T fr); [done|]. intros a Ha. apply C. intros va Hva. apply Ha.
Qed.

End Guard.

(** ** Changing address spaces *)

Section Swap.

Context (end_ trampoline : Z) (end_pos : 0 < end_).
Hypothesis tramp_page : trampoline mod PGSIZE = 0 /\ 0 <= trampoline /\ trampoline + PGSIZE < 2 ^ 56.

(** What a program finds in its memory. *)
Record new_image (k : kmem) (l : list Z) (root : Z) (T : gmap Z (nat * Z)) (fr : list (Z * Z)) (g : Z -> Z) (sz sp : Z) (argv : list (list Z)) : Prop := {
  ni_umem : umem end_ k l root T fr;
  ni_len : length fr = pages sz;
  ni_bytes : forall va, 0 <= va < sz - 2 * PGSIZE -> exists a, uaddr fr va = Some a /\ ram k a = g va;
  ni_guard : forall va, sz - 2 * PGSIZE <= va < sz - PGSIZE -> uaddr fr va = None;
  ni_stack : stack_ok fr (sz - PGSIZE) sz k sp argv;
}.

Lemma same_ubytes k k' fr va n : same_data k k' fr -> accessible fr va n -> ubytes k' fr va n = ubytes k fr va n.
Proof.
  intros H Ha. unfold ubytes. apply list_fmap_ext. intros j i Hi. apply list_elem_of_lookup_2, elem_of_zseq in Hi.
  destruct (Ha i) as [a Ea]; [lia|]. rewrite Ea. cbn. destruct (uaddr_frame fr _ a Ea) as (pa & Hin & Hpg). by apply (H pa).
Qed.

Lemma new_image_same k k' l l' root T fr g sz sp argv :
  new_image k l root T fr g sz sp argv -> umem end_ k' l' root T fr -> same_data k k' fr -> accessible fr (sz - PGSIZE) PGSIZE ->
  new_image k' l' root T fr g sz sp argv.
Proof.
  intros [U Hl Hb Hg [A1 A2 (adrs & A3 & A4)]] U' D Hac.
  assert (Hsub : forall va n, sz - PGSIZE <= va -> va + n <= sz -> accessible fr va n).
  { intros va n H1 H2 i Hi. replace (va + i) with (sz - PGSIZE + (va + i - (sz - PGSIZE))) by lia. apply Hac. lia. }
  split; auto.
  - intros va Hva. destruct (Hb va Hva) as (a & Ea & Eg). exists a. split; [done|]. destruct (uaddr_frame fr va a Ea) as (pa & Hin & Hpg). by rewrite (D pa).
  - split; auto. exists adrs. split.
    + rewrite (same_ubytes k); auto. apply Hsub; lia.
    + eapply Forall2_impl; [exact A4|]. intros adr a (H1 & H2 & H3). split_and!; auto. rewrite (same_ubytes k); auto. apply Hsub; lia.
Qed.

(** The registers that [exec] sets in the trapframe at [tf]. *)
Definition exec_tf (m : mem) (tf entry sp : Z) : mem :=
  store64 (store64 (store64 m (tf + TF_a1) sp) (tf + TF_epc) entry) (tf + TF_sp) sp.

Lemma exec_tf_outside m tf entry sp a : ~ in_page tf a -> exec_tf m tf entry sp a = m a.
Proof.
  intros Ha. unfold in_page, PGSIZE in Ha. unfold exec_tf, TF_a1, TF_epc, TF_sp. by rewrite !store64_outside by lia.
Qed.

Lemma exec_tf_ext m m' tf entry sp a : m a = m' a -> exec_tf m tf entry sp a = exec_tf m' tf entry sp a.
Proof. intros H. unfold exec_tf, store64. rewrite !write_bytes_get, H. done. Qed.

Lemma exec_tf_other m tf entry sp o : ~ TF_epc <= o < TF_epc + 8 -> ~ TF_sp <= o < TF_sp + 8 -> ~ TF_a1 <= o < TF_a1 + 8 ->
  exec_tf m tf entry sp (tf + o) = m (tf + o).
Proof. intros H1 H2 H3. unfold exec_tf. by rewrite !store64_outside by lia. Qed.

Lemma exec_tf_regs m tf entry sp : 0 <= entry < 2 ^ 64 -> 0 <= sp < 2 ^ 64 ->
  let m' := exec_tf m tf entry sp in
  load64 m' (tf + TF_epc) = entry /\ load64 m' (tf + TF_sp) = sp /\ load64 m' (tf + TF_a1) = sp.
Proof.
  intros He Hs m'. unfold m', exec_tf, TF_a1, TF_epc, TF_sp. split_and!.
  - rewrite load_store64_other by lia. rewrite load_store64. by apply u64_small.
  - rewrite load_store64. by apply u64_small.
  - rewrite !load_store64_other by lia. rewrite load_store64. by apply u64_small.
Qed.

(** The old space [T1], [fr1] is given back, the new one [T], [fr], made from the pages of [lf], stays. *)
Lemma swap_spaces k0 lf pt T1 fr1 oldsz k l root T fr g sz sp argv tf entry :
  umem end_ k0 lf pt T1 fr1 -> high_mapped k0 pt trampoline tf -> 0 < oldsz <= TRAPFRAME -> length fr1 = pages oldsz ->
  page_ok end_ tf -> (tf ∉ lf) -> ~ held T1 fr1 tf ->
  new_image k l root T fr g sz sp argv -> accessible fr (sz - PGSIZE) PGSIZE -> high_mapped k root trampoline tf ->
  (forall q, owns T fr l q <-> q ∈ lf) -> (forall a, (forall q, q ∈ lf -> ~ in_page q a) -> ram k a = ram k0 a) ->
  let k1 := k <| ram := exec_tf (ram k) tf entry sp |> in
  exists k2 l2, proc_freepagetable end_ pt oldsz k1 = Ok tt k2 /\ new_image k2 l2 root T fr g sz sp argv /\ high_mapped k2 root trampoline tf /\
    (forall q, owns T fr l2 q <-> q ∈ lf \/ held T1 fr1 q) /\
    (forall a, in_page tf a -> ram k2 a = exec_tf (ram k0) tf entry sp a).
Proof.
  intros U0 H0 Hsz Hlen Htf Hni Hnh N Hac Hh Ho Hm k1. pose proof N as [U _ _ _ _].
  assert (Hok : forall q, q ∈ lf -> page_ok end_ q) by (pose proof (vr_kmem _ _ _ _ _ (um_rep _ _ _ _ _ _ U0)) as [_ _ _ Hpg _]; by apply Forall_forall).
  assert (Hnew : forall q, held T fr q -> q ∈ lf) by (intros q [Hq|Hq]; apply Ho; [by left|by right; left]).
  assert (Hold : forall q, held T1 fr1 q -> page_ok end_ q /\ (q ∉ lf)) by (intros q Hq; by apply (held_ok end_ _ _ _ _ _ _ U0)).
  (* the registers *)
  destruct (umem_ram end_ k l root T fr tf (ram k1) U Htf) as (U1 & D1 & G1).
  { intros Hin. apply Hni, Ho. by right; right. } { intros Hq. by apply Hni, Hnew. } { cbn. do 3 apply store64_ok. apply U. } { intros a Ha. cbn. by apply exec_tf_outside. }
  change (k <| ram := ram k1 |>) with k1 in *.
  (* the old space *)
  assert (Hsame : forall p a, held T1 fr1 p -> in_page p a -> ram k1 a = ram k0 a).
  { intros p a Hp Ha. destruct (Hold p Hp) as [Hpok Hpn]. cbn. rewrite exec_tf_outside.
    - apply Hm. intros q Hq. apply (held_apart end_ p q a); auto. congruence.
    - apply (held_apart end_ p tf a); auto. congruence. }
  destruct (umem_other end_ k0 lf pt T1 fr1 k1 l U0) as [U2 _]; auto.
  { apply U1. } { intros p Hp. left. apply Ho. by right; right. }
  assert (H2 : high_mapped k1 pt trampoline tf).
  { apply (high_mapped_same k0); [done|]. apply (high_other end_ k0 lf pt T1 fr1); [done|]. intros p a Hp. apply Hsame. by left. }
  pose proof (proc_freepagetable_rep end_ end_pos k1 l pt T1 fr1 oldsz trampoline tf U2 Hsz Hlen H2) as W.
  apply wp_Ok in W as ([] & k2 & E & l2 & Hk2 & P2 & M2); [|apply tramp_page|apply Htf].
  assert (Hin2 : forall q, q ∈ l2 <-> held T1 fr1 q \/ q ∈ l) by (intros q; rewrite P2, !elem_of_app, elem_of_elements, elem_of_dom; unfold held; tauto).
  assert (Hsame2 : forall p a, held T fr p -> in_page p a -> ram k2 a = ram k1 a).
  { intros p a Hp Ha. apply M2. intros q Hq. destruct (Hold q Hq). apply (held_apart end_ p q a); auto. intros ->. by apply Hnew in Hp. }
  destruct (umem_other end_ k1 l root T fr k2 l2 U1) as [U3 D3]; auto.
  { intros p Hp. apply Hin2 in Hp as [Hp|Hp]; [right|by left]. intros Hq. apply Hnew in Hq. by destruct (Hold p Hp). }
  exists k2, l2. split; [exact E|]. split; [|split; [|split]].
  - apply (new_image_same k k2 l l2); auto. by eapply same_data_trans.
  - apply (high_mapped_same k1); [by apply (high_mapped_same k)|]. apply (high_other end_ k1 l root T fr); [done|]. intros p a Hp. apply Hsame2. by left.
  - intros q. specialize (Ho q). specialize (Hin2 q). unfold owns in *. tauto.
  - intros a Ha. rewrite M2; [|intros q Hq; apply (held_apart end_ tf q a); auto; [by apply Hold|congruence]]. apply exec_tf_ext. apply Hm.
    intros q Hq. apply (held_apart end_ tf q a); auto. congruence.
Qed.

Section Commit.

Context {S : Type} {L : BlockLayer S} {O : OpLayer S} (s : kst S).

(** The kernel with other memory and another process table. *)
Definition ks (k : kmem) (pr : Z -> proc) : kst S := set_mem k (s <| procs := pr |>).

Lemma ks_kmem {A} (m : M kmem A) a k k' pr : m k = Ok a k' -> in_kmem m (ks k pr) = Ok a (ks k' pr).
Proof. apply in_kmem_set. Qed.

Lemma ks_proc k pr p : get_proc p (ks k pr) = Ok (pr p) (ks k pr).
Proof. reflexivity. Qed.

Lemma ks_set k pr p f : set_proc p f (ks k pr) = Ok tt (ks k (upd pr p (f (pr p)))).
Proof. reflexivity. Qed.

Lemma ks_me k pr : myproc (ks k pr) = Ok (cur s) (ks k pr).
Proof. reflexivity. Qed.

Lemma ks_store k pr p off v : tf_store p off v (ks k pr) = Ok tt (ks (k <| ram := store64 (ram k) (p_tf (pr p) + off) v |>) pr).
Proof. reflexivity. Qed.

Lemma ks_id : s = ks (fs_mem (kfs s)) (procs s).
Proof. unfold ks, set_mem. by destruct s as [[]]. Qed.

Lemma exec_commit_spec path argv root sz top entry k0 lf T1 fr1 k1 l1 Tn g l T fr x :
  x = procs s (cur s) -> top = Z.of_nat (pages sz) * PGSIZE + 2 * PGSIZE ->
  umem end_ k0 lf (p_pagetable x) T1 fr1 -> high_mapped k0 (p_pagetable x) trampoline (p_tf x) -> 0 < p_sz x <= TRAPFRAME -> length fr1 = pages (p_sz x) ->
  page_ok end_ (p_tf x) -> (p_tf x ∉ lf) -> ~ held T1 fr1 (p_tf x) ->
  img_at end_ k1 l1 Tn root g sz (fs_mem (kfs s)) l T fr -> high_mapped k1 root trampoline (p_tf x) ->
  (forall q, owns Tn [] l1 q <-> q ∈ lf) -> (forall a, (forall q, q ∈ lf -> ~ in_page q a) -> ram k1 a = ram k0 a) ->
  0 <= sz -> top <= TRAPFRAME -> (3 * (pages sz + 2) <= length l1)%nat ->
  Forall good_arg argv -> Z.of_nat (length argv) <= MAXARG -> top - PGSIZE <= argv_sp top argv ->
  exists k2 l2 T2 fr2 pr2, exec_commit end_ path argv root sz entry s = Ok (Z.of_nat (length argv)) (ks k2 pr2) /\
    pr2 (cur s) = x <| p_name := copy_name (p_name x) (last_elem path path) 16 |> <| p_pagetable := root |> <| p_sz := top |> /\
    (forall q, q <> cur s -> pr2 q = procs s q) /\
    new_image k2 l2 root T2 fr2 g top (argv_sp top argv) argv /\ high_mapped k2 root trampoline (p_tf x) /\
    (forall q, owns T2 fr2 l2 q <-> q ∈ lf \/ held T1 fr1 q) /\
    (forall a, in_page (p_tf x) a -> ram k2 a = exec_tf (ram k0) (p_tf x) entry (argv_sp top argv) a).
Proof.
  intros Ex Etop U0 H0 Hsz1 Hlen Htf Hni Hnh I H1 Ho Hm Hsz Htop Hfew Hg Hargc Hsp.
  pose proof TRAPFRAME_MAXVA as HM. assert (HM' : MAXVA = 2 ^ 38) by done.
  assert (Hrange : 0 <= sz <= MAXVA) by (rewrite Etop in Htop; unfold pages, PGSIZE in Htop; zlia).
  pose proof (img_round end_ k1 l1 Tn root g sz _ l T fr I Hrange) as I'. rewrite PGROUNDUP_pages in I' by done.
  destruct (make_guard end_ end_pos k1 l1 Tn root g (pages sz) _ l T fr I' ltac:(by rewrite <- Etop) Hfew) as (k3 & k4 & l4 & T4 & fr4 & E3 & E4 & G4). rewrite <- Etop in E3, E4, G4.
  pose proof G4 as [U4 Gl Gb Gg Gs Gp Gk Gh].
  destruct (exec_stack_spec end_ end_pos root l4 T4 fr4 (top - PGSIZE) top ltac:(rewrite Etop; unfold PGSIZE; lia) ltac:(zpow; lia)
    ltac:(by replace (top - (top - PGSIZE)) with PGSIZE by lia) argv (s <| procs := procs s |>) k4 U4 eq_refl Hsp Hargc Hg) as (k5 & E5 & U5 & C5 & SO).
  assert (Hp2 : 2 * PGSIZE <= top) by (rewrite Etop; unfold PGSIZE; lia).
  pose proof (guarded_changed end_ k1 l1 Tn root g top k4 k5 l4 T4 fr4 _ G4 U5 C5 Hsp Hp2) as [_ _ Gb5 _ _ _ Gk5 Gh5].
  destruct (swap_spaces k0 lf (p_pagetable x) T1 fr1 (p_sz x) k5 l4 root T4 fr4 g top (argv_sp top argv) argv (p_tf x) entry)
    as (k6 & l6 & E6 & N6 & H6 & O6 & R6); auto.
  { by split. } { by apply (high_mapped_same k1). } { intros q. rewrite (Gp q). apply Ho. }
  { intros a Ha. rewrite (Gk5 a); [by apply Hm|]. intros q Hq. apply Ha. by apply Ho. }
  eexists k6, l6, T4, fr4, _. split; [|split; [|split; [|split_and!; eassumption]]].
  {
  rewrite ks_id at 1. unfold exec_commit. rewrite (bind_Ok _ _ _ _ _ (ks_me _ _)), (bind_Ok _ _ _ _ _ (ks_proc _ _ _)). rewrite <- Ex. cbv zeta.
  rewrite PGROUNDUP_pages by done. rewrite <- Etop. rewrite u64_small by (unfold PGSIZE in Hp2; rewrite HM' in HM; zpow; lia).
  rewrite (bind_Ok _ _ _ _ _ (ks_kmem _ _ _ _ _ E3)), (proj2 (Z.eqb_neq top 0)) by (unfold PGSIZE in *; lia).
  rewrite (bind_Ok _ _ _ _ _ (ks_kmem _ _ _ _ _ E4)).
  rewrite (bind_Ok _ _ _ _ _ E5 : bind (exec_stack root top argv) _ (ks k4 (procs s)) = _). fold (ks k5 (procs s)).
  rewrite (bind_Ok _ _ _ _ _ (ks_store _ _ _ _ _)), (bind_Ok _ _ _ _ _ (ks_set _ _ _ _)), (bind_Ok _ _ _ _ _ (ks_proc _ _ _)), (bind_Ok _ _ _ _ _ (ks_set _ _ _ _)).
  rewrite (bind_Ok _ _ _ _ _ (ks_store _ _ _ _ _)), (bind_Ok _ _ _ _ _ (ks_store _ _ _ _ _)). rewrite !upd_same. rewrite <- Ex.
  change (p_pagetable (x <| p_name := ?n |>)) with (p_pagetable x).
  rewrite (bind_Ok _ _ _ _ _ (ks_kmem _ _ _ _ _ E6)). reflexivity. }
  - by rewrite !upd_same.
  - intros q Hq. by rewrite !upd_other.
Qed.

End Commit.

End Swap.

(** ** [exec] *)

Section Exec.

Context (end_ trampoline : Z) (end_pos : 0 < end_).
Hypothesis tramp_page : trampoline mod PGSIZE = 0 /\ 0 <= trampoline /\ trampoline + PGSIZE < 2 ^ 56.
Context {S : Type} {L : BlockLayer S} {O : OpLayer S}.
Context (D : device) (rep : S -> bview -> Prop) {HL : BlockLaws S D rep}.
Context (idle : S -> (Z -> block) -> Prop) {TX : TxLaws S (d_dev D) rep idle}.
Context (sb0 : superblock) (dstart : Z) (LY : layout D sb0 dstart).

(** A process that can call [exec]: between operations, with the file system [dk] on disk. *)
Record may_exec (s : kst S) (dk : Z -> block) : Prop := {
  me_run : running s;
  me_idle : idle (blk (kfs s)) dk;
  me_sb : sb (kfs s) = sb0;
  me_lock : ic_lock (kfs s) = false;
  me_tree : fs_tree D sb0 dstart (v_idle dk);
  me_walk : kwalk D sb0 s (v_idle dk);
}.

(** The memory of the process, with its trapframe; [lf] are the free pages. *)
Record has_memory (s : kst S) (lf : list Z) (T : gmap Z (nat * Z)) (fr : list (Z * Z)) : Prop := {
  hm_umem : umem end_ (fs_mem (kfs s)) lf (p_pagetable (procs s (cur s))) T fr;
  hm_high : high_mapped (fs_mem (kfs s)) (p_pagetable (procs s (cur s))) trampoline (p_tf (procs s (cur s)));
  hm_size : 0 < p_sz (procs s (cur s)) <= TRAPFRAME;
  hm_len : length fr = pages (p_sz (procs s (cur s)));
  hm_tf : page_ok end_ (p_tf (procs s (cur s)));
  hm_tf_free : p_tf (procs s (cur s)) ∉ lf;
  hm_tf_own : ~ held T fr (p_tf (procs s (cur s)));
}.

Section File.

Context (v : bview) (inum : Z).
Abbreviation d := (dnode D sb0 v inum).

(** The headers of the file. *)
Definition elf_of : list Z := fbytes v d 0 sizeof_elf.
Definition phs_of : list proghdr := phdrs D sb0 v inum (Z.to_nat (elf_phnum elf_of)) (elf_phoff elf_of).

(** The memory image that the file describes, and its size. *)
Definition exec_image : Z -> Z := (image_of D sb0 v inum phs_of).1.
Definition exec_size : Z := (image_of D sb0 v inum phs_of).2.
Definition exec_top : Z := Z.of_nat (pages exec_size) * PGSIZE + 2 * PGSIZE.

(** The file is a program that can be loaded. *)
Record program : Prop := {
  pg_elf : sizeof_elf <= i_size d;
  pg_magic : elf_magic elf_of = ELF_MAGIC;
  pg_phs : elf_phoff elf_of + sizeof_ph * elf_phnum elf_of <= i_size d;
  pg_ok : Forall (ph_ok D sb0 v inum exec_size) phs_of;
  pg_fits : exec_top <= TRAPFRAME;
}.

End File.

(** What a successful [exec] leaves. *)
Record exec_result (s s' : kst S) (dk : Z -> block) (root : Z) (lf : list Z) (T1 : gmap Z (nat * Z)) (fr1 : list (Z * Z))
                   (inum : Z) (path : list Z) (argv : list (list Z)) : Prop := {
  xr_image : exists l' T' fr', new_image end_ (fs_mem (kfs s')) l' root T' fr' (exec_image (v_idle dk) inum) (exec_top (v_idle dk) inum)
      (argv_sp (exec_top (v_idle dk) inum) argv) argv /\
    (forall q, owns T' fr' l' q <-> q ∈ lf \/ held T1 fr1 q);
  xr_high : high_mapped (fs_mem (kfs s')) root trampoline (p_tf (procs s (cur s)));
  xr_regs : let m := ram (fs_mem (kfs s')) in let tf := p_tf (procs s (cur s)) in
    load64 m (tf + TF_epc) = elf_entry (elf_of (v_idle dk) inum) /\
    load64 m (tf + TF_sp) = argv_sp (exec_top (v_idle dk) inum) argv /\ load64 m (tf + TF_a1) = argv_sp (exec_top (v_idle dk) inum) argv;
  xr_tf : forall o, 0 <= o < TF_size -> ~ TF_epc <= o < TF_epc + 8 -> ~ TF_sp <= o < TF_sp + 8 -> ~ TF_a1 <= o < TF_a1 + 8 ->
    ram (fs_mem (kfs s')) (p_tf (procs s (cur s)) + o) = ram (fs_mem (kfs s)) (p_tf (procs s (cur s)) + o);
  xr_proc : let x := procs s (cur s) in procs s' (cur s) =
    x <| p_name := copy_name (p_name x) (last_elem path path) 16 |> <| p_pagetable := root |> <| p_sz := exec_top (v_idle dk) inum |>;
  xr_others : forall q, q <> cur s -> procs s' q = procs s q \/ p_state (procs s q) = SLEEPING /\ procs s' q = (procs s q) <| p_state := RUNNABLE |>;
  xr_idle : idle (blk (kfs s')) dk;
  xr_cache : cache_ok D sb0 (v_idle dk) (inodes (kfs s')) 0 /\ refs_of (inodes (kfs s)) (inodes (kfs s')) [];
  xr_fs : sb (kfs s') = sb0 /\ ic_lock (kfs s') = false;
  xr_rest : s' = s <| kfs := kfs s' |> <| procs := procs s' |>;
}.

Section Run.

Context (s : kst S) (dk : Z -> block) (path p : list Z) (argv : list (list Z)).

Hypothesis ME : may_exec s dk.
Hypothesis Hp : is_path path p.
Hypothesis Hb : Forall is_byte p.
Hypothesis Hl : Z.of_nat (length path) < 2 ^ 64.

Abbreviation v := (v_idle dk).

(** The file is open and locked. *)
Record opened (s' : kst S) (ip inum : Z) : Prop := {
  op_step : kstep s s';
  op_locked : klocked D rep sb0 s' v ip inum;
  op_mem : fs_mem (kfs s') = fs_mem (kfs s);
  op_refs : refs_of (inodes (kfs s)) (inodes (kfs s')) [ip];
  op_keep : 0 < i_ref (inodes (kfs s) ip) \/ i_nlink (dnode D sb0 v inum) <> 0;
}.

(** [begin_op], [namei] and [ilock]; without a file [exec] ends. *)
Lemma exec_open (Q : Z -> kst S -> Prop) :
  match walk_path D sb0 false v (kstart s p) (FsProps.elements p) with
  | Some inum => forall ip s', opened s' ip inum -> wp (
      e ← read_var ip 0 sizeof_elf ;
      let '(r, elf) := e : Z * list Z in
      if negb (r =? sizeof_elf) then exec_bad end_ 0 0 ip else
      if negb (elf_magic elf =? ELF_MAGIC) then exec_bad end_ 0 0 ip else
      pagetable ← proc_pagetable trampoline (cur s) ;
      if pagetable =? 0 then exec_bad end_ 0 0 ip else
      x ← load_phs end_ (Z.to_nat (elf_phnum elf)) pagetable ip (s32 (elf_phoff elf)) 0 ;
      let '(ok, sz) := x : bool * Z in
      if negb ok then exec_bad end_ pagetable sz ip else
      (in_fs (iunlockput ip) ;;
       end_op ROOTDEV ;;
       exec_commit end_ path argv pagetable sz (elf_entry elf)))%xv6 Q s'
  | None => forall s', kstep s s' -> idle (blk (kfs s')) dk -> fs_mem (kfs s') = fs_mem (kfs s) -> refs_of (inodes (kfs s)) (inodes (kfs s')) [] -> Q (-1) s'
  end -> wp (exec end_ trampoline path argv) Q s.
Proof.
  intros H. pose proof ME as [R Hi Es Hk FT W]. pose proof (kw_dev _ _ _ _ W) as Hdev. unfold exec. apply wp_gets. rewrite <- Hdev.
  apply wp_bind, (begin_op_wp D rep idle sb0 s dk); auto. intros s1 K1 P1 I1 M1. pose proof (kstep_running _ _ R K1) as R1.
  assert (W1 : kwalk D sb0 s1 v). { destruct W as [W1 W2 W3 W4]. pose proof (kstep_me _ _ R K1) as Em. split; cbv zeta; rewrite ?I1, ?Em; auto. }
  assert (Est : kstart s1 p = kstart s p) by (unfold kstart; by rewrite I1, (kstep_me _ _ R K1)).
  apply wp_bind, (namei_wp D rep idle sb0 dstart v FT s1 path p); auto. rewrite Est, I1. intros ip s2 K2 P2 C2 M2 H2. pose proof (kstep_running _ _ R1 K2) as R2.
  destruct (walk_path _ _ _ _ _ _) as [inum|].
  - destruct H2 as (Hc & Hr & Hkeep). rewrite (proj2 (Z.eqb_neq ip 0)) by (apply entry_nz, Hc).
    apply wp_bind, (ilock_wp D rep idle sb0 dstart v FT s2 ip inum); auto. intros s3 K3 P3 M3 E3. rewrite Hdev. apply H. split; auto; [|congruence|].
    + do 2 (eapply kstep_trans; [eassumption|]). done.
    + by apply (refs_key _ (inodes (kfs s2))).
  - destruct H2 as [-> Hr]. cbn [Z.eqb]. apply wp_bind, (end_op_wp D rep idle sb0 s2 dk); auto. intros s3 K3 Hi3 _ _ I3 M3. apply wp_ret. apply H; auto.
    + do 2 (eapply kstep_trans; [eassumption|]). done.
    + congruence.
    + by rewrite I3.
Qed.

(** The fields of the header are in range. *)
Lemma elf_fields inum : fs_tree D sb0 dstart v ->
  0 <= elf_phoff (elf_of v inum) /\ 0 <= elf_phnum (elf_of v inum) /\ 0 <= elf_entry (elf_of v inum) < 2 ^ 64.
Proof.
  intros FT. assert (Hbe : Forall is_byte (elf_of v inum)) by apply fbytes_byte, FT.
  assert (Hle : forall w o, (o + w <= 64)%nat -> 0 <= get_le w o (elf_of v inum) < 2 ^ (8 * Z.of_nat w)).
  { intros w o Ho. unfold get_le. pose proof (le_val_range (slice o w (elf_of v inum)) (Forall_slice _ _ _ _ Hbe)) as H.
    unfold slice in *. rewrite length_take, length_drop in H. unfold elf_of in H at 3. rewrite length_fbytes in H.
    replace (w `min` (Z.to_nat sizeof_elf - o))%nat with w in H by (unfold sizeof_elf; lia). exact H. }
  split; [apply (Hle 8%nat 32%nat); lia|]. split; [apply (Hle 2%nat 56%nat); lia|]. apply (Hle 8%nat 24%nat). lia.
Qed.

Lemma image_size inum phs : 0 <= (image_of D sb0 v inum phs).2.
Proof.
  unfold image_of. assert (H : forall x : (Z -> Z) * Z, 0 <= x.2 -> 0 <= (foldl (load_one D sb0 v inum) x phs).2); [|by apply H].
  induction phs as [|ph phs IH]; intros x Hx; [done|]. apply IH. unfold load_one. case_match; cbn; lia.
Qed.

(** The new address space before the first segment. *)
Lemma img_start k l T root : umem end_ k l root T [] -> img_at end_ k l T root (fun _ => 0) 0 k l T [].
Proof. intros U. split; try done. intros va Hva. unfold base in Hva. cbn in Hva. lia. Qed.

(** The last part: the inode is put back, the operation ends and the process changes over to the new image. *)
Lemma exec_finish inum root l T1 fr1 ip s1 k1 l1 Tn l2 T fr :
  has_memory s (root :: l) T1 fr1 -> program v inum ->
  Forall good_arg argv -> Z.of_nat (length argv) <= MAXARG -> exec_top v inum - PGSIZE <= argv_sp (exec_top v inum) argv ->
  kstep s s1 -> klocked D rep sb0 s1 v ip inum -> refs_of (inodes (kfs s)) (inodes (kfs s1)) [ip] ->
  0 < i_ref (inodes (kfs s) ip) \/ i_nlink (dnode D sb0 v inum) <> 0 ->
  img_at end_ k1 l1 Tn root (exec_image v inum) (exec_size v inum) (fs_mem (kfs s1)) l2 T fr ->
  high_mapped k1 root trampoline (p_tf (procs s (cur s))) -> (forall q, owns Tn [] l1 q <-> q ∈ root :: l) ->
  (forall a, (forall q, q ∈ root :: l -> ~ in_page q a) -> ram k1 a = ram (fs_mem (kfs s)) a) ->
  0 <= exec_size v inum -> (3 * (pages (exec_size v inum) + 2) <= length l1)%nat ->
  wp (in_fs (iunlockput ip) ;; end_op ROOTDEV ;; exec_commit end_ path argv root (exec_size v inum) (elf_entry (elf_of v inum)))%xv6
    (fun r s' => r = Z.of_nat (length argv) /\ exec_result s s' dk root (root :: l) T1 fr1 inum path argv) s1.
Proof.
  intros [U0 H0 Hsz Hlen Htf Hni Hnh] [G1 G2 G3 G4 G5] Hg Hargc Hsp K1 P1 R1 Hkeep I Hh Ho Hm Hs0 Hfew.
  pose proof ME as [R Hi Es Hk FT W]. pose proof (kstep_running _ _ R K1) as Ru1. destruct (elf_fields inum FT) as (_ & _ & Hent).
  apply wp_bind, (iunlockput_wp D rep idle sb0 dstart v FT s1 ip inum (inodes (kfs s)) []); auto; [apply W|]. intros s2 K2 P2 C2 M2 R2.
  pose proof (kstep_running _ _ Ru1 K2) as Ru2. rewrite <- (kw_dev _ _ _ _ W).
  apply wp_bind, (end_op_wp D rep idle sb0 s2 dk); auto. intros s3 K3 Hi3 E3 L3 I3 M3. pose proof (kstep_running _ _ Ru2 K3) as Ru3.
  assert (K : kstep s s3) by (do 2 (eapply kstep_trans; [eassumption|]); done). pose proof (kstep_me _ _ R K) as Me. pose proof (kstep_cur _ _ K) as Cu.
  rewrite <- M2, <- M3 in I.
  destruct (exec_commit_spec end_ trampoline end_pos tramp_page s3 path argv root (exec_size v inum) (exec_top v inum) (elf_entry (elf_of v inum)) (fs_mem (kfs s)) (root :: l) T1 fr1 k1 l1 Tn
    (exec_image v inum) l2 T fr (procs s (cur s)) (eq_sym Me) eq_refl) as (k4 & l4 & T4 & fr4 & pr4 & E4 & Hme & Hoth & N4 & H4 & O4 & R4); auto.
  unfold wp. rewrite E4. split; [done|]. rewrite Cu in Hme, Hoth.
  pose proof TRAPFRAME_MAXVA as HM. assert (HM' : MAXVA = 2 ^ 38) by done.
  assert (Hpg : forall o, 0 <= o < TF_size -> in_page (p_tf (procs s (cur s))) (p_tf (procs s (cur s)) + o)) by (intros o H; unfold TF_size in H; unfold in_page, PGSIZE; lia).
  assert (Hsp' : 0 <= argv_sp (exec_top v inum) argv < 2 ^ 64).
  { pose proof (argv_sp_le (exec_top v inum) argv). unfold exec_top, PGSIZE in *. rewrite HM' in HM. zpow. lia. }
  split; auto.
  - by exists l4, T4, fr4.
  - destruct (exec_tf_regs (ram (fs_mem (kfs s))) (p_tf (procs s (cur s))) _ _ Hent Hsp') as (A1 & A2 & A3). cbv zeta.
    split_and!; [etrans; [|exact A1]|etrans; [|exact A2]|etrans; [|exact A3]]; apply load64_ext; intros i Hoff; apply R4; unfold in_page, TF_epc, TF_sp, TF_a1, PGSIZE in *; lia.
  - intros o Ho1 Ho2 Ho3 Ho4. cbn. rewrite R4 by auto. by apply exec_tf_other.
  - intros q Hq. rewrite Hoth by done. apply (ks_woke _ _ K).
  - cbn. rewrite I3. done.
  - rewrite (ks_eq _ _ K). done.
Qed.

Lemma exec_spec inum root l T1 fr1 :
  has_memory s (root :: l) T1 fr1 -> walk_path D sb0 false v (kstart s p) (FsProps.elements p) = Some inum -> program v inum ->
  (10 + 3 * pages (exec_size v inum) <= length l)%nat ->
  Forall good_arg argv -> Z.of_nat (length argv) <= MAXARG -> exec_top v inum - PGSIZE <= argv_sp (exec_top v inum) argv ->
  wp (exec end_ trampoline path argv) (fun r s' => r = Z.of_nat (length argv) /\ exec_result s s' dk root (root :: l) T1 fr1 inum path argv) s.
Proof.
  intros HM Hw PG Hfew Hg Hargc Hsp. pose proof HM as [U0 _ _ _ Htf _ _]. pose proof PG as [G1 G2 G3 G4 G5]. apply exec_open. rewrite Hw.
  intros ip s1 [K1 P1 M1 R1 Hkeep]. pose proof ME as [R Hi Es Hk FT W]. pose proof (kstep_running _ _ R K1) as Ru1. pose proof (kstep_me _ _ R K1) as Me1.
  assert (Hal : allocated D sb0 v inum) by (apply (ca_live _ _ _ _ _ (kl_cache _ _ _ _ _ _ _ P1) ip), P1).
  destruct (ft_file _ _ _ _ FT inum Hal) as [_ [[Hs0 Hmax] _]].
  assert (Hmax' : i_size (dnode D sb0 v inum) <= 274432) by exact Hmax.
  destruct (elf_fields inum FT) as (Hph1 & Hph2 & Hentry). change sizeof_elf with 64 in *. change sizeof_ph with 56 in *.
  apply wp_bind, (read_var_wp D rep idle sb0 dstart v FT ip inum s1 0 64); auto; [lia|lia|zpow; lia|].
  assert (Em : read_len (dnode D sb0 v inum) 0 64 = 64) by (unfold read_len; lia). rewrite Em. change (replicate (Z.to_nat (64 - 64)) 0) with (@nil Z). rewrite app_nil_r.
  change (fbytes v (dnode D sb0 v inum) 0 64) with (elf_of v inum). intros s2 K2 P2 M2. cbn [Z.eqb negb Pos.eqb]. rewrite G2. change (negb (ELF_MAGIC =? ELF_MAGIC)) with false. cbv iota.
  pose proof (kread_running _ _ Ru1 K2) as Ru2. pose proof (kstep_me _ _ Ru1 (kr_step _ _ K2)) as Me2. rewrite Me1 in Me2.
  pose proof (kstep_cur _ _ K1) as Cu1. pose proof (kstep_cur _ _ (kr_step _ _ K2)) as Cu2. rewrite Cu1 in Cu2.
  destruct (proc_pagetable_spec end_ end_pos trampoline tramp_page s2 (cur s) (fs_mem (kfs s)) root l) as (k3 & l3 & T3 & E3 & U3 & H3 & L3 & O3 & W3); [apply U0|lia|rewrite <- Cu2, Me2; exact Htf|].
  rewrite <- (set_mem_id s2), M2, M1. apply wp_bind. unfold wp at 1. rewrite E3.
  assert (Hroot : root <> 0).
  { pose proof (vr_kmem _ _ _ _ _ (um_rep _ _ _ _ _ _ U0)) as [_ _ _ Hpg _]. apply Forall_cons in Hpg as [Hpg _]. pose proof (page_ok_range _ end_pos _ Hpg). lia. }
  rewrite (proj2 (Z.eqb_neq root 0) Hroot). rewrite s32_small by (zpow; lia).
  assert (Ru3 : running (set_mem k3 s2)) by (apply (kstep_running s2); [done|apply kstep_fs]).
  assert (Hs1 : 0 <= exec_size v inum) by apply image_size.
  apply wp_bind. eapply wp_mono.
  { apply (load_phs_spec end_ end_pos D rep idle sb0 dstart v FT ip inum k3 l3 T3 root (exec_size v inum) (Z.to_nat (elf_phnum (elf_of v inum)))) with (g := fun _ => 0) (l := l3) (T := T3) (fr := []).
    - unfold exec_top, pages, PGSIZE in G5. zlia.
    - lia.
    - exact Hmax.
    - exact Ru3.
    - by apply klocked_mem.
    - apply img_start, U3.
    - done.
    - done.
    - change sizeof_ph with 56. lia.
    - exact G4. }
  intros [ok sz] s4 (Ex & K4 & P4 & l4 & T4 & fr4 & I4). change (sz = exec_size v inum) with (sz = exec_size v inum). injection Ex as -> ->. cbn [negb].
  rewrite Cu2 in Me2. rewrite Me2 in H3.
  eapply (exec_finish inum root l T1 fr1 ip s4 k3 l3 T3 l4 T4 fr4); auto; [| |lia].
  - eapply kstep_trans; [exact K1|]. eapply kstep_trans; [apply K2|]. eapply kstep_trans; [apply kstep_fs|apply K4].
  - apply (refs_ext _ (inodes (kfs s1))); [|exact R1]. intros x. rewrite (kr_inodes _ _ K4). cbn. apply (kr_inodes _ _ K2).
Qed.

(** Without a program at the path nothing changes. *)
Lemma exec_fail :
  match walk_path D sb0 false v (kstart s p) (FsProps.elements p) with
  | Some inum => i_size (dnode D sb0 v inum) < sizeof_elf \/ elf_magic (elf_of v inum) <> ELF_MAGIC
  | None => True
  end ->
  wp (exec end_ trampoline path argv) (fun r s' => r = -1 /\ kstep s s' /\ idle (blk (kfs s')) dk /\
    fs_mem (kfs s') = fs_mem (kfs s) /\ refs_of (inodes (kfs s)) (inodes (kfs s')) []) s.
Proof.
  intros Hw. apply exec_open. destruct (walk_path _ _ _ _ _ _) as [inum|]; [|by intros].
  intros ip s1 [K1 P1 M1 R1 Hkeep]. pose proof ME as [R Hi Es Hk FT W]. pose proof (kstep_running _ _ R K1) as Ru1.
  assert (Hal : allocated D sb0 v inum) by (apply (ca_live _ _ _ _ _ (kl_cache _ _ _ _ _ _ _ P1) ip), P1).
  destruct (ft_file _ _ _ _ FT inum Hal) as [_ [[Hs0 _] _]]. change sizeof_elf with 64 in *.
  apply wp_bind, (read_var_wp D rep idle sb0 dstart v FT ip inum s1 0 64); auto; [lia|lia|zpow; lia|]. intros s2 K2 P2 M2.
  pose proof (kread_running _ _ Ru1 K2) as Ru2.
  assert (Hbad : wp (exec_bad end_ 0 0 ip) (fun r s' => r = -1 /\ kstep s s' /\ idle (blk (kfs s')) dk /\
    fs_mem (kfs s') = fs_mem (kfs s) /\ refs_of (inodes (kfs s)) (inodes (kfs s')) []) s2).
  { unfold exec_bad. cbn [Z.eqb]. apply wp_bind, wp_ret. rewrite (proj2 (Z.eqb_neq ip 0)) by (apply entry_nz, P2). apply wp_bind.
    apply wp_bind, (iunlockput_wp D rep idle sb0 dstart v FT s2 ip inum (inodes (kfs s)) []); auto; [apply W| |].
    { apply (refs_ext _ (inodes (kfs s1))); [apply (kr_inodes _ _ K2)|exact R1]. }
    intros s3 K3 P3 C3 M3 R3. pose proof (kstep_running _ _ Ru2 K3) as Ru3. rewrite <- (kw_dev _ _ _ _ W).
    apply (end_op_wp D rep idle sb0 s3 dk); auto. intros s4 K4 Hi4 _ _ I4 M4. apply wp_ret. split; [done|]. split; [|split; [done|split; [congruence|by rewrite I4]]].
    eapply kstep_trans; [exact K1|]. eapply kstep_trans; [apply K2|]. by eapply kstep_trans. }
  destruct (decide (i_size (dnode D sb0 v inum) < 64)) as [Hlt|Hge].
  - assert (Em : read_len (dnode D sb0 v inum) 0 64 = i_size (dnode D sb0 v inum)) by (unfold read_len; lia). rewrite Em.
    rewrite (proj2 (Z.eqb_neq _ 64)) by lia. exact Hbad.
  - assert (Em : read_len (dnode D sb0 v inum) 0 64 = 64) by (unfold read_len; lia). rewrite Em. change (replicate (Z.to_nat (64 - 64)) 0) with (@nil Z). rewrite app_nil_r.
    change (fbytes v (dnode D sb0 v inum) 0 64) with (elf_of v inum). cbn [Z.eqb negb Pos.eqb].
    destruct Hw as [?|Hm]; [lia|]. rewrite (proj2 (Z.eqb_neq _ _) Hm). exact Hbad.
Qed.

End Run.

End Exec.
