(* ===== verification/Sysfile.v ===== *)
(** * [kernel/sysfile.c]: the system calls on files

    Argument checking and the calls into the file layer; an operation on the
    file system is bracketed by [begin_op] and [end_op]. *)
From stdpp Require Import base list gmap strings.
From Stdlib Require Import ZArith Lia.
From S2P Require Import Prelude KString Riscv Kalloc Vm Sleeplock Bio Log Blocks Fs Kernel Pipe Proc Syscall Exec.

#[local] Open Scope Z_scope.
#[local] Open Scope xv6_scope.

Definition MAXPATH : Z := 128.
Definition O_RDONLY : Z := 0x000.
Definition O_WRONLY : Z := 0x001.
Definition O_RDWR : Z := 0x002.
Definition O_CREATE : Z := 0x200.

Definition DOT : list Z := [46; 0].
Definition DOTDOT : list Z := [46; 46; 0].

Section Sysfile.

Context (end_ trampoline : Z) {S : Type} {L : BlockLayer S} {O : OpLayer S}.
Context (dv : devsw (S := S)).

Abbreviation K := (M (kst S)).

Definition kinode (ip : Z) : K inode := gets (fun s => inodes (kfs s) ip).
Definition set_kinode (ip : Z) (f : inode -> inode) : K unit := in_fs (set_inode ip f).

(** ** Descriptors *)

(** The descriptor and the file; [None] for -1. *)
Definition argfd (n : Z) : K (option (Z * Z)) :=
  fd ← argint n ;
  if (fd <? 0) || (fd >=? NOFILE) then ret None else
  p ← myproc ;
  f ← get_ofile p fd ;
  ret (if f =? 0 then None else Some (fd, f)).

Definition fdalloc (f : Z) : K Z :=
  p ← myproc ;
  r ← search (zseq 0 (Z.to_nat NOFILE)) (fun fd =>
        g ← get_ofile p fd ;
        if g =? 0 then set_ofile p fd f ;; ret (Some fd) else ret None) ;
  ret (default (-1) r).

Definition sys_dup : K Z :=
  r ← argfd 0 ;
  match r with
  | None => ret (-1)
  | Some (_, f) =>
      fd ← fdalloc f ;
      if fd <? 0 then ret (-1) else (filedup f ;; ret fd)
  end.

Definition sys_read : K Z :=
  r ← argfd 0 ;
  match r with
  | None => ret (-1)
  | Some (_, f) => n ← argint 2 ; p ← argaddr 1 ; fileread dv f p n
  end.

Definition sys_write : K Z :=
  r ← argfd 0 ;
  match r with
  | None => ret (-1)
  | Some (_, f) => n ← argint 2 ; p ← argaddr 1 ; filewrite dv f p n
  end.

Definition sys_close : K Z :=
  r ← argfd 0 ;
  match r with
  | None => ret (-1)
  | Some (fd, f) =>
      p ← myproc ;
      set_ofile p fd 0 ;;
      fileclose end_ f ;;
      ret 0
  end.

Definition sys_fstat : K Z :=
  r ← argfd 0 ;
  match r with
  | None => ret (-1)
  | Some (_, f) => st ← argaddr 1 ; filestat f st
  end.

(** ** Links *)

(** [bad:] of [sys_link]. *)
Definition link_bad (ip : Z) : K Z :=
  in_fs (ilock ip) ;;
  set_kinode ip (fun i => i <| i_nlink := s16 (i_nlink i - 1) |>) ;;
  in_fs (iupdate ip) ;;
  in_fs (iunlockput ip) ;;
  end_op ROOTDEV ;;
  ret (-1).

Definition sys_link : K Z :=
  a ← argstr 0 MAXPATH ;
  let '(r, old) := a : Z * list Z in
  if r <? 0 then ret (-1) else
  b ← argstr 1 MAXPATH ;
  let '(r, new) := b : Z * list Z in
  if r <? 0 then ret (-1) else
  begin_op ROOTDEV ;;
  ip ← in_fs (namei old) ;
  if ip =? 0 then end_op ROOTDEV ;; ret (-1) else
  in_fs (ilock ip) ;;
  i ← kinode ip ;
  if i_type i =? T_DIR then in_fs (iunlockput ip) ;; end_op ROOTDEV ;; ret (-1) else
  set_kinode ip (fun i => i <| i_nlink := s16 (i_nlink i + 1) |>) ;;
  in_fs (iupdate ip) ;;
  in_fs (iunlock ip) ;;
  x ← in_fs (nameiparent new (replicate (Z.to_nat DIRSIZ) 0)) ;
  let '(dp, name) := x : Z * list Z in
  if dp =? 0 then link_bad ip else
  in_fs (ilock dp) ;;
  d ← kinode dp ;
  i ← kinode ip ;
  r ← (if negb (i_dev d =? i_dev i) then ret (-1) else in_fs (dirlink dp name (i_inum i))) ;
  if r <? 0 then in_fs (iunlockput dp) ;; link_bad ip else
  (in_fs (iunlockput dp) ;;
   in_fs (iput ip) ;;
   end_op ROOTDEV ;;
   ret 0).

(** One turn of the loop of [isdirempty]; [off] is an [int], compared and passed on as an unsigned number. *)
Definition isdirempty_step (dp off : Z) : K (Z + bool) :=
  i ← kinode dp ;
  if negb (u32 off <? i_size i) then ret (inr true) else
  de ← in_fs (read_de dp (u32 off) "isdirempty: readi") ;
  ret (if negb (de_inum de =? 0) then inr false else inl (s32 (off + sizeof_de))).

Definition isdirempty (dp : Z) : K bool := while_ (isdirempty_step dp) (2 * sizeof_de).

(** [bad:] of [sys_unlink]. *)
Definition unlink_bad (dp : Z) : K Z :=
  in_fs (iunlockput dp) ;;
  end_op ROOTDEV ;;
  ret (-1).

(** The entry is cleared and the links are dropped. *)
Definition unlink_entry (dp ip off : Z) : K Z :=
  in_fs (modify (fun s => s <| kvar := replicate (Z.to_nat sizeof_de) 0 |>)) ;;
  r ← in_fs (writei dp false 0 off sizeof_de) ;
  if negb (r =? sizeof_de) then panic "unlink: writei" else
  i ← kinode ip ;
  (if i_type i =? T_DIR
   then set_kinode dp (fun d => d <| i_nlink := s16 (i_nlink d - 1) |>) ;; in_fs (iupdate dp)
   else ret tt) ;;
  in_fs (iunlockput dp) ;;
  set_kinode ip (fun i => i <| i_nlink := s16 (i_nlink i - 1) |>) ;;
  in_fs (iupdate ip) ;;
  in_fs (iunlockput ip) ;;
  end_op ROOTDEV ;;
  ret 0.

Definition sys_unlink : K Z :=
  a ← argstr 0 MAXPATH ;
  let '(r, path) := a : Z * list Z in
  if r <? 0 then ret (-1) else
  begin_op ROOTDEV ;;
  x ← in_fs (nameiparent path (replicate (Z.to_nat DIRSIZ) 0)) ;
  let '(dp, name) := x : Z * list Z in
  if dp =? 0 then end_op ROOTDEV ;; ret (-1) else
  in_fs (ilock dp) ;;
  if (namecmp name DOT =? 0) || (namecmp name DOTDOT =? 0) then unlink_bad dp else
  y ← in_fs (dirlookup dp name) ;
  let '(ip, off) := y : Z * Z in
  if ip =? 0 then unlink_bad dp else
  in_fs (ilock ip) ;;
  i ← kinode ip ;
  if i_nlink i <? 1 then panic "unlink: nlink < 1" else
  empty ← (if i_type i =? T_DIR then isdirempty ip else ret true) ;
  if negb empty then in_fs (iunlockput ip) ;; unlink_bad dp else
  unlink_entry dp ip off.

(** ** Creation *)

Definition create (path : list Z) (type major minor : Z) : K Z :=
  x ← in_fs (nameiparent path (replicate (Z.to_nat DIRSIZ) 0)) ;
  let '(dp, name) := x : Z * list Z in
  if dp =? 0 then ret 0 else
  in_fs (ilock dp) ;;
  y ← in_fs (dirlookup dp name) ;
  let '(ip, _) := y : Z * Z in
  if negb (ip =? 0) then
    in_fs (iunlockput dp) ;;
    in_fs (ilock ip) ;;
    i ← kinode ip ;
    if (type =? T_FILE) && ((i_type i =? T_FILE) || (i_type i =? T_DEVICE)) then ret ip
    else in_fs (iunlockput ip) ;; ret 0
  else
  d ← kinode dp ;
  ip ← in_fs (ialloc (i_dev d) type) ;
  if ip =? 0 then panic "create: ialloc" else
  in_fs (ilock ip) ;;
  set_kinode ip (fun i => i <| i_major := s16 major |> <| i_minor := s16 minor |> <| i_nlink := 1 |>) ;;
  in_fs (iupdate ip) ;;
  i ← kinode ip ;
  (if type =? T_DIR then
     set_kinode dp (fun d => d <| i_nlink := s16 (i_nlink d + 1) |>) ;;
     in_fs (iupdate dp) ;;
     r1 ← in_fs (dirlink ip DOT (i_inum i)) ;
     if r1 <? 0 then panic "create dots" else
     d ← kinode dp ;
     r2 ← in_fs (dirlink ip DOTDOT (i_inum d)) ;
     if r2 <? 0 then panic "create dots" else ret tt
   else ret tt) ;;
  r ← in_fs (dirlink dp name (i_inum i)) ;
  if r <? 0 then panic "create: dirlink" else
  (in_fs (iunlockput dp) ;;
   ret ip).

(** [iunlockput(ip); end_op(ROOTDEV); return -1] *)
Definition put_fail (ip : Z) : K Z :=
  in_fs (iunlockput ip) ;;
  end_op ROOTDEV ;;
  ret (-1).

(** The inode to open, locked; 0 when the call fails. *)
Definition open_inode (path : list Z) (omode : Z) : K Z :=
  if negb (Z.land omode O_CREATE =? 0) then
    ip ← create path T_FILE 0 0 ;
    if ip =? 0 then end_op ROOTDEV ;; ret 0 else ret ip
  else
    ip ← in_fs (namei path) ;
    if ip =? 0 then end_op ROOTDEV ;; ret 0 else
    in_fs (ilock ip) ;;
    i ← kinode ip ;
    if (i_type i =? T_DIR) && negb (omode =? O_RDONLY) then put_fail ip ;; ret 0 else ret ip.

(** The fields of the file structure of a newly opened inode. *)
Definition open_file (ip omode : Z) (i : inode) (f : file) : file :=
  let f := if i_type i =? T_DEVICE then f <| f_type := FD_DEVICE |> <| f_major := i_major i |> <| f_minor := i_minor i |>
           else f <| f_type := FD_INODE |> in
  f <| f_ip := ip |> <| f_off := 0 |>
    <| f_readable := Z.land omode O_WRONLY =? 0 |>
    <| f_writable := negb (Z.land omode O_WRONLY =? 0) || negb (Z.land omode O_RDWR =? 0) |>.

Definition sys_open : K Z :=
  a ← argstr 0 MAXPATH ;
  let '(n, path) := a : Z * list Z in
  if n <? 0 then ret (-1) else
  omode ← argint 1 ;
  begin_op ROOTDEV ;;
  ip ← open_inode path omode ;
  if ip =? 0 then ret (-1) else
  i ← kinode ip ;
  if (i_type i =? T_DEVICE) && ((i_major i <? 0) || (i_major i >=? NDEV)) then put_fail ip else
  f ← filealloc ;
  if f =? 0 then put_fail ip else
  fd ← fdalloc f ;
  if fd <? 0 then fileclose end_ f ;; put_fail ip else
  (set_file f (open_file ip omode i) ;;
   in_fs (iunlock ip) ;;
   end_op ROOTDEV ;;
   ret fd).

Definition sys_mkdir : K Z :=
  begin_op ROOTDEV ;;
  a ← argstr 0 MAXPATH ;
  let '(r, path) := a : Z * list Z in
  if r <? 0 then end_op ROOTDEV ;; ret (-1) else
  ip ← create path T_DIR 0 0 ;
  if ip =? 0 then end_op ROOTDEV ;; ret (-1) else
  (in_fs (iunlockput ip) ;;
   end_op ROOTDEV ;;
   ret 0).

Definition sys_mknod : K Z :=
  begin_op ROOTDEV ;;
  a ← argstr 0 MAXPATH ;
  let '(r, path) := a : Z * list Z in
  if r <? 0 then end_op ROOTDEV ;; ret (-1) else
  major ← argint 1 ;
  minor ← argint 2 ;
  ip ← create path T_DEVICE major minor ;
  if ip =? 0 then end_op ROOTDEV ;; ret (-1) else
  (in_fs (iunlockput ip) ;;
   end_op ROOTDEV ;;
   ret 0).

Definition sys_chdir : K Z :=
  p ← myproc ;
  begin_op ROOTDEV ;;
  a ← argstr 0 MAXPATH ;
  let '(r, path) := a : Z * list Z in
  if r <? 0 then end_op ROOTDEV ;; ret (-1) else
  ip ← in_fs (namei path) ;
  if ip =? 0 then end_op ROOTDEV ;; ret (-1) else
  in_fs (ilock ip) ;;
  i ← kinode ip ;
  if negb (i_type i =? T_DIR) then put_fail ip else
  (in_fs (iunlock ip) ;;
   pr ← get_proc p ;
   in_fs (iput (p_cwd pr)) ;;
   end_op ROOTDEV ;;
   set_proc p (fun x => x <| p_cwd := ip |>) ;;
   ret 0).

(** ** [exec] and [pipe] *)

(** The loop of [sys_exec]: whether it ended well, and the pages of [argv]. *)
Fixpoint exec_args (n : nat) (uargv i : Z) (argv : list Z) : K (bool * list Z) :=
  match n with
  | 0%nat => ret (false, argv)
  | Datatypes.S n =>
      x ← fetchaddr (u64 (uargv + 8 * i)) ;
      let '(r, uarg) := x : Z * Z in
      if r <? 0 then ret (false, argv) else
      if uarg =? 0 then ret (true, argv) else
      pg ← in_kmem kalloc ;
      if pg =? 0 then panic "sys_exec kalloc" else
      y ← fetchstr uarg PGSIZE ;
      let '(r, buf) := y : Z * list Z in
      in_kmem (modify (fun k => k <| ram := write_bytes (ram k) pg buf |>)) ;;
      if r <? 0 then ret (false, argv ++ [pg]) else exec_args n uargv (i + 1) (argv ++ [pg])
  end.

Definition sys_exec : K Z :=
  a ← argstr 0 MAXPATH ;
  let '(r, path) := a : Z * list Z in
  if r <? 0 then ret (-1) else
  uargv ← argaddr 1 ;
  x ← exec_args (Z.to_nat MAXARG) uargv 0 [] ;
  let '(ok, argv) := x : bool * list Z in
  r ← (if ok then
         strs ← gets (fun s => (fun pg => read_bytes (ram (fs_mem (kfs s))) pg (Z.to_nat PGSIZE)) <$> argv) ;
         exec end_ trampoline path strs
       else ret (-1)) ;
  each argv (fun pg => in_kmem (kfree end_ pg)) ;;
  ret r.

Definition sys_pipe : K Z :=
  p ← myproc ;
  fdarray ← argaddr 0 ;
  r ← pipealloc end_ ;
  match r with
  | None => ret (-1)
  | Some (rf, wf) =>
      fd0 ← fdalloc rf ;
      fd1 ← (if fd0 <? 0 then ret (-1) else fdalloc wf) ;
      if fd1 <? 0 then
        (if fd0 >=? 0 then set_ofile p fd0 0 else ret tt) ;;
        fileclose end_ rf ;; fileclose end_ wf ;; ret (-1)
      else
      pr ← get_proc p ;
      r0 ← in_kmem (copyout (p_pagetable pr) fdarray (le_bytes 4 fd0) 4) ;
      r1 ← (if r0 <? 0 then ret (-1) else in_kmem (copyout (p_pagetable pr) (u64 (fdarray + 4)) (le_bytes 4 fd1) 4)) ;
      if r1 <? 0 then
        set_ofile p fd0 0 ;; set_ofile p fd1 0 ;;
        fileclose end_ rf ;; fileclose end_ wf ;; ret (-1)
      else ret 0
  end.

End Sysfile.
