(* ===== verification/Trap.v ===== *)
(** * [kernel/trap.c] and [kernel/plic.c]: entering and leaving the kernel

    The registers that the handlers read and write are in [csrs].  [usertrapret]
    ends with the jump to the trampoline, whose arguments are its result. *)
From stdpp Require Import base list gmap strings.
From Stdlib Require Import ZArith Lia.
From S2P Require Import Prelude KString Riscv Kalloc Vm Sleeplock Bio Log Blocks Fs Spinlock Kernel Pipe Proc Console Syscall Exec Sysfile.

#[local] Open Scope Z_scope.
#[local] Open Scope xv6_scope.

Definition SSTATUS_SPP : Z := Z.shiftl 1 8.
Definition SSTATUS_SPIE : Z := Z.shiftl 1 5.

Definition INTR_BIT : Z := 0x8000000000000000.
Definition TIMER_CAUSE : Z := 0x8000000000000001.

(** ** Describing a trap *)

Definition reserved_std : string := "<reserved for future standard use>".

Definition intr_desc : list string :=
  ["user software interrupt"; "supervisor software interrupt"; reserved_std; reserved_std;
   "user timer interrupt"; "supervisor timer interrupt"; reserved_std; reserved_std;
   "user external interrupt"; "supervisor external interrupt"; reserved_std; reserved_std;
   reserved_std; reserved_std; reserved_std; reserved_std].

Definition nointr_desc : list string :=
  ["instruction address misaligned"; "instruction access fault"; "illegal instruction"; "breakpoint";
   "load address misaligned"; "load access fault"; "store/AMO address misaligned"; "store/AMO access fault";
   "environment call from U-mode"; "environment call from S-mode"; reserved_std; reserved_std;
   "instruction page fault"; "load page fault"; reserved_std; "store/AMO page fault"].

Definition scause_desc (stval : Z) : string :=
  let interrupt := Z.land stval INTR_BIT in
  let code := Z.ldiff stval INTR_BIT in
  if negb (interrupt =? 0) then
    if code <? 16 then default "" (intr_desc !! Z.to_nat code) else "<reserved for platform use>"
  else
    if code <? 16 then default "" (nointr_desc !! Z.to_nat code)
    else if code <=? 23 then reserved_std
    else if code <=? 31 then "<reserved for custom use>"
    else if code <=? 47 then reserved_std
    else if code <=? 63 then "<reserved for custom use>"
    else reserved_std.

Section Trap.

(** [end_], [trampoline] and the offsets of [uservec] and [userret] come from the
    linker, as do the addresses of [kernelvec], [usertrap] and [forkret].  The disk
    driver's handler and the lock statistics behind [sys_ntas] work on states of
    their own. *)
Context (end_ trampoline uservec_off userret_off kernelvec usertrap_ forkret_ : Z).
Context {S : Type} {L : BlockLayer S} {O : OpLayer S}.
Context (dv : devsw (S := S)) (virtio_disk_intr : Z -> M (kst S) unit) (ntas : Z -> M (kst S) Z).

Abbreviation K := (M (kst S)).

Definition rd {A} (f : csr -> A) : K A := gets (fun s => f (csrs s)).
Definition wr (f : csr -> csr) : K unit := modify (fun s => s <| csrs := f (csrs s) |>).

Definition w_stvec (x : Z) : K unit := wr (fun c => c <| stvec := x |>).
Definition k_intr_on : K unit := wr (fun c => c <| sstatus := Z.lor (sstatus c) SSTATUS_SIE |>).
Definition k_intr_off : K unit := wr (fun c => c <| sstatus := Z.ldiff (sstatus c) SSTATUS_SIE |>).
Definition k_intr_get : K bool := rd (fun c => negb (Z.land (sstatus c) SSTATUS_SIE =? 0)).

(** ** The interrupt controller *)

(** The stores of [plicinit] and [plicinithart], as address and value. *)
Definition plicinit : list (Z * Z) := [(PLIC + UART0_IRQ * 4, 1); (PLIC + VIRTIO0_IRQ * 4, 1)].
Definition PLIC_SENABLE (hart : Z) : Z := PLIC + 0x2080 + hart * 0x100.
Definition PLIC_SPRIORITY (hart : Z) : Z := PLIC + 0x201000 + hart * 0x2000.
Definition plicinithart (hart : Z) : list (Z * Z) :=
  [(PLIC_SENABLE hart, Z.lor (Z.shiftl 1 UART0_IRQ) (Z.shiftl 1 VIRTIO0_IRQ)); (PLIC_SPRIORITY hart, 0)].

Definition plic_claim : K Z :=
  l ← rd plic_irqs ;
  match l with
  | [] => ret 0
  | irq :: l => wr (fun c => c <| plic_irqs := l |>) ;; ret irq
  end.

Definition plic_complete (irq : Z) : K unit := wr (fun c => c <| plic_done := irq :: plic_done c |>).

(** ** Interrupts *)

Definition trapinit : K unit := modify (fun s => s <| tickslock := false |>).
Definition trapinithart : K unit := w_stvec kernelvec.

Definition clockintr : K unit :=
  tlock ;;
  modify (fun s => s <| ticks := u32 (ticks s + 1) |>) ;;
  wakeup ticks_chan ;;
  tunlock.

Definition devintr : K Z :=
  scause ← rd scause ;
  if negb (Z.land scause INTR_BIT =? 0) && (Z.land scause 0xff =? 9) then
    irq ← plic_claim ;
    (if irq =? UART0_IRQ then uartintr
     else if (irq =? VIRTIO0_IRQ) || (irq =? VIRTIO1_IRQ) then virtio_disk_intr (irq - VIRTIO0_IRQ)
     else ret tt) ;;
    (if irq =? 0 then ret tt else plic_complete irq) ;;
    ret 1
  else if scause =? TIMER_CAUSE then
    hart ← rd tp ;
    (if hart =? 0 then clockintr else ret tt) ;;
    wr (fun c => c <| sip := Z.ldiff (sip c) 2 |>) ;;
    ret 2
  else ret 0.

(** ** System calls *)

Definition sys_ntas_ : K Z := zero ← argint 0 ; ntas zero.

(** [syscalls[num]] *)
Definition syscalls (num : Z) : option (K Z) :=
  match num with
  | 1 => Some (sys_fork end_ trampoline forkret_)
  | 2 => Some (sys_exit end_)
  | 3 => Some (sys_wait end_)
  | 4 => Some (sys_pipe end_)
  | 5 => Some (sys_read dv)
  | 6 => Some sys_kill
  | 7 => Some (sys_exec end_ trampoline)
  | 8 => Some sys_fstat
  | 9 => Some sys_chdir
  | 10 => Some sys_dup
  | 11 => Some sys_getpid
  | 12 => Some (sys_sbrk end_)
  | 13 => Some sys_sleep
  | 14 => Some sys_uptime
  | 15 => Some (sys_open end_)
  | 16 => Some (sys_write dv)
  | 17 => Some sys_mknod
  | 18 => Some sys_unlink
  | 19 => Some sys_link
  | 20 => Some sys_mkdir
  | 21 => Some (sys_close end_)
  | 22 => Some sys_ntas_
  | _ => None
  end.

Definition syscall : K unit :=
  p ← myproc ;
  a7 ← tf_load p TF_a7 ;
  let num := s32 a7 in
  match syscalls num with
  | Some call => r ← call ; tf_store p TF_a0 (u64 r)
  | None =>
      pr ← get_proc p ;
      printf (bytes_of "%d %s: unknown sys call %d" ++ [NL]) [AInt (p_pid pr); AStr (Some (p_name pr)); AInt num] ;;
      tf_store p TF_a0 (u64 (-1))
  end.

(** ** Returning to user space *)

Definition usertrapret : K (Z * Z) :=
  p ← myproc ;
  k_intr_off ;;
  w_stvec (TRAMPOLINE + uservec_off) ;;
  satp ← rd satp ;
  tf_store p TF_kernel_satp satp ;;
  pr ← get_proc p ;
  tf_store p TF_kernel_sp (u64 (p_kstack pr + PGSIZE)) ;;
  tf_store p TF_kernel_trap usertrap_ ;;
  hart ← rd tp ;
  tf_store p TF_kernel_hartid hart ;;
  wr (fun c => c <| sstatus := Z.lor (Z.ldiff (sstatus c) SSTATUS_SPP) SSTATUS_SPIE |>) ;;
  epc ← tf_load p TF_epc ;
  wr (fun c => c <| sepc := epc |>) ;;
  ret (TRAPFRAME, MAKE_SATP (p_pagetable pr)).

(** A trap that is not a system call and not from a device. *)
Definition unexpected_trap (p : Z) : K unit :=
  c ← gets csrs ;
  pr ← get_proc p ;
  printf (bytes_of "usertrap(): unexpected scause %p (%s) pid=%d" ++ [NL])
    [APtr (scause c); AStr (Some (bytes_of (scause_desc (scause c)))); AInt (p_pid pr)] ;;
  printf (bytes_of "            sepc=%p stval=%p" ++ [NL]) [APtr (sepc c); APtr (stval c)] ;;
  set_proc p (fun x => x <| p_killed := true |>).

(** [if(p->killed) exit(-1);] *)
Definition exit_if_killed (p : Z) : K unit :=
  pr ← get_proc p ;
  if p_killed pr then exit end_ (-1) else ret tt.

Definition usertrap : K (Z * Z) :=
  st ← rd sstatus ;
  if negb (Z.land st SSTATUS_SPP =? 0) then panic "usertrap: not from user mode" else
  w_stvec kernelvec ;;
  p ← myproc ;
  pc ← rd sepc ;
  tf_store p TF_epc pc ;;
  cause ← rd scause ;
  which_dev ← (if cause =? 8 then
                 exit_if_killed p ;;
                 epc ← tf_load p TF_epc ;
                 tf_store p TF_epc (u64 (epc + 4)) ;;
                 k_intr_on ;;
                 syscall ;;
                 ret 0
               else
                 d ← devintr ;
                 (if d =? 0 then unexpected_trap p else ret tt) ;;
                 ret d) ;
  exit_if_killed p ;;
  (if which_dev =? 2 then yield else ret tt) ;;
  usertrapret.

(** The first run of a process; its lock is held from the scheduler. *)
Definition forkret : K (Z * Z) :=
  p ← myproc ;
  punlock p ;;
  first ← gets first_ ;
  (if first : bool then modify (fun s => s <| first_ := false |>) ;; in_fs (fsinit ROOTDEV) else ret tt) ;;
  usertrapret.

(** ** Traps from the kernel *)

Definition kerneltrap : K unit :=
  pc ← rd sepc ;
  st ← rd sstatus ;
  cause ← rd scause ;
  if Z.land st SSTATUS_SPP =? 0 then panic "kerneltrap: not from supervisor mode" else
  on ← k_intr_get ;
  if on then panic "kerneltrap: interrupts enabled" else
  which_dev ← devintr ;
  if which_dev =? 0 then
    printf (bytes_of "scause %p (%s)" ++ [NL]) [APtr cause; AStr (Some (bytes_of (scause_desc cause)))] ;;
    c ← gets csrs ;
    printf (bytes_of "sepc=%p stval=%p" ++ [NL]) [APtr (sepc c); APtr (stval c)] ;;
    panic "kerneltrap"
  else
  p ← myproc ;
  pr ← get_proc p ;
  (if (which_dev =? 2) && negb (p =? 0) && bool_decide (p_state pr = RUNNING) then yield else ret tt) ;;
  wr (fun c => c <| sepc := pc |>) ;;
  wr (fun c => c <| sstatus := st |>).

End Trap.
