(* ===== verification/TrapProps.v ===== *)
(** * A system call from user space

    The way of an [ecall] through [usertrap], [syscall] and [usertrapret] of
    [kernel/trap.c] and [kernel/syscall.c]. *)
From stdpp Require Import base list gmap strings.
From Stdlib Require Import ZArith Lia.
From S2P Require Import Prelude KString Riscv Kalloc Vm Sleeplock Bio Log Blocks Fs FsFile FsProps Spinlock Kernel Pipe Proc KState ProcMem Console Syscall Exec Sysfile Trap.

#[local] Open Scope Z_scope.
#[local] Open Scope xv6_scope.

Section TrapProps.

Context (end_ trampoline uservec_off userret_off kernelvec usertrap_ forkret_ : Z).
Context {S : Type} {L : BlockLayer S} {O : OpLayer S}.
Context (dv : devsw (S := S)) (virtio_disk_intr : Z -> M (kst S) unit) (ntas : Z -> M (kst S) Z).

Abbreviation usertrap := (usertrap end_ trampoline uservec_off kernelvec usertrap_ forkret_ dv virtio_disk_intr ntas).
Abbreviation syscalls := (syscalls end_ trampoline forkret_ dv ntas).

(** The memory, and the trapframe of the running process. *)
Definition kram (s : kst S) : mem := ram (fs_mem (kfs s)).
Definition tf_of (s : kst S) : Z := p_tf (procs s (cur s)).
Definition set_ram (s : kst S) (m : mem) : kst S := set_mem ((fs_mem (kfs s)) <| ram := m |>) s.

Lemma tf_load_me s p off : p = cur s -> tf_load p off s = Ok (load64 (kram s) (tf_of s + off)) s.
Proof. intros ->. by destruct s as [[]]. Qed.

Lemma tf_store_me s p off x : p = cur s -> tf_store p off x s = Ok tt (set_ram s (store64 (kram s) (tf_of s + off) x)).
Proof. by intros ->. Qed.

(** The state in which a system call runs: the saved program counter is behind the [ecall],
    interrupts are on and go to the kernel's handler. *)
Definition entered (s : kst S) : kst S :=
  (set_ram s (store64 (store64 (kram s) (tf_of s + TF_epc) (sepc (csrs s))) (tf_of s + TF_epc) (u64 (u64 (sepc (csrs s)) + 4))))
    <| csrs := (csrs s) <| stvec := kernelvec |> <| sstatus := Z.lor (sstatus (csrs s)) SSTATUS_SIE |> |>.

(** What [usertrapret] saves for the next trap. *)
Definition kernel_words (s : kst S) (m : mem) : mem :=
  store64 (store64 (store64 (store64 m (tf_of s + TF_kernel_satp) (satp (csrs s))) (tf_of s + TF_kernel_sp) (u64 (p_kstack (procs s (cur s)) + PGSIZE)))
    (tf_of s + TF_kernel_trap) usertrap_) (tf_of s + TF_kernel_hartid) (tp (csrs s)).

(** The registers on the way to user space: interrupts off, previous mode user, previous interrupts on. *)
Definition ret_sstatus (st : Z) : Z := Z.lor (Z.ldiff (Z.ldiff st SSTATUS_SIE) SSTATUS_SPP) SSTATUS_SPIE.

Definition returned (s : kst S) : kst S :=
  (set_ram s (kernel_words s (kram s)))
    <| csrs := (csrs s) <| stvec := TRAMPOLINE + uservec_off |> <| sstatus := ret_sstatus (sstatus (csrs s)) |> <| sepc := load64 (kram s) (tf_of s + TF_epc) |> |>.

Lemma kernel_words_other s m o : 24 <= o < 32 \/ 40 <= o -> kernel_words s m (tf_of s + o) = m (tf_of s + o).
Proof.
  intros Ho. unfold kernel_words, TF_kernel_satp, TF_kernel_sp, TF_kernel_trap, TF_kernel_hartid. by rewrite !store64_outside by lia.
Qed.

Lemma kernel_words_load s m o : o = 24 \/ 40 <= o -> load64 (kernel_words s m) (tf_of s + o) = load64 m (tf_of s + o).
Proof. intros Ho. apply load64_ext. intros x Hx. replace x with (tf_of s + (x - tf_of s)) by lia. apply kernel_words_other. lia. Qed.

Lemma usertrapret_spec s : usertrapret uservec_off usertrap_ s = Ok (TRAPFRAME, MAKE_SATP (p_pagetable (procs s (cur s)))) (returned s).
Proof.
  unfold returned. rewrite <- (kernel_words_load s (kram s) TF_epc) by (by left). destruct s as [[] ? ? ? ? ? ? ? ? ? ? ? ? ? ? []]. reflexivity.
Qed.

Lemma syscall_spec s call r s1 :
  syscalls (s32 (load64 (kram s) (tf_of s + TF_a7))) = Some call -> call s = Ok r s1 -> cur s1 = cur s ->
  syscall end_ trampoline forkret_ dv ntas s = Ok tt (set_ram s1 (store64 (kram s1) (tf_of s1 + TF_a0) (u64 r))).
Proof.
  intros Hc E Hcur. unfold syscall. rewrite (bind_Ok _ _ _ _ _ (eq_refl : myproc s = Ok (cur s) s)), (bind_Ok _ _ _ _ _ (tf_load_me s _ TF_a7 eq_refl)).
  cbv zeta. rewrite Hc, (bind_Ok _ _ _ _ _ E), tf_store_me by done. done.
Qed.

(** The process goes on in user space after a call that left [s1] and returned [r]. *)
Record resumed (s1 s' : kst S) (r : Z) : Prop := {
  re_a0 : load64 (kram s') (tf_of s1 + TF_a0) = u64 r;
  re_regs : forall o, 40 <= o < TF_size -> ~ TF_a0 <= o < TF_a0 + 8 -> kram s' (tf_of s1 + o) = kram s1 (tf_of s1 + o);
  re_mem : forall a, ~ tf_of s1 <= a < tf_of s1 + TF_size -> kram s' a = kram s1 a;
  re_pc : sepc (csrs s') = load64 (kram s1) (tf_of s1 + TF_epc);
  re_vec : stvec (csrs s') = TRAMPOLINE + uservec_off;
  re_sie : Z.land (sstatus (csrs s')) SSTATUS_SIE = 0;
  re_user : Z.land (sstatus (csrs s')) SSTATUS_SPP = 0;
  re_intr : Z.land (sstatus (csrs s')) SSTATUS_SPIE <> 0;
  re_satp : load64 (kram s') (tf_of s1 + TF_kernel_satp) = u64 (satp (csrs s1));
  re_sp : load64 (kram s') (tf_of s1 + TF_kernel_sp) = u64 (p_kstack (procs s1 (cur s1)) + PGSIZE);
  re_trap : load64 (kram s') (tf_of s1 + TF_kernel_trap) = u64 usertrap_;
  re_hart : load64 (kram s') (tf_of s1 + TF_kernel_hartid) = u64 (tp (csrs s1));
  re_rest : s' = (set_ram s1 (kram s')) <| csrs := csrs s' |>;
}.

Lemma testbit_land_pow x n : 0 <= n -> Z.land x (Z.shiftl 1 n) = if Z.testbit x n then 2 ^ n else 0.
Proof.
  intros Hn. rewrite Z.shiftl_1_l. apply Z.bits_inj'. intros i Hi. rewrite Z.land_spec, Z.pow2_bits_eqb by done.
  destruct (Z.eqb_spec n i) as [->|Hne].
  - rewrite andb_true_r. destruct (Z.testbit x i) eqn:E; [by rewrite Z.pow2_bits_true|by rewrite Z.bits_0].
  - rewrite andb_false_r. destruct (Z.testbit x n); [by rewrite Z.pow2_bits_false|by rewrite Z.bits_0].
Qed.

Lemma ret_sstatus_bits st : Z.land (ret_sstatus st) SSTATUS_SIE = 0 /\ Z.land (ret_sstatus st) SSTATUS_SPP = 0 /\ Z.land (ret_sstatus st) SSTATUS_SPIE <> 0.
Proof.
  assert (H : forall n, 0 <= n -> Z.land (ret_sstatus st) (Z.shiftl 1 n) = if Z.testbit (ret_sstatus st) n then 2 ^ n else 0) by (intros; by apply testbit_land_pow).
  change SSTATUS_SIE with (Z.shiftl 1 1). change SSTATUS_SPP with (Z.shiftl 1 8). change SSTATUS_SPIE with (Z.shiftl 1 5). rewrite !H by done.
  unfold ret_sstatus. rewrite !Z.lor_spec, !Z.ldiff_spec.
  change (Z.testbit SSTATUS_SIE 1) with true. change (Z.testbit SSTATUS_SPP 1) with false. change (Z.testbit SSTATUS_SPIE 1) with false.
  change (Z.testbit SSTATUS_SPP 8) with true. change (Z.testbit SSTATUS_SPIE 8) with false. change (Z.testbit SSTATUS_SPIE 5) with true.
  cbn [negb]. rewrite !andb_false_r, orb_true_r. done.
Qed.

Lemma kernel_words_saved s m : let m' := kernel_words s m in
  load64 m' (tf_of s + TF_kernel_satp) = u64 (satp (csrs s)) /\ load64 m' (tf_of s + TF_kernel_sp) = u64 (p_kstack (procs s (cur s)) + PGSIZE) /\
  load64 m' (tf_of s + TF_kernel_trap) = u64 usertrap_ /\ load64 m' (tf_of s + TF_kernel_hartid) = u64 (tp (csrs s)).
Proof.
  cbv zeta. unfold kernel_words, TF_kernel_satp, TF_kernel_sp, TF_kernel_trap, TF_kernel_hartid.
  split_and!; rewrite ?load_store64_other by lia; rewrite load_store64; try done. unfold u64. by rewrite Zmod_mod.
Qed.

Lemma kernel_words_outside s m a : ~ tf_of s <= a < tf_of s + 40 -> kernel_words s m a = m a.
Proof. intros Ha. unfold kernel_words, TF_kernel_satp, TF_kernel_sp, TF_kernel_trap, TF_kernel_hartid. by rewrite !store64_outside by lia. Qed.

Lemma resumed_spec s1 r s : s = set_ram s1 (store64 (kram s1) (tf_of s1 + TF_a0) (u64 r)) -> resumed s1 (returned s) r.
Proof.
  intros Es. assert (Hk : kram s = store64 (kram s1) (tf_of s1 + TF_a0) (u64 r)) by (by rewrite Es).
  assert (Ht : tf_of s = tf_of s1) by (by rewrite Es). assert (Hc : csrs s = csrs s1) by (by rewrite Es).
  destruct (ret_sstatus_bits (sstatus (csrs s))) as (B1 & B2 & B3). destruct (kernel_words_saved s (kram s)) as (W1 & W2 & W3 & W4).
  assert (Hr : kram (returned s) = kernel_words s (kram s)) by done. rewrite <- Hr in W1, W2, W3, W4.
  assert (Ho : forall o, 24 <= o < 32 \/ 40 <= o -> kram (returned s) (tf_of s1 + o) = kram s (tf_of s1 + o)) by (intros o Ho; rewrite Hr, <- Ht; by apply kernel_words_other).
  assert (Hl : forall o, o = 24 \/ 40 <= o -> load64 (kram (returned s)) (tf_of s1 + o) = load64 (kram s) (tf_of s1 + o)) by (intros o Hl; rewrite Hr, <- Ht; by apply kernel_words_load).
  rewrite Ht, Hc in *. split; auto.
  - rewrite Hl by (unfold TF_a0; lia). rewrite Hk, load_store64. unfold u64. by rewrite Zmod_mod.
  - intros o H1 H2. rewrite Ho by lia. rewrite Hk. apply store64_outside. lia.
  - intros a Ha. rewrite Hr, kernel_words_outside by (rewrite Ht; unfold TF_size in Ha; lia). rewrite Hk. apply store64_outside. unfold TF_size, TF_a0 in *. lia.
  - change (sepc (csrs (returned s))) with (load64 (kram s) (tf_of s + TF_epc)). rewrite Ht, Hk. apply load_store64_other. unfold TF_epc, TF_a0. lia.
  - change (sstatus (csrs (returned s))) with (ret_sstatus (sstatus (csrs s))). by rewrite Hc.
  - change (sstatus (csrs (returned s))) with (ret_sstatus (sstatus (csrs s))). by rewrite Hc.
  - change (sstatus (csrs (returned s))) with (ret_sstatus (sstatus (csrs s))). by rewrite Hc.
  - by rewrite W2, Es.
  - rewrite Es. done.
Qed.

Lemma entered_other s a : ~ tf_of s + TF_epc <= a < tf_of s + TF_epc + 8 -> kram (entered s) a = kram s a.
Proof.
  intros Ha. change (store64 (store64 (kram s) (tf_of s + TF_epc) (sepc (csrs s))) (tf_of s + TF_epc) (u64 (u64 (sepc (csrs s)) + 4)) a = kram s a).
  by rewrite !store64_outside by lia.
Qed.

(** C16: a system call returns to the instruction behind it.  For an [ecall] of a process
    that is not killed, [usertrap] runs the handler that the table holds for the number in
    [a7], with interrupts on and the saved program counter moved on by 4; its result
    goes into [a0], the other saved user registers are as the handler left them, and the
    process resumes at the program counter of its trapframe, in its page table, in user
    mode with interrupts on; the trapframe has the kernel's page table, stack, entry and
    hart for the next trap. *)
Theorem usertrap_syscall s call r s1 :
  Z.land (sstatus (csrs s)) SSTATUS_SPP = 0 -> scause (csrs s) = 8 -> p_killed (procs s (cur s)) = false ->
  syscalls (s32 (load64 (kram s) (tf_of s + TF_a7))) = Some call ->
  call (entered s) = Ok r s1 -> cur s1 = cur s -> p_killed (procs s1 (cur s1)) = false ->
  load64 (kram (entered s)) (tf_of s + TF_epc) = u64 (sepc (csrs s) + 4) /\
  (forall a, ~ tf_of s + TF_epc <= a < tf_of s + TF_epc + 8 -> kram (entered s) a = kram s a) /\
  exists s', usertrap s = Ok (TRAPFRAME, MAKE_SATP (p_pagetable (procs s1 (cur s1)))) s' /\ resumed s1 s' r.
Proof.
  intros Hspp Hc Hk Hn E Hcur Hk1. split; [|split].
  - change (kram (entered s)) with (store64 (store64 (kram s) (tf_of s + TF_epc) (sepc (csrs s))) (tf_of s + TF_epc) (u64 (u64 (sepc (csrs s)) + 4))).
    rewrite load_store64. unfold u64. by rewrite !Zmod_mod, Zplus_mod_idemp_l.
  - intros a. apply entered_other.
  - set (s2 := set_ram s1 (store64 (kram s1) (tf_of s1 + TF_a0) (u64 r))). exists (returned s2). split; [|by apply resumed_spec].
    assert (E2 : syscall end_ trampoline forkret_ dv ntas (entered s) = Ok tt s2) by (apply (syscall_spec (entered s) call r s1); [|exact E|exact Hcur]; rewrite (load64_ext _ (kram s)); [exact Hn|intros x Hx; apply entered_other; change (tf_of (entered s)) with (tf_of s) in Hx; unfold TF_a7, TF_epc in *; lia]).
    unfold Trap.usertrap. rewrite (bind_Ok _ _ _ _ _ (eq_refl : rd sstatus s = Ok (sstatus (csrs s)) s)), Hspp. cbn [negb Z.eqb].
    set (sa := s <| csrs := (csrs s) <| stvec := kernelvec |> |>).
    rewrite (bind_Ok _ _ _ _ _ (eq_refl : w_stvec kernelvec s = Ok tt sa)), (bind_Ok _ _ _ _ _ (eq_refl : myproc sa = Ok (cur s) sa)).
    rewrite (bind_Ok _ _ _ _ _ (eq_refl : rd sepc sa = Ok (sepc (csrs s)) sa)), (bind_Ok _ _ _ _ _ (tf_store_me sa (cur s) TF_epc (sepc (csrs s)) eq_refl)).
    set (sb := set_ram sa _). rewrite (bind_Ok _ _ _ _ _ (eq_refl : rd scause sb = Ok (scause (csrs s)) sb)), Hc. cbn [Z.eqb Pos.eqb].
    assert (Ek : forall t, p_killed (procs t (cur s)) = false -> exit_if_killed end_ (cur s) t = Ok tt t) by (intros t Ht; unfold exit_if_killed, bind, get_proc, gets; by rewrite Ht).
    rewrite (bind_Ok _ _ sb 0 s2).
    2:{ rewrite (bind_Ok _ _ _ _ _ (Ek sb Hk)), (bind_Ok _ _ _ _ _ (tf_load_me sb (cur s) TF_epc eq_refl)).
        rewrite (bind_Ok _ _ _ _ _ (tf_store_me sb (cur s) TF_epc _ eq_refl)).
        change (load64 (kram sb) (tf_of sb + TF_epc)) with (load64 (store64 (kram s) (tf_of s + TF_epc) (sepc (csrs s))) (tf_of s + TF_epc)).
        rewrite load_store64. rewrite (bind_Ok _ _ _ _ _ (eq_refl : k_intr_on (set_ram sb _) = Ok tt (entered s))), (bind_Ok _ _ _ _ _ E2). done. }
    rewrite (bind_Ok _ _ _ _ _ (Ek s2 ltac:(rewrite <- Hcur; exact Hk1))). cbn [Z.eqb]. rewrite (bind_Ok _ _ _ _ _ (eq_refl : ret tt s2 = Ok tt s2)), usertrapret_spec. done.
Qed.

End TrapProps.

(** ** [getpid] *)

(** Process 7 has executed [ecall] at 1000 with 11 in [a7]. *)
Definition ecall_sample (b : lst) : kst lst :=
  (boot_kst (demo b T_FILE (Kmem false 0 (store64 (fun _ => 0) (KERNBASE + TF_a7) 11)) 0)) <| cur := 1 |>
    <| procs := upd (fun _ => zero_proc) 1 (zero_proc <| p_state := RUNNING |> <| p_pid := 7 |> <| p_tf := KERNBASE |>) |>
    <| csrs := Csr 0 1000 8 0 0 0 0 0 [] [] |>.

Lemma usertrap_syscall_witness : exists (s s' : kst lst) r,
  usertrap PHYSTOP KERNBASE 0 KERNBASE KERNBASE KERNBASE console_devsw (fun _ => ret tt) (fun _ => ret 0) s = Ok r s' /\
  sepc (csrs s) = 1000 /\ sepc (csrs s') = 1004 /\ load64 (kram s') (KERNBASE + TF_a0) = 7.
Proof.
  destruct demo_blocks as [b _]. set (s := ecall_sample b).
  destruct (usertrap_syscall PHYSTOP KERNBASE 0 KERNBASE KERNBASE KERNBASE console_devsw (fun _ => ret tt) (fun _ => ret 0) s sys_getpid 7 (entered KERNBASE s))
    as (E1 & _ & s' & E & R).
  - done.
  - done.
  - done.
  - by vm_compute.
  - done.
  - done.
  - done.
  - eexists s, s', _. split; [exact E|]. split; [done|]. destruct R as [R1 _ _ R2 _ _ _ _ _ _ _ _ _]. split; [rewrite R2; exact E1|exact R1].
Defined.
