(* ===== verification/FdFrame.v ===== *)
(** * What leaves the open files alone

    Most routines of the kernel change neither the descriptors of a process nor the
    reference counts of the open files.  [kp P m] says so of [m], run by a process for
    which [P] holds; the tactic [kp] derives it along the structure of a
    definition. *)
From stdpp Require Import base list gmap strings.
From Stdlib Require Import ZArith Lia.
From S2P Require Import Prelude KString Riscv Kalloc Vm Sleeplock Bio Log Blocks Fs Kernel Pipe Proc Console Syscall Exec Sysfile.

#[local] Open Scope Z_scope.
#[local] Open Scope xv6_scope.

Create HintDb frame discriminated.
#[export] Hint Constants Opaque : frame.
#[export] Hint Variables Opaque : frame.

(** An entry of the process table that holds no descriptors. *)
Definition dead (x : proc) : Prop := p_state x = UNUSED \/ p_state x = ZOMBIE.

(** ** Memory routines do not sleep *)

Definition no_sleep {S A} (m : M S A) : Prop := forall s, match m s with Sleep _ _ => False | _ => True end.

Section NoSleep.

Context {S : Type}.

Lemma ns_bind {A B} (m : M S A) (k : A -> M S B) : no_sleep m -> (forall a, no_sleep (k a)) -> no_sleep (bind m k).
Proof. intros H1 H2 s. specialize (H1 s). unfold bind. destruct (m s); [apply H2|done..]. Qed.

Lemma ns_while {A B} (f : A -> M S (A + B)) a : (forall a, no_sleep (f a)) -> no_sleep (while_ f a).
Proof.
  intros H. unfold while_. assert (Hi : forall p r, no_sleep (iter_pos p f r)).
  { induction p as [p IH|p IH|]; intros [x|b]; cbn [iter_pos]; try done.
    - apply ns_bind; [apply H|]. intros r. apply ns_bind; auto.
    - apply ns_bind; auto. }
  apply ns_bind; [apply Hi|]. by intros [x|b].
Qed.

Lemma ns_acquire (lk : S -> bool) `{!FieldUpdate lk} : no_sleep (acquire lk).
Proof. intros s. unfold acquire. by destruct (lk s). Qed.

Lemma ns_release (lk : S -> bool) `{!FieldUpdate lk} : no_sleep (release lk).
Proof. intros s. unfold release. by destruct (lk s). Qed.

End NoSleep.

#[export] Hint Resolve ns_acquire ns_release : frame.

Ltac ns := repeat (cbv zeta beta; match goal with
  | |- no_sleep (bind _ _) => apply ns_bind; [|intros]
  | |- no_sleep (while_ _ _) => apply ns_while; intros
  | |- no_sleep (ret _) => intros ?; exact I
  | |- no_sleep (gets _) => intros ?; exact I
  | |- no_sleep (modify _) => intros ?; exact I
  | |- no_sleep (panic _) => intros ?; exact I
  | |- no_sleep (match ?x with _ => _ end) => destruct x
  | |- _ => solve [auto with frame nocore]
  end).

Section Mem.

Context (end_ : Z).

Lemma ns_kfree pa : no_sleep (kfree end_ pa).
Proof. unfold kfree. ns. Qed.

Lemma ns_kalloc : no_sleep kalloc.
Proof. unfold kalloc. ns. Qed.

#[local] Hint Resolve ns_kfree ns_kalloc : frame.

Lemma ns_walk pt va alloc : no_sleep (walk pt va alloc).
Proof.
  assert (H : forall l pt, no_sleep (walk_loop l pt va alloc)) by (induction l; intros; cbn [walk_loop]; unfold walk_level, load_pte, store_pte, clear_page; ns).
  unfold walk. ns.
Qed.

#[local] Hint Resolve ns_walk : frame.

Lemma ns_walkaddr pt va : no_sleep (walkaddr pt va).
Proof. unfold walkaddr, load_pte. ns. Qed.

Lemma ns_mappages pt va sz pa perm : no_sleep (mappages pt va sz pa perm).
Proof. unfold mappages, map_page, load_pte, store_pte. ns. Qed.

Lemma ns_uvmunmap pt va sz f : no_sleep (uvmunmap end_ pt va sz f).
Proof. unfold uvmunmap, unmap_page, load_pte, store_pte. ns. Qed.

Lemma ns_uvmcreate : no_sleep uvmcreate.
Proof. unfold uvmcreate, clear_page. ns. Qed.

#[local] Hint Resolve ns_walkaddr ns_mappages ns_uvmunmap : frame.

Lemma ns_uvmdealloc pt a b : no_sleep (uvmdealloc end_ pt a b).
Proof. unfold uvmdealloc. ns. Qed.

#[local] Hint Resolve ns_uvmdealloc : frame.

Lemma ns_uvmalloc pt a b : no_sleep (uvmalloc end_ pt a b).
Proof. unfold uvmalloc, alloc_page, clear_page. ns. Qed.

Lemma ns_freewalk d : forall pt, no_sleep (freewalk end_ d pt).
Proof.
  induction d as [|d IH]; intros pt; cbn [freewalk]; [done|]. apply ns_bind; [|auto with frame].
  generalize 0. generalize 512%nat. induction n as [|n IHn]; intros i; cbn [free_entries]; [done|]. unfold load_pte, store_pte. ns.
Qed.

#[local] Hint Resolve ns_freewalk : frame.

Lemma ns_proc_freepagetable pt sz : no_sleep (proc_freepagetable end_ pt sz).
Proof. unfold proc_freepagetable, uvmfree. ns. Qed.

Lemma ns_uvmcopy old new sz : no_sleep (uvmcopy end_ old new sz).
Proof. unfold uvmcopy, copy_page, load_pte. ns. Qed.

Lemma ns_uvmclear pt va : no_sleep (uvmclear pt va).
Proof. unfold uvmclear, load_pte, store_pte. ns. Qed.

Lemma ns_copyout pt va src n : no_sleep (copyout pt va src n).
Proof. unfold copyout, copyout_page. ns. Qed.

Lemma ns_copyin pt va n : no_sleep (copyin pt va n).
Proof. unfold copyin, copyin_page. ns. Qed.

Lemma ns_copyinstr pt va n : no_sleep (copyinstr pt va n).
Proof. unfold copyinstr, copyinstr_page. ns. Qed.

End Mem.

#[export] Hint Resolve ns_kfree ns_kalloc ns_walkaddr ns_mappages ns_uvmcreate ns_uvmdealloc ns_uvmalloc ns_proc_freepagetable
  ns_uvmcopy ns_uvmclear ns_copyout ns_copyin ns_copyinstr : frame.

Section Frame.

Context {S : Type} {L : BlockLayer S} {O : OpLayer S}.

Abbreviation K := (M (kst S)).

(** The process [cur] runs; it has gone to sleep. *)
Definition on_cpu (s : kst S) : Prop := p_state (procs s (cur s)) = RUNNING.
Definition asleep (s : kst S) : Prop := p_state (procs s (cur s)) = SLEEPING.

(** [y] has the descriptors of [x], and is dead when [x] is. *)
Definition same_fds (x y : proc) : Prop := p_ofile y = p_ofile x /\ (dead y <-> dead x).

Record frame (s s' : kst S) : Prop := {
  fr_cur : cur s' = cur s;
  fr_me : p_state (procs s' (cur s)) = p_state (procs s (cur s));
  fr_fds : forall p, same_fds (procs s p) (procs s' p);
  fr_ref : forall f, f_ref (files s' f) = f_ref (files s f);
}.

Lemma frame_refl s : frame s s.
Proof. by split. Qed.

Lemma frame_trans s s1 s2 : frame s s1 -> frame s1 s2 -> frame s s2.
Proof.
  intros [A1 A2 A3 A4] [B1 B2 B3 B4]. rewrite A1 in *. split; try congruence.
  intros p. destruct (A3 p) as [C1 C2], (B3 p) as [D1 D2]. split; [congruence|tauto].
Qed.

Lemma frame_on_cpu s s' : frame s s' -> on_cpu s -> on_cpu s'.
Proof. intros [E1 E2 _ _] H. unfold on_cpu in *. by rewrite E1, E2. Qed.

Definition kp {A} (P : kst S -> Prop) (m : K A) : Prop := forall s, on_cpu s -> P s ->
  match m s with Ok _ s' => frame s s' | Panic _ => True | Sleep _ s' => asleep s' end.

(** A condition that such routines preserve. *)
Definition stable (P : kst S -> Prop) : Prop := forall s s', frame s s' -> P s -> P s'.

Abbreviation keeps := (kp (fun _ => True)).

Lemma kp_weaken {A} (P Q : kst S -> Prop) (m : K A) : kp Q m -> (forall s, P s -> Q s) -> kp P m.
Proof. intros H HP s Hr Hs. apply H; auto. Qed.

Lemma kp_keeps {A} P (m : K A) : keeps m -> kp P m.
Proof. intros H. by apply (kp_weaken _ _ _ H). Qed.

Lemma kp_bind {A B} P (m : K A) (k : A -> K B) : stable P -> kp P m -> (forall a, kp P (k a)) -> kp P (bind m k).
Proof.
  intros HP H1 H2 s Hr Hs. specialize (H1 s Hr Hs). unfold bind. destruct (m s) as [a s'| |]; [|done..].
  specialize (H2 a s' (frame_on_cpu _ _ H1 Hr) (HP _ _ H1 Hs)). destruct (k a s'); [|done..]. by eapply frame_trans.
Qed.

Lemma stable_True : stable (fun _ => True).
Proof. done. Qed.

Lemma kp_get {A B} P (f : kst S -> A) (k : A -> K B) : (forall a, kp (fun s => P s /\ f s = a) (k a)) -> kp P (bind (gets f) k).
Proof. intros H s Hr Hs. unfold bind, gets. by apply H. Qed.

(** The condition is needed for the first part only. *)
Lemma kp_seq {A B} P (m : K A) (k : A -> K B) : kp P m -> (forall a, keeps (k a)) -> kp P (bind m k).
Proof.
  intros H1 H2 s Hr Hs. specialize (H1 s Hr Hs). unfold bind. destruct (m s) as [a s'| |]; [|done..].
  specialize (H2 a s' (frame_on_cpu _ _ H1 Hr) I). destruct (k a s'); [|done..]. by eapply frame_trans.
Qed.

Lemma kp_ret {A} P (a : A) : kp P (ret a).
Proof. intros s _ _. apply frame_refl. Qed.

Lemma kp_gets {A} P (f : kst S -> A) : kp P (gets f).
Proof. intros s _ _. apply frame_refl. Qed.

Lemma kp_panic {A} P msg : kp P (panic msg : K A).
Proof. by intros s. Qed.

Lemma kp_modify P f : (forall s, on_cpu s -> P s -> frame s (f s)) -> kp P (modify f).
Proof. intros H s Hr Hs. by apply H. Qed.

(** The state after a change is known. *)
Lemma kp_modify_then {B} (P Q : kst S -> Prop) f (k : unit -> K B) :
  (forall s, on_cpu s -> P s -> frame s (f s) /\ Q (f s)) -> kp Q (k tt) -> kp P (bind (modify f) k).
Proof.
  intros H1 H2 s Hr Hs. unfold bind, modify. destruct (H1 s Hr Hs) as [F Hq]. specialize (H2 (f s) (frame_on_cpu _ _ F Hr) Hq).
  destruct (k tt (f s)); [|done..]. by eapply frame_trans.
Qed.

Lemma kp_each {A} P (l : list A) (f : A -> K unit) : stable P -> (forall a, a ∈ l -> kp P (f a)) -> kp P (each l f).
Proof.
  intros HP. induction l as [|a l IH]; intros H; cbn [each]; [apply kp_ret|].
  apply kp_bind; [done|apply H; by left|]. intros _. apply IH. intros b Hb. apply H. by right.
Qed.

Lemma kp_search {A B} P (l : list A) (f : A -> K (option B)) : stable P -> (forall a, a ∈ l -> kp P (f a)) -> kp P (search l f).
Proof.
  intros HP. induction l as [|a l IH]; intros H; cbn [search]; [apply kp_ret|].
  apply kp_bind; [done|apply H; by left|]. intros [b|]; [apply kp_ret|]. apply IH. intros b Hb. apply H. by right.
Qed.

Lemma kp_while {A B} P (f : A -> K (A + B)) a : stable P -> (forall a, kp P (f a)) -> kp P (while_ f a).
Proof.
  intros HP H. unfold while_. assert (Hi : forall p r, kp P (iter_pos p f r)).
  { induction p as [p IH|p IH|]; intros [x|b]; cbn [iter_pos]; try apply kp_ret; [| |apply H].
    - apply kp_bind; [done|apply H|]. intros r. apply kp_bind; auto.
    - apply kp_bind; auto. }
  apply kp_bind; [done|apply Hi|]. intros [x|b]; [apply kp_panic|apply kp_ret].
Qed.

(** ** The primitives *)

(** A change of the state that does not touch processes and files. *)
Lemma frame_rest s s' : cur s' = cur s -> procs s' = procs s -> files s' = files s -> frame s s'.
Proof. intros E1 E2 E3. split; rewrite ?E2, ?E3; auto. by intros p. Qed.

Lemma frame_proc s p x : same_fds (procs s p) x -> (p = cur s -> p_state x = p_state (procs s p)) -> frame s (s <| procs := upd (procs s) p x |>).
Proof.
  intros H1 H2. split; try done.
  - cbn. destruct (decide (p = cur s)) as [->|]; [rewrite upd_same; auto|by rewrite upd_other].
  - intros q. cbn. destruct (decide (q = p)) as [->|]; [by rewrite upd_same|by rewrite upd_other].
Qed.

(** A change of a process but for its descriptors and its state. *)
Lemma kp_set_proc P p f : (forall x, p_ofile (f x) = p_ofile x /\ p_state (f x) = p_state x) -> kp P (set_proc p f).
Proof.
  intros H. apply kp_modify. intros s _ _. destruct (H (procs s p)) as [H1 H2]. apply frame_proc; [|done].
  split; [done|]. unfold dead. by rewrite H2.
Qed.

Lemma kp_set_file P f g : (forall x, f_ref (g x) = f_ref x) -> kp P (set_file f g).
Proof.
  intros H. apply kp_modify. intros s _ _. split; try done. intros h. cbn.
  destruct (decide (h = f)) as [->|]; [by rewrite upd_same|by rewrite upd_other].
Qed.

Lemma kp_lock_on P get put : (forall b s, frame s (put b s)) -> kp P (lock_on get put).
Proof. intros H s _ _. unfold lock_on. destruct (get s); [done|]. apply (frame_trans _ (put true s)); [apply H|by apply frame_rest]. Qed.

Lemma kp_lock_off P get put : (forall b s, frame s (put b s)) -> kp P (lock_off get put).
Proof. intros H s _ _. unfold lock_off. destruct (get s); [|done]. apply (frame_trans _ (put false s)); [apply H|by apply frame_rest]. Qed.

Lemma frame_plock b p s : frame s (s <| procs := upd (procs s) p ((procs s p) <| p_lock := b |>) |>).
Proof. by apply frame_proc. Qed.

Lemma kp_plock P p : kp P (plock p).
Proof. apply kp_lock_on. intros. apply frame_plock. Qed.

Lemma kp_punlock P p : kp P (punlock p).
Proof. apply kp_lock_off. intros. apply frame_plock. Qed.

Lemma kp_locks P pi : kp P (pilock pi) /\ kp P (piunlock pi) /\ kp P ftlock /\ kp P ftunlock /\ kp P pidlock /\ kp P pidunlock /\
  kp P tlock /\ kp P tunlock /\ kp P clock /\ kp P cunlock /\ kp P prlock /\ kp P prunlock.
Proof. split_and!; (apply kp_lock_on || apply kp_lock_off); intros; by apply frame_rest. Qed.

(** A sleeping process becomes runnable. *)
Lemma kp_awake P p : (forall s, P s -> p_state (procs s p) = SLEEPING) -> kp P (set_proc p (fun x => x <| p_state := RUNNABLE |>)).
Proof.
  intros H. apply kp_modify. intros s Hr Hs. specialize (H s Hs). apply frame_proc.
  - split; [done|]. unfold dead. cbn. rewrite H. naive_solver.
  - intros ->. unfold on_cpu in Hr. congruence.
Qed.

Lemma kp_wake_one c p : keeps (wake_one c p).
Proof.
  apply kp_seq; [apply kp_plock|]. intros _. apply kp_get. intros x. apply kp_seq; [|intros _; apply kp_punlock].
  case_decide as E; [|apply kp_ret]. destruct (on_chan c x); [|apply kp_ret]. apply kp_awake. intros s [_ Hx]. congruence.
Qed.

Lemma kp_wakeup c : keeps (wakeup c).
Proof. apply kp_each; [done|]. intros p _. apply kp_wake_one. Qed.

Lemma sched_out {A} c (s : kst S) : match sched c s : outcome (kst S) A with Ok _ _ => False | Panic _ => True | Sleep _ s' => s' = s end.
Proof.
  unfold sched, bind, myproc, get_proc, gets. destruct (negb (p_lock _)); [done|]. destruct (negb (_ =? 1)); [done|]. by destruct (decide _).
Qed.

Lemma kp_sleep {A} c u : match u with Some u => keeps u | None => True end -> keeps (sleep c u : K A).
Proof.
  intros Hu s Hr _. unfold sleep, myproc. unfold bind at 1, gets.
  assert (H : keeps (match u with Some u => (plock (cur s) ;; u)%xv6 | None => ret tt end)).
  { destruct u as [u|]; [|apply kp_ret]. apply kp_seq; [apply kp_plock|by intros _]. }
  specialize (H s Hr I). unfold bind at 1. set (mu := match u with Some u => (plock (cur s) ;; u)%xv6 | None => ret tt end) in *. destruct (mu s) as [[] s1| |]; [|done..].
  unfold set_proc, modify. unfold bind at 1 2. set (s2 := s1 <| procs := _ |> <| procs := _ |>). pose proof (sched_out (A := A) c s2) as Hs.
  destruct (sched c s2) as [| |c' s']; [done..|]. rewrite Hs. unfold asleep, s2. cbn. by rewrite (fr_cur _ _ H), upd_same.
Qed.

Lemma kp_in_fs {A} P (m : M (fst S) A) : kp P (in_fs m).
Proof.
  apply kp_keeps. intros s Hr _. unfold in_fs. assert (Hw : forall ws, keeps (each ws wakeup)) by (intros ws; apply kp_each; [done|]; intros c _; apply kp_wakeup).
  assert (Hfr : forall f, frame s (s <| kfs := f |>)) by (intros; by apply frame_rest).
  destruct (m (fs_view s)) as [a f| |c f]; [| |]; [|done|].
  - assert (H : keeps (each (ol_wakes (blk f) ++ rev (fs_wakes f)) wakeup ;; ret a)%xv6) by (apply kp_seq; [apply Hw|intros; apply kp_ret]).
    specialize (H (s <| kfs := f |>) Hr I). destruct (bind _ _ _); [|done..]. by eapply frame_trans.
  - assert (H : keeps (each (ol_wakes (blk f) ++ rev (fs_wakes f)) wakeup ;; (sleep c (Some (ret tt)) : K A))%xv6) by (apply kp_seq; [apply Hw|intros; apply kp_sleep; apply kp_ret]).
    specialize (H (s <| kfs := f |>) Hr I). destruct (bind _ _ _); [|done..]. by eapply frame_trans.
Qed.

Lemma kp_in_kmem {A} P (m : M kmem A) : no_sleep m -> kp P (in_kmem m).
Proof. intros H s Hr _. unfold in_kmem, zoom. specialize (H (fs_mem (kfs s))). by destruct (m _); [apply frame_rest|..]. Qed.

Lemma kp_set_pipe P pi g : kp P (set_pipe pi g).
Proof. apply kp_modify. intros. by apply frame_rest. Qed.

Lemma kp_set_con P g : kp P (set_con g).
Proof. apply kp_modify. intros. by apply frame_rest. Qed.

Lemma kp_pilock P pi : kp P (pilock pi). Proof. by destruct (kp_locks P pi). Qed.
Lemma kp_piunlock P pi : kp P (piunlock pi). Proof. apply kp_locks. Qed.
Lemma kp_ftlock P : kp P ftlock. Proof. apply (kp_locks P 0). Qed.
Lemma kp_ftunlock P : kp P ftunlock. Proof. apply (kp_locks P 0). Qed.
Lemma kp_pidlock P : kp P pidlock. Proof. apply (kp_locks P 0). Qed.
Lemma kp_pidunlock P : kp P pidunlock. Proof. apply (kp_locks P 0). Qed.
Lemma kp_tlock P : kp P tlock. Proof. apply (kp_locks P 0). Qed.
Lemma kp_tunlock P : kp P tunlock. Proof. apply (kp_locks P 0). Qed.
Lemma kp_clock P : kp P clock. Proof. apply (kp_locks P 0). Qed.
Lemma kp_cunlock P : kp P cunlock. Proof. apply (kp_locks P 0). Qed.
Lemma kp_prlock P : kp P prlock. Proof. apply (kp_locks P 0). Qed.
Lemma kp_prunlock P : kp P prunlock. Proof. apply (kp_locks P 0). Qed.

End Frame.

Abbreviation keeps := (kp (fun _ => True)).

#[export] Hint Resolve kp_plock kp_punlock kp_pilock kp_piunlock kp_ftlock kp_ftunlock kp_pidlock kp_pidunlock kp_tlock kp_tunlock
  kp_clock kp_cunlock kp_prlock kp_prunlock kp_set_pipe kp_set_con kp_wakeup kp_in_fs : frame.

(** Along the structure of a routine. *)
Ltac kp_step := cbv zeta beta; match goal with
  | |- kp (fun _ => True) (bind _ _) => apply kp_seq; [|intros]
  | |- kp _ (bind _ _) => apply kp_bind; [auto with frame nocore| |intros]
  | |- kp _ (ret _) => apply kp_ret
  | |- kp _ (gets _) => apply kp_gets
  | |- kp _ (panic _) => apply kp_panic
  | |- kp _ myproc => apply kp_gets
  | |- kp _ (get_proc _) => apply kp_gets
  | |- kp _ (get_file _) => apply kp_gets
  | |- kp _ (get_pipe _) => apply kp_gets
  | |- kp _ (get_ofile _ _) => apply kp_gets
  | |- kp _ (kinode _) => apply kp_gets
  | |- kp _ (begin_op _) => apply kp_in_fs
  | |- kp _ (end_op _) => apply kp_in_fs
  | |- kp _ (set_kinode _ _) => apply kp_in_fs
  | |- kp _ (set_proc _ _) => apply kp_set_proc; intros; split; reflexivity
  | |- kp _ (set_file _ _) => apply kp_set_file; intros; reflexivity
  | |- kp _ (modify _) => apply kp_modify; intros; apply frame_rest; reflexivity
  | |- kp _ (in_kmem _) => apply kp_in_kmem; ns
  | |- kp _ (each _ _) => apply kp_each; [auto with frame nocore|intros ? _]
  | |- kp _ (search _ _) => apply kp_search; [auto with frame nocore|intros ? _]
  | |- kp _ (while_ _ _) => apply kp_while; [auto with frame nocore|intros]
  | |- kp _ (match (match ?x with _ => _ end) with _ => _ end) => destruct x
  | |- kp _ (match ?x with _ => _ end) => destruct x
  | |- kp _ _ => solve [auto with frame nocore]
  | |- kp (fun _ => True) (sleep _ (Some _)) => apply kp_sleep
  | |- kp (fun _ => True) (sleep _ None) => apply kp_sleep; exact I
  | |- kp _ _ => apply kp_keeps
  end.
Ltac kp := repeat kp_step.

#[export] Hint Resolve stable_True : frame.

Section Keeps.

Context (end_ trampoline forkret_ : Z) {S : Type} {L : BlockLayer S} {O : OpLayer S}.

Abbreviation K := (M (kst S)).

(** ** [pipe.c], [file.c] and the console *)

Lemma kp_pipeclose pi w : keeps (pipeclose end_ pi w : K unit).
Proof. unfold pipeclose. kp. Qed.

Lemma kp_pipewrite pi addr n : keeps (pipewrite pi addr n : K Z).
Proof. unfold pipewrite, pipewrite_byte. kp. Qed.

Lemma kp_piperead pi addr n : keeps (piperead pi addr n : K Z).
Proof. unfold piperead, piperead_byte. kp. Qed.

Lemma kp_filestat f addr : keeps (filestat f addr : K Z).
Proof. unfold filestat. kp. Qed.

Lemma kp_consputc c : keeps (consputc c : K unit).
Proof. unfold consputc, uartputc. kp. Qed.

#[local] Hint Resolve kp_consputc : frame.

Lemma kp_consolewrite b src n : keeps (consolewrite b src n : K Z).
Proof. unfold consolewrite, consolewrite_byte. kp. Qed.

Lemma kp_consoleread b dst n : keeps (consoleread b dst n : K Z).
Proof. unfold consoleread, consoleread_byte. kp. Qed.

#[local] Hint Resolve kp_pipewrite kp_piperead kp_consolewrite kp_consoleread : frame.

Lemma kp_fileread f addr n : keeps (fileread console_devsw f addr n : K Z).
Proof. unfold fileread, console_devsw. cbn [dev_read]. kp. Qed.

Lemma kp_filewrite f addr n : keeps (filewrite console_devsw f addr n : K Z).
Proof. unfold filewrite, filewrite_part, console_devsw. cbn [dev_write]. kp. Qed.

(** ** [proc.c] *)

Lemma kp_tf_load p off : keeps (tf_load p off : K Z).
Proof. unfold tf_load. kp. Qed.

Lemma kp_tf_store p off v : keeps (tf_store p off v : K unit).
Proof. unfold tf_store. kp. Qed.

Lemma kp_allocpid : keeps (allocpid : K Z).
Proof. unfold allocpid. kp. Qed.

Lemma kp_proc_pagetable p : keeps (proc_pagetable trampoline p : K Z).
Proof. unfold proc_pagetable. kp. Qed.

Lemma stable_dead p : stable (fun s : kst S => dead (procs s p)).
Proof. intros s s' F H. by apply (fr_fds _ _ F p). Qed.

#[local] Hint Resolve stable_dead : frame.

(** The entry is dead before and after. *)
Lemma kp_freeproc p : kp (fun s : kst S => dead (procs s p)) (freeproc end_ p).
Proof.
  unfold freeproc. kp_step; [kp|]. do 3 (kp_step; [kp|]). apply kp_modify. intros s Hr Hd. apply frame_proc.
  - split; [done|]. unfold dead at 1. cbn. tauto.
  - intros ->. unfold on_cpu in Hr. unfold dead in Hd. rewrite Hr in Hd. naive_solver.
Qed.

Lemma kp_growproc n : keeps (growproc end_ n : K Z).
Proof. unfold growproc. kp. Qed.

Lemma kp_kill_one pid p : keeps (kill_one pid p : K (option Z)).
Proof.
  unfold kill_one. kp_step; [kp|]. apply kp_get. intros x. destruct (p_pid x =? pid); [|apply kp_keeps; kp].
  apply (kp_modify_then _ (fun s => p_state (procs s p) = p_state x)).
  { intros s _ [_ Hx]. split; [by apply frame_proc|]. cbn. by rewrite upd_same, <- Hx. }
  apply kp_seq; [|intros; kp]. case_decide as E; [|apply kp_ret]. apply kp_awake. congruence.
Qed.

Lemma kp_wakeup1 p : keeps (wakeup1 p : K unit).
Proof.
  unfold wakeup1. apply kp_get. intros x. destruct (negb _); [apply kp_panic|]. destruct (on_chan _ _); [|apply kp_ret].
  case_decide; [|apply kp_ret]. apply kp_awake. intros s [_ Hx]. by rewrite Hx.
Qed.

Lemma kp_reparent p : keeps (reparent p : K unit).
Proof. unfold reparent, reparent_one. kp. Qed.

Lemma kp_wait_scan p addr l : forall b, keeps (wait_scan end_ p addr b l : K (Z + bool)).
Proof.
  induction l as [|np l IH]; intros b; cbn [wait_scan]; [kp|]. kp_step; [kp|]. destruct (negb _); [apply IH|]. kp_step; [kp|].
  apply kp_get. intros x. case_decide as E; [|apply kp_keeps; kp; apply IH].
  apply (kp_weaken _ (fun s => dead (procs s np))); [|intros s [_ ->]; by right].
  kp_step; [kp|]. kp_step; [kp|]. destruct (_ <? 0); [apply kp_keeps; kp|]. kp_step; [apply kp_freeproc|apply kp_keeps; kp].
Qed.

Lemma kp_wait addr : keeps (wait end_ addr : K Z).
Proof. pose proof kp_wait_scan. unfold wait. kp. Qed.

Lemma kp_kill pid : keeps (kill pid : K Z).
Proof. pose proof kp_kill_one. unfold kill. kp. Qed.

#[local] Hint Resolve kp_tf_load kp_tf_store kp_proc_pagetable kp_growproc kp_kill kp_wait kp_fileread kp_filewrite kp_filestat : frame.

(** ** System calls *)

Lemma kp_argraw n : keeps (argraw n : K Z).
Proof. unfold argraw. kp. Qed.

#[local] Hint Resolve kp_argraw : frame.

Lemma kp_argint n : keeps (argint n : K Z).
Proof. unfold argint. kp. Qed.

Lemma kp_argaddr n : keeps (argaddr n : K Z).
Proof. apply kp_argraw. Qed.

Lemma kp_fetchaddr a : keeps (fetchaddr a : K (Z * Z)).
Proof. unfold fetchaddr. kp. Qed.

Lemma kp_fetchstr a n : keeps (fetchstr a n : K (Z * list Z)).
Proof. unfold fetchstr. kp. Qed.

#[local] Hint Resolve kp_argint kp_argaddr kp_fetchaddr kp_fetchstr : frame.

Lemma kp_argstr n max : keeps (argstr n max : K (Z * list Z)).
Proof. unfold argstr. kp. Qed.

Lemma kp_argfd n : keeps (argfd n : K (option (Z * Z))).
Proof. unfold argfd. kp. Qed.

#[local] Hint Resolve kp_argstr kp_argfd : frame.

(** The calls that concern processes, and those on files that are open. *)
Lemma kp_sys_proc : keeps (sys_getpid : K Z) /\ keeps (sys_wait end_ : K Z) /\ keeps (sys_sbrk end_ : K Z) /\ keeps (sys_sleep : K Z) /\
  keeps (sys_kill : K Z) /\ keeps (sys_uptime : K Z) /\
  keeps (sys_read console_devsw : K Z) /\ keeps (sys_write console_devsw : K Z) /\ keeps (sys_fstat : K Z).
Proof.
  unfold sys_getpid, sys_wait, sys_sbrk, sys_sleep, sys_sleep_wait, sys_kill, sys_uptime, sys_read, sys_write, sys_fstat. split_and!; kp.
Qed.

Lemma kp_create path type major minor : keeps (create path type major minor : K Z).
Proof. unfold create. kp. Qed.

#[local] Hint Resolve kp_create : frame.

Lemma kp_sys_tree : keeps (sys_chdir : K Z) /\ keeps (sys_mknod : K Z) /\ keeps (sys_unlink : K Z) /\ keeps (sys_link : K Z) /\ keeps (sys_mkdir : K Z).
Proof.
  unfold sys_chdir, sys_mknod, sys_unlink, sys_link, sys_mkdir, put_fail, link_bad, unlink_bad, unlink_entry, isdirempty, isdirempty_step. split_and!; kp.
Qed.

Lemma kp_put_fail ip : keeps (put_fail ip : K Z).
Proof. unfold put_fail. kp. Qed.

Lemma kp_open_inode path omode : keeps (open_inode path omode : K Z).
Proof. unfold open_inode, put_fail. kp. Qed.

(** ** [exec] *)

Lemma kp_load_phs n pt ip : forall off sz, keeps (load_phs end_ n pt ip off sz : K (bool * Z)).
Proof. induction n as [|n IH]; intros off sz; cbn [load_phs]; unfold read_var, load_ph, loadseg, loadseg_page; kp. Qed.

Lemma kp_push_args pt base argv : forall sp argc us, keeps (push_args pt base sp argc argv us : K (option (Z * list Z))).
Proof. induction argv as [|a argv IH]; intros sp argc us; cbn [push_args]; kp. Qed.

Lemma kp_exec path argv : keeps (exec end_ trampoline path argv : K Z).
Proof. pose proof kp_load_phs. pose proof kp_push_args. unfold exec, exec_commit, exec_stack, read_var, exec_bad. kp. Qed.

Lemma kp_exec_args n uargv : forall i argv, keeps (exec_args n uargv i argv : K (bool * list Z)).
Proof. induction n as [|n IH]; intros i argv; cbn [exec_args]; kp. Qed.

Lemma kp_sys_exec : keeps (sys_exec end_ trampoline : K Z).
Proof. pose proof kp_exec. pose proof kp_exec_args. unfold sys_exec. kp. Qed.

End Keeps.
