(* ===== verification/FdRefs.v ===== *)
(** * The reference counts of open files

    [ftable] of [kernel/file.c] counts for every open file the descriptors that refer to
    it.  The counts stay exact through every system call. *)
From stdpp Require Import base list gmap strings.
From Stdlib Require Import ZArith Lia.
From S2P Require Import Prelude KString Riscv Kalloc Vm Sleeplock Bio Log Blocks Fs FsProps Spinlock Kernel Pipe Proc Console Syscall Exec Sysfile Trap FdFrame.

#[local] Open Scope Z_scope.
#[local] Open Scope xv6_scope.

(** The descriptors of [l] that refer to [f]. *)
Definition fd_uses (f : Z) (l : list Z) : Z := Z.of_nat (length (filter (fun g => g = f) l)).

Definition one (f g : Z) : Z := if decide (g = f) then 1 else 0.

Lemma fd_uses_insert f l i g h : l !! i = Some g -> fd_uses f (<[i := h]> l) = fd_uses f l - one f g + one f h.
Proof.
  intros Hi. unfold fd_uses, one. rewrite <- (take_drop_middle l i g Hi) at 2.
  assert (i < length l)%nat by (by eapply lookup_lt_Some). rewrite insert_take_drop by done.
  rewrite !filter_app, !length_app, !filter_cons. repeat case_decide; cbn; lia.
Qed.

Lemma fd_uses_zero f n : f <> 0 -> fd_uses f (replicate n 0) = 0.
Proof. intros Hf. unfold fd_uses. induction n as [|n IH]; [done|]. cbn [replicate]. rewrite filter_cons, decide_False by done. exact IH. Qed.

(** The references to [f] in the process table. *)
Definition fd_count (pr : Z -> proc) (f : Z) : Z := foldr (fun p n => fd_uses f (p_ofile (pr p)) + n) 0 proc_list.

Lemma fd_count_ext pr pr' f : (forall p, p_ofile (pr' p) = p_ofile (pr p)) -> fd_count pr' f = fd_count pr f.
Proof. intros H. unfold fd_count. induction proc_list as [|p l IH]; [done|]. cbn. by rewrite H, IH. Qed.

Lemma fd_count_upd pr p x f : 1 <= p <= NPROC -> fd_count (upd pr p x) f = fd_count pr f - fd_uses f (p_ofile (pr p)) + fd_uses f (p_ofile x).
Proof.
  intros Hp. unfold fd_count. assert (Hin : p ∈ proc_list) by (apply elem_of_zseq; unfold NPROC in *; lia).
  assert (Hnd : NoDup proc_list) by (by apply (bool_decide_unpack _)). revert Hin Hnd. generalize proc_list. clear Hp.
  intros l. assert (Hno : forall l, p ∉ l -> foldr (fun q n => fd_uses f (p_ofile (upd pr p x q)) + n) 0 l = foldr (fun q n => fd_uses f (p_ofile (pr q)) + n) 0 l).
  { clear l. induction l as [|q l IH]; intros Hn; [done|]. apply not_elem_of_cons in Hn as [H1 H2]. cbn. rewrite upd_other by done. by rewrite IH. }
  induction l as [|q l IH]; intros Hin Hnd; [by apply not_elem_of_nil in Hin|]. apply NoDup_cons in Hnd as [Hq Hnd]. cbn.
  apply elem_of_cons in Hin as [->|Hin].
  - rewrite upd_same, Hno by done. lia.
  - rewrite upd_other by (by intros ->). rewrite IH by done. lia.
Qed.

Section FdRefs.

Context (end_ trampoline forkret_ : Z) {S : Type} {L : BlockLayer S} {O : OpLayer S}.

Abbreviation K := (M (kst S)).

(** Every file has as many references as descriptors refer to it, and [d f] more; an entry of the
    table without a process has no descriptors, except for [x]. *)
Record fd_inv (x : Z) (d : Z -> Z) (s : kst S) : Prop := {
  fi_ref : forall f, f <> 0 -> f_ref (files s f) = fd_count (procs s) f + d f;
  fi_len : forall p, 1 <= p <= NPROC -> length (p_ofile (procs s p)) = 16%nat;
  fi_dead : forall p, 1 <= p <= NPROC -> p <> x -> dead (procs s p) -> p_ofile (procs s p) = replicate 16 0;
}.

Definition none (_ : Z) : Z := 0.

(** Process [c] runs and has the descriptors [o]. *)
Record own (c : Z) (o : list Z) (x : Z) (d : Z -> Z) (s : kst S) : Prop := {
  ow_inv : fd_inv x d s;
  ow_cur : cur s = c /\ 1 <= c <= NPROC;
  ow_on : on_cpu s;
  ow_fds : p_ofile (procs s c) = o;
}.

Lemma own_ext c o x d d' s : own c o x d s -> (forall f, f <> 0 -> d f = d' f) -> own c o x d' s.
Proof. intros [[A1 A2 A3] B C E] H. split; auto. split; auto. intros f Hf. rewrite A1 by done. by rewrite H. Qed.

Lemma own_stable c o x d : stable (own c o x d).
Proof.
  intros s s' [F1 F2 F3 F4] [[A1 A2 A3] [B1 B2] C E]. split.
  - split.
    + intros f Hf. rewrite F4, A1 by done. f_equal. symmetry. apply fd_count_ext. intros p. apply F3.
    + intros p Hp. rewrite (proj1 (F3 p)). by apply A2.
    + intros p Hp Hx Hd. rewrite (proj1 (F3 p)). apply A3; auto. by apply F3.
  - split; congruence.
  - unfold on_cpu in *. by rewrite F1, F2.
  - by rewrite (proj1 (F3 c)).
Qed.

(** What a routine establishes when it returns; one that does not return has gone to sleep, or
    has exited. *)
Definition ht {A} (P : kst S -> Prop) (m : K A) (Q : A -> kst S -> Prop) : Prop := forall s, P s ->
  match m s with Ok a s' => Q a s' | Panic _ => True | Sleep _ s' => asleep s' \/ fd_inv 0 none s' end.

Lemma ht_bind {A B} P (m : K A) (k : A -> K B) R Q : ht P m R -> (forall a, ht (R a) (k a) Q) -> ht P (bind m k) Q.
Proof. intros H1 H2 s Hs. specialize (H1 s Hs). unfold bind. destruct (m s) as [a s'| |]; [|done..]. by apply H2. Qed.

Lemma ht_ret {A} (P : kst S -> Prop) (a : A) Q : (forall s, P s -> Q a s) -> ht P (ret a) Q.
Proof. intros H s Hs. by apply H. Qed.

Lemma ht_get {A B} P (f : kst S -> A) (k : A -> K B) Q : (forall a, ht (fun s => P s /\ f s = a) (k a) Q) -> ht P (bind (gets f) k) Q.
Proof. intros H s Hs. unfold bind, gets. by apply H. Qed.

Lemma ht_pre {A} (P P' : kst S -> Prop) (m : K A) Q : ht P' m Q -> (forall s, P s -> P' s) -> ht P m Q.
Proof. intros H HP s Hs. by apply H, HP. Qed.

Lemma ht_post {A} (P : kst S -> Prop) (m : K A) Q Q' : ht P m Q -> (forall a s, Q a s -> Q' a s) -> ht P m Q'.
Proof. intros H HQ s Hs. specialize (H s Hs). destruct (m s); auto. Qed.

Lemma ht_keep {A} P (m : K A) : stable P -> (forall s, P s -> on_cpu s) -> keeps m -> ht P m (fun _ => P).
Proof. intros HP Hon H s Hs. specialize (H s (Hon s Hs) I). destruct (m s); [by eapply HP|done|by left]. Qed.

(** A fact that does not depend on the state. *)
Lemma ht_pure {A} (P : kst S -> Prop) (F : Prop) (m : K A) Q : (F -> ht P m Q) -> ht (fun s => P s /\ F) m Q.
Proof. intros H s [Hs HF]. by apply H. Qed.

Lemma ht_ret_then {A B} P (a : A) (k : A -> K B) Q : ht P (k a) Q -> ht P (bind (ret a) k) Q.
Proof. intros H. exact H. Qed.

Lemma ht_zero {A} (P : kst S -> Prop) z (m1 m2 : K A) Q : (z = 0 -> ht P m1 Q) -> (z <> 0 -> ht P m2 Q) -> ht P (if z =? 0 then m1 else m2) Q.
Proof. intros H1 H2. destruct (Z.eqb_spec z 0); auto. Qed.

Lemma ht_panic {A} P msg Q : ht P (panic msg : K A) Q.
Proof. by intros s. Qed.

Lemma ht_keep_then {A B} c o x d (m : K A) (k : A -> K B) Q : keeps m -> (forall a, ht (own c o x d) (k a) Q) -> ht (own c o x d) (bind m k) Q.
Proof. intros H1 H2. eapply ht_bind; [apply ht_keep; [apply own_stable|intros s' Hs; apply Hs|exact H1]|]. exact H2. Qed.

Lemma ht_my {B} c o x d (k : Z -> K B) Q : ht (own c o x d) (k c) Q -> ht (own c o x d) (bind myproc k) Q.
Proof. intros H. apply ht_get. intros a s [Hs <-]. destruct (ow_cur _ _ _ _ _ Hs) as [-> _]. by apply H. Qed.

Lemma ht_modify {B} (P R : kst S -> Prop) f (k : unit -> K B) Q : (forall s, P s -> R (f s)) -> ht R (k tt) Q -> ht P (bind (modify f) k) Q.
Proof. intros H1 H2 s Hs. unfold bind, modify. by apply H2, H1. Qed.

(** ** Counting *)

(** The count of [f] changes by [n]. *)
Lemma own_file c o x d f g n s : own c o x d s -> f_ref (g (files s f)) = f_ref (files s f) + n ->
  own c o x (fun h => d h + n * one f h) (s <| files := upd (files s) f (g (files s f)) |>).
Proof.
  intros [[A1 A2 A3] B C E] H. split; auto. split; auto. intros h Hh. cbn. unfold one. destruct (decide (h = f)) as [->|].
  - rewrite upd_same, H, A1 by done. lia.
  - rewrite upd_other, A1 by done. lia.
Qed.

Lemma ht_filedup c o x d f : ht (own c o x d) (filedup f) (fun r s => r = f /\ own c o x (fun h => d h + one f h) s).
Proof.
  apply ht_keep_then; [kp|]. intros _. apply ht_get. intros y. destruct (f_ref y <? 1); [apply ht_panic|].
  apply (ht_modify _ (own c o x (fun h => d h + 1 * one f h))); [intros s [Hs _]; by apply own_file|].
  apply ht_keep_then; [kp|]. intros _. apply ht_ret. intros s Hs. split; [done|]. apply (own_ext _ _ _ _ _ _ Hs). intros h _. cbv beta. lia.
Qed.

Lemma ht_fileclose c o x d f : ht (own c o x d) (fileclose end_ f) (fun _ => own c o x (fun h => d h - one f h)).
Proof.
  apply ht_keep_then; [kp|]. intros _. apply ht_get. intros y. destruct (Z.ltb_spec (f_ref y) 1); [apply ht_panic|].
  apply (ht_modify _ (fun s => own c o x (fun h => d h - one f h) s /\ 0 <= f_ref (files s f))).
  { intros s [Hs Hy]. split; [|cbn; rewrite upd_same, Hy; cbn; lia].
    eapply own_ext; [by apply (own_file c o x d f (fun x => x <| f_ref := f_ref x - 1 |>) (-1))|]. intros h _. cbv beta. lia. }
  apply ht_get. intros ff. rewrite Z.gtb_ltb. destruct (Z.ltb_spec 0 (f_ref ff)).
  - eapply ht_pre; [apply ht_keep; [apply own_stable|intros s' Hs; apply Hs|kp]|]. by intros s [[? _] _].
  - apply (ht_modify _ (own c o x (fun h => d h - one f h))).
    { intros s [[Hs Hp] Hff]. eapply own_ext; [apply (own_file c o x (fun h => d h - one f h) f (fun x => x <| f_ref := 0 |> <| f_type := FD_NONE |>) 0); [exact Hs|]|intros h _; cbv beta; lia].
      cbn. rewrite Hff in *. lia. }
    apply ht_keep; [apply own_stable|intros s' Hs; apply Hs|]. pose proof (kp_pipeclose end_ (S := S)). kp.
Qed.

Lemma ht_filealloc c o x d : ht (own c o x d) filealloc (fun f => own c o x (fun h => d h + one f h)).
Proof.
  apply ht_keep_then; [kp|]. intros _.
  eapply (ht_bind _ _ _ (fun r => own c o x (fun h => d h + match r with Some f => one f h | None => 0 end))).
  - assert (Hs : forall l, ht (own c o x d) (search l (fun f => x ← get_file f ;
        if f_ref x =? 0 then set_file f (fun x => x <| f_ref := 1 |>) ;; ftunlock ;; ret (Some f) else ret None))%xv6
        (fun r => own c o x (fun h => d h + match r with Some f => one f h | None => 0 end))).
    { induction l as [|f l IH]; cbn [search]; [apply ht_ret; intros s Hs; apply (own_ext _ _ _ _ _ _ Hs); intros; cbv beta; lia|].
      eapply (ht_bind _ _ _ (fun r => own c o x (fun h => d h + match r with Some f => one f h | None => 0 end))).
      - apply ht_get. intros y. destruct (Z.eqb_spec (f_ref y) 0) as [E|].
        + apply (ht_modify _ (own c o x (fun h => d h + 1 * one f h))).
          { intros s [Hs Hy]. apply (own_file c o x d f (fun x => x <| f_ref := 1 |>)); [done|]. cbn. rewrite Hy, E. done. }
          apply ht_keep_then; [kp|]. intros _. apply ht_ret. intros s Hs. apply (own_ext _ _ _ _ _ _ Hs). intros; cbv beta; lia.
        + apply ht_ret. intros s [Hs _]. apply (own_ext _ _ _ _ _ _ Hs). intros; cbv beta; lia.
      - intros [r|]; [by apply ht_ret|]. eapply ht_pre; [apply IH|]. intros s Hs. apply (own_ext _ _ _ _ _ _ Hs). intros; cbv beta; lia. }
    apply Hs.
  - intros [f|]; [by apply ht_ret|]. apply ht_keep_then; [kp|]. intros _. apply ht_ret. intros s Hs. apply (own_ext _ _ _ _ _ _ Hs).
    intros h Hh. unfold one. rewrite decide_False by done. lia.
Qed.

(** Descriptor [i] changes from [g] to [f]. *)
Lemma own_set c o x d (i : Z) f g s : own c o x d s -> o !! Z.to_nat i = Some g ->
  own c (<[Z.to_nat i := f]> o) x (fun h => d h + one h g - one h f)
    (s <| procs := upd (procs s) c ((procs s c) <| p_ofile := <[Z.to_nat i := f]> (p_ofile (procs s c)) |>) |>).
Proof.
  intros [[A1 A2 A3] [B1 B2] C E] Hg. split; cbn.
  - split; cbn.
    + intros h Hh. rewrite A1, fd_count_upd by done. cbn. rewrite E, (fd_uses_insert h o _ g f) by done. lia.
    + intros p Hp. destruct (decide (p = c)) as [->|]; [rewrite upd_same; cbn; rewrite length_insert|rewrite upd_other by done]; by apply A2.
    + intros p Hp Hx. destruct (decide (p = c)) as [->|]; [rewrite upd_same|rewrite upd_other by done; by apply A3].
      intros Hd. exfalso. unfold on_cpu in C. rewrite B1 in C. unfold dead in Hd. cbn in Hd. rewrite C in Hd. naive_solver.
  - done.
  - unfold on_cpu in *. cbn. rewrite B1 in *. by rewrite upd_same.
  - rewrite upd_same. cbn. by rewrite E.
Qed.

(** ** Descriptors *)

Lemma own_len c o x d s : own c o x d s -> length o = 16%nat.
Proof. intros [[_ A _] [_ B] _ <-]. by apply A. Qed.

Lemma ht_argfd c o x d n : ht (own c o x d) (argfd n) (fun r s => own c o x d s /\
  match r with Some (fd, f) => 0 <= fd < 16 /\ o !! Z.to_nat fd = Some f /\ f <> 0 | None => True end).
Proof.
  apply ht_keep_then; [apply kp_argint|]. intros fd. destruct ((fd <? 0) || (fd >=? NOFILE)) eqn:E; [by apply ht_ret|].
  apply orb_false_iff in E as [E1 E2]. apply Z.ltb_ge in E1. rewrite Z.geb_leb in E2. apply Z.leb_gt in E2. unfold NOFILE in E2.
  apply ht_my, ht_get. intros f. destruct (Z.eqb_spec f 0); apply ht_ret; [by intros s [? _]|]. intros s [Hs Hf]. split; [done|]. split; [lia|]. split; [|done].
  pose proof (own_len _ _ _ _ _ Hs). rewrite (ow_fds _ _ _ _ _ Hs) in Hf. destruct (lookup_lt_is_Some_2 o (Z.to_nat fd)) as [g Hg]; [lia|]. rewrite Hg in Hf. by rewrite <- Hf.
Qed.

Lemma ht_set_ofile {B} P c o x d i f g (k : unit -> K B) Q : (forall s, P s -> own c o x d s) -> o !! Z.to_nat i = Some g ->
  ht (own c (<[Z.to_nat i := f]> o) x (fun h => d h + one h g - one h f)) (k tt) Q -> ht P (bind (set_ofile c i f) k) Q.
Proof. intros HP Hg H. eapply ht_modify; [|exact H]. intros s Hs. apply own_set; auto. Qed.

Lemma ht_fdalloc c o x d f : ht (own c o x d) (fdalloc f) (fun fd s => if decide (fd < 0) then own c o x d s
  else 0 <= fd < 16 /\ o !! Z.to_nat fd = Some 0 /\ own c (<[Z.to_nat fd := f]> o) x (fun h => d h - one h f) s).
Proof.
  apply ht_my. set (Q := fun (r : option Z) s => match r with None => own c o x d s
    | Some fd => 0 <= fd < 16 /\ o !! Z.to_nat fd = Some 0 /\ own c (<[Z.to_nat fd := f]> o) x (fun h => d h - one h f) s end).
  apply (ht_bind _ _ _ Q).
  - assert (Hl : Forall (fun fd => 0 <= fd < 16) (zseq 0 (Z.to_nat NOFILE))) by (apply Forall_forall; intros fd Hfd; apply elem_of_zseq in Hfd; unfold NOFILE in Hfd; lia).
    induction Hl as [|fd l Hfd _ IH]; cbn [search]; [by apply ht_ret|].
    apply (ht_bind _ _ _ Q).
    + apply ht_get. intros g. destruct (Z.eqb_spec g 0) as [->|]; [|by apply ht_ret; intros s [? _]].
      destruct (decide (o !! Z.to_nat fd = Some 0)) as [Hg|Hg].
      * apply (ht_set_ofile _ c o x d fd f 0); [by intros s [? _]|done|]. apply ht_ret. intros s Hs. split; [done|]. split; [done|].
        apply (own_ext _ _ _ _ _ _ Hs). intros h Hh. unfold one. rewrite (decide_False (P := 0 = h)) by congruence. lia.
      * intros s [Hs Hf]. exfalso. pose proof (own_len _ _ _ _ _ Hs). rewrite (ow_fds _ _ _ _ _ Hs) in Hf.
        destruct (lookup_lt_is_Some_2 o (Z.to_nat fd)) as [g Hg']; [lia|]. rewrite Hg' in Hf. cbn in Hf. congruence.
    + intros [r|]; [by apply ht_ret|]. apply IH.
  - intros [fd|]; apply ht_ret; cbn; intros s Hs; [|done]. rewrite decide_False by lia. exact Hs.
Qed.

(** Between two system calls. *)
Definition settled (c : Z) (s : kst S) : Prop := exists o, own c o 0 none s.

Lemma settled_keep {A} c (m : K A) : keeps m -> ht (settled c) m (fun _ => settled c).
Proof.
  intros H s [o Hs]. pose proof (ht_keep _ m (own_stable c o 0 none) (fun s Hs => ow_on _ _ _ _ _ Hs) H s Hs) as H'. destruct (m s); [by exists o|done..].
Qed.

Lemma ht_settled {A} c (m : K A) (Q : A -> kst S -> Prop) : (forall o, ht (own c o 0 none) m Q) -> ht (settled c) m Q.
Proof. intros H s [o Hs]. by apply (H o). Qed.

Lemma own_settled c o d s : own c o 0 d s -> (forall f, f <> 0 -> d f = 0) -> settled c s.
Proof. intros H Hd. exists o. by apply (own_ext _ _ _ _ _ _ H). Qed.

Ltac olia := intros; unfold none, one in *; cbv beta; repeat case_decide; try congruence; lia.

Lemma ht_sys_dup c : ht (settled c) sys_dup (fun _ => settled c).
Proof.
  apply ht_settled. intros o. eapply ht_bind; [apply ht_argfd|]. intros [[fd f]|]; [|apply ht_ret; intros s [Hs _]; by exists o].
  eapply ht_bind; [eapply ht_pre; [apply (ht_fdalloc c o 0 none f)|by intros s [? _]]|]. intros fd'. cbv beta.
  destruct (Z.ltb_spec fd' 0); case_decide; try lia; [apply ht_ret; intros s Hs; by exists o|].
  apply (ht_pre _ (own c (<[Z.to_nat fd' := f]> o) 0 (fun h => none h - one h f))); [|by intros s (? & ? & ?)]. eapply ht_bind; [apply ht_filedup|]. intros r. apply ht_ret. intros s [_ Hs]. apply (own_settled _ _ _ _ Hs). olia.
Qed.

Lemma ht_sys_close c : ht (settled c) (sys_close end_) (fun _ => settled c).
Proof.
  apply ht_settled. intros o. eapply ht_bind; [apply ht_argfd|]. intros [[fd f]|]; [|apply ht_ret; intros s [Hs _]; by exists o].
  apply ht_pure. intros (Hfd & Hf & Hnz). apply ht_my. apply (ht_set_ofile _ c o 0 none fd 0 f); [done|done|].
  eapply ht_bind; [apply ht_fileclose|]. intros []. apply ht_ret. intros s Hs. apply (own_settled _ _ _ _ Hs). olia.
Qed.

Lemma kp_open_file P f ip omode i : kp P (set_file f (open_file ip omode i) : K unit).
Proof. apply kp_set_file. intros y. unfold open_file. by destruct (i_type i =? T_DEVICE). Qed.

Lemma ht_sys_open c : ht (settled c) (sys_open end_) (fun _ => settled c).
Proof.
  apply ht_settled. intros o. assert (Hfail : forall r d, (forall f, f <> 0 -> d f = 0) -> ht (own c o 0 d) (put_fail r) (fun _ => settled c)).
  { intros r d Hd. eapply ht_post; [apply ht_keep; [apply own_stable|intros s Hs; apply Hs|apply kp_put_fail]|]. intros ? s Hs. by apply (own_settled _ _ _ _ Hs). }
  assert (Hret : forall r : Z, ht (own c o 0 none) (ret r) (fun _ => settled c)) by (intros r; apply ht_ret; intros s Hs; by exists o).
  apply ht_keep_then; [apply kp_argstr|]. intros [n path]. destruct (n <? 0); [apply Hret|].
  apply ht_keep_then; [apply kp_argint|]. intros omode. apply ht_keep_then; [apply kp_in_fs|]. intros _.
  apply ht_keep_then; [apply kp_open_inode|]. intros ip. destruct (ip =? 0); [apply Hret|].
  apply ht_keep_then; [apply kp_gets|]. intros i. destruct (_ && _); [by apply Hfail|].
  eapply ht_bind; [apply ht_filealloc|]. intros f. destruct (Z.eqb_spec f 0) as [->|Hnz]; [apply Hfail; olia|].
  eapply ht_bind; [apply ht_fdalloc|]. intros fd. cbv beta. destruct (Z.ltb_spec fd 0); case_decide; try lia.
  - eapply ht_bind; [apply ht_fileclose|]. intros []. apply Hfail. olia.
  - apply (ht_pre _ (own c (<[Z.to_nat fd := f]> o) 0 none)); [|intros s (? & ? & Hs); apply (own_ext _ _ _ _ _ _ Hs); olia].
    apply ht_keep_then; [apply kp_open_file|]. intros _. apply ht_keep_then; [apply kp_in_fs|]. intros _. apply ht_keep_then; [apply kp_in_fs|]. intros _.
    apply ht_ret. intros s Hs. by eexists.
Qed.

(** ** Pipes *)

Lemma ht_close_opt c o x d f : ht (own c o x d) (if f =? 0 then ret tt else fileclose end_ f) (fun _ => own c o x (fun h => d h - one f h)).
Proof.
  destruct (Z.eqb_spec f 0) as [->|]; [|apply ht_fileclose]. apply ht_ret. intros s Hs. apply (own_ext _ _ _ _ _ _ Hs). olia.
Qed.

Lemma ht_pipealloc c o : ht (own c o 0 none) (pipealloc end_) (fun r => match r with
  | Some (f0, f1) => fun s => own c o 0 (fun h => one f0 h + one f1 h) s /\ f0 <> 0 /\ f1 <> 0 | None => own c o 0 none end).
Proof.
  assert (Hbad : forall pi f0 f1 d, (forall f, f <> 0 -> d f = one f0 f + one f1 f) -> ht (own c o 0 d)
    ((if pi =? 0 then ret tt else in_kmem (kfree end_ pi)) ;; (if f0 =? 0 then ret tt else fileclose end_ f0) ;;
     (if f1 =? 0 then ret tt else fileclose end_ f1) ;; ret None)%xv6
    (fun r => match r with Some (f0, f1) => fun s => own c o 0 (fun h => one f0 h + one f1 h) s /\ f0 <> 0 /\ f1 <> 0 | None => own c o 0 none end)).
  { intros pi f0 f1 d Hd. apply ht_keep_then; [kp|]. intros _. eapply ht_bind; [apply ht_close_opt|]. intros []. eapply ht_bind; [apply ht_close_opt|]. intros [].
    apply ht_ret. intros s Hs. apply (own_ext _ _ _ _ _ _ Hs). intros f Hf. cbv beta. rewrite Hd by done. unfold none. lia. }
  unfold pipealloc. cbv zeta. eapply ht_bind; [apply ht_filealloc|]. intros f0. apply ht_zero; intros Hn0; [apply Hbad; olia|].
  eapply ht_bind; [apply ht_filealloc|]. intros f1. apply ht_zero; intros Hn1; [apply Hbad; olia|].
  apply ht_keep_then; [kp|]. intros pi. apply ht_zero; intros Hpi; [apply Hbad; olia|].
  do 3 (apply ht_keep_then; [kp|]; intros _). apply ht_ret. intros s Hs. split; [|done]. apply (own_ext _ _ _ _ _ _ Hs). olia.
Qed.

(** The two files of a pipe are closed; [d] are the references they still have. *)
Lemma ht_pipe_bad c o d rf wf : (forall f, f <> 0 -> d f = one rf f + one wf f) ->
  ht (own c o 0 d) (fileclose end_ rf ;; fileclose end_ wf ;; ret (-1))%xv6 (fun _ => settled c).
Proof.
  intros Hd. eapply ht_bind; [apply ht_fileclose|]. intros []. eapply ht_bind; [apply ht_fileclose|]. intros [].
  apply ht_ret. intros s Hs. apply (own_settled _ _ _ _ Hs). intros f Hf. cbv beta. rewrite Hd by done. lia.
Qed.

Lemma ht_sys_pipe c : ht (settled c) (sys_pipe end_) (fun _ => settled c).
Proof.
  apply ht_settled. intros o. apply ht_my. apply ht_keep_then; [apply kp_argaddr|]. intros fdarray.
  eapply ht_bind; [apply ht_pipealloc|]. intros [[rf wf]|]; [|apply ht_ret; intros s Hs; by exists o]. apply ht_pure. intros [Hr Hw].
  eapply ht_bind; [apply ht_fdalloc|]. intros fd0. cbv beta.
  destruct (decide (fd0 < 0)) as [Hlt|Hge].
  { rewrite (proj2 (Z.ltb_lt fd0 0)), Z.geb_leb, (proj2 (Z.leb_gt 0 fd0)) by lia. apply ht_ret_then. change (-1 <? 0) with true. cbv iota.
    apply ht_ret_then. by apply ht_pipe_bad. }
  rewrite (proj2 (Z.ltb_ge fd0 0)), Z.geb_leb, (proj2 (Z.leb_le 0 fd0)) by lia.
  apply (ht_pre _ (fun s => own c (<[Z.to_nat fd0 := rf]> o) 0 (one wf) s /\ fd0 < 16 /\ length o = 16%nat)).
  2:{ intros s (H1 & H2 & Hs). pose proof (own_len _ _ _ _ _ Hs) as Hl. rewrite length_insert in Hl. split; [|split; [lia|done]]. apply (own_ext _ _ _ _ _ _ Hs). olia. }
  apply ht_pure. intros [Hlt Hl]. set (o1 := <[Z.to_nat fd0 := rf]> o). assert (E0 : o1 !! Z.to_nat fd0 = Some rf) by (apply list_lookup_insert_eq; lia).
  eapply ht_bind; [apply ht_fdalloc|]. intros fd1. cbv beta. destruct (decide (fd1 < 0)) as [Hlt1|Hge1].
  { rewrite (proj2 (Z.ltb_lt fd1 0)) by lia. apply (ht_set_ofile _ c o1 0 (one wf) fd0 0 rf); [done|done|]. apply ht_pipe_bad. olia. }
  rewrite (proj2 (Z.ltb_ge fd1 0)) by lia. set (o2 := <[Z.to_nat fd1 := wf]> o1).
  apply (ht_pre _ (fun s => own c o2 0 none s /\ o2 !! Z.to_nat fd0 = Some rf /\ (<[Z.to_nat fd0 := 0]> o2) !! Z.to_nat fd1 = Some wf)).
  2:{ intros s (H1 & H2 & Hs). assert (Hne : Z.to_nat fd0 <> Z.to_nat fd1) by (intros E; rewrite E in E0; congruence).
    split; [apply (own_ext _ _ _ _ _ _ Hs); olia|]. unfold o2. rewrite list_lookup_insert_ne by done. split; [done|].
    rewrite list_lookup_insert_ne by done. apply list_lookup_insert_eq. unfold o1. rewrite length_insert. lia. }
  apply ht_pure. intros [E1 E2]. apply ht_keep_then; [kp|]. intros pr. apply ht_keep_then; [kp|]. intros r0. apply ht_keep_then; [kp|]. intros r1.
  destruct (r1 <? 0); [|apply ht_ret; intros s Hs; by exists o2].
  apply (ht_set_ofile _ c o2 0 none fd0 0 rf); [done|done|]. eapply ht_set_ofile; [done|exact E2|]. apply ht_pipe_bad. olia.
Qed.

(** ** [fork] *)

(** Entry [np] is dead. *)
Definition own_dead (c : Z) (o : list Z) (np : Z) (s : kst S) : Prop := own c o 0 none s /\ dead (procs s np).

Lemma own_dead_stable c o np : stable (own_dead c o np).
Proof. intros s s' F [H1 H2]. split; [by apply (own_stable _ _ _ _ s)|by apply (stable_dead np s)]. Qed.

Lemma ht_stable_then {A B} P (m : K A) (k : A -> K B) Q : stable P -> (forall s, P s -> on_cpu s) -> keeps m -> (forall a, ht P (k a) Q) -> ht P (bind m k) Q.
Proof. intros H1 H2 H3 H4. eapply ht_bind; [by apply ht_keep|exact H4]. Qed.

Lemma ht_allocproc c o : ht (own c o 0 none) (allocproc trampoline forkret_) (fun np s => own c o 0 none s /\ (np = 0 \/ 1 <= np <= NPROC /\ dead (procs s np))).
Proof.
  apply (ht_bind _ _ _ (fun r => match r with Some p => fun s => own_dead c o p s /\ 1 <= p <= NPROC | None => own c o 0 none end)).
  - assert (Hl : Forall (fun p => 1 <= p <= NPROC) proc_list) by (apply Forall_forall; intros p Hp; apply elem_of_zseq in Hp; unfold NPROC in *; lia).
    induction Hl as [|p l Hp _ IH]; cbn [search]; [by apply ht_ret|].
    apply (ht_bind _ _ _ (fun r => match r with Some p => fun s => own_dead c o p s /\ 1 <= p <= NPROC | None => own c o 0 none end)).
    + apply ht_keep_then; [kp|]. intros _. apply ht_get. intros x. case_decide as E.
      * apply ht_ret. intros s [Hs Hx]. split; [|done]. split; [done|]. left. by rewrite Hx.
      * apply (ht_pre _ (own c o 0 none)); [|by intros s [? _]]. apply ht_keep_then; [kp|]. intros _. by apply ht_ret.
    + intros [q|]; [by apply ht_ret|]. apply IH.
  - intros [p|]; [|apply ht_ret; auto]. apply ht_pure. intros Hp.
    assert (Hon : forall s, own_dead c o p s -> on_cpu s) by (intros s [Hs _]; apply Hs).
    pose proof (own_dead_stable c o p) as Hst. pose proof (kp_allocpid (S := S)). pose proof (kp_proc_pagetable trampoline (S := S)).
    do 4 (apply ht_stable_then; [exact Hst|exact Hon|kp|intros ?]). destruct (_ =? 0).
    { apply ht_stable_then; [exact Hst|exact Hon|kp|intros ?]. apply ht_ret. intros s [Hs _]. split; [done|by left]. }
    do 3 (apply ht_stable_then; [exact Hst|exact Hon|kp|intros ?]). apply ht_ret. intros s [Hs Hd]. split; [done|by right].
Qed.

(** The descriptors of the child from [i] on are still empty. *)
Record child (c : Z) (o : list Z) (np i : Z) (s : kst S) : Prop := {
  ch_own : own c o np none s;
  ch_np : 1 <= np <= NPROC /\ np <> c;
  ch_rest : forall j, i <= j < 16 -> p_ofile (procs s np) !! Z.to_nat j = Some 0;
}.

Lemma child_stable c o np i : stable (child c o np i).
Proof.
  intros s s' F [H1 H2 H3]. split; [by apply (own_stable _ _ _ _ s)|done|]. intros j Hj. rewrite (proj1 (fr_fds _ _ F np)). by apply H3.
Qed.

Lemma own_child c o np s : own_dead c o np s -> 1 <= np <= NPROC -> child c o np 0 s.
Proof.
  intros [[[A1 A2 A3] [B1 B2] C E] Hd] Hnp. split.
  - split; auto. split; auto. intros p Hp _. destruct (decide (p = 0)); [unfold NPROC in *; lia|by apply A3].
  - split; [done|]. intros ->. unfold on_cpu in C. rewrite B1 in C. unfold dead in Hd. rewrite C in Hd. naive_solver.
  - intros j Hj. rewrite A3 by (done || unfold NPROC in *; lia). apply lookup_replicate. split; [done|lia].
Qed.

Lemma dup_ofile_child c o np i : 0 <= i < 16 -> ht (child c o np i) (dup_ofile c np i) (fun _ => child c o np (i + 1)).
Proof.
  intros Hi. apply ht_get. intros f. apply ht_zero; intros Hf.
  { apply ht_ret. intros s [[H1 H2 H3] _]. split; auto. intros j Hj. apply H3. lia. }
  apply (ht_pre _ (child c o np i)); [|by intros s [? _]].
  apply (ht_bind _ _ _ (fun r s => r = f /\ own c o np (one f) s /\ (1 <= np <= NPROC /\ np <> c) /\ forall j, i <= j < 16 -> p_ofile (procs s np) !! Z.to_nat j = Some 0)).
  - apply ht_stable_then; [apply child_stable|intros s [Hs _ _]; apply Hs|kp|]. intros _. apply ht_get. intros y. destruct (f_ref y <? 1); [apply ht_panic|].
    set (P := fun s => own c o np (one f) s /\ (1 <= np <= NPROC /\ np <> c) /\ forall j, i <= j < 16 -> p_ofile (procs s np) !! Z.to_nat j = Some 0).
    apply (ht_modify _ P).
    { intros s [[H1 H2 H3] _]. split; [|by split]. eapply own_ext; [by apply (own_file c o np none f (fun x => x <| f_ref := f_ref x + 1 |>) 1)|olia]. }
    apply ht_stable_then; [|intros s [Hs _]; apply Hs|kp|].
    { intros s s' F (H1 & H2 & H3). split; [by apply (own_stable _ _ _ _ s)|]. split; [done|]. intros j Hj. rewrite (proj1 (fr_fds _ _ F np)). by apply H3. }
    intros _. by apply ht_ret.
  - intros r s (-> & [[A1 A2 A3] [B1 B2] C E] & [N1 N2] & H3). cbn. split.
    + split; cbn.
      * split; cbn.
        -- intros h Hh. rewrite A1, fd_count_upd by done. cbn. rewrite (fd_uses_insert h _ _ 0 f) by (apply H3; lia). unfold none. olia.
        -- intros p Hp. destruct (decide (p = np)) as [->|]; [rewrite upd_same; cbn; rewrite length_insert|rewrite upd_other by done]; by apply A2.
        -- intros p Hp Hx. rewrite upd_other by done. by apply A3.
      * done.
      * unfold on_cpu in *. cbn. rewrite upd_other by congruence. done.
      * by rewrite upd_other by congruence.
    + done.
    + intros j Hj. cbn. rewrite upd_same. cbn. rewrite list_lookup_insert_ne by lia. apply H3. lia.
Qed.

Lemma dup_all_child c o np : ht (child c o np 0) (each (zseq 0 (Z.to_nat NOFILE)) (dup_ofile c np)) (fun _ => child c o np 16).
Proof.
  assert (H : forall n i, 0 <= i -> i + Z.of_nat n = 16 -> ht (child c o np i) (each (zseq i n) (dup_ofile c np)) (fun _ => child c o np 16)).
  { induction n as [|n IH]; intros i Hi Hn; cbn [zseq each]; [apply ht_ret; intros s; by replace i with 16 by lia|].
    eapply ht_bind; [apply dup_ofile_child; lia|]. intros []. apply IH; lia. }
  apply (H 16%nat 0); done.
Qed.

Lemma ht_fork c : ht (settled c) (fork end_ trampoline forkret_) (fun _ => settled c).
Proof.
  apply ht_settled. intros o. apply ht_my. eapply ht_bind; [apply ht_allocproc|]. intros np. apply ht_zero; intros Hnp.
  { apply ht_ret. intros s [Hs _]. by exists o. }
  apply (ht_pre _ (fun s => own_dead c o np s /\ 1 <= np <= NPROC)); [|intros s [Hs [?|[? ?]]]; [done|by split]]. apply ht_pure. intros Hr.
  assert (Hon : forall s, own_dead c o np s -> on_cpu s) by (intros s [Hs _]; apply Hs). pose proof (own_dead_stable c o np) as Hst.
  do 3 (apply ht_stable_then; [exact Hst|exact Hon|kp|intros ?]). destruct (_ <? 0).
  { eapply (ht_bind _ _ _ (fun _ => own c o 0 none)).
    - intros s [Hs Hd]. pose proof (kp_freeproc end_ np s (ow_on _ _ _ _ _ Hs) Hd) as F. destruct (freeproc end_ np s); [by apply (own_stable _ _ _ _ s)|done|by left].
    - intros []. apply ht_keep_then; [kp|]. intros _. apply ht_ret. intros s Hs. by exists o. }
  apply (ht_pre _ (child c o np 0)); [|intros s Hs; by apply own_child].
  assert (Hon' : forall i s, child c o np i s -> on_cpu s) by (intros i s [Hs _ _]; apply Hs). pose proof (fun i => child_stable c o np i) as Hst'.
  pose proof (kp_tf_store (S := S)) as Htf.
  apply ht_stable_then; [apply Hst'|apply Hon'|kp|intros _]. apply ht_stable_then; [apply Hst'|apply Hon'|kp|intros _].
  apply ht_stable_then; [apply Hst'|apply Hon'|unfold copy_tf; kp|intros _]. apply ht_stable_then; [apply Hst'|apply Hon'|kp|intros _].
  eapply ht_bind; [apply dup_all_child|]. intros []. do 4 (apply ht_stable_then; [apply Hst'|apply Hon'|kp|intros ?]).
  apply (ht_modify _ (own c o 0 none)).
  { intros s [[[A1 A2 A3] [B1 B2] C E] [N1 N2] _]. split; cbn.
    - split; cbn.
      + intros f Hf. rewrite fd_count_upd, A1 by done. cbn. lia.
      + intros p Hp. destruct (decide (p = np)) as [->|]; [rewrite upd_same|rewrite upd_other by done]; by apply A2.
      + intros p Hp _. destruct (decide (p = np)) as [->|]; [rewrite upd_same; intros [?|?]; done|rewrite upd_other by done; by apply A3].
    - done.
    - unfold on_cpu in *. cbn. rewrite upd_other by congruence. done.
    - by rewrite upd_other by congruence. }
  apply ht_keep_then; [kp|]. intros _. apply ht_ret. intros s Hs. by exists o.
Qed.

(** ** [exit] *)

Lemma ht_exists {A B} (P : B -> kst S -> Prop) (m : K A) Q : (forall b, ht (P b) m Q) -> ht (fun s => exists b, P b s) m Q.
Proof. intros H s [b Hs]. by apply (H b). Qed.

(** The descriptors below [i] are closed. *)
Definition closed (c i : Z) (s : kst S) : Prop := exists o, own c o 0 none s /\ forall j, 0 <= j < i -> o !! Z.to_nat j = Some 0.

Lemma close_ofile_closed c i : 0 <= i < 16 -> ht (closed c i) (close_ofile end_ c i) (fun _ => closed c (i + 1)).
Proof.
  intros Hi. apply ht_exists. intros o. apply ht_pure. intros Hz. apply ht_get. intros f.
  apply (ht_pre _ (fun s => own c o 0 none s /\ o !! Z.to_nat i = Some f)).
  2:{ intros s [Hs Hf]. split; [done|]. pose proof (own_len _ _ _ _ _ Hs). rewrite (ow_fds _ _ _ _ _ Hs) in Hf.
      destruct (lookup_lt_is_Some_2 o (Z.to_nat i)) as [g Hg]; [lia|]. rewrite Hg in Hf. by rewrite <- Hf. }
  apply ht_pure. intros Hf. apply ht_zero; intros Hn.
  - apply ht_ret. intros s Hs. exists o. split; [done|]. intros j Hj. destruct (decide (j = i)) as [->|]; [by rewrite Hf, Hn|apply Hz; lia].
  - eapply ht_bind; [apply ht_fileclose|]. intros []. intros s Hs. cbn. exists (<[Z.to_nat i := 0]> o). split.
    + eapply own_ext; [by apply (own_set c o 0 (fun h => none h - one f h) i 0 f)|olia].
    + intros j Hj. destruct (decide (j = i)) as [->|]; [apply list_lookup_insert_eq; by eapply lookup_lt_Some|]. rewrite list_lookup_insert_ne by lia. apply Hz. lia.
Qed.

Lemma close_all_closed c : ht (settled c) (each (zseq 0 (Z.to_nat NOFILE)) (close_ofile end_ c)) (fun _ => own c (replicate 16 0) 0 none).
Proof.
  assert (H : forall n i, 0 <= i -> i + Z.of_nat n = 16 -> ht (closed c i) (each (zseq i n) (close_ofile end_ c)) (fun _ => closed c 16)).
  { induction n as [|n IH]; intros i Hi Hn; cbn [zseq each]; [apply ht_ret; intros s; by replace i with 16 by lia|].
    eapply ht_bind; [apply close_ofile_closed; lia|]. intros []. apply IH; lia. }
  eapply ht_pre; [eapply ht_post; [apply (H 16%nat 0); done|]|].
  - intros [] s (o & Hs & Hz). assert (o = replicate 16 0) as ->; [|done]. apply list_eq. intros j. destruct (decide (j < 16)%nat).
    + rewrite <- (Nat2Z.id j), Hz by lia. symmetry. apply lookup_replicate. split; [done|lia].
    + rewrite !lookup_ge_None_2; [done|rewrite length_replicate; lia|rewrite (own_len _ _ _ _ _ Hs); lia].
  - intros s [o Hs]. exists o. split; [done|]. intros j Hj. lia.
Qed.

(** The process becomes a zombie without descriptors. *)
Lemma own_zombie c s : own c (replicate 16 0) 0 none s -> fd_inv 0 none (s <| procs := upd (procs s) c ((procs s c) <| p_state := ZOMBIE |>) |>).
Proof.
  intros [[A1 A2 A3] [B1 B2] C E]. split; cbn.
  - intros f Hf. rewrite fd_count_upd, A1 by done. cbn. lia.
  - intros p Hp. destruct (decide (p = c)) as [->|]; [rewrite upd_same|rewrite upd_other by done]; by apply A2.
  - intros p Hp Hx. destruct (decide (p = c)) as [->|]; [rewrite upd_same; done|rewrite upd_other by done; by apply A3].
Qed.

Lemma fd_inv_unlock p : ht (fd_inv 0 none) (punlock p) (fun _ => fd_inv 0 none).
Proof.
  intros s [A1 A2 A3]. unfold punlock, lock_off. destruct (p_lock _); [|done]. split; cbn.
  - intros f Hf. rewrite A1 by done. f_equal. symmetry. apply fd_count_ext. intros q. destruct (decide (q = p)) as [->|]; [by rewrite upd_same|by rewrite upd_other].
  - intros q Hq. destruct (decide (q = p)) as [->|]; [rewrite upd_same|rewrite upd_other by done]; by apply A2.
  - intros q Hq Hx. destruct (decide (q = p)) as [->|]; [rewrite upd_same; by apply A3|rewrite upd_other by done; by apply A3].
Qed.

Lemma ht_exit c n : ht (settled c) (exit end_ n) (fun _ => settled c).
Proof.
  apply ht_settled. intros o. apply ht_my. apply ht_keep_then; [kp|]. intros ip. destruct (c =? ip); [apply ht_panic|].
  apply (ht_pre _ (settled c)); [|intros s Hs; by exists o]. eapply ht_bind; [apply close_all_closed|]. intros [].
  do 5 (apply ht_keep_then; [kp|]; intros ?). pose proof (kp_wakeup1 (S := S)). pose proof (kp_reparent (S := S)).
  apply (ht_bind _ _ _ (fun _ => fd_inv 0 none)).
  - unfold exit_finish. do 12 (apply ht_keep_then; [kp|]; intros ?). apply (ht_modify _ (fd_inv 0 none)); [apply own_zombie|apply fd_inv_unlock].
  - intros [] s Hs. unfold bind. pose proof (sched_out (A := unit) (Chan "zombie" c) s) as Hc. destruct (sched _ s); [done..|]. right. by rewrite Hc.
Qed.

(** ** All system calls *)

Section Calls.

Context (ntas : Z -> K Z).

(** The statistics of the locks do not concern files. *)
Hypothesis ntas_keeps : forall z, keeps (ntas z).

(** C15: the reference counts of open files are exact.  Between two system calls the
    count of every open file is the number of descriptors, over all processes, that refer to it, and a free
    or dead entry of the process table has none.  Every system call preserves this when it
    returns, on its error paths too; [exit] leaves it for the zombie; a call that blocks
    leaves the process asleep. *)
Theorem file_refs_exact num call s c : syscalls end_ trampoline forkret_ console_devsw ntas num = Some call -> settled c s ->
  match call s with
  | Ok _ s' => settled c s'
  | Panic _ => True
  | Sleep _ s' => asleep s' \/ fd_inv 0 none s'
  end.
Proof.
  intros Hc Hs. assert (H : ht (settled c) call (fun _ => settled c)); [|exact (H s Hs)]. clear s Hs.
  destruct (kp_sys_proc end_ (S := S)) as (P1 & P2 & P3 & P4 & P5 & P6 & P7 & P8 & P9). destruct (kp_sys_tree (S := S)) as (T1 & T2 & T3 & T4 & T5).
  assert (Hn : keeps (sys_ntas_ ntas)) by (unfold sys_ntas_; pose proof (kp_argint (S := S)); kp). assert (He : ht (settled c) (sys_exit end_) (fun _ => settled c)).
  { eapply ht_bind; [apply settled_keep, kp_argint|]. intros n. eapply ht_bind; [apply ht_exit|]. intros []. by apply ht_ret. }
  unfold Trap.syscalls in Hc. repeat (case_match; try discriminate); injection Hc as <-;
    lazymatch goal with
    | |- ht _ (sys_fork _ _ _) _ => exact (ht_fork c)
    | |- ht _ (sys_exit _) _ => exact He
    | |- ht _ (sys_pipe _) _ => exact (ht_sys_pipe c)
    | |- ht _ sys_dup _ => exact (ht_sys_dup c)
    | |- ht _ (sys_open _) _ => exact (ht_sys_open c)
    | |- ht _ (sys_close _) _ => exact (ht_sys_close c)
    | |- ht _ (sys_exec _ _) _ => apply settled_keep, kp_sys_exec
    | |- _ => apply settled_keep; assumption
    end.
Qed.

End Calls.

End FdRefs.

(** ** A process that duplicates a descriptor *)

(** Process 1 has file 3 open twice and file 7 once. *)
Definition fd_sample (b : lst) : kst lst :=
  (boot_kst (demo b T_FILE no_mem 0)) <| cur := 1 |>
    <| procs := upd (fun _ => zero_proc) 1 (zero_proc <| p_state := RUNNING |> <| p_ofile := 3 :: 3 :: 7 :: replicate 13 0 |>) |>
    <| files := fun f => zero_file <| f_ref := fd_uses f [3; 3; 7] |> |>.

Lemma fd_sample_ok b : settled 1 (fd_sample b).
Proof.
  exists (3 :: 3 :: 7 :: replicate 13 0). split; try done. split.
  - intros f Hf. cbn [files procs fd_sample field_update]. rewrite fd_count_upd by done. change (p_ofile zero_proc) with (replicate 16 0). rewrite fd_uses_zero by done.
    assert (H0 : fd_count (fun _ => zero_proc) f = 0).
    { unfold fd_count. change (p_ofile zero_proc) with (replicate 16 0). rewrite fd_uses_zero by done. by induction proc_list. }
    rewrite H0. change (p_ofile _) with ([3; 3; 7] ++ replicate 13 0). unfold fd_uses at 2. rewrite filter_app, length_app, Nat2Z.inj_add.
    fold (fd_uses f [3; 3; 7]) (fd_uses f (replicate 13 0)). rewrite fd_uses_zero by done. unfold none. cbn [f_ref]. lia.
  - intros p Hp. cbn. unfold upd. by destruct (p =? 1).
  - intros p Hp _. cbn. unfold upd. destruct (p =? 1); [|done]. intros [?|?]; done.
Qed.

Lemma file_refs_exact_witness : exists (s s' : kst lst), sys_dup s = Ok 3 s' /\ f_ref (files s 3) = 2 /\ f_ref (files s' 3) = 3 /\ settled 1 s'.
Proof.
  destruct demo_blocks as [b _]. set (s := fd_sample b).
  pose proof (file_refs_exact PHYSTOP KERNBASE KERNBASE (fun _ => ret 0) (fun _ => kp_ret _ 0) 10 sys_dup s 1 eq_refl (fd_sample_ok b)) as H.
  destruct (sys_dup s) as [r s'| |] eqn:E; [|discriminate E..].
  exists s, s'. assert (Er : r = 3 /\ f_ref (files s' 3) = 3) by (vm_compute in E; injection E as <- <-; done).
  destruct Er as [-> Er]. done.
Defined.
