(* ===== verification/ConsProps.v ===== *)
(** * The console's line discipline

    What the console promises: the characters of finished lines ([rd]) and the
    line being edited ([ln]).  [type_char] is the effect of a character typed,
    [next_line] what a read gets.  [consoleintr] and [consoleread] of
    [kernel/console.c] implement them on the ring buffer with its three
    counters, which wrap around at 2^32. *)
From stdpp Require Import base list gmap strings.
From Stdlib Require Import ZArith Lia.
From S2P Require Import Prelude KString Riscv Kalloc Vm VmSpec VmUser VmCopy VmFork VmProps Log Blocks Fs FsProps Kernel Pipe PipeProps Proc KState Console.

#[local] Open Scope Z_scope.
#[local] Open Scope xv6_scope.

(** ** The abstract console *)

Definition len (l : list Z) : Z := Z.of_nat (length l).

Definition cr_to_nl (c : Z) : Z := if c =? 13 then NL else c.

(** The character goes into the line. *)
Definition is_text (c : Z) (rd ln : list Z) : bool :=
  negb (c =? ctrl 80) && negb (c =? ctrl 85) && negb (c =? ctrl 72) && negb (c =? 0x7f) &&
  negb (c =? 0) && (len rd + len ln <? INPUT_BUF).

(** The character ends the line: a newline, end of file, or no room for more. *)
Definition ends_line (c : Z) (rd ln : list Z) : bool :=
  is_text c rd ln &&
  ((cr_to_nl c =? NL) || (cr_to_nl c =? ctrl 68) || (len rd + len ln + 1 =? INPUT_BUF)).

Definition type_char (c : Z) (A : list Z * list Z) : list Z * list Z :=
  let '(rd, ln) := A in
  if is_text c rd ln then
    if ends_line c rd ln then (rd ++ ln ++ [cr_to_nl c], []) else (rd, ln ++ [cr_to_nl c])
  else if c =? ctrl 85 then (rd, [])
  else if (c =? ctrl 72) || (c =? 0x7f) then (rd, removelast ln)
  else (rd, ln).

(** What a read of at most [n] characters gets from [rd], and what it leaves: up
    to and including a newline; an end of file ends the read and is left for the
    next one unless it comes first. *)
Fixpoint next_line (n : nat) (started : bool) (rd : list Z) : list Z * list Z :=
  match n, rd with
  | O, _ | _, [] => ([], rd)
  | S n, c :: rd' =>
      if c =? ctrl 68 then ([], if started then rd else rd')
      else if c =? NL then ([c], rd')
      else let '(d, r) := next_line n true rd' in (c :: d, r)
  end.

(** The read does not have to wait. *)
Definition line_ready (n : nat) (rd : list Z) : Prop := (n <= length rd)%nat \/ NL ∈ rd \/ ctrl 68 ∈ rd.

(** ** The ring buffer *)

Record cons_rep (k : consst) (rd ln : list Z) : Prop := {
  cr_buf : length (cn_buf k) = 128%nat;
  cr_r : 0 <= cn_r k < 2 ^ 32;
  cr_w : cn_w k = u32 (cn_r k + len rd);
  cr_e : cn_e k = u32 (cn_r k + len rd + len ln);
  cr_max : len rd + len ln <= INPUT_BUF;
  cr_data : forall i, (i < length (rd ++ ln))%nat -> (rd ++ ln) !! i = Some (cons_at k (cn_r k + Z.of_nat i));
  cr_line : NL ∉ ln;
}.

Lemma cons_at_u32 k i : cons_at k (u32 i) = cons_at k i.
Proof.
  unfold cons_at. do 3 f_equal. unfold u32, INPUT_BUF. change (2 ^ 32) with (128 * 33554432).
  rewrite Z.rem_mul_r by lia. rewrite Z.mul_comm, Z.mod_add by lia. apply Z.mod_mod. lia.
Qed.

Lemma len_app l1 l2 : len (l1 ++ l2) = len l1 + len l2.
Proof. unfold len. rewrite length_app. lia. Qed.

Lemma len_nonneg l : 0 <= len l.
Proof. unfold len. lia. Qed.

(** The three counters, from their differences. *)
Lemma cons_counts k rd ln : cons_rep k rd ln ->
  (cn_e k =? cn_w k) = bool_decide (ln = []) /\ (cn_r k =? cn_w k) = bool_decide (rd = []) /\
  u32 (cn_e k - cn_r k) = len rd + len ln.
Proof.
  intros [_ Hr Hw He Hmax _ _]. pose proof (len_nonneg rd). pose proof (len_nonneg ln). unfold INPUT_BUF in *.
  assert (E0 : forall l, len l = 0 -> l = []) by (intros [|x l]; [done|unfold len; cbn; lia]).
  rewrite Hw, He. unfold u32 in *. split_and!.
  - case_bool_decide as E; [subst ln; apply Z.eqb_eq; f_equal; unfold len; cbn; lia|].
    apply Z.eqb_neq. intros Ez. apply E, E0. zlia.
  - case_bool_decide as E; [subst rd; apply Z.eqb_eq; unfold len; cbn; rewrite Z.mod_small; lia|].
    apply Z.eqb_neq. intros Ez. apply E, E0. zlia.
  - zlia.
Qed.

Lemma cons_rep_ext k k' rd ln :
  cons_rep k rd ln -> cn_buf k' = cn_buf k -> cn_r k' = cn_r k -> cn_w k' = cn_w k -> cn_e k' = cn_e k -> cons_rep k' rd ln.
Proof. intros [H1 H2 H3 H4 H5 H6 H7] E1 E2 E3 E4. unfold cons_at in *. split; unfold cons_at; rewrite ?E1, ?E2, ?E3, ?E4; auto. Qed.

Lemma u32_u32_add a b : u32 (u32 a + b) = u32 (a + b).
Proof. unfold u32. by rewrite Zplus_mod_idemp_l. Qed.

(** Storing a character at the end of the line. *)
Lemma cons_store_data k rd ln c : cons_rep k rd ln -> len rd + len ln < INPUT_BUF ->
  forall i, (i < length (rd ++ ln ++ [c]))%nat -> (rd ++ ln ++ [c]) !! i = Some (cons_at (cons_store c k) (cn_r k + Z.of_nat i)).
Proof.
  intros [Hb Hr Hw He Hmax Hd _] Hlt i Hi. rewrite app_assoc in *. rewrite length_app in Hi. cbn in Hi.
  set (n := length (rd ++ ln)) in *. assert (En : Z.of_nat n = len rd + len ln) by (unfold n; rewrite <- len_app; done).
  unfold cons_at. change (cn_buf (cons_store c k)) with (<[Z.to_nat (cn_e k mod INPUT_BUF) := c]> (cn_buf k)).
  assert (Ee : cn_e k mod INPUT_BUF = (cn_r k + Z.of_nat n) mod INPUT_BUF).
  { rewrite He, <- Z.add_assoc, <- En. unfold u32, INPUT_BUF. change (2 ^ 32) with (128 * 33554432).
    rewrite Z.rem_mul_r by lia. rewrite Z.mul_comm, Z.mod_add by lia. apply Z.mod_mod. lia. }
  rewrite Ee. unfold INPUT_BUF in *. destruct (decide (i = n)) as [->|Hne].
  - rewrite lookup_app_r, Nat.sub_diag by lia. cbn. rewrite list_lookup_insert_eq; [done|]. rewrite Hb. zlia.
  - rewrite lookup_app_l by (fold n; lia). rewrite list_lookup_insert_ne by zlia. apply Hd. lia.
Qed.

Lemma cons_rep_add k rd ln c : cons_rep k rd ln -> len rd + len ln < INPUT_BUF -> c <> NL ->
  cons_rep (cons_store c k) rd (ln ++ [c]).
Proof.
  intros R Hlt Hc. pose proof (cons_store_data k rd ln c R Hlt) as Hd. destruct R as [Hb Hr Hw He Hmax _ Hl].
  split; auto.
  - change (length (<[Z.to_nat (cn_e k mod INPUT_BUF) := c]> (cn_buf k)) = 128%nat). by rewrite length_insert.
  - change (u32 (cn_e k + 1) = u32 (cn_r k + len rd + len (ln ++ [c]))). rewrite He, u32_u32_add, len_app. f_equal. unfold len. cbn. lia.
  - rewrite len_app. unfold len in *. cbn. lia.
  - intros Hin. apply elem_of_app in Hin as [?|Hin]; [done|]. by apply list_elem_of_singleton in Hin.
Qed.

Lemma cons_rep_end k rd ln c : cons_rep k rd ln -> len rd + len ln < INPUT_BUF ->
  let k' := cons_store c k in cons_rep (k' <| cn_w := cn_e k' |>) (rd ++ ln ++ [c]) [].
Proof.
  intros R Hlt k'. pose proof (cons_store_data k rd ln c R Hlt) as Hd. destruct R as [Hb Hr Hw He Hmax _ Hl].
  assert (El : len (rd ++ ln ++ [c]) = len rd + len ln + 1) by (rewrite !len_app; unfold len; cbn; lia).
  assert (Ee : cn_e k' = u32 (cn_r k + len (rd ++ ln ++ [c])))
    by (change (u32 (cn_e k + 1) = u32 (cn_r k + len (rd ++ ln ++ [c]))); rewrite He, u32_u32_add, El; f_equal; lia).
  split.
  - change (length (<[Z.to_nat (cn_e k mod INPUT_BUF) := c]> (cn_buf k)) = 128%nat). by rewrite length_insert.
  - exact Hr.
  - exact Ee.
  - rewrite (Z.add_0_r _ : _ + len [] = _). exact Ee.
  - rewrite El. change (len []) with 0. lia.
  - rewrite app_nil_r. exact Hd.
  - apply not_elem_of_nil.
Qed.

(** Erasing the last character of the line. *)
Lemma cons_rep_del k rd ln x : cons_rep k rd (ln ++ [x]) ->
  cons_rep (k <| cn_e := u32 (cn_e k - 1) |>) rd ln /\ cons_at k (u32 (cn_e k - 1)) = x /\ x <> NL.
Proof.
  intros [Hb Hr Hw He Hmax Hd Hl]. assert (El : len (ln ++ [x]) = len ln + 1) by (rewrite len_app; unfold len; cbn; lia).
  assert (Ee : u32 (cn_e k - 1) = u32 (cn_r k + len rd + len ln)).
  { rewrite He. unfold u32. rewrite Zminus_mod_idemp_l. f_equal. lia. }
  assert (Hn : x <> NL) by (intros ->; apply Hl, elem_of_app; right; by left).
  split_and!; [split; auto| |done].
  - lia.
  - intros i Hi. specialize (Hd i). rewrite app_assoc, length_app in Hd. cbn in Hd. specialize (Hd ltac:(lia)).
    rewrite lookup_app_l in Hd by done. exact Hd.
  - intros Hin. apply Hl, elem_of_app. by left.
  - rewrite Ee, cons_at_u32. specialize (Hd (length (rd ++ ln))). rewrite app_assoc in Hd.
    specialize (Hd ltac:(rewrite !length_app; cbn; lia)). rewrite lookup_app_r, Nat.sub_diag in Hd by lia. cbn in Hd.
    injection Hd as ->. f_equal. rewrite length_app. unfold len. lia.
Qed.

(** Taking the first character. *)
Lemma cons_rep_get k c rd ln : cons_rep k (c :: rd) ln ->
  cons_rep (k <| cn_r := u32 (cn_r k + 1) |>) rd ln /\ cons_at k (cn_r k) = c.
Proof.
  intros [Hb Hr Hw He Hmax Hd Hl]. assert (El : len (c :: rd) = len rd + 1) by (unfold len; cbn; lia). split.
  - split; auto.
    + cbn [cn_r field_update]. unfold u32. apply Z.mod_pos_bound. lia.
    + change (cn_w k = u32 (u32 (cn_r k + 1) + len rd)). rewrite Hw, u32_u32_add. f_equal. lia.
    + change (cn_e k = u32 (u32 (cn_r k + 1) + len rd + len ln)). rewrite He, <- !Z.add_assoc, u32_u32_add. f_equal. lia.
    + lia.
    + intros i Hi. specialize (Hd (S i) ltac:(cbn; lia)).
      change ((rd ++ ln) !! i = Some (cons_at k (cn_r k + Z.of_nat (S i)))) in Hd. rewrite Hd. f_equal.
      change (cons_at k (cn_r k + Z.of_nat (S i)) = cons_at k (u32 (cn_r k + 1) + Z.of_nat i)).
      rewrite <- (cons_at_u32 k (u32 _ + _)), u32_u32_add, cons_at_u32. f_equal. lia.
  - specialize (Hd 0%nat). cbn in Hd. specialize (Hd ltac:(lia)). injection Hd as ->. f_equal. lia.
Qed.

(** ** [consoleintr] *)

Section Intr.

Context {S : Type} {L : BlockLayer S} {O : OpLayer S}.

Implicit Types s : kst S.

(** The state with another console and another count of locks held. *)
Definition sc s (k : consst) (n : Z) : kst S := s <| con := k |> <| k_noff := n |>.

Lemma sc_id s : s = sc s (con s) (k_noff s).
Proof. by destruct s. Qed.

Lemma sc_set s k n g : set_con g (sc s k n) = Ok tt (sc s (g k) n).
Proof. reflexivity. Qed.

Lemma sc_get s k n : gets con (sc s k n) = Ok k (sc s k n).
Proof. reflexivity. Qed.

Lemma sc_lock s k n : cn_lock k = false -> clock (sc s k n) = Ok tt (sc s (k <| cn_lock := true |>) (n + 1)).
Proof. intros H. unfold clock, lock_on. change (con (sc s k n)) with k. by rewrite H. Qed.

Lemma sc_unlock s k n : cn_lock k = true -> cunlock (sc s k n) = Ok tt (sc s (k <| cn_lock := false |>) (n - 1)).
Proof. intros H. unfold cunlock, lock_off. change (con (sc s k n)) with k. by rewrite H. Qed.

(** What [consputc] sends. *)
Definition echo (c : Z) : list Z := if c =? BACKSPACE then [8; 32; 8] else [u8 c].

Definition sent (l : list Z) (k : consst) : consst := k <| cn_out := cn_out k ++ l |>.

Lemma sent_sent l l' k : sent l' (sent l k) = sent (l ++ l') k.
Proof. unfold sent. destruct k. cbn. f_equal. by rewrite app_assoc. Qed.

Lemma sc_putc s k n c : consputc c (sc s k n) = Ok tt (sc s (sent (echo c) k) n).
Proof.
  unfold consputc, echo, uartputc. destruct (c =? BACKSPACE); [|reflexivity].
  rewrite !(bind_Ok _ _ _ _ _ (sc_set _ _ _ _)), sc_set. unfold sent. destruct k. cbn. do 2 f_equal. by rewrite <- !app_assoc.
Qed.

Lemma sc_puts s n l : forall k, exists o, each l consputc (sc s k n) = Ok tt (sc s (sent o k) n).
Proof.
  induction l as [|c l IH]; intros k; cbn [each].
  - exists []. unfold sent. rewrite app_nil_r. destruct k. done.
  - rewrite (bind_Ok _ _ _ _ _ (sc_putc _ _ _ _)). destruct (IH (sent (echo c) k)) as [o E]. exists (echo c ++ o). by rewrite E, sent_sent.
Qed.

Lemma sc_printf s k n fmt args : (cn_locking k = true -> cn_prlock k = false) ->
  exists o, printf fmt args (sc s k n) = Ok tt (sc s (sent o k) n).
Proof.
  intros H. unfold printf. unfold bind at 1, gets. change (cn_locking (con (sc s k n))) with (cn_locking k).
  destruct (cn_locking k) eqn:El.
  - assert (Elk : prlock (sc s k n) = Ok tt (sc s (k <| cn_prlock := true |>) (n + 1))).
    { unfold prlock, lock_on. change (con (sc s k n)) with k. by rewrite (H eq_refl). }
    rewrite (bind_Ok _ _ _ _ _ Elk). destruct (sc_puts s (n + 1) (format fmt args) (k <| cn_prlock := true |>)) as [o E].
    rewrite (bind_Ok _ _ _ _ _ E). exists o. unfold prunlock, lock_off. change (con (sc s (sent o (k <| cn_prlock := true |>)) (n + 1))) with (sent o (k <| cn_prlock := true |>)).
    cbn [cn_prlock sent field_update]. specialize (H eq_refl). destruct k. cbn in *. subst. unfold sc. cbn. do 3 f_equal; lia.
  - unfold bind at 1, ret at 1. destruct (sc_puts s n (format fmt args) k) as [o E]. rewrite (bind_Ok _ _ _ _ _ E). by exists o.
Qed.

Lemma sc_procdump s k n : (cn_locking k = true -> cn_prlock k = false) ->
  exists o, procdump (sc s k n) = Ok tt (sc s (sent o k) n).
Proof.
  intros H. unfold procdump. destruct (sc_printf s k n [NL] [] H) as [o E]. rewrite (bind_Ok _ _ _ _ _ E).
  clear E. revert o. induction proc_list as [|p l IH]; intros o; cbn [each]; [by exists o|].
  assert (Ep : exists o', procdump_one p (sc s (sent o k) n) = Ok tt (sc s (sent o' k) n)).
  { unfold procdump_one. unfold bind at 1, get_proc, gets. change (procs (sc s (sent o k) n) p) with (procs s p).
    case_decide; [by exists o|].
    destruct (sc_printf s (sent o k) n (bytes_of "%d %s %s")
      [AInt (p_pid (procs s p)); AStr (Some (bytes_of (state_name (p_state (procs s p))))); AStr (Some (p_name (procs s p)))] H) as [o1 E1].
    rewrite (bind_Ok _ _ _ _ _ E1), sent_sent. destruct (sc_printf s (sent (o ++ o1) k) n [NL] [] H) as [o2 E2].
    rewrite E2, sent_sent. eauto. }
  destruct Ep as [o' E']. rewrite (bind_Ok _ _ _ _ _ E'). apply IH.
Qed.

(** [while(e != w && last char is no newline)]: the whole line goes. *)
Lemma kill_line s k n rd ln : cons_rep k rd ln ->
  wp (while_ kill_char tt) (fun _ s' => exists k' o, s' = sc s k' n /\ cons_rep k' rd [] /\
    k' = (k <| cn_e := cn_e k' |> <| cn_out := o |>)) (sc s k n).
Proof.
  intros R. apply (wp_while_st _ (fun _ s' => exists k' ln' o, s' = sc s k' n /\ cons_rep k' rd ln' /\
      k' = (k <| cn_e := cn_e k' |> <| cn_out := o |>)) _ (fun _ s' => u32 (cn_e (con s') - cn_r (con s')))).
  - intros [] s' (k1 & ln1 & o & -> & R1 & E1). unfold kill_char. unfold wp at 1. rewrite (bind_Ok _ _ _ _ _ (sc_get _ _ _)).
    destruct (cons_counts k1 rd ln1 R1) as (C1 & _ & C3). rewrite C1. change (con (sc s k1 n)) with k1.
    destruct ln1 as [|x ln1 _] using rev_ind; [rewrite bool_decide_true by done; cbn; eauto 10|].
    rewrite bool_decide_false by (by destruct ln1). destruct (cons_rep_del k1 rd ln1 x R1) as (R2 & -> & Hx).
    rewrite (proj2 (Z.eqb_neq _ _) Hx). cbn [negb andb].
    rewrite (bind_Ok _ _ _ _ _ (sc_set _ _ _ _)), (bind_Ok _ _ _ _ _ (sc_putc _ _ _ _)). unfold ret.
    set (k2 := sent _ _). change (con (sc s k2 n)) with k2. assert (R3 : cons_rep k2 rd ln1) by (by eapply cons_rep_ext).
    split; [exists k2, ln1, (cn_out k2); split_and!; [done|done|]|].
    + unfold k2, sent. rewrite E1. destruct k. reflexivity.
    + destruct (cons_counts k2 rd ln1 R3) as (_ & _ & C4). rewrite C3, C4, len_app. unfold len. cbn. lia.
  - exists k, ln, (cn_out k). split_and!; [done|done|by destruct k].
  - intros. unfold u32. apply Z.mod_pos_bound. done.
  - unfold u32. pose proof (Z.mod_pos_bound (cn_e (con (sc s k n)) - cn_r (con (sc s k n))) (2 ^ 32) ltac:(done)). zpow. lia.
Qed.

(** The character is one the handler edits with. *)
Lemma type_control c rd ln : is_text c rd ln = false ->
  type_char c (rd, ln) = (rd, if c =? ctrl 85 then [] else if (c =? ctrl 72) || (c =? 0x7f) then removelast ln else ln) /\ ends_line c rd ln = false.
Proof. intros H. unfold type_char, ends_line. rewrite H. split; [|done]. by repeat destruct (_ =? _). Qed.

(** The part of [consoleintr] between [acquire] and [release], for a character
    that goes into the line. *)
Definition store_char (c : Z) : M (kst S) unit :=
  consputc c ;;
  set_con (cons_store c) ;;
  k ← gets con ;
  if (c =? NL) || (c =? ctrl 68) || (cn_e k =? u32 (cn_r k + INPUT_BUF))
  then set_con (fun k => k <| cn_w := cn_e k |>) ;; wakeup cons_chan
  else ret tt.

Lemma sc_procs s k n : sc s k n = ((sc s k n) <| procs := procs s |>).
Proof. by destruct s. Qed.

Lemma store_char_spec s k n rd ln c :
  cons_rep k rd ln -> is_text c rd ln = true -> unlocked_procs s ->
  exists k' pr, store_char (cr_to_nl c) (sc s k n) = Ok tt ((sc s k' n) <| procs := pr |>) /\
    cons_rep k' (type_char c (rd, ln)).1 (type_char c (rd, ln)).2 /\
    cn_lock k' = cn_lock k /\ cn_prlock k' = cn_prlock k /\ cn_locking k' = cn_locking k /\ cn_in k' = cn_in k /\
    forall p, pr p = if ends_line c rd ln && bool_decide (1 <= p <= NPROC) then woken cons_chan (procs s p) else procs s p.
Proof.
  intros R Ht Hl. unfold type_char. rewrite Ht. unfold store_char.
  assert (Hlt : len rd + len ln < INPUT_BUF) by (unfold is_text in Ht; rewrite !andb_true_iff in Ht; apply Z.ltb_lt, Ht).
  set (c' := cr_to_nl c). rewrite (bind_Ok _ _ _ _ _ (sc_putc _ _ _ _)), (bind_Ok _ _ _ _ _ (sc_set _ _ _ _)), (bind_Ok _ _ _ _ _ (sc_get _ _ _)).
  assert (R1 : cons_rep (sent (echo c') k) rd ln) by (by eapply cons_rep_ext). set (k1 := sent (echo c') k) in *. set (k2 := cons_store c' k1).
  assert (Ee : (cn_e k2 =? u32 (cn_r k2 + INPUT_BUF)) = (len rd + len ln + 1 =? INPUT_BUF)).
  { change (cn_e k2) with (u32 (cn_e k1 + 1)). change (cn_r k2) with (cn_r k1). rewrite (cr_e _ _ _ R1), u32_u32_add.
    pose proof (cr_r _ _ _ R1). pose proof (len_nonneg rd). pose proof (len_nonneg ln). unfold u32, INPUT_BUF in *.
    destruct (Z.eqb_spec (len rd + len ln + 1) 128); [apply Z.eqb_eq; f_equal; lia|apply Z.eqb_neq; zlia]. }
  rewrite Ee. change ((c' =? NL) || (c' =? ctrl 68) || (len rd + len ln + 1 =? INPUT_BUF)) with
    ((cr_to_nl c =? NL) || (cr_to_nl c =? ctrl 68) || (len rd + len ln + 1 =? INPUT_BUF)).
  assert (En : ends_line c rd ln = (cr_to_nl c =? NL) || (cr_to_nl c =? ctrl 68) || (len rd + len ln + 1 =? INPUT_BUF)) by (unfold ends_line; by rewrite Ht).
  rewrite <- En. destruct (ends_line c rd ln).
  - rewrite (bind_Ok _ _ _ _ _ (sc_set _ _ _ _)). set (k3 := k2 <| cn_w := cn_e k2 |>).
    destruct (wakeup_spec cons_chan (sc s k3 n)) as (pr & E & H); [exact Hl|]. exists k3, pr. split; [exact E|].
    split_and!; try done; [by apply cons_rep_end|]. intros p. rewrite H. cbn [andb]. by repeat (case_decide || case_bool_decide).
  - exists k2, (procs s). split; [by rewrite <- sc_procs|]. split_and!; try done.
    apply cons_rep_add; auto. intros Hc. unfold c' in Hc. rewrite Hc, Z.eqb_refl in En. discriminate.
Qed.

(** [consoleintr] between [acquire] and [release]. *)
Definition intr_body (c : Z) : M (kst S) unit :=
  if c =? ctrl 80 then procdump
  else if c =? ctrl 85 then while_ kill_char tt
  else if (c =? ctrl 72) || (c =? 0x7f) then
    k ← gets con ;
    if negb (cn_e k =? cn_w k)
    then set_con (fun k => k <| cn_e := u32 (cn_e k - 1) |>) ;; consputc BACKSPACE
    else ret tt
  else
    k ← gets con ;
    if negb (c =? 0) && (u32 (cn_e k - cn_r k) <? INPUT_BUF) then store_char (cr_to_nl c) else ret tt.

Lemma consoleintr_body c : consoleintr c = (clock ;; intr_body c ;; cunlock).
Proof. reflexivity. Qed.

Lemma intr_body_spec s k n rd ln c :
  cons_rep k rd ln -> (cn_locking k = true -> cn_prlock k = false) -> unlocked_procs s ->
  exists k' pr, intr_body c (sc s k n) = Ok tt ((sc s k' n) <| procs := pr |>) /\
    cons_rep k' (type_char c (rd, ln)).1 (type_char c (rd, ln)).2 /\
    cn_lock k' = cn_lock k /\ cn_prlock k' = cn_prlock k /\ cn_locking k' = cn_locking k /\ cn_in k' = cn_in k /\
    forall p, pr p = if ends_line c rd ln && bool_decide (1 <= p <= NPROC) then woken cons_chan (procs s p) else procs s p.
Proof.
  intros R Hpr Hl. destruct (cons_counts k rd ln R) as (C1 & _ & C3). unfold intr_body.
  destruct (is_text c rd ln) eqn:Ht.
  { pose proof Ht as Ht'. unfold is_text in Ht'. rewrite !andb_true_iff, !negb_true_iff in Ht'. destruct Ht' as [[[[[T1 T2] T3] T4] T5] T6].
    rewrite T1, T2, T3, T4. cbn [orb]. rewrite (bind_Ok _ _ _ _ _ (sc_get _ _ _)), T5, C3, T6. cbn [negb andb]. by apply store_char_spec. }
  destruct (type_control c rd ln Ht) as [-> ->]. cbn [andb Datatypes.fst Datatypes.snd].
  assert (Hk : forall k', cons_rep k' rd ln -> k' = k -> exists k'' pr, Ok tt (sc s k' n) = Ok tt ((sc s k'' n) <| procs := pr |>) /\
     cons_rep k'' rd ln /\ cn_lock k'' = cn_lock k /\ cn_prlock k'' = cn_prlock k /\ cn_locking k'' = cn_locking k /\ cn_in k'' = cn_in k /\
     forall p, pr p = procs s p).
  { intros k' R' ->. exists k, (procs s). by rewrite <- sc_procs. }
  destruct (Z.eqb_spec c (ctrl 80)) as [->|N1].
  { destruct (sc_procdump s k n Hpr) as [o E]. exists (sent o k), (procs s). rewrite <- sc_procs. split; [exact E|]. split_and!; try done.
    by eapply cons_rep_ext. }
  destruct (Z.eqb_spec c (ctrl 85)) as [->|N2].
  { pose proof (kill_line s k n rd ln R) as H. apply wp_Ok in H as ([] & s' & E & k' & o & -> & R' & Ek). exists k', (procs s).
    rewrite <- sc_procs. split; [exact E|]. split; [exact R'|]. rewrite Ek. done. }
  destruct ((c =? ctrl 72) || (c =? 0x7f)) eqn:Eh.
  { rewrite (bind_Ok _ _ _ _ _ (sc_get _ _ _)), C1. destruct ln as [|x ln _] using rev_ind.
    - rewrite bool_decide_true by done. cbn [negb removelast]. by apply Hk.
    - rewrite bool_decide_false by (by destruct ln). cbn [negb]. rewrite removelast_last.
      destruct (cons_rep_del k rd ln x R) as (R2 & _). rewrite (bind_Ok _ _ _ _ _ (sc_set _ _ _ _)), sc_putc.
      eexists _, (procs s). rewrite <- sc_procs. split; [reflexivity|]. split_and!; try done. by eapply cons_rep_ext. }
  rewrite (bind_Ok _ _ _ _ _ (sc_get _ _ _)), C3.
  assert (Eb : negb (c =? 0) && (len rd + len ln <? INPUT_BUF) = false).
  { unfold is_text in Ht. apply orb_false_iff in Eh as [E1 E2]. rewrite E1, E2, (proj2 (Z.eqb_neq _ _) N1), (proj2 (Z.eqb_neq _ _) N2) in Ht. exact Ht. }
  rewrite Eb. by apply Hk.
Qed.

(** [consoleintr] implements [type_char]. *)
Lemma consoleintr_spec s c rd ln :
  cons_rep (con s) rd ln -> cn_lock (con s) = false -> (cn_locking (con s) = true -> cn_prlock (con s) = false) -> unlocked_procs s ->
  exists k pr, consoleintr c s = Ok tt (s <| con := k |> <| procs := pr |>) /\
    cons_rep k (type_char c (rd, ln)).1 (type_char c (rd, ln)).2 /\ cn_lock k = false /\
    cn_prlock k = cn_prlock (con s) /\ cn_locking k = cn_locking (con s) /\ cn_in k = cn_in (con s) /\
    forall p, pr p = if ends_line c rd ln && bool_decide (1 <= p <= NPROC) then woken cons_chan (procs s p) else procs s p.
Proof.
  intros R Hc Hpr Hl. set (k0 := con s) in *. set (n := k_noff s).
  assert (Es : consoleintr c s = consoleintr c (sc s k0 n)) by (unfold k0, n; by rewrite <- sc_id). rewrite Es, consoleintr_body.
  rewrite (bind_Ok _ _ _ _ _ (sc_lock _ _ _ Hc)). set (k1 := k0 <| cn_lock := true |>).
  destruct (intr_body_spec s k1 (n + 1) rd ln c) as (k2 & pr & E & R2 & L1 & L2 & L3 & L4 & H); [by eapply cons_rep_ext|done|done|].
  rewrite (bind_Ok _ _ _ _ _ E). exists (k2 <| cn_lock := false |>), pr. split.
  - unfold cunlock, lock_off. change (con ((sc s k2 (n + 1)) <| procs := pr |>)) with k2. rewrite L1.
    change (Ok tt ((sc s (k2 <| cn_lock := false |>) (n + 1 - 1)) <| procs := pr |>) = Ok tt (s <| con := k2 <| cn_lock := false |> |> <| procs := pr |>)).
    by replace (n + 1 - 1) with n by lia.
  - split_and!; try done. by eapply cons_rep_ext.
Qed.

End Intr.

(** ** [consoleread] *)

Lemma next_line_cons n st c rd :
  next_line (S n) st (c :: rd) =
    if c =? ctrl 68 then ([], if st then c :: rd else rd)
    else if c =? NL then ([c], rd) else (c :: (next_line n true rd).1, (next_line n true rd).2).
Proof. cbn. repeat destruct (_ =? _); [done..|]. by destruct (next_line n true rd). Qed.

Lemma next_line_length n : forall st rd, (length (next_line n st rd).1 <= n)%nat.
Proof.
  induction n as [|n IH]; intros st [|c rd]; [cbn; lia..|]. rewrite next_line_cons.
  repeat destruct (_ =? _); cbn; try lia. specialize (IH true rd). lia.
Qed.

Lemma line_ready_step n c rd : line_ready (S n) (c :: rd) -> c <> NL -> c <> ctrl 68 -> line_ready n rd.
Proof. intros [H|[H|H]] H1 H2; [left; cbn in H; lia|right; left|right; right]; by apply elem_of_cons in H as [?|?]. Qed.

Section Read.

Context (end_ : Z) {S : Type} {L : BlockLayer S} {O : OpLayer S} {LO : OpLaws S}.
Hypothesis end_pos : 0 < end_.

Implicit Types s : kst S.

(** A routine that copies to the user's memory and wakes nobody. *)
Lemma in_fs_copyout s dst bs l root T fr :
  runs_in end_ s l root T fr -> 0 <= dst -> Forall is_byte bs -> len bs < 2 ^ 64 -> accessible fr dst (len bs) ->
  exists f, in_fs (either_copyout true dst bs (len bs)) s = Ok 0 (s <| kfs := f |>) /\
    umem end_ (fs_mem f) l root T fr /\ wrote fr (fs_mem (kfs s)) (fs_mem f) dst bs (len bs).
Proof.
  intros [U Hpt] Hd Hb Hlt Hacc. pose proof (copyout_spec end_ end_pos _ l root T fr U dst bs (len bs)) as H.
  apply wp_Ok in H as (r & k' & E & U' & [(-> & _ & W)|(_ & Hn & _)]); [|done|done|unfold len; lia|done|done].
  exists ((fs_view s) <| fs_mem := k' |>). split; [|done].
  assert (Ev : either_copyout true dst bs (len bs) (fs_view s) = Ok 0 ((fs_view s) <| fs_mem := k' |>)).
  { unfold either_copyout. unfold bind, gets. change (fs_pt (fs_view s)) with (p_pagetable (procs s (cur s))). rewrite Hpt.
    unfold in_vm, zoom. change (fs_mem (fs_view s)) with (fs_mem (kfs s)). by rewrite E. }
  unfold in_fs. rewrite Ev. change (blk ((fs_view s) <| fs_mem := k' |>)) with (ol_ack (ol_as (p_pid (procs s (cur s))) (blk (kfs s)))).
  rewrite ol_acked. reflexivity.
Qed.

Definition kc s (f : fst S) (k : consst) : kst S := s <| kfs := f |> <| con := k |>.

Context (s : kst S) (l : list Z) (root : Z) (T : gmap Z (nat * Z)) (fr : list (Z * Z)) (dst n : Z) (rd ln : list Z).
Hypothesis Hrun : runs_in end_ s l root T fr.
Hypothesis Hdst : 0 <= dst.
Hypothesis Hn : 0 <= n < 2 ^ 31.
Hypothesis Hacc : accessible fr dst n.

Lemma kc_set f k g : set_con g (kc s f k) = Ok tt (kc s f (g k)).
Proof. reflexivity. Qed.

(** The bytes [d] have been delivered. *)
Record given (f : fst S) (k : consst) (rest d : list Z) : Prop := {
  gv_rep : cons_rep k rest ln;
  gv_mem : umem end_ (fs_mem f) l root T fr;
  gv_wrote : wrote fr (fs_mem (kfs s)) (fs_mem f) dst d (len d);
  gv_con : k = ((con s) <| cn_r := cn_r k |>);
}.

(** One more byte. *)
Lemma given_byte f k rest d c :
  given f k rest d -> len d < n -> is_byte c ->
  exists f', in_fs (either_copyout true (dst + len d) [c] 1) (kc s f k) = Ok 0 (kc s f' k) /\ given f' k rest (d ++ [c]).
Proof.
  intros [R U W E] Hlt Hc. destruct (in_fs_copyout (kc s f k) (dst + len d) [c] l root T fr) as (f' & E' & U' & W').
  - split; [exact U|apply Hrun].
  - unfold len. lia.
  - by constructor.
  - done.
  - intros i Hi. rewrite <- Z.add_assoc. apply Hacc. unfold len in *. cbn in *. lia.
  - exists f'. split; [exact E'|]. split; auto.
    assert (Hw : wrote fr (fs_mem (kfs s)) (fs_mem f') dst (d ++ take (Z.to_nat 1) [c]) (len d + 1)).
    { apply (wrote_trans end_ (fs_mem (kfs s)) (fs_mem f) (fs_mem f') l root T fr); auto; unfold len in *; cbn in *; try lia.
      intros i Hi. apply Hacc. lia. }
    rewrite len_app. exact Hw.
Qed.

(** The loop variables after [d] has been delivered. *)
Definition reading (x : Z * Z) (f : fst S) (k : consst) (d rd' : list Z) : Prop :=
  x = (dst + len d, n - len d) /\ len d <= n /\ Forall is_byte rd' /\ line_ready (Z.to_nat (n - len d)) rd' /\ given f k rd' d /\
  next_line (Z.to_nat n) false rd =
    (d ++ (next_line (Z.to_nat (n - len d)) (len d >? 0) rd').1, (next_line (Z.to_nat (n - len d)) (len d >? 0) rd').2).

Lemma consoleread_turn f k d rd' x :
  reading x f k d rd' -> p_killed (procs s (cur s)) = false ->
  wp (consoleread_byte true n x) (fun r s' => exists f' k', s' = kc s f' k' /\
    match r with
    | inl x' => exists c rd'', reading x' f' k' (d ++ [c]) rd''
    | inr (inr n') => exists d', next_line (Z.to_nat n) false rd = (d', (next_line (Z.to_nat n) false rd).2) /\
                        n' = n - len d' /\ given f' k' (next_line (Z.to_nat n) false rd).2 d'
    | inr (inl _) => False
    end) (kc s f k).
Proof.
  intros (-> & Hd & Hb & Hr & G & En) Hk. unfold consoleread_byte. rewrite Z.gtb_ltb.
  destruct (Z.ltb_spec 0 (n - len d)) as [Hlt|Hge]; cbn [negb].
  2:{ apply wp_ret. exists f, k. split; [done|]. exists d. replace (Z.to_nat (n - len d)) with 0%nat in En by lia.
      rewrite En. cbn. rewrite app_nil_r. auto. }
  destruct (Z.to_nat (n - len d)) as [|m] eqn:Em; [lia|].
  apply wp_gets. change (con (kc s f k)) with k. destruct (cons_counts k rd' ln (gv_rep _ _ _ _ G)) as (_ & C2 & _). rewrite C2.
  destruct rd' as [|c rd']; [destruct Hr as [Hr|[Hr|Hr]]; [cbn in Hr; lia|by apply elem_of_nil in Hr..]|].
  rewrite bool_decide_false by done. destruct (cons_rep_get k c rd' ln (gv_rep _ _ _ _ G)) as [R2 ->].
  apply Forall_cons in Hb as [Hc Hb]. set (k2 := k <| cn_r := u32 (cn_r k + 1) |>) in *. rewrite next_line_cons in En.
  assert (G2 : given f k2 rd' d) by (destruct G as [G1 G2 G3 G4]; split; auto; unfold k2; rewrite G4; by destruct (con s)).
  unfold wp. rewrite (bind_Ok _ _ _ _ _ (kc_set f k _)). fold k2. destruct (Z.eqb_spec c (ctrl 68)) as [->|Hne].
  - (* end of file *)
    assert (Et : (n - len d <? n) = (len d >? 0)) by (rewrite Z.gtb_ltb; destruct (Z.ltb_spec (n - len d) n), (Z.ltb_spec 0 (len d)); lia || done).
    rewrite Et. cbn [Datatypes.fst Datatypes.snd] in En. rewrite app_nil_r in En. destruct (len d >? 0).
    + rewrite (bind_Ok _ _ _ _ _ (kc_set f k2 _)). cbn [ret]. exists f, k. split.
      * f_equal. unfold k2. pose proof (cr_r _ _ _ (gv_rep _ _ _ _ G)) as Hkr. destruct k. cbn in *. f_equal. zlia.
      * exists d. rewrite En. auto.
    + unfold bind, ret. exists f, k2. split; [done|]. exists d. rewrite En. auto.
  - destruct (given_byte f k2 rd' d c G2 ltac:(lia) Hc) as (f' & E & G3). rewrite (bind_Ok _ _ _ _ _ E). change (0 =? -1) with false. cbv iota.
    assert (Ei : len (d ++ [c]) = len d + 1) by (rewrite len_app; done).
    unfold ret. exists f', k2. split; [done|]. destruct (Z.eqb_spec c NL) as [->|Hnl].
    + exists (d ++ [NL]). rewrite En. cbn [Datatypes.fst Datatypes.snd]. split_and!; [done|lia|done].
    + exists c, rd'. split_and!; auto.
      * rewrite Ei, u64_small; [f_equal; lia|]. destruct (Hacc (len d)) as [a Ha]; [pose proof (len_nonneg d); lia|].
        unfold uaddr in Ha. destruct (user_frame fr (dst + len d)) as [pa|] eqn:Ef; [|done]. pose proof (len_nonneg d).
        apply (user_frame_max end_ (fs_mem f) l root T fr) in Ef; [|apply G|lia]. pose proof TRAPFRAME_MAXVA as HM. change MAXVA with (2 ^ 38) in HM. zpow. lia.
      * lia.
      * replace (Z.to_nat (n - len (d ++ [c]))) with m by lia. by eapply line_ready_step.
      * replace (Z.to_nat (n - len (d ++ [c]))) with m by lia. rewrite En, Ei. rewrite (proj2 (Z.gtb_lt (len d + 1) 0)) by (pose proof (len_nonneg d); lia).
        cbn [Datatypes.fst Datatypes.snd]. by rewrite <- app_assoc.
Qed.

Lemma consoleread_loop :
  cons_rep (con s) rd ln -> Forall is_byte rd -> line_ready (Z.to_nat n) rd -> p_killed (procs s (cur s)) = false ->
  wp (while_ (consoleread_byte true n) (dst, n)) (fun r s' => exists f' k' d', s' = kc s f' k' /\
    next_line (Z.to_nat n) false rd = (d', (next_line (Z.to_nat n) false rd).2) /\
    r = inr (n - len d') /\ given f' k' (next_line (Z.to_nat n) false rd).2 d') s.
Proof.
  intros R Hb Hr Hk. apply (wp_while _ (fun x s' => exists f k d rd', s' = kc s f k /\ reading x f k d rd') _ (fun x => x.2)).
  - intros x s' (f & k & d & rd' & -> & H). eapply wp_mono; [by apply (consoleread_turn f k d rd')|].
    intros r s' (f' & k' & -> & Hs). destruct r as [x'|[?|n']]; [|done|].
    + destruct Hs as (c & rd'' & Hs). split; [eauto 10|]. destruct H as (-> & _), Hs as (-> & _). cbn. rewrite len_app. unfold len. cbn. lia.
    + destruct Hs as (d' & E & -> & G). eauto 10.
  - exists (kfs s), (con s), [], rd. split; [by destruct s|]. unfold reading. change (len []) with 0. rewrite Z.add_0_r, Z.sub_0_r.
    split_and!; auto; [lia| |by destruct (next_line _ _ _)]. split; auto; [apply Hrun| |by destruct (con s)].
    split; [unfold len; cbn; lia|done].
  - intros x s' (f & k & d & rd' & _ & -> & Hle & _). cbn. lia.
  - cbn. zpow. lia.
Qed.

End Read.

Section Line.

Context (end_ : Z) {S : Type} {L : BlockLayer S} {O : OpLayer S} {LO : OpLaws S}.
Hypothesis end_pos : 0 < end_.

Implicit Types s : kst S.

(** What is typed, from what there was. *)
Definition typed (cs : list Z) (A : list Z * list Z) : list Z * list Z := foldl (fun A c => type_char c A) A cs.

(** The console between interrupts. *)
Definition cons_idle s : Prop :=
  cn_lock (con s) = false /\ (cn_locking (con s) = true -> cn_prlock (con s) = false) /\ unlocked_procs s.

Definition sleeps (c : chan) (x : proc) : Prop := p_state x = SLEEPING /\ p_chan x = Some c.

Lemma woken_wakes c x : sleeps c x -> p_state (woken c x) = RUNNABLE.
Proof. intros [H1 H2]. unfold woken, on_chan. rewrite decide_True, H2 by done. destruct c as [w i]. unfold chan_eqb. by rewrite String.eqb_refl, Z.eqb_refl. Qed.

Lemma woken_run c x : p_state x = RUNNABLE -> p_state (woken c x) = RUNNABLE.
Proof. intros H. unfold woken. by rewrite decide_False by congruence. Qed.

Lemma type_char_ready c rd ln : ends_line c rd ln = false -> (type_char c (rd, ln)).1 = rd.
Proof. unfold type_char. intros ->. by repeat case_match. Qed.

(** The interrupts leave everything but the console and the readers alone. *)
Record typed_to s s' (cs : list Z) (rd ln : list Z) : Prop := {
  tt_rep : cons_rep (con s') (typed cs (rd, ln)).1 (typed cs (rd, ln)).2;
  tt_idle : cons_idle s';
  tt_same : s' = (s <| con := con s' |> <| procs := procs s' |>);
  tt_proc : forall p, procs s' p = procs s p \/ procs s' p = woken cons_chan (procs s p);
  tt_wake : (typed cs (rd, ln)).1 <> rd -> forall p, 1 <= p <= NPROC -> sleeps cons_chan (procs s p) -> p_state (procs s' p) = RUNNABLE;
}.

Lemma typed_spec cs : forall s rd ln, cons_rep (con s) rd ln -> cons_idle s ->
  exists s', each cs consoleintr s = Ok tt s' /\ typed_to s s' cs rd ln.
Proof.
  induction cs as [|c cs IH]; intros s rd ln R (H1 & H2 & H3); cbn [each].
  { exists s. split; [done|]. split; [done|done|by destruct s|by left|done]. }
  destruct (consoleintr_spec s c rd ln R H1 H2 H3) as (k & pr & E & R1 & L1 & L2 & L3 & L4 & Hp).
  rewrite (bind_Ok _ _ _ _ _ E). set (s1 := s <| con := k |> <| procs := pr |>).
  assert (Hl1 : unlocked_procs s1).
  { intros p Hpp. change (p_lock (pr p) = false). rewrite Hp. case_match; rewrite ?woken_lock; by apply H3. }
  destruct (type_char c (rd, ln)) as [rd1 ln1] eqn:Ec. cbn in R1.
  destruct (IH s1 rd1 ln1 R1) as (s' & E' & [A1 A2 A3 A4 A5]); [split; [exact L1|split; [|exact Hl1]]; change (cn_locking k = true -> cn_prlock k = false); by rewrite L2, L3|].
  assert (Et : typed (c :: cs) (rd, ln) = typed cs (rd1, ln1)) by (unfold typed; cbn [foldl]; by rewrite Ec).
  assert (Hpr : forall p, pr p = procs s p \/ pr p = woken cons_chan (procs s p)) by (intros p; rewrite Hp; case_match; auto).
  exists s'. split; [done|]. split; rewrite ?Et; auto.
  - intros p. pose proof (A4 p) as Ap. change (procs s1 p) with (pr p) in Ap. destruct Ap as [->| ->], (Hpr p) as [->| ->]; auto. right. by rewrite woken_twice.
  - intros Hne p Hpp Hsl. destruct (decide (rd1 = rd)) as [->|Hn1].
    + apply A5; auto. change (sleeps cons_chan (pr p)). rewrite Hp. destruct (ends_line c rd ln) eqn:Ee; [|done].
      exfalso. unfold type_char in Ec. assert (Ht : is_text c rd ln = true) by (unfold ends_line in Ee; by apply andb_true_iff in Ee as [? _]).
      rewrite Ht, Ee in Ec. injection Ec as Ec _. apply (f_equal length) in Ec. rewrite !length_app in Ec. cbn in Ec. lia.
    + assert (Hw : pr p = woken cons_chan (procs s p)).
      { rewrite Hp. destruct (ends_line c rd ln) eqn:Ee; [by rewrite bool_decide_true|]. apply (type_char_ready c rd ln) in Ee. rewrite Ec in Ee. done. }
      pose proof (woken_wakes _ _ Hsl) as Hrun. pose proof (A4 p) as Ap. change (procs s1 p) with (pr p) in Ap. destruct Ap as [->| ->]; rewrite Hw; [done|by apply woken_run].
Qed.

Lemma type_char_bytes c rd ln : is_byte c -> Forall is_byte rd -> Forall is_byte ln ->
  Forall is_byte (type_char c (rd, ln)).1 /\ Forall is_byte (type_char c (rd, ln)).2.
Proof.
  intros Hc H1 H2. assert (Hc' : is_byte (cr_to_nl c)) by (unfold cr_to_nl; by destruct (_ =? _)).
  assert (Hr : Forall is_byte (removelast ln)) by (destruct ln as [|x ln' _] using rev_ind; [done|rewrite removelast_last; by apply Forall_app in H2 as [? _]]).
  unfold type_char. repeat case_match; cbn [Datatypes.fst Datatypes.snd]; rewrite ?Forall_app, ?Forall_cons; auto.
Qed.

Lemma typed_bytes cs : forall rd ln, Forall is_byte cs -> Forall is_byte rd -> Forall is_byte ln ->
  Forall is_byte (typed cs (rd, ln)).1.
Proof.
  induction cs as [|c cs IH]; intros rd ln Hc H1 H2; [done|]. apply Forall_cons in Hc as [Hc Hcs]. unfold typed. cbn [foldl].
  destruct (type_char_bytes c rd ln Hc H1 H2) as [A1 A2]. destruct (type_char c (rd, ln)) as [rd1 ln1]. by apply IH.
Qed.

(** C24: the line discipline of the console.  Whatever characters [cs] come in,
    with erasing, end of file, lines too long for the buffer and counters that
    wrap around: afterwards the readers that slept are runnable if a line has
    been finished, and a read of at most [n] characters delivers exactly the next
    line of what was typed with the corrections applied, leaving the rest. *)
Theorem console_line_discipline s cs rd ln l root T fr dst n :
  cons_rep (con s) rd ln -> cons_idle s -> Forall is_byte cs -> Forall is_byte rd -> Forall is_byte ln ->
  runs_in end_ s l root T fr -> p_killed (procs s (cur s)) = false -> 0 <= dst -> 0 <= n < 2 ^ 31 -> accessible fr dst n ->
  line_ready (Z.to_nat n) (typed cs (rd, ln)).1 ->
  exists s1 s2, each cs consoleintr s = Ok tt s1 /\
    ((typed cs (rd, ln)).1 <> rd -> forall p, 1 <= p <= NPROC -> sleeps cons_chan (procs s p) -> p_state (procs s1 p) = RUNNABLE) /\
    let '(d, rest) := next_line (Z.to_nat n) false (typed cs (rd, ln)).1 in
    consoleread true dst n s1 = Ok (len d) s2 /\ ubytes (fs_mem (kfs s2)) fr dst (len d) = d /\
    cons_rep (con s2) rest (typed cs (rd, ln)).2 /\ cn_lock (con s2) = false /\ k_noff s2 = k_noff s.
Proof.
  intros R Hi Hc Hb1 Hb2 Hrun Hk Hd Hn Ha Hr. destruct (typed_spec cs s rd ln R Hi) as (s1 & E1 & [A1 (I1 & I2 & I3) A3 A4 A5]).
  set (rd1 := (typed cs (rd, ln)).1) in *. set (ln1 := (typed cs (rd, ln)).2) in *.
  assert (Hcur : cur s1 = cur s) by (by rewrite A3). assert (Hno : k_noff s1 = k_noff s) by (by rewrite A3).
  assert (Hkfs : kfs s1 = kfs s) by (by rewrite A3).
  set (s2 := s1 <| con := (con s1) <| cn_lock := true |> |> <| k_noff := k_noff s1 + 1 |>).
  assert (El : clock s1 = Ok tt s2) by (unfold clock, lock_on; by rewrite I1).
  assert (Hp : forall c x, p_pagetable (woken c x) = p_pagetable x /\ p_killed (woken c x) = p_killed x).
  { intros c x. unfold woken. by repeat case_match. }
  assert (Hrun2 : runs_in end_ s2 l root T fr).
  { split; [change (umem end_ (fs_mem (kfs s1)) l root T fr); rewrite Hkfs; apply Hrun|].
    change (p_pagetable (procs s1 (cur s1)) = root). rewrite Hcur, <- (proj2 Hrun). destruct (A4 (cur s)) as [->| ->]; [done|apply Hp]. }
  assert (Hk2 : p_killed (procs s2 (cur s2)) = false).
  { change (p_killed (procs s1 (cur s1)) = false). rewrite Hcur, <- Hk. destruct (A4 (cur s)) as [->| ->]; [done|apply Hp]. }
  pose proof (consoleread_loop end_ end_pos s2 l root T fr dst n rd1 ln1 Hrun2 Hd Hn Ha) as H.
  apply wp_Ok in H as (r & s3 & E3 & f & k & d & -> & En & -> & [G1 G2 G3 G4]);
    [|by eapply cons_rep_ext|by apply typed_bytes|done|done].
  set (s4 := (kc s2 f k) <| con := k <| cn_lock := false |> |> <| k_noff := k_noff s |>).
  exists s1, s4. split; [done|]. split; [done|]. rewrite En. pose proof (next_line_length (Z.to_nat n) false rd1) as Hlen. rewrite En in Hlen. cbn in Hlen.
  split_and!.
  - unfold consoleread. rewrite u32_small by (zpow; lia). rewrite (bind_Ok _ _ _ _ _ El), (bind_Ok _ _ _ _ _ E3).
    assert (Eu : cunlock (kc s2 f k) = Ok tt s4).
    { unfold cunlock, lock_off. change (con (kc s2 f k)) with k. replace (cn_lock k) with true by (by rewrite G4). unfold s4.
      replace (k_noff s) with (k_noff (kc s2 f k) - 1) by (change (k_noff (kc s2 f k)) with (k_noff s1 + 1); lia). reflexivity. }
    rewrite (bind_Ok _ _ _ _ _ Eu). unfold ret. f_equal. rewrite s32_small; unfold len in *; lia.
  - change (ubytes (fs_mem f) fr dst (len d) = d). by apply (wrote_ubytes fr (fs_mem (kfs s2))).
  - by eapply cons_rep_ext.
  - done.
  - done.
Qed.

End Line.

(** "ab", erase, "c", newline: the reader gets "ac" and the newline. *)
Lemma console_line_discipline_witness :
  exists s1 s2 s3 : kst lst, each [97; 98; 127; 99; 13] consoleintr s1 = Ok tt s2 /\ consoleread true 4000 5 s2 = Ok 3 s3.
Proof.
  destruct sample_process as (k & l & T & new & U & Hnew & _). destruct demo_blocks as [b _]. set (s := sample b k).
  destruct (console_line_discipline E64 E64_pos s [97; 98; 127; 99; 13] [] [] l R64 T (frames new) 4000 5) as (s2 & s3 & E1 & _ & E2 & _).
  - split; [reflexivity|done|reflexivity|reflexivity|done|cbn; lia|apply not_elem_of_nil].
  - split; [reflexivity|split; [discriminate|exact (sample_unlocked b k)]].
  - repeat (apply Forall_cons; split; [done|]). constructor.
  - constructor.
  - constructor.
  - split; [exact U|reflexivity].
  - reflexivity.
  - lia.
  - lia.
  - by apply sample_accessible.
  - right. left. change (NL ∈ [97; 99; 10]). right. right. left.
  - exists s, s2, s3. split; [exact E1|exact E2].
Defined.
