(* ===== verification/Buddy.v ===== *)
(** * [kernel/buddy.c]: the buddy allocator

    A heap of [2^MAXSIZE] leaves of 16 bytes.  Block [i] of size [k] is
    [16 * 2^k] bytes at [bd_base + i * 16 * 2^k].  For every size there is a free
    list, with its nodes in the free blocks themselves ([bd_nodes]), and two bit
    arrays in the memory at the start of the heap ([bd_mem]): [alloc], set for a
    block that is handed out or split, and [split].  What the routines print is
    appended to [bd_out]. *)
From stdpp Require Import base list gmap strings.
From Stdlib Require Import ZArith Lia.
From S2P Require Import Prelude KString DList Console.

#[local] Open Scope Z_scope.
#[local] Open Scope xv6_scope.

Record bdst : Type := Bd {
  nsizes : Z;              (** the number of entries in [bd_sizes] *)
  bd_sizes : Z;            (** address of the array *)
  bd_alloc : Z -> Z;       (** [bd_sizes[k].alloc] *)
  bd_split : Z -> Z;       (** [bd_sizes[k].split] *)
  bd_base : Z;
  bd_lock : bool;
  bd_mem : mem;            (** memory, without the list nodes *)
  bd_nodes : dheap;        (** the list nodes *)
  bd_out : list Z;
}.

#[export] Instance bdst_eta : Eta bdst := fun s =>
  Bd (nsizes s) (bd_sizes s) (bd_alloc s) (bd_split s) (bd_base s) (bd_lock s) (bd_mem s) (bd_nodes s) (bd_out s).

Abbreviation B := (M bdst).

Definition LEAF_SIZE : Z := 16.
Definition MAXSIZE (s : bdst) : Z := nsizes s - 1.
Definition BLK_SIZE (k : Z) : Z := Z.shiftl 1 k * LEAF_SIZE.
Definition NBLK (s : bdst) (k : Z) : Z := Z.shiftl 1 (MAXSIZE s - k).
Definition ROUNDUP (n sz : Z) : Z := ((n - 1) / sz + 1) * sz.

(** [&bd_sizes[k].free]; a [struct sz_info] has 32 bytes. *)
Definition SZ_INFO : Z := 32.
Definition free_of (s : bdst) (k : Z) : Z := bd_sizes s + k * SZ_INFO.

(** ** Bits *)

Definition bit_isset (m : mem) (array index : Z) : bool :=
  let b := m (array + index / 8) in
  let m := Z.shiftl 1 (index mod 8) in
  Z.land b m =? m.
Definition bit_set (m : mem) (array index : Z) : mem :=
  upd m (array + index / 8) (Z.lor (m (array + index / 8)) (Z.shiftl 1 (index mod 8))).
Definition bit_clear (m : mem) (array index : Z) : mem :=
  upd m (array + index / 8) (Z.ldiff (m (array + index / 8)) (Z.shiftl 1 (index mod 8))).

Definition set_bit_in (array : bdst -> Z) (index : Z) : B unit :=
  modify (fun s => s <| bd_mem := bit_set (bd_mem s) (array s) index |>).
Definition clear_bit_in (array : bdst -> Z) (index : Z) : B unit :=
  modify (fun s => s <| bd_mem := bit_clear (bd_mem s) (array s) index |>).
Definition get_bit_in (array : bdst -> Z) (index : Z) : B bool :=
  gets (fun s => bit_isset (bd_mem s) (array s) index).

(** ** Printing *)

Definition bd_printf (fmt : list Z) (args : list parg) : B unit :=
  modify (fun s => s <| bd_out := bd_out s ++ format fmt args |>).

(** One turn of the loop of [bd_print_vector], on [last], [lb] and [b]. *)
Definition print_bit (vector len : Z) (x : bool * Z * Z) : B (bool * Z * Z + bool * Z) :=
  let '(last, lb, b) := x in
  if negb (b <? len) then ret (inr (last, lb)) else
  bit ← get_bit_in (fun _ => vector) b ;
  if Bool.eqb last bit then ret (inl (last, lb, b + 1)) else
  ((if last then bd_printf (bytes_of " [%d, %d)") [AInt lb; AInt b] else ret tt) ;;
   ret (inl (bit, b, b + 1))).

Definition bd_print_vector (vector len : Z) : B unit :=
  r ← while_ (print_bit vector len) (true, 0, 0) ;
  let '(last, lb) := r : bool * Z in
  (if (lb =? 0) || last then bd_printf (bytes_of " [%d, %d)") [AInt lb; AInt len] else ret tt) ;;
  bd_printf [NL] [].

(** The output of [lst_print]. *)
Definition bd_print_list (k : Z) : B unit :=
  s ← gets (fun s => s) ;
  let nodes := lst_print (Z.to_nat (NBLK s 0)) (bd_nodes s) (free_of s k) in
  modify (fun s => s <| bd_out := bd_out s ++ concat ((fun p => format (bytes_of " %p") [APtr p]) <$> nodes) ++ [NL] |>).

Definition bd_print_size (k : Z) : B unit :=
  n ← gets (fun s => NBLK s k) ;
  bd_printf (bytes_of "size %d (blksz %d nblk %d): free list: ") [AInt k; AInt (BLK_SIZE k); AInt n] ;;
  bd_print_list k ;;
  bd_printf (bytes_of "  alloc:") [] ;;
  a ← gets (fun s => bd_alloc s k) ;
  bd_print_vector a n ;;
  if k >? 0 then
    bd_printf (bytes_of "  split:") [] ;;
    p ← gets (fun s => bd_split s k) ;
    bd_print_vector p n
  else ret tt.

Fixpoint bd_each (l : list Z) (f : Z -> B unit) : B unit :=
  match l with
  | [] => ret tt
  | k :: l => f k ;; bd_each l f
  end.

Definition bd_print : B unit :=
  n ← gets nsizes ;
  bd_each (zseq 0 (Z.to_nat n)) bd_print_size.

(** ** Sizes and indices *)

(** One turn of the loop of [firstk], on [k] and [size]. *)
Definition firstk_turn (n : Z) (x : Z * Z) : B (Z * Z + Z) :=
  let '(k, size) := x in
  if size <? n then ret (inl (k + 1, u64 (size * 2))) else ret (inr k).

Definition firstk (n : Z) : B Z := while_ (firstk_turn n) (0, LEAF_SIZE).

Definition blk_index (s : bdst) (k p : Z) : Z :=
  let n := s32 (p - bd_base s) in
  s32 (Z.quot n (BLK_SIZE k)).

Definition addr (s : bdst) (k bi : Z) : Z :=
  let n := s32 (bi * BLK_SIZE k) in
  u64 (bd_base s + n).

(** The first block of size [k] that does not contain [p]. *)
Definition blk_index_next (s : bdst) (k p : Z) : Z :=
  let n := s32 (Z.quot (p - bd_base s) (BLK_SIZE k)) in
  if negb (Z.rem (p - bd_base s) (BLK_SIZE k) =? 0) then n + 1 else n.

(** One turn of the loop of [log2], on [k] and [n]. *)
Definition log2_turn (x : Z * Z) : B (Z * Z + Z) :=
  let '(k, n) := x in
  if n >? 1 then ret (inl (k + 1, Z.shiftr n 1)) else ret (inr k).

Definition log2 (n : Z) : B Z := while_ log2_turn (0, n).

(** The block that forms a block of size [k+1] together with [bi]. *)
Definition buddy_of (bi : Z) : Z := if bi mod 2 =? 0 then bi + 1 else bi - 1.

(** ** Allocation *)

(** The search for a free block, from size [k] on. *)
Definition find_free (k : Z) : B (Z + Z) :=
  n ← gets nsizes ;
  if negb (k <? n) then ret (inr k) else
  e ← gets (fun s => lst_empty (bd_nodes s) (free_of s k)) ;
  if negb e then ret (inr k) else ret (inl (k + 1)).

(** Split a block at size [k] and mark one half allocated at size [k-1]. *)
Definition split_block (p fk k : Z) : B (Z + unit) :=
  if negb (k >? fk) then ret (inr tt) else
  let q := p + BLK_SIZE (k - 1) in
  bk ← gets (fun s => blk_index s k p) ;
  set_bit_in (fun s => bd_split s k) bk ;;
  bk1 ← gets (fun s => blk_index s (k - 1) p) ;
  set_bit_in (fun s => bd_alloc s (k - 1)) bk1 ;;
  modify (fun s => s <| bd_nodes := lst_push (bd_nodes s) (free_of s (k - 1)) q |>) ;;
  ret (inl (k - 1)).

Definition bd_malloc (nbytes : Z) : B Z :=
  acquire bd_lock ;;
  fk ← firstk nbytes ;
  k ← while_ find_free fk ;
  n ← gets nsizes ;
  if k >=? n then release bd_lock ;; ret 0 else
  head ← gets (fun s => free_of s k) ;
  p ← zoom bd_nodes (fun h s => s <| bd_nodes := h |>) (lst_pop head) ;
  bi ← gets (fun s => blk_index s k p) ;
  set_bit_in (fun s => bd_alloc s k) bi ;;
  while_ (split_block p fk) k ;;
  release bd_lock ;;
  ret p.

(** One turn of the loop of [size]. *)
Definition size_turn (p k : Z) : B (Z + Z) :=
  n ← gets nsizes ;
  if negb (k <? n) then ret (inr 0) else
  b ← (bi ← gets (fun s => blk_index s (k + 1) p) ; get_bit_in (fun s => bd_split s (k + 1)) bi) ;
  if b : bool then ret (inr k) else ret (inl (k + 1)).

Definition size (p : Z) : B Z := while_ (size_turn p) 0.

(** One turn of the loop of [bd_free], on [p] and [k]. *)
Definition free_turn (x : Z * Z) : B (Z * Z + Z * Z) :=
  let '(p, k) := x in
  m ← gets MAXSIZE ;
  if negb (k <? m) then ret (inr (p, k)) else
  bi ← gets (fun s => blk_index s k p) ;
  let buddy := buddy_of bi in
  clear_bit_in (fun s => bd_alloc s k) bi ;;
  b ← get_bit_in (fun s => bd_alloc s k) buddy ;
  if b : bool then ret (inr (p, k)) else
  q ← gets (fun s => addr s k buddy) ;
  modify (fun s => s <| bd_nodes := lst_remove (bd_nodes s) q |>) ;;
  let p := if buddy mod 2 =? 0 then q else p in
  bk1 ← gets (fun s => blk_index s (k + 1) p) ;
  clear_bit_in (fun s => bd_split s (k + 1)) bk1 ;;
  ret (inl (p, k + 1)).

Definition bd_free (p : Z) : B unit :=
  acquire bd_lock ;;
  k ← size p ;
  x ← while_ free_turn (p, k) ;
  let '(p, k) := x : Z * Z in
  modify (fun s => s <| bd_nodes := lst_push (bd_nodes s) (free_of s k) p |>) ;;
  release bd_lock.

(** ** Initialisation *)

(** One turn of the inner loop of [bd_mark]. *)
Definition mark_block (k bj bi : Z) : B (Z + unit) :=
  if negb (bi <? bj) then ret (inr tt) else
  (if k >? 0 then set_bit_in (fun s => bd_split s k) bi else ret tt) ;;
  set_bit_in (fun s => bd_alloc s k) bi ;;
  ret (inl (bi + 1)).

Definition mark_size (start stop k : Z) : B unit :=
  bi ← gets (fun s => blk_index s k start) ;
  bj ← gets (fun s => blk_index_next s k stop) ;
  while_ (mark_block k bj) bi.

Definition bd_mark (start stop : Z) : B unit :=
  if negb (start mod LEAF_SIZE =? 0) || negb (stop mod LEAF_SIZE =? 0) then panic "bd_mark" else
  n ← gets nsizes ;
  bd_each (zseq 0 (Z.to_nat n)) (mark_size start stop).

Definition bd_initfree_pair (k bi : Z) : B Z :=
  let buddy := buddy_of bi in
  b ← get_bit_in (fun s => bd_alloc s k) bi ;
  b' ← get_bit_in (fun s => bd_alloc s k) buddy ;
  if negb (Bool.eqb b b') then
    modify (fun s => s <| bd_nodes := lst_push (bd_nodes s) (free_of s k) (addr s k (if b then buddy else bi)) |>) ;;
    ret (s32 (BLK_SIZE k))
  else ret 0.

Definition initfree_size (bd_left bd_right k free : Z) : B Z :=
  left ← gets (fun s => blk_index_next s k bd_left) ;
  right ← gets (fun s => blk_index s k bd_right) ;
  f1 ← bd_initfree_pair k left ;
  if right <=? left then ret (free + f1) else
  f2 ← bd_initfree_pair k right ;
  ret (free + f1 + f2).

Fixpoint initfree_loop (bd_left bd_right : Z) (l : list Z) (free : Z) : B Z :=
  match l with
  | [] => ret free
  | k :: l => free ← initfree_size bd_left bd_right k free ; initfree_loop bd_left bd_right l free
  end.

Definition bd_initfree (bd_left bd_right : Z) : B Z :=
  m ← gets MAXSIZE ;
  initfree_loop bd_left bd_right (zseq 0 (Z.to_nat m)) 0.

Definition bd_mark_data_structures (p : Z) : B Z :=
  base ← gets bd_base ;
  m ← gets MAXSIZE ;
  let meta := s32 (p - base) in
  bd_printf (bytes_of "bd: %d meta bytes for managing %d bytes of memory" ++ [NL]) [AInt meta; AInt (BLK_SIZE m)] ;;
  bd_mark base p ;;
  ret meta.

Definition bd_mark_unavailable (end_ left : Z) : B Z :=
  base ← gets bd_base ;
  m ← gets MAXSIZE ;
  let unavailable := s32 (BLK_SIZE m - (end_ - base)) in
  let unavailable := if unavailable >? 0 then ROUNDUP unavailable LEAF_SIZE else unavailable in
  bd_printf (bytes_of "bd: 0x%x bytes unavailable" ++ [NL]) [AInt unavailable] ;;
  let bd_end := base + BLK_SIZE m - unavailable in
  bd_mark bd_end (base + BLK_SIZE m) ;;
  ret unavailable.

(** The arrays of size [k] start at [p]; the result is where the next one does. *)
Definition array_size (s : bdst) (k : Z) : Z := ROUNDUP (NBLK s k) 8 / 8.

Definition init_alloc (k p : Z) : B Z :=
  modify (fun s => s <| bd_nodes := lst_init (bd_nodes s) (free_of s k) |>) ;;
  sz ← gets (fun s => array_size s k) ;
  modify (fun s => s <| bd_alloc := upd (bd_alloc s) k p |> <| bd_mem := memset (bd_mem s) p 0 sz |>) ;;
  ret (p + sz).

Definition init_split (k p : Z) : B Z :=
  sz ← gets (fun s => array_size s k) ;
  modify (fun s => s <| bd_split := upd (bd_split s) k p |> <| bd_mem := memset (bd_mem s) p 0 sz |>) ;;
  ret (p + sz).

Fixpoint init_arrays (f : Z -> Z -> B Z) (l : list Z) (p : Z) : B Z :=
  match l with
  | [] => ret p
  | k :: l => p ← f k p ; init_arrays f l p
  end.

Definition bd_init (base end_ : Z) : B unit :=
  let p := ROUNDUP base LEAF_SIZE in
  modify (fun s => s <| bd_lock := false |>) ;;
  modify (fun s => s <| bd_base := p |>) ;;
  lg ← log2 (Z.quot (end_ - p) LEAF_SIZE) ;
  modify (fun s => s <| nsizes := lg + 1 |>) ;;
  m ← gets MAXSIZE ;
  (if end_ - p >? BLK_SIZE m then modify (fun s => s <| nsizes := nsizes s + 1 |>) else ret tt) ;;
  n ← gets nsizes ;
  bd_printf (bytes_of "bd: memory sz is %d bytes; allocate an size array of length %d" ++ [NL]) [AInt (end_ - p); AInt n] ;;
  modify (fun s => s <| bd_sizes := p |>) ;;
  modify (fun s => s <| bd_mem := memset (bd_mem s) p 0 (SZ_INFO * n) |>) ;;
  p ← init_arrays init_alloc (zseq 0 (Z.to_nat n)) (p + SZ_INFO * n) ;
  p ← init_arrays init_split (zseq 1 (Z.to_nat (n - 1))) p ;
  let p := ROUNDUP p LEAF_SIZE in
  meta ← bd_mark_data_structures p ;
  unavailable ← bd_mark_unavailable end_ p ;
  base ← gets bd_base ;
  m ← gets MAXSIZE ;
  let bd_end := base + BLK_SIZE m - unavailable in
  free ← bd_initfree p bd_end ;
  if negb (free =? BLK_SIZE m - meta - unavailable)
  then bd_printf (bytes_of "free %d %d" ++ [NL]) [AInt free; AInt (BLK_SIZE m - meta - unavailable)] ;; panic "bd_init: free mem"
  else ret tt.
