(* ===== verification/BuddyProps.v ===== *)
(** * The buddy allocator hands out disjoint blocks

    The heap is described by an abstract state: the two bits of every block and
    the block numbers on every free list.  [buddy_inv] says which combinations
    are reachable; the four steps of the allocator (take a block off its list,
    split it, merge it with its buddy, give it back) preserve it and change the
    set of live blocks as they should.  [bd_rep] ties the abstract state to the
    bit arrays and the linked lists of [kernel/buddy.c]. *)
From stdpp Require Import base list gmap strings.
From Stdlib Require Import ZArith Lia.
From S2P Require Import Prelude KString DList Console Buddy.

#[local] Open Scope Z_scope.
#[local] Open Scope xv6_scope.

(** ** The abstract heap *)

Record heap : Type := Heap {
  hA : Z -> Z -> bool;     (** block [i] of size [k] is allocated or split *)
  hS : Z -> Z -> bool;     (** ... is split *)
  hF : Z -> list Z;        (** the free blocks of size [k] *)
}.

Definition upd2 (f : Z -> Z -> bool) (k i : Z) (v : bool) : Z -> Z -> bool :=
  fun k' i' => if (k' =? k) && (i' =? i) then v else f k' i'.

Definition setA (a : heap) (k i : Z) (v : bool) : heap := Heap (upd2 (hA a) k i v) (hS a) (hF a).
Definition setS (a : heap) (k i : Z) (v : bool) : heap := Heap (hA a) (upd2 (hS a) k i v) (hF a).
Definition setF (a : heap) (k : Z) (l : list Z) : heap := Heap (hA a) (hS a) (upd (hF a) k l).

(** A block of a heap of [2^M] leaves. *)
Definition blk (M k i : Z) : Prop := 0 <= k <= M /\ 0 <= i < 2 ^ (M - k).

(** A block exists when it is the whole heap or its parent is split. *)
Definition exists_ (M : Z) (a : heap) (k i : Z) : Prop := k = M \/ hS a (k + 1) (i / 2) = true.

(** A block that is handed out. *)
Definition live (M : Z) (a : heap) (k i : Z) : Prop := blk M k i /\ hA a k i = true /\ hS a k i = false.

(** The first [L] leaves hold the allocator's own data. *)
Definition own (L k i : Z) : Prop := k = 0 /\ i < L.

Record buddy_inv (M L : Z) (a : heap) : Prop := {
  bi_size : 0 < L < 2 ^ M /\ 0 <= M;
  bi_split : forall k i, blk M k i -> hS a k i = true -> exists_ M a k i /\ hA a k i = true /\ 0 < k;
  bi_alloc : forall k i, blk M k i -> hA a k i = true -> exists_ M a k i;
  bi_free : forall k i, i ∈ hF a k /\ 0 <= k <= M <-> blk M k i /\ exists_ M a k i /\ hA a k i = false;
  bi_merged : forall k i, blk M k i -> k < M -> exists_ M a k i -> hA a k i = false -> hA a k (buddy_of i) = true;
  bi_own : forall i, 0 <= i < L -> hA a 0 i = true;
  bi_nodup : forall k, 0 <= k <= M -> NoDup (hF a k);
}.

Lemma blk_up M k i : blk M k i -> k < M -> blk M (k + 1) (i / 2).
Proof.
  intros [Hk Hi] Hl. split; [lia|]. replace (M - k) with (M - (k + 1) + 1) in Hi by lia.
  rewrite Z.pow_add_r in Hi by lia. split; [apply Z.div_pos; lia|]. apply Z.div_lt_upper_bound; lia.
Qed.

Lemma blk_down M k i b : blk M k i -> 0 < k -> 0 <= b <= 1 -> blk M (k - 1) (2 * i + b).
Proof.
  intros [Hk Hi] Hl Hb. split; [lia|]. replace (M - (k - 1)) with (M - k + 1) by lia.
  rewrite Z.pow_add_r by lia. lia.
Qed.

Lemma buddy_half i : buddy_of i / 2 = i / 2.
Proof. unfold buddy_of. destruct (Z.eqb_spec (i mod 2) 0); Z.to_euclidean_division_equations; lia. Qed.

Lemma buddy_of_of i : buddy_of (buddy_of i) = i.
Proof.
  unfold buddy_of. destruct (Z.eqb_spec (i mod 2) 0) as [E|E];
    [destruct (Z.eqb_spec ((i + 1) mod 2) 0)|destruct (Z.eqb_spec ((i - 1) mod 2) 0)];
    Z.to_euclidean_division_equations; lia.
Qed.

Lemma buddy_ne i : buddy_of i <> i.
Proof. unfold buddy_of. destruct (_ =? _); lia. Qed.

(** The children of a block. *)
Lemma half_cases i j : i / 2 = j -> i = 2 * j \/ i = 2 * j + 1.
Proof. intros <-. Z.to_euclidean_division_equations. lia. Qed.

Lemma half_buddies i j : i / 2 = j / 2 -> i = j \/ i = buddy_of j.
Proof.
  unfold buddy_of. intros H. destruct (Z.eqb_spec (j mod 2) 0); Z.to_euclidean_division_equations; lia.
Qed.

Lemma blk_buddy M k i : blk M k i -> k < M -> blk M k (buddy_of i).
Proof.
  intros H Hl. pose proof (blk_up _ _ _ H Hl) as Hu.
  assert (H2 : blk M (k + 1 - 1) (2 * (i / 2) + buddy_of i mod 2)).
  { apply blk_down; [done|destruct H; lia|]. pose proof (Z.mod_pos_bound (buddy_of i) 2). lia. }
  rewrite <- (buddy_half i) in H2. rewrite Z.add_simpl_r in H2. rewrite <- Z.div_mod in H2 by lia. done.
Qed.

Lemma upd2_eq f k i v : upd2 f k i v k i = v.
Proof. unfold upd2. by rewrite !Z.eqb_refl. Qed.

Lemma upd2_cases f k i v k' i' :
  (k' = k /\ i' = i /\ upd2 f k i v k' i' = v) \/ (~ (k' = k /\ i' = i) /\ upd2 f k i v k' i' = f k' i').
Proof. unfold upd2. destruct (Z.eqb_spec k' k), (Z.eqb_spec i' i); cbn; tauto. Qed.

Lemma upd2_ne f k i v k' i' : ~ (k' = k /\ i' = i) -> upd2 f k i v k' i' = f k' i'.
Proof. destruct (upd2_cases f k i v k' i'); tauto. Qed.

(** The leaves of a block. *)
Definition leaf_in (k i x : Z) : Prop := i * 2 ^ k <= x < (i + 1) * 2 ^ k.

Lemma leaf_up k i x : 0 <= k -> leaf_in k i x -> leaf_in (k + 1) (i / 2) x.
Proof.
  unfold leaf_in. intros Hk H. rewrite Z.pow_add_r by lia. change (2 ^ 1) with 2.
  pose proof (Z.div_mod i 2). pose proof (Z.mod_pos_bound i 2). nia.
Qed.

Lemma leaf_same k i i' x : leaf_in k i x -> leaf_in k i' x -> i = i'.
Proof. unfold leaf_in. intros. nia. Qed.

(** ** The four steps *)

Section Steps.
Context (M L : Z) (a : heap) (I : buddy_inv M L a).

(** Take a free block off its list. *)
Definition take (k i : Z) (l : list Z) : heap := setF (setA a k i true) k l.
(** Split a live block; the first half stays live. *)
Definition split (k i : Z) : heap :=
  setF (setA (setS a k i true) (k - 1) (2 * i) true) (k - 1) ((2 * i + 1) :: hF a (k - 1)).
(** Merge a live block with its free buddy. *)
Definition merge (k i : Z) (l : list Z) : heap := setS (setF (setA a k i false) k l) (k + 1) (i / 2) false.
(** Put a live block on the free list. *)
Definition give (k i : Z) : heap := setF (setA a k i false) k (i :: hF a k).

Lemma free_spec k i : blk M k i -> (i ∈ hF a k) <-> exists_ M a k i /\ hA a k i = false.
Proof. intros H. pose proof (bi_free _ _ _ I k i). unfold blk in *. tauto. Qed.

Lemma free_blk k i : 0 <= k <= M -> i ∈ hF a k -> blk M k i.
Proof. intros H Hi. by apply (bi_free _ _ _ I k i). Qed.

Lemma take_inv k i xs ys :
  0 <= k <= M -> hF a k = xs ++ i :: ys -> buddy_inv M L (take k i (xs ++ ys)) /\ 
  live M (take k i (xs ++ ys)) k i /\
  forall k' i', ~ (k' = k /\ i' = i) -> live M (take k i (xs ++ ys)) k' i' <-> live M a k' i'.
Proof.
  intros Hk E. assert (Hin : i ∈ hF a k) by (rewrite E; set_solver).
  pose proof (free_blk k i Hk Hin) as Hb. pose proof (proj1 (free_spec k i Hb) Hin) as [He Ha].
  assert (Hsp : hS a k i = false).
  { destruct (hS a k i) eqn:Es; [|done]. apply (bi_split _ _ _ I) in Es; [|done]. destruct Es as (_ & Es & _). congruence. }
  pose proof (bi_nodup _ _ _ I k Hk) as Hnd. rewrite E in Hnd.
  assert (Hni : (i ∉ xs ++ ys) /\ NoDup (xs ++ ys)).
  { apply NoDup_app in Hnd as (N1 & N2 & N3). apply NoDup_cons in N3 as [N3 N4]. split; [set_solver|]. rewrite NoDup_app. split_and!; set_solver. }
  split; [split; unfold take, exists_; cbn|].
  - apply (bi_size _ _ _ I).
  - intros j x Hx Hs. destruct (bi_split _ _ _ I j x Hx Hs) as (H1 & H2 & H3).
    destruct (upd2_cases (hA a) k i true j x) as [(-> & -> & ->)|[_ ->]]; auto.
  - intros j x Hx Hs. destruct (upd2_cases (hA a) k i true j x) as [(-> & -> & _)|[_ E2]]; [done|].
    rewrite E2 in Hs. by apply (bi_alloc _ _ _ I).
  - intros j x. destruct (decide (j = k)) as [->|Hn].
    + rewrite upd_same. destruct (upd2_cases (hA a) k i true k x) as [(_ & -> & ->)|[N ->]].
      * split; [tauto|]. intros (_ & _ & [=]).
      * pose proof (bi_free _ _ _ I k x) as F. rewrite E in F. rewrite <- F. set_solver.
    + rewrite upd_other by done. rewrite upd2_ne by tauto. apply (bi_free _ _ _ I).
  - intros j x Hx Hl Hex Hf. destruct (upd2_cases (hA a) k i true j (buddy_of x)) as [(_ & _ & ->)|[_ ->]]; [done|].
    destruct (upd2_cases (hA a) k i true j x) as [(_ & _ & E2)|[_ E2]]; [congruence|].
    rewrite E2 in Hf. by apply (bi_merged _ _ _ I).
  - intros x Hx. destruct (upd2_cases (hA a) k i true 0 x) as [(_ & _ & ->)|[_ ->]]; [done|]. by apply (bi_own _ _ _ I).
  - intros j Hj. destruct (decide (j = k)) as [->|Hn]; [rewrite upd_same; tauto|rewrite upd_other by done; by apply (bi_nodup _ _ _ I)].
  - unfold live, take; cbn. rewrite upd2_eq. split; [done|]. intros j x N. by rewrite upd2_ne.
Qed.

(** A block that does not exist has no bit set and is on no list. *)
Lemma absent k i : blk M k i -> ~ exists_ M a k i -> hA a k i = false /\ hS a k i = false /\ (i ∉ hF a k).
Proof.
  intros Hb Hn. split_and!.
  - destruct (hA a k i) eqn:E; [|done]. by destruct (Hn (bi_alloc _ _ _ I _ _ Hb E)).
  - destruct (hS a k i) eqn:E; [|done]. by destruct (Hn (proj1 (bi_split _ _ _ I _ _ Hb E))).
  - intros H. apply free_spec in H; tauto.
Qed.

(** The halves of a live block do not exist. *)
Lemma live_children k i b :
  live M a k i -> 0 < k -> 0 <= b <= 1 -> blk M (k - 1) (2 * i + b) /\ ~ exists_ M a (k - 1) (2 * i + b).
Proof.
  intros (Hb & Ha & Hs) Hk Hbb. split; [by apply blk_down|].
  intros [H|H]; [destruct Hb; lia|]. replace (k - 1 + 1) with k in H by lia.
  replace ((2 * i + b) / 2) with i in H by (Z.to_euclidean_division_equations; lia). congruence.
Qed.

Lemma split_exists k i j x :
  exists_ M (split k i) j x <-> exists_ M a j x \/ (j = k - 1 /\ (x = 2 * i \/ x = 2 * i + 1)).
Proof.
  unfold exists_, split; cbn.
  destruct (upd2_cases (hS a) k i true (j + 1) (x / 2)) as [(E1 & E2 & ->)|[N ->]].
  - apply half_cases in E2. split; [intros _; right; lia|tauto].
  - split; [tauto|]. intros [?|(-> & Hx)]; [done|]. exfalso. apply N. split; [lia|].
    destruct Hx as [-> | ->]; Z.to_euclidean_division_equations; lia.
Qed.

Lemma split_inv k i :
  live M a k i -> 0 < k -> buddy_inv M L (split k i).
Proof.
  intros Hl Hk. pose proof Hl as (Hb & Ha & Hs). pose proof (bi_alloc _ _ _ I k i Hb Ha) as He.
  destruct (live_children k i 0 Hl Hk ltac:(lia)) as [B0 N0]. destruct (live_children k i 1 Hl Hk ltac:(lia)) as [B1 N1].
  rewrite Z.add_0_r in *. destruct (absent _ _ B0 N0) as (A0 & S0 & F0). destruct (absent _ _ B1 N1) as (A1 & S1 & F1).
  assert (Hbud : buddy_of (2 * i + 1) = 2 * i).
  { destruct (half_buddies (2 * i) (2 * i + 1)); [Z.to_euclidean_division_equations; lia|lia|done]. }
  split.
  - apply (bi_size _ _ _ I).
  - intros j x Hx. rewrite split_exists. cbn.
    destruct (upd2_cases (hS a) k i true j x) as [(-> & -> & ->)|[N ->]].
    + intros _. rewrite upd2_ne by lia. auto.
    + intros E. destruct (bi_split _ _ _ I j x Hx E) as (E1 & E2 & E3).
      destruct (upd2_cases (hA a) (k - 1) (2 * i) true j x) as [(_ & _ & ->)|[_ ->]]; auto.
  - intros j x Hx. rewrite split_exists. cbn.
    destruct (upd2_cases (hA a) (k - 1) (2 * i) true j x) as [(-> & -> & _)|[_ ->]]; [auto|].
    intros E. left. by apply (bi_alloc _ _ _ I).
  - intros j x. rewrite split_exists. cbn. pose proof (bi_free _ _ _ I j x) as F.
    destruct (decide (j = k - 1)) as [->|Hn].
    + rewrite upd_same, elem_of_cons. destruct (upd2_cases (hA a) (k - 1) (2 * i) true (k - 1) x) as [(_ & -> & ->)|[N ->]].
      * split; [intros [[?|?] _]; [lia|done]|intros (_ & _ & [=])].
      * destruct (decide (x = 2 * i + 1)) as [->|]; [|destruct (decide (x = 2 * i)); [lia|]; tauto].
        split; [intros _; split_and!; auto; exact B1|intros _; split; [auto|apply B1]].
    + rewrite upd_other by done. rewrite upd2_ne by tauto. rewrite F. split; [tauto|]. intros (? & [?|?] & ?); tauto.
  - intros j x Hx Hlt Hex. apply split_exists in Hex. cbn.
    destruct (upd2_cases (hA a) (k - 1) (2 * i) true j (buddy_of x)) as [(_ & _ & ->)|[N ->]]; [done|].
    destruct (upd2_cases (hA a) (k - 1) (2 * i) true j x) as [(_ & _ & ->)|[N2 ->]]; [done|].
    intros Hf. destruct Hex as [Hex|(-> & [-> | ->])]; [by apply (bi_merged _ _ _ I)|lia|]. lia.
  - intros x Hx. cbn. destruct (upd2_cases (hA a) (k - 1) (2 * i) true 0 x) as [(_ & _ & ->)|[_ ->]]; [done|].
    by apply (bi_own _ _ _ I).
  - intros j Hj. cbn. destruct (decide (j = k - 1)) as [->|Hn]; [rewrite upd_same|rewrite upd_other by done].
    + apply NoDup_cons. split; [done|]. by apply (bi_nodup _ _ _ I).
    + by apply (bi_nodup _ _ _ I).
Qed.

Lemma split_live k i :
  live M a k i -> 0 < k ->
  forall k' i', live M (split k i) k' i' <->
    (k' = k - 1 /\ i' = 2 * i) \/ (live M a k' i' /\ ~ (k' = k /\ i' = i)).
Proof.
  intros Hl Hk j x. destruct (live_children k i 0 Hl Hk ltac:(lia)) as [B0 N0]. rewrite Z.add_0_r in *.
  destruct (absent _ _ B0 N0) as (A0 & S0 & F0). unfold live, split. cbn.
  destruct (upd2_cases (hA a) (k - 1) (2 * i) true j x) as [(-> & -> & ->)|[N ->]].
  - rewrite upd2_ne by lia. tauto.
  - destruct (upd2_cases (hS a) k i true j x) as [(-> & -> & ->)|[N2 ->]]; [|tauto].
    split; [intros (_ & _ & [=])|tauto].
Qed.

(** The parent of a live block is split. *)
Lemma live_parent k i : live M a k i -> k < M -> hS a (k + 1) (i / 2) = true /\ hA a (k + 1) (i / 2) = true.
Proof.
  intros (Hb & Ha & _) Hk. destruct (bi_alloc _ _ _ I k i Hb Ha) as [?|H]; [lia|].
  split; [done|]. apply (bi_split _ _ _ I); [by apply blk_up|done].
Qed.

Lemma merge_exists k i l j x :
  j <= M -> k < M -> exists_ M (merge k i l) j x <-> exists_ M a j x /\ ~ (j = k /\ (x = i \/ x = buddy_of i)).
Proof.
  intros Hj Hk. unfold exists_, merge; cbn.
  destruct (upd2_cases (hS a) (k + 1) (i / 2) false (j + 1) (x / 2)) as [(E1 & E2 & ->)|[N ->]].
  - apply half_buddies in E2. split; [intros [?|[=]]; lia|]. intros [_ N]. exfalso. apply N. split; [lia|done].
  - split; [|tauto]. intros H. split; [done|]. intros (-> & E). apply N. split; [done|].
    destruct E as [-> | ->]; [done|apply buddy_half].
Qed.

Lemma merge_inv k i xs ys :
  live M a k i -> k < M -> ~ own L k i -> hA a k (buddy_of i) = false -> hF a k = xs ++ buddy_of i :: ys ->
  buddy_inv M L (merge k i (xs ++ ys)).
Proof.
  intros Hl Hk Ho Hbf E. pose proof Hl as (Hb & Ha & Hs). destruct (live_parent k i Hl Hk) as [Hps Hpa].
  pose proof (blk_buddy _ _ _ Hb Hk) as Hbb.
  assert (Hbs : hS a k (buddy_of i) = false).
  { destruct (hS a k (buddy_of i)) eqn:Es; [|done]. destruct (bi_split _ _ _ I _ _ Hbb Es) as (_ & ? & _). congruence. }
  assert (Hk0 : 0 <= k <= M) by (destruct Hb; lia).
  pose proof (bi_nodup _ _ _ I k Hk0) as Hnd. rewrite E in Hnd.
  apply NoDup_app in Hnd as (N1 & N2 & N3). apply NoDup_cons in N3 as [N3 N4].
  assert (A' : forall j x, hA (merge k i (xs ++ ys)) j x = true <-> hA a j x = true /\ ~ (j = k /\ x = i)).
  { intros j x. cbn. destruct (upd2_cases (hA a) k i false j x) as [(-> & -> & ->)|[N ->]]; [|tauto].
    split; [done|tauto]. }
  split.
  - apply (bi_size _ _ _ I).
  - intros j x Hx. change (hS (merge k i (xs ++ ys)) j x) with (upd2 (hS a) (k + 1) (i / 2) false j x).
    destruct (upd2_cases (hS a) (k + 1) (i / 2) false j x) as [(_ & _ & ->)|[N ->]]; [done|].
    intros Es. destruct (bi_split _ _ _ I j x Hx Es) as (E1 & E2 & E3).
    assert (~ (j = k /\ (x = i \/ x = buddy_of i))) by (intros (-> & [-> | ->]); congruence).
    rewrite A', merge_exists by (destruct Hx; lia). tauto.
  - intros j x Hx [E1 E2]%A'. rewrite merge_exists by (destruct Hx; lia).
    split; [by apply (bi_alloc _ _ _ I)|]. intros (-> & [-> | ->]); [tauto|congruence].
  - intros j x. pose proof (bi_free _ _ _ I j x) as F. destruct (decide (0 <= j <= M)) as [Hj|]; [|unfold blk; tauto].
    rewrite merge_exists, <- (not_true_iff_false (hA (merge _ _ _) _ _)), A' by lia.
    rewrite <- (not_true_iff_false (hA a _ _)) in F. cbn. destruct (decide (j = k)) as [->|Hn].
    + rewrite upd_same. rewrite E, elem_of_app, elem_of_cons in F. rewrite elem_of_app.
      destruct (decide (x = buddy_of i)) as [->|Hn]; [|destruct (decide (x = i)) as [->|]; tauto].
      split; [|tauto]. intros [[Hx|Hx] _]; [by apply N2 in Hx; set_solver|done].
    + rewrite upd_other by done. tauto.
  - intros j x Hx Hlt. rewrite merge_exists by lia. intros [Hex N].
    rewrite A', <- (not_true_iff_false (hA (merge _ _ _) _ _)), A'. intros Hf. split.
    + apply (bi_merged _ _ _ I); auto. apply not_true_iff_false. tauto.
    + intros (-> & Hx2). apply N. split; [done|]. right. by rewrite <- Hx2, buddy_of_of.
  - intros x Hx. apply A'. split; [by apply (bi_own _ _ _ I)|]. intros (<- & ->). apply Ho. split; [done|lia].
  - intros j Hj. cbn. destruct (decide (j = k)) as [->|Hn]; [rewrite upd_same|rewrite upd_other by done; by apply (bi_nodup _ _ _ I)].
    apply NoDup_app. split_and!; set_solver.
Qed.

Lemma merge_live k i l :
  live M a k i -> k < M ->
  forall k' i', live M (merge k i l) k' i' <->
    (k' = k + 1 /\ i' = i / 2) \/ (live M a k' i' /\ ~ (k' = k /\ i' = i)).
Proof.
  intros Hl Hk j x. destruct (live_parent k i Hl Hk) as [Hps Hpa]. unfold live, merge; cbn.
  destruct (upd2_cases (hS a) (k + 1) (i / 2) false j x) as [(-> & -> & ->)|[N ->]].
  - rewrite upd2_ne by lia. destruct Hl as (Hb & _). pose proof (blk_up _ _ _ Hb Hk). tauto.
  - destruct (upd2_cases (hA a) k i false j x) as [(-> & -> & ->)|[N2 ->]]; [|tauto].
    split; [intros (_ & [=] & _)|tauto].
Qed.

Lemma give_inv k i :
  live M a k i -> k < M -> ~ own L k i -> hA a k (buddy_of i) = true -> buddy_inv M L (give k i).
Proof.
  intros Hl Hk Ho Hba. pose proof Hl as (Hb & Ha & Hs). pose proof (bi_alloc _ _ _ I k i Hb Ha) as He.
  assert (Hni : i ∉ hF a k) by (intros H; apply free_spec in H; [destruct H; congruence|done]).
  split.
  - apply (bi_size _ _ _ I).
  - intros j x Hx Es. destruct (bi_split _ _ _ I j x Hx Es) as (E1 & E2 & E3). cbn.
    rewrite upd2_ne; [done|]. intros [-> ->]. cbn in Es. congruence.
  - intros j x Hx. cbn. destruct (upd2_cases (hA a) k i false j x) as [(_ & _ & ->)|[_ ->]]; [done|]. by apply (bi_alloc _ _ _ I).
  - intros j x. pose proof (bi_free _ _ _ I j x) as F. unfold exists_ in *. cbn. destruct (decide (j = k)) as [->|Hn].
    + rewrite upd_same, elem_of_cons. destruct (upd2_cases (hA a) k i false k x) as [(_ & -> & ->)|[N ->]]; [|tauto].
      split; [intros _; tauto|]. intros _. split; [auto|apply Hb].
    + rewrite upd_other by done. rewrite upd2_ne by tauto. tauto.
  - intros j x Hx Hlt Hex. cbn. destruct (upd2_cases (hA a) k i false j x) as [(-> & -> & _)|[_ ->]].
    + intros _. rewrite upd2_ne; [done|]. intros [_ ?]. by apply (buddy_ne i).
    + intros Hf. pose proof (bi_merged _ _ _ I j x Hx Hlt Hex Hf) as Hm. rewrite upd2_ne; [done|]. intros [-> Hx2].
      assert (x = buddy_of i) by (by rewrite <- Hx2, buddy_of_of). congruence.
  - intros x Hx. cbn. rewrite upd2_ne; [by apply (bi_own _ _ _ I)|]. intros [<- ->]. apply Ho. split; [done|lia].
  - intros j Hj. cbn. destruct (decide (j = k)) as [->|Hn]; [rewrite upd_same|rewrite upd_other by done; by apply (bi_nodup _ _ _ I)].
    apply NoDup_cons. split; [done|]. by apply (bi_nodup _ _ _ I).
Qed.

Lemma give_live k i : forall k' i', live M (give k i) k' i' <-> live M a k' i' /\ ~ (k' = k /\ i' = i).
Proof.
  intros j x. unfold live, give; cbn. destruct (upd2_cases (hA a) k i false j x) as [(-> & -> & ->)|[N ->]]; [|tauto].
  split; [intros (_ & [=] & _)|tauto].
Qed.

(** ** Live blocks do not overlap *)

(** Every block above an existing one, with a leaf in common, is split. *)
Lemma above_split (n : nat) k i k' i' x :
  blk M k i -> exists_ M a k i -> leaf_in k i x -> k' = k + 1 + Z.of_nat n -> k' <= M -> leaf_in k' i' x ->
  hS a k' i' = true.
Proof.
  revert k i. induction n as [|n IH]; intros k i Hb [He|He] Hx -> Hk Hx'.
  1,3: exfalso; lia.
  - replace (k + 1 + Z.of_nat 0) with (k + 1) in * by lia.
    rewrite <- (leaf_same _ _ _ _ (leaf_up _ _ _ (proj1 (proj1 Hb)) Hx) Hx'). done.
  - pose proof (blk_up _ _ _ Hb ltac:(lia)) as Hu.
    apply (IH (k + 1) (i / 2)); auto; [by apply (bi_split _ _ _ I)|by apply leaf_up; [apply (proj1 Hb)|]|lia].
Qed.

Lemma exist_disjoint k i k' i' x :
  blk M k i -> blk M k' i' -> exists_ M a k i -> exists_ M a k' i' -> hS a k i = false -> hS a k' i' = false ->
  leaf_in k i x -> leaf_in k' i' x -> k = k' /\ i = i'.
Proof.
  intros Hb Hb' He He' Hs Hs' Hx Hx'. destruct (Ztrichotomy k k') as [Hlt|[->|Hlt]].
  - enough (hS a k' i' = true) by congruence.
    eapply (above_split (Z.to_nat (k' - k - 1)) k i); eauto; destruct Hb'; lia.
  - split; [done|]. by eapply leaf_same.
  - enough (hS a k i = true) by congruence.
    eapply (above_split (Z.to_nat (k - k' - 1)) k' i'); eauto; destruct Hb; lia.
Qed.

Lemma live_disjoint k i k' i' x :
  live M a k i -> live M a k' i' -> leaf_in k i x -> leaf_in k' i' x -> k = k' /\ i = i'.
Proof.
  intros (Hb & Ha & Hs) (Hb' & Ha' & Hs'). apply exist_disjoint; auto; by apply (bi_alloc _ _ _ I).
Qed.

(** A free block meets no live one. *)
Lemma free_not_live k i k' i' x :
  0 <= k <= M -> i ∈ hF a k -> live M a k' i' -> leaf_in k i x -> leaf_in k' i' x -> False.
Proof.
  intros Hk Hf Hl Hx Hx'. pose proof (free_blk k i Hk Hf) as Hb. apply free_spec in Hf as [He Ha]; [|done].
  pose proof Hl as (Hb' & Ha' & Hs'). pose proof (bi_alloc _ _ _ I _ _ Hb' Ha') as He'.
  assert (Hs : hS a k i = false).
  { destruct (hS a k i) eqn:Es; [|done]. destruct (bi_split _ _ _ I _ _ Hb Es) as (_ & ? & _). congruence. }
  destruct (exist_disjoint k i k' i' x) as [-> ->]; auto. congruence.
Qed.

(** The allocator's own leaves are live. *)
Lemma own_live i : 0 <= i < L -> live M a 0 i.
Proof.
  intros Hi. destruct (bi_size _ _ _ I) as [HL HM]. assert (Hb : blk M 0 i) by (split; [lia|]; rewrite Z.sub_0_r; lia).
  split; [done|]. split; [by apply (bi_own _ _ _ I)|].
  destruct (hS a 0 i) eqn:E; [|done]. apply (bi_split _ _ _ I) in E; [lia|done].
Qed.

(** So the whole heap is never one live block. *)
Lemma live_small k i : live M a k i -> ~ own L k i -> k < M.
Proof.
  intros Hl Ho. pose proof Hl as ([Hk Hi] & _). destruct (Z.eq_dec k M) as [->|]; [|lia]. exfalso.
  destruct (bi_size _ _ _ I) as [HL HM]. rewrite Z.sub_diag in Hi. change (2 ^ 0) with 1 in Hi.
  destruct (live_disjoint M i 0 0 0 Hl (own_live 0 ltac:(lia))) as [-> ->].
  - unfold leaf_in. nia.
  - unfold leaf_in. lia.
  - apply Ho. split; [done|lia].
Qed.
End Steps.

(** ** Bits and addresses *)

Lemma bit_testbit m b i : bit_isset m b i = Z.testbit (m (b + i / 8)) (i mod 8).
Proof.
  unfold bit_isset. pose proof (Z.mod_pos_bound i 8 ltac:(lia)) as Hn. set (n := i mod 8) in *. set (v := m _).
  rewrite Z.shiftl_1_l. destruct (Z.testbit v n) eqn:E.
  - apply Z.eqb_eq. apply Z.bits_inj'. intros j Hj. rewrite Z.land_spec, Z.pow2_bits_eqb by lia.
    destruct (Z.eqb_spec n j) as [<-|]; [by rewrite E|by rewrite andb_false_r].
  - apply Z.eqb_neq. intros H. assert (H2 : Z.testbit (Z.land v (2 ^ n)) n = true) by (rewrite H; apply Z.pow2_bits_true; lia).
    rewrite Z.land_spec, E in H2. done.
Qed.

Lemma bit_set_get m b i b' j :
  bit_isset (bit_set m b i) b' j = if decide (b' + j / 8 = b + i / 8 /\ j mod 8 = i mod 8) then true else bit_isset m b' j.
Proof.
  rewrite !bit_testbit. unfold bit_set. pose proof (Z.mod_pos_bound i 8 ltac:(lia)). pose proof (Z.mod_pos_bound j 8 ltac:(lia)).
  destruct (Z.eq_dec (b' + j / 8) (b + i / 8)) as [E|E].
  - rewrite E, upd_same, Z.shiftl_1_l, Z.lor_spec, Z.pow2_bits_eqb by lia.
    case_decide as D; destruct (Z.eqb_spec (i mod 8) (j mod 8)); rewrite ?orb_true_r, ?orb_false_r; try done; exfalso; lia.
  - rewrite upd_other by done. case_decide; [lia|done].
Qed.

Lemma bit_clear_get m b i b' j :
  bit_isset (bit_clear m b i) b' j = if decide (b' + j / 8 = b + i / 8 /\ j mod 8 = i mod 8) then false else bit_isset m b' j.
Proof.
  rewrite !bit_testbit. unfold bit_clear. pose proof (Z.mod_pos_bound i 8 ltac:(lia)). pose proof (Z.mod_pos_bound j 8 ltac:(lia)).
  destruct (Z.eq_dec (b' + j / 8) (b + i / 8)) as [E|E].
  - rewrite E, upd_same, Z.shiftl_1_l, Z.ldiff_spec, Z.pow2_bits_eqb by lia.
    case_decide as D; destruct (Z.eqb_spec (i mod 8) (j mod 8)); rewrite ?andb_true_r, ?andb_false_r; try done; exfalso; lia.
  - rewrite upd_other by done. case_decide; [lia|done].
Qed.

(** The address of a block. *)
Definition at_ (s : bdst) (k i : Z) : Z := bd_base s + i * 2 ^ k * 16.

(** A bit array: of which kind (true for [split]) and for which size. *)
Definition arr (s : bdst) (x : bool * Z) : Z := if x.1 then bd_split s x.2 else bd_alloc s x.2.
Definition slot (M : Z) (x : bool * Z) : Prop := 0 <= x.2 <= M /\ (x.1 = true -> 0 < x.2).
Definition nbytes_of (M k : Z) : Z := (2 ^ (M - k) + 7) / 8.

Definition hbit (a : heap) (x : bool * Z) (i : Z) : bool := if x.1 then hS a x.2 i else hA a x.2 i.

Record bd_rep (M L : Z) (s : bdst) (a : heap) : Prop := {
  br_n : nsizes s = M + 1;
  br_size : 0 <= M <= 26 /\ 2 * (M + 1) <= L;
  br_base : 0 < bd_base s /\ bd_base s + 2 ^ 30 < 2 ^ 64;
  br_heads : bd_sizes s = bd_base s;
  br_slots : forall x y, slot M x -> slot M y -> x <> y ->
    arr s x + nbytes_of M x.2 <= arr s y \/ arr s y + nbytes_of M y.2 <= arr s x;
  br_inside : forall x, slot M x -> bd_base s <= arr s x /\ arr s x + nbytes_of M x.2 <= bd_base s + L * 16;
  br_bits : forall x i, slot M x -> blk M x.2 i -> bit_isset (bd_mem s) (arr s x) i = hbit a x i;
  br_lists : forall k, 0 <= k <= M -> dlist (bd_nodes s) (free_of s k) (at_ s k <$> hF a k);
}.

(** The free blocks start at different places, outside the allocator's data. *)
Record nodes_ok (M L : Z) (a : heap) : Prop := {
  no_apart : forall k i k' i', 0 <= k <= M -> 0 <= k' <= M -> i ∈ hF a k -> i' ∈ hF a k' ->
    i * 2 ^ k = i' * 2 ^ k' -> k = k';
  no_own : forall k i, 0 <= k <= M -> i ∈ hF a k -> L <= i * 2 ^ k;
}.

Lemma leaf_start k i : 0 <= k -> leaf_in k i (i * 2 ^ k).
Proof. intros. unfold leaf_in. pose proof (Z.pow_pos_nonneg 2 k). nia. Qed.

Lemma inv_nodes M L a : buddy_inv M L a -> nodes_ok M L a.
Proof.
  intros I. split.
  - intros k i k' i' Hk Hk' Hi Hi' E. pose proof (free_blk _ _ _ I k i Hk Hi) as Hb.
    pose proof (free_blk _ _ _ I k' i' Hk' Hi') as Hb'.
    apply (free_spec _ _ _ I) in Hi as [He Ha]; [|done]. apply (free_spec _ _ _ I) in Hi' as [He' Ha']; [|done].
    assert (forall j x, blk M j x -> hA a j x = false -> hS a j x = false) as NS.
    { intros j x Hx Hx2. destruct (hS a j x) eqn:Es; [|done]. destruct (bi_split _ _ _ I _ _ Hx Es) as (_ & ? & _). congruence. }
    destruct (exist_disjoint _ _ _ I k i k' i' (i * 2 ^ k)) as [-> _]; auto; [apply leaf_start; lia|].
    rewrite E. apply leaf_start; lia.
  - intros k i Hk Hi. pose proof (free_blk _ _ _ I k i Hk Hi) as [_ Hb].
    destruct (Z.le_gt_cases L (i * 2 ^ k)) as [|Hlt]; [done|]. exfalso.
    assert (0 <= i * 2 ^ k) by (pose proof (Z.pow_nonneg 2 k); nia).
    apply (free_not_live _ _ _ I k i 0 (i * 2 ^ k) (i * 2 ^ k) Hk Hi).
    + apply (own_live _ _ _ I). lia.
    + apply leaf_start; lia.
    + unfold leaf_in. lia.
Qed.

Definition set_hbit (a : heap) (x : bool * Z) (i : Z) (v : bool) : heap :=
  if x.1 then setS a x.2 i v else setA a x.2 i v.

Lemma set_hbit_get a x i v y j :
  hbit (set_hbit a x i v) y j = if decide (y = x /\ j = i) then v else hbit a y j.
Proof.
  destruct x as [b k], y as [b' k']. unfold set_hbit, hbit. cbn.
  destruct b, b'; cbn; [| | |];
    repeat match goal with |- context [upd2 ?f ?k ?i ?v ?k' ?i'] => destruct (upd2_cases f k i v k' i') as [(-> & -> & ->)|[? ->]] end;
    case_decide as D; try done; try (destruct D; congruence); exfalso; apply D || (destruct D as [[= ->] ->]; tauto); tauto.
Qed.

Lemma blk_byte M k i : blk M k i -> 0 <= i / 8 < nbytes_of M k.
Proof. intros [Hk Hi]. unfold nbytes_of. Z.to_euclidean_division_equations. lia. Qed.

(** One bit of one array changes. *)
Lemma rep_mem M L s a m x i v :
  bd_rep M L s a -> slot M x -> blk M x.2 i ->
  (forall b j, bit_isset m b j =
    if decide (b + j / 8 = arr s x + i / 8 /\ j mod 8 = i mod 8) then v else bit_isset (bd_mem s) b j) ->
  bd_rep M L (s <| bd_mem := m |>) (set_hbit a x i v).
Proof.
  intros R Hx Hi Hm. split; try apply R.
  - intros y j Hy Hj. change (bit_isset m (arr s y) j = hbit (set_hbit a x i v) y j).
    rewrite Hm, set_hbit_get. pose proof (blk_byte _ _ _ Hi). pose proof (blk_byte _ _ _ Hj).
    rewrite (br_bits _ _ _ _ R y j Hy Hj).
    destruct (decide (y = x)) as [->|Hn].
    + case_decide as D1; case_decide as D2; try done; exfalso; [apply D2|apply D1].
      * split; [done|]. rewrite (Z.div_mod i 8), (Z.div_mod j 8) by lia. lia.
      * destruct D2 as [_ ->]. done.
    + rewrite (decide_False (P := y = x /\ j = i)) by tauto. rewrite decide_False; [done|].
      intros [E _]. destruct (br_slots _ _ _ _ R x y Hx Hy (not_eq_sym Hn)); lia.
  - intros k Hk. destruct x as [[] ?]; exact (br_lists _ _ _ _ R k Hk).
Qed.

Lemma rep_set_alloc M L s a k i :
  bd_rep M L s a -> blk M k i -> bd_rep M L (s <| bd_mem := bit_set (bd_mem s) (bd_alloc s k) i |>) (setA a k i true).
Proof.
  intros R Hb. apply (rep_mem M L s a _ (false, k)); [done|split; [apply Hb|done]|done|]. intros. apply bit_set_get.
Qed.

Lemma rep_clear_alloc M L s a k i :
  bd_rep M L s a -> blk M k i -> bd_rep M L (s <| bd_mem := bit_clear (bd_mem s) (bd_alloc s k) i |>) (setA a k i false).
Proof.
  intros R Hb. apply (rep_mem M L s a _ (false, k)); [done|split; [apply Hb|done]|done|]. intros. apply bit_clear_get.
Qed.

Lemma rep_set_split M L s a k i :
  bd_rep M L s a -> blk M k i -> 0 < k -> bd_rep M L (s <| bd_mem := bit_set (bd_mem s) (bd_split s k) i |>) (setS a k i true).
Proof.
  intros R Hb Hk. apply (rep_mem M L s a _ (true, k)); [done|split; [apply Hb|done]|done|]. intros. apply bit_set_get.
Qed.

Lemma rep_clear_split M L s a k i :
  bd_rep M L s a -> blk M k i -> 0 < k -> bd_rep M L (s <| bd_mem := bit_clear (bd_mem s) (bd_split s k) i |>) (setS a k i false).
Proof.
  intros R Hb Hk. apply (rep_mem M L s a _ (true, k)); [done|split; [apply Hb|done]|done|]. intros. apply bit_clear_get.
Qed.

Lemma rep_alloc M L s a k i : bd_rep M L s a -> blk M k i -> bit_isset (bd_mem s) (bd_alloc s k) i = hA a k i.
Proof. intros R Hb. apply (br_bits _ _ _ _ R (false, k)); [split; [apply Hb|done]|done]. Qed.

Lemma rep_split M L s a k i : bd_rep M L s a -> blk M k i -> 0 < k -> bit_isset (bd_mem s) (bd_split s k) i = hS a k i.
Proof. intros R Hb Hk. apply (br_bits _ _ _ _ R (true, k)); [split; [apply Hb|done]|done]. Qed.

(** The heads and the nodes of the lists are all different. *)
Lemma head_ne_node M L s k k' i : bd_sizes s = bd_base s -> 2 * (M + 1) <= L -> 0 <= k <= M -> L <= i * 2 ^ k' -> free_of s k <> at_ s k' i.
Proof. unfold free_of, at_, SZ_INFO. lia. Qed.

Lemma in_nodes s k (l : list Z) x : (x ∈ at_ s k <$> l) <-> exists i, i ∈ l /\ x = at_ s k i.
Proof. rewrite list_elem_of_fmap. naive_solver. Qed.

Lemma lists_apart M L s a k k' x :
  bd_sizes s = bd_base s -> 2 * (M + 1) <= L -> nodes_ok M L a -> 0 <= k <= M -> 0 <= k' <= M -> k <> k' ->
  x ∈ free_of s k :: (at_ s k <$> hF a k) -> x ∉ free_of s k' :: (at_ s k' <$> hF a k').
Proof.
  intros Hh HL N Hk Hk' Hn. rewrite !elem_of_cons, !in_nodes. intros [->|(i & Hi & ->)] [E|(j & Hj & E)].
  - unfold free_of, SZ_INFO in E. lia.
  - by eapply head_ne_node in E; [..|eapply no_own].
  - symmetry in E. by eapply head_ne_node in E; [..|eapply no_own].
  - apply Hn. apply (no_apart _ _ _ N k i k' j); auto. unfold at_ in E. lia.
Qed.

Lemma rep_push M L s a k i :
  bd_rep M L s a -> 0 <= k <= M -> (i ∉ hF a k) -> nodes_ok M L (setF a k (i :: hF a k)) ->
  bd_rep M L (s <| bd_nodes := lst_push (bd_nodes s) (free_of s k) (at_ s k i) |>) (setF a k (i :: hF a k)).
Proof.
  intros R Hk Hni N. pose proof (br_heads _ _ _ _ R) as Hh. pose proof (br_size _ _ _ _ R) as [_ HL].
  pose proof (br_lists _ _ _ _ R k Hk) as Dk. split; try apply R. intros j Hj.
  change (dlist (lst_push (bd_nodes s) (free_of s k) (at_ s k i)) (free_of s j) (at_ s j <$> upd (hF a) k (i :: hF a k) j)).
  assert (Ei : hF (setF a k (i :: hF a k)) k = i :: hF a k) by (cbn; apply upd_same).
  destruct (decide (j = k)) as [->|Hn].
  - rewrite upd_same, fmap_cons. apply lst_push_dlist; [done|]. rewrite elem_of_cons, in_nodes. intros [E|(x & Hx & E)].
    + symmetry in E. revert E. apply (head_ne_node M L); auto. apply (no_own _ _ _ N); [done|]. rewrite Ei. by left.
    + unfold at_ in E. assert (2 ^ k <> 0) by (pose proof (Z.pow_pos_nonneg 2 k); lia). assert (i = x) as -> by nia. done.
  - rewrite upd_other by done. eapply lst_push_frame; [exact Dk| |exact (br_lists _ _ _ _ R j Hj)].
    intros x Hx. pose proof (lists_apart M L s _ j k x Hh HL N Hj Hk Hn) as Hap. rewrite Ei in Hap.
    cbn [hF setF] in Hap. rewrite upd_other in Hap by done. exact (Hap Hx).
Qed.

Lemma rep_remove M L s a k i xs ys :
  bd_rep M L s a -> nodes_ok M L a -> 0 <= k <= M -> hF a k = xs ++ i :: ys ->
  bd_rep M L (s <| bd_nodes := lst_remove (bd_nodes s) (at_ s k i) |>) (setF a k (xs ++ ys)).
Proof.
  intros R N Hk E. pose proof (br_heads _ _ _ _ R) as Hh. pose proof (br_size _ _ _ _ R) as [_ HL].
  pose proof (br_lists _ _ _ _ R k Hk) as Dk. rewrite E, fmap_app, fmap_cons in Dk. split; try apply R. intros j Hj.
  change (dlist (lst_remove (bd_nodes s) (at_ s k i)) (free_of s j) (at_ s j <$> upd (hF a) k (xs ++ ys) j)).
  destruct (decide (j = k)) as [->|Hn].
  - rewrite upd_same, fmap_app. by apply lst_remove_dlist.
  - rewrite upd_other by done. eapply lst_remove_frame; [exact Dk| |exact (br_lists _ _ _ _ R j Hj)].
    intros x Hx. pose proof (lists_apart M L s _ j k x Hh HL N Hj Hk Hn Hx) as Hap.
    by rewrite E, fmap_app, fmap_cons in Hap.
Qed.

(** ** Block numbers and addresses *)

Lemma BLK_SIZE_pow k : 0 <= k -> BLK_SIZE k = 2 ^ k * 16.
Proof. intros. unfold BLK_SIZE, LEAF_SIZE. by rewrite Z.shiftl_1_l. Qed.

Lemma blk_offset M k i : 0 <= M <= 26 -> blk M k i -> 0 <= i * 2 ^ k * 16 /\ (i + 1) * 2 ^ k * 16 <= 2 ^ 30.
Proof.
  intros HM [Hk Hi]. pose proof (Z.pow_pos_nonneg 2 k).
  assert (2 ^ (M - k) * 2 ^ k <= 2 ^ 26) by (rewrite <- Z.pow_add_r by lia; apply Z.pow_le_mono_r; lia).
  change (2 ^ 30) with (2 ^ 26 * 16). nia.
Qed.

Section Index.
Context (M L : Z) (s : bdst) (a : heap) (R : bd_rep M L s a).

(** The number, at size [j], of the block that starts with block [i] of size [k]. *)
Lemma blk_index_at k i j :
  blk M k i -> 0 <= j <= M + 1 -> blk_index s j (at_ s k i) = i * 2 ^ k / 2 ^ j.
Proof.
  intros Hb Hj. destruct (blk_offset M k i (proj1 (br_size _ _ _ _ R)) Hb) as [H1 H2].
  unfold blk_index, at_. replace (bd_base s + i * 2 ^ k * 16 - bd_base s) with (i * 2 ^ k * 16) by lia.
  assert (0 < 2 ^ k) by (apply Z.pow_pos_nonneg; [lia|apply Hb]). assert (0 < 2 ^ j) by (apply Z.pow_pos_nonneg; lia).
  rewrite (s32_small (i * 2 ^ k * 16)) by lia. rewrite BLK_SIZE_pow by lia.
  rewrite Z.quot_div_nonneg by lia. rewrite Z.div_mul_cancel_r by lia.
  assert (i * 2 ^ k / 2 ^ j <= i * 2 ^ k) by (apply Z.div_le_upper_bound; nia).
  assert (0 <= i * 2 ^ k / 2 ^ j) by (apply Z.div_pos; lia). apply s32_small. lia.
Qed.

Lemma blk_index_same k i : blk M k i -> blk_index s k (at_ s k i) = i.
Proof.
  intros Hb. rewrite blk_index_at by (auto; destruct Hb; lia). apply Z.div_mul.
  assert (0 < 2 ^ k) by (apply Z.pow_pos_nonneg; [lia|apply Hb]). lia.
Qed.

Lemma addr_at k i : blk M k i -> addr s k i = at_ s k i.
Proof.
  intros Hb. destruct (blk_offset M k i (proj1 (br_size _ _ _ _ R)) Hb) as [H1 H2]. pose proof (br_base _ _ _ _ R).
  assert (0 < 2 ^ k) by (apply Z.pow_pos_nonneg; [lia|apply Hb]).
  unfold addr, at_. rewrite BLK_SIZE_pow by apply Hb. replace (i * (2 ^ k * 16)) with (i * 2 ^ k * 16) by lia.
  rewrite s32_small by lia. apply u64_small. lia.
Qed.

(** The first half starts where the block does, the other one after it. *)
Lemma at_left k i : 0 < k -> at_ s (k - 1) (2 * i) = at_ s k i.
Proof. intros. unfold at_. replace (2 ^ k) with (2 * 2 ^ (k - 1)); [ring|]. rewrite <- Z.pow_succ_r by lia. f_equal. lia. Qed.

Lemma at_right k i : 0 < k -> at_ s (k - 1) (2 * i + 1) = at_ s k i + BLK_SIZE (k - 1).
Proof. intros. rewrite <- (at_left k i), BLK_SIZE_pow by lia. unfold at_. ring. Qed.

Lemma at_inj k i k' i' : at_ s k i = at_ s k' i' <-> i * 2 ^ k = i' * 2 ^ k'.
Proof. unfold at_. lia. Qed.
End Index.

(** ** The loops *)

Lemma firstk_spec n s :
  0 <= n <= 2 ^ 63 ->
  wp (firstk n) (fun k s' => s' = s /\ 0 <= k /\ n <= BLK_SIZE k /\ forall j, 0 <= j < k -> BLK_SIZE j < n) s.
Proof.
  intros Hn. apply (wp_while (firstk_turn n)
    (fun x s' => s' = s /\ 0 <= x.1 <= 59 /\ x.2 = BLK_SIZE x.1 /\ forall j, 0 <= j < x.1 -> BLK_SIZE j < n) _ (fun x => 60 - x.1)).
  - intros [k sz] s' (-> & Hk & E & Hj). cbn [Datatypes.fst Datatypes.snd] in *. unfold firstk_turn.
    rewrite BLK_SIZE_pow in E by lia. destruct (Z.ltb_spec sz n).
    + assert (k < 59).
      { destruct (Z.eq_dec k 59) as [->|]; [|lia]. change (2 ^ 59 * 16) with (2 ^ 63) in E. lia. }
      assert (2 ^ (k + 1) <= 2 ^ 59) by (apply Z.pow_le_mono_r; lia). pose proof (Z.pow_pos_nonneg 2 (k + 1)).
      assert (E2 : 2 ^ (k + 1) = 2 * 2 ^ k) by (rewrite Z.pow_add_r by lia; lia).
      apply wp_ret. cbn [Datatypes.fst Datatypes.snd]. split; [|lia]. split_and!; [done|lia|lia|..].
      * rewrite u64_small by lia. rewrite BLK_SIZE_pow by lia. lia.
      * intros j Hj'. destruct (Z.eq_dec j k) as [->|]; [rewrite BLK_SIZE_pow by lia; lia|apply Hj; lia].
    + apply wp_ret. rewrite BLK_SIZE_pow by lia. split_and!; auto; lia.
  - split_and!; auto; cbn; [lia..|]. intros. lia.
  - intros x s' (_ & ? & _). lia.
  - cbn. lia.
Qed.

Lemma dlist_empty h l xs : dlist h l xs -> lst_empty h l = match xs with [] => true | _ => false end.
Proof.
  intros [Hs Hnd]. unfold lst_empty. rewrite (seg_first _ _ _ _ Hs). destruct xs as [|x xs]; cbn; [apply Z.eqb_refl|].
  apply Z.eqb_neq. intros ->. apply NoDup_cons in Hnd as [Hnd _]. apply Hnd. by left.
Qed.

Lemma rep_empty M L s a k : bd_rep M L s a -> 0 <= k <= M ->
  lst_empty (bd_nodes s) (free_of s k) = match hF a k with [] => true | _ => false end.
Proof. intros R Hk. rewrite (dlist_empty _ _ _ (br_lists _ _ _ _ R k Hk)). by destruct (hF a k). Qed.

Lemma find_free_spec M L s a fk :
  bd_rep M L s a -> 0 <= fk < 2 ^ 32 ->
  wp (while_ find_free fk) (fun k s' => s' = s /\ fk <= k /\ (forall j, fk <= j < k -> j <= M -> hF a j = []) /\
    (M < k \/ k <= M /\ exists i l, hF a k = i :: l)) s.
Proof.
  intros R Hfk. pose proof (br_size _ _ _ _ R) as [HM _].
  apply (wp_while find_free
    (fun k s' => s' = s /\ fk <= k <= Z.max fk (M + 1) /\ forall j, fk <= j < k -> j <= M -> hF a j = []) _
    (fun k => Z.max fk (M + 1) - k)).
  - intros k s' (-> & Hk & Hj). unfold find_free. apply wp_gets. rewrite (br_n _ _ _ _ R).
    destruct (Z.ltb_spec k (M + 1)) as [Hlt|Hge]; cbn [negb].
    + apply wp_gets. rewrite (rep_empty _ _ _ _ _ R) by lia. destruct (hF a k) as [|i l] eqn:E; cbn [negb]; apply wp_ret.
      * split; [|lia]. split_and!; auto; [lia..|]. intros j Hj1 Hj2. destruct (Z.eq_dec j k) as [->|]; [done|apply Hj; lia].
      * split_and!; auto; [lia|]. right. split; [lia|eauto].
    + apply wp_ret. split_and!; auto; lia.
  - split_and!; auto; lia.
  - intros k s' (_ & ? & _). lia.
  - lia.
Qed.

Definition static (s : bdst) := (nsizes s, bd_base s, bd_sizes s, bd_out s, bd_lock s).

Lemma static_base s s' : static s' = static s -> bd_base s' = bd_base s.
Proof. by intros [=]. Qed.

Lemma at_static s s' k i : static s' = static s -> at_ s' k i = at_ s k i.
Proof. intros E. unfold at_. by rewrite (static_base _ _ E). Qed.

Lemma rep_lock M L s a b : bd_rep M L s a -> bd_rep M L (s <| bd_lock := b |>) a.
Proof. intros R. split; apply R. Qed.

(** One turn of the loop of [bd_malloc] splits the block. *)
Lemma split_turn M L s a fk k i :
  bd_rep M L s a -> buddy_inv M L a -> live M a k i -> 0 <= fk < k ->
  exists s', split_block (at_ s k i) fk k s = Ok (inl (k - 1)) s' /\ bd_rep M L s' (split a k i) /\ static s' = static s.
Proof.
  intros R I Hl Hk. pose proof Hl as (Hb & _). pose proof (split_inv _ _ _ I k i Hl ltac:(lia)) as I'.
  pose proof (blk_down _ _ _ 0 Hb ltac:(lia) ltac:(lia)) as B0. rewrite Z.add_0_r in B0.
  destruct (live_children _ a k i 1 Hl ltac:(lia) ltac:(lia)) as [B1 N1].
  destruct (absent _ _ _ I _ _ B1 N1) as (_ & _ & F1).
  pose proof (rep_set_split _ _ _ _ _ _ R Hb ltac:(lia)) as R1.
  pose proof (rep_set_alloc _ _ _ _ _ _ R1 B0) as R2.
  pose proof (rep_push _ _ _ _ (k - 1) (2 * i + 1) R2 ltac:(destruct B1; lia) F1 (inv_nodes _ _ _ I')) as R3.
  pose proof (blk_index_same _ _ _ _ R _ _ Hb) as E1. pose proof (blk_index_same _ _ _ _ R1 _ _ B0) as E2.
  change (at_ (_ <| bd_mem := _ |>) (k - 1) (2 * i)) with (at_ s (k - 1) (2 * i)) in E2. rewrite at_left in E2 by lia.
  change (at_ (_ <| bd_mem := _ |>) (k - 1) (2 * i + 1)) with (at_ s (k - 1) (2 * i + 1)) in R3. rewrite at_right in R3 by lia.
  eexists. split; [|split; [exact R3|done]].
  unfold split_block. rewrite Z.gtb_ltb, (proj2 (Z.ltb_lt fk k)) by lia. cbn [negb].
  rewrite (bind_Ok (gets _) _ s i s) by (unfold gets; by rewrite E1).
  rewrite (bind_Ok (set_bit_in _ _) _ s _ _ eq_refl).
  erewrite (bind_Ok (gets _)) by (unfold gets; by rewrite E2). reflexivity.
Qed.

(** The loop that splits the block at [p] down to size [fk]. *)
Lemma split_loop M L s0 a0 s a p fk k i :
  bd_rep M L s a -> buddy_inv M L a -> static s = static s0 ->
  live M a k i -> at_ s0 k i = p -> 0 <= fk <= k -> ~ live M a0 k i ->
  (forall k' i', live M a k' i' <-> (k' = k /\ i' = i) \/ live M a0 k' i') ->
  wp (while_ (split_block p fk) k) (fun _ s' => exists a' j,
    bd_rep M L s' a' /\ buddy_inv M L a' /\ static s' = static s0 /\ live M a' fk j /\ at_ s0 fk j = p /\ ~ live M a0 fk j /\
    forall k' i', live M a' k' i' <-> (k' = fk /\ i' = j) \/ live M a0 k' i') s.
Proof.
  intros R I Hst Hl Hp [Hfk Hk] Hnl Hlv.
  apply (wp_while (split_block p fk)
    (fun k s => exists a i, bd_rep M L s a /\ buddy_inv M L a /\ static s = static s0 /\ live M a k i /\ at_ s0 k i = p /\
      fk <= k <= M /\ ~ live M a0 k i /\ (forall k' i', live M a k' i' <-> (k' = k /\ i' = i) \/ live M a0 k' i')) _ (fun k => k)).
  - clear R I Hst Hl Hp Hk Hlv Hnl s a k i. intros k s (a & i & R & I & Hst & Hl & Hp & Hk & Hnl & Hlv).
    destruct (Z.lt_ge_cases fk k) as [Hlt|Hge].
    + destruct (split_turn M L s a fk k i R I Hl ltac:(lia)) as (s' & E & R' & Hst').
      rewrite <- Hp, <- (at_static _ _ _ _ Hst). apply wp_Ok. eexists _, s'. split; [exact E|]. split; [|lia].
      exists (split a k i), (2 * i). split_and!; auto; try lia.
      * apply (split_inv M L); auto; lia.
      * congruence.
      * apply (split_live M L); auto; lia.
      * rewrite at_left by lia. by rewrite (at_static _ _ _ _ Hst).
      * intros Hl2. destruct (live_children _ a k i 0 Hl ltac:(lia) ltac:(lia)) as [B0 N0]. rewrite Z.add_0_r in *.
        destruct (absent _ _ _ I _ _ B0 N0) as (A0 & _). destruct (proj2 (Hlv _ _) (or_intror Hl2)) as (_ & ? & _). congruence.
      * intros k' i'. rewrite (split_live M L a I k i Hl ltac:(lia) k' i'), Hlv.
        destruct (decide (k' = k /\ i' = i)) as [[-> ->]|]; tauto.
    + unfold split_block. rewrite Z.gtb_ltb, (proj2 (Z.ltb_ge fk k)) by lia. apply wp_ret.
      assert (k = fk) as -> by lia. exists a, i. auto 10.
  - exists a, i. destruct Hl as ([? ?] & ?). unfold live, blk. auto 20 with lia.
  - intros k' s' (? & ? & _ & _ & _ & _ & _ & ? & _). lia.
  - destruct Hl as ([? ?] & ?). destruct (br_size _ _ _ _ R). lia.
Qed.

(** ** Allocation *)

(** The addresses of a block. *)
Definition bytes (s : bdst) (k i x : Z) : Prop := at_ s k i <= x < at_ s k i + BLK_SIZE k.

Lemma bytes_leaf s k i x : 0 <= k -> bytes s k i x -> leaf_in k i ((x - bd_base s) / 16).
Proof.
  intros Hk. unfold bytes, leaf_in, at_. rewrite BLK_SIZE_pow by lia. intros H.
  split; [apply Z.div_le_lower_bound|apply Z.div_lt_upper_bound]; lia.
Qed.

Lemma live_bytes_disjoint M L s a k i k' i' x :
  buddy_inv M L a -> live M a k i -> live M a k' i' -> bytes s k i x -> bytes s k' i' x -> k = k' /\ i = i'.
Proof.
  intros I Hl Hl' Hx Hx'. pose proof Hl as ([[? _] _] & _). pose proof Hl' as ([[? _] _] & _).
  apply (live_disjoint _ _ _ I k i k' i' ((x - bd_base s) / 16)); auto using bytes_leaf.
Qed.

(** A live block that is not the allocator's lies after the allocator's data. *)
Lemma live_after_own M L s a k i :
  buddy_inv M L a -> live M a k i -> ~ own L k i ->
  bd_base s + L * 16 <= at_ s k i /\ at_ s k i + BLK_SIZE k <= bd_base s + BLK_SIZE M.
Proof.
  intros I Hl Ho. pose proof Hl as ([Hk Hi] & _). rewrite !BLK_SIZE_pow by lia. unfold at_.
  destruct (bi_size _ _ _ I) as [HL HM]. pose proof (Z.pow_pos_nonneg 2 k). split.
  - destruct (Z.le_gt_cases L (i * 2 ^ k)) as [|Hlt]; [lia|]. exfalso.
    assert (0 <= i * 2 ^ k) by nia.
    destruct (live_disjoint _ _ _ I k i 0 (i * 2 ^ k) (i * 2 ^ k)) as [-> E]; auto.
    + apply (own_live _ _ _ I). lia.
    + apply leaf_start. lia.
    + unfold leaf_in. lia.
    + apply Ho. split; [done|]. lia.
  - assert (2 ^ M = 2 ^ (M - k) * 2 ^ k) by (rewrite <- Z.pow_add_r by lia; f_equal; lia). nia.
Qed.

Lemma firstk_small k n : 0 <= k -> n <= 2 ^ 63 -> (forall j, 0 <= j < k -> BLK_SIZE j < n) -> k < 2 ^ 32.
Proof.
  intros Hk Hn Hj. destruct (Z.lt_ge_cases k 60) as [|Hge]; [lia|]. specialize (Hj 59 ltac:(lia)).
  rewrite BLK_SIZE_pow in Hj by lia. change (2 ^ 59 * 16) with (2 ^ 63) in Hj. lia.
Qed.

(** The smallest size that holds [n] bytes. *)
Definition fits (n k : Z) : Prop := 0 <= k /\ n <= BLK_SIZE k /\ forall j, 0 <= j < k -> BLK_SIZE j < n.

(** Pop the first free block of size [k] and mark it. *)
Lemma pop_rep M L s a k i l :
  bd_rep M L s a -> buddy_inv M L a -> 0 <= k <= M -> hF a k = i :: l ->
  let s1 := s <| bd_nodes := lst_remove (bd_nodes s) (at_ s k i) |> in
  zoom bd_nodes (fun h s => s <| bd_nodes := h |>) (lst_pop (free_of s k)) s = Ok (at_ s k i) s1 /\
  bd_rep M L (s1 <| bd_mem := bit_set (bd_mem s1) (bd_alloc s1 k) i |>) (take a k i l) /\ blk_index s1 k (at_ s k i) = i.
Proof.
  intros R I Hk E s1. assert (Hb : blk M k i) by (apply (free_blk _ _ _ I); [done|]; rewrite E; by left).
  pose proof (rep_remove _ _ _ _ k i [] l R (inv_nodes _ _ _ I) Hk E) as R1.
  split_and!.
  - pose proof (br_lists _ _ _ _ R k Hk) as D. pose proof (dlist_empty _ _ _ D) as De. unfold lst_empty in De.
    rewrite E in D, De. cbn in De. unfold zoom, lst_pop. rewrite De. destruct D as [D _]. apply seg_first in D. cbn in D. by rewrite D.
  - exact (rep_set_alloc _ _ _ _ _ _ R1 Hb).
  - exact (blk_index_same _ _ _ _ R1 _ _ Hb).
Qed.

Lemma bd_malloc_spec M L s a n :
  bd_rep M L s a -> buddy_inv M L a -> bd_lock s = false -> 0 <= n <= 2 ^ 63 ->
  exists fk p s', bd_malloc n s = Ok p s' /\ static s' = static s /\ fits n fk /\
    ((p = 0 /\ bd_rep M L s' a /\ forall k, fk <= k <= M -> hF a k = []) \/
     exists a' i, p = at_ s fk i /\ bd_rep M L s' a' /\ buddy_inv M L a' /\ ~ live M a fk i /\
       forall k' i', live M a' k' i' <-> (k' = fk /\ i' = i) \/ live M a k' i').
Proof.
  intros R I Hlk Hn. set (s1 := s <| bd_lock := true |>).
  assert (R1 : bd_rep M L s1 a) by by apply rep_lock.
  destruct (proj1 (wp_Ok _ _ _) (firstk_spec n s1 Hn)) as (fk & ? & E1 & -> & Hfk & Hn1 & Hn2).
  assert (Hf2 : 0 <= fk < 2 ^ 32) by (split; [done|]; apply (firstk_small fk n); auto; lia).
  destruct (proj1 (wp_Ok _ _ _) (find_free_spec M L s1 a fk R1 Hf2)) as (k & ? & E2 & -> & Hk & Hj & Hend).
  exists fk. unfold bd_malloc. unfold acquire at 1. unfold bind at 1. rewrite Hlk.
  rewrite (bind_Ok _ _ _ _ _ E1), (bind_Ok _ _ _ _ _ E2). rewrite (bind_Ok (gets _) _ s1 (M + 1) s1) by (unfold gets; by rewrite (br_n _ _ _ _ R1)).
  rewrite Z.geb_leb. destruct Hend as [Hend|(HkM & i & l & E)].
  - rewrite (proj2 (Z.leb_le _ _)) by lia. eexists 0, _. split; [reflexivity|]. split; [by rewrite <- Hlk|]. split; [by split_and!|].
    left. split; [done|]. split; [by apply rep_lock|]. intros j Hj'. apply Hj; lia.
  - rewrite (proj2 (Z.leb_gt _ _)) by lia.
    destruct (pop_rep M L s1 a k i l R1 I ltac:(lia) E) as (Ep & R3 & Eb).
    destruct (take_inv _ _ _ I k i [] l ltac:(lia) E) as (I3 & Hl3 & Hlv3). cbn [app] in *.
    assert (Hnl : ~ live M a k i).
    { intros (Hb & Ha & _). assert (i ∈ hF a k) as Hi by (rewrite E; by left).
      apply (free_spec _ _ _ I) in Hi; [|done]. destruct Hi; congruence. }
    rewrite (bind_Ok (gets _) _ s1 _ _ eq_refl). rewrite (bind_Ok _ _ _ _ _ Ep).
    erewrite (bind_Ok (gets _)) by (unfold gets; rewrite Eb; reflexivity). rewrite (bind_Ok (set_bit_in _ _) _ _ _ _ eq_refl).
    edestruct (proj1 (wp_Ok _ _ _) (split_loop M L s1 a _ _ (at_ s1 k i) fk k i R3 I3 eq_refl Hl3 eq_refl ltac:(lia) Hnl
      ltac:(intros k' i'; destruct (decide (k' = k /\ i' = i)) as [[-> ->]|]; [tauto|rewrite Hlv3 by done; tauto])))
      as (? & s4 & E4 & a' & j & R4 & I4 & Hst4 & Hl4 & Hp4 & Hnl4 & Hlv4).
    erewrite bind_Ok by exact E4.
    exists (at_ s1 k i), (s4 <| bd_lock := false |>). split.
    { unfold release, bind, ret. pose proof Hst4 as [= _ _ _ _ ->]. reflexivity. }
    split; [injection Hst4 as H1 H2 H3 H4 _; unfold static; cbn; congruence|]. split; [by split_and!|].
    right. exists a', j. rewrite <- Hp4. split; [done|]. split; [by apply rep_lock|]. auto.
Qed.

(** ** Freeing *)

(** [size] finds the size of a live block. *)
Lemma size_spec M L s a k i :
  bd_rep M L s a -> buddy_inv M L a -> live M a k i -> k < M -> wp (size (at_ s k i)) (fun r s' => r = k /\ s' = s) s.
Proof.
  intros R I Hl Hk. pose proof Hl as (Hb & Ha & Hs). destruct (live_parent _ _ _ I k i Hl Hk) as [Hps _].
  assert (Hk0 : 0 <= k) by (destruct Hb; lia). pose proof (Z.pow_pos_nonneg 2 k ltac:(lia) Hk0) as Hpk.
  assert (Hi : 0 <= i) by (destruct Hb; lia).
  apply (wp_while (size_turn (at_ s k i)) (fun j s' => s' = s /\ 0 <= j <= k) _ (fun j => k - j));
    [|split; [done|lia]|intros ? ? [_ ?]; lia|destruct (br_size _ _ _ _ R); lia].
  - intros j s' [-> Hj]. unfold size_turn. apply wp_gets. rewrite (br_n _ _ _ _ R).
    rewrite (proj2 (Z.ltb_lt j (M + 1))) by lia. cbn [negb]. apply wp_bind.
    unfold get_bit_in, gets, bind. unfold wp at 1. rewrite (blk_index_at _ _ _ _ R k i (j + 1) Hb ltac:(lia)).
    pose proof (Z.pow_pos_nonneg 2 (j + 1) ltac:(lia) ltac:(lia)).
    destruct (Z.eq_dec j k) as [->|Hn].
    + replace (i * 2 ^ k / 2 ^ (k + 1)) with (i / 2).
      2: { rewrite Z.pow_add_r, (Z.mul_comm (2 ^ k)) by lia. by rewrite Z.div_mul_cancel_r by lia. }
      rewrite (rep_split _ _ _ _ _ _ R) by (try apply blk_up; auto; lia). rewrite Hps. by apply wp_ret.
    + assert (Ed : 2 ^ k = 2 ^ (k - (j + 1)) * 2 ^ (j + 1)) by (rewrite <- Z.pow_add_r by lia; f_equal; lia).
      assert (Hd : i * 2 ^ k / 2 ^ (j + 1) = i * 2 ^ (k - (j + 1))) by (rewrite Ed, Z.mul_assoc; apply Z.div_mul; lia).
      rewrite Hd. pose proof (Z.pow_pos_nonneg 2 (k - (j + 1)) ltac:(lia) ltac:(lia)).
      assert (Hbj : blk M (j + 1) (i * 2 ^ (k - (j + 1)))).
      { destruct Hb as [Hb1 Hb2]. split; [lia|]. replace (M - (j + 1)) with ((M - k) + (k - (j + 1))) by lia.
        rewrite Z.pow_add_r by lia. nia. }
      rewrite (rep_split _ _ _ _ _ _ R Hbj) by lia. destruct (hS a (j + 1) _) eqn:Es; [exfalso|apply wp_ret; split_and!; [done|lia..]].
      destruct (Z.eq_dec (j + 1) k) as [<-|]; [rewrite Z.sub_diag, Z.mul_1_r in Es; congruence|].
      destruct (bi_split _ _ _ I _ _ Hbj Es) as (He & _).
      enough (hS a k i = true) by congruence.
      apply (above_split _ _ _ I (Z.to_nat (k - (j + 1) - 1)) (j + 1) _ k i (i * 2 ^ k) Hbj He); [|lia..|by apply leaf_start].
      replace (i * 2 ^ k) with (i * 2 ^ (k - (j + 1)) * 2 ^ (j + 1)) by (rewrite Ed; ring). apply leaf_start. lia.
Qed.

(** The merged block starts at the even one of the two. *)
Lemma at_merged s k i :
  0 <= k -> at_ s (k + 1) (i / 2) = if buddy_of i mod 2 =? 0 then at_ s k (buddy_of i) else at_ s k i.
Proof.
  intros Hk. rewrite <- at_left by lia. rewrite Z.add_simpl_r. unfold buddy_of.
  destruct (Z.eqb_spec (i mod 2) 0) as [E|E].
  - rewrite (proj2 (Z.eqb_neq ((i + 1) mod 2) 0)) by (Z.to_euclidean_division_equations; lia).
    f_equal. Z.to_euclidean_division_equations; lia.
  - rewrite (proj2 (Z.eqb_eq ((i - 1) mod 2) 0)) by (Z.to_euclidean_division_equations; lia).
    f_equal. Z.to_euclidean_division_equations; lia.
Qed.

Section FreeTurn.
Context (M L : Z) (s : bdst) (a : heap) (k i : Z).
Context (R : bd_rep M L s a) (I : buddy_inv M L a) (Hl : live M a k i) (Hk : k < M).

(** A turn of the loop of [bd_free] up to the test of the buddy. *)
Lemma free_turn_start :
  let s1 := s <| bd_mem := bit_clear (bd_mem s) (bd_alloc s k) i |> in
  bd_rep M L s1 (setA a k i false) /\
  free_turn (at_ s k i, k) s =
    (if hA a k (buddy_of i) then ret (inr (at_ s k i, k)) else
     modify (fun s => s <| bd_nodes := lst_remove (bd_nodes s) (at_ s k (buddy_of i)) |>) ;;
     bk1 ← gets (fun s => blk_index s (k + 1) (at_ s (k + 1) (i / 2))) ;
     clear_bit_in (fun s => bd_split s (k + 1)) bk1 ;;
     ret (inl (at_ s (k + 1) (i / 2), k + 1))) s1.
Proof.
  intros s1. destruct Hl as (Hb & _). pose proof (blk_buddy _ _ _ Hb Hk) as Hbb.
  assert (R1 : bd_rep M L s1 (setA a k i false)) by exact (rep_clear_alloc _ _ _ _ _ _ R Hb).
  split; [done|]. unfold free_turn. rewrite (bind_Ok (gets _) _ s M s) by (unfold gets, MAXSIZE; rewrite (br_n _ _ _ _ R); do 2 f_equal; lia).
  rewrite (proj2 (Z.ltb_lt k M)) by lia. cbn [negb].
  rewrite (bind_Ok (gets _) _ s i s) by (unfold gets; by rewrite (blk_index_same _ _ _ _ R _ _ Hb)).
  rewrite (bind_Ok (clear_bit_in _ _) _ s _ _ eq_refl).
  assert (Eb : get_bit_in (fun s => bd_alloc s k) (buddy_of i) s1 = Ok (hA a k (buddy_of i)) s1).
  { unfold get_bit_in, gets. rewrite (rep_alloc _ _ _ _ _ _ R1 Hbb). cbn. rewrite upd2_ne; [done|].
    intros [_ E]. by apply (buddy_ne i). }
  rewrite (bind_Ok _ _ _ _ _ Eb).
  destruct (hA a k (buddy_of i)); [done|].
  rewrite (bind_Ok (gets _) _ _ (at_ s k (buddy_of i)) s1) by (unfold gets; by rewrite (addr_at _ _ _ _ R1 _ _ Hbb)).
  rewrite <- at_merged by (destruct Hb; lia). done.
Qed.

Lemma free_turn_stop :
  hA a k (buddy_of i) = true ->
  exists s', free_turn (at_ s k i, k) s = Ok (inr (at_ s k i, k)) s' /\ bd_rep M L s' (setA a k i false) /\ static s' = static s.
Proof. intros E. destruct free_turn_start as [R1 ->]. rewrite E. eexists. split; [reflexivity|]. by split. Qed.

Lemma free_turn_merge :
  hA a k (buddy_of i) = false -> ~ own L k i ->
  exists s' a', free_turn (at_ s k i, k) s = Ok (inl (at_ s (k + 1) (i / 2), k + 1)) s' /\
    bd_rep M L s' a' /\ buddy_inv M L a' /\ static s' = static s /\
    forall k' i', live M a' k' i' <-> (k' = k + 1 /\ i' = i / 2) \/ (live M a k' i' /\ ~ (k' = k /\ i' = i)).
Proof.
  intros E Ho. destruct free_turn_start as [R1 ->]. rewrite E. pose proof Hl as (Hb & Ha & _).
  pose proof (blk_buddy _ _ _ Hb Hk) as Hbb. pose proof (blk_up _ _ _ Hb Hk) as Hbu.
  assert (Hin : buddy_of i ∈ hF a k).
  { apply (free_spec _ _ _ I); [done|]. split; [|done]. right. rewrite buddy_half. by apply (live_parent _ _ _ I). }
  apply list_elem_of_split in Hin as (xs & ys & El).
  assert (N1 : nodes_ok M L (setA a k i false)) by (destruct (inv_nodes _ _ _ I); split; auto).
  pose proof (rep_remove _ _ _ _ k (buddy_of i) xs ys R1 N1 ltac:(destruct Hb; lia) El) as R2.
  pose proof (rep_clear_split _ _ _ _ _ _ R2 Hbu ltac:(destruct Hb; lia)) as R3.
  eexists _, (merge a k i (xs ++ ys)). split.
  - rewrite (bind_Ok (modify _) _ _ _ _ eq_refl).
    erewrite (bind_Ok (gets _)) by (unfold gets; rewrite (blk_index_same _ _ _ _ R2 _ _ Hbu); reflexivity). reflexivity.
  - split_and!; [exact R3|by apply merge_inv|done|]. by apply (merge_live M L).
Qed.
End FreeTurn.

Lemma free_loop M L s0 s a k i (Lv : Z -> Z -> Prop) :
  bd_rep M L s a -> buddy_inv M L a -> static s = static s0 -> live M a k i -> ~ own L k i -> ~ Lv k i ->
  (forall k' i', Lv k' i' -> live M a k' i') ->
  (forall k' i', live M a k' i' -> (k' = k /\ i' = i) \/ Lv k' i') ->
  wp (while_ free_turn (at_ s0 k i, k)) (fun x s' => exists a' j,
    x.1 = at_ s0 x.2 j /\ bd_rep M L s' (setA a' x.2 j false) /\ buddy_inv M L a' /\ static s' = static s0 /\
    live M a' x.2 j /\ ~ own L x.2 j /\ hA a' x.2 (buddy_of j) = true /\ ~ Lv x.2 j /\
    forall k' i', live M a' k' i' <-> (k' = x.2 /\ i' = j) \/ Lv k' i') s.
Proof.
  intros R I Hst Hl Ho Hn H1 H2.
  apply (wp_while free_turn
    (fun x s => exists a i, x.1 = at_ s0 x.2 i /\ bd_rep M L s a /\ buddy_inv M L a /\ static s = static s0 /\
      live M a x.2 i /\ ~ own L x.2 i /\ ~ Lv x.2 i /\ forall k' i', live M a k' i' <-> (k' = x.2 /\ i' = i) \/ Lv k' i') _ (fun x => M - x.2)).
  - clear R I Hst Hl Ho Hn H1 H2 s a k i.
    intros [p k] s (a & i & Ep & R & I & Hst & Hl & Ho & Hn & Hlv). cbn [Datatypes.fst Datatypes.snd] in *. subst p.
    pose proof (live_small _ _ _ I k i Hl Ho) as Hk. rewrite <- !(at_static _ _ _ _ Hst).
    destruct (hA a k (buddy_of i)) eqn:E.
    + destruct (free_turn_stop M L s a k i R Hl Hk E) as (s' & E' & R' & Hst').
      apply wp_Ok. eexists _, s'. split; [exact E'|]. exists a, i. cbn [Datatypes.fst Datatypes.snd]. rewrite (at_static _ _ _ _ Hst).
      split_and!; auto. congruence.
    + destruct (free_turn_merge M L s a k i R I Hl Hk E Ho) as (s' & a' & E' & R' & I' & Hst' & Hlv').
      apply wp_Ok. eexists _, s'. split; [exact E'|]. cbn [Datatypes.fst Datatypes.snd]. split; [|lia]. exists a', (i / 2).
      assert (Hk0 : 0 <= k) by (destruct Hl as ([? _] & _); lia).
      rewrite (at_static _ _ _ _ Hst). split_and!; auto; [congruence|by apply Hlv'; left|unfold own; lia| |].
      * intros HL'. assert (Hlp : live M a (k + 1) (i / 2)) by (apply Hlv; tauto).
        destruct (live_parent _ _ _ I k i Hl Hk) as [Hps _]. destruct Hlp as (_ & _ & ?). congruence.
      * intros k' i'. rewrite Hlv', Hlv. destruct (decide (k' = k /\ i' = i)) as [[-> ->]|]; tauto.
  - exists a, i. cbn [Datatypes.fst Datatypes.snd]. split_and!; auto. intros k' i'. split; [apply H2|]. intros [[-> ->]|?]; auto.
  - intros [p k'] s' (a' & i' & _ & _ & I' & _ & Hl' & Ho' & _). pose proof (live_small _ _ _ I' _ _ Hl' Ho'). lia.
  - cbn [Datatypes.snd]. destruct Hl as ([? _] & _). destruct (br_size _ _ _ _ R). lia.
Qed.

Lemma bd_free_spec M L s a k i :
  bd_rep M L s a -> buddy_inv M L a -> bd_lock s = false -> live M a k i -> ~ own L k i ->
  exists s' a', bd_free (at_ s k i) s = Ok tt s' /\ static s' = static s /\ bd_rep M L s' a' /\ buddy_inv M L a' /\
    forall k' i', live M a' k' i' <-> live M a k' i' /\ ~ (k' = k /\ i' = i).
Proof.
  intros R I Hlk Hl Ho. set (s1 := s <| bd_lock := true |>). pose proof (live_small _ _ _ I k i Hl Ho) as Hk.
  assert (R1 : bd_rep M L s1 a) by by apply rep_lock.
  destruct (proj1 (wp_Ok _ _ _) (size_spec M L s1 a k i R1 I Hl Hk)) as (? & ? & E1 & -> & ->).
  edestruct (proj1 (wp_Ok _ _ _) (free_loop M L s1 s1 a k i (fun k' i' => live M a k' i' /\ ~ (k' = k /\ i' = i)) R1 I eq_refl Hl Ho
    ltac:(cbn; tauto) ltac:(cbn; tauto) ltac:(cbn; intros k' i' ?; destruct (decide (k' = k /\ i' = i)); tauto)))
    as ([p' k'] & s2 & E2 & a2 & j & Ep & R2 & I2 & Hst2 & Hl2 & Ho2 & Hb2 & Hn2 & Hlv2).
  cbn [Datatypes.fst Datatypes.snd] in *. pose proof (live_small _ _ _ I2 k' j Hl2 Ho2) as Hk'.
  pose proof (give_inv _ _ _ I2 k' j Hl2 Hk' Ho2 Hb2) as I3.
  assert (Hk0 : 0 <= k' <= M) by (destruct Hl2 as ([? _] & _); lia).
  assert (Hni : j ∉ hF (setA a2 k' j false) k').
  { cbn. intros H. destruct Hl2 as (Hb & Ha & _). apply (free_spec _ _ _ I2) in H as [_ ?]; [congruence|done]. }
  pose proof (rep_push _ _ _ _ k' j R2 Hk0 Hni (inv_nodes _ _ _ I3)) as R3.
  change (at_ s k i) with (at_ s1 k i). unfold bd_free. unfold acquire at 1. unfold bind at 1. rewrite Hlk.
  rewrite (bind_Ok _ _ _ _ _ E1), (bind_Ok _ _ _ _ _ E2), (bind_Ok (modify _) _ _ _ _ eq_refl).
  eexists _, (give a2 k' j). split; [|split; [|split; [apply (rep_lock _ _ _ _ false R3)|split; [done|]]]].
  - unfold release. rewrite Ep, <- (at_static _ _ _ _ Hst2). cbn. pose proof Hst2 as [= _ _ _ _ ->]. reflexivity.
  - injection Hst2 as H1 H2 H3 H4 _. unfold static. cbn. congruence.
  - intros x y. rewrite give_live, Hlv2. destruct (decide (x = k' /\ y = j)) as [[-> ->]|]; tauto.
Qed.

(** Writing to a live block of a client disturbs nothing. *)
Lemma client_write M L s a k i (h : dheap) :
  bd_rep M L s a -> buddy_inv M L a -> live M a k i ->
  (forall x, ~ bytes s k i x -> nxt h x = nxt (bd_nodes s) x /\ prv h x = prv (bd_nodes s) x) -> ~ own L k i ->
  bd_rep M L (s <| bd_nodes := h |>) a.
Proof.
  intros R I Hl Hw Ho. pose proof (live_after_own M L s a k i I Hl Ho) as [Hlo _]. split; try apply R.
  intros j Hj. change (dlist h (free_of s j) (at_ s j <$> hF a j)).
  eapply dlist_ext; [|exact (br_lists _ _ _ _ R j Hj)]. intros x Hx. apply Hw.
  intros Hbx. pose proof (br_size _ _ _ _ R) as [_ HL]. pose proof (br_heads _ _ _ _ R) as Hh.
  assert (Hk0 : 0 <= k) by (destruct Hl as ([? _] & _); lia).
  apply elem_of_cons in Hx as [->|Hx]; [unfold bytes, free_of, SZ_INFO in Hbx; lia|].
  apply in_nodes in Hx as (y & Hy & ->). apply bytes_leaf in Hbx; [|done].
  unfold at_ in Hbx. replace ((bd_base s + y * 2 ^ j * 16 - bd_base s) / 16) with (y * 2 ^ j) in Hbx.
  2: { replace (bd_base s + y * 2 ^ j * 16 - bd_base s) with (y * 2 ^ j * 16) by lia. by rewrite Z.div_mul. }
  apply (free_not_live _ _ _ I j y k i (y * 2 ^ j)); auto. apply leaf_start. lia.
Qed.
