(* ===== verification/BuddyInit.v ===== *)
(** * [bd_init] sets up the buddy allocator

    Whatever the memory held before, [bd_init] lays the bit arrays out one after
    the other at the start of the heap, marks them and the tail beyond [end] as
    allocated, and puts the rest on the free lists: the allocator's invariant
    holds, and the live blocks are the marked leaves. *)
From stdpp Require Import base list gmap strings.
From Stdlib Require Import ZArith Lia.
From S2P Require Import Prelude KString DList Console Buddy BuddyProps.

#[local] Open Scope Z_scope.
#[local] Open Scope xv6_scope.

(** ** Marking *)

Lemma bd_rep_ext M L s a a' :
  bd_rep M L s a ->
  (forall k i, blk M k i -> hA a' k i = hA a k i /\ (0 < k -> hS a' k i = hS a k i)) ->
  (forall k, 0 <= k <= M -> hF a' k = hF a k) -> bd_rep M L s a'.
Proof.
  intros R H HF. split; try apply R.
  - intros [b k] i [Hk Hb] Hi. rewrite (br_bits _ _ _ _ R (b, k) i) by done. unfold hbit. cbn in *.
    destruct (H k i Hi) as [H1 H2]. destruct b; symmetry; auto.
  - intros k Hk. rewrite (HF k Hk). exact (br_lists _ _ _ _ R k Hk).
Qed.

(** Leaf [x] begins in block [x / 2^k]; the first block after it is rounded up. *)
Definition up (k x : Z) : Z := (x + 2 ^ k - 1) / 2 ^ k.
Definition leaf_at (s : bdst) (x : Z) : Z := bd_base s + x * 16.

Lemma blk_index_leaf s k x : 0 <= k -> 0 <= x <= 2 ^ 26 -> blk_index s k (leaf_at s x) = x / 2 ^ k.
Proof.
  intros Hk Hx. unfold blk_index, leaf_at. replace (bd_base s + x * 16 - bd_base s) with (x * 16) by lia.
  pose proof (Z.pow_pos_nonneg 2 k ltac:(lia) Hk). rewrite (s32_small (x * 16)) by lia.
  rewrite BLK_SIZE_pow, Z.quot_div_nonneg, Z.div_mul_cancel_r by lia. apply s32_small.
  assert (x / 2 ^ k <= x) by (apply Z.div_le_upper_bound; nia). assert (0 <= x / 2 ^ k) by (apply Z.div_pos; lia). lia.
Qed.

Lemma blk_index_next_leaf s k x : 0 <= k -> 0 <= x <= 2 ^ 26 -> blk_index_next s k (leaf_at s x) = up k x.
Proof.
  intros Hk Hx. unfold blk_index_next, leaf_at, up. replace (bd_base s + x * 16 - bd_base s) with (x * 16) by lia.
  pose proof (Z.pow_pos_nonneg 2 k ltac:(lia) Hk).
  rewrite BLK_SIZE_pow, Z.quot_div_nonneg, Z.rem_mod_nonneg, Z.div_mul_cancel_r by lia.
  rewrite Zmult_mod_distr_r. assert (x / 2 ^ k <= x) by (apply Z.div_le_upper_bound; nia).
  assert (0 <= x / 2 ^ k) by (apply Z.div_pos; lia). rewrite s32_small by lia.
  pose proof (Z.div_mod x (2 ^ k) ltac:(lia)) as E. pose proof (Z.mod_pos_bound x (2 ^ k) ltac:(lia)).
  destruct (Z.eqb_spec (x mod 2 ^ k * 16) 0) as [E0|E0]; cbn [negb].
  - apply Z.div_unique with (2 ^ k - 1); lia.
  - apply Z.div_unique with (x mod 2 ^ k - 1); lia.
Qed.

(** Blocks [lo, hi) of size [k] marked. *)
Definition marked (a : heap) (m : Z -> Z -> bool) : heap :=
  Heap (fun k i => hA a k i || m k i) (fun k i => hS a k i || (0 <? k) && m k i) (hF a).

Lemma mark_block_rep M L s a k bj bi :
  bd_rep M L s a -> blk M k bi -> bi < bj ->
  exists s', mark_block k bj bi s = Ok (inl (bi + 1)) s' /\ static s' = static s /\
    bd_rep M L s' (marked a (fun k' i => (k' =? k) && (i =? bi))).
Proof.
  intros R Hb Hlt. unfold mark_block. rewrite (proj2 (Z.ltb_lt bi bj)) by done. cbn [negb]. rewrite Z.gtb_ltb.
  destruct (Z.ltb_spec 0 k) as [Hk|Hk].
  - pose proof (rep_set_alloc _ _ _ _ _ _ (rep_set_split _ _ _ _ _ _ R Hb Hk) Hb) as R2.
    eexists. split; [reflexivity|]. split; [done|]. eapply bd_rep_ext; [exact R2| |done].
    intros j i Hi. unfold marked, setA, setS, upd2. cbn. split; [|intros Hj; rewrite (proj2 (Z.ltb_lt 0 j)) by done];
      destruct (_ && _); by rewrite ?orb_true_r, ?orb_false_r.
  - pose proof (rep_set_alloc _ _ _ _ _ _ R Hb) as R2.
    eexists. split; [reflexivity|]. split; [done|]. eapply bd_rep_ext; [exact R2| |done].
    intros j i Hi. unfold marked, setA, upd2. cbn. split; [|intros Hj; rewrite (proj2 (Z.ltb_lt 0 j)) by done].
    + destruct (_ && _); by rewrite ?orb_true_r, ?orb_false_r.
    + destruct (Z.eqb_spec j k); [lia|]. by rewrite orb_false_r.
Qed.

Lemma mark_loop M L s a k lo hi :
  bd_rep M L s a -> 0 <= k <= M -> 0 <= lo -> hi <= 2 ^ (M - k) ->
  wp (while_ (mark_block k hi) lo) (fun _ s' => static s' = static s /\
    bd_rep M L s' (marked a (fun k' i => (k' =? k) && ((lo <=? i) && (i <? hi))))) s.
Proof.
  intros R Hk Hlo Hhi. pose proof (br_size _ _ _ _ R) as [HM _].
  assert (2 ^ (M - k) <= 2 ^ 26) by (apply Z.pow_le_mono_r; lia).
  apply (wp_while (mark_block k hi)
    (fun bi s' => static s' = static s /\ lo <= bi <= Z.max lo hi /\
      bd_rep M L s' (marked a (fun k' i => (k' =? k) && ((lo <=? i) && (i <? bi))))) _ (fun bi => Z.max lo hi - bi)).
  - intros bi s' (Hst & Hbi & R'). destruct (Z.lt_ge_cases bi hi) as [Hlt|Hge].
    + destruct (mark_block_rep M L s' _ k hi bi R' ltac:(unfold blk; lia) Hlt) as (s2 & E & Hst2 & R2).
      apply wp_Ok. eexists _, s2. split; [exact E|]. split; [|lia]. split; [congruence|]. split; [lia|].
      eapply bd_rep_ext; [exact R2| |done]. intros j i Hi. unfold marked. cbn.
      assert ((j =? k) && ((lo <=? i) && (i <? bi + 1)) =
              (j =? k) && ((lo <=? i) && (i <? bi)) || (j =? k) && (i =? bi)) as ->.
      { destruct (j =? k); [|done]. cbn. destruct (Z.leb_spec lo i), (Z.ltb_spec i bi), (Z.eqb_spec i bi), (Z.ltb_spec i (bi + 1)); lia || done. }
      rewrite andb_orb_distrib_r, !orb_assoc. done.
    + unfold mark_block. rewrite (proj2 (Z.ltb_ge bi hi)) by done. apply wp_ret. split; [done|].
      eapply bd_rep_ext; [exact R'| |done]. intros j i Hi. unfold marked. cbn.
      assert ((lo <=? i) && (i <? hi) = (lo <=? i) && (i <? bi)) as ->; [|done].
      destruct (Z.leb_spec lo i), (Z.ltb_spec i bi), (Z.ltb_spec i hi); lia || done.
  - split; [done|]. split; [lia|]. eapply bd_rep_ext; [exact R| |done]. intros j i Hi. unfold marked. cbn.
    assert ((lo <=? i) && (i <? lo) = false) as -> by (destruct (Z.leb_spec lo i), (Z.ltb_spec i lo); lia || done).
    by rewrite !andb_false_r, !orb_false_r.
  - intros bi s' (_ & ? & _). lia.
  - lia.
Qed.

Lemma leaf_at_static s s' x : static s' = static s -> leaf_at s' x = leaf_at s x.
Proof. intros E. unfold leaf_at. by rewrite (static_base _ _ E). Qed.

Lemma up_le M k y : 0 <= k <= M -> y <= 2 ^ M -> up k y <= 2 ^ (M - k).
Proof.
  intros Hk Hy. unfold up. pose proof (Z.pow_pos_nonneg 2 k). apply Z.lt_succ_r, Z.div_lt_upper_bound; [lia|].
  assert (2 ^ M = 2 ^ k * 2 ^ (M - k)) by (rewrite <- Z.pow_add_r by lia; f_equal; lia). lia.
Qed.

Lemma leaves_small M : M <= 26 -> 2 ^ M <= 2 ^ 26.
Proof. intros. apply Z.pow_le_mono_r; lia. Qed.

(** The blocks that [bd_mark] marks. *)
Definition marks (x y k i : Z) : bool := (x / 2 ^ k <=? i) && (i <? up k y).

Lemma mark_sizes M L x y n : 0 <= x -> x <= y <= 2 ^ M -> forall k0 s a,
  bd_rep M L s a -> 0 <= k0 -> k0 + Z.of_nat n <= M + 1 ->
  wp (bd_each (zseq k0 n) (mark_size (leaf_at s x) (leaf_at s y))) (fun _ s' => static s' = static s /\
    bd_rep M L s' (marked a (fun k i => ((k0 <=? k) && (k <? k0 + Z.of_nat n)) && marks x y k i))) s.
Proof.
  intros Hx Hy. induction n as [|n IH]; intros k0 s a R Hk0 Hn.
  - apply wp_ret. split; [done|]. eapply bd_rep_ext; [exact R| |done]. intros j i Hi. unfold marked. cbn -[Z.of_nat].
    assert ((k0 <=? j) && (j <? k0 + Z.of_nat 0) = false) as ->
      by (destruct (Z.leb_spec k0 j), (Z.ltb_spec j (k0 + Z.of_nat 0)); lia || done).
    cbn. by rewrite !andb_false_r, !orb_false_r.
  - pose proof (br_size _ _ _ _ R) as [HM _]. pose proof (leaves_small M ltac:(lia)).
    cbn [zseq bd_each]. unfold mark_size at 1. eapply wp_seq.
    + apply wp_gets, wp_gets. rewrite blk_index_leaf, blk_index_next_leaf by lia.
      apply (mark_loop M L s a k0 (x / 2 ^ k0) (up k0 y) R); [lia|apply Z.div_pos; [lia|apply Z.pow_pos_nonneg; lia]|apply up_le; lia].
    + intros _ s' [Hst R']. rewrite <- !(leaf_at_static _ _ _ Hst). eapply wp_mono; [apply (IH (k0 + 1) s' _ R'); lia|].
      intros _ s'' [Hst2 R2]. split; [congruence|]. eapply bd_rep_ext; [exact R2| |done].
      intros j i Hi. unfold marked. cbn -[Z.of_nat]. fold (marks x y j i).
      assert (((k0 <=? j) && (j <? k0 + Z.of_nat (S n))) && marks x y j i =
        (j =? k0) && ((x / 2 ^ k0 <=? i) && (i <? up k0 y)) || ((k0 + 1 <=? j) && (j <? k0 + 1 + Z.of_nat n)) && marks x y j i) as ->.
      { destruct (Z.eqb_spec j k0) as [->|].
        - change ((x / 2 ^ k0 <=? i) && (i <? up k0 y)) with (marks x y k0 i).
          rewrite (proj2 (Z.leb_le k0 k0)), (proj2 (Z.ltb_lt k0 (k0 + Z.of_nat (S n)))), (proj2 (Z.leb_gt (k0 + 1) k0)) by lia.
          cbn. by rewrite orb_false_r.
        - cbn. f_equal. destruct (Z.leb_spec k0 j), (Z.leb_spec (k0 + 1) j); try lia; cbn; auto.
          f_equal. lia. }
      rewrite andb_orb_distrib_r, !orb_assoc. done.
Qed.

Lemma bd_mark_rep M L x y s a :
  bd_rep M L s a -> bd_base s mod 16 = 0 -> 0 <= x -> x <= y <= 2 ^ M ->
  wp (bd_mark (leaf_at s x) (leaf_at s y)) (fun _ s' => static s' = static s /\ bd_rep M L s' (marked a (marks x y))) s.
Proof.
  intros R Hb Hx Hy. unfold bd_mark, LEAF_SIZE.
  assert (forall z, leaf_at s z mod 16 = 0) as Hz by (intros z; unfold leaf_at; by rewrite Z.mod_add).
  rewrite !Hz. cbn [Z.eqb negb orb]. apply wp_gets. rewrite (br_n _ _ _ _ R). pose proof (br_size _ _ _ _ R) as [HM _].
  eapply wp_mono; [apply (mark_sizes M L x y _ Hx Hy 0 s a R); lia|]. intros _ s' [Hst R']. split; [done|].
  eapply bd_rep_ext; [exact R'| |done]. intros j i [Hj _]. unfold marked. cbn -[Z.of_nat].
  rewrite (proj2 (Z.leb_le 0 j)), (proj2 (Z.ltb_lt j _)) by lia. done.
Qed.

(** ** Filling the free lists *)

Lemma nodes_ok_mono M L a a' : (forall k i, 0 <= k <= M -> i ∈ hF a' k -> i ∈ hF a k) -> nodes_ok M L a -> nodes_ok M L a'.
Proof. intros H [N1 N2]. split; eauto. Qed.

Lemma initfree_pair_rep M L s a k bi :
  bd_rep M L s a -> blk M k bi -> k < M ->
  let f := if hA a k bi then buddy_of bi else bi in
  (hA a k bi = hA a k (buddy_of bi) -> bd_initfree_pair k bi s = Ok 0 s) /\
  (hA a k bi <> hA a k (buddy_of bi) -> (f ∉ hF a k) -> nodes_ok M L (setF a k (f :: hF a k)) ->
   exists s', bd_initfree_pair k bi s = Ok (BLK_SIZE k) s' /\ static s' = static s /\
     bd_rep M L s' (setF a k (f :: hF a k))).
Proof.
  intros R Hb Hk f. pose proof (blk_buddy _ _ _ Hb Hk) as Hbb. unfold bd_initfree_pair.
  rewrite (bind_Ok _ _ _ (hA a k bi) s) by (unfold get_bit_in, gets; by rewrite (rep_alloc _ _ _ _ _ _ R Hb)).
  rewrite (bind_Ok _ _ _ (hA a k (buddy_of bi)) s) by (unfold get_bit_in, gets; by rewrite (rep_alloc _ _ _ _ _ _ R Hbb)).
  split.
  - intros ->. by rewrite eqb_reflx.
  - intros Hn Hf N. rewrite (proj2 (Bool.eqb_false_iff _ _)) by done. cbn [negb].
    assert (blk M k f) as Hbf by (unfold f; by destruct (hA a k bi)).
    pose proof (rep_push _ _ _ _ k f R ltac:(destruct Hb; lia) Hf N) as R'.
    rewrite <- (addr_at _ _ _ _ R _ _ Hbf) in R'. eexists. split; [|split; [|exact R']]; [|done].
    unfold bind, modify, ret. f_equal. apply s32_small. rewrite BLK_SIZE_pow by (destruct Hb; lia).
    pose proof (br_size _ _ _ _ R) as [HM _]. pose proof (Z.pow_pos_nonneg 2 k ltac:(lia) ltac:(destruct Hb; lia)).
    assert (2 ^ k <= 2 ^ 26) by (apply Z.pow_le_mono_r; destruct Hb; lia). lia.
Qed.

(** ** The heap after [bd_init] *)

Section InitHeap.
Context (M L E : Z).
Context (HM : 2 <= M) (HL : 0 < L /\ 4 * L <= 2 ^ M) (HE : 2 ^ (M - 1) <= E < 2 ^ M).

(** The first free block of size [k], and the first one after them. *)
Definition first_ (k : Z) : Z := up k L.
Definition last_ (k : Z) : Z := E / 2 ^ k.

Definition init_A (k i : Z) : bool := (i <? first_ k) || (last_ k <=? i).
Definition free_pair (a b : Z) : list Z :=
  (if Z.odd b && (a <? b) then [b - 1] else []) ++ (if Z.odd a && (a <? b) then [a] else []).
Definition init_heap : heap :=
  Heap init_A (fun k i => (0 <? k) && init_A k i) (fun k => if k <? M then free_pair (first_ k) (last_ k) else []).

Lemma first_up k : 0 <= k -> first_ (k + 1) = (first_ k + 1) / 2.
Proof.
  intros Hk. unfold first_, up. pose proof (Z.pow_pos_nonneg 2 k ltac:(lia) Hk).
  replace ((L + 2 ^ k - 1) / 2 ^ k + 1) with ((L + 2 ^ k - 1 + 1 * 2 ^ k) / 2 ^ k) by (rewrite Z.div_add by lia; lia).
  rewrite Z.div_div by lia. rewrite Z.pow_add_r by lia. f_equal. lia.
Qed.

Lemma last_up k : 0 <= k -> last_ (k + 1) = last_ k / 2.
Proof.
  intros Hk. unfold last_. pose proof (Z.pow_pos_nonneg 2 k ltac:(lia) Hk). rewrite Z.div_div by lia.
  by rewrite Z.pow_add_r by lia.
Qed.

Lemma first_pos k : 0 <= k -> 1 <= first_ k.
Proof.
  intros Hk. unfold first_, up. pose proof (Z.pow_pos_nonneg 2 k ltac:(lia) Hk). apply Z.div_le_lower_bound; lia.
Qed.

Lemma first_le k : 0 <= k <= M -> first_ k <= Z.max 1 (2 ^ (M - 2 - k)).
Proof.
  intros Hk. destruct (Z.le_gt_cases k (M - 2)).
  - rewrite Z.max_r by (pose proof (Z.pow_pos_nonneg 2 (M - 2 - k)); lia). apply (up_le (M - 2)); [lia|].
    replace M with (M - 2 + 2) in HL by lia. rewrite Z.pow_add_r in HL by lia. lia.
  - rewrite Z.max_l by (rewrite Z.pow_neg_r by lia; lia). unfold first_, up.
    pose proof (Z.pow_pos_nonneg 2 k ltac:(lia) ltac:(lia)). apply Z.lt_succ_r, Z.div_lt_upper_bound; [lia|].
    assert (2 ^ M <= 2 ^ (k + 1)) by (apply Z.pow_le_mono_r; lia). rewrite Z.pow_add_r in * by lia. lia.
Qed.

Lemma last_ge k : 0 <= k < M -> 2 ^ (M - 1 - k) <= last_ k < 2 ^ (M - k).
Proof.
  intros Hk. unfold last_. pose proof (Z.pow_pos_nonneg 2 k ltac:(lia) ltac:(lia)).
  assert (2 ^ k * 2 ^ (M - 1 - k) = 2 ^ (M - 1)) by (rewrite <- Z.pow_add_r by lia; f_equal; lia).
  assert (2 ^ k * 2 ^ (M - k) = 2 ^ M) by (rewrite <- Z.pow_add_r by lia; f_equal; lia).
  split; [apply Z.div_le_lower_bound|apply Z.div_lt_upper_bound]; lia.
Qed.

(** Some block of every size is free, but for the two largest; never just one that is even. *)
Lemma first_last k : 0 <= k < M -> first_ k <= last_ k /\ ~ (last_ k = first_ k + 1 /\ Z.odd (first_ k) = false).
Proof.
  intros Hk. pose proof (first_le k ltac:(lia)). pose proof (first_pos k ltac:(lia)). pose proof (last_ge k Hk) as Hl.
  destruct (Z.le_gt_cases k (M - 2)).
  - assert (Hp : 2 ^ (M - 1 - k) = 2 * 2 ^ (M - 2 - k)) by (rewrite <- Z.pow_succ_r by lia; f_equal; lia).
    pose proof (Z.pow_pos_nonneg 2 (M - 2 - k) ltac:(lia) ltac:(lia)). split; [lia|]. intros [E1 E2].
    assert (first_ k = 1) as Ef by lia. rewrite Ef in E2. done.
  - assert (k = M - 1) as -> by lia. replace (M - 1 - (M - 1)) with 0 in Hl by lia. replace (M - 2 - (M - 1)) with (-1) in * by lia.
    cbn in *. assert (first_ (M - 1) = 1) as -> by lia. split; [lia|]. by intros [_ ?].
Qed.

Lemma odd_half n : n = 2 * (n / 2) + (if Z.odd n then 1 else 0).
Proof. pose proof (Zdiv2_odd_eqn n) as H. rewrite Z.div2_div in H. done. Qed.

Lemma init_exists k i :
  0 <= k <= M -> exists_ M init_heap k i <-> k = M \/ i / 2 < (first_ k + 1) / 2 \/ last_ k / 2 <= i / 2.
Proof.
  intros Hk. unfold exists_, init_heap, init_A; cbn. rewrite (proj2 (Z.ltb_lt 0 (k + 1))) by lia. cbn.
  rewrite orb_true_iff, Z.ltb_lt, Z.leb_le, first_up, last_up by lia. done.
Qed.

Lemma in_free_pair k i : 0 <= k < M ->
  i ∈ free_pair (first_ k) (last_ k) <-> first_ k <= i < last_ k /\ (i / 2 < (first_ k + 1) / 2 \/ last_ k / 2 <= i / 2).
Proof.
  intros Hk. destruct (first_last k Hk) as [H1 H2]. unfold free_pair.
  pose proof (odd_half (first_ k)) as Oa. pose proof (odd_half (last_ k)) as Ob.
  set (a := first_ k) in *. set (b := last_ k) in *. rewrite elem_of_app.
  destruct (Z.odd a), (Z.odd b); cbn [andb]; destruct (Z.ltb_spec a b);
    rewrite ?list_elem_of_singleton, ?elem_of_nil; Z.to_euclidean_division_equations; lia.
Qed.

Lemma free_pair_nodup k : 0 <= k < M -> NoDup (free_pair (first_ k) (last_ k)).
Proof.
  intros Hk. destruct (first_last k Hk) as [H1 H2]. unfold free_pair.
  pose proof (odd_half (first_ k)) as Oa. pose proof (odd_half (last_ k)) as Ob.
  set (a := first_ k) in *. set (b := last_ k) in *.
  destruct (Z.odd a), (Z.odd b); cbn [andb app]; destruct (Z.ltb_spec a b); cbn [app]; repeat constructor;
    rewrite ?list_elem_of_singleton; try apply not_elem_of_nil; lia.
Qed.

Lemma init_A_false k i : init_A k i = false <-> first_ k <= i < last_ k.
Proof. unfold init_A. rewrite orb_false_iff, Z.ltb_ge, Z.leb_gt. done. Qed.

Lemma init_A_top : init_A M 0 = true.
Proof. unfold init_A. rewrite (proj2 (Z.ltb_lt _ _)); [done|]. pose proof (first_pos M). lia. Qed.

Lemma init_inv : buddy_inv M L init_heap.
Proof.
  assert (Hal : forall k i, blk M k i -> init_A k i = true -> exists_ M init_heap k i).
  { intros k i [Hk Hi] H. rewrite init_exists by lia. destruct (Z.eq_dec k M); [auto|right].
    apply orb_true_iff in H. rewrite Z.ltb_lt, Z.leb_le in H. Z.to_euclidean_division_equations; lia. }
  split.
  - split; [|lia]. assert (2 <= 2 ^ M) by (apply (Z.pow_le_mono_r 2 1); lia). lia.
  - intros k i Hb H. cbn in H. apply andb_true_iff in H as [H1 H2]. apply Z.ltb_lt in H1. auto.
  - intros k i Hb H. by apply Hal.
  - intros k i. cbn. destruct (decide (0 <= k <= M)) as [Hk|]; [|unfold blk; tauto].
    rewrite init_exists, init_A_false by done. destruct (Z.ltb_spec k M) as [Hlt|].
    + rewrite in_free_pair by lia. pose proof (last_ge k ltac:(lia)). pose proof (first_pos k ltac:(lia)). unfold blk. lia.
    + assert (k = M) as -> by lia. unfold blk. rewrite Z.sub_diag. rewrite elem_of_nil. split; [tauto|]. intros ([_ Hi] & _ & Hf).
      pose proof (first_pos M ltac:(lia)). cbn in Hi. lia.
  - intros k i [Hk Hi] Hlt Hex Hf. rewrite init_exists in Hex by lia. cbn in *. apply init_A_false in Hf.
    pose proof (odd_half (first_ k)) as Oa. pose proof (odd_half (last_ k)) as Ob.
    destruct (init_A k (buddy_of i)) eqn:Eb; [done|]. apply init_A_false in Eb. unfold buddy_of in Eb.
    destruct (Z.odd (first_ k)), (Z.odd (last_ k)), (Z.eqb_spec (i mod 2) 0); Z.to_euclidean_division_equations; lia.
  - intros i Hi. cbn. unfold init_A, first_, up. change (2 ^ 0) with 1. rewrite Z.div_1_r, (proj2 (Z.ltb_lt _ _)) by lia. done.
  - intros k Hk. cbn. destruct (Z.ltb_spec k M); [apply free_pair_nodup; lia|constructor].
Qed.
(** The lists of the sizes below [k] are filled. *)
Definition part_heap (k : Z) : heap :=
  Heap init_A (fun k i => (0 <? k) && init_A k i) (fun j => if j <? k then free_pair (first_ j) (last_ j) else []).

Lemma part_next M' s k l :
  0 <= k -> l = free_pair (first_ k) (last_ k) -> bd_rep M' L s (setF (part_heap k) k l) -> bd_rep M' L s (part_heap (k + 1)).
Proof.
  intros Hk -> R. eapply bd_rep_ext; [exact R|done|]. intros j Hj. cbn.
  destruct (Z.eq_dec j k) as [->|Hn]; [rewrite upd_same, (proj2 (Z.ltb_lt k (k + 1))) by lia; done|].
  rewrite upd_other by done. destruct (Z.ltb_spec j k), (Z.ltb_spec j (k + 1)); lia || done.
Qed.

Lemma part_nodes k l :
  0 <= k < M -> (forall i, i ∈ l -> i ∈ free_pair (first_ k) (last_ k)) -> nodes_ok M L (setF (part_heap k) k l).
Proof.
  intros Hk Hl. eapply (nodes_ok_mono _ _ init_heap); [|apply inv_nodes, init_inv].
  intros j i Hj. cbn. destruct (Z.eq_dec j k) as [->|Hn].
  - rewrite upd_same, (proj2 (Z.ltb_lt k M)) by lia. apply Hl.
  - rewrite upd_other by done. destruct (Z.ltb_spec j k); [rewrite (proj2 (Z.ltb_lt j M)) by lia; done|by rewrite elem_of_nil].
Qed.

Lemma part_empty k : hF (part_heap k) k = [].
Proof. cbn. by rewrite Z.ltb_irrefl. Qed.

Lemma buddy_even a : Z.odd a = false -> buddy_of a = a + 1.
Proof. intros H. unfold buddy_of. rewrite Zmod_odd, H. done. Qed.
Lemma buddy_odd a : Z.odd a = true -> buddy_of a = a - 1.
Proof. intros H. unfold buddy_of. rewrite Zmod_odd, H. done. Qed.

(** The pair at the left end. *)
Lemma initfree_left s k :
  bd_rep M L s (part_heap k) -> 0 <= k < M ->
  let l := if Z.odd (first_ k) && (first_ k <? last_ k) then [first_ k] else [] in
  exists s', bd_initfree_pair k (first_ k) s = Ok (BLK_SIZE k * Z.of_nat (length l)) s' /\ static s' = static s /\
    bd_rep M L s' (setF (part_heap k) k l).
Proof.
  intros R Hk l. destruct (first_last k Hk) as [H1 H2]. pose proof (first_pos k ltac:(lia)) as Hp.
  pose proof (last_ge k Hk) as Hq. destruct (initfree_pair_rep M L s _ k (first_ k) R ltac:(unfold blk; lia) ltac:(lia)) as [P1 P2].
  cbn [hA part_heap] in P1, P2. rewrite part_empty in P2.
  assert (R0 : bd_rep M L s (setF (part_heap k) k [])).
  { eapply bd_rep_ext; [exact R|done|]. intros j Hj. destruct (Z.eq_dec j k) as [->|Hn]; [by rewrite part_empty; cbn; rewrite upd_same|].
    cbn. by rewrite upd_other. }
  unfold init_A in P1, P2. rewrite (proj2 (Z.ltb_ge (first_ k) (first_ k))) in P1, P2 by lia. cbn [orb] in P1, P2.
  subst l. destruct (Z.odd (first_ k)) eqn:Eo; cbn [andb].
  - rewrite buddy_odd, (proj2 (Z.ltb_lt (first_ k - 1) (first_ k))) in P1, P2 by (done || lia). cbn [orb] in P1, P2.
    destruct (Z.ltb_spec (first_ k) (last_ k)) as [Hlt|Hge].
    + rewrite (proj2 (Z.leb_gt _ _)) in P2 by lia. cbn [length]. rewrite Z.mul_1_r. apply P2; [done|apply not_elem_of_nil|].
      apply part_nodes; [done|]. intros i ->%list_elem_of_singleton. unfold free_pair. rewrite Eo, (proj2 (Z.ltb_lt _ _)) by lia.
      cbn. set_solver.
    + rewrite (proj2 (Z.leb_le _ _)) in P1 by lia. exists s. rewrite P1 by done. rewrite Z.mul_0_r. auto.
  - rewrite buddy_even in P1 by done. exists s. rewrite P1; [rewrite Z.mul_0_r; auto|].
    rewrite (proj2 (Z.ltb_ge (first_ k + 1) _)) by lia. cbn [orb].
    destruct (Z.leb_spec (last_ k) (first_ k)), (Z.leb_spec (last_ k) (first_ k + 1)); done || lia.
Qed.

(** The pair at the right end, when it is another one. *)
Lemma initfree_right s k l :
  l = (if Z.odd (first_ k) && (first_ k <? last_ k) then [first_ k] else []) ->
  bd_rep M L s (setF (part_heap k) k l) -> 0 <= k < M -> first_ k < last_ k ->
  exists s', bd_initfree_pair k (last_ k) s = Ok (BLK_SIZE k * (if Z.odd (last_ k) then 1 else 0)) s' /\ static s' = static s /\
    bd_rep M L s' (part_heap (k + 1)).
Proof.
  intros El R Hk Hlt. destruct (first_last k Hk) as [H1 H2]. pose proof (first_pos k ltac:(lia)) as Hp.
  pose proof (last_ge k Hk) as Hq. destruct (initfree_pair_rep M L s _ k (last_ k) R ltac:(unfold blk; lia) ltac:(lia)) as [P1 P2].
  cbn [hA hF part_heap setF] in P1, P2. rewrite upd_same in P2.
  unfold init_A in P1, P2. rewrite (proj2 (Z.ltb_ge (last_ k) (first_ k))), Z.leb_refl in P1, P2 by lia. cbn [orb] in P1, P2.
  assert (Ef : free_pair (first_ k) (last_ k) = (if Z.odd (last_ k) then [last_ k - 1] else []) ++ l).
  { unfold free_pair. rewrite El, (proj2 (Z.ltb_lt _ _)) by lia. by rewrite !andb_true_r. }
  destruct (Z.odd (last_ k)) eqn:Eo.
  - rewrite buddy_odd, (proj2 (Z.ltb_ge (last_ k - 1) (first_ k))), (proj2 (Z.leb_gt _ (last_ k - 1))) in P2 by (done || lia).
    rewrite Z.mul_1_r. cbn [app] in Ef. pose proof (free_pair_nodup k Hk) as Hnd. rewrite Ef in Hnd. apply NoDup_cons in Hnd as [Hni _].
    assert (Hset : forall s', bd_rep M L s' (setF (setF (part_heap k) k l) k (last_ k - 1 :: l)) -> bd_rep M L s' (part_heap (k + 1))).
    { intros s' R'. eapply (part_next M s' k _ ltac:(lia) eq_refl). rewrite Ef. eapply bd_rep_ext; [exact R'|done|].
      intros j Hj. cbn. destruct (Z.eq_dec j k) as [->|]; [by rewrite !upd_same|by rewrite !upd_other]. }
    destruct P2 as (s' & E1 & E2 & R'); [done|done| |eauto].
    eapply (nodes_ok_mono _ _ (setF (part_heap k) k (last_ k - 1 :: l))); [|apply part_nodes; [done|by rewrite Ef]].
    intros j i Hj. cbn. destruct (Z.eq_dec j k) as [->|]; [by rewrite !upd_same|by rewrite !upd_other].
  - rewrite buddy_even, (proj2 (Z.leb_le _ (last_ k + 1))), orb_true_r in P1 by (done || lia).
    exists s. rewrite P1 by done. rewrite Z.mul_0_r. split_and!; [done..|]. eapply part_next; [lia|symmetry; exact Ef|exact R].
Qed.

(** How much of the free memory is on the lists below size [k]. *)
Definition listed (k : Z) : Z := if k <? M then ((E - L) - (last_ k - first_ k) * 2 ^ k) * 16 else (E - L) * 16.

Lemma listed_step k : 0 <= k < M ->
  listed k + BLK_SIZE k * Z.of_nat (length (free_pair (first_ k) (last_ k))) = listed (k + 1).
Proof.
  intros Hk. rewrite BLK_SIZE_pow by lia. unfold listed. rewrite (proj2 (Z.ltb_lt k M)) by lia.
  destruct (first_last k Hk) as [H1 H2]. pose proof (first_le k ltac:(lia)). pose proof (first_pos k ltac:(lia)). pose proof (last_ge k Hk) as Hl.
  destruct (Z.ltb_spec (k + 1) M) as [Hlt|Hge].
  - assert (Hp : 2 ^ (M - 1 - k) = 2 * 2 ^ (M - 2 - k)) by (rewrite <- Z.pow_succ_r by lia; f_equal; lia).
    pose proof (Z.pow_pos_nonneg 2 (M - 2 - k) ltac:(lia) ltac:(lia)).
    rewrite first_up, last_up, Z.pow_add_r by lia. change (2 ^ 1) with 2.
    pose proof (odd_half (first_ k)) as Oa. pose proof (odd_half (last_ k)) as Ob. unfold free_pair.
    rewrite (proj2 (Z.ltb_lt (first_ k) (last_ k))) by lia.
    assert ((first_ k + 1) / 2 = first_ k / 2 + (if Z.odd (first_ k) then 1 else 0)) as ->
      by (destruct (Z.odd (first_ k)); Z.to_euclidean_division_equations; lia).
    destruct (Z.odd (first_ k)), (Z.odd (last_ k)); cbn [andb app length]; nia.
  - assert (k = M - 1) as -> by lia. replace (M - 1 - (M - 1)) with 0 in Hl by lia. replace (M - (M - 1)) with 1 in Hl by lia.
    replace (M - 2 - (M - 1)) with (-1) in * by lia. cbn in *.
    assert (first_ (M - 1) = 1) as -> by lia. assert (last_ (M - 1) = 1) as -> by lia. cbn. lia.
Qed.

Lemma initfree_size_rep s k free :
  bd_rep M L s (part_heap k) -> 0 <= k < M ->
  exists s', initfree_size (leaf_at s L) (leaf_at s E) k free s =
      Ok (free + BLK_SIZE k * Z.of_nat (length (free_pair (first_ k) (last_ k)))) s' /\ static s' = static s /\
    bd_rep M L s' (part_heap (k + 1)).
Proof.
  intros R Hk. pose proof (br_size _ _ _ _ R) as [HMs _]. pose proof (leaves_small M ltac:(lia)).
  unfold initfree_size.
  rewrite (bind_Ok (gets _) _ s (first_ k) s) by (unfold gets; rewrite blk_index_next_leaf by lia; done).
  rewrite (bind_Ok (gets _) _ s (last_ k) s) by (unfold gets; rewrite blk_index_leaf by lia; done).
  destruct (initfree_left s k R Hk) as (s1 & E1 & Hst1 & R1). rewrite (bind_Ok _ _ _ _ _ E1).
  destruct (Z.leb_spec (last_ k) (first_ k)) as [Hge|Hlt].
  - assert (Hf : free_pair (first_ k) (last_ k) = []).
    { unfold free_pair. rewrite (proj2 (Z.ltb_ge _ _)) by lia. by rewrite !andb_false_r. }
    rewrite (proj2 (Z.ltb_ge (first_ k) (last_ k))), andb_false_r in R1 |- * by lia.
    exists s1. rewrite Hf. split_and!; [done..|]. apply (part_next M s1 k [] ltac:(lia)); [by rewrite Hf|exact R1].
  - destruct (initfree_right s1 k _ eq_refl R1 Hk Hlt) as (s2 & E2 & Hst2 & R2). rewrite (bind_Ok _ _ _ _ _ E2).
    exists s2. split; [|split; [congruence|done]]. unfold ret. f_equal. unfold free_pair.
    rewrite (proj2 (Z.ltb_lt (first_ k) (last_ k))), !andb_true_r by lia.
    destruct (Z.odd (first_ k)), (Z.odd (last_ k)); cbn [app length]; lia.
Qed.

Lemma initfree_loop_rep n : forall k s,
  bd_rep M L s (part_heap k) -> 0 <= k -> k + Z.of_nat n <= M ->
  exists s', initfree_loop (leaf_at s L) (leaf_at s E) (zseq k n) (listed k) s = Ok (listed (k + Z.of_nat n)) s' /\
    static s' = static s /\ bd_rep M L s' (part_heap (k + Z.of_nat n)).
Proof.
  induction n as [|n IH]; intros k s R Hk Hn.
  - exists s. rewrite Z.add_0_r. done.
  - destruct (initfree_size_rep s k (listed k) R ltac:(lia)) as (s1 & E1 & Hst1 & R1). rewrite listed_step in E1 by lia.
    cbn [zseq initfree_loop]. rewrite (bind_Ok _ _ _ _ _ E1). rewrite <- !(leaf_at_static _ _ _ Hst1).
    destruct (IH (k + 1) s1 R1 ltac:(lia) ltac:(lia)) as (s2 & E2 & Hst2 & R2).
    replace (k + 1 + Z.of_nat n) with (k + Z.of_nat (S n)) in * by lia. exists s2. split_and!; [done|congruence|done].
Qed.

Lemma bd_initfree_rep s :
  bd_rep M L s (part_heap 0) ->
  exists s', bd_initfree (leaf_at s L) (leaf_at s E) s = Ok ((E - L) * 16) s' /\ static s' = static s /\ bd_rep M L s' init_heap.
Proof.
  intros R. pose proof (initfree_loop_rep (Z.to_nat M) 0 s R ltac:(lia) ltac:(lia)) as (s' & E1 & Hst & R').
  unfold bd_initfree. rewrite (bind_Ok (gets _) _ s M s) by (unfold gets, MAXSIZE; rewrite (br_n _ _ _ _ R); f_equal; lia).
  replace (0 + Z.of_nat (Z.to_nat M)) with M in * by lia. replace (listed 0) with 0 in E1.
  - exists s'. split_and!; [|done|].
    + rewrite E1. unfold listed. by rewrite Z.ltb_irrefl.
    + eapply bd_rep_ext; [exact R'|done|]. done.
  - unfold listed. rewrite (proj2 (Z.ltb_lt 0 M)) by lia. unfold first_, last_, up. change (2 ^ 0) with 1.
    rewrite !Z.div_1_r. lia.
Qed.

(** What the two calls of [bd_mark] leave is the starting point. *)
Lemma marked_part s a :
  bd_rep M L s (marked (marked a (marks 0 L)) (marks E (2 ^ M))) ->
  (forall k i, blk M k i -> hA a k i = false /\ (0 < k -> hS a k i = false)) -> (forall k, 0 <= k <= M -> hF a k = []) ->
  bd_rep M L s (part_heap 0).
Proof.
  intros R H HF. eapply bd_rep_ext; [exact R| |].
  - intros k i Hb. destruct (H k i Hb) as [H1 H2]. destruct Hb as [Hk Hi].
    assert (Hm : marks 0 L k i || marks E (2 ^ M) k i = init_A k i).
    { unfold marks, init_A, first_, last_. rewrite Z.div_0_l by (pose proof (Z.pow_pos_nonneg 2 k); lia).
      rewrite (proj2 (Z.leb_le 0 i)) by lia. rewrite (proj2 (Z.ltb_lt i (up k (2 ^ M)))); [by rewrite andb_true_r|].
      unfold up. pose proof (Z.pow_pos_nonneg 2 k ltac:(lia) ltac:(lia)).
      assert (2 ^ (M - k) * 2 ^ k = 2 ^ M) by (rewrite <- Z.pow_add_r by lia; f_equal; lia).
      apply Z.lt_le_trans with (2 ^ (M - k)); [lia|]. apply Z.div_le_lower_bound; lia. }
    cbn. split.
    + rewrite H1. cbn. by rewrite Hm.
    + intros Hk0. rewrite H2 by done. rewrite (proj2 (Z.ltb_lt 0 k)) by done. cbn. by rewrite Hm.
  - intros k Hk. cbn. rewrite (proj2 (Z.ltb_ge k 0)) by lia. by rewrite HF.
Qed.
End InitHeap.

(** ** Laying out the arrays *)

(** The bytes of the arrays of [n] sizes from [k] on. *)
Fixpoint asum (M k : Z) (n : nat) : Z :=
  match n with O => 0 | S n => nbytes_of M k + asum M (k + 1) n end.

Lemma array_size_nb M s k : nsizes s = M + 1 -> 0 <= k <= M -> array_size s k = nbytes_of M k.
Proof.
  intros Hn Hk. unfold array_size, NBLK, MAXSIZE, ROUNDUP, nbytes_of. rewrite Hn, Z.shiftl_1_l. rewrite Z.div_mul by lia.
  replace (M + 1 - 1 - k) with (M - k) by lia. set (v := 2 ^ (M - k)). Z.to_euclidean_division_equations; lia.
Qed.

Lemma nbytes_pos M k : 0 <= k <= M -> 1 <= nbytes_of M k.
Proof. intros Hk. unfold nbytes_of. pose proof (Z.pow_pos_nonneg 2 (M - k)). apply Z.div_le_lower_bound; lia. Qed.

Lemma asum_nonneg M n : forall k, 0 <= k -> k + Z.of_nat n <= M + 1 -> 0 <= asum M k n.
Proof.
  induction n as [|n IH]; intros k Hk Hn; cbn [asum]; [lia|]. pose proof (nbytes_pos M k). specialize (IH (k + 1)). lia.
Qed.

Lemma asum_app M n m : forall k, asum M k (n + m) = asum M k n + asum M (k + Z.of_nat n) m.
Proof.
  induction n as [|n IH]; intros k; cbn [asum Nat.add].
  - rewrite Z.add_0_r. lia.
  - rewrite IH. replace (k + Z.of_nat (S n)) with (k + 1 + Z.of_nat n) by lia. lia.
Qed.

(** Two arrays of one kind, and the end of the last one. *)
Lemma asum_lt M k i j n :
  0 <= k -> k + Z.of_nat n <= M + 1 -> k <= i < j -> j <= k + Z.of_nat n ->
  asum M k (Z.to_nat (i - k)) + nbytes_of M i <= asum M k (Z.to_nat (j - k)).
Proof.
  intros Hk Hn Hi Hj. replace (Z.to_nat (j - k)) with (Z.to_nat (i - k) + S (Z.to_nat (j - i - 1)))%nat by lia.
  rewrite asum_app. cbn [asum]. replace (k + Z.of_nat (Z.to_nat (i - k))) with i by lia.
  pose proof (asum_nonneg M (Z.to_nat (j - i - 1)) (i + 1)). lia.
Qed.

Lemma lst_init_other h l l' xs : l' <> l -> (l ∉ xs) -> dlist h l' xs -> dlist (lst_init h l) l' xs.
Proof.
  intros Hn Hx. apply dlist_ext. intros x Hin. unfold lst_init. cbn.
  assert (x <> l) by (intros ->; set_solver). by rewrite !upd_other.
Qed.

Lemma init_alloc_loop M n : forall k p s,
  nsizes s = M + 1 -> 0 <= k -> k + Z.of_nat n <= M + 1 ->
  exists s', init_arrays init_alloc (zseq k n) p s = Ok (p + asum M k n) s' /\ static s' = static s /\ bd_split s' = bd_split s /\
    (forall j, bd_alloc s' j = if decide (k <= j < k + Z.of_nat n) then p + asum M k (Z.to_nat (j - k)) else bd_alloc s j) /\
    (forall x, bd_mem s' x = if decide (p <= x < p + asum M k n) then 0 else bd_mem s x) /\
    (forall j, 0 <= j < k + Z.of_nat n -> (j < k -> dlist (bd_nodes s) (free_of s j) []) -> dlist (bd_nodes s') (free_of s j) []).
Proof.
  induction n as [|n IH]; intros k p s Hns Hk Hn.
  - exists s. cbn [zseq init_arrays asum]. rewrite Z.add_0_r. split_and!; auto.
    + intros j. by rewrite decide_False by lia.
    + intros x. by rewrite decide_False by lia.
    + intros j Hj Hd. apply Hd. lia.
  - cbn [zseq init_arrays]. unfold init_alloc at 1. set (s1 := s <| bd_nodes := lst_init (bd_nodes s) (free_of s k) |>).
    set (s2 := s1 <| bd_alloc := upd (bd_alloc s1) k p |> <| bd_mem := memset (bd_mem s1) p 0 (nbytes_of M k) |>).
    destruct (IH (k + 1) (p + nbytes_of M k) s2 Hns ltac:(lia) ltac:(lia)) as (s' & E & Hst & Hsp & Ha & Hm & Hd).
    exists s'. split.
    { rewrite bind_assoc, (bind_Ok (modify _) _ s tt s1) by reflexivity. rewrite bind_assoc.
      rewrite (bind_Ok (gets _) _ s1 (nbytes_of M k) s1) by (unfold gets; rewrite (array_size_nb M) by (auto; lia); done).
      rewrite bind_assoc, (bind_Ok (modify _) _ s1 tt s2) by reflexivity. unfold bind at 1. cbn [ret]. rewrite E.
      cbn [asum]. f_equal. lia. }
    pose proof (nbytes_pos M k ltac:(lia)). pose proof (asum_nonneg M n (k + 1) ltac:(lia) ltac:(lia)).
    split_and!; [done|done|..].
    + intros j. rewrite Ha. change (bd_alloc s2) with (upd (bd_alloc s) k p). destruct (Z.eq_dec j k) as [->|Hne].
      * rewrite decide_False, upd_same, decide_True by lia. rewrite Z.sub_diag. change (asum M k (Z.to_nat 0)) with 0. lia.
      * rewrite upd_other by done. repeat case_decide; try lia; try done.
        replace (Z.to_nat (j - k)) with (S (Z.to_nat (j - (k + 1)))) by lia. cbn [asum]. lia.
    + intros x. rewrite Hm. change (bd_mem s2) with (memset (bd_mem s1) p 0 (nbytes_of M k)). rewrite memset_get.
      cbn [asum]. change (u8 0) with 0. change (bd_mem s1) with (bd_mem s). repeat case_decide; done || lia.
    + intros j Hj Hd0. apply (Hd j); [lia|]. intros Hj1. change (free_of s2 j) with (free_of s j).
      change (bd_nodes s2) with (lst_init (bd_nodes s) (free_of s k)).
      destruct (Z.eq_dec j k) as [->|Hne]; [apply lst_init_dlist|].
      apply lst_init_other; [unfold free_of, SZ_INFO; lia|apply not_elem_of_nil|apply Hd0; lia].
Qed.

Lemma init_split_loop M n : forall k p s,
  nsizes s = M + 1 -> 0 <= k -> k + Z.of_nat n <= M + 1 ->
  exists s', init_arrays init_split (zseq k n) p s = Ok (p + asum M k n) s' /\ static s' = static s /\ bd_alloc s' = bd_alloc s /\
    bd_nodes s' = bd_nodes s /\
    (forall j, bd_split s' j = if decide (k <= j < k + Z.of_nat n) then p + asum M k (Z.to_nat (j - k)) else bd_split s j) /\
    (forall x, bd_mem s' x = if decide (p <= x < p + asum M k n) then 0 else bd_mem s x).
Proof.
  induction n as [|n IH]; intros k p s Hns Hk Hn.
  - exists s. cbn [zseq init_arrays asum]. rewrite Z.add_0_r. split_and!; auto.
    + intros j. by rewrite decide_False by lia.
    + intros x. by rewrite decide_False by lia.
  - cbn [zseq init_arrays]. unfold init_split at 1.
    set (s2 := s <| bd_split := upd (bd_split s) k p |> <| bd_mem := memset (bd_mem s) p 0 (nbytes_of M k) |>).
    destruct (IH (k + 1) (p + nbytes_of M k) s2 Hns ltac:(lia) ltac:(lia)) as (s' & E & Hst & Hal & Hno & Ha & Hm).
    exists s'. split.
    { rewrite bind_assoc. rewrite (bind_Ok (gets _) _ s (nbytes_of M k) s) by (unfold gets; rewrite (array_size_nb M) by (auto; lia); done).
      rewrite bind_assoc, (bind_Ok (modify _) _ s tt s2) by reflexivity. unfold bind at 1. cbn [ret]. rewrite E.
      cbn [asum]. f_equal. lia. }
    pose proof (nbytes_pos M k ltac:(lia)). pose proof (asum_nonneg M n (k + 1) ltac:(lia) ltac:(lia)).
    split_and!; [done|done|done|..].
    + intros j. rewrite Ha. change (bd_split s2) with (upd (bd_split s) k p). destruct (Z.eq_dec j k) as [->|Hne].
      * rewrite decide_False, upd_same, decide_True by lia. rewrite Z.sub_diag. change (asum M k (Z.to_nat 0)) with 0. lia.
      * rewrite upd_other by done. repeat case_decide; try lia; try done.
        replace (Z.to_nat (j - k)) with (S (Z.to_nat (j - (k + 1)))) by lia. cbn [asum]. lia.
    + intros x. rewrite Hm. change (bd_mem s2) with (memset (bd_mem s) p 0 (nbytes_of M k)). rewrite memset_get.
      cbn [asum]. change (u8 0) with 0. repeat case_decide; done || lia.
Qed.

(** The leaves that hold the allocator's own data. *)
Definition meta_bytes (M : Z) : Z := SZ_INFO * (M + 1) + asum M 0 (Z.to_nat (M + 1)) + asum M 1 (Z.to_nat M).
Definition meta_leaves (M : Z) : Z := (meta_bytes M + 15) / 16.

Definition blank : heap := Heap (fun _ _ => false) (fun _ _ => false) (fun _ => []).

Section Layout.
Context (M : Z) (s : bdst).
Context (HM : 0 <= M <= 26) (Hns : nsizes s = M + 1) (Hsz : bd_sizes s = bd_base s).
Context (Hbase : 0 < bd_base s /\ bd_base s + 2 ^ 30 < 2 ^ 64).

(** Where the [alloc] arrays start, the [split] arrays, and where they end. *)
Definition alloc_start : Z := bd_base s + SZ_INFO * (M + 1).
Definition split_start : Z := alloc_start + asum M 0 (Z.to_nat (M + 1)).
Definition arrays_end : Z := split_start + asum M 1 (Z.to_nat M).

Context (Hal : forall k, 0 <= k <= M -> bd_alloc s k = alloc_start + asum M 0 (Z.to_nat k)).
Context (Hsp : forall k, 0 < k <= M -> bd_split s k = split_start + asum M 1 (Z.to_nat (k - 1))).
Context (Hzero : forall x, alloc_start <= x < arrays_end -> bd_mem s x = 0).
Context (Hlists : forall k, 0 <= k <= M -> dlist (bd_nodes s) (free_of s k) []).

Lemma arr_bounds x : slot M x ->
  (if x.1 then split_start else alloc_start) <= arr s x /\
  arr s x + nbytes_of M x.2 <= (if x.1 then arrays_end else split_start).
Proof.
  destruct x as [[] k]; intros [Hk Hk0]; cbn in *; unfold arr; cbn.
  - specialize (Hk0 eq_refl). rewrite Hsp by lia. pose proof (asum_nonneg M (Z.to_nat (k - 1)) 1 ltac:(lia) ltac:(lia)).
    pose proof (asum_lt M 1 k (M + 1) (Z.to_nat M) ltac:(lia) ltac:(lia) ltac:(lia) ltac:(lia)) as Hl.
    replace (Z.to_nat (M + 1 - 1)) with (Z.to_nat M) in Hl by lia. unfold arrays_end. lia.
  - rewrite Hal by lia. pose proof (asum_nonneg M (Z.to_nat k) 0 ltac:(lia) ltac:(lia)).
    pose proof (asum_lt M 0 k (M + 1) (Z.to_nat (M + 1)) ltac:(lia) ltac:(lia) ltac:(lia) ltac:(lia)) as Hl.
    rewrite !Z.sub_0_r in Hl. unfold split_start. lia.
Qed.

Lemma arr_apart b i j : slot M (b, i) -> slot M (b, j) -> i < j -> arr s (b, i) + nbytes_of M i <= arr s (b, j).
Proof.
  intros [Hi Hi0] [Hj Hj0] Hlt. cbn in *. unfold arr. destruct b; cbn.
  - specialize (Hi0 eq_refl). rewrite !Hsp by lia.
    pose proof (asum_lt M 1 i j (Z.to_nat M) ltac:(lia) ltac:(lia) ltac:(lia) ltac:(lia)). lia.
  - rewrite !Hal by lia. pose proof (asum_lt M 0 i j (Z.to_nat (M + 1)) ltac:(lia) ltac:(lia) ltac:(lia) ltac:(lia)) as Hl.
    rewrite !Z.sub_0_r in Hl. lia.
Qed.

Lemma laid_out_rep : bd_rep M (meta_leaves M) s blank.
Proof.
  assert (Hend : arrays_end = bd_base s + meta_bytes M) by (unfold arrays_end, split_start, alloc_start, meta_bytes; lia).
  assert (Hml : meta_bytes M <= meta_leaves M * 16) by (unfold meta_leaves; Z.to_euclidean_division_equations; lia).
  pose proof (asum_nonneg M (Z.to_nat (M + 1)) 0 ltac:(lia) ltac:(lia)).
  pose proof (asum_nonneg M (Z.to_nat M) 1 ltac:(lia) ltac:(lia)).
  assert (bd_base s <= alloc_start <= split_start /\ split_start <= arrays_end) by (unfold arrays_end, split_start, alloc_start, SZ_INFO; lia).
  split; try done.
  - split; [lia|]. unfold meta_bytes, SZ_INFO in Hml. lia.
  - intros [b i] [b' j] Hx Hy Hne. pose proof (arr_bounds _ Hx) as [X1 X2]. pose proof (arr_bounds _ Hy) as [Y1 Y2].
    destruct (bool_decide (b = b')) eqn:Eb; [apply bool_decide_eq_true in Eb as ->|apply bool_decide_eq_false in Eb].
    + destruct (Ztrichotomy i j) as [Hlt|[->|Hlt]]; [left; by apply arr_apart|done|right; apply (arr_apart b' j i Hy Hx); lia].
    + cbn [Datatypes.fst Datatypes.snd] in *. destruct b, b'; try done; lia.
  - intros x Hx. pose proof (arr_bounds _ Hx) as [X1 X2]. destruct x.1; lia.
  - intros x i Hx Hi. pose proof (arr_bounds _ Hx) as [X1 X2]. pose proof (blk_byte _ _ _ Hi).
    rewrite bit_testbit, Hzero by (destruct x.1; lia). rewrite Z.bits_0. unfold hbit. by destruct x.1.
Qed.
End Layout.

(** The two loops that allocate the arrays. *)
Lemma init_both_rep M s :
  0 <= M <= 26 -> nsizes s = M + 1 -> bd_sizes s = bd_base s -> 0 < bd_base s /\ bd_base s + 2 ^ 30 < 2 ^ 64 ->
  exists q s1 s2, init_arrays init_alloc (zseq 0 (Z.to_nat (M + 1))) (bd_base s + SZ_INFO * (M + 1)) s = Ok q s1 /\
    init_arrays init_split (zseq 1 (Z.to_nat (M + 1 - 1))) q s1 = Ok (bd_base s + meta_bytes M) s2 /\ static s2 = static s /\
    bd_rep M (meta_leaves M) s2 blank.
Proof.
  intros HM Hns Hsz Hbase. fold (alloc_start M s).
  destruct (init_alloc_loop M (Z.to_nat (M + 1)) 0 (alloc_start M s) s Hns ltac:(lia) ltac:(lia)) as (s1 & E1 & Hst1 & Hsp1 & Ha1 & Hm1 & Hd1).
  fold (split_start M s) in *. assert (Hns1 : nsizes s1 = M + 1) by (injection Hst1; congruence).
  destruct (init_split_loop M (Z.to_nat M) 1 (split_start M s) s1 Hns1 ltac:(lia) ltac:(lia)) as (s2 & E2 & Hst2 & Ha2 & Hn2 & Hsp2 & Hm2).
  fold (arrays_end M s) in *. assert (Hst : static s2 = static s) by congruence.
  pose proof Hst as [= Q1 Q2 Q3 _ _].
  assert (alloc_start M s2 = alloc_start M s) as EA by (unfold alloc_start; by rewrite Q2).
  assert (split_start M s2 = split_start M s) as ES by (unfold split_start; by rewrite EA).
  assert (arrays_end M s2 = arrays_end M s) as EE by (unfold arrays_end; by rewrite ES).
  exists (split_start M s), s1, s2. split; [done|]. split; [|split; [done|apply laid_out_rep]]; rewrite ?EA, ?ES, ?EE, ?Q2; auto; try congruence.
  - replace (M + 1 - 1) with M by lia. rewrite E2. f_equal. unfold arrays_end, split_start, alloc_start, meta_bytes. lia.
  - intros k Hk. rewrite Ha2, Ha1, decide_True by lia. by rewrite Z.sub_0_r.
  - intros k Hk. rewrite Hsp2, decide_True by lia. done.
  - intros x Hx. rewrite Hm2. case_decide as D; [done|]. rewrite Hm1. rewrite decide_True; [done|]. lia.
  - intros k Hk. rewrite Hn2. unfold free_of. rewrite Q3. apply (Hd1 k); lia.
Qed.

(** ** [bd_init] *)

Lemma log2_spec n s : 1 <= n < 2 ^ 63 -> log2 n s = Ok (Z.log2 n) s.
Proof.
  intros Hn. assert (H : wp (log2 n) (fun k s' => k = Z.log2 n /\ s' = s) s).
  { apply (wp_while log2_turn (fun x s' => s' = s /\ 0 <= x.1 /\ 1 <= x.2 /\ x.1 + Z.log2 x.2 = Z.log2 n) _ (fun x => Z.log2 x.2)).
    - intros [k m] s' (-> & Hk & Hm & El). cbn [Datatypes.fst Datatypes.snd] in *. unfold log2_turn. rewrite Z.gtb_ltb.
      destruct (Z.ltb_spec 1 m).
      + apply wp_ret. cbn [Datatypes.fst Datatypes.snd]. rewrite Z.shiftr_div_pow2 by lia. change (2 ^ 1) with 2.
        assert (Z.log2 (m / 2) = Z.log2 m - 1) as El2.
        { rewrite <- Z.div2_div. pose proof (Z.log2_shiftr m 1 ltac:(lia)) as Hs. rewrite <- Z.div2_spec in Hs.
          rewrite Hs. pose proof (Z.log2_pos m ltac:(lia)). lia. }
        rewrite El2. split; [|lia]. split_and!; [done|lia|apply Z.div_le_lower_bound; lia|lia].
      + apply wp_ret. assert (m = 1) as -> by lia. change (Z.log2 1) with 0 in El. split; [lia|done].
    - split_and!; cbn; [done|lia..].
    - intros x s' (_ & _ & ? & _). apply Z.log2_nonneg.
    - cbn [Datatypes.snd]. pose proof (Z.log2_lt_pow2 n 63 ltac:(lia)) as Hl. lia. }
  apply wp_Ok in H as (k & s' & -> & -> & ->). done.
Qed.

(** The data of the allocator takes at most a quarter of the heap. *)
Lemma meta_quarter M : 6 <= M <= 26 -> 0 < meta_leaves M /\ 4 * meta_leaves M <= 2 ^ M.
Proof.
  intros HM. assert (H : forallb (fun M => (0 <? meta_leaves M) && (4 * meta_leaves M <=? 2 ^ M)) (zseq 6 21) = true) by (vm_compute; reflexivity).
  rewrite forallb_forall in H. specialize (H M). rewrite <- list_elem_of_In, elem_of_zseq in H. specialize (H ltac:(lia)).
  apply andb_true_iff in H as [H1 H2]. apply Z.ltb_lt in H1. apply Z.leb_le in H2. done.
Qed.

Definition heap_M (H : Z) : Z := Z.log2 (H / 16) + 1.

Lemma heap_M_bounds H :
  512 < H < 2 ^ 30 -> (forall j, 0 <= j -> H <> 2 ^ j) ->
  6 <= heap_M H <= 26 /\ 2 ^ (heap_M H - 1) <= H / 16 < 2 ^ heap_M H /\ 16 * 2 ^ (heap_M H - 1) < H < 16 * 2 ^ heap_M H.
Proof.
  intros HH Hp. unfold heap_M. rewrite Z.add_simpl_r.
  assert (Hd : 32 <= H / 16 < 2 ^ 26) by (split; [apply Z.div_le_lower_bound|apply Z.div_lt_upper_bound]; lia).
  pose proof (Z.log2_spec (H / 16) ltac:(lia)) as Hl. change (Z.succ (Z.log2 (H / 16))) with (Z.log2 (H / 16) + 1) in Hl.
  pose proof (Z.log2_le_mono 32 (H / 16) ltac:(lia)) as Hl1. change (Z.log2 32) with 5 in Hl1.
  pose proof (Z.log2_lt_pow2 (H / 16) 26 ltac:(lia)) as Hl2. split; [lia|]. split; [done|].
  assert (H <> 16 * 2 ^ Z.log2 (H / 16)).
  { replace (16 * 2 ^ Z.log2 (H / 16)) with (2 ^ (4 + Z.log2 (H / 16))) by (rewrite Z.pow_add_r by lia; lia). apply Hp. lia. }
  set (v := Z.log2 (H / 16)) in *. Z.to_euclidean_division_equations; lia.
Qed.

Lemma rep_out M L s a o : bd_rep M L s a -> bd_rep M L (s <| bd_out := o |>) a.
Proof. intros R. split; apply R. Qed.

(** The two calls of [bd_mark]. *)
Lemma mark_meta M L s a :
  bd_rep M L s a -> bd_base s mod 16 = 0 -> 0 < L <= 2 ^ M ->
  exists s', bd_mark_data_structures (leaf_at s L) s = Ok (L * 16) s' /\ bd_base s' = bd_base s /\ bd_lock s' = bd_lock s /\
    bd_rep M L s' (marked a (marks 0 L)).
Proof.
  intros R Hb HL. pose proof (br_size _ _ _ _ R) as [HM _]. pose proof (leaves_small M ltac:(lia)). unfold bd_mark_data_structures.
  rewrite (bind_Ok (gets _) _ s (bd_base s) s) by done. rewrite (bind_Ok (gets _) _ s (MAXSIZE s) s) by done.
  rewrite (bind_Ok (bd_printf _ _) _ s _ _ eq_refl).
  match goal with |- context [bind _ _ ?t] => set (s1 := t) end.
  assert (R1 : bd_rep M L s1 a) by by apply rep_out.
  destruct (proj1 (wp_Ok _ _ _) (bd_mark_rep M L 0 L s1 a R1 Hb ltac:(lia) ltac:(lia))) as ([] & s2 & E2 & Hst & R2).
  replace (leaf_at s1 0) with (bd_base s) in E2 by (unfold leaf_at; change (bd_base s1) with (bd_base s); lia).
  change (leaf_at s1 L) with (leaf_at s L) in E2. rewrite (bind_Ok _ _ _ _ _ E2).
  exists s2. injection Hst as _ Q2 _ _ Q5. split_and!; [|done|done|done].
  unfold ret, leaf_at. f_equal. rewrite s32_small; lia.
Qed.

Lemma mark_tail M L s a H x :
  bd_rep M L s a -> bd_base s mod 16 = 0 -> 2 ^ (M - 1) * 16 < H < 2 ^ M * 16 -> 0 < M ->
  exists s', bd_mark_unavailable (bd_base s + H) x s = Ok ((2 ^ M - H / 16) * 16) s' /\ bd_base s' = bd_base s /\ bd_lock s' = bd_lock s /\
    bd_rep M L s' (marked a (marks (H / 16) (2 ^ M))).
Proof.
  intros R Hb HH HM0. pose proof (br_size _ _ _ _ R) as [HM _]. pose proof (leaves_small M ltac:(lia)). unfold bd_mark_unavailable.
  pose proof (Z.pow_pos_nonneg 2 (M - 1) ltac:(lia) ltac:(lia)).
  rewrite (bind_Ok (gets _) _ s (bd_base s) s) by done.
  rewrite (bind_Ok (gets _) _ s M s) by (unfold gets, MAXSIZE; rewrite (br_n _ _ _ _ R); f_equal; lia).
  rewrite BLK_SIZE_pow by lia. rewrite s32_small by lia. rewrite Z.gtb_ltb, (proj2 (Z.ltb_lt 0 _)) by lia.
  assert (Eu : ROUNDUP (2 ^ M * 16 - (bd_base s + H - bd_base s)) LEAF_SIZE = (2 ^ M - H / 16) * 16).
  { unfold ROUNDUP, LEAF_SIZE. set (v := 2 ^ M) in *. Z.to_euclidean_division_equations; lia. }
  rewrite Eu. rewrite (bind_Ok (bd_printf _ _) _ s _ _ eq_refl).
  match goal with |- context [bind _ _ ?t] => set (s1 := t) end.
  assert (R1 : bd_rep M L s1 a) by by apply rep_out.
  assert (0 <= H / 16 <= 2 ^ M) by (split; [apply Z.div_pos|apply Z.div_le_upper_bound]; lia).
  destruct (proj1 (wp_Ok _ _ _) (bd_mark_rep M L (H / 16) (2 ^ M) s1 a R1 Hb ltac:(lia) ltac:(lia))) as ([] & s2 & E2 & Hst & R2).
  replace (bd_base s + 2 ^ M * 16 - (2 ^ M - H / 16) * 16) with (leaf_at s1 (H / 16)) by (unfold leaf_at; change (bd_base s1) with (bd_base s); lia).
  replace (bd_base s + 2 ^ M * 16) with (leaf_at s1 (2 ^ M)) by (unfold leaf_at; change (bd_base s1) with (bd_base s); lia).
  rewrite (bind_Ok _ _ _ _ _ E2). exists s2. injection Hst as _ Q2 _ _ Q5. split_and!; done.
Qed.

Lemma roundup_16 x : ROUNDUP x 16 mod 16 = 0 /\ x <= ROUNDUP x 16 < x + 16.
Proof. unfold ROUNDUP. split; [apply Z.mod_mul; lia|]. Z.to_euclidean_division_equations; lia. Qed.

Lemma roundup_base b x : b mod 16 = 0 -> ROUNDUP (b + x) 16 = b + (x + 15) / 16 * 16.
Proof. intros. unfold ROUNDUP. Z.to_euclidean_division_equations; lia. Qed.

(** The state before the arrays are allocated. *)
Lemma bd_init_start base end_ s :
  let p := ROUNDUP base LEAF_SIZE in let H := end_ - p in
  0 < base -> p + 2 ^ 30 < 2 ^ 64 -> 512 < H < 2 ^ 30 -> (forall j, 0 <= j -> H <> 2 ^ j) ->
  exists s1, nsizes s1 = heap_M H + 1 /\ bd_base s1 = p /\ bd_sizes s1 = p /\ bd_lock s1 = false /\
  bd_init base end_ s =
   (let n := heap_M H + 1 in
    p ← init_arrays init_alloc (zseq 0 (Z.to_nat n)) (p + SZ_INFO * n) ;
    p ← init_arrays init_split (zseq 1 (Z.to_nat (n - 1))) p ;
    let p := ROUNDUP p LEAF_SIZE in
    meta ← bd_mark_data_structures p ;
    unavailable ← bd_mark_unavailable end_ p ;
    base ← gets bd_base ;
    m ← gets MAXSIZE ;
    let bd_end := base + BLK_SIZE m - unavailable in
    free ← bd_initfree p bd_end ;
    if negb (free =? BLK_SIZE m - meta - unavailable)
    then bd_printf (bytes_of "free %d %d" ++ [NL]) [AInt free; AInt (BLK_SIZE m - meta - unavailable)] ;; panic "bd_init: free mem"
    else ret tt) s1.
Proof.
  intros p H Hb Hp HH Hpow. destruct (heap_M_bounds H HH Hpow) as (HM & HE & HG). unfold heap_M in *.
  set (lg := Z.log2 (H / 16)) in *. rewrite Z.add_simpl_r in HE, HG.
  unfold bd_init. fold p. fold H. set (s0 := s <| bd_lock := false |> <| bd_base := p |>).
  rewrite (bind_Ok (modify _) _ s tt (s <| bd_lock := false |>)) by reflexivity.
  rewrite (bind_Ok (modify _) _ _ tt s0) by reflexivity.
  assert (El : log2 (Z.quot H LEAF_SIZE) s0 = Ok lg s0).
  { rewrite Z.quot_div_nonneg by (unfold LEAF_SIZE; lia). apply log2_spec. unfold LEAF_SIZE.
    split; [apply Z.div_le_lower_bound; lia|apply Z.div_lt_upper_bound; lia]. }
  rewrite (bind_Ok _ _ _ _ _ El). set (s1 := s0 <| nsizes := lg + 1 |>). rewrite (bind_Ok (modify _) _ s0 tt s1) by reflexivity.
  rewrite (bind_Ok (gets _) _ s1 lg s1) by (unfold gets, MAXSIZE; cbn; f_equal; lia).
  rewrite BLK_SIZE_pow by lia. rewrite Z.gtb_ltb, (proj2 (Z.ltb_lt _ H)) by lia.
  set (s2 := s1 <| nsizes := nsizes s1 + 1 |>). rewrite (bind_Ok (modify _) _ s1 tt s2) by reflexivity.
  rewrite (bind_Ok (gets _) _ s2 (lg + 1 + 1) s2) by reflexivity.
  rewrite (bind_Ok (bd_printf _ _) _ s2 _ _ eq_refl), (bind_Ok (modify _) _ _ _ _ eq_refl), (bind_Ok (modify _) _ _ _ _ eq_refl).
  eexists. split; [|split; [|split; [|split; [|reflexivity]]]]; reflexivity.
Qed.

Lemma bd_init_spec base end_ s :
  let p := ROUNDUP base LEAF_SIZE in let H := end_ - p in let M := heap_M H in
  0 < base -> p + 2 ^ 30 < 2 ^ 64 -> 512 < H < 2 ^ 30 -> (forall j, 0 <= j -> H <> 2 ^ j) ->
  exists s', bd_init base end_ s = Ok tt s' /\ bd_base s' = p /\ bd_lock s' = false /\
    bd_rep M (meta_leaves M) s' (init_heap M (meta_leaves M) (H / 16)) /\
    buddy_inv M (meta_leaves M) (init_heap M (meta_leaves M) (H / 16)).
Proof.
  intros p H M Hb Hp HH Hpow. destruct (heap_M_bounds H HH Hpow) as (HM & HE & HG). fold M in HM, HE, HG.
  pose proof (meta_quarter M HM) as HL. set (L := meta_leaves M) in *.
  destruct (roundup_16 base) as [Hpm Hpb]. change (ROUNDUP base 16) with p in Hpm, Hpb.
  destruct (bd_init_start base end_ s Hb Hp HH Hpow) as (s1 & Hn & Hbs & Hsz & Hlk & ->). fold p in Hn, Hbs, Hsz |- *; fold H in Hn |- *; fold M in Hn |- *.
  destruct (init_both_rep M s1 ltac:(lia) Hn ltac:(congruence) ltac:(rewrite Hbs; lia)) as (q & s2 & s3 & E2 & E3 & Hst & R3).
  rewrite Hbs in E2, E3. cbv zeta. rewrite (bind_Ok _ _ _ _ _ E2), (bind_Ok _ _ _ _ _ E3).
  rewrite (roundup_base p) by done. fold (meta_leaves M). fold L in R3 |- *.
  assert (bd_base s3 = p /\ bd_lock s3 = false) as [Hb3 Hl3] by (injection Hst; split; congruence).
  destruct (mark_meta M L s3 blank R3 ltac:(by rewrite Hb3) ltac:(lia)) as (s4 & E4 & Hb4 & Hl4 & R4).
  unfold leaf_at in E4. rewrite Hb3 in E4, Hb4. rewrite (bind_Ok _ _ _ _ _ E4).
  destruct (mark_tail M L s4 _ H (p + L * 16) R4 ltac:(by rewrite Hb4) ltac:(lia) ltac:(lia)) as (s5 & E5 & Hb5 & Hl5 & R5).
  rewrite Hb4 in E5, Hb5. replace (p + H) with end_ in E5 by (unfold H; lia). rewrite (bind_Ok _ _ _ _ _ E5).
  rewrite (bind_Ok (gets _) _ s5 p s5) by (unfold gets; by rewrite Hb5).
  rewrite (bind_Ok (gets _) _ s5 M s5) by (unfold gets, MAXSIZE; by rewrite (br_n _ _ _ _ R5), Z.add_simpl_r).
  apply (marked_part M L (H / 16)) in R5; [|done || lia..].
  destruct (bd_initfree_rep M L (H / 16) ltac:(lia) HL HE s5 R5) as (s6 & E6 & Hst6 & R6).
  rewrite BLK_SIZE_pow by lia. unfold leaf_at in E6. rewrite Hb5 in E6.
  replace (p + 2 ^ M * 16 - (2 ^ M - H / 16) * 16) with (p + H / 16 * 16) by lia. rewrite (bind_Ok _ _ _ _ _ E6).
  rewrite (proj2 (Z.eqb_eq _ _)) by lia. cbn [negb]. exists s6. injection Hst6 as _ Q2 _ _ Q5.
  split_and!; [done|congruence|congruence|done|]. apply init_inv; lia.
Qed.

(** ** The free lists depend on the live blocks only *)

(** A split block has a live block inside. *)
Lemma split_has_live M L a (I : buddy_inv M L a) n : forall k i, k = Z.of_nat n -> blk M k i -> hS a k i = true ->
  exists j x y, live M a j x /\ j < k /\ leaf_in k i y /\ leaf_in j x y.
Proof.
  induction n as [|n IH]; intros k i Hk Hb Hs; destruct (bi_split _ _ _ I k i Hb Hs) as (_ & _ & Hk0); [lia|].
  assert (Hc : exists b, 0 <= b <= 1 /\ hA a (k - 1) (2 * i + b) = true).
  { destruct (hA a (k - 1) (2 * i)) eqn:E0; [exists 0; by rewrite Z.add_0_r|]. exists 1. split; [lia|].
    replace (2 * i + 1) with (buddy_of (2 * i)) by (unfold buddy_of; rewrite Z.mul_comm, Z.mod_mul by lia; done).
    pose proof (blk_down M k i 0 Hb Hk0 ltac:(lia)) as Hd. rewrite Z.add_0_r in Hd.
    apply (bi_merged _ _ _ I); [done|destruct Hb; lia| |done]. right. replace (k - 1 + 1) with k by lia.
    rewrite Z.mul_comm, Z.div_mul by lia. done. }
  destruct Hc as (b & Hb2 & Ha). pose proof (blk_down M k i b Hb Hk0 Hb2) as Hd.
  assert (Hup : forall y, leaf_in (k - 1) (2 * i + b) y -> leaf_in k i y).
  { intros y Hy. apply leaf_up in Hy; [|lia]. replace (k - 1 + 1) with k in Hy by lia.
    replace ((2 * i + b) / 2) with i in Hy by (Z.to_euclidean_division_equations; lia). done. }
  destruct (hS a (k - 1) (2 * i + b)) eqn:Es.
  - destruct (IH (k - 1) _ ltac:(lia) Hd Es) as (j & x & y & H1 & H2 & H3 & H4). exists j, x, y.
    split; [exact H1|]. split; [lia|]. auto.
  - exists (k - 1), (2 * i + b), ((2 * i + b) * 2 ^ (k - 1)). assert (leaf_in (k - 1) (2 * i + b) ((2 * i + b) * 2 ^ (k - 1))) by (apply leaf_start; lia).
    split; [done|]. split_and!; auto. lia.
Qed.

Lemma split_live_iff M L a (I : buddy_inv M L a) k i : blk M k i ->
  hS a k i = true <-> exists j x y, live M a j x /\ j < k /\ leaf_in k i y /\ leaf_in j x y.
Proof.
  intros Hb. split; [apply (split_has_live M L a I (Z.to_nat k)); [destruct Hb; lia|done]|].
  intros (j & x & y & (Hbj & Haj & Hsj) & Hj & H1 & H2).
  apply (above_split M L a I (Z.to_nat (k - j - 1)) j x k i y); auto; [by apply (bi_alloc _ _ _ I)|lia|destruct Hb; lia].
Qed.

Lemma alloc_live_iff M L a (I : buddy_inv M L a) k i : blk M k i -> hA a k i = true <-> hS a k i = true \/ live M a k i.
Proof.
  intros Hb. split.
  - intros Ha. destruct (hS a k i) eqn:Es; [auto|right; done].
  - intros [Hs|(_ & ? & _)]; [|done]. by destruct (bi_split _ _ _ I k i Hb Hs) as (_ & ? & _).
Qed.

Lemma live_determines M L a a' :
  buddy_inv M L a -> buddy_inv M L a' -> (forall k i, live M a k i <-> live M a' k i) ->
  forall k i, blk M k i -> hA a k i = hA a' k i /\ hS a k i = hS a' k i /\ (i ∈ hF a k <-> i ∈ hF a' k).
Proof.
  intros I I' H. assert (HS : forall k i, blk M k i -> hS a k i = hS a' k i).
  { intros k i Hb. apply eq_true_iff_eq. rewrite (split_live_iff M L a I), (split_live_iff M L a' I') by done.
    split; intros (j & x & y & H1 & H2); exists j, x, y; split; auto; by apply H. }
  assert (HA : forall k i, blk M k i -> hA a k i = hA a' k i).
  { intros k i Hb. apply eq_true_iff_eq. rewrite (alloc_live_iff M L a I), (alloc_live_iff M L a' I') by done.
    rewrite (HS k i Hb), H. done. }
  intros k i Hb. split; [auto|]. split; [auto|]. rewrite (free_spec _ _ _ I), (free_spec _ _ _ I'), (HA k i Hb) by done.
  unfold exists_. destruct (Z.eq_dec k M) as [->|Hn]; [tauto|]. rewrite (HS (k + 1) (i / 2)); [done|]. apply blk_up; [done|]. destruct Hb; lia.
Qed.

(** ** The properties *)

(** C27: [bd_init] on any memory, for a heap of more than 512 bytes whose length is not a power of two, does not panic and
    establishes the allocator's invariant; the blocks that are in use afterwards are the leaves that hold the allocator's own
    data and the leaves that are not wholly below [end]. *)
Theorem bd_init_establishes (base end_ : Z) (s : bdst) :
  let p := ROUNDUP base LEAF_SIZE in let H := end_ - p in let M := heap_M H in let L := meta_leaves M in
  0 < base -> p + 2 ^ 30 < 2 ^ 64 -> 512 < H < 2 ^ 30 -> (forall j, 0 <= j -> H <> 2 ^ j) ->
  exists s' a, bd_init base end_ s = Ok tt s' /\ bd_base s' = p /\ bd_lock s' = false /\ bd_rep M L s' a /\ buddy_inv M L a /\
    forall k i, live M a k i <-> k = 0 /\ (0 <= i < L \/ H / 16 <= i < 2 ^ M).
Proof.
  intros p H M L Hb Hp HH Hpow. destruct (bd_init_spec base end_ s Hb Hp HH Hpow) as (s' & E & Hbs & Hlk & R & I).
  exists s', (init_heap M L (H / 16)). split_and!; auto. destruct (heap_M_bounds H HH Hpow) as (HM & HE & HG). fold M in HM, HE, HG.
  pose proof (meta_quarter M HM) as HL. fold L in HL. pose proof (Z.pow_pos_nonneg 2 M ltac:(lia) ltac:(lia)).
  intros k i. unfold live, init_heap. cbn. rewrite andb_false_iff, Z.ltb_ge. split.
  - intros ([Hk Hi] & Ha & [Hk0|Hn]); [|congruence]. assert (k = 0) as -> by lia. split; [done|].
    rewrite Z.sub_0_r in Hi. unfold init_A, first_, last_, up in Ha. change (2 ^ 0) with 1 in Ha. rewrite !Z.div_1_r in Ha.
    apply orb_true_iff in Ha. rewrite Z.ltb_lt, Z.leb_le in Ha. lia.
  - intros [-> Hi]. split; [split; [lia|rewrite Z.sub_0_r; lia]|]. split; [|left; lia].
    unfold init_A, first_, last_, up. change (2 ^ 0) with 1. rewrite !Z.div_1_r. apply orb_true_iff. rewrite Z.ltb_lt, Z.leb_le. lia.
Qed.

(** C25: for a request of at most 2^63 bytes, [bd_malloc n] returns 0 exactly when no free block of the smallest sufficient size or a larger one exists; otherwise
    it returns a block of that size, inside the heap and behind the allocator's data, that shares no byte with a block in use,
    and exactly that block becomes used.  The invariant is preserved. *)
Theorem bd_malloc_disjoint (M L : Z) (s : bdst) (a : heap) (n : Z) :
  bd_rep M L s a -> buddy_inv M L a -> bd_lock s = false -> 0 <= n <= 2 ^ 63 ->
  exists fk p s' a', bd_malloc n s = Ok p s' /\ fits n fk /\ bd_rep M L s' a' /\ buddy_inv M L a' /\ bd_lock s' = false /\
    bd_base s' = bd_base s /\
    ((p = 0 /\ a' = a /\ forall k, fk <= k <= M -> hF a k = []) \/
     exists i, p = at_ s fk i /\ bd_base s + L * 16 <= p /\ p + BLK_SIZE fk <= bd_base s + BLK_SIZE M /\
       (forall k' i', live M a' k' i' <-> (k' = fk /\ i' = i) \/ live M a k' i') /\
       forall k' i' x, live M a k' i' -> bytes s k' i' x -> ~ p <= x < p + BLK_SIZE fk).
Proof.
  intros R I Hlk Hn. destruct (bd_malloc_spec M L s a n R I Hlk Hn) as (fk & p & s' & E & Hst & Hfit & Hcase).
  exists fk, p, s'. injection Hst as _ Hb _ _ Hl. destruct Hcase as [(-> & R' & Hnone)|(a' & i & -> & R' & I' & Hnew & Hlv)].
  - exists a. split_and!; auto; try congruence.
  - exists a'. split_and!; auto; try congruence. right. exists i.
    assert (Hl' : live M a' fk i) by (apply Hlv; auto).
    assert (Hown : ~ own L fk i).
    { intros [-> Hi]. apply Hnew. apply (own_live _ _ _ I). destruct Hl' as ([_ ?] & _). lia. }
    destruct (live_after_own M L s a' fk i I' Hl' Hown) as [H1 H2]. split_and!; auto.
    intros k' i' x Hl2 Hx Hx2. destruct (live_bytes_disjoint M L s a' k' i' fk i x I') as [-> ->]; auto. apply Hlv. auto.
Qed.

(** C26: [bd_free] of a block that [bd_malloc] handed out marks exactly that block unused and merges it with its free buddies,
    so that the invariant, and with it that no two buddies are both free, is preserved. *)
Theorem bd_free_merges (M L : Z) (s : bdst) (a : heap) (k i : Z) :
  bd_rep M L s a -> buddy_inv M L a -> bd_lock s = false -> live M a k i -> ~ own L k i ->
  exists s' a', bd_free (at_ s k i) s = Ok tt s' /\ bd_rep M L s' a' /\ buddy_inv M L a' /\ bd_lock s' = false /\
    bd_base s' = bd_base s /\ forall k' i', live M a' k' i' <-> live M a k' i' /\ ~ (k' = k /\ i' = i).
Proof.
  intros R I Hlk Hl Ho. destruct (bd_free_spec M L s a k i R I Hlk Hl Ho) as (s' & a' & E & Hst & R' & I' & Hlv).
  injection Hst as _ Hb _ _ Hlk'. exists s', a'. split_and!; auto; congruence.
Qed.

(** Freeing what [bd_malloc] just returned gives back every bit and the members of every free list. *)
Theorem bd_malloc_free_roundtrip (M L : Z) (s : bdst) (a : heap) (n : Z) :
  bd_rep M L s a -> buddy_inv M L a -> bd_lock s = false -> 0 <= n <= 2 ^ 63 ->
  exists p s1, bd_malloc n s = Ok p s1 /\
    (p = 0 \/ exists s2 a2, bd_free p s1 = Ok tt s2 /\ bd_rep M L s2 a2 /\
       forall k i, blk M k i -> hA a2 k i = hA a k i /\ hS a2 k i = hS a k i /\ (i ∈ hF a2 k <-> i ∈ hF a k)).
Proof.
  intros R I Hlk Hn. destruct (bd_malloc_spec M L s a n R I Hlk Hn) as (fk & p & s1 & E & Hst & Hfit & Hcase).
  exists p, s1. split; [done|]. destruct Hcase as [(-> & _)|(a1 & i & -> & R1 & I1 & Hnew & Hlv)]; [auto|right].
  assert (Hl1 : live M a1 fk i) by (apply Hlv; auto).
  assert (Hown : ~ own L fk i).
  { intros [-> Hi]. apply Hnew. apply (own_live _ _ _ I). destruct Hl1 as ([_ ?] & _). lia. }
  assert (Hlk1 : bd_lock s1 = false) by (injection Hst; congruence).
  destruct (bd_free_spec M L s1 a1 fk i R1 I1 Hlk1 Hl1 Hown) as (s2 & a2 & E2 & Hst2 & R2 & I2 & Hlv2).
  rewrite (at_static _ _ _ _ Hst) in E2. exists s2, a2. split_and!; auto. apply (live_determines M L); auto.
  intros k' i'. rewrite Hlv2, Hlv. destruct (decide (k' = fk /\ i' = i)) as [[-> ->]|]; tauto.
Qed.

(** ** A heap of 3888 bytes *)

Definition bd_blank : bdst :=
  Bd 0 0 (fun _ => 0) (fun _ => 0) 0 false (fun _ => 0) (DHeap (fun _ => 0) (fun _ => 0)) [].

Lemma not_pow2 m H : 0 <= m -> 2 ^ m < H < 2 ^ (m + 1) -> forall j, 0 <= j -> H <> 2 ^ j.
Proof.
  intros Hm HH j Hj ->. destruct HH as [H1 H2]. apply Z.pow_lt_mono_r_iff in H1; [|lia..].
  apply Z.pow_lt_mono_r_iff in H2; lia.
Qed.

Lemma sample_heap :
  exists s, bd_init 4096 7984 bd_blank = Ok tt s /\ bd_lock s = false /\ bd_base s = 4096 /\
    bd_rep 8 (meta_leaves 8) s (init_heap 8 (meta_leaves 8) 243) /\ buddy_inv 8 (meta_leaves 8) (init_heap 8 (meta_leaves 8) 243).
Proof.
  destruct (bd_init_spec 4096 7984 bd_blank) as (s & E & H1 & H2 & R & I); [change (ROUNDUP 4096 LEAF_SIZE) with 4096; lia..| |].
  - change (ROUNDUP 4096 LEAF_SIZE) with 4096. apply (not_pow2 11); lia.
  - exists s. auto.
Qed.

Lemma bd_init_establishes_witness : exists s', bd_init 4096 7984 bd_blank = Ok tt s' /\ bd_base s' = 4096.
Proof.
  destruct (bd_init_establishes 4096 7984 bd_blank) as (s' & a & E & Hb & _); [change (ROUNDUP 4096 LEAF_SIZE) with 4096; lia..| |].
  - change (ROUNDUP 4096 LEAF_SIZE) with 4096. apply (not_pow2 11); lia.
  - exists s'. split; [exact E|exact Hb].
Defined.

Lemma bd_malloc_disjoint_witness : exists s p s', bd_init 4096 7984 bd_blank = Ok tt s /\ bd_malloc 100 s = Ok p s' /\ bd_lock s' = false.
Proof.
  destruct sample_heap as (s & E & Hl & Hb & R & I).
  destruct (bd_malloc_disjoint 8 _ s _ 100 R I Hl ltac:(lia)) as (fk & p & s' & a' & E' & _ & _ & _ & Hl' & _).
  exists s, p, s'. auto.
Defined.

Lemma bd_malloc_free_roundtrip_witness : exists s p s', bd_init 4096 7984 bd_blank = Ok tt s /\ bd_malloc 100 s = Ok p s'.
Proof.
  destruct sample_heap as (s & E & Hl & Hb & R & I).
  destruct (bd_malloc_free_roundtrip 8 _ s _ 100 R I Hl ltac:(lia)) as (p & s' & E' & _).
  exists s, p, s'. auto.
Defined.

(** The leaves behind [end] are in use, and not the allocator's: they can be freed. *)
Lemma bd_free_merges_witness : exists s s', bd_init 4096 7984 bd_blank = Ok tt s /\ bd_free (at_ s 0 250) s = Ok tt s' /\ bd_lock s' = false.
Proof.
  destruct sample_heap as (s & E & Hl & Hb & R & I).
  destruct (bd_free_merges 8 _ s _ 0 250 R I Hl) as (s' & a' & E' & _ & _ & Hl' & _).
  - split; [split; cbn; lia|]. split; reflexivity.
  - intros [_ H]. revert H. vm_compute. discriminate.
  - exists s, s'. auto.
Defined.

(** A heap whose length is a power of two makes [bd_init] panic: there is no unavailable tail, and the block after the last
    one is looked at. *)
Theorem bd_init_power_of_two : bd_init 4096 8192 bd_blank = Panic "bd_init: free mem".
Proof. vm_compute. reflexivity. Qed.
