(* ===== verification/Virtio.v ===== *)
(** * [kernel/virtio_disk.c]: the driver of the virtio disk

    The state is one [struct disk] (the index [n] of the array selects it), what
    the driver and the device touch outside of it (the request headers on kernel
    stacks, the buffers), and the device's own: how far it has read the available
    ring, the requests it works on and the bytes on the disk.

    An address the driver hands to the device is a [daddr]: it names the header of
    a process, the data of a buffer or the status byte of a descriptor.  The
    routines run with [vdisk_lock] held, so a process that calls [virtio_disk_rw],
    the interrupt handler and the device interleave where a routine sleeps:
    [perform] is one step of one of them.  A sleeping process goes on only after a
    [wakeup] of the channel it sleeps on, or a [kill].  The device is a parameter,
    [device_exec]: what it does to a chain of descriptors that it was given. *)
From stdpp Require Import base list gmap strings.
From Stdlib Require Import ZArith Lia.
From S2P Require Import Prelude KString Riscv Bio Console.

#[local] Open Scope Z_scope.
#[local] Open Scope xv6_scope.

(** ** [kernel/virtio.h] *)

Definition VIRTIO_MMIO_MAGIC_VALUE : Z := 0x000.
Definition VIRTIO_MMIO_VERSION : Z := 0x004.
Definition VIRTIO_MMIO_DEVICE_ID : Z := 0x008.
Definition VIRTIO_MMIO_VENDOR_ID : Z := 0x00c.
Definition VIRTIO_MMIO_DEVICE_FEATURES : Z := 0x010.
Definition VIRTIO_MMIO_DRIVER_FEATURES : Z := 0x020.
Definition VIRTIO_MMIO_GUEST_PAGE_SIZE : Z := 0x028.
Definition VIRTIO_MMIO_QUEUE_SEL : Z := 0x030.
Definition VIRTIO_MMIO_QUEUE_NUM_MAX : Z := 0x034.
Definition VIRTIO_MMIO_QUEUE_NUM : Z := 0x038.
Definition VIRTIO_MMIO_QUEUE_PFN : Z := 0x040.
Definition VIRTIO_MMIO_QUEUE_NOTIFY : Z := 0x050.
Definition VIRTIO_MMIO_STATUS : Z := 0x070.

Definition VIRTIO_CONFIG_S_ACKNOWLEDGE : Z := 1.
Definition VIRTIO_CONFIG_S_DRIVER : Z := 2.
Definition VIRTIO_CONFIG_S_DRIVER_OK : Z := 4.
Definition VIRTIO_CONFIG_S_FEATURES_OK : Z := 8.

Definition VIRTIO_BLK_F_RO : Z := 5.
Definition VIRTIO_BLK_F_SCSI : Z := 7.
Definition VIRTIO_BLK_F_CONFIG_WCE : Z := 11.
Definition VIRTIO_BLK_F_MQ : Z := 12.
Definition VIRTIO_F_ANY_LAYOUT : Z := 27.
Definition VIRTIO_RING_F_INDIRECT_DESC : Z := 28.
Definition VIRTIO_RING_F_EVENT_IDX : Z := 29.

Definition NUM : Z := 8.
Definition VRING_DESC_F_NEXT : Z := 1.
Definition VRING_DESC_F_WRITE : Z := 2.
Definition VIRTIO_BLK_T_IN : Z := 0.
Definition VIRTIO_BLK_T_OUT : Z := 1.

Inductive daddr : Type :=
| NullA
| HdrA (p : Z)       (** [buf0] on the kernel stack of process [p] *)
| DataA (b : Z)      (** [b->data] *)
| StatusA (i : Z).   (** [&disk[n].info[i].status] *)

Record VRingDesc : Type := Desc { d_addr : daddr; d_len : Z; d_flags : Z; d_next : Z }.

#[export] Instance VRingDesc_eta : Eta VRingDesc := fun d => Desc (d_addr d) (d_len d) (d_flags d) (d_next d).

(** [struct virtio_blk_outhdr] *)
Record virtio_blk_outhdr : Type := Hdr { h_type : Z; h_reserved : Z; h_sector : Z }.

Record vst : Type := Vst {
  desc : Z -> VRingDesc;
  avail : Z -> Z;          (** [uint16 *avail] *)
  used_id : Z;             (** [used->id] *)
  used_elems : Z -> Z;     (** [used->elems[i].id] *)
  free : Z -> bool;
  used_idx : Z;
  info_b : Z -> Z;
  info_status : Z -> Z;
  vd_init : bool;
  vdisk_lock : bool;
  v_hdr : Z -> virtio_blk_outhdr;   (** [buf0] of the processes *)
  b_disk : Z -> Z;         (** [b->disk] *)
  b_blockno : Z -> Z;
  b_data : Z -> block;
  v_wakes : list chan;     (** calls of [wakeup], latest first *)
  v_regs : list (Z * Z);   (** stores to device registers, latest first *)
  v_out : list Z;          (** what [virtio_disk_init] prints *)
  dev_seen : Z;            (** the device: entries of [avail] it has taken *)
  dev_flight : list Z;     (** requests it works on *)
  dev_bytes : Z -> Z;      (** the bytes of the disk *)
}.

#[export] Instance vst_eta : Eta vst := fun s =>
  Vst (desc s) (avail s) (used_id s) (used_elems s) (free s) (used_idx s) (info_b s) (info_status s) (vd_init s)
      (vdisk_lock s) (v_hdr s) (b_disk s) (b_blockno s) (b_data s) (v_wakes s) (v_regs s) (v_out s)
      (dev_seen s) (dev_flight s) (dev_bytes s).

Abbreviation V := (M vst).

(** ** The routines *)

Definition vwakeup (c : chan) : V unit := modify (fun s => s <| v_wakes := c :: v_wakes s |>).
Definition free_chan : chan := Chan "disk.free" 0.    (** [&disk[n].free[0]] *)
Definition disk_chan (b : Z) : chan := Chan "disk.buf" b.   (** [b] *)
Definition store_reg (r v : Z) : V unit := modify (fun s => s <| v_regs := (r, v) :: v_regs s |>).

Definition clear_feature (features bit : Z) : Z := Z.ldiff features (Z.shiftl 1 bit).

(** [reg] is what the device's registers read as, [n] the disk and [pages] the address of its rings. *)
Definition virtio_disk_init (reg : Z -> Z) (n pages : Z) : V unit :=
  i ← gets vd_init ;
  if i : bool then ret tt else
  modify (fun s => s <| v_out := v_out s ++ format (bytes_of "virtio disk init %d" ++ [NL]) [AInt n] |>) ;;
  modify (fun s => s <| vdisk_lock := false |>) ;;
  if negb (reg VIRTIO_MMIO_MAGIC_VALUE =? 0x74726976) || negb (reg VIRTIO_MMIO_VERSION =? 1)
     || negb (reg VIRTIO_MMIO_DEVICE_ID =? 2) || negb (reg VIRTIO_MMIO_VENDOR_ID =? 0x554d4551)
  then panic "could not find virtio disk" else
  let status := Z.lor 0 VIRTIO_CONFIG_S_ACKNOWLEDGE in
  store_reg VIRTIO_MMIO_STATUS status ;;
  let status := Z.lor status VIRTIO_CONFIG_S_DRIVER in
  store_reg VIRTIO_MMIO_STATUS status ;;
  let features := reg VIRTIO_MMIO_DEVICE_FEATURES in
  let features := clear_feature features VIRTIO_BLK_F_RO in
  let features := clear_feature features VIRTIO_BLK_F_SCSI in
  let features := clear_feature features VIRTIO_BLK_F_CONFIG_WCE in
  let features := clear_feature features VIRTIO_BLK_F_MQ in
  let features := clear_feature features VIRTIO_F_ANY_LAYOUT in
  let features := clear_feature features VIRTIO_RING_F_EVENT_IDX in
  let features := clear_feature features VIRTIO_RING_F_INDIRECT_DESC in
  store_reg VIRTIO_MMIO_DRIVER_FEATURES features ;;
  let status := Z.lor status VIRTIO_CONFIG_S_FEATURES_OK in
  store_reg VIRTIO_MMIO_STATUS status ;;
  let status := Z.lor status VIRTIO_CONFIG_S_DRIVER_OK in
  store_reg VIRTIO_MMIO_STATUS status ;;
  store_reg VIRTIO_MMIO_GUEST_PAGE_SIZE PGSIZE ;;
  store_reg VIRTIO_MMIO_QUEUE_SEL 0 ;;
  let max := reg VIRTIO_MMIO_QUEUE_NUM_MAX in
  if max =? 0 then panic "virtio disk has no queue 0" else
  if max <? NUM then panic "virtio disk max queue too short" else
  store_reg VIRTIO_MMIO_QUEUE_NUM NUM ;;
  modify (fun s => s <| desc := fun _ => Desc NullA 0 0 0 |> <| avail := fun _ => 0 |>
                     <| used_id := 0 |> <| used_elems := fun _ => 0 |>) ;;
  store_reg VIRTIO_MMIO_QUEUE_PFN (u32 (Z.shiftr pages PGSHIFT)) ;;
  modify (fun s => s <| free := fun i => if (0 <=? i) && (i <? NUM) then true else free s i |>) ;;
  modify (fun s => s <| vd_init := true |>).

(** The first free descriptor from [i] on. *)
Fixpoint alloc_desc_from (l : list Z) : V Z :=
  match l with
  | [] => ret (-1)
  | i :: l =>
      f ← gets (fun s => free s i) ;
      if f : bool then modify (fun s => s <| free := upd (free s) i false |>) ;; ret i
      else alloc_desc_from l
  end.

Definition alloc_desc : V Z := alloc_desc_from (zseq 0 (Z.to_nat NUM)).

Definition set_desc (i : Z) (f : VRingDesc -> VRingDesc) : V unit :=
  modify (fun s => s <| desc := upd (desc s) i (f (desc s i)) |>).

Definition free_desc (i : Z) : V unit :=
  if i >=? NUM then panic "virtio_disk_intr 1" else
  f ← gets (fun s => free s i) ;
  if f : bool then panic "virtio_disk_intr 2" else
  set_desc i (fun d => d <| d_addr := NullA |>) ;;
  modify (fun s => s <| free := upd (free s) i true |>) ;;
  vwakeup free_chan.

Definition free_chain_turn (i : Z) : V (Z + unit) :=
  free_desc i ;;
  d ← gets (fun s => desc s i) ;
  if negb (Z.land (d_flags d) VRING_DESC_F_NEXT =? 0) then ret (inl (d_next d)) else ret (inr tt).

Definition free_chain (i : Z) : V unit := while_ free_chain_turn i.

Fixpoint free_descs (l : list Z) : V unit :=
  match l with
  | [] => ret tt
  | i :: l => free_desc i ;; free_descs l
  end.

(** [k] descriptors are missing, [idx] are taken. *)
Fixpoint alloc_descs (k : nat) (idx : list Z) : V (option (list Z)) :=
  match k with
  | O => ret (Some idx)
  | S k =>
      i ← alloc_desc ;
      if i <? 0 then free_descs idx ;; ret None else alloc_descs k (idx ++ [i])
  end.

Definition alloc3_desc : V (option (list Z)) := alloc_descs 3 [].

(** Fill in the header and the three descriptors for process [p]. *)
Definition rw_format (p b : Z) (write : bool) (i0 i1 i2 : Z) : V unit :=
  blockno ← gets (fun s => b_blockno s b) ;
  let sector := u32 (blockno * (BSIZE / 512)) in
  modify (fun s => s <| v_hdr := upd (v_hdr s) p (Hdr (if write then VIRTIO_BLK_T_OUT else VIRTIO_BLK_T_IN) 0 sector) |>) ;;
  set_desc i0 (fun d => d <| d_addr := HdrA p |> <| d_len := 16 |> <| d_flags := VRING_DESC_F_NEXT |> <| d_next := i1 |>) ;;
  set_desc i1 (fun d => d <| d_addr := DataA b |> <| d_len := BSIZE |>
                         <| d_flags := if write then 0 else VRING_DESC_F_WRITE |>) ;;
  set_desc i1 (fun d => d <| d_flags := Z.lor (d_flags d) VRING_DESC_F_NEXT |> <| d_next := i2 |>) ;;
  modify (fun s => s <| info_status := upd (info_status s) i0 0 |>) ;;
  set_desc i2 (fun d => d <| d_addr := StatusA i0 |> <| d_len := 1 |> <| d_flags := VRING_DESC_F_WRITE |> <| d_next := 0 |>).

(** Queue the request and notify the device. *)
Definition rw_queue (b i0 : Z) : V unit :=
  modify (fun s => s <| b_disk := upd (b_disk s) b 1 |>) ;;
  modify (fun s => s <| info_b := upd (info_b s) i0 b |>) ;;
  modify (fun s => s <| avail := upd (avail s) (2 + avail s 1 mod NUM) i0 |>) ;;
  modify (fun s => s <| avail := upd (avail s) 1 (u16 (avail s 1 + 1)) |>) ;;
  store_reg VIRTIO_MMIO_QUEUE_NOTIFY 0.

(** One turn of the first loop of [virtio_disk_rw]: [None] when it sleeps for descriptors. *)
Definition rw_alloc (p b : Z) (write : bool) : V (option Z) :=
  r ← alloc3_desc ;
  match r with
  | Some [i0; i1; i2] => rw_format p b write i0 i1 i2 ;; rw_queue b i0 ;; ret (Some i0)
  | _ => ret None
  end.

(** One test of the second loop, and what follows it: [false] when it sleeps. *)
Definition rw_finish (b i0 : Z) : V bool :=
  d ← gets (fun s => b_disk s b) ;
  if d =? 1 then ret false else
  modify (fun s => s <| info_b := upd (info_b s) i0 0 |>) ;;
  free_chain i0 ;;
  ret true.

Definition intr_turn (_ : unit) : V (unit + unit) :=
  s ← gets (fun s => s) ;
  if used_idx s mod NUM =? used_id s mod NUM then ret (inr tt) else
  let id := used_elems s (used_idx s) in
  if negb (info_status s id =? 0) then panic "virtio_disk_intr status" else
  modify (fun s => s <| b_disk := upd (b_disk s) (info_b s id) 0 |>) ;;
  vwakeup (disk_chan (info_b s id)) ;;
  modify (fun s => s <| used_idx := (used_idx s + 1) mod NUM |>) ;;
  ret (inl tt).

Definition virtio_disk_intr : V unit :=
  acquire vdisk_lock ;;
  while_ intr_turn tt ;;
  release vdisk_lock.

(** ** Processes, device and interrupts *)

(** Where a process is in [virtio_disk_rw]; asleep in the last two. *)
Inductive vpc : Type :=
| VIdle
| WaitDesc (b : Z) (write : bool)
| WaitIO (b : Z) (write : bool) (i0 : Z).

(** The channel it sleeps on. *)
Definition pc_chan (c : vpc) : option chan :=
  match c with VIdle => None | WaitDesc _ _ => Some free_chan | WaitIO b _ _ => Some (disk_chan b) end.

#[export] Instance chan_eq_dec : EqDecision chan.
Proof. solve_decision. Defined.

Record vsys : Type := Vsys {
  vs : vst;
  vprocs : Z -> vpc;
  vwoken : Z -> bool;     (** asleep no more: [wakeup] or [kill] has made the process runnable *)
}.
#[export] Instance vsys_eta : Eta vsys := fun g => Vsys (vs g) (vprocs g) (vwoken g).

(** The calls of [wakeup] in [v_wakes] make the processes on these channels runnable. *)
Definition deliver (g : vsys) : vsys :=
  g <| vwoken := fun p => vwoken g p || existsb (fun c => bool_decide (pc_chan (vprocs g p) = Some c)) (v_wakes (vs g)) |>
    <| vs := (vs g) <| v_wakes := [] |> |>.

Definition on_disk {A} (m : V A) : M vsys A :=
  a ← zoom vs (fun s g => g <| vs := s |>) m ;
  modify deliver ;;
  ret a.

(** A process goes to sleep, or leaves [virtio_disk_rw]. *)
Definition set_pc (p : Z) (c : vpc) : M vsys unit :=
  modify (fun g => g <| vprocs := upd (vprocs g) p c |> <| vwoken := upd (vwoken g) p false |>).

(** [virtio_disk_rw] up to its next sleep, or its end.  It goes to sleep with the lock released. *)
Definition rw_wait (p b : Z) (write : bool) (i0 : Z) : M vsys unit :=
  done ← on_disk (rw_finish b i0) ;
  on_disk (release vdisk_lock) ;;
  set_pc p (if done : bool then VIdle else WaitIO b write i0).

Definition rw_try (p b : Z) (write : bool) : M vsys unit :=
  r ← on_disk (rw_alloc p b write) ;
  match r with
  | None => on_disk (release vdisk_lock) ;; set_pc p (WaitDesc b write)
  | Some i0 => rw_wait p b write i0
  end.

(** The scheduler runs the process: it goes on when it is runnable. *)
Definition resume (p : Z) : M vsys unit :=
  runnable ← gets (fun g => vwoken g p) ;
  if negb runnable then ret tt else
  c ← gets (fun g => vprocs g p) ;
  match c with
  | VIdle => ret tt
  | WaitDesc b write => on_disk (acquire vdisk_lock) ;; rw_try p b write
  | WaitIO b write i0 => on_disk (acquire vdisk_lock) ;; rw_wait p b write i0
  end.

(** The buffer of no process that is in [virtio_disk_rw]. *)
Definition pc_buf (c : vpc) : option Z :=
  match c with VIdle => None | WaitDesc b _ | WaitIO b _ _ => Some b end.

Definition virtio_disk_rw (p b : Z) (write : bool) : M vsys unit :=
  on_disk (acquire vdisk_lock) ;;
  rw_try p b write.

(** [n] bytes of the disk from byte [x] on, and the disk with [d] there. *)
Definition disk_read (bytes : Z -> Z) (x n : Z) : block := bytes <$> zseq x (Z.to_nat n).
Definition disk_write (bytes : Z -> Z) (x : Z) (d : block) : Z -> Z :=
  fun y => if (x <=? y) && (y <? x + Z.of_nat (length d)) then nth (Z.to_nat (y - x)) d 0 else bytes y.

(** What the virtio specification says a block device does with a chain of three descriptors: a header it reads, data that it
    may write in the case of a read request, and a status byte it writes (0 is VIRTIO_BLK_S_OK). *)
Record block_device (device_exec : Z -> vst -> vst) : Prop := {
  dev_in : forall s i p b j i1 i2 len sector,
    desc s i = Desc (HdrA p) 16 VRING_DESC_F_NEXT i1 ->
    desc s i1 = Desc (DataA b) len (Z.lor VRING_DESC_F_WRITE VRING_DESC_F_NEXT) i2 ->
    desc s i2 = Desc (StatusA j) 1 VRING_DESC_F_WRITE 0 ->
    v_hdr s p = Hdr VIRTIO_BLK_T_IN 0 sector ->
    device_exec i s = s <| b_data := upd (b_data s) b (disk_read (dev_bytes s) (sector * 512) len) |>
                        <| info_status := upd (info_status s) j 0 |>;
  dev_out : forall s i p b j i1 i2 len sector,
    desc s i = Desc (HdrA p) 16 VRING_DESC_F_NEXT i1 ->
    desc s i1 = Desc (DataA b) len VRING_DESC_F_NEXT i2 ->
    desc s i2 = Desc (StatusA j) 1 VRING_DESC_F_WRITE 0 ->
    v_hdr s p = Hdr VIRTIO_BLK_T_OUT 0 sector ->
    device_exec i s = s <| dev_bytes := disk_write (dev_bytes s) (sector * 512) (take (Z.to_nat len) (b_data s b)) |>
                        <| info_status := upd (info_status s) j 0 |>;
}.

Section Device.
Context (device_exec : Z -> vst -> vst).

(** The device takes the next entry of the available ring. *)
Definition dev_fetch : V unit :=
  s ← gets (fun s => s) ;
  if dev_seen s =? avail s 1 then ret tt else
  modify (fun s => s <| dev_flight := dev_flight s ++ [avail s (2 + dev_seen s mod NUM)] |> <| dev_seen := u16 (dev_seen s + 1) |>).

(** It finishes the [k]th of the requests it works on and enters it into the used ring. *)
Definition dev_complete (k : nat) : V unit :=
  fl ← gets dev_flight ;
  match fl !! k with
  | None => ret tt
  | Some i =>
      modify (device_exec i) ;;
      modify (fun s => s <| used_elems := upd (used_elems s) (used_id s mod NUM) i |> <| used_id := u16 (used_id s + 1) |>
                         <| dev_flight := delete k (dev_flight s) |>)
  end.

Inductive action : Type :=
| Call (p b : Z) (write : bool) (blockno : Z) (bytes : block)   (** the caller has set [blockno] and [data] *)
| Resume (p : Z)
| Kill (p : Z)          (** [kill] makes a sleeping process runnable *)
| Intr
| Fetch
| Complete (k : nat).

Definition perform (a : action) : M vsys unit :=
  match a with
  | Call p b write k d =>
      on_disk (modify (fun s => s <| b_blockno := upd (b_blockno s) b k |> <| b_data := upd (b_data s) b d |>)) ;;
      virtio_disk_rw p b write
  | Resume p => resume p
  | Kill p => modify (fun g => match vprocs g p with VIdle => g | _ => g <| vwoken := upd (vwoken g) p true |> end)
  | Intr => on_disk virtio_disk_intr
  | Fetch => on_disk dev_fetch
  | Complete k => on_disk (dev_complete k)
  end.

(** What the callers respect: a process is in one call at a time, and holds the buffer's lock during it. *)
Definition allowed (g : vsys) (a : action) : Prop :=
  match a with
  | Call p b write k d =>
      vprocs g p = VIdle /\ (forall q, pc_buf (vprocs g q) <> Some b) /\ length d = Z.to_nat BSIZE /\ b <> 0 /\ 0 <= k < 2 ^ 31
  | _ => True
  end.
End Device.
