(* ===== verification/VirtioProps.v ===== *)
(** * The virtio driver implements an atomic disk

    In every interleaving of callers, device and interrupts the driver shows the
    behaviour of a disk that moves a whole block between buffer and disk at one
    moment between the call and the return: every sequence of calls and returns
    of the driver is one of the abstract disk ([virtio_trace_refines]), and no
    routine panics. *)
From stdpp Require Import base list gmap strings.
From Stdlib Require Import ZArith Lia.
From S2P Require Import Prelude KString Riscv Bio Virtio.

#[local] Open Scope Z_scope.
#[local] Open Scope xv6_scope.

(** ** The abstract disk *)

Inductive apc : Type :=
| AIdle
| APending (b : Z) (write : bool)
| ADone (b : Z) (write : bool).

Record adisk : Type := Adisk {
  a_bytes : Z -> Z;
  a_blockno : Z -> Z;
  a_data : Z -> block;
  a_pc : Z -> apc;
}.

(** What a caller sees: its calls, with the block number and the contents of the buffer, and their returns, with the
    contents then. *)
Inductive event : Type :=
| ECall (p b : Z) (write : bool) (blockno : Z) (d : block)
| ERet (p : Z) (d : block).

(** Execute the request at once. *)
Definition transfer (a : adisk) (b : Z) (write : bool) : adisk :=
  if write
  then Adisk (disk_write (a_bytes a) (a_blockno a b * BSIZE) (a_data a b)) (a_blockno a) (a_data a) (a_pc a)
  else Adisk (a_bytes a) (a_blockno a) (upd (a_data a) b (disk_read (a_bytes a) (a_blockno a b * BSIZE) BSIZE)) (a_pc a).

Definition set_apc (a : adisk) (p : Z) (c : apc) : adisk :=
  Adisk (a_bytes a) (a_blockno a) (a_data a) (upd (a_pc a) p c).

Inductive atrace : adisk -> list event -> adisk -> Prop :=
| at_nil a : atrace a [] a
| at_call a0 es a p b write k d :
    atrace a0 es a -> a_pc a p = AIdle ->
    atrace a0 (es ++ [ECall p b write k d])
      (set_apc (Adisk (a_bytes a) (upd (a_blockno a) b k) (upd (a_data a) b d) (a_pc a)) p (APending b write))
| at_transfer a0 es a p b write :
    atrace a0 es a -> a_pc a p = APending b write -> atrace a0 es (set_apc (transfer a b write) p (ADone b write))
| at_return a0 es a p b write :
    atrace a0 es a -> a_pc a p = ADone b write -> atrace a0 (es ++ [ERet p (a_data a b)]) (set_apc a p AIdle).

(** ** Traces of the driver *)

Section Trace.
Context (device_exec : Z -> vst -> vst).

(** What the callers see of a step. *)
Definition visible (g g' : vsys) (x : action) : list event :=
  match x with
  | Call p b write k d => [ECall p b write k d]
  | Resume p =>
      match vprocs g p, vprocs g' p with
      | WaitDesc b _, VIdle | WaitIO b _ _, VIdle => [ERet p (b_data (vs g') b)]
      | _, _ => []
      end
  | _ => []
  end.

Inductive vtrace : vsys -> list event -> vsys -> Prop :=
| vt_nil g : vtrace g [] g
| vt_step g0 es g x g' :
    vtrace g0 es g -> allowed g x -> perform device_exec x g = Ok tt g' -> vtrace g0 (es ++ visible g g' x) g'.
End Trace.

(** ** The invariant *)

(** A request that the driver has submitted, with its three descriptors. *)
Record req : Type := Req { rp : Z; rb : Z; rw : bool; r0 : Z; r1 : Z; r2 : Z }.

#[export] Instance req_eq_dec : EqDecision req.
Proof. solve_decision. Defined.

Definition rdescs (r : req) : list Z := [r0 r; r1 r; r2 r].
Fixpoint descs (l : list req) : list Z := match l with [] => [] | r :: l => rdescs r ++ descs l end.

Definition chain (s : vst) (r : req) : Prop :=
  desc s (r0 r) = Desc (HdrA (rp r)) 16 VRING_DESC_F_NEXT (r1 r) /\
  desc s (r1 r) = Desc (DataA (rb r)) BSIZE (if rw r then VRING_DESC_F_NEXT else Z.lor VRING_DESC_F_WRITE VRING_DESC_F_NEXT) (r2 r) /\
  desc s (r2 r) = Desc (StatusA (r0 r)) 1 VRING_DESC_F_WRITE 0 /\
  v_hdr s (rp r) = Hdr (if rw r then VIRTIO_BLK_T_OUT else VIRTIO_BLK_T_IN) 0 (b_blockno s (rb r) * 2) /\
  info_b s (r0 r) = rb r /\ info_status s (r0 r) = 0.

(** The descriptors: those of [all] are taken and filled in. *)
Record desc_inv (s : vst) (all : list req) : Prop := {
  di_nodup : NoDup (descs all);
  di_range : forall i, i ∈ descs all -> 0 <= i < NUM;
  di_free : forall i, 0 <= i < NUM -> free s i = true <-> (i ∉ descs all);
  di_chain : forall r, r ∈ all -> chain s r;
}.

(** The rings: [qa] are queued, [qf] is with the device, [qu] are finished, in [qd] the handler has seen. *)
Record ring_inv (s : vst) (qa qf qu qd : list req) (F U : Z) : Prop := {
  ri_nonneg : 0 <= F /\ 0 <= U;
  ri_avail : avail s 1 = u16 (F + Z.of_nat (length qa));
  ri_queued : forall k r, qa !! k = Some r -> avail s (2 + (F + Z.of_nat k) mod NUM) = r0 r;
  ri_seen : dev_seen s = u16 F;
  ri_flight : dev_flight s = r0 <$> qf;
  ri_used : used_id s = u16 (U + Z.of_nat (length qu));
  ri_elems : forall k r, qu !! k = Some r -> used_elems s ((U + Z.of_nat k) mod NUM) = r0 r;
  ri_idx : used_idx s = U mod NUM;
  ri_busy : forall r, r ∈ qa ++ qf ++ qu -> b_disk s (rb r) = 1;
  ri_done : forall r, r ∈ qd -> b_disk s (rb r) <> 1;
}.

(** The callers. *)
Record proc_inv (g : vsys) (all : list req) : Prop := {
  pi_own : forall r, r ∈ all -> vprocs g (rp r) = WaitIO (rb r) (rw r) (r0 r);
  pi_has : forall p b write i, vprocs g p = WaitIO b write i -> exists r, r ∈ all /\ rp r = p;
  pi_buf : forall p q b, pc_buf (vprocs g p) = Some b -> pc_buf (vprocs g q) = Some b -> p = q;
  pi_len : forall p b, pc_buf (vprocs g p) = Some b -> length (b_data (vs g) b) = Z.to_nat BSIZE /\ 0 <= b_blockno (vs g) b < 2 ^ 31;
}.

(** No wakeup is lost: a process whose request is finished is runnable, as is one that waits for descriptors, unless two
    requests have taken them. *)
Record wake_inv (g : vsys) (all qd : list req) : Prop := {
  wk_done : forall r, r ∈ qd -> vwoken g (rp r) = true;
  wk_desc : forall p b write, vprocs g p = WaitDesc b write -> vwoken g p = true \/ (2 <= length all)%nat;
  wk_idle : forall p, vprocs g p = VIdle -> vwoken g p = false;
}.

Record vinv (g : vsys) (all qa qf qu qd : list req) (F U : Z) : Prop := {
  vi_lock : vdisk_lock (vs g) = false;
  vi_perm : all ≡ₚ qa ++ qf ++ qu ++ qd;
  vi_desc : desc_inv (vs g) all;
  vi_ring : ring_inv (vs g) qa qf qu qd F U;
  vi_proc : proc_inv g all;
  vi_wake : wake_inv g all qd;
}.

(** The abstract state of a driver state: requests are executed when they enter the used ring. *)
Definition apc_of (g : vsys) (qa qf : list req) (p : Z) : apc :=
  match vprocs g p with
  | VIdle => AIdle
  | WaitDesc b write => APending b write
  | WaitIO b write _ => if bool_decide (p ∈ rp <$> (qa ++ qf)) then APending b write else ADone b write
  end.

Record arel (g : vsys) (qa qf : list req) (a : adisk) : Prop := {
  ar_bytes : a_bytes a = dev_bytes (vs g);
  ar_blockno : a_blockno a = b_blockno (vs g);
  ar_data : a_data a = b_data (vs g);
  ar_pc : forall p, a_pc a p = apc_of g qa qf p;
}.

Lemma descs_app l l' : descs (l ++ l') = descs l ++ descs l'.
Proof. induction l as [|r l IH]; cbn; [done|]. by rewrite IH. Qed.

Lemma in_descs i l : (i ∈ descs l) <-> exists r, r ∈ l /\ i ∈ rdescs r.
Proof.
  induction l as [|r l IH]; cbn [descs]; [|rewrite elem_of_app, IH]; set_solver.
Qed.

Lemma descs_length l : length (descs l) = (3 * length l)%nat.
Proof. induction l as [|r l IH]; cbn; [done|]. rewrite IH. lia. Qed.

#[export] Instance descs_perm : Proper ((≡ₚ) ==> (≡ₚ)) descs.
Proof.
  intros l l' H. induction H as [|r l l' H IH|r r' l|l1 l2 l3 _ IH1 _ IH2]; cbn [descs]; [done| | |by etrans].
  - by rewrite IH.
  - rewrite !app_assoc. by rewrite (Permutation_app_comm (rdescs r')).
Qed.

(** At most two requests are in flight. *)
Lemma few_requests s all : desc_inv s all -> (length all <= 2)%nat.
Proof.
  intros D. assert (H : (length (descs all) <= length (zseq 0 (Z.to_nat NUM)))%nat).
  { apply submseteq_length, NoDup_submseteq; [apply D|]. intros i Hi. apply elem_of_zseq. pose proof (di_range _ _ D i Hi). unfold NUM in *. lia. }
  rewrite descs_length in H. change (length (zseq 0 (Z.to_nat NUM))) with 8%nat in H. lia.
Qed.

(** ** Descriptors *)

Lemma alloc_desc_from_spec l s :
  (alloc_desc_from l s = Ok (-1) s /\ forall i, i ∈ l -> free s i = false) \/
  exists i, i ∈ l /\ free s i = true /\ alloc_desc_from l s = Ok i (s <| free := upd (free s) i false |>).
Proof.
  induction l as [|i l IH]; cbn [alloc_desc_from].
  - left. split; [done|]. intros i Hi. by apply elem_of_nil in Hi.
  - rewrite (bind_Ok (gets _) _ s (free s i) s) by done. destruct (free s i) eqn:E.
    + right. exists i. split; [by left|]. auto.
    + destruct IH as [[E1 H]|(j & Hj & Ej & E1)].
      * left. split; [done|]. intros j [->|Hj]%elem_of_cons; auto.
      * right. exists j. split; [by right|]. auto.
Qed.

Lemma alloc_desc_spec s :
  (alloc_desc s = Ok (-1) s /\ forall i, 0 <= i < NUM -> free s i = false) \/
  exists i, 0 <= i < NUM /\ free s i = true /\ alloc_desc s = Ok i (s <| free := upd (free s) i false |>).
Proof.
  destruct (alloc_desc_from_spec (zseq 0 (Z.to_nat NUM)) s) as [[E H]|(i & Hi & Ef & E)].
  - left. split; [done|]. intros i Hi. apply H, elem_of_zseq. unfold NUM in *. lia.
  - right. exists i. apply elem_of_zseq in Hi. split; [unfold NUM in *; lia|]. done.
Qed.

Definition cleared (d : VRingDesc) : VRingDesc := d <| d_addr := NullA |>.

Lemma free_desc_ok i s : i < NUM -> free s i = false ->
  free_desc i s = Ok tt (s <| desc := upd (desc s) i (cleared (desc s i)) |> <| free := upd (free s) i true |> <| v_wakes := free_chan :: v_wakes s |>).
Proof.
  intros Hi Hf. unfold free_desc. rewrite Z.geb_leb, (proj2 (Z.leb_gt NUM i)) by done.
  rewrite (bind_Ok (gets _) _ s false s) by (unfold gets; by rewrite Hf). done.
Qed.

(** Only descriptors that are free, and the record of wakeups, may differ. *)
Record idle_change (s s' : vst) : Prop := {
  ic_eq : s' = s <| desc := desc s' |> <| free := free s' |> <| v_wakes := v_wakes s' |>;
  ic_free : forall i, free s' i = free s i;
  ic_desc : forall i, free s i = false -> desc s' i = desc s i;
}.

(** Give descriptors back. *)
Lemma free_descs_spec s0 idx : forall s,
  NoDup idx -> (forall i, i ∈ idx -> i < NUM /\ free s0 i = true) ->
  s = s0 <| desc := desc s |> <| free := free s |> <| v_wakes := v_wakes s |> ->
  (forall i, free s i = if decide (i ∈ idx) then false else free s0 i) -> (forall i, free s0 i = false -> desc s i = desc s0 i) ->
  exists s', free_descs idx s = Ok tt s' /\ idle_change s0 s'.
Proof.
  induction idx as [|i idx IH]; intros s Hnd Hid Hs Hf Hd; cbn [free_descs].
  - exists s. split; [done|]. split; auto.
  - apply NoDup_cons in Hnd as [Hni Hnd]. destruct (Hid i ltac:(by left)) as [Hi Hi0].
    assert (Hfi : free s i = false) by (rewrite Hf, decide_True by (by left); done).
    rewrite (bind_Ok _ _ _ _ _ (free_desc_ok i s Hi Hfi)). apply IH; auto.
    + intros j Hj. apply Hid. by right.
    + rewrite Hs. done.
    + intros j. cbn. destruct (Z.eq_dec j i) as [->|Hn].
      * rewrite upd_same, decide_False by done. done.
      * rewrite upd_other, Hf by done. destruct (decide (j ∈ idx)) as [Hj|Hj];
          [rewrite decide_True by (by right); done|rewrite decide_False; [done|]]. intros [?|?]%elem_of_cons; done.
    + intros j Hj. cbn. rewrite upd_other; [by apply Hd|]. intros ->. congruence.
Qed.

(** Fewer than [n] descriptors are free. *)
Definition scarce (s : vst) (n : nat) : Prop :=
  exists l : list Z, (length l < n)%nat /\ forall i, 0 <= i < NUM -> free s i = true -> i ∈ l.

Lemma alloc_descs_spec s0 k : forall idx s,
  NoDup idx -> (forall i, i ∈ idx -> 0 <= i < NUM /\ free s0 i = true) ->
  s = s0 <| free := free s |> -> (forall i, free s i = if decide (i ∈ idx) then false else free s0 i) ->
  (exists s', alloc_descs k idx s = Ok None s' /\ idle_change s0 s' /\ scarce s0 (k + length idx)) \/
  (exists l s', alloc_descs k idx s = Ok (Some (idx ++ l)) s' /\ length l = k /\ NoDup (idx ++ l) /\
    (forall i, i ∈ idx ++ l -> 0 <= i < NUM /\ free s0 i = true) /\
    s' = s0 <| free := free s' |> /\ forall i, free s' i = if decide (i ∈ idx ++ l) then false else free s0 i).
Proof.
  induction k as [|k IH]; intros idx s Hnd Hid Hs Hf; cbn [alloc_descs].
  - right. exists [], s. rewrite app_nil_r. split_and!; auto.
  - destruct (alloc_desc_spec s) as [[E Hnone]|(i & Hi & Ef & E)]; rewrite (bind_Ok _ _ _ _ _ E).
    + left. cbn [Z.ltb Z.compare]. destruct (free_descs_spec s0 idx s Hnd) as (s' & E' & H'); auto.
      * intros i Hi. destruct (Hid i Hi). split; [lia|done].
      * rewrite Hs. done.
      * intros i Hi. rewrite Hs. done.
      * exists s'. rewrite (bind_Ok _ _ _ _ _ E'). split; [done|]. split; [done|]. exists idx. split; [lia|].
        intros i Hi Hfi. specialize (Hnone i Hi). rewrite Hf in Hnone. case_decide; congruence.
    + rewrite (proj2 (Z.ltb_ge i 0)) by lia. rewrite Hf in Ef. case_decide as Hii; [done|].
      destruct (IH (idx ++ [i]) (s <| free := upd (free s) i false |>)) as [(s' & E' & H' & Hs')|(l & s' & E' & Hl & H1 & H2 & H3 & H4)].
      * apply NoDup_app. split; [done|]. split; [set_solver|]. apply NoDup_singleton.
      * intros j [Hj|Hj%list_elem_of_singleton]%elem_of_app; [by apply Hid|by subst].
      * rewrite Hs. done.
      * intros j. cbn. destruct (Z.eq_dec j i) as [->|Hn].
        -- rewrite upd_same, decide_True; [done|]. set_solver.
        -- rewrite upd_other, Hf by done. repeat case_decide; done || set_solver.
      * left. exists s'. rewrite length_app in Hs'. cbn in Hs'. split_and!; auto. by replace (S k + length idx)%nat with (k + (length idx + 1))%nat by lia.
      * right. exists (i :: l), s'. rewrite <- (app_assoc idx [i] l) in *. cbn [app] in *. split_and!; auto. cbn. lia.
Qed.

Lemma alloc3_desc_spec s :
  (exists s', alloc3_desc s = Ok None s' /\ idle_change s s' /\ scarce s 3) \/
  (exists i0 i1 i2 f, alloc3_desc s = Ok (Some [i0; i1; i2]) (s <| free := f |>) /\ NoDup [i0; i1; i2] /\
    (forall i, i ∈ [i0; i1; i2] -> 0 <= i < NUM /\ free s i = true) /\
    forall i, f i = if decide (i ∈ [i0; i1; i2]) then false else free s i).
Proof.
  destruct (alloc_descs_spec s 3 [] s) as [H|(l & s' & E & Hl & H1 & H2 & H3 & H4)].
  - constructor.
  - intros i Hi. by apply elem_of_nil in Hi.
  - by destruct s.
  - intros i. by rewrite decide_False by apply not_elem_of_nil.
  - left. exact H.
  - right. cbn [app] in *. destruct l as [|i0 [|i1 [|i2 [|]]]]; try done. exists i0, i1, i2, (free s').
    rewrite <- H3. auto.
Qed.

Section Driver.
Context (device_exec : Z -> vst -> vst) (HD : block_device device_exec).

Lemma u16_mod n : 0 <= n -> u16 n mod NUM = n mod NUM.
Proof. intros. unfold u16, NUM. change (2 ^ 16) with (8 * 8192). rewrite Z.rem_mul_r by lia.
  rewrite (Z.mul_comm 8), Z.mod_add by lia. by rewrite Z.mod_mod by lia. Qed.

Lemma u16_succ n : u16 (u16 n + 1) = u16 (n + 1).
Proof. unfold u16. by rewrite Z.add_mod_idemp_l by lia. Qed.

Lemma u16_differ n d : 0 <= n -> u16 n <> u16 (n + d) -> d <> 0.
Proof. intros Hn H ->. rewrite Z.add_0_r in H. done. Qed.

Lemma apc_of_ext g g' qa qf qa' qf' p :
  vprocs g' p = vprocs g p -> (p ∈ rp <$> (qa ++ qf) <-> p ∈ rp <$> (qa' ++ qf')) -> apc_of g' qa' qf' p = apc_of g qa qf p.
Proof.
  intros E H. unfold apc_of. rewrite E. destruct (vprocs g p); try done. by rewrite (bool_decide_ext _ _ H).
Qed.

(** The invariants look at parts of the state only. *)
Lemma desc_inv_frame s s' all :
  desc_inv s all -> desc s' = desc s -> free s' = free s -> v_hdr s' = v_hdr s -> b_blockno s' = b_blockno s ->
  info_b s' = info_b s -> (forall i, info_status s i = 0 -> info_status s' i = 0) -> desc_inv s' all.
Proof.
  intros D E1 E2 E3 E4 E5 E6. split; try apply D.
  - rewrite E2. apply D.
  - intros r Hr. destruct (di_chain _ _ D r Hr) as (H1 & H2 & H3 & H4 & H5 & H6). unfold chain. rewrite E1, E3, E4, E5. split_and!; auto.
Qed.

Lemma proc_inv_frame g g' all :
  proc_inv g all -> (forall p, vprocs g' p = vprocs g p) ->
  (forall b, length (b_data (vs g) b) = Z.to_nat BSIZE -> length (b_data (vs g') b) = Z.to_nat BSIZE) ->
  b_blockno (vs g') = b_blockno (vs g) -> proc_inv g' all.
Proof.
  intros P E1 E2 E3. split.
  - intros r Hr. rewrite E1. by apply P.
  - intros p b w i. rewrite E1. apply P.
  - intros p q b. rewrite !E1. apply P.
  - intros p b. rewrite E1, E3. intros Hb. destruct (pi_len _ _ P p b Hb). auto.
Qed.

Lemma on_disk_ok {A} (m : V A) g a s' : m (vs g) = Ok a s' -> on_disk m g = Ok a (deliver (g <| vs := s' |>)).
Proof. intros H. unfold on_disk, zoom, bind. by rewrite H. Qed.

Lemma on_disk_bind {A} (m : V A) (k : A -> M vsys unit) g a s' :
  m (vs g) = Ok a s' -> bind (on_disk m) k g = k a (deliver (g <| vs := s' |>)).
Proof. intros H. apply bind_Ok. by apply on_disk_ok. Qed.

(** Wakeups reach the processes on the channel, and no others lose theirs. *)
Lemma deliver_more g p : vwoken g p = true -> vwoken (deliver g) p = true.
Proof. intros H. cbn. by rewrite H. Qed.

Lemma deliver_chan g p c : c ∈ v_wakes (vs g) -> pc_chan (vprocs g p) = Some c -> vwoken (deliver g) p = true.
Proof.
  intros Hc Hp. cbn. apply orb_true_iff. right. apply existsb_exists. exists c. split; [by apply list_elem_of_In|]. by apply bool_decide_eq_true.
Qed.

Lemma deliver_idle g p : vprocs g p = VIdle -> vwoken (deliver g) p = vwoken g p.
Proof. intros H. cbn. rewrite H. cbn. induction (v_wakes (vs g)) as [|c l IH]; cbn; [by rewrite orb_false_r|done]. Qed.

Lemma wake_inv_deliver g s all qd : wake_inv g all qd -> wake_inv (deliver (g <| vs := s |>)) all qd.
Proof.
  intros [H1 H2 H3]. split.
  - intros r Hr. by apply deliver_more, H1.
  - intros p b w Hp. destruct (H2 p b w Hp); [left|by right]. by apply deliver_more.
  - intros p Hp. rewrite deliver_idle by done. by apply H3.
Qed.

(** A routine of the driver has run, leaving the processes where they are. *)
Lemma vinv_deliver g s all qa qf qu qd F U :
  vdisk_lock s = false -> all ≡ₚ qa ++ qf ++ qu ++ qd -> desc_inv s all -> ring_inv s qa qf qu qd F U -> proc_inv (g <| vs := s |>) all ->
  wake_inv (deliver (g <| vs := s |>)) all qd -> vinv (deliver (g <| vs := s |>)) all qa qf qu qd F U.
Proof.
  intros H1 H2 D R P W. split; [done|done|by apply (desc_inv_frame s)|split; apply R|by apply (proc_inv_frame (g <| vs := s |>))|done].
Qed.

Lemma rp_nodup g l : NoDup (descs l) -> (forall r, r ∈ l -> vprocs g (rp r) = WaitIO (rb r) (rw r) (r0 r)) -> NoDup (rp <$> l).
Proof.
  induction l as [|r l IH]; intros Hnd H; cbn [fmap list_fmap]; [constructor|]. cbn [descs] in Hnd.
  apply NoDup_app in Hnd as (_ & N2 & N3). apply NoDup_cons. split; [|apply IH; [done|]; intros; apply H; by right].
  intros (r' & E & Hr')%list_elem_of_fmap. pose proof (H r ltac:(by left)) as H1. pose proof (H r' ltac:(by right)) as H2.
  rewrite E in H1. rewrite H1 in H2. injection H2 as _ _ E0. apply (N2 (r0 r)); [by left|].
  rewrite in_descs. exists r'. split; [done|]. rewrite E0. by left.
Qed.

Lemma rp_inj g all r r' : desc_inv (vs g) all -> proc_inv g all -> r ∈ all -> r' ∈ all -> rp r = rp r' -> r = r'.
Proof.
  intros D P Hr Hr' E. assert (Hnd : NoDup (rp <$> all)) by (apply (rp_nodup g); [apply D|apply P]).
  apply list_elem_of_lookup in Hr as [i Hi], Hr' as [j Hj]. assert (i = j) as ->; [|congruence].
  eapply NoDup_lookup; [exact Hnd|by rewrite list_lookup_fmap, Hi|rewrite list_lookup_fmap, Hj; cbn; by rewrite E].
Qed.

(** *** The device takes a request *)

Lemma fetch_step g all qa qf qu qd F U :
  vinv g all qa qf qu qd F U ->
  exists g' F', let qa' := tail qa in let qf' := qf ++ firstn 1 qa in
    perform device_exec Fetch g = Ok tt g' /\ vinv g' all qa' qf' qu qd F' U /\ vprocs g' = vprocs g /\
    (forall a, arel g qa qf a -> arel g' qa' qf' a).
Proof.
  intros I. pose proof (vi_ring _ _ _ _ _ _ _ _ I) as R. pose proof (ri_nonneg _ _ _ _ _ _ _ R) as [HF HU].
  assert (Ef : dev_fetch (vs g) = if u16 F =? u16 (F + Z.of_nat (length qa)) then Ok tt (vs g) else
     Ok tt ((vs g) <| dev_flight := dev_flight (vs g) ++ [avail (vs g) (2 + F mod NUM)] |> <| dev_seen := u16 (F + 1) |>)).
  { unfold dev_fetch, bind, gets. rewrite (ri_seen _ _ _ _ _ _ _ R), (ri_avail _ _ _ _ _ _ _ R).
    destruct (_ =? _); [done|]. unfold modify. by rewrite (ri_seen _ _ _ _ _ _ _ R), u16_mod, u16_succ by done. }
  destruct (Z.eqb_spec (u16 F) (u16 (F + Z.of_nat (length qa)))) as [E|E].
  { assert (qa = []) as ->.
    { pose proof (few_requests _ _ (vi_desc _ _ _ _ _ _ _ _ I)) as Hfew. rewrite (vi_perm _ _ _ _ _ _ _ _ I), length_app in Hfew.
      destruct qa as [|r qa]; [done|]. exfalso. revert E. cbn [length] in *. unfold u16. Z.to_euclidean_division_equations; lia. }
    eexists _, F. cbn [tail firstn]. rewrite app_nil_r. split; [by apply on_disk_ok|]. split; [|split; [done|]].
    - apply vinv_deliver; try apply I; [apply (proc_inv_frame g); [apply I|done..]|apply wake_inv_deliver, I].
    - intros a A. split; apply A. }
  apply u16_differ in E; [|done]. destruct qa as [|r qa]; [done|].
  pose proof (ri_queued _ _ _ _ _ _ _ R 0%nat r eq_refl) as Eq. rewrite Z.add_0_r in Eq. rewrite Eq in Ef.
  eexists _, (F + 1). cbn [tail firstn]. split; [by apply on_disk_ok|]. split; [|split; [done|]].
  - apply vinv_deliver; [apply I| |apply (desc_inv_frame (vs g)); [apply I|done..]| |apply (proc_inv_frame g); [apply I|done..]|apply wake_inv_deliver, I].
    + rewrite (vi_perm _ _ _ _ _ _ _ _ I). cbn [app]. rewrite <- !app_assoc. cbn [app]. by rewrite <- !Permutation_middle.
    + split; try apply R.
      * lia.
      * cbn -[Z.of_nat]. rewrite (ri_avail _ _ _ _ _ _ _ R). cbn [length]. f_equal. lia.
      * intros k r' Hk. replace (F + 1 + Z.of_nat k) with (F + Z.of_nat (S k)) by lia. exact (ri_queued _ _ _ _ _ _ _ R (S k) r' Hk).
      * done.
      * cbn. by rewrite (ri_flight _ _ _ _ _ _ _ R), fmap_app.
      * intros r' Hr'. apply (ri_busy _ _ _ _ _ _ _ R). set_solver.
  - intros a A. split; try apply A. intros p. rewrite (ar_pc _ _ _ _ A). symmetry. apply apc_of_ext; [done|]. cbn. set_solver.
Qed.

(** *** The device finishes a request *)

Lemma disk_read_length f x n : length (disk_read f x n) = Z.to_nat n.
Proof. unfold disk_read. by rewrite length_fmap, length_zseq. Qed.

Lemma mod_apart U i j : (i < j)%nat -> (j < 8)%nat -> (U + Z.of_nat i) mod NUM <> (U + Z.of_nat j) mod NUM.
Proof. intros. unfold NUM. Z.to_euclidean_division_equations; lia. Qed.

(** What the device does to a request is the transfer of the abstract disk. *)
Lemma device_transfer g all r a :
  desc_inv (vs g) all -> proc_inv g all -> r ∈ all ->
  a_bytes a = dev_bytes (vs g) -> a_blockno a = b_blockno (vs g) -> a_data a = b_data (vs g) ->
  let s' := device_exec (r0 r) (vs g) in let a' := transfer a (rb r) (rw r) in
  s' = (vs g) <| b_data := a_data a' |> <| dev_bytes := a_bytes a' |> <| info_status := upd (info_status (vs g)) (r0 r) 0 |> /\
  forall b, length (b_data (vs g) b) = Z.to_nat BSIZE -> length (a_data a' b) = Z.to_nat BSIZE.
Proof.
  intros D P Hr E1 E2 E3 s' a'. destruct (di_chain _ _ D r Hr) as (H1 & H2 & H3 & H4 & _).
  assert (Hl : length (b_data (vs g) (rb r)) = Z.to_nat BSIZE).
  { apply (pi_len _ _ P (rp r)). by rewrite (pi_own _ _ P r Hr). }
  unfold s', a', transfer. destruct (rw r).
  - rewrite (dev_out _ HD _ _ _ _ _ _ _ _ _ H1 H2 H3 H4). rewrite firstn_all2 by (rewrite Hl; done).
    replace (b_blockno (vs g) (rb r) * 2 * 512) with (b_blockno (vs g) (rb r) * BSIZE) by (unfold BSIZE; lia).
    cbn [a_bytes a_data]. rewrite E1, E2, E3. split; [|done]. by destruct (vs g).
  - rewrite (dev_in _ HD _ _ _ _ _ _ _ _ _ H1 H2 H3 H4).
    replace (b_blockno (vs g) (rb r) * 2 * 512) with (b_blockno (vs g) (rb r) * BSIZE) by (unfold BSIZE; lia).
    cbn [a_bytes a_data]. rewrite E1, E2, E3. split; [by destruct (vs g)|].
    intros b Hb. destruct (Z.eq_dec b (rb r)) as [->|]; [rewrite upd_same; apply disk_read_length|by rewrite upd_other].
Qed.

Lemma list_delete_none {A} (l : list A) k : l !! k = None -> delete k l = l.
Proof. revert k. induction l as [|x l IH]; intros [|k] H; cbn in *; try done. f_equal. by apply IH. Qed.

Lemma complete_perm (qa qf qu qd q' : list req) r : qf ≡ₚ r :: q' -> qa ++ qf ++ qu ++ qd ≡ₚ qa ++ q' ++ (qu ++ [r]) ++ qd.
Proof. intros ->. cbn [app]. rewrite <- !app_assoc. cbn [app]. by rewrite <- !Permutation_middle. Qed.

Lemma complete_step g all qa qf qu qd F U k a :
  vinv g all qa qf qu qd F U -> arel g qa qf a ->
  exists g' a', let qf' := delete k qf in let qu' := match qf !! k with Some r => qu ++ [r] | None => qu end in
    perform device_exec (Complete k) g = Ok tt g' /\ vinv g' all qa qf' qu' qd F U /\ arel g' qa qf' a' /\
    vprocs g' = vprocs g /\ (a' = a \/ exists p b write, a_pc a p = APending b write /\ a' = set_apc (transfer a b write) p (ADone b write)).
Proof.
  intros I A. pose proof (vi_ring _ _ _ _ _ _ _ _ I) as R. pose proof (ri_nonneg _ _ _ _ _ _ _ R) as [HF HU].
  unfold perform. pose proof (ri_flight _ _ _ _ _ _ _ R) as Hfl.
  assert (Ec : forall o, r0 <$> (qf !! k) = o -> dev_complete device_exec k (vs g) = match o with None => ret tt | Some i =>
     modify (device_exec i) ;; modify (fun s => s <| used_elems := upd (used_elems s) (used_id s mod NUM) i |> <| used_id := u16 (used_id s + 1) |>
                         <| dev_flight := delete k (dev_flight s) |>) end (vs g)).
  { intros o <-. unfold dev_complete. rewrite (bind_Ok (gets _) _ (vs g) (dev_flight (vs g)) (vs g)) by done. by rewrite Hfl, list_lookup_fmap. }
  destruct (qf !! k) as [r|] eqn:Ek; cbn [fmap option_fmap option_map] in Ec; specialize (Ec _ eq_refl); cbv beta iota in Ec.
  2: { eexists _, a. cbv zeta. rewrite (list_delete_none qf k Ek). split; [by apply on_disk_ok|]. split_and!; [|split; apply A|done|by left].
       apply vinv_deliver; try apply I; [apply (proc_inv_frame g); [apply I|done..]|apply wake_inv_deliver, I]. }
  pose proof (delete_Permutation _ _ _ Ek) as Hp. assert (Hqf : r ∈ qf) by (by eapply list_elem_of_lookup_2).
  pose proof (vi_perm _ _ _ _ _ _ _ _ I) as Hperm. assert (Hr : r ∈ all) by (rewrite Hperm; set_solver).
  pose proof (vi_desc _ _ _ _ _ _ _ _ I) as D. pose proof (vi_proc _ _ _ _ _ _ _ _ I) as P. pose proof (pi_own _ _ P r Hr) as Hown.
  destruct (device_transfer g all r a D P Hr (ar_bytes _ _ _ _ A) (ar_blockno _ _ _ _ A) (ar_data _ _ _ _ A)) as [Es Hlen].
  set (a' := transfer a (rb r) (rw r)) in *.
  set (s1 := (vs g) <| b_data := a_data a' |> <| dev_bytes := a_bytes a' |> <| info_status := upd (info_status (vs g)) (r0 r) 0 |>) in *.
  rewrite (bind_Ok (modify _) _ (vs g) tt s1) in Ec by (unfold modify; by rewrite Es). unfold modify in Ec.
  change (used_id s1) with (used_id (vs g)) in Ec. rewrite (ri_used _ _ _ _ _ _ _ R), u16_mod, u16_succ in Ec by lia.
  pose proof (few_requests _ _ D) as Hfew. rewrite Hperm, !length_app in Hfew.
  eexists _, (set_apc a' (rp r) (ADone (rb r) (rw r))). split; [apply (on_disk_ok _ _ _ _ Ec)|]. split_and!.
  - apply vinv_deliver.
    + apply I.
    + etrans; [exact Hperm|]. apply (complete_perm qa qf qu qd (delete k qf) r Hp).
    + apply (desc_inv_frame (vs g)); try done. intros i Hi. cbn. destruct (Z.eq_dec i (r0 r)) as [->|]; [by rewrite upd_same|by rewrite upd_other].
    + split; try apply R; cbn -[Z.modulo Z.of_nat].
      * by rewrite (ri_flight _ _ _ _ _ _ _ R), list_fmap_delete.
      * f_equal. rewrite length_app. cbn [length]. lia.
      * intros j r' Hj. destruct (decide (j < length qu)%nat) as [Hlt|Hge].
        -- rewrite upd_other by (apply mod_apart; lia). apply (ri_elems _ _ _ _ _ _ _ R). by rewrite lookup_app_l in Hj by lia.
        -- rewrite lookup_app_r in Hj by lia. destruct (j - length qu)%nat as [|n] eqn:Ej; [|done]. injection Hj as <-.
           replace j with (length qu) by lia. apply upd_same.
      * intros r' Hr'. apply (ri_busy _ _ _ _ _ _ _ R). rewrite !elem_of_app in *. rewrite (elem_of_Permutation_proper r' _ _ Hp). set_solver.
    + apply (proc_inv_frame g); done.
    + apply wake_inv_deliver, I.
  - split; cbn; try done.
    + unfold a'. by destruct (rw r); cbn; apply A.
    + intros p. assert (Hnd : NoDup (rp <$> (qa ++ r :: delete k qf))).
      { apply (rp_nodup g); [|intros r' Hr'; apply P; rewrite Hperm; rewrite !elem_of_app, elem_of_cons in *; rewrite (elem_of_Permutation_proper r' _ _ Hp); set_solver].
        pose proof (di_nodup _ _ D) as Hn. rewrite Hperm, (app_assoc qa), descs_app in Hn. apply NoDup_app in Hn as (Hn & _).
        rewrite (Permutation_app_head qa Hp) in Hn. done. }
      rewrite fmap_app in Hnd. cbn [fmap list_fmap] in Hnd. rewrite <- Permutation_middle in Hnd. apply NoDup_cons in Hnd as [Hni _].
      destruct (Z.eq_dec p (rp r)) as [->|Hne].
      * rewrite upd_same. unfold apc_of. cbn. rewrite Hown, bool_decide_false; [done|]. by rewrite fmap_app.
      * rewrite upd_other by done. unfold a'. replace (a_pc (transfer a (rb r) (rw r)) p) with (a_pc a p) by (by destruct (rw r)).
        rewrite (ar_pc _ _ _ _ A). symmetry. apply apc_of_ext; [done|].
        rewrite !fmap_app, !elem_of_app, (elem_of_Permutation_proper p _ _ (fmap_Permutation rp _ _ Hp)). set_solver.
  - done.
  - right. exists (rp r), (rb r), (rw r). split; [|done]. rewrite (ar_pc _ _ _ _ A). unfold apc_of. rewrite Hown, bool_decide_true; [done|]. set_solver.
Qed.

(** *** The interrupt handler *)

Lemma rb_apart g all r r' : proc_inv g all -> r ∈ all -> r' ∈ all -> rb r = rb r' -> rp r = rp r'.
Proof. intros P H H' E. apply (pi_buf _ _ P _ _ (rb r)); rewrite (pi_own _ _ P) by done; [done|]. by rewrite E. Qed.

Lemma intr_turn_spec g s all qa qf qu qd F U :
  proc_inv g all -> desc_inv s all -> all ≡ₚ qa ++ qf ++ qu ++ qd -> ring_inv s qa qf qu qd F U ->
  match qu with
  | [] => intr_turn tt s = Ok (inr tt) s
  | r :: qu' => exists s', intr_turn tt s = Ok (inl tt) s' /\ desc_inv s' all /\ ring_inv s' qa qf qu' (r :: qd) F (U + 1) /\
      s' = s <| b_disk := b_disk s' |> <| v_wakes := v_wakes s' |> <| used_idx := used_idx s' |> /\ v_wakes s' = disk_chan (rb r) :: v_wakes s
  end.
Proof.
  intros P D Hperm R. pose proof (ri_nonneg _ _ _ _ _ _ _ R) as [HF HU].
  pose proof (few_requests _ _ D) as Hfew. rewrite Hperm, !length_app in Hfew.
  unfold intr_turn. destruct qu as [|r qu].
  { rewrite (bind_Ok (gets _) _ s s s) by done. rewrite (ri_idx _ _ _ _ _ _ _ R), (ri_used _ _ _ _ _ _ _ R), u16_mod by lia.
    cbn [length]. by rewrite Z.add_0_r, Z.mod_mod, Z.eqb_refl by (unfold NUM; lia). }
  rewrite (bind_Ok (gets _) _ s s s) by done.
  pose proof (ri_elems _ _ _ _ _ _ _ R 0%nat r eq_refl) as Eid. rewrite Z.add_0_r in Eid.
  assert (Hr : r ∈ all) by (rewrite Hperm; set_solver). destruct (di_chain _ _ D r Hr) as (_ & _ & _ & _ & Hb & Hst).
  rewrite (ri_idx _ _ _ _ _ _ _ R), Eid, Hst, Hb. rewrite (proj2 (Z.eqb_neq (_ mod NUM) _)).
  2: { rewrite (ri_used _ _ _ _ _ _ _ R), u16_mod, Z.mod_mod by (unfold NUM; lia).
       pose proof (mod_apart U 0 (length (r :: qu)) ltac:(cbn; lia) ltac:(cbn in *; lia)) as Hm. by rewrite Z.add_0_r in Hm. }
  cbn [Z.eqb negb].
  eexists. split; [reflexivity|]. split_and!.
  - apply (desc_inv_frame s); done.
  - assert (Hnd : NoDup (rp <$> (r :: qa ++ qf ++ qu ++ qd))).
    { apply (rp_nodup g).
      - pose proof (di_nodup _ _ D) as Hn. rewrite Hperm in Hn. cbn [app] in Hn. by rewrite <- !Permutation_middle in Hn.
      - intros r' Hr'. apply P. rewrite Hperm. set_solver. }
    cbn [fmap list_fmap] in Hnd. apply NoDup_cons in Hnd as [Hni _].
    split; cbn -[Z.modulo Z.of_nat]; try apply R.
    + lia.
    + rewrite (ri_used _ _ _ _ _ _ _ R). cbn [length]. f_equal. lia.
    + intros k r' Hk. replace (U + 1 + Z.of_nat k) with (U + Z.of_nat (S k)) by lia. exact (ri_elems _ _ _ _ _ _ _ R (S k) r' Hk).
    + rewrite (ri_idx _ _ _ _ _ _ _ R). rewrite Z.add_mod_idemp_l by (unfold NUM; lia). done.
    + intros r' Hr'. rewrite Hb. rewrite upd_other; [apply (ri_busy _ _ _ _ _ _ _ R); set_solver|].
      intros Eb. apply Hni. apply list_elem_of_fmap. exists r'. split; [|set_solver].
      symmetry. apply (rb_apart g all r' r P); [rewrite Hperm; set_solver|done|done].
    + intros r' [->|Hr']%elem_of_cons; [rewrite Hb, upd_same; lia|]. rewrite Hb.
      destruct (Z.eq_dec (rb r') (rb r)) as [->|]; [by rewrite upd_same|rewrite upd_other by done; by apply (ri_done _ _ _ _ _ _ _ R)].
  - by destruct s.
  - done.
Qed.

Definition pending_used (s : vst) : Z := (used_id s - used_idx s) mod NUM.

Lemma pending_used_len s qa qf qu qd F U :
  ring_inv s qa qf qu qd F U -> (length qu <= 2)%nat -> pending_used s = Z.of_nat (length qu).
Proof.
  intros R Hl. pose proof (ri_nonneg _ _ _ _ _ _ _ R) as [HF HU]. unfold pending_used.
  rewrite (ri_used _ _ _ _ _ _ _ R), (ri_idx _ _ _ _ _ _ _ R). rewrite Zminus_mod, u16_mod, Z.mod_mod by (unfold NUM; lia).
  rewrite <- Zminus_mod. unfold NUM. rewrite Z.add_simpl_l. apply Z.mod_small. lia.
Qed.

Lemma intr_loop g s all qa qf qu qd F U :
  proc_inv g all -> desc_inv s all -> all ≡ₚ qa ++ qf ++ qu ++ qd -> ring_inv s qa qf qu qd F U ->
  wp (while_ intr_turn tt) (fun _ s' => exists qd' U', desc_inv s' all /\ all ≡ₚ qa ++ qf ++ qd' /\ ring_inv s' qa qf [] qd' F U' /\
    s' = s <| b_disk := b_disk s' |> <| v_wakes := v_wakes s' |> <| used_idx := used_idx s' |> /\
    qd' ≡ₚ qu ++ qd /\ forall r, r ∈ qu -> disk_chan (rb r) ∈ v_wakes s') s.
Proof.
  intros P D Hperm R. rename qu into qu0, qd into qd0. apply (wp_while_st intr_turn
    (fun _ s' => exists qu qd U, desc_inv s' all /\ all ≡ₚ qa ++ qf ++ qu ++ qd /\ ring_inv s' qa qf qu qd F U /\
      s' = s <| b_disk := b_disk s' |> <| v_wakes := v_wakes s' |> <| used_idx := used_idx s' |> /\
      qu ++ qd ≡ₚ qu0 ++ qd0 /\ forall r, r ∈ qu0 -> r ∈ qu \/ disk_chan (rb r) ∈ v_wakes s') _ (fun _ s => pending_used s)).
  - clear D Hperm R U. intros [] s' (qu & qd & U & D & Hperm & R & Es & Hq & Hw).
    pose proof (few_requests _ _ D) as Hfew. rewrite Hperm, !length_app in Hfew.
    pose proof (intr_turn_spec g s' all qa qf qu qd F U P D Hperm R) as Ht. destruct qu as [|r qu].
    + apply wp_Ok. eexists _, _. split; [exact Ht|]. exists qd, U. split_and!; auto. intros r Hr. destruct (Hw r Hr) as [?%elem_of_nil|]; done.
    + destruct Ht as (s2 & E2 & D2 & R2 & Es2 & Ew). apply wp_Ok. eexists _, _. split; [exact E2|]. split.
      * exists qu, (r :: qd), (U + 1). split_and!; auto.
        -- rewrite Hperm. cbn [app]. by rewrite <- !Permutation_middle.
        -- rewrite Es2, Es. done.
        -- rewrite <- Hq. by rewrite <- Permutation_middle.
        -- intros r' Hr'. rewrite Ew. destruct (Hw r' Hr') as [[->|?]%elem_of_cons|?]; [right; by left|by left|right; by right].
      * rewrite (pending_used_len _ _ _ _ _ _ _ R2), (pending_used_len _ _ _ _ _ _ _ R) by (cbn [length] in *; lia). cbn [length]. lia.
  - exists qu0, qd0, U. split_and!; auto. by destruct s.
  - intros _ s' _. apply Z.mod_pos_bound. unfold NUM. lia.
  - pose proof (Z.mod_pos_bound (used_id s - used_idx s) NUM) as H. unfold pending_used, NUM in *. lia.
Qed.

Lemma intr_step g all qa qf qu qd F U :
  vinv g all qa qf qu qd F U ->
  exists g' qd' U', perform device_exec Intr g = Ok tt g' /\ vinv g' all qa qf [] qd' F U' /\ vprocs g' = vprocs g /\
    (forall a, arel g qa qf a -> arel g' qa qf a) /\ qd' ≡ₚ qu ++ qd.
Proof.
  intros I. pose proof (vi_ring _ _ _ _ _ _ _ _ I) as R. pose proof (vi_desc _ _ _ _ _ _ _ _ I) as D.
  pose proof (vi_proc _ _ _ _ _ _ _ _ I) as P. set (s1 := (vs g) <| vdisk_lock := true |>).
  assert (D1 : desc_inv s1 all) by (by apply (desc_inv_frame (vs g))).
  assert (R1 : ring_inv s1 qa qf qu qd F U) by (split; apply R).
  destruct (proj1 (wp_Ok _ _ _) (intr_loop g s1 all qa qf qu qd F U P D1 (vi_perm _ _ _ _ _ _ _ _ I) R1))
    as ([] & s2 & E2 & qd' & U' & D2 & Hp2 & R2 & Es2 & Hq & Hw).
  set (s3 := s2 <| vdisk_lock := false |>).
  assert (Ei : virtio_disk_intr (vs g) = Ok tt s3).
  { unfold virtio_disk_intr. unfold acquire at 1, bind at 1. rewrite (vi_lock _ _ _ _ _ _ _ _ I).
    fold s1. rewrite (bind_Ok _ _ _ _ _ E2). unfold release.
    assert (Hlk : vdisk_lock s2 = true) by (by rewrite Es2). by rewrite Hlk. }
  exists (deliver (g <| vs := s3 |>)), qd', U'. split; [by apply on_disk_ok|]. split_and!; [|done| |done].
  - apply vinv_deliver; [done|done|by apply (desc_inv_frame s2)|split; apply R2| |].
    + apply (proc_inv_frame g); [done|done| |]; cbn; rewrite Es2; done.
    + destruct (wake_inv_deliver g s3 all qd (vi_wake _ _ _ _ _ _ _ _ I)) as [W1 W2 W3]. split; [|done|done].
      intros r Hr. rewrite Hq in Hr. apply elem_of_app in Hr as [Hr|Hr]; [|by apply W1].
      apply (deliver_chan _ _ (disk_chan (rb r))); [by apply Hw|]. cbn [vprocs field_update].
      change (vprocs (g <| vs := s3 |>)) with (vprocs g). rewrite (pi_own _ _ P); [done|]. rewrite (vi_perm _ _ _ _ _ _ _ _ I). set_solver.
  - intros a A. split; cbn; rewrite Es2; apply A.
Qed.

(** *** A request is submitted *)

(** The part of the state that formatting and queueing leave alone. *)
Definition rest_of (s : vst) := (free s, used_id s, used_elems s, used_idx s, vdisk_lock s, b_blockno s, b_data s, dev_seen s, dev_flight s, dev_bytes s).

Definition work_of (s : vst) := (v_hdr s, info_b s, info_status s, b_disk s, avail s).

Lemma set_desc_spec i f Q s :
  (forall s', rest_of s' = rest_of s -> work_of s' = work_of s -> desc s' = upd (desc s) i (f (desc s i)) -> Q tt s') ->
  wp (set_desc i f) Q s.
Proof. intros H. apply H; done. Qed.

Lemma modify_hdr_spec (f : vst -> Z -> virtio_blk_outhdr) Q s :
  (forall s', rest_of s' = rest_of s -> work_of s' = (f s, info_b s, info_status s, b_disk s, avail s) -> desc s' = desc s -> Q tt s') ->
  wp (modify (fun s => s <| v_hdr := f s |>)) Q s.
Proof. intros H. apply H; done. Qed.

Lemma modify_status_spec (f : vst -> Z -> Z) Q s :
  (forall s', rest_of s' = rest_of s -> work_of s' = (v_hdr s, info_b s, f s, b_disk s, avail s) -> desc s' = desc s -> Q tt s') ->
  wp (modify (fun s => s <| info_status := f s |>)) Q s.
Proof. intros H. apply H; done. Qed.

Lemma rw_format_spec p b w i0 i1 i2 s :
  NoDup [i0; i1; i2] -> 0 <= b_blockno s b < 2 ^ 31 ->
  wp (rw_format p b w i0 i1 i2) (fun _ s' => rest_of s' = rest_of s /\
    work_of s' = (upd (v_hdr s) p (Hdr (if w then VIRTIO_BLK_T_OUT else VIRTIO_BLK_T_IN) 0 (b_blockno s b * 2)),
                  info_b s, upd (info_status s) i0 0, b_disk s, avail s) /\
    desc s' i0 = Desc (HdrA p) 16 VRING_DESC_F_NEXT i1 /\
    desc s' i1 = Desc (DataA b) BSIZE (if w then VRING_DESC_F_NEXT else Z.lor VRING_DESC_F_WRITE VRING_DESC_F_NEXT) i2 /\
    desc s' i2 = Desc (StatusA i0) 1 VRING_DESC_F_WRITE 0 /\
    (forall i, i ∉ [i0; i1; i2] -> desc s' i = desc s i)) s.
Proof.
  intros Hnd Hb. apply NoDup_cons in Hnd as [N0 Hnd]. apply NoDup_cons in Hnd as [N1 _].
  assert (i0 <> i1 /\ i0 <> i2 /\ i1 <> i2) as (D1 & D2 & D3) by set_solver.
  unfold rw_format. apply wp_gets. unfold u32. rewrite Z.mod_small by (change (BSIZE / 512) with 2; lia). change (BSIZE / 512) with 2.
  apply wp_bind, modify_hdr_spec. intros s1 R1 W1 E1. apply wp_bind, set_desc_spec. intros s2 R2 W2 E2.
  apply wp_bind, set_desc_spec. intros s3 R3 W3 E3. apply wp_bind, set_desc_spec. intros s4 R4 W4 E4.
  apply wp_bind, modify_status_spec. intros s5 R5 W5 E5. apply set_desc_spec. intros s6 R6 W6 E6.
  split; [congruence|]. split.
  { rewrite W6, W5. injection W4 as -> -> -> -> ->. injection W3 as -> -> -> -> ->. injection W2 as -> -> -> -> ->.
    injection W1 as -> -> -> -> ->. done. }
  rewrite E6, E5, E4, E3, E2, E1. split_and!.
  - rewrite (upd_other _ i2), (upd_other _ i1), (upd_other _ i1), upd_same by done. done.
  - rewrite (upd_other _ i2), !upd_same by done. destruct w; done.
  - rewrite upd_same. done.
  - intros i Hi. rewrite !not_elem_of_cons in Hi. rewrite !upd_other by tauto. done.
Qed.

Lemma rw_queue_spec b i0 s :
  exists s', rw_queue b i0 s = Ok tt s' /\ rest_of s' = rest_of s /\ desc s' = desc s /\ v_hdr s' = v_hdr s /\ info_status s' = info_status s /\
    info_b s' = upd (info_b s) i0 b /\ b_disk s' = upd (b_disk s) b 1 /\
    avail s' 1 = u16 (avail s 1 + 1) /\ avail s' (2 + avail s 1 mod NUM) = i0 /\
    (forall x, 2 <= x -> x <> 2 + avail s 1 mod NUM -> avail s' x = avail s x).
Proof.
  pose proof (Z.mod_pos_bound (avail s 1) NUM ltac:(unfold NUM; lia)) as Hm.
  eexists. split; [reflexivity|]. split_and!; try done; cbn -[Z.modulo].
  - by rewrite upd_same, upd_other by lia.
  - by rewrite upd_other, upd_same by lia.
  - intros x H1 H2. by rewrite !upd_other by lia.
Qed.

Lemma rw_alloc_spec p b w s :
  0 <= b_blockno s b < 2 ^ 31 ->
  (exists s', rw_alloc p b w s = Ok None s' /\ idle_change s s' /\ scarce s 3) \/
  (exists r s', rw_alloc p b w s = Ok (Some (r0 r)) s' /\ rp r = p /\ rb r = b /\ rw r = w /\ NoDup (rdescs r) /\
    (forall i, i ∈ rdescs r -> 0 <= i < NUM /\ free s i = true) /\ (forall i, free s' i = if decide (i ∈ rdescs r) then false else free s i) /\
    chain s' r /\ (forall i, i ∉ rdescs r -> desc s' i = desc s i) /\ (forall q, q <> p -> v_hdr s' q = v_hdr s q) /\
    (forall i, i <> r0 r -> info_b s' i = info_b s i /\ info_status s' i = info_status s i) /\
    b_disk s' = upd (b_disk s) b 1 /\ avail s' 1 = u16 (avail s 1 + 1) /\ avail s' (2 + avail s 1 mod NUM) = r0 r /\
    (forall x, 2 <= x -> x <> 2 + avail s 1 mod NUM -> avail s' x = avail s x) /\
    (used_id s', used_elems s', used_idx s', vdisk_lock s', b_blockno s', b_data s', dev_seen s', dev_flight s', dev_bytes s') =
    (used_id s, used_elems s, used_idx s, vdisk_lock s, b_blockno s, b_data s, dev_seen s, dev_flight s, dev_bytes s)).
Proof.
  intros Hb. unfold rw_alloc. destruct (alloc3_desc_spec s) as [(s' & E & H)|(i0 & i1 & i2 & f & E & Hnd & Hfr & Hf)].
  - left. exists s'. rewrite (bind_Ok _ _ _ _ _ E). done.
  - right. rewrite (bind_Ok _ _ _ _ _ E). set (s1 := s <| free := f |>) in *.
    destruct (proj1 (wp_Ok _ _ _) (rw_format_spec p b w i0 i1 i2 s1 Hnd Hb)) as ([] & s2 & E2 & R2 & W2 & C0 & C1 & C2 & C3).
    destruct (rw_queue_spec b i0 s2) as (s' & E' & R' & G1 & G2 & G3 & G4 & G5 & G6 & G7 & G8).
    exists (Req p b w i0 i1 i2), s'. rewrite (bind_Ok _ _ _ _ _ E2), (bind_Ok _ _ _ _ _ E').
    rewrite R2 in R'. injection R' as Q0 Q1 Q2 Q3 Q4 Q5 Q6 Q7 Q8 Q9. injection W2 as W1 W2 W3 W4 W5.
    rewrite W5 in G6, G7, G8. rewrite W4 in G5. rewrite W2 in G4. rewrite W3 in G3. rewrite W1 in G2.
    unfold chain, rdescs. cbn [rp rb rw r0 r1 r2]. rewrite G1, G2, G3, G4.
    split_and!; auto.
    + intros i. rewrite Q0. apply Hf.
    + rewrite upd_same, Q5. done.
    + by rewrite upd_same.
    + by rewrite upd_same.
    + intros q Hq. by rewrite upd_other.
    + intros i Hi. by rewrite !upd_other.
    + rewrite Q1, Q2, Q3, Q4, Q5, Q6, Q7, Q8, Q9. done.
Qed.

(** A process starts to wait, with the request [new] or without. *)
Lemma proc_inv_wait g g' all p b c (new : list req) :
  proc_inv g all -> vprocs g' = upd (vprocs g) p c -> b_data (vs g') = b_data (vs g) -> b_blockno (vs g') = b_blockno (vs g) ->
  (forall r, r ∈ all -> rp r <> p) -> (forall q, q <> p -> pc_buf (vprocs g q) <> Some b) ->
  length (b_data (vs g) b) = Z.to_nat BSIZE -> 0 <= b_blockno (vs g) b < 2 ^ 31 -> pc_buf c = Some b ->
  (forall r, r ∈ new -> rp r = p /\ c = WaitIO (rb r) (rw r) (r0 r)) -> (forall b w i, c = WaitIO b w i -> exists r, r ∈ new) ->
  proc_inv g' (new ++ all).
Proof.
  intros P E1 E2 E3 Hp Hb Hl Hk Hc Hn Hn2. split; rewrite ?E1, ?E2, ?E3.
  - intros r [Hr|Hr]%elem_of_app; [destruct (Hn r Hr) as [-> ->]; apply upd_same|]. rewrite upd_other by auto. by apply P.
  - intros q b' w' i. destruct (Z.eq_dec q p) as [->|Hne].
    + rewrite upd_same. intros Ec. destruct (Hn2 _ _ _ Ec) as (r & Hr). exists r. split; [set_solver|by apply Hn].
    + rewrite upd_other by done. intros H. destruct (pi_has _ _ P _ _ _ _ H) as (r & Hr & E). exists r. split; [set_solver|done].
  - intros q q' b'. destruct (Z.eq_dec q p) as [->|Hne], (Z.eq_dec q' p) as [->|Hne']; rewrite ?upd_same, ?upd_other by done; try done.
    + intros H1 H2. rewrite Hc in H1. injection H1 as <-. by destruct (Hb q' Hne').
    + intros H1 H2. rewrite Hc in H2. injection H2 as <-. by destruct (Hb q Hne).
    + apply P.
  - intros q b'. destruct (Z.eq_dec q p) as [->|Hne]; [rewrite upd_same, Hc; intros [= <-]; auto|]. rewrite upd_other by done. apply P.
Qed.

Lemma idle_change_inv s s' all qa qf qu qd F U :
  idle_change s s' -> desc_inv s all -> ring_inv s qa qf qu qd F U -> desc_inv s' all /\ ring_inv s' qa qf qu qd F U.
Proof.
  intros [Es Ef Ed] D R. split.
  - split; try apply D.
    + intros i. rewrite Ef. apply D.
    + intros r Hr. assert (Hin : forall i, i ∈ rdescs r -> desc s' i = desc s i).
      { intros i Hi. apply Ed. assert (Hd : i ∈ descs all) by (apply in_descs; eauto).
        destruct (free s i) eqn:E; [|done]. apply (di_free _ _ D) in E; [done|by apply (di_range _ _ D)]. }
      destruct (di_chain _ _ D r Hr) as (H1 & H2 & H3 & H4 & H5 & H6). unfold chain.
      rewrite (Hin (r0 r)), (Hin (r1 r)), (Hin (r2 r)) by (unfold rdescs; set_solver).
      rewrite Es. split_and!; done.
  - rewrite Es. split; apply R.
Qed.

(** The state after a request has been added. *)
Lemma submit_inv s s' all qa qf qu qd F U r :
  desc_inv s all -> ring_inv s qa qf qu qd F U -> all ≡ₚ qa ++ qf ++ qu ++ qd ->
  (forall r', r' ∈ all -> rp r' <> rp r /\ rb r' <> rb r) -> NoDup (rdescs r) -> (forall i, i ∈ rdescs r -> 0 <= i < NUM /\ free s i = true) ->
  (forall i, free s' i = if decide (i ∈ rdescs r) then false else free s i) ->
  chain s' r -> (forall i, i ∉ rdescs r -> desc s' i = desc s i) -> (forall q, q <> rp r -> v_hdr s' q = v_hdr s q) ->
  (forall i, i <> r0 r -> info_b s' i = info_b s i /\ info_status s' i = info_status s i) ->
  b_disk s' = upd (b_disk s) (rb r) 1 -> avail s' 1 = u16 (avail s 1 + 1) -> avail s' (2 + avail s 1 mod NUM) = r0 r ->
  (forall x, 2 <= x -> x <> 2 + avail s 1 mod NUM -> avail s' x = avail s x) ->
  (used_id s', used_elems s', used_idx s', vdisk_lock s', b_blockno s', b_data s', dev_seen s', dev_flight s', dev_bytes s') =
  (used_id s, used_elems s, used_idx s, vdisk_lock s, b_blockno s, b_data s, dev_seen s, dev_flight s, dev_bytes s) ->
  desc_inv s' (r :: all) /\ ring_inv s' (qa ++ [r]) qf qu qd F U.
Proof.
  intros D R Hperm Hne Hnd Hfr Hf Hc Hd Hh Hi Hbd Ha1 Ha2 Ha3 Q. injection Q as Q1 Q2 Q3 Q4 Q5 Q6 Q7 Q8 Q9.
  assert (Hnew : forall i, i ∈ rdescs r -> i ∉ descs all).
  { intros i Hir. apply (di_free _ _ D); [by apply Hfr|by apply Hfr]. }
  pose proof (ri_nonneg _ _ _ _ _ _ _ R) as [HF HU]. pose proof (few_requests _ _ D) as Hfew. rewrite Hperm, !length_app in Hfew. split.
  - split.
    + cbn [descs]. apply NoDup_app. split; [done|]. split; [done|apply D].
    + intros i. cbn [descs]. intros [H|H]%elem_of_app; [by apply Hfr|by apply (di_range _ _ D)].
    + intros i Hr. cbn [descs]. rewrite Hf, elem_of_app. case_decide as Hin; [split; [done|tauto]|]. rewrite (di_free _ _ D i Hr). tauto.
    + intros r' [->|Hr']%elem_of_cons; [done|]. destruct (di_chain _ _ D r' Hr') as (H1 & H2 & H3 & H4 & H5 & H6).
      assert (Hin : forall i, i ∈ rdescs r' -> desc s' i = desc s i /\ i <> r0 r).
      { intros i Hir. assert (i ∈ descs all) by (apply in_descs; eauto). split; [apply Hd; intros ?; by apply (Hnew i)|].
        intros ->. apply (Hnew (r0 r)); [by left|done]. }
      unfold chain. rewrite (proj1 (Hin (r0 r') ltac:(by left))), (proj1 (Hin (r1 r') ltac:(right; by left))),
        (proj1 (Hin (r2 r') ltac:(right; right; by left))).
      rewrite Hh by (by apply Hne). destruct (Hi (r0 r')) as [-> ->]; [apply Hin; by left|]. rewrite Q5. split_and!; done.
  - assert (Eav : avail s 1 mod NUM = (F + Z.of_nat (length qa)) mod NUM) by (rewrite (ri_avail _ _ _ _ _ _ _ R); apply u16_mod; lia).
    split; rewrite ?Q1, ?Q2, ?Q3, ?Q7, ?Q8; try apply R.
    + rewrite Ha1, (ri_avail _ _ _ _ _ _ _ R), u16_succ. f_equal. rewrite length_app. cbn [length]. lia.
    + intros k r' Hk. destruct (decide (k < length qa)%nat) as [Hlt|Hge].
      * rewrite lookup_app_l in Hk by done. rewrite Ha3, (ri_queued _ _ _ _ _ _ _ R k r' Hk); [done|..].
        -- pose proof (Z.mod_pos_bound (F + Z.of_nat k) NUM ltac:(unfold NUM; lia)). lia.
        -- rewrite Eav. pose proof (mod_apart F k (length qa) Hlt ltac:(lia)). lia.
      * rewrite lookup_app_r in Hk by lia. destruct (k - length qa)%nat eqn:Ek; [|done]. injection Hk as <-.
        replace k with (length qa) by lia. rewrite <- Eav. done.
    + intros r' Hr'. rewrite Hbd. rewrite <- app_assoc in Hr'. destruct (decide (r' = r)) as [->|Hn]; [by rewrite upd_same|].
      assert (r' ∈ qa ++ qf ++ qu) by set_solver. assert (r' ∈ all) by (rewrite Hperm; set_solver).
      rewrite upd_other by (by apply Hne). by apply R.
    + intros r' Hr'. rewrite Hbd. rewrite upd_other; [by apply (ri_done _ _ _ _ _ _ _ R)|]. apply Hne. rewrite Hperm. set_solver.
Qed.

Lemma release_ok s : vdisk_lock s = true -> release vdisk_lock s = Ok tt (s <| vdisk_lock := false |>).
Proof. intros H. unfold release. by rewrite H. Qed.

(** Descriptors run out only when two requests have taken six of the eight. *)
Lemma scarce_two s all : desc_inv s all -> scarce s 3 -> (2 <= length all)%nat.
Proof.
  intros D (l & Hl & H). assert (Hle : (length (zseq 0 (Z.to_nat NUM)) <= length (l ++ descs all))%nat).
  { apply submseteq_length, NoDup_submseteq; [apply NoDup_zseq|]. intros i Hi. apply elem_of_zseq in Hi.
    assert (Hi2 : 0 <= i < NUM) by (unfold NUM in *; lia). apply elem_of_app. destruct (decide (i ∈ descs all)); [by right|left].
    apply H; [done|]. by apply (di_free _ _ D). }
  rewrite length_app, descs_length in Hle. change (length (zseq 0 (Z.to_nat NUM))) with 8%nat in Hle. lia.
Qed.

(** [p] releases the lock, and sleeps or returns. *)
Definition parked (g : vsys) (s : vst) (p : Z) (c : vpc) : vsys :=
  let g := deliver ((deliver (g <| vs := s |>)) <| vs := s <| v_wakes := [] |> <| vdisk_lock := false |> |>) in
  g <| vprocs := upd (vprocs g) p c |> <| vwoken := upd (vwoken g) p false |>.

Lemma release_park g s p c : vdisk_lock s = true ->
  (on_disk (release vdisk_lock) ;; set_pc p c) (deliver (g <| vs := s |>)) = Ok tt (parked g s p c).
Proof.
  intros H. rewrite (on_disk_bind _ _ _ tt (s <| v_wakes := [] |> <| vdisk_lock := false |>)); [done|]. by apply release_ok.
Qed.

Lemma parked_more g s p c q : q <> p -> vwoken g q = true -> vwoken (parked g s p c) q = true.
Proof. intros Hq H. cbn [parked vwoken field_update]. unfold parked. cbn -[upd deliver]. rewrite upd_other by done. by apply deliver_more, deliver_more. Qed.

Lemma parked_chan g s p c q ch : q <> p -> ch ∈ v_wakes s -> pc_chan (vprocs g q) = Some ch -> vwoken (parked g s p c) q = true.
Proof. intros Hq H1 H2. unfold parked. cbn -[upd deliver]. rewrite upd_other by done. apply deliver_more. by apply (deliver_chan _ _ ch). Qed.

Lemma parked_idle g s p c q : q <> p -> vprocs g q = VIdle -> vwoken (parked g s p c) q = vwoken g q.
Proof. intros Hq H. unfold parked. cbn -[upd deliver]. rewrite upd_other by done. rewrite deliver_idle by exact H. exact (deliver_idle (g <| vs := s |>) q H). Qed.

Lemma parked_off g s p c : vwoken (parked g s p c) p = false.
Proof. unfold parked. cbn -[upd deliver]. apply upd_same. Qed.

Lemma parked_wake g s p c all all' qd qd' : wake_inv g all qd -> (forall r, r ∈ qd' -> r ∈ qd /\ rp r <> p) ->
  (forall b w, c = WaitDesc b w -> (2 <= length all')%nat) ->
  (length all <= length all')%nat \/ free_chan ∈ v_wakes s -> wake_inv (parked g s p c) all' qd'.
Proof.
  intros [W1 W2 W3] Hqd Hc Hall. split.
  - intros r Hr. destruct (Hqd r Hr). apply parked_more; auto.
  - intros q b w. change (vprocs (parked g s p c)) with (upd (vprocs g) p c). destruct (Z.eq_dec q p) as [->|Hq].
    + rewrite upd_same. intros E. right. by eapply Hc.
    + rewrite upd_other by done. intros E. destruct Hall as [Hall|Hf]; [|left; by apply (parked_chan _ _ _ _ _ free_chan); [..|rewrite E]].
      destruct (W2 q b w E); [left; by apply parked_more|right; lia].
  - intros q. destruct (Z.eq_dec q p) as [->|Hq]; [intros _; apply parked_off|].
    change (vprocs (parked g s p c)) with (upd (vprocs g) p c). rewrite upd_other by done. intros E. rewrite parked_idle by done. by apply W3.
Qed.

(** *** [virtio_disk_rw] from the allocation of descriptors on *)
Lemma try_step g all qa qf qu qd F U p b w :
  vdisk_lock (vs g) = true -> all ≡ₚ qa ++ qf ++ qu ++ qd -> desc_inv (vs g) all -> ring_inv (vs g) qa qf qu qd F U -> proc_inv g all -> wake_inv g all qd ->
  (forall r, r ∈ all -> rp r <> p) -> (forall q, q <> p -> pc_buf (vprocs g q) <> Some b) ->
  length (b_data (vs g) b) = Z.to_nat BSIZE -> 0 <= b_blockno (vs g) b < 2 ^ 31 ->
  exists g' new c, let all' := new ++ all in let qa' := qa ++ new in
    rw_try p b w g = Ok tt g' /\ vinv g' all' qa' qf qu qd F U /\ vprocs g' = upd (vprocs g) p c /\ pc_buf c = Some b /\
    (b_data (vs g'), b_blockno (vs g'), dev_bytes (vs g')) = (b_data (vs g), b_blockno (vs g), dev_bytes (vs g)) /\
    apc_of g' qa' qf p = APending b w /\ (forall q, q <> p -> q ∈ rp <$> (qa ++ qf) <-> q ∈ rp <$> (qa' ++ qf)) /\
    (all = [] -> exists i, c = WaitIO b w i).
Proof.
  intros Hlk Hperm D R P W Hp Hb Hl Hk. unfold rw_try.
  assert (Hqd : forall r, r ∈ qd -> r ∈ qd /\ rp r <> p) by (intros r Hr; split; [done|apply Hp; rewrite Hperm; set_solver]).
  destruct (rw_alloc_spec p b w (vs g) Hk) as [(s' & E & Hid & Hsc)|(r & s' & E & Erp & Erb & Erw & Hnd & Hfr & Hf & Hc & Hd & Hh & Hi & Hbd & Ha1 & Ha2 & Ha3 & Q)];
    rewrite (on_disk_bind _ _ _ _ _ E); cbv beta iota.
  - destruct (idle_change_inv _ _ _ _ _ _ _ _ _ Hid D R) as [D' R']. pose proof (ic_eq _ _ Hid) as Es.
    rewrite release_park by (by rewrite Es). pose proof (scarce_two _ _ D Hsc) as H2.
    eexists _, [], (WaitDesc b w). rewrite app_nil_r. split; [reflexivity|]. split_and!; [|done|done|..].
    + split; [done|done|by apply (desc_inv_frame s')|split; apply R'| |by apply (parked_wake g _ _ _ all _ qd); [..|left; cbn]].
      apply (proc_inv_wait g _ all p b (WaitDesc b w) []); cbn; auto; try (by rewrite Es); [|done]. intros r Hr. by apply elem_of_nil in Hr.
    + cbn. by rewrite Es.
    + unfold apc_of. cbn. by rewrite upd_same.
    + done.
    + intros ->. cbn in H2. lia.
  - subst p b w. unfold rw_wait.
    destruct (submit_inv (vs g) s' all qa qf qu qd F U r D R Hperm) as [D' R']; auto.
    { intros r' Hr'. split; [by apply Hp|]. intros Eb. apply (Hb (rp r')); [by apply Hp|]. by rewrite (pi_own _ _ P r' Hr'), Eb. }
    injection Q as Q1 Q2 Q3 Q4 Q5 Q6 Q7 Q8 Q9. set (g1 := deliver (g <| vs := s' |>)).
    assert (Ef : rw_finish (rb r) (r0 r) (vs g1) = Ok false (vs g1)).
    { unfold rw_finish. rewrite (bind_Ok (gets _) _ (vs g1) 1 (vs g1)) by (unfold gets; cbn; by rewrite Hbd, upd_same). done. }
    rewrite (on_disk_bind _ _ _ false (vs g1)) by exact Ef. cbv iota. rewrite release_park by (cbn; congruence).
    eexists _, [r], (WaitIO (rb r) (rw r) (r0 r)). split; [reflexivity|]. split_and!; [|done|done|..].
    + split; [done| |by apply (desc_inv_frame s')|split; apply R'| |].
      * rewrite <- app_assoc. cbn [app]. rewrite <- Permutation_middle. by f_equiv.
      * apply (proc_inv_wait g _ all (rp r) (rb r) (WaitIO (rb r) (rw r) (r0 r)) [r]); cbn; auto.
        -- by intros r' ->%list_elem_of_singleton.
        -- intros. exists r. by left.
      * apply (parked_wake _ _ _ _ all _ qd); [by apply wake_inv_deliver|done|done|left; cbn; lia].
    + cbn. congruence.
    + unfold apc_of. cbn. rewrite upd_same, bool_decide_true; [done|]. rewrite !fmap_app. set_solver.
    + intros q Hq. rewrite !fmap_app, !elem_of_app. cbn. set_solver.
    + eauto.
Qed.

(** *** A request is finished *)

Definition freed (s : vst) (i : Z) : vst :=
  s <| desc := upd (desc s) i (cleared (desc s i)) |> <| free := upd (free s) i true |> <| v_wakes := free_chan :: v_wakes s |>.

Lemma free_chain_turn_ok s i : i < NUM -> free s i = false ->
  free_chain_turn i s = Ok (if negb (Z.land (d_flags (desc s i)) VRING_DESC_F_NEXT =? 0) then inl (d_next (desc s i)) else inr tt) (freed s i).
Proof.
  intros Hi Hf. unfold free_chain_turn. rewrite (bind_Ok _ _ _ _ _ (free_desc_ok i s Hi Hf)). unfold bind, gets. cbn.
  rewrite upd_same. cbn. destruct (negb _); done.
Qed.

Lemma free_chain_spec s r :
  NoDup (rdescs r) -> (forall i, i ∈ rdescs r -> i < NUM /\ free s i = false) -> 
  d_flags (desc s (r0 r)) = 1 /\ d_next (desc s (r0 r)) = r1 r ->
  Z.land (d_flags (desc s (r1 r))) 1 = 1 /\ d_next (desc s (r1 r)) = r2 r -> Z.land (d_flags (desc s (r2 r))) 1 = 0 ->
  free_chain (r0 r) s = Ok tt (freed (freed (freed s (r0 r)) (r1 r)) (r2 r)).
Proof.
  intros Hnd Hf [H0 H0n] [H1 H1n] H2. unfold rdescs in *.
  apply NoDup_cons in Hnd as [N0 Hnd]. apply NoDup_cons in Hnd as [N1 _].
  assert (r0 r <> r1 r /\ r0 r <> r2 r /\ r1 r <> r2 r) as (D1 & D2 & D3) by (clear -N0 N1; set_solver).
  destruct (Hf (r0 r)) as [L0 F0]; [by left|]. destruct (Hf (r1 r)) as [L1 F1]; [right; by left|].
  destruct (Hf (r2 r)) as [L2 F2]; [right; right; by left|].
  set (s1 := freed s (r0 r)). set (s2 := freed s1 (r1 r)). set (s3 := freed s2 (r2 r)).
  pose proof (free_chain_turn_ok s (r0 r) L0 F0) as T0. rewrite H0, H0n in T0. cbn in T0. fold s1 in T0.
  assert (T1 : free_chain_turn (r1 r) s1 = Ok (inl (r2 r)) s2).
  { rewrite free_chain_turn_ok; [|done|cbn; by rewrite upd_other].
    change (desc s1) with (upd (desc s) (r0 r) (cleared (desc s (r0 r)))). rewrite upd_other by congruence.
    change VRING_DESC_F_NEXT with 1. by rewrite H1, H1n. }
  assert (T2 : free_chain_turn (r2 r) s2 = Ok (inr tt) s3).
  { rewrite free_chain_turn_ok; [|done|cbn; by rewrite !upd_other].
    change (desc s2) with (upd (upd (desc s) (r0 r) (cleared (desc s (r0 r)))) (r1 r) (cleared (desc s1 (r1 r)))).
    rewrite !upd_other by congruence. change VRING_DESC_F_NEXT with 1. by rewrite H2. }
  assert (W : wp (while_ free_chain_turn (r0 r)) (fun _ s' => s' = s3) s).
  { apply (wp_while free_chain_turn (fun i s' => (i = r0 r /\ s' = s) \/ (i = r1 r /\ s' = s1) \/ (i = r2 r /\ s' = s2)) _
      (fun i => if i =? r0 r then 2 else if i =? r1 r then 1 else 0)).
    - intros i s' [[-> ->]|[[-> ->]|[-> ->]]]; apply wp_Ok; eexists _, _; (split; [eassumption|]); [split; [tauto|]..|done].
      + rewrite Z.eqb_refl. rewrite (proj2 (Z.eqb_neq (r1 r) (r0 r))), Z.eqb_refl by congruence. lia.
      + rewrite Z.eqb_refl. rewrite (proj2 (Z.eqb_neq (r1 r) (r0 r))), (proj2 (Z.eqb_neq (r2 r) (r0 r))), (proj2 (Z.eqb_neq (r2 r) (r1 r))) by congruence. lia.
    - tauto.
    - intros i s' _. repeat case_match; lia.
    - repeat case_match; lia. }
  apply wp_Ok in W as ([] & s' & E & ->). exact E.
Qed.

Lemma freed_inv s all rest r (ib : Z -> Z) :
  desc_inv s all -> all ≡ₚ r :: rest -> (forall i, i <> r0 r -> ib i = info_b s i) ->
  desc_inv (freed (freed (freed (s <| info_b := ib |>) (r0 r)) (r1 r)) (r2 r)) rest.
Proof.
  intros D Hp Hib. pose proof (di_nodup _ _ D) as Hnd. rewrite Hp in Hnd. cbn [descs] in Hnd. apply NoDup_app in Hnd as (_ & N2 & N3).
  assert (Hsub : forall i, i ∈ descs rest -> i ∈ descs all) by (intros i Hi; rewrite Hp; cbn [descs]; set_solver).
  split.
  - done.
  - intros i Hi. by apply (di_range _ _ D), Hsub.
  - intros i Hi. cbn. destruct (decide (i ∈ rdescs r)) as [Hin|Hin].
    + split; [intros _; by apply N2|]. intros _. unfold rdescs in Hin. rewrite !elem_of_cons, elem_of_nil in Hin.
      destruct (Z.eq_dec i (r2 r)) as [->|]; [by rewrite upd_same|]. rewrite upd_other by done.
      destruct (Z.eq_dec i (r1 r)) as [->|]; [by rewrite upd_same|]. rewrite upd_other by done.
      destruct (Z.eq_dec i (r0 r)) as [->|]; [by rewrite upd_same|]. tauto.
    + unfold rdescs in Hin. rewrite !not_elem_of_cons in Hin. rewrite !upd_other by tauto. rewrite (di_free _ _ D i Hi), Hp. cbn [descs].
      unfold rdescs. set_solver.
  - intros r' Hr'. assert (Hr2 : r' ∈ all) by (rewrite Hp; by right). destruct (di_chain _ _ D r' Hr2) as (H1 & H2 & H3 & H4 & H5 & H6).
    assert (Hne : forall i, i ∈ rdescs r' -> i <> r0 r /\ i <> r1 r /\ i <> r2 r).
    { intros i Hi. assert (i ∈ descs rest) by (apply in_descs; eauto). split_and!; intros ->; eapply N2; try done; unfold rdescs; set_solver. }
    assert (Hd : forall i, i ∈ rdescs r' -> desc (freed (freed (freed (s <| info_b := ib |>) (r0 r)) (r1 r)) (r2 r)) i = desc s i).
    { intros i Hi. destruct (Hne i Hi) as (? & ? & ?). cbn. by rewrite !upd_other. }
    unfold chain. rewrite (Hd (r0 r')), (Hd (r1 r')), (Hd (r2 r')) by (unfold rdescs; set_solver). split_and!; try done.
    cbn. rewrite Hib; [done|]. apply Hne. by left.
Qed.

Lemma proc_inv_leave g g' all rest r :
  proc_inv g all -> all ≡ₚ r :: rest -> NoDup (descs all) -> vprocs g' = upd (vprocs g) (rp r) VIdle ->
  b_data (vs g') = b_data (vs g) -> b_blockno (vs g') = b_blockno (vs g) -> proc_inv g' rest.
Proof.
  intros P Hp Hnd E1 E2 E3.
  assert (Hn : NoDup (rp <$> (r :: rest))) by (apply (rp_nodup g); [by rewrite <- Hp|intros r' Hr'; apply P; by rewrite Hp]).
  cbn [fmap list_fmap] in Hn. apply NoDup_cons in Hn as [Hni _]. split; rewrite ?E1, ?E2, ?E3.
  - intros r' Hr'. rewrite upd_other; [apply P; rewrite Hp; by right|]. intros E. apply Hni. rewrite <- E. apply list_elem_of_fmap. eauto.
  - intros q b w i. destruct (Z.eq_dec q (rp r)) as [->|Hne]; [by rewrite upd_same|]. rewrite upd_other by done. intros H.
    destruct (pi_has _ _ P _ _ _ _ H) as (r' & Hr' & E). exists r'. rewrite Hp in Hr'. apply elem_of_cons in Hr' as [->|?]; [congruence|done].
  - intros q q' b. destruct (Z.eq_dec q (rp r)) as [->|], (Z.eq_dec q' (rp r)) as [->|]; rewrite ?upd_same, ?upd_other by done; try done. apply P.
  - intros q b. destruct (Z.eq_dec q (rp r)) as [->|]; [by rewrite upd_same|]. rewrite upd_other by done. apply P.
Qed.

Lemma wait_step g all qa qf qu qd F U r :
  vdisk_lock (vs g) = true -> all ≡ₚ qa ++ qf ++ qu ++ qd -> desc_inv (vs g) all -> ring_inv (vs g) qa qf qu qd F U -> proc_inv g all -> wake_inv g all qd -> r ∈ all ->
  exists g' all' qd', rw_wait (rp r) (rb r) (rw r) (r0 r) g = Ok tt g' /\ vinv g' all' qa qf qu qd' F U /\
    (b_data (vs g'), b_blockno (vs g'), dev_bytes (vs g')) = (b_data (vs g), b_blockno (vs g), dev_bytes (vs g)) /\
    (((forall q, vprocs g' q = vprocs g q) /\ all' = all /\ qd' = qd /\ r ∉ qd) \/
     (vprocs g' = upd (vprocs g) (rp r) VIdle /\ (rp r ∉ rp <$> (qa ++ qf)) /\ all ≡ₚ r :: all' /\ qd ≡ₚ r :: qd')).
Proof.
  intros Hlk Hperm D R P W Hr. unfold rw_wait.
  destruct (Z.eq_dec (b_disk (vs g) (rb r)) 1) as [Ed|Ed].
  - assert (Ef : rw_finish (rb r) (r0 r) (vs g) = Ok false (vs g)).
    { unfold rw_finish. rewrite (bind_Ok (gets _) _ (vs g) 1 (vs g)) by (unfold gets; by rewrite Ed). done. }
    rewrite (on_disk_bind _ _ _ _ _ Ef), release_park by done.
    assert (Hnq : r ∉ qd) by (intros Hq; by apply (ri_done _ _ _ _ _ _ _ R r Hq)).
    assert (Hne : forall r', r' ∈ qd -> r' ∈ qd /\ rp r' <> rp r).
    { intros r' Hr'. split; [done|]. intros Ep. assert (Hr2 : r' ∈ all) by (rewrite Hperm; set_solver).
      assert (r' = r) as ->; [|done]. by apply (rp_inj g all). }
    assert (Hsame : forall q, upd (vprocs g) (rp r) (WaitIO (rb r) (rw r) (r0 r)) q = vprocs g q).
    { intros q. destruct (Z.eq_dec q (rp r)) as [->|]; [rewrite upd_same; symmetry; by apply P|by rewrite upd_other]. }
    eexists _, all, qd. split; [reflexivity|]. split_and!; [|done|by left].
    split; [done|done|by apply (desc_inv_frame (vs g))|split; apply R|by apply (proc_inv_frame g)|by apply (parked_wake g _ _ _ all _ qd); [..|left]].
  - assert (Hqd : r ∈ qd).
    { rewrite Hperm in Hr. rewrite !app_assoc, elem_of_app in Hr. destruct Hr as [Hr|]; [|done]. destruct Ed. apply R. by rewrite app_assoc. }
    pose proof Hr as Hr2. apply elem_of_Permutation in Hr2 as (rest & Hrest). apply elem_of_Permutation in Hqd as (qd' & Hqd').
    destruct (di_chain _ _ D r Hr) as (H1 & H2 & H3 & _). set (s1 := (vs g) <| info_b := upd (info_b (vs g)) (r0 r) 0 |>).
    pose proof (di_nodup _ _ D) as Hnd. assert (Hndr : NoDup (rdescs r)) by (rewrite Hrest in Hnd; cbn [descs] in Hnd; by apply NoDup_app in Hnd as (? & _)).
    assert (Ec : free_chain (r0 r) s1 = Ok tt (freed (freed (freed s1 (r0 r)) (r1 r)) (r2 r))).
    { apply free_chain_spec; [done| |unfold s1; cbn; by rewrite H1|unfold s1; cbn; rewrite H2; by destruct (rw r)|unfold s1; cbn; by rewrite H3].
      intros i Hi. assert (Hin : i ∈ descs all) by (apply in_descs; eauto). pose proof (di_range _ _ D i Hin) as Hrg. split; [lia|].
      change (free s1 i) with (free (vs g) i). destruct (free (vs g) i) eqn:E; [|done]. by apply (di_free _ _ D) in E. }
    set (s2 := freed (freed (freed s1 (r0 r)) (r1 r)) (r2 r)) in *.
    assert (Ef : rw_finish (rb r) (r0 r) (vs g) = Ok true s2).
    { unfold rw_finish. rewrite (bind_Ok (gets _) _ (vs g) (b_disk (vs g) (rb r)) (vs g)) by done.
      rewrite (proj2 (Z.eqb_neq _ _)) by done. rewrite (bind_Ok (modify _) _ (vs g) tt s1) by done. by rewrite (bind_Ok _ _ _ _ _ Ec). }
    rewrite (on_disk_bind _ _ _ _ _ Ef), release_park by done.
    assert (D2 : desc_inv s2 rest).
    { apply (freed_inv (vs g) all rest r); [done|done|]. intros i Hi. by rewrite upd_other. }
    assert (Hrperm : rest ≡ₚ qa ++ qf ++ qu ++ qd').
    { apply (Permutation_cons_inv (a := r)). rewrite <- Hrest, Hperm, Hqd'. by rewrite <- !Permutation_middle. }
    assert (Hn : NoDup (rp <$> (r :: rest))) by (apply (rp_nodup g); [by rewrite <- Hrest|intros r' Hr'; apply P; by rewrite Hrest]).
    cbn [fmap list_fmap] in Hn. apply NoDup_cons in Hn as [Hni _].
    eexists _, rest, qd'. split; [reflexivity|]. split_and!; [|done|right; split_and!; [done| |done|done]].
    + split; [done|done|by apply (desc_inv_frame s2)| |by apply (proc_inv_leave g _ all rest r)|].
      * split; try apply R. intros r' Hr'. apply (ri_done _ _ _ _ _ _ _ R). rewrite Hqd'. by right.
      * apply (parked_wake g _ _ _ all _ qd); [done| |done|right; by left]. intros r' Hr'. split; [rewrite Hqd'; by right|].
        intros Ep. apply Hni. rewrite <- Ep. apply list_elem_of_fmap. exists r'. split; [done|]. rewrite Hrperm. set_solver.
    + intros Hin. apply Hni. rewrite Hrperm. rewrite !fmap_app in *. set_solver.
Qed.

(** ** The simulation *)

(** The caller sets up its buffer, and takes the lock. *)
Lemma call_start g all qa qf qu qd F U p b w k d :
  vinv g all qa qf qu qd F U -> allowed g (Call p b w k d) ->
  let s1 := (vs g) <| b_blockno := upd (b_blockno (vs g)) b k |> <| b_data := upd (b_data (vs g)) b d |> in
  let g1 := deliver ((deliver (g <| vs := s1 |>)) <| vs := s1 <| v_wakes := [] |> <| vdisk_lock := true |> |>) in
  perform device_exec (Call p b w k d) g = rw_try p b w g1 /\ desc_inv (vs g1) all /\ ring_inv (vs g1) qa qf qu qd F U /\ proc_inv g1 all /\ wake_inv g1 all qd.
Proof.
  intros I (Hp & Hb & Hd & _ & Hk) s1 g1. pose proof (vi_desc _ _ _ _ _ _ _ _ I) as D. pose proof (vi_proc _ _ _ _ _ _ _ _ I) as P.
  assert (Hrb : forall r, r ∈ all -> rb r <> b).
  { intros r Hr E. apply (Hb (rp r)). by rewrite (pi_own _ _ P r Hr), <- E. }
  split_and!.
  - unfold perform. rewrite (on_disk_bind _ _ _ tt s1) by done.
    unfold virtio_disk_rw. rewrite (on_disk_bind _ _ _ tt (s1 <| v_wakes := [] |> <| vdisk_lock := true |>)); [done|].
    unfold acquire. cbn. by rewrite (vi_lock _ _ _ _ _ _ _ _ I).
  - split; try apply D. intros r Hr. destruct (di_chain _ _ D r Hr) as (H1 & H2 & H3 & H4 & H5). unfold chain, g1, s1. cbn.
    rewrite upd_other by (by apply Hrb). done.
  - split; apply (vi_ring _ _ _ _ _ _ _ _ I).
  - split; try apply P. intros q b' Hq. assert (b' <> b) by (intros ->; by apply (Hb q)). cbn. rewrite !upd_other by done. by apply (pi_len _ _ P q).
  - apply wake_inv_deliver, (wake_inv_deliver g), I.
Qed.

Lemma acquire_start g all qa qf qu qd F U :
  vinv g all qa qf qu qd F U ->
  let s1 := (vs g) <| vdisk_lock := true |> in let g1 := deliver (g <| vs := s1 |>) in
  (forall k : unit -> M vsys unit, bind (on_disk (acquire vdisk_lock)) k g = k tt g1) /\ desc_inv (vs g1) all /\ ring_inv (vs g1) qa qf qu qd F U /\ proc_inv g1 all /\ wake_inv g1 all qd.
Proof.
  intros I s1 g1. split_and!.
  - intros k. rewrite (on_disk_bind _ _ _ tt s1); [done|]. unfold acquire. by rewrite (vi_lock _ _ _ _ _ _ _ _ I).
  - apply (desc_inv_frame (vs g)); [apply I|done..].
  - split; apply (vi_ring _ _ _ _ _ _ _ _ I).
  - apply (proc_inv_frame g); [apply I|done..].
  - apply wake_inv_deliver, I.
Qed.

Definition sim_result (g : vsys) (x : action) (a : adisk) : Prop :=
  exists g' all qa qf qu qd F U a', perform device_exec x g = Ok tt g' /\ vinv g' all qa qf qu qd F U /\ arel g' qa qf a' /\
    forall a0 es, atrace a0 es a -> atrace a0 (es ++ visible g g' x) a'.

Lemma sim_call g all qa qf qu qd F U a p b w k d :
  vinv g all qa qf qu qd F U -> arel g qa qf a -> allowed g (Call p b w k d) -> sim_result g (Call p b w k d) a.
Proof.
  intros I A Hal. destruct (call_start g all qa qf qu qd F U p b w k d I Hal) as (E & D1 & R1 & P1 & W1). pose proof Hal as (Hp & Hb & Hd & _ & Hk).
  pose proof (vi_proc _ _ _ _ _ _ _ _ I) as P. match type of P1 with proc_inv ?x _ => set (g1 := x) in * end.
  destruct (try_step g1 all qa qf qu qd F U p b w eq_refl (vi_perm _ _ _ _ _ _ _ _ I) D1 R1 P1 W1) as (g' & new & c & E' & I' & Ev & Hc & Q & Hpc & Hoth & _).
  { intros r Hr Er. rewrite <- Er, (pi_own _ _ P r Hr) in Hp. done. }
  { intros q _. apply Hb. }
  { cbn. by rewrite upd_same. }
  { cbn. by rewrite upd_same. }
  injection Q as Q1 Q2 Q3. cbn in Q1, Q2, Q3, Ev.
  exists g', (new ++ all), (qa ++ new), qf, qu, qd, F, U, (set_apc (Adisk (a_bytes a) (upd (a_blockno a) b k) (upd (a_data a) b d) (a_pc a)) p (APending b w)).
  split; [by rewrite E|]. split; [done|]. split.
  - split; cbn; rewrite ?Q1, ?Q2, ?Q3, ?(ar_blockno _ _ _ _ A), ?(ar_data _ _ _ _ A), ?(ar_bytes _ _ _ _ A); [done..|]. intros q.
    destruct (Z.eq_dec q p) as [->|Hne]; [by rewrite upd_same|]. rewrite upd_other by done. rewrite (ar_pc _ _ _ _ A).
    symmetry. apply apc_of_ext; [rewrite Ev; by apply upd_other|by apply Hoth].
  - intros a0 es Ht. apply at_call; [done|]. rewrite (ar_pc _ _ _ _ A). unfold apc_of. by rewrite Hp.
Qed.

Lemma sim_resume g all qa qf qu qd F U a p :
  vinv g all qa qf qu qd F U -> arel g qa qf a -> sim_result g (Resume p) a.
Proof.
  intros I A. pose proof (vi_proc _ _ _ _ _ _ _ _ I) as P. unfold sim_result, perform, resume.
  rewrite (bind_Ok (gets _) _ g (vwoken g p) g) by done. destruct (acquire_start g all qa qf qu qd F U I) as (Eacq & D1 & R1 & P1 & W1).
  match type of P1 with proc_inv ?x _ => set (g1 := x) in * end.
  destruct (vwoken g p) eqn:Ew; cbn [negb].
  2: { exists g, all, qa, qf, qu, qd, F, U, a. split; [done|]. split; [done|]. split; [done|]. intros a0 es Ht. cbn. destruct (vprocs g p); by rewrite app_nil_r. }
  rewrite (bind_Ok (gets _) _ g (vprocs g p) g) by done. unfold visible. destruct (vprocs g p) as [|b w|b w i] eqn:Ep.
  - exists g, all, qa, qf, qu, qd, F, U, a. split; [done|]. split; [done|]. split; [done|]. intros a0 es Ht. by rewrite app_nil_r.
  - rewrite Eacq.
    destruct (try_step g1 all qa qf qu qd F U p b w eq_refl (vi_perm _ _ _ _ _ _ _ _ I) D1 R1 P1 W1) as (g' & new & c & E' & I' & Ev & Hc & Q & Hpc & Hoth & _).
    { intros r Hr Er. rewrite <- Er, (pi_own _ _ P r Hr) in Ep. done. }
    { intros q Hq Hqb. cbn in Hqb. apply Hq, (pi_buf _ _ P q p b); [done|by rewrite Ep]. }
    { apply (pi_len _ _ P p). by rewrite Ep. }
    { apply (pi_len _ _ P p). by rewrite Ep. }
    exists g', (new ++ all), (qa ++ new), qf, qu, qd, F, U, a. injection Q as Q1 Q2 Q3. cbn in Q1, Q2, Q3, Ev. split; [done|]. split; [done|]. split.
    + split; rewrite ?Q1, ?Q2, ?Q3; try apply A. intros q. rewrite (ar_pc _ _ _ _ A). destruct (Z.eq_dec q p) as [->|Hne].
      * rewrite Hpc. unfold apc_of. by rewrite Ep.
      * symmetry. apply apc_of_ext; [rewrite Ev; by apply upd_other|by apply Hoth].
    + intros a0 es Ht. rewrite Ev, upd_same. destruct c; cbn in Hc; try done; by rewrite app_nil_r.
  - rewrite Eacq. destruct (pi_has _ _ P _ _ _ _ Ep) as (r & Hr & Er). pose proof (pi_own _ _ P r Hr) as Ho. rewrite Er, Ep in Ho. injection Ho as -> -> ->.
    destruct (wait_step g1 all qa qf qu qd F U r eq_refl (vi_perm _ _ _ _ _ _ _ _ I) D1 R1 P1 W1 Hr) as (g' & all' & qd' & E' & I' & Q & Hcase).
    rewrite Er in E', Hcase. injection Q as Q1 Q2 Q3. cbn in Q1, Q2, Q3. destruct Hcase as [[Ev _]|(Ev & Hni & _)]; cbn in Ev.
    + exists g', all', qa, qf, qu, qd', F, U, a. split; [done|]. split; [done|]. split.
      * split; rewrite ?Q1, ?Q2, ?Q3; try apply A. intros q. rewrite (ar_pc _ _ _ _ A). symmetry. by apply apc_of_ext.
      * intros a0 es Ht. rewrite Ev, Ep. by rewrite app_nil_r.
    + exists g', all', qa, qf, qu, qd', F, U, (set_apc a p AIdle). split; [done|]. split; [done|]. split.
      * split; cbn; rewrite ?Q1, ?Q2, ?Q3; try apply A. intros q. destruct (Z.eq_dec q p) as [->|Hne].
        -- rewrite upd_same. unfold apc_of. by rewrite Ev, upd_same.
        -- rewrite upd_other by done. rewrite (ar_pc _ _ _ _ A). symmetry. apply apc_of_ext; [rewrite Ev; by apply upd_other|done].
      * intros a0 es Ht. rewrite Ev, upd_same, Q1, <- (ar_data _ _ _ _ A). apply (at_return a0 es a p (rb r) (rw r) Ht).
        rewrite (ar_pc _ _ _ _ A). unfold apc_of. rewrite Ep, bool_decide_false by done. done.
Qed.

(** [kill] of a process in the driver. *)
Lemma kill_step g all qa qf qu qd F U p :
  vinv g all qa qf qu qd F U ->
  exists g', perform device_exec (Kill p) g = Ok tt g' /\ vinv g' all qa qf qu qd F U /\ vprocs g' = vprocs g /\ vs g' = vs g /\
    forall q, vwoken g q = true -> vwoken g' q = true.
Proof.
  intros I. cbn [perform]. unfold modify. destruct (vprocs g p) eqn:Ep; [by exists g|..].
  all: eexists; split; [reflexivity|]; split; [|split; [done|split; [done|]]].
  all: try (intros q Hq; cbn; destruct (Z.eq_dec q p) as [->|]; [by rewrite upd_same|by rewrite upd_other]).
  all: destruct I as [I1 I2 I3 I4 I5 [W1 W2 W3]]; split; [done|done|done|done|by apply (proc_inv_frame g)|]; split; cbn.
  1,4: intros r Hr; destruct (Z.eq_dec (rp r) p) as [->|]; [by rewrite upd_same|rewrite upd_other by done; by apply W1].
  1,3: intros q b' w' Hq; destruct (Z.eq_dec q p) as [->|]; [rewrite upd_same; by left|rewrite upd_other by done; by eapply W2].
  all: intros q Hq; rewrite upd_other by congruence; by apply W3.
Qed.

Lemma sim_step g all qa qf qu qd F U a x :
  vinv g all qa qf qu qd F U -> arel g qa qf a -> allowed g x -> sim_result g x a.
Proof.
  intros I A Hal. destruct x as [p b w k d|p|p| | |k].
  - by eapply sim_call.
  - by eapply sim_resume.
  - destruct (kill_step g all qa qf qu qd F U p I) as (g' & E & I' & Ev & Es & _).
    exists g', all, qa, qf, qu, qd, F, U, a. split; [done|]. split; [done|]. split; [|intros a0 es Ht; by rewrite app_nil_r].
    split; rewrite ?Es; try apply A. intros q. rewrite (ar_pc _ _ _ _ A). symmetry. apply apc_of_ext; [by rewrite Ev|done].
  - destruct (intr_step g all qa qf qu qd F U I) as (g' & qd' & U' & E & I' & _ & HA & _).
    exists g', all, qa, qf, [], qd', F, U', a. split_and!; auto. intros a0 es Ht. by rewrite app_nil_r.
  - destruct (fetch_step g all qa qf qu qd F U I) as (g' & F' & E & I' & _ & HA).
    exists g', all, (tail qa), (qf ++ firstn 1 qa), qu, qd, F', U, a. split_and!; auto. intros a0 es Ht. by rewrite app_nil_r.
  - destruct (complete_step g all qa qf qu qd F U k a I A) as (g' & a' & E & I' & A' & _ & Hc).
    eexists g', all, qa, (delete k qf), _, qd, F, U, a'. split; [exact E|]. split; [exact I'|]. split; [exact A'|]. intros a0 es Ht. cbn. rewrite app_nil_r.
    destruct Hc as [->|(p & b & w & Hpc & ->)]; [done|]. by apply at_transfer.
Qed.

End Driver.

(** ** Initialisation *)

(** A device that [virtio_disk_init] accepts. *)
Definition good_regs (reg : Z -> Z) : Prop :=
  reg VIRTIO_MMIO_MAGIC_VALUE = 0x74726976 /\ reg VIRTIO_MMIO_VERSION = 1 /\ reg VIRTIO_MMIO_DEVICE_ID = 2 /\
  reg VIRTIO_MMIO_VENDOR_ID = 0x554d4551 /\ NUM <= reg VIRTIO_MMIO_QUEUE_NUM_MAX.

(** The machine at boot: globals are zero, the device has seen no request. *)
Definition at_boot (s : vst) : Prop := vd_init s = false /\ used_idx s = 0 /\ dev_seen s = 0 /\ dev_flight s = [].

(** What initialisation must leave alone. *)
Definition kept (s : vst) := (used_idx s, dev_seen s, dev_flight s, dev_bytes s, b_data s, b_blockno s).

(** What it must set up. *)
Definition ready (s : vst) : Prop :=
  vdisk_lock s = false /\ (forall i, 0 <= i < NUM -> free s i = true) /\ avail s 1 = 0 /\ used_id s = 0.

Lemma store_reg_spec r v (k : unit -> V unit) Q s :
  (forall s', kept s' = kept s -> (vdisk_lock s', free s', avail s', used_id s') = (vdisk_lock s, free s, avail s, used_id s) -> wp (k tt) Q s') ->
  wp (bind (store_reg r v) k) Q s.
Proof. intros H. apply (H (s <| v_regs := (r, v) :: v_regs s |>)); done. Qed.

Lemma virtio_disk_init_spec reg n pages s :
  good_regs reg -> vd_init s = false -> wp (virtio_disk_init reg n pages) (fun _ s' => kept s' = kept s /\ ready s') s.
Proof.
  intros (H1 & H2 & H3 & H4 & H5) Hi. unfold virtio_disk_init. apply wp_gets. rewrite Hi. apply wp_modify, wp_modify.
  set (s1 := _ <| vdisk_lock := false |>). assert (K1 : kept s1 = kept s) by done. assert (L1 : vdisk_lock s1 = false) by done. clearbody s1.
  rewrite H1, H2, H3, H4. cbn [Z.eqb negb orb Pos.eqb].
  apply store_reg_spec. intros s2 K2 [= L2 _ _ _]. apply store_reg_spec. intros s3 K3 [= L3 _ _ _].
  apply store_reg_spec. intros s4 K4 [= L4 _ _ _]. apply store_reg_spec. intros s5 K5 [= L5 _ _ _].
  apply store_reg_spec. intros s6 K6 [= L6 _ _ _]. apply store_reg_spec. intros s7 K7 [= L7 _ _ _].
  apply store_reg_spec. intros s8 K8 [= L8 _ _ _].
  rewrite (proj2 (Z.eqb_neq (reg VIRTIO_MMIO_QUEUE_NUM_MAX) 0)) by (unfold NUM in H5; lia). rewrite (proj2 (Z.ltb_ge _ NUM)) by done.
  apply store_reg_spec. intros s9 K9 [= L9 _ _ _]. assert (K : kept s9 = kept s) by congruence. assert (Ll : vdisk_lock s9 = false) by congruence.
  clear - K Ll. apply wp_modify. set (t1 := s9 <| desc := _ |> <| avail := _ |> <| used_id := 0 |> <| used_elems := _ |>).
  assert (T1 : kept t1 = kept s /\ vdisk_lock t1 = false /\ avail t1 1 = 0 /\ used_id t1 = 0) by (split; [exact K|split; [exact Ll|done]]).
  clearbody t1. apply store_reg_spec. intros t2 K2 [= L2 _ A2 U2]. apply wp_modify. unfold wp, modify.
  destruct T1 as (T1 & T2 & T3 & T4). split; [exact (eq_trans K2 T1)|]. split; [exact (eq_trans L2 T2)|].
  split; [|split; [cbn; congruence|exact (eq_trans U2 T4)]]. intros i Hi. cbn.
  rewrite (proj2 (Z.leb_le 0 i)), (proj2 (Z.ltb_lt i NUM)) by lia. done.
Qed.

(** The driver after initialisation, with no call in progress. *)
Definition booted (s : vst) : vsys := Vsys s (fun _ => VIdle) (fun _ => false).

Lemma booted_inv s s0 : ready s -> kept s = kept s0 -> at_boot s0 -> vinv (booted s) [] [] [] [] [] 0 0.
Proof.
  intros (H1 & H2 & H3 & H4) K (_ & B1 & B2 & B3). injection K as K1 K2 K3 K4 K5 K6.
  split; [done|done| | | |].
  - split; try (intros ? H; by apply elem_of_nil in H); [constructor|]. intros i Hi. cbn. rewrite (H2 i Hi). split; [intros _; apply not_elem_of_nil|done].
  - split; cbn; rewrite ?H3, ?H4, ?K1, ?K2, ?K3, ?B1, ?B2, ?B3.
    1: lia. all: try done. all: intros r H; by apply elem_of_nil in H.
  - split; try done. intros ? H; by apply elem_of_nil in H.
  - split; try done. intros ? H; by apply elem_of_nil in H.
Qed.

(** The abstract disk with the same contents. *)
Definition adisk_of (s : vst) : adisk := Adisk (dev_bytes s) (b_blockno s) (b_data s) (fun _ => AIdle).

Lemma vtrace_sim dev s0 s es g :
  block_device dev -> ready s -> kept s = kept s0 -> at_boot s0 -> vtrace dev (booted s) es g ->
  exists all qa qf qu qd F U a, vinv g all qa qf qu qd F U /\ arel g qa qf a /\ atrace (adisk_of s0) es a.
Proof.
  intros HD Hr K Hb Ht. remember (booted s) as g0 eqn:E0. induction Ht as [g|g0 es g x g' Ht IH Hal Ep].
  - subst g. exists [], [], [], [], [], 0, 0, (adisk_of s0). split; [by eapply booted_inv|]. split; [|constructor].
    injection K as K1 K2 K3 K4 K5 K6. split; cbn; congruence.
  - destruct (IH E0) as (all & qa & qf & qu & qd & F & U & a & I & A & Hat).
    destruct (sim_step dev HD g all qa qf qu qd F U a x I A Hal) as (g1 & all' & qa' & qf' & qu' & qd' & F' & U' & a' & E' & I' & A' & Hx).
    rewrite Ep in E'. injection E' as <-. exists all', qa', qf', qu', qd', F', U', a'. auto.
Qed.

(** C2: from boot on, in every interleaving of processes that read and write blocks, the device (which may finish requests in
    any order, each with success) and the interrupt handler: no routine of the driver panics, and the calls and returns the processes see, with the
    contents of their buffers, are those of a disk that transfers a whole block at one moment during each call. *)
Theorem virtio_trace_refines (dev : Z -> vst -> vst) (reg : Z -> Z) (n pages : Z) (s0 : vst) :
  block_device dev -> good_regs reg -> at_boot s0 ->
  exists s, virtio_disk_init reg n pages s0 = Ok tt s /\
    forall es g, vtrace dev (booted s) es g ->
      (forall x, allowed g x -> exists g', perform dev x g = Ok tt g') /\
      exists a, atrace (adisk_of s0) es a /\ a_bytes a = dev_bytes (vs g).
Proof.
  intros HD Hreg Hb. destruct (proj1 (wp_Ok _ _ _) (virtio_disk_init_spec reg n pages s0 Hreg (proj1 Hb))) as ([] & s & E & K & Hr).
  exists s. split; [done|]. intros es g Ht. destruct (vtrace_sim dev s0 s es g HD Hr K Hb Ht) as (all & qa & qf & qu & qd & F & U & a & I & A & Hat).
  split; [|exists a; split; [done|apply A]]. intros x Hx.
  destruct (sim_step dev HD g all qa qf qu qd F U a x I A Hx) as (g' & ? & ? & ? & ? & ? & ? & ? & ? & E' & _). eauto.
Qed.

(** ** A device *)

(** A block device as the specification describes it; a malformed chain is ignored. *)
Definition simple_device (i : Z) (s : vst) : vst :=
  let d0 := desc s i in let d1 := desc s (d_next d0) in let d2 := desc s (d_next d1) in
  match d_addr d0, d_addr d1, d_addr d2 with
  | HdrA p, DataA b, StatusA j =>
      let x := h_sector (v_hdr s p) * 512 in
      (if h_type (v_hdr s p) =? VIRTIO_BLK_T_IN
       then s <| b_data := upd (b_data s) b (disk_read (dev_bytes s) x (d_len d1)) |>
       else s <| dev_bytes := disk_write (dev_bytes s) x (take (Z.to_nat (d_len d1)) (b_data s b)) |>)
      <| info_status := upd (info_status s) j 0 |>
  | _, _, _ => s
  end.

Lemma simple_device_ok : block_device simple_device.
Proof.
  split; intros s i p b j i1 i2 len sector H0 H1 H2 Hh; unfold simple_device; rewrite H0; cbn [d_addr d_next]; rewrite H1;
    cbn [d_addr d_next]; rewrite H2; cbn [d_addr d_next d_len]; rewrite Hh; done.
Qed.

Definition boot_vst : vst :=
  Vst (fun _ => Desc NullA 0 0 0) (fun _ => 0) 0 (fun _ => 0) (fun _ => false) 0 (fun _ => 0) (fun _ => 0) false false
      (fun _ => Hdr 0 0 0) (fun _ => 0) (fun _ => 0) (fun _ => []) [] [] [] 0 [] (fun x => x mod 256).

Definition qemu_regs (r : Z) : Z :=
  if r =? VIRTIO_MMIO_MAGIC_VALUE then 0x74726976 else if r =? VIRTIO_MMIO_VERSION then 1 else
  if r =? VIRTIO_MMIO_DEVICE_ID then 2 else if r =? VIRTIO_MMIO_VENDOR_ID then 0x554d4551 else
  if r =? VIRTIO_MMIO_QUEUE_NUM_MAX then 1024 else 0.

Lemma qemu_regs_good : good_regs qemu_regs.
Proof. unfold good_regs. vm_compute. repeat split; discriminate. Qed.

Lemma boot_vst_boot : at_boot boot_vst.
Proof. by unfold at_boot. Qed.

Lemma virtio_trace_refines_witness : exists s, virtio_disk_init qemu_regs 0 0x80000000 boot_vst = Ok tt s /\
  exists g, perform simple_device (Call 1 7 false 3 (replicate 1024 0)) (booted s) = Ok tt g.
Proof.
  destruct (virtio_trace_refines simple_device qemu_regs 0 0x80000000 boot_vst simple_device_ok qemu_regs_good boot_vst_boot) as (s & E & H).
  exists s. split; [exact E|]. destruct (H [] (booted s) (vt_nil _ _)) as [H1 _]. apply H1.
  split; [reflexivity|]. split; [discriminate|]. split; [reflexivity|]. lia.
Defined.
