(* ===== verification/VirtioLive.v ===== *)
(** * Calls of the virtio driver return

    A run is an infinite sequence of steps of the callers, the device and the
    interrupt handler.  In a fair run, in which the device works on its requests,
    interrupts are taken and the scheduler runs the processes that are runnable,
    [virtio_disk_rw] returns ([virtio_call_returns]): a process sleeps until some
    other step calls [wakeup] on its channel, so this rests on the wakeups of
    [virtio_disk_intr] and [free_desc] and on the state they leave. *)
From stdpp Require Import base list gmap strings.
From Stdlib Require Import ZArith Lia.
From S2P Require Import Prelude KString Riscv Bio Virtio VirtioProps.

#[local] Open Scope Z_scope.
#[local] Open Scope xv6_scope.

(** ** Runs *)

Section Runs.
Context (device_exec : Z -> vst -> vst) (x : nat -> action) (g : nat -> vsys).

(** [x n] leads from [g n] to [g (n + 1)]. *)
Definition run : Prop := forall n, allowed (g n) (x n) /\ perform device_exec (x n) (g n) = Ok tt (g (S n)).

(** What has to be done is done at some time. *)
Record fair : Prop := {
  fair_fetch : forall n, dev_seen (vs (g n)) <> avail (vs (g n)) 1 -> exists m, (n <= m)%nat /\ x m = Fetch;
  fair_complete : forall n i, i ∈ dev_flight (vs (g n)) -> exists m k, (n <= m)%nat /\ x m = Complete k /\ dev_flight (vs (g m)) !! k = Some i;
  fair_intr : forall n, used_idx (vs (g n)) mod NUM <> used_id (vs (g n)) mod NUM -> exists m, (n <= m)%nat /\ x m = Intr;
  fair_resume : forall n p, vwoken (g n) p = true -> exists m, (n <= m)%nat /\ x m = Resume p;
}.
End Runs.

(** No process enters [virtio_disk_rw]. *)
Definition is_call (x : action) : bool := match x with Call _ _ _ _ _ => true | _ => false end.

(** ** One step *)

(** How a step moves the requests through the queues and the processes through the driver. *)
Inductive moved (g : vsys) (all qa qf qu qd : list req) : action -> (Z -> vpc) -> list req -> list req -> list req -> list req -> Prop :=
| mv_fetch : moved g all qa qf qu qd Fetch (vprocs g) (tail qa) (qf ++ firstn 1 qa) qu qd
| mv_complete k : moved g all qa qf qu qd (Complete k) (vprocs g) qa (delete k qf) (match qf !! k with Some r => qu ++ [r] | None => qu end) qd
| mv_intr qd' : qd' ≡ₚ qu ++ qd -> moved g all qa qf qu qd Intr (vprocs g) qa qf [] qd'
| mv_kill p : moved g all qa qf qu qd (Kill p) (vprocs g) qa qf qu qd
| mv_call p b w k d new c : vprocs g p = VIdle -> pc_buf c = Some b ->
    moved g all qa qf qu qd (Call p b w k d) (upd (vprocs g) p c) (qa ++ new) qf qu qd
| mv_still p pcs : (forall q, pcs q = vprocs g q) -> (forall r, r ∈ qd -> rp r <> p) -> (forall b w, vprocs g p = WaitDesc b w -> vwoken g p = false) ->
    moved g all qa qf qu qd (Resume p) pcs qa qf qu qd
| mv_try p b w new c : vprocs g p = WaitDesc b w -> pc_buf c = Some b -> (all = [] -> exists i, c = WaitIO b w i) ->
    moved g all qa qf qu qd (Resume p) (upd (vprocs g) p c) (qa ++ new) qf qu qd
| mv_return r qd' : r ∈ all -> qd ≡ₚ r :: qd' -> moved g all qa qf qu qd (Resume (rp r)) (upd (vprocs g) (rp r) VIdle) qa qf qu qd'.

Section Live.
Context (device_exec : Z -> vst -> vst) (HD : block_device device_exec).

Definition moves (g : vsys) (x : action) (all qa qf qu qd : list req) : Prop :=
  exists g' all' qa' qf' qu' qd' F' U', perform device_exec x g = Ok tt g' /\ vinv g' all' qa' qf' qu' qd' F' U' /\
    moved g all qa qf qu qd x (vprocs g') qa' qf' qu' qd'.

Lemma call_moves g all qa qf qu qd F U p b w k d :
  vinv g all qa qf qu qd F U -> allowed g (Call p b w k d) -> moves g (Call p b w k d) all qa qf qu qd.
Proof.
  intros I Hal. destruct (call_start device_exec g all qa qf qu qd F U p b w k d I Hal) as (E & D1 & R1 & P1 & W1). pose proof Hal as (Hp & Hb & Hd & _ & Hk).
  pose proof (vi_proc _ _ _ _ _ _ _ _ I) as P. match type of P1 with proc_inv ?x _ => set (g1 := x) in * end.
  destruct (try_step device_exec HD g1 all qa qf qu qd F U p b w eq_refl (vi_perm _ _ _ _ _ _ _ _ I) D1 R1 P1 W1) as (g' & new & c & E' & I' & Ev & Hc & _).
  { intros r Hr Er. rewrite <- Er, (pi_own _ _ P r Hr) in Hp. done. }
  { intros q _. apply Hb. }
  { cbn. by rewrite upd_same. }
  { cbn. by rewrite upd_same. }
  eexists g', _, _, _, _, _, _, _. split; [by rewrite E|]. split; [exact I'|]. change (vprocs g1) with (vprocs g) in Ev. rewrite Ev. by apply mv_call.
Qed.

Lemma resume_moves g all qa qf qu qd F U p :
  vinv g all qa qf qu qd F U -> moves g (Resume p) all qa qf qu qd.
Proof.
  intros I. pose proof (vi_proc _ _ _ _ _ _ _ _ I) as P. pose proof (vi_wake _ _ _ _ _ _ _ _ I) as W.
  pose proof (vi_perm _ _ _ _ _ _ _ _ I) as Hperm. unfold moves, perform, resume.
  rewrite (bind_Ok (gets _) _ g (vwoken g p) g) by done. destruct (acquire_start g all qa qf qu qd F U I) as (Eacq & D1 & R1 & P1 & W1).
  match type of P1 with proc_inv ?x _ => set (g1 := x) in * end.
  destruct (vwoken g p) eqn:Ew; cbn [negb].
  2: { eexists g, _, _, _, _, _, _, _. split; [done|]. split; [exact I|]. apply mv_still; [done| |done].
       intros r Hr E. pose proof (wk_done _ _ _ W r Hr). congruence. }
  rewrite (bind_Ok (gets _) _ g (vprocs g p) g) by done. destruct (vprocs g p) as [|b w|b w i] eqn:Ep.
  - by rewrite (wk_idle _ _ _ W p Ep) in Ew.
  - rewrite Eacq.
    destruct (try_step device_exec HD g1 all qa qf qu qd F U p b w eq_refl Hperm D1 R1 P1 W1) as (g' & new & c & E' & I' & Ev & Hc & _ & _ & _ & Hn).
    { intros r Hr Er. rewrite <- Er, (pi_own _ _ P r Hr) in Ep. done. }
    { intros q Hq Hqb. cbn in Hqb. apply Hq, (pi_buf _ _ P q p b); [done|by rewrite Ep]. }
    { apply (pi_len _ _ P p). by rewrite Ep. }
    { apply (pi_len _ _ P p). by rewrite Ep. }
    eexists g', _, _, _, _, _, _, _. split; [done|]. split; [exact I'|]. change (vprocs g1) with (vprocs g) in Ev. rewrite Ev. by eapply mv_try.
  - rewrite Eacq. destruct (pi_has _ _ P _ _ _ _ Ep) as (r & Hr & Er). pose proof (pi_own _ _ P r Hr) as Ho. rewrite Er, Ep in Ho. injection Ho as -> -> ->.
    destruct (wait_step device_exec HD g1 all qa qf qu qd F U r eq_refl Hperm D1 R1 P1 W1 Hr) as (g' & all' & qd' & E' & I' & _ & Hcase).
    rewrite Er in E'. eexists g', _, _, _, _, _, _, _. split; [done|]. split; [exact I'|].
    destruct Hcase as [(Ev & -> & -> & Hnq)|(Ev & _ & _ & Hq)].
    + apply mv_still; [done| |congruence]. intros r' Hr' E. assert (r' = r) as ->; [|done].
      apply (rp_inj g all); [apply I|done|rewrite Hperm; set_solver|done|congruence].
    + change (vprocs g1) with (vprocs g) in Ev. rewrite Ev, <- Er. by apply mv_return.
Qed.

Lemma step_moves g all qa qf qu qd F U x : vinv g all qa qf qu qd F U -> allowed g x -> moves g x all qa qf qu qd.
Proof.
  intros I Hal. destruct x as [p b w k d|p|p| | |k].
  - by eapply call_moves.
  - by eapply resume_moves.
  - destruct (kill_step device_exec g all qa qf qu qd F U p I) as (g' & E & I' & Ev & _).
    eexists g', _, _, _, _, _, _, _. split; [done|]. split; [exact I'|]. rewrite Ev. apply mv_kill.
  - destruct (intr_step device_exec HD g all qa qf qu qd F U I) as (g' & qd' & U' & E & I' & Ev & _ & Hq).
    eexists g', _, _, _, _, _, _, _. split; [done|]. split; [exact I'|]. rewrite Ev. by apply mv_intr.
  - destruct (fetch_step device_exec HD g all qa qf qu qd F U I) as (g' & F' & E & I' & Ev & _).
    eexists g', _, _, _, _, _, _, _. split; [done|]. split; [exact I'|]. rewrite Ev. apply mv_fetch.
  - destruct (complete_step device_exec HD g all qa qf qu qd F U k (Adisk (dev_bytes (vs g)) (b_blockno (vs g)) (b_data (vs g)) (apc_of g qa qf)) I)
      as (g' & a' & E & I' & _ & Ev & _); [by split|].
    eexists g', _, _, _, _, _, _, _. split; [done|]. split; [exact I'|]. rewrite Ev. apply mv_complete.
Qed.

(** ** One request *)

(** How far request [r] still has to go: 0 when the handler has seen it, 1 in the used ring, 2 with the device, 3 and more in
    the available ring behind others. *)
Definition stage (k : nat) (g : vsys) (r : req) : Prop := exists all qa qf qu qd F U, vinv g all qa qf qu qd F U /\
  match k with 0%nat => r ∈ qd | 1%nat => r ∈ qu | 2%nat => r ∈ qf | S (S (S j)) => qa !! j = Some r end.

(** The step that takes it on. *)
Definition advances (k : nat) (g : vsys) (r : req) (x : action) : Prop :=
  match k with
  | 0%nat => x = Resume (rp r)
  | 1%nat => x = Intr
  | 2%nat => exists i, x = Complete i /\ dev_flight (vs g) !! i = Some (r0 r)
  | _ => x = Fetch
  end.

Lemma r0_inj s all r r' : desc_inv s all -> r ∈ all -> r' ∈ all -> r0 r = r0 r' -> r = r'.
Proof.
  intros D Hr Hr' E. apply elem_of_Permutation in Hr as (rest & Hp). rewrite Hp in Hr'. apply elem_of_cons in Hr' as [->|Hr']; [done|].
  pose proof (di_nodup _ _ D) as Hnd. rewrite Hp in Hnd. cbn [descs] in Hnd. apply NoDup_app in Hnd as (_ & N & _).
  destruct (N (r0 r)); [by left|]. apply in_descs. exists r'. split; [done|]. rewrite E. by left.
Qed.

Lemma elem_of_delete_other (l : list req) k r r' : l !! k = Some r' -> r ∈ l -> r <> r' -> r ∈ delete k l.
Proof. intros Hk Hr Hne. rewrite (delete_Permutation _ _ _ Hk) in Hr. by apply elem_of_cons in Hr as [?|?]. Qed.

(** A step takes a request on, or leaves it where it is, or its process returns. *)
Lemma stage_step k g r x g' : stage k g r -> allowed g x -> perform device_exec x g = Ok tt g' ->
  (exists k', (k' <= k)%nat /\ stage k' g' r /\ (advances k g r x -> (k' < k)%nat)) \/ vprocs g' (rp r) = VIdle.
Proof.
  intros (all & qa & qf & qu & qd & F & U & I & Hk) Hal E.
  destruct (step_moves g all qa qf qu qd F U x I Hal) as (g1 & all' & qa' & qf' & qu' & qd' & F' & U' & E1 & I' & M).
  rewrite E in E1. injection E1 as <-. pose proof (vi_perm _ _ _ _ _ _ _ _ I) as Hperm.
  assert (Hstay : forall k', (k' <= k)%nat -> match k' with 0%nat => r ∈ qd' | 1%nat => r ∈ qu' | 2%nat => r ∈ qf' | S (S (S j)) => qa' !! j = Some r end ->
     (advances k g r x -> (k' < k)%nat) -> exists k', (k' <= k)%nat /\ stage k' g' r /\ (advances k g r x -> (k' < k)%nat)).
  { intros k' H1 H2 H3. exists k'. split; [done|]. split; [|done]. by exists all', qa', qf', qu', qd', F', U'. }
  remember (vprocs g') as pcs eqn:Epc.
  destruct M as [|i|qd' Hq|p|p b w bn d new c Hp Hc|p pcs Hpc Hnd Hw|p b w new c Hp Hc Hn|r2 qd' Hr2 Hq].
  - left. destruct k as [|[|[|[|j]]]]; [by apply (Hstay 0%nat)|by apply (Hstay 1%nat)|apply (Hstay 2%nat); [done|set_solver|by intros (? & ? & _)]|..].
    + apply (Hstay 2%nat); [lia| |cbn; lia]. destruct qa; [done|]. injection Hk as ->. cbn. set_solver.
    + apply (Hstay (S (S (S j)))); [lia|by destruct qa|cbn; lia].
  - left. destruct k as [|[|[|j]]]; [by apply (Hstay 0%nat)| | |by apply (Hstay (S (S (S j))))].
    + apply (Hstay 1%nat); [done| |done]. destruct (qf !! i); [set_solver|done].
    + destruct (qf !! i) as [r'|] eqn:Ei.
      * destruct (decide (r = r')) as [->|Hne]; [apply (Hstay 1%nat); [lia|set_solver|lia]|].
        apply (Hstay 2%nat); [done|by eapply elem_of_delete_other|]. intros (i' & [= <-] & Hf). exfalso.
        rewrite (ri_flight _ _ _ _ _ _ _ (vi_ring _ _ _ _ _ _ _ _ I)), list_lookup_fmap, Ei in Hf. injection Hf as Hf.
        apply Hne. symmetry. apply (r0_inj (vs g) all); [apply I| | |done]; rewrite Hperm; [|set_solver].
        apply list_elem_of_lookup_2 in Ei. set_solver.
      * apply (Hstay 2%nat); [done|by rewrite list_delete_none|]. intros (i' & [= <-] & Hf). exfalso.
        by rewrite (ri_flight _ _ _ _ _ _ _ (vi_ring _ _ _ _ _ _ _ _ I)), list_lookup_fmap, Ei in Hf.
  - left. destruct k as [|[|[|j]]]; [apply (Hstay 0%nat); [done|rewrite Hq; set_solver|done]| | |by apply (Hstay (S (S (S j))))].
    + apply (Hstay 0%nat); [lia|rewrite Hq; set_solver|lia].
    + apply (Hstay 2%nat); [done|done|by intros (? & ? & _)].
  - left. destruct k as [|[|[|j]]]; apply (Hstay _ (le_n _) Hk); try done. by intros (? & ? & _).
  - left. destruct k as [|[|[|j]]]; [by apply (Hstay 0%nat)|by apply (Hstay 1%nat)|apply (Hstay 2%nat); [done|done|by intros (? & ? & _)]|].
    apply (Hstay (S (S (S j)))); [done|by apply lookup_app_l_Some|done].
  - left. destruct k as [|[|[|j]]]; apply (Hstay _ (le_n _) Hk); try done; [|by intros (? & ? & _)]. intros [= ->]. by destruct (Hnd r Hk).
  - left. destruct k as [|[|[|j]]]; [apply (Hstay 0%nat); [done|done|]|by apply (Hstay 1%nat)|apply (Hstay 2%nat); [done|done|by intros (? & ? & _)]|].
    + intros [= ->]. rewrite (pi_own _ _ (vi_proc _ _ _ _ _ _ _ _ I)) in Hp; [done|]. rewrite Hperm. set_solver.
    + apply (Hstay (S (S (S j)))); [done|by apply lookup_app_l_Some|done].
  - destruct (decide (r = r2)) as [->|Hne]; [right; apply upd_same|left].
    destruct k as [|[|[|j]]]; [|by apply (Hstay 1%nat)|apply (Hstay 2%nat); [done|done|by intros (? & ? & _)]|by apply (Hstay (S (S (S j))))].
    apply (Hstay 0%nat); [done|rewrite Hq in Hk; by apply elem_of_cons in Hk as [?|?]|]. intros [= Ep]. exfalso. apply Hne.
    symmetry. apply (rp_inj g all); [apply I|apply I|done|rewrite Hperm; set_solver|done].
Qed.

(** ** Fair runs *)

Section Fair.
Context (x : nat -> action) (g : nat -> vsys).
Hypothesis Hrun : run device_exec x g.
Hypothesis Hfair : fair x g.
Hypothesis Hstart : exists all qa qf qu qd F U, vinv (g 0%nat) all qa qf qu qd F U.

Lemma run_inv n : exists all qa qf qu qd F U, vinv (g n) all qa qf qu qd F U.
Proof.
  induction n as [|n (all & qa & qf & qu & qd & F & U & I)]; [done|]. destruct (Hrun n) as [Hal E].
  destruct (step_moves _ _ _ _ _ _ _ _ _ I Hal) as (g1 & all' & qa' & qf' & qu' & qd' & F' & U' & E1 & I' & _).
  rewrite E in E1. injection E1 as <-. eauto 10.
Qed.

(** A request is taken on at some time. *)
Lemma fair_advance k n r : stage k (g n) r -> exists m, (n <= m)%nat /\ advances k (g m) r (x m).
Proof.
  intros (all & qa & qf & qu & qd & F & U & I & Hk). pose proof (vi_ring _ _ _ _ _ _ _ _ I) as R. pose proof (ri_nonneg _ _ _ _ _ _ _ R) as [HF HU].
  pose proof (few_requests _ _ (vi_desc _ _ _ _ _ _ _ _ I)) as Hfew. rewrite (vi_perm _ _ _ _ _ _ _ _ I), !length_app in Hfew.
  destruct k as [|[|[|j]]].
  - apply (fair_resume _ _ Hfair). by apply (wk_done _ _ _ (vi_wake _ _ _ _ _ _ _ _ I)).
  - apply (fair_intr _ _ Hfair). rewrite (ri_idx _ _ _ _ _ _ _ R), (ri_used _ _ _ _ _ _ _ R), u16_mod, Z.mod_mod by (unfold NUM; lia).
    pose proof (mod_apart U 0 (length qu)) as Hm. rewrite Z.add_0_r in Hm. apply Hm; [|lia]. destruct qu; [by apply elem_of_nil in Hk|cbn; lia].
  - destruct (fair_complete _ _ Hfair n (r0 r)) as (m & i & Hm & E & Hf); [|by exists m; split; [|exists i]].
    rewrite (ri_flight _ _ _ _ _ _ _ R). apply list_elem_of_fmap. eauto.
  - apply (fair_fetch _ _ Hfair). rewrite (ri_seen _ _ _ _ _ _ _ R), (ri_avail _ _ _ _ _ _ _ R). apply lookup_lt_Some in Hk.
    unfold u16. Z.to_euclidean_division_equations; lia.
Qed.

Lemma stage_down d : forall n k r, stage k (g n) r -> advances k (g (n + d)%nat) r (x (n + d)%nat) ->
  exists m, (n <= m)%nat /\ ((exists k', (k' < k)%nat /\ stage k' (g m) r) \/ vprocs (g m) (rp r) = VIdle).
Proof.
  induction d as [|d IH]; intros n k r Hs Ha; destruct (Hrun n) as [Hal E];
    destruct (stage_step _ _ _ _ _ Hs Hal E) as [(k' & Hk' & Hs' & Hlt)|Hi]; try (exists (S n); split; [lia|by right]).
  - rewrite Nat.add_0_r in Ha. exists (S n). split; [lia|]. left. eauto.
  - destruct (decide (k' = k)) as [->|]; [|exists (S n); split; [lia|]; left; exists k'; split; [lia|done]].
    replace (n + S d)%nat with (S n + d)%nat in Ha by lia. destruct (IH _ _ _ Hs' Ha) as (m & Hm & H). exists m. split; [lia|done].
Qed.

Lemma stage_returns k : forall n r, stage k (g n) r -> exists m, (n <= m)%nat /\ vprocs (g m) (rp r) = VIdle.
Proof.
  induction k as [k IH] using lt_wf_ind. intros n r Hs. destruct (fair_advance k n r Hs) as (m & Hm & Ha).
  replace m with (n + (m - n))%nat in Ha by lia. destruct (stage_down _ _ _ _ Hs Ha) as (m' & Hm' & [(k' & Hk' & Hs')|Hi]); [|eauto].
  destruct (IH k' Hk' m' r Hs') as (m2 & H2 & Hi). exists m2. split; [lia|done].
Qed.

(** A process whose request has been submitted returns. *)
Lemma waitio_returns n p b w i : vprocs (g n) p = WaitIO b w i -> exists m, (n <= m)%nat /\ vprocs (g m) p = VIdle.
Proof.
  intros Hp. destruct (run_inv n) as (all & qa & qf & qu & qd & F & U & I).
  destruct (pi_has _ _ (vi_proc _ _ _ _ _ _ _ _ I) _ _ _ _ Hp) as (r & Hr & <-).
  rewrite (vi_perm _ _ _ _ _ _ _ _ I), !elem_of_app in Hr.
  assert (exists k, stage k (g n) r) as [k Hs]; [|by apply (stage_returns k)].
  destruct Hr as [Hr|[Hr|[Hr|Hr]]]; [apply list_elem_of_lookup in Hr as [j Hr]; exists (S (S (S j)))|exists 2%nat|exists 1%nat|exists 0%nat];
    by exists all, qa, qf, qu, qd, F, U.
Qed.

(** Only the process itself enters and leaves the driver. *)
Lemma pc_step n q : is_call (x n) = false -> (vprocs (g n) q = VIdle -> vprocs (g (S n)) q = VIdle) /\
  (x n <> Resume q -> vprocs (g (S n)) q = vprocs (g n) q).
Proof.
  intros Hc. destruct (run_inv n) as (all & qa & qf & qu & qd & F & U & I). destruct (Hrun n) as [Hal E].
  destruct (step_moves _ _ _ _ _ _ _ _ _ I Hal) as (g1 & all' & qa' & qf' & qu' & qd' & F' & U' & E1 & _ & M).
  rewrite E in E1. injection E1 as <-. remember (vprocs (g (S n))) as pcs eqn:Ep. clear Ep E. remember (x n) as a eqn:Ea. clear Ea.
  destruct M as [|i|qd' Hq|p|p b w bn d new c Hp Hc'|p pcs Hpc Hnd Hw|p b w new c Hp Hc' Hn|r2 qd' Hr2 Hq]; try done.
  - split; [intros H; by rewrite Hpc|intros _; apply Hpc].
  - destruct (Z.eq_dec q p) as [->|Hne]; [split; [congruence|done]|]. rewrite upd_other by done. done.
  - destruct (Z.eq_dec q (rp r2)) as [->|Hne]; [split; [intros _; apply upd_same|done]|]. rewrite upd_other by done. done.
Qed.

Lemma resume_dec (a : action) p : a = Resume p \/ a <> Resume p.
Proof. destruct a as [| q | | | |]; try (by right). destruct (Z.eq_dec q p) as [->|]; [by left|right; congruence]. Qed.

(** Some process has a request in the driver. *)
Definition busy (n : nat) : Prop := exists q b w i, vprocs (g n) q = WaitIO b w i.

(** When none has, a process that waits for descriptors is runnable, and gets them when it runs. *)
Lemma busy_or n p b w : vprocs (g n) p = WaitDesc b w ->
  busy n \/ vwoken (g n) p = true /\ (x n = Resume p -> busy (S n)).
Proof.
  intros Hp. destruct (run_inv n) as (all & qa & qf & qu & qd & F & U & I). destruct (Hrun n) as [Hal E].
  destruct all as [|r all]; [right|left; exists (rp r), (rb r), (rw r), (r0 r); apply (vi_proc _ _ _ _ _ _ _ _ I); by left].
  destruct (wk_desc _ _ _ (vi_wake _ _ _ _ _ _ _ _ I) _ _ _ Hp) as [Hw|Hl]; [|cbn in Hl; lia]. split; [done|]. intros Hx.
  destruct (step_moves _ _ _ _ _ _ _ _ _ I Hal) as (g1 & all' & qa' & qf' & qu' & qd' & F' & U' & E1 & _ & M).
  rewrite E in E1. injection E1 as <-. rewrite Hx in M. inversion M as [| | | | |p' pcs Hpc Hnd Hf|p' b' w' new c Hp' Hc' Hn Ep Epc|r2 qd2 Hr2 Hq].
  - rewrite (Hf _ _ Hp) in Hw. done.
  - destruct (Hn eq_refl) as [i ->]. exists p, b', w', i. rewrite <- Epc. apply upd_same.
  - by apply elem_of_nil in Hr2.
Qed.

Lemma waitdesc_busy p b w d : forall n, (forall m, (n <= m)%nat -> is_call (x m) = false) -> vprocs (g n) p = WaitDesc b w ->
  x (n + d)%nat = Resume p -> exists m, (n <= m)%nat /\ busy m.
Proof.
  induction d as [|d IH]; intros n Hnc Hp Hx; (destruct (busy_or n p b w Hp) as [Hb|[Hw Hb]]; [by exists n|]).
  - rewrite Nat.add_0_r in Hx. exists (S n). split; [lia|]. by apply Hb.
  - destruct (resume_dec (x n) p) as [Hr|Hr]; [exists (S n); split; [lia|]; by apply Hb|].
    destruct (IH (S n)) as (m & Hm & H).
    + intros m Hm. apply Hnc. lia.
    + rewrite (proj2 (pc_step n p (Hnc n (le_n _)))) by done. done.
    + by replace (S n + d)%nat with (n + S d)%nat by lia.
    + exists m. split; [lia|done].
Qed.

Lemma idle_stays n q d : (forall m, (n <= m)%nat -> is_call (x m) = false) -> vprocs (g n) q = VIdle -> vprocs (g (n + d)%nat) q = VIdle.
Proof.
  intros Hnc Hq. induction d as [|d IH]; [by rewrite Nat.add_0_r|]. replace (n + S d)%nat with (S (n + d)) by lia. apply pc_step; [apply Hnc; lia|done].
Qed.

(** Without new calls every process leaves the driver: [l] are those inside. *)
Lemma all_return (l : list Z) : forall n, (forall m, (n <= m)%nat -> is_call (x m) = false) -> (forall q, vprocs (g n) q <> VIdle -> q ∈ l) ->
  forall p, exists m, (n <= m)%nat /\ vprocs (g m) p = VIdle.
Proof.
  induction l as [l IH] using (induction_ltof1 _ (@length Z)). unfold ltof in IH. intros n Hnc Hl p.
  destruct (vprocs (g n) p) as [|b w|b w i] eqn:Ep; [by exists n| |by eapply waitio_returns].
  assert (exists m, (n <= m)%nat /\ busy m) as (m & Hm & q & b' & w' & i & Hq).
  { destruct (busy_or n p b w Ep) as [Hb|[Hw _]]; [by exists n|]. destruct (fair_resume _ _ Hfair n p Hw) as (m & Hm & Hx).
    apply (waitdesc_busy p b w (m - n)); [done|done|]. by replace (n + (m - n))%nat with m by lia. }
  destruct (waitio_returns m q b' w' i Hq) as (m2 & Hm2 & Hi).
  assert (Hidle : forall k, (n <= k)%nat -> forall q, vprocs (g k) q <> VIdle -> q ∈ l).
  { intros k Hk q' Hq'. apply Hl. intros H0. apply Hq'. replace k with (n + (k - n))%nat by lia. by apply idle_stays. }
  destruct (IH (filter (fun z => z <> q) l)) with (n := m2) (p := p) as (m3 & Hm3 & H3).
  - assert (q ∈ l) as Hin by (apply (Hidle m); [done|by rewrite Hq]). clear - Hin. induction l as [|z l IH]; [by apply elem_of_nil in Hin|].
    rewrite filter_cons. case_decide as E; [|pose proof (length_filter (fun z => z <> q) l); cbn; lia].
    apply elem_of_cons in Hin as [->|Hin]; [done|]. cbn. specialize (IH Hin). lia.
  - intros k Hk. apply Hnc. lia.
  - intros q' Hq'. apply list_elem_of_filter. split; [congruence|]. apply (Hidle m2); [lia|done].
  - exists m3. split; [lia|done].
Qed.

(** Only finitely many are inside. *)
Lemma enter_step n q : vprocs (g n) q = VIdle -> vprocs (g (S n)) q = VIdle \/ exists b w k d, x n = Call q b w k d.
Proof.
  intros Hi. destruct (x n) as [p b w k d| | | | |] eqn:Ex; try (left; apply pc_step; [by rewrite Ex|done]).
  destruct (Z.eq_dec q p) as [->|Hne]; [right; eauto|left].
  destruct (run_inv n) as (all & qa & qf & qu & qd & F & U & I). destruct (Hrun n) as [Hal E]. rewrite Ex in Hal, E.
  destruct (call_moves _ _ _ _ _ _ _ _ _ _ _ _ _ I Hal) as (g1 & all' & qa' & qf' & qu' & qd' & F' & U' & E1 & _ & M).
  rewrite E in E1. injection E1 as <-. inversion M. by rewrite upd_other.
Qed.

Lemma inside_finite n : (exists l : list Z, forall q, vprocs (g 0%nat) q <> VIdle -> q ∈ l) -> exists l : list Z, forall q, vprocs (g n) q <> VIdle -> q ∈ l.
Proof.
  intros H0. induction n as [|n [l IH]]; [done|].
  exists (match x n with Call p _ _ _ _ => [p] | _ => [] end ++ l). intros q Hq. apply elem_of_app.
  destruct (vprocs (g n) q) eqn:E; [|right; apply IH; by rewrite E..].
  destruct (enter_step n q E) as [?|(b & w & k & d & ->)]; [done|]. left. by left.
Qed.
End Fair.
End Live.

(** C28: every call of [virtio_disk_rw] returns.  From boot on, in every fair run of processes, device and interrupts: a process
    whose request has been handed to the device comes out of the driver, whatever calls other processes make meanwhile; and when
    no new calls are made, so does every process, also one that waits for descriptors.  A process goes on only when a [wakeup]
    on the channel it sleeps on (or a [kill]) has made it runnable, and the run is fair when the device takes and finishes the
    requests it is given, in any order, an interrupt follows, and a process that is runnable gets to run. *)
Theorem virtio_call_returns (dev : Z -> vst -> vst) (reg : Z -> Z) (k pages : Z) (s0 s : vst) (x : nat -> action) (g : nat -> vsys) :
  block_device dev -> good_regs reg -> at_boot s0 -> virtio_disk_init reg k pages s0 = Ok tt s -> g 0%nat = booted s -> run dev x g -> fair x g ->
  (forall n p b w i, vprocs (g n) p = WaitIO b w i -> exists m, (n <= m)%nat /\ vprocs (g m) p = VIdle) /\
  (forall n p, (forall m, (n <= m)%nat -> is_call (x m) = false) -> exists m, (n <= m)%nat /\ vprocs (g m) p = VIdle).
Proof.
  intros HD Hreg Hb Ei E0 Hrun Hfair.
  destruct (proj1 (wp_Ok _ _ _) (virtio_disk_init_spec reg k pages s0 Hreg (proj1 Hb))) as ([] & s' & E & K & Hr).
  rewrite Ei in E. injection E as <-.
  assert (H0 : exists all qa qf qu qd F U, vinv (g 0%nat) all qa qf qu qd F U) by (rewrite E0; do 7 eexists; by eapply booted_inv).
  split; [intros n p b w i; by apply (waitio_returns dev HD x g)|]. intros n p Hnc.
  destruct (inside_finite dev HD x g Hrun H0 n) as [l Hl]; [exists []; by rewrite E0|]. by apply (all_return dev HD x g Hrun Hfair H0 l).
Qed.

(** ** A run *)

(** One read: the device fetches the request and finishes it, the handler runs, the process goes on; then nothing. *)
Definition one_read (n : nat) : action :=
  match n with
  | 0%nat => Call 1 7 false 3 (replicate 1024 0)
  | 1%nat => Fetch
  | 2%nat => Complete 0
  | 3%nat => Intr
  | 4%nat => Resume 1
  | _ => Fetch
  end.

Definition state_of {A} (s : vst) (o : outcome vst A) : vst := match o with Ok _ s => s | _ => s end.

Fixpoint states (n : nat) : vsys :=
  match n with
  | O => booted (state_of boot_vst (virtio_disk_init qemu_regs 0 0x80000000 boot_vst))
  | S n => match perform simple_device (one_read n) (states n) with Ok _ g => g | _ => states n end
  end.

Lemma states_start : virtio_disk_init qemu_regs 0 0x80000000 boot_vst = Ok tt (vs (states 0)) /\
  exists all qa qf qu qd F U, vinv (states 0) all qa qf qu qd F U.
Proof.
  destruct (proj1 (wp_Ok _ _ _) (virtio_disk_init_spec qemu_regs 0 0x80000000 boot_vst qemu_regs_good eq_refl)) as ([] & s & E & K & Hr).
  unfold states. rewrite E. split; [done|]. do 7 eexists. by apply (booted_inv s boot_vst).
Qed.

Lemma one_read_allowed n : allowed (states n) (one_read n).
Proof.
  by destruct n as [|[|[|[|[|n]]]]].
Qed.

Lemma states_run : run simple_device one_read states.
Proof.
  assert (H : forall n, (exists all qa qf qu qd F U, vinv (states n) all qa qf qu qd F U) ->
    perform simple_device (one_read n) (states n) = Ok tt (states (S n)) /\ exists all qa qf qu qd F U, vinv (states (S n)) all qa qf qu qd F U).
  { intros n (all & qa & qf & qu & qd & F & U & I).
    destruct (step_moves simple_device simple_device_ok _ _ _ _ _ _ _ _ _ I (one_read_allowed n)) as (g & all' & qa' & qf' & qu' & qd' & F' & U' & E & I' & _).
    cbn [states]. rewrite E. split; [done|]. by exists all', qa', qf', qu', qd', F', U'. }
  assert (Hinv : forall n, exists all qa qf qu qd F U, vinv (states n) all qa qf qu qd F U).
  { induction n as [|n IH]; [apply states_start|by apply (H n)]. }
  intros n. split; [apply one_read_allowed|]. by apply (H n).
Qed.

(** Only process 1 is ever in the driver, until step 5. *)
Lemma states_other n p : p <> 1 -> vprocs (states n) p = VIdle.
Proof.
  intros Hp. induction n as [|n IH]; [reflexivity|].
  destruct (enter_step simple_device simple_device_ok one_read states states_run (proj2 states_start) n p IH) as [H|(b & w & k & d & E)]; [exact H|].
  destruct n as [|[|[|[|[|n]]]]]; cbn [one_read] in E; try discriminate E. injection E as E. by destruct Hp.
Qed.

Lemma states_back : vprocs (states 5) 1 = VIdle.
Proof. vm_compute. reflexivity. Qed.

Lemma one_read_quiet m : (5 <= m)%nat -> is_call (one_read m) = false.
Proof. intros Hm. destruct m as [|[|[|[|[|m]]]]]; [lia..|reflexivity]. Qed.

Lemma states_idle n p : p <> 1 \/ (5 <= n)%nat -> vprocs (states n) p = VIdle.
Proof.
  destruct (Z.eq_dec p 1) as [->|Hp]; intros Hn; [|apply (states_other n p Hp)].
  destruct Hn as [?|Hn]; [done|]. pose proof (idle_stays simple_device simple_device_ok one_read states states_run (proj2 states_start)
    5 1 (n - 5) one_read_quiet states_back) as H. replace (5 + (n - 5))%nat with n in H by lia. exact H.
Qed.

Lemma states_asleep n p : p <> 1 \/ (5 <= n)%nat -> vwoken (states n) p = false.
Proof.
  intros H. destruct (run_inv simple_device simple_device_ok one_read states states_run (proj2 states_start) n) as (all & qa & qf & qu & qd & F & U & I).
  exact (wk_idle _ _ _ (vi_wake _ _ _ _ _ _ _ _ I) p (states_idle n p H)).
Qed.

(** From then on there is nothing to do. *)
Lemma states_done n : dev_seen (vs (states (5 + n))) = avail (vs (states (5 + n))) 1 /\ dev_flight (vs (states (5 + n))) = [] /\
  used_idx (vs (states (5 + n))) mod NUM = used_id (vs (states (5 + n))) mod NUM.
Proof.
  induction n as [|n (H1 & H2 & H3)]; [by vm_compute|]. replace (5 + S n)%nat with (S (5 + n)) by lia.
  assert (E : perform simple_device Fetch (states (5 + n)) = Ok tt (deliver ((states (5 + n)) <| vs := vs (states (5 + n)) |>))).
  { cbn [perform]. apply on_disk_ok. unfold dev_fetch, bind, gets. by rewrite H1, Z.eqb_refl. }
  change (states (S (5 + n))) with (match perform simple_device Fetch (states (5 + n)) with Ok _ g => g | _ => states (5 + n) end). rewrite E. done.
Qed.

Lemma states_fair : fair one_read states.
Proof.
  split.
  - intros n _. exists (5 + n)%nat. split; [lia|done].
  - intros n i Hi. assert (n = 2%nat /\ i = 0) as [-> ->]; [|exists 2%nat, 0%nat; split; [done|by vm_compute]].
    destruct n as [|[|[|[|[|n]]]]]; try (by apply elem_of_nil in Hi).
    + change (dev_flight (vs (states 2))) with [0] in Hi. by apply list_elem_of_singleton in Hi.
    + destruct (states_done n) as (_ & E & _). cbn [Nat.add] in E. rewrite E in Hi. by apply elem_of_nil in Hi.
  - intros n Hn. destruct n as [|[|[|[|[|n]]]]]; try (exists 3%nat; split; [lia|done]); [by destruct Hn|].
    destruct (states_done n) as (_ & _ & E). by destruct Hn.
  - intros n p Hw. destruct (decide (p <> 1 \/ (5 <= n)%nat)) as [H|H]; [by rewrite states_asleep in Hw|].
    assert (p = 1) as -> by lia. exists 4%nat. split; [lia|done].
Qed.

(** After the call process 1 waits for the disk, and comes back. *)
Lemma virtio_call_returns_witness : vprocs (states 1) 1 = WaitIO 7 false 0 /\ exists m, (1 <= m)%nat /\ vprocs (states m) 1 = VIdle.
Proof.
  split; [vm_compute; reflexivity|].
  apply (proj1 (virtio_call_returns simple_device qemu_regs 0 0x80000000 boot_vst (vs (states 0)) one_read states
    simple_device_ok qemu_regs_good boot_vst_boot (proj1 states_start) eq_refl states_run states_fair) 1%nat 1 7 false 0).
  vm_compute. reflexivity.
Defined.
