(* ===== verification/BootMem.v ===== *)
(** * The memory of the kernel at boot

    [procinit] gives every process a kernel stack below the trampoline, each with an
    unmapped page under it. *)
From stdpp Require Import base list gmap strings.
From Stdlib Require Import ZArith Lia.
From S2P Require Import Prelude KString Riscv Kalloc Vm VmSpec VmUser VmCopy VmFork KernVm Sleeplock Bio Log Blocks Fs Kernel Pipe Proc KState.

#[local] Open Scope Z_scope.
#[local] Open Scope xv6_scope.

Section BootMem.

Context (end_ etext trampoline : Z).
Hypothesis etext_page : etext mod PGSIZE = 0.
Hypothesis etext_range : KERNBASE < etext < PHYSTOP.
Hypothesis tramp_page : trampoline mod PGSIZE = 0.
Hypothesis tramp_text : KERNBASE <= trampoline < etext.
Hypothesis end_data : etext <= end_.

Context {S : Type} {L : BlockLayer S} {O : OpLayer S}.

Abbreviation maps := (maps end_ kcoords).

(** The kernel stack of entry [p] at the page [pa]. *)
Definition stack_region (p pa : Z) : region := Region (KSTACK (p - 1)) pa PGSIZE RW.

(** The kernel's address space with the stacks [pas] of the entries from 1 on. *)
Definition kernel_pte (pas : list Z) (va : Z) : Z :=
  let d := TRAMPOLINE / PGSIZE - va / PGSIZE in
  if decide (2 <= d /\ d mod 2 = 0 /\ d <= 2 * Z.of_nat (length pas))
  then leaf (default 0 (pas !! Z.to_nat (d / 2 - 1))) RW else kmap (kregions etext trampoline) va.

Lemma kernel_pte_snoc pas pa va :
  (if decide (inside (stack_region (1 + Z.of_nat (length pas)) pa) va) then leaf pa RW else kernel_pte pas va) = kernel_pte (pas ++ [pa]) va.
Proof.
  unfold kernel_pte. set (d := TRAMPOLINE / PGSIZE - va / PGSIZE). rewrite length_app. cbn [length].
  assert (Hi : inside (stack_region (1 + Z.of_nat (length pas)) pa) va <-> d = 2 * (Z.of_nat (length pas) + 1)).
  { unfold inside, rg_first, rg_pages, stack_region, d, KSTACK. cbn [rg_va rg_size]. unfold TRAMPOLINE, PGSIZE. change MAXVA with 274877906944. zlia. }
  destruct (decide (inside _ va)) as [H|H].
  - rewrite decide_True by (apply Hi in H; zlia). apply Hi in H. replace (Z.to_nat (d / 2 - 1)) with (length pas) by zlia. by rewrite list_lookup_middle.
  - rewrite Hi in H. destruct (decide (2 <= d /\ d mod 2 = 0 /\ d <= 2 * Z.of_nat (length pas))) as [E|E].
    + rewrite decide_True by lia. rewrite lookup_app_l by zlia. done.
    + rewrite decide_False by zlia. done.
Qed.

(** A page taken out of the free list. *)
Lemma maps_take k0 l0 k pa l root T rs : maps k0 l0 k (pa :: l) root T rs ->
  exists k1 l1, kalloc k = Ok pa k1 /\ maps k1 l1 k1 l root T rs /\ (forall p, p ∈ l0 <-> p = pa \/ p ∈ l1) /\ (pa ∉ l1) /\ (length l0 = Datatypes.S (length l1))%nat /\
    page_ok end_ pa /\ forall a, ~ in_page pa a -> ram k1 a = ram k a.
Proof.
  intros [M1 M2 M3 M4 M5 M6]. pose proof (end_pos end_ etext etext_range end_data) as He. destruct M1 as [Hk I Hf].
  destruct (kalloc_some _ He _ _ _ Hk) as (k1 & E1 & Hk1 & Hm1). pose proof Hk as [_ _ Hnd Hpg _]. apply NoDup_cons in Hnd as [Hni Hnd]. apply Forall_cons in Hpg as [Hok Hpg].
  assert (HT : T !! pa = None) by (destruct (T !! pa) eqn:E; [|done]; exfalso; apply (Hf pa); [eauto|by left]).
  assert (Hm : forall p a, is_Some (T !! p) -> in_page p a -> ram k1 a = ram k a).
  { intros p a [x Hp] Ha. rewrite Hm1. rewrite decide_False; [done|]. pose proof (pi_page _ _ _ _ I _ _ Hp) as [Ap _].
    assert (p <> pa) by congruence. destruct (pages_apart p pa Ap (proj1 Hok) ltac:(done)); unfold in_page, PGSIZE in *; lia. }
  destruct (pt_frame end_ (ram k) (ram k1) root T I Hm) as [I' V'].
  set (l1 := (map_to_list T).*1 ++ l). assert (Hd : forall p, p ∈ l1 <-> is_Some (T !! p) \/ p ∈ l).
  { intros p. unfold l1. rewrite elem_of_app, list_elem_of_fmap. split; intros [H|H]; auto; left.
    - destruct H as ([q x] & -> & Hq). apply elem_of_map_to_list in Hq. eauto.
    - destruct H as [x Hx]. exists (p, x). split; [done|]. by apply elem_of_map_to_list. }
  exists k1, l1. split; [done|]. split; [|split_and!].
  - split; [split; [done|done|]|done|done| | |done].
    + intros p Hp Hl. apply (Hf p Hp). by right.
    + unfold l1. rewrite length_app, length_fmap, length_map_to_list. done.
    + intros va Hva. rewrite <- M5 by done. apply V'. rewrite above_2 by done. apply I.
  - intros p. rewrite M3, Hd, elem_of_cons. tauto.
  - rewrite Hd. intros [[x Hx]|H]; [congruence|done].
  - unfold l1. rewrite length_app, length_fmap, length_map_to_list. cbn [length] in M4. lia.
  - done.
  - intros a Ha. rewrite Hm1. by rewrite decide_False.
Qed.

(** ** [procinit] *)

(** What the entries from [a] on still leave room for. *)
Definition room (a : Z) (rs : list region) : Prop := forall p pa, a <= p <= NPROC -> Forall (apart (stack_region p pa)) rs.

Definition with_stack (x : proc) (p : Z) : proc := x <| p_lock := false |> <| p_kstack := KSTACK (p - 1) |>.

Lemma procinit_one_spec (s : kst S) (f : fst S) pr fl pi nx no k0 l0 l T rs a : maps k0 l0 (fs_mem f) l (kpt s) T rs -> (74 < length l0)%nat -> 1 <= a <= NPROC -> room a rs ->
  exists pa k' l0' l' T' pr', procinit_one a (st s f pr fl pi nx no) = Ok tt (st s (f <| fs_mem := k' |>) pr' fl pi nx no) /\
    (forall q, pr' q = if decide (q = a) then with_stack (pr a) a else pr q) /\ maps k' l0' k' l' (kpt s) T' (stack_region a pa :: rs) /\ (forall p, p ∈ l0 <-> p = pa \/ p ∈ l0') /\ (pa ∉ l0') /\ (length l0 = Datatypes.S (length l0'))%nat /\
    page_ok end_ pa /\ (forall x, (forall p, p ∈ l0 -> ~ in_page p x) -> ram k' x = ram (fs_mem f) x) /\ room (a + 1) (stack_region a pa :: rs).
Proof.
  intros M Hl Ha Hr. assert (Hne : l <> []).
  { intros ->. pose proof (table_count end_ _ _ _ _ (vr_pt _ _ _ _ _ (mp_rep _ _ _ _ _ _ _ _ _ M)) (mp_coords _ _ _ _ _ _ _ _ _ M)) as H.
    pose proof (mp_count _ _ _ _ _ _ _ _ _ M) as H2. cbn in H, H2. lia. }
  destruct l as [|pa l]; [done|]. destruct (maps_take _ _ _ _ _ _ _ _ M) as (k1 & l1 & E1 & M1 & P1 & N1 & L1 & Hok & F1).
  assert (Hreg : rg_ok (stack_region a pa)).
  { destruct Hok as [O1 O2]. split; cbn [stack_region rg_va rg_pa rg_size rg_perm]; unfold KSTACK, TRAMPOLINE, PHYSTOP, KERNBASE, NPROC, PGSIZE in *; change MAXVA with 274877906944 in *; zpow; [zlia|zlia|zlia|done]. }
  destruct (map_kernel end_ etext etext_range end_data _ _ _ _ _ _ _ (stack_region a pa) M1) as (k2 & l2 & T2 & E2 & M2); [lia|done|apply Hr; lia| |].
  { intros va Hi. unfold inside, rg_first, rg_pages, kpage, stack_region, KSTACK, TRAMPOLINE, NPROC, PGSIZE in *. cbn [rg_va rg_size] in Hi. change MAXVA with 274877906944 in *. zlia. }
  set (pr1 := upd pr a ((pr a) <| p_lock := false |>)). exists pa, k2, l1, l2, T2, (upd pr1 a ((pr1 a) <| p_kstack := KSTACK (a - 1) |>)). pose proof (page_ok_range _ (end_pos end_ etext etext_range end_data) _ Hok).
  split; [|split; [|split; [|split_and!]]]; auto.
  - unfold procinit_one. rewrite (bind_Ok _ _ _ _ _ (st_set_proc _ _ _ _ _ _ _ _ _)).
    rewrite (bind_Ok _ _ _ _ _ (st_in_kmem _ _ _ _ _ _ _ _ _ _ E1)). rewrite (proj2 (Z.eqb_neq pa 0)) by lia. cbn zeta.
    rewrite (bind_Ok (gets kpt) _ _ (kpt s) (st s (f <| fs_mem := k1 |>) pr1 fl pi nx no)) by done.
    assert (E2' : mappages (kpt s) (KSTACK (a - 1)) PGSIZE pa (Z.lor PTE_R PTE_W) (fs_mem (f <| fs_mem := k1 |>)) = Ok 0 k2) by exact E2.
    rewrite (bind_Ok _ _ _ _ _ (st_in_kmem _ _ _ _ _ _ _ _ _ _ E2')). cbn [Z.eqb negb]. by rewrite st_set_proc.
  - intros q. unfold upd at 1. destruct (Z.eqb_spec q a) as [->|N]; [rewrite decide_True by done; unfold pr1; by rewrite upd_same|].
    rewrite decide_False by done. unfold pr1. by rewrite upd_other.
  - destruct M2. by split.
  - intros x Hx. rewrite (mp_frame _ _ _ _ _ _ _ _ _ M2) by (intros p Hp; apply Hx, P1; by right). apply F1. apply Hx, P1. by left.
  - intros p pa' Hp. apply Forall_cons. split; [|apply Hr; lia].
    unfold apart, rg_first, rg_pages, stack_region, KSTACK, TRAMPOLINE, NPROC, PGSIZE in *. cbn [rg_va rg_size]. change MAXVA with 274877906944 in *. zlia.
Qed.

Lemma procinit_loop n : forall (s : kst S) (f : fst S) pr fl pi nx no k0 l0 l T rs pas, let a := 1 + Z.of_nat (length pas) in
  maps k0 l0 (fs_mem f) l (kpt s) T rs -> (74 + n <= length l0)%nat -> a + Z.of_nat n = NPROC + 1 -> room a rs ->
  (forall va, kmap rs va = kernel_pte pas va) ->
  exists new k' l0' l' T' rs' pr', each (zseq a n) procinit_one (st s f pr fl pi nx no) = Ok tt (st s (f <| fs_mem := k' |>) pr' fl pi nx no) /\
    (forall q, pr' q = if decide (a <= q <= NPROC) then with_stack (pr q) q else pr q) /\ maps k' l0' k' l' (kpt s) T' rs' /\
    (forall va, kmap rs' va = kernel_pte (pas ++ new) va) /\ length new = n /\
    (forall p, p ∈ l0 <-> p ∈ new \/ p ∈ l0') /\ NoDup new /\ (forall p, p ∈ new -> p ∉ l0') /\ (length l0 = n + length l0')%nat /\ Forall (page_ok end_) new /\
    (forall x, (forall p, p ∈ l0 -> ~ in_page p x) -> ram k' x = ram (fs_mem f) x).
Proof.
  induction n as [|n IH]; intros s f pr fl pi nx no k0 l0 l T rs pas a M Hl Ha Hr Hk; cbn [zseq each]; assert (Ha1 : a = 1 + Z.of_nat (length pas)) by done; clearbody a.
  - exists [], (fs_mem f), l0, l, T, rs, pr. split; [unfold ret; do 2 f_equal; by destruct f|]. rewrite app_nil_r. split_and!; auto.
    + intros q. by rewrite decide_False by lia.
    + destruct M. by split.
    + intros p. rewrite elem_of_nil. tauto.
    + apply NoDup_nil_2.
    + intros p Hp. by apply elem_of_nil in Hp.
  - destruct (procinit_one_spec s f pr fl pi nx no k0 l0 l T rs a M) as (pa & k1 & l1 & l2 & T1 & pr1 & E1 & Hp1 & M1 & P1 & N1 & L1 & O1 & F1 & R1); [lia|lia|done|].
    rewrite (bind_Ok _ _ _ _ _ E1).
    assert (Ea : 1 + Z.of_nat (length (pas ++ [pa])) = a + 1) by (rewrite length_app; cbn [length]; lia).
    destruct (IH s (f <| fs_mem := k1 |>) pr1 fl pi nx no k1 l1 l2 T1 (stack_region a pa :: rs) (pas ++ [pa])) as
      (new & k' & l0' & l' & T' & rs' & pr' & E & Hp & M' & Hk' & Ln & P & Nd & N & Ll & Ok' & F); rewrite ?Ea; auto; [lia|lia| |].
    { intros va. cbn [kmap]. rewrite <- kernel_pte_snoc, <- Ha1. destruct (decide (inside _ va)) as [Hi|]; [|done]. f_equal.
      unfold inside, rg_first, rg_pages, stack_region in *. cbn [rg_va rg_size rg_pa] in *. change (PGSIZE / PGSIZE) with 1 in Hi.
      assert (Ev : va / PGSIZE = KSTACK (a - 1) / PGSIZE) by lia. rewrite Ev. lia. }
    rewrite Ea in *. exists (pa :: new), k', l0', l', T', rs', pr'. split; [exact E|]. rewrite <- app_assoc in Hk'. split_and!; auto.
    + intros q. rewrite Hp, Hp1. destruct (decide (a + 1 <= q <= NPROC)); [rewrite (decide_True (P := a <= q <= NPROC)) by lia; by rewrite decide_False by lia|].
      destruct (decide (q = a)) as [->|]; [by rewrite decide_True by lia|by rewrite decide_False by lia].
    + cbn [length]. lia.
    + intros p. rewrite P1, P, elem_of_cons. tauto.
    + apply NoDup_cons. split; [|done]. intros Hn. apply N1, P. by left.
    + intros p [->|Hp']%elem_of_cons; [|by apply N]. intros Hn. apply N1, P. by right.
    + lia.
    + intros x Hx. rewrite F by (intros p Hp'; apply Hx, P1; by right). by apply F1.
Qed.

End BootMem.
