(* ===== verification/UserInit.v ===== *)
(** * The first process

    [uvminit] makes the address space of the first process, [userinit] the process. *)
From stdpp Require Import base list gmap strings.
From Stdlib Require Import ZArith Lia.
From S2P Require Import Prelude KString Riscv Kalloc Vm VmSpec VmUser VmCopy VmFork Sleeplock Bio Log Blocks Fs Kernel Pipe Proc KState ProcMem ForkProps FsCache.

#[local] Open Scope Z_scope.
#[local] Open Scope xv6_scope.

Section UserInit.

Context (end_ : Z) (end_pos : 0 < end_).

(** The page [pa] at address 0 holds [src]. *)
Lemma uvminit_rep k pa l root T src : umem end_ k (pa :: l) root T [] -> (2 <= length l)%nat -> Forall is_byte src -> Z.of_nat (length src) < PGSIZE ->
  wp (uvminit root src (Z.of_nat (length src))) (fun _ k' => exists l' T', umem end_ k' l' root T' [(pa, WXRU)] /\
    same_pages T [] (pa :: l) T' [(pa, WXRU)] l' /\ same_high k k' root /\ touches T [] (pa :: l) k k' /\ (length l <= 2 + length l')%nat /\
    forall o, 0 <= o < PGSIZE -> ram k' (pa + o) = default 0 (src !! Z.to_nat o)) k.
Proof.
  intros U Hl Hby Hs. pose proof (um_rep _ _ _ _ _ _ U) as R. pose proof TRAPFRAME_MAXVA. unfold uvminit. rewrite Z.geb_leb, (proj2 (Z.leb_gt _ _)) by lia. cbn match.
  eapply (kalloc_rep end_ end_pos k (pa :: l) root T).
  { exact R. }
  { intros E. discriminate E. }
  intros pa0 l1 k1 [= <- <-] Hnz R1 Hpa M1 V1.
  unfold clear_page. apply wp_modify. set (m2 := memset (ram k1) pa 0 PGSIZE).
  assert (Hz : forall a, in_page pa a -> m2 a = 0) by (intros a Ha; unfold m2; by rewrite memset_get, decide_True).
  assert (Hz' : forall a, ~ in_page pa a -> m2 a = ram k1 a) by (intros a Ha; unfold m2; by rewrite memset_get, decide_False).
  destruct (write_page_rep end_ k1 l root T pa m2 R1 Hpa) as [R2 V2]; [apply memset_ok, R1|done|]. set (k2 := k1 <| ram := m2 |>) in *.
  assert (V2' : forall va, 0 <= va < MAXVA -> pte_of (ram k2) root va = pte_of (ram k) root va) by (intros va Hva; cbn; by rewrite V2, V1).
  assert (U2 : umem end_ k2 l root T []) by (apply (umem_same end_ k (pa :: l) root T k2 l [] U R2); [left; by right|done]).
  assert (Hpr : pa mod PGSIZE = 0 /\ 0 <= pa /\ pa + 1 * PGSIZE < 2 ^ 56).
  { destruct Hpa as [[A1 A2] _]. split; [done|]. unfold PHYSTOP, KERNBASE, PGSIZE in *. zpow. lia. }
  destruct Hpr as (Hp1 & Hp2 & Hp3).
  assert (HnV : forall j, 0 <= j < 1 -> has (pte_of (ram k2) root (PGROUNDDOWN 0 + j * PGSIZE)) PTE_V = false).
  { intros j Hj. assert (j = 0) as -> by lia. change (PGROUNDDOWN 0 + 0 * PGSIZE) with 0. apply (um_none _ _ _ _ _ _ U2). by vm_compute. }
  eapply wp_seq; [apply (mappages_spec end_ end_pos k2 l root T 0 PGSIZE pa WXRU 1 R2); try done; vm_compute; done|].
  intros r k3 (l3 & T3 & j & R3 & G3 & Hj & Hl3 & Hr & V3). destruct Hr as [[-> ->]|(_ & _ & _ & Hlt)]; [|lia].
  destruct (umem_append end_ end_pos k2 l root T k3 l3 T3 [] pa WXRU U2 R3 G3 Hpa) as [U3 _]; try done; [by apply not_elem_of_nil|].
  pose proof (grown_free end_ end_pos _ _ _ _ _ _ pa G3 Hpa) as Hpa3. set (m4 := write_bytes (ram k3) pa src).
  assert (Ht : take (Z.to_nat (Z.of_nat (length src))) src = src) by (rewrite Nat2Z.id; apply firstn_all). rewrite Ht.
  assert (H4 : forall a, ~ in_page pa a -> m4 a = ram k3 a) by (intros a Ha; unfold m4; apply write_bytes_outside; unfold in_page in Ha; lia).
  destruct (write_page_rep end_ k3 l3 root T3 pa m4 R3 Hpa3) as [R4 V4]; [apply write_bytes_ok; [apply R3|done]|done|].
  unfold wp, modify. exists l3, T3. fold m4. set (k4 := k3 <| ram := m4 |>) in *. split_and!.
  - apply (umem_same end_ k3 l3 root T3 k4 l3 _ U3 R4); [by left|done].
  - eapply same_pages_trans; [apply (same_pages_append T [] l pa WXRU)|by eapply same_pages_grown].
  - intros va Hva. cbn. rewrite V4 by lia. rewrite V3 by lia. unfold mapped. rewrite decide_False; [apply V2'; lia|].
    unfold TRAPFRAME, TRAMPOLINE, PGSIZE in *. change MAXVA with (2 ^ 38) in *. zpow. zlia.
  - intros a Ha. cbn. assert (Hnp : ~ in_page pa a) by (apply Ha; right; right; by left). rewrite H4 by done.
    rewrite (g_mem _ _ _ _ _ _ G3); [cbn; by rewrite Hz', M1|]. intros p Hp. apply Ha. unfold owns. rewrite elem_of_cons. tauto.
  - lia.
  - intros o Ho. cbn. unfold m4. rewrite write_bytes_get. destruct (decide _) as [E|E]; [do 2 f_equal; lia|].
    rewrite (lookup_ge_None_2 src) by lia. cbn. rewrite (grown_mem end_ k2 l root T k3 l3 T3 pa (pa + o) R2 G3 Hpa) by (unfold in_page; lia).
    apply Hz. unfold in_page. lia.
Qed.

(** ** [userinit] *)

Context (trampoline forkret_ : Z) {S : Type} {L : BlockLayer S} {O : OpLayer S} {LO : OpLaws S}.
Hypothesis tramp_page : trampoline mod PGSIZE = 0 /\ 0 <= trampoline /\ trampoline + PGSIZE < 2 ^ 56.

(** The path of the root directory. *)
Lemma namei_root (f : fst S) ip f' : iget ROOTDEV ROOTINO f = Ok ip f' -> namei [SLASH; 0] f = Ok ip f'.
Proof.
  intros E. unfold namei, namex. change (peek [SLASH; 0] =? SLASH) with true. cbn match. set (name := replicate (Z.to_nat DIRSIZ) 0).
  assert (Hs : namex_step false (ip, [SLASH; 0], name) f' = Ok (inr (ip, name)) f') by reflexivity.
  pose proof (while_first (namex_step false) (ip, [SLASH; 0], name) f') as W. rewrite Hs in W.
  rewrite (bind_Ok _ _ f (ip, name) f'); [done|]. by rewrite (bind_Ok _ _ _ _ _ E).
Qed.

Lemma namei_root_st s f pr fl pi nx no : ic_lock f = false -> (forall x, entry x -> i_ref (inodes f x) = 0) ->
  exists ip g, in_fs (namei [SLASH; 0]) (st s f pr fl pi nx no) = Ok ip (st s g pr fl pi nx no) /\ fs_mem g = fs_mem f /\ ic_lock g = false /\
    caches (inodes g) ip ROOTDEV ROOTINO /\ i_ref (inodes g ip) = 1 /\ (forall x, x <> ip -> inodes g x = inodes f x) /\
    blk g = ol_ack (ol_as (p_pid (pr (cur s))) (blk f)).
Proof.
  intros Hl Hr. set (v := fs_view (st s f pr fl pi nx no)). assert (Hw : icache_wf (inodes v)).
  { split; [intros ip Hip; change (inodes v) with (inodes f); rewrite Hr; done|]. intros ip ip' dev inum (H1 & H2 & _). change (inodes v) with (inodes f) in H2. rewrite Hr in H2 by done. lia. }
  destruct (iget_spec v ROOTDEV ROOTINO Hl Hw) as [(ip & g & E & Eg & _ & Hc & Ho & Hi)|(_ & Hall & _)].
  2:{ specialize (Hall 1 ltac:(done)). change (inodes v) with (inodes f) in Hall. rewrite Hr in Hall by done. lia. }
  exists ip, g. split; [|split_and!].
  - apply st_in_fs; [by apply namei_root| |]; rewrite Eg; [apply ol_acked|done].
  - rewrite Eg. done.
  - rewrite Eg. done.
  - done.
  - destruct Hi as [[(H1 & H2 & _) _]|(_ & _ & ->)]; [|done]. change (inodes v) with (inodes f) in H2. rewrite Hr in H2 by done. lia.
  - intros x Hx. by rewrite Ho.
  - rewrite Eg. done.
Qed.

(** The trapframe with the entry point and the stack pointer of the first process. *)
Definition user_tf (m : mem) (tf : Z) : mem := store64 (store64 m (tf + TF_epc) 0) (tf + TF_sp) PGSIZE.

Lemma user_tf_spec m tf : mem_ok m -> mem_ok (user_tf m tf) /\ load64 (user_tf m tf) (tf + TF_epc) = 0 /\ load64 (user_tf m tf) (tf + TF_sp) = PGSIZE /\
  forall a, ~ in_page tf a -> user_tf m tf a = m a.
Proof.
  intros Hm. unfold user_tf, TF_epc, TF_sp. split_and!; [by repeat apply store64_ok| | |].
  - rewrite load_store64_other by lia. by rewrite load_store64.
  - by rewrite load_store64.
  - intros a Ha. unfold in_page, PGSIZE in *. by rewrite !store64_outside by lia.
Qed.

(** The entry of the first process. *)
Definition init_proc (x : proc) (pid tf pt ip : Z) : proc :=
  (new_proc forkret_ x pid tf pt) <| p_sz := PGSIZE |> <| p_name := copy_name (p_name x) [105; 110; 105; 116; 99; 111; 100; 101; 0] 16 |>
    <| p_cwd := ip |> <| p_state := RUNNABLE |> <| p_lock := false |>.

(** The memory of the first process: [initcode] in the page [pa] at address 0. *)
Record init_memory (k : kmem) (l : list Z) (root tf pa : Z) (T : gmap Z (nat * Z)) : Prop := {
  im_space : umem end_ k l root T [(pa, WXRU)];
  im_high : high_mapped k root trampoline tf;
  im_code : forall o, 0 <= o < PGSIZE -> ram k (pa + o) = default 0 (initcode !! Z.to_nat o);
  im_tf : load64 (ram k) (tf + TF_epc) = 0 /\ load64 (ram k) (tf + TF_sp) = PGSIZE
}.

Lemma init_memory_tf k l root tf pa T : umem end_ k l root T [(pa, WXRU)] -> high_mapped k root trampoline tf ->
  (forall o, 0 <= o < PGSIZE -> ram k (pa + o) = default 0 (initcode !! Z.to_nat o)) -> page_ok end_ tf -> ~ owns T [(pa, WXRU)] l tf ->
  init_memory (k <| ram := user_tf (ram k) tf |>) l root tf pa T.
Proof.
  intros U Hh Hc Hok Ho. destruct (user_tf_spec (ram k) tf) as (M1 & M2 & M3 & M4); [apply U|].
  destruct (umem_ram end_ k l root T [(pa, WXRU)] tf (user_tf (ram k) tf) U Hok) as (U' & D & H); auto.
  { intros Hq. apply Ho. by right; right. } { intros [?|?]; apply Ho; [by left|by right; left]. }
  split; auto.
  - by apply (high_mapped_same k).
  - intros o Hoo. rewrite (D pa (pa + o)); [by apply Hc|by left|unfold in_page; lia].
Qed.

Lemma userinit_spec s f pr fl pi nx no np tf root l :
  (forall q, 1 <= q <= NPROC -> p_lock (pr q) = false) -> first_unused pr np -> kmem_inv end_ (fs_mem f) (tf :: root :: l) -> (7 <= length l)%nat ->
  ic_lock f = false -> (forall x, entry x -> i_ref (inodes f x) = 0) ->
  exists g pr' l' T pa ip, userinit trampoline forkret_ (st s f pr fl pi nx no) = Ok tt (st (s <| initproc := np |>) g pr' fl pi (nx + 1) no) /\
    (forall q, q <> np -> pr' q = pr q) /\ pr' np = init_proc (pr np) nx tf root ip /\ init_memory (fs_mem g) l' root tf pa T /\
    (forall q, owns T [(pa, WXRU)] l' q <-> q ∈ root :: l) /\ (forall a, (forall q, q ∈ tf :: root :: l -> ~ in_page q a) -> ram (fs_mem g) a = ram (fs_mem f) a) /\
    ic_lock g = false /\ caches (inodes g) ip ROOTDEV ROOTINO /\ i_ref (inodes g ip) = 1 /\ (forall x, x <> ip -> inodes g x = inodes f x) /\
    blk g = ol_ack (ol_as (p_pid (pr' (cur s))) (blk f)).
Proof.
  intros Hl Hu Hk Hlen Hic Hr. pose proof Hk as [_ _ Hnd Hpg _]. apply Forall_cons in Hpg as [Htf _]. apply NoDup_cons in Hnd as [Hni _].
  destruct (allocproc_spec end_ trampoline forkret_ end_pos tramp_page s f pr fl pi nx no np tf root l Hl Hu Hk ltac:(lia)) as
    (pr1 & k1 & l1 & T1 & E1 & P1 & P1' & U1 & H1 & L1 & O1 & F1).
  destruct l1 as [|pa l1]; [cbn in L1; lia|]. cbn [length] in L1.
  pose proof (uvminit_rep k1 pa l1 root T1 initcode U1 ltac:(lia)) as W. apply wp_Ok in W as ([] & k2 & E2 & l2 & T2 & U2 & S2 & H2 & G2 & _ & C2);
    [|repeat constructor; unfold is_byte; lia|by vm_compute].
  assert (Ho2 : forall q, owns T2 [(pa, WXRU)] l2 q <-> q ∈ root :: l) by (intros q; rewrite (S2 q); apply O1).
  set (s1 := s <| initproc := np |>). set (k3 := k2 <| ram := user_tf (ram k2) tf |>).
  assert (M3 : init_memory k3 l2 root tf pa T2).
  { apply init_memory_tf; auto; [by apply (high_mapped_same k1)|]. by rewrite Ho2. }
  set (pr2 := upd pr1 np ((pr1 np) <| p_sz := PGSIZE |>)). set (pr3 := upd pr2 np ((pr2 np) <| p_name := copy_name (p_name (pr2 np)) [105; 110; 105; 116; 99; 111; 100; 101; 0] 16 |>)).
  destruct (namei_root_st s1 (f <| fs_mem := k3 |>) pr3 fl pi (nx + 1) (no + 1)) as (ip & g & E4 & Eg & Hg & Hc & Hri & Hx & Hb); [exact Hic|exact Hr|].
  set (pr4 := upd pr3 np ((pr3 np) <| p_cwd := ip |>)). set (pr5 := upd pr4 np ((pr4 np) <| p_state := RUNNABLE |>)).
  exists g, (upd pr5 np ((pr5 np) <| p_lock := false |>)), l2, T2, pa, ip. split; [|split; [|split; [|rewrite Eg; split_and!]]]; auto.
  - unfold userinit. rewrite (bind_Ok _ _ _ _ _ E1).
    rewrite (bind_Ok (modify _) _ _ tt (st s1 (f <| fs_mem := k1 |>) pr1 fl pi (nx + 1) (no + 1))) by reflexivity.
    rewrite (bind_Ok _ _ _ _ _ (st_get_proc _ _ _ _ _ _ _ _)). assert (Ept : p_pagetable (pr1 np) = root) by (by rewrite P1'). rewrite Ept.
    pose proof (st_in_kmem s1 (f <| fs_mem := k1 |>) pr1 fl pi (nx + 1) (no + 1) (uvminit root initcode (Z.of_nat (length initcode))) tt k2 E2) as E2'.
    rewrite (bind_Ok _ _ _ _ _ E2').
    rewrite (bind_Ok _ _ _ _ _ (st_set_proc _ _ _ _ _ _ _ _ _)). fold pr2.
    assert (Et : p_tf (pr2 np) = tf) by (unfold pr2; rewrite upd_same, P1'; done).
    rewrite (bind_Ok _ _ _ _ _ (tf_store_st _ _ _ _ _ _ _ _ _ _)), (bind_Ok _ _ _ _ _ (tf_store_st _ _ _ _ _ _ _ _ _ _)), Et.
    rewrite (bind_Ok _ _ _ _ _ (st_set_proc _ _ _ _ _ _ _ _ _)). fold pr3.
    match goal with |- bind _ _ (st _ ?x _ _ _ _ _) = _ => change x with (f <| fs_mem := k3 |>) end.
    rewrite (bind_Ok _ _ _ _ _ E4), (bind_Ok _ _ _ _ _ (st_set_proc _ _ _ _ _ _ _ _ _)). fold pr4.
    rewrite (bind_Ok _ _ _ _ _ (st_set_proc _ _ _ _ _ _ _ _ _)). fold pr5. rewrite st_punlock by (unfold pr5, pr4, pr3, pr2; by rewrite !upd_same, P1').
    do 3 f_equal. lia.
  - intros q Hq. unfold pr5, pr4, pr3, pr2. rewrite !upd_other by done. by apply P1.
  - unfold pr5, pr4, pr3, pr2. rewrite !upd_same, P1'. reflexivity.
  - intros a Ha. change (user_tf (ram k2) tf a = ram (fs_mem f) a). destruct (user_tf_spec (ram k2) tf) as (_ & _ & _ & M4); [apply U2|].
    rewrite M4 by (apply Ha; by left). rewrite (G2 a); [by apply F1|]. intros q Hq. apply Ha. right. by apply O1.
  - rewrite Hb. change (cur s1) with (cur s). change (blk (f <| fs_mem := k3 |>)) with (blk f). do 2 f_equal.
    destruct (decide (cur s = np)) as [->|N]; [by unfold pr5, pr4; rewrite !upd_same|by unfold pr5, pr4; rewrite !upd_other].
Qed.

End UserInit.
