(* ===== verification/Boot.v ===== *)
(** * [kernel/start.c], [kernel/main.c]: booting

    [start] runs in machine mode and jumps to [main], which initialises the kernel on
    hart 0 and enters the scheduler.  The state is the kernel's, with the device
    registers written and the disk driver beside it. *)
From stdpp Require Import base list gmap strings.
From Stdlib Require Import ZArith Lia.
From S2P Require Import Prelude KString Riscv Kalloc Vm Sleeplock Bio Log LogCrash Blocks Fs Kernel Pipe Proc Console Syscall Exec Sysfile Trap Virtio.

#[local] Open Scope Z_scope.
#[local] Open Scope xv6_scope.

Module Boot.

(** ** [start.c] *)

Definition MSTATUS_MPP_MASK : Z := Z.shiftl 3 11.
Definition MSTATUS_MPP_S : Z := Z.shiftl 1 11.
Definition MSTATUS_MIE : Z := Z.shiftl 1 3.
Definition SIE_BITS : Z := Z.lor (Z.lor (Z.shiftl 1 9) (Z.shiftl 1 5)) (Z.shiftl 1 1).      (** [SIE_SEIE | SIE_STIE | SIE_SSIE] *)
Definition MIE_MTIE : Z := Z.shiftl 1 7.
Definition CLINT_MTIMECMP (hartid : Z) : Z := CLINT + 0x4000 + 8 * hartid.

(** The registers of a hart that [start] uses, and its two stores to memory-mapped registers. *)
Record hart : Type := Hart {
  h_priv : Z;              (** 3: machine mode, 1: supervisor mode, 0: user mode *)
  h_pc : Z;
  h_mstatus : Z;
  h_mepc : Z;
  h_satp : Z;
  h_medeleg : Z;
  h_mideleg : Z;
  h_sie : Z;
  h_mie : Z;
  h_mtvec : Z;
  h_mscratch : Z;
  h_mhartid : Z;
  h_tp : Z;
  h_mtime : Z;             (** [CLINT_MTIME] *)
  h_mtimecmp : Z;          (** [CLINT_MTIMECMP] of this hart *)
  h_scratch : Z * Z        (** [scratch[4]] and [scratch[5]] *)
}.

#[export] Instance hart_eta : Eta hart := fun h =>
  Hart (h_priv h) (h_pc h) (h_mstatus h) (h_mepc h) (h_satp h) (h_medeleg h) (h_mideleg h) (h_sie h) (h_mie h) (h_mtvec h) (h_mscratch h)
       (h_mhartid h) (h_tp h) (h_mtime h) (h_mtimecmp h) (h_scratch h).

(** [mscratch0] and [timervec] are the linker's. *)
Definition timerinit (mscratch0 timervec : Z) (h : hart) : hart :=
  let id := h_mhartid h in
  let interval := 1000000 in
  let h := h <| h_mtimecmp := u64 (h_mtime h + interval) |> in
  let scratch := mscratch0 + 8 * (32 * id) in
  let h := h <| h_scratch := (CLINT_MTIMECMP id, interval) |> in
  let h := h <| h_mscratch := scratch |> in
  let h := h <| h_mtvec := timervec |> in
  let h := h <| h_mstatus := Z.lor (h_mstatus h) MSTATUS_MIE |> in
  h <| h_mie := Z.lor (h_mie h) MIE_MTIE |>.

(** The instruction [mret]: the mode is the field MPP of [mstatus], execution goes on at [mepc]. *)
Definition mret (h : hart) : hart :=
  h <| h_priv := Z.land (Z.shiftr (h_mstatus h) 11) 3 |> <| h_pc := h_mepc h |>.

Definition start (main_ mscratch0 timervec : Z) (h : hart) : hart :=
  let x := h_mstatus h in
  let x := Z.ldiff x MSTATUS_MPP_MASK in
  let x := Z.lor x MSTATUS_MPP_S in
  let h := h <| h_mstatus := x |> in
  let h := h <| h_mepc := main_ |> in
  let h := h <| h_satp := 0 |> in
  let h := h <| h_medeleg := 0xffff |> in
  let h := h <| h_mideleg := 0xffff |> in
  let h := h <| h_sie := Z.lor (h_sie h) SIE_BITS |> in
  let h := timerinit mscratch0 timervec h in
  let h := h <| h_tp := h_mhartid h |> in
  mret h.

(** ** [main.c] *)

Record machine : Type := Machine {
  m_k : kst lst;
  m_stores : list (Z * Z);     (** device registers written, address and value *)
  m_vd : vst;                  (** the disk driver and the disk *)
  started : bool
}.

#[export] Instance machine_eta : Eta machine := fun m => Machine (m_k m) (m_stores m) (m_vd m) (started m).

Definition on_k {A} (c : M (kst lst) A) : M machine A := zoom m_k (fun k m => m <| m_k := k |>) c.
Definition on_vd {A} (c : M vst A) : M machine A := zoom m_vd (fun v m => m <| m_vd := v |>) c.
Definition stores (l : list (Z * Z)) : M machine unit := modify (fun m => m <| m_stores := m_stores m ++ l |>).

(** [kvminit] on the kernel's memory. *)
Definition on_kvm {A} (c : M kvm A) : M (kst lst) A :=
  zoom (fun s => Kvm (fs_mem (kfs s)) (kpt s)) (fun v s => s <| kfs := (kfs s) <| fs_mem := kvm_mem v |> |> <| kpt := kernel_pagetable v |>) c.

(** [binit] on the buffer cache. *)
Definition on_bc (g : bst -> bst) : M (kst lst) unit :=
  modify (fun s => s <| kfs := (kfs s) <| blk := (blk (kfs s)) <| bc := g (bc (blk (kfs s))) |> |> |>).

Definition on_fs {A} (c : M (fst lst) A) : M (kst lst) A := zoom kfs (fun f s => s <| kfs := f |>) c.

Section Main.

(** The linker's symbols, what the registers of the disk read as, and the address of its rings. *)
Context (end_ etext trampoline forkret_ kernelvec : Z) (reg : Z -> Z) (pages : Z).

(** The branch of hart 0. *)
Definition main_first : M machine unit :=
  on_k consoleinit ;;
  stores uartinit ;;
  on_k printfinit ;;
  on_k (printf [NL] []) ;;
  on_k (printf (bytes_of "xv6 kernel is booting" ++ [NL]) []) ;;
  on_k (printf [NL] []) ;;
  on_k (in_kmem (kinit end_)) ;;
  on_k (on_kvm (kvminit etext trampoline)) ;;
  on_k kvminithart ;;
  on_k procinit ;;
  on_k trapinit ;;
  on_k (trapinithart kernelvec) ;;
  stores plicinit ;;
  stores (plicinithart 0) ;;
  on_k (on_bc binit) ;;
  on_k (on_fs iinit) ;;
  on_k fileinit ;;
  on_vd (virtio_disk_init reg 0 pages) ;;
  on_k (userinit trampoline forkret_) ;;
  modify (fun m => m <| started := true |>).

(** The branch of the other harts; a hart that finds [started] clear looks again. *)
Definition main_other (id : Z) : M machine unit :=
  s ← gets started ;
  if negb s then sleep_on (Chan "started" 0) else
  on_k (printf (bytes_of "hart %d starting" ++ [NL]) [AInt id]) ;;
  on_k kvminithart ;;
  on_k (trapinithart kernelvec) ;;
  stores (plicinithart id).

(** [n] turns of the loop of [scheduler]. *)
Definition main (id : Z) (n : nat) (run : Z -> M (kst lst) unit) (wfi : M (kst lst) unit) : M machine unit :=
  (if id =? 0 then main_first else main_other id) ;;
  on_k (scheduler n run wfi).

End Main.

End Boot.
