(* ===== verification/BootProps.v ===== *)
(** * Booting sets up the kernel

    [boot_kernel]: [main] on hart 0 ends with the kernel's address space as designed,
    the first process ready to run, every other entry free, and every page of
    physical memory accounted for. *)
From stdpp Require Import base list gmap strings.
From Stdlib Require Import ZArith Lia.
From S2P Require Import Prelude KString Riscv Kalloc Vm VmSpec VmUser VmCopy VmFork KernVm Sleeplock Bio Log LogCrash Blocks Fs FsCache Kernel Pipe Proc KState ProcMem ForkProps Console Syscall Exec Sysfile Trap Virtio VirtioProps BootMem UserInit Boot.

#[local] Open Scope Z_scope.
#[local] Open Scope xv6_scope.

Import Boot.

(** ** [start] *)

(** [start] enters [main] in supervisor mode with paging off, all traps but those of machine mode
    delegated and the timer set. *)
Lemma start_spec main_ mscratch0 timervec h : 0 <= h_mstatus h -> let h' := start main_ mscratch0 timervec h in
  h_priv h' = 1 /\ h_pc h' = main_ /\ h_satp h' = 0 /\ h_tp h' = h_mhartid h /\ h_medeleg h' = 0xffff /\ h_mideleg h' = 0xffff /\
  Z.testbit (h_mstatus h') 3 = true /\ Z.testbit (h_mie h') 7 = true /\ h_mtvec h' = timervec /\
  h_mscratch h' = mscratch0 + 256 * h_mhartid h /\ h_scratch h' = (CLINT_MTIMECMP (h_mhartid h), 1000000) /\ h_mtimecmp h' = u64 (h_mtime h + 1000000).
Proof.
  intros Hm h'. split_and!; try done.
  - change (Z.land (Z.shiftr (Z.lor (Z.lor (Z.ldiff (h_mstatus h) MSTATUS_MPP_MASK) MSTATUS_MPP_S) MSTATUS_MIE) 11) 3 = 1).
    apply Z.bits_inj'. intros n Hn. rewrite Z.land_spec, Z.shiftr_spec, !Z.lor_spec, Z.ldiff_spec by done.
    assert (n = 0 \/ n = 1 \/ 2 <= n) as [->|[->|Hn2]] by lia.
    + by rewrite !orb_true_r.
    + cbn. rewrite andb_false_r. done.
    + replace (Z.testbit 3 n) with false; [rewrite andb_false_r; symmetry; apply Z.bits_above_log2; [done|cbn; lia]|].
      symmetry. apply Z.bits_above_log2; [done|cbn; lia].
  - change (Z.testbit (Z.lor (Z.lor (Z.ldiff (h_mstatus h) MSTATUS_MPP_MASK) MSTATUS_MPP_S) MSTATUS_MIE) 3 = true).
    rewrite Z.lor_spec. by rewrite orb_true_r.
  - change (Z.testbit (Z.lor (h_mie h) MIE_MTIE) 7 = true). rewrite Z.lor_spec. by rewrite orb_true_r.
  - change (mscratch0 + 8 * (32 * h_mhartid h) = mscratch0 + 256 * h_mhartid h). lia.
Qed.

(** ** The states of [main] *)

Definition boot_inode : inode := Inode 0 0 0 (Sleeplock false false 0) false 0 0 0 0 0 (replicate 13 0).

(** The file system in static storage, with the memory [m] and the disk [D]. *)
Definition boot_fst (m : mem) (D : Z * Z -> block) : fst lst :=
  Fst (Lst boot_log (boot_bst D 0) 0) (Superblock 0 0 0 0 0 0 0 0) false (fun _ => boot_inode) 0 0 (Kmem false 0 m) 0 [] [].

(** A state during boot: no process runs, no lock is held, no file is open. *)
Definition bk (f : fst lst) (pr : Z -> proc) (c : consst) (kp : Z) (cs : csr) (ip nx : Z) : kst lst :=
  Kst f pr 0 0 ip nx false false (fun _ => zero_file) (fun _ => zero_pipe) 0 false c kp true cs.

Lemma on_k_Ok {A} (c : M (kst lst) A) a k m : c (m_k m) = Ok a k -> on_k c m = Ok a (m <| m_k := k |>).
Proof. intros E. unfold on_k, zoom. by rewrite E. Qed.

(** The console after the first messages. *)
Definition boot_con : consst := Cons false (replicate 128 0) 0 0 0 ([NL] ++ bytes_of "xv6 kernel is booting" ++ [NL; NL]) [] false true.

Definition csr0 : csr := Csr 0 0 0 0 0 0 0 0 [] [].

Lemma boot_messages f v0 rest :
  (on_k consoleinit ;; stores uartinit ;; on_k printfinit ;; on_k (printf [NL] []) ;; on_k (printf (bytes_of "xv6 kernel is booting" ++ [NL]) []) ;;
   on_k (printf [NL] []) ;; rest) (Machine (boot_kst f) [] v0 false) =
  (rest : M machine unit) (Machine (bk f (fun _ => zero_proc) boot_con 0 csr0 0 1) uartinit v0 false).
Proof.
  set (s1 := Machine (bk f (fun _ => zero_proc) zero_con 0 csr0 0 1)). rewrite (bind_Ok _ _ _ tt (s1 [] v0 false)) by reflexivity.
  rewrite (bind_Ok _ _ _ tt (s1 uartinit v0 false)) by reflexivity.
  set (c := fun out => Cons false (replicate 128 0) 0 0 0 out [] false true). set (s2 := fun out => Machine (bk f (fun _ => zero_proc) (c out) 0 csr0 0 1) uartinit v0 false).
  rewrite (bind_Ok _ _ _ tt (s2 [])) by reflexivity. rewrite (bind_Ok _ _ _ tt (s2 [NL])) by (by vm_compute).
  rewrite (bind_Ok _ _ _ tt (s2 ([NL] ++ bytes_of "xv6 kernel is booting" ++ [NL]))) by (by vm_compute).
  rewrite (bind_Ok _ _ _ tt (s2 ([NL] ++ bytes_of "xv6 kernel is booting" ++ [NL; NL]))) by (by vm_compute). reflexivity.
Qed.

Section BootKernel.

Context (end_ etext trampoline forkret_ kernelvec : Z) (reg : Z -> Z) (pages : Z).
Hypothesis etext_page : etext mod PGSIZE = 0.
Hypothesis etext_range : KERNBASE < etext < PHYSTOP.
Hypothesis tramp_page : trampoline mod PGSIZE = 0.
Hypothesis tramp_text : KERNBASE <= trampoline < etext.
Hypothesis end_data : etext <= end_.
Hypothesis end_room : end_ + 120 * PGSIZE <= PHYSTOP.      (** memory for 120 pages *)

Lemma boot_pages m lk : mem_ok m -> exists k root l, kinit end_ (Kmem lk 0 m) = Ok tt k /\ kmem_inv end_ k (root :: l) /\ (118 <= length l)%nat /\
  forall pa, pa ∈ root :: l <-> page_ok end_ pa.
Proof.
  intros Hm. assert (He : 0 < end_) by (unfold KERNBASE in *; lia).
  destruct (kinit_all_pages end_ He m lk Hm ltac:(unfold PGSIZE in *; lia)) as (k & E & Hk & Hp).
  set (n := Z.to_nat ((PHYSTOP - PGROUNDUP end_) / PGSIZE)) in *.
  assert (Hn : (119 <= n)%nat).
  { unfold n. assert (PGROUNDUP end_ = PGSIZE * ((end_ + PGSIZE - 1) / PGSIZE)) as -> by (apply PGROUNDUP_div; unfold PHYSTOP, KERNBASE, PGSIZE in *; zpow; lia).
    unfold PHYSTOP, KERNBASE, PGSIZE in *. zlia. }
  assert (Hl : length (rev (pages_from (PGROUNDUP end_) n)) = n).
  { rewrite length_rev. clear. generalize (PGROUNDUP end_). induction n as [|n IH]; intros p; [done|]. cbn. by rewrite IH. }
  destruct (rev (pages_from (PGROUNDUP end_) n)) as [|root l] eqn:El; [cbn in Hl; lia|]. exists k, root, l. split_and!; auto.
  - cbn in Hl. lia.
  - intros pa. rewrite <- Hp, <- El. rewrite <- (rev_involutive (pages_from (PGROUNDUP end_) n)) at 2. rewrite El.
    rewrite !list_elem_of_In. apply in_rev.
Qed.

(** The memory after [procinit]. *)
Record boot_space (k : kmem) (l : list Z) (root : Z) (T : gmap Z (nat * Z)) (stacks : list Z) : Prop := {
  bs_rep : vmrep end_ k l root T;
  bs_map : forall va, 0 <= va < MAXVA -> pte_of (ram k) root va = kernel_pte etext trampoline stacks va;
  bs_stacks : Z.of_nat (length stacks) = NPROC /\ NoDup stacks;
  bs_pages : forall p, page_ok end_ p <-> p ∈ stacks \/ is_Some (T !! p) \/ p ∈ l;
  bs_apart : forall p, p ∈ stacks -> T !! p = None /\ (p ∉ l);
  bs_free : (20 <= length l)%nat
}.

Lemma room_kernel : room 1 (kregions etext trampoline).
Proof.
  intros p pa Hp. repeat (apply Forall_cons; split); [..|apply Forall_nil; done];
    unfold apart, rg_first, rg_pages, stack_region, KSTACK, VIRTION, UART0, CLINT, PLIC, TRAMPOLINE, PHYSTOP, KERNBASE, NPROC, PGSIZE in *;
    change MAXVA with 274877906944 in *; cbn [rg_va rg_pa rg_size rg_perm]; zlia.
Qed.

Lemma boot_memory m f c kp cs st0 vd rest : mem_ok m -> fs_mem f = Kmem false 0 m ->
  exists k root l T stacks pr, boot_space k l root T stacks /\ (forall q, pr q = if decide (1 <= q <= NPROC) then with_stack zero_proc q else zero_proc) /\
    (on_k (in_kmem (kinit end_)) ;; on_k (on_kvm (kvminit etext trampoline)) ;; on_k kvminithart ;; on_k procinit ;; rest)
      (Machine (bk f (fun _ => zero_proc) c kp cs 0 1) st0 vd false) =
    (rest : M machine unit) (Machine (bk (f <| fs_mem := k |>) pr c root (cs <| satp := MAKE_SATP root |>) 0 1) st0 vd false).
Proof.
  intros Hm Ef. destruct (boot_pages m false Hm) as (k1 & root & l1 & E1 & Hk1 & Hl1 & Hp1).
  destruct (kvminit_spec end_ etext trampoline etext_page etext_range tramp_page tramp_text end_data (Kvm k1 kp) root l1 Hk1 ltac:(lia)) as (k2 & l2 & T2 & E2 & M2).
  set (cs1 := cs <| satp := MAKE_SATP root |>). set (s2 := bk (f <| fs_mem := k2 |>) (fun _ => zero_proc) c root cs1 0 1).
  assert (M2' : maps end_ kcoords k1 (root :: l1) (fs_mem (f <| fs_mem := k2 |>)) l2 (kpt s2) T2 (kregions etext trampoline)) by exact M2.
  destruct (procinit_loop end_ etext trampoline etext_page etext_range tramp_page tramp_text end_data 10 s2 (f <| fs_mem := k2 |>) (fun _ => zero_proc) (fun _ => zero_file) (fun _ => zero_pipe) 1 0
    k1 (root :: l1) l2 T2 (kregions etext trampoline) [] M2') as (new & k3 & l3 & l4 & T3 & rs & pr & E3 & Hpr & M3 & Hk3 & Ln & P & Nd & N & Ll & _ & _);
    [cbn [length]; lia|done|apply room_kernel|intros va; unfold kernel_pte; rewrite decide_False; [done|cbn [length]; lia]|].
  exists k3, root, l4, T3, new, pr. split; [|split].
  - pose proof M3 as [R3 _ Q3 C3 V3 _]. split; auto.
    + intros va Hva. rewrite V3 by done. apply Hk3.
    + split; [by rewrite Ln|done].
    + intros p. rewrite <- Hp1, P, Q3. done.
    + intros p Hp. pose proof (N p Hp) as Hn. rewrite Q3 in Hn. split; [apply eq_None_not_Some|]; tauto.
    + pose proof (table_count end_ _ _ _ _ (vr_pt _ _ _ _ _ R3) (mp_coords _ _ _ _ _ _ _ _ _ M3)) as Ht. cbn [length] in Ll. change (length kcoords) with 73%nat in Ht. lia.
  - exact Hpr.
  - set (s1 := bk (f <| fs_mem := k1 |>) (fun _ => zero_proc) c kp cs 0 1).
    rewrite (bind_Ok _ _ _ tt (Machine s1 st0 vd false)) by (apply on_k_Ok; unfold in_kmem, zoom; cbn [kfs bk m_k]; rewrite Ef; by rewrite E1).
    rewrite (bind_Ok _ _ _ tt (Machine (bk (f <| fs_mem := k2 |>) (fun _ => zero_proc) c root cs 0 1) st0 vd false)).
    2:{ apply on_k_Ok. unfold on_kvm, zoom. change (Kvm (fs_mem (kfs (m_k (Machine s1 st0 vd false)))) (kpt (m_k (Machine s1 st0 vd false)))) with (Kvm k1 kp). by rewrite E2. }
    rewrite (bind_Ok _ _ _ tt (Machine s2 st0 vd false)) by reflexivity.
    rewrite (bind_Ok (on_k procinit) _ _ tt (Machine (bk (f <| fs_mem := k3 |>) pr c root cs1 0 1) st0 vd false)); [done|].
    apply on_k_Ok. unfold procinit. rewrite (bind_Ok _ _ _ tt s2) by reflexivity.
    change s2 with (st s2 (f <| fs_mem := k2 |>) (fun _ => zero_proc) (fun _ => zero_file) (fun _ => zero_pipe) 1 0) at 1.
    rewrite (bind_Ok _ _ _ _ _ E3). reflexivity.
Qed.

(** ** The kernel after [main] *)

(** Every page of free memory, by who has it: kernel stacks, trapframe, the kernel's page
    table [T], the page table [Tu] and the page [pa] of the first process, the free list. *)
Definition all_pages (stacks : list Z) (tf : Z) (T Tu : gmap Z (nat * Z)) (pa : Z) (l : list Z) : list Z :=
  stacks ++ tf :: (map_to_list T).*1 ++ (map_to_list Tu).*1 ++ pa :: l.

Record booted_with (D : Z * Z -> block) (mc : machine) (T : gmap Z (nat * Z)) (stacks : list Z) (tf pt pa ip : Z) (Tu : gmap Z (nat * Z)) (l : list Z) : Prop := {
  bt_map : forall va, 0 <= va < MAXVA -> pte_of (ram (fs_mem (kfs (m_k mc)))) (kpt (m_k mc)) va = kernel_pte etext trampoline stacks va;
  bt_satp : satp (csrs (m_k mc)) = MAKE_SATP (kpt (m_k mc)) /\ stvec (csrs (m_k mc)) = kernelvec;
  bt_stacks : Z.of_nat (length stacks) = NPROC /\ forall p, 1 <= p <= NPROC -> p_kstack (procs (m_k mc) p) = KSTACK (p - 1);
  bt_init : initproc (m_k mc) = 1 /\ procs (m_k mc) 1 = init_proc forkret_ (with_stack zero_proc 1) 1 tf pt ip;
  bt_memory : init_memory end_ trampoline (fs_mem (kfs (m_k mc))) l pt tf pa Tu;
  bt_root : caches (inodes (kfs (m_k mc))) ip ROOTDEV ROOTINO /\ i_ref (inodes (kfs (m_k mc)) ip) = 1;
  bt_rest : forall p, 2 <= p <= NPROC -> p_state (procs (m_k mc) p) = UNUSED /\ p_lock (procs (m_k mc) p) = false;
  bt_pages : NoDup (all_pages stacks tf T Tu pa l) /\ forall p, p ∈ all_pages stacks tf T Tu pa l <-> page_ok end_ p;
  bt_locks : k_noff (m_k mc) = 0 /\ ic_lock (kfs (m_k mc)) = false /\ kmem_lock (fs_mem (kfs (m_k mc))) = false;
  bt_cache : lrep (blk (kfs (m_k mc))) boot_log (a_boot D) 0 [];
  bt_disk : ready (m_vd mc) /\ started mc = true
}.

Lemma elem_of_keys (T : gmap Z (nat * Z)) p : p ∈ (map_to_list T).*1 <-> is_Some (T !! p).
Proof.
  rewrite list_elem_of_fmap. split.
  - intros ([q x] & -> & Hq). apply elem_of_map_to_list in Hq. eauto.
  - intros [x Hx]. exists (p, x). split; [done|]. by apply elem_of_map_to_list.
Qed.

(** The pages of the process come from the free list that [procinit] left. *)
Lemma pages_divided k root T stacks tf pt l0 k' l Tu pa : boot_space k (tf :: pt :: l0) root T stacks -> init_memory end_ trampoline k' l pt tf pa Tu ->
  (forall q, owns Tu [(pa, WXRU)] l q <-> q ∈ pt :: l0) ->
  NoDup (all_pages stacks tf T Tu pa l) /\ forall p, p ∈ all_pages stacks tf T Tu pa l <-> page_ok end_ p.
Proof.
  intros [[Hk I Hf] _ [_ Hs] Hp Ha _] [U _ _ _] Ho. pose proof Hk as [_ _ Hnd _ _]. apply NoDup_cons in Hnd as [Htf _].
  assert (Hpa : freeable end_ l Tu pa) by (apply (um_free _ _ _ _ _ _ U); by left).
  assert (Hmem : forall p, p ∈ (map_to_list Tu).*1 ++ pa :: l <-> p ∈ pt :: l0).
  { intros p. rewrite <- Ho. unfold owns. cbn. rewrite elem_of_app, elem_of_keys, !elem_of_cons, elem_of_nil. tauto. }
  split.
  - unfold all_pages. apply NoDup_app. split_and!; [done| |].
    { intros p Hin. destruct (Ha p Hin) as [HT Hl]. rewrite elem_of_cons, elem_of_app, Hmem, elem_of_keys. rewrite elem_of_cons in Hl. intros [->|[[x Hx]|?]]; [by apply Hl; left|congruence|by apply Hl; right]. }
    apply NoDup_cons. split.
    { rewrite elem_of_app, Hmem, elem_of_keys. intros [Hx|?]; [|done]. by apply (Hf tf Hx); left. }
    apply NoDup_app. split_and!; [apply NoDup_fst_map_to_list| |].
    { intros p Hin. rewrite elem_of_keys in Hin. rewrite Hmem. intros ?. by apply (Hf p Hin); right. }
    apply NoDup_app. split_and!; [apply NoDup_fst_map_to_list| |].
    { intros p Hin. rewrite elem_of_keys in Hin. rewrite elem_of_cons. intros [->|Hl]; [destruct Hin, Hpa as (_ & _ & ?); congruence|].
      by apply (vr_free _ _ _ _ _ (um_rep _ _ _ _ _ _ U) p Hin). }
    apply NoDup_cons. split; [apply Hpa|]. apply (vr_kmem _ _ _ _ _ (um_rep _ _ _ _ _ _ U)).
  - intros p. unfold all_pages. rewrite Hp, elem_of_app, elem_of_cons, elem_of_app, Hmem, elem_of_keys, (elem_of_cons _ p tf). tauto.
Qed.

(** [iinit] clears the locks of the inodes. *)
Lemma iinit_inodes l : forall f : Z -> inode, (forall x, f x = boot_inode) ->
  forall x, fold_left (fun f ip => upd f ip ((f ip) <| i_lock := initsleeplock |>)) l f x = boot_inode.
Proof.
  induction l as [|a l IH]; intros f H x; [apply H|]. cbn [fold_left]. apply IH. intros y. unfold upd. destruct (y =? a); [|apply H]. by rewrite H.
Qed.

Lemma binit_fold_fields l : forall s, mypid (fold_left binit_step l s) = mypid s /\ bc_wakes (fold_left binit_step l s) = bc_wakes s.
Proof. induction l as [|b l IH]; intros s; [done|]. cbn [fold_left]. by destruct (IH (binit_step s b)) as [-> ->]. Qed.

Lemma binit_fields s : mypid (binit s) = mypid s /\ bc_wakes (binit s) = bc_wakes s.
Proof. unfold binit. match goal with |- mypid (fold_left _ ?l ?t) = _ /\ _ => destruct (binit_fold_fields l t) as [-> ->] end. done. Qed.

Lemma ack_boot l s : mypid s = 0 -> bc_wakes s = [] -> ol_ack (ol_as 0 (Lst l s 0)) = Lst l s 0.
Proof. intros H1 H2. destruct s. cbn in *. by subst. Qed.

(** From [procinit] on, the first process. *)
Lemma boot_user D f k root l T stacks pr c cs st0 vd : boot_space k l root T stacks ->
  (forall q, pr q = if decide (1 <= q <= NPROC) then with_stack zero_proc q else zero_proc) ->
  blk f = Lst boot_log (boot_bst D 0) 0 -> (forall x, inodes f x = boot_inode) -> good_regs reg -> vd_init vd = false -> satp cs = MAKE_SATP root ->
  exists mc tf pt pa ip Tu l', (on_k trapinit ;; on_k (trapinithart kernelvec) ;; stores plicinit ;; stores (plicinithart 0) ;; on_k (on_bc binit) ;; on_k (on_fs iinit) ;;
      on_k fileinit ;; on_vd (virtio_disk_init reg 0 pages) ;; on_k (userinit trampoline forkret_) ;; modify (fun m => m <| started := true |>))
    (Machine (bk (f <| fs_mem := k |>) pr c root cs 0 1) st0 vd false) = Ok tt mc /\ booted_with D mc T stacks tf pt pa ip Tu l'.
Proof.
  intros B Hpr Hblk Hin Hreg Hvd Hsatp. pose proof (bs_free _ _ _ _ _ B) as Hfr. destruct l as [|tf [|pt l0]]; [cbn in Hfr; lia..|]. cbn [length] in Hfr.
  set (cs1 := cs <| stvec := kernelvec |>). set (b1 := Lst boot_log (binit (boot_bst D 0)) 0).
  set (ins := fold_left (fun f ip => upd f ip ((f ip) <| i_lock := initsleeplock |>)) (zseq 1 (Z.to_nat NINODE)) (inodes f)).
  set (f1 := f <| fs_mem := k |> <| blk := b1 |>). set (f2 := f1 <| ic_lock := false |> <| inodes := ins |>).
  assert (Hins : forall x, inodes f2 x = boot_inode) by (intros x; by apply iinit_inodes).
  destruct (proj1 (wp_Ok _ _ _) (virtio_disk_init_spec reg 0 pages vd Hreg Hvd)) as ([] & vd' & Ev & _ & Hrdy).
  set (s2 := bk f2 pr c root cs1 0 1).
  assert (Htp : trampoline mod PGSIZE = 0 /\ 0 <= trampoline /\ trampoline + PGSIZE < 2 ^ 56) by (split; [done|]; clear - tramp_text etext_range; unfold PHYSTOP, KERNBASE, PGSIZE in *; change (2 ^ 56) with 72057594037927936; lia).
  destruct (userinit_spec end_ (end_pos end_ etext etext_range end_data) trampoline forkret_ Htp s2 f2 pr (fun _ => zero_file) (fun _ => zero_pipe) 1 0 1 tf pt l0) as
    (g & pr' & l' & Tu & pa & ip & E & Ho & H1 & HM & HO & HF & Hic & Hc & Hri & Hx & Hb).
  { intros q Hq. by rewrite Hpr, decide_True. } { split; [done|]. split; [by rewrite Hpr|]. lia. } { apply B. } { lia. } { done. } { intros x _. by rewrite Hins. }
  set (mc := Machine (bk g pr' c root cs1 1 2) (st0 ++ plicinit ++ plicinithart 0) vd' true). exists mc, tf, pt, pa, ip, Tu, l'. split.
  - set (s0 := bk (f <| fs_mem := k |>) pr c root). set (st1 := st0 ++ plicinit ++ plicinithart 0).
    rewrite (bind_Ok (on_k trapinit) _ _ tt (Machine (s0 cs 0 1) st0 vd false)) by reflexivity.
    rewrite (bind_Ok (on_k (trapinithart kernelvec)) _ _ tt (Machine (s0 cs1 0 1) st0 vd false)) by reflexivity.
    rewrite (bind_Ok (stores plicinit) _ _ tt (Machine (s0 cs1 0 1) (st0 ++ plicinit) vd false)) by reflexivity.
    rewrite (bind_Ok (stores (plicinithart 0)) _ _ tt (Machine (s0 cs1 0 1) st1 vd false)).
    2:{ unfold stores, modify. cbn [m_stores field_update]. unfold st1. by rewrite app_assoc. }
    rewrite (bind_Ok (on_k (on_bc binit)) _ _ tt (Machine (bk f1 pr c root cs1 0 1) st1 vd false)).
    2:{ apply on_k_Ok. unfold on_bc, modify. do 2 f_equal. unfold f1, b1. change (blk (kfs (m_k (Machine (s0 cs1 0 1) st1 vd false)))) with (blk f). rewrite Hblk. reflexivity. }
    rewrite (bind_Ok (on_k (on_fs iinit)) _ _ tt (Machine s2 st1 vd false)) by reflexivity.
    rewrite (bind_Ok (on_k fileinit) _ _ tt (Machine s2 st1 vd false)) by reflexivity.
    rewrite (bind_Ok (on_vd _) _ _ tt (Machine s2 st1 vd' false)) by (unfold on_vd, zoom; cbn [m_vd]; by rewrite Ev).
    rewrite (bind_Ok (on_k (userinit trampoline forkret_)) _ _ tt (Machine (bk g pr' c root cs1 1 2) st1 vd' false)) by (apply on_k_Ok; exact E).
    reflexivity.
  - pose proof B as [[Hk I Hf] HV [Hs1 Hs2] HP HA _]. pose proof Hk as [_ _ _ Hpg _]. split; cbn [m_k m_vd started mc].
    + intros va Hva. change (fs_mem (kfs (bk g pr' c root cs1 1 2))) with (fs_mem g). change (kpt (bk g pr' c root cs1 1 2)) with root. rewrite <- HV by done.
      destruct (pt_frame end_ (ram k) (ram (fs_mem g)) root T I) as [_ V]; [|apply V; rewrite above_2 by done; apply I].
      intros p a Hp Ha. apply HF. intros q Hq Haq. assert (p <> q) by (intros ->; by apply (Hf q)). pose proof (proj1 (Forall_forall _ _) Hpg q Hq) as [Aq _].
      destruct Hp as [x Hp]. pose proof (pi_page _ _ _ _ I _ _ Hp) as [Ap _]. destruct (pages_apart p q Ap Aq ltac:(done)); unfold in_page, PGSIZE in *; lia.
    + split; [exact Hsatp|done].
    + split; [done|]. intros p Hp. change (procs (bk g pr' c root cs1 1 2)) with pr'.
      destruct (decide (p = 1)) as [->|N]; [by rewrite H1, Hpr|]. rewrite Ho by done. by rewrite Hpr, decide_True.
    + split; [done|]. change (procs (bk g pr' c root cs1 1 2)) with pr'. by rewrite H1, Hpr.
    + exact HM.
    + done.
    + intros p Hp. change (procs (bk g pr' c root cs1 1 2)) with pr'. rewrite Ho by lia. by rewrite Hpr, decide_True by lia.
    + by apply (pages_divided k root T stacks tf pt l0 (fs_mem g)).
    + split; [done|]. split; [exact Hic|]. apply (vr_kmem _ _ _ _ _ (um_rep _ _ _ _ _ _ (im_space _ _ _ _ _ _ _ _ HM))).
    + change (blk (kfs (bk g pr' c root cs1 1 2))) with (blk g). rewrite Hb. change (cur s2) with 0. rewrite Ho, Hpr, decide_False by (done || lia).
      change (blk f2) with b1. change (p_pid zero_proc) with 0. unfold b1. destruct (binit_fields (boot_bst D 0)) as [F1 F2].
      rewrite ack_boot; [apply binit_lrep|exact F1|exact F2].
    + done.
Qed.

(** C5: [main] on hart 0, from the zeroed variables of the kernel, any contents of memory and a
    disk that answers as QEMU's, runs to the scheduler without a panic.  The kernel's page
    table then maps devices, kernel text, memory, trampoline and one kernel stack per process
    with an unmapped page below it, and nothing else; process 1 is ready to run [initcode];
    the other entries are free, no lock is held, the buffer cache is empty, and every page of
    memory is in exactly one place. *)
Theorem boot_kernel D m vd : mem_ok m -> good_regs reg -> vd_init vd = false ->
  exists mc T stacks tf pt pa ip Tu l,
    main_first end_ etext trampoline forkret_ kernelvec reg pages (Machine (boot_kst (boot_fst m D)) [] vd false) = Ok tt mc /\
    booted_with D mc T stacks tf pt pa ip Tu l.
Proof.
  intros Hm Hreg Hvd. unfold main_first. rewrite boot_messages. set (f := boot_fst m D).
  destruct (boot_memory m f boot_con 0 csr0 uartinit vd (on_k trapinit ;; on_k (trapinithart kernelvec) ;; stores plicinit ;; stores (plicinithart 0) ;; on_k (on_bc binit) ;;
      on_k (on_fs iinit) ;; on_k fileinit ;; on_vd (virtio_disk_init reg 0 pages) ;; on_k (userinit trampoline forkret_) ;; modify (fun m => m <| started := true |>)) Hm eq_refl)
    as (k & root & l & T & stacks & pr & B & Hpr & E). rewrite E.
  destruct (boot_user D f k root l T stacks pr boot_con (csr0 <| satp := MAKE_SATP root |>) uartinit vd B Hpr) as (mc & tf & pt & pa & ip & Tu & l' & E' & H); auto.
  exists mc, T, stacks, tf, pt, pa, ip, Tu, l'. done.
Qed.

End BootKernel.

Lemma boot_kernel_witness : exists mc T stacks tf pt pa ip Tu l,
  main_first 0x80100000 0x80008000 0x80007000 0x80001000 0x80002000 qemu_regs 0x80030000 (Machine (boot_kst (boot_fst (fun _ => 0) (fun _ => zero_block))) [] boot_vst false) = Ok tt mc /\
  booted_with 0x80100000 0x80008000 0x80007000 0x80001000 0x80002000 (fun _ => zero_block) mc T stacks tf pt pa ip Tu l.
Proof.
  apply boot_kernel; by vm_compute.
Defined.
