(* ===== verification/Ulib.v ===== *)
(** * [user/ulib.c] and [user/printf.c]: the library of the user programs

    Strings live in the byte memory of the process; a loop without a bound in the
    source takes fuel, the number of bytes it may look at.  Input is the list of
    the bytes that [read(0, ...)] will deliver, output the bytes written. *)
From stdpp Require Import base list gmap strings.
From Stdlib Require Import ZArith Lia.
From S2P Require Import Prelude KString.

#[local] Open Scope Z_scope.
#[local] Open Scope xv6_scope.

Module U.

(** ** Strings *)

Fixpoint strcpy (fuel : nat) (s t : Z) (m : mem) : option mem :=
  match fuel with
  | O => None
  | S fuel => let c := m t in
              let m := upd m s c in
              if c =? 0 then Some m else strcpy fuel (s + 1) (t + 1) m
  end.

Fixpoint strcmp (fuel : nat) (m : mem) (p q : Z) : option Z :=
  match fuel with
  | O => None
  | S fuel => if negb (m p =? 0) && (m p =? m q) then strcmp fuel m (p + 1) (q + 1)
              else Some (u8 (m p) - u8 (m q))
  end.

Fixpoint strlen_loop (fuel : nat) (m : mem) (s n : Z) : option Z :=
  match fuel with
  | O => None
  | S fuel => if m (s + n) =? 0 then Some n else strlen_loop fuel m s (n + 1)
  end.

Definition strlen (fuel : nat) (m : mem) (s : Z) : option Z := strlen_loop fuel m s 0.

(** The result is the position of the character, from 1, or 0 for a null pointer. *)
Fixpoint strchr_from (s : list Z) (c n : Z) : Z :=
  match s with
  | [] => 0
  | x :: s => if x =? c then n else strchr_from s c (n + 1)
  end.

(** [strchr] in a constant string. *)
Definition strchr (s : list Z) (c : Z) : bool := negb (strchr_from s c 1 =? 0).

(** [i] is the character's value as an [int]. *)
Fixpoint atoi_loop (fuel : nat) (m : mem) (s n : Z) : option Z :=
  match fuel with
  | O => None
  | S fuel => if (48 <=? m s) && (m s <=? 57) then atoi_loop fuel m (s + 1) (s32 (n * 10 + m s - 48)) else Some n
  end.

Definition atoi (fuel : nat) (m : mem) (s : Z) : option Z := atoi_loop fuel m s 0.

Definition memmove (m : mem) (dst src n : Z) : mem :=
  if src >? dst then move_up (Z.to_nat n) src dst m
  else move_down (Z.to_nat n) (src + n) (dst + n) m.

Fixpoint memcmp_loop (k : nat) (m : mem) (p1 p2 : Z) : Z :=
  match k with
  | O => 0
  | S k => if negb (m p1 =? m p2) then m p1 - m p2 else memcmp_loop k m (p1 + 1) (p2 + 1)
  end.

Definition memcmp (m : mem) (s1 s2 n : Z) : Z := memcmp_loop (Z.to_nat n) m s1 s2.

Definition memcpy (m : mem) (dst src n : Z) : mem := memmove m dst src n.

Definition memset (m : mem) (dst c n : Z) : mem := KString.memset m dst c n.

(** One byte per [read]: [k] more bytes fit. *)
Fixpoint gets_loop (k : nat) (m : mem) (p : Z) (input : list Z) : mem * list Z :=
  match k, input with
  | O, _ | _, [] => (upd m p 0, input)
  | S k, c :: input =>
      let m := upd m p c in
      if (c =? 10) || (c =? 13) then (upd m (p + 1) 0, input) else gets_loop k m (p + 1) input
  end.

Definition gets (m : mem) (buf max : Z) (input : list Z) : mem * list Z := gets_loop (Z.to_nat (max - 1)) m buf input.

(** ** [printf.c] *)

Definition digits : list Z := [48; 49; 50; 51; 52; 53; 54; 55; 56; 57; 65; 66; 67; 68; 69; 70].
Definition digit (i : Z) : Z := nth (Z.to_nat i) digits 0.

(** The loop that fills [buf]; a 32-bit number has at most 32 digits. *)
Fixpoint int_digits (n : nat) (x base : Z) : list Z :=
  match n with
  | O => []
  | S n => digit (x mod base) :: (if x / base =? 0 then [] else int_digits n (x / base) base)
  end.

Definition printint (xx base : Z) (sgn : bool) : list Z :=
  let neg := sgn && (xx <? 0) in
  let x := if neg then u32 (- xx) else u32 xx in
  let buf := int_digits 32 x base in
  rev (if neg then buf ++ [45] else buf).

Fixpoint ptr_digits (n : nat) (x : Z) : list Z :=
  match n with
  | O => []
  | S n => digit (Z.shiftr x 60) :: ptr_digits n (u64 (Z.shiftl x 4))
  end.

Definition printptr (x : Z) : list Z := 48 :: 120 :: ptr_digits 16 x.

Inductive uarg : Type := UInt (z : Z) | UStr (s : option (list Z)).

Definition arg_val (a : list uarg) : Z := match a with UInt z :: _ => z | _ => 0 end.
Definition arg_str (a : list uarg) : list Z :=
  match a with UStr (Some s) :: _ => s | _ => [40; 110; 117; 108; 108; 41] end.

(** [percent] is [state == '%']. *)
Fixpoint vprintf (percent : bool) (fmt : list Z) (ap : list uarg) : list Z :=
  match fmt with
  | [] => []
  | c :: fmt =>
      if negb percent then
        if c =? 37 then vprintf true fmt ap else c :: vprintf false fmt ap
      else if c =? 100 then printint (s32 (arg_val ap)) 10 true ++ vprintf false fmt (tail ap)
      else if c =? 108 then printint (s32 (arg_val ap)) 10 false ++ vprintf false fmt (tail ap)
      else if c =? 120 then printint (s32 (arg_val ap)) 16 false ++ vprintf false fmt (tail ap)
      else if c =? 112 then printptr (u64 (arg_val ap)) ++ vprintf false fmt (tail ap)
      else if c =? 115 then arg_str ap ++ vprintf false fmt (tail ap)
      else if c =? 99 then u8 (arg_val ap) :: vprintf false fmt (tail ap)
      else if c =? 37 then c :: vprintf false fmt ap
      else 37 :: c :: vprintf false fmt ap
  end.

Definition fprintf (fmt : list Z) (ap : list uarg) : list Z := vprintf false fmt ap.

End U.
