(* ===== verification/UlibProps.v ===== *)
(** * [user/ulib.c] and [user/printf.c]: numbers out and in

    [printint] writes the decimal notation of a number and [atoi] reads it back. *)
From stdpp Require Import base list gmap strings.
From Stdlib Require Import ZArith Lia.
From S2P Require Import Prelude KString Ulib.

#[local] Open Scope Z_scope.
#[local] Open Scope xv6_scope.

(** The bytes [l] are in memory from [p] on. *)
Definition bytes_at (m : mem) (p : Z) (l : list Z) : Prop := forall i c, l !! i = Some c -> m (p + Z.of_nat i) = c.

Lemma bytes_at_cons m p c l : bytes_at m p (c :: l) -> m p = c /\ bytes_at m (p + 1) l.
Proof.
  intros H. split; [rewrite <- (H O c eq_refl); f_equal; lia|]. intros i x Hi. rewrite <- (H (S i) x Hi). f_equal. lia.
Qed.

Definition is_digit (c : Z) : Prop := 48 <= c <= 57.

(** The value of the decimal digits [l] behind [n]. *)
Fixpoint dec_val (n : Z) (l : list Z) : Z :=
  match l with
  | [] => n
  | c :: l => dec_val (n * 10 + c - 48) l
  end.

Lemma dec_val_app n l l' : dec_val n (l ++ l') = dec_val (dec_val n l) l'.
Proof. revert n. induction l; intros n; cbn; auto. Qed.

Lemma dec_val_mono n l : 0 <= n -> Forall is_digit l -> n <= dec_val n l.
Proof.
  intros Hn Hl. revert n Hn. induction Hl as [|c l Hc _ IH]; intros n Hn; cbn; [lia|]. unfold is_digit in Hc.
  specialize (IH (n * 10 + c - 48)). lia.
Qed.

Lemma atoi_loop_val l : forall fuel m s n, bytes_at m s l -> Forall is_digit l -> ~ is_digit (m (s + Z.of_nat (length l))) ->
  0 <= n -> dec_val n l < 2 ^ 31 -> (length l < fuel)%nat -> U.atoi_loop fuel m s n = Some (dec_val n l).
Proof.
  induction l as [|c l IH]; intros [|fuel] m s n Hm Hd Hend Hn Hv Hf; cbn [length] in *; try lia; cbn [U.atoi_loop].
  - rewrite Z.add_0_r in Hend. unfold is_digit in Hend. destruct (48 <=? m s) eqn:E1, (m s <=? 57) eqn:E2; cbn [andb]; auto. lia.
  - apply bytes_at_cons in Hm as [-> Hm]. apply Forall_cons in Hd as [Hc Hd]. unfold is_digit in Hc.
    rewrite (proj2 (Z.leb_le _ _)), (proj2 (Z.leb_le _ _)) by lia. cbn [andb dec_val] in *.
    pose proof (dec_val_mono (n * 10 + c - 48) l ltac:(lia) Hd). rewrite s32_small by lia. apply IH; auto; [|lia|lia].
    replace (s + 1 + Z.of_nat (length l)) with (s + Z.of_nat (S (length l))) by lia. done.
Qed.

Lemma digit_dec i : 0 <= i < 10 -> U.digit i = 48 + i.
Proof. intros Hi. assert (i ∈ zseq 0 10) as H by (apply elem_of_zseq; lia). repeat (apply elem_of_cons in H as [->|H]; [done|]). by apply elem_of_nil in H. Qed.

(** [int_digits] gives the digits of [x], lowest first. *)
Lemma int_digits_dec k : forall x, 0 <= x < 10 ^ Z.of_nat k -> (0 < k)%nat ->
  dec_val 0 (rev (U.int_digits k x 10)) = x /\ Forall is_digit (U.int_digits k x 10) /\ (length (U.int_digits k x 10) <= k)%nat /\ U.int_digits k x 10 <> [].
Proof.
  induction k as [|k IH]; intros x Hx Hk; [lia|]. cbn [U.int_digits rev]. rewrite Nat2Z.inj_succ, Z.pow_succ_r in Hx by lia.
  pose proof (Z.mod_pos_bound x 10 ltac:(lia)) as Hm. rewrite digit_dec by done. pose proof (Z.div_mod x 10 ltac:(lia)) as Hd.
  assert (Hdig : is_digit (48 + x mod 10)) by (unfold is_digit; lia).
  destruct (Z.eqb_spec (x / 10) 0) as [E|N].
  - cbn. split; [lia|]. split; [constructor; [done|constructor]|]. split; [lia|done].
  - assert (0 <= x / 10 < 10 ^ Z.of_nat k) by (split; [apply Z.div_pos; lia|apply Z.div_lt_upper_bound; lia]).
    destruct (IH (x / 10)) as (V & D & L & _); [done|destruct k; [cbn in *; lia|lia]|]. rewrite dec_val_app, V. cbn [dec_val length].
    split; [lia|]. split; [by constructor|]. split; [lia|done].
Qed.

(** Reading back a printed number: for a non-negative [int] the bytes that
    [printint] writes for the decimal format, followed by any byte that is not a digit, are
    read by [atoi] as that number; for a
    negative one [atoi], which knows no sign, returns 0. *)
Theorem printint_atoi m p xx : - 2 ^ 31 <= xx < 2 ^ 31 -> bytes_at m p (U.printint xx 10 true) ->
  ~ is_digit (m (p + Z.of_nat (length (U.printint xx 10 true)))) ->
  U.atoi 33 m p = Some (if xx <? 0 then 0 else xx).
Proof.
  intros Hx Hm Hend. unfold U.printint in *. cbn [andb] in *. destruct (Z.ltb_spec xx 0) as [Hneg|Hpos].
  - rewrite rev_app_distr in Hm. cbn [rev app] in Hm. apply bytes_at_cons in Hm as [E _]. unfold U.atoi. cbn [U.atoi_loop]. by rewrite E.
  - assert (u32 xx = xx) as E by (apply u32_small; lia). rewrite E in *.
    destruct (int_digits_dec 32 xx) as (V & D & L & _); [lia|lia|]. unfold U.atoi.
    rewrite (atoi_loop_val (rev (U.int_digits 32 xx 10))); rewrite ?V; auto; [by apply Forall_rev|lia|lia|rewrite length_rev; lia].
Qed.

Lemma printint_atoi_witness : U.atoi 33 (fun a => if (0 <=? a) && (a <? 10) then nth (Z.to_nat a) [50; 49; 52; 55; 52; 56; 51; 54; 52; 55] 0 else 0) 0 = Some 2147483647.
Proof.
  apply (printint_atoi _ 0 2147483647); [lia| |vm_compute; intros []; congruence].
  change (U.printint 2147483647 10 true) with [50; 49; 52; 55; 52; 56; 51; 54; 52; 55].
  intros i c Hi. do 10 (destruct i as [|i]; [by injection Hi as <-|]). done.
Defined.
