(* ===== verification/Sh.v ===== *)
(** * [user/sh.c]: the shell

    A command is a tree whose strings are pointers into the input line: the
    constructors of [cmd] are the types of the source, allocation with [malloc]
    is taken to succeed.  The parser is recursive descent on positions of the
    line; its functions take fuel, and [parsecmd] gives them enough for any line.
    A shell process that cannot go on prints and exits ([PPanic]). *)
From stdpp Require Import base list gmap strings.
From Stdlib Require Import ZArith Lia.
From S2P Require Import Prelude KString Ulib.

#[local] Open Scope Z_scope.
#[local] Open Scope xv6_scope.

Definition MAXARGS : Z := 10.

Definition O_RDONLY : Z := 0x000.
Definition O_WRONLY : Z := 0x001.
Definition O_RDWR : Z := 0x002.
Definition O_CREATE : Z := 0x200.

(** ** Commands *)

Inductive cmd : Type :=
| Exec (argv : list (Z * Z))                      (** [argv[i]] and [eargv[i]] *)
| Redir (c : cmd) (file efile mode fd : Z)
| Pipe (left right : cmd)
| List (left right : cmd)
| Back (c : cmd).

(** Bytes of a string constant. *)
Definition str (s : string) : list Z := map (fun c => Z.of_nat (Ascii.nat_of_ascii c)) (String.list_ascii_of_string s).

(** What [fprintf(2, fmt, arg)] prints, for a format that ends in a newline. *)
Definition says (fmt : string) (arg : list Z) : list Z := U.fprintf (str fmt ++ [10]) [U.UStr (Some arg)].

(** Outcome of parsing: a value, what is printed on descriptor 2 before [exit(1)], one
    entry for each call of [fprintf], or more fuel is needed. *)
Inductive pres (A : Type) : Type :=
| POk (a : A)
| PPanic (msg : list (list Z))
| PFuel.
Arguments POk {A} _.
Arguments PPanic {A} _.
Arguments PFuel {A}.

(** [panic(s)] *)
Definition ppanic {A} (s : string) : pres A := PPanic [says "%s" (str s)].

Definition pbind {A B} (m : pres A) (k : A -> pres B) : pres B :=
  match m with POk a => k a | PPanic s => PPanic s | PFuel => PFuel end.

#[local] Notation "x <- m ; k" := (pbind m (fun x => k)) (at level 20, m at level 100, k at level 200, right associativity).
#[local] Notation "' p <- m ; k" := (pbind m (fun x => let p := x in k))
  (at level 20, p pattern, m at level 100, k at level 200, right associativity).

Definition whitespace : list Z := [32; 9; 13; 10; 11].
Definition symbols : list Z := [60; 124; 62; 38; 59; 40; 41].

Section Parser.
Context (m : mem) (es : Z).

(** [while(s < es && strchr(whitespace, *s)) s++], [n] being [es - s]. *)
Fixpoint skip_ws (n : nat) (s : Z) : Z :=
  match n with
  | O => s
  | S n => if U.strchr whitespace (m s) then skip_ws n (s + 1) else s
  end.

Fixpoint skip_word (n : nat) (s : Z) : Z :=
  match n with
  | O => s
  | S n => if negb (U.strchr whitespace (m s)) && negb (U.strchr symbols (m s)) then skip_word n (s + 1) else s
  end.

Definition skip (s : Z) : Z := skip_ws (Z.to_nat (es - s)) s.
Definition word (s : Z) : Z := skip_word (Z.to_nat (es - s)) s.

(** The result, [*q], [*eq] and [*ps]. *)
Definition gettoken (s : Z) : Z * Z * Z * Z :=
  let s := skip s in
  let q := s in
  let ret := m s in
  let '(ret, s) :=
    if m s =? 0 then (ret, s)
    else if (m s =? 124) || (m s =? 40) || (m s =? 41) || (m s =? 59) || (m s =? 38) || (m s =? 60) then (ret, s + 1)
    else if m s =? 62 then
      if m (s + 1) =? 62 then (43, s + 1 + 1) else (ret, s + 1)
    else (97, word s) in
  (ret, q, s, skip s).

(** [*ps] and the result. *)
Definition peek (s : Z) (toks : list Z) : Z * bool :=
  let s := skip s in (s, negb (m s =? 0) && U.strchr toks (m s)).

(** [cmd = backcmd(cmd)] for every [&]. *)
Fixpoint parseamps (n : nat) (c : cmd) (s : Z) : pres (cmd * Z) :=
  match n with
  | O => PFuel
  | S n =>
      let '(s, b) := peek s [38] in
      if b : bool then let '(_, _, _, s) := gettoken s in parseamps n (Back c) s
      else POk (c, s)
  end.

Fixpoint parseredirs (n : nat) (c : cmd) (s : Z) : pres (cmd * Z) :=
  match n with
  | O => PFuel
  | S n =>
      let '(s, b) := peek s [60; 62] in
      if negb b then POk (c, s) else
      let '(tok, _, _, s) := gettoken s in
      let '(tok', q, eq, s) := gettoken s in
      if negb (tok' =? 97) then ppanic "missing file for redirection" else
      let c := if tok =? 60 then Redir c q eq O_RDONLY 0
               else if (tok =? 62) || (tok =? 43) then Redir c q eq (Z.lor O_WRONLY O_CREATE) 1
               else c in
      parseredirs n c s
  end.

(** Store into the [struct execcmd] that [parseexec] keeps a pointer to: in the tree it is below the redirections. *)
Fixpoint add_arg (c : cmd) (q eq : Z) : cmd :=
  match c with
  | Exec argv => Exec (argv ++ [(q, eq)])
  | Redir c file efile mode fd => Redir (add_arg c q eq) file efile mode fd
  | c => c
  end.

Fixpoint parseargs (n : nat) (argc : Z) (c : cmd) (s : Z) : pres (cmd * Z) :=
  match n with
  | O => PFuel
  | S n =>
      let '(s, b) := peek s [124; 41; 38; 59] in
      if b : bool then POk (c, s) else
      let '(tok, q, eq, s) := gettoken s in
      if tok =? 0 then POk (c, s) else
      if negb (tok =? 97) then ppanic "syntax" else
      let c := add_arg c q eq in
      let argc := argc + 1 in
      if argc >=? MAXARGS then ppanic "too many args" else
      '(c, s) <- parseredirs n c s ;
      parseargs n argc c s
  end.

Fixpoint parseline (n : nat) (s : Z) : pres (cmd * Z) :=
  match n with
  | O => PFuel
  | S n =>
      '(c, s) <- parsepipe n s ;
      '(c, s) <- parseamps n c s ;
      let '(s, b) := peek s [59] in
      if b : bool then
        let '(_, _, _, s) := gettoken s in
        '(r, s) <- parseline n s ;
        POk (List c r, s)
      else POk (c, s)
  end
with parsepipe (n : nat) (s : Z) : pres (cmd * Z) :=
  match n with
  | O => PFuel
  | S n =>
      '(c, s) <- parseexec n s ;
      let '(s, b) := peek s [124] in
      if b : bool then
        let '(_, _, _, s) := gettoken s in
        '(r, s) <- parsepipe n s ;
        POk (Pipe c r, s)
      else POk (c, s)
  end
with parseexec (n : nat) (s : Z) : pres (cmd * Z) :=
  match n with
  | O => PFuel
  | S n =>
      let '(s, b) := peek s [40] in
      if b : bool then parseblock n s else
      '(c, s) <- parseredirs n (Exec []) s ;
      parseargs n 0 c s
  end
with parseblock (n : nat) (s : Z) : pres (cmd * Z) :=
  match n with
  | O => PFuel
  | S n =>
      let '(s, b) := peek s [40] in
      if negb b then ppanic "parseblock" else
      let '(_, _, _, s) := gettoken s in
      '(c, s) <- parseline n s ;
      let '(s, b) := peek s [41] in
      if negb b then ppanic "syntax - missing )" else
      let '(_, _, _, s) := gettoken s in
      parseredirs n c s
  end.

(** Enough fuel for [n] characters. *)
Definition parse_fuel (n : Z) : nat := Z.to_nat (4 * n + 4).

End Parser.

Fixpoint nul_args (argv : list (Z * Z)) (m : mem) : mem :=
  match argv with
  | [] => m
  | (_, eq) :: argv => nul_args argv (upd m eq 0)
  end.

Fixpoint nulterminate (c : cmd) (m : mem) : mem :=
  match c with
  | Exec argv => nul_args argv m
  | Redir c _ efile _ _ => upd (nulterminate c m) efile 0
  | Pipe l r => nulterminate r (nulterminate l m)
  | List l r => nulterminate r (nulterminate l m)
  | Back c => nulterminate c m
  end.

(** [fuel] bounds the length of the line. *)
Definition parsecmd (fuel : nat) (m : mem) (s : Z) : pres (cmd * mem) :=
  match U.strlen fuel m s with
  | None => PFuel
  | Some len =>
      let es := s + len in
      '(c, s) <- parseline m es (parse_fuel len) s ;
      let '(s, _) := peek m es s [] in
      if negb (s =? es) then PPanic [says "leftovers: %s" (cstr m s fuel); says "%s" (str "syntax")] else
      POk (c, nulterminate c m)
  end.
