(* ===== verification/ShParse.v ===== *)
(** * The shell's parser accepts a grammar

    [tokens] cuts a line into symbols and words; [derives] is the grammar of
    commands on tokens.  The parser of [user/sh.c] returns a tree exactly when
    the grammar derives it, and reports an error otherwise; it always ends. *)
From stdpp Require Import base list gmap strings.
From Stdlib Require Import ZArith Lia.
From S2P Require Import Prelude KString Ulib Sh.

#[local] Open Scope Z_scope.
#[local] Open Scope xv6_scope.

(** ** Tokens *)

Inductive tok : Type :=
| Sym (c : Z)
| App                    (** [>>] *)
| Word (q eq : Z).       (** the characters from [q] to [eq] *)

(** The value [gettoken] returns for a token. *)
Definition code (t : tok) : Z := match t with Sym c => c | App => 43 | Word _ _ => 97 end.

(** ** The grammar *)

(** Redirections around a command: tokens, the command, the result. *)
Inductive redirs_of : list tok -> cmd -> cmd -> Prop :=
| ro_nil c : redirs_of [] c c
| ro_in c q e ts c' : redirs_of ts (Redir c q e O_RDONLY 0) c' -> redirs_of (Sym 60 :: Word q e :: ts) c c'
| ro_out c q e ts c' : redirs_of ts (Redir c q e (Z.lor O_WRONLY O_CREATE) 1) c' -> redirs_of (Sym 62 :: Word q e :: ts) c c'
| ro_app c q e ts c' : redirs_of ts (Redir c q e (Z.lor O_WRONLY O_CREATE) 1) c' -> redirs_of (App :: Word q e :: ts) c c'.

(** Arguments with redirections between them, after [argc] arguments. *)
Inductive args_of : Z -> list tok -> cmd -> cmd -> Prop :=
| ao_nil argc c : args_of argc [] c c
| ao_word argc q e ts1 ts2 c c1 c2 :
    argc + 1 < MAXARGS -> redirs_of ts1 (add_arg c q e) c1 -> args_of (argc + 1) ts2 c1 c2 ->
    args_of argc (Word q e :: ts1 ++ ts2) c c2.

Inductive nonterm : Type := NLine | NPipe | NExec.

Inductive derives : nonterm -> list tok -> cmd -> Prop :=
| d_exec ts1 ts2 c c' : redirs_of ts1 (Exec []) c -> args_of 0 ts2 c c' -> derives NExec (ts1 ++ ts2) c'
| d_block ts rs c c' : derives NLine ts c -> redirs_of rs c c' -> derives NExec (Sym 40 :: ts ++ Sym 41 :: rs) c'
| d_simple ts c : derives NExec ts c -> derives NPipe ts c
| d_pipe ts1 ts2 c1 c2 : derives NExec ts1 c1 -> derives NPipe ts2 c2 -> derives NPipe (ts1 ++ Sym 124 :: ts2) (Pipe c1 c2)
| d_line ts c k : derives NPipe ts c -> derives NLine (ts ++ replicate k (Sym 38)) (Nat.iter k Back c)
| d_list ts1 ts2 c1 c2 k : derives NPipe ts1 c1 -> derives NLine ts2 c2 ->
    derives NLine (ts1 ++ replicate k (Sym 38) ++ Sym 59 :: ts2) (List (Nat.iter k Back c1) c2).

Section Tokens.
Context (m : mem) (s0 es : Z).

Definition tok_next (s : Z) : option (tok * Z) :=
  let s := skip m es s in
  if m s =? 0 then None
  else if (m s =? 124) || (m s =? 40) || (m s =? 41) || (m s =? 59) || (m s =? 38) || (m s =? 60) then Some (Sym (m s), s + 1)
  else if m s =? 62 then if m (s + 1) =? 62 then Some (App, s + 1 + 1) else Some (Sym 62, s + 1)
  else Some (Word s (word m es s), word m es s).

Fixpoint toks (n : nat) (s : Z) : list tok :=
  match n with
  | O => []
  | S n => match tok_next s with None => [] | Some (t, s) => t :: toks n s end
  end.

Definition tokens (s : Z) : list tok := toks (Z.to_nat (es - s)) s.

(** A line: no NUL before [es], a NUL there. *)
Context (Hs0 : s0 <= es) (Hchar : forall x, s0 <= x < es -> m x <> 0) (Hnul : m es = 0).

Definition ok (s : Z) : Prop := s0 <= s <= es.

Lemma skip_ws_spec n s : s <= skip_ws m n s <= s + Z.of_nat n /\
  (skip_ws m n s = s + Z.of_nat n \/ U.strchr whitespace (m (skip_ws m n s)) = false).
Proof.
  revert s. induction n as [|n IH]; intros s; cbn [skip_ws].
  - lia.
  - destruct (U.strchr whitespace (m s)) eqn:E; [|split; [lia|by right]]. specialize (IH (s + 1)).
    split; [lia|]. destruct IH as [_ [->|]]; [left; lia|by right].
Qed.

Lemma skip_word_spec n s : s <= skip_word m n s <= s + Z.of_nat n /\
  (forall x, s <= x < skip_word m n s -> U.strchr whitespace (m x) = false /\ U.strchr symbols (m x) = false) /\
  (skip_word m n s = s + Z.of_nat n \/ U.strchr whitespace (m (skip_word m n s)) = true \/ U.strchr symbols (m (skip_word m n s)) = true).
Proof.
  revert s. induction n as [|n IH]; intros s; cbn [skip_word].
  - split; [lia|]. split; [intros; lia|left; lia].
  - destruct (U.strchr whitespace (m s)) eqn:E1, (U.strchr symbols (m s)) eqn:E2; cbn [negb andb];
      try (split; [lia|]; split; [intros; lia|]; auto).
    destruct (IH (s + 1)) as (H1 & H2 & H3). split; [lia|]. split.
    + intros x Hx. destruct (Z.eq_dec x s) as [->|]; [done|]. apply H2. lia.
    + destruct H3 as [->|H3]; [left; lia|by right].
Qed.

Lemma skip_ok s : ok s -> ok (skip m es s) /\ s <= skip m es s /\ (skip m es s = es \/ U.strchr whitespace (m (skip m es s)) = false).
Proof.
  intros [H1 H2]. unfold skip, ok. pose proof (skip_ws_spec (Z.to_nat (es - s)) s) as [H3 H4].
  split; [lia|]. split; [lia|]. destruct H4 as [->|]; [left; lia|by right].
Qed.

Lemma skip_fixed s : U.strchr whitespace (m s) = false -> skip m es s = s.
Proof. intros H. unfold skip. destruct (Z.to_nat (es - s)); cbn [skip_ws]; [done|]. by rewrite H. Qed.

Lemma skip_end : skip m es es = es.
Proof. unfold skip. by rewrite Z.sub_diag. Qed.

Lemma tok_next_end : tok_next es = None.
Proof. unfold tok_next. by rewrite skip_end, Hnul. Qed.

Lemma skip_skip s : ok s -> skip m es (skip m es s) = skip m es s.
Proof. intros H. destruct (skip_ok s H) as (_ & _ & [->|E]); [apply skip_end|by apply skip_fixed]. Qed.

(** The end of the line is where the NUL is. *)
Lemma nul_end s : ok s -> m s = 0 <-> s = es.
Proof. intros [H1 H2]. split; [|by intros ->]. intros E. destruct (Z.eq_dec s es); [done|]. destruct (Hchar s); [lia|done]. Qed.

Lemma word_ok s : ok s -> m s <> 0 -> U.strchr whitespace (m s) = false -> U.strchr symbols (m s) = false ->
  ok (word m es s) /\ s < word m es s /\
  (forall x, s <= x < word m es s -> U.strchr whitespace (m x) = false /\ U.strchr symbols (m x) = false) /\
  (word m es s = es \/ U.strchr whitespace (m (word m es s)) = true \/ U.strchr symbols (m (word m es s)) = true).
Proof.
  intros Hs Hn Hw Hy. assert (s < es) by (destruct (Z.eq_dec s es) as [->|]; [done|]; destruct Hs; lia).
  unfold word, ok. destruct Hs. destruct (skip_word_spec (Z.to_nat (es - s)) s) as (H3 & H4 & H5). split; [lia|]. split; [|split; [done|]].
  - destruct (Z.to_nat (es - s)) as [|n] eqn:E; [lia|]. cbn [skip_word]. rewrite Hw, Hy. cbn. pose proof (skip_word_spec n (s + 1)). lia.
  - destruct H5 as [->|]; [left; lia|by right].
Qed.

(** Any other character starts a word. *)
Lemma not_symbol c : c <> 124 -> c <> 40 -> c <> 41 -> c <> 59 -> c <> 38 -> c <> 60 -> c <> 62 -> U.strchr symbols c = false.
Proof.
  intros. unfold U.strchr, symbols. cbn [U.strchr_from].
  repeat match goal with |- context [?a =? c] => destruct (Z.eqb_spec a c); [congruence|] end. done.
Qed.

Lemma tok_next_ok s t s' : ok s -> tok_next s = Some (t, s') -> ok s' /\ s < s'.
Proof.
  intros Hs. unfold tok_next. destruct (skip_ok s Hs) as (Hok & Hle & Hstop). set (x := skip m es s) in *.
  destruct (Z.eqb_spec (m x) 0) as [|Hn]; [done|].
  assert (x < es) by (destruct Hok; destruct (Z.eq_dec x es) as [->|]; [done|lia]).
  destruct (_ || _) eqn:E6; [intros [= <- <-]; unfold ok in *; lia|].
  destruct (Z.eqb_spec (m x) 62) as [E62|N62].
  - destruct (Z.eqb_spec (m (x + 1)) 62) as [E2|N2]; intros [= <- <-]; [|unfold ok in *; lia].
    assert (x + 1 < es); [|unfold ok in *; lia]. destruct (Z.eq_dec (x + 1) es) as [E|]; [|lia]. rewrite E, Hnul in E2. done.
  - intros [= <- <-]. rewrite !orb_false_iff, !Z.eqb_neq in E6. destruct E6 as (((((? & ?) & ?) & ?) & ?) & ?).
    destruct (word_ok x Hok Hn) as (W1 & W2 & _); [destruct Hstop; [lia|done]|by apply not_symbol|]. split; [done|lia].
Qed.

Lemma toks_fuel n : forall k s, ok s -> es - s <= Z.of_nat n -> es - s <= Z.of_nat k -> toks n s = toks k s.
Proof.
  induction n as [|n IH]; intros k s Hs Hn Hk.
  - assert (s = es) as -> by (unfold ok in *; lia). destruct k; [done|]. cbn [toks]. by rewrite tok_next_end.
  - destruct k as [|k].
    + assert (s = es) as -> by (unfold ok in *; lia). cbn [toks]. by rewrite tok_next_end.
    + cbn [toks]. destruct (tok_next s) as [[t s']|] eqn:E; [|done]. f_equal. destruct (tok_next_ok s t s' Hs E). apply IH; [done|lia|lia].
Qed.

Lemma tokens_eq s : ok s -> tokens s = match tok_next s with None => [] | Some (t, s') => t :: tokens s' end.
Proof.
  intros Hs. unfold tokens at 1. rewrite (toks_fuel _ (S (Z.to_nat (es - s)))) by (auto; lia). cbn [toks].
  destruct (tok_next s) as [[t s']|] eqn:E; [|done]. f_equal. destruct (tok_next_ok s t s' Hs E).
  apply toks_fuel; [done|lia|lia].
Qed.

Lemma tok_next_skip s : ok s -> tok_next (skip m es s) = tok_next s.
Proof. intros Hs. unfold tok_next. by rewrite skip_skip. Qed.

Lemma tokens_skip s : ok s -> tokens (skip m es s) = tokens s.
Proof. intros Hs. rewrite !tokens_eq by (auto; by apply skip_ok). by rewrite tok_next_skip. Qed.

Lemma tokens_length s : ok s -> Z.of_nat (length (tokens s)) <= es - s.
Proof.
  intros Hs. remember (Z.to_nat (es - s)) as n eqn:En. revert s Hs En. induction n as [n IH] using lt_wf_ind. intros s Hs En.
  rewrite tokens_eq by done. destruct (tok_next s) as [[t s']|] eqn:E; cbn [length]; [|unfold ok in *; lia].
  destruct (tok_next_ok s t s' Hs E) as [Hs' Hlt]. specialize (IH (Z.to_nat (es - s')) ltac:(unfold ok in *; lia) s' Hs' eq_refl). unfold ok in *; lia.
Qed.

Lemma gettoken_next s : ok s ->
  gettoken m es s = match tok_next s with
                    | None => (0, skip m es s, skip m es s, skip m es s)
                    | Some (t, s') => (code t, skip m es s, s', skip m es s')
                    end.
Proof.
  intros Hs. unfold gettoken, tok_next. cbv zeta. destruct (Z.eqb_spec (m (skip m es s)) 0) as [E|_]; [by rewrite E, skip_skip|].
  destruct (_ || _); [done|]. destruct (Z.eqb_spec (m (skip m es s)) 62) as [E|_]; [|done].
  destruct (_ =? 62); [done|]. by rewrite E.
Qed.

Lemma tok_next_sym s c s' : tok_next s = Some (Sym c, s') -> c ∈ symbols.
Proof.
  unfold tok_next. destruct (_ =? 0); [done|]. destruct (_ || _) eqn:E.
  - intros [= <- _]. rewrite !orb_true_iff, !Z.eqb_eq in E. unfold symbols. set_solver.
  - destruct (_ =? 62); [|done]. destruct (_ =? 62); [done|]. intros [= <- _]. unfold symbols. set_solver.
Qed.

(** [gettoken] takes the first token. *)
Lemma gettoken_spec s : ok s ->
  match tokens s with
  | [] => exists q e, gettoken m es s = (0, q, e, es)
  | t :: ts => exists q e s', gettoken m es s = (code t, q, e, s') /\ ok s' /\ tokens s' = ts /\
                 match t with Word q' e' => q' = q /\ e' = e | Sym c => c ∈ symbols | App => True end
  end.
Proof.
  intros Hs. rewrite tokens_eq, gettoken_next by done. destruct (tok_next s) as [[t s']|] eqn:E.
  - destruct (tok_next_ok s t s' Hs E) as [Hs' _]. eexists _, _, _. split; [done|]. split; [by apply skip_ok|].
    split; [by apply tokens_skip|]. destruct t as [c| |q e]; [by eapply tok_next_sym|done|]. unfold tok_next in E.
    destruct (_ =? 0); [done|]. destruct (_ || _); [done|]. destruct (_ =? 62); [by destruct (_ =? 62)|]. by injection E as <- <- <-.
  - assert (Ee : skip m es s = es).
    { destruct (skip_ok s Hs) as (Hok & _). apply nul_end; [done|]. unfold tok_next in E.
      destruct (Z.eqb_spec (m (skip m es s)) 0) as [|]; [done|]. destruct (_ || _); [done|].
      destruct (_ =? 62); [by destruct (_ =? 62)|done]. }
    rewrite Ee. eauto.
Qed.

(** [peek] looks at its first character. *)
Definition starts (l : list Z) (ts : list tok) : bool :=
  match ts with
  | Sym c :: _ => U.strchr l c
  | App :: _ => U.strchr l 62
  | _ => false
  end.

Lemma strchr_in l c : U.strchr l c = true <-> c ∈ l.
Proof.
  unfold U.strchr. assert (forall n, 1 <= n -> U.strchr_from l c n = 0 <-> c ∉ l) as H.
  { induction l as [|x l IH]; intros n Hn; cbn [U.strchr_from]; [split; [intros _; apply not_elem_of_nil|done]|].
    rewrite not_elem_of_cons. destruct (Z.eqb_spec x c) as [->|Hne]; [lia|]. rewrite IH by lia. naive_solver. }
  destruct (Z.eqb_spec (U.strchr_from l c 1) 0) as [E|E]; cbn; rewrite (H 1) in E by lia; [done|].
  split; [intros _|done]. destruct (decide (c ∈ l)); tauto.
Qed.

Lemma starts_true l ts : starts l ts = true -> exists t ts', ts = t :: ts' /\ (t = App /\ 62 ∈ l \/ exists c, t = Sym c /\ c ∈ l).
Proof. destruct ts as [|[c| |] ts]; cbn; try done; intros H; apply strchr_in in H; eauto 10. Qed.

Lemma peek_spec s l : ok s -> (forall c, c ∈ l -> c ∈ symbols) ->
  exists s', peek m es s l = (s', starts l (tokens s)) /\ ok s' /\ tokens s' = tokens s.
Proof.
  intros Hs Hl. exists (skip m es s). split; [|split; [by apply skip_ok|by apply tokens_skip]].
  unfold peek. f_equal. rewrite tokens_eq by done. unfold tok_next.
  destruct (Z.eqb_spec (m (skip m es s)) 0) as [|Hn]; cbn [negb andb]; [done|].
  destruct (_ || _) eqn:E6; [done|]. destruct (Z.eqb_spec (m (skip m es s)) 62) as [E|N62].
  - rewrite E. by destruct (_ =? 62).
  - cbn [starts]. rewrite !orb_false_iff, !Z.eqb_neq in E6. destruct E6 as (((((? & ?) & ?) & ?) & ?) & ?).
    destruct (U.strchr l (m (skip m es s))) eqn:E; [|done]. apply strchr_in, Hl, strchr_in in E.
    by rewrite not_symbol in E.
Qed.

(** ** The parser follows the grammar *)

(** What may come after a phrase. *)
Definition follow (l : list Z) (ts : list tok) : Prop :=
  match ts with [] => True | Sym c :: _ => c ∈ l | _ => False end.

(** The first token does not continue a list of redirections. *)
Definition no_redir (ts : list tok) : Prop := starts [60; 62] ts = false.

Lemma follow_mono l l' ts : (forall c, c ∈ l -> c ∈ l') -> follow l ts -> follow l' ts.
Proof. intros H. destruct ts as [|[] ?]; cbn; auto. Qed.

Lemma follow_starts l l' ts : follow l ts -> (forall c, c ∈ l -> c ∉ l') -> starts l' ts = false.
Proof.
  destruct ts as [|[c| |] ts]; cbn; try done. intros Hf H. destruct (U.strchr l' c) eqn:E; [|done]. apply strchr_in in E. by destruct (H c Hf).
Qed.

Ltac syms := intros ? ?; repeat match goal with H : _ ∈ _ :: _ |- _ => apply elem_of_cons in H as [->|H] end;
  try (match goal with H : _ ∈ [] |- _ => by apply elem_of_nil in H end); unfold symbols; set_solver.

(** Run [peek] or [gettoken] at a position whose tokens are known. *)
Ltac do_peek E :=
  match goal with |- context [peek m es ?s ?l] =>
    let s' := fresh s in let Ep := fresh "Ep" in let Ok := fresh "Hok" in let T := fresh "T" in
    destruct (peek_spec s l) as (s' & Ep & Ok & T); [done|by syms|]; rewrite Ep; clear Ep; rewrite E in T |- * end.

Ltac do_starts := match goal with |- context [starts ?l ?t] => first [change (starts l t) with true|change (starts l t) with false] end; cbn [negb app].

Ltac do_token E :=
  match goal with |- context [gettoken m es ?s] =>
    let s' := fresh s in let Eg := fresh "Eg" in let Ok := fresh "Hok" in let T := fresh "T" in let H := fresh "H" in
    pose proof (gettoken_spec s ltac:(done)) as H; rewrite E in H; destruct H as (? & ? & s' & Eg & Ok & T & H);
    rewrite Eg; clear Eg; cbn [code] end.

Lemma redirs_complete ts c c' : redirs_of ts c c' -> forall n s rest, ok s -> tokens s = ts ++ rest -> no_redir rest ->
  (length (tokens s) < n)%nat -> exists s', parseredirs m es n c s = POk (c', s') /\ ok s' /\ tokens s' = rest.
Proof.
  induction 1 as [c|c q e ts c' H IH|c q e ts c' H IH|c q e ts c' H IH]; intros [|n] s rest Hs Et Hf Hn; try lia; cbn [parseredirs].
  1: { do_peek Et. cbn [app] in *. rewrite Hf. cbn [negb]. eauto. }
  all: rewrite Et in Hn; do_peek Et; cbn [app starts negb] in *; do_token T; do_token T0; destruct H1 as [-> ->]; apply (IH n); auto;
    rewrite T1; cbn in Hn; lia.
Qed.

Lemma args_complete argc ts c c' : args_of argc ts c c' -> forall n s rest, ok s -> tokens s = ts ++ rest -> follow [124; 41; 38; 59] rest ->
  (length (tokens s) < n)%nat -> exists s', parseargs m es n argc c s = POk (c', s') /\ ok s' /\ tokens s' = rest.
Proof.
  induction 1 as [argc c|argc q e ts1 ts2 c c1 c2 Ha Hr H IH]; intros [|n] s rest Hs Et Hf Hn; try lia; cbn [parseargs].
  - cbn [app] in Et. do_peek Et. destruct rest as [|[x| |] rest]; cbn [follow starts] in *; [|by rewrite (proj2 (strchr_in _ _) Hf); eauto|done..].
    pose proof (gettoken_spec s1 Hok) as Hg. rewrite T in Hg. destruct Hg as (? & ? & ->). cbn. eexists. split; [done|].
    split; [unfold ok; lia|]. by rewrite tokens_eq, tok_next_end by (unfold ok; lia).
  - rewrite Et in Hn. do_peek Et. cbn [app starts] in *. do_token T. destruct H0 as [<- <-]. cbn [Z.eqb Pos.eqb negb].
    rewrite Z.geb_leb, (proj2 (Z.leb_gt _ _)) by lia.
    assert (Hl : length (tokens s2) = (length ts1 + length ts2 + length rest)%nat) by (rewrite T0, !length_app; lia).
    cbn in Hn. rewrite !length_app in Hn.
    destruct (redirs_complete _ _ _ Hr n s2 (ts2 ++ rest)) as (s3 & -> & Hok3 & T3); [done|by rewrite T0, app_assoc| |lia|].
    + destruct H; [|done]. by eapply follow_starts; [exact Hf|syms].
    + cbn [pbind]. apply (IH n); auto. rewrite T3, length_app. lia.
Qed.

Lemma amps_complete k : forall n c s rest, ok s -> tokens s = replicate k (Sym 38) ++ rest -> starts [38] rest = false ->
  (length (tokens s) < n)%nat -> exists s', parseamps m es n c s = POk (Nat.iter k Back c, s') /\ ok s' /\ tokens s' = rest.
Proof.
  induction k as [|k IH]; intros [|n] c s rest Hs Et Hf Hn; try lia; cbn [parseamps]; rewrite Et in Hn; do_peek Et; cbn [replicate app starts] in *.
  - rewrite Hf. eauto.
  - do_token T. destruct (IH n (Back c) s2 rest) as (s3 & E & R); auto; [rewrite T0; cbn in Hn; lia|].
    exists s3. split; [|done]. cbn. rewrite E. by rewrite <- Nat.iter_succ_r.
Qed.

(** Fuel each function needs for [l] tokens. *)
Definition fuel_of (x : nonterm) (l : nat) : nat :=
  match x with NLine => 4 * l + 4 | NPipe => 4 * l + 3 | NExec => 4 * l + 2 end.

Definition parse (x : nonterm) : nat -> Z -> pres (cmd * Z) :=
  match x with NLine => parseline m es | NPipe => parsepipe m es | NExec => parseexec m es end.

(** What may follow each phrase. *)
Definition follows (x : nonterm) : list Z :=
  match x with NLine => [41] | NPipe => [38; 59; 41] | NExec => [124; 41; 38; 59] end.

Definition complete (x : nonterm) (ts : list tok) (c : cmd) : Prop :=
  forall n s rest, ok s -> tokens s = ts ++ rest -> follow (follows x) rest ->
  (fuel_of x (length (tokens s)) <= n)%nat -> exists s', parse x n s = POk (c, s') /\ ok s' /\ tokens s' = rest.

Ltac start_complete :=
  intros [|n] s rest Hs Et Hf Hn; cbn [fuel_of follows parse] in *; [lia|]; rewrite Et in Hn; cbn [app length] in Hn;
  rewrite ?length_app in Hn; cbn [length] in Hn.

(** Unfold one call of a parser. *)
Ltac unfold_parse := cbn [parseline parsepipe parseexec parseblock]; fold (parseline m es); fold (parsepipe m es); fold (parseexec m es); fold (parseblock m es).

Lemma exec_complete ts1 ts2 c c' : redirs_of ts1 (Exec []) c -> args_of 0 ts2 c c' -> complete NExec (ts1 ++ ts2) c'.
Proof.
  intros Hr Ha. start_complete. unfold_parse. do_peek Et.
  assert (starts [40] ((ts1 ++ ts2) ++ rest) = false) as ->.
  { destruct Hr; [|done..]. destruct Ha; [|done]. by eapply follow_starts; [exact Hf|syms]. }
  assert (Hl : length (tokens s1) = (length ts1 + length ts2 + length rest)%nat) by (rewrite T, !length_app; lia).
  destruct (redirs_complete _ _ _ Hr n s1 (ts2 ++ rest)) as (s2 & -> & Hok2 & T2); [done|by rewrite T, app_assoc| |lia|].
  { destruct Ha; [|done]. by eapply follow_starts; [exact Hf|syms]. }
  cbn [pbind]. apply (args_complete _ _ _ _ Ha); auto. rewrite T2, length_app. lia.
Qed.

Lemma block_complete ts rs c c' : complete NLine ts c -> redirs_of rs c c' -> complete NExec (Sym 40 :: ts ++ Sym 41 :: rs) c'.
Proof.
  intros H Hr. start_complete. unfold_parse. do_peek Et. do_starts.
  destruct n as [|n]; [lia|]. unfold_parse. do_peek T. do_starts. do_token T0.
  destruct (H n s3 (Sym 41 :: rs ++ rest)) as (s4 & E & Hok4 & T4); [done|by rewrite T1, <- app_assoc|by apply list_elem_of_here| |].
  { cbn [fuel_of]. rewrite T1, !length_app. cbn [length]. lia. }
  cbn [parse] in E. rewrite E. cbn [pbind]. do_peek T4. do_starts. do_token T2. apply (redirs_complete _ _ _ Hr); auto.
  - by eapply follow_starts; [exact Hf|syms].
  - rewrite T3, length_app. lia.
Qed.

Lemma simple_complete ts c : complete NExec ts c -> complete NPipe ts c.
Proof.
  intros H. start_complete. unfold_parse. destruct (H n s rest) as (s1 & E & Hok1 & T1); [done|done| | |].
  - eapply follow_mono; [|exact Hf]. by syms.
  - cbn [fuel_of]. rewrite Et, length_app. lia.
  - cbn [parse] in E. rewrite E. cbn [pbind]. do_peek T1. rewrite (follow_starts _ _ _ Hf) by syms. eauto.
Qed.

Lemma pipe_complete ts1 ts2 c1 c2 : complete NExec ts1 c1 -> complete NPipe ts2 c2 -> complete NPipe (ts1 ++ Sym 124 :: ts2) (Pipe c1 c2).
Proof.
  intros H1 H2. start_complete. unfold_parse. rewrite <- app_assoc in Et.
  destruct (H1 n s ((Sym 124 :: ts2) ++ rest)) as (s1 & E & Hok1 & T1); [done|done|by apply list_elem_of_here| |].
  - cbn [fuel_of]. rewrite Et, !length_app. cbn [length]. lia.
  - cbn [parse] in E. rewrite E. cbn [pbind]. do_peek T1. do_starts. do_token T.
    destruct (H2 n s3 rest) as (s4 & E4 & R); auto; [cbn [fuel_of]; rewrite T0, length_app; lia|].
    cbn [parse] in E4. rewrite E4. cbn. eauto.
Qed.

Lemma line_complete ts c k : complete NPipe ts c -> complete NLine (ts ++ replicate k (Sym 38)) (Nat.iter k Back c).
Proof.
  intros H. start_complete. rewrite length_replicate in Hn. unfold_parse. rewrite <- app_assoc in Et.
  destruct (H n s (replicate k (Sym 38) ++ rest)) as (s1 & E & Hok1 & T1); [done|done| | |].
  - destruct k; [|by apply list_elem_of_here]. eapply follow_mono; [|exact Hf]. by syms.
  - cbn [fuel_of]. rewrite Et, !length_app, length_replicate. lia.
  - cbn [parse] in E. rewrite E. cbn [pbind]. destruct (amps_complete k n c s1 rest) as (s2 & -> & Hok2 & T2); auto.
    + by eapply follow_starts; [exact Hf|syms].
    + rewrite T1, length_app, length_replicate. lia.
    + cbn [pbind]. do_peek T2. rewrite (follow_starts _ _ _ Hf) by syms. eauto.
Qed.

Lemma list_complete ts1 ts2 c1 c2 k : complete NPipe ts1 c1 -> complete NLine ts2 c2 ->
  complete NLine (ts1 ++ replicate k (Sym 38) ++ Sym 59 :: ts2) (List (Nat.iter k Back c1) c2).
Proof.
  intros H1 H2. start_complete. rewrite length_replicate in Hn. unfold_parse. rewrite <- !app_assoc in Et. cbn [app] in Et.
  destruct (H1 n s (replicate k (Sym 38) ++ Sym 59 :: ts2 ++ rest)) as (s1 & E & Hok1 & T1); [done|done| | |].
  - destruct k; [|by apply list_elem_of_here]. cbn. set_solver.
  - cbn [fuel_of]. rewrite Et, !length_app, length_replicate. cbn [length]. rewrite length_app. lia.
  - cbn [parse] in E. rewrite E. cbn [pbind]. destruct (amps_complete k n c1 s1 (Sym 59 :: ts2 ++ rest)) as (s2 & -> & Hok2 & T2); auto.
    + rewrite T1, length_app, length_replicate. cbn [length]. rewrite length_app. lia.
    + cbn [pbind]. do_peek T2. do_starts. do_token T.
      destruct (H2 n s4 rest) as (s5 & E5 & R); auto; [cbn [fuel_of]; rewrite T0, length_app; lia|].
      cbn [parse] in E5. rewrite E5. cbn. eauto.
Qed.

(** Every derivation is found. *)
Lemma parse_complete x ts c : derives x ts c -> complete x ts c.
Proof.
  induction 1; eauto using exec_complete, block_complete, simple_complete, pipe_complete, line_complete, list_complete.
Qed.
(** A result at [s] is right: the command is one [R] allows for the tokens
    consumed, and only a fuel below [bound] can run out. *)
Definition parsed (R : list tok -> cmd -> Prop) (bound n : nat) (s : Z) (r : pres (cmd * Z)) : Prop :=
  match r with
  | POk (c, s') => ok s' /\ exists ts, tokens s = ts ++ tokens s' /\ R ts c
  | PPanic _ => True
  | PFuel => (n < bound)%nat
  end.

(** The sequence of two phrases. *)
Lemma parsed_bind (R1 R2 : list tok -> cmd -> Prop) b1 b n1 n s r k :
  parsed R1 b1 n1 s r -> ((n1 < b1)%nat -> (n < b)%nat) ->
  (forall c s' ts, ok s' -> tokens s = ts ++ tokens s' -> R1 ts c -> parsed (fun ts' c' => R2 (ts ++ ts') c') b n s' (k (c, s'))) ->
  parsed R2 b n s (pbind r k).
Proof.
  destruct r as [[c s']|msg|]; cbn [parsed pbind]; [|done|tauto]. intros (Hok & ts & E & HR) _ H. specialize (H c s' ts Hok E HR).
  destruct (k (c, s')) as [[c' s'']|msg|]; cbn [parsed] in *; [|done|done]. destruct H as (Hok' & ts' & E' & HR'). split; [done|].
  exists (ts ++ ts'). by rewrite E, E', app_assoc.
Qed.

(** Tokens consumed before a phrase. *)
Lemma parsed_cons ts0 (R : list tok -> cmd -> Prop) b n s s' r :
  tokens s = ts0 ++ tokens s' -> parsed (fun ts c => R (ts0 ++ ts) c) b n s' r -> parsed R b n s r.
Proof.
  intros E. destruct r as [[c x]|msg|]; cbn [parsed]; [|done|done]. intros (Hok & ts & E' & HR). split; [done|].
  exists (ts0 ++ ts). by rewrite E, E', app_assoc.
Qed.

Lemma parsed_mono (R R' : list tok -> cmd -> Prop) b b' n n' s r :
  parsed R b n s r -> (forall ts c, R ts c -> R' ts c) -> ((n < b)%nat -> (n' < b')%nat) -> parsed R' b' n' s r.
Proof. destruct r as [[c x]|msg|]; cbn [parsed]; [|done|tauto]. intros (Hok & ts & E' & HR) H _. eauto. Qed.

(** Redirection and its file. *)
Lemma redirs_sound n : forall c s, ok s -> parsed (fun ts c' => redirs_of ts c c') (S (length (tokens s))) n s (parseredirs m es n c s).
Proof.
  induction n as [|n IH]; intros c s Hs; cbn [parseredirs]; [cbn; lia|].
  destruct (peek_spec s [60; 62]) as (s1 & -> & Hok & T); [done|by syms|]. destruct (starts _ _) eqn:Est; cbn [negb].
  2: { split; [done|]. exists []. split; [by rewrite T|constructor]. }
  apply starts_true in Est as (t & ts & Et & Ht). rewrite Et in T. do_token T.
  pose proof (gettoken_spec s2 Hok0) as Hg. destruct (tokens s2) as [|t' ts'] eqn:Et2; [destruct Hg as (? & ? & ->); done|].
  destruct Hg as (q & e & s3 & -> & Hok3 & T3 & Hw). destruct (Z.eqb_spec (code t') 97) as [Ec|]; [|done]. cbn [negb].
  destruct t' as [y| |q' e']; [exfalso; cbn in Ec; subst y; by unfold symbols in Hw; set_solver|done|]. destruct Hw as [-> ->].
  apply (parsed_cons [t; Word q e] _ _ _ _ s3); [by rewrite Et, <- T0, T3|].
  eapply parsed_mono; [apply (IH _ s3 Hok3)| |rewrite Et, <- T0, T3; cbn; lia]. intros us c' Hr. cbn [app].
  destruct Ht as [[-> _]|(y & -> & Hy)]; [by constructor|].
  apply elem_of_cons in Hy as [->|Hy]; [by constructor|]. apply list_elem_of_singleton in Hy as ->. by constructor.
Qed.

Lemma amps_sound n : forall c s, ok s ->
  parsed (fun ts c' => exists k, ts = replicate k (Sym 38) /\ c' = Nat.iter k Back c) (S (length (tokens s))) n s (parseamps m es n c s).
Proof.
  induction n as [|n IH]; intros c s Hs; cbn [parseamps]; [cbn; lia|].
  destruct (peek_spec s [38]) as (s1 & -> & Hok & T); [done|by syms|]. destruct (starts _ _) eqn:Est.
  2: { split; [done|]. exists []. split; [by rewrite T|by exists O]. }
  apply starts_true in Est as (t & ts & Et & [[-> ?]|(y & -> & Hy)]); [set_solver|]. apply list_elem_of_singleton in Hy as ->.
  rewrite Et in T. do_token T. apply (parsed_cons [Sym 38] _ _ _ _ s2); [by rewrite Et, <- T0|].
  eapply parsed_mono; [apply (IH _ s2 Hok0)| |rewrite Et, <- T0; cbn; lia]. intros us c' (k & -> & ->). exists (S k). split; [done|].
  symmetry. apply Nat.iter_succ_r.
Qed.

Lemma args_sound n : forall argc c s, ok s -> parsed (fun ts c' => args_of argc ts c c') (S (length (tokens s))) n s (parseargs m es n argc c s).
Proof.
  induction n as [|n IH]; intros argc c s Hs; cbn [parseargs]; [cbn; lia|].
  destruct (peek_spec s [124; 41; 38; 59]) as (s1 & -> & Hok & T); [done|by syms|]. destruct (starts _ _) eqn:Est.
  { split; [done|]. exists []. split; [by rewrite T|constructor]. }
  pose proof (gettoken_spec s1 Hok) as Hg. destruct (tokens s1) as [|t ts] eqn:Et.
  { destruct Hg as (? & ? & ->). cbn. split; [unfold ok; lia|]. exists []. rewrite <- T. split; [|constructor].
    by rewrite tokens_eq, tok_next_end by (unfold ok; lia). }
  destruct Hg as (q & e & s2 & -> & Hok2 & T2 & Hw). destruct (Z.eqb_spec (code t) 0) as [E0|_].
  { destruct t as [y| |]; [|done..]. cbn in E0. subst y. unfold symbols in Hw. set_solver. }
  destruct (Z.eqb_spec (code t) 97) as [Ec|]; [|done]. cbn [negb].
  destruct t as [y| |q' e']; [exfalso; cbn in Ec; subst y; by unfold symbols in Hw; set_solver|done|]. destruct Hw as [-> ->].
  rewrite Z.geb_leb. destruct (Z.leb_spec MAXARGS (argc + 1)); [done|].
  apply (parsed_cons [Word q e] _ _ _ _ s2); [by rewrite <- T, T2|].
  eapply parsed_bind; [apply (redirs_sound n _ s2 Hok2)|rewrite T2, <- T; cbn; lia|]. intros c1 s3 ts1 Hok3 E3 Hr.
  eapply parsed_mono; [apply (IH _ c1 s3 Hok3)| |rewrite <- T, <- T2, E3; cbn; rewrite length_app; lia]. intros us c' Ha.
  by apply (ao_word _ q e ts1 us c c1).
Qed.
(** Soundness of the mutually recursive functions, with [n] fuel. *)
Definition sound (n : nat) (x : nonterm) : Prop :=
  forall s, ok s -> parsed (derives x) (fuel_of x (length (tokens s))) n s (parse x n s).

Definition block_sound (n : nat) : Prop :=
  forall s, ok s -> parsed (derives NExec) (4 * length (tokens s) + 1) n s (parseblock m es n s).

(** Take a symbol [peek] has seen. *)
Lemma starts_sym c s : c <> 62 -> starts [c] (tokens s) = true -> exists ts, tokens s = Sym c :: ts.
Proof.
  intros Hc E. apply starts_true in E as (t & ts & -> & [[-> E]|(y & -> & E)]); apply list_elem_of_singleton in E; [done|]. subst. eauto.
Qed.

Lemma line_sound n : sound n NPipe -> sound n NLine -> sound (S n) NLine.
Proof.
  intros HP HL s Hs. cbn [parse fuel_of] in *. unfold_parse.
  eapply parsed_bind; [by apply HP|cbn [fuel_of]; lia|]. intros c s1 ts1 Hok1 E1 H1.
  eapply parsed_bind; [by apply amps_sound|rewrite E1, length_app; lia|]. intros c2 s2 ts2 Hok2 E2 (k & -> & ->).
  destruct (peek_spec s2 [59]) as (s3 & -> & Hok3 & T3); [done|by syms|]. destruct (starts _ _) eqn:Est.
  - apply starts_sym in Est as [ts Et]; [|done]. rewrite Et in T3. do_token T3.
    apply (parsed_cons [Sym 59] _ _ _ _ s4); [by rewrite Et, <- T|].
    eapply (parsed_bind (derives NLine)); [by apply HL|rewrite E1, E2, Et, <- T, !length_app; cbn [length fuel_of]; lia|].
    intros c3 s5 ts3 Hok5 E5 H3. split; [done|]. exists []. split; [done|]. rewrite app_nil_r. by apply d_list.
  - split; [done|]. exists []. split; [by rewrite T3|]. rewrite app_nil_r. by apply d_line.
Qed.

Lemma pipe_sound n : sound n NExec -> sound n NPipe -> sound (S n) NPipe.
Proof.
  intros HE HP s Hs. cbn [parse fuel_of] in *. unfold_parse.
  eapply parsed_bind; [by apply HE|cbn [fuel_of]; lia|]. intros c s1 ts1 Hok1 E1 H1.
  destruct (peek_spec s1 [124]) as (s3 & -> & Hok3 & T3); [done|by syms|]. destruct (starts _ _) eqn:Est.
  - apply starts_sym in Est as [ts Et]; [|done]. rewrite Et in T3. do_token T3.
    apply (parsed_cons [Sym 124] _ _ _ _ s2); [by rewrite Et, <- T|].
    eapply (parsed_bind (derives NPipe)); [by apply HP|rewrite E1, Et, <- T, !length_app; cbn [length fuel_of]; lia|].
    intros c3 s5 ts3 Hok5 E5 H3. split; [done|]. exists []. split; [done|]. rewrite app_nil_r. by apply d_pipe.
  - split; [done|]. exists []. split; [by rewrite T3|]. rewrite app_nil_r. by apply d_simple.
Qed.

Lemma exec_sound n : block_sound n -> sound (S n) NExec.
Proof.
  intros HB s Hs. cbn [parse fuel_of] in *. unfold_parse.
  destruct (peek_spec s [40]) as (s1 & -> & Hok1 & T1); [done|by syms|]. destruct (starts _ _) eqn:Est.
  - apply (parsed_cons [] _ _ _ _ s1); [by rewrite T1|]. eapply parsed_mono; [by apply HB|done|rewrite T1; lia].
  - apply (parsed_cons [] _ _ _ _ s1); [by rewrite T1|]. cbn [app].
    eapply parsed_bind; [by apply redirs_sound|rewrite T1; lia|]. intros c s2 ts1 Hok2 E2 H1.
    eapply parsed_mono; [by apply args_sound|intros us c' Ha; by apply (d_exec ts1 us c)|rewrite <- T1, E2, length_app; lia].
Qed.

Lemma block_sound_S n : sound n NLine -> block_sound (S n).
Proof.
  intros HL s Hs. unfold_parse. destruct (peek_spec s [40]) as (s1 & -> & Hok1 & T1); [done|by syms|]. destruct (starts _ _) eqn:Est; [|done].
  cbn [negb]. apply starts_sym in Est as [ts Et]; [|done]. rewrite Et in T1. do_token T1.
  apply (parsed_cons [Sym 40] _ _ _ _ s2); [by rewrite Et, <- T|].
  eapply (parsed_bind (derives NLine)); [by apply HL|rewrite Et, <- T; cbn [length fuel_of]; lia|]. intros c s3 ts1 Hok3 E3 H1.
  destruct (peek_spec s3 [41]) as (s4 & -> & Hok4 & T4); [done|by syms|]. destruct (starts _ _) eqn:Est; [|done].
  cbn [negb]. apply starts_sym in Est as [ts2 Et2]; [|done]. rewrite Et2 in T4. do_token T4.
  apply (parsed_cons [Sym 41] _ _ _ _ s5); [by rewrite Et2, <- T0|].
  eapply parsed_mono; [by apply redirs_sound|intros us c' Hr; cbn [app]; by apply (d_block ts1 us c)|rewrite Et, <- T, E3, Et2, <- T0; cbn; rewrite length_app; cbn; lia].
Qed.

Lemma parse_sound n : (forall x, sound n x) /\ block_sound n.
Proof.
  induction n as [|n [IH IHb]].
  - split; [intros [] s Hs|intros s Hs]; cbn; lia.
  - split; [intros []|]; auto using line_sound, pipe_sound, exec_sound, block_sound_S.
Qed.
End Tokens.
