(* ===== verification/ShWords.v ===== *)
(** * Parsing a line: what [parsecmd] of [user/sh.c] returns

    The tree is the one of the grammar ([parsecmd_grammar]), parsing always ends
    ([parsecmd_terminates]), and [nulterminate] turns every word of the tree into
    a C string without touching another word ([parsecmd_strings]). *)
From stdpp Require Import base list gmap strings.
From Stdlib Require Import ZArith Lia.
From S2P Require Import Prelude KString Ulib Sh ShParse.

#[local] Open Scope Z_scope.
#[local] Open Scope xv6_scope.

(** ** Words of a tree *)

Fixpoint words (c : cmd) : list (Z * Z) :=
  match c with
  | Exec argv => argv
  | Redir c file efile _ _ => words c ++ [(file, efile)]
  | Pipe l r | List l r => words l ++ words r
  | Back c => words c
  end.

(** Every [struct execcmd] of the tree has room for its null pointer. *)
Fixpoint args_fit (c : cmd) : Prop :=
  match c with
  | Exec argv => Z.of_nat (length argv) < MAXARGS
  | Redir c _ _ _ _ | Back c => args_fit c
  | Pipe l r | List l r => args_fit l /\ args_fit r
  end.

(** A command made of one [struct execcmd] with [n] arguments and redirections. *)
Fixpoint exec_of (n : Z) (c : cmd) : Prop :=
  match c with
  | Exec argv => Z.of_nat (length argv) = n
  | Redir c _ _ _ _ => exec_of n c
  | _ => False
  end.

Lemma exec_of_fit n c : exec_of n c -> n < MAXARGS -> args_fit c.
Proof. induction c; cbn; try done. lia. Qed.

Lemma exec_of_add n c q e : exec_of n c -> exec_of (n + 1) (add_arg c q e).
Proof. induction c; cbn; try done. rewrite length_app. cbn. lia. Qed.

Lemma redirs_exec_of n ts c c' : redirs_of ts c c' -> exec_of n c -> exec_of n c'.
Proof. induction 1; cbn in *; auto. Qed.

Lemma redirs_fit ts c c' : redirs_of ts c c' -> args_fit c -> args_fit c'.
Proof. induction 1; cbn in *; auto. Qed.

Lemma args_fit_of n ts c c' : args_of n ts c c' -> n < MAXARGS -> exec_of n c -> args_fit c'.
Proof.
  induction 1 as [|n q e ts1 ts2 c c1 c2 Ha Hr _ IH]; intros Hn Hc; [by eapply exec_of_fit|].
  apply IH; [done|]. by eapply redirs_exec_of, exec_of_add.
Qed.

Lemma iter_back_fit k c : args_fit c -> args_fit (Nat.iter k Back c).
Proof. induction k; cbn; auto. Qed.

Lemma derives_fit x ts c : derives x ts c -> args_fit c.
Proof.
  induction 1 as [ts1 ts2 c c' Hr Ha| | | | |]; cbn; eauto using redirs_fit, iter_back_fit.
  eapply args_fit_of; [done|done|]. by eapply redirs_exec_of.
Qed.

(** The words of a tree are those of the tokens. *)
Definition tok_words (ts : list tok) : list (Z * Z) := omap (fun t => match t with Word q e => Some (q, e) | _ => None end) ts.

Lemma words_add_arg n c q e : exec_of n c -> words (add_arg c q e) ≡ₚ words c ++ [(q, e)].
Proof. induction c; cbn; try done. intros H. rewrite IHc by done. solve_Permutation. Qed.

Lemma redirs_words ts c c' : redirs_of ts c c' -> words c' ≡ₚ words c ++ tok_words ts.
Proof. induction 1 as [|c q e ts c' H IH|c q e ts c' H IH|c q e ts c' H IH]; cbn; [by rewrite app_nil_r|..]; rewrite IH; cbn; by rewrite <- app_assoc. Qed.

Lemma tok_words_app ts us : tok_words (ts ++ us) = tok_words ts ++ tok_words us.
Proof. apply omap_app. Qed.

Lemma args_words n ts c c' : args_of n ts c c' -> exec_of n c -> words c' ≡ₚ words c ++ tok_words ts.
Proof.
  induction 1 as [|n q e ts1 ts2 c c1 c2 Ha Hr _ IH]; intros Hc; [cbn; by rewrite app_nil_r|].
  rewrite IH by (by eapply redirs_exec_of, exec_of_add). rewrite (redirs_words _ _ _ Hr), words_add_arg by done.
  change (tok_words (Word q e :: ts1 ++ ts2)) with ((q, e) :: tok_words (ts1 ++ ts2)). rewrite tok_words_app. by rewrite <- !app_assoc.
Qed.

Lemma iter_back_words k c : words (Nat.iter k Back c) = words c.
Proof. by induction k. Qed.

Lemma tok_words_amps k : tok_words (replicate k (Sym 38)) = [].
Proof. by induction k. Qed.

Lemma derives_words x ts c : derives x ts c -> words c ≡ₚ tok_words ts.
Proof.
  induction 1 as [ts1 ts2 c c' Hr Ha|ts rs c c' H IH Hr| |ts1 ts2 c1 c2 H1 IH1 H2 IH2| |ts1 ts2 c1 c2 k H1 IH1 H2 IH2];
    cbn [words]; rewrite ?iter_back_words, ?tok_words_app, ?tok_words_amps, ?app_nil_r; try done.
  - rewrite (args_words _ _ _ _ Ha) by (by eapply redirs_exec_of). by rewrite (redirs_words _ _ _ Hr).
  - rewrite (redirs_words _ _ _ Hr), IH. change (tok_words (Sym 40 :: ?l)) with (tok_words l). by rewrite tok_words_app.
  - by rewrite IH1, IH2.
  - by rewrite IH1, IH2.
Qed.

(** ** NUL-termination *)

Lemma nul_args_get argv m x : nul_args argv m x = if decide (x ∈ argv.*2) then 0 else m x.
Proof.
  revert m. induction argv as [|[q e] argv IH]; intros m; cbn [nul_args fmap list_fmap]; [done|]. rewrite IH.
  destruct (decide (x ∈ argv.*2)); destruct (decide (x ∈ _ :: _)) as [Hx|Hx]; try done; [set_solver| |].
  - apply elem_of_cons in Hx as [->|]; [by rewrite upd_same|done].
  - apply not_elem_of_cons in Hx as [? _]. by rewrite upd_other.
Qed.

Lemma nulterminate_get c m x : nulterminate c m x = if decide (x ∈ (words c).*2) then 0 else m x.
Proof.
  revert m. induction c as [argv|c IH file efile mode fd|l IHl r IHr|l IHl r IHr|c IH]; intros m; cbn [nulterminate words].
  - apply nul_args_get.
  - rewrite fmap_app. cbn. destruct (decide (x = efile)) as [->|]; [rewrite upd_same; by rewrite decide_True by set_solver|].
    rewrite upd_other by done. rewrite IH. apply decide_ext. set_solver.
  - rewrite fmap_app, IHr, IHl. repeat destruct (decide _); set_solver.
  - rewrite fmap_app, IHr, IHl. repeat destruct (decide _); set_solver.
  - apply IH.
Qed.

(** ** Words of a line *)

Section Line.
Context (m : mem) (s0 es : Z).
Context (Hs0 : s0 <= es) (Hchar : forall x, s0 <= x < es -> m x <> 0) (Hnul : m es = 0).

(** A character inside a word, and one behind it. *)
Definition plain (c : Z) : Prop := c <> 0 /\ U.strchr whitespace c = false /\ U.strchr symbols c = false.

Lemma next_word s q e s' : ok s0 es s -> tok_next m es s = Some (Word q e, s') ->
  s <= q < e /\ e <= es /\ (forall x, q <= x < e -> plain (m x)) /\ ~ plain (m e).
Proof.
  intros Hs. unfold tok_next. destruct (skip_ok m s0 es s Hs) as (Hok & Hle & Hstop). set (x := skip m es s) in *.
  destruct (Z.eqb_spec (m x) 0) as [|Hn]; [done|]. destruct (_ || _) eqn:E6; [done|].
  destruct (Z.eqb_spec (m x) 62) as [|N62]; [by destruct (_ =? 62)|]. intros [= <- <- <-].
  rewrite !orb_false_iff, !Z.eqb_neq in E6. destruct E6 as (((((? & ?) & ?) & ?) & ?) & ?).
  destruct (word_ok m s0 es Hnul x Hok Hn) as (W1 & W2 & W3 & W4); [|by apply not_symbol|].
  { destruct Hstop as [E|]; [|done]. by rewrite E, Hnul in Hn. }
  unfold ok in *. split; [lia|]. split; [lia|]. split.
  - intros y Hy. split; [|by apply W3]. apply Hchar. lia.
  - intros (P1 & P2 & P3). destruct W4 as [W|[W|W]]; rewrite ?W in *; congruence.
Qed.

Lemma word_in_tokens s q e : ok s0 es s -> Word q e ∈ tokens m es s ->
  s <= q < e /\ e <= es /\ (forall x, q <= x < e -> plain (m x)) /\ ~ plain (m e).
Proof.
  intros Hs. remember (Z.to_nat (es - s)) as n eqn:En. revert s Hs En. induction n as [n IH] using lt_wf_ind. intros s Hs En.
  rewrite (tokens_eq m s0 es) by done. destruct (tok_next m es s) as [[t s']|] eqn:E; [|intros H; by apply elem_of_nil in H].
  destruct (tok_next_ok m s0 es Hnul s t s' Hs E) as [Hs' Hlt]. rewrite elem_of_cons. intros [<-|Hin]; [by eapply next_word|].
  unfold ok in *. destruct (IH (Z.to_nat (es - s')) ltac:(lia) s' ltac:(done) eq_refl Hin) as (? & ? & ?). split; [lia|done].
Qed.

End Line.

(** ** [parsecmd] *)

Lemma strlen_some fuel m s : forall n len, U.strlen_loop fuel m s n = Some len ->
  n <= len < n + Z.of_nat fuel /\ m (s + len) = 0 /\ forall i, n <= i < len -> m (s + i) <> 0.
Proof.
  induction fuel as [|fuel IH]; intros n len; cbn [U.strlen_loop]; [done|]. destruct (Z.eqb_spec (m (s + n)) 0) as [E|N].
  - intros [= <-]. split; [lia|]. split; [done|]. intros; lia.
  - intros H. destruct (IH _ _ H) as (H1 & H2 & H3). split; [lia|]. split; [done|]. intros i Hi.
    destruct (Z.eq_dec i n) as [->|]; [done|]. apply H3. lia.
Qed.

Lemma strlen_ends fuel m s k : forall n, m (s + k) = 0 -> n <= k < n + Z.of_nat fuel -> exists len, U.strlen_loop fuel m s n = Some len.
Proof.
  induction fuel as [|fuel IH]; intros n Hk Hn; cbn [U.strlen_loop]; [lia|]. destruct (Z.eqb_spec (m (s + n)) 0) as [|N]; [eauto|].
  apply IH; [done|]. destruct (Z.eq_dec n k) as [->|]; [done|lia].
Qed.

(** The end of the tokens is the end of the line. *)
Lemma tokens_nil m s0 es s : (forall x, s0 <= x < es -> m x <> 0) -> m es = 0 -> ok s0 es s -> tokens m es s = [] <-> skip m es s = es.
Proof.
  intros Hchar Hnul Hs. rewrite (tokens_eq m s0 es) by done. unfold tok_next. destruct (skip_ok m s0 es s Hs) as (Hok & _).
  rewrite <- (nul_end m s0 es) by done. destruct (Z.eqb_spec (m (skip m es s)) 0) as [|N]; [done|].
  destruct (_ || _); [done|]. destruct (_ =? 62); [by destruct (_ =? 62)|done].
Qed.

Section Parse.
Context (fuel : nat) (m : mem) (s len : Z) (Hlen : U.strlen fuel m s = Some len).

#[local] Lemma line : 0 <= len /\ m (s + len) = 0 /\ forall x, s <= x < s + len -> m x <> 0.
Proof.
  destruct (strlen_some fuel m s 0 len Hlen) as (H1 & H2 & H3). split; [lia|]. split; [done|]. intros x Hx.
  replace x with (s + (x - s)) by lia. apply H3. lia.
Qed.

(** The fuel is enough. *)
#[local] Lemma fuel_enough : (fuel_of NLine (length (tokens m (s + len) s)) <= parse_fuel len)%nat.
Proof.
  destruct line as (H1 & H2 & H3). pose proof (tokens_length m s (s + len) H2 s) as H. unfold ok, parse_fuel in *. cbn [fuel_of]. lia.
Qed.

Lemma parsecmd_ok c m' : parsecmd fuel m s = POk (c, m') <-> derives NLine (tokens m (s + len) s) c /\ m' = nulterminate c m.
Proof.
  destruct line as (H1 & H2 & H3). assert (Hs : ok s (s + len) s) by (unfold ok; lia). unfold parsecmd. rewrite Hlen. split.
  - destruct (parse_sound m s (s + len) ltac:(lia) H3 H2 (parse_fuel len)) as [H _]. specialize (H NLine s Hs). cbn [parse] in H.
    destruct (parseline _ _ _ s) as [[c1 s1]|msg|]; cbn [pbind]; [|done|done]. destruct H as (Hok & ts & E & Hd).
    unfold peek. destruct (Z.eqb_spec (skip m (s + len) s1) (s + len)) as [E1|]; [|done]. cbn [negb]. intros [= <- <-].
    apply (tokens_nil m s (s + len)) in E1; [|done..]. rewrite E1, app_nil_r in E. by rewrite E.
  - intros [Hd ->]. destruct (parse_complete m s (s + len) ltac:(lia) H3 H2 _ _ _ Hd (parse_fuel len) s []) as (s1 & E & Hok & Ht);
      [done|by rewrite app_nil_r|done|apply fuel_enough|]. cbn [parse] in E. rewrite E. cbn [pbind].
    unfold peek. apply (tokens_nil m s (s + len)) in Ht; [|done..]. by rewrite Ht, Z.eqb_refl.
Qed.

Lemma parsecmd_no_fuel : parsecmd fuel m s <> PFuel.
Proof.
  destruct line as (H1 & H2 & H3). unfold parsecmd. rewrite Hlen.
  destruct (parse_sound m s (s + len) ltac:(lia) H3 H2 (parse_fuel len)) as [H _]. specialize (H NLine s ltac:(unfold ok; lia)). cbn [parse] in H.
  destruct (parseline _ _ _ s) as [[c1 s1]|msg|]; cbn [pbind]; [|done|].
  - unfold peek. by destruct (negb _).
  - cbn [parsed] in H. pose proof fuel_enough. lia.
Qed.

(** A NUL-terminated word reads back. *)
Lemma cstr_word m' q e : q <= e -> m' e = 0 -> (forall x, q <= x < e -> m' x = m x /\ m x <> 0) ->
  cstr m' q (Z.to_nat (e - q + 1)) = m <$> zseq q (Z.to_nat (e - q)).
Proof.
  intros Hq He. remember (Z.to_nat (e - q)) as k eqn:Ek. replace (Z.to_nat (e - q + 1)) with (S k) by lia. revert q Hq Ek.
  induction k as [|k IH]; intros q Hq Ek H.
  - assert (q = e) as -> by lia. cbn. by rewrite He.
  - change (cstr m' q (S (S k))) with (if m' q =? 0 then [] else m' q :: cstr m' (q + 1) (S k)). destruct (H q ltac:(lia)) as [-> Hn].
    apply Z.eqb_neq in Hn as ->. cbn. f_equal. apply IH; [lia|lia|]. intros x Hx. apply H. lia.
Qed.

Lemma nul_word c q e : derives NLine (tokens m (s + len) s) c -> (q, e) ∈ words c ->
  (s <= q < e /\ e <= s + len) /\ cstr (nulterminate c m) q (Z.to_nat (e - q + 1)) = m <$> zseq q (Z.to_nat (e - q)).
Proof.
  destruct line as (H1 & H2 & H3). intros Hd Hin.
  assert (Hw : forall q e, (q, e) ∈ words c -> s <= q < e /\ e <= s + len /\ (forall x, q <= x < e -> plain (m x)) /\ ~ plain (m e)).
  { intros q' e' Hin'. rewrite (derives_words _ _ _ Hd) in Hin'. apply list_elem_of_omap in Hin' as (t & Ht & Et).
    destruct t as [| |q2 e2]; [done|done|]. injection Et as -> ->. apply (word_in_tokens m s (s + len)); auto. unfold ok; lia. }
  destruct (Hw q e Hin) as (W1 & W2 & W3 & W4). split; [done|]. apply cstr_word; [lia| |].
  - rewrite nulterminate_get, decide_True; [done|]. apply list_elem_of_fmap. by exists (q, e).
  - intros x Hx. split; [|by apply W3]. rewrite nulterminate_get, decide_False; [done|]. intros ([q' e'] & -> & Hin')%list_elem_of_fmap.
    cbn in Hx. apply (Hw q' e') in Hin' as (_ & _ & _ & Hn). by destruct Hn; apply W3.
Qed.
End Parse.

(** C31: [parsecmd] is equivalent to the grammar: for a line of [len] characters it
    returns a tree exactly when the grammar derives that tree from the tokens of
    the whole line, and otherwise exits with an error message. *)
Theorem parsecmd_grammar fuel m s len : U.strlen fuel m s = Some len ->
  (forall c m', parsecmd fuel m s = POk (c, m') <-> derives NLine (tokens m (s + len) s) c /\ m' = nulterminate c m) /\
  ((forall c, ~ derives NLine (tokens m (s + len) s) c) <-> exists msg, parsecmd fuel m s = PPanic msg).
Proof.
  intros Hlen. split; [intros; by apply parsecmd_ok|]. pose proof (parsecmd_no_fuel fuel m s len Hlen) as Hf.
  pose proof (parsecmd_ok fuel m s len Hlen) as H. split.
  - intros Hn. destruct (parsecmd fuel m s) as [[c m']|msg|]; [|eauto|done]. destruct (Hn c). by apply (H c m').
  - intros [msg E] c Hd. assert (parsecmd fuel m s = POk (c, nulterminate c m)) by (by apply H). congruence.
Qed.

(** Bytes of a line of text, at address 0. *)
Definition text (l : list Z) : mem := fun a => if a <? 0 then 0 else default 0 (l !! Z.to_nat a).

(** [ls>a|wc&] *)
Definition sample_line : list Z := [108; 115; 62; 97; 124; 119; 99; 38].

Lemma parsecmd_grammar_witness :
  derives NLine [Word 0 2; Sym 62; Word 3 4; Sym 124; Word 5 7; Sym 38] (Back (Pipe (Redir (Exec [(0, 2)]) 3 4 513 1) (Exec [(5, 7)]))).
Proof. apply (proj1 (parsecmd_grammar 10 (text sample_line) 0 8 eq_refl) _ (nulterminate (Back (Pipe (Redir (Exec [(0, 2)]) 3 4 513 1) (Exec [(5, 7)]))) (text sample_line))). vm_compute. reflexivity. Defined.

(** C32: Parsing terminates: on any memory with a NUL behind [s], within the
    given bound, [parsecmd] returns a command or reports an error. *)
Theorem parsecmd_terminates fuel m s n : m (s + n) = 0 -> 0 <= n < Z.of_nat fuel ->
  (exists c m', parsecmd fuel m s = POk (c, m')) \/ (exists msg, parsecmd fuel m s = PPanic msg).
Proof.
  intros Hn Hf. destruct (strlen_ends fuel m s n 0 Hn) as [len Hlen]; [lia|]. pose proof (parsecmd_no_fuel fuel m s len Hlen).
  destruct (parsecmd fuel m s) as [[c m']|msg|]; [eauto|eauto|done].
Qed.

Lemma parsecmd_terminates_witness : (exists c m', parsecmd 100 (text [40; 40; 124]) 0 = POk (c, m')) \/ (exists msg, parsecmd 100 (text [40; 40; 124]) 0 = PPanic msg).
Proof. apply (parsecmd_terminates 100 (text [40; 40; 124]) 0 3); [reflexivity|lia]. Defined.

(** C33: Well-formedness of the trees [parsecmd] returns: every argument list has
    room for its null pointer, every word lies inside the line, in the returned
    memory it is the C string of the characters of the line between its two
    pointers, and nothing outside the line is written. *)
Theorem parsecmd_strings fuel m s len c m' : U.strlen fuel m s = Some len -> parsecmd fuel m s = POk (c, m') ->
  args_fit c /\
  (forall q e, (q, e) ∈ words c -> (s <= q < e /\ e <= s + len) /\ cstr m' q (Z.to_nat (e - q + 1)) = m <$> zseq q (Z.to_nat (e - q))) /\
  (forall x, x < s \/ s + len < x -> m' x = m x).
Proof.
  intros Hlen H. apply (parsecmd_ok fuel m s len Hlen) in H as [Hd ->]. split; [by eapply derives_fit|].
  split; [intros q e; by eapply nul_word|]. intros x Hx. rewrite nulterminate_get, decide_False; [done|].
  intros ([q e] & -> & Hin)%list_elem_of_fmap. destruct (nul_word fuel m s len Hlen c q e Hd Hin) as [? _]. cbn in *. lia.
Qed.

Lemma parsecmd_strings_witness :
  args_fit (Back (Pipe (Redir (Exec [(0, 2)]) 3 4 513 1) (Exec [(5, 7)]))).
Proof. apply (parsecmd_strings 10 (text sample_line) 0 8 _ (nulterminate (Back (Pipe (Redir (Exec [(0, 2)]) 3 4 513 1) (Exec [(5, 7)]))) (text sample_line))); vm_compute; reflexivity. Defined.
