(* ===== verification/ShRun.v ===== *)
(** * [user/sh.c]: running commands

    A shell process is a program of system calls ([prog]): [fork] continues with
    the value it returns in each of the two processes, [exit] ends it, [exec]
    goes on only when it fails.  [runcmd] and [main] are such programs.

    [runs] is what a process and the processes it forks do, given its table of
    open files: the kernel gives out the lowest free descriptor and any call that
    can fail may fail.  [wired] is what a command means: where each program it
    starts reads and writes.  [runcmd] does exactly what the command means
    ([runcmd_wired]). *)
From stdpp Require Import base list gmap strings.
From Stdlib Require Import ZArith Lia.
From S2P Require Import Prelude KString Ulib Sh.

#[local] Open Scope Z_scope.
#[local] Open Scope xv6_scope.

(** ** System calls *)

Inductive prog : Type :=
| Exit (status : Z)
| Execute (argv : list (list Z)) (failed : prog)
| Message (fd : Z) (s : list Z) (k : prog)
| Close (fd : Z) (k : prog)
| Open (file : list Z) (mode : Z) (k : Z -> prog)
| Dup (fd : Z) (k : Z -> prog)
| Pipe2 (k : option (Z * Z) -> prog)           (** [pipe(p)]: [p[0]] and [p[1]], or -1 *)
| Fork (k : Z -> prog)
| Wait (k : prog)
| Chdir (dir : list Z) (k : Z -> prog)
| Stuck.                                        (** never reached *)

Definition panic (s : string) : prog := Message 2 (says "%s" (str s)) (Exit 1).

Definition fork1 (k : Z -> prog) : prog := Fork (fun pid => if pid =? -1 then panic "fork" else k pid).

(** Size of the line buffer: no string in it is longer. *)
Definition NBUF : Z := 100.

(** The string a system call finds at a pointer into the line. *)
Definition string_at (m : mem) (p : Z) : list Z := cstr m p (Z.to_nat NBUF).

(** [m] holds the line, [c] is not null: [parsecmd] never returns null. *)
Fixpoint runcmd (m : mem) (c : cmd) : prog :=
  match c with
  | Exec argv =>
      match argv with
      | [] => Exit 1
      | (q, _) :: _ =>
          Execute (map (fun a => string_at m a.1) argv)
            (Message 2 (says "exec %s failed" (string_at m q)) (Exit 0))
      end
  | Redir c file _ mode fd =>
      Close fd (Open (string_at m file) mode (fun fd =>
        if fd <? 0 then Message 2 (says "open %s failed" (string_at m file)) (Exit 1)
        else runcmd m c))
  | List l r => fork1 (fun pid => if pid =? 0 then runcmd m l else Wait (runcmd m r))
  | Pipe l r =>
      Pipe2 (fun p =>
        match p with
        | None => panic "pipe"
        | Some (p0, p1) =>
            fork1 (fun pid => if pid =? 0 then Close 1 (Dup p1 (fun _ => Close p0 (Close p1 (runcmd m l)))) else
            fork1 (fun pid => if pid =? 0 then Close 0 (Dup p0 (fun _ => Close p0 (Close p1 (runcmd m r)))) else
            Close p0 (Close p1 (Wait (Wait (Exit 0))))))
        end)
  | Back c => fork1 (fun pid => if pid =? 0 then runcmd m c else Exit 0)
  end.

(** The prompt, the buffer, the rest of the input, and whether a line was read. *)
Definition getcmd (m : mem) (buf nbuf : Z) (input : list Z) : list Z * (mem * list Z * bool) :=
  let m := U.memset m buf 0 nbuf in
  let '(m, input) := U.gets m buf nbuf input in
  (str "$ ", (m, input, negb (m buf =? 0))).

(** The child: [runcmd(parsecmd(buf))]. *)
Definition run_line (m : mem) : prog :=
  match parsecmd (Z.to_nat NBUF) m 0 with
  | POk (c, m) => runcmd m c
  | PPanic msg => foldr (Message 2) (Exit 1) msg
  | PFuel => Stuck
  end.

(** [buf[strlen(buf)-1] = 0] *)
Definition chop (m : mem) : mem :=
  match U.strlen (Z.to_nat NBUF) m 0 with Some len => upd m (len - 1) 0 | None => m end.

(** The loop of [main], the buffer at address 0; every turn reads at least one byte of the input. *)
Fixpoint main_loop (n : nat) (m : mem) (input : list Z) : prog :=
  match n with
  | O => Stuck
  | S n =>
      let '(prompt, (m, input, more)) := getcmd m 0 NBUF input in
      Message 2 prompt
        (if negb more then Exit 0 else
         if (m 0 =? 99) && (m 1 =? 100) && (m 2 =? 32) then
           let m := chop m in
           Chdir (string_at m 3) (fun r =>
             if r <? 0 then Message 2 (says "cannot cd %s" (string_at m 3)) (main_loop n m input)
             else main_loop n m input)
         else fork1 (fun pid => if pid =? 0 then run_line m else Wait (main_loop n m input)))
  end.

(** [while((fd = open("console", O_RDWR)) >= 0) if(fd >= 3) ...]: the kernel gives a lower descriptor at most three times. *)
Fixpoint open_console (n : nat) (k : prog) : prog :=
  match n with
  | O => Stuck
  | S n => Open (str "console") O_RDWR (fun fd =>
             if fd >=? 0 then if fd >=? 3 then Close fd k else open_console n k else k)
  end.

Definition main (input : list Z) : prog := open_console 4 (main_loop (S (length input)) (fun _ => 0) input).

(** ** What processes do *)

Inductive obj : Type :=
| File (name : list Z) (mode : Z)
| ReadEnd (p : nat)
| WriteEnd (p : nat)
| Other (n : nat).            (** open before *)

Definition NOFILE : Z := 16.

(** The lowest free descriptor. *)
Definition lowest (t : gmap Z obj) (fd : Z) : Prop := 0 <= fd < NOFILE /\ t !! fd = None /\ forall i, 0 <= i < fd -> is_Some (t !! i).

(** No descriptor of the table is an end of pipe [p]. *)
Definition fresh_pipe (t : gmap Z obj) (p : nat) : Prop := forall fd, t !! fd <> Some (ReadEnd p) /\ t !! fd <> Some (WriteEnd p).

(** A process until it ends or becomes another program, and the processes it forks. *)
Inductive beh : Type :=
| BExit (status : Z)
| BExec (argv : list (list Z)) (t : gmap Z obj)
| BSay (s : list Z) (b : beh)
| BFork (child parent : beh)
| BWait (b : beh)
| BChdir (dir : list Z) (b : beh).

Inductive runs : prog -> gmap Z obj -> beh -> Prop :=
| r_exit st t : runs (Exit st) t (BExit st)
| r_exec argv k t : runs (Execute argv k) t (BExec argv t)
| r_exec_fail argv k t b : runs k t b -> runs (Execute argv k) t b
| r_say fd s k t b : runs k t b -> runs (Message fd s k) t (BSay s b)
| r_close fd k t b : runs k (delete fd t) b -> runs (Close fd k) t b
| r_open file mode k t fd b : lowest t fd -> runs (k fd) (<[fd := File file mode]> t) b -> runs (Open file mode k) t b
| r_open_fail file mode k t b : runs (k (-1)) t b -> runs (Open file mode k) t b
| r_dup fd o fd' k t b : t !! fd = Some o -> lowest t fd' -> runs (k fd') (<[fd' := o]> t) b -> runs (Dup fd k) t b
| r_dup_fail fd k t b : (t !! fd = None \/ forall fd', ~ lowest t fd') -> runs (k (-1)) t b -> runs (Dup fd k) t b
| r_pipe p p0 p1 k t b : fresh_pipe t p -> lowest t p0 -> lowest (<[p0 := ReadEnd p]> t) p1 ->
    runs (k (Some (p0, p1))) (<[p1 := WriteEnd p]> (<[p0 := ReadEnd p]> t)) b -> runs (Pipe2 k) t b
| r_pipe_fail k t b : runs (k None) t b -> runs (Pipe2 k) t b
| r_fork pid k t b1 b2 : 0 < pid -> runs (k 0) t b1 -> runs (k pid) t b2 -> runs (Fork k) t (BFork b1 b2)
| r_fork_fail k t b : runs (k (-1)) t b -> runs (Fork k) t b
| r_wait k t b : runs k t b -> runs (Wait k) t (BWait b)
| r_chdir dir r k t b : runs (k r) t b -> runs (Chdir dir k) t (BChdir dir b).

(** ** What a command means *)

Definition died (msg : string) : beh := BSay (says "%s" (str msg)) (BExit 1).

Inductive wired (m : mem) : cmd -> gmap Z obj -> beh -> Prop :=
| w_empty t : wired m (Exec []) t (BExit 1)
| w_exec q e argv t : wired m (Exec ((q, e) :: argv)) t (BExec (map (fun a => string_at m a.1) ((q, e) :: argv)) t)
| w_exec_fail q e argv t : wired m (Exec ((q, e) :: argv)) t (BSay (says "exec %s failed" (string_at m q)) (BExit 0))
| w_redir c file efile mode fd t b : wired m c (<[fd := File (string_at m file) mode]> t) b -> wired m (Redir c file efile mode fd) t b
| w_redir_fail c file efile mode fd t : wired m (Redir c file efile mode fd) t (BSay (says "open %s failed" (string_at m file)) (BExit 1))
| w_list l r t b1 b2 : wired m l t b1 -> wired m r t b2 -> wired m (List l r) t (BFork b1 (BWait b2))
| w_pipe l r t p b1 b2 : fresh_pipe t p -> wired m l (<[1 := WriteEnd p]> t) b1 -> wired m r (<[0 := ReadEnd p]> t) b2 ->
    wired m (Pipe l r) t (BFork b1 (BFork b2 (BWait (BWait (BExit 0)))))
| w_pipe_half l r t p b1 : fresh_pipe t p -> wired m l (<[1 := WriteEnd p]> t) b1 -> wired m (Pipe l r) t (BFork b1 (died "fork"))
| w_pipe_fail l r t : wired m (Pipe l r) t (died "pipe")
| w_back c t b : wired m c t b -> wired m (Back c) t (BFork b (BExit 0))
| w_fork_fail c t : match c with List _ _ | Pipe _ _ | Back _ => True | _ => False end -> wired m c t (died "fork").
