(* ===== verification/ShRunProps.v ===== *)
(** * What the shell does with a command

    Every program of a command line gets the descriptors the command asks for and
    no other end of a pipe ([runcmd_wired]); a session of the shell runs one such
    command after the other ([shell_session]). *)
From stdpp Require Import base list gmap strings.
From Stdlib Require Import ZArith Lia FunctionalExtensionality.
From S2P Require Import Prelude KString Ulib Sh ShParse ShWords ShRun.

#[local] Open Scope Z_scope.
#[local] Open Scope xv6_scope.

(** Exactly the three standard descriptors are open. *)
Definition std (t : gmap Z obj) : Prop := forall fd, is_Some (t !! fd) <-> 0 <= fd < 3.

(** Redirections concern standard input or output. *)
Fixpoint redir_fds (c : cmd) : Prop :=
  match c with
  | Exec _ => True
  | Redir c _ _ _ fd => (fd = 0 \/ fd = 1) /\ redir_fds c
  | Pipe l r | List l r => redir_fds l /\ redir_fds r
  | Back c => redir_fds c
  end.

Lemma lowest_unique t a b : lowest t a -> lowest t b -> a = b.
Proof.
  intros (A1 & A2 & A3) (B1 & B2 & B3). destruct (Z.lt_trichotomy a b) as [H|[H|H]]; [|done|].
  - destruct (B3 a ltac:(lia)). congruence.
  - destruct (A3 b ltac:(lia)). congruence.
Qed.

Lemma std_none t fd : std t -> ~ 0 <= fd < 3 -> t !! fd = None.
Proof. intros H Hf. destruct (t !! fd) as [o|] eqn:E; [|done]. destruct Hf. apply H. eauto. Qed.

Lemma std_insert t fd o : std t -> 0 <= fd < 3 -> std (<[fd := o]> t).
Proof.
  intros H Hf fd'. destruct (decide (fd' = fd)) as [->|]; [rewrite lookup_insert_eq; split; [lia|eauto]|].
  rewrite lookup_insert_ne by done. apply H.
Qed.

(** Closing one of them makes it the lowest free one. *)
Lemma lowest_delete t fd : (forall i, 0 <= i < fd -> is_Some (t !! i)) -> 0 <= fd < NOFILE -> lowest (delete fd t) fd.
Proof.
  intros H Hf. split; [done|]. split; [apply lookup_delete_eq|]. intros i Hi. rewrite lookup_delete_ne by lia. by apply H.
Qed.

Lemma std_lowest t : std t -> lowest t 3.
Proof. intros H. split; [unfold NOFILE; lia|]. split; [by apply std_none; [|lia]|]. intros i Hi. by apply H. Qed.

Lemma std_lowest2 t o : std t -> lowest (<[3 := o]> t) 4.
Proof.
  intros H. split; [unfold NOFILE; lia|]. split; [rewrite lookup_insert_ne by lia; by apply std_none; [|lia]|].
  intros i Hi. destruct (decide (i = 3)) as [->|]; [rewrite lookup_insert_eq; eauto|]. rewrite lookup_insert_ne by lia. apply H. lia.
Qed.

(** ** System calls of the shell, forwards and backwards *)

Lemma runs_died s t b : runs (panic s) t b <-> b = died s.
Proof. split; [intros H; inv H; match goal with H : runs _ _ _ |- _ => by inv H end|intros ->; repeat constructor]. Qed.

Lemma runs_fork1 k t b : runs (fork1 k) t b <->
  b = died "fork" \/ exists pid b1 b2, 0 < pid /\ b = BFork b1 b2 /\ runs (k 0) t b1 /\ runs (k pid) t b2.
Proof.
  unfold fork1. split.
  - intros H. inv H; [right|left; by eapply runs_died]. destruct (Z.eqb_spec pid (-1)); [lia|]. eauto 10.
  - intros [->|(pid & b1 & b2 & Hp & -> & H1 & H2)]; [by apply r_fork_fail, runs_died|].
    apply (r_fork pid); [done|done|]. by destruct (Z.eqb_spec pid (-1)); [lia|].
Qed.

Lemma runs_close fd k t b : runs (Close fd k) t b <-> runs k (delete fd t) b.
Proof. split; [intros H; by inv H|by constructor]. Qed.

Lemma runs_wait k t b : runs (Wait k) t b <-> exists b', b = BWait b' /\ runs k t b'.
Proof. split; [intros H; inv H; eauto|intros (b' & -> & H); by constructor]. Qed.

Lemma runs_exit st t b : runs (Exit st) t b <-> b = BExit st.
Proof. split; [intros H; by inv H|intros ->; constructor]. Qed.

Lemma runs_say fd s k t b : runs (Message fd s k) t b <-> exists b', b = BSay s b' /\ runs k t b'.
Proof. split; [intros H; inv H; eauto|intros (b' & -> & H); by constructor]. Qed.

Lemma runs_says msg st t b : runs (foldr (Message 2) (Exit st) msg) t b <-> b = foldr BSay (BExit st) msg.
Proof.
  revert b. induction msg as [|s msg IH]; intros b; cbn [foldr]; [apply runs_exit|]. rewrite runs_say. setoid_rewrite IH. naive_solver.
Qed.

Lemma runs_open file mode k t fd b : lowest t fd ->
  runs (Open file mode k) t b <-> runs (k fd) (<[fd := File file mode]> t) b \/ runs (k (-1)) t b.
Proof.
  intros Hl. split.
  - intros H. inv H; [left|by right].
    match goal with B : lowest t ?y, R : runs (?k ?y) _ _ |- _ => by rewrite (lowest_unique t fd y) end.
  - intros [H|H]; [by apply (r_open _ _ _ _ fd)|by apply r_open_fail].
Qed.

Lemma runs_dup fd o fd' k t b : t !! fd = Some o -> lowest t fd' -> runs (Dup fd k) t b <-> runs (k fd') (<[fd' := o]> t) b.
Proof.
  intros Ho Hl. split.
  - intros H. inv H; [|match goal with H : _ \/ _ |- _ => destruct H as [|H]; [congruence|by destruct (H fd')] end]. simplify_map_eq.
    match goal with B : lowest t ?y, R : runs (?k ?y) _ _ |- _ => by rewrite (lowest_unique t fd' y) end.
  - by apply r_dup.
Qed.

Lemma runs_pipe k t b : std t ->
  runs (Pipe2 k) t b <-> runs (k None) t b \/ exists p, fresh_pipe t p /\ runs (k (Some (3, 4))) (<[4 := WriteEnd p]> (<[3 := ReadEnd p]> t)) b.
Proof.
  intros Hs. split.
  - intros H. inv H; [right|by left]. assert (p0 = 3) as -> by (by eapply lowest_unique; [|apply std_lowest]).
    assert (p1 = 4) as -> by (by eapply lowest_unique; [|apply std_lowest2]). eauto.
  - intros [H|(p & Hp & H)]; [by apply r_pipe_fail|]. apply (r_pipe p 3 4); auto using std_lowest, std_lowest2.
Qed.

(** The child of a pipe keeps one end of it, as standard output or input. *)
Lemma runs_end fd keep o0 o1 k t b : std t -> (fd = 1 /\ keep = 4 \/ fd = 0 /\ keep = 3) ->
  runs (Close fd (Dup keep (fun _ => Close 3 (Close 4 k)))) (<[4 := o1]> (<[3 := o0]> t)) b <->
  runs k (<[fd := if keep =? 4 then o1 else o0]> t) b.
Proof.
  intros Hs Hk. rewrite runs_close. erewrite (runs_dup _ (if keep =? 4 then o1 else o0) fd).
  - rewrite !runs_close. match goal with |- runs _ ?a _ <-> runs _ ?b _ => assert (a = b) as ->; [|done] end.
    apply map_eq. intros i. assert (H3 : t !! 3 = None /\ t !! 4 = None) by (split; apply std_none; auto; lia). destruct H3.
    rewrite !lookup_delete, !lookup_insert. repeat case_decide; subst; try lia; try done.
    by rewrite lookup_delete_ne, !lookup_insert_ne by done.
  - rewrite lookup_delete, !lookup_insert. destruct Hk as [[-> ->]|[-> ->]]; repeat case_decide; try lia; done.
  - apply lowest_delete; [|unfold NOFILE; lia]. intros i Hi. rewrite !lookup_insert. repeat case_decide; eauto. apply Hs. lia.
Qed.

(** ** Commands *)

(** Redirections of a tree that the grammar derives. *)
Lemma redirs_redir_fds ts c c' : redirs_of ts c c' -> redir_fds c -> redir_fds c'.
Proof. induction 1; cbn in *; auto. Qed.

Lemma add_arg_redir_fds c q e : redir_fds c -> redir_fds (add_arg c q e).
Proof. induction c; cbn; tauto. Qed.

Lemma args_redir_fds n ts c c' : args_of n ts c c' -> redir_fds c -> redir_fds c'.
Proof. induction 1; eauto using redirs_redir_fds, add_arg_redir_fds. Qed.

Lemma iter_back_redir_fds k c : redir_fds c -> redir_fds (Nat.iter k Back c).
Proof. induction k; cbn; auto. Qed.

Lemma derives_redir_fds x ts c : derives x ts c -> redir_fds c.
Proof.
  induction 1; cbn; eauto using redirs_redir_fds, args_redir_fds, iter_back_redir_fds.
  eapply args_redir_fds; [done|]. by eapply redirs_redir_fds.
Qed.

(** The table with the ends of a pipe closed again. *)
Lemma std_close_pipe t o0 o1 : std t -> delete 4 (delete 3 (<[4 := o1]> (<[3 := o0]> t))) = t.
Proof.
  intros Hs. apply map_eq. intros i. assert (H3 : t !! 3 = None /\ t !! 4 = None) by (split; apply std_none; auto; lia). destruct H3.
  rewrite !lookup_delete, !lookup_insert. repeat case_decide; subst; done.
Qed.

Definition pipe_parent : prog := Close 3 (Close 4 (Wait (Wait (Exit 0)))).

Lemma runs_pipe_parent t b : runs pipe_parent t b <-> b = BWait (BWait (BExit 0)).
Proof.
  unfold pipe_parent. rewrite !runs_close, runs_wait. setoid_rewrite runs_wait. setoid_rewrite runs_exit. naive_solver.
Qed.

Lemma runcmd_sound m c : redir_fds c -> forall t b, std t -> runs (runcmd m c) t b -> wired m c t b.
Proof.
  induction c as [[|[q e] argv]|c IH file efile mode fd|l IHl r IHr|l IHl r IHr|c IH]; cbn [redir_fds runcmd]; intros Hc t b Hs.
  - intros ->%runs_exit. apply w_empty.
  - intros H. inv H; [apply w_exec|]. match goal with H : runs _ _ _ |- _ => apply runs_say in H as (b' & -> & ->%runs_exit) end. apply w_exec_fail.
  - destruct Hc as [Hfd Hc]. rewrite runs_close, (runs_open _ _ _ _ fd) by (apply lowest_delete; [intros; apply Hs; lia|unfold NOFILE; lia]).
    intros [H|H].
    + rewrite insert_delete_eq in H. apply w_redir, IH; [done|apply std_insert; [done|lia]|]. by destruct (Z.ltb_spec fd 0); [lia|].
    + apply runs_say in H as (b' & -> & ->%runs_exit). apply w_redir_fail.
  - destruct Hc as [Hl Hr]. rewrite runs_pipe by done. intros [->%runs_died|(p & Hp & H)]; [apply w_pipe_fail|].
    apply runs_fork1 in H as [->|(pid & b1 & b2 & Hpid & -> & H1 & H2)]; [by apply w_fork_fail|].
    cbn [Z.eqb] in H1. apply (runs_end 1 4) in H1; [|done|by left]. cbn in H1. apply IHl in H1; [|done|by apply std_insert].
    destruct (Z.eqb_spec pid 0); [lia|]. apply runs_fork1 in H2 as [->|(pid2 & b3 & b4 & Hpid2 & -> & H3 & H4)]; [by eapply w_pipe_half|].
    cbn [Z.eqb] in H3. apply (runs_end 0 3) in H3; [|done|by right]. cbn in H3. apply IHr in H3; [|done|by apply std_insert].
    destruct (Z.eqb_spec pid2 0); [lia|]. apply runs_pipe_parent in H4 as ->. by eapply w_pipe.
  - destruct Hc as [Hl Hr]. intros [->|(pid & b1 & b2 & Hpid & -> & H1 & H2)]%runs_fork1; [by apply w_fork_fail|].
    destruct (Z.eqb_spec pid 0); [lia|]. apply runs_wait in H2 as (b' & -> & H2). apply w_list; auto.
  - intros [->|(pid & b1 & b2 & Hpid & -> & H1 & H2)]%runs_fork1; [by apply w_fork_fail|].
    destruct (Z.eqb_spec pid 0); [lia|]. apply runs_exit in H2 as ->. apply w_back; auto.
Qed.

(** A fork whose two sides are known. *)
Lemma runs_forks k t b1 b2 : runs (k 0) t b1 -> runs (k 1) t b2 -> runs (fork1 k) t (BFork b1 b2).
Proof. intros H1 H2. apply runs_fork1. right. by exists 1, b1, b2. Qed.

Lemma fresh_pipe_exists t : exists p, fresh_pipe t p.
Proof.
  assert (exists n, forall p, (n <= p)%nat -> fresh_pipe t p) as [n H]; [|exists n; by apply H].
  induction t as [|fd o t _ [n IH]] using map_ind; [by exists O; intros p _ fd; rewrite lookup_empty|].
  exists (n + match o with ReadEnd q | WriteEnd q => S q | _ => O end)%nat. intros p Hp fd'.
  destruct (decide (fd' = fd)) as [->|].
  - rewrite lookup_insert_eq. destruct o; split; intros [=]; lia.
  - rewrite lookup_insert_ne by done. apply IH. lia.
Qed.

Lemma runcmd_complete m c t b : wired m c t b -> redir_fds c -> std t -> runs (runcmd m c) t b.
Proof.
  induction 1 as [t|q e argv t|q e argv t|c file efile mode fd t b H IH|c file efile mode fd t|l r t b1 b2 H1 IH1 H2 IH2
                 |l r t p b1 b2 Hp H1 IH1 H2 IH2|l r t p b1 Hp H1 IH1|l r t|c t b H IH|c t Hc0]; cbn [redir_fds runcmd]; intros Hc Hs.
  - constructor.
  - apply r_exec.
  - apply r_exec_fail. repeat constructor.
  - destruct Hc as [Hfd Hc]. rewrite runs_close, (runs_open _ _ _ _ fd) by (apply lowest_delete; [intros; apply Hs; lia|unfold NOFILE; lia]).
    left. rewrite insert_delete_eq. destruct (Z.ltb_spec fd 0); [lia|]. apply IH; [done|]. apply std_insert; [done|lia].
  - constructor. apply r_open_fail. repeat constructor.
  - destruct Hc. apply runs_forks; [by apply IH1|]. constructor. by apply IH2.
  - destruct Hc. apply runs_pipe; [done|]. right. exists p. split; [done|]. apply runs_forks.
    + apply (runs_end 1 4); [done|by left|]. apply IH1; [done|by apply std_insert].
    + cbn. apply runs_forks; [|by apply runs_pipe_parent]. apply (runs_end 0 3); [done|by right|]. apply IH2; [done|by apply std_insert].
  - destruct Hc. apply runs_pipe; [done|]. right. exists p. split; [done|]. apply runs_forks.
    + apply (runs_end 1 4); [done|by left|]. apply IH1; [done|by apply std_insert].
    + cbn. apply runs_fork1. by left.
  - apply runs_pipe; [done|]. left. by apply runs_died.
  - apply runs_forks; [by apply IH|]. constructor.
  - destruct c; try done; cbn [runcmd]; [|by apply runs_fork1; left..].
    apply runs_pipe; [done|]. right.
    assert (exists p, fresh_pipe t p) as [p Hp] by apply fresh_pipe_exists. exists p. split; [done|]. apply runs_fork1. by left.
Qed.

(** ** A session *)

(** The first line of the input, at most [k] bytes of it, and the rest. *)
Fixpoint getline (k : nat) (input : list Z) : list Z * list Z :=
  match k, input with
  | O, _ | _, [] => ([], input)
  | S k, c :: input => if (c =? 10) || (c =? 13) then ([c], input) else let '(l, rest) := getline k input in (c :: l, rest)
  end.

Lemma getline_length k input : (length (getline k input).1 <= k)%nat /\
  (length (getline k input).1 + length (getline k input).2 = length input)%nat.
Proof.
  revert input. induction k as [|k IH]; intros [|c input]; cbn; try lia. destruct (_ || _); cbn; [lia|].
  specialize (IH input). destruct (getline k input). cbn in *. lia.
Qed.

Lemma gets_loop_getline k : forall m p input, (forall x, p <= x -> m x = 0) ->
  exists m', U.gets_loop k m p input = (m', (getline k input).2) /\
    forall x, m' x = if x <? p then m x else default 0 ((getline k input).1 !! Z.to_nat (x - p)).
Proof.
  assert (Hend : forall (m : mem) p x, (forall x, p <= x -> m x = 0) -> upd m p 0 x = if x <? p then m x else 0).
  { intros m p x H. destruct (Z.eq_dec x p) as [->|]; [rewrite upd_same, Z.ltb_irrefl; done|]. rewrite upd_other by done.
    destruct (Z.ltb_spec x p); [done|]. apply H. lia. }
  induction k as [|k IH]; intros m p [|c input] H; cbn [U.gets_loop getline]; try (eexists; split; [done|]; intros x; by rewrite Hend).
  assert (H' : forall x, p + 1 <= x -> upd m p c x = 0) by (intros; rewrite upd_other by lia; apply H; lia).
  assert (Hx : forall (l : list Z) x, (if x <? p + 1 then upd m p c x else default 0 (l !! Z.to_nat (x - (p + 1)))) =
                         (if x <? p then m x else default 0 ((c :: l) !! Z.to_nat (x - p)))).
  { intros l x. destruct (Z.ltb_spec x (p + 1)), (Z.ltb_spec x p); try lia.
    - by rewrite upd_other by lia.
    - assert (x = p) as -> by lia. by rewrite upd_same, Z.sub_diag.
    - replace (Z.to_nat (x - p)) with (S (Z.to_nat (x - (p + 1)))) by lia. done. }
  destruct (_ || _).
  - eexists. split; [done|]. intros x. by rewrite Hend, <- (Hx []) by done.
  - destruct (IH (upd m p c) (p + 1) input H') as (m' & E & Hm). destruct (getline k input) as [l rest]. cbn in *.
    eexists. split; [done|]. intros x. by rewrite Hm, Hx.
Qed.

(** Everything outside the buffer is 0. *)
Definition outside (m : mem) : Prop := forall x, ~ 0 <= x < NBUF -> m x = 0.

Definition line_max : nat := Z.to_nat (NBUF - 1).

Lemma getcmd_line m input : outside m ->
  getcmd m 0 NBUF input = (str "$ ", (text (getline line_max input).1, (getline line_max input).2, negb (text (getline line_max input).1 0 =? 0))).
Proof.
  intros Ho. unfold getcmd, U.gets, U.memset.
  destruct (gets_loop_getline (Z.to_nat (NBUF - 1)) (KString.memset m 0 0 NBUF) 0 input) as (m' & E & Hm).
  { intros x Hx. rewrite memset_get. case_decide; [done|]. apply Ho. lia. }
  rewrite E. fold line_max in *. assert (m' = text (getline line_max input).1) as ->; [|done].
  extensionality x. rewrite Hm. unfold text. destruct (Z.ltb_spec x 0); [|by rewrite Z.sub_0_r].
  rewrite memset_get. case_decide; [done|]. apply Ho. lia.
Qed.

Definition is_cd (m : mem) : bool := (m 0 =? 99) && (m 1 =? 100) && (m 2 =? 32).

(** What the shell does with its input, its descriptors being [t]. *)
Inductive session (t : gmap Z obj) : list Z -> beh -> Prop :=
| s_eof input l rest : getline line_max input = (l, rest) -> text l 0 = 0 -> session t input (BSay (str "$ ") (BExit 0))
| s_cd input l rest b : getline line_max input = (l, rest) -> is_cd (text l) = true -> session t rest b ->
    session t input (BSay (str "$ ") (BChdir (string_at (chop (text l)) 3) b))
| s_cd_fail input l rest b : getline line_max input = (l, rest) -> is_cd (text l) = true -> session t rest b ->
    session t input (BSay (str "$ ") (BChdir (string_at (chop (text l)) 3) (BSay (says "cannot cd %s" (string_at (chop (text l)) 3)) b)))
| s_command input l rest len c b1 b2 : getline line_max input = (l, rest) -> text l 0 <> 0 -> is_cd (text l) = false ->
    U.strlen (Z.to_nat NBUF) (text l) 0 = Some len -> derives NLine (tokens (text l) len 0) c -> wired (nulterminate c (text l)) c t b1 ->
    session t rest b2 -> session t input (BSay (str "$ ") (BFork b1 (BWait b2)))
| s_error input l rest msg b2 : getline line_max input = (l, rest) -> text l 0 <> 0 -> is_cd (text l) = false ->
    parsecmd (Z.to_nat NBUF) (text l) 0 = PPanic msg -> session t rest b2 ->
    session t input (BSay (str "$ ") (BFork (foldr BSay (BExit 1) msg) (BWait b2)))
| s_fork_fail input l rest : getline line_max input = (l, rest) -> text l 0 <> 0 -> is_cd (text l) = false ->
    session t input (BSay (str "$ ") (died "fork")).

(** A line fits into the buffer with its NUL. *)
Lemma line_strlen input : exists len, U.strlen (Z.to_nat NBUF) (text (getline line_max input).1) 0 = Some len.
Proof.
  destruct (getline_length line_max input) as [H _]. set (l := (getline line_max input).1) in *.
  apply (strlen_ends _ _ _ (Z.of_nat (length l))).
  - unfold text. destruct (Z.ltb_spec (0 + Z.of_nat (length l)) 0); [done|]. by rewrite lookup_ge_None_2 by lia.
  - unfold line_max, NBUF in *. lia.
Qed.

Lemma run_line_spec l t b len : std t -> U.strlen (Z.to_nat NBUF) (text l) 0 = Some len ->
  runs (run_line (text l)) t b <->
  (exists c, derives NLine (tokens (text l) len 0) c /\ wired (nulterminate c (text l)) c t b) \/
  (exists msg, parsecmd (Z.to_nat NBUF) (text l) 0 = PPanic msg /\ b = foldr BSay (BExit 1) msg).
Proof.
  intros Hs Hlen. unfold run_line. pose proof (parsecmd_no_fuel _ _ _ _ Hlen) as Hf. pose proof (parsecmd_ok _ _ _ _ Hlen) as Hok.
  destruct (parsecmd _ _ 0) as [[c m']|msg|] eqn:E; [| |done].
  - destruct (proj1 (Hok c m') eq_refl) as [Hd ->]. cbn in Hd. split.
    + intros H. left. exists c. split; [done|]. apply runcmd_sound; [by eapply derives_redir_fds|done|done].
    + intros [(c' & Hd' & Hw)|(? & [=] & _)]. assert (E' : POk (c, nulterminate c (text l)) = POk (c', nulterminate c' (text l))) by (by apply Hok).
      injection E' as ->. apply runcmd_complete; [done|by eapply derives_redir_fds|done].
  - rewrite runs_says. split; [right; eauto|]. intros [(c' & Hd' & _)|(? & [= ->] & ->)]; [|done].
    assert (E' : PPanic msg = POk (c', nulterminate c' (text l))) by (by apply Hok). done.
Qed.

Lemma chop_outside m : outside m -> outside (chop m).
Proof.
  intros H x Hx. unfold chop. destruct (U.strlen _ _ _) as [len|]; [|by apply H].
  destruct (Z.eq_dec x (len - 1)) as [->|]; [by rewrite upd_same|]. rewrite upd_other by done. by apply H.
Qed.

Lemma text_outside l : (length l <= line_max)%nat -> outside (text l).
Proof.
  intros Hl x Hx. unfold text. destruct (Z.ltb_spec x 0); [done|]. rewrite lookup_ge_None_2; [done|]. unfold line_max, NBUF in *. lia.
Qed.

Lemma runs_chdir dir k t b : runs (Chdir dir k) t b <-> exists r b', b = BChdir dir b' /\ runs (k r) t b'.
Proof. split; [intros H; inv H; eauto|intros (r & b' & -> & H); by apply (r_chdir dir r)]. Qed.

(** The rest is shorter than the input, when there is a line. *)
Lemma rest_shorter input l rest : getline line_max input = (l, rest) -> text l 0 <> 0 -> (length rest < length input)%nat.
Proof.
  intros E H. pose proof (getline_length line_max input) as Hl. rewrite E in Hl. cbn in Hl. destruct l; [done|]. cbn in Hl. lia.
Qed.

Lemma is_cd_nonzero m : is_cd m = true -> m 0 <> 0.
Proof. unfold is_cd. lia. Qed.

(** One turn of the loop. *)
Lemma main_loop_eq n m input l rest : outside m -> getline line_max input = (l, rest) ->
  main_loop (S n) m input = Message 2 (str "$ ")
    (if text l 0 =? 0 then Exit 0 else
     if is_cd (text l) then
       Chdir (string_at (chop (text l)) 3) (fun r =>
         if r <? 0 then Message 2 (says "cannot cd %s" (string_at (chop (text l)) 3)) (main_loop n (chop (text l)) rest)
         else main_loop n (chop (text l)) rest)
     else fork1 (fun pid => if pid =? 0 then run_line (text l) else Wait (main_loop n (text l) rest))).
Proof. intros Ho E. cbn [main_loop]. rewrite getcmd_line by done. rewrite E. cbn [Datatypes.fst Datatypes.snd]. by rewrite negb_involutive. Qed.

Lemma main_loop_sound n : forall m input t b, outside m -> std t -> runs (main_loop n m input) t b -> session t input b.
Proof.
  induction n as [|n IH]; intros m input t b Ho Hs; [intros H; by inv H|].
  destruct (getline line_max input) as [l rest] eqn:E. rewrite (main_loop_eq n m input l rest) by done.
  intros (b' & -> & H)%runs_say. pose proof (line_strlen input) as [len Hlen]. rewrite E in Hlen. cbn in Hlen.
  assert (Hl : outside (text l)) by (apply text_outside; pose proof (getline_length line_max input) as Hg; rewrite E in Hg; apply Hg).
  destruct (Z.eqb_spec (text l 0) 0) as [E0|N0]; [apply runs_exit in H as ->; by eapply s_eof|].
  destruct (is_cd (text l)) eqn:Ecd.
  - apply runs_chdir in H as (r & b'' & -> & H). destruct (r <? 0).
    + apply runs_say in H as (b3 & -> & H). eapply s_cd_fail; [done|done|]. eapply IH; [|done|done]. by apply chop_outside.
    + eapply s_cd; [done|done|]. eapply IH; [|done|done]. by apply chop_outside.
  - apply runs_fork1 in H as [->|(pid & b1 & b2 & Hpid & -> & H1 & H2)]; [by eapply s_fork_fail|].
    destruct (Z.eqb_spec pid 0); [lia|]. apply runs_wait in H2 as (b3 & -> & H2). apply IH in H2; [|done..].
    cbn [Z.eqb] in H1. apply (run_line_spec l t b1 len Hs Hlen) in H1 as [(c & Hd & Hw)|(msg & Hm & ->)]; [by eapply s_command|by eapply s_error].
Qed.

Lemma main_loop_complete t input b : session t input b -> std t -> forall n m, outside m -> (length input < n)%nat -> runs (main_loop n m input) t b.
Proof.
  intros H Hs. assert (Hline : forall input l rest, getline line_max input = (l, rest) -> outside (text l)).
  { intros i l rest E. apply text_outside. pose proof (getline_length line_max i) as Hg. rewrite E in Hg. apply Hg. }
  induction H as [input l rest E E0|input l rest b E Ecd H IH|input l rest b E Ecd H IH|input l rest len c b1 b2 E E0 Ecd Hlen Hd Hw H IH
                 |input l rest msg b2 E E0 Ecd Hm H IH|input l rest E E0 Ecd]; intros [|n] m Ho Hn; try lia;
    rewrite (main_loop_eq n m input l rest) by done; constructor.
  1: { rewrite E0. constructor. }
  1,2: pose proof (rest_shorter input l rest E (is_cd_nonzero _ Ecd)); rewrite (proj2 (Z.eqb_neq _ _) (is_cd_nonzero _ Ecd)), Ecd.
  - apply (r_chdir _ 0). apply IH; [by apply chop_outside, (Hline input l rest)|lia].
  - apply (r_chdir _ (-1)). constructor. apply IH; [by apply chop_outside, (Hline input l rest)|lia].
  - pose proof (rest_shorter input l rest E E0). rewrite (proj2 (Z.eqb_neq _ _) E0), Ecd. apply runs_forks.
    + apply (run_line_spec l t b1 len); auto. left. eauto.
    + constructor. apply IH; [by apply (Hline input l rest)|lia].
  - pose proof (rest_shorter input l rest E E0). rewrite (proj2 (Z.eqb_neq _ _) E0), Ecd.
    destruct (line_strlen input) as [len Hlen]. rewrite E in Hlen. apply runs_forks.
    + apply (run_line_spec l t _ len); auto. right. eauto.
    + constructor. apply IH; [by apply (Hline input l rest)|lia].
  - rewrite (proj2 (Z.eqb_neq _ _) E0), Ecd. apply runs_fork1. by left.
Qed.

(** With the three descriptors open the loop at the start opens and closes a fourth. *)
Lemma runs_open_console n k t b : std t -> (0 < n)%nat -> runs (open_console n k) t b <-> runs k t b.
Proof.
  intros Hs Hn. destruct n as [|n]; [lia|]. cbn [open_console]. rewrite (runs_open _ _ _ _ 3) by (by apply std_lowest). cbn [Z.geb Z.compare Pos.compare Pos.compare_cont].
  rewrite runs_close, delete_insert_id by (apply std_none; [done|lia]). tauto.
Qed.

(** ** The loop that opens the console *)

Definition console : obj := File (str "console") O_RDWR.

(** The console on descriptors 0 to [j - 1]. *)
Fixpoint consoles (j : nat) : gmap Z obj :=
  match j with O => ∅ | S j => <[Z.of_nat j := console]> (consoles j) end.

Lemma consoles_lookup j x : consoles j !! x = if decide (0 <= x < Z.of_nat j) then Some console else None.
Proof.
  induction j as [|j IH]; [rewrite decide_False by lia; apply lookup_empty|]. cbn [consoles]. rewrite lookup_insert, IH.
  repeat case_decide; done || lia.
Qed.

(** Descriptors of [t] below [j] that are not open become the console. *)
Lemma fill_lookup t j x : (t ∪ consoles j) !! x = match t !! x with Some o => Some o | None => if decide (0 <= x < Z.of_nat j) then Some console else None end.
Proof. rewrite lookup_union, consoles_lookup. destruct (t !! x); by case_decide. Qed.

Lemma fill_open t j : (forall i, 0 <= i < Z.of_nat j -> is_Some (t !! i)) -> t ∪ consoles j = t.
Proof.
  intros H. apply map_eq. intros x. rewrite fill_lookup. destruct (t !! x) eqn:E; [done|]. case_decide as Hx; [|done].
  destruct (H x Hx). congruence.
Qed.

Lemma fill_insert t j fd : 0 <= fd < Z.of_nat j -> t !! fd = None -> <[fd := console]> t ∪ consoles j = t ∪ consoles j.
Proof.
  intros Hfd Hn. apply map_eq. intros x. rewrite !fill_lookup, lookup_insert. case_decide as E; [|done]. subst. rewrite Hn. by rewrite decide_True.
Qed.

Lemma fill_first t j : (forall i, 0 <= i < Z.of_nat j -> is_Some (t !! i)) -> t !! Z.of_nat j = None ->
  <[Z.of_nat j := console]> t = t ∪ consoles (S j).
Proof.
  intros H Hn. rewrite <- (fill_insert t (S j) (Z.of_nat j)) by (done || lia). symmetry. apply fill_open. intros i Hi.
  rewrite lookup_insert. case_decide; [eauto|]. apply H. lia.
Qed.

(** No descriptor above the standard ones is open. *)
Definition low (t : gmap Z obj) : Prop := forall fd, is_Some (t !! fd) -> 0 <= fd < 3.

Lemma open_console_fill k d : forall j n t b, (j + d = 3)%nat -> (d < n)%nat -> low t -> (forall i, 0 <= i < Z.of_nat j -> is_Some (t !! i)) ->
  runs (open_console n k) t b <-> exists i, (i <= 3)%nat /\ runs k (t ∪ consoles i) b.
Proof.
  induction d as [|d IH]; intros j n t b Hj Hn Hlow H.
  - assert (Hs : std t) by (intros fd; split; [apply Hlow|intros; apply H; lia]). rewrite runs_open_console by (done || lia).
    split; [intros; exists O; split; [lia|]|intros (i & Hi & Hr)]; [rewrite fill_open; [done|lia]|].
    rewrite fill_open in Hr; [done|]. intros x Hx. apply H. lia.
  - destruct (t !! Z.of_nat j) as [o|] eqn:E.
    { apply (IH (S j)); [lia|lia|done|]. intros i Hi. destruct (decide (i = Z.of_nat j)) as [->|]; [eauto|]. apply H. lia. }
    assert (Hl : lowest t (Z.of_nat j)) by (split; [unfold NOFILE; lia|]; by split).
    destruct n as [|n]; [lia|]. cbn [open_console]. rewrite (runs_open _ _ _ _ _ _ Hl).
    rewrite (proj2 (Z.geb_le _ _)) by lia. assert (G3 : (Z.of_nat j >=? 3) = false) by lia. rewrite G3. cbn [Z.geb Z.compare].
    rewrite (IH (S j)).
    + split.
      * intros [(i & Hi & Hr)|Hr]; [|exists O; split; [lia|]; by rewrite fill_open by lia]. destruct (decide (i <= j)%nat).
        -- exists (S j). split; [lia|]. rewrite <- fill_first by done. rewrite fill_open in Hr; [done|]. intros x Hx. rewrite lookup_insert_ne by lia. apply H. lia.
        -- exists i. split; [done|]. by rewrite fill_insert in Hr by (done || lia).
      * intros (i & Hi & Hr). destruct (decide (i <= j)%nat); [right|left].
        -- rewrite fill_open in Hr; [done|]. intros x Hx. apply H. lia.
        -- exists i. split; [done|]. by rewrite fill_insert by (done || lia).
    + lia.
    + lia.
    + intros fd. rewrite lookup_insert. case_decide; [lia|apply Hlow].
    + intros i Hi. rewrite lookup_insert. case_decide; [eauto|]. apply H. lia.
Qed.

Lemma std_fill t j : low t -> std (t ∪ consoles j) -> (j <= 3)%nat -> t ∪ consoles j = t ∪ consoles 3.
Proof.
  intros Hl Hs Hj. apply map_eq. intros x. destruct (Hs x) as [H1 H2]. revert H1 H2. rewrite !fill_lookup. destruct (t !! x) eqn:E; [done|].
  intros H1 H2. repeat case_decide; try done; [lia|]. destruct H2; [lia|done].
Qed.

Lemma fill_low t j : low t -> (j <= 3)%nat -> low (t ∪ consoles j).
Proof.
  intros Hl Hj x. rewrite fill_lookup. specialize (Hl x). destruct (t !! x); [intros _; apply Hl; eauto|]. case_decide; [lia|]. by intros [? ?].
Qed.

Lemma low_std t : low t -> std t \/ ~ std t.
Proof.
  intros Hl. destruct (decide (is_Some (t !! 0) /\ is_Some (t !! 1) /\ is_Some (t !! 2))) as [(H0 & H1 & H2)|H].
  - left. intros fd. split; [apply Hl|]. intros Hfd. assert (fd = 0 \/ fd = 1 \/ fd = 2) as [->|[->| ->]] by lia; done.
  - right. intros Hs. apply H. split_and!; apply Hs; lia.
Qed.

Lemma fill_std t : low t -> std (t ∪ consoles 3).
Proof.
  intros Hl x. rewrite fill_lookup. specialize (Hl x). destruct (t !! x); [split; [intros; apply Hl; eauto|eauto]|].
  case_decide; split; intros H0; eauto; try lia.
Qed.

(** Programs a process and those it forks become. *)
Fixpoint execs (b : beh) : list (list (list Z) * gmap Z obj) :=
  match b with
  | BExit _ => []
  | BExec argv t => [(argv, t)]
  | BSay _ b | BWait b | BChdir _ b => execs b
  | BFork b1 b2 => execs b1 ++ execs b2
  end.

Lemma wired_std m c t b : wired m c t b -> redir_fds c -> std t -> Forall (fun p => std p.2) (execs b).
Proof.
  induction 1; cbn [redir_fds execs died]; intros; try constructor; auto; rewrite ?app_nil_r, ?Forall_app; intuition auto.
  all: try match goal with IH : std _ -> Forall _ (execs ?b) |- Forall _ (execs ?b) => apply IH, std_insert; [done|lia] end.
Qed.

(** C29: [runcmd] does what the command means: run with the three standard
    descriptors, the processes it forks and becomes are those of [wired], in
    which a redirection replaces one descriptor, the two sides of a pipe get its
    write end as output and its read end as input, and a list waits; every
    program started has exactly the three standard descriptors, so no process
    keeps an end of a pipe it does not use. *)
Theorem runcmd_wired m c t b : redir_fds c -> std t ->
  (runs (runcmd m c) t b <-> wired m c t b) /\ (runs (runcmd m c) t b -> Forall (fun p => std p.2) (execs b)).
Proof.
  intros Hc Hs. split; [split; [by apply runcmd_sound|intros; by apply runcmd_complete]|].
  intros H. eapply wired_std; [by eapply runcmd_sound|done|done].
Qed.

(** The table of a login shell. *)
Definition console_fds : gmap Z obj := <[0 := File (str "console") O_RDWR]> (<[1 := File (str "console") O_RDWR]> (<[2 := File (str "console") O_RDWR]> ∅)).

Lemma console_fds_std : std console_fds.
Proof.
  intros fd. unfold console_fds. rewrite !lookup_insert, lookup_empty. repeat case_decide; subst; split; intros; eauto; try lia.
  by destruct H2.
Qed.

Lemma runcmd_wired_witness :
  runs (runcmd (text sample_line) (Pipe (Exec [(0, 2)]) (Redir (Exec [(5, 7)]) 3 4 513 1))) console_fds
    (BFork (BExec [string_at (text sample_line) 0] (<[1 := WriteEnd 0]> console_fds))
           (BFork (BExec [string_at (text sample_line) 5] (<[1 := File (string_at (text sample_line) 3) 513]> (<[0 := ReadEnd 0]> console_fds)))
                  (BWait (BWait (BExit 0))))).
Proof.
  apply (runcmd_wired (text sample_line) (Pipe (Exec [(0, 2)]) (Redir (Exec [(5, 7)]) 3 4 513 1)) console_fds); [cbn; auto|apply console_fds_std|].
  apply (w_pipe _ _ _ _ O).
  - intros fd. unfold console_fds. rewrite !lookup_insert, lookup_empty. repeat case_decide; by split.
  - apply w_exec.
  - apply w_redir, w_exec.
Defined.

(** C30: A session of the shell, from [main] on: it prompts, reads a line, changes
    the directory itself, or forks a process that does what the tree derived from
    the line means or prints the messages of the parser, waits for it and goes on, until the
    end of the input; nothing else happens, and all of it can.  This holds for a
    shell that starts with the three standard descriptors, and for one that starts
    with some of them closed: it first opens the console on each of these.  Only when
    such an [open] fails does its loop run with a descriptor missing, having opened the
    console on those below it. *)
Theorem shell_session input t b :
  (std t -> runs (main input) t b <-> session t input b) /\
  (low t -> runs (main input) t b <-> session (t ∪ consoles 3) input b \/
     exists j, (j < 3)%nat /\ ~ std (t ∪ consoles j) /\ runs (main_loop (S (length input)) (fun _ => 0) input) (t ∪ consoles j) b).
Proof.
  assert (Hloop : forall t, std t -> runs (main_loop (S (length input)) (fun _ => 0) input) t b <-> session t input b).
  { intros t' Hs. split; [by apply main_loop_sound|]. intros H. apply main_loop_complete; [done|done|done|lia]. }
  split; intros Ht; unfold main.
  - rewrite runs_open_console by (done || lia). by apply Hloop.
  - rewrite (open_console_fill _ 3 0) by (done || lia). split.
    + intros (j & Hj & H). destruct (low_std (t ∪ consoles j)) as [Hs|Hs]; [by apply fill_low| |].
      * left. rewrite std_fill in H by done. by apply Hloop; [apply fill_std|].
      * right. exists j. split; [|done]. destruct (decide (j = 3)%nat) as [->|]; [|lia]. by destruct Hs; apply fill_std.
    + intros [H|(j & Hj & _ & H)]; [exists 3%nat|exists j]; (split; [lia|]); [|done]. by apply Hloop; [apply fill_std|].
Qed.

(** The line [a)]: the parser stops at the bracket. *)
Lemma shell_session_witness : runs (main [97; 41; 10]) console_fds
  (BSay (str "$ ") (BFork (BSay (says "leftovers: %s" [41; 10]) (BSay (says "%s" (str "syntax")) (BExit 1))) (BWait (BSay (str "$ ") (BExit 0))))).
Proof.
  apply (proj1 (shell_session [97; 41; 10] console_fds _) console_fds_std).
  apply (s_error _ _ [97; 41; 10] [] [says "leftovers: %s" [41; 10]; says "%s" (str "syntax")]); try (vm_compute; reflexivity).
  - vm_compute. congruence.
  - by apply (s_eof _ _ [] []).
Defined.
