(* ===== verification/Grep.v ===== *)
(** * [user/grep.c]

    Strings are lists of bytes without their NUL.  [matchhere] calls itself with a
    shorter expression, [matchstar] goes along the text, so both are total.
    [grep] keeps the bytes [buf[0..m)] that it has not yet printed or dropped; how
    many bytes each [read] returns is decided by [sizes].

    [matches] gives the meaning of an expression: [match] decides it
    ([match_decides]), and [grep] prints the lines it holds for, however the input is
    cut into reads ([grep_lines]). *)
From stdpp Require Import base list gmap strings.
From Stdlib Require Import ZArith Lia.
From S2P Require Import Prelude KString.

#[local] Open Scope Z_scope.
#[local] Open Scope xv6_scope.

(** ** The matcher *)

(** [*text], the NUL at the end included. *)
Definition hd0 (s : list Z) : Z := match s with [] => 0 | c :: _ => c end.

Section Star.
Context (matchhere : list Z -> bool).

(** [matchhere] is at the rest of the expression. *)
Fixpoint matchstar (c : Z) (text : list Z) : bool :=
  if matchhere text then true else
  match text with
  | [] => false
  | x :: text => if (x =? c) || (c =? 46) then matchstar c text else false
  end.
End Star.

Fixpoint matchhere (re text : list Z) {struct re} : bool :=
  match re with
  | [] => true
  | c :: re1 =>
      let step :=
        if (c =? 36) && (hd0 re1 =? 0) then hd0 text =? 0 else
        match text with
        | x :: text => if (c =? 46) || (c =? x) then matchhere re1 text else false
        | [] => false
        end in
      match re1 with
      | d :: re2 => if d =? 42 then matchstar (matchhere re2) c text else step
      | [] => step
      end
  end.

(** The loop of [match]. *)
Fixpoint match_from (re text : list Z) : bool :=
  if matchhere re text then true else
  match text with
  | [] => false
  | _ :: text => match_from re text
  end.

Definition match_re (re text : list Z) : bool :=
  if hd0 re =? 94 then matchhere (tail re) text else match_from re text.

(** ** Lines *)

Definition BUFSIZE : nat := 1024.

(** [strchr(p, '\n')]: the bytes before the newline and those behind it. *)
Fixpoint cut_line (p : list Z) : option (list Z * list Z) :=
  match p with
  | [] => None
  | c :: p =>
      if c =? 0 then None else
      if c =? 10 then Some ([], p) else
      match cut_line p with None => None | Some (l, q) => Some (c :: l, q) end
  end.

(** The inner loop: what is written, and the bytes left from [p] on. *)
Fixpoint grep_buf (n : nat) (pattern p : list Z) : list Z * list Z :=
  match n with
  | O => ([], p)
  | S n =>
      match cut_line p with
      | None => ([], p)
      | Some (line, q) =>
          let '(out, rest) := grep_buf n pattern q in
          ((if match_re pattern line then line ++ [10] else []) ++ out, rest)
      end
  end.

(** [read]: at least one byte and at most [count], 0 bytes at the end. *)
Definition read_bytes (size count : nat) (input : list Z) : list Z * list Z :=
  (take (S size `min` count) input, drop (S size `min` count) input).

Fixpoint grep_loop (n : nat) (pattern : list Z) (sizes : nat -> nat) (buf input : list Z) : list Z :=
  match n with
  | O => []
  | S n =>
      match read_bytes (sizes n) (BUFSIZE - length buf - 1) input with
      | ([], _) => []
      | (got, input) =>
          let '(out, rest) := grep_buf (length (buf ++ got)) pattern (buf ++ got) in
          out ++ grep_loop n pattern sizes rest input
      end
  end.

Definition grep (pattern : list Z) (sizes : nat -> nat) (input : list Z) : list Z :=
  grep_loop (S (length input)) pattern sizes [] input.

(** ** What an expression means *)

Inductive item : Type :=
| Chr (c : Z)
| Star (c : Z)
| Eol.

Fixpoint items (re : list Z) : list item :=
  match re with
  | [] => []
  | c :: re1 =>
      match re1 with
      | [] => if c =? 36 then [Eol] else [Chr c]
      | d :: re2 => if d =? 42 then Star c :: items re2 else Chr c :: items re1
      end
  end.

(** One character of the text against one of the expression. *)
Definition fits (c x : Z) : Prop := c = 46 \/ x = c.

(** [w] is matched by the items when [post] comes behind it. *)
Inductive lang (post : list Z) : list item -> list Z -> Prop :=
| l_nil : lang post [] []
| l_chr c x its w : fits c x -> lang post its w -> lang post (Chr c :: its) (x :: w)
| l_star c its u w : Forall (fits c) u -> lang post its w -> lang post (Star c :: its) (u ++ w)
| l_eol : post = [] -> lang post [Eol] [].

Definition matches (re text : list Z) : Prop :=
  if hd0 re =? 94 then exists w post, text = w ++ post /\ lang post (items (tail re)) w
  else exists pre w post, text = pre ++ w ++ post /\ lang post (items re) w.

(** No NUL inside. *)
Definition cstring (s : list Z) : Prop := 0 ∉ s.

#[global] Instance cstring_dec s : Decision (cstring s) := decide (0 ∉ s).

Lemma cstring_cons c s : cstring (c :: s) -> c <> 0 /\ cstring s.
Proof. unfold cstring. rewrite not_elem_of_cons. intros [? ?]. by split; [congruence|]. Qed.

Lemma cstring_app s t : cstring (s ++ t) <-> cstring s /\ cstring t.
Proof. unfold cstring. rewrite elem_of_app. tauto. Qed.

Lemma hd0_nil s : cstring s -> (hd0 s =? 0) = true <-> s = [].
Proof. destruct s as [|c s]; [done|]. intros [H _]%cstring_cons. cbn. split; [lia|done]. Qed.

(** ** The matcher decides it *)

Lemma fits_bool c x : ((x =? c) || (c =? 46)) = true <-> fits c x.
Proof. unfold fits. rewrite orb_true_iff, !Z.eqb_eq. tauto. Qed.

Lemma matchstar_spec mh c text : matchstar mh c text = true <-> exists u v, text = u ++ v /\ Forall (fits c) u /\ mh v = true.
Proof.
  induction text as [|x text IH]; cbn [matchstar]; destruct (mh _) eqn:E.
  - split; [by exists [], []|done].
  - split; [done|]. intros (u & v & Hu & _ & Hm). symmetry in Hu. apply app_nil in Hu as [-> ->]. congruence.
  - split; [by exists [], (x :: text)|done].
  - destruct ((x =? c) || (c =? 46)) eqn:Ef.
    + rewrite IH. apply fits_bool in Ef. split.
      * intros (u & v & -> & Hu & Hm). exists (x :: u), v. split; [done|]. by split; [constructor|].
      * intros ([|y u] & v & Hu & Hf & Hm); [cbn in Hu; subst; congruence|]. injection Hu as <- ->. apply Forall_cons in Hf as [_ Hf]. eauto.
    + split; [done|]. intros ([|y u] & v & Hu & Hf & Hm); [cbn in Hu; subst; congruence|]. injection Hu as <- ->.
      apply Forall_cons in Hf as [Hf _]. apply fits_bool in Hf. congruence.
Qed.

Definition here (its : list item) (text : list Z) : Prop := exists w post, text = w ++ post /\ lang post its w.

Lemma here_star c its text : here (Star c :: its) text <-> exists u v, text = u ++ v /\ Forall (fits c) u /\ here its v.
Proof.
  split.
  - intros (w & post & -> & H). inv H. eexists _, _. rewrite <- app_assoc. split; [done|]. split; [done|]. by eexists _, _.
  - intros (u & v & -> & Hu & w & post & -> & H). exists (u ++ w), post. rewrite <- app_assoc. split; [done|]. by constructor.
Qed.

Lemma here_chr c its text : here (Chr c :: its) text <-> exists x v, text = x :: v /\ fits c x /\ here its v.
Proof.
  split.
  - intros (w & post & -> & H). inv H. eexists _, _. split; [done|]. split; [done|]. by eexists _, _.
  - intros (x & v & -> & Hx & w & post & -> & H). exists (x :: w), post. split; [done|]. by constructor.
Qed.

Lemma here_eol text : here [Eol] text <-> text = [].
Proof. split; [intros (w & post & -> & H); inv H; done|]. intros ->. exists [], []. split; [done|]. by constructor. Qed.

Lemma here_nil text : here [] text.
Proof. exists [], text. split; [done|constructor]. Qed.

(** One character of the expression. *)
Lemma here_step c its text f : (forall text, cstring text -> f text = true <-> here its text) -> cstring text ->
  match text with x :: text => if (c =? 46) || (c =? x) then f text else false | [] => false end = true <-> here (Chr c :: its) text.
Proof.
  intros Hf Ht. rewrite here_chr. destruct text as [|x text]; [split; [done|by intros (? & ? & ? & _)]|].
  apply cstring_cons in Ht as [_ Ht]. destruct ((c =? 46) || (c =? x)) eqn:E.
  - rewrite Hf by done. split; [|by intros (? & ? & [= <- <-] & _ & ?)]. intros H. exists x, text. split; [done|]. split; [|done]. unfold fits. lia.
  - split; [done|]. intros (? & ? & [= <- <-] & Hx & _). unfold fits in Hx. lia.
Qed.

Lemma matchhere_spec re : forall text, cstring re -> cstring text -> matchhere re text = true <-> here (items re) text.
Proof.
  induction re as [re IH] using (induction_ltof1 _ (@length Z)). unfold ltof in IH. intros text Hre Ht.
  destruct re as [|c [|d re]]; cbn [items matchhere].
  - split; [intros _; apply here_nil|done].
  - rewrite Z.eqb_refl, andb_true_r. destruct (Z.eqb_spec c 36) as [->|N].
    + rewrite here_eol. by apply hd0_nil.
    + apply (here_step c [] text (matchhere [])); [|done]. intros. split; [intros _; apply here_nil|done].
  - apply cstring_cons in Hre as [Hc Hre]. destruct (Z.eq_dec d 42) as [->|N].
    + rewrite Z.eqb_refl, matchstar_spec, here_star. apply cstring_cons in Hre as [_ Hre].
      split; intros (u & v & -> & Hu & Hm); exists u, v; (split; [done|split; [done|]]); apply cstring_app in Ht as [_ Ht]; apply (IH re); cbn; auto; lia.
    + assert (En : (hd0 (d :: re) =? 0) = false) by (apply cstring_cons in Hre as [? _]; cbn; lia).
      apply Z.eqb_neq in N as ->. rewrite En, andb_false_r.
      apply (here_step c (items (d :: re)) text (matchhere (d :: re))); [|done]. intros. apply IH; [cbn; lia|done|done].
Qed.

Lemma match_from_spec re text : match_from re text = true <-> exists pre v, text = pre ++ v /\ matchhere re v = true.
Proof.
  induction text as [|x text IH]; cbn [match_from]; destruct (matchhere re _) eqn:E.
  - split; [by exists [], []|done].
  - split; [done|]. intros (u & v & Hu & Hm). symmetry in Hu. apply app_nil in Hu as [-> ->]. congruence.
  - split; [by exists [], (x :: text)|done].
  - rewrite IH. split.
    + intros (u & v & -> & Hm). by exists (x :: u), v.
    + intros ([|y u] & v & Hu & Hm); [cbn in Hu; subst; congruence|]. injection Hu as <- ->. eauto.
Qed.

Lemma match_re_spec re text : cstring re -> cstring text -> match_re re text = true <-> matches re text.
Proof.
  intros Hre Ht. unfold match_re, matches. destruct (hd0 re =? 94).
  - apply matchhere_spec; [|done]. destruct re; [done|]. by apply cstring_cons in Hre as [_ ?].
  - rewrite match_from_spec. split.
    + intros (pre & v & -> & H). apply cstring_app in Ht as [_ Ht]. apply matchhere_spec in H as (w & post & -> & H); [|done..]. by exists pre, w, post.
    + intros (pre & w & post & -> & H). exists pre, (w ++ post). split; [done|]. apply cstring_app in Ht as [_ Ht]. apply matchhere_spec; [done..|]. by exists w, post.
Qed.

(** ** The lines *)

(** The complete lines, without their newlines, and the bytes behind the last newline. *)
Fixpoint lines (s : list Z) : list (list Z) * list Z :=
  match s with
  | [] => ([], [])
  | c :: s =>
      let '(ls, t) := lines s in
      if c =? 10 then ([] :: ls, t) else
      match ls with [] => ([], c :: t) | l :: ls => ((c :: l) :: ls, t) end
  end.

Lemma lines_app s s' : lines (s ++ s') = ((lines s).1 ++ (lines ((lines s).2 ++ s')).1, (lines ((lines s).2 ++ s')).2).
Proof.
  induction s as [|c s IH]; cbn [app lines]; [cbn; by destruct (lines s')|]. rewrite IH.
  destruct (lines s) as [ls t]. cbn [Datatypes.fst Datatypes.snd]. destruct (c =? 10) eqn:E; [done|].
  destruct ls as [|l ls]; [|done]. cbn [Datatypes.fst Datatypes.snd app lines]. rewrite E. destruct (lines (t ++ s')) as [[|l' ls'] t']; done.
Qed.

Lemma cut_line_spec p : cstring p ->
  match cut_line p with
  | None => lines p = ([], p)
  | Some (l, q) => lines p = (l :: (lines q).1, (lines q).2) /\ p = l ++ 10 :: q
  end.
Proof.
  induction p as [|c p IH]; [done|]. intros [Hc Hp]%cstring_cons. cbn [cut_line lines]. apply Z.eqb_neq in Hc as ->.
  destruct (Z.eqb_spec c 10) as [->|N]; [destruct (lines p); done|]. specialize (IH Hp). destruct (cut_line p) as [[l q]|].
  - destruct IH as [-> ->]. done.
  - by rewrite IH.
Qed.

(** What is printed for some lines. *)
Definition printed (pattern : list Z) (ls : list (list Z)) : list Z :=
  concat (map (fun l => if match_re pattern l then l ++ [10] else []) ls).

Lemma grep_buf_spec n pattern : forall p, cstring p -> (length p <= n)%nat -> grep_buf n pattern p = (printed pattern (lines p).1, (lines p).2).
Proof.
  induction n as [|n IH]; intros p Hp Hn; cbn [grep_buf]; [by destruct p; [|cbn in Hn; lia]|].
  pose proof (cut_line_spec p Hp) as H. destruct (cut_line p) as [[l q]|]; [|by rewrite H].
  destruct H as [-> ->]. apply cstring_app in Hp as [_ Hq]. apply cstring_cons in Hq as [_ Hq]. rewrite length_app in Hn. cbn in Hn.
  by rewrite IH by (done || lia).
Qed.

Lemma lines_tail s : lines (lines s).2 = ([], (lines s).2).
Proof.
  induction s as [|c s IH]; [done|]. cbn [lines]. destruct (lines s) as [ls t]. cbn in IH. destruct (c =? 10) eqn:E; [done|].
  destruct ls; [|done]. cbn [Datatypes.snd lines]. by rewrite IH, E.
Qed.

Lemma cstring_tail s : cstring s -> cstring (lines s).2.
Proof.
  induction s as [|c s IH]; [done|]. intros [Hc Hs]%cstring_cons. cbn [lines]. specialize (IH Hs). destruct (lines s) as [ls t].
  destruct (c =? 10); [done|]. destruct ls; [|done]. cbn in *. unfold cstring in *. set_solver.
Qed.

(** A beginning without a newline is part of the first line. *)
Lemma lines_prefix b s l ls : lines b = ([], b) -> (lines (b ++ s)).1 = l :: ls -> (length b <= length l)%nat.
Proof.
  revert l ls. induction b as [|c b IH]; intros l ls Hb H; [cbn; lia|]. cbn [app lines] in *.
  destruct (lines b) as [lb tb] eqn:Eb. destruct (c =? 10); [done|]. destruct lb; [|done]. injection Hb as ->.
  destruct (lines (b ++ s)) as [[|l' ls'] t]; [done|]. cbn in H. injection H as <- _. cbn. specialize (IH l' ls' eq_refl eq_refl). lia.
Qed.

Lemma grep_loop_spec n pattern sizes : forall buf input, (length input < n)%nat -> cstring (buf ++ input) -> lines buf = ([], buf) ->
  Forall (fun l => length l < BUFSIZE - 1)%nat (lines (buf ++ input)).1 ->
  grep_loop n pattern sizes buf input = printed pattern (lines (buf ++ input)).1.
Proof.
  induction n as [|n IH]; intros buf input Hn Hc Hb Hl; [lia|]. cbn [grep_loop]. unfold read_bytes.
  set (k := (S (sizes n) `min` (BUFSIZE - length buf - 1))%nat). destruct (take k input) as [|c got] eqn:Et.
  - destruct (lines (buf ++ input)).1 as [|l ls] eqn:El; [done|]. exfalso. apply take_nil_inv in Et as [Ek| ->].
    + apply Forall_cons in Hl as [Hl _]. pose proof (lines_prefix _ _ _ _ Hb El). unfold k, BUFSIZE in *. lia.
    + rewrite app_nil_r, Hb in El. done.
  - assert (Ei : input = (c :: got) ++ drop k input) by (rewrite <- Et; symmetry; apply take_drop).
    assert (Hlen : (length (drop k input) < length input)%nat) by (rewrite Ei at 2; rewrite length_app; cbn; lia).
    set (rest := drop k input) in *. rewrite Ei in Hc, Hl |- *. rewrite app_assoc in Hc, Hl |- *.
    apply cstring_app in Hc as [Hc1 Hc2]. rewrite grep_buf_spec by (done || lia).
    rewrite (lines_app (buf ++ c :: got) rest) in Hl |- *. cbn [Datatypes.fst Datatypes.snd] in Hl |- *. apply Forall_app in Hl as [_ Hl].
    rewrite IH; [|lia|apply cstring_app; split; [by apply cstring_tail|done]|apply lines_tail|done].
    unfold printed. by rewrite map_app, concat_app.
Qed.

(** C35: The matcher decides the meaning of the expression: for strings without
    NUL [match] returns true exactly when a part of the text, at its beginning
    after [^], is in the language of the expression, with nothing behind it for [$]. *)
Theorem match_decides re text : cstring re -> cstring text -> match_re re text = true <-> matches re text.
Proof. apply match_re_spec. Qed.

(** [^a.*b$] against [axxb]. *)
Lemma match_decides_witness : matches [94; 97; 46; 42; 98; 36] [97; 120; 120; 98].
Proof. apply (match_decides [94; 97; 46; 42; 98; 36] [97; 120; 120; 98]); [by apply (bool_decide_unpack _)..|]. reflexivity. Defined.

(** [grep] prints the complete lines that match, in order and with their
    newlines, however [read] cuts the input, when no line fills the buffer. *)
Theorem grep_lines pattern sizes input : cstring input ->
  Forall (fun l => length l < BUFSIZE - 1)%nat (lines input).1 ->
  grep pattern sizes input = concat (map (fun l => if match_re pattern l then l ++ [10] else []) (lines input).1).
Proof. intros Hc Hl. apply grep_loop_spec; [lia|done..]. Qed.

Lemma grep_lines_witness : grep [98] (fun _ => O) [97; 98; 10; 99; 10; 98; 10; 98] = [97; 98; 10; 98; 10].
Proof.
  refine (grep_lines [98] (fun _ => O) [97; 98; 10; 99; 10; 98; 10; 98] _ _); [by apply (bool_decide_unpack _)|].
  apply (bool_decide_unpack _). vm_compute. exact I.
Defined.
