(* ===== verification/Umalloc.v ===== *)
(** * [user/umalloc.c]: the allocator of the user programs

    The header of a block is its entry in [ptr] and [size], by the address of the
    header; a header has 16 bytes and a block of [n] units 16 n.  [brk] is the size
    of the process, moved by [sbrk]; whether the kernel can give memory is decided by
    [can_grow].  Loops take fuel, the number of free blocks they may look at;
    [None] is a loop that needs more. *)
From stdpp Require Import base list gmap strings.
From Stdlib Require Import ZArith Lia.
From S2P Require Import Prelude KString.

#[local] Open Scope Z_scope.
#[local] Open Scope xv6_scope.

Record um : Type := mkUm {
  ptr : Z -> Z;
  size : Z -> Z;
  freep : Z;
  brk : Z
}.
#[export] Instance um_eta : Eta um := fun r => mkUm (ptr r) (size r) (freep r) (brk r).

Definition sizeof_Header : Z := 16.

(** [&base] and the kernel's answer to [sbrk]. *)
Section Umalloc.
Context (base : Z) (can_grow : Z -> Z -> bool).

Definition set_ptr (p v : Z) (s : um) : um := s <| ptr := upd (ptr s) p v |>.
Definition set_size (p v : Z) (s : um) : um := s <| size := upd (size s) p v |>.

(** [bp] belongs between [p] and the block behind it: the loop of [free] stops. *)
Definition gap_at (s : um) (bp p : Z) : bool :=
  (bp >? p) && (bp <? ptr s p) || (p >=? ptr s p) && ((bp >? p) || (bp <? ptr s p)).

Fixpoint find_gap (fuel : nat) (s : um) (bp p : Z) : option Z :=
  match fuel with
  | O => None
  | S fuel => if gap_at s bp p then Some p else find_gap fuel s bp (ptr s p)
  end.

(** Join to the block above. *)
Definition join_upper (bp p : Z) (s : um) : um :=
  if bp + size s bp * sizeof_Header =? ptr s p then
    let s := set_size bp (u32 (size s bp + size s (ptr s p))) s in
    set_ptr bp (ptr s (ptr s p)) s
  else set_ptr bp (ptr s p) s.

(** Join to the block below. *)
Definition join_lower (bp p : Z) (s : um) : um :=
  if p + size s p * sizeof_Header =? bp then
    let s := set_size p (u32 (size s p + size s bp)) s in
    set_ptr p (ptr s bp) s
  else set_ptr p bp s.

Definition free (fuel : nat) (ap : Z) (s : um) : option um :=
  let bp := ap - sizeof_Header in
  match find_gap fuel s bp (freep s) with
  | None => None
  | Some p => Some ((join_lower bp p (join_upper bp p s)) <| freep := p |>)
  end.

(** The system call ([sys_sbrk] and [growproc]): the old size, or -1 when there is no
    memory. Its argument is an [int]; a negative one asks for a smaller size, which
    is computed as an unsigned number, and a larger result changes nothing. *)
Definition sbrk (n : Z) (s : um) : Z * um :=
  let n := s32 n in
  if n <? 0 then (brk s, s <| brk := Z.min (brk s) (u32 (brk s + n)) |>)
  else if can_grow (brk s) n then (brk s, s <| brk := brk s + n |>) else (-1, s).

Definition morecore (fuel : nat) (nu : Z) (s : um) : option (Z * um) :=
  let nu := if nu <? 4096 then 4096 else nu in
  let '(p, s) := sbrk (nu * sizeof_Header) s in
  if p =? -1 then Some (0, s) else
  let s := set_size p nu s in
  match free fuel (p + sizeof_Header) s with
  | None => None
  | Some s => Some (freep s, s)
  end.

(** Block [p] behind [prevp] is large enough: its tail, or all of it. *)
Definition take_block (nunits prevp p : Z) (s : um) : Z * um :=
  let '(p, s) :=
    if size s p =? nunits then (p, set_ptr prevp (ptr s p) s)
    else let s := set_size p (u32 (size s p - nunits)) s in
         let p := p + size s p * sizeof_Header in
         (p, set_size p nunits s) in
  (p + sizeof_Header, s <| freep := prevp |>).

Fixpoint malloc_loop (fuel : nat) (nunits prevp p : Z) (s : um) : option (Z * um) :=
  match fuel with
  | O => None
  | S fuel =>
      if size s p >=? nunits then Some (take_block nunits prevp p s) else
      if p =? freep s then
        match morecore fuel nunits s with
        | None => None
        | Some (p, s) => if p =? 0 then Some (0, s) else malloc_loop fuel nunits p (ptr s p) s
        end
      else malloc_loop fuel nunits p (ptr s p) s
  end.

Definition nunits_of (nbytes : Z) : Z := u32 ((nbytes + sizeof_Header - 1) / sizeof_Header + 1).

(** The empty list: [base] points to itself. *)
Definition init_base (s : um) : um :=
  if freep s =? 0 then set_size base 0 (set_ptr base base (s <| freep := base |>)) else s.

Definition malloc (fuel : nat) (nbytes : Z) (s : um) : option (Z * um) :=
  let s := init_base s in
  malloc_loop fuel (nunits_of nbytes) (freep s) (ptr s (freep s)) s.

End Umalloc.
