(* ===== verification/UmallocProps.v ===== *)
(** * [user/umalloc.c]: blocks are disjoint and none is lost

    The free list is a ring through [base] in the order of addresses ([ring]).
    With the blocks in use it divides the memory got from [sbrk] ([heap_inv]):
    [malloc] and [free] keep this, so the blocks in use never overlap and all memory
    is in a free block or in use.  A program calls [malloc] and gives back, with [free], blocks it
    got and still holds; [reach] are the states it can bring the allocator to. *)
From stdpp Require Import base list gmap strings sorting.
From Stdlib Require Import ZArith Lia.
From S2P Require Import Prelude KString Umalloc.

#[local] Open Scope Z_scope.
#[local] Open Scope xv6_scope.

(** ** Blocks *)

(** A block is the address of its header and its units. *)
Definition bend (b : Z * Z) : Z := b.1 + b.2 * sizeof_Header.
Definition apart (b c : Z * Z) : Prop := bend b <= c.1 \/ bend c <= b.1.

(** All blocks are in [lo, hi) and apart. *)
Definition inside (lo hi : Z) (b : Z * Z) : Prop := lo <= b.1 /\ 0 < b.2 /\ bend b <= hi.

Fixpoint all_apart (l : list (Z * Z)) : Prop :=
  match l with
  | [] => True
  | b :: l => Forall (apart b) l /\ all_apart l
  end.

Definition units (l : list (Z * Z)) : Z := foldr (fun b n => b.2 + n) 0 l.

Record tiles (lo hi : Z) (l : list (Z * Z)) : Prop := mkTiles {
  t_in : Forall (inside lo hi) l;
  t_apart : all_apart l;
  t_all : units l * sizeof_Header = hi - lo
}.

#[global] Instance units_perm : Proper ((≡ₚ) ==> eq) units.
Proof. intros l l' H. unfold units. induction H; cbn in *; lia. Qed.

#[global] Instance all_apart_perm : Proper ((≡ₚ) ==> iff) all_apart.
Proof.
  intros l l' H. induction H as [|b l l' H IH|b c l|l l' l'' _ IH1 _ IH2]; cbn; [done|by rewrite IH, H| |by rewrite IH1].
  rewrite !Forall_cons. unfold apart. tauto.
Qed.

#[global] Instance tiles_perm lo hi : Proper ((≡ₚ) ==> iff) (tiles lo hi).
Proof. intros l l' H. split; intros [T1 T2 T3]; split; by rewrite ?H || rewrite <- ?H. Qed.

(** Two adjacent blocks are one. *)
Lemma tiles_join lo hi a n b k l : tiles lo hi ((a, n) :: (b, k) :: l) -> a + n * sizeof_Header = b -> tiles lo hi ((a, n + k) :: l).
Proof.
  unfold sizeof_Header. intros [T1 T2 T3] E. apply Forall_cons in T1 as [I1 T1]. apply Forall_cons in T1 as [I2 T1]. cbn in T2. destruct T2 as (A1 & A2 & T2).
  apply Forall_cons in A1 as [_ A1]. unfold inside, bend, sizeof_Header in *. cbn in *. split.
  - constructor; [|done]. unfold inside, bend, sizeof_Header. cbn. lia.
  - cbn. split; [|done]. rewrite Forall_forall in *. intros c Hc. specialize (A1 c Hc). specialize (A2 c Hc). specialize (T1 c Hc).
    unfold apart, inside, bend, sizeof_Header in *. cbn in *. lia.
  - cbn. unfold sizeof_Header in *. lia.
Qed.

Lemma tiles_split lo hi a n k l : tiles lo hi ((a, n) :: l) -> 0 < k < n -> tiles lo hi ((a, n - k) :: (a + (n - k) * sizeof_Header, k) :: l).
Proof.
  unfold sizeof_Header. intros [T1 T2 T3] E. apply Forall_cons in T1 as [I1 T1]. cbn in T2. destruct T2 as (A1 & T2).
  unfold inside, bend, sizeof_Header in *. cbn in *. split.
  - constructor; [|constructor; [|done]]; unfold inside, bend, sizeof_Header; cbn; lia.
  - cbn. rewrite !Forall_cons, !Forall_forall in *. split; [split|split; [|done]].
    + unfold apart, bend, sizeof_Header. cbn. lia.
    + intros c Hc. specialize (A1 c Hc). specialize (T1 c Hc). unfold apart, inside, bend, sizeof_Header in *. cbn in *. lia.
    + intros c Hc. specialize (A1 c Hc). specialize (T1 c Hc). unfold apart, inside, bend, sizeof_Header in *. cbn in *. lia.
  - cbn. unfold sizeof_Header in *. lia.
Qed.

(** More memory at the end. *)
Lemma tiles_grow lo hi n l : tiles lo hi l -> 0 < n -> lo <= hi -> tiles lo (hi + n * sizeof_Header) ((hi, n) :: l).
Proof.
  unfold sizeof_Header. intros [T1 T2 T3] Hn Hlo. unfold sizeof_Header in *. split.
  - constructor; [unfold inside, bend, sizeof_Header; cbn; lia|]. eapply Forall_impl; [done|]. intros [a k]. unfold inside, bend, sizeof_Header. cbn [Datatypes.fst Datatypes.snd]. lia.
  - cbn. split; [|done]. eapply Forall_impl; [done|]. intros [a k]. unfold inside, apart, bend, sizeof_Header. cbn [Datatypes.fst Datatypes.snd]. lia.
  - change (units ((hi, n) :: l)) with (n + units l). unfold sizeof_Header. lia.
Qed.

Lemma units_length lo hi l : Forall (inside lo hi) l -> Z.of_nat (length l) <= units l.
Proof. induction 1 as [|b l (_ & Hb & _) _ IH]; cbn; [done|]. unfold units in IH. lia. Qed.

Lemma tiles_le lo hi l : tiles lo hi l -> lo <= hi.
Proof. intros [T1 _ T3]. pose proof (units_length _ _ _ T1). unfold sizeof_Header in T3. lia. Qed.

(** ** The ring *)

Fixpoint chain (f : Z -> Z) (x : Z) (l : list Z) (z : Z) : Prop :=
  match l with
  | [] => f x = z
  | y :: l => f x = y /\ chain f y l z
  end.

Lemma chain_app f x l y l' z : chain f x (l ++ y :: l') z <-> chain f x l y /\ chain f y l' z.
Proof. revert x. induction l as [|w l IH]; intros x; cbn; [done|]. rewrite IH. tauto. Qed.

Lemma links_ext f g x l z : (forall y, y ∈ x :: l -> f y = g y) -> chain f x l z -> chain g x l z.
Proof.
  revert x. induction l as [|w l IH]; intros x H; cbn; [by rewrite H by set_solver|]. rewrite <- H by set_solver.
  intros [-> ?]. split; [done|]. apply IH; [set_solver|done].
Qed.

(** Blocks in the order of addresses, with something between them. *)
Fixpoint gaps (lo : Z) (l : list (Z * Z)) : Prop :=
  match l with
  | [] => True
  | b :: l => lo < b.1 /\ 0 < b.2 /\ gaps (bend b) l
  end.

(** The end of the last block, and its address. *)
Definition end_of (lo : Z) (l : list (Z * Z)) : Z := match last l with None => lo | Some b => bend b end.
Definition pred_of (x : Z) (l : list (Z * Z)) : Z := match last l with None => x | Some b => b.1 end.

Lemma end_of_cons lo b l : end_of lo (b :: l) = end_of (bend b) l.
Proof. unfold end_of. rewrite last_cons. by destruct (last l). Qed.

Lemma pred_of_cons x b l : pred_of x (b :: l) = pred_of b.1 l.
Proof. unfold pred_of. rewrite last_cons. by destruct (last l). Qed.

Lemma gaps_app lo l l' : gaps lo (l ++ l') <-> gaps lo l /\ gaps (end_of lo l) l'.
Proof.
  revert lo. induction l as [|b l IH]; intros lo; [cbn; tauto|]. rewrite end_of_cons. cbn. rewrite IH. tauto.
Qed.

Lemma gaps_weaken lo lo' l : gaps lo l -> lo' <= lo -> gaps lo' l.
Proof. destruct l; cbn; [done|]. intros (? & ? & ?) ?. split; [lia|done]. Qed.

Lemma gaps_above lo l b : gaps lo l -> b ∈ l -> lo < b.1 /\ 0 < b.2.
Proof.
  revert lo. induction l as [|c l IH]; intros lo H Hb; [by apply elem_of_nil in Hb|]. destruct H as (H1 & H2 & H3).
  apply elem_of_cons in Hb as [->|Hb]; [done|]. destruct (IH _ H3 Hb). unfold bend, sizeof_Header in *. lia.
Qed.

Lemma gaps_end lo l : gaps lo l -> lo <= end_of lo l.
Proof.
  revert lo. induction l as [|b l IH]; intros lo; [done|]. rewrite end_of_cons. intros (H1 & H2 & H3). specialize (IH _ H3).
  unfold bend, sizeof_Header in *. lia.
Qed.

Lemma gaps_below lo l b : gaps lo l -> b ∈ l -> bend b <= end_of lo l.
Proof.
  revert lo. induction l as [|c l IH]; intros lo H Hb; [by apply elem_of_nil in Hb|]. destruct H as (H1 & H2 & H3). rewrite end_of_cons.
  apply elem_of_cons in Hb as [->|Hb]; [by apply gaps_end|by apply IH].
Qed.

Lemma gaps_NoDup lo l : gaps lo l -> NoDup (lo :: l.*1).
Proof.
  intros H. apply NoDup_cons. split.
  - intros (b & E & Hb)%list_elem_of_fmap. destruct (gaps_above _ _ _ H Hb). lia.
  - revert lo H. induction l as [|b l IH]; intros lo; [constructor|]. intros (H1 & H2 & H3). cbn. apply NoDup_cons. split; [|by eapply IH].
    intros (c & E & Hc)%list_elem_of_fmap. destruct (gaps_above _ _ _ H3 Hc). unfold bend, sizeof_Header in *. lia.
Qed.

Section Heap.
Context (base : Z) (can_grow : Z -> Z -> bool) (lo : Z) (Hbase : 0 < base < lo).

(** The free blocks [L] in the state [s]. *)
Record ring (s : um) (L : list (Z * Z)) : Prop := mkRing {
  r_chain : chain (ptr s) base L.*1 base;
  r_gaps : gaps base L;
  r_size : Forall (fun b => size s b.1 = b.2) ((base, 0) :: L);
  r_freep : freep s ∈ base :: L.*1
}.

(** The blocks in use are [A]. *)
Record heap_inv (s : um) (L A : list (Z * Z)) : Prop := mkInv {
  i_ring : ring s L;
  i_live : Forall (fun b => size s b.1 = b.2) A;
  i_tiles : tiles lo (brk s) (L ++ A);
  i_brk : brk s < 2 ^ 31
}.

(** ** Where [free] puts a block *)

(** The free blocks below [bp] and above it. *)
Lemma cut_at L bp lo' : gaps lo' L -> lo' < bp -> (forall b, b ∈ L -> b.1 <> bp) ->
  exists L1 L2, L = L1 ++ L2 /\ pred_of lo' L1 < bp /\ Forall (fun b => b.1 < bp) L1 /\ Forall (fun b => bp < b.1) L2.
Proof.
  revert lo'. induction L as [|b L IH]; intros lo' Hg Hlo Hne; [by exists [], []|]. destruct Hg as (H1 & H2 & H3).
  destruct (Z.lt_ge_cases b.1 bp) as [Hlt|Hge].
  - destruct (IH b.1) as (L1 & L2 & -> & Hp & HF1 & HF2); [eapply gaps_weaken; [done|unfold bend, sizeof_Header; lia]|done|set_solver|].
    exists (b :: L1), L2. rewrite pred_of_cons. split; [done|]. split; [done|]. by split; [constructor|].
  - exists [], (b :: L). split; [done|]. split; [done|]. split; [constructor|]. assert (bp < b.1) by (specialize (Hne b ltac:(set_solver)); lia).
    constructor; [done|]. apply Forall_forall. intros c Hc. destruct (gaps_above _ _ _ H3 Hc). unfold bend, sizeof_Header in *. lia.
Qed.

Lemma chain_pred f x L z : chain f x L.*1 z -> f (pred_of x L) = z.
Proof. revert x. induction L as [|b L IH]; intros x; [done|]. rewrite pred_of_cons. cbn. intros [_ H]. by apply IH. Qed.

Lemma pred_of_in x L : pred_of x L ∈ x :: L.*1.
Proof. revert x. induction L as [|b L IH]; intros x; [set_solver|]. rewrite pred_of_cons. cbn. specialize (IH b.1). set_solver. Qed.

(** The element behind [y] in the ring. *)
Lemma chain_next f x L z y : chain f x L.*1 z -> y ∈ x :: L.*1 ->
  (exists La b Lb, L = La ++ b :: Lb /\ pred_of x La = y /\ f y = b.1) \/ (pred_of x L = y /\ f y = z).
Proof.
  revert x. induction L as [|b L IH]; intros x Hc Hy.
  - right. apply elem_of_cons in Hy as [->|Hy]; [done|by apply elem_of_nil in Hy].
  - cbn in Hc, Hy. destruct Hc as [E Hc]. apply elem_of_cons in Hy as [->|Hy]; [left; by exists [], b, L|].
    destruct (IH b.1 Hc Hy) as [(La & c & Lb & -> & Hp & Hf)|[Hp Hf]].
    + left. exists (b :: La), c, Lb. by rewrite pred_of_cons.
    + right. by rewrite pred_of_cons.
Qed.

(** Along a chain with a gap, the gap is found. *)
Lemma find_gap_forward s bp x l z : chain (ptr s) x l z -> (exists y, y ∈ x :: l /\ gap_at s bp y = true) ->
  forall n, (length l < n)%nat -> exists p, p ∈ x :: l /\ gap_at s bp p = true /\ find_gap n s bp x = Some p.
Proof.
  revert x. induction l as [|w l IH]; intros x Hc (y & Hy & Hg) n Hn; (destruct n as [|n]; [cbn in Hn; lia|]); cbn [find_gap].
  - apply list_elem_of_singleton in Hy as ->. rewrite Hg. exists x. set_solver.
  - destruct (gap_at s bp x) eqn:E; [exists x; set_solver|]. destruct Hc as [-> Hc].
    destruct (IH w Hc) with (n := n) as (p & Hp & Hgp & Hf); [|cbn in Hn; lia|].
    + exists y. split; [|done]. apply elem_of_cons in Hy as [->|]; [congruence|done].
    + exists p. split; [set_solver|done].
Qed.

Lemma find_gap_backward s bp (R : list Z) x l z k : chain (ptr s) x l z -> (forall y, y ∈ x :: l -> y ∈ R) ->
  (forall n, (k <= n)%nat -> exists p, p ∈ R /\ gap_at s bp p = true /\ find_gap n s bp z = Some p) ->
  forall y, y ∈ x :: l -> forall n, (k + S (length l) <= n)%nat -> exists p, p ∈ R /\ gap_at s bp p = true /\ find_gap n s bp y = Some p.
Proof.
  revert x. induction l as [|w l IH]; intros x Hc HR Hz y Hy n Hn; (destruct n as [|n]; [lia|]).
  - apply list_elem_of_singleton in Hy as ->. cbn [find_gap]. destruct (gap_at s bp x) eqn:E; [exists x; set_solver|].
    cbn in Hc. rewrite Hc. apply Hz. cbn in Hn. lia.
  - destruct Hc as [E Hc]. assert (Hw : forall y, y ∈ w :: l -> forall n, (k + S (length l) <= n)%nat -> exists p, p ∈ R /\ gap_at s bp p = true /\ find_gap n s bp y = Some p).
    { apply (IH w); [done|set_solver|done]. }
    apply elem_of_cons in Hy as [->|Hy]; [|apply Hw; [done|cbn in Hn; lia]].
    cbn [find_gap]. destruct (gap_at s bp x) eqn:Eg; [exists x; set_solver|]. rewrite E. apply Hw; [set_solver|cbn in Hn; lia].
Qed.

(** The loop of [free] ends at a block with [bp] behind it. *)
Lemma find_gap_spec s L bp fuel : ring s L -> base < bp -> (forall b, b ∈ L -> b.1 <> bp) -> (2 * length L + 2 <= fuel)%nat ->
  exists L1 L2, L = L1 ++ L2 /\ find_gap fuel s bp (freep s) = Some (pred_of base L1) /\
    pred_of base L1 < bp /\ match L2 with [] => True | b :: _ => bp < b.1 end.
Proof.
  intros [Hc Hg _ Hf] Hbp Hne Hfuel.
  assert (Hex : exists y, y ∈ base :: L.*1 /\ gap_at s bp y = true).
  { destruct (cut_at L bp base Hg Hbp Hne) as (L1 & L2 & -> & Hp & HF1 & HF2). exists (pred_of base L1).
    split; [pose proof (pred_of_in base L1); rewrite fmap_app; set_solver|]. rewrite fmap_app in Hc.
    assert (base <= pred_of base L1).
    { pose proof (pred_of_in base L1) as H. apply elem_of_cons in H as [->|H]; [lia|]. apply list_elem_of_fmap in H as (b & -> & Hb).
      destruct (gaps_above _ _ b Hg); [set_solver|]. lia. }
    unfold gap_at. destruct L2 as [|b L2].
    - rewrite app_nil_r in Hc. rewrite (chain_pred _ _ _ _ Hc). lia.
    - cbn in Hc. apply chain_app in Hc as [Hc _]. rewrite (chain_pred _ _ _ _ Hc). apply Forall_cons in HF2 as [HF2 _]. lia. }
  destruct (find_gap_backward s bp (base :: L.*1) base L.*1 base (S (length L)) Hc) with (y := freep s) (n := fuel) as (p & Hp & Hgp & Hfp); [done| |done| |].
  { intros n Hn. apply (find_gap_forward _ _ _ _ _ Hc Hex). rewrite length_fmap. lia. }
  { rewrite length_fmap. lia. }
  assert (Hlt : forall La b Lb, L = La ++ b :: Lb -> pred_of base La < b.1).
  { intros La b Lb ->. apply gaps_app in Hg as [Hg1 Hg2]. destruct Hg2 as (Hg2 & _). unfold pred_of, end_of in *.
    destruct (last La) as [c|] eqn:El; [|done]. apply last_Some in El as [l' ->]. destruct (gaps_above _ _ c Hg1); [set_solver|].
    unfold bend, sizeof_Header in *. lia. }
  unfold gap_at in Hgp. destruct (chain_next _ _ _ _ p Hc Hp) as [(La & b & Lb & EL & <- & Hn)|[<- Hn]]; rewrite Hn in Hgp.
  - exists La, (b :: Lb). specialize (Hlt _ _ _ EL). split; [done|]. split; [done|]. lia.
  - exists L, []. rewrite app_nil_r. split; [done|]. split; [done|]. lia.
Qed.

(** ** Changing the ring *)

Lemma chain_relink f g x L1 l0 z0 l z : chain f x (L1.*1 ++ l0) z0 -> NoDup (x :: L1.*1) ->
  (forall w, w ∈ x :: L1.*1 -> w <> pred_of x L1 -> g w = f w) -> chain g (pred_of x L1) l z -> chain g x (L1.*1 ++ l) z.
Proof.
  revert x. induction L1 as [|b L1 IH]; intros x Hc Hnd Hg Hl; [done|]. cbn in *. destruct Hc as [E Hc]. rewrite pred_of_cons in *.
  apply NoDup_cons in Hnd as [Hx Hnd]. split.
  - rewrite <- E. apply Hg; [set_solver|]. pose proof (pred_of_in b.1 L1). intros ->. by destruct Hx.
  - apply (IH b.1); auto. intros w Hw. apply Hg. set_solver.
Qed.

Lemma chain_head f g x y l z : chain f x l z -> g y = f x -> (forall w, w ∈ l -> g w = f w) -> chain g y l z.
Proof. destruct l as [|w l]; cbn; intros H E Hg; [congruence|]. destruct H as [<- H]. split; [done|]. eapply links_ext; [|done]. intros v Hv. symmetry. by apply Hg. Qed.

Lemma inside_in L A s b : tiles lo (brk s) (L ++ A) -> b ∈ L \/ b ∈ A -> lo <= b.1 /\ 0 < b.2 /\ bend b <= brk s.
Proof. intros [T _ _] H. rewrite Forall_forall in T. apply (T b). set_solver. Qed.

(** A block in front of others is apart from them. *)
Lemma tiles_head hi b c l : tiles lo hi (b :: l) -> c ∈ l -> apart b c /\ 0 < c.2.
Proof.
  intros [T1 T2 _] Hc. destruct T2 as [T2 _]. rewrite Forall_forall in *. split; [by apply T2|]. destruct (T1 c ltac:(set_solver)) as (_ & ? & _). done.
Qed.

Lemma join_upper_spec s L1 L2 a n A : chain (ptr s) base (L1 ++ L2).*1 base -> gaps base (L1 ++ L2) ->
  Forall (fun b => size s b.1 = b.2) L2 -> size s a = n -> tiles lo (brk s) ((a, n) :: (L1 ++ L2) ++ A) -> brk s < 2 ^ 31 ->
  match L2 with [] => True | b :: _ => a < b.1 end ->
  exists n' L2', let s' := join_upper a (pred_of base L1) s in
    size s' a = n' /\ (forall x, x <> a -> size s' x = size s x /\ ptr s' x = ptr s x) /\ chain (ptr s') a L2'.*1 base /\
    gaps (bend (a, n')) L2' /\ 0 < n' /\ Forall (fun b => size s' b.1 = b.2) L2' /\ tiles lo (brk s) ((a, n') :: (L1 ++ L2') ++ A) /\
    (length L2' <= length L2)%nat /\ n <= n' /\ freep s' = freep s /\ brk s' = brk s.
Proof.
  intros Hc Hg Hs Ha HT Hb Hab. pose proof HT as [T1 _ _]. apply Forall_cons in T1 as [(Hlo & Hn & _) _]. cbn in Hlo, Hn.
  apply gaps_app in Hg as [_ Hg]. unfold join_upper. rewrite Ha. destruct L2 as [|[b k] L2].
  - rewrite app_nil_r in Hc. rewrite (chain_pred _ _ _ _ Hc). destruct (Z.eqb_spec (a + n * sizeof_Header) base) as [E|_]; [unfold sizeof_Header in E; lia|].
    exists n, []. cbn. rewrite upd_same. split_and!; try done; try lia. intros x Hx. by rewrite upd_other.
  - rewrite fmap_app in Hc. cbn in Hc. apply chain_app in Hc as [Hc1 Hc2]. rewrite (chain_pred _ _ _ _ Hc1). apply Forall_cons in Hs as [Hk Hs]. cbn in Hk, Hab.
    destruct Hg as (_ & Hk0 & Hg). cbn in Hk0.
    assert (Hne : forall w, w ∈ L2.*1 -> w <> a).
    { intros w (c & -> & Hcin)%list_elem_of_fmap. destruct (gaps_above _ _ _ Hg Hcin). unfold bend, sizeof_Header in *. cbn in *. lia. }
    destruct (Z.eqb_spec (a + n * sizeof_Header) b) as [E|E].
    + assert (HT' : tiles lo (brk s) ((a, n + k) :: (L1 ++ L2) ++ A)).
      { apply (tiles_join _ _ a n b k); [|done]. rewrite <- !app_assoc in HT |- *. cbn in HT. by rewrite <- Permutation_middle in HT. }
      pose proof HT' as [T1 _ _]. apply Forall_cons in T1 as [(_ & _ & Hend) _]. unfold bend, sizeof_Header in Hend. cbn in Hend.
      exists (n + k), L2. cbn. rewrite ?(chain_pred _ _ _ _ Hc1), Hk, u32_small by lia. rewrite !upd_same. split_and!; try done; try lia.
      * intros x Hx. by rewrite !upd_other.
      * cbn. eapply chain_head; [exact Hc2|by rewrite upd_same|]. intros w Hw. rewrite upd_other by (by apply Hne). done.
      * replace (bend (a, n + k)) with (bend (b, k)) by (unfold bend, sizeof_Header in *; cbn; lia). done.
      * rewrite Forall_forall in *. intros c Hcc. rewrite upd_other; [by apply Hs|]. apply Hne, list_elem_of_fmap. eauto.
    + exists n, ((b, k) :: L2). cbn. rewrite upd_same. split_and!; try done; try lia.
      * intros x Hx. by rewrite !upd_other.
      * cbn. eapply links_ext; [|exact Hc2]. intros y Hy. rewrite upd_other; [done|]. apply elem_of_cons in Hy as [->|Hy]; [lia|by apply Hne].
      * cbn. destruct (tiles_head _ (a, n) (b, k) _ HT) as [Hap _]; [set_solver|]. unfold apart, bend, sizeof_Header in *. cbn in *. lia.
      * by constructor.
Qed.

(** *** Joining to the block below *)

(** The free blocks after [free] has put block [(a, n)] behind [L1]. *)
Definition put_back (s s' : um) (L1 L2 A : list (Z * Z)) (n : Z) (L' : list (Z * Z)) : Prop :=
  chain (ptr s') base L'.*1 base /\ gaps base L' /\ Forall (fun b => size s' b.1 = b.2) ((base, 0) :: L') /\
  tiles lo (brk s) (L' ++ A) /\ (length L' <= S (length (L1 ++ L2)))%nat /\ pred_of base L1 ∈ base :: L'.*1 /\
  (forall x, x <> pred_of base L1 -> size s' x = size s x) /\ brk s' = brk s /\ (exists b, b ∈ L' /\ n <= b.2).

Section Lower.
Context (s : um) (L2 A : list (Z * Z)) (a n : Z).
Context (Hc2 : chain (ptr s) a L2.*1 base) (Hg2 : gaps (bend (a, n)) L2) (Hs2 : Forall (fun b => size s b.1 = b.2) L2).
Context (Ha : size s a = n) (Hn : 0 < n) (Hb : brk s < 2 ^ 31).

Lemma above_a w : w ∈ L2.*1 -> a < w.
Proof.
  intros (c & -> & Hcin)%list_elem_of_fmap. destruct (gaps_above _ _ _ Hg2 Hcin). unfold bend, sizeof_Header in *. cbn in *. lia.
Qed.

Lemma lower_merge L1 p j l0 : chain (ptr s) base ((L1 ++ [(p, j)]).*1 ++ l0) base -> gaps base (L1 ++ [(p, j)]) ->
  Forall (fun b => size s b.1 = b.2) ((base, 0) :: L1 ++ [(p, j)]) -> tiles lo (brk s) ((a, n) :: ((L1 ++ [(p, j)]) ++ L2) ++ A) ->
  p + size s p * sizeof_Header = a ->
  put_back s (set_ptr p (ptr s a) (set_size p (u32 (size s p + n)) s)) (L1 ++ [(p, j)]) L2 A n (L1 ++ (p, j + n) :: L2).
Proof.
  intros Hc1 Hg1 Hs1 HT E. pose proof (gaps_NoDup _ _ Hg1) as Hnd. assert (Ep : pred_of base (L1 ++ [(p, j)]) = p) by (unfold pred_of; by rewrite last_snoc).
  apply Forall_cons in Hs1 as [Hb0 Hs1]. apply Forall_app in Hs1 as [Hs1 Hj]. apply Forall_cons in Hj as [Hj _]. cbn in Hj. rewrite Hj in *.
  assert (HT' : tiles lo (brk s) ((p, j + n) :: (L1 ++ L2) ++ A)).
  { apply (tiles_join _ _ p j a n); [|done]. eapply tiles_perm; [|exact HT]. rewrite <- !app_assoc. solve_Permutation. }
  pose proof HT' as [T1 _ _]. apply Forall_cons in T1 as [(Hlo' & _ & Hend') _]. unfold bend, sizeof_Header in Hend'. cbn [Datatypes.fst Datatypes.snd] in Hlo', Hend'.
  pose proof Hg1 as Hg1'. apply gaps_app in Hg1' as [Hg1' (Hg3 & Hj0 & _)]. cbn in Hg3, Hj0. pose proof (gaps_end _ _ Hg1').
  assert (Hpa : p < a) by (unfold sizeof_Header in *; lia). rewrite u32_small by lia.
  unfold put_back. rewrite Ep. cbn. split_and!; try done.
  - replace ((L1 ++ (p, j + n) :: L2).*1) with ((L1 ++ [(p, j)]).*1 ++ L2.*1) by (by rewrite !fmap_app, <- app_assoc).
    eapply chain_relink; [exact Hc1|done| |]; rewrite Ep; [intros w _ Hw; by rewrite upd_other|].
    eapply chain_head; [exact Hc2|by rewrite upd_same|]. intros w Hw%above_a. rewrite upd_other by lia. done.
  - apply gaps_app. split; [done|]. cbn. split; [done|]. split; [lia|].
    replace (bend (p, j + n)) with (bend (a, n)) by (unfold bend, sizeof_Header in *; cbn; lia). done.
  - rewrite fmap_app in Hnd. cbn in Hnd. rewrite app_comm_cons in Hnd. apply NoDup_app in Hnd as (_ & Hnd & _). rewrite Forall_forall in Hs1, Hs2.
    constructor; [rewrite upd_other by (cbn; lia); done|]. apply Forall_app. split; [|constructor; [by rewrite upd_same|]]; apply Forall_forall; intros c Hin.
    + rewrite upd_other; [by apply Hs1|]. intros Ec. apply (Hnd c.1); [|rewrite Ec; set_solver]. apply elem_of_cons. right. apply list_elem_of_fmap. eauto.
    + rewrite upd_other; [by apply Hs2|]. assert (a < c.1); [|lia]. apply above_a, list_elem_of_fmap. eauto.
  - eapply tiles_perm; [|exact HT']. rewrite <- !app_assoc. cbn. solve_Permutation.
  - rewrite !length_app. cbn. lia.
  - rewrite fmap_app. set_solver.
  - intros x Hx. by rewrite upd_other.
  - exists (p, j + n). split; [set_solver|cbn; lia].
Qed.

(** The last block below [a] ends below [a]. *)
Lemma end_below L1 : gaps base L1 -> pred_of base L1 < a -> base < a -> tiles lo (brk s) ((a, n) :: (L1 ++ L2) ++ A) ->
  Forall (fun b => size s b.1 = b.2) ((base, 0) :: L1) -> pred_of base L1 + size s (pred_of base L1) * sizeof_Header <> a -> end_of base L1 < a.
Proof.
  intros Hg1 Hp Hba HT Hs1 E. unfold end_of, pred_of in *. destruct (last L1) as [b|] eqn:El; [|done]. apply last_Some in El as [L1' ->].
  destruct (tiles_head _ (a, n) b _ HT) as [Hap ?]; [set_solver|]. apply Forall_cons in Hs1 as [_ Hs1]. apply Forall_app in Hs1 as [_ Hs1].
  apply Forall_cons in Hs1 as [Hs1 _]. rewrite Hs1 in E. unfold apart, bend, sizeof_Header in *. cbn in *. lia.
Qed.

Lemma lower_link L1 l0 : chain (ptr s) base (L1.*1 ++ l0) base -> gaps base L1 -> pred_of base L1 < a -> base < a ->
  Forall (fun b => size s b.1 = b.2) ((base, 0) :: L1) -> tiles lo (brk s) ((a, n) :: (L1 ++ L2) ++ A) ->
  pred_of base L1 + size s (pred_of base L1) * sizeof_Header <> a ->
  put_back s (set_ptr (pred_of base L1) a s) L1 L2 A n (L1 ++ (a, n) :: L2).
Proof.
  intros Hc1 Hg1 Hp Hba Hs1 HT E. unfold put_back. cbn. split_and!; try done.
  - rewrite fmap_app. cbn. eapply chain_relink; [exact Hc1|by apply gaps_NoDup|intros w _ Hw; by rewrite upd_other|].
    cbn. rewrite upd_same. split; [done|]. eapply links_ext; [|exact Hc2]. intros y Hy. rewrite upd_other; [done|].
    apply elem_of_cons in Hy as [->|Hy%above_a]; lia.
  - apply gaps_app. split; [done|]. cbn. split; [|done]. by apply end_below.
  - constructor; [by apply Forall_cons in Hs1 as [? _]|]. apply Forall_cons in Hs1 as [_ Hs1]. apply Forall_app. split; [done|]. by constructor.
  - eapply tiles_perm; [|exact HT]. rewrite <- !app_assoc. cbn. solve_Permutation.
  - rewrite !length_app. cbn. lia.
  - rewrite fmap_app. pose proof (pred_of_in base L1). set_solver.
  - exists (a, n). split; [set_solver|done].
Qed.

Lemma join_lower_spec L1 l0 : chain (ptr s) base (L1.*1 ++ l0) base -> gaps base L1 -> pred_of base L1 < a -> base < a ->
  Forall (fun b => size s b.1 = b.2) ((base, 0) :: L1) -> tiles lo (brk s) ((a, n) :: (L1 ++ L2) ++ A) ->
  exists L', put_back s (join_lower a (pred_of base L1) s) L1 L2 A n L'.
Proof.
  intros Hc1 Hg1 Hp Hba Hs1 HT. unfold join_lower. rewrite Ha.
  destruct (Z.eqb_spec (pred_of base L1 + size s (pred_of base L1) * sizeof_Header) a) as [E|E]; [|eexists; by eapply lower_link].
  destruct (last L1) as [[p j]|] eqn:El.
  - assert (Ep : pred_of base L1 = p) by (unfold pred_of; by rewrite El). rewrite Ep in *. apply last_Some in El as [L1' ->]. eexists. by eapply lower_merge.
  - exfalso. apply last_None in El as ->. cbn in *. apply Forall_cons in Hs1 as [Hs1 _]. cbn in Hs1. rewrite Hs1 in E. unfold sizeof_Header in *. lia.
Qed.
End Lower.

(** A block in use is not on the free list. *)
Lemma live_not_free hi L A b x : tiles lo hi (L ++ A) -> b ∈ A -> x ∈ base :: L.*1 -> b.1 <> x.
Proof.
  intros HT Hb Hx. pose proof HT as [T1 _ _]. rewrite Forall_forall in T1. destruct (T1 b ltac:(set_solver)) as (? & ? & _).
  apply elem_of_cons in Hx as [->|(c & -> & Hc)%list_elem_of_fmap]; [lia|].
  apply list_elem_of_split in Hb as (A1 & A2 & ->). rewrite <- Permutation_middle, app_comm_cons in HT.
  assert (HT' : tiles lo hi (b :: L ++ A1 ++ A2)) by (eapply tiles_perm; [|exact HT]; solve_Permutation).
  destruct (tiles_head _ _ c _ HT') as [Hap ?]; [set_solver|]. unfold apart, bend, sizeof_Header in Hap. lia.
Qed.

(** [free] moves a block in use to the free list. *)
Lemma um_free_spec s L a n A fuel : heap_inv s L ((a, n) :: A) -> (2 * length L + 2 <= fuel)%nat ->
  exists s' L', free fuel (a + sizeof_Header) s = Some s' /\ heap_inv s' L' A /\ brk s' = brk s /\
    (length L' <= S (length L))%nat /\ (exists b, b ∈ L' /\ n <= b.2).
Proof.
  intros [HR HA HT Hb] Hf. pose proof HR as [Hc Hg Hs Hfp]. apply Forall_cons in HA as [Ha HA]. cbn in Ha.
  assert (HT' : tiles lo (brk s) ((a, n) :: L ++ A)) by (by rewrite <- Permutation_middle in HT).
  pose proof HT' as [T1 _ _]. apply Forall_cons in T1 as [(Hlo & Hn & _) T1]. cbn in Hlo, Hn.
  assert (Hother : forall b, b ∈ L ++ A -> b.1 <> a).
  { intros b Hin E. destruct (tiles_head _ _ b _ HT' Hin) as [Hap ?]. unfold apart, bend, sizeof_Header in Hap. cbn in Hap. lia. }
  destruct (find_gap_spec s L a fuel HR) as (L1 & L2 & -> & Efg & Hp & Hnext); [lia|set_solver|done|].
  apply Forall_cons in Hs as [Hs0 Hs]. apply Forall_app in Hs as [Hs1 Hs2].
  destruct (join_upper_spec s L1 L2 a n A) as (n' & L2' & U1 & U2 & U3 & U4 & U5 & U6 & U7 & U8 & U9 & U10 & U11); [done..|].
  set (s1 := join_upper a (pred_of base L1) s) in *.
  assert (Hbasea : base <> a) by lia.
  destruct (join_lower_spec s1 L2' A a n' U3 U4 U6 U1 U5 ltac:(by rewrite U11) L1 L2.*1) as (L' & V1 & V2 & V3 & V4 & V5 & V6 & V7 & V8 & V9).
  - rewrite <- fmap_app. eapply links_ext; [|exact Hc]. intros y Hy. symmetry. apply U2.
    apply elem_of_cons in Hy as [->|Hy]; [done|]. apply list_elem_of_fmap in Hy as (b & -> & Hy). apply Hother. set_solver.
  - by apply gaps_app in Hg as [? _].
  - done.
  - lia.
  - rewrite Forall_cons, !Forall_forall in *. split; [cbn; destruct (U2 base) as [-> _]; done|]. intros b Hin. destruct (U2 b.1) as [-> _]; [apply Hother; set_solver|by apply Hs1].
  - by rewrite U11.
  - eexists _, L'. unfold free. replace (a + sizeof_Header - sizeof_Header) with a by lia. rewrite Efg. split; [done|].
    fold s1. set (s2 := join_lower a (pred_of base L1) s1) in *. cbn [brk field_update]. split; [|split; [cbn; congruence|split]].
    + split; [split; [exact V1|done|exact V3|exact V6]| |cbn; by rewrite V8, U11 in *|cbn; congruence].
      apply Forall_forall. intros b Hin. rewrite Forall_forall in HA. cbn.
      rewrite V7; [destruct (U2 b.1) as [-> _]; [apply Hother; set_solver|by apply HA]|].
      apply (live_not_free (brk s) (L1 ++ L2) ((a, n) :: A)); [done|set_solver|]. rewrite fmap_app. pose proof (pred_of_in base L1). set_solver.
    + rewrite !length_app in *. lia.
    + destruct V9 as (b & Hb1 & Hb2). exists b. split; [done|lia].
Qed.

(** ** [malloc] *)

(** Taking a block as a whole. *)
Lemma take_all_spec s L1 p n L2 A : heap_inv s (L1 ++ (p, n) :: L2) A ->
  heap_inv ((set_ptr (pred_of base L1) (ptr s p) s) <| freep := pred_of base L1 |>) (L1 ++ L2) ((p, n) :: A).
Proof.
  intros [[Hc Hg Hs Hfp] HA HT Hb]. pose proof (gaps_NoDup _ _ Hg) as Hnd. pose proof (pred_of_in base L1) as Hpr.
  rewrite fmap_app in Hc, Hnd. cbn in Hc, Hnd. rewrite app_comm_cons in Hnd. apply NoDup_app in Hnd as (Hnd1 & Hnd2 & _).
  pose proof Hc as Hc'. apply chain_app in Hc' as [_ Hc2]. apply Forall_cons in Hs as [Hs0 Hs]. apply Forall_app in Hs as [Hs1 Hs2]. apply Forall_cons in Hs2 as [Hsp Hs2].
  split; [split| | |done]; cbn.
  - rewrite fmap_app. eapply chain_relink; [exact Hc|done|intros w _ Hw; by rewrite upd_other|].
    eapply chain_head; [exact Hc2|by rewrite upd_same|]. intros w Hw. rewrite upd_other; [done|]. intros ->. apply (Hnd2 _ Hpr). set_solver.
  - apply gaps_app in Hg as [Hg1 (Hg2 & Hg3 & Hg4)]. apply gaps_app. split; [done|]. eapply gaps_weaken; [done|]. unfold bend, sizeof_Header in *. cbn in *. lia.
  - constructor; [done|]. by apply Forall_app.
  - rewrite fmap_app. set_solver.
  - by constructor.
  - eapply tiles_perm; [|exact HT]. rewrite <- !app_assoc. cbn. solve_Permutation.
Qed.

(** Taking the tail of a block. *)
Lemma take_tail_spec s L1 p n L2 A k : heap_inv s (L1 ++ (p, n) :: L2) A -> 0 < k < n ->
  heap_inv ((set_size (p + (n - k) * sizeof_Header) k (set_size p (n - k) s)) <| freep := pred_of base L1 |>)
    (L1 ++ (p, n - k) :: L2) ((p + (n - k) * sizeof_Header, k) :: A).
Proof.
  intros [[Hc Hg Hs Hfp] HA HT Hb] Hk. pose proof (pred_of_in base L1) as Hpr. set (r := p + (n - k) * sizeof_Header).
  assert (HT' : tiles lo (brk s) ((p, n) :: (L1 ++ L2) ++ A)) by (eapply tiles_perm; [|exact HT]; rewrite <- !app_assoc; cbn; solve_Permutation).
  assert (Hlo : lo <= p) by (pose proof HT' as [T1 _ _]; by apply Forall_cons in T1 as [(? & _) _]).
  assert (Hne : forall b, b ∈ (L1 ++ L2) ++ A -> b.1 <> p /\ b.1 <> r).
  { intros b Hin. destruct (tiles_head _ _ b _ HT' Hin) as [Hap ?]. unfold apart, bend, sizeof_Header, r in *. cbn [Datatypes.fst Datatypes.snd] in *. unfold sizeof_Header. lia. }
  assert (Hr : r <> p) by (unfold r, sizeof_Header; lia).
  assert (Hkeep : forall l, (forall b, b ∈ l -> b ∈ (L1 ++ L2) ++ A) -> Forall (fun b => size s b.1 = b.2) l ->
                  Forall (fun b => upd (upd (size s) p (n - k)) r k b.1 = b.2) l).
  { intros l Hl H. rewrite Forall_forall in *. intros b Hin. destruct (Hne b (Hl b Hin)). rewrite !upd_other by done. by apply H. }
  apply Forall_cons in Hs as [Hs0 Hs]. apply Forall_app in Hs as [Hs1 Hs2]. apply Forall_cons in Hs2 as [Hsp Hs2].
  split; [split| | |done]; cbn.
  - by rewrite fmap_app in Hc |- *.
  - apply gaps_app in Hg as [Hg1 (Hg2 & Hg3 & Hg4)]. apply gaps_app. split; [done|]. cbn. split; [done|]. split; [lia|].
    eapply gaps_weaken; [done|]. unfold bend, sizeof_Header. cbn. lia.
  - constructor; [rewrite !upd_other by (unfold r, sizeof_Header; cbn; lia); done|]. apply Forall_app. split; [apply Hkeep; [set_solver|done]|].
    constructor; [rewrite upd_other, upd_same by done; done|]. apply Hkeep; [set_solver|done].
  - rewrite fmap_app. set_solver.
  - constructor; [by rewrite upd_same|]. apply Hkeep; [set_solver|done].
  - apply (tiles_split _ _ _ _ k) in HT'; [|done]. fold r in HT'. eapply tiles_perm; [|exact HT']. rewrite <- !app_assoc. cbn. solve_Permutation.
Qed.

Lemma take_block_spec s L1 p n L2 A k : heap_inv s (L1 ++ (p, n) :: L2) A -> 0 < k <= n ->
  exists r s' L', take_block k (pred_of base L1) p s = (r + sizeof_Header, s') /\ heap_inv s' L' ((r, k) :: A) /\ brk s' = brk s /\
    (length L' <= length (L1 ++ (p, n) :: L2))%nat.
Proof.
  intros H Hk. pose proof H as [[_ _ Hs _] _ HT Hb]. unfold take_block.
  assert (Hn : size s p = n) by (rewrite Forall_forall in Hs; apply (Hs (p, n)); set_solver).
  assert (n < 2 ^ 31).
  { destruct HT as [T1 _ _]. rewrite Forall_forall in T1. destruct (T1 (p, n)) as (? & _ & ?); [set_solver|].
    unfold bend, sizeof_Header in *. cbn [Datatypes.fst Datatypes.snd] in *. lia. }
  rewrite Hn. destruct (Z.eqb_spec n k) as [->|Hne].
  - eexists p, _, (L1 ++ L2). split; [done|]. split; [by apply take_all_spec|]. split; [done|]. rewrite !length_app. cbn. lia.
  - cbn [size field_update set_size]. rewrite upd_same, u32_small by lia. eexists (p + (n - k) * sizeof_Header), _, (L1 ++ (p, n - k) :: L2).
    split; [done|]. split; [apply (take_tail_spec s L1 p n L2 A k H); lia|]. split; [done|]. rewrite !length_app. cbn. lia.
Qed.
(** The ring from one of its elements on. *)
Lemma chain_rotate f x l y : chain f x l x -> y ∈ x :: l -> exists ys, chain f y ys y /\ y :: ys ≡ₚ x :: l.
Proof.
  intros Hc Hy. apply elem_of_cons in Hy as [->|Hy]; [eauto|]. apply list_elem_of_split in Hy as (l1 & l2 & ->).
  apply chain_app in Hc as [H1 H2]. exists (l2 ++ x :: l1). split; [by apply chain_app|]. solve_Permutation.
Qed.

(** One turn around the ring: a block is found, or all are too small. *)
Lemma malloc_scan s k ys : forall prevp fuel, chain (ptr s) prevp ys (freep s) -> freep s ∉ ys -> (length ys < fuel)%nat ->
  (exists x p, x ∈ prevp :: ys /\ ptr s x = p /\ k <= size s p /\ malloc_loop can_grow fuel k prevp (ptr s prevp) s = Some (take_block k x p s)) \/
  (Forall (fun y => size s y < k) (freep s :: ys) /\
   malloc_loop can_grow fuel k prevp (ptr s prevp) s =
     match morecore can_grow (fuel - S (length ys)) k s with
     | None => None
     | Some (p, s) => if p =? 0 then Some (0, s) else malloc_loop can_grow (fuel - S (length ys)) k p (ptr s p) s
     end).
Proof.
  induction ys as [|y ys IH]; intros prevp [|fuel] Hc Hf Hn; try (cbn in Hn; lia).
  - cbn in Hc. cbn [malloc_loop length]. rewrite Hc, Z.geb_leb, Z.eqb_refl, Nat.sub_succ, Nat.sub_0_r.
    destruct (Z.leb_spec k (size s (freep s))); [left; exists prevp, (freep s); set_solver|].
    right. split; [by repeat constructor|]. done.
  - destruct Hc as [E Hc]. cbn [malloc_loop length]. rewrite E, Z.geb_leb, Nat.sub_succ.
    destruct (Z.leb_spec k (size s y)); [left; exists prevp, y; set_solver|]. destruct (Z.eqb_spec y (freep s)); [set_solver|].
    destruct (IH y fuel Hc) as [(x & p & Hx & Hp & Hk & El)|[Hall El]]; [set_solver|cbn in Hn; lia| |].
    + left. exists x, p. split; [set_solver|done].
    + right. split; [|done]. apply Forall_cons in Hall as [? ?]. by repeat constructor.
Qed.

(** From [freep] on. *)
Lemma malloc_turn s L A k fuel : heap_inv s L A -> 0 < k -> (length L < fuel)%nat ->
  (exists r s' L', malloc_loop can_grow fuel k (freep s) (ptr s (freep s)) s = Some (r + sizeof_Header, s') /\ heap_inv s' L' ((r, k) :: A) /\
     brk s' = brk s /\ (length L' <= length L)%nat) \/
  (Forall (fun b => b.2 < k) L /\ malloc_loop can_grow fuel k (freep s) (ptr s (freep s)) s =
     match morecore can_grow (fuel - S (length L)) k s with
     | None => None
     | Some (p, s) => if p =? 0 then Some (0, s) else malloc_loop can_grow (fuel - S (length L)) k p (ptr s p) s
     end).
Proof.
  intros H Hk Hf. pose proof H as [[Hc Hg Hs Hfp] _ _ _]. destruct (chain_rotate _ _ _ _ Hc Hfp) as (ys & Hcy & Hperm).
  pose proof (gaps_NoDup _ _ Hg) as Hnd. rewrite <- Hperm in Hnd. apply NoDup_cons in Hnd as [Hnf _].
  assert (Hlen : length ys = length L) by (apply Permutation_length in Hperm; cbn in Hperm; rewrite length_fmap in Hperm; lia).
  destruct (malloc_scan s k ys (freep s) fuel Hcy Hnf) as [(x & p & Hx & Hp & Hkp & El)|[Hall El]]; [lia| |].
  - left. rewrite Hperm in Hx. rewrite El. apply Forall_cons in Hs as [Hs0 Hs]. cbn in Hs0.
    destruct (chain_next _ _ _ _ x Hc Hx) as [(La & [b n] & Lb & -> & <- & Hn)|[_ Hn]]; [|rewrite Hn in Hp; subst p; lia].
    cbn in Hn. rewrite Hn in Hp. subst p. assert (Hsz : size s b = n) by (rewrite Forall_forall in Hs; apply (Hs (b, n)); set_solver).
    destruct (take_block_spec s La b n Lb A k H) as (r & s' & L' & E & R); [lia|]. exists r, s', L'. by rewrite E.
  - right. rewrite El, Hlen. split; [|done]. rewrite Hperm in Hall. apply Forall_cons in Hall as [_ Hall].
    rewrite Forall_fmap in Hall. apply Forall_cons in Hs as [_ Hs]. rewrite Forall_forall in *. intros b Hb. rewrite <- (Hs b Hb). by apply Hall.
Qed.

Context (Hgrow : forall b n, can_grow b n = true -> b + n < 2 ^ 31).

Definition core_units (k : Z) : Z := if k <? 4096 then 4096 else k.

(** More memory, or none. *)
Lemma morecore_spec s L A k fuel : heap_inv s L A -> 0 < k -> core_units k * sizeof_Header < 2 ^ 31 -> (2 * length L + 2 <= fuel)%nat ->
  (morecore can_grow fuel k s = Some (0, s) /\ can_grow (brk s) (core_units k * sizeof_Header) = false) \/
  (exists s' L', morecore can_grow fuel k s = Some (freep s', s') /\ heap_inv s' L' A /\ brk s' = brk s + core_units k * sizeof_Header /\
     (length L' <= S (length L))%nat /\ exists b, b ∈ L' /\ k <= b.2).
Proof.
  intros [[Hc Hg Hs Hfp] HA HT Hb] Hk Hsz Hf. unfold morecore. fold (core_units k).
  assert (Hck : k <= core_units k) by (unfold core_units; destruct (Z.ltb_spec k 4096); lia). unfold sbrk. rewrite s32_small by (unfold sizeof_Header in *; lia).
  rewrite (proj2 (Z.ltb_ge _ _)) by (unfold sizeof_Header; lia).
  destruct (can_grow (brk s) (core_units k * sizeof_Header)) eqn:Eg; [|by left]. right.
  pose proof (tiles_le _ _ _ HT) as Hbrk.
  destruct (Z.eqb_spec (brk s) (-1)); [lia|].
  destruct (um_free_spec (set_size (brk s) (core_units k) (s <| brk := brk s + core_units k * sizeof_Header |>)) L (brk s) (core_units k) A fuel) as (s' & L' & E & Hi & Hb' & Hl & Hex).
  - assert (Hkeep : forall l, (forall b, b ∈ l -> b ∈ L ++ A) -> Forall (fun b => size s b.1 = b.2) l ->
                    Forall (fun b => upd (size s) (brk s) (core_units k) b.1 = b.2) l).
    { intros l Hl Hsl. rewrite Forall_forall in *. intros b Hin. rewrite upd_other; [by apply Hsl|].
      destruct HT as [T1 _ _]. rewrite Forall_forall in T1. destruct (T1 b (Hl b Hin)) as (_ & ? & ?). unfold bend, sizeof_Header in *. lia. }
    apply Forall_cons in Hs as [Hs0 Hs]. split; [split| | |]; cbn -[Z.mul Z.add]; try done.
    + constructor; [rewrite upd_other by (cbn; lia); done|]. apply Hkeep; [set_solver|done].
    + constructor; [by rewrite upd_same|]. apply Hkeep; [set_solver|done].
    + rewrite <- Permutation_middle. apply tiles_grow; [done|lia|done].
    + by apply Hgrow.
  - done.
  - rewrite E. exists s', L'. split; [done|]. split; [done|]. split; [done|]. split; [done|]. destruct Hex as (b & ? & ?). exists b. split; [done|lia].
Qed.
(** The free list is not longer than the memory has units. *)
Lemma ring_length s L A : heap_inv s L A -> Z.of_nat (length L) < 2 ^ 27.
Proof.
  intros [_ _ HT Hb]. pose proof (units_length _ _ _ (t_in _ _ _ HT)) as Hl. destruct HT as [_ _ T3]. rewrite length_app in Hl.
  unfold sizeof_Header in *. lia.
Qed.

Lemma malloc_loop_spec s L A k fuel : heap_inv s L A -> 0 < k -> core_units k * sizeof_Header < 2 ^ 31 -> 2 ^ 31 <= Z.of_nat fuel ->
  exists r s' L', malloc_loop can_grow fuel k (freep s) (ptr s (freep s)) s = Some (r, s') /\
    ((r = 0 /\ heap_inv s' L' A /\ can_grow (brk s) (core_units k * sizeof_Header) = false /\ Forall (fun b => b.2 < k) L) \/
     (r <> 0 /\ heap_inv s' L' ((r - sizeof_Header, k) :: A))).
Proof.
  intros H Hk Hsz Hf. pose proof (ring_length _ _ _ H) as Hl.
  assert (Hfound : forall s r L', heap_inv s L' ((r, k) :: A) -> r + sizeof_Header <> 0 /\ heap_inv s L' ((r + sizeof_Header - sizeof_Header, k) :: A)).
  { intros s0 r L' Hi. replace (r + sizeof_Header - sizeof_Header) with r by lia. split; [|done].
    destruct Hi as [_ _ [T1 _ _] _]. rewrite Forall_forall in T1. destruct (T1 (r, k)) as (? & _); [set_solver|]. unfold sizeof_Header. cbn in *. lia. }
  destruct (malloc_turn s L A k fuel H Hk) as [(r & s' & L' & -> & Hi & _)|[Hall ->]]; [lia| |].
  { eexists _, s', L'. split; [done|]. right. by apply (Hfound s' r L'). }
  destruct (morecore_spec s L A k (fuel - S (length L)) H Hk Hsz) as [[-> Hg]|(s1 & L1 & -> & Hi1 & _ & Hl1 & b & Hb & Hkb)]; [lia| |].
  { exists 0, s, L. split; [done|]. by left. }
  assert (freep s1 <> 0).
  { destruct Hi1 as [[_ Hg _ Hfp] _ _ _]. apply elem_of_cons in Hfp as [->|(c & -> & Hc)%list_elem_of_fmap]; [lia|]. destruct (gaps_above _ _ _ Hg Hc). lia. }
  destruct (Z.eqb_spec (freep s1) 0); [done|].
  destruct (malloc_turn s1 L1 A k (fuel - S (length L)) Hi1 Hk) as [(r & s' & L' & -> & Hi & _)|[Hall' _]]; [lia| |].
  - eexists _, s', L'. split; [done|]. right. by apply (Hfound s' r L').
  - rewrite Forall_forall in Hall'. specialize (Hall' b Hb). lia.
Qed.

(** Before the first call the list is not there. *)
Definition heap_ok (s : um) (A : list (Z * Z)) : Prop :=
  freep s = 0 /\ brk s = lo /\ A = [] \/ exists L, heap_inv s L A.

Lemma init_base_spec s A : lo < 2 ^ 31 -> heap_ok s A -> exists L, heap_inv (init_base base s) L A /\ brk (init_base base s) = brk s.
Proof.
  intros Hlo [(Hf & Hb & ->)|[L H]]; unfold init_base.
  - rewrite Hf. cbn. exists []. split; [|done]. split; [split| | |]; cbn; try done.
    + by rewrite upd_same.
    + constructor; [cbn; by rewrite upd_same|constructor].
    + set_solver.
    + rewrite Hb. split; [done|done|]. cbn. lia.
    + lia.
  - exists L. destruct (Z.eqb_spec (freep s) 0) as [E|]; [|done]. destruct H as [[_ Hg _ Hfp] _ _ _].
    apply elem_of_cons in Hfp as [Hfp|(c & Hfp & Hc)%list_elem_of_fmap]; [lia|]. destruct (gaps_above _ _ _ Hg Hc). lia.
Qed.
End Heap.

(** ** What a program can rely on *)

(** The largest request whose size in bytes, with the header, is an [int]. *)
Definition max_request : Z := 2 ^ 31 - 32.

(** [lo] is the end of the program, [base] is inside it; the second list is what the program holds: header and units. *)
Inductive reach (base : Z) (can_grow : Z -> Z -> bool) (lo : Z) (fuel : nat) : um -> list (Z * Z) -> Prop :=
| reach_start s : freep s = 0 -> brk s = lo -> reach base can_grow lo fuel s []
| reach_malloc s A n r s' : reach base can_grow lo fuel s A -> 0 <= n <= max_request -> malloc base can_grow fuel n s = Some (r, s') ->
    reach base can_grow lo fuel s' (if r =? 0 then A else (r - sizeof_Header, nunits_of n) :: A)
| reach_free s A1 a k A2 s' : reach base can_grow lo fuel s (A1 ++ (a, k) :: A2) -> free fuel (a + sizeof_Header) s = Some s' ->
    reach base can_grow lo fuel s' (A1 ++ A2).

(** A block has room for the request. *)
Lemma nunits_spec n : 0 <= n <= max_request ->
  0 < nunits_of n /\ n + sizeof_Header <= nunits_of n * sizeof_Header /\ core_units (nunits_of n) * sizeof_Header < 2 ^ 31.
Proof.
  unfold max_request, nunits_of, core_units, sizeof_Header. intros Hn.
  pose proof (Z.div_mod (n + 16 - 1) 16 ltac:(lia)). pose proof (Z.mod_pos_bound (n + 16 - 1) 16 ltac:(lia)).
  rewrite u32_small by lia. destruct (Z.ltb_spec ((n + 16 - 1) / 16 + 1) 4096); lia.
Qed.

Section Safe.
Context (base : Z) (can_grow : Z -> Z -> bool) (lo : Z) (fuel : nat).
Context (Hbase : 0 < base < lo) (Hlo : lo < 2 ^ 31) (Hgrow : forall b n, can_grow b n = true -> b + n < 2 ^ 31) (Hfuel : 2 ^ 31 <= Z.of_nat fuel).

Lemma malloc_spec s A n : heap_ok base lo s A -> 0 <= n <= max_request ->
  exists r s', malloc base can_grow fuel n s = Some (r, s') /\
    (r = 0 /\ heap_ok base lo s' A /\ can_grow (brk s) (core_units (nunits_of n) * sizeof_Header) = false \/
     r <> 0 /\ heap_ok base lo s' ((r - sizeof_Header, nunits_of n) :: A)).
Proof.
  intros H Hn. destruct (nunits_spec n Hn) as (Hk & _ & Hc). destruct (init_base_spec base can_grow lo Hbase Hgrow s A Hlo H) as (L & HL & Hb).
  destruct (malloc_loop_spec base can_grow lo Hbase Hgrow _ L A (nunits_of n) fuel HL Hk Hc Hfuel) as (r & s' & L' & E & R).
  exists r, s'. split; [done|]. destruct R as [(-> & Hi & Hg & _)|[Hr Hi]]; [left|right].
  - split; [done|]. split; [right; eauto|]. by rewrite <- Hb.
  - split; [done|]. right. eauto.
Qed.

Lemma um_free_live s A1 a k A2 : heap_ok base lo s (A1 ++ (a, k) :: A2) ->
  exists s', free fuel (a + sizeof_Header) s = Some s' /\ heap_ok base lo s' (A1 ++ A2).
Proof.
  intros [(_ & _ & E)|[L H]]; [by destruct A1|].
  assert (H' : heap_inv base lo s L ((a, k) :: A1 ++ A2)).
  { destruct H as [HR HA HT Hb]. split; [done| | |done].
    - by rewrite Permutation_middle.
    - eapply tiles_perm; [|exact HT]. solve_Permutation. }
  pose proof (ring_length base lo Hbase s L _ H'). destruct (um_free_spec base can_grow lo Hbase s L a k (A1 ++ A2) fuel H') as (s' & L' & E & Hi & _); [lia|].
  exists s'. split; [done|]. right. eauto.
Qed.

Lemma reach_ok s A : reach base can_grow lo fuel s A -> heap_ok base lo s A.
Proof.
  induction 1 as [s Hf Hb|s A n r s' H IH Hn E|s A1 a k A2 s' H IH E].
  - by left.
  - destruct (malloc_spec s A n IH Hn) as (r1 & s1 & E1 & R). rewrite E in E1. injection E1 as <- <-.
    destruct R as [(-> & Hi & _)|[Hr Hi]]; [done|]. by apply Z.eqb_neq in Hr as ->.
  - destruct (um_free_live s A1 a k A2 IH) as (s1 & E1 & Hi). rewrite E in E1. by injection E1 as <-.
Qed.

Lemma heap_ok_live s A : heap_ok base lo s A -> Forall (inside lo (brk s)) A /\ all_apart A.
Proof.
  intros [(_ & _ & ->)|[L [_ _ [T1 T2 _] _]]]; [done|]. apply Forall_app in T1 as [_ T1]. split; [done|].
  clear -T2. induction L as [|b L IH]; [done|]. destruct T2 as [_ T2]. by apply IH.
Qed.
End Safe.

(** C34: The allocator is safe and loses nothing, for requests of at most
    2^31 - 32 bytes ([max_request]) and blocks freed once: after any sequence of such calls of
    [malloc] and [free], the blocks the program holds are apart and inside the memory
    got from the kernel, which they and the free list divide without rest; the next
    call returns, and [malloc] returns 0 only when the kernel refuses memory,
    else a block with room for the request that the program does not hold already.
    A larger request makes the argument of [sbrk] negative ([malloc_negative_sbrk]). *)
Theorem umalloc_safe base can_grow lo fuel s A :
  0 < base < lo -> lo < 2 ^ 31 -> (forall b n, can_grow b n = true -> b + n < 2 ^ 31) -> 2 ^ 31 <= Z.of_nat fuel ->
  reach base can_grow lo fuel s A ->
  (Forall (inside lo (brk s)) A /\ all_apart A) /\
  (freep s <> 0 -> exists L, ring base s L /\ tiles lo (brk s) (L ++ A)) /\
  (forall n, 0 <= n <= max_request -> exists r s', malloc base can_grow fuel n s = Some (r, s') /\
     (r = 0 /\ can_grow (brk s) (core_units (nunits_of n) * sizeof_Header) = false \/
      r <> 0 /\ inside lo (brk s') (r - sizeof_Header, nunits_of n) /\ r + n <= bend (r - sizeof_Header, nunits_of n) /\
      Forall (apart (r - sizeof_Header, nunits_of n)) A)) /\
  (forall a k, (a, k) ∈ A -> exists s', free fuel (a + sizeof_Header) s = Some s').
Proof.
  intros Hbase Hlo Hgrow Hfuel H. apply reach_ok in H; try done. split; [by eapply heap_ok_live|]. split; [|split].
  - intros Hf. destruct H as [(? & _)|[L [HR _ HT _]]]; [done|eauto].
  - intros n Hn. destruct (malloc_spec base can_grow lo fuel Hbase Hlo Hgrow Hfuel s A n H Hn) as (r & s' & E & R).
    exists r, s'. split; [done|]. destruct R as [(-> & _ & Hg)|[Hr Hi]]; [by left|right].
    apply heap_ok_live in Hi as [T1 T2]. apply Forall_cons in T1 as [T1 _]. destruct T2 as [T2 _]. split; [done|]. split; [done|]. split; [|done].
    destruct (nunits_spec n Hn) as (_ & ? & _). unfold bend. cbn [Datatypes.fst Datatypes.snd]. lia.
  - intros a k Hin. apply list_elem_of_split in Hin as (A1 & A2 & ->). destruct (um_free_live base can_grow lo fuel Hbase Hfuel s A1 a k A2 H) as (s' & E & _). eauto.
Qed.

Definition um0 : um := {| ptr := fun _ => 0; size := fun _ => 0; freep := 0; brk := 0x3000 |}.

(** A machine with 64 MB for the program. *)
Definition grow64 (b n : Z) : bool := b + n <? 0x4000000.

Lemma umalloc_safe_witness : exists r s', malloc 0x1000 grow64 (Z.to_nat (2 ^ 31)) 100 um0 = Some (r, s') /\
     (r = 0 /\ grow64 (brk um0) (core_units (nunits_of 100) * sizeof_Header) = false \/
      r <> 0 /\ inside 0x3000 (brk s') (r - sizeof_Header, nunits_of 100) /\ r + 100 <= bend (r - sizeof_Header, nunits_of 100) /\
      Forall (apart (r - sizeof_Header, nunits_of 100)) []).
Proof.
  apply (umalloc_safe 0x1000 grow64 0x3000 (Z.to_nat (2 ^ 31)) um0 []); [lia|lia|unfold grow64; lia|lia|by apply reach_start|unfold max_request; lia].
Defined.

(** A request of 2^31 - 16 bytes is not refused: its size is negative as the
    [int] that [sbrk] takes, so the kernel reports success without giving memory, and
    [malloc] returns a block behind the end of the process. *)
Theorem malloc_negative_sbrk can_grow : exists s', malloc 0x1000 can_grow 10 (2 ^ 31 - 16) um0 = Some (0x3010, s') /\ brk s' = 0x3000.
Proof. exists (default (0, um0) (malloc 0x1000 can_grow 10 (2 ^ 31 - 16) um0)).2. vm_compute. by split. Qed.
