(* ===== verification/Mkfs.v ===== *)
(** * [mkfs/mkfs.c]: making the disk image

    The image is a list of [FSSIZE] sectors; [freeinode] and [freeblock] are the
    counters of the program.  The program runs on a little-endian machine, where
    [xint] and [xshort] change nothing.  A failed assertion and a call of [exit(1)]
    are a [Panic].  A file to put into the image is its name and the pieces in
    which [read] delivers it.  A [struct dinode] is the record [inode] of the file
    system with only the fields of the disk. *)
From stdpp Require Import base list gmap strings.
From Stdlib Require Import ZArith Lia.
From S2P Require Import Prelude KString DList Sleeplock Bio Log LogCrash LogOps Riscv Kalloc Vm Blocks Fs.

#[local] Open Scope Z_scope.
#[local] Open Scope xv6_scope.

Module Mkfs.

Definition FSSIZE : Z := 2000.
Definition NINODES : Z := 200.

Definition nbitmap : Z := FSSIZE / (BSIZE * 8) + 1.
Definition ninodeblocks : Z := NINODES / IPB + 1.
Definition nlog : Z := LOGSIZE.
Definition nmeta : Z := 2 + nlog + ninodeblocks + nbitmap.
Definition nblocks : Z := FSSIZE - nmeta.

Record mk : Type := Mk {
  disk : Z -> block;
  freeinode : Z;
  freeblock : Z
}.
#[export] Instance mk_eta : Eta mk := fun r => Mk (disk r) (freeinode r) (freeblock r).

(** [y] has the bytes of [x] in the order of the disk. *)
Definition xshort (x : Z) : Z := u16 x.
Definition xint (x : Z) : Z := u32 x.

Definition sb : superblock :=
  Superblock FSMAGIC (xint FSSIZE) (xint nblocks) (xint NINODES) (xint nlog) (xint 2) (xint (2 + nlog)) (xint (2 + nlog + ninodeblocks)).

(** [memmove(buf, &sb, sizeof(sb))] on a block of zeros. *)
Definition sb_block : block :=
  put_addrs 0 [sb_magic sb; sb_size sb; sb_nblocks sb; sb_ninodes sb; sb_nlog sb; sb_logstart sb; sb_inodestart sb; sb_bmapstart sb] zero_block.

Definition wsect (sec : Z) (buf : block) : M mk unit := modify (fun s => s <| disk := upd (disk s) sec buf |>).

(** Behind the last sector there is nothing to read. *)
Definition rsect (sec : Z) : M mk block :=
  fun s => if sec <? FSSIZE then Ok (disk s sec) s else Panic "read".

Definition winode (inum : Z) (ip : inode) : M mk unit :=
  buf ← rsect (IBLOCK inum sb) ;
  wsect (IBLOCK inum sb) (put_dinode ip (dip inum) buf).

(** [bzero(&din, sizeof(din))] *)
Definition din0 : inode :=
  Inode 0 0 0 (Sleeplock false false 0) false 0 0 0 0 0 (replicate 13 0).

Definition rinode (inum : Z) : M mk inode :=
  buf ← rsect (IBLOCK inum sb) ;
  ret (get_dinode buf (dip inum) din0).

Definition ialloc (type : Z) : M mk Z :=
  inum ← gets freeinode ;
  modify (fun s => s <| freeinode := u32 (freeinode s + 1) |>) ;;
  winode inum (din0 <| i_type := xshort type |> <| i_nlink := xshort 1 |> <| i_size := xint 0 |>) ;;
  ret inum.

(** The bits of the blocks below [used], from bit [i] on. *)
Fixpoint mark_bits (n : nat) (i : Z) (buf : block) : block :=
  match n with
  | O => buf
  | S n => mark_bits n (i + 1) (set_bit buf i)
  end.

Definition balloc (used : Z) : M mk unit :=
  if negb (used <? BSIZE * 8) then panic "assert" else
  wsect (sb_bmapstart sb) (mark_bits (Z.to_nat used) 0 zero_block).

(** [freeblock++] *)
Definition next_block : M mk Z :=
  b ← gets freeblock ;
  modify (fun s => s <| freeblock := u32 (freeblock s + 1) |>) ;;
  ret b.

(** The block of a file for its bytes from [fbn * BSIZE] on, with the changed inode. *)
Definition file_sect (din : inode) (fbn : Z) : M mk (Z * inode) :=
  if fbn <? NDIRECT then
    din ← (if xint (i_addr din fbn) =? 0 then
             b ← next_block ; ret (din <| i_addrs := <[Z.to_nat fbn := xint b]> (i_addrs din) |>)
           else ret din) ;
    ret (xint (i_addr din fbn), din)
  else
    din ← (if xint (i_addr din NDIRECT) =? 0 then
             b ← next_block ; ret (din <| i_addrs := <[Z.to_nat NDIRECT := xint b]> (i_addrs din) |>)
           else ret din) ;
    indirect ← rsect (xint (i_addr din NDIRECT)) ;
    indirect ← (if get_word indirect (fbn - NDIRECT) =? 0 then
                  b ← next_block ;
                  let indirect := set_word indirect (fbn - NDIRECT) (xint b) in
                  wsect (xint (i_addr din NDIRECT)) indirect ;;
                  ret indirect
                else ret indirect) ;
    ret (xint (get_word indirect (fbn - NDIRECT)), din).

(** The loop: [p] are the bytes still to write; every turn writes at least one. *)
Fixpoint iappend_loop (k : nat) (din : inode) (off : Z) (p : list Z) : M mk (inode * Z) :=
  match k, p with
  | O, _ | _, [] => ret (din, off)
  | S k, _ =>
      let fbn := off / BSIZE in
      if negb (fbn <? MAXFILE) then panic "assert" else
      '(x, din) ← file_sect din fbn ;
      let n1 := Z.min (Z.of_nat (length p)) ((fbn + 1) * BSIZE - off) in
      buf ← rsect x ;
      wsect x (splice (Z.to_nat (off - fbn * BSIZE)) (take (Z.to_nat n1) p) buf) ;;
      iappend_loop k din (off + n1) (drop (Z.to_nat n1) p)
  end.

Definition iappend (inum : Z) (xp : list Z) : M mk unit :=
  din ← rinode inum ;
  '(din, off) ← iappend_loop (length xp) din (xint (i_size din)) xp ;
  winode inum (din <| i_size := xint off |>).

(** A [struct dirent] with [strncpy(de.name, name, DIRSIZ)]. *)
Definition dirent (inum : Z) (name : list Z) : list Z := le_bytes 2 (xshort inum) ++ dirent_name name.

Definition user_dir : list Z := [117; 115; 101; 114; 47].

(** The name in the image, or nothing when it has a slash. *)
Definition shortname (arg : list Z) : option (list Z) :=
  let s := if decide (take 5 arg = user_dir) then drop 5 arg else arg in
  if decide (SLASH ∈ s) then None else
  Some (match s with c :: t => if c =? 95 then t else s | [] => s end).

Fixpoint append_all (inum : Z) (pieces : list (list Z)) : M mk unit :=
  match pieces with
  | [] => ret tt
  | p :: pieces => iappend inum p ;; append_all inum pieces
  end.

Definition add_file (rootino : Z) (f : list Z * list (list Z)) : M mk unit :=
  match shortname f.1 with
  | None => panic "assert"
  | Some name =>
      inum ← ialloc T_FILE ;
      iappend rootino (dirent inum name) ;;
      append_all inum f.2
  end.

Fixpoint add_files (rootino : Z) (fs : list (list Z * list (list Z))) : M mk unit :=
  match fs with
  | [] => ret tt
  | f :: fs => add_file rootino f ;; add_files rootino fs
  end.

(** [wsect(i, zeroes)] for every sector from [i] on. *)
Fixpoint zero_sects (n : nat) (i : Z) : M mk unit :=
  match n with
  | O => ret tt
  | S n => wsect i zero_block ;; zero_sects n (i + 1)
  end.

(** "fix size of root inode dir" *)
Definition fix_root (rootino : Z) : M mk unit :=
  din ← rinode rootino ;
  let off := xint (i_size din) in
  winode rootino (din <| i_size := xint ((off / BSIZE + 1) * BSIZE) |>).

Definition main (fs : list (list Z * list (list Z))) : M mk unit :=
  modify (fun s => s <| freeblock := nmeta |>) ;;
  zero_sects (Z.to_nat FSSIZE) 0 ;;
  wsect 1 sb_block ;;
  rootino ← ialloc T_DIR ;
  if negb (rootino =? ROOTINO) then panic "assert" else
  iappend rootino (dirent rootino [46]) ;;
  iappend rootino (dirent rootino [46; 46]) ;;
  add_files rootino fs ;;
  fix_root rootino ;;
  used ← gets freeblock ;
  balloc used.

End Mkfs.
