(* ===== verification/MkfsView.v ===== *)
(** * The image of [mkfs/mkfs.c] as a file system

    [mview] relates the state of the program to the view of a device that the
    file-system lemmas speak about: the same blocks, and a bitmap in which the blocks below
    [freeblock] are in use, though the program writes the bitmap only at the end.
    [iappend] then does to a file what [fupd] describes, and the lemmas about allocation
    and writing of the file system apply to it. *)
From stdpp Require Import base list gmap strings.
From Stdlib Require Import ZArith Lia.
From S2P Require Import Prelude KString Sleeplock Bio Riscv Kalloc Vm VmSpec VmUser VmCopy Blocks Fs FsBlock FsInode FsMeta FsFile Mkfs.

#[local] Open Scope Z_scope.
#[local] Open Scope xv6_scope.

Import Mkfs.

Lemma sb_fields : sb_size sb = 2000 /\ sb_ninodes sb = 200 /\ sb_inodestart sb = 32 /\ sb_bmapstart sb = 45 /\ nmeta = 46.
Proof. by vm_compute. Qed.

(** The device that holds the image. *)
Definition disk_dev : device := Device ROOTDEV 0 (fun n => 32 <= n < 2000).

Lemma mkfs_layout : layout disk_dev sb nmeta.
Proof. split; vm_compute; try done; split; congruence. Qed.

Lemma bmap_block_45 n : bmap_block sb n <-> n = 45.
Proof.
  destruct sb_fields as (E1 & _ & _ & E4 & _). unfold bmap_block. rewrite E1, E4. change ((2000 + BPB - 1) / BPB) with 1. lia.
Qed.

(** Blocks of the bitmap. *)
Definition Cb : gset Z := {[45]}.

Abbreviation quiet := (quiet sb nmeta Cb).
Abbreviation iwf := (iwf disk_dev sb nmeta).
Abbreviation grow := (grow sb nmeta).

Record mview (s : mk) (v : bview) : Prop := {
  mv_data : forall n, n <> 45 -> v_data v n = disk s n;
  mv_used : forall b, 0 <= b < 2000 -> used v sb b = (b <? freeblock s);
  mv_zero : forall b, freeblock s <= b < 2000 -> disk s b = zero_block;
  mv_held : v_held v = ∅;
  mv_quiet : quiet v;
  mv_range : 46 <= freeblock s <= 2000
}.

Lemma used_alloc_45 v b b' : quiet v -> 46 <= b < 2000 -> 0 <= b' < 2000 ->
  used (v_alloc v sb b) sb b' = if decide (b' = b) then true else used v sb b'.
Proof. intros Q Hb Hb'. apply (used_alloc disk_dev sb nmeta mkfs_layout Cb v b b'); [done|exact Hb|exact Hb']. Qed.

(** ** Taking the next block *)

Lemma next_block_spec s v : mview s v -> freeblock s < 2000 ->
  exists s', next_block s = Ok (freeblock s) s' /\ mview s' (v_alloc v sb (freeblock s)) /\ freeblock s' = freeblock s + 1 /\
    freeinode s' = freeinode s /\ disk s' = disk s /\ used v sb (freeblock s) = false.
Proof.
  intros [M1 M2 M3 M4 M5 M6] Hb. exists (s <| freeblock := freeblock s + 1 |>).
  split_and!; try done; [unfold next_block, modify, gets, bind, ret; rewrite u32_small by (zpow; lia); done| |rewrite M2 by lia; by rewrite Z.ltb_irrefl].
  split; cbn [disk freeblock field_update].
  - intros n Hn. unfold v_alloc. cbn. unfold upd. destruct (Z.eqb_spec n (freeblock s)) as [->|]; [by rewrite M3 by lia|].
    destruct (Z.eqb_spec n (BBLOCK (freeblock s) sb)) as [E|]; [|by apply M1].
    destruct (BBLOCK_eq disk_dev sb nmeta mkfs_layout (freeblock s)) as [_ Hbm]; [change (sb_size sb) with 2000; lia|].
    apply bmap_block_45 in Hbm. lia.
  - intros b Hbb. rewrite used_alloc_45 by (done || lia). rewrite M2 by done. case_decide; lia.
  - intros b Hbb. apply M3. lia.
  - done.
  - apply (quiet_alloc disk_dev sb nmeta mkfs_layout Cb v (freeblock s) M5). change nmeta with 46. change (sb_size sb) with 2000. lia.
  - lia.
Qed.

(** ** The blocks of a file that grows at its end *)

(** The file has the blocks of its first [off] bytes and no other. *)
Record tight (v : bview) (i : inode) (off : Z) : Prop := {
  tg_data : forall bn, 0 <= bn < MAXFILE -> fmap_ v i bn <> 0 <-> bn * BSIZE < off;
  tg_ind : i_addr i NDIRECT <> 0 <-> NDIRECT * BSIZE < off
}.

(** Blocks taken for a file of [off] bytes, and for the next byte. *)
Definition need (off : Z) : Z := (off + BSIZE - 1) / BSIZE + (if NDIRECT * BSIZE <? off then 1 else 0).

Definition upto (off n : Z) : Prop := 0 < n /\ off mod BSIZE + n <= BSIZE.

Lemma need_step off n : 0 <= off -> upto off n ->
  need (off + n) = need off + (if off mod BSIZE =? 0 then 1 else 0) + (if off =? NDIRECT * BSIZE then 1 else 0).
Proof.
  unfold need, upto. change BSIZE with 1024. change NDIRECT with 12. intros Ho [Hn Hu].
  destruct (Z.ltb_spec (12 * 1024) (off + n)), (Z.ltb_spec (12 * 1024) off), (Z.eqb_spec (off mod 1024) 0), (Z.eqb_spec off (12 * 1024)); zlia.
Qed.

(** In the block of offset [off] there is something before [off] unless it is the first byte. *)
Lemma tight_next v i off n : 0 <= off -> upto off n -> off / BSIZE < MAXFILE ->
  (forall bn, 0 <= bn < MAXFILE -> fmap_ v i bn <> 0 <-> bn * BSIZE < off \/ bn = off / BSIZE) ->
  (i_addr i NDIRECT <> 0 <-> NDIRECT * BSIZE < off \/ NDIRECT <= off / BSIZE) -> tight v i (off + n).
Proof.
  unfold upto. change BSIZE with 1024. change NDIRECT with 12. intros Ho [Hn Hu] Hm H1 H2. split.
  - intros bn Hbn. rewrite H1 by done. change BSIZE with 1024. zlia.
  - change NDIRECT with 12. change BSIZE with 1024. rewrite H2. zlia.
Qed.

(** ** The block for the next byte *)

(** What [file_sect] leaves: the file is as long as before and has the block of offset [off]. *)
Record placed (s : mk) (v : bview) (i : inode) (off x : Z) (s' : mk) (v' : bview) (i' : inode) : Prop := {
  pl_view : mview s' v';
  pl_iwf : iwf v' i';
  pl_grow : grow v i v' i';
  pl_x : x = fmap_ v' i' (off / BSIZE) /\ x <> 0;
  pl_data : forall bn, 0 <= bn < MAXFILE -> fmap_ v' i' bn <> 0 <-> bn * BSIZE < off \/ bn = off / BSIZE;
  pl_ind : i_addr i' NDIRECT <> 0 <-> NDIRECT * BSIZE < off \/ NDIRECT <= off / BSIZE;
  pl_free : freeblock s' = freeblock s + (if off mod BSIZE =? 0 then 1 else 0) + (if off =? NDIRECT * BSIZE then 1 else 0);
  pl_inode : freeinode s' = freeinode s
}.

Ltac mklia := change NDIRECT with 12 in *; change NINDIRECT with 256 in *; change MAXFILE with 268 in *; change BSIZE with 1024 in *; zlia.

Lemma addr_range v i bn : iwf v i -> 0 <= bn < MAXFILE -> 0 <= fmap_ v i bn < 2000.
Proof.
  intros W Hbn. destruct (decide (fmap_ v i bn = 0)) as [->|N]; [lia|]. destruct (iw_data _ _ _ _ _ W bn Hbn N) as [H _].
  change nmeta with 46 in H. change (sb_size sb) with 2000 in H. lia.
Qed.

Lemma ind_range v i : iwf v i -> 0 <= i_addr i NDIRECT < 2000.
Proof.
  intros W. destruct (decide (i_addr i NDIRECT = 0)) as [->|N]; [lia|]. destruct (iw_ind _ _ _ _ _ W N) as [H _].
  change nmeta with 46 in H. change (sb_size sb) with 2000 in H. lia.
Qed.

Lemma xint_small x : 0 <= x < 2000 -> xint x = x.
Proof. intros H. apply u32_small. zpow. lia. Qed.

Lemma fmap_direct v i bn : bn < NDIRECT -> fmap_ v i bn = i_addr i bn.
Proof. intros H. unfold fmap_. by rewrite (proj2 (Z.ltb_lt _ _)). Qed.

Lemma file_sect_direct s v i off : mview s v -> iwf v i -> tight v i off -> 0 <= off -> off / BSIZE < NDIRECT ->
  freeblock s + (if off mod BSIZE =? 0 then 1 else 0) <= 2000 ->
  exists x s' v' i', file_sect i (off / BSIZE) s = Ok (x, i') s' /\ placed s v i off x s' v' i'.
Proof.
  intros MV W T Ho Hd Hf. set (fbn := off / BSIZE) in *. assert (Hbn : 0 <= fbn < MAXFILE) by (unfold fbn in *; mklia).
  pose proof (addr_range v i fbn W Hbn) as Hr. rewrite fmap_direct in Hr by done. pose proof (tg_data _ _ _ T) as TD. pose proof (tg_ind _ _ _ T) as TI.
  assert (Hno : (off =? NDIRECT * BSIZE) = false) by (apply Z.eqb_neq; unfold fbn in *; mklia).
  unfold file_sect. rewrite (proj2 (Z.ltb_lt _ _)) by done. rewrite (xint_small (i_addr i fbn)) by done. destruct (Z.eqb_spec (i_addr i fbn) 0) as [E|N].
  - assert (Hm0 : (off mod BSIZE =? 0) = true).
    { apply Z.eqb_eq. assert (~ fbn * BSIZE < off) by (rewrite <- TD by done; rewrite fmap_direct by done; lia). unfold fbn in *; mklia. }
    rewrite Hm0 in Hf. destruct (next_block_spec s v MV) as (s' & En & MV' & F1 & F2 & F3 & Hu); [lia|]. pose proof (mv_range _ _ MV).
    set (b := freeblock s) in *. assert (Hb : nmeta <= b < sb_size sb) by (change nmeta with 46; change (sb_size sb) with 2000; lia).
    destruct (alloc_direct disk_dev sb nmeta mkfs_layout Cb v i b (mv_quiet _ _ MV) W Hb Hu fbn) as (W' & G & Eb); [lia|done|].
    exists b, s', (v_alloc v sb b), (i <| i_addrs := <[Z.to_nat fbn := b]> (i_addrs i) |>). split.
    + unfold bind. rewrite En. unfold ret. rewrite (xint_small b) by lia. rewrite i_addr_set by (apply W || lia). rewrite decide_True by done. by rewrite (xint_small b) by lia.
    + split; auto.
      * split; [done|lia].
      * intros bn Hbn'. rewrite (alloc_direct_fmap disk_dev sb nmeta mkfs_layout v i b W) by (done || lia).
        case_decide; [split; [auto|lia]|]. rewrite TD by done. fold fbn. tauto.
      * rewrite i_addr_set by (apply W || lia || done). rewrite decide_False by lia. rewrite TI. fold fbn. mklia.
      * rewrite Hno, Hm0, F1. lia.
  - assert (Hm0 : (off mod BSIZE =? 0) = false).
    { apply Z.eqb_neq. assert (fbn * BSIZE < off) by (apply TD; [done|by rewrite fmap_direct]). unfold fbn in *; mklia. }
    exists (i_addr i fbn), s, v, i. split; [unfold bind, ret; by rewrite xint_small|]. split; auto; [apply grow_refl|split; [by rewrite fmap_direct|done]| | |].
    + intros bn Hbn'. rewrite TD by done. fold fbn. assert (fbn * BSIZE < off) by (apply TD; [done|by rewrite fmap_direct]). split; [auto|]. intros [?| ->]; done.
    + rewrite TI. fold fbn. mklia.
    + rewrite Hno, Hm0. lia.
Qed.

(** The indirect block, made when it is needed for the first time. *)
Definition ind_sect (din : inode) : M mk inode :=
  if xint (i_addr din NDIRECT) =? 0 then
    b ← next_block ; ret (din <| i_addrs := <[Z.to_nat NDIRECT := xint b]> (i_addrs din) |>)
  else ret din.

Lemma ind_sect_spec s v i off : mview s v -> iwf v i -> tight v i off -> 0 <= off -> NDIRECT <= off / BSIZE < MAXFILE ->
  freeblock s + (if off =? NDIRECT * BSIZE then 1 else 0) <= 2000 ->
  exists s' v' i', ind_sect i s = Ok i' s' /\ mview s' v' /\ iwf v' i' /\ grow v i v' i' /\ i_addr i' NDIRECT <> 0 /\
    (forall bn, 0 <= bn < MAXFILE -> fmap_ v' i' bn = fmap_ v i bn) /\
    freeblock s' = freeblock s + (if off =? NDIRECT * BSIZE then 1 else 0) /\ freeinode s' = freeinode s.
Proof.
  intros MV W T Ho Hd Hf. pose proof (ind_range v i W) as Hr. pose proof (tg_ind _ _ _ T) as TI. unfold ind_sect.
  rewrite (xint_small (i_addr i NDIRECT)) by done. destruct (Z.eqb_spec (i_addr i NDIRECT) 0) as [E|N].
  - assert (Hm0 : (off =? NDIRECT * BSIZE) = true) by (apply Z.eqb_eq; assert (~ NDIRECT * BSIZE < off) by (rewrite <- TI; lia); mklia).
    rewrite Hm0 in *. destruct (next_block_spec s v MV) as (s' & En & MV' & F1 & F2 & F3 & Hu); [lia|]. pose proof (mv_range _ _ MV).
    set (b := freeblock s) in *. assert (Hb : nmeta <= b < sb_size sb) by (change nmeta with 46; change (sb_size sb) with 2000; lia).
    destruct (alloc_ind disk_dev sb nmeta mkfs_layout Cb v i b (mv_quiet _ _ MV) W Hb Hu E) as (W' & G & Eb).
    exists s', (v_alloc v sb b), (i <| i_addrs := <[Z.to_nat NDIRECT := b]> (i_addrs i) |>).
    split; [unfold bind; rewrite En; unfold ret; by rewrite (xint_small b) by lia|]. split_and!; auto; [lia|].
    intros bn Hbn. by apply (alloc_ind_fmap disk_dev sb nmeta v i b W).
  - assert (Hm0 : (off =? NDIRECT * BSIZE) = false) by (apply Z.eqb_neq; assert (NDIRECT * BSIZE < off) by (by apply TI); mklia).
    exists s, v, i. rewrite Hm0. split_and!; auto; [apply grow_refl|lia].
Qed.

Lemma file_sect_ind i fbn : NDIRECT <= fbn -> file_sect i fbn =
  (din ← ind_sect i ;
   indirect ← rsect (xint (i_addr din NDIRECT)) ;
   indirect ← (if get_word indirect (fbn - NDIRECT) =? 0 then
                 b ← next_block ;
                 let indirect := set_word indirect (fbn - NDIRECT) (xint b) in
                 wsect (xint (i_addr din NDIRECT)) indirect ;;
                 ret indirect
               else ret indirect) ;
   ret (xint (get_word indirect (fbn - NDIRECT)), din)).
Proof. intros H. unfold file_sect. by rewrite (proj2 (Z.ltb_ge _ _)). Qed.

(** Writing a block of the data area. *)
Lemma mview_write s v n d : mview s v -> 46 <= n < 2000 -> n < freeblock s -> block_ok d -> mview (s <| disk := upd (disk s) n d |>) (v_write v n d).
Proof.
  intros [M1 M2 M3 M4 M5 M6] Hn Hf Hd. assert (Hnb : ~ bmap_block sb n) by (rewrite bmap_block_45; lia). split; cbn [disk freeblock field_update]; auto.
  - intros k Hk. cbn. unfold upd. destruct (k =? n); [done|by apply M1].
  - intros b Hb. rewrite (write_used disk_dev sb nmeta mkfs_layout) by done. by apply M2.
  - intros b Hb. unfold upd. destruct (Z.eqb_spec b n); [lia|by apply M3].
  - by apply (write_quiet disk_dev sb nmeta mkfs_layout).
Qed.

Lemma rsect_view s v n : mview s v -> 46 <= n < 2000 -> rsect n s = Ok (v_data v n) s.
Proof. intros MV Hn. unfold rsect. rewrite (proj2 (Z.ltb_lt _ _)) by (unfold FSSIZE; lia). by rewrite (mv_data _ _ MV) by lia. Qed.

Lemma fmap_indirect v i bn : NDIRECT <= bn -> i_addr i NDIRECT <> 0 -> fmap_ v i bn = get_word (v_data v (i_addr i NDIRECT)) (bn - NDIRECT).
Proof. intros H N. unfold fmap_. rewrite (proj2 (Z.ltb_ge _ _)) by done. by rewrite (proj2 (Z.eqb_neq _ _)). Qed.

(** A new entry of the indirect block. *)
Lemma entry_spec s v i fbn : mview s v -> iwf v i -> NDIRECT <= fbn < MAXFILE -> i_addr i NDIRECT <> 0 -> fmap_ v i fbn = 0 -> freeblock s < 2000 ->
  let ind := i_addr i NDIRECT in let b := freeblock s in let d := set_word (v_data v ind) (fbn - NDIRECT) b in
  exists s', (b ← next_block ; wsect ind (set_word (v_data v ind) (fbn - NDIRECT) (xint b)) ;; ret (set_word (v_data v ind) (fbn - NDIRECT) (xint b))) s = Ok d s' /\
    mview s' (v_write (v_alloc v sb b) ind d) /\ iwf (v_write (v_alloc v sb b) ind d) i /\ grow v i (v_write (v_alloc v sb b) ind d) i /\
    (forall bn, 0 <= bn < MAXFILE -> fmap_ (v_write (v_alloc v sb b) ind d) i bn = if decide (bn = fbn) then b else fmap_ v i bn) /\
    freeblock s' = b + 1 /\ freeinode s' = freeinode s.
Proof.
  intros MV W Hbn Hne Hz Hf ind b d. destruct (next_block_spec s v MV Hf) as (s1 & En & MV1 & F1 & F2 & F3 & Hu). fold b in En, MV1, F1, Hu, Hf. pose proof (mv_range _ _ MV).
  assert (Hb : nmeta <= b < sb_size sb) by (change nmeta with 46; change (sb_size sb) with 2000; lia).
  assert (Hj : 0 <= fbn - NDIRECT < NINDIRECT) by mklia.
  assert (Hz' : get_word (v_data v ind) (fbn - NDIRECT) = 0) by (unfold ind; rewrite <- fmap_indirect; auto; lia).
  destruct (alloc_entry disk_dev sb nmeta mkfs_layout Cb v i b (mv_quiet _ _ MV) W Hb Hu _ Hj Hne Hz') as (W' & G & Q' & _).
  destruct (iw_ind _ _ _ _ _ W Hne) as (Hir & Hiu & _). change nmeta with 46 in Hir. change (sb_size sb) with 2000 in Hir. fold ind in Hir, Hiu.
  rewrite (mv_used _ _ MV) in Hiu by lia. assert (Hd : block_ok d) by (apply set_word_ok; [apply (mv_quiet _ _ MV)|done]).
  exists (s1 <| disk := upd (disk s1) ind d |>). split; [|split_and!; auto].
  - unfold bind. rewrite En. unfold wsect, modify, ret. by rewrite (xint_small b) by lia.
  - apply mview_write; [done|lia|lia|done].
  - intros bn Hbn'. unfold d, ind. rewrite (alloc_entry_fmap disk_dev sb nmeta mkfs_layout Cb v i b (mv_quiet _ _ MV) Hb) by done.
    replace (NDIRECT + (fbn - NDIRECT)) with fbn by lia. done.
Qed.

Lemma file_sect_indirect s v i off : mview s v -> iwf v i -> tight v i off -> 0 <= off -> NDIRECT <= off / BSIZE < MAXFILE ->
  freeblock s + (if off mod BSIZE =? 0 then 1 else 0) + (if off =? NDIRECT * BSIZE then 1 else 0) <= 2000 ->
  exists x s' v' i', file_sect i (off / BSIZE) s = Ok (x, i') s' /\ placed s v i off x s' v' i'.
Proof.
  intros MV W T Ho Hd Hf. rewrite file_sect_ind by lia. set (fbn := off / BSIZE) in *.
  destruct (ind_sect_spec s v i off MV W T Ho Hd) as (s1 & v1 & i1 & E1 & MV1 & W1 & G1 & N1 & M1 & F1 & FI1); [destruct (_ =? 0); lia|].
  destruct (iw_ind _ _ _ _ _ W1 N1) as (Hir & _). change nmeta with 46 in Hir. change (sb_size sb) with 2000 in Hir.
  assert (Hbn : 0 <= fbn < MAXFILE) by mklia. pose proof (addr_range _ _ _ W1 Hbn) as Hxr.
  rewrite (bind_Ok _ _ _ _ _ E1), xint_small by lia. rewrite (bind_Ok _ _ _ _ _ (rsect_view _ _ _ MV1 Hir)).
  rewrite <- (fmap_indirect v1 i1 fbn) by (done || lia). pose proof (tg_data _ _ _ T) as TD.
  assert (HTI : i_addr i1 NDIRECT <> 0 <-> NDIRECT * BSIZE < off \/ NDIRECT <= fbn) by (split; [intros _; right; lia|done]).
  assert (HTF : fmap_ v1 i1 fbn = 0 <-> off mod BSIZE = 0).
  { rewrite M1 by done. assert (fmap_ v i fbn <> 0 <-> fbn * BSIZE < off) as HX by (by apply TD). unfold fbn in *.
    destruct (decide (fmap_ v i (off / BSIZE) = 0)) as [E|N]; [|assert (off / BSIZE * BSIZE < off) by tauto; split; [done|mklia]].
    split; [intros _|done]. assert (~ off / BSIZE * BSIZE < off) by tauto. mklia. }
  destruct (Z.eqb_spec (fmap_ v1 i1 fbn) 0) as [E|N].
  - assert (Hm0 : (off mod BSIZE =? 0) = true) by (by apply Z.eqb_eq, HTF). rewrite Hm0 in *.
    destruct (entry_spec s1 v1 i1 fbn MV1 W1 Hd N1 E) as (s2 & E2 & MV2 & W2 & G2 & M2 & F2 & FI2); [lia|]. pose proof (mv_range _ _ MV1) as Hr1.
    rewrite (bind_Ok _ _ _ _ _ E2). set (b := freeblock s1) in *. set (d := set_word _ _ b) in *. set (v2 := v_write _ _ d) in *.
    assert (Eb : get_word d (fbn - NDIRECT) = b).
    { unfold d. rewrite get_word_set; [|apply (mv_quiet _ _ MV1)|mklia|mklia]. rewrite decide_True by done. apply (xint_small b). lia. }
    exists b, s2, v2, i1. rewrite Eb, xint_small by lia. split; [done|]. split; auto.
    + by apply (grow_trans disk_dev sb nmeta mkfs_layout v i v1 i1).
    + fold fbn. rewrite M2 by done. rewrite decide_True by done. split; [done|lia].
    + intros bn Hbn'. rewrite M2 by done. fold fbn. case_decide; [split; [auto|lia]|]. rewrite M1, TD by done. tauto.
    + rewrite Hm0, F2, F1. lia.
    + by rewrite FI2.
  - assert (Hm0 : (off mod BSIZE =? 0) = false) by (apply Z.eqb_neq; tauto). rewrite Hm0 in *.
    exists (fmap_ v1 i1 fbn), s1, v1, i1. rewrite (fmap_indirect v1 i1 fbn) by (done || lia). split; [|split; auto].
    + unfold bind, ret. rewrite <- (fmap_indirect v1 i1 fbn) by (done || lia). by rewrite xint_small.
    + by rewrite <- (fmap_indirect v1 i1 fbn) by (done || lia).
    + intros bn Hbn'. rewrite M1, TD by done. fold fbn. split; [auto|]. intros [?| ->]; [done|]. apply TD; [done|]. by rewrite <- M1.
    + rewrite Hm0, F1. lia.
Qed.

Lemma file_sect_spec s v i off n : mview s v -> iwf v i -> tight v i off -> 0 <= off -> off / BSIZE < MAXFILE -> upto off n ->
  freeblock s + need (off + n) - need off <= 2000 ->
  exists x s' v' i', file_sect i (off / BSIZE) s = Ok (x, i') s' /\ placed s v i off x s' v' i'.
Proof.
  intros MV W T Ho Hd Hu Hf. rewrite need_step in Hf by done. destruct (Z.lt_ge_cases (off / BSIZE) NDIRECT).
  - apply file_sect_direct; auto. destruct (off =? _); lia.
  - apply file_sect_indirect; auto. lia.
Qed.

(** ** The loop of [iappend] *)

Lemma need_mono a n : 0 <= a -> 0 <= n -> need a <= need (a + n).
Proof.
  intros Ha Hn. unfold need. change BSIZE with 1024. change NDIRECT with 12.
  destruct (Z.ltb_spec (12 * 1024) a), (Z.ltb_spec (12 * 1024) (a + n)); zlia.
Qed.

Lemma grow_rest v i v' i' : grow v i v' i' -> i_type i' = i_type i /\ i_nlink i' = i_nlink i /\ i_size i' = i_size i.
Proof. intros [E _ _ _ _ _ _ _]. rewrite E. done. Qed.

(** One turn writes the bytes up to the end of the block. *)
Lemma append_turn s v i v0 i0 off0 bs ch : let off := off0 + Z.of_nat (length bs) in
  mview s v -> iwf v i -> tight v i off -> wrote_file sb nmeta v0 i0 off0 bs v i -> 0 <= off0 -> off / BSIZE < MAXFILE ->
  upto off (Z.of_nat (length ch)) -> Forall is_byte ch -> freeblock s + need (off + Z.of_nat (length ch)) - need off <= 2000 ->
  exists x s1 s2 v2 i2, file_sect i (off / BSIZE) s = Ok (x, i2) s1 /\ 46 <= x < 2000 /\ mview s1 v2 /\
    let d := splice (Z.to_nat (off mod BSIZE)) ch (v_data v2 x) in
    s2 = s1 <| disk := upd (disk s1) x d |> /\ mview s2 (v_write v2 x d) /\ iwf (v_write v2 x d) i2 /\
    wrote_file sb nmeta v0 i0 off0 (bs ++ ch) (v_write v2 x d) i2 /\ tight (v_write v2 x d) i2 (off + Z.of_nat (length ch)) /\
    freeblock s2 = freeblock s + need (off + Z.of_nat (length ch)) - need off /\ freeinode s2 = freeinode s.
Proof.
  intros off MV W T WR Ho0 Hmax Hu Hby Hf. assert (Ho : 0 <= off) by lia. assert (Hbn : 0 <= off / BSIZE < MAXFILE) by mklia.
  destruct (file_sect_spec s v i off (Z.of_nat (length ch)) MV W T Ho Hmax Hu Hf) as (x & s1 & v2 & i2 & E & [MV2 W2 G [Ex Nx] PD PI PF PN]).
  destruct (iw_data _ _ _ _ _ W2 _ Hbn) as (Hr & Hus & _); [by rewrite <- Ex|]. rewrite <- Ex in Hr, Hus.
  change nmeta with 46 in Hr. change (sb_size sb) with 2000 in Hr. rewrite (mv_used _ _ MV2) in Hus by lia.
  destruct (file_chunk disk_dev sb nmeta mkfs_layout Cb v0 i0 off0 bs v i v2 i2 ch) as (WR' & W' & Q'); auto; fold off; try done.
  { unfold upto in Hu. lia. }
  { apply MV2. }
  { by rewrite <- Ex. }
  fold off in WR', W', Q'. rewrite <- Ex in WR', W', Q'.
  eexists x, s1, _, v2, i2. split; [done|]. split; [done|]. split; [done|]. split; [done|].
  assert (Hd : block_ok (splice (Z.to_nat (off mod BSIZE)) ch (v_data v2 x))).
  { destruct (qt_block _ _ _ _ (mv_quiet _ _ MV2) x) as [Hl Hb]. split; [|by apply Forall_splice]. rewrite length_splice; [done|]. rewrite Hl. unfold upto in Hu. mklia. }
  split; [apply mview_write; [done|lia|lia|done]|]. split; [done|]. split; [done|].
  split; [|split; [cbn; rewrite PF, need_step by done; lia|cbn; done]].
  apply (tight_next _ _ off); auto.
  intros bn Hbn'. rewrite write_fmap; [by apply PD|]. intros _. rewrite Ex. apply (iw_sep _ _ _ _ _ W2); [done|by rewrite <- Ex].
Qed.

Lemma iappend_loop_spec k : forall p s v i v0 i0 off0 bs, let off := off0 + Z.of_nat (length bs) in
  mview s v -> iwf v i -> tight v i off -> wrote_file sb nmeta v0 i0 off0 bs v i -> 0 <= off0 -> (length p <= k)%nat ->
  off + Z.of_nat (length p) <= MAXFILE * BSIZE -> Forall is_byte p -> freeblock s + need (off + Z.of_nat (length p)) - need off <= 2000 ->
  exists s' v' i', iappend_loop k i off p s = Ok (i', off + Z.of_nat (length p)) s' /\ mview s' v' /\ iwf v' i' /\
    tight v' i' (off + Z.of_nat (length p)) /\ wrote_file sb nmeta v0 i0 off0 (bs ++ p) v' i' /\
    freeblock s' = freeblock s + need (off + Z.of_nat (length p)) - need off /\ freeinode s' = freeinode s.
Proof.
  induction k as [|k IH]; intros p s v i v0 i0 off0 bs off MV W T WR Ho0 Hk Hmax Hby Hf.
  1: destruct p; [|cbn in Hk; lia].
  2: destruct p as [|c p'] eqn:Ep.
  1,2: exists s, v, i; cbn [length]; rewrite Z.add_0_r, app_nil_r; split_and!; auto; lia.
  cbn [iappend_loop]. rewrite <- Ep in *. assert (Hp : (0 < length p)%nat) by (subst p; cbn; lia). clear Ep p' c.
  set (fbn := off / BSIZE). assert (Ho : 0 <= off) by lia. assert (Hbn : 0 <= fbn < MAXFILE) by (unfold fbn; mklia).
  rewrite (proj2 (Z.ltb_lt _ _)) by lia. cbn [negb].
  set (n1 := Z.min (Z.of_nat (length p)) ((fbn + 1) * BSIZE - off)). set (ch := take (Z.to_nat n1) p).
  assert (Hn1 : 0 < n1 <= Z.of_nat (length p) /\ off mod BSIZE + n1 <= BSIZE) by (unfold n1, fbn; mklia).
  assert (Hlch : Z.of_nat (length ch) = n1) by (unfold ch; rewrite length_take; lia).
  pose proof (need_mono (off + n1) (Z.of_nat (length p) - n1) ltac:(lia) ltac:(lia)) as Hmono. replace (off + n1 + (Z.of_nat (length p) - n1)) with (off + Z.of_nat (length p)) in Hmono by lia.
  destruct (append_turn s v i v0 i0 off0 bs ch MV W T WR Ho0) as (x & s1 & s2 & v2 & i2 & E & Hx & MV2 & Es2 & MV' & W' & WR' & T' & F' & FI').
  { fold off fbn. lia. } { fold off. rewrite Hlch. unfold upto. lia. } { by apply Forall_take. } { fold off. rewrite Hlch. lia. }
  fold off fbn in E, Es2, MV', W', WR', T', F'. rewrite Hlch in T', F'.
  rewrite (bind_Ok _ _ _ _ _ E), (bind_Ok _ _ _ _ _ (rsect_view _ _ _ MV2 Hx)).
  replace (off - fbn * BSIZE) with (off mod BSIZE) by (unfold fbn; mklia). fold ch.
  rewrite (bind_Ok (wsect _ _) _ s1 tt s2) by (unfold wsect, modify; by rewrite Es2).
  set (v3 := v_write v2 x _) in *.
  assert (Eo : off0 + Z.of_nat (length (bs ++ ch)) = off + n1) by (rewrite length_app; lia).
  assert (El : off + n1 + Z.of_nat (length (drop (Z.to_nat n1) p)) = off + Z.of_nat (length p)) by (rewrite length_drop; lia).
  destruct (IH (drop (Z.to_nat n1) p) s2 v3 i2 v0 i0 off0 (bs ++ ch)) as (s' & v' & i' & E' & A1 & A2 & A3 & A4 & A5 & A6);
    rewrite ?Eo, ?El in *; auto; [rewrite length_drop; lia|by apply Forall_drop|lia|].
  exists s', v', i'. rewrite <- app_assoc in A4. unfold ch in A4. rewrite take_drop in A4. split_and!; auto; [lia|congruence].
Qed.
