(* ===== verification/MkfsTree.v ===== *)
(** * The files of the image of [mkfs/mkfs.c]

    [tree] says that the image holds given files, inode by inode: each has its
    type, its size and its bytes, no block belongs to two of them, and the number of
    blocks taken is the sum of what they need.  [ialloc] adds an empty file and
    [iappend] makes one longer. *)
From stdpp Require Import base list gmap strings.
From Stdlib Require Import ZArith Lia.
From S2P Require Import Prelude KString Sleeplock Bio Riscv Kalloc Vm VmSpec VmUser VmCopy Blocks Fs FsBlock FsInode FsMeta FsFile Mkfs MkfsView.

#[local] Open Scope Z_scope.
#[local] Open Scope xv6_scope.

Import Mkfs.

(** Inode [inum] of the image. *)
Definition ino (v : bview) (inum : Z) : inode := disk_inode sb v inum din0.

(** Inode [i] is a file of type [t] with the bytes [c]. *)
Record node (v : bview) (i : inode) (t : Z) (c : list Z) : Prop := {
  nd_iwf : iwf v i;
  nd_fits : inode_fits i;
  nd_meta : i_type i = t /\ i_nlink i = 1 /\ i_size i = Z.of_nat (length c);
  nd_max : Z.of_nat (length c) <= MAXFILE * BSIZE;
  nd_tight : tight v i (Z.of_nat (length c));
  nd_bytes : forall o, 0 <= o < MAXFILE * BSIZE -> fbyte v i o = default 0 (c !! Z.to_nat o)      (** zeros behind the end *)
}.

Definition blocks_of (fs : list (Z * list Z)) : Z := foldr (fun f n => need (Z.of_nat (length f.2)) + n) 0 fs.

Record tree (s : mk) (v : bview) (fs : list (Z * list Z)) : Prop := {
  tr_view : mview s v;
  tr_count : freeinode s = 1 + Z.of_nat (length fs) /\ Z.of_nat (length fs) < 200;
  tr_free : freeblock s = 46 + blocks_of fs;
  tr_file : forall k t c, fs !! k = Some (t, c) -> node v (ino v (1 + Z.of_nat k)) t c;
  tr_sep : forall k k' n, (k < length fs)%nat -> (k' < length fs)%nat ->
    file_block v (ino v (1 + Z.of_nat k)) n -> file_block v (ino v (1 + Z.of_nat k')) n -> k = k';
  tr_empty : forall inum, 1 + Z.of_nat (length fs) <= inum < 200 -> ino v inum = din0;
  tr_meta : forall n, 0 <= n < 32 -> v_data v n = if n =? 1 then sb_block else zero_block
}.

(** ** A file is not touched *)

(** From [v] to [v'] the blocks of the file are the same and stay in use. *)
Record untouched (v v' : bview) (i : inode) : Prop := {
  un_data : forall n, file_block v i n -> v_data v' n = v_data v n;
  un_used : forall b, 0 <= b < 2000 -> used v sb b = true -> used v' sb b = true;
  un_held : v_held v' = ∅
}.

Section Untouched.
Context (v v' : bview) (i : inode) (U : untouched v v' i).

Lemma un_fmap bn : fmap_ v' i bn = fmap_ v i bn.
Proof.
  unfold fmap_. destruct (bn <? NDIRECT); [done|]. destruct (Z.eqb_spec (i_addr i NDIRECT) 0); [done|].
  rewrite (un_data _ _ _ U); [done|]. split; [done|by left].
Qed.

Lemma un_block n : file_block v' i n <-> file_block v i n.
Proof. unfold file_block. setoid_rewrite un_fmap. done. Qed.

Lemma un_owned a : owned_block sb nmeta v a -> owned_block sb nmeta v' a.
Proof.
  intros (H1 & H2 & H3). split; [done|]. change nmeta with 46 in H1. change (sb_size sb) with 2000 in H1.
  split; [apply (un_used _ _ _ U); [lia|done]|]. by rewrite (un_held _ _ _ U).
Qed.

Lemma un_iwf : iwf v i -> iwf v' i.
Proof.
  intros [W1 W2 W3 W4 W5 W6]. split; auto.
  - intros bn Hbn. rewrite un_fmap. intros N. by apply un_owned, W3.
  - intros N. by apply un_owned, W4.
  - intros bn bn' Hbn Hbn'. rewrite !un_fmap. auto.
  - intros bn Hbn. rewrite un_fmap. auto.
Qed.

Lemma un_fbyte o : 0 <= o < MAXFILE * BSIZE -> fbyte v' i o = fbyte v i o.
Proof.
  intros Ho. unfold fbyte. rewrite un_fmap. destruct (Z.eqb_spec (fmap_ v i (o / BSIZE)) 0); [done|].
  rewrite (un_data _ _ _ U); [done|]. split; [done|]. right. exists (o / BSIZE). split; [mklia|done].
Qed.

Lemma un_node t c : node v i t c -> node v' i t c.
Proof.
  intros [N1 N2 N3 N4 [T1 T2] N6]. split; auto; [by apply un_iwf| |].
  - split; [|done]. intros bn Hbn. rewrite un_fmap. by apply T1.
  - intros o Ho. rewrite un_fbyte by lia. by apply N6.
Qed.
End Untouched.

(** ** Reading and writing inodes *)

Lemma iblock_range inum : 0 <= inum < 200 -> 32 <= IBLOCK inum sb < 45.
Proof. intros H. apply (IBLOCK_eq disk_dev sb nmeta mkfs_layout inum H). Qed.

Lemma rinode_spec s v inum : mview s v -> 0 <= inum < 200 -> rinode inum s = Ok (ino v inum) s.
Proof.
  intros MV Hi. pose proof (iblock_range _ Hi) as Hr. unfold rinode, rsect, bind, ret. rewrite (proj2 (Z.ltb_lt _ _)) by (unfold FSSIZE; lia).
  unfold ino, disk_inode. by rewrite (mv_data _ _ MV) by lia.
Qed.

Definition with_inum (i : inode) (inum : Z) : inode := i <| i_inum := inum |>.

Lemma winode_spec s v inum i : mview s v -> 0 <= inum < 200 -> inode_fits i ->
  exists s', winode inum i s = Ok tt s' /\ mview s' (v_iupdate sb v (with_inum i inum)) /\ freeblock s' = freeblock s /\ freeinode s' = freeinode s.
Proof.
  intros MV Hi Hf. pose proof (iblock_range _ Hi) as Hr. pose proof (mv_range _ _ MV) as Hfb.
  exists (s <| disk := upd (disk s) (IBLOCK inum sb) (put_dinode i (dip inum) (v_data v (IBLOCK inum sb))) |>).
  split; [unfold winode, rsect, bind, wsect, modify; rewrite (proj2 (Z.ltb_lt _ _)) by (unfold FSSIZE; lia); by rewrite (mv_data _ _ MV) by lia|].
  split; [|done]. destruct MV as [M1 M2 M3 M4 M5 M6].
  assert (Hd : block_ok (put_dinode i (dip inum) (v_data v (IBLOCK inum sb)))).
  { destruct (qt_block _ _ _ _ M5 (IBLOCK inum sb)) as [Hl Hb]. pose proof (dip_bound inum). split; [rewrite put_dinode_length; auto; lia|apply put_dinode_ok; auto; lia]. }
  assert (Hnb : ~ bmap_block sb (IBLOCK inum sb)) by (rewrite bmap_block_45; lia). unfold v_iupdate, with_inum. cbn [i_inum field_update].
  change (put_dinode (i <| i_inum := inum |>)) with (put_dinode i). split; cbn [disk freeblock field_update]; auto.
  - intros k Hk. cbn. unfold upd. destruct (k =? IBLOCK inum sb); [done|by apply M1].
  - intros b Hb. rewrite (write_used disk_dev sb nmeta mkfs_layout) by done. by apply M2.
  - intros b Hb. unfold upd. destruct (Z.eqb_spec b (IBLOCK inum sb)); [lia|by apply M3].
  - by apply (write_quiet disk_dev sb nmeta mkfs_layout).
Qed.

(** ** What appending leaves alone *)

Lemma file_block_owned v i n : iwf v i -> file_block v i n -> 46 <= n < 2000 /\ used v sb n = true.
Proof.
  intros W [N H]. assert (owned_block sb nmeta v n) as (Hr & Hu & _).
  { destruct H as [->|(bn & Hbn & ->)]; [by apply W|by apply W]. }
  change nmeta with 46 in Hr. change (sb_size sb) with 2000 in Hr. done.
Qed.

Lemma untouched_trans v v1 v2 i : untouched v v1 i -> untouched v1 v2 i -> untouched v v2 i.
Proof.
  intros U1 U2. split; [|intros b Hb Hu; by apply (un_used _ _ _ U2), (un_used _ _ _ U1)|apply U2].
  intros n Hn. rewrite (un_data _ _ _ U2), (un_data _ _ _ U1); auto. by apply (un_block v v1 i U1).
Qed.

Lemma iupdate_untouched v j i : quiet v -> v_held v = ∅ -> inode_fits j -> 0 <= i_inum j < 200 -> iwf v i -> untouched v (v_iupdate sb v j) i.
Proof.
  intros Q Hh Hf Hj W. pose proof (iblock_range _ Hj) as Hr. split; [|intros b Hb Hu|done].
  - intros n Hn. destruct (file_block_owned _ _ _ W Hn) as [? _]. unfold v_iupdate. cbn. by rewrite upd_other by lia.
  - unfold v_iupdate. rewrite (write_used disk_dev sb nmeta mkfs_layout); [done| |done]. rewrite bmap_block_45. lia.
Qed.

Lemma ino_iupdate v i inum n : quiet v -> inode_fits i -> 0 <= inum < 200 -> 0 <= n < 200 ->
  ino (v_iupdate sb v (with_inum i inum)) n = if decide (n = inum) then with_disk i din0 else ino v n.
Proof.
  intros Q Hf Hi Hn. unfold ino. rewrite (iupdate_disk disk_dev sb nmeta mkfs_layout Cb); auto. destruct Hf. by split.
Qed.

Section Append.
Context (v v1 : bview) (i i1 : inode) (g : Z -> Z).
Context (U : fupd sb nmeta g v i v1 i1) (W : iwf v i).

Lemma append_meta n : 0 <= n < 45 -> v_data v1 n = v_data v n.
Proof.
  intros Hn. destruct (fu_frame _ _ _ _ _ _ _ U n) as [|[H|[[H _]|H]]]; [done| | |].
  - apply bmap_block_45 in H. lia.
  - change nmeta with 46 in H. lia.
  - apply file_block_owned in H as [? _]; [lia|done].
Qed.

Lemma append_ino inum : 0 <= inum < 200 -> ino v1 inum = ino v inum.
Proof. intros H. pose proof (iblock_range _ H). unfold ino, disk_inode. by rewrite append_meta by lia. Qed.

Lemma append_untouched i' : iwf v i' -> v_held v1 = ∅ -> (forall n, file_block v i n -> file_block v i' n -> False) -> untouched v v1 i'.
Proof.
  intros W' Hh Hsep. split; [|intros b Hb; by apply (fu_used _ _ _ _ _ _ _ U)|done].
  intros n Hn. destruct (file_block_owned _ _ _ W' Hn) as [Hr Hu]. destruct (fu_frame _ _ _ _ _ _ _ U n) as [|[H|[(_ & H & _)|H]]]; [done| | |].
  - apply bmap_block_45 in H. lia.
  - congruence.
  - by destruct (Hsep n).
Qed.

(** The blocks of the longer file are its old ones and ones that were free. *)
Lemma append_blocks n : file_block v1 i1 n -> file_block v i n \/ used v sb n = false.
Proof.
  intros [N [->|(bn & Hbn & ->)]].
  - destruct (fu_ind _ _ _ _ _ _ _ U) as [E|(E & Hu & _)]; [left|by right]. split; [done|by left].
  - destruct (fu_new _ _ _ _ _ _ _ U bn Hbn) as [E|[Hu _]]; [left|by right]. split; [done|]. right. eauto.
Qed.
End Append.

(** ** [iappend] *)

Lemma blocks_cons f fs : blocks_of (f :: fs) = need (Z.of_nat (length f.2)) + blocks_of fs.
Proof. done. Qed.

Lemma blocks_insert fs k t c c' : fs !! k = Some (t, c) ->
  blocks_of (<[k := (t, c')]> fs) = blocks_of fs + need (Z.of_nat (length c')) - need (Z.of_nat (length c)).
Proof.
  revert k. induction fs as [|f fs IH]; intros [|k] H; [done|done| |]; cbn in H.
  - injection H as ->. change (<[0%nat := (t, c')]> ((t, c) :: fs)) with ((t, c') :: fs). rewrite !blocks_cons. cbn [Datatypes.snd]. lia.
  - change (<[S k := (t, c')]> (f :: fs)) with (f :: <[k := (t, c')]> fs). rewrite !blocks_cons, (IH k H). lia.
Qed.

Lemma ino_disk v inum : with_disk (ino v inum) din0 = ino v inum.
Proof. done. Qed.

(** The file itself: its inode, its bytes. *)
Lemma append_node v i v1 i1 t c p : node v i t c -> with_disk i din0 = i -> v_held v1 = ∅ -> quiet v1 -> iwf v1 i1 ->
  tight v1 i1 (Z.of_nat (length (c ++ p))) -> wrote_file sb nmeta v i (Z.of_nat (length c)) p v1 i1 ->
  Z.of_nat (length (c ++ p)) <= MAXFILE * BSIZE ->
  let i2 := i1 <| i_size := Z.of_nat (length (c ++ p)) |> in
  with_disk i2 din0 = i2 /\ inode_fits i2 /\ node v1 i2 t (c ++ p).
Proof.
  intros [N1 N2 (N3 & N4 & N5) N6 N7 N8] Hdin Hh Q1 W1 T1 [U P] Hmax i2. pose proof (fu_rest _ _ _ _ _ _ _ U) as Er.
  assert (W2 : iwf v1 i2) by (by apply iwf_size).
  assert (F2 : inode_fits i2).
  { eapply (iwf_fits disk_dev sb nmeta mkfs_layout v1 i i2); [done|done|unfold i2; cbn; rewrite Er; done..|]. unfold i2. cbn [i_size field_update]. zpow. mklia. }
  split; [|split; [done|split]]; auto.
  - unfold i2. rewrite Er, <- Hdin. done.
  - unfold i2. cbn. rewrite Er. done.
  - destruct T1. by split.
  - intros o Ho. change (fbyte v1 i2 o) with (fbyte v1 i1 o). rewrite (fu_byte _ _ _ _ _ _ _ U) by lia. unfold patch.
    case_decide as E; [rewrite lookup_app_r by lia; do 2 f_equal; lia|]. rewrite N8 by done.
    destruct (Z.lt_ge_cases o (Z.of_nat (length c))); [by rewrite lookup_app_l by lia|]. rewrite !lookup_ge_None_2; [done|rewrite length_app; lia|lia].
Qed.

(** Replacing one file. *)
Lemma tree_replace s v fs k t c c' s2 v2 i2 : tree s v fs -> fs !! k = Some (t, c) -> mview s2 v2 -> freeinode s2 = freeinode s ->
  freeblock s2 = 46 + blocks_of (<[k := (t, c')]> fs) ->
  (forall n, 0 <= n < 200 -> ino v2 n = if decide (n = 1 + Z.of_nat k) then i2 else ino v n) -> node v2 i2 t c' ->
  (forall k', (k' < length fs)%nat -> k' <> k -> untouched v v2 (ino v (1 + Z.of_nat k'))) ->
  (forall n, file_block v2 i2 n -> file_block v (ino v (1 + Z.of_nat k)) n \/ used v sb n = false) ->
  (forall n, 0 <= n < 32 -> v_data v2 n = v_data v n) -> tree s2 v2 (<[k := (t, c')]> fs).
Proof.
  intros [MV [FI FL] FB TF TS TE TM] Hk MV2 FI2 FB2 HA HB HC HD HE.
  assert (Hlk : (k < length fs)%nat) by (by apply lookup_lt_Some in Hk). split; rewrite ?length_insert; auto.
  - rewrite FI2. auto.
  - intros k' t' d Hk'. destruct (decide (k' = k)) as [->|N].
    + rewrite list_lookup_insert_eq in Hk' by done. injection Hk' as <- <-. rewrite HA by lia. by rewrite decide_True.
    + rewrite list_lookup_insert_ne in Hk' by done. pose proof (lookup_lt_Some _ _ _ Hk'). rewrite HA by lia. rewrite decide_False by lia.
      apply (un_node v); [by apply HC|by apply TF].
  - assert (Hown : forall k' n, (k' < length fs)%nat -> file_block v (ino v (1 + Z.of_nat k')) n -> used v sb n = true).
    { intros k' n Hk'. destruct (lookup_lt_is_Some_2 fs k' Hk') as [[t' d] E]. apply file_block_owned, (TF _ _ _ E). }
    intros k1 k2 n H1 H2. rewrite !HA by lia. destruct (decide (k1 = k)) as [->|N1], (decide (k2 = k)) as [->|N2]; auto.
    + rewrite decide_True, decide_False by lia. rewrite (un_block v _ _ (HC k2 H2 N2)). intros [B1|B1]%HD B2; [by apply (TS k k2 n)|].
      rewrite (Hown k2 n) in B1; done.
    + rewrite decide_False, decide_True by lia. rewrite (un_block v _ _ (HC k1 H1 N1)). intros B1 [B2|B2]%HD; [by apply (TS k1 k n)|].
      rewrite (Hown k1 n) in B2; done.
    + rewrite !decide_False by lia. rewrite (un_block v _ _ (HC k1 H1 N1)), (un_block v _ _ (HC k2 H2 N2)). by apply TS.
  - intros inum Hn. rewrite HA by lia. rewrite decide_False by lia. by apply TE.
  - intros n Hn. rewrite HE by done. by apply TM.
Qed.

Lemma iappend_spec s v fs k t c p : tree s v fs -> fs !! k = Some (t, c) -> Forall is_byte p ->
  Z.of_nat (length (c ++ p)) <= MAXFILE * BSIZE -> 46 + blocks_of (<[k := (t, c ++ p)]> fs) <= 2000 ->
  exists s' v', iappend (1 + Z.of_nat k) p s = Ok tt s' /\ tree s' v' (<[k := (t, c ++ p)]> fs).
Proof.
  intros TR Hk Hby Hmax Hb. pose proof TR as [MV [FI FL] FB TF TS TE TM]. set (inum := 1 + Z.of_nat k).
  assert (Hlk : (k < length fs)%nat) by (by apply lookup_lt_Some in Hk). assert (Hi : 0 <= inum < 200) by lia.
  pose proof (TF k t c Hk) as ND. fold inum in ND. set (i := ino v inum) in *. pose proof ND as [N1 N2 (N3 & N4 & N5) N6 N7 N8].
  pose proof (blocks_insert _ _ _ _ (c ++ p) Hk) as EB. unfold iappend. rewrite (bind_Ok _ _ _ _ _ (rinode_spec s v inum MV Hi)). fold i.
  assert (Ex : xint (i_size i) = Z.of_nat (length c)) by (rewrite N5; apply u32_small; zpow; mklia). rewrite Ex.
  assert (El : Z.of_nat (length c) + Z.of_nat (length p) = Z.of_nat (length (c ++ p))) by (rewrite length_app; lia).
  destruct (iappend_loop_spec (length p) p s v i v i (Z.of_nat (length c)) []) as (s1 & v1 & i1 & E1 & MV1 & W1 & T1 & WR & F1 & FI1);
    cbn [length]; rewrite ?Z.add_0_r, ?El; auto; [apply wrote_none|lia|lia|].
  cbn [length app] in E1, T1, WR, F1. rewrite Z.add_0_r, El in *. rewrite (bind_Ok _ _ _ _ _ E1).
  destruct (append_node v i v1 i1 t c p ND) as (D2 & F2 & ND2); auto; [apply MV1|apply MV1|]. set (i2 := i1 <| i_size := Z.of_nat (length (c ++ p)) |>) in *.
  assert (Exo : xint (Z.of_nat (length (c ++ p))) = Z.of_nat (length (c ++ p))) by (apply u32_small; zpow; mklia). rewrite Exo. fold i2.
  destruct (winode_spec s1 v1 inum i2 MV1 Hi F2) as (s2 & E2 & MV2 & FB2 & FI2). set (v2 := v_iupdate sb v1 (with_inum i2 inum)) in *.
  assert (F2' : inode_fits (with_inum i2 inum)) by (destruct F2; by split). pose proof (wf_upd _ _ _ _ _ _ _ _ WR) as U.
  assert (Hup : forall j, iwf v1 j -> untouched v1 v2 j) by (intros j Wj; apply iupdate_untouched; auto; apply MV1).
  exists s2, v2. split; [done|]. apply (tree_replace s v fs k t c (c ++ p) s2 v2 i2); auto; [congruence|lia| | | | |].
  - intros n Hn. unfold v2. rewrite ino_iupdate by (auto; apply MV1). fold inum. case_decide; [done|]. by apply (append_ino v v1 i i1 _ U N1).
  - apply (un_node v1); [|done]. apply Hup, ND2.
  - intros k' Hk' Nk. destruct (lookup_lt_is_Some_2 fs k' Hk') as [[t' d] E]. pose proof (nd_iwf _ _ _ _ (TF _ _ _ E)) as Wk.
    assert (Uk : untouched v v1 (ino v (1 + Z.of_nat k'))).
    { apply (append_untouched v v1 i i1 _ U); [done|apply MV1|]. intros n B1 B2. by apply Nk, (TS k' k n). }
    eapply untouched_trans; [exact Uk|]. apply Hup. by apply (un_iwf v).
  - intros n Hn. apply (append_blocks v v1 i i1 _ U). rewrite (un_block v1 v2 i2 (Hup i2 (nd_iwf _ _ _ _ ND2))) in Hn. done.
  - intros n Hn. unfold v2, v_iupdate. pose proof (iblock_range _ Hi). cbn. rewrite upd_other by lia. apply (append_meta v v1 i i1 _ U N1). lia.
Qed.

(** ** [ialloc] *)

Definition fresh_inode (t : Z) : inode := din0 <| i_type := xshort t |> <| i_nlink := xshort 1 |> <| i_size := xint 0 |>.

Lemma fresh_fits t : 0 <= t < 4 -> inode_fits (fresh_inode t) /\ i_type (fresh_inode t) = t.
Proof.
  intros Ht. assert (E : xshort t = t) by (unfold xshort, u16; zpow; apply Z.mod_small; lia).
  unfold fresh_inode. rewrite E. split; [|done]. split; cbn; zpow; try lia; [by vm_compute|by vm_compute|]. repeat constructor; lia.
Qed.

Lemma fresh_addr t n : i_addr (fresh_inode t) n = 0.
Proof. unfold i_addr, fresh_inode. cbn [i_addrs field_update din0]. by destruct (replicate 13 0 !! Z.to_nat n) as [x|] eqn:E; [apply lookup_replicate in E as [-> _]|]. Qed.

Lemma fresh_fmap v t bn : fmap_ v (fresh_inode t) bn = 0.
Proof. unfold fmap_. rewrite !fresh_addr. by destruct (bn <? NDIRECT). Qed.

Lemma fresh_node v t : 0 <= t < 4 -> node v (fresh_inode t) t [].
Proof.
  intros Ht. destruct (fresh_fits t Ht) as [Hf Et]. split; auto; cbn [length].
  - split; try (intros *; rewrite ?fresh_fmap, ?fresh_addr; done); done.
  - mklia.
  - split; [intros bn Hbn; rewrite fresh_fmap|rewrite fresh_addr]; mklia.
  - intros o Ho. unfold fbyte. by rewrite fresh_fmap.
Qed.

Lemma fresh_no_block v t n : ~ file_block v (fresh_inode t) n.
Proof. intros [N [E|(bn & _ & E)]]; [rewrite fresh_addr in E|rewrite fresh_fmap in E]; done. Qed.

Lemma blocks_snoc fs t : blocks_of (fs ++ [(t, [])]) = blocks_of fs.
Proof. induction fs as [|f fs IH]; [by vm_compute|]. cbn [app]. rewrite !blocks_cons, IH. done. Qed.

Lemma ialloc_spec s v fs t : tree s v fs -> Z.of_nat (length fs) < 199 -> 0 <= t < 4 ->
  exists s' v', ialloc t s = Ok (1 + Z.of_nat (length fs)) s' /\ tree s' v' (fs ++ [(t, [])]).
Proof.
  intros [MV [FI FL] FB TF TS TE TM] Hl Ht. set (inum := 1 + Z.of_nat (length fs)) in *. destruct (fresh_fits t Ht) as [Hf Et].
  assert (Hi : 0 <= inum < 200) by lia. set (s1 := s <| freeinode := inum + 1 |>).
  assert (MV1 : mview s1 v) by (destruct MV; by split).
  destruct (winode_spec s1 v inum (fresh_inode t) MV1 Hi Hf) as (s2 & E2 & MV2 & FB2 & FI2). set (v2 := v_iupdate sb v (with_inum (fresh_inode t) inum)) in *.
  assert (Hf' : inode_fits (with_inum (fresh_inode t) inum)) by (destruct Hf; by split).
  assert (HU : forall k, (k < length fs)%nat -> untouched v v2 (ino v (1 + Z.of_nat k))).
  { intros k Hk. destruct (lookup_lt_is_Some_2 fs k Hk) as [[t' d] E]. apply iupdate_untouched; [apply MV|apply MV|done|done|apply (TF _ _ _ E)]. }
  assert (HA : forall n, 0 <= n < 200 -> ino v2 n = if decide (n = inum) then fresh_inode t else ino v n).
  { intros n Hn. unfold v2. rewrite ino_iupdate by (auto; apply MV). done. }
  exists s2, v2. split.
  { unfold ialloc. rewrite (bind_Ok (gets _) _ s inum s) by (unfold gets; by rewrite FI).
    rewrite (bind_Ok (modify _) _ s tt s1) by (unfold modify; rewrite FI, u32_small by (zpow; lia); done). by rewrite (bind_Ok _ _ _ _ _ E2). }
  split; rewrite ?length_app; cbn [length]; auto.
  - rewrite FI2. cbn. lia.
  - rewrite FB2, blocks_snoc. done.
  - intros k t' d Hk. apply lookup_app_Some in Hk as [Hk|[Hk1 Hk2]].
    + pose proof (lookup_lt_Some _ _ _ Hk). rewrite HA, decide_False by lia. apply (un_node v); [by apply HU|by apply TF].
    + destruct (k - length fs)%nat as [|j] eqn:Ej; [|done]. injection Hk2 as <- <-. rewrite HA, decide_True by lia. by apply fresh_node.
  - intros k k' n Hk Hk'. rewrite !HA by lia. destruct (decide (k = length fs)) as [->|N1], (decide (k' = length fs)) as [->|N2]; auto.
    + rewrite decide_True by lia. intros B. by apply fresh_no_block in B.
    + rewrite (decide_True (P := 1 + Z.of_nat (length fs) = inum)) by lia. intros _ B. by apply fresh_no_block in B.
    + rewrite !decide_False by lia. rewrite (un_block v _ _ (HU k ltac:(lia))), (un_block v _ _ (HU k' ltac:(lia))). apply TS; lia.
  - intros n Hn. rewrite HA, decide_False by lia. apply TE. lia.
  - intros n Hn. pose proof (iblock_range _ Hi). unfold v2, v_iupdate. cbn. rewrite upd_other by lia. by apply TM.
Qed.
