(* ===== verification/MkfsProps.v ===== *)
(** * [mkfs/mkfs.c] makes a file system

    [mkfs_image]: the program ends with an image that is a well-formed file system
    in the sense of the lemmas on [kernel/fs.c] and holds the given files. *)
From stdpp Require Import base list gmap strings.
From Stdlib Require Import ZArith Lia ZifyBool.
From S2P Require Import Prelude KString Sleeplock Bio Riscv Kalloc Vm VmSpec VmUser VmCopy Blocks Fs FsBlock FsInode FsMeta FsFile FsDir Mkfs MkfsView MkfsTree.

#[local] Open Scope Z_scope.
#[local] Open Scope xv6_scope.

Import Mkfs.

(** ** The bitmap *)

Lemma mark_bits_spec n : forall i d, block_ok d -> 0 <= i -> i + Z.of_nat n <= BPB ->
  block_ok (mark_bits n i d) /\ forall b, 0 <= b < BPB -> get_bit (mark_bits n i d) b = ((i <=? b) && (b <? i + Z.of_nat n)) || get_bit d b.
Proof.
  induction n as [|n IH]; intros i d Hd Hi Hn; cbn [mark_bits].
  - split; [done|]. intros b Hb. replace ((i <=? b) && (b <? i + Z.of_nat 0)) with false; [done|]. lia.
  - destruct (IH (i + 1) (set_bit d i)) as [H1 H2]; [by apply set_bit_ok|lia|lia|]. split; [done|]. intros b Hb. rewrite H2 by done.
    rewrite get_set_bit by (apply Hd || lia). case_decide as E; lia.
Qed.

Lemma get_bit_zero b : get_bit zero_block b = false.
Proof.
  unfold get_bit, zero_block. destruct (replicate (Z.to_nat BSIZE) 0 !! bit_byte b) as [x|] eqn:E; cbn; [apply lookup_replicate in E as [-> _]|]; by rewrite Z.land_0_l.
Qed.

(** A bitmap block with the first [n] bits set. *)
Lemma used_marks v n b : v_data v 45 = mark_bits (Z.to_nat n) 0 zero_block -> 0 <= n <= 2000 -> 0 <= b < 2000 -> used v sb b = (b <? n).
Proof.
  intros E Hn Hb. unfold used. destruct (BBLOCK_eq disk_dev sb nmeta mkfs_layout b Hb) as [_ M]. apply bmap_block_45 in M. rewrite M, E.
  rewrite Z.mod_small by (change BPB with 8192; lia).
  destruct (mark_bits_spec (Z.to_nat n) 0 zero_block zero_block_ok) as [_ H]; [lia|change BPB with 8192; lia|].
  rewrite H by (change BPB with 8192; lia). rewrite get_bit_zero. lia.
Qed.

(** ** The empty image *)

Lemma zero_sects_spec n : forall i s, exists s', zero_sects n i s = Ok tt s' /\ freeinode s' = freeinode s /\ freeblock s' = freeblock s /\
  forall k, disk s' k = if (i <=? k) && (k <? i + Z.of_nat n) then zero_block else disk s k.
Proof.
  induction n as [|n IH]; intros i s; cbn [zero_sects].
  - exists s. split_and!; try done. intros k. replace ((i <=? k) && (k <? i + Z.of_nat 0)) with false; [done|]. lia.
  - rewrite (bind_Ok (wsect _ _) _ s tt (s <| disk := upd (disk s) i zero_block |>)) by done.
    destruct (IH (i + 1) (s <| disk := upd (disk s) i zero_block |>)) as (s' & E & F1 & F2 & Hd). exists s'. split_and!; try done.
    intros k. rewrite Hd. cbn. unfold upd. destruct (Z.eqb_spec k i) as [->|]; [replace ((i <=? i) && (i <? i + Z.of_nat (S n))) with true by lia; by destruct (_ && _)|].
    replace ((i + 1 <=? k) && (k <? i + 1 + Z.of_nat n)) with ((i <=? k) && (k <? i + Z.of_nat (S n))) by lia. done.
Qed.

Definition start_view (s : mk) : bview := BView (upd (disk s) 45 (mark_bits 46 0 zero_block)) ∅ ∅ ∅.

Lemma sb_block_ok : block_ok sb_block /\ read_sb sb_block = sb.
Proof. split; [split|]; [by vm_compute| |by vm_compute]. apply (bool_decide_unpack _). by vm_compute. Qed.

Lemma get_le_zero w o : get_le w o zero_block = 0.
Proof. unfold get_le, slice, zero_block. by rewrite drop_replicate, take_replicate, le_val_zeros. Qed.

Lemma get_dinode_zero o : get_dinode zero_block o din0 = din0.
Proof. unfold get_dinode. rewrite !get_le_zero. cbn [fmap list_fmap seq]. by rewrite !get_le_zero. Qed.

Lemma start_tree s : freeinode s = 1 -> freeblock s = 46 -> (forall n, block_ok (disk s n)) ->
  (forall n, 0 <= n < 2000 -> disk s n = if n =? 1 then sb_block else zero_block) -> tree s (start_view s) [].
Proof.
  intros FI FB Hok Hd. set (v := start_view s). assert (E45 : v_data v 45 = mark_bits (Z.to_nat 46) 0 zero_block) by apply upd_same.
  assert (Hu : forall b, 0 <= b < 2000 -> used v sb b = (b <? 46)) by (intros b Hb; apply used_marks; [done|lia|done]).
  assert (Hn : forall n, n <> 45 -> v_data v n = disk s n) by (intros n Hn; cbn; by rewrite upd_other).
  destruct (mark_bits_spec (Z.to_nat 46) 0 zero_block zero_block_ok) as [Hmk _]; [lia|change BPB with 8192; lia|].
  split; cbn [length].
  - split; [exact Hn|intros; rewrite Hu, FB; done| |done| |lia].
    + intros b Hb. rewrite Hd by lia. by rewrite (proj2 (Z.eqb_neq _ _)) by lia.
    + split; [done|done|done| | |].
      * intros b Hb. change nmeta with 46 in Hb. rewrite Hu by lia. lia.
      * intros n. destruct (decide (n = 45)) as [->|N]; [by rewrite E45|by rewrite Hn].
      * intros n H%bmap_block_45. subst. unfold Cb. set_solver.
  - rewrite FI. lia.
  - rewrite FB. by vm_compute.
  - done.
  - intros k k' n H. cbn in H. lia.
  - intros inum Hi. pose proof (iblock_range inum ltac:(lia)) as Hr. unfold ino, disk_inode. rewrite Hn, Hd by lia.
    rewrite (proj2 (Z.eqb_neq _ _)) by lia. apply get_dinode_zero.
  - intros n H. rewrite Hn by lia. apply Hd. lia.
Qed.

(** ** Adding the files *)

Lemma blocks_app fs fs' : blocks_of (fs ++ fs') = blocks_of fs + blocks_of fs'.
Proof. induction fs as [|f fs IH]; [done|]. cbn [app]. rewrite !blocks_cons, IH. lia. Qed.

Lemma need_pos n : 0 <= n -> 0 <= need n.
Proof. intros H. pose proof (need_mono 0 n ltac:(lia) H) as M. by rewrite Z.add_0_l in M. Qed.

Lemma blocks_pos fs : 0 <= blocks_of fs.
Proof. induction fs as [|f fs IH]; [done|]. rewrite blocks_cons. pose proof (need_pos (Z.of_nat (length f.2)) ltac:(lia)). lia. Qed.

Lemma need_app (c p : list Z) : need (Z.of_nat (length c)) <= need (Z.of_nat (length (c ++ p))).
Proof. rewrite length_app, Nat2Z.inj_add. apply need_mono; lia. Qed.

Lemma append_all_spec pieces : forall s v fs k t c, tree s v fs -> fs !! k = Some (t, c) -> Forall (Forall is_byte) pieces ->
  Z.of_nat (length (c ++ concat pieces)) <= MAXFILE * BSIZE -> 46 + blocks_of (<[k := (t, c ++ concat pieces)]> fs) <= 2000 ->
  exists s' v', append_all (1 + Z.of_nat k) pieces s = Ok tt s' /\ tree s' v' (<[k := (t, c ++ concat pieces)]> fs).
Proof.
  induction pieces as [|p pieces IH]; intros s v fs k t c TR Hk Hby Hmax Hb; cbn [append_all concat].
  - rewrite app_nil_r, list_insert_id by done. eauto.
  - apply Forall_cons in Hby as [Hp Hby]. cbn [concat] in Hmax, Hb. rewrite app_assoc in Hmax, Hb |- *.
    pose proof (need_app (c ++ p) (concat pieces)) as Hn. pose proof (lookup_lt_Some _ _ _ Hk) as Hl.
    pose proof (blocks_insert _ _ _ _ (c ++ p) Hk) as E1. pose proof (blocks_insert _ _ _ _ ((c ++ p) ++ concat pieces) Hk) as E2.
    destruct (iappend_spec s v fs k t c p) as (s1 & v1 & E & TR1); auto; [rewrite length_app in Hmax; lia|lia|].
    rewrite (bind_Ok _ _ _ _ _ E). destruct (IH s1 v1 (<[k := (t, c ++ p)]> fs) k t (c ++ p)) as (s' & v' & E' & TR'); auto.
    + by rewrite list_lookup_insert_eq.
    + by rewrite list_insert_insert_eq.
    + rewrite list_insert_insert_eq in TR'. eauto.
Qed.

(** The name of a file in the image; its entry in the root directory. *)
Definition short (arg : list Z) : list Z := default [] (shortname arg).

Fixpoint entries (inum : Z) (files : list (list Z * list (list Z))) : list Z :=
  match files with
  | [] => []
  | f :: files => dirent inum (short f.1) ++ entries (inum + 1) files
  end.

Definition nodes_of (files : list (list Z * list (list Z))) : list (Z * list Z) := (fun f => (T_FILE, concat f.2)) <$> files.

(** A file that the program can put into an image: its name has no slash, and it is not too long. *)
Definition good_file (f : list Z * list (list Z)) : Prop :=
  is_Some (shortname f.1) /\ Forall is_byte f.1 /\ Forall (Forall is_byte) f.2 /\ Z.of_nat (length (concat f.2)) <= MAXFILE * BSIZE.

Lemma dirent_ok inum name : Forall is_byte name -> length (dirent inum name) = 16%nat /\ Forall is_byte (dirent inum name).
Proof.
  intros H. unfold dirent. split; [by rewrite length_app, length_le_bytes, length_dirent_name|].
  apply Forall_app. split; [apply le_bytes_byte|by apply dirent_name_byte].
Qed.

Lemma short_bytes arg : Forall is_byte arg -> Forall is_byte (short arg).
Proof.
  intros H. unfold short, shortname. set (s := if decide (take 5 arg = user_dir) then drop 5 arg else arg).
  assert (Hs : Forall is_byte s) by (unfold s; case_decide; [by apply Forall_drop|done]).
  case_decide; [constructor|]. cbn. destruct s as [|c t]; [done|]. destruct (c =? 95); [|done]. by inversion Hs.
Qed.

Lemma add_file_spec s v d rest f : tree s v ((T_DIR, d) :: rest) -> good_file f -> Z.of_nat (length rest) < 198 ->
  Z.of_nat (length d) + 16 <= MAXFILE * BSIZE ->
  let inum := 2 + Z.of_nat (length rest) in let d' := d ++ dirent inum (short f.1) in
  46 + blocks_of ((T_DIR, d') :: rest ++ [(T_FILE, concat f.2)]) <= 2000 ->
  exists s' v', add_file 1 f s = Ok tt s' /\ tree s' v' ((T_DIR, d') :: rest ++ [(T_FILE, concat f.2)]).
Proof.
  intros TR ([name En] & Hb1 & Hb2 & Hmax) Hl Hd inum d' Hb. unfold add_file. rewrite En. assert (Es : short f.1 = name) by (unfold short; by rewrite En).
  destruct (dirent_ok inum (short f.1) (short_bytes _ Hb1)) as [Hdl Hdb]. rewrite Es in Hdl, Hdb. unfold d' in *. rewrite Es in *. clear d'.
  set (d' := d ++ dirent inum name) in *. assert (Hd' : length d' = (length d + 16)%nat) by (unfold d'; by rewrite length_app, Hdl).
  destruct (ialloc_spec s v _ T_FILE TR) as (s1 & v1 & E1 & TR1); [cbn [length]; lia|done|]. rewrite (bind_Ok _ _ _ _ _ E1).
  replace (1 + Z.of_nat (length ((T_DIR, d) :: rest))) with inum by (unfold inum; cbn [length]; lia).
  rewrite blocks_cons, blocks_app in Hb. change (blocks_of [(T_FILE, concat f.2)]) with (need (Z.of_nat (length (concat f.2))) + 0) in Hb. cbn [Datatypes.snd] in Hb.
  pose proof (need_pos (Z.of_nat (length (concat f.2))) ltac:(lia)). cbn [app] in TR1.
  destruct (iappend_spec s1 v1 _ 0 T_DIR d (dirent inum name) TR1) as (s2 & v2 & E2 & TR2); auto; [fold d'; lia| |].
  { change (46 + blocks_of ((T_DIR, d') :: rest ++ [(T_FILE, [])]) <= 2000). rewrite blocks_cons, blocks_app. cbn [Datatypes.snd]. change (blocks_of [(T_FILE, [])]) with 0. lia. }
  change (1 + Z.of_nat 0) with 1 in E2. rewrite (bind_Ok _ _ _ _ _ E2).
  change (tree s2 v2 (((T_DIR, d') :: rest) ++ [(T_FILE, [])])) in TR2.
  destruct (append_all_spec f.2 s2 v2 (((T_DIR, d') :: rest) ++ [(T_FILE, [])]) (length ((T_DIR, d') :: rest)) T_FILE []) as (s3 & v3 & E3 & TR3); auto.
  - by rewrite list_lookup_middle.
  - rewrite insert_app_r_alt by done. rewrite Nat.sub_diag. cbn [app]. rewrite blocks_cons, blocks_app. cbn [Datatypes.snd].
    change (blocks_of (<[0%nat:=(T_FILE, concat f.2)]> [(T_FILE, [])])) with (need (Z.of_nat (length (concat f.2))) + 0). lia.
  - rewrite insert_app_r_alt in TR3 by done. rewrite Nat.sub_diag in TR3.
    replace (1 + Z.of_nat (length ((T_DIR, d') :: rest))) with inum in E3 by (unfold inum; cbn [length]; lia). eauto.
Qed.

Lemma add_files_spec files : forall s v d rest, tree s v ((T_DIR, d) :: rest) -> Forall good_file files ->
  Z.of_nat (length rest + length files) <= 198 -> Z.of_nat (length d) + 16 * Z.of_nat (length files) <= MAXFILE * BSIZE ->
  let fs' := (T_DIR, d ++ entries (2 + Z.of_nat (length rest)) files) :: rest ++ nodes_of files in
  46 + blocks_of fs' <= 2000 -> exists s' v', add_files 1 files s = Ok tt s' /\ tree s' v' fs'.
Proof.
  induction files as [|f files IH]; intros s v d rest TR Hg Hl Hd fs' Hb; unfold fs' in *; clear fs'; cbn [add_files entries nodes_of fmap list_fmap].
  - rewrite !app_nil_r. eauto.
  - apply Forall_cons in Hg as [Hf Hg]. cbn [length] in Hl, Hd. cbn [entries nodes_of fmap list_fmap] in Hb. fold (nodes_of files) in Hb |- *.
    set (inum := 2 + Z.of_nat (length rest)) in *. destruct (dirent_ok inum (short f.1) (short_bytes _ (proj1 (proj2 Hf)))) as [Hdl _].
    set (d' := d ++ dirent inum (short f.1)) in *. assert (Hd' : length d' = (length d + 16)%nat) by (unfold d'; by rewrite length_app, Hdl).
    set (rest' := rest ++ [(T_FILE, concat f.2)]).
    rewrite app_assoc in Hb |- *. fold d' in Hb |- *. replace (rest ++ (T_FILE, concat f.2) :: nodes_of files) with (rest' ++ nodes_of files) in Hb |- * by (unfold rest'; by rewrite <- app_assoc).
    assert (El : 2 + Z.of_nat (length rest') = inum + 1) by (unfold rest', inum; rewrite length_app; cbn [length]; lia).
    rewrite <- El in Hb |- *. destruct (add_file_spec s v d rest f TR Hf) as (s1 & v1 & E1 & TR1); [lia|lia| |].
    + fold inum d' rest'. rewrite blocks_cons, blocks_app in Hb. rewrite blocks_cons. cbn [Datatypes.snd] in *.
      pose proof (need_app d' (entries (2 + Z.of_nat (length rest')) files)). pose proof (blocks_pos (nodes_of files)). lia.
    + fold inum d' rest' in TR1. rewrite (bind_Ok _ _ _ _ _ E1). apply (IH s1 v1); auto; [|lia]. unfold rest'. rewrite length_app. cbn [length]. lia.
Qed.

(** ** The size of the root directory and the bitmap *)

(** The finished image, as a device with nothing held and nothing pending. *)
Definition disk_view (s : mk) : bview := BView (disk s) ∅ ∅ ∅.

Lemma bitmap_written s v : mview s v -> exists s', (used ← gets freeblock ; balloc used) s = Ok tt s' /\ quiet (disk_view s') /\
  (forall b, 0 <= b < 2000 -> used (disk_view s') sb b = (b <? freeblock s)) /\
  (forall n, n <> 45 -> v_data (disk_view s') n = v_data v n).
Proof.
  intros [M1 M2 M3 M4 M5 M6]. set (m := mark_bits (Z.to_nat (freeblock s)) 0 zero_block). exists (s <| disk := upd (disk s) 45 m |>). set (s' := s <| disk := _ |>).
  destruct (mark_bits_spec (Z.to_nat (freeblock s)) 0 zero_block zero_block_ok) as [Hm _]; [lia|change BPB with 8192; lia|].
  assert (Hu : forall b, 0 <= b < 2000 -> used (disk_view s') sb b = (b <? freeblock s)) by (intros b Hb; apply used_marks; [apply upd_same|lia|done]).
  assert (Hn : forall n, n <> 45 -> v_data (disk_view s') n = v_data v n) by (intros n Hn; rewrite M1 by done; cbn [v_data disk_view]; unfold s'; cbn [disk field_update]; by rewrite upd_other).
  split; [unfold bind, gets, balloc; by rewrite (proj2 (Z.ltb_lt (freeblock s) (BSIZE * 8))) by (change (BSIZE * 8) with 8192; lia)|].
  split; [|done]. split; [done|done|done| | |].
  - intros b Hb. change nmeta with 46 in Hb. rewrite Hu by lia. lia.
  - intros n. destruct (decide (n = 45)) as [->|N]; [|rewrite Hn by done; apply M5]. cbn [v_data disk_view]. unfold s'. cbn [disk field_update]. by rewrite upd_same.
  - intros n Hb%bmap_block_45. subst. unfold Cb. set_solver.
Qed.

Definition padded (n : Z) : Z := (n / BSIZE + 1) * BSIZE.

Lemma finish_spec s v d rest : tree s v ((T_DIR, d) :: rest) -> Z.of_nat (length d) < MAXFILE * BSIZE ->
  exists s', (fix_root 1 ;; used ← gets freeblock ; balloc used) s = Ok tt s' /\ let v' := disk_view s' in
    quiet v' /\ (forall b, 0 <= b < 2000 -> used v' sb b = (b <? freeblock s)) /\
    (forall i, iwf v i -> untouched v v' i) /\ (forall n, 0 <= n < 32 -> disk s' n = v_data v n) /\
    (forall n, 0 <= n < 200 -> ino v' n = if decide (n = 1) then (ino v 1) <| i_size := padded (Z.of_nat (length d)) |> else ino v n).
Proof.
  intros TR Hd. pose proof TR as [MV [FI FL] FB TF TS TE TM]. pose proof (TF 0%nat T_DIR d eq_refl) as ND. change (1 + Z.of_nat 0) with 1 in ND.
  set (i := ino v 1) in *. pose proof ND as [N1 N2 (N3 & N4 & N5) N6 N7 N8]. unfold fix_root.
  assert (Hp : 0 <= padded (Z.of_nat (length d)) < 2 ^ 32) by (unfold padded; zpow; mklia). set (i2 := i <| i_size := padded (Z.of_nat (length d)) |>).
  assert (F2 : inode_fits i2) by (destruct N2; by split).
  destruct (winode_spec s v 1 i2 MV ltac:(lia) F2) as (s1 & E1 & MV1 & FB1 & FI1). set (v1 := v_iupdate sb v (with_inum i2 1)) in *.
  assert (F2' : inode_fits (with_inum i2 1)) by (destruct F2; by split).
  destruct (bitmap_written s1 v1 MV1) as (s2 & E2 & Q2 & Hu2 & Hd2). rewrite FB1 in Hu2. exists s2. split.
  { rewrite (bind_Ok _ _ s tt s1); [done|]. rewrite (bind_Ok _ _ _ _ _ (rinode_spec s v 1 MV ltac:(lia))). fold i. cbn zeta. rewrite N5.
    assert (Ex : xint (Z.of_nat (length d)) = Z.of_nat (length d)) by (apply u32_small; zpow; mklia). rewrite Ex. fold (padded (Z.of_nat (length d))).
    assert (Ep : xint (padded (Z.of_nat (length d))) = padded (Z.of_nat (length d))) by (by apply u32_small). rewrite Ep. exact E1. }
  cbn zeta. split; [done|]. split; [done|]. split; [|split].
  - intros j Wj. eapply untouched_trans; [apply (iupdate_untouched v (with_inum i2 1) j); auto; try apply MV; cbn; lia|]. fold v1.
    assert (U1 : untouched v v1 j) by (apply iupdate_untouched; auto; try apply MV; cbn; lia).
    split; [|intros b Hb; rewrite Hu2 by done|done].
    + intros n Hn. apply Hd2. destruct (file_block_owned v1 j n) as [? _]; [by apply (un_iwf v)|done|lia].
    + rewrite (mv_used _ _ MV1) by done. by rewrite FB1.
  - intros n Hn. change (disk s2 n) with (v_data (disk_view s2) n). rewrite Hd2 by lia. unfold v1, v_iupdate. pose proof (iblock_range 1 ltac:(lia)). cbn [v_data v_write i_inum with_inum field_update]. cbn. rewrite upd_other by lia. done.
  - intros n Hn. pose proof (iblock_range n Hn). transitivity (ino v1 n); [unfold ino, disk_inode; by rewrite Hd2 by lia|].
    unfold v1. rewrite ino_iupdate by (auto; apply MV || lia). done.
Qed.

(** ** The image *)

Definition root_dir (files : list (list Z * list (list Z))) : list Z := (dirent 1 [46] ++ dirent 1 [46; 46]) ++ entries 2 files.

Definition image_fs (files : list (list Z * list (list Z))) : list (Z * list Z) := (T_DIR, root_dir files) :: nodes_of files.

(** What fits: the inodes of the files, and all blocks. *)
Definition fits (files : list (list Z * list (list Z))) : Prop :=
  Forall good_file files /\ Z.of_nat (length files) <= 198 /\ 46 + blocks_of (image_fs files) <= 2000.

Record image (files : list (list Z * list (list Z))) (s : mk) : Prop := {
  im_sb : read_sb (disk s 1) = sb;
  im_log : forall n, 2 <= n < 32 -> disk s n = zero_block;
  im_quiet : quiet (disk_view s);
  im_used : forall b, 0 <= b < 2000 -> used (disk_view s) sb b = (b <? 46 + blocks_of (image_fs files));
  im_root : let r := ino (disk_view s) 1 in iwf (disk_view s) r /\ i_type r = T_DIR /\ i_nlink r = 1 /\
    i_size r = padded (16 * (2 + Z.of_nat (length files))) /\
    (forall bn, 0 <= bn < MAXFILE -> fmap_ (disk_view s) r bn <> 0 <-> bn * BSIZE < 16 * (2 + Z.of_nat (length files)));
  im_dots : forall k, 0 <= k < 2 -> let e := dent (disk_view s) (ino (disk_view s) 1) k in
    de_inum e = 1 /\ fname (de_name e) = replicate (Z.to_nat (k + 1)) 46;
  im_entry : forall k f, files !! k = Some f -> let e := dent (disk_view s) (ino (disk_view s) 1) (2 + Z.of_nat k) in
    de_inum e = 2 + Z.of_nat k /\ fname (de_name e) = fname (short f.1);
  im_rest : forall k, 2 + Z.of_nat (length files) <= k -> sizeof_de * (k + 1) <= MAXFILE * BSIZE -> de_inum (dent (disk_view s) (ino (disk_view s) 1) k) = 0;
  im_file : forall k f, files !! k = Some f -> let i := ino (disk_view s) (2 + Z.of_nat k) in let n := Z.of_nat (length (concat f.2)) in
    iwf (disk_view s) i /\ i_type i = T_FILE /\ i_nlink i = 1 /\ i_size i = n /\ fbytes (disk_view s) i 0 n = concat f.2 /\
    (forall bn, 0 <= bn < MAXFILE -> fmap_ (disk_view s) i bn <> 0 <-> bn * BSIZE < n);
  im_sep : forall m n b, 1 <= m <= 1 + Z.of_nat (length files) -> 1 <= n <= 1 + Z.of_nat (length files) ->
    file_block (disk_view s) (ino (disk_view s) m) b -> file_block (disk_view s) (ino (disk_view s) n) b -> m = n;
  im_free : forall n, 2 + Z.of_nat (length files) <= n < 200 -> ino (disk_view s) n = din0
}.

Lemma fbytes_mid v i t c a b e off : node v i t c -> c = a ++ e ++ b -> off = Z.of_nat (length a) -> fbytes v i off (Z.of_nat (length e)) = e.
Proof.
  intros N -> ->. apply list_eq. intros j. destruct (decide (j < length e)%nat).
  - replace j with (Z.to_nat (Z.of_nat j)) at 1 by lia. rewrite fbytes_lookup by lia. pose proof (nd_max _ _ _ _ N) as Hm. rewrite !length_app in Hm. rewrite (nd_bytes _ _ _ _ N) by lia.
    rewrite lookup_app_r by lia. rewrite lookup_app_l by lia. replace (Z.to_nat _ - length a)%nat with j by lia.
    destruct (lookup_lt_is_Some_2 e j) as [x E]; [done|]. by rewrite E.
  - rewrite !lookup_ge_None_2; [done|lia|rewrite length_fbytes; lia].
Qed.

Lemma fbytes_behind v i t c off n : node v i t c -> Z.of_nat (length c) <= off -> 0 <= n -> off + n <= MAXFILE * BSIZE -> fbytes v i off n = replicate (Z.to_nat n) 0.
Proof.
  intros N Hc Hn Hm. apply list_eq. intros j. destruct (decide (j < Z.to_nat n)%nat).
  - replace j with (Z.to_nat (Z.of_nat j)) at 1 by lia. rewrite fbytes_lookup by lia. rewrite (nd_bytes _ _ _ _ N) by lia.
    rewrite (lookup_ge_None_2 c) by lia. by rewrite lookup_replicate_2.
  - rewrite !lookup_ge_None_2; [done|rewrite length_replicate; lia|rewrite length_fbytes; lia].
Qed.

Lemma good_bytes f : good_file f -> Forall is_byte (short f.1).
Proof. intros (_ & H & _). by apply short_bytes. Qed.

Lemma length_entries files : forall inum, Forall good_file files -> length (entries inum files) = (16 * length files)%nat.
Proof.
  induction files as [|f files IH]; intros inum H; [done|]. apply Forall_cons in H as [Hf H]. cbn [entries length].
  rewrite length_app, IH by done. destruct (dirent_ok inum (short f.1) (good_bytes _ Hf)) as [-> _]. lia.
Qed.

Lemma entries_split files : forall inum k f, Forall good_file files -> files !! k = Some f ->
  exists a b, entries inum files = a ++ dirent (inum + Z.of_nat k) (short f.1) ++ b /\ length a = (16 * k)%nat.
Proof.
  induction files as [|g files IH]; intros inum k f H Hk; [done|]. apply Forall_cons in H as [Hg H]. destruct k as [|k]; cbn in Hk.
  - injection Hk as ->. exists [], (entries (inum + 1) files). by rewrite Z.add_0_r.
  - destruct (IH (inum + 1) k f H Hk) as (a & b & E & La). exists (dirent inum (short g.1) ++ a), b. cbn [entries]. rewrite E, <- app_assoc.
    replace (inum + 1 + Z.of_nat k) with (inum + Z.of_nat (S k)) by lia. split; [done|].
    rewrite length_app, La. destruct (dirent_ok inum (short g.1) (good_bytes _ Hg)) as [-> _]. lia.
Qed.

Lemma dots_ok : length (dirent 1 [46]) = 16%nat /\ length (dirent 1 [46; 46]) = 16%nat /\ Forall is_byte (dirent 1 [46]) /\ Forall is_byte (dirent 1 [46; 46]).
Proof.
  destruct (dirent_ok 1 [46]) as [? ?]; [repeat constructor; unfold is_byte; lia|]. destruct (dirent_ok 1 [46; 46]) as [? ?]; [repeat constructor; unfold is_byte; lia|]. done.
Qed.

Lemma length_root_dir files : Forall good_file files -> Z.of_nat (length (root_dir files)) = 16 * (2 + Z.of_nat (length files)).
Proof. intros H. unfold root_dir. rewrite !length_app, (length_entries _ _ H). destruct dots_ok as (-> & -> & _). lia. Qed.

(** Before the size of the root directory is changed, the image is the tree of the files. *)
Lemma main_tree files s0 : fits files -> freeinode s0 = 1 -> (forall n, block_ok (disk s0 n)) ->
  exists s v, main files s0 = (fix_root 1 ;; used ← gets freeblock ; balloc used) s /\ tree s v (image_fs files).
Proof.
  intros (Hg & Hn & Hb) FI Hok. pose proof (length_root_dir _ Hg) as Hlr. destruct dots_ok as (L1 & L2 & B1 & B2). unfold main.
  rewrite (bind_Ok (modify _) _ s0 tt (s0 <| freeblock := nmeta |>)) by done.
  destruct (zero_sects_spec (Z.to_nat FSSIZE) 0 (s0 <| freeblock := nmeta |>)) as (s1 & E1 & FI1 & FB1 & Hd1). rewrite (bind_Ok _ _ _ _ _ E1).
  set (s2 := s1 <| disk := upd (disk s1) 1 sb_block |>). rewrite (bind_Ok (wsect _ _) _ s1 tt s2) by done.
  assert (TR2 : tree s2 (start_view s2) []).
  { apply start_tree; [by rewrite <- FI|exact FB1| |].
    - intros n. unfold s2. cbn [disk field_update]. unfold upd. destruct (n =? 1); [apply sb_block_ok|]. rewrite Hd1. destruct (_ && _); [apply zero_block_ok|apply Hok].
    - intros n H. unfold s2. cbn [disk field_update]. unfold upd. destruct (n =? 1); [done|]. rewrite Hd1. replace ((0 <=? n) && _) with true; [done|]. unfold FSSIZE. lia. }
  destruct (ialloc_spec s2 _ [] T_DIR TR2) as (s3 & v3 & E3 & TR3); [cbn; lia|done|]. rewrite (bind_Ok _ _ _ _ _ E3). cbn [length app] in TR3 |- *.
  change (negb (1 + Z.of_nat 0 =? ROOTINO)) with false. cbn match. change (1 + Z.of_nat 0) with 1.
  assert (Hbl : forall d, (length d <= 32)%nat -> 46 + blocks_of [(T_DIR, d)] <= 2000).
  { intros d Hd. rewrite blocks_cons. cbn [Datatypes.snd]. change (blocks_of []) with 0. unfold need. change (NDIRECT * BSIZE) with 12288. rewrite (proj2 (Z.ltb_ge _ _)) by lia. mklia. }
  destruct (iappend_spec s3 v3 _ 0 T_DIR [] (dirent 1 [46]) TR3) as (s4 & v4 & E4 & TR4); auto; [cbn [app]; rewrite L1; mklia|apply Hbl; cbn [app]; lia|].
  change (1 + Z.of_nat 0) with 1 in E4. rewrite (bind_Ok _ _ _ _ _ E4). cbn [app] in TR4. change (<[0%nat:=(T_DIR, dirent 1 [46])]> [(T_DIR, [])]) with [(T_DIR, dirent 1 [46])] in TR4.
  destruct (iappend_spec s4 v4 _ 0 T_DIR (dirent 1 [46]) (dirent 1 [46; 46]) TR4) as (s5 & v5 & E5 & TR5); auto; [rewrite length_app, L1, L2; mklia|apply Hbl; rewrite length_app; lia|].
  change (1 + Z.of_nat 0) with 1 in E5. rewrite (bind_Ok _ _ _ _ _ E5).
  destruct (add_files_spec files s5 v5 _ [] TR5) as (s6 & v6 & E6 & TR6); auto; [rewrite length_app, L1, L2; mklia|].
  rewrite (bind_Ok _ _ _ _ _ E6). eauto.
Qed.

(** The kernel's view of an entry of [mkfs]. *)
Lemma dirent_read inum name : 0 <= inum < 2 ^ 16 -> de_inum (dirent inum name) = inum /\ fname (de_name (dirent inum name)) = fname name.
Proof.
  intros H. assert (E : xshort inum = inum) by (by apply Z.mod_small). unfold dirent. rewrite E. change (le_bytes 2 inum ++ dirent_name name) with (FsDir.dirent name inum).
  rewrite de_inum_dirent by done. by rewrite de_name_dirent, fname_dirent.
Qed.

Lemma dent_mid v i t c a b inum name k : node v i t c -> c = a ++ dirent inum name ++ b -> Forall is_byte name -> Z.of_nat (length a) = 16 * k -> 0 <= inum < 2 ^ 16 ->
  de_inum (dent v i k) = inum /\ fname (de_name (dent v i k)) = fname name.
Proof.
  intros N Ec Hb Ha Hi. destruct (dirent_ok inum name Hb) as [Hl _]. unfold dent, sizeof_de.
  change 16 with (Z.of_nat 16) at 2 4. rewrite <- Hl. rewrite (fbytes_mid v i t c a b (dirent inum name)) by (done || lia). by apply dirent_read.
Qed.

Section Finish.
Context (files : list (list Z * list (list Z))) (s s' : mk) (v : bview) (F : fits files) (TR : tree s v (image_fs files)).
Abbreviation v' := (disk_view s').
Context (Q : quiet v') (Hu : forall b, 0 <= b < 2000 -> used v' sb b = (b <? freeblock s)).
Context (U : forall i, iwf v i -> untouched v v' i) (Hm : forall n, 0 <= n < 32 -> disk s' n = v_data v n).
Context (Hi : forall n, 0 <= n < 200 -> ino v' n = if decide (n = 1) then (ino v 1) <| i_size := padded (Z.of_nat (length (root_dir files))) |> else ino v n).

Lemma fin_file k f : files !! k = Some f -> ino v' (2 + Z.of_nat k) = ino v (1 + Z.of_nat (S k)) /\ node v' (ino v' (2 + Z.of_nat k)) T_FILE (concat f.2).
Proof.
  intros Hk. pose proof (lookup_lt_Some _ _ _ Hk). destruct F as (Hg & Hn & Hb). assert (E : ino v' (2 + Z.of_nat k) = ino v (1 + Z.of_nat (S k))).
  { rewrite Hi by lia. rewrite decide_False by lia. f_equal. lia. }
  split; [done|]. rewrite E. pose proof (tr_file _ _ _ TR (S k) T_FILE (concat f.2)) as N. change (image_fs files !! S k) with (nodes_of files !! k) in N. unfold nodes_of in N. rewrite list_lookup_fmap, Hk in N. specialize (N eq_refl).
  apply (un_node v); [apply U, N|done].
Qed.

Lemma fin_root : node v' (ino v 1) T_DIR (root_dir files).
Proof. pose proof (tr_file _ _ _ TR 0%nat T_DIR (root_dir files) eq_refl) as N. apply (un_node v); [apply U, N|done]. Qed.

Lemma root_is : ino v' 1 = (ino v 1) <| i_size := padded (Z.of_nat (length (root_dir files))) |>.
Proof. rewrite Hi by lia. by rewrite decide_True. Qed.

Lemma fin_block m b : 1 <= m <= 1 + Z.of_nat (length files) -> file_block v' (ino v' m) b -> file_block v (ino v (1 + Z.of_nat (Z.to_nat (m - 1)))) b.
Proof.
  intros Hl. destruct F as (_ & Hn & _). rewrite Hi by lia. replace (1 + Z.of_nat (Z.to_nat (m - 1))) with m by lia.
  assert (W : iwf v (ino v m)).
  { destruct (lookup_lt_is_Some_2 (image_fs files) (Z.to_nat (m - 1))) as [[t c] E]; [cbn [length image_fs]; unfold nodes_of; rewrite length_fmap; lia|].
    pose proof (nd_iwf _ _ _ _ (tr_file _ _ _ TR _ _ _ E)) as W. by replace (1 + Z.of_nat (Z.to_nat (m - 1))) with m in W by lia. }
  case_decide as E; [subst m|]; intros B; apply (un_block v v' _ (U _ W)); done.
Qed.

Lemma fin_image : image files s'.
Proof.
  pose proof F as (Hg & Hn & Hb). pose proof (length_root_dir _ Hg) as Hl. pose proof fin_root as NR. destruct dots_ok as (L1 & L2 & B1 & B2).
  assert (Hlf : length (image_fs files) = S (length files)) by (cbn [length image_fs]; unfold nodes_of; by rewrite length_fmap).
  split; auto.
  - rewrite Hm, (tr_meta _ _ _ TR) by lia. apply sb_block_ok.
  - intros n Hr. rewrite Hm, (tr_meta _ _ _ TR) by lia. by rewrite (proj2 (Z.eqb_neq _ _)) by lia.
  - intros b Hbb. rewrite Hu by done. by rewrite (tr_free _ _ _ TR).
  - cbn zeta. rewrite root_is, <- Hl. destruct NR as [N1 N2 (N3 & N4 & N5) N6 N7 N8]. split; [by apply iwf_size|]. split_and!; try done. apply N7.
  - intros k Hk e. unfold e. rewrite root_is. change (dent v' (_ <| i_size := _ |>) k) with (dent v' (ino v 1) k).
    assert (k = 0 \/ k = 1) as [-> | ->] by lia.
    + apply (dent_mid v' _ _ _ [] (dirent 1 [46; 46] ++ entries 2 files) 1 [46] 0 NR); [|repeat constructor; done|done|zpow; lia]. unfold root_dir. by rewrite <- app_assoc.
    + apply (dent_mid v' _ _ _ (dirent 1 [46]) (entries 2 files) 1 [46; 46] 1 NR); [|repeat constructor; done|by rewrite L1|zpow; lia]. unfold root_dir. by rewrite <- app_assoc.
  - intros k f Hk e. unfold e. rewrite root_is. change (dent v' (_ <| i_size := _ |>) ?x) with (dent v' (ino v 1) x).
    destruct (entries_split files 2 k f Hg Hk) as (a & b & E & La). pose proof (lookup_lt_Some _ _ _ Hk).
    apply (dent_mid v' _ _ _ ((dirent 1 [46] ++ dirent 1 [46; 46]) ++ a) b _ _ _ NR);
      [unfold root_dir; by rewrite E, <- app_assoc|apply good_bytes; by eapply Forall_lookup_1|rewrite !length_app, L1, L2, La; lia|zpow; lia].
  - intros k Hk Hk2. rewrite root_is. change (dent v' (_ <| i_size := _ |>) ?x) with (dent v' (ino v 1) x). unfold dent.
    rewrite (fbytes_behind _ _ _ _ _ _ NR); [done|unfold sizeof_de in *; lia|done|unfold sizeof_de in *; lia].
  - intros k f Hk i n. destruct (fin_file k f Hk) as [_ N]. fold i in N. pose proof N as [N1 N2 (N3 & N4 & N5) N6 N7 N8]. split_and!; try done; [|apply N7].
    apply (fbytes_mid _ _ _ _ [] [] _ _ N); [by rewrite app_nil_r|done].
  - intros m n b H1 H2 B1' B2'. apply fin_block in B1'; [|done]. apply fin_block in B2'; [|done].
    pose proof (tr_sep _ _ _ TR (Z.to_nat (m - 1)) (Z.to_nat (n - 1)) b ltac:(rewrite Hlf; lia) ltac:(rewrite Hlf; lia) B1' B2'). lia.
  - intros n Hr. rewrite Hi by lia. rewrite decide_False by lia. apply (tr_empty _ _ _ TR). rewrite Hlf. lia.
Qed.
End Finish.

Lemma main_image files s0 : fits files -> freeinode s0 = 1 -> (forall n, block_ok (disk s0 n)) ->
  exists s, main files s0 = Ok tt s /\ image files s.
Proof.
  intros F FI Hok. destruct (main_tree files s0 F FI Hok) as (s & v & E & TR). rewrite E. pose proof (length_root_dir _ (proj1 F)) as Hl.
  destruct (finish_spec s v _ _ TR) as (s' & E' & Q & Hu & U & Hm & Hi); [destruct F as (_ & Hn & _); mklia|].
  exists s'. split; [done|]. by apply (fin_image files s s' v).
Qed.

(** C11: [mkfs], given files that fit, ends with an image that is a file system with
    exactly these files: the super block describes the layout, the log is empty, the bitmap
    marks the blocks in use and no others, the root directory has the dot entries and one
    entry per file with the kernel's reading of its name and its inode number, every file
    has its bytes behind well-formed block addresses, no block belongs to two files, and
    the other inodes are free. *)
Theorem mkfs_image files s0 : fits files -> freeinode s0 = 1 -> (forall n, block_ok (disk s0 n)) ->
  exists s, main files s0 = Ok tt s /\ image files s.
Proof. apply main_image. Qed.

(** A file [user/_cat] of six bytes and an empty one. *)
Definition sample_files : list (list Z * list (list Z)) := [([117; 115; 101; 114; 47; 95; 99; 97; 116], [[1; 2; 3; 4]; [5; 6]]); ([97], [])].

Lemma mkfs_image_witness : exists s, main sample_files (Mk (fun _ => zero_block) 1 0) = Ok tt s /\ image sample_files s.
Proof.
  apply mkfs_image; [|done|intros; apply zero_block_ok].
  split; [|by vm_compute]. repeat constructor; try done; by vm_compute.
Defined.

(** The size that [mkfs] gives the root directory covers one block too many when the
    entries fill their blocks, as they do for 62 files: the directory then ends in a block
    that has no address, and reading it makes the kernel allocate one. *)
Theorem mkfs_root_hole files s0 : fits files -> freeinode s0 = 1 -> (forall n, block_ok (disk s0 n)) ->
  (2 + Z.of_nat (length files)) mod 64 = 0 ->
  exists s, main files s0 = Ok tt s /\ let r := ino (disk_view s) 1 in let bn := (2 + Z.of_nat (length files)) / 64 in
    bn * BSIZE < i_size r /\ fmap_ (disk_view s) r bn = 0.
Proof.
  intros F FI Hok Hmod. destruct (main_image files s0 F FI Hok) as (s & E & I). exists s. split; [done|].
  destruct (im_root _ _ I) as (_ & _ & _ & Es & Hb). destruct F as (_ & Hn & _). cbn zeta. set (bn := (2 + Z.of_nat (length files)) / 64) in *.
  assert (Hbn : 0 <= bn < MAXFILE) by (unfold bn; mklia). rewrite Es. split; [unfold padded, bn; mklia|].
  destruct (decide (fmap_ (disk_view s) (ino (disk_view s) 1) bn = 0)) as [|N]; [done|]. apply Hb in N; [|done]. unfold bn in N. mklia.
Qed.

Lemma mkfs_root_hole_witness : let files := replicate 62 ([97], []) in
  exists s, main files (Mk (fun _ => zero_block) 1 0) = Ok tt s /\ let r := ino (disk_view s) 1 in 1 * BSIZE < i_size r /\ fmap_ (disk_view s) r 1 = 0.
Proof.
  intros files. apply (mkfs_root_hole files); [|done|intros; apply zero_block_ok|by vm_compute].
  split; [|by vm_compute]. apply Forall_replicate. repeat constructor; try done; by vm_compute.
Defined.
