(* ===== verification/NameProps.v ===== *)
(** * Finding files by name

    [namei] and [nameiparent] of [kernel/fs.c] find what the directories on disk say
    ([namei_resolves]).  The image of [mkfs/mkfs.c] is a well-formed file system in
    the sense of that theorem ([image_tree]), so every file given to [mkfs] is found
    under its name. *)
From stdpp Require Import base list gmap strings.
From Stdlib Require Import ZArith Lia.
From S2P Require Import Prelude KString Sleeplock Bio Riscv Kalloc Vm VmSpec VmUser VmCopy Log LogCrash LogOps Blocks.
From S2P Require Import Fs FsBlock FsInode FsMeta FsFile FsCache FsDir FsProps FsPath Mkfs MkfsView MkfsTree MkfsProps.

#[local] Open Scope Z_scope.
#[local] Open Scope xv6_scope.

Section Names.

Context {S : Type} {L : BlockLayer S} (D : device) (rep : S -> bview -> Prop) {HL : BlockLaws S D rep}.
Context (sb0 : superblock) (dstart : Z) (LY : layout D sb0 dstart).

(** C10: [namei] returns a reference to the cached inode that the path leads to through
    the directories on disk, and 0 when an element is missing or not a directory;
    [nameiparent] stops at the directory of the last element and returns its name.  No
    other reference is taken or lost, no inode stays locked, and nothing on disk or in
    memory changes. *)
Theorem namei_resolves v s path p name :
  fs_tree D sb0 dstart v -> can_walk D rep sb0 v s -> is_path path p -> Forall is_byte p -> Z.of_nat (length path) < 2 ^ 64 ->
  Forall is_byte name -> length name = Z.to_nat DIRSIZ ->
  (exists ip s', namei path s = Ok ip s' /\ fs_upto rep s' s v /\ cache_ok D sb0 v (inodes s') 0 /\
    match walk_path D sb0 false v (path_start s p) (elements p) with
    | Some n => caches (inodes s') ip (d_dev D) n /\ refs_of (inodes s) (inodes s') [ip]
    | None => ip = 0 /\ refs_of (inodes s) (inodes s') []
    end) /\
  (exists ip name' s', nameiparent path name s = Ok (ip, name') s' /\ fs_upto rep s' s v /\ cache_ok D sb0 v (inodes s') 0 /\
    match walk_path D sb0 true v (path_start s p) (elements p) with
    | Some n => caches (inodes s') ip (d_dev D) n /\ refs_of (inodes s) (inodes s') [ip] /\
        exists e, last (elements p) = Some e /\ fname name' = take (Z.to_nat DIRSIZ) e
    | None => ip = 0 /\ refs_of (inodes s) (inodes s') []
    end).
Proof.
  intros FT CW Hp Hb Hl Hbn Hn. split.
  - pose proof (namex_spec D rep sb0 dstart v FT false s path p (replicate (Z.to_nat DIRSIZ) 0) CW Hp Hb Hl) as H.
    apply wp_Ok in H as ([ip nm] & s' & E & U & C & R); [|by apply Forall_replicate|by rewrite length_replicate].
    exists ip, s'. unfold namei. rewrite (bind_Ok _ _ _ _ _ E). split_and!; auto. by destruct (walk_path _ _ _ _ _ _); destruct_and!.
  - pose proof (namex_spec D rep sb0 dstart v FT true s path p name CW Hp Hb Hl Hbn Hn) as H.
    apply wp_Ok in H as ([ip nm] & s' & E & U & C & R). exists ip, nm, s'. split_and!; auto.
    destruct (walk_path _ _ _ _ _ _); [|done]. destruct R as (R1 & R2 & _ & R3). split_and!; auto.
Qed.

End Names.

(** ** The image of [mkfs] *)

Import Mkfs.

Abbreviation mkfs_dev := (log_device 0 2 30).
Abbreviation dnode_ := (dnode mkfs_dev sb).

Lemma dnode_ino v n : agrees (dnode_ v n) (ino v n) /\ i_dev (dnode_ v n) = i_dev (ino v n).
Proof. done. Qed.

Section Image.

Context (files : list (list Z * list (list Z))) (s : mk).
Hypothesis I : image files s.
Hypothesis F : fits files.

Abbreviation v := (disk_view s).
Abbreviation nf := (Z.of_nat (length files)).

Lemma image_live n : allocated mkfs_dev sb v n -> 1 <= n <= 1 + nf.
Proof.
  intros [Hr Ht]. destruct (decide (2 + nf <= n)) as [Hge|]; [|lia]. exfalso. apply Ht.
  change (i_type (dnode_ v n)) with (i_type (ino v n)). by rewrite (im_free _ _ I) by (change (sb_ninodes sb) with 200 in Hr; lia).
Qed.

Lemma image_file n : 2 <= n <= 1 + nf -> exists k f, files !! k = Some f /\ n = 2 + Z.of_nat k.
Proof.
  intros Hn. destruct (lookup_lt_is_Some_2 files (Z.to_nat (n - 2))) as [f Hf]; [lia|].
  exists (Z.to_nat (n - 2)), f. split; [done|lia].
Qed.

Lemma image_linked n : 1 <= n <= 1 + nf -> linked mkfs_dev sb v n.
Proof.
  intros Hn. unfold linked, allocated. change (sb_ninodes sb) with 200. change (i_type (dnode_ v n)) with (i_type (ino v n)). change (i_nlink (dnode_ v n)) with (i_nlink (ino v n)).
  destruct F as (_ & Hmax & _). destruct (decide (n = 1)) as [->|].
  - destruct (im_root _ _ I) as (_ & -> & -> & _). split; [split; [lia|done]|done].
  - destruct (image_file n) as (k & f & Hf & ->); [lia|]. destruct (im_file _ _ I k f Hf) as (_ & -> & -> & _). split; [split; [lia|done]|done].
Qed.

(** A file system in the sense of path lookup, unless the root directory has a hole. *)
Lemma image_tree : (2 + nf) mod 64 <> 0 -> fs_tree mkfs_dev sb nmeta v.
Proof.
  intros Hmod. destruct F as (_ & Hmax & _). split; try done.
  - intros n Hn. pose proof (image_live n Hn) as Hr. destruct (dnode_ino v n) as [Ha Hd].
    assert (iwf v (ino v n) /\ no_holes v (ino v n)) as [W NH].
    { destruct (decide (n = 1)) as [->|].
      - destruct (im_root _ _ I) as (W & _ & _ & Es & Hb). split; [done|]. split; [rewrite Es; unfold padded; change MAXFILE with 268; mklia|].
        intros bn H0 Hlt. rewrite Es in Hlt. unfold padded in Hlt. apply Hb; [change MAXFILE with 268|]; mklia.
      - destruct (image_file n) as (k & f & Hf & ->); [lia|]. destruct (im_file _ _ I k f Hf) as (W & _ & _ & Es & _ & Hb). split; [done|].
        assert (Hlen : Z.of_nat (length (concat f.2)) <= MAXFILE * BSIZE) by (destruct F as [Fg _]; by destruct (Forall_lookup_1 _ _ _ _ Fg Hf) as (_ & _ & _ & ?)).
        split; [rewrite Es; lia|]. intros bn H0 Hlt. rewrite Es in Hlt. apply Hb; [|done]. change MAXFILE with 268 in *. mklia. }
    split; [|by apply (agrees_holes v _ (ino v n))]. apply (agrees_iwf mkfs_dev sb nmeta v _ (ino v n)); auto. destruct W. by split.
  - intros n Hn Ht. pose proof (image_live n Hn) as Hr. destruct (decide (n = 1)) as [->|].
    + destruct (im_root _ _ I) as (_ & _ & _ & Es & _).
      change (i_size (dnode_ v 1)) with (i_size (ino v 1)). unfold nents. change (i_size (dnode_ v 1)) with (i_size (ino v 1)). rewrite Es.
      change sizeof_de with 16 in *. split; [unfold padded; mklia|]. intros k Hk Hnz. apply image_linked.
      rewrite (agrees_dent v _ (ino v 1) k) in * by apply dnode_ino. destruct (decide (k < 2)).
      * destruct (im_dots _ _ I k) as [-> _]; [lia|]. lia.
      * destruct (decide (k < 2 + nf)) as [Hlt|Hge].
        -- destruct (lookup_lt_is_Some_2 files (Z.to_nat (k - 2))) as [f Hf]; [lia|]. destruct (im_entry _ _ I _ f Hf) as [E _].
           replace (2 + Z.of_nat (Z.to_nat (k - 2))) with k in E by lia. rewrite E. lia.
        -- exfalso. apply Hnz, (im_rest _ _ I); [lia|]. change sizeof_de with 16. unfold padded in Hk. change MAXFILE with 268. mklia.
    + exfalso. destruct (image_file n) as (k & f & Hf & ->); [lia|]. destruct (im_file _ _ I k f Hf) as (_ & E & _).
      change (i_type (dnode_ v (2 + Z.of_nat k))) with (i_type (ino v (2 + Z.of_nat k))) in Ht. rewrite E in Ht. done.
  - apply image_linked. unfold ROOTINO. lia.
  - intros a. by apply (im_quiet _ _ I).
  - unfold v_used. cbn [v_held v_pins disk_view]. rewrite dom_empty_L, union_empty_l_L, size_empty. vm_compute. lia.
Qed.

(** The entry of the root directory for a file, found by its name. *)
Lemma image_walk k f e : files !! k = Some f -> take (Z.to_nat DIRSIZ) e = fname (short f.1) ->
  (forall j, 0 <= j < 2 -> take (Z.to_nat DIRSIZ) e <> replicate (Z.to_nat (j + 1)) 46) ->
  (forall j g, (j < k)%nat -> files !! j = Some g -> fname (short g.1) <> fname (short f.1)) ->
  walk_path mkfs_dev sb false v ROOTINO [e] = Some (2 + Z.of_nat k).
Proof.
  intros Hf He Hdots Hfirst. cbn [walk_path andb]. destruct (im_root _ _ I) as (_ & Ht & _ & Es & _).
  change (i_type (dnode_ v ROOTINO)) with (i_type (ino v 1)). rewrite Ht, Z.eqb_refl. cbn [negb].
  pose proof (lookup_lt_Some _ _ _ Hf) as Hk. destruct (dnode_ino v ROOTINO) as [Ha _]. change (ino v ROOTINO) with (ino v 1) in Ha.
  unfold dfind. pose proof (dscan_spec v (dnode_ v ROOTINO) (take (Z.to_nat DIRSIZ) e) (Z.to_nat (nents (dnode_ v ROOTINO))) 0) as H.
  assert (Hn : 2 + nf <= nents (dnode_ v ROOTINO)).
  { unfold nents. change (i_size (dnode_ v ROOTINO)) with (i_size (ino v 1)). rewrite Es. unfold padded. change sizeof_de with 16. mklia. }
  assert (Hm : forall j g, files !! j = Some g -> dmatchb v (dnode_ v ROOTINO) (take (Z.to_nat DIRSIZ) e) (2 + Z.of_nat j) = true <-> fname (short g.1) = fname (short f.1)).
  { intros j g Hg. destruct (im_entry _ _ I j g Hg) as [E1 E2]. unfold dmatchb. rewrite (agrees_dent v _ (ino v 1) _ Ha), E1, E2, He.
    rewrite andb_true_iff, bool_decide_eq_true, negb_true_iff, Z.eqb_neq. split; [by intros [_ ?]|]. intros ->. split; [lia|done]. }
  destruct (dscan _ _ _ _ _) as [x|].
  - destruct H as (Hx & Hmx & Hlt). assert (Hle : x <= 2 + Z.of_nat k).
    { destruct (decide (2 + Z.of_nat k < x)) as [Hgt|]; [|lia]. specialize (Hlt (2 + Z.of_nat k) ltac:(lia)). rewrite (proj2 (Hm k f Hf) eq_refl) in Hlt. done. }
    assert (x = 2 + Z.of_nat k) as ->; [|destruct (im_entry _ _ I k f Hf) as [E1 _]; by rewrite (agrees_dent v _ (ino v 1) _ Ha), E1].
    destruct (decide (x < 2)).
    + exfalso. destruct (im_dots _ _ I x) as [_ E2]; [lia|]. apply (Hdots x); [lia|]. rewrite <- E2. unfold dmatchb in Hmx.
      apply andb_prop in Hmx as [_ Hmx]. apply bool_decide_eq_true in Hmx. by rewrite (agrees_dent v _ (ino v 1) _ Ha) in Hmx.
    + destruct (decide (x = 2 + Z.of_nat k)) as [|Hne]; [done|exfalso].
      destruct (lookup_lt_is_Some_2 files (Z.to_nat (x - 2))) as [g Hg]; [lia|]. apply (Hfirst (Z.to_nat (x - 2)) g); [lia|done|].
      apply (Hm _ g Hg). by replace (2 + Z.of_nat (Z.to_nat (x - 2))) with x by lia.
  - exfalso. specialize (H (2 + Z.of_nat k) ltac:(lia)). rewrite (proj2 (Hm k f Hf) eq_refl) in H. done.
Qed.

End Image.

(** A process in the root directory of the disk [mkfs] has made; nothing else is cached. *)
Definition mounted (b : lst) (k : kmem) : fst lst :=
  Fst b sb false (fun ip => Inode 0 1 (if ip =? 1 then 1 else 0) initsleeplock false 0 0 0 0 0 []) 1 1 k 0 [] [].

Lemma mounted_walk files s b k : image files s -> fits files -> log_rep 0 2 30 b (disk_view s) ->
  can_walk mkfs_dev (log_rep 0 2 30) sb (disk_view s) (mounted b k).
Proof.
  intros I F Hb. assert (Hc : forall x d n, caches (inodes (mounted b k)) x d n -> x = 1 /\ n = 1).
  { intros x d n (_ & Hr & _ & Hn). cbn in *. split; [|done]. destruct (Z.eqb_spec x 1); [done|lia]. }
  split; try done.
  - split; [split|done|].
    + intros x _. cbn. destruct (x =? 1); lia.
    + intros x y d n Hx Hy. apply Hc in Hx as [-> _], Hy as [-> _]. done.
    + intros x n Hx. apply Hc in Hx as [-> ->]. split; [apply (image_linked files s I F); lia|done].
  - exists 2, 3. split_and!; try done; unfold entry, NINODE; lia.
Qed.

(** The file [user/_cat] is found as [/cat]. *)
Lemma namei_resolves_witness :
  exists s b ip s', main sample_files (Mk (fun _ => zero_block) 1 0) = Ok tt s /\ namei [47; 99; 97; 116; 0] (mounted b no_mem) = Ok ip s' /\
    caches (inodes s') ip 0 2.
Proof.
  assert (F : fits sample_files) by (split; [|by vm_compute]; repeat constructor; try done; by vm_compute).
  destruct (main_image sample_files (Mk (fun _ => zero_block) 1 0) F eq_refl) as (s & E & I); [intros; apply zero_block_ok|].
  destruct (boot_blocks (fun k => disk s k.2)) as [b Hb]. change (demo_rep b (disk_view s)) in Hb.
  destruct (namei_resolves mkfs_dev (log_rep 0 2 30) sb nmeta (disk_view s) (mounted b no_mem) [47; 99; 97; 116; 0] [47; 99; 97; 116] (replicate 14 0))
    as [(ip & s' & En & _ & _ & H) _].
  - by apply (image_tree sample_files s I F).
  - by apply (mounted_walk sample_files s).
  - split; [by apply (bool_decide_unpack _)|right; by exists []].
  - clear. repeat constructor; lia.
  - clear. by vm_compute.
  - clear. by apply Forall_replicate.
  - reflexivity.
  - exists s, b, ip, s'. split; [exact E|]. split; [exact En|]. clear E En.
    change (path_start (mounted b no_mem) [47; 99; 97; 116]) with ROOTINO in H. change (elements [47; 99; 97; 116]) with [[99; 97; 116]] in H.
    rewrite (image_walk sample_files s I 0 _ [99; 97; 116] eq_refl) in H.
    + apply H.
    + by vm_compute.
    + intros j Hj. assert (j = 0 \/ j = 1) as [-> | ->] by lia; done.
    + intros j g Hj. lia.
Defined.
