(* ===== verification/ExecRun.v ===== *)
(** * Running a program

    [exec] of [kernel/exec.c] as a whole: on a program it replaces the memory of the
    process by the image of the file with its arguments on the stack
    ([exec_program]), and without one it changes nothing ([exec_rejects]).  Both are
    run on a disk made by [mkfs]. *)
From stdpp Require Import base list gmap strings.
From Stdlib Require Import ZArith Lia.
From S2P Require Import Prelude KString Riscv Kalloc Vm VmSpec VmUser VmCopy VmFork VmProps Sleeplock Bio Log LogCrash LogOps Blocks.
From S2P Require Import Fs FsBlock FsInode FsMeta FsFile FsCache FsDir FsProps FsPath Kernel KState Proc ProcMem KernFs Syscall Exec ExecLoad ExecProps.
From S2P Require Import Mkfs MkfsView MkfsTree MkfsProps NameProps.

#[local] Open Scope Z_scope.
#[local] Open Scope xv6_scope.

Section ExecRun.

Context (end_ trampoline : Z) (end_pos : 0 < end_).
Hypothesis tramp_page : trampoline mod PGSIZE = 0 /\ 0 <= trampoline /\ trampoline + PGSIZE < 2 ^ 56.
Context {S : Type} {L : BlockLayer S} {O : OpLayer S}.
Context (D : device) (rep : S -> bview -> Prop) {HL : BlockLaws S D rep}.
Context (idle : S -> (Z -> block) -> Prop) {TX : TxLaws S (d_dev D) rep idle}.
Context (sb0 : superblock) (dstart : Z) (LY : layout D sb0 dstart).

(** C13: [exec] runs a program.  When the path leads to an ELF file whose segments
    fit and there are enough free pages, it returns the number of arguments; the process has a
    new address space that holds the segments read from the file and zeros elsewhere, an
    inaccessible guard page, and a stack page with the argument strings and the
    null-terminated vector of pointers to them; the trapframe starts it at the
    entry point with that stack and vector and is otherwise unchanged.  Every page
    of the old address space is free again, no other process changes except that it may
    be woken, the disk is unchanged, and the inode cache holds the references it held before. *)
Theorem exec_program s dk path p argv inum root l T1 fr1 :
  may_exec D idle sb0 dstart s dk -> is_path path p -> Forall is_byte p -> Z.of_nat (length path) < 2 ^ 64 ->
  has_memory end_ trampoline s (root :: l) T1 fr1 ->
  walk_path D sb0 false (v_idle dk) (kstart s p) (FsProps.elements p) = Some inum -> program D sb0 (v_idle dk) inum ->
  (10 + 3 * pages (exec_size D sb0 (v_idle dk) inum) <= length l)%nat ->
  Forall good_arg argv -> Z.of_nat (length argv) <= MAXARG ->
  exec_top D sb0 (v_idle dk) inum - PGSIZE <= argv_sp (exec_top D sb0 (v_idle dk) inum) argv ->
  exists s', exec end_ trampoline path argv s = Ok (Z.of_nat (length argv)) s' /\
    exec_result end_ trampoline D idle sb0 s s' dk root (root :: l) T1 fr1 inum path argv.
Proof.
  intros ME Hp Hb Hl HM Hw PG Hfew Hg Hargc Hsp.
  pose proof (exec_spec end_ trampoline end_pos tramp_page D rep idle sb0 dstart s dk path p argv ME Hp Hb Hl inum root l T1 fr1 HM Hw PG Hfew Hg Hargc Hsp) as H.
  apply wp_Ok in H as (r & s' & E & -> & H). by exists s'.
Qed.

(** C14: [exec] without a program fails cleanly.  When no file is at the path, or the file
    is too short for an ELF header or has another magic number, [exec] returns -1;
    the process and its memory and all others are as before (sleeping ones may be woken),
    the operation has ended with the disk unchanged, and every reference taken to an inode is dropped. *)
Theorem exec_rejects s dk path p argv :
  may_exec D idle sb0 dstart s dk -> is_path path p -> Forall is_byte p -> Z.of_nat (length path) < 2 ^ 64 ->
  match walk_path D sb0 false (v_idle dk) (kstart s p) (FsProps.elements p) with
  | Some inum => i_size (dnode D sb0 (v_idle dk) inum) < sizeof_elf \/ elf_magic (elf_of D sb0 (v_idle dk) inum) <> ELF_MAGIC
  | None => True
  end ->
  exists s', exec end_ trampoline path argv s = Ok (-1) s' /\ kstep s s' /\ idle (blk (kfs s')) dk /\
    fs_mem (kfs s') = fs_mem (kfs s) /\ refs_of (inodes (kfs s)) (inodes (kfs s')) [].
Proof.
  intros ME Hp Hb Hl Hw.
  pose proof (exec_fail end_ trampoline D rep idle sb0 dstart s dk path p argv ME Hp Hb Hl Hw) as H.
  apply wp_Ok in H as (r & s' & E & -> & H). by exists s'.
Qed.

End ExecRun.

(** ** A process that runs a program on a disk made by [mkfs] *)

Import Mkfs.

(** A program [_init] of one segment: four bytes of code, 100 bytes of memory, entry point 4. *)
Definition init_elf : list Z :=
  [127; 69; 76; 70] ++ replicate 20 0 ++ le_bytes 8 4 ++ le_bytes 8 64 ++ replicate 16 0 ++ le_bytes 2 1 ++ replicate 6 0 ++
  le_bytes 4 1 ++ replicate 4 0 ++ le_bytes 8 120 ++ le_bytes 8 0 ++ replicate 8 0 ++ le_bytes 8 4 ++ le_bytes 8 100 ++ replicate 8 0 ++
  [19; 0; 0; 0].

Definition init_files : list (list Z * list (list Z)) := [([95; 105; 110; 105; 116], [init_elf]); ([97], [])].

Lemma init_fits : fits init_files.
Proof. split; [|by vm_compute]. apply (bool_decide_unpack _). by vm_compute. Qed.

Section Init.

Context (s : mk) (I : image init_files s).

Abbreviation v := (disk_view s).
Abbreviation d := (dnode mkfs_dev sb v 2).

Lemma init_bytes off n : 0 <= off -> 0 <= n -> off + n <= 124 -> fbytes v d off n = take (Z.to_nat n) (drop (Z.to_nat off) init_elf).
Proof.
  intros H0 H1 H2. destruct (im_file _ _ I 0 _ eq_refl) as (_ & _ & _ & _ & E & _). change (concat _) with init_elf in E.
  change (Z.of_nat (length init_elf)) with 124 in E. change (fbytes v (ino v 2) 0 124 = init_elf) in E.
  replace 124 with (off + (n + (124 - off - n))) in E by lia. rewrite !fbytes_app in E by lia. rewrite <- E, drop_app_length' by (rewrite length_fbytes; lia).
  rewrite take_app_length' by (rewrite length_fbytes; lia). done.
Qed.

Lemma init_size : i_size d = 124.
Proof. destruct (im_file _ _ I 0 _ eq_refl) as (_ & _ & _ & E & _). exact E. Qed.

Lemma init_elf_of : elf_of mkfs_dev sb v 2 = take 64 init_elf.
Proof. unfold elf_of. rewrite init_bytes by done. done. Qed.

Lemma init_phs : phs_of mkfs_dev sb v 2 = [Proghdr 1 120 0 4 100].
Proof.
  unfold phs_of. rewrite init_elf_of. change (Z.to_nat (elf_phnum _)) with 1%nat. change (elf_phoff (take 64 init_elf)) with 64.
  unfold phdrs. cbn [zseq fmap list_fmap]. rewrite init_bytes by done. reflexivity.
Qed.

Lemma init_exec_size : exec_size mkfs_dev sb v 2 = 100.
Proof. unfold exec_size. by rewrite init_phs. Qed.

Lemma init_exec_top : exec_top mkfs_dev sb v 2 = 12288.
Proof. unfold exec_top. by rewrite init_exec_size. Qed.

Lemma init_program : program mkfs_dev sb v 2.
Proof.
  split; rewrite ?init_size, ?init_exec_top, ?init_elf_of, ?init_phs; try done.
  constructor; [|done]. intros _. rewrite init_size, init_exec_size. done.
Qed.

Lemma init_image va : 0 <= va -> exec_image mkfs_dev sb v 2 va = if decide (va = 0) then 19 else 0.
Proof.
  intros Hva. unfold exec_image. rewrite init_phs. cbn. unfold seg_bytes. cbn [ph_vaddr ph_filesz ph_off]. case_decide as Hd.
  - pose proof (init_bytes 120 4 ltac:(done) ltac:(done) ltac:(done)) as E. apply (f_equal (.!! Z.to_nat va)) in E.
    rewrite fbytes_lookup in E by lia. rewrite Z.sub_0_r. assert (va = 0 \/ va = 1 \/ va = 2 \/ va = 3) as [->|[->|[->| ->]]] by lia; by injection E.
  - rewrite decide_False by lia. done.
Qed.

End Init.

(** The disk [mkfs] has made, mounted by a log without an operation. *)
Lemma init_disk : exists s b, image init_files s /\ log_idle 0 2 30 b (disk s).
Proof.
  destruct (main_image init_files (Mk (fun _ => zero_block) 1 0) init_fits eq_refl) as (s & _ & I); [intros; apply zero_block_ok|].
  destruct (boot_blocks (fun k => disk s k.2)) as [b Hb]. change (log_rep 0 2 30 b (v_idle (disk s))) in Hb.
  exists s, (b <| lg := (lg b) <| outstanding := 0 |> |>). split; [done|]. split; [done|].
  destruct (log_rep_empty _ _ _ _ _ Hb) as (_ & E & _). apply (log_rep_as 0 2 30 b); auto; [|by destruct b as [? []]].
  cbn. rewrite <- E. by destruct (lg b).
Qed.

(** A process of one page in the root directory. *)
Definition exec_sample (b : lst) (k : kmem) : kst lst :=
  (boot_kst (mounted b k)) <| cur := 1 |> <| procs := upd (fun _ => zero_proc) 1
    (zero_proc <| p_state := RUNNING |> <| p_pid := 1 |> <| p_pagetable := Q64 |> <| p_sz := 4096 |> <| p_tf := R64 |> <| p_cwd := 1 |>) |>.

Lemma exec_memory : exists k root l T fr, (40 <= length l)%nat /\ forall b, has_memory E64 KERNBASE (exec_sample b k) (root :: l) T fr.
Proof.
  destruct (pool_machine 63) as [k Hk]; [lia|]. destruct (pool_root 62) as (l & El & Hl). rewrite El in Hk. destruct demo_blocks as [b0 _].
  destruct (proc_pagetable_spec E64 E64_pos KERNBASE ltac:(done) (exec_sample b0 k) 1 k Q64 l Hk) as (k1 & l1 & T1 & _ & U1 & H1 & L1 & O1 & _); [lia|done|].
  pose proof (uvmalloc_rep E64 E64_pos k1 l1 Q64 T1 [] 0 4096 U1) as H2.
  apply wp_Ok in H2 as (r & k2 & _ & l2 & T2 & H2 & [(-> & new & U2 & Hn & _ & _ & S2 & L2)|(-> & _ & _ & _ & Hfew)]); [|exfalso|done..].
  2:{ change (pages 4096) with 1%nat in Hfew. cbn in Hfew. lia. }
  cbn [app length Nat.add] in *. change (pages 4096) with 1%nat in Hn.
  assert (Hr : ~ owns T2 (frames new) l2 R64).
  { intros Hq. apply S2, O1 in Hq. change (E64 + Z.of_nat 62 * PGSIZE) with Q64 in El. rewrite <- El in Hq. revert Hq. apply (bool_decide_unpack _). by vm_compute. }
  destruct l2 as [|root l2]; [cbn in L2; lia|]. exists k2, root, l2, T2, (frames new). split; [cbn in L2; lia|]. intros b.
  split; [exact U2|by apply (high_mapped_same k1)|done|by rewrite length_frames|done|..].
  - intros Hq. apply Hr. by right; right.
  - intros [Hq|Hq]; apply Hr; [by left|by right; left].
Qed.

Lemma exec_ready s b k : image init_files s -> log_idle 0 2 30 b (disk s) ->
  may_exec mkfs_dev (log_idle 0 2 30) sb nmeta (exec_sample b k) (disk s).
Proof.
  intros I [H0 Hb]. destruct (mounted_walk init_files s _ k I init_fits Hb) as [_ _ _ Hd C Hf Hc].
  split; [split; [done|]|by split|done|done|by apply (image_tree init_files s I init_fits)|by split].
  intros p _. cbn. unfold upd. by destruct (p =? 1).
Qed.

Lemma init_walk s : image init_files s -> walk_path mkfs_dev sb false (v_idle (disk s)) ROOTINO [[105; 110; 105; 116]] = Some 2.
Proof.
  intros I. apply (image_walk init_files s I 0 _ [105; 110; 105; 116] eq_refl); [done| |intros; lia].
  intros j Hj. assert (j = 0 \/ j = 1) as [-> | ->] by lia; done.
Qed.

(** [exec("/init", {"init"})]: the image of the file is in place. *)
Lemma exec_program_witness : exists s s' l T fr,
  exec E64 KERNBASE [47; 105; 110; 105; 116; 0] [[105; 110; 105; 116; 0]] s = Ok 1 s' /\ p_sz (procs s' 1) = 12288 /\
  load64 (ram (fs_mem (kfs s'))) (R64 + TF_epc) = 4 /\ load64 (ram (fs_mem (kfs s'))) (R64 + TF_sp) = 12256 /\
  umem E64 (fs_mem (kfs s')) l (p_pagetable (procs s' 1)) T fr /\ ubytes (fs_mem (kfs s')) fr 0 8 = [19; 0; 0; 0; 0; 0; 0; 0].
Proof.
  destruct init_disk as (s & b & I & Hb). destruct exec_memory as (k & root & l & T1 & fr1 & Hl & HM).
  destruct (exec_program E64 KERNBASE E64_pos ltac:(done) mkfs_dev (log_rep 0 2 30) (log_idle 0 2 30) sb nmeta (exec_sample b k) (disk s)
    [47; 105; 110; 105; 116; 0] [47; 105; 110; 105; 116] [[105; 110; 105; 116; 0]] 2 root l T1 fr1) as (s' & E & X).
  - by apply exec_ready.
  - split; [by apply (bool_decide_unpack _)|right; by exists []].
  - repeat constructor; lia.
  - by vm_compute.
  - apply HM.
  - by apply (init_walk s).
  - by apply (init_program s).
  - change (v_idle (disk s)) with (disk_view s). rewrite (init_exec_size s I). change (pages 100) with 1%nat. lia.
  - repeat constructor; lia.
  - done.
  - change (v_idle (disk s)) with (disk_view s). rewrite (init_exec_top s I). done.
  - destruct X as [(l' & T' & fr' & N & _) _ Hr _ Hp _ _ _ _ _]. change (v_idle (disk s)) with (disk_view s) in *.
    rewrite (init_exec_top s I) in *. rewrite (init_elf_of s I) in Hr. destruct N as [U Hlen Hby _ _].
    exists (exec_sample b k), s', l', T', fr'. split; [exact E|]. change (cur (exec_sample b k)) with 1 in Hp. rewrite Hp. split; [done|].
    destruct Hr as (R1 & R2 & _). split; [exact R1|]. split; [etrans; [exact R2|by vm_compute]|]. split; [exact U|].
    trans ((fun i => if decide (i = 0) then 19 else 0) <$> zseq 0 8); [|by vm_compute].
    apply list_fmap_ext. intros j i Hi. apply list_elem_of_lookup_2, elem_of_zseq in Hi. destruct (Hby i) as (a & Ea & Eg); [unfold PGSIZE; lia|].
    change (0 + i) with i. rewrite Ea. cbn [default from_option id]. rewrite Eg. apply (init_image s I). lia.
Defined.

(** [exec("/a", {})]: the file is empty. *)
Lemma exec_rejects_witness : exists s s', exec E64 KERNBASE [47; 97; 0] [] s = Ok (-1) s' /\ procs s' 1 = procs s 1 /\ p_sz (procs s' 1) = 4096.
Proof.
  destruct init_disk as (s & b & I & Hb). destruct exec_memory as (k & _).
  destruct (exec_rejects E64 KERNBASE mkfs_dev (log_rep 0 2 30) (log_idle 0 2 30) sb nmeta (exec_sample b k) (disk s)
    [47; 97; 0] [47; 97] []) as (s' & E & K & _).
  - by apply exec_ready.
  - split; [by apply (bool_decide_unpack _)|right; by exists []].
  - repeat constructor; lia.
  - by vm_compute.
  - change (kstart (exec_sample b k) [47; 97]) with ROOTINO. change (FsProps.elements [47; 97]) with [[97]].
    change (v_idle (disk s)) with (disk_view s). rewrite (image_walk init_files s I 1 _ [97] eq_refl).
    + left. destruct (im_file _ _ I 1 _ eq_refl) as (_ & _ & _ & Es & _). change (i_size (ino (disk_view s) 3) < 64). change (2 + Z.of_nat 1) with 3 in Es. rewrite Es. done.
    + done.
    + intros j Hj. assert (j = 0 \/ j = 1) as [-> | ->] by lia; done.
    + intros j g Hj Hg. assert (j = 0%nat) as -> by lia. injection Hg as <-. done.
  - exists (exec_sample b k), s'. split; [exact E|]. assert (H : procs s' 1 = procs (exec_sample b k) 1); [|by rewrite H].
    assert (R : running (exec_sample b k)) by (by apply (exec_ready s b k)). pose proof (kstep_me _ _ R K) as H. by rewrite (kstep_cur _ _ K) in H.
Defined.
