(* ===== verification/Utils.v ===== *)
(** * Small user programs: [user/wc.c], [user/cat.c], [user/echo.c]

    A file is what successive calls of [read] deliver: pieces of at least one byte, then 0
    or an error.  The result of a program is what it writes to its output and its exit
    status.  [wc_counts]: [wc] counts lines, words and bytes, however the input is cut
    into reads; [cat_copies]: [cat] copies its files. *)
From stdpp Require Import base list gmap strings.
From Stdlib Require Import ZArith Lia.
From S2P Require Import Prelude KString Ulib Sh ShRun.

#[local] Open Scope Z_scope.
#[local] Open Scope xv6_scope.

Module Utils.

Record source : Type := Source {
  pieces : list (list Z);
  broken : bool               (** the last [read] fails *)
}.

(** What was written, and the status when the program has ended. *)
Definition result : Type := list Z * option Z.

Definition andthen (r : result) (k : result) : result :=
  match r with
  | (out, Some status) => (out, Some status)
  | (out, None) => (out ++ k.1, k.2)
  end.

(** ** [wc.c] *)

Record counts : Type := Counts { c_l : Z; c_w : Z; c_c : Z; inword : bool }.

Definition blanks : list Z := [32; 13; 9; 10; 11].      (** space, CR, TAB, LF, VT *)

Definition wc_byte (x : counts) (b : Z) : counts :=
  let '(Counts l w c inword) := x in
  let c := s32 (c + 1) in
  let l := if b =? 10 then s32 (l + 1) else l in
  if U.strchr blanks b then Counts l w c false
  else if negb inword then Counts l (s32 (w + 1)) c true
  else Counts l w c inword.

Fixpoint wc_loop (ps : list (list Z)) (x : counts) : counts :=
  match ps with
  | [] => x
  | buf :: ps => wc_loop ps (fold_left wc_byte buf x)
  end.

Definition wc (fd : source) (name : list Z) : result :=
  let x := wc_loop (pieces fd) (Counts 0 0 0 false) in
  if broken fd then (U.fprintf (str "wc: read error" ++ [10]) [], Some 1)
  else (U.fprintf (str "%d %d %d %s" ++ [10]) [U.UInt (c_l x); U.UInt (c_w x); U.UInt (c_c x); U.UStr (Some name)], None).

Fixpoint wc_files (open : list Z -> option source) (argv : list (list Z)) : result :=
  match argv with
  | [] => ([], Some 0)
  | arg :: argv =>
      match open arg with
      | None => (U.fprintf (str "wc: cannot open %s" ++ [10]) [U.UStr (Some arg)], Some 1)
      | Some fd => andthen (wc fd arg) (wc_files open argv)
      end
  end.

(** [argv] without the name of the program. *)
Definition wc_main (stdin : source) (open : list Z -> option source) (argv : list (list Z)) : result :=
  match argv with
  | [] => andthen (wc stdin []) ([], Some 0)
  | _ => wc_files open argv
  end.

(** ** [cat.c] *)

(** [write n] is what [write(1, buf, n)] returns. *)
Fixpoint cat_loop (write : Z -> Z) (ps : list (list Z)) (broken : bool) : result :=
  match ps with
  | [] => if broken then (U.fprintf (str "cat: read error" ++ [10]) [], Some 1) else ([], None)
  | buf :: ps =>
      let n := Z.of_nat (length buf) in
      let done := take (Z.to_nat (write n)) buf in
      if negb (write n =? n) then (done ++ U.fprintf (str "cat: write error" ++ [10]) [], Some 1)
      else andthen (done, None) (cat_loop write ps broken)
  end.

Definition cat (write : Z -> Z) (fd : source) : result := cat_loop write (pieces fd) (broken fd).

Fixpoint cat_files (write : Z -> Z) (open : list Z -> option source) (argv : list (list Z)) : result :=
  match argv with
  | [] => ([], Some 0)
  | arg :: argv =>
      match open arg with
      | None => (U.fprintf (str "cat: cannot open %s" ++ [10]) [U.UStr (Some arg)], Some 1)
      | Some fd => andthen (cat write fd) (cat_files write open argv)
      end
  end.

Definition cat_main (write : Z -> Z) (stdin : source) (open : list Z -> option source) (argv : list (list Z)) : result :=
  match argv with
  | [] => andthen (cat write stdin) ([], Some 1)
  | _ => cat_files write open argv
  end.

(** ** [echo.c] *)

Fixpoint echo_main (argv : list (list Z)) : result :=
  match argv with
  | [] => ([], Some 0)
  | arg :: argv => andthen (arg ++ match argv with [] => [10] | _ => [32] end, None) (echo_main argv)
  end.

(** ** What [wc] counts *)

Definition blank (b : Z) : bool := bool_decide (b ∈ blanks).

Lemma strchr_blank b : U.strchr blanks b = blank b.
Proof.
  unfold blank, U.strchr, blanks. cbn [U.strchr_from].
  destruct (Z.eqb_spec 32 b), (Z.eqb_spec 13 b), (Z.eqb_spec 9 b), (Z.eqb_spec 10 b), (Z.eqb_spec 11 b); subst; try done.
  symmetry. apply bool_decide_eq_false. rewrite !elem_of_cons, elem_of_nil. naive_solver.
Qed.

(** The maximal pieces without a blank; [cur] is the part already seen of the first one. *)
Fixpoint words (s cur : list Z) : list (list Z) :=
  match s with
  | [] => match cur with [] => [] | _ => [cur] end
  | b :: s => if blank b then match cur with [] => words s [] | _ => cur :: words s [] end else words s (cur ++ [b])
  end.

Definition newlines (s : list Z) : nat := count_occ Z.eq_dec s 10.

Definition seen (cur : list Z) : Z := match cur with [] => 0 | _ => 1 end.

Lemma length_words s cur : (length (words s cur) <= length s + length cur)%nat /\ seen cur <= Z.of_nat (length (words s cur)).
Proof.
  revert cur. induction s as [|b s IH]; intros cur; cbn [words].
  - destruct cur; cbn; lia.
  - destruct (blank b); [destruct cur|]; cbn [length seen] in *.
    + specialize (IH []). cbn in IH. lia.
    + specialize (IH []). cbn in IH. lia.
    + specialize (IH (cur ++ [b])). rewrite length_app in IH. cbn [length] in IH. destruct cur; cbn [seen app length] in *; lia.
Qed.

(** Nothing overflows in [n] more bytes. *)
Definition small (x : counts) (n : nat) : Prop := 0 <= c_l x /\ 0 <= c_w x /\ c_l x <= c_c x /\ c_w x <= c_c x /\ c_c x + Z.of_nat n < 2 ^ 31.

Lemma wc_fold s : forall x cur, small x (length s) -> inword x = bool_decide (cur <> []) ->
  let x' := fold_left wc_byte s x in
  c_l x' = c_l x + Z.of_nat (newlines s) /\ c_w x' = c_w x + Z.of_nat (length (words s cur)) - seen cur /\ c_c x' = c_c x + Z.of_nat (length s).
Proof.
  induction s as [|b s IH]; intros x cur Hs Hi; cbn [fold_left].
  - cbn. destruct cur; cbn; lia.
  - destruct x as [l w c i]. destruct Hs as (H1 & H2 & H3 & H4 & H5). cbn [c_l c_w c_c inword length] in *.
    set (l' := if b =? 10 then s32 (l + 1) else l).
    change (wc_byte (Counts l w c i) b) with (if U.strchr blanks b then Counts l' w (s32 (c + 1)) false else if negb i then Counts l' (s32 (w + 1)) (s32 (c + 1)) true else Counts l' w (s32 (c + 1)) i).
    rewrite strchr_blank.
    assert (El : l' = l + (if decide (b = 10) then 1 else 0)).
    { unfold l'. destruct (Z.eqb_spec b 10); [rewrite decide_True by done; apply s32_small; zpow; lia|rewrite decide_False by done; lia]. }
    assert (Ec : s32 (c + 1) = c + 1) by (apply s32_small; zpow; lia). rewrite Ec.
    assert (Hn : Z.of_nat (newlines (b :: s)) = (if decide (b = 10) then 1 else 0) + Z.of_nat (newlines s)).
    { unfold newlines. destruct (decide (b = 10)) as [->|N]; [rewrite count_occ_cons_eq by done; lia|rewrite count_occ_cons_neq by done; lia]. }
    rewrite Hn. cbn [words length].
    assert (Hsm : forall w' i', 0 <= w' <= c + 1 -> small (Counts l' w' (c + 1) i') (length s)) by (intros w' i' Hw; unfold small; cbn [c_l c_w c_c]; destruct (decide (b = 10)); lia).
    destruct (blank b).
    + destruct (IH (Counts l' w (c + 1) false) [] (Hsm w false ltac:(lia)) eq_refl) as (A1 & A2 & A3). cbn [c_l c_w c_c seen] in *.
      rewrite A1, A2, A3. destruct cur; cbn [length seen]; lia.
    + assert (Ei : negb i = bool_decide (cur = [])) by (rewrite Hi; destruct cur; done). rewrite Ei. destruct cur as [|y cur].
      * rewrite bool_decide_eq_true_2 by done. assert (Ew : s32 (w + 1) = w + 1) by (apply s32_small; zpow; lia). rewrite Ew.
        destruct (IH (Counts l' (w + 1) (c + 1) true) [b] (Hsm (w + 1) true ltac:(lia)) eq_refl) as (A1 & A2 & A3). cbn [c_l c_w c_c seen app] in *. lia.
      * rewrite bool_decide_eq_false_2 by done. assert (i = true) as -> by (by rewrite Hi).
        destruct (IH (Counts l' w (c + 1) true) ((y :: cur) ++ [b]) (Hsm w true ltac:(lia)) eq_refl) as (A1 & A2 & A3). cbn [c_l c_w c_c seen app] in *. lia.
Qed.

Lemma wc_loop_concat ps x : wc_loop ps x = fold_left wc_byte (concat ps) x.
Proof. revert x. induction ps as [|p ps IH]; intros x; [done|]. cbn [wc_loop concat]. rewrite IH. by rewrite fold_left_app. Qed.

(** [wc] prints the number of newlines, of words between blanks, and of bytes of the
    file, whatever the sizes of the pieces in which [read] delivers it. *)
Theorem wc_counts fd name : broken fd = false -> Z.of_nat (length (concat (pieces fd))) < 2 ^ 31 -> let s := concat (pieces fd) in
  wc fd name = (U.fprintf (str "%d %d %d %s" ++ [10])
    [U.UInt (Z.of_nat (newlines s)); U.UInt (Z.of_nat (length (words s []))); U.UInt (Z.of_nat (length s)); U.UStr (Some name)], None).
Proof.
  intros Hb Hl s. unfold wc. rewrite Hb, wc_loop_concat. fold s.
  destruct (wc_fold s (Counts 0 0 0 false) []) as (A1 & A2 & A3); [unfold small; cbn [c_l c_w c_c]; fold s in Hl; lia|done|].
  cbn [c_l c_w c_c seen] in *. rewrite A1, A2, A3. rewrite Z.sub_0_r. done.
Qed.

Lemma wc_counts_witness : let fd := Source [[97; 32; 98]; [99; 10]] false in
  wc fd [120] = (U.fprintf (str "%d %d %d %s" ++ [10]) [U.UInt 1; U.UInt 2; U.UInt 5; U.UStr (Some [120])], None).
Proof. intros fd. apply (wc_counts fd [120]); by vm_compute. Defined.

(** ** What [cat] copies *)

Lemma cat_loop_copies write ps : (forall n, write n = n) -> cat_loop write ps false = (concat ps, None).
Proof.
  intros Hw. induction ps as [|p ps IH]; [done|]. cbn [cat_loop concat]. rewrite Hw, Z.eqb_refl. cbn [negb]. rewrite IH, Nat2Z.id, firstn_all. done.
Qed.

(** [cat] of files that can be opened and read writes their bytes, in the order of the
    arguments, and succeeds. *)
Theorem cat_copies write stdin open argv fds : (forall n, write n = n) -> argv <> [] -> open <$> argv = Some <$> fds -> Forall (fun fd => broken fd = false) fds ->
  cat_main write stdin open argv = (concat (concat (pieces <$> fds)), Some 0).
Proof.
  intros Hw Hne Ho Hb. unfold cat_main. destruct argv as [|a argv]; [done|]. clear Hne. revert Ho Hb. generalize (a :: argv) as args. intros args. revert fds.
  induction args as [|x args IH]; intros [|fd fds] Ho Hb; try done. cbn in Ho. injection Ho as H1 H2. apply Forall_cons in Hb as [Hb1 Hb2].
  cbn [cat_files]. rewrite H1, (IH fds H2 Hb2). unfold cat. rewrite Hb1, cat_loop_copies by done. cbn [andthen fst snd fmap list_fmap concat].
  by rewrite concat_app.
Qed.

End Utils.
