(* ===== verification/UThread.v ===== *)
(** * [user/uthread.c]: the scheduler of the user-level threads

    The table of threads and the current one; [thread_switch] is not called by the
    program as it stands, so the switch of stacks is not part of the model.  An address
    in the table is the index of the thread, and index [MAX_THREAD] is the memory behind
    the table.  [thread_yield_fair]: a thread that is ready gets its turn within
    [MAX_THREAD] - 1 yields. *)
From stdpp Require Import base list gmap strings.
From Stdlib Require Import ZArith Lia.
From S2P Require Import Prelude KString.

#[local] Open Scope Z_scope.

Module UThread.

Definition FREE : Z := 0.
Definition RUNNING : Z := 1.
Definition RUNNABLE : Z := 2.
Definition MAX_THREAD : Z := 4.

Record threads : Type := Threads {
  state : Z -> Z;
  current_thread : Z
}.

Definition thread_init (s : threads) : threads := Threads (upd (state s) 0 RUNNING) 0.

(** The loop over [i]: the next thread that can run, from [t] on. *)
Fixpoint find_thread (n : nat) (st : Z -> Z) (t : Z) : option Z :=
  match n with
  | O => None
  | S n =>
      let t := if t >=? MAX_THREAD then 0 else t in
      if st t =? RUNNABLE then Some t else find_thread n st (t + 1)
  end.

(** [None]: the program exits with "no runnable threads". *)
Definition thread_schedule (s : threads) : option threads :=
  match find_thread (Z.to_nat MAX_THREAD) (state s) (current_thread s + 1) with
  | None => None
  | Some next =>
      if negb (current_thread s =? next) then Some (Threads (upd (state s) next RUNNING) next)
      else Some s
  end.

Fixpoint free_thread (n : nat) (st : Z -> Z) (t : Z) : Z :=
  match n with
  | O => t
  | S n => if st t =? FREE then t else free_thread n st (t + 1)
  end.

Definition thread_create (s : threads) : threads :=
  let t := free_thread (Z.to_nat MAX_THREAD) (state s) 0 in
  Threads (upd (state s) t RUNNABLE) (current_thread s).

Definition thread_yield (s : threads) : option threads :=
  thread_schedule (Threads (upd (state s) (current_thread s) RUNNABLE) (current_thread s)).

(** ** Fairness *)

Definition thread (t : Z) : Prop := 0 <= t < MAX_THREAD.

(** How far [t] is after [c], at least 1: the thread itself is last. *)
Definition dist (c t : Z) : Z := (t - c - 1) mod MAX_THREAD + 1.

Definition nth_after (c i : Z) : Z := (c + i) mod MAX_THREAD.

Lemma find_thread_spec st n : forall c i, thread c -> 0 < i -> i + Z.of_nat n = MAX_THREAD + 1 ->
  match find_thread n st (if c + i <=? MAX_THREAD then c + i else c + i - MAX_THREAD) with
  | None => forall j, i <= j <= MAX_THREAD -> st (nth_after c j) <> RUNNABLE
  | Some t => exists j, i <= j <= MAX_THREAD /\ t = nth_after c j /\ st t = RUNNABLE /\ forall j', i <= j' < j -> st (nth_after c j') <> RUNNABLE
  end.
Proof.
  induction n as [|n IH]; intros c i Hc Hi Hn; cbn [find_thread]; [intros j Hj; lia|].
  assert (Et : (if (if c + i <=? MAX_THREAD then c + i else c + i - MAX_THREAD) >=? MAX_THREAD then 0 else (if c + i <=? MAX_THREAD then c + i else c + i - MAX_THREAD)) = nth_after c i).
  { unfold nth_after, thread, MAX_THREAD in *. rewrite Z.geb_leb. destruct (Z.leb_spec (c + i) 4); destruct (Z.leb_spec 4 (c + i)), (Z.leb_spec 4 (c + i - 4)); zlia. }
  rewrite Et. destruct (Z.eqb_spec (st (nth_after c i)) RUNNABLE) as [E|N].
  - exists i. split_and!; auto; lia.
  - specialize (IH c (i + 1) Hc ltac:(lia) ltac:(lia)).
    assert (En : n = O \/ nth_after c i + 1 = (if c + (i + 1) <=? MAX_THREAD then c + (i + 1) else c + (i + 1) - MAX_THREAD)).
    { destruct n; [by left|right]. unfold nth_after, thread, MAX_THREAD in *. destruct (Z.leb_spec (c + (i + 1)) 4); zlia. }
    destruct En as [->|En].
    + cbn [find_thread]. intros j Hj. by replace j with i by lia.
    + rewrite En. destruct (find_thread n st _) as [t|].
      * destruct IH as (j & H1 & H2 & H3 & H4). exists j. split_and!; auto; [lia|lia|]. intros j' Hj'. destruct (decide (j' = i)) as [->|]; [done|apply H4; lia].
      * intros j Hj. destruct (decide (j = i)) as [->|]; [done|apply IH; lia].
Qed.

Lemma dist_nth c t : thread c -> thread t -> 1 <= dist c t <= MAX_THREAD /\ nth_after c (dist c t) = t.
Proof. unfold dist, nth_after, thread, MAX_THREAD. intros. zlia. Qed.

(** The schedule takes the first thread that is ready after the current one. *)
Lemma thread_schedule_spec s t : thread (current_thread s) -> thread t -> state s t = RUNNABLE ->
  exists s', thread_schedule s = Some s' /\ thread (current_thread s') /\ dist (current_thread s) (current_thread s') <= dist (current_thread s) t /\
    (forall x, x <> current_thread s' -> state s' x = state s x) /\ state s (current_thread s') = RUNNABLE.
Proof.
  intros Hc Ht Hr. destruct (dist_nth _ _ Hc Ht) as [Hd En]. unfold thread_schedule.
  pose proof (find_thread_spec (state s) (Z.to_nat MAX_THREAD) (current_thread s) 1 Hc ltac:(lia) eq_refl) as H.
  assert (E1 : (if current_thread s + 1 <=? MAX_THREAD then current_thread s + 1 else current_thread s + 1 - MAX_THREAD) = current_thread s + 1)
    by (unfold thread, MAX_THREAD in *; by rewrite (proj2 (Z.leb_le _ _)) by lia).
  rewrite E1 in H. destruct (find_thread _ _ _) as [x|]; [|exfalso; apply (H (dist (current_thread s) t)); [done|by rewrite En]].
  destruct H as (j & Hj & -> & Hx & Hb). assert (Hle : j <= dist (current_thread s) t).
  { destruct (Z.le_gt_cases j (dist (current_thread s) t)); [done|]. exfalso. apply (Hb (dist (current_thread s) t)); [lia|by rewrite En]. }
  assert (Hth : thread (nth_after (current_thread s) j)) by (unfold thread, nth_after, MAX_THREAD; zlia).
  assert (Hdj : dist (current_thread s) (nth_after (current_thread s) j) = j) by (unfold dist, nth_after, thread, MAX_THREAD in *; zlia).
  destruct (Z.eqb_spec (current_thread s) (nth_after (current_thread s) j)) as [E|N]; cbn [negb].
  - exists s. rewrite <- E in *. split_and!; auto. lia.
  - eexists. split; [reflexivity|]. cbn [current_thread state]. split_and!; auto; [lia|]. intros x Hne. by apply upd_other.
Qed.

Fixpoint yields (n : nat) (s : threads) : option threads :=
  match n with
  | O => Some s
  | S n => match thread_yield s with Some s' => yields n s' | None => None end
  end.

(** A thread that is ready and not the current one runs after at most three yields. *)
Theorem thread_yield_fair s t : thread (current_thread s) -> thread t -> t <> current_thread s -> state s t = RUNNABLE ->
  exists n s', (n <= 3)%nat /\ yields n s = Some s' /\ current_thread s' = t.
Proof.
  assert (H : forall d s, thread (current_thread s) -> thread t -> state s t = RUNNABLE -> t <> current_thread s -> dist (current_thread s) t = Z.of_nat d ->
    exists n s', (n <= d)%nat /\ yields n s = Some s' /\ current_thread s' = t).
  { intros d. induction d as [d IH] using lt_wf_ind. intros s0 Hc Ht Hr Hne Hd. destruct (dist_nth _ _ Hc Ht) as [Hd1 En].
    set (s1 := Threads (upd (state s0) (current_thread s0) RUNNABLE) (current_thread s0)).
    assert (Hr1 : state s1 t = RUNNABLE) by (cbn; by rewrite upd_other).
    destruct (thread_schedule_spec s1 t Hc Ht Hr1) as (s2 & E & Hc2 & Hle & Hk & Hx). cbn [s1 current_thread] in Hle.
    destruct (decide (current_thread s2 = t)) as [Et|Nt].
    - exists 1%nat, s2. split; [lia|]. split; [|done]. cbn [yields]. unfold thread_yield. fold s1. by rewrite E.
    - assert (Hd2 : dist (current_thread s2) t < Z.of_nat d /\ 1 <= dist (current_thread s2) t).
      { unfold dist, thread, MAX_THREAD in *. zlia. }
      destruct (IH (Z.to_nat (dist (current_thread s2) t)) ltac:(lia) s2 Hc2 Ht) as (n & s3 & Hn & Ey & Ec); [|done|lia|].
      { rewrite Hk by done. done. }
      exists (S n), s3. split; [lia|]. split; [|done]. cbn [yields]. unfold thread_yield. fold s1. by rewrite E. }
  intros Hc Ht Hne Hr. destruct (H (Z.to_nat (dist (current_thread s) t)) s Hc Ht Hr Hne) as (n & s' & Hn & E & Et).
  - destruct (dist_nth _ _ Hc Ht). lia.
  - exists n, s'. split; [|done]. unfold dist, thread, MAX_THREAD in *. zlia.
Qed.

Lemma thread_yield_fair_witness : exists n s', (n <= 3)%nat /\ yields n (Threads (fun t => if t =? 1 then 1 else 2) 1) = Some s' /\ current_thread s' = 0.
Proof. apply thread_yield_fair; [by vm_compute|by vm_compute|discriminate|reflexivity]. Defined.

(** With the table full [thread_create] writes behind it. *)
Theorem thread_create_overflow s : (forall t, thread t -> state s t <> FREE) ->
  state (thread_create s) MAX_THREAD = RUNNABLE /\ forall t, thread t -> state (thread_create s) t = state s t.
Proof.
  intros H. unfold thread_create. assert (E : free_thread (Z.to_nat MAX_THREAD) (state s) 0 = MAX_THREAD).
  { change (Z.to_nat MAX_THREAD) with 4%nat. cbn [free_thread]. rewrite !(proj2 (Z.eqb_neq _ FREE)); [done|apply H; done..]. }
  rewrite E. cbn [state]. split; [apply upd_same|]. intros t Ht. apply upd_other. unfold thread in Ht. lia.
Qed.

End UThread.
